(* ===== verification/_CoqProject ===== *)
-Q . S2P
Prelude.v
AmfWire.v
AmfValue.v
AmfSafety.v
AmfTheorems.v
Buckets.v
AgMap.v
Hash.v
Buffer.v
CodeQueue.v
Lrm.v
Timer.v
Network.v
NetworkTheorems.v
Package.v
Dlist.v
Keyed.v
Waiting.v
Client.v
EventManager.v
WorldBackend.v
NotifyCount.v
Notify.v
NotifyTheorems.v
Gateway.v
GatewayTheorems.v
GatewayWorld.v
Account.v
Login.v
LoginTheorems.v
Player.v
PlayerLemmas.v
PlayerCache.v
PlayerTheorems.v
RequestQueue.v
Dispatch.v
DispatchTheorems.v
Message.v
EndToEnd.v
Timeline.v
RankReward.v
Matrix.v
Memory.v
StringCache.v
Array.v
Data.v
DataSet.v
PlayerNotify.v
RewardFlag.v
Daily.v
HeroMaps.v
HeroItem.v
Addicted.v
ItemGrow.v
Growth.v
Compensate.v
Item.v
ItemTheorems.v
ItemPackage.v
Consume.v
ConsumeTheorems.v
HeroProperty.v
