(* ===== verification/Prelude.v ===== *)
(** * A verification development of the cserver game server

    This library models the C core of the server and proves what its parts
    promise to each other.  It has three layers, as the program has:

    - [src/framework/], the library every process is linked with: the AMF3
      codec ([amf.c]), the hash tables ([map.c], [hash.c]), the byte buffer
      ([buffer.c]), the message ring ([codequeue.c]), the pool of resource
      handles ([lrm.c]), the intrusive lists ([dlist.h]), arrays, pipes, the
      page allocator and the interned strings ([array.c], [pipe.c],
      [memory.c], [stringCache.c]), tables in text files ([matrix.c]), the
      connections ([network.c]) and the wire headers ([package.h]);
    - [src/gateway/], the process clients connect to: logging in ([auth.c],
      [authserver.c]) with its accounts ([account.c]), the table of clients
      ([client.c]), the worlds and the backends it is connected to ([world.c],
      [backend.c]) and the forwarding of packages ([translate.c]);
    - [src/world/], the game process: the dispatching of requests
      ([dispatch.c]) through the queue each player has
      ([modules/request_queue.c]), the cache of loaded players ([player.c]),
      the notifications of players ([notify.c]),
      its timing wheel ([timer.c]), its event queue ([event_manager.c]), its
      calendar ([timeline.c]), the building and opening of messages
      ([message.c], [backend.c]), and the data of the players: the functions
      that [src/code_generate/] writes for each table, and over them the
      modules of [modules/], of which the reward flags, the daily counters, the
      items of heroes and the items of players with their compensation are
      modelled, the rank lists ([rankreward.c]), the play time of minors
      ([addicted.c]), the items that grow ([config/item.c]), what is given for
      too much of them ([config/compensate.c]), what counts for a hero in a
      fight ([calc/calc.c]) and how a player pays ([logic/aL.c] over the
      packages of [config/item_package.c]).

    A client's package arrives in pieces on a connection; [network.c] puts the
    pieces together and calls the gateway's handler with whole messages;
    [translate.c] checks that the payload is one AMF array and sends it, under
    the header of [package.h], to a backend or to the client's world; answers
    come back the same way and are given to the client found in [client.c],
    which is an [lrm.c] handle of a connection, found through [map.c] and kept
    in the order of last use by [dlist.h].

    A connection becomes a client's by a login: [auth.c] sends the token to an
    authentication server, [authserver.c] keeps the request until it is
    answered or too old, and a positive answer resolves the account to a
    player ([account.c]), enters the client and hands the login on to a world.
    There the package is entered in the player's queue and served by the
    handler of its command; the player itself is loaded into the cache when it
    is asked for and unloaded when it has been offline for a quarter of an
    hour.  A module of a player keeps records of the player's rows in memory,
    finds them by their number and changes them through the generated
    functions, which mark what is changed; a flush writes it to the database
    some time later, also for players that have left.

    ** How C is modelled

    Every C function is one definition that carries its name.  Integers are
    [Z] with the conversions to their width written where the code has them
    ([u8], [u32], [u64], [i32], [i64] below).  A function runs in the monad
    [outcome]: [Ret] is a return, [Undef] undefined behaviour (an access
    outside its object, a null pointer, a division by zero), [Abort] a failed
    [assert], [NoFuel] a loop that has used up the steps it was given.  A
    theorem that says a call is [Ret] therefore says that it terminates and
    that it is free of undefined behaviour.  Memory is a list of bytes with
    checked [load] and [store], a heap of structures a finite map from
    addresses.  A loop whose bound is not a structure of its input takes its
    fuel from the definition that starts it, as a function of the input, and
    the theorems prove that this is enough: the AMF reader gets one step per
    byte of the message, the message loop of a connection one per byte
    received, the [recv] loop one per scripted result, the doubling loops 65
    (a 64-bit size doubles at most 64 times).

    System calls are not code of this repository: their results are arguments.
    [kernel] (Network) is the script of what [recv], [send], [accept] and the
    rest answer, [realloc_ok] whether a buffer can grow; the theorems hold for
    every script.  Other allocations succeed: where the code does not test
    [malloc] the theorems assume that it gave the memory, also in
    [amf_new_array] ([framework/amf.c:1081]), where the size is that of a
    message someone else sent and may be 2^28 entries, cleared by [memset].  The handlers behind a connection and the callbacks of
    timers and events are function arguments.

    ** The files

    - [Prelude]: machine integers, the [outcome] monad, byte memory, shared
      lemmas on lists and numbers, the tactics [ztests], [zbool] and the hint
      database [cserver].
    - [AmfWire], [AmfValue] ([framework/amf.c]): the primitive encoders and
      decoders; values, accessors, array operations, [amf_encode],
      [amf_get_encode_length], [amf_read].  [AmfSafety]: the reader on
      arbitrary bytes.  [AmfTheorems]: the codec's theorems.
    - [Buckets]: what the two hash tables share.  [AgMap] ([framework/map.c],
      integer and string maps over the class [MapKey]; the class [PtrMap] with
      its laws is the interface its clients are proved against).  [Hash]
      ([framework/hash.c] over any comparison of the class [KeyOrder], and
      [account_change] of [gateway/account.c]).
    - [Buffer], [CodeQueue], [Lrm], [Dlist]: [framework/buffer.c],
      [codequeue.c], [lrm.c] and [dlist.h] (the class [Linked] is a structure
      with two link fields).
    - [Network], [NetworkTheorems] ([framework/network.c]): connection states,
      the read and the write path, closing, the event loop; the class
      [Framing] is what the read path asks of a protocol.
    - [Package] ([framework/package.h] and the functions that build and open
      messages): its two protocols are instances of [Framing].
    - [Client] ([gateway/client.c]) over [Dlist] and the interface [PtrMap].
    - [Gateway], [GatewayTheorems] ([gateway/world.c], [backend.c],
      [translate.c]) over [Client], [Package] and the AMF reader.
      [GatewayWorld]: what the gateway does with the packages of a world.
    - [Keyed]: queues of heap nodes with an index by key, shared by [Waiting]
      ([gateway/auth.c], the connections that have not logged in), [Account]
      ([gateway/account.c], the queries of [database.c]), and [Login],
      [LoginTheorems] ([gateway/auth.c], [authserver.c] as one step function
      with the routing).
    - [Player], [PlayerLemmas], [PlayerCache], [PlayerTheorems]
      ([world/player.c]): players, their modules behind the class [Modules],
      the indexes and lists, and sequences of calls.
    - [RequestQueue] ([world/modules/request_queue.c], an instance of
      [Modules]), [Dispatch], [DispatchTheorems] ([world/dispatch.c]; the
      command handlers are the class [Handlers]); [Message] ([message.c],
      [realtime.c] and the rest of [dispatch.c]).
    - [WorldBackend] ([world/backend.c]: the backends of a world, their
      connections, and sending to them).  [NotifyCount] (the table of counts of
      [world/notify.c] and its messages to the ADSupport backend; the code of
      [pbc] is the class [Pbc]), [Notify], [NotifyTheorems] (its queue of
      notifications; sending is the class [Sender], of which [Message] has the
      instance).
    - [EndToEnd]: the path from a notification in the world through the gateway
      to the client.
    - [Timer] ([world/timer.c]), [Addicted] ([world/addicted.c]) over it and the
      class [Host] of the rest of the program, [EventManager] ([world/event_manager.c], over
      [Buffer]), [Timeline] ([world/timeline.c]), [RankReward]
      ([world/rankreward.c]).
    - [ItemGrow] ([world/config/item.c] and the growth of items in
      [calc/calc.c], over [PtrMap]), [HeroProperty] (the rest of
      [calc/calc.c]; the configuration tables and the data of the player are
      records of functions, single precision is [SpecFloat] of the Standard
      Library).
    - [Array] ([framework/array.c], [pipe.c]), [Memory] ([memory.c]),
      [StringCache] ([stringCache.c]), [Matrix] ([matrix.c]).
    - [Data] (what [code_generate.cpp] writes for a table: records with their
      dirty columns and the update list, over a database of the class
      [Database] with [DatabaseLaws]); [DataSet] (the list and the index of a
      player's records, which the modules share; the index is behind the
      classes [PutLaws] and [RemoveLaws]); [PlayerNotify] (what the modules
      need of the notifications, the class [Notifier]); and the modules
      [RewardFlag] ([modules/reward_flag.c]), [Daily] ([modules/daily.c]), and
      [HeroItem] ([modules/hero_item.c]), whose index is the map of maps of
      [HeroMaps].
    - [Growth] (the classes [Growth] and [Compensator]: what the items need of
      their configuration and of the compensation), [Compensate]
      ([config/compensate.c] and the compensation of [modules/item.c], an
      instance of [Compensator] over [DataSet] and [HeroMaps]), [Item] and
      [ItemTheorems] ([modules/item.c], its specification and the run of a
      player's calls).
    - [ItemPackage] (the packages to pay with of [config/item_package.c]),
      [Consume] and [ConsumeTheorems] (paying in [logic/aL.c], with the items of
      [Item] and of [HeroItem], which share the notifications).

    ** What is proved

    - Round trips: [amf_read] after [amf_encode]; messages between servers and
      between client and gateway through header, stream and framing; for which
      player ids and signed integers the coding loses nothing.
    - Refinements: [map.c] and [hash.c] to finite maps, [codequeue.c] to a
      bounded queue of messages, [dlist.h] to lists, [client.c] to a list in
      order of last use, [event_manager.c] to a queue of events.
    - Streams: for every behaviour of the kernel, bytes are written in order
      without loss, and messages are delivered whole, once and in order
      however the stream is cut.
    - Handles: a released resource handle, a closed connection and the id of a
      lost world stay invalid.
    - Routing: where the gateway sends a package and that it arrives
      unchanged, what happens to malformed ones and when a backend is down.
    - Logging in: a connection is bound to a client only by a positive answer
      to its own request; until then its bytes reach nothing but itself and
      the authentication server; requests and waiting connections time out;
      the indexes of the accounts agree with each other and the database.
    - Players: the lists and maps of the cache agree with the players in
      memory after any sequence of calls, [player_get] answers the player of
      the id, and offline players are unloaded after their time.  Requests of
      a player are served in the order they arrived.
    - Notifications: what is posted for a player is sent once, in order, with
      the newest value of each key, and reaches the player's client through
      the gateway; every count reaches the backend or is lost because there is
      none that takes the message, which is said exactly.
    - Records: after any calls every record of a table differs from its row
      only where it is marked dirty, and a flush writes what is due.  Over
      them the modules refine a set of flags, a map of counters that start
      again every day, and maps of items, through flushes and through leaving
      and coming back; the items of a player grow when they are asked for, every
      change of them is posted and reported, and the counts of their types are
      the sums of their amounts; what grew too much is compensated period by
      period; several costs are paid together, or those before the first that
      there is not enough of, and a package with its first item of which there
      is enough; rank lists are the best hundred of what was reported, equal
      values by who reported first.
    - Time: the timing wheel fires every timer once, in its second; a minor is
      told to leave when its time is over; the calendar does not move when the server restarts.
    - Configuration and calculations: an item grows as its rows say however
      often it is asked for, but for its first start; the properties of a hero
      are, type by type, the sum of what counts for it where nothing is lost; the level of some experience is the highest it
      reaches.
    - Tables and pages: [LoadMatrix] reads the table in the file however
      [fread] cuts it; pages handed out are disjoint; equal strings are
      interned at one address.
    - Safety of the AMF reader on arbitrary bytes; iteration of the maps and
      of the pool visits every element once.
    - Where the code does not do what it means to, a theorem or a lemma says so
      on a concrete run or for a class of inputs: short packages read outside the
      received data, [amf_skip] on arrays does not return, the 1024-entry
      string table overflows, a closing connection is leaked, [Kick] loses the
      server id, a counter whose row cannot be made is written through a null
      pointer, a counter read by iteration loses its value, a table with a
      long field is never read to its end, [agCQ_pushv] overwrites a queued message, [account_change]
      breaks its table, an event's parameter is overwritten, a timer is an
      hour late, a logout misses players with a server id, a request that
      cannot be processed blocks its player's queue, an item misses or repeats
      the first start of its growing time, a grown item is not counted for its
      type, the compensation gives more than was too much or nothing, changing
      equipment takes another cost or takes one twice, the types
      of further equipment and the sets of some affixes do not count.

    ** Bounds in the statements

    The numeric hypotheses are those the code needs.  A buffer holds less than
    [2^61] bytes, so that doubling its size stays in a [size_t].  A pool of
    [max] slots issues ids without confusion for [n] calls while
    [(n + 1) * max] is at most [INVALID_ID], because its 32-bit counters wrap;
    world ids, which step by the number of slots, are below [2^32 - 20] for
    the same reason.  AMF sizes are below [2^28], the 29 bits of the format
    less its flag.  [amf_read] is safe below 2048 bytes because each string
    takes two bytes and the reference table has 1024 entries.  Maps hold fewer
    than [2^61] entries for the same reason as buffers.  A player's name has
    fewer than 32 bytes, the size of its field.  Times never decrease from one
    call to the next.  [try_unload_player_from_zombie_list] and [agPM_free]
    take one step of fuel per player in memory, the request loop one per
    waiting request, a flush one per record on the update list, loading and
    releasing a player's records one per record in memory, the level of some
    experience one per level of the table.  Items grow at times below
    [2^31 - 1] and by counts that fit an [int]; a set of equipment has at most
    nine pieces, the size of [count_quality].  A call on the items of a player
    goes two levels deep, because the item that counts growth does not count
    its own, adds less than 64 to every bound of the state, and compensates at
    most thirty days of periods, [MOST]; runs stay below [2^30] in all.  Runs of a module
    make fewer than [2^60] calls, so that the counters and maps beneath stay
    within their bounds.

    ** What is not modelled

    Releasing memory ([amf_free], [hash_destory], [_agB_free], the unload
    functions) where it changes nothing else; logging, configuration files and
    process start-up; the connection to the databases, whose answers are
    arguments ([AccountDb] for the gateway; the modules of a player for the
    world); the code generated from protobuf files, which is an argument
    ([protocol_new_r]); third-party code ([cJSON], [md5], [base64], [sqlite3],
    the Lua libraries).  The handlers of the commands ([request_amf/],
    [request_pbc/], [logic/]) are arguments of the dispatcher; of the rules of
    [logic/aL.c] only paying is modelled, whose callers then change heroes,
    equipment and quests.  Threads: each
    process runs one event loop, and the message ring is modelled for one
    caller at a time.  The SQL text of the generated functions and their
    columns that hold strings: the database is an argument with laws.  Not yet
    modelled, in the order planned: the remaining modules of [world/modules/]
    over [DataSet] (quests, buffs, bags, equipment, rewards, talents, fights);
    so the level of a player's leading role, the favor of an item and the
    quests are arguments or events of the items, and bags, which have no
    slots for items, take none. *)
From stdpp Require Export base tactics list gmap numbers.
From Stdlib Require Export ZArith Lia Permutation.
From Stdlib Require Import Sorted.

#[global] Open Scope Z_scope.

(** ** Machine integers *)

(** [uN z] is the conversion of [z] to an unsigned N-bit type, [iN z] to a
    signed one (two's complement, as every supported compiler does). *)
Definition u8 (z : Z) : Z := z mod 2 ^ 8.
Definition u32 (z : Z) : Z := z mod 2 ^ 32.
Definition u64 (z : Z) : Z := z mod 2 ^ 64.
Definition signed (w : Z) (z : Z) : Z :=
  let m := z mod 2 ^ w in if m <? 2 ^ (w - 1) then m else m - 2 ^ w.
Definition i8 (z : Z) : Z := signed 8 z.
Definition i32 (z : Z) : Z := signed 32 z.
Definition i64 (z : Z) : Z := signed 64 z.

(** [SIZE_MAX], which is also [(size_t)-1]. *)
Definition SIZE_MAX : Z := 2 ^ 64 - 1.

(** Length of a list as a [size_t]. *)
Definition zlen {A} (l : list A) : Z := Z.of_nat (length l).

(** ** Outcomes of C code *)

(** [Ret] returns, [Abort] is a failed [assert], [Undef] is undefined
    behaviour (an access outside an object, a null dereference), [NoFuel] is a
    loop or recursion cut by the fuel of the model. *)
Inductive outcome (A : Type) : Type :=
| Ret (a : A)
| Abort
| Undef
| NoFuel.
Arguments Ret {A} a.
Arguments Abort {A}.
Arguments Undef {A}.
Arguments NoFuel {A}.

#[global] Instance outcome_ret : MRet outcome := @Ret.
#[global] Instance outcome_bind : MBind outcome := fun A B f x =>
  match x with
  | Ret a => f a
  | Abort => Abort
  | Undef => Undef
  | NoFuel => NoFuel
  end.

#[global] Instance outcome_eq_dec `{EqDecision A} : EqDecision (outcome A).
Proof. solve_decision. Defined.

(** [assert(b)]. *)
Definition c_assert (b : bool) : outcome unit := if b then Ret tt else Abort.

(** A dereference that is undefined when the object is absent. *)
Definition deref {A} (o : option A) : outcome A :=
  match o with Some a => Ret a | None => Undef end.

(** A loop over a list whose body may fail. *)
Fixpoint fold_outcome {A B} (f : B -> A -> outcome B) (b : B) (l : list A) : outcome B :=
  match l with [] => Ret b | a :: l' => b ← f b a; fold_outcome f b l' end.

(** The call returned: neither an abort, nor undefined behaviour, nor a cut. *)
Definition returns {A} (x : outcome A) : Prop := exists a, x = Ret a.

(** The growth loop [while (ns < s) ns *= 2] of the containers, on [size_t].
    With [ns] positive it ends within 64 rounds for every [s] up to [2^63]. *)
Fixpoint double_while (fuel : nat) (ns s : Z) : outcome Z :=
  match fuel with
  | O => NoFuel
  | S fuel' => if ns <? s then double_while fuel' (u64 (ns * 2)) s else Ret ns
  end.

(** ** Byte memory *)

(** An allocated object is the list of its bytes; a pointer into it is an
    offset.  Every access is checked against the object's bounds. *)
Abbreviation mem := (list Z).

Definition load (m : mem) (p : Z) : outcome Z :=
  if 0 <=? p then deref (m !! Z.to_nat p) else Undef.

Definition store (m : mem) (p : Z) (v : Z) : outcome mem :=
  if (0 <=? p) && (p <? zlen m) then Ret (<[Z.to_nat p := u8 v]> m) else Undef.

(** The [n] bytes from offset [p]. *)
Definition slice (m : mem) (p n : Z) : list Z :=
  take (Z.to_nat n) (drop (Z.to_nat p) m).

(** [m] with the bytes [bs] in place from offset [p]. *)
Definition splice (m : mem) (p : Z) (bs : list Z) : mem :=
  take (Z.to_nat p) m ++ bs ++ drop (Z.to_nat p + length bs) m.

(** [memcpy] from and to an object. *)
Definition load_bytes (m : mem) (p n : Z) : outcome (list Z) :=
  if (0 <=? p) && (0 <=? n) && (p + n <=? zlen m) then Ret (slice m p n) else Undef.

Definition store_bytes (m : mem) (p : Z) (bs : list Z) : outcome mem :=
  if (0 <=? p) && (p + zlen bs <=? zlen m) then Ret (splice m p bs) else Undef.

Definition byte_ok (b : Z) : Prop := 0 <= b < 256.
Definition bytes_ok (m : mem) : Prop := Forall byte_ok m.

(** Little-endian bytes of an integer and back (the host order of the server). *)
Fixpoint le_split (n : nat) (v : Z) : list Z :=
  match n with
  | O => []
  | S n' => u8 v :: le_split n' (Z.shiftr v 8)
  end.

Fixpoint le_combine (bs : list Z) : Z :=
  match bs with
  | [] => 0
  | b :: bs' => Z.lor b (Z.shiftl (le_combine bs') 8)
  end.

(** ** Proof automation *)

Create HintDb cserver.
Create Rewrite HintDb cserver.

(** Split [Ret]/[Abort]/... equations produced by the monad. *)
Ltac inv_outcome :=
  repeat match goal with
  | H : Ret _ = Ret _ |- _ => injection H as H; try subst
  | H : Abort = Ret _ |- _ => discriminate H
  | H : Undef = Ret _ |- _ => discriminate H
  | H : NoFuel = Ret _ |- _ => discriminate H
  | H : Ret _ = Abort |- _ => discriminate H
  | H : Ret _ = Undef |- _ => discriminate H
  | H : Ret _ = NoFuel |- _ => discriminate H
  | H : (_, _) = (_, _) |- _ => injection H as ? ?; try subst
  end.

(** Turn the boolean tests of the code into arithmetic. *)
Ltac zbool :=
  repeat match goal with
  | H : andb _ _ = true |- _ => apply andb_true_iff in H as [? ?]
  | H : orb _ _ = false |- _ => apply orb_false_iff in H as [? ?]
  | H : negb _ = true |- _ => apply negb_true_iff in H
  | H : negb _ = false |- _ => apply negb_false_iff in H
  | H : (_ <? _) = true |- _ => apply Z.ltb_lt in H
  | H : (_ <? _) = false |- _ => apply Z.ltb_ge in H
  | H : (_ <=? _) = true |- _ => apply Z.leb_le in H
  | H : (_ <=? _) = false |- _ => apply Z.leb_gt in H
  | H : (_ =? _) = true |- _ => apply Z.eqb_eq in H
  | H : (_ =? _) = false |- _ => apply Z.eqb_neq in H
  end.

(** Permutations of appended lists, by counting elements. *)
Ltac solve_perm :=
  match goal with
  | |- @Permutation ?A _ _ =>
    apply (proj2 (Permutation_count_occ (fun a b : A => decide (a = b)) _ _)); let x := fresh in intros x;
    repeat match goal with Hp : @Permutation A _ _ |- _ =>
      generalize (proj1 (Permutation_count_occ (fun a b : A => decide (a = b)) _ _) Hp x); clear Hp end; intros;
    rewrite ?count_occ_app in *; lia
  end.

(** Case split on the tests of the goal, with arithmetic hypotheses; a branch
    whose test contradicts the context is closed. *)
Ltac ztest :=
  match goal with
  | |- context [?a <? ?b] => destruct (Z.ltb_spec a b); try lia
  | |- context [?a <=? ?b] => destruct (Z.leb_spec a b); try lia
  | |- context [?a =? ?b] => destruct (Z.eqb_spec a b); try lia
  end.
Ltac ztests := repeat (ztest; cbn [andb orb negb]).

(** ** Generic lemmas *)

Lemma bind_ret_inv {A B} (x : outcome A) (f : A -> outcome B) b :
  x ≫= f = Ret b -> exists a, x = Ret a /\ f a = Ret b.
Proof. destruct x; cbn; try discriminate; eauto. Qed.

Lemma zlen_nonneg {A} (l : list A) : 0 <= zlen l.
Proof. unfold zlen; lia. Qed.
Lemma zlen_app {A} (l k : list A) : zlen (l ++ k) = zlen l + zlen k.
Proof. unfold zlen; rewrite length_app; lia. Qed.
Lemma zlen_cons {A} (x : A) l : zlen (x :: l) = 1 + zlen l.
Proof. unfold zlen; cbn [length]; lia. Qed.
Lemma zlen_nil {A} : zlen (@nil A) = 0.
Proof. reflexivity. Qed.
Lemma to_nat_zlen {A} (l : list A) : Z.to_nat (zlen l) = length l.
Proof. unfold zlen; lia. Qed.
#[export] Hint Rewrite @zlen_app @zlen_cons @zlen_nil : cserver.
#[export] Hint Resolve zlen_nonneg : cserver.

Lemma u8_range z : 0 <= u8 z < 256.
Proof. apply Z.mod_pos_bound; lia. Qed.
Lemma u32_range z : 0 <= u32 z < 2 ^ 32.
Proof. apply Z.mod_pos_bound; lia. Qed.
Lemma u64_range z : 0 <= u64 z < 2 ^ 64.
Proof. apply Z.mod_pos_bound; lia. Qed.
Lemma u8_small z : 0 <= z < 256 -> u8 z = z.
Proof. apply Z.mod_small. Qed.
Lemma u32_small z : 0 <= z < 2 ^ 32 -> u32 z = z.
Proof. apply Z.mod_small. Qed.
Lemma u64_small z : 0 <= z < 2 ^ 64 -> u64 z = z.
Proof. apply Z.mod_small. Qed.
Lemma i32_shift a : exists k, i32 a = a + k * 2 ^ 32.
Proof.
  unfold i32, signed. cbn zeta. pose proof (Z.div_mod a (2 ^ 32) ltac:(lia)) as E. destruct (_ <? _); [exists (- (a / 2 ^ 32))|exists (- (a / 2 ^ 32) - 1)]; lia.
Qed.
Lemma i32_add_l a b : i32 (i32 a + b) = i32 (a + b).
Proof.
  destruct (i32_shift a) as [k ->]. unfold i32, signed. replace (a + k * 2 ^ 32 + b) with (a + b + k * 2 ^ 32) by lia. now rewrite Z_mod_plus_full.
Qed.
Lemma i32_idem a : i32 (i32 a) = i32 a.
Proof. pose proof (i32_add_l a 0) as E. now rewrite !Z.add_0_r in E. Qed.
Lemma i32_range z : - 2 ^ 31 <= i32 z < 2 ^ 31.
Proof.
  pose proof (Z.mod_pos_bound z (2 ^ 32) ltac:(lia)) as Hm. unfold i32, signed. cbn zeta. change (2 ^ (32 - 1)) with (2 ^ 31). destruct (Z.ltb_spec (z mod 2 ^ 32) (2 ^ 31)); lia.
Qed.
Lemma i32_small z : - 2 ^ 31 <= z < 2 ^ 31 -> i32 z = z.
Proof.
  intros H. unfold i32, signed. change (32 - 1) with 31.
  destruct (Z.ltb_spec (z mod 2 ^ 32) (2 ^ 31)); Z.div_mod_to_equations; lia.
Qed.
#[export] Hint Resolve u8_range u32_range u64_range : cserver.

Lemma length_le_split n v : length (le_split n v) = n.
Proof. revert v; induction n; cbn; auto. Qed.
Lemma zlen_le_split n v : zlen (le_split n v) = Z.of_nat n.
Proof. unfold zlen; now rewrite length_le_split. Qed.

(** The elements at the front that satisfy [f], and the rest. *)
Fixpoint span {A} (f : A -> bool) (l : list A) : list A * list A :=
  match l with
  | [] => ([], [])
  | x :: l' => if f x then let '(a, b) := span f l' in (x :: a, b) else ([], l)
  end.

Lemma span_app {A} (f : A -> bool) l : fst (span f l) ++ snd (span f l) = l.
Proof.
  induction l as [|x l IH]; [reflexivity|]. cbn [span]. destruct (f x); [|reflexivity]. destruct (span f l). cbn in *. now rewrite IH.
Qed.

(** When [f] does not hold again once it fails, [span] is a filter. *)
Lemma span_filter {A} (R : A -> A -> Prop) (f : A -> bool) l :
  StronglySorted R l -> (forall x y, R x y -> f x = false -> f y = false) ->
  span f l = (List.filter f l, List.filter (fun x => negb (f x)) l).
Proof.
  intros Hs Hf. induction Hs as [|x l Hs IH Hx]; [reflexivity|]. cbn [span List.filter]. destruct (f x) eqn:E; cbn [negb].
  - now rewrite IH.
  - assert (Hall : Forall (fun y => f y = false) l) by (eapply list.Forall_impl; [exact Hx|eauto]).
    assert (Hn : List.filter f l = [] /\ List.filter (fun x => negb (f x)) l = l).
    { clear -Hall. induction Hall as [|y l Hy _ [IH1 IH2]]; [auto|]. cbn. now rewrite Hy, IH1, IH2. }
    now destruct Hn as [-> ->].
Qed.

(** An index is no larger than what it indexes. *)
Lemma index_size {K V} `{Countable K} (m : gmap K Z) (h : gmap Z V) (f : V -> K) :
  (forall k a, m !! k = Some a -> exists v, h !! a = Some v /\ f v = k) -> (size m <= size h)%nat.
Proof.
  intros Hm. rewrite <- length_map_to_list, <- size_dom, <- (length_fmap snd).
  rewrite <- (size_list_to_set (C := gset Z)).
  - apply subseteq_size. intros a Ha. apply elem_of_list_to_set, list_elem_of_fmap in Ha as ([k b] & -> & Hin).
    apply elem_of_map_to_list, Hm in Hin as (v & Hv & _). apply elem_of_dom. eauto.
  - apply NoDup_fmap_2_strong; [|apply NoDup_map_to_list]. intros [k a] [k' a'] Hin1 Hin2 E. cbn in E. subst a'.
    apply elem_of_map_to_list, Hm in Hin1 as (v & Hv & <-). apply elem_of_map_to_list, Hm in Hin2 as (w & Hw & <-). congruence.
Qed.

(** A map with keys from a list is no larger than the list. *)
Lemma size_keys {K V} `{Countable K} (m : gmap K V) (l : list K) : (forall k v, m !! k = Some v -> k ∈ l) -> (size m <= length l)%nat.
Proof.
  intros Hm. rewrite <- size_dom. transitivity (size (list_to_set l : gset K)).
  - apply subseteq_size. intros k Hk. apply elem_of_dom in Hk as [v Hv]. apply elem_of_list_to_set. eauto.
  - clear Hm. induction l as [|x l IH]; cbn [list_to_set length]; [now rewrite size_empty|].
    rewrite size_union_alt, size_singleton. apply le_n_S. etransitivity; [|exact IH]. apply subseteq_size.
    intros y Hy. now apply elem_of_difference in Hy as [Hy _].
Qed.

(** Distinct addresses in use are no more than the structures. *)
Lemma nodup_size {V} (h : gmap Z V) (l : list Z) : NoDup l -> (forall a, a ∈ l -> is_Some (h !! a)) -> (length l <= size h)%nat.
Proof.
  intros Hnd Hl. rewrite <- size_dom, <- (size_list_to_set (C := gset Z) l) by exact Hnd.
  apply subseteq_size. intros a Ha. apply elem_of_dom, Hl. now apply elem_of_list_to_set in Ha.
Qed.

Lemma lookup_map {A B} (f : A -> B) l i : map f l !! i = f <$> l !! i.
Proof. apply list_lookup_fmap. Qed.
Lemma map_insert {A B} (f : A -> B) l i x : map f (<[i := x]> l) = <[i := f x]> (map f l).
Proof. apply list_fmap_insert. Qed.

(** The structures at the addresses [l] are linked through the field [next], from [head] to null. *)
Fixpoint slist {T} (next : T -> Z) (h : gmap Z T) (head : Z) (l : list Z) : Prop :=
  match l with
  | [] => head = 0
  | a :: l' => head = a /\ a <> 0 /\ exists v, h !! a = Some v /\ slist next h (next v) l'
  end.

Lemma slist_frame {T} (next : T -> Z) (h h' : gmap Z T) head l :
  (forall a, a ∈ l -> next <$> h' !! a = next <$> h !! a) -> slist next h head l -> slist next h' head l.
Proof.
  revert head. induction l as [|a l IH]; intros head Hf; cbn; [auto|]. intros (Ha & Hn & v & Hv & Hl).
  split; [exact Ha|]. split; [exact Hn|]. specialize (Hf a) as Hfa. rewrite Hv in Hfa.
  destruct (h' !! a) as [w|]; cbn in Hfa; [|discriminate Hfa; left]. exists w. split; [reflexivity|].
  injection (Hfa ltac:(left)) as ->. apply IH; [|exact Hl]. intros b Hb. apply Hf. now right.
Qed.

Lemma slist_snoc {T} (next : T -> Z) (h h' : gmap Z T) head l t b :
  slist next h head (l ++ [t]) -> (forall a, a ∈ l -> next <$> h' !! a = next <$> h !! a) ->
  next <$> h' !! t = Some b -> next <$> h' !! b = Some 0 -> b <> 0 -> slist next h' head ((l ++ [t]) ++ [b]).
Proof.
  revert head. induction l as [|a l IH]; intros head; cbn.
  - intros (-> & Ht & v & _ & _) _ Hn Hb Hb0. split; [reflexivity|]. split; [exact Ht|].
    destruct (h' !! t) as [w|]; [|discriminate]. injection Hn as Hn. exists w. split; [reflexivity|]. split; [exact Hn|].
    split; [exact Hb0|]. destruct (h' !! b) as [x|]; [|discriminate]. injection Hb as Hb. eauto.
  - intros (Ha & Ha0 & v & Hv & Hl) Hf Hn Hb Hb0. split; [exact Ha|]. split; [exact Ha0|].
    specialize (Hf a) as Hfa. rewrite Hv in Hfa. destruct (h' !! a) as [w|]; cbn in Hfa; [|discriminate Hfa; left].
    injection (Hfa ltac:(left)) as Hw. exists w. split; [reflexivity|]. rewrite Hw. apply IH; try assumption.
    intros c Hc. apply Hf. now right.
Qed.

Lemma slist_last {T} (next : T -> Z) (h : gmap Z T) head l t w : slist next h head (l ++ [t]) -> h !! t = Some w -> next w = 0.
Proof.
  revert head. induction l as [|a l IH]; intros head; cbn.
  - intros (_ & _ & v & Hv & Hz) Hw. congruence.
  - intros (_ & _ & v & _ & Hl). exact (IH _ Hl).
Qed.

Lemma slist_nonzero {T} (next : T -> Z) (h : gmap Z T) head l a : slist next h head l -> a ∈ l -> a <> 0 /\ is_Some (h !! a).
Proof.
  revert head. induction l as [|b l IH]; intros head; cbn; [intros _ Ha; inversion Ha|].
  intros (_ & Hb & v & Hv & Hl) Ha. apply elem_of_cons in Ha as [->|Ha]; eauto.
Qed.

(** An address that is not in use, for concrete runs. *)
Definition fresh_address {A} (h : gmap Z A) : Z := 1 + foldr Z.max 0 (fst <$> map_to_list h).

Lemma fresh_above {A} (h : gmap Z A) a : fresh_address h <= a -> h !! a = None.
Proof.
  assert (Hle : forall k a, a ∈ k -> a <= foldr Z.max 0 k).
  { induction k as [|b k IH]; intros x Hx; [inversion Hx|]. cbn. apply elem_of_cons in Hx as [->|Hx]; [lia|]. specialize (IH x Hx). lia. }
  intros Ha. apply eq_None_not_Some. intros [v Hv]. assert (Hin : a ∈ fst <$> map_to_list h); [|specialize (Hle _ _ Hin); unfold fresh_address in Ha; lia].
  apply list_elem_of_fmap. exists (a, v). split; [reflexivity|now apply elem_of_map_to_list].
Qed.
Lemma fresh_address_spec {A} (h : gmap Z A) : h !! fresh_address h = None /\ fresh_address h <> 0.
Proof.
  split; [now apply fresh_above|]. unfold fresh_address. assert (0 <= foldr Z.max 0 (fst <$> map_to_list h)); [|lia]. induction (fst <$> map_to_list h); cbn; lia.
Qed.

(** The same above the addresses up to 7, which stay free for others. *)
Definition next_address {A} (h : gmap Z A) : Z := 1 + Z.max 7 (fresh_address h).
Lemma next_address_spec {A} (h : gmap Z A) : h !! next_address h = None /\ 7 < next_address h.
Proof. unfold next_address. split; [apply fresh_above|]; lia. Qed.

(** A value below [2^k] or-ed with a multiple of [2^k] is their sum. *)
Lemma lor_shiftl_add a b k :
  0 <= k -> 0 <= a < 2 ^ k -> Z.lor a (Z.shiftl b k) = a + b * 2 ^ k.
Proof.
  intros Hk Ha. rewrite <- Z.shiftl_mul_pow2 by lia.
  assert (Hd : Z.land a (Z.shiftl b k) = 0).
  { apply Z.bits_inj'; intros i Hi. rewrite Z.land_spec, Z.bits_0.
    destruct (Z.lt_ge_cases i k) as [H|H].
    - rewrite Z.shiftl_spec_low by lia. apply andb_false_r.
    - rewrite <- (Z.mod_small a (2 ^ k)), Z.mod_pow2_bits_high by lia. reflexivity. }
  rewrite Z.add_nocarry_lxor by assumption. symmetry. now apply Z.lxor_lor.
Qed.

Lemma land_pow2 a k : 0 <= k -> Z.land a (2 ^ k) = (a / 2 ^ k) mod 2 * 2 ^ k.
Proof.
  intros Hk. rewrite <- Z.shiftl_mul_pow2, <- (Z.shiftr_div_pow2 a) by lia.
  replace (Z.shiftr a k mod 2) with (Z.land (Z.shiftr a k) 1)
    by (change 1 with (Z.ones 1); rewrite Z.land_ones by lia; reflexivity).
  rewrite Z.shiftl_land. rewrite <- (Z.mul_1_l (2 ^ k)), <- Z.shiftl_mul_pow2 by lia.
  apply Z.bits_inj'; intros i Hi. rewrite !Z.land_spec.
  destruct (Z.lt_ge_cases i k).
  - rewrite (Z.shiftl_spec_low 1) by lia. now rewrite !andb_false_r.
  - rewrite !Z.shiftl_spec, Z.shiftr_spec by lia. do 2 f_equal. lia.
Qed.

Lemma land_ones_mod a k : 0 <= k -> Z.land a (2 ^ k - 1) = a mod 2 ^ k.
Proof.
  intros. rewrite <- Z.land_ones by lia. f_equal. rewrite Z.ones_equiv. lia.
Qed.

(** [lor] of a multiple of [2^k] with a value below [2^k]. *)
Lemma lor_mul_pow2_add b a k :
  0 <= k -> 0 <= a < 2 ^ k -> Z.lor (b * 2 ^ k) a = b * 2 ^ k + a.
Proof.
  intros. rewrite Z.lor_comm, <- Z.shiftl_mul_pow2, lor_shiftl_add by lia.
  rewrite Z.shiftl_mul_pow2; lia.
Qed.

Lemma le_combine_split n v :
  le_combine (le_split n v) = v mod 2 ^ (8 * Z.of_nat n).
Proof.
  revert v; induction n as [|n IH]; intros v.
  - cbn. now rewrite Z.mod_1_r.
  - cbn [le_split le_combine]. rewrite IH, lor_shiftl_add by (try apply u8_range; lia).
    unfold u8. rewrite Z.shiftr_div_pow2 by lia.
    replace (8 * Z.of_nat (S n)) with (8 + 8 * Z.of_nat n) by lia.
    rewrite Z.pow_add_r by lia.
    rewrite Z.rem_mul_r; [lia|lia|apply Z.pow_pos_nonneg; lia].
Qed.

Lemma le_split_bytes n v : bytes_ok (le_split n v).
Proof. revert v; induction n; intros v; cbn; constructor; [apply u8_range|apply IHn]. Qed.

Lemma double_while_spec fuel : forall ns s,
  0 < ns <= 2 ^ 63 -> s <= 2 ^ 62 -> s <= ns * 2 ^ Z.of_nat fuel ->
  exists ns', double_while (S fuel) ns s = Ret ns' /\ s <= ns' /\ ns <= ns' /\
    (ns' = ns \/ ns' < 2 * s).
Proof.
  induction fuel as [|fuel IH]; intros ns s Hns Hs Hf; cbn [double_while];
    destruct (Z.ltb_spec ns s) as [Hlt|Hge].
  - lia.
  - exists ns. repeat split; auto; lia.
  - rewrite u64_small by lia.
    destruct (IH (ns * 2) s) as (ns' & He & ? & ? & Ho); [lia|lia| |].
    { rewrite Nat2Z.inj_succ, Z.pow_succ_r in Hf by lia. lia. }
    exists ns'. cbn [double_while] in He. rewrite He. repeat split; lia.
  - exists ns. repeat split; auto; lia.
Qed.

(** ** Memory *)

Lemma length_splice m p bs :
  0 <= p -> p + zlen bs <= zlen m -> length (splice m p bs) = length m.
Proof.
  unfold splice, zlen. intros. rewrite !length_app, length_take, length_drop. lia.
Qed.
Lemma zlen_splice m p bs :
  0 <= p -> p + zlen bs <= zlen m -> zlen (splice m p bs) = zlen m.
Proof. intros. unfold zlen at 1. rewrite length_splice by assumption. reflexivity. Qed.

Lemma splice_nil m p : splice m p [] = m.
Proof. unfold splice. cbn. rewrite Nat.add_0_r. apply take_drop. Qed.

(** Writing [bs1] and then [bs2] right after it writes [bs1 ++ bs2]. *)
Lemma splice_app m p q bs1 bs2 :
  q = p + zlen bs1 -> 0 <= p -> p + zlen bs1 + zlen bs2 <= zlen m ->
  splice (splice m p bs1) q bs2 = splice m p (bs1 ++ bs2).
Proof.
  intros -> Hp Hl. unfold zlen in *. unfold splice.
  set (n := Z.to_nat p). replace (Z.to_nat (p + Z.of_nat (length bs1))) with (n + length bs1)%nat by lia.
  assert (Hn : length (take n m) = n) by (rewrite length_take; lia).
  rewrite (assoc_L (++) (take n m) bs1).
  rewrite (take_app_length' (take n m ++ bs1)) by (rewrite length_app; lia).
  rewrite (drop_app_ge (take n m ++ bs1)) by (rewrite length_app; lia).
  rewrite drop_drop, !length_app, Hn.
  rewrite <- !(assoc_L (++)). do 4 f_equal. lia.
Qed.

(** Writing [bs2] first and then [bs1] right before it. *)
Lemma splice_app_before m p q bs1 bs2 :
  q = p + zlen bs1 -> 0 <= p -> p + zlen bs1 + zlen bs2 <= zlen m ->
  splice (splice m q bs2) p bs1 = splice m p (bs1 ++ bs2).
Proof.
  intros -> Hp Hl. unfold zlen in *. unfold splice.
  set (n := Z.to_nat p). replace (Z.to_nat (p + Z.of_nat (length bs1))) with (n + length bs1)%nat by lia.
  rewrite take_app_le by (rewrite length_take; lia).
  rewrite take_take, Nat.min_l by lia.
  rewrite (drop_app_length' (take (n + length bs1) m)) by (rewrite length_take; lia).
  rewrite length_app, <- !(assoc_L (++)). do 4 f_equal. lia.
Qed.

Lemma store_splice m p v :
  0 <= p < zlen m -> store m p v = Ret (splice m p [u8 v]).
Proof.
  intros H. unfold store. ztests. f_equal.
  unfold splice, zlen in *. cbn [length].
  rewrite <- (take_drop_middle m (Z.to_nat p) (m !!! Z.to_nat p)) at 1
    by (apply list_lookup_lookup_total_lt; lia).
  rewrite insert_app_r_alt by (rewrite length_take; lia).
  rewrite length_take, Nat.min_l, Nat.sub_diag by lia. cbn.
  replace (Z.to_nat p + 1)%nat with (S (Z.to_nat p)) by lia. reflexivity.
Qed.

Lemma store_bytes_splice m p bs :
  0 <= p -> p + zlen bs <= zlen m -> store_bytes m p bs = Ret (splice m p bs).
Proof. intros. unfold store_bytes. ztests. reflexivity. Qed.

(** Reading in the middle of a memory given as [pre ++ bs ++ post]. *)
Lemma load_app_r pre m p :
  p = zlen pre -> load (pre ++ m) p = deref (head m).
Proof.
  intros ->. unfold load. pose proof (zlen_nonneg pre). ztests.
  rewrite to_nat_zlen, lookup_app_r, Nat.sub_diag by lia. now destruct m.
Qed.

Lemma slice_app_middle pre bs post p n :
  p = zlen pre -> n = zlen bs -> slice (pre ++ bs ++ post) p n = bs.
Proof.
  intros -> ->. unfold slice. rewrite !to_nat_zlen.
  rewrite drop_app_length, take_app_length. reflexivity.
Qed.

Lemma slice_splice m p bs :
  0 <= p -> p + zlen bs <= zlen m -> slice (splice m p bs) p (zlen bs) = bs.
Proof.
  intros. unfold splice. apply slice_app_middle; [|reflexivity].
  unfold zlen in *. rewrite length_take. lia.
Qed.

Lemma zlen_slice m p n :
  0 <= p -> 0 <= n -> p + n <= zlen m -> zlen (slice m p n) = n.
Proof. unfold zlen, slice. intros. rewrite length_take, length_drop. lia. Qed.
