(* ===== verification/AmfWire.v ===== *)
(** * AMF3 wire format: the primitive encoders and decoders of [framework/amf.c]

    The encoders of the C file receive a pointer [data] into a caller's buffer
    and the number [len] of bytes they may use; they write and return the
    number of bytes written, 0 for an error.  Here the buffer is the byte list
    [m] of the whole allocated object, [data] an offset in it and [len] the
    argument the C caller passes, which the code may get wrong: a write outside
    [m] is [Undef], whatever [len] says.  The decoders read from the object [d]
    in the same way and return the number of bytes they consumed. *)
From S2P Require Import Prelude.

(** ** Types *)

Inductive amf_type : Type :=
| amf_undefine | amf_null | amf_false | amf_true | amf_integer | amf_double
| amf_string | amf_xml_doc | amf_date | amf_array | amf_object | amf_xml
| amf_byte_array | amf_sinteger.

#[global] Instance amf_type_eq_dec : EqDecision amf_type.
Proof. solve_decision. Defined.

(** The values of [enum amf_type]. *)
Definition amf_code (t : amf_type) : Z :=
  match t with
  | amf_undefine => 0x00 | amf_null => 0x01 | amf_false => 0x02 | amf_true => 0x03
  | amf_integer => 0x04 | amf_double => 0x05 | amf_string => 0x06 | amf_xml_doc => 0x07
  | amf_date => 0x08 | amf_array => 0x09 | amf_object => 0x0A | amf_xml => 0x0B
  | amf_byte_array => 0x0C | amf_sinteger => 0x0D
  end.

Definition AMF_INTEGER_MAX : Z := 0x1FFFFFFF.

(** [struct amf_slice]; a [None] buffer is the literal [""], otherwise it points
    into the message. *)
Record amf_slice := mk_slice { slice_buffer : option Z; slice_len : Z }.

(** [static struct {ptr, len} string_ref[1024]] and [cur_ref]. *)
Record amf_refs := mk_refs { cur_ref : Z; string_ref : list (Z * Z) }.

Definition refs_init : amf_refs := mk_refs 0 (repeat (0, 0) 1024).

(** A [double] is its IEEE-754 bit pattern.  [double_of_Z] is the conversion of
    a non-negative integer below [2^53] (the only conversions of the file start
    from a [uint32_t]), [double_to_Z] the truncating conversion back. *)
Definition double_of_Z (n : Z) : Z :=
  if n =? 0 then 0
  else let e := Z.log2 n in
       Z.lor (Z.shiftl (1023 + e) 52) (Z.land (Z.shiftl n (52 - e)) (2 ^ 52 - 1)).

Definition double_to_Z (d : Z) : Z :=
  let s := Z.testbit d 63 in
  let ex := Z.land (Z.shiftr d 52) 0x7FF in
  let man := Z.land d (2 ^ 52 - 1) in
  let mag := if ex <? 1023 then 0
             else Z.shiftr (Z.shiftl (2 ^ 52 + man) (ex - 1023)) 52 in
  if s then - mag else mag.

(** [strlen] of the characters from a pointer; undefined without a terminator. *)
Fixpoint strlen (s : list Z) : outcome Z :=
  match s with
  | [] => Undef
  | c :: s' => if c =? 0 then Ret 0 else n ← strlen s'; Ret (1 + n)
  end.

(** ** Encoders *)

(** [DATA_POP(l, c)]: return 0 when fewer than [l] bytes are left, otherwise
    advance [data], [len] and the counter. *)
Definition DATA_POP {A} (ret0 : outcome A) (data len c l : Z)
    (k : Z -> Z -> Z -> outcome A) : outcome A :=
  if len <? l then ret0 else k (data + l) (len - l) (c + l).

Definition amf_next_type (d : mem) (data len : Z) : outcome Z :=
  if len =? 0 then Ret (amf_code amf_undefine) else c ← load d data; Ret (i8 c).

Definition S2UInt29 (i : Z) : outcome Z :=
  let ui := u32 i in
  _ ← c_assert (negb ((0xFFFFFFF <? i) || (i <? -0x10000000)));
  Ret (Z.lor (Z.land ui 0xFFFFFFF) (Z.land ui (Z.shiftr 0x80000000 3))).

Definition U2SInt29 (i : Z) : outcome Z :=
  _ ← c_assert (negb (0x1FFFFFFF <? i));
  if negb (Z.land i 0x10000000 =? 0) then Ret (i32 (Z.lor i 0xFF000000))
  else Ret (i32 i).

Definition amf_encode_u29 (m : mem) (data len val : Z) : outcome (Z * mem) :=
  if val <=? 0x0000007F then
    if len <? 1 then Ret (0, m) else
    m ← store m data (Z.land val 0x7F);
    Ret (1, m)
  else if val <=? 0x00003FFF then
    if len <? 2 then Ret (0, m) else
    m ← store m data (Z.lor (Z.shiftr val 7) 0x80);
    m ← store m (data + 1) (Z.land val 0x7F);
    Ret (2, m)
  else if val <=? 0x001FFFFF then
    if len <? 3 then Ret (0, m) else
    m ← store m data (Z.lor (Z.shiftr val 14) 0x80);
    m ← store m (data + 1) (Z.lor (Z.land (Z.shiftr val 7) 0x7F) 0x80);
    m ← store m (data + 2) (Z.land val 0x7F);
    Ret (3, m)
  else if val <=? 0x1FFFFFFF then
    if len <? 4 then Ret (0, m) else
    m ← store m data (Z.lor (Z.shiftr val 22) 0x80);
    m ← store m (data + 1) (Z.lor (Z.land (Z.shiftr val 15) 0x7F) 0x80);
    m ← store m (data + 2) (Z.lor (Z.land (Z.shiftr val 8) 0x7F) 0x80);
    m ← store m (data + 3) (Z.land val 0xFF);
    Ret (4, m)
  else Abort.

Definition amf_encode_array (m : mem) (data len size : Z) : outcome (Z * mem) :=
  if len <? 1 then Ret (0, m) else
  m ← store m data (amf_code amf_array);
  DATA_POP (Ret (0, m)) data len 0 1 (fun data len write_bytes =>
  let size := Z.lor (u64 (Z.shiftl size 1)) 1 in
  '(offset, m) ← amf_encode_u29 m data len (u32 size);
  if offset =? 0 then Ret (0, m) else
  DATA_POP (Ret (0, m)) data len write_bytes offset (fun data len write_bytes =>
  if len <? 1 then Ret (0, m) else
  m ← store m data 0x01;
  DATA_POP (Ret (0, m)) data len write_bytes 1 (fun _ _ write_bytes =>
  Ret (write_bytes, m)))).

(** The bytes of [d] go out most significant first.  They are written before
    [DATA_POP(8)] compares them with [len]. *)
Definition amf_encode_double (m : mem) (data len d : Z) : outcome (Z * mem) :=
  if len <? 1 then Ret (0, m) else
  m ← store m data (amf_code amf_double);
  DATA_POP (Ret (0, m)) data len 0 1 (fun data len write_bytes =>
  let ptr := fun i => Z.shiftr d (8 * i) in
  m ← store m (data + 7) (ptr 0);
  m ← store m (data + 6) (ptr 1);
  m ← store m (data + 5) (ptr 2);
  m ← store m (data + 4) (ptr 3);
  m ← store m (data + 3) (ptr 4);
  m ← store m (data + 2) (ptr 5);
  m ← store m (data + 1) (ptr 6);
  m ← store m data (ptr 7);
  DATA_POP (Ret (0, m)) data len write_bytes 8 (fun _ _ write_bytes =>
  Ret (write_bytes, m))).

(** Not called by the rest of the file: [amf_encode_sinteger] only mentions it. *)
Definition amf_encode_i29 (m : mem) (data len val : Z) : outcome (Z * mem) :=
  if (AMF_INTEGER_MAX <=? val) || (val <=? - AMF_INTEGER_MAX) then
    amf_encode_double m data len
      (if val <? 0 then Z.lor (double_of_Z (- val)) (2 ^ 63) else double_of_Z val)
  else
    un ← S2UInt29 val;
    let un := Z.lor (Z.land un 0xFFFFFFF) (Z.shiftr (Z.land un 0x80000000) 3) in
    amf_encode_u29 m data len un.

Definition amf_encode_integer_with_type (m : mem) (data len integer : Z) (type : amf_type)
    : outcome (Z * mem) :=
  _ ← c_assert (bool_decide (type = amf_integer) || bool_decide (type = amf_sinteger));
  if AMF_INTEGER_MAX <? integer then amf_encode_double m data len (double_of_Z integer) else
  if len <? 1 then Ret (0, m) else
  m ← store m data (amf_code type);
  DATA_POP (Ret (0, m)) data len 0 1 (fun data len write_bytes =>
  '(offset, m) ← amf_encode_u29 m data len integer;
  if offset =? 0 then Ret (0, m) else
  DATA_POP (Ret (0, m)) data len write_bytes offset (fun _ _ write_bytes =>
  Ret (write_bytes, m))).

Definition amf_encode_integer (m : mem) (data len integer : Z) : outcome (Z * mem) :=
  amf_encode_integer_with_type m data len integer amf_integer.

Definition amf_encode_sinteger (m : mem) (data len integer : Z) : outcome (Z * mem) :=
  u ← S2UInt29 integer;
  amf_encode_integer_with_type m data len u amf_sinteger.

(** [string] is the object the pointer addresses, from the pointer on. *)
Definition amf_encode_string (m : mem) (data len : Z) (string : list Z) (str_len : Z)
    : outcome (Z * mem) :=
  str_len ← (if str_len =? 0 then strlen string else Ret str_len);
  if len <? 1 then Ret (0, m) else
  m ← store m data (amf_code amf_string);
  DATA_POP (Ret (0, m)) data len 0 1 (fun data len write_bytes =>
  let e_len := Z.lor (u64 (Z.shiftl str_len 1)) 1 in
  '(offset, m) ← amf_encode_u29 m data len (u32 e_len);
  if offset =? 0 then Ret (0, m) else
  DATA_POP (Ret (0, m)) data len write_bytes offset (fun data len write_bytes =>
  if len <? str_len then Ret (0, m) else
  bs ← load_bytes string 0 str_len;
  m ← store_bytes m data bs;
  DATA_POP (Ret (0, m)) data len write_bytes str_len (fun _ _ write_bytes =>
  Ret (write_bytes, m)))).

Definition amf_encode_byte_array (m : mem) (data len : Z) (ptr : list Z) (sz : Z)
    : outcome (Z * mem) :=
  if len <? 1 then Ret (0, m) else
  m ← store m data (amf_code amf_byte_array);
  DATA_POP (Ret (0, m)) data len 0 1 (fun data len write_bytes =>
  let e_len := Z.lor (u64 (Z.shiftl sz 1)) 1 in
  '(offset, m) ← amf_encode_u29 m data len (u32 e_len);
  if offset =? 0 then Ret (0, m) else
  DATA_POP (Ret (0, m)) data len write_bytes offset (fun data len write_bytes =>
  if len <? sz then Ret (0, m) else
  bs ← load_bytes ptr 0 sz;
  m ← store_bytes m data bs;
  DATA_POP (Ret (0, m)) data len write_bytes sz (fun _ _ write_bytes =>
  Ret (write_bytes, m)))).

(** The four one-byte values. *)
Definition amf_encode_tag (t : amf_type) (m : mem) (data dlen : Z) : outcome (Z * mem) :=
  if dlen <? 1 then Ret (0, m) else m ← store m data (amf_code t); Ret (1, m).
Definition amf_encode_undefine := amf_encode_tag amf_undefine.
Definition amf_encode_null := amf_encode_tag amf_null.
Definition amf_encode_false := amf_encode_tag amf_false.
Definition amf_encode_true := amf_encode_tag amf_true.

(** ** Decoders *)

(** A decoder returns the bytes consumed (0 for an error) and what it stored
    through its result pointer, [None] when it stored nothing.  The loop leaves
    at [i = 3] at the latest, so four rounds of fuel are enough. *)
Fixpoint amf_decode_u29_loop (fuel : nat) (d : mem) (data len skip n i : Z)
    : outcome (Z * option Z) :=
  match fuel with
  | O => NoFuel
  | S fuel' =>
    if len <? 1 then Ret (0, None) else
    c ← load d data;
    DATA_POP (Ret (0, None)) data len skip 1 (fun data len skip =>
    if negb (i =? 3) then
      let n := Z.lor n (Z.land c 0x7F) in
      if negb (Z.land c 0x80 =? 0) then
        let n := if negb (i =? 2) then u32 (Z.shiftl n 7) else u32 (Z.shiftl n 8) in
        amf_decode_u29_loop fuel' d data len skip n (i + 1)
      else Ret (skip, Some n)
    else Ret (skip, Some (Z.lor n c)))
  end.

Definition amf_decode_u29 (d : mem) (data len : Z) : outcome (Z * option Z) :=
  amf_decode_u29_loop 4 d data len 0 0 0.

(** The variable a result pointer addresses, after the call. *)
Definition out_or {A} (init : A) (o : option A) : A := default init o.

Definition amf_decode_i29 (d : mem) (data len : Z) : outcome (Z * Z) :=
  '(s, o) ← amf_decode_u29 d data len;
  v ← U2SInt29 (out_or 0 o);
  Ret (s, v).

Definition amf_decode_double (d : mem) (data len : Z) : outcome (Z * option Z) :=
  if len <? 9 then Ret (0, None) else
  let data := data + 1 in
  c0 ← load d (data + 7);
  c1 ← load d (data + 6);
  c2 ← load d (data + 5);
  c3 ← load d (data + 4);
  c4 ← load d (data + 3);
  c5 ← load d (data + 2);
  c6 ← load d (data + 1);
  c7 ← load d data;
  Ret (9, Some (le_combine [c0; c1; c2; c3; c4; c5; c6; c7])).

Definition amf_decode_integer (d : mem) (data len : Z) : outcome (Z * option Z) :=
  if len =? 1 then Ret (0, None) else
  DATA_POP (Ret (0, None)) data len 0 1 (fun data len skip =>
  '(cur_len, v) ← amf_decode_u29 d data len;
  if cur_len =? 0 then Ret (0, v) else
  DATA_POP (Ret (0, v)) data len skip cur_len (fun _ _ skip => Ret (skip, v))).

Definition amf_decode_sinteger (d : mem) (data len : Z) : outcome (Z * Z) :=
  '(s, o) ← amf_decode_integer d data len;
  v ← U2SInt29 (out_or 0 o);
  Ret (s, v).

(** Storing through [slice], which [amf_skip] passes as a null pointer. *)
Definition set_slice (nonnull : bool) (s : amf_slice) : outcome (option amf_slice) :=
  if nonnull then Ret (Some s) else Undef.

Definition empty_slice : amf_slice := mk_slice None 0.

(** A new string enters [string_ref] at [cur_ref]; the table has 1024 entries
    and the code does not compare [cur_ref] with it. *)
Definition amf_decode_string (d : mem) (data len : Z) (slice : bool) (st : amf_refs)
    : outcome (Z * option amf_slice * amf_refs) :=
  if len =? 0 then s ← set_slice slice empty_slice; Ret (0, s, st) else
  t ← load d data;
  _ ← c_assert (i8 t =? amf_code amf_string);
  DATA_POP (Ret (0, None, st)) data len 0 1 (fun data len skip =>
  '(cur_len, o) ← amf_decode_u29 d data len;
  let string_size := out_or 0 o in
  if cur_len =? 0 then s ← set_slice slice empty_slice; Ret (0, s, st) else
  DATA_POP (Ret (0, None, st)) data len skip cur_len (fun data len skip =>
  if Z.land string_size 1 =? 0 then
    let ref := Z.shiftr string_size 1 in
    if cur_ref st <=? ref then s ← set_slice slice empty_slice; Ret (0, s, st) else
    '(ptr, l) ← deref (string_ref st !! Z.to_nat ref);
    Ret (skip, if slice then Some (mk_slice (Some ptr) l) else None, st)
  else
    let string_size := Z.shiftr string_size 1 in
    if len <? string_size then Ret (0, None, st) else
    let s := if slice then Some (mk_slice (Some data) string_size) else None in
    _ ← deref (string_ref st !! Z.to_nat (cur_ref st));
    let st := mk_refs (u32 (cur_ref st + 1))
                      (<[Z.to_nat (cur_ref st) := (data, string_size)]> (string_ref st)) in
    DATA_POP (Ret (0, s, st)) data len skip string_size (fun _ _ skip =>
    Ret (skip, s, st)))).

Definition amf_decode_byte_array (d : mem) (data len : Z) (slice : bool)
    : outcome (Z * option amf_slice) :=
  if len =? 0 then s ← set_slice slice empty_slice; Ret (0, s) else
  t ← load d data;
  _ ← c_assert (i8 t =? amf_code amf_byte_array);
  DATA_POP (Ret (0, None)) data len 0 1 (fun data len skip =>
  '(cur_len, o) ← amf_decode_u29 d data len;
  let string_size := out_or 0 o in
  if cur_len =? 0 then s ← set_slice slice empty_slice; Ret (0, s) else
  DATA_POP (Ret (0, None)) data len skip cur_len (fun data len skip =>
  let string_size := Z.shiftr string_size 1 in
  if len <? string_size then Ret (0, None) else
  let s := if slice then Some (mk_slice (Some data) string_size) else None in
  DATA_POP (Ret (0, s)) data len skip string_size (fun _ _ skip =>
  Ret (skip, s)))).

(** The one-byte values: only the length is looked at. *)
Definition amf_decode_tag (dlen : Z) : Z := if dlen <? 1 then 0 else 1.
Definition amf_decode_undefine (dlen : Z) : Z := if dlen =? 0 then 0 else 1.
Definition amf_decode_null := amf_decode_tag.
Definition amf_decode_false := amf_decode_tag.
Definition amf_decode_true := amf_decode_tag.

Definition amf_decode_array (d : mem) (data len : Z) : outcome (Z * option Z) :=
  if len =? 0 then Ret (0, None) else
  t ← load d data;
  _ ← c_assert (i8 t =? amf_code amf_array);
  DATA_POP (Ret (0, None)) data len 0 1 (fun data len skip =>
  '(cur_len, o) ← amf_decode_u29 d data len;
  let array_size := out_or 0 o in
  if cur_len =? 0 then Ret (0, None) else
  DATA_POP (Ret (0, None)) data len skip cur_len (fun data len skip =>
  if Z.land array_size 1 =? 0 then Ret (0, None) else
  let array_size := Z.shiftr array_size 1 in
  if len =? 0 then Ret (0, None) else
  name ← load d data;
  if negb (i8 name =? 1) then Ret (0, None) else
  DATA_POP (Ret (0, None)) data len skip 1 (fun _ _ skip =>
  Ret (skip, Some array_size)))).

(** [amf_skip].  In the array case the code pops [offset], which is 0 there,
    instead of the header length [c]: the loop restarts on the array itself. *)
Fixpoint amf_skip (fuel : nat) (d : mem) (data len : Z) (st : amf_refs)
    : outcome (Z * amf_refs) :=
  match fuel with
  | O => NoFuel
  | S fuel' =>
    t ← amf_next_type d data len;
    if t =? amf_code amf_undefine then Ret (amf_decode_undefine len, st)
    else if t =? amf_code amf_null then Ret (amf_decode_null len, st)
    else if t =? amf_code amf_false then Ret (amf_decode_false len, st)
    else if t =? amf_code amf_true then Ret (amf_decode_true len, st)
    else if (t =? amf_code amf_integer) || (t =? amf_code amf_sinteger) then
      (* [amf_decode_sinteger] converts the value only for a non-null pointer *)
      '(s, _) ← amf_decode_integer d data len; Ret (s, st)
    else if t =? amf_code amf_double then '(s, _) ← amf_decode_double d data len; Ret (s, st)
    else if (t =? amf_code amf_string) || (t =? amf_code amf_byte_array) then
      '(s, _, st) ← amf_decode_string d data len false st; Ret (s, st)
    else if t =? amf_code amf_array then
      '(c, o) ← amf_decode_array d data len;
      let sz := out_or 0 o in
      DATA_POP (Ret (0, st)) data len 0 0 (fun data len offset =>
      (fix loop (n : nat) (data len offset : Z) (st : amf_refs) : outcome (Z * amf_refs) :=
         match n with
         | O => Ret (offset, st)
         | S n' =>
           '(c, st) ← amf_skip fuel' d data len st;
           if c =? 0 then Ret (0, st) else
           DATA_POP (Ret (0, st)) data len offset c (fun data len offset =>
           loop n' data len offset st)
         end) (Z.to_nat sz) data len offset st)
    else Ret (0, st)
  end.

(** ** The format *)

(** The bytes of a U29: 7 bits per byte with a continuation bit, all 8 bits of a
    fourth byte. *)
Definition u29_bytes (v : Z) : list Z :=
  if v <=? 0x7F then [v]
  else if v <=? 0x3FFF then [v / 2 ^ 7 + 128; v mod 128]
  else if v <=? 0x1FFFFF then [v / 2 ^ 14 + 128; v / 2 ^ 7 mod 128 + 128; v mod 128]
  else [v / 2 ^ 22 + 128; v / 2 ^ 15 mod 128 + 128; v / 2 ^ 8 mod 128 + 128; v mod 256].

(** A length or an inline value, as the code sends it: shifted, low bit set. *)
Definition size_bytes (n : Z) : list Z := u29_bytes (2 * n + 1).

Definition double_bytes (d : Z) : list Z := amf_code amf_double :: rev (le_split 8 d).
Definition integer_bytes (t : amf_type) (n : Z) : list Z :=
  if AMF_INTEGER_MAX <? n then double_bytes (double_of_Z n)
  else amf_code t :: u29_bytes n.
Definition string_bytes (t : amf_type) (s : list Z) : list Z :=
  amf_code t :: size_bytes (zlen s) ++ s.
Definition array_header (n : Z) : list Z := amf_code amf_array :: size_bytes n ++ [1].

(** ** Lemmas *)

Lemma lor_128 x : 0 <= x < 128 -> Z.lor x 0x80 = x + 128.
Proof.
  intros. rewrite Z.lor_comm. change 0x80 with (1 * 2 ^ 7).
  rewrite lor_mul_pow2_add by lia. lia.
Qed.

Lemma lor_hi7 b x : 0 <= x < 128 -> Z.lor (b * 128) x = b * 128 + x.
Proof. apply (lor_mul_pow2_add b x 7); lia. Qed.

Lemma lor_hi8 b x : 0 <= x < 256 -> Z.lor (b * 256) x = b * 256 + x.
Proof. apply (lor_mul_pow2_add b x 8); lia. Qed.

Lemma land_127 x : Z.land x 0x7F = x mod 128.
Proof. apply (land_ones_mod x 7); lia. Qed.

Lemma land_255 x : Z.land x 0xFF = x mod 256.
Proof. apply (land_ones_mod x 8); lia. Qed.

Lemma land_bit7 c : Z.land c 0x80 = (c / 128) mod 2 * 128.
Proof. apply (land_pow2 c 7); lia. Qed.

Lemma shiftr_div a k : 0 <= k -> Z.shiftr a k = a / 2 ^ k.
Proof. apply Z.shiftr_div_pow2. Qed.

Lemma u29_bytes_ok v : 0 <= v < 2 ^ 29 -> bytes_ok (u29_bytes v).
Proof.
  intros. unfold u29_bytes, bytes_ok, byte_ok.
  ztests; repeat constructor; Z.div_mod_to_equations; lia.
Qed.

Lemma u29_bytes_pos v : 1 <= zlen (u29_bytes v) <= 4.
Proof. unfold u29_bytes. ztests; autorewrite with cserver; lia. Qed.

(** Stores at consecutive offsets add up to one [splice]. *)
Ltac run_stores :=
  repeat (rewrite store_splice by
            (rewrite ?zlen_splice by (autorewrite with cserver; lia); autorewrite with cserver; lia);
          cbn [mbind outcome_bind];
          rewrite ?splice_app by (autorewrite with cserver; lia); cbn [app]).

Lemma amf_encode_u29_spec m data len v :
  0 <= v < 2 ^ 29 -> 0 <= data ->
  zlen (u29_bytes v) <= len -> data + zlen (u29_bytes v) <= zlen m ->
  amf_encode_u29 m data len v = Ret (zlen (u29_bytes v), splice m data (u29_bytes v)).
Proof.
  intros Hv Hd. unfold amf_encode_u29, u29_bytes. rewrite !land_127, !land_255, !shiftr_div by lia.
  destruct (Z.leb_spec v 0x7F); [|destruct (Z.leb_spec v 0x3FFF); [|destruct (Z.leb_spec v 0x1FFFFF)]];
    autorewrite with cserver; intros Hl Hm; ztests; cbn [mbind outcome_bind].
  all: rewrite ?lor_128 by (Z.div_mod_to_equations; lia).
  all: run_stores; repeat (rewrite u8_small by (Z.div_mod_to_equations; lia)); try reflexivity.
  now rewrite Z.mod_small by lia.
Qed.

(** One round of the decoding loop on a byte with and without the continuation
    bit; [hi] are the bits read so far, already shifted. *)
Lemma u29_round_more fuel pre c rest len skip hi i :
  128 <= c < 256 -> 1 <= len -> 0 <= hi < 2 ^ 14 -> 0 <= i < 3 ->
  amf_decode_u29_loop (S fuel) (pre ++ c :: rest) (zlen pre) len skip (hi * 128) i =
  amf_decode_u29_loop fuel ((pre ++ [c]) ++ rest) (zlen (pre ++ [c])) (len - 1) (skip + 1)
    ((hi * 128 + (c - 128)) * (if i =? 2 then 256 else 128)) (i + 1).
Proof.
  intros Hc Hl Hh Hi. cbn [amf_decode_u29_loop]. unfold DATA_POP.
  rewrite load_app_r by reflexivity. cbn [head deref mbind outcome_bind].
  rewrite land_127, land_bit7.
  replace ((c / 128) mod 2 * 128) with 128 by (Z.div_mod_to_equations; lia).
  replace (c mod 128) with (c - 128) by (Z.div_mod_to_equations; lia).
  rewrite lor_hi7 by lia.
  rewrite !Z.shiftl_mul_pow2 by lia.
  replace (zlen (pre ++ [c])) with (zlen pre + 1) by (autorewrite with cserver; lia).
  rewrite <- app_assoc. cbn [app].
  ztests; rewrite ?u32_small by lia; reflexivity.
Qed.

Lemma u29_round_last fuel pre c rest len skip hi i :
  0 <= c < 128 -> 1 <= len -> 0 <= hi < 2 ^ 21 -> 0 <= i < 3 ->
  amf_decode_u29_loop (S fuel) (pre ++ c :: rest) (zlen pre) len skip (hi * 128) i =
  Ret (skip + 1, Some (hi * 128 + c)).
Proof.
  intros Hc Hl Hh Hi. cbn [amf_decode_u29_loop]. unfold DATA_POP.
  rewrite load_app_r by reflexivity. cbn [head deref mbind outcome_bind].
  rewrite land_127, land_bit7.
  replace ((c / 128) mod 2 * 128) with 0 by (Z.div_mod_to_equations; lia).
  rewrite (Z.mod_small c) by lia.
  rewrite lor_hi7 by lia.
  ztests. reflexivity.
Qed.

Lemma u29_round_fourth fuel pre c rest len skip hi :
  0 <= c < 256 -> 1 <= len -> 0 <= hi < 2 ^ 21 ->
  amf_decode_u29_loop (S fuel) (pre ++ c :: rest) (zlen pre) len skip (hi * 256) 3 =
  Ret (skip + 1, Some (hi * 256 + c)).
Proof.
  intros Hc Hl Hh. cbn [amf_decode_u29_loop]. unfold DATA_POP.
  rewrite load_app_r by reflexivity. cbn [head deref mbind outcome_bind].
  change (negb (3 =? 3)) with false; cbv beta iota zeta. rewrite lor_hi8 by lia. ztests. reflexivity.
Qed.

Lemma amf_decode_u29_spec pre v post len :
  0 <= v < 2 ^ 29 -> zlen (u29_bytes v) <= len ->
  amf_decode_u29 (pre ++ u29_bytes v ++ post) (zlen pre) len =
  Ret (zlen (u29_bytes v), Some v).
Proof.
  intros Hv. unfold amf_decode_u29, u29_bytes. change 0 with (0 * 128) at 2.
  ztests; autorewrite with cserver; intros Hl; cbn [app];
    repeat (rewrite u29_round_more by (Z.div_mod_to_equations; lia); cbn [Z.eqb Z.add Pos.eqb Pos.add Pos.succ]);
    first [ rewrite u29_round_last by (Z.div_mod_to_equations; lia)
          | rewrite u29_round_fourth by (Z.div_mod_to_equations; lia) ];
    do 2 f_equal; try f_equal; Z.div_mod_to_equations; lia.
Qed.

(** ** What each encoder writes *)

Lemma lor_odd n : 0 <= n < 2 ^ 28 -> u32 (Z.lor (u64 (Z.shiftl n 1)) 1) = 2 * n + 1.
Proof.
  intros. rewrite Z.shiftl_mul_pow2, u64_small by lia.
  rewrite lor_mul_pow2_add by lia. rewrite u32_small; lia.
Qed.

(** Side conditions on lengths of spliced memory. *)
Ltac zlens := rewrite ?zlen_splice by (autorewrite with cserver; lia); autorewrite with cserver; lia.

Lemma amf_encode_tag_spec t m data len :
  0 <= data -> 1 <= len -> data + 1 <= zlen m ->
  amf_encode_tag t m data len = Ret (1, splice m data [amf_code t]).
Proof.
  intros. unfold amf_encode_tag. ztests. run_stores.
  rewrite u8_small by (destruct t; cbn; lia). reflexivity.
Qed.

Lemma u8_amf_code t : u8 (amf_code t) = amf_code t.
Proof. destruct t; reflexivity. Qed.

Lemma amf_encode_array_spec m data len n :
  0 <= data -> 0 <= n < 2 ^ 28 ->
  zlen (array_header n) <= len -> data + zlen (array_header n) <= zlen m ->
  amf_encode_array m data len n =
  Ret (zlen (array_header n), splice m data (array_header n)).
Proof.
  intros Hd Hn. unfold array_header, size_bytes. autorewrite with cserver. intros Hl Hm.
  pose proof (u29_bytes_pos (2 * n + 1)) as Hp.
  unfold amf_encode_array, DATA_POP. rewrite lor_odd by lia. ztests.
  run_stores. rewrite amf_encode_u29_spec by zlens.
  cbn [mbind outcome_bind]. ztests.
  rewrite splice_app by zlens. run_stores.
  rewrite u8_amf_code. do 2 f_equal; lia.
Qed.

Lemma amf_encode_double_spec m data len d :
  0 <= data -> 9 <= len -> data + 9 <= zlen m ->
  amf_encode_double m data len d = Ret (9, splice m data (double_bytes d)).
Proof.
  intros Hd Hl Hm. unfold amf_encode_double, DATA_POP. ztests.
  rewrite store_splice by lia. cbn [mbind outcome_bind].
  set (m1 := splice m data _). assert (Hm1 : zlen m1 = zlen m) by (subst m1; zlens).
  rewrite store_splice by lia. cbn [mbind outcome_bind].
  do 7 (rewrite store_splice by zlens; cbn [mbind outcome_bind];
          rewrite splice_app_before by zlens; cbn [app]).
  ztests. subst m1. rewrite splice_app by zlens. rewrite u8_amf_code.
  unfold double_bytes. cbn [le_split rev app]. rewrite !Z.shiftr_shiftr by lia.
  rewrite Z.shiftr_0_r. reflexivity.
Qed.

Lemma amf_encode_integer_with_type_spec m data len n t :
  t = amf_integer \/ t = amf_sinteger -> 0 <= data -> 0 <= n < 2 ^ 32 ->
  zlen (integer_bytes t n) <= len -> data + zlen (integer_bytes t n) <= zlen m ->
  amf_encode_integer_with_type m data len n t =
  Ret (zlen (integer_bytes t n), splice m data (integer_bytes t n)).
Proof.
  intros Ht Hd Hn. unfold integer_bytes, amf_encode_integer_with_type.
  replace (c_assert _) with (Ret tt) by (destruct Ht as [-> | ->]; reflexivity).
  cbn [mbind outcome_bind]. unfold AMF_INTEGER_MAX.
  destruct (Z.ltb_spec 0x1FFFFFFF n).
  { intros Hl Hm. rewrite amf_encode_double_spec by (try exact Hl; try exact Hm; lia). reflexivity. }
  autorewrite with cserver. intros Hl Hm. pose proof (u29_bytes_pos n).
  unfold DATA_POP. ztests. run_stores. rewrite amf_encode_u29_spec by zlens.
  cbn [mbind outcome_bind]. ztests. rewrite splice_app by zlens. rewrite u8_amf_code. reflexivity.
Qed.

(** Bytes of a string body copied from [s ++ tail]. *)
Lemma load_bytes_prefix s tail : load_bytes (s ++ tail) 0 (zlen s) = Ret s.
Proof.
  unfold load_bytes. pose proof (zlen_nonneg s). pose proof (zlen_nonneg tail).
  autorewrite with cserver. ztests. f_equal. apply (slice_app_middle [] s tail); reflexivity.
Qed.

(** The common tail of [amf_encode_string] and [amf_encode_byte_array]. *)
Lemma string_body_spec t m data len s tail :
  0 <= data -> zlen s < 2 ^ 28 ->
  zlen (string_bytes t s) <= len -> data + zlen (string_bytes t s) <= zlen m ->
  (if len <? 1 then Ret (0, m) else
   m ← store m data (amf_code t);
   DATA_POP (Ret (0, m)) data len 0 1 (fun data len write_bytes =>
   let e_len := Z.lor (u64 (Z.shiftl (zlen s) 1)) 1 in
   '(offset, m) ← amf_encode_u29 m data len (u32 e_len);
   if offset =? 0 then Ret (0, m) else
   DATA_POP (Ret (0, m)) data len write_bytes offset (fun data len write_bytes =>
   if len <? zlen s then Ret (0, m) else
   bs ← load_bytes (s ++ tail) 0 (zlen s);
   m ← store_bytes m data bs;
   DATA_POP (Ret (0, m)) data len write_bytes (zlen s) (fun _ _ write_bytes =>
   Ret (write_bytes, m))))) =
  Ret (zlen (string_bytes t s), splice m data (string_bytes t s)).
Proof.
  intros Hd Hs. unfold string_bytes, size_bytes. autorewrite with cserver. intros Hl Hm.
  pose proof (zlen_nonneg s). pose proof (u29_bytes_pos (2 * zlen s + 1)).
  unfold DATA_POP. cbv zeta. rewrite lor_odd by lia. ztests.
  run_stores. rewrite amf_encode_u29_spec by zlens. cbn [mbind outcome_bind]. ztests.
  rewrite load_bytes_prefix. cbn [mbind outcome_bind].
  rewrite splice_app by zlens. rewrite store_bytes_splice by zlens. cbn [mbind outcome_bind].
  ztests. rewrite splice_app by zlens. rewrite u8_amf_code. do 2 f_equal. lia.
Qed.

Lemma strlen_nul tail : strlen (0 :: tail) = Ret 0.
Proof. reflexivity. Qed.

Lemma amf_encode_string_spec m data len s :
  0 <= data -> zlen s < 2 ^ 28 ->
  zlen (string_bytes amf_string s) <= len ->
  data + zlen (string_bytes amf_string s) <= zlen m ->
  amf_encode_string m data len (s ++ [0]) (zlen s) =
  Ret (zlen (string_bytes amf_string s), splice m data (string_bytes amf_string s)).
Proof.
  intros. unfold amf_encode_string.
  replace (if zlen s =? 0 then strlen (s ++ [0]) else Ret (zlen s)) with (Ret (zlen s)).
  { cbn [mbind outcome_bind]. now apply string_body_spec. }
  destruct s; [reflexivity|]. rewrite zlen_cons. pose proof (zlen_nonneg s). ztests. reflexivity.
Qed.

Lemma amf_encode_byte_array_spec m data len s :
  0 <= data -> zlen s < 2 ^ 28 ->
  zlen (string_bytes amf_byte_array s) <= len ->
  data + zlen (string_bytes amf_byte_array s) <= zlen m ->
  amf_encode_byte_array m data len s (zlen s) =
  Ret (zlen (string_bytes amf_byte_array s), splice m data (string_bytes amf_byte_array s)).
Proof.
  intros. unfold amf_encode_byte_array.
  pose proof (string_body_spec amf_byte_array m data len s []) as Hb.
  rewrite app_nil_r in Hb. now apply Hb.
Qed.

(** ** What each decoder reads back *)

Lemma land_1_odd n : Z.land (2 * n + 1) 1 = 1.
Proof. change 1 with (2 ^ 1 - 1) at 2. rewrite land_ones_mod by lia. Z.div_mod_to_equations; lia. Qed.

Lemma shiftr_odd n : Z.shiftr (2 * n + 1) 1 = n.
Proof. rewrite shiftr_div by lia. Z.div_mod_to_equations; lia. Qed.

Lemma i8_amf_code t : i8 (amf_code t) = amf_code t.
Proof. destruct t; reflexivity. Qed.

(** Reading the tag of a message part. *)
Lemma load_tag pre t rest : load (pre ++ amf_code t :: rest) (zlen pre) = Ret (amf_code t).
Proof. now rewrite load_app_r. Qed.

Lemma load_mid (l : mem) p l1 x rest : l = l1 ++ x :: rest -> p = zlen l1 -> load l p = Ret x.
Proof. intros -> ->. now rewrite load_app_r. Qed.

(** Moving the read position over a tag. *)
Lemma zlen_snoc {A} (l : list A) x : zlen (l ++ [x]) = zlen l + 1.
Proof. autorewrite with cserver. lia. Qed.

Lemma decode_u29_at pre t v post len :
  0 <= v < 2 ^ 29 -> zlen (u29_bytes v) <= len ->
  amf_decode_u29 (pre ++ t :: u29_bytes v ++ post) (zlen pre + 1) len =
  Ret (zlen (u29_bytes v), Some v).
Proof.
  intros. rewrite <- (amf_decode_u29_spec (pre ++ [t]) v post len) by assumption.
  rewrite zlen_snoc, <- app_assoc. reflexivity.
Qed.

Lemma amf_decode_integer_spec pre t n post len :
  0 <= n <= AMF_INTEGER_MAX -> zlen (integer_bytes t n) <= len ->
  amf_decode_integer (pre ++ integer_bytes t n ++ post) (zlen pre) len =
  Ret (zlen (integer_bytes t n), Some n).
Proof.
  unfold AMF_INTEGER_MAX. intros Hn. unfold integer_bytes. ztests; [unfold AMF_INTEGER_MAX in *; lia|].
  autorewrite with cserver. intros Hl. pose proof (u29_bytes_pos n).
  unfold amf_decode_integer, DATA_POP. ztests. cbn [app].
  rewrite decode_u29_at by lia. cbn [mbind outcome_bind]. ztests. reflexivity.
Qed.

Lemma load_nth pre l i :
  0 <= i < zlen l -> load (pre ++ l) (zlen pre + i) = deref (l !! Z.to_nat i).
Proof.
  intros. unfold load. pose proof (zlen_nonneg pre). ztests. f_equal.
  rewrite lookup_app_r by (unfold zlen; lia). f_equal. unfold zlen. lia.
Qed.

Lemma amf_decode_double_spec pre d post len :
  0 <= d < 2 ^ 64 -> 9 <= len ->
  amf_decode_double (pre ++ double_bytes d ++ post) (zlen pre) len = Ret (9, Some d).
Proof.
  intros Hd Hl. unfold amf_decode_double. ztests. cbv zeta.
  rewrite <- !Z.add_assoc. unfold double_bytes. cbn [Z.add Pos.add Pos.succ].
  assert (H9 : forall i, 0 <= i < 9 -> 0 <= i < zlen ((amf_code amf_double :: rev (le_split 8 d)) ++ post)).
  { intros i Hi. unfold zlen. rewrite length_app. cbn. lia. }
  rewrite !load_nth by (apply H9; lia).
  transitivity (@Ret (Z * option Z) (9, Some (le_combine (le_split 8 d)))); [reflexivity|].
  rewrite le_combine_split, Z.mod_small by (cbn; lia). reflexivity.
Qed.

Lemma amf_decode_array_spec pre n post len :
  0 <= n < 2 ^ 28 -> zlen (array_header n) <= len ->
  amf_decode_array (pre ++ array_header n ++ post) (zlen pre) len =
  Ret (zlen (array_header n), Some n).
Proof.
  intros Hn. unfold array_header, size_bytes. autorewrite with cserver. intros Hl.
  pose proof (u29_bytes_pos (2 * n + 1)).
  unfold amf_decode_array, DATA_POP. ztests. cbn [app].
  rewrite load_tag. cbn [mbind outcome_bind]. rewrite i8_amf_code, Z.eqb_refl. cbn [c_assert mbind outcome_bind].
  ztests. rewrite <- app_assoc. rewrite decode_u29_at by lia. cbn [mbind outcome_bind out_or default id].
  rewrite land_1_odd, shiftr_odd. ztests. cbn [app].
  rewrite (load_mid _ _ (pre ++ amf_code amf_array :: u29_bytes (2 * n + 1)) 1 post)
    by (rewrite <- ?app_assoc; reflexivity || (autorewrite with cserver; lia)).
  cbn [mbind outcome_bind]. change (negb (i8 1 =? 1)) with false. ztests. do 2 f_equal. lia.
Qed.

(** A string read where the reference table has room: it comes back as a slice of
    the message and takes the next reference. *)
Lemma amf_decode_string_spec pre s post len st :
  zlen s < 2 ^ 28 -> zlen (string_bytes amf_string s) <= len ->
  length (string_ref st) = 1024%nat -> 0 <= cur_ref st < 1024 ->
  exists st', amf_decode_string (pre ++ string_bytes amf_string s ++ post) (zlen pre) len true st =
    Ret (zlen (string_bytes amf_string s),
         Some (mk_slice (Some (zlen pre + 1 + zlen (size_bytes (zlen s)))) (zlen s)), st')
    /\ cur_ref st' = cur_ref st + 1 /\ length (string_ref st') = 1024%nat.
Proof.
  intros Hs. unfold string_bytes, size_bytes. autorewrite with cserver. intros Hl Hr Hc.
  pose proof (zlen_nonneg s). pose proof (u29_bytes_pos (2 * zlen s + 1)).
  unfold amf_decode_string, DATA_POP. ztests. cbn [app].
  rewrite load_tag. cbn [mbind outcome_bind]. rewrite i8_amf_code, Z.eqb_refl. cbn [c_assert mbind outcome_bind].
  ztests. rewrite <- app_assoc, decode_u29_at by lia. cbn [mbind outcome_bind out_or default id].
  rewrite land_1_odd, shiftr_odd. change (1 =? 0) with false. cbv beta iota. ztests.
  destruct (string_ref st !! Z.to_nat (cur_ref st)) eqn:E;
    [|apply lookup_ge_None_1 in E; lia].
  cbn [deref mbind outcome_bind]. ztests.
  rewrite Z.add_0_l, <- (Z.add_assoc 1). eexists. split; [reflexivity|].
  cbn [cur_ref string_ref]. rewrite length_insert, u32_small by lia. auto.
Qed.

Lemma amf_decode_byte_array_spec pre s post len :
  zlen s < 2 ^ 28 -> zlen (string_bytes amf_byte_array s) <= len ->
  amf_decode_byte_array (pre ++ string_bytes amf_byte_array s ++ post) (zlen pre) len true =
  Ret (zlen (string_bytes amf_byte_array s),
       Some (mk_slice (Some (zlen pre + 1 + zlen (size_bytes (zlen s)))) (zlen s))).
Proof.
  intros Hs. unfold string_bytes, size_bytes. autorewrite with cserver. intros Hl.
  pose proof (zlen_nonneg s). pose proof (u29_bytes_pos (2 * zlen s + 1)).
  unfold amf_decode_byte_array, DATA_POP. ztests. cbn [app].
  rewrite load_tag. cbn [mbind outcome_bind]. rewrite i8_amf_code, Z.eqb_refl. cbn [c_assert mbind outcome_bind].
  ztests. rewrite <- app_assoc, decode_u29_at by lia. cbn [mbind outcome_bind out_or default id].
  rewrite shiftr_odd. ztests. do 2 f_equal. lia.
Qed.

(** ** Decoders on arbitrary input *)

(** [len] bytes from [data] lie in the object. *)
Definition readable (d : mem) (data len : Z) : Prop :=
  0 <= data /\ 0 <= len /\ data + len <= zlen d.

Lemma load_ok d p : bytes_ok d -> 0 <= p < zlen d -> exists c, load d p = Ret c /\ 0 <= c < 256.
Proof.
  intros Hb Hp. unfold load. ztests.
  destruct (d !! Z.to_nat p) as [c|] eqn:E.
  - exists c. split; [reflexivity|]. eapply Forall_lookup_1 in E; [exact E|exact Hb].
  - apply lookup_ge_None_1 in E. unfold zlen in Hp. lia.
Qed.

Lemma lor_lt_pow2 a b k : 0 <= k -> 0 <= a < 2 ^ k -> 0 <= b < 2 ^ k -> 0 <= Z.lor a b < 2 ^ k.
Proof.
  intros Hk Ha Hb.
  replace (Z.lor a b) with (Z.lor a b mod 2 ^ k); [apply Z.mod_pos_bound; lia|].
  rewrite <- Z.land_ones, Z.land_lor_distr_l, !Z.land_ones, !Z.mod_small by lia. reflexivity.
Qed.

(** The shape of a decoder's answer: an error without a value, or a value below
    [2^29] and a positive count within [len]. *)
Definition u29_answer (len : Z) (r : Z * option Z) : Prop :=
  (r = (0, None) \/ exists s n, r = (s, Some n) /\ 1 <= s <= len /\ 0 <= n < 2 ^ 29).

Lemma amf_decode_u29_loop_safe fuel d data len skip n :
  (1 <= fuel <= 4)%nat -> bytes_ok d -> readable d data len -> 0 <= skip ->
  0 <= n < 2 ^ (if decide (fuel = 1%nat) then 29 else 7 * (5 - Z.of_nat fuel)) ->
  exists r, amf_decode_u29_loop fuel d data len skip n (4 - Z.of_nat fuel) = Ret r
            /\ u29_answer (skip + len) r.
Proof.
  revert data len skip n. induction fuel as [|fuel IH]; [lia|].
  intros data len skip n Hf Hb (Hd0 & Hl0 & Hl) Hs Hn.
  cbn [amf_decode_u29_loop]. unfold DATA_POP.
  destruct (Z.ltb_spec len 1). { eexists; split; [reflexivity|]. now left. }
  destruct (load_ok d data Hb ltac:(lia)) as (c & -> & Hc). cbn [mbind outcome_bind].
  replace (4 - Z.of_nat (S fuel)) with (3 - Z.of_nat fuel) by lia.
  destruct fuel as [|fuel].
  - change (negb (3 - Z.of_nat 0 =? 3)) with false. cbv beta iota zeta.
    destruct (decide (1%nat = 1%nat)); [|lia].
    eexists; split; [reflexivity|]. right. do 2 eexists. split; [reflexivity|].
    split; [lia|]. apply lor_lt_pow2; lia.
  - destruct (decide (S (S fuel) = 1%nat)); [lia|].
    destruct (Z.eqb_spec (3 - Z.of_nat (S fuel)) 3); [lia|]. cbn [negb]. cbv zeta.
    rewrite land_127, land_bit7.
    assert (Hm : 0 <= c mod 128 < 2 ^ 7) by (apply Z.mod_pos_bound; lia).
    assert (2 ^ 7 <= 2 ^ (7 * (5 - Z.of_nat (S (S fuel))))) by (apply Z.pow_le_mono_r; lia).
    assert (Ho : 0 <= Z.lor n (c mod 128) < 2 ^ (7 * (5 - Z.of_nat (S (S fuel)))))
      by (apply lor_lt_pow2; lia).
    assert (2 ^ (7 * (5 - Z.of_nat (S (S fuel)))) <= 2 ^ 21) by (apply Z.pow_le_mono_r; lia).
    destruct (Z.eqb_spec ((c / 128) mod 2 * 128) 0); cbn [negb].
    + eexists; split; [reflexivity|]. right. do 2 eexists. split; [reflexivity|]. lia.
    + replace (3 - Z.of_nat (S fuel) + 1) with (4 - Z.of_nat (S fuel)) by lia.
      replace (skip + len) with (skip + 1 + (len - 1)) by lia.
      rewrite !Z.shiftl_mul_pow2 by lia.
      apply IH; [lia|assumption|unfold readable; lia|lia|].
      destruct (decide (S fuel = 1%nat)) as [E|E].
      * replace (3 - Z.of_nat (S fuel) =? 2) with true by (symmetry; apply Z.eqb_eq; lia).
        cbn [negb]. rewrite u32_small; lia.
      * replace (3 - Z.of_nat (S fuel) =? 2) with false by (symmetry; apply Z.eqb_neq; lia).
        cbn [negb]. rewrite u32_small by lia.
        replace (7 * (5 - Z.of_nat (S fuel))) with (7 * (5 - Z.of_nat (S (S fuel))) + 7) by lia.
        rewrite Z.pow_add_r by lia. lia.
Qed.

Lemma amf_decode_u29_safe d data len :
  bytes_ok d -> readable d data len ->
  exists r, amf_decode_u29 d data len = Ret r /\ u29_answer len r.
Proof.
  intros Hb Hr. apply (amf_decode_u29_loop_safe 4 d data len 0 0); try lia; auto.
  split; reflexivity || discriminate.
Qed.

(** Case analysis on a call of the u29 decoder inside its object. *)
Ltac case_u29 Hb :=
  match goal with
  | |- context [amf_decode_u29 ?d ?data ?len] =>
    let r := fresh "r" in let Hr := fresh "Hr" in
    destruct (amf_decode_u29_safe d data len Hb ltac:(unfold readable in *; lia)) as (r & -> & Hr);
    destruct Hr as [-> | (? & ? & -> & ? & ?)]; cbn [mbind outcome_bind out_or default id]
  end.

Lemma amf_decode_integer_safe d data len :
  bytes_ok d -> readable d data len ->
  exists r, amf_decode_integer d data len = Ret r /\ u29_answer len r.
Proof.
  intros Hb Hr. unfold amf_decode_integer, DATA_POP.
  destruct (Z.eqb_spec len 1); [eexists; split; [reflexivity|]; now left|].
  destruct (Z.ltb_spec len 1); [eexists; split; [reflexivity|]; now left|].
  case_u29 Hb; ztests; eexists; (split; [reflexivity|]); [now left|].
  right. do 2 eexists. split; [reflexivity|]. lia.
Qed.

Lemma U2SInt29_ok u : 0 <= u < 2 ^ 29 -> returns (U2SInt29 u).
Proof.
  intros. unfold U2SInt29, returns. destruct (Z.ltb_spec 0x1FFFFFFF u); [lia|].
  cbn [negb c_assert mbind outcome_bind]. destruct (negb _); eauto.
Qed.

Lemma amf_decode_sinteger_safe d data len :
  bytes_ok d -> readable d data len ->
  exists s v, amf_decode_sinteger d data len = Ret (s, v) /\ 0 <= s <= len.
Proof.
  intros Hb Hr. unfold amf_decode_sinteger.
  destruct (amf_decode_integer_safe d data len Hb Hr) as (r & -> & Ha).
  destruct Ha as [-> | (s & n & -> & ? & ?)]; cbn [mbind outcome_bind out_or default id].
  - destruct (U2SInt29_ok 0 ltac:(lia)) as [v ->]. cbn. unfold readable in *. do 2 eexists. split; [reflexivity|lia].
  - destruct (U2SInt29_ok n ltac:(lia)) as [v ->]. cbn. do 2 eexists. split; [reflexivity|lia].
Qed.

Lemma amf_decode_double_safe d data len :
  bytes_ok d -> readable d data len ->
  exists s o, amf_decode_double d data len = Ret (s, o) /\ 0 <= s <= len.
Proof.
  intros Hb (? & ? & ?). unfold amf_decode_double.
  destruct (Z.ltb_spec len 9); [do 2 eexists; split; [reflexivity|lia]|]. cbv zeta.
  do 8 (match goal with |- context [load ?x ?p] =>
          let H := fresh in destruct (load_ok x p Hb ltac:(lia)) as (? & -> & H) end;
        cbn [mbind outcome_bind]).
  do 2 eexists. split; [reflexivity|lia].
Qed.

(** A slice a decoder hands out is empty or inside the first [hi] bytes. *)
Definition slice_ok (hi : Z) (s : amf_slice) : Prop :=
  0 <= slice_len s < 2 ^ 28 /\
  match slice_buffer s with
  | None => slice_len s = 0
  | Some p => 0 <= p /\ p + slice_len s <= hi
  end.

Lemma empty_slice_ok hi : slice_ok hi empty_slice.
Proof. unfold slice_ok; cbn; lia. Qed.

Lemma half_range n : 0 <= n < 2 ^ 29 -> 0 <= Z.shiftr n 1 < 2 ^ 28.
Proof. intros. rewrite shiftr_div by lia. Z.div_mod_to_equations; lia. Qed.

Lemma amf_decode_byte_array_safe d data len t :
  bytes_ok d -> readable d data len -> load d data = Ret t -> i8 t = amf_code amf_byte_array ->
  exists s o, amf_decode_byte_array d data len true = Ret (s, o) /\ 0 <= s <= len
    /\ from_option (slice_ok (data + len)) True o.
Proof.
  intros Hb (? & ? & ?) Ht Hc. unfold amf_decode_byte_array, DATA_POP. rewrite Ht.
  destruct (Z.eqb_spec len 0); [do 2 eexists; split; [reflexivity|]; split; [lia|apply empty_slice_ok]|].
  cbn [mbind outcome_bind]. rewrite Hc, Z.eqb_refl. cbn [c_assert mbind outcome_bind]. ztests.
  case_u29 Hb.
  - do 2 eexists; split; [reflexivity|]; split; [lia|apply empty_slice_ok].
  - destruct (Z.eqb_spec x 0); [lia|]. destruct (Z.ltb_spec (len - 1) x); [lia|].
    pose proof (half_range x0 ltac:(lia)).
    destruct (Z.ltb_spec (len - 1 - x) (Z.shiftr x0 1)).
    { do 2 eexists; split; [reflexivity|]. split; [lia|exact I]. }
    do 2 eexists. split; [reflexivity|]. split; [lia|]. unfold slice_ok. cbn. lia.
Qed.

Lemma amf_decode_array_safe d data len t :
  bytes_ok d -> readable d data len -> load d data = Ret t -> i8 t = amf_code amf_array ->
  exists s o, amf_decode_array d data len = Ret (s, o) /\
    (s = 0 \/ exists n, o = Some n /\ 3 <= s <= len /\ 0 <= n < 2 ^ 28).
Proof.
  intros Hb (? & ? & ?) Ht Hc. unfold amf_decode_array, DATA_POP. rewrite Ht.
  destruct (Z.eqb_spec len 0); [do 2 eexists; split; [reflexivity|]; now left|].
  cbn [mbind outcome_bind]. rewrite Hc, Z.eqb_refl. cbn [c_assert mbind outcome_bind]. ztests.
  case_u29 Hb; [do 2 eexists; split; [reflexivity|]; now left|].
  destruct (Z.eqb_spec x 0); [lia|]. destruct (Z.ltb_spec (len - 1) x); [lia|].
  destruct (Z.land x0 1 =? 0); [do 2 eexists; split; [reflexivity|]; now left|].
  destruct (Z.eqb_spec (len - 1 - x) 0); [do 2 eexists; split; [reflexivity|]; now left|].
  destruct (load_ok d (data + 1 + x) Hb ltac:(lia)) as (nm & -> & _). cbn [mbind outcome_bind].
  destruct (negb (i8 nm =? 1)); [do 2 eexists; split; [reflexivity|]; now left|].
  ztests. do 2 eexists. split; [reflexivity|]. right. pose proof (half_range x0 ltac:(lia)).
  eexists. split; [reflexivity|]. lia.
Qed.

(** The table of string references: entries below [cur_ref] are slices of the
    first [hi] bytes of the message. *)
Definition refs_ok (hi : Z) (st : amf_refs) : Prop :=
  length (string_ref st) = 1024%nat /\ 0 <= cur_ref st <= 1024 /\
  forall i p l, 0 <= i < cur_ref st -> string_ref st !! Z.to_nat i = Some (p, l) ->
    slice_ok hi (mk_slice (Some p) l).

Lemma slice_ok_mono hi hi' s : hi <= hi' -> slice_ok hi s -> slice_ok hi' s.
Proof. unfold slice_ok. destruct (slice_buffer s); intuition lia. Qed.

Lemma amf_decode_string_safe d data len st t hi :
  bytes_ok d -> readable d data len -> load d data = Ret t -> i8 t = amf_code amf_string ->
  data + len <= hi -> refs_ok hi st -> cur_ref st < 1024 ->
  exists s o st', amf_decode_string d data len true st = Ret (s, o, st')
    /\ 0 <= s <= len /\ from_option (slice_ok hi) True o /\ refs_ok hi st'
    /\ (st' = st \/ (2 <= s /\ cur_ref st' = cur_ref st + 1)).
Proof.
  intros Hb (? & ? & ?) Ht Hc Hhi Hst Hcur. unfold amf_decode_string, DATA_POP. rewrite Ht.
  destruct (Z.eqb_spec len 0).
  { do 3 eexists; split; [reflexivity|]. split; [lia|]. split; [apply empty_slice_ok|auto]. }
  cbn [mbind outcome_bind]. rewrite Hc, Z.eqb_refl. cbn [c_assert mbind outcome_bind]. ztests.
  case_u29 Hb.
  { do 3 eexists; split; [reflexivity|]. split; [lia|]. split; [apply empty_slice_ok|auto]. }
  destruct (Z.eqb_spec x 0); [lia|]. destruct (Z.ltb_spec (len - 1) x); [lia|].
  pose proof (half_range x0 ltac:(lia)) as Hh. pose proof Hst as (Hlen & Hcr & Hent).
  destruct (Z.land x0 1 =? 0).
  - destruct (Z.leb_spec (cur_ref st) (Z.shiftr x0 1)).
    { do 3 eexists; split; [reflexivity|]. split; [lia|]. split; [apply empty_slice_ok|auto]. }
    destruct (string_ref st !! Z.to_nat (Z.shiftr x0 1)) as [[p l]|] eqn:E;
      [|apply lookup_ge_None_1 in E; lia].
    cbn [deref mbind outcome_bind]. do 3 eexists. split; [reflexivity|]. split; [lia|].
    split; [|auto]. cbn. eapply Hent; [|exact E]. lia.
  - destruct (Z.ltb_spec (len - 1 - x) (Z.shiftr x0 1)).
    { do 3 eexists; split; [reflexivity|]. split; [lia|]. split; [exact I|auto]. }
    destruct (string_ref st !! Z.to_nat (cur_ref st)) eqn:E; [|apply lookup_ge_None_1 in E; lia].
    cbn [deref mbind outcome_bind].
    assert (Hnew : slice_ok hi (mk_slice (Some (data + 1 + x)) (Z.shiftr x0 1)))
      by (unfold slice_ok; cbn; lia).
    do 3 eexists. split; [reflexivity|]. split; [lia|]. split; [exact Hnew|].
    rewrite u32_small by lia. split; [|cbn; lia].
    split; cbn [string_ref cur_ref]; [now rewrite length_insert|]. split; [lia|].
    intros i q l Hi. destruct (Z.eq_dec i (cur_ref st)) as [->|].
    + rewrite list_lookup_insert_eq by lia. intros [= <- <-]. exact Hnew.
    + rewrite list_lookup_insert_ne by lia. intros Hl. eapply Hent; [|exact Hl]. lia.
Qed.

(** ** Signed integers and doubles *)

Lemma S2UInt29_val i :
  -0x10000000 <= i <= 0xFFFFFFF -> S2UInt29 i = Ret (if i <? 0 then 2 ^ 29 + i else i).
Proof.
  intros Hi. unfold S2UInt29. destruct (Z.ltb_spec 0xFFFFFFF i); [lia|].
  destruct (Z.ltb_spec i (-0x10000000)); [lia|]. cbn [orb negb c_assert mbind outcome_bind].
  f_equal. change (Z.shiftr 0x80000000 3) with (2 ^ 28).
  change 0xFFFFFFF with (2 ^ 28 - 1). rewrite land_ones_mod, land_pow2 by lia.
  rewrite Z.lor_comm, lor_mul_pow2_add by (try apply Z.mod_pos_bound; lia).
  unfold u32. destruct (Z.ltb_spec i 0); Z.div_mod_to_equations; lia.
Qed.

Lemma lor_FF000000 u : 0 <= u < 2 ^ 29 -> Z.lor u 0xFF000000 = 255 * 2 ^ 24 + u mod 2 ^ 24.
Proof.
  intros Hu. change 0xFF000000 with (Z.shiftl (Z.ones 8) 24).
  rewrite (Z.div_mod u (2 ^ 24)) at 1 by lia.
  rewrite (Z.mul_comm (2 ^ 24)), <- lor_mul_pow2_add by (try apply Z.mod_pos_bound; lia).
  rewrite <- Z.lor_assoc, (Z.lor_comm (u mod 2 ^ 24)), Z.lor_assoc.
  rewrite <- (Z.shiftl_mul_pow2 (u / 2 ^ 24)), <- Z.shiftl_lor by lia.
  rewrite Z.lor_ones_low, Z.shiftl_mul_pow2, lor_mul_pow2_add;
    try apply Z.mod_pos_bound; try lia; try reflexivity.
  - Z.div_mod_to_equations; lia.
  - destruct (Z.eq_dec (u / 2 ^ 24) 0) as [->|]; [reflexivity|].
    apply Z.log2_lt_pow2; Z.div_mod_to_equations; lia.
Qed.

Lemma U2SInt29_val u :
  0 <= u < 2 ^ 29 ->
  U2SInt29 u = Ret (if u <? 2 ^ 28 then u else u mod 2 ^ 24 - 2 ^ 24).
Proof.
  intros Hu. unfold U2SInt29. destruct (Z.ltb_spec 0x1FFFFFFF u); [lia|].
  cbn [negb c_assert mbind outcome_bind]. change 0x10000000 with (2 ^ 28).
  rewrite land_pow2, lor_FF000000 by lia.
  destruct (Z.ltb_spec u (2 ^ 28)) as [Hs|Hs].
  - replace ((u / 2 ^ 28) mod 2 * 2 ^ 28 =? 0) with true
      by (symmetry; apply Z.eqb_eq; Z.div_mod_to_equations; lia).
    cbn [negb]. f_equal. apply i32_small. lia.
  - replace ((u / 2 ^ 28) mod 2 * 2 ^ 28 =? 0) with false
      by (symmetry; apply Z.eqb_neq; Z.div_mod_to_equations; lia).
    cbn [negb]. f_equal. unfold i32, signed. change (32 - 1) with 31.
    pose proof (Z.mod_pos_bound u (2 ^ 24) ltac:(lia)).
    rewrite (Z.mod_small (255 * 2 ^ 24 + u mod 2 ^ 24)) by lia. ztests.
Qed.

Lemma double_of_Z_val n :
  0 < n < 2 ^ 53 ->
  double_of_Z n = (1023 + Z.log2 n) * 2 ^ 52 + (n - 2 ^ Z.log2 n) * 2 ^ (52 - Z.log2 n).
Proof.
  intros Hn. unfold double_of_Z. destruct (Z.eqb_spec n 0); [lia|]. cbv zeta.
  pose proof (Z.log2_spec n ltac:(lia)) as [He1 He2]. pose proof (Z.log2_nonneg n).
  assert (Z.log2 n < 53) by (apply Z.log2_lt_pow2; lia).
  set (e := Z.log2 n) in *. rewrite Z.pow_succ_r in He2 by lia.
  rewrite land_ones_mod by lia. rewrite !Z.shiftl_mul_pow2 by lia.
  assert (Hp : 2 ^ 52 = 2 ^ e * 2 ^ (52 - e)) by (rewrite <- Z.pow_add_r by lia; f_equal; lia).
  assert (0 < 2 ^ (52 - e)) by (apply Z.pow_pos_nonneg; lia).
  rewrite lor_mul_pow2_add by (try apply Z.mod_pos_bound; lia). f_equal.
  symmetry. apply (Z.mod_unique_pos _ _ 1); nia.
Qed.

Lemma double_roundtrip n : 0 <= n < 2 ^ 53 -> double_to_Z (double_of_Z n) = n.
Proof.
  intros Hn. destruct (Z.eq_dec n 0) as [->|]; [reflexivity|].
  rewrite double_of_Z_val by lia.
  pose proof (Z.log2_spec n ltac:(lia)) as [He1 He2]. pose proof (Z.log2_nonneg n).
  assert (Z.log2 n < 53) by (apply Z.log2_lt_pow2; lia).
  set (e := Z.log2 n) in *. rewrite Z.pow_succ_r in He2 by lia.
  assert (Hp : 2 ^ 52 = 2 ^ e * 2 ^ (52 - e)) by (rewrite <- Z.pow_add_r by lia; f_equal; lia).
  assert (0 < 2 ^ (52 - e)) by (apply Z.pow_pos_nonneg; lia).
  set (man := (n - 2 ^ e) * 2 ^ (52 - e)). assert (Hm : 0 <= man < 2 ^ 52) by (subst man; nia).
  unfold double_to_Z. change 0x7FF with (2 ^ 11 - 1).
  replace (Z.testbit ((1023 + e) * 2 ^ 52 + man) 63) with false
    by (symmetry; apply Z.testbit_false; [lia|]; Z.div_mod_to_equations; lia).
  rewrite !land_ones_mod, shiftr_div by lia.
  replace ((((1023 + e) * 2 ^ 52 + man) / 2 ^ 52) mod 2 ^ 11) with (1023 + e)
    by (rewrite Z.div_add_l, (Z.div_small man) by lia; rewrite Z.mod_small; lia).
  replace (((1023 + e) * 2 ^ 52 + man) mod 2 ^ 52) with man
    by (rewrite Z.add_comm, Z.mod_add, Z.mod_small by lia; reflexivity).
  ztests. replace (1023 + e - 1023) with e by lia.
  rewrite Z.shiftl_mul_pow2, shiftr_div by lia.
  replace ((2 ^ 52 + man) * 2 ^ e) with (n * 2 ^ 52) by (subst man; nia).
  apply Z.div_mul. lia.
Qed.
