(* ===== verification/AmfSafety.v ===== *)
(** * The AMF3 reader on arbitrary bytes

    Memory safety, totality and well-formedness of [amf_read] (framework/amf.c)
    on bytes that no encoder wrote, inside the bound of the 1024-entry string
    reference table. *)
From S2P Require Import Prelude AmfWire AmfValue.

(** ** The reader on arbitrary bytes *)

Section ReaderSafety.
Context (junk : Z) (d : mem) (base END : Z).
Hypothesis Hjunk : 0 <= junk < 2 ^ 32.
Hypothesis Hbytes : bytes_ok d.
Hypothesis Hbase : 0 <= base.
Hypothesis Hend : END < zlen d.
Hypothesis Hshort : END - base < 2048.

(** The state of a read at offset [data]: every recorded reference is inside the
    message, and every reference has cost two bytes. *)
Definition read_inv (data : Z) (st : amf_refs) : Prop :=
  refs_ok END st /\ 2 * cur_ref st <= data - base.

(** The answer of a reader that had [len] bytes from [data]. *)
Definition read_ok (data len : Z) (r : outcome read_result) : Prop :=
  exists o p st', r = Ret (o, p, st') /\
  match o with
  | None => True
  | Some v => exists n, p = Some n /\ 0 <= n <= len /\ wf_amf v /\ read_inv (data + n) st'
  end.

Lemma read_inv_mono data n st : 0 <= n -> read_inv data st -> read_inv (data + n) st.
Proof. unfold read_inv. intuition lia. Qed.

Lemma read_ok_intro data len v n st :
  0 <= n <= len -> wf_amf v -> read_inv data st -> read_ok data len (Ret (Some v, Some n, st)).
Proof.
  intros. do 3 eexists. split; [reflexivity|]. eexists. split; [reflexivity|].
  split; [lia|]. split; [assumption|]. apply read_inv_mono; [lia|assumption].
Qed.

Lemma slice_bytes_ok s :
  slice_ok END s -> 0 < slice_len s ->
  exists bs, load_bytes (slice_chars d s) 0 (slice_len s) = Ret bs /\ bytes_ok bs /\ zlen bs = slice_len s.
Proof.
  intros [Hl Hp] Hz. unfold slice_chars. destruct (Z.eqb_spec (slice_len s) 0); [lia|].
  destruct (slice_buffer s) as [p|]; [|lia].
  assert (Hd : zlen (drop (Z.to_nat p) d) = zlen d - p).
  { unfold zlen in *. rewrite length_drop. lia. }
  unfold load_bytes. rewrite Hd. ztests. eexists. split; [reflexivity|]. split.
  - unfold slice. apply Forall_take, Forall_drop, Forall_drop, Hbytes.
  - apply zlen_slice; lia.
Qed.

Lemma new_string_ok s :
  slice_ok END s -> exists v, amf_new_string (slice_chars d s) (slice_len s) = Ret v /\ wf_amf v.
Proof.
  intros Hs. unfold amf_new_string. destruct (Z.eqb_spec (slice_len s) 0) as [Hz|Hz].
  - unfold slice_chars. rewrite Hz. cbn. eexists. split; [reflexivity|]. apply (wf_string []). constructor.
  - destruct (slice_bytes_ok s Hs) as (bs & He & Hb & Hl); [destruct Hs; lia|].
    cbn [mbind outcome_bind]. rewrite He. cbn [mbind outcome_bind]. eexists. split; [reflexivity|].
    rewrite <- Hl. now constructor.
Qed.

Lemma new_byte_array_ok s :
  slice_ok END s -> exists v, amf_new_byte_array (slice_chars d s) (slice_len s) = Ret v /\ wf_amf v.
Proof.
  intros Hs. unfold amf_new_byte_array. destruct (Z.eqb_spec (slice_len s) 0) as [Hz|Hz].
  - unfold slice_chars. rewrite Hz. cbn. eexists. split; [reflexivity|]. apply (wf_byte_array []). constructor.
  - destruct (slice_bytes_ok s Hs) as (bs & He & Hb & Hl); [destruct Hs; lia|].
    rewrite He. cbn [mbind outcome_bind]. eexists. split; [reflexivity|].
    rewrite <- Hl. now constructor.
Qed.

Lemma out_slice_ok o : from_option (slice_ok END) True o -> slice_ok END (out_or empty_slice o).
Proof. destruct o; cbn; [auto|]. intros _. apply empty_slice_ok. Qed.

Lemma le_combine_range bs : bytes_ok bs -> 0 <= le_combine bs < 2 ^ (8 * zlen bs).
Proof.
  induction 1 as [|b bs Hb _ IH]; [change (0 <= 0 < 1); lia|]. cbn [le_combine]. pose proof (zlen_nonneg bs).
  rewrite lor_shiftl_add, zlen_cons by (unfold byte_ok in Hb; lia). unfold byte_ok in Hb.
  replace (8 * (1 + zlen bs)) with (8 * zlen bs + 8) by lia. rewrite Z.pow_add_r by lia. lia.
Qed.

Lemma amf_decode_double_range data len s x :
  amf_decode_double d data len = Ret (s, Some x) -> 0 <= x < 2 ^ 64.
Proof.
  unfold amf_decode_double. destruct (len <? 9); [discriminate|]. cbv zeta. intros H.
  repeat match type of H with
  | _ ≫= _ = _ => apply bind_ret_inv in H as (? & ? & H)
  end.
  injection H as _ <-.
  assert (Hl : forall p c, load d p = Ret c -> byte_ok c).
  { intros p c. unfold load. destruct (0 <=? p); [|discriminate].
    destruct (d !! Z.to_nat p) eqn:E; [|discriminate]. intros [= <-].
    eapply Forall_lookup_1; [exact Hbytes|exact E]. }
  apply (le_combine_range [_; _; _; _; _; _; _; _]). repeat constructor; eapply Hl; eassumption.
Qed.

Lemma U2SInt29_range u v : U2SInt29 u = Ret v -> - 2 ^ 31 <= v < 2 ^ 31.
Proof.
  unfold U2SInt29. destruct (negb (0x1FFFFFFF <? u)); [|discriminate]. cbn [c_assert mbind outcome_bind].
  assert (Hi : forall z, - 2 ^ 31 <= i32 z < 2 ^ 31).
  { intros z. unfold i32, signed. pose proof (Z.mod_pos_bound z (2 ^ 32) ltac:(lia)).
    change (32 - 1) with 31. ztests. }
  destruct (negb _); intros [= <-]; apply Hi.
Qed.

Lemma amf_set_build done rest size c :
  zlen done < size <= zlen done + 1 + zlen rest ->
  Forall wf_amf done -> wf_amf c -> Forall (eq None) rest ->
  amf_set (AV amf_array size (PChild (map Some done ++ None :: rest))) (zlen done) (Some c) =
  Ret (AV amf_array size (PChild (map Some (done ++ [c]) ++ rest)), None).
Proof. intros. apply amf_set_next. lia. Qed.

Lemma wf_built done rest :
  Forall wf_amf done -> Forall (eq None) rest ->
  wf_amf (AV amf_array (zlen done) (PChild (map Some done ++ rest))).
Proof.
  intros Hd Hr. constructor.
  - autorewrite with cserver. unfold zlen. rewrite length_map. lia.
  - intros c Hc. apply elem_of_app in Hc as [Hc|Hc].
    + apply list_elem_of_In, in_map_iff in Hc as (x & [= <-] & Hx).
      apply list_elem_of_In, list_elem_of_lookup in Hx as (i & Hi).
      eapply Forall_lookup_1; [exact Hd|exact Hi].
    + apply list_elem_of_lookup in Hc as (i & Hi).
      eapply Forall_lookup_1 in Hr; [|exact Hi]. discriminate.
  - rewrite to_nat_zlen, <- (length_map Some done), drop_app_length. exact Hr.
Qed.

Lemma read_children_safe (read : Z -> Z -> amf_refs -> outcome read_result) n : forall done rest data len skip r st L,
  (forall data len st, base <= data -> 0 <= len <= L -> data + len = END -> read_inv data st ->
     read_ok data len (read data len st)) ->
  0 <= len <= L -> base <= data -> data + len = END -> 0 <= skip -> read_inv data st ->
  Forall wf_amf done -> Forall (eq None) rest ->
  read_ok (data - skip) (skip + len)
    (_read_children read n (AV amf_array (zlen done + Z.of_nat n)
        (PChild (map Some done ++ repeat None n ++ rest))) (zlen done) data len skip r st).
Proof.
  induction n as [|n IH]; intros done rest data len skip r st L Hread Hl Hb He Hs Hi Hd Hr.
  - cbn [_read_children repeat app]. replace (zlen done + Z.of_nat 0) with (zlen done) by lia.
    do 3 eexists. split; [reflexivity|]. eexists. split; [reflexivity|].
    split; [lia|]. split; [now apply wf_built|]. now replace (data - skip + skip) with data by lia.
  - cbn [_read_children repeat app].
    destruct (Hread data len st) as (o & p & st' & -> & Ho); [lia..|assumption|].
    cbn [mbind outcome_bind]. destruct o as [c|]; [|do 3 eexists; split; [reflexivity|exact I]].
    destruct Ho as (k & -> & Hk & Hc & Hi'). cbn [out_or default id].
    rewrite amf_set_next by lia. cbn [mbind outcome_bind]. unfold DATA_POP.
    destruct (Z.ltb_spec len k); [lia|].
    replace (zlen done + 1) with (zlen (done ++ [c])) by (autorewrite with cserver; lia).
    replace (zlen done + Z.of_nat (S n)) with (zlen (done ++ [c]) + Z.of_nat n)
      by (autorewrite with cserver; lia).
    replace (data - skip) with (data + k - (skip + k)) by lia.
    replace (skip + len) with (skip + k + (len - k)) by lia.
    eapply IH; [exact Hread|lia..|exact Hi'| |exact Hr].
    apply Forall_app. split; [assumption|now repeat constructor].
Qed.

Lemma read_amf_safe fuel : forall data len st,
  (Z.to_nat len < fuel)%nat -> base <= data -> 0 <= len -> data + len = END -> read_inv data st ->
  read_ok data len (_read_amf junk fuel d data len st).
Proof.
  induction fuel as [|fuel IH]; intros data len st Hf Hb Hl He Hi; [lia|].
  assert (Hrd : readable d data len) by (unfold readable; lia).
  cbn [_read_amf]. destruct (load_ok d data Hbytes ltac:(lia)) as (c & Hc & _).
  rewrite Hc. cbn [mbind outcome_bind]. cbv zeta.
  destruct (Z.eqb_spec (i8 c) (amf_code amf_undefine)).
  { apply read_ok_intro; [unfold amf_decode_undefine; ztests|now constructor|assumption]. }
  do 3 (match goal with |- context [i8 c =? ?t] => destruct (Z.eqb_spec (i8 c) t) end;
        [apply read_ok_intro;
          [unfold amf_decode_null, amf_decode_false, amf_decode_true, amf_decode_tag; ztests
          |now constructor|assumption]|]).
  destruct (Z.eqb_spec (i8 c) (amf_code amf_array)) as [Ht|_].
  { unfold _read_array.
    destruct (amf_decode_array_safe d data len c Hbytes Hrd Hc Ht) as (s & o & -> & Hs).
    cbn [mbind outcome_bind]. destruct Hs as [-> | (k & -> & Hs & Hn)].
    - do 3 eexists. split; [reflexivity|exact I].
    - cbn [out_or default id]. destruct (Z.eqb_spec s 0); [lia|]. unfold DATA_POP.
      destruct (Z.ltb_spec len s); [lia|].
      rewrite (amf_new_array_shape k (Z.to_nat k)) by lia.
      replace data with (data + s - (0 + s)) at 1 by lia. replace len with (0 + s + (len - s)) at 1 by lia.
      pose proof (read_children_safe (_read_amf junk fuel d) (Z.to_nat k) [] 
        (repeat None (if k =? 0 then 32%nat else 0%nat)) (data + s) (len - s) (0 + s) s st (len - s)) as Hch.
      replace (zlen (@nil amf_value) + Z.of_nat (Z.to_nat k)) with k in Hch by (rewrite zlen_nil; lia).
      apply Hch; try lia; [|apply read_inv_mono; [lia|assumption]|constructor|].
      + intros. apply IH; lia || assumption.
      + clear. induction (if k =? 0 then 32%nat else 0%nat); cbn; constructor; auto. }
  destruct (Z.eqb_spec (i8 c) (amf_code amf_integer)).
  { unfold _read_integer.
    destruct (amf_decode_integer_safe d data len Hbytes Hrd) as (x & -> & [-> | (s & k & -> & ? & ?)]);
      (apply read_ok_intro; [lia| |assumption]); constructor; cbn; lia. }
  destruct (Z.eqb_spec (i8 c) (amf_code amf_sinteger)).
  { unfold _read_sinteger.
    destruct (amf_decode_sinteger_safe d data len Hbytes Hrd) as (s & v & Hv & ?). rewrite Hv.
    apply read_ok_intro; [lia| |assumption]. constructor.
    unfold amf_decode_sinteger in Hv. apply bind_ret_inv in Hv as ((s' & o) & _ & Hv).
    apply bind_ret_inv in Hv as (v' & Hv' & [= <- <-]). now apply U2SInt29_range in Hv'. }
  destruct (Z.eqb_spec (i8 c) (amf_code amf_string)) as [Ht|_].
  { unfold _read_string. destruct Hi as [Hi1 Hi2].
    destruct (amf_decode_string_safe d data len st c END Hbytes Hrd Hc Ht) as (s & o & st' & -> & Hs & Ho & Hst & Hcur);
      [lia|assumption|lia|].
    cbn [mbind outcome_bind].
    destruct (new_string_ok (out_or empty_slice o) (out_slice_ok _ Ho)) as (v & -> & Hv).
    do 3 eexists. split; [reflexivity|]. eexists. split; [reflexivity|]. split; [lia|].
    split; [assumption|]. split; [assumption|]. destruct Hcur as [-> | [? ?]]; lia. }
  destruct (Z.eqb_spec (i8 c) (amf_code amf_double)).
  { unfold _read_double.
    destruct (amf_decode_double_safe d data len Hbytes Hrd) as (s & o & Hv & ?). rewrite Hv.
    apply read_ok_intro; [lia| |assumption]. constructor. destruct o; cbn; [|lia].
    now apply amf_decode_double_range in Hv. }
  destruct (Z.eqb_spec (i8 c) (amf_code amf_byte_array)) as [Ht|_].
  { unfold _read_byte_array.
    destruct (amf_decode_byte_array_safe d data len c Hbytes Hrd Hc Ht) as (s & o & -> & Hs & Ho).
    cbn [mbind outcome_bind]. rewrite He in Ho.
    destruct (new_byte_array_ok (out_or empty_slice o) (out_slice_ok _ Ho)) as (v & -> & Hv).
    now apply read_ok_intro. }
  do 3 eexists. split; [reflexivity|exact I].
Qed.
End ReaderSafety.
