(* ===== verification/AmfTheorems.v ===== *)
(** * What the AMF3 codec guarantees

    The theorems on [framework/amf.c] a caller relies on: encode/read round
    trip, exact announced length, safety of the reader, the array operations,
    and the limits of the format as implemented (signed integers below
    [-2^24], more than 1024 strings, a missing length check in nested
    encoding, [amf_skip] on arrays). *)
From S2P Require Import Prelude AmfWire AmfValue AmfSafety.

(** ** Depth is bounded by length *)

Lemma concat_take_elem_length {A} (x : list A) n ls :
  x ∈ take n ls -> (length x <= length (concat (take n ls)))%nat.
Proof.
  induction (take n ls) as [|y l IH]; intros Hin; inversion Hin; subst;
    cbn [concat]; rewrite length_app; [lia|]. specialize (IH ltac:(assumption)). lia.
Qed.

Lemma foldr_max_le k l : Forall (fun x => x <= k)%nat l -> (foldr Nat.max 0%nat l <= k)%nat.
Proof. induction 1; cbn; lia. Qed.

Lemma elem_of_map {A B} (f : A -> B) x l : x ∈ l -> f x ∈ map f l.
Proof. intros H. apply list_elem_of_In, in_map, list_elem_of_In, H. Qed.

Lemma string_bytes_pos t s : 2 <= zlen (string_bytes t s).
Proof.
  unfold string_bytes, size_bytes. autorewrite with cserver.
  pose proof (u29_bytes_pos (2 * zlen s + 1)). pose proof (zlen_nonneg s). lia.
Qed.

Lemma amf_depth_length v : wf_amf v -> (amf_depth v <= length (amf_bytes v))%nat.
Proof.
  induction 1 as [t size Ht|size n Hn|size i Hi|size d Hd|s Hs|s Hs|size child Hsz Hch IH Hnone];
    cbn [amf_depth amf_bytes].
  - cbn. lia.
  - pose proof (integer_bytes_pos amf_integer n). unfold zlen in *; lia.
  - pose proof (integer_bytes_pos amf_sinteger (sint29_u i)). unfold zlen in *; lia.
  - unfold double_bytes. cbn [length]. lia.
  - rewrite take_length_string. pose proof (string_bytes_pos amf_string s). unfold zlen in *; lia.
  - rewrite take_length_all. pose proof (string_bytes_pos amf_byte_array s). unfold zlen in *; lia.
  - rewrite obytes_map, length_app. pose proof (array_header_pos size) as Hh.
    assert (Hh' : (3 <= length (array_header size))%nat) by (unfold zlen in *; lia).
    enough (foldr Nat.max 0%nat (map (fun o => match o with None => 1%nat | Some c => amf_depth c end) child)
            <= 1 + length (concat (take (Z.to_nat size) (map obytes child))))%nat by lia.
    apply foldr_max_le, Forall_forall. intros k Hk.
    apply in_map_iff in Hk as (o & <- & Ho). apply list_elem_of_In in Ho.
    destruct o as [c|]; [|lia].
    specialize (IH c Ho).
    assert (Hin : Some c ∈ take (Z.to_nat size) child).
    { rewrite <- (take_drop (Z.to_nat size) child) in Ho. apply elem_of_app in Ho as [Ho|Ho]; [exact Ho|].
      apply list_elem_of_lookup in Ho as (i & Hi). eapply Forall_lookup_1 in Hnone; [|exact Hi]. discriminate. }
    apply (elem_of_map obytes) in Hin.
    replace (map obytes (take (Z.to_nat size) child)) with (take (Z.to_nat size) (map obytes child)) in Hin
      by apply firstn_map.
    apply concat_take_elem_length in Hin. cbn [obytes] in Hin. lia.
Qed.

(** ** Round trip *)

Lemma splice_split m p bs :
  0 <= p -> p + zlen bs <= zlen m ->
  exists pre post, splice m p bs = pre ++ bs ++ post /\ zlen pre = p.
Proof.
  intros. eexists _, _. split; [reflexivity|]. unfold zlen in *. rewrite length_take. lia.
Qed.

Lemma amf_fits_weaken v lo lo' : lo' <= lo -> wf_amf v -> amf_fits lo v = true -> amf_fits lo' v = true.
Proof.
  intros Hlo. induction 1 as [| | | | | |size child Hsz Hch IH Hnone]; cbn [amf_fits]; intros Hf; auto.
  - zbool. ztests.
  - apply andb_true_iff in Hf as [-> Hf]. cbn. apply forallb_forall. intros o Ho.
    pose proof (proj1 (forallb_forall _ _) Hf o Ho) as Hfo. apply list_elem_of_In in Ho.
    destruct o; auto.
Qed.

(** Reading exactly the bytes of a value. *)
Lemma amf_read_back junk v st : wf_amf v -> amf_fits (-0x1000000) v = true -> amf_strings v <= 1024 -> length (string_ref st) = 1024%nat ->
  exists st', amf_read junk (amf_bytes v) 0 (zlen (amf_bytes v)) st = Ret (Some (amf_norm v), Some (zlen (amf_bytes v)), st').
Proof.
  intros Hwf Hfit Hstr Hst. pose proof (amf_depth_length v Hwf) as Hdep. unfold amf_read.
  destruct (read_value_back junk v Hwf Hfit (S (Z.to_nat (zlen (amf_bytes v)))) ltac:(rewrite to_nat_zlen; lia)
              [] [] (zlen (amf_bytes v)) (mk_refs 0 (string_ref st))) as (st' & Hread & _); [lia|unfold refs_room; cbn; lia|].
  exists st'. cbn [app] in Hread. rewrite app_nil_r in Hread. exact Hread.
Qed.

(** C1: Every well-formed value whose signed integers are at least [-2^24], whose
    sizes are below [2^28] and which holds at most 1024 strings survives the
    wire: [amf_encode] returns the length [amf_get_encode_length] announced,
    leaves every byte outside that range as it was, and [amf_read] on exactly
    those bytes returns the value (an absent child as null, an integer above
    29 bits as a double) and consumes all of them. *)
Theorem amf_encode_read_roundtrip junk v m data dlen n st :
  wf_amf v -> amf_fits (-0x1000000) v = true -> amf_strings v <= 1024 ->
  amf_get_encode_length (Some v) = Ret n ->
  0 <= data -> n <= dlen -> data + n <= zlen m -> length (string_ref st) = 1024%nat ->
  exists m' st',
    amf_encode m data dlen (Some v) = Ret (n, m') /\
    take (Z.to_nat data) m' = take (Z.to_nat data) m /\
    drop (Z.to_nat (data + n)) m' = drop (Z.to_nat (data + n)) m /\
    amf_read junk m' data n st = Ret (Some (amf_norm v), Some n, st').
Proof.
  intros Hwf Hfit Hstr Hlen Hd Hl Hm Hst.
  assert (Hfit' : amf_fits (-0x10000000) v = true) by (eapply amf_fits_weaken; eauto; lia).
  cbn [amf_get_encode_length] in Hlen. rewrite amf_get_encode_length_value_spec in Hlen by assumption.
  injection Hlen as <-. cbn [amf_encode].
  rewrite amf_encode_value_spec by assumption.
  pose proof (amf_depth_length v Hwf) as Hdep.
  unfold amf_read.
  assert (Hpre : zlen (take (Z.to_nat data) m) = data)
    by (pose proof (zlen_nonneg (amf_bytes v)); unfold zlen in *; rewrite length_take; lia).
  destruct (read_value_back junk v Hwf Hfit (S (Z.to_nat (zlen (amf_bytes v))))
              ltac:(rewrite to_nat_zlen; lia)
              (take (Z.to_nat data) m) (drop (Z.to_nat data + length (amf_bytes v)) m)
              (zlen (amf_bytes v)) (mk_refs 0 (string_ref st))) as (st' & Hread & _);
    [lia|unfold refs_room; cbn; lia|].
  exists (splice m data (amf_bytes v)), st'. split; [reflexivity|].
  rewrite Hpre in Hread. split; [|split; [|exact Hread]].
  - unfold splice. apply take_app_length'. unfold zlen in Hpre. lia.
  - unfold splice, zlen in *. rewrite (assoc_L (++)), drop_app_length'.
    + f_equal. lia.
    + rewrite length_app. lia.
Qed.

(** A record as the services send it: integers of both kinds, a 32-bit value,
    strings, an absent child and a nested array. *)
Definition sample_value : amf_value :=
  AV amf_array 6 (PChild
    [Some (amf_new_integer 300); Some (amf_new_integer 0xFFFFFFFF); Some (amf_new_sinteger (-7));
     Some (AV amf_string 2 (PString ([104; 105] ++ [0]))); None;
     Some (AV amf_array 1 (PChild [Some amf_new_true; None])); None; None]).

Lemma sample_value_wf : wf_amf sample_value.
Proof.
  constructor; [vm_compute; split; discriminate| |repeat constructor].
  intros c Hc. repeat (apply elem_of_cons in Hc as [Hc|Hc]; [try discriminate Hc; injection Hc as ->|]);
    [| | | | |inversion Hc].
  1-3: constructor; vm_compute; split; congruence.
  - apply (wf_string [104; 105]). repeat constructor; vm_compute; congruence.
  - constructor; [vm_compute; split; discriminate| |repeat constructor].
    intros c Hc. repeat (apply elem_of_cons in Hc as [Hc|Hc]; [try discriminate Hc; injection Hc as ->|]);
      [|inversion Hc]. now constructor.
Qed.

Lemma amf_encode_read_roundtrip_witness :
  exists m' st', amf_encode (repeat 0 40) 3 34 (Some sample_value) = Ret (29, m') /\
  take (Z.to_nat 3) m' = take (Z.to_nat 3) (repeat 0 40) /\
  drop (Z.to_nat (3 + 29)) m' = drop (Z.to_nat (3 + 29)) (repeat 0 40) /\
  amf_read 0 m' 3 29 refs_init = Ret (Some (amf_norm sample_value), Some 29, st').
Proof.
  apply amf_encode_read_roundtrip;
    [exact sample_value_wf|reflexivity|vm_compute; discriminate|reflexivity|lia|lia|vm_compute; discriminate|reflexivity].
Defined.

(** What a reader of the decoded value sees is what the sender stored: the
    integer, string, byte-array and double accessors agree on a value and on
    its decoded form, the size of an array is kept and its elements are the
    decoded elements, with null for an absent one. *)
Theorem amf_norm_observations v :
  wf_amf v ->
  amf_get_integer (Some (amf_norm v)) = amf_get_integer (Some v) /\
  amf_get_string (Some (amf_norm v)) = amf_get_string (Some v) /\
  amf_get_byte_array (Some (amf_norm v)) = amf_get_byte_array (Some v) /\
  amf_get_double (Some (amf_norm v)) = amf_get_double (Some v) /\
  (av_type v = amf_array -> amf_size (Some (amf_norm v)) = amf_size (Some v) /\
    forall i, 0 <= i < amf_size (Some v) ->
      amf_get (Some (amf_norm v)) i =
      (c ← amf_get (Some v) i; Ret (Some (default amf_new_null (amf_norm <$> c))))).
Proof.
  intros [t size Ht|size n Hn|size i Hi|size d Hd|s Hs|s Hs|size child Hsz Hch Hnone];
    cbn [amf_norm av_type]; unfold AMF_INTEGER_MAX.
  - destruct t; try discriminate Ht; repeat split; discriminate.
  - destruct (Z.ltb_spec 0x1FFFFFFF n); (repeat split; try discriminate); try reflexivity.
    cbn. unfold double_to_u32. rewrite double_roundtrip by lia. ztests. reflexivity.
  - repeat split; discriminate.
  - repeat split; discriminate.
  - repeat split; discriminate.
  - repeat split; discriminate.
  - repeat split. intros i Hi. cbn [amf_size av_size] in Hi. cbn [amf_get]. ztests.
    unfold zlen in *.
    rewrite lookup_app_l by (rewrite length_take, length_map; lia).
    rewrite lookup_take_lt by lia.
    change (map ?f child) with (f <$> child). rewrite list_lookup_fmap.
    destruct (child !! Z.to_nat i) as [[c|]|]; reflexivity.
Qed.

Lemma amf_norm_observations_witness :
  amf_get_integer (Some (amf_norm (amf_new_integer 0xFFFFFFFF))) = Ret 0xFFFFFFFF /\
  amf_get (Some (amf_norm sample_value)) 4 = Ret (Some amf_new_null).
Proof.
  split.
  - refine (proj1 (amf_norm_observations (amf_new_integer 0xFFFFFFFF) _)). constructor; lia.
  - refine (proj2 (proj2 (proj2 (proj2 (proj2 (amf_norm_observations sample_value sample_value_wf)))) eq_refl) 4 _).
    cbn. lia.
Defined.

(** C34: On arbitrary bytes, [amf_read] of a message shorter than 2048 bytes
    that is followed by at least one byte of the same buffer terminates
    without undefined behaviour or failed assertion; when it returns a value,
    the value is well formed and the consumed length is within the message.
    This assumes that memory is always allocated: the size of an array is read
    from the message, and [amf_new_array] clears up to 2^28 pointers (2 GB)
    without asking whether [malloc] gave them. *)
Theorem amf_read_safe junk d data dlen st :
  bytes_ok d -> 0 <= junk < 2 ^ 32 -> 0 <= data -> 0 <= dlen < 2048 -> data + dlen < zlen d ->
  length (string_ref st) = 1024%nat ->
  exists o p st', amf_read junk d data dlen st = Ret (o, p, st') /\
    match o with
    | None => True
    | Some v => wf_amf v /\ exists n, p = Some n /\ 0 <= n <= dlen
    end.
Proof.
  intros Hb Hj Hd Hl He Hst. unfold amf_read.
  destruct (read_amf_safe junk d data (data + dlen) Hj Hb Hd He ltac:(lia) (S (Z.to_nat dlen)) data dlen
              (mk_refs 0 (string_ref st))) as (o & p & st' & Heq & Ho); [lia..|lia| |].
  - split; [|cbn; lia]. split; [exact Hst|]. split; [cbn; lia|]. cbn. intros. lia.
  - exists o, p, st'. split; [exact Heq|]. destruct o; [|exact I].
    destruct Ho as (n & -> & ? & ? & _). eauto.
Qed.

Lemma amf_read_safe_witness :
  exists o p st', amf_read 0 [9; 5; 1; 4; 200; 0] 0 5 refs_init = Ret (o, p, st') /\
    match o with None => True | Some v => wf_amf v /\ exists n, p = Some n /\ 0 <= n <= 5 end.
Proof.
  apply amf_read_safe; try lia; try reflexivity.
  repeat constructor; vm_compute; congruence.
Defined.

(** ** Signed integers *)

(** A signed integer in the 29-bit range [S2UInt29] accepts comes back from
    [U2SInt29] exactly when it is at least [-2^24]: the sign extension sets
    only the top eight bits. *)
Theorem sint29_roundtrip_iff i u :
  -0x10000000 <= i <= 0xFFFFFFF -> S2UInt29 i = Ret u ->
  (U2SInt29 u = Ret i <-> -0x1000000 <= i).
Proof.
  intros Hi Hu. rewrite S2UInt29_val in Hu by assumption. injection Hu as <-.
  rewrite U2SInt29_val by ztests. split.
  - intros [= H]. revert H. ztests; Z.div_mod_to_equations; lia.
  - intros H. f_equal. destruct (Z.ltb_spec i 0).
    + destruct (Z.ltb_spec (2 ^ 29 + i) (2 ^ 28)); [lia|]. Z.div_mod_to_equations; lia.
    + ztests.
Qed.

Lemma sint29_roundtrip_iff_witness :
  S2UInt29 (-0x1000000) = Ret 0x1F000000 /\ U2SInt29 0x1F000000 = Ret (-0x1000000) /\
  S2UInt29 (-0x1000001) = Ret 0x1EFFFFFF /\ U2SInt29 0x1EFFFFFF <> Ret (-0x1000001).
Proof.
  split; [reflexivity|]. split.
  - apply (sint29_roundtrip_iff (-0x1000000) 0x1F000000); [lia|reflexivity|lia].
  - split; [reflexivity|]. intros H.
    apply (sint29_roundtrip_iff (-0x1000001) 0x1EFFFFFF) in H; [lia|lia|reflexivity].
Defined.

(** ** Arrays *)

(** The elements of an array value. *)
Definition amf_elems (a : amf_value) : list (option amf_value) :=
  match av_payload a with PChild child => take (Z.to_nat (av_size a)) child | _ => [] end.

Lemma wf_array_intro size child :
  0 <= size <= zlen child -> (forall c, Some c ∈ take (Z.to_nat size) child -> wf_amf c) ->
  Forall (eq None) (drop (Z.to_nat size) child) -> wf_amf (AV amf_array size (PChild child)).
Proof.
  intros Hs Hc Hn. constructor; [exact Hs| |exact Hn]. intros c Hin.
  rewrite <- (take_drop (Z.to_nat size) child) in Hin. apply elem_of_app in Hin as [Hin|Hin]; [auto|].
  apply list_elem_of_lookup in Hin as (i & Hi). eapply Forall_lookup_1 in Hn; [|exact Hi]. discriminate.
Qed.

Lemma elem_of_insert_inv {A} (x : A) (i : nat) y (l : list A) : x ∈ <[i:=y]> l -> x = y \/ x ∈ l.
Proof.
  intros (j & Hj)%list_elem_of_lookup. destruct (decide (i = j)) as [->|Hne].
  - apply list_lookup_insert_Some in Hj as [(_ & -> & _)|(? & _)]; [now left|congruence].
  - rewrite list_lookup_insert_ne in Hj by assumption. right. apply list_elem_of_lookup. eauto.
Qed.

Lemma Forall_drop_le {A} (P : A -> Prop) i j l : (i <= j)%nat -> Forall P (drop i l) -> Forall P (drop j l).
Proof.
  intros Hij H. replace j with (i + (j - i))%nat by lia. rewrite <- drop_drop. now apply Forall_drop.
Qed.

Lemma amf_set_wf size child pos v :
  wf_amf (AV amf_array size (PChild child)) -> 0 <= pos < zlen child -> (forall c, v = Some c -> wf_amf c) ->
  wf_amf (AV amf_array (if size <? pos + 1 then pos + 1 else size) (PChild (<[Z.to_nat pos:=v]> child))).
Proof.
  intros Hwf Hpos Hv. inversion Hwf as [| | | | | |? ? Hsz Hch Hnone]; subst.
  assert (Hl : zlen (<[Z.to_nat pos:=v]> child) = zlen child) by (unfold zlen; now rewrite length_insert).
  constructor.
  - rewrite Hl. ztests.
  - intros c Hc. apply elem_of_insert_inv in Hc as [Hc|Hc]; auto.
  - rewrite drop_insert_lt by (ztests). eapply Forall_drop_le; [|exact Hnone]. ztests.
Qed.

(** [amf_set] on an array: a position inside the allocation is replaced, the
    old child is returned, the size grows to cover the position, every other
    element is kept and the result is well formed; a position outside the
    allocation changes nothing. *)
Theorem amf_set_spec size child pos v :
  let a := AV amf_array size (PChild child) in
  wf_amf a -> 0 <= pos -> (forall c, v = Some c -> wf_amf c) ->
  exists a' old, amf_set a pos v = Ret (a', old) /\ wf_amf a' /\
    if pos <? zlen child then
      child !! Z.to_nat pos = Some old /\
      amf_size (Some a') = Z.max size (pos + 1) /\
      amf_get (Some a') pos = Ret v /\
      (forall j, 0 <= j < size -> j <> pos -> amf_get (Some a') j = amf_get (Some a) j)
    else a' = a /\ old = None.
Proof.
  intros a Hwf Hpos Hv. subst a. cbn [amf_set]. destruct (Z.ltb_spec pos (zlen child)) as [Hlt|Hge]; [|eauto 6].
  destruct (child !! Z.to_nat pos) as [old|] eqn:E; [|apply lookup_ge_None_1 in E; unfold zlen in *; lia].
  cbn [deref mbind outcome_bind]. eexists _, _. split; [reflexivity|].
  split; [now apply amf_set_wf|]. split; [reflexivity|]. unfold zlen in *. repeat split.
  - cbn. ztests.
  - cbn [amf_get]. rewrite list_lookup_insert_eq by lia.
    destruct (Z.ltb_spec size (pos + 1)); ztests; reflexivity.
  - intros j Hj Hne. cbn [amf_get]. rewrite list_lookup_insert_ne by lia.
    destruct (Z.ltb_spec size (pos + 1)); ztests; reflexivity.
Qed.

Lemma amf_set_spec_witness :
  exists a' old, amf_set (amf_new_array 2) 1 (Some amf_new_true) = Ret (a', old) /\ wf_amf a' /\
    amf_get (Some a') 1 = Ret (Some amf_new_true).
Proof.
  destruct (amf_set_spec 2 [None; None] 1 (Some amf_new_true)) as (a' & old & He & Hw & H).
  - apply wf_array_intro; [vm_compute; split; discriminate| |repeat constructor].
    intros c Hc. repeat (apply elem_of_cons in Hc as [Hc|Hc]; [discriminate|]). inversion Hc.
  - lia.
  - intros c [= <-]. now constructor.
  - exists a', old. split; [exact He|]. split; [exact Hw|]. apply H.
Defined.

(** The array with exactly the elements [es], and that it stands for every array with these elements. *)
Definition array_of (es : list (option amf_value)) : amf_value := AV amf_array (zlen es) (PChild es).

Lemma array_canonical lo a size child :
  a = AV amf_array size (PChild child) -> wf_amf a ->
  amf_bytes a = amf_bytes (array_of (amf_elems a)) /\ amf_norm a = amf_norm (array_of (amf_elems a)) /\
  amf_strings a = amf_strings (array_of (amf_elems a)) /\ amf_fits lo a = amf_fits lo (array_of (amf_elems a)).
Proof.
  intros -> Hwf. inversion Hwf as [| | | | | |? ? Hsz Hch Hnone]; subst. unfold array_of, amf_elems. cbn [av_payload av_size].
  set (es := take (Z.to_nat size) child). assert (Hl : zlen es = size) by (unfold es, zlen in *; rewrite length_take; lia).
  assert (Hle : Z.to_nat size = length es) by (unfold zlen in Hl; lia).
  cbn [amf_bytes amf_norm amf_strings amf_fits]. rewrite !Hl.
  assert (Hmap : forall {B} (f : option amf_value -> B), take (Z.to_nat size) (map f es) = take (Z.to_nat size) (map f child)).
  { intros B f. unfold es. rewrite <- firstn_map. now rewrite take_take, Nat.min_id. }
  rewrite !Hmap. split; [reflexivity|]. split; [reflexivity|]. split; [reflexivity|]. f_equal.
  rewrite <- (take_drop (Z.to_nat size) child) at 1. fold es. rewrite forallb_app.
  assert (Hn : forall l, Forall (eq None) l -> forallb (fun o => match o with None => true | Some c => amf_fits lo c end) l = true).
  { induction 1 as [|o l <- _ IH]; [reflexivity|exact IH]. }
  rewrite (Hn _ Hnone). apply andb_true_r.
Qed.

(** [amf_push] appends: on any well-formed array, full or not, it returns a
    well-formed array whose elements are the old ones followed by the new one. *)
Theorem amf_push_appends size child v :
  let a := AV amf_array size (PChild child) in
  wf_amf a -> (forall c, v = Some c -> wf_amf c) ->
  exists a', amf_push a v = Ret a' /\ wf_amf a' /\ amf_elems a' = amf_elems a ++ [v].
Proof.
  intros a Hwf Hv. subst a. inversion Hwf as [| | | | | |? ? Hsz Hch Hnone]; subst.
  set (grown := take (Z.to_nat size) child ++
                repeat None (Z.to_nat ((if zlen child =? 0 then 8 else zlen child * 2) - size))).
  set (child' := if size =? zlen child then grown else child).
  assert (Hl' : size < zlen child').
  { subst child' grown. destruct (Z.eqb_spec size (zlen child)); [|lia].
    rewrite zlen_app. unfold zlen in *. rewrite length_take, repeat_length. ztests. }
  assert (Htake : take (Z.to_nat size) child' = take (Z.to_nat size) child).
  { subst child' grown. destruct (Z.eqb_spec size (zlen child)); [|reflexivity].
    rewrite take_app_length' by (rewrite length_take; unfold zlen in *; lia). reflexivity. }
  assert (Hwf' : wf_amf (AV amf_array size (PChild child'))).
  { apply wf_array_intro; [lia|rewrite Htake; intros; eapply Hch, elem_of_take_sub; eassumption|].
    subst child' grown. destruct (Z.eqb_spec size (zlen child)); [|assumption].
    rewrite drop_app_length' by (rewrite length_take; unfold zlen in *; lia).
    clear. induction (Z.to_nat _); cbn; constructor; auto. }
  exists (AV amf_array (size + 1) (PChild (<[Z.to_nat size:=v]> child'))).
  assert (He : amf_push (AV amf_array size (PChild child)) v =
               ('(a, _) ← amf_set (AV amf_array (size + 1) (PChild child')) size v; Ret a)).
  { unfold amf_push. cbn [av_payload av_size]. subst child' grown.
    destruct (Z.eqb_spec size (zlen child)); [|reflexivity].
    destruct (Z.eqb_spec (zlen child) 0); reflexivity. }
  rewrite He. cbn [amf_set]. destruct (Z.ltb_spec size (zlen child')); [|lia].
  destruct (child' !! Z.to_nat size) as [old|] eqn:E; [|apply lookup_ge_None_1 in E; unfold zlen in *; lia].
  cbn [deref mbind outcome_bind]. destruct (Z.ltb_spec (size + 1) (size + 1)); [lia|].
  split; [reflexivity|]. split.
  - pose proof (amf_set_wf size child' size v Hwf' ltac:(lia) Hv) as Hw.
    destruct (Z.ltb_spec size (size + 1)); [exact Hw|lia].
  - unfold amf_elems. cbn [av_payload av_size]. rewrite <- Htake.
    replace (Z.to_nat (size + 1)) with (S (Z.to_nat size)) by lia.
    rewrite (take_S_r _ _ v) by (apply list_lookup_insert_eq; unfold zlen in *; lia).
    now rewrite take_insert_ge by lia.
Qed.

Lemma amf_push_appends_witness :
  exists a', amf_push (AV amf_array 1 (PChild [Some amf_new_true])) None = Ret a' /\ wf_amf a' /\
    amf_elems a' = [Some amf_new_true; None].
Proof.
  apply (amf_push_appends 1 [Some amf_new_true] None).
  - apply wf_array_intro; [vm_compute; split; discriminate| |constructor]. intros c Hc.
    apply elem_of_cons in Hc as [[= ->]|Hc]; [now constructor|inversion Hc].
  - discriminate.
Defined.

(** ** Limits *)

(** [amf_skip] never returns on the encoding of a non-empty array: it pops
    the offset instead of the header length, so it starts again on the header
    of the same array, whatever number of steps it is given. *)
Theorem amf_skip_array_diverges fuel pre n post len st :
  0 < n < 2 ^ 28 -> zlen (array_header n) <= len ->
  amf_skip fuel (pre ++ array_header n ++ post) (zlen pre) len st = NoFuel.
Proof.
  intros Hn Hl. pose proof (array_header_pos n). revert st.
  induction fuel as [|fuel IH]; intros st; [reflexivity|].
  cbn [amf_skip]. unfold amf_next_type.
  destruct (Z.eqb_spec len 0); [lia|].
  assert (Ht : load (pre ++ array_header n ++ post) (zlen pre) = Ret (amf_code amf_array)) by apply load_tag.
  rewrite Ht. cbn [mbind outcome_bind]. rewrite i8_amf_code.
  cbn [amf_code Z.eqb Pos.eqb orb]. rewrite amf_decode_array_spec by lia.
  cbn [mbind outcome_bind out_or default id]. unfold DATA_POP at 1. destruct (Z.ltb_spec len 0); [lia|].
  rewrite Z.add_0_r, Z.sub_0_r.
  destruct (Z.to_nat n) as [|k] eqn:E; [lia|]. rewrite IH. reflexivity.
Qed.

Lemma amf_skip_array_diverges_witness :
  amf_skip 1000 [9; 3; 1; 1] 0 4 refs_init = NoFuel.
Proof. apply (amf_skip_array_diverges 1000 [] 1 [1] 4 refs_init); [lia|vm_compute; discriminate]. Defined.

(** An array of [k] one-character strings. *)
Definition string_array (k : nat) : amf_value :=
  AV amf_array (Z.of_nat k) (PChild (repeat (Some (AV amf_string 1 (PString ([65] ++ [0])))) k)).

Lemma string_array_wf k : wf_amf (string_array k).
Proof.
  apply wf_array_intro.
  - unfold zlen. rewrite repeat_length. lia.
  - intros c Hc. apply elem_of_take_sub, list_elem_of_In, repeat_spec in Hc as [= ->].
    apply (wf_string [65]). repeat constructor; vm_compute; congruence.
  - rewrite Nat2Z.id, drop_ge by (rewrite repeat_length; lia). constructor.
Qed.

Lemma string_array_fits k lo : Z.of_nat k < 2 ^ 28 -> amf_fits lo (string_array k) = true.
Proof.
  intros. cbn [string_array amf_fits]. destruct (Z.ltb_spec (Z.of_nat k) (2 ^ 28)); [|lia]. cbn [andb].
  clear. induction k; [reflexivity|exact IHk].
Qed.

Lemma string_array_strings k : amf_strings (string_array k) = Z.of_nat k.
Proof.
  cbn [string_array amf_strings]. rewrite Nat2Z.id.
  induction k as [|k IH]; [reflexivity|]. cbn [repeat map take foldr]. rewrite IH.
  change (amf_strings _) with 1. lia.
Qed.

(** The reference table is not bounds-checked: a message with 1024 strings is
    read, fills the table, and the next inline string, whatever it is, is
    recorded past the end of [string_ref]. *)
Theorem amf_string_table_overflow junk pre post s st data len :
  length (string_ref st) = 1024%nat -> zlen s < 2 ^ 28 -> zlen (string_bytes amf_string s) <= len ->
  exists v p st', let bs := amf_bytes (string_array 1024) in
    amf_read junk (data ++ bs ++ post) (zlen data) (zlen bs) st = Ret (Some v, Some p, st') /\
    amf_decode_string (pre ++ string_bytes amf_string s ++ post) (zlen pre) len true st' = Undef.
Proof.
  intros Hst Hs Hl. cbv zeta.
  pose proof (string_array_wf 1024) as Hwf. pose proof (amf_depth_length _ Hwf) as Hdep.
  destruct (read_value_back junk _ Hwf (string_array_fits 1024 _ ltac:(lia))
     (S (Z.to_nat (zlen (amf_bytes (string_array 1024))))) ltac:(rewrite to_nat_zlen; lia)
     data post (zlen (amf_bytes (string_array 1024))) (mk_refs 0 (string_ref st)))
     as (st' & Hr & Hlen & Hcur).
  { lia. }
  { rewrite string_array_strings. unfold refs_room. cbn [string_ref cur_ref]. lia. }
  rewrite string_array_strings in Hcur. cbn [cur_ref] in Hcur.
  eexists _, _, st'. split; [exact Hr|].
  revert Hl. unfold string_bytes, size_bytes. cbn [app]. autorewrite with cserver. intros Hl.
  pose proof (u29_bytes_pos (2 * zlen s + 1)). pose proof (zlen_nonneg s).
  unfold amf_decode_string, DATA_POP. destruct (Z.eqb_spec len 0); [lia|].
  rewrite load_tag. cbn [mbind outcome_bind]. rewrite i8_amf_code, Z.eqb_refl.
  cbn [c_assert mbind outcome_bind]. destruct (Z.ltb_spec len 1); [lia|].
  rewrite <- app_assoc, decode_u29_at by lia. cbn [mbind outcome_bind out_or default id].
  destruct (Z.eqb_spec (zlen (u29_bytes (2 * zlen s + 1))) 0); [lia|].
  destruct (Z.ltb_spec (len - 1) (zlen (u29_bytes (2 * zlen s + 1)))); [lia|].
  rewrite land_1_odd, shiftr_odd. cbn [Z.eqb].
  destruct (Z.ltb_spec (len - 1 - zlen (u29_bytes (2 * zlen s + 1))) (zlen s)); [lia|].
  rewrite Hcur, (lookup_ge_None_2 (string_ref st')) by lia. reflexivity.
Qed.

Lemma amf_string_table_overflow_witness :
  exists v p st', let bs := amf_bytes (string_array 1024) in
    amf_read 0 ([] ++ bs ++ [0]) (zlen (@nil Z)) (zlen bs) refs_init = Ret (Some v, Some p, st') /\
    amf_decode_string ([] ++ string_bytes amf_string [66] ++ [0]) (zlen (@nil Z)) 3 true st' = Undef.
Proof. apply amf_string_table_overflow; [reflexivity|reflexivity|vm_compute; discriminate]. Defined.

(** [amf_encode] does not keep its own length limit: the children of an array
    are encoded with the length of the whole buffer, so a value that needs
    [dlen + 1] bytes is written past the [dlen] bytes it was given. *)
Theorem amf_encode_exceeds_dlen :
  exists v dlen m n m', wf_amf v /\ amf_get_encode_length (Some v) = Ret (dlen + 1) /\
    amf_encode m 0 dlen (Some v) = Ret (n, m') /\ n = dlen + 1 /\
    drop (Z.to_nat dlen) m' <> drop (Z.to_nat dlen) m /\
    amf_encode (take (Z.to_nat dlen) m) 0 dlen (Some v) = Undef.
Proof.
  exists (AV amf_array 1 (PChild [Some amf_new_true])), 3, (repeat 0 4), 4, [9; 3; 1; 3].
  split; [|repeat split; try reflexivity; vm_compute; discriminate].
  apply wf_array_intro; [vm_compute; split; discriminate| |constructor].
  intros c Hc. apply elem_of_cons in Hc as [[= ->]|Hc]; [now constructor|inversion Hc].
Qed.
