(* ===== verification/Buckets.v ===== *)
(** * Bucket tables

    What the two hash tables of the framework (framework/map.c and
    framework/hash.c) share: an array of chains.  A chain is the list of its
    elements from the head, a pointer to an element is its bucket and its
    position in the chain. *)
From S2P Require Import Prelude.

(** ** Elements of a table *)

Lemma concat_insert_split {A} (t : list (list A)) i c c' :
  t !! i = Some c ->
  exists rest, concat t ≡ₚ c ++ rest /\ concat (<[i := c']> t) ≡ₚ c' ++ rest.
Proof.
  intros Hi. exists (concat (take i t) ++ concat (drop (S i) t)).
  pose proof (lookup_lt_Some _ _ _ Hi) as Hlt. split.
  - rewrite <- (take_drop_middle t i c Hi) at 1. rewrite concat_app. cbn [concat].
    rewrite !(assoc_L (++)). apply Permutation_app_tail, Permutation_app_comm.
  - rewrite insert_take_drop by assumption. rewrite concat_app. cbn [concat].
    rewrite !(assoc_L (++)). apply Permutation_app_tail, Permutation_app_comm.
Qed.

Lemma elem_of_concat {A} (t : list (list A)) x : x ∈ concat t <-> exists i c, t !! i = Some c /\ x ∈ c.
Proof.
  split.
  - intros H. apply list_elem_of_In, in_concat in H as (c & Hc & Hx).
    apply list_elem_of_In, list_elem_of_lookup in Hc as (i & Hi).
    exists i, c. split; [assumption|]. now apply list_elem_of_In.
  - intros (i & c & Hi & Hx). apply list_elem_of_In, in_concat. exists c.
    split; apply list_elem_of_In; [|assumption]. apply list_elem_of_lookup. eauto.
Qed.

Lemma concat_repeat_nil {A} n : concat (repeat (@nil A) n) = [].
Proof. induction n; cbn; auto. Qed.

Lemma lookup_repeat_nil {A} n i (c : list A) : repeat [] n !! i = Some c -> c = [].
Proof. intros H. apply list_elem_of_lookup_2, list_elem_of_In, repeat_spec in H. exact H. Qed.

(** A bucket index from a hash. *)
Lemma bucket_lt h n : 0 < n -> (Z.to_nat (h mod n) < Z.to_nat n)%nat.
Proof. intros. pose proof (Z.mod_pos_bound h n). lia. Qed.

(** ** Walking a table *)

(** The first element of the first non-empty chain from bucket [i] on. *)
Fixpoint first_from {A} (t : list (list A)) (i : nat) : option (nat * nat) :=
  match t with
  | [] => None
  | [] :: t' => first_from t' (S i)
  | (_ :: _) :: _ => Some (i, 0%nat)
  end.

(** The elements of [t] from pointer [p] on. *)
Definition from_pointer {A} (t : list (list A)) (p : option (nat * nat)) : list A :=
  match p with
  | None => []
  | Some (b, i) =>
    match t !! b with
    | None => []
    | Some c => drop i c ++ concat (drop (S b) t)
    end
  end.

Lemma first_from_elems {A} (t : list (list A)) b :
  from_pointer t (first_from (drop b t) b) = concat (drop b t).
Proof.
  remember (drop b t) as l eqn:E. revert b E.
  induction l as [|[|x c] l IH]; intros b E; cbn [first_from concat app].
  - reflexivity.
  - assert (El : drop (S b) t = l) by (rewrite <- (Nat.add_1_r b), <- drop_drop, <- E; reflexivity).
    rewrite IH by (symmetry; exact El). reflexivity.
  - assert (El : drop (S b) t = l) by (rewrite <- (Nat.add_1_r b), <- drop_drop, <- E; reflexivity).
    cbn [from_pointer].
    replace (t !! b) with (Some (x :: c))
      by (rewrite <- (Nat.add_0_r b), <- lookup_drop, <- E; reflexivity).
    now rewrite El.
Qed.

(** The pointer after [(b, i)]: the next element of the chain, otherwise the first
    one of the buckets after it. *)
Definition pointer_next {A} (t : list (list A)) (b i : nat) : option (nat * nat) :=
  match t !! b with
  | None => None
  | Some c => if (S i <? length c)%nat then Some (b, S i) else first_from (drop (S b) t) (S b)
  end.

Lemma pointer_next_elems {A} (t : list (list A)) b i :
  from_pointer t (pointer_next t b i) = tail (from_pointer t (Some (b, i))) \/
  t !! b ≫= lookup i = None.
Proof.
  unfold pointer_next. cbn [from_pointer]. destruct (t !! b) as [c|] eqn:E; [|now right].
  cbn [mbind option_bind]. destruct (c !! i) as [x|] eqn:Ei; [left|now right].
  rewrite (drop_S _ _ _ Ei). cbn [tail app].
  destruct (Nat.ltb_spec (S i) (length c)).
  - cbn [from_pointer]. now rewrite E.
  - rewrite first_from_elems, (drop_ge c) by lia. reflexivity.
Qed.

Lemma from_pointer_head {A} (t : list (list A)) b i x :
  t !! b ≫= lookup i = Some x -> head (from_pointer t (Some (b, i))) = Some x.
Proof.
  cbn [from_pointer]. destruct (t !! b) as [c|]; cbn [mbind option_bind]; [|discriminate].
  intros H. now rewrite (drop_S _ _ _ H).
Qed.

Lemma first_from_valid {A} (t : list (list A)) b p :
  first_from (drop b t) b = Some p -> is_Some (t !! p.1 ≫= lookup p.2).
Proof.
  remember (drop b t) as l eqn:E. revert b E.
  induction l as [|[|x c] l IH]; intros b E; cbn [first_from]; [discriminate| |].
  - apply IH. rewrite <- (Nat.add_1_r b), <- drop_drop, <- E. reflexivity.
  - intros [= <-]. cbn.
    replace (t !! b) with (Some (x :: c))
      by (rewrite <- (Nat.add_0_r b), <- lookup_drop, <- E; reflexivity).
    cbn. eauto.
Qed.

Lemma pointer_next_valid {A} (t : list (list A)) b i p :
  pointer_next t b i = Some p -> is_Some (t !! p.1 ≫= lookup p.2).
Proof.
  unfold pointer_next. destruct (t !! b) as [c|] eqn:E; [|discriminate].
  destruct (Nat.ltb_spec (S i) (length c)).
  - intros [= <-]. cbn. rewrite E. cbn. now apply lookup_lt_is_Some.
  - apply first_from_valid.
Qed.

(** The loop [for (ite = next(0); ite; ite = next(ite))], with the elements it
    visits. *)
Fixpoint table_walk {A} (next : option (nat * nat) -> outcome (option (nat * nat)))
    (t : list (list A)) (fuel : nat) (ite : option (nat * nat)) : outcome (list A) :=
  match fuel with
  | O => NoFuel
  | S fuel' =>
    ite ← next ite;
    match ite with
    | None => Ret []
    | Some (b, i) =>
      e ← deref (t !! b ≫= lookup i);
      rest ← table_walk next t fuel' ite;
      Ret (e :: rest)
    end
  end.

Lemma table_walk_from {A} next (t : list (list A)) fuel : forall ite p,
  (forall b i, is_Some (t !! b ≫= lookup i) -> next (Some (b, i)) = Ret (pointer_next t b i)) ->
  next ite = Ret p -> (forall q, p = Some q -> is_Some (t !! q.1 ≫= lookup q.2)) ->
  (length (from_pointer t p) < fuel)%nat ->
  table_walk next t fuel ite = Ret (from_pointer t p).
Proof.
  induction fuel as [|fuel IH]; intros ite p Hnext Hn Hv Hl; [lia|].
  cbn [table_walk]. rewrite Hn. cbn [mbind outcome_bind]. destruct p as [[b i]|]; [|reflexivity].
  destruct (Hv _ eq_refl) as [e He]. cbn [fst snd] in He.
  destruct (pointer_next_elems t b i) as [Ht|Ht]; [|congruence].
  pose proof (from_pointer_head _ _ _ _ He) as Hh. rewrite He. cbn [deref mbind outcome_bind].
  destruct (from_pointer t (Some (b, i))) as [|x l] eqn:E; [discriminate|].
  cbn in Hh, Ht. injection Hh as ->.
  rewrite (IH _ (pointer_next t b i) Hnext).
  - cbn [mbind outcome_bind]. now rewrite Ht.
  - apply Hnext; eauto.
  - intros q Hq. eapply pointer_next_valid, Hq.
  - rewrite Ht. cbn in Hl. lia.
Qed.

(** A [next] that follows the chains and then the buckets visits the whole table. *)
Lemma table_walk_all {A} next (t : list (list A)) :
  next None = Ret (first_from t 0) ->
  (forall b i, is_Some (t !! b ≫= lookup i) -> next (Some (b, i)) = Ret (pointer_next t b i)) ->
  table_walk next t (S (length (concat t))) None = Ret (concat t).
Proof.
  intros Hn Hnext. pose proof (first_from_elems t 0) as Hf. rewrite drop_0 in Hf.
  rewrite <- Hf at 2. apply table_walk_from; [assumption|assumption| |].
  - intros q Hq. apply (first_from_valid t 0). rewrite drop_0. exact Hq.
  - rewrite Hf. lia.
Qed.

(** ** Replacing, removing and adding one element *)

Lemma concat_replace {A} (t : list (list A)) pos c i e e' rest :
  t !! pos = Some c -> c !! i = Some e -> concat t ≡ₚ e :: rest ->
  concat (<[pos := <[i := e']> c]> t) ≡ₚ e' :: rest /\
  concat (<[pos := take i c ++ drop (S i) c]> t) ≡ₚ rest.
Proof.
  intros Hc Hi He. pose proof (lookup_lt_Some _ _ _ Hi) as Hlt. pose proof (take_drop_middle c i e Hi) as Hm.
  assert (Hr : exists r, rest ≡ₚ take i c ++ drop (S i) c ++ r /\
     forall c', concat (<[pos := c']> t) ≡ₚ c' ++ r).
  { destruct (concat_insert_split _ _ _ c Hc) as (r & Hr & _). exists r. split.
    - apply (Permutation_cons_inv (a := e)). rewrite <- He, Hr.
      rewrite <- Hm at 1. rewrite <- (assoc_L (++)). cbn [app]. symmetry. apply Permutation_middle.
    - intros c'. destruct (concat_insert_split _ _ _ c' Hc) as (r' & Hr1 & Hr2). rewrite Hr2.
      apply Permutation_app_head, (Permutation_app_inv_l c). now rewrite <- Hr1, <- Hr. }
  destruct Hr as (r & Hrest & Hall). split; rewrite Hall, Hrest.
  - rewrite insert_take_drop by assumption. rewrite <- (assoc_L (++)). cbn [app].
    symmetry. apply Permutation_middle.
  - now rewrite <- (assoc_L (++)).
Qed.

(** An element of a chain is an element of the table. *)
Lemma concat_elem_split {A} (t : list (list A)) pos c i e :
  t !! pos = Some c -> c !! i = Some e -> exists rest, concat t ≡ₚ e :: rest.
Proof.
  intros Hc Hi. destruct (concat_insert_split _ _ _ [] Hc) as (r & Hr & _).
  exists (take i c ++ drop (S i) c ++ r). rewrite Hr. rewrite <- (take_drop_middle c i e Hi) at 1.
  rewrite <- (assoc_L (++)). cbn [app]. symmetry. apply Permutation_middle.
Qed.

Lemma concat_insert_at {A} (t : list (list A)) pos c i e :
  t !! pos = Some c -> concat (<[pos := take i c ++ e :: drop i c]> t) ≡ₚ e :: concat t.
Proof.
  intros Hc. destruct (concat_insert_split _ _ _ (take i c ++ e :: drop i c) Hc) as (r & Hr & ->).
  rewrite Hr. rewrite <- (take_drop i c) at 3. rewrite <- !(assoc_L (++)). cbn [app].
  symmetry. apply Permutation_middle.
Qed.

(** ** Tables as finite maps *)

Section Bindings.
Context {A K V : Type} `{Countable K} (f : A -> K * V).

Definition bindings (es : list A) : gmap K V := list_to_map (f <$> es).

Lemma bindings_perm es es' :
  NoDup (fst ∘ f <$> es) -> es ≡ₚ es' -> bindings es = bindings es'.
Proof.
  intros Hn Hp. unfold bindings. apply list_to_map_proper; [|now rewrite Hp].
  rewrite <- list_fmap_compose. exact Hn.
Qed.

Lemma bindings_split es e rest :
  NoDup (fst ∘ f <$> es) -> es ≡ₚ e :: rest ->
  bindings es = <[(f e).1 := (f e).2]> (bindings rest) /\ bindings rest !! (f e).1 = None.
Proof.
  intros Hn Hp. split.
  - rewrite (bindings_perm es (e :: rest)) by assumption. unfold bindings. cbn [fmap list_fmap].
    destruct (f e). reflexivity.
  - apply not_elem_of_list_to_map_1. rewrite <- list_fmap_compose.
    rewrite Hp in Hn. now apply list.NoDup_cons in Hn as [? _].
Qed.

Lemma bindings_absent es k : bindings es !! k = None <-> k ∉ (fst ∘ f <$> es).
Proof.
  unfold bindings. rewrite (list_fmap_compose f fst). split.
  - apply not_elem_of_list_to_map_2.
  - apply not_elem_of_list_to_map_1.
Qed.

Lemma bindings_delete es e rest :
  NoDup (fst ∘ f <$> es) -> es ≡ₚ e :: rest ->
  bindings rest = delete (f e).1 (bindings es) /\ bindings es !! (f e).1 = Some (f e).2.
Proof.
  intros Hn Hp. destruct (bindings_split es e rest Hn Hp) as [-> Hnone].
  rewrite delete_insert_id by assumption. now rewrite lookup_insert_eq.
Qed.

Lemma bindings_size es : NoDup (fst ∘ f <$> es) -> size (bindings es) = length es.
Proof.
  intros Hn. unfold bindings. rewrite map_size_list_to_map; [now rewrite length_fmap|].
  rewrite <- list_fmap_compose. exact Hn.
Qed.
End Bindings.
