(* ===== verification/AgMap.v ===== *)
(** * The framework's map: [framework/map.c]

    A chained hash table from 64-bit integers ([_agMap_ip_*]) or strings
    ([_agMap_sp_*]) to pointers.  The two families are the same code over
    another key type, so the operations are written once over the class
    [MapKey] and instantiated.  A value is a pointer, with 0 the null pointer.
    String keys are stored by address in the code; the model takes their
    contents, which callers do not change while the key is in the map.
    Allocation succeeds ([_agM_malloc] is not checked by the code). *)
From S2P Require Import Prelude Buckets.


(** What the table asks of a key: equality and a [size_t] hash. *)
Class MapKey (K : Type) `{Countable K} := { key_hash : K -> Z }.

Record map_element (K : Type) := mk_element { me_hash : Z; me_key : K; me_value : Z }.
Arguments mk_element {K} _ _ _.
Arguments me_hash {K} _.
Arguments me_key {K} _.
Arguments me_value {K} _.

(** [struct map].  A null [buckets] is the empty list. *)
Record agmap (K : Type) := mk_map {
  item_count : Z; buckets_size : Z; buckets : list (list (map_element K)) }.
Arguments mk_map {K} _ _ _.
Arguments item_count {K} _.
Arguments buckets_size {K} _.
Arguments buckets {K} _.

Definition _agMap_new {K} : agmap K := mk_map 0 0 [].

(** The walk of [_ip_find]/[_sp_find] along a chain: the position of the element
    found and the element.  Its parent is the position before it. *)
Fixpoint chain_find {K} `{EqDecision K} (c : list (map_element K)) (hash : Z) (key : K) (i : nat)
    : option (nat * map_element K) :=
  match c with
  | [] => None
  | ite :: c' =>
    if negb (me_hash ite =? hash) || negb (bool_decide (me_key ite = key))
    then chain_find c' hash key (S i)
    else Some (i, ite)
  end.

Section Operations.
Context {K : Type} `{MapKey K}.

Definition _find (map : option (agmap K)) (hash : Z) (key : K) : outcome (option (nat * map_element K)) :=
  match map with
  | None => Ret None
  | Some map =>
    if bool_decide (buckets map = []) || (item_count map =? 0) || (buckets_size map =? 0) then Ret None
    else
      chain ← deref (buckets map !! Z.to_nat (hash mod buckets_size map));
      Ret (chain_find chain hash key 0)
  end.

Definition _insert_element (map : agmap K) (element : map_element K) : outcome (agmap K) :=
  _ ← c_assert (0 <? buckets_size map);
  let pos := Z.to_nat (me_hash element mod buckets_size map) in
  head ← deref (buckets map !! pos);
  Ret (mk_map (u64 (item_count map + 1)) (buckets_size map) (<[pos := element :: head]> (buckets map))).

Fixpoint _insert_elements (map : agmap K) (es : list (map_element K)) : outcome (agmap K) :=
  match es with
  | [] => Ret map
  | cur :: es' => map ← _insert_element map cur; _insert_elements map es'
  end.

Definition _resize (map : agmap K) (s : Z) : outcome (agmap K) :=
  if s <=? buckets_size map then Ret map
  else
    ns ← double_while 65 (if buckets_size map =? 0 then 32 else buckets_size map) s;
    _insert_elements (mk_map 0 ns (repeat [] (Z.to_nat ns))) (concat (buckets map)).

Definition _agMap_get (map : option (agmap K)) (key : K) : outcome Z :=
  cur ← _find map (key_hash key) key;
  Ret match cur with Some (_, cur) => me_value cur | None => 0 end.

(** [_agMap_ip_set]/[_agMap_sp_set]: the map after the call and the old value. *)
Definition _agMap_set (map : option (agmap K)) (key : K) (p : Z) : outcome (option (agmap K) * Z) :=
  let hash := key_hash key in
  found ← _find map hash key;
  match found with
  | Some (i, cur) =>
    map ← deref map;
    _ ← c_assert (0 <? buckets_size map);
    let pos := Z.to_nat (hash mod buckets_size map) in
    chain ← deref (buckets map !! pos);
    let o := me_value cur in
    if p =? 0 then
      let chain := match i with
                   | O => tail chain
                   | S parent => take (S parent) chain ++ drop (S (S parent)) chain
                   end in
      Ret (Some (mk_map (u64 (item_count map - 1)) (buckets_size map) (<[pos := chain]> (buckets map))), o)
    else
      let cur := mk_element (me_hash cur) (me_key cur) p in
      Ret (Some (mk_map (item_count map) (buckets_size map) (<[pos := <[i := cur]> chain]> (buckets map))), o)
  | None =>
    if negb (p =? 0) then
      map ← deref map;
      map ← _resize map (u64 (item_count map + 1));
      map ← _insert_element map (mk_element hash key p);
      Ret (Some map, 0)
    else Ret (map, 0)
  end.

Definition _agMap_size (map : agmap K) : Z := item_count map.

(** [_agMap_empty]: the values given to [cb_free], in order.  [item_count] is not
    reset. *)
Definition _agMap_empty (map : agmap K) : agmap K * list Z :=
  (mk_map (item_count map) (buckets_size map) (repeat [] (Z.to_nat (buckets_size map))),
   me_value <$> concat (buckets map)).

(** [_agMap_ip_foreach]/[_agMap_sp_foreach] with the callback threading [ctx]. *)
Definition _agMap_foreach {C} (map : agmap K) (func : K -> Z -> C -> C) (ctx : C) : C :=
  foldl (fun ctx ite => func (me_key ite) (me_value ite) ctx) ctx (concat (buckets map)).

Definition _find_first (map : agmap K) (from : nat) : option (nat * nat) :=
  first_from (drop from (buckets map)) from.

(** [_agMap_next]; the bucket of [ite] is found from its hash. *)
Definition _agMap_next (map : agmap K) (ite : option (nat * nat)) : outcome (option (nat * nat)) :=
  match ite with
  | None => Ret (_find_first map 0)
  | Some (b, i) =>
    chain ← deref (buckets map !! b);
    e ← deref (chain !! i);
    if (S i <? length chain)%nat then Ret (Some (b, S i))
    else Ret (_find_first map (Z.to_nat (me_hash e mod buckets_size map) + 1))
  end.

(** [_agMap_sp_next]: the element returned and the key after the call.  The key
    is not advanced. *)
Definition _agMap_sp_next (map : option (agmap K)) (key : option K)
    : outcome (option (nat * nat) * option K) :=
  match map with
  | None => Ret (None, None)
  | Some m =>
    match key with
    | None => Ret (_find_first m 0, None)
    | Some k =>
      let hash := key_hash k in
      cur ← _find map hash k;
      '(i, _) ← deref cur;
      let pos := Z.to_nat (hash mod buckets_size m) in
      chain ← deref (buckets m !! pos);
      if (S i <? length chain)%nat then Ret (Some (pos, S i), key)
      else Ret (_find_first m (pos + 1), key)
    end
  end.
End Operations.

(** ** Keys *)

(** Integer keys hash to themselves. *)
#[global] Instance ip_key : MapKey Z := { key_hash := u64 }.

(** [_s_calc_hash] on the characters before the terminator; [name[i-1]] is a
    signed [char]. *)
Fixpoint _s_calc_hash_loop (fuel : nat) (name : list Z) (h step i : Z) : Z :=
  match fuel with
  | O => h
  | S fuel' =>
    if step <=? i then
      let c := i8 (default 0 (name !! Z.to_nat (i - 1))) in
      _s_calc_hash_loop fuel' name
        (Z.lxor h (u64 (u64 (Z.shiftl h 5) + Z.shiftr h 2 + u64 c))) step (i - step)
    else h
  end.

Definition _s_calc_hash (name : list Z) : Z :=
  let len := zlen name in
  _s_calc_hash_loop (length name) name len (Z.shiftr len 5 + 1) len.

#[global] Instance sp_key : MapKey (list Z) := { key_hash := _s_calc_hash }.

(** ** Invariant *)

Section Invariant.
Context {K : Type} `{MapKey K}.

Definition elems (m : agmap K) : list (map_element K) := concat (buckets m).
Definition binding (e : map_element K) : K * Z := (me_key e, me_value e).

(** The abstraction: the finite map a table represents. *)
Definition to_gmap (m : agmap K) : gmap K Z := bindings binding (elems m).

(** Where an element belongs. *)
Definition placed (size : Z) (i : nat) (e : map_element K) : Prop :=
  me_hash e = key_hash (me_key e) /\ i = Z.to_nat (me_hash e mod size) /\ me_value e <> 0.

(** [item_count] is an upper bound only: [_agMap_empty] leaves it behind. *)
Record map_ok (m : agmap K) : Prop := {
  ok_length : length (buckets m) = Z.to_nat (buckets_size m);
  ok_size : buckets_size m = 0 \/ 32 <= buckets_size m <= 2 ^ 62;
  ok_placed : forall i c e, buckets m !! i = Some c -> e ∈ c -> placed (buckets_size m) i e;
  ok_nodup : NoDup (me_key <$> elems m);
  ok_count : zlen (elems m) <= item_count m <= buckets_size m }.

(** [item_count] is the number of elements. *)
Definition counted (m : agmap K) : Prop := item_count m = zlen (elems m).

Lemma chain_find_some (c : list (map_element K)) hash key i0 i e :
  chain_find c hash key i0 = Some (i, e) ->
  (i0 <= i)%nat /\ c !! (i - i0)%nat = Some e /\ me_hash e = hash /\ me_key e = key.
Proof.
  revert i0. induction c as [|x c IH]; intros i0; cbn [chain_find]; [discriminate|].
  destruct (negb _ || negb _) eqn:E.
  - intros Hf. apply IH in Hf as (Hle & Hl & ? & ?). repeat split; [lia| |assumption..].
    replace (i - i0)%nat with (S (i - S i0)) by lia. exact Hl.
  - intros [= <- <-]. rewrite Nat.sub_diag. apply orb_false_iff in E as [E1 E2].
    apply negb_false_iff, Z.eqb_eq in E1. apply negb_false_iff, bool_decide_eq_true in E2. auto.
Qed.

Lemma chain_find_none (c : list (map_element K)) hash key i0 e :
  chain_find c hash key i0 = None -> e ∈ c -> me_hash e = hash -> me_key e <> key.
Proof.
  revert i0. induction c as [|x c IH]; intros i0 Hf Hin; [inversion Hin|]. cbn [chain_find] in Hf.
  destruct (negb _ || negb _) eqn:E; [|discriminate].
  apply elem_of_cons in Hin as [->|Hin]; [|eapply IH; eassumption].
  intros Hh Hk. rewrite Hh, Hk, Z.eqb_refl, bool_decide_true in E by reflexivity. discriminate.
Qed.

(** The chain a key lives in. *)
Lemma bucket_lookup (m : agmap K) h :
  map_ok m -> buckets_size m <> 0 ->
  exists c, buckets m !! Z.to_nat (h mod buckets_size m) = Some c.
Proof.
  intros Hok Hz. apply lookup_lt_is_Some. rewrite (ok_length _ Hok).
  apply bucket_lt. destruct (ok_size _ Hok); lia.
Qed.

Lemma empty_elems (m : agmap K) : map_ok m -> item_count m = 0 -> elems m = [].
Proof.
  intros Hok Hc. pose proof (ok_count _ Hok) as Hle. destruct (elems m); [reflexivity|].
  rewrite zlen_cons in Hle. pose proof (zlen_nonneg l). lia.
Qed.

Lemma buckets_nil_elems (m : agmap K) : buckets m = [] -> elems m = [].
Proof. intros Hb. unfold elems. now rewrite Hb. Qed.

(** The answers of [_find]. *)
Lemma find_spec (m : agmap K) key :
  map_ok m ->
  (_find (Some m) (key_hash key) key = Ret None /\ to_gmap m !! key = None) \/
  exists i e c rest, _find (Some m) (key_hash key) key = Ret (Some (i, e)) /\
    buckets_size m <> 0 /\
    buckets m !! Z.to_nat (key_hash key mod buckets_size m) = Some c /\ c !! i = Some e /\
    me_key e = key /\ me_hash e = key_hash key /\ elems m ≡ₚ e :: rest.
Proof.
  intros Hok. unfold _find.
  assert (Hempty : elems m = [] -> to_gmap m !! key = None)
    by (intros He; unfold to_gmap; rewrite He; reflexivity).
  destruct (bool_decide_reflect (buckets m = [])) as [Hb|Hb];
    [left; split; [reflexivity|]; apply Hempty, buckets_nil_elems, Hb|].
  destruct (Z.eqb_spec (item_count m) 0) as [Hc|Hc];
    [left; split; [reflexivity|]; apply Hempty, empty_elems; assumption|].
  destruct (Z.eqb_spec (buckets_size m) 0) as [Hs|Hs].
  { destruct Hb. apply length_zero_iff_nil. rewrite (ok_length _ Hok), Hs. reflexivity. }
  cbn [orb]. destruct (bucket_lookup m (key_hash key) Hok Hs) as (c & Hl). rewrite Hl.
  cbn [deref mbind outcome_bind]. destruct (chain_find c (key_hash key) key 0) as [[i e]|] eqn:E.
  - right. apply chain_find_some in E as (_ & Hi & Hh & Hk). rewrite Nat.sub_0_r in Hi.
    destruct (concat_insert_split _ _ _ [] Hl) as (rest & Hp & _).
    exists i, e, c, (take i c ++ drop (S i) c ++ rest). repeat split; try assumption.
    unfold elems. rewrite Hp. rewrite <- (take_drop_middle c i e Hi) at 1.
    rewrite <- (assoc_L (++)). cbn [app]. symmetry. apply Permutation_middle.
  - left. split; [reflexivity|]. apply bindings_absent. intros Hin. apply list_elem_of_fmap in Hin as (e & Hke & He).
    apply elem_of_concat in He as (i & c' & Hi & He). cbn in Hke.
    destruct (ok_placed _ Hok i c' e Hi He) as (Hh & Hpos & _).
    rewrite Hh, <- Hke in Hpos. subst i. rewrite Hl in Hi. injection Hi as <-.
    eapply chain_find_none; [exact E|exact He|congruence|congruence].
Qed.

(** ** Insertion and growth *)

(** The part of the invariant that holds while a table is rebuilt. *)
Record table_ok (m : agmap K) : Prop := {
  tab_size : 0 < buckets_size m;
  tab_length : length (buckets m) = Z.to_nat (buckets_size m);
  tab_placed : forall i c e, buckets m !! i = Some c -> e ∈ c -> placed (buckets_size m) i e }.

Lemma placed_insert (t : list (list (map_element K))) size pos c' :
  (forall i c e, t !! i = Some c -> e ∈ c -> placed size i e) ->
  (forall e, e ∈ c' -> placed size pos e) ->
  forall i c e, <[pos := c']> t !! i = Some c -> e ∈ c -> placed size i e.
Proof.
  intros Ht Hc' i c e Hi He. apply list_lookup_insert_Some in Hi as [(<- & <- & _)|(_ & Hi)]; eauto.
Qed.

Lemma insert_element_spec (m : agmap K) e :
  table_ok m -> me_hash e = key_hash (me_key e) -> me_value e <> 0 ->
  exists m', _insert_element m e = Ret m' /\ table_ok m' /\ buckets_size m' = buckets_size m /\
    item_count m' = u64 (item_count m + 1) /\ elems m' ≡ₚ e :: elems m.
Proof.
  intros [Hs Hl Hp] Hh Hv. unfold _insert_element. destruct (Z.ltb_spec 0 (buckets_size m)); [|lia].
  cbn [c_assert mbind outcome_bind].
  destruct (lookup_lt_is_Some_2 (buckets m) (Z.to_nat (me_hash e mod buckets_size m))) as (c & Hc).
  { rewrite Hl. now apply bucket_lt. }
  rewrite Hc. cbn [deref mbind outcome_bind]. eexists. split; [reflexivity|].
  split; [|split; [reflexivity|split; [reflexivity|]]].
  - constructor; cbn [buckets_size buckets]; [assumption|now rewrite length_insert|].
    apply placed_insert; [exact Hp|]. intros e' He'. apply elem_of_cons in He' as [->|He'].
    + now repeat split.
    + eapply Hp; eassumption.
  - unfold elems. cbn [buckets].
    destruct (concat_insert_split _ _ _ (e :: c) Hc) as (rest & Hp1 & Hp2).
    rewrite Hp1, Hp2. reflexivity.
Qed.

Lemma insert_elements_spec es : forall m : agmap K,
  table_ok m -> (forall e, e ∈ es -> me_hash e = key_hash (me_key e) /\ me_value e <> 0) ->
  0 <= item_count m -> item_count m + zlen es < 2 ^ 64 ->
  exists m', _insert_elements m es = Ret m' /\ table_ok m' /\ buckets_size m' = buckets_size m /\
    item_count m' = item_count m + zlen es /\ elems m' ≡ₚ es ++ elems m.
Proof.
  induction es as [|e es IH]; intros m Hm He Hz Hc; cbn [_insert_elements].
  - exists m. rewrite zlen_nil, Z.add_0_r. auto.
  - rewrite zlen_cons in Hc. pose proof (zlen_nonneg es).
    destruct (He e ltac:(left)) as [Hh Hv].
    destruct (insert_element_spec m e Hm Hh Hv) as (m1 & -> & Hm1 & Hs1 & Hc1 & Hp1).
    rewrite u64_small in Hc1 by lia. cbn [mbind outcome_bind].
    destruct (IH m1 Hm1) as (m2 & -> & Hm2 & Hs2 & Hc2 & Hp2); [intros; apply He; now right|lia..|].
    exists m2. split; [reflexivity|]. split; [exact Hm2|]. split; [congruence|].
    split; [rewrite zlen_cons; lia|].
    rewrite Hp2, Hp1. cbn. symmetry. apply Permutation_middle.
Qed.

Lemma elems_placed (m : agmap K) e :
  map_ok m -> e ∈ elems m -> me_hash e = key_hash (me_key e) /\ me_value e <> 0.
Proof.
  intros Hok He. apply elem_of_concat in He as (i & c & Hi & He).
  destruct (ok_placed _ Hok i c e Hi He) as (? & _ & ?). auto.
Qed.

Lemma resize_spec (m : agmap K) :
  map_ok m -> item_count m < 2 ^ 61 ->
  exists m', _resize m (u64 (item_count m + 1)) = Ret m' /\ table_ok m' /\
    elems m' ≡ₚ elems m /\ (counted m -> counted m') /\
    buckets_size m' <= 2 ^ 62 /\ 32 <= buckets_size m' /\
    zlen (elems m) <= item_count m' /\ item_count m' + 1 <= buckets_size m'.
Proof.
  intros Hok Hlt. pose proof (ok_count _ Hok) as Hc. pose proof (zlen_nonneg (elems m)).
  rewrite u64_small by lia. unfold _resize.
  destruct (Z.leb_spec (item_count m + 1) (buckets_size m)) as [Hle|Hgt].
  - exists m. split; [reflexivity|]. destruct Hok as [Hl Hs Hp Hn Hc'].
    assert (32 <= buckets_size m <= 2 ^ 62) by (destruct Hs; lia).
    split; [constructor; [lia|exact Hl|exact Hp]|]. repeat split; auto; lia.
  - set (ns0 := if buckets_size m =? 0 then 32 else buckets_size m).
    assert (Hns0 : 32 <= ns0 <= 2 ^ 62 /\ buckets_size m <= ns0)
      by (subst ns0; destruct (Z.eqb_spec (buckets_size m) 0), (ok_size _ Hok); lia).
    destruct (double_while_spec 64 ns0 (item_count m + 1)) as (ns & -> & Hge & Hns & Hno); [lia..|].
    cbn [mbind outcome_bind].
    destruct (insert_elements_spec (concat (buckets m)) (mk_map 0 ns (repeat [] (Z.to_nat ns))))
      as (m' & -> & Hm' & Hs' & Hc' & Hp').
    + constructor; cbn [buckets_size buckets]; [lia|apply repeat_length|].
      intros i c e Hi He. apply lookup_repeat_nil in Hi as ->. inversion He.
    + intros e He. now apply (elems_placed m).
    + cbn; lia.
    + cbn [item_count]. change (concat (buckets m)) with (elems m). lia.
    + exists m'. split; [reflexivity|]. split; [exact Hm'|].
      cbn [item_count buckets_size] in Hc', Hs'. unfold elems in Hp' at 2. cbn [buckets] in Hp'.
      rewrite concat_repeat_nil, app_nil_r in Hp'. change (concat (buckets m)) with (elems m) in *.
      split; [exact Hp'|]. split.
      { intros _. unfold counted. rewrite Hc'. unfold zlen. now rewrite Hp'. }
      rewrite Hs', Hc'. repeat split; lia.
Qed.

Lemma set_old_ok (m : agmap K) (c c' : list (map_element K)) (pos : nat) count :
  map_ok m -> buckets m !! pos = Some c ->
  (forall e, e ∈ c' -> placed (buckets_size m) pos e) ->
  NoDup (me_key <$> concat (<[pos := c']> (buckets m))) ->
  zlen (concat (<[pos := c']> (buckets m))) <= count <= buckets_size m ->
  map_ok (mk_map count (buckets_size m) (<[pos := c']> (buckets m))).
Proof.
  intros Hok Hc Hc' Hn Hcount. constructor; cbn [buckets buckets_size item_count]; try assumption.
  - rewrite length_insert. apply (ok_length _ Hok).
  - apply (ok_size _ Hok).
  - apply placed_insert; [apply (ok_placed _ Hok)|exact Hc'].
Qed.

(** Replacing the element [e] at position [i] of its chain. *)
Lemma elems_replace (m : agmap K) pos c i e e' rest :
  buckets m !! pos = Some c -> c !! i = Some e -> elems m ≡ₚ e :: rest ->
  concat (<[pos := <[i := e']> c]> (buckets m)) ≡ₚ e' :: rest /\
  concat (<[pos := take i c ++ drop (S i) c]> (buckets m)) ≡ₚ rest.
Proof. apply concat_replace. Qed.

Lemma chain_delete_eq (c : list (map_element K)) i :
  match i with O => tail c | S parent => take (S parent) c ++ drop (S (S parent)) c end =
  take i c ++ drop (S i) c.
Proof. destruct i; [now destruct c|reflexivity]. Qed.

Lemma delete_fresh (m : agmap K) e rest key :
  NoDup (me_key <$> elems m) -> elems m ≡ₚ e :: rest -> me_key e = key ->
  bindings binding rest = delete key (to_gmap m) /\ to_gmap m !! key = Some (me_value e).
Proof. intros Hn Hp <-. exact (bindings_delete binding _ e rest Hn Hp). Qed.
End Invariant.

(** ** The table is the finite map *)

Section Refinement.
Context {K : Type} `{MapKey K}.

Lemma agMap_new_ok : map_ok (@_agMap_new K) /\ counted (@_agMap_new K) /\ to_gmap (@_agMap_new K) = ∅.
Proof.
  split; [|split; reflexivity]. constructor; [reflexivity|now left| |apply NoDup_nil_2|vm_compute; split; discriminate].
  intros i c e Hi. destruct i; discriminate.
Qed.

Lemma agMap_get_spec (m : agmap K) key :
  map_ok m -> _agMap_get (Some m) key = Ret (default 0 (to_gmap m !! key)).
Proof.
  intros Hok. unfold _agMap_get.
  destruct (find_spec m key Hok) as [[-> ->]|(i & e & c & rest & -> & _ & _ & _ & Hk & _ & Hp)]; [reflexivity|].
  cbn [mbind outcome_bind]. destruct (delete_fresh m e rest key (ok_nodup _ Hok) Hp Hk) as [_ ->]. reflexivity.
Qed.

(** Setting a key that is in the table. *)
Lemma set_found (m : agmap K) key p i e c rest :
  map_ok m -> _find (Some m) (key_hash key) key = Ret (Some (i, e)) ->
  buckets_size m <> 0 -> buckets m !! Z.to_nat (key_hash key mod buckets_size m) = Some c ->
  c !! i = Some e -> me_key e = key -> me_hash e = key_hash key -> elems m ≡ₚ e :: rest ->
  exists m', _agMap_set (Some m) key p = Ret (Some m', me_value e) /\ map_ok m' /\
    (counted m -> counted m') /\
    to_gmap m' = if p =? 0 then delete key (to_gmap m) else <[key := p]> (to_gmap m).
Proof.
  intros Hok Hf Hs Hc Hi Hk Hh Hp. unfold _agMap_set. rewrite Hf. cbn [mbind outcome_bind deref].
  destruct (Z.ltb_spec 0 (buckets_size m)); [|destruct (ok_size _ Hok); lia].
  cbn [c_assert mbind outcome_bind]. rewrite Hc. cbn [deref mbind outcome_bind].
  pose proof (ok_nodup _ Hok) as Hn. pose proof (ok_count _ Hok) as Hcount.
  destruct (delete_fresh m e rest key Hn Hp Hk) as [Hdel Hget].
  assert (Hlen : zlen (elems m) = 1 + zlen rest) by (unfold zlen; rewrite Hp; cbn [length]; lia).
  pose proof (zlen_nonneg rest). pose proof Hn as Hn'. rewrite Hp in Hn'. cbn in Hn'.
  apply list.NoDup_cons in Hn' as [Hnin Hnrest].
  set (e' := mk_element (me_hash e) (me_key e) p).
  destruct (elems_replace m _ c i e e' rest Hc Hi Hp) as [Hrep Hrem].
  pose proof (lookup_lt_Some _ _ _ Hi).
  assert (Hpl : forall x, x ∈ c -> placed (buckets_size m) (Z.to_nat (key_hash key mod buckets_size m)) x)
    by (intros; eapply (ok_placed _ Hok); eassumption).
  destruct (Z.eqb_spec p 0) as [->|Hp0]; eexists; (split; [reflexivity|]); unfold counted.
  - rewrite chain_delete_eq. destruct (ok_size _ Hok); [lia|].
    rewrite u64_small by lia. split; [|split].
    + eapply set_old_ok; try eassumption.
      * intros x Hx. apply Hpl. rewrite <- (take_drop_middle c i e Hi).
        apply elem_of_app in Hx as [Hx|Hx]; apply elem_of_app; [now left|right; now right].
      * rewrite Hrem. exact Hnrest.
      * unfold zlen. rewrite Hrem. fold (zlen rest). lia.
    + unfold elems at 2. cbn [item_count buckets]. intros ->. unfold zlen. rewrite Hrem. unfold zlen in Hlen. lia.
    + rewrite <- Hdel. symmetry. now apply bindings_perm.
  - assert (Hn2 : NoDup (me_key <$> e' :: rest)) by (cbn; now apply list.NoDup_cons).
    split; [|split].
    + eapply set_old_ok; try eassumption.
      * intros x Hx. apply list_elem_of_lookup in Hx as (j & Hj).
        apply list_lookup_insert_Some in Hj as [(_ & <- & _)|(_ & Hj)];
          [|apply Hpl, list_elem_of_lookup; eauto].
        destruct (Hpl e) as (? & ? & _); [apply list_elem_of_lookup; eauto|]. now repeat split.
      * rewrite Hrep. exact Hn2.
      * unfold zlen. rewrite Hrep. cbn [length]. unfold zlen in *. lia.
    + unfold elems at 2. cbn [item_count buckets]. intros ->. unfold zlen. rewrite Hrep. cbn [length].
      unfold zlen in Hlen. lia.
    + transitivity (bindings binding (e' :: rest)); [symmetry; now apply bindings_perm|].
      destruct (bindings_split binding (e' :: rest) e' rest Hn2 (Permutation_refl _)) as [-> _].
      rewrite Hdel. subst key. apply insert_delete_eq.
Qed.

(** Setting a key that is not in the table. *)
Lemma set_absent (m : agmap K) key p :
  map_ok m -> item_count m < 2 ^ 61 -> p <> 0 ->
  _find (Some m) (key_hash key) key = Ret None -> to_gmap m !! key = None ->
  exists m', _agMap_set (Some m) key p = Ret (Some m', 0) /\ map_ok m' /\
    (counted m -> counted m') /\ to_gmap m' = <[key := p]> (to_gmap m).
Proof.
  intros Hok Hlt Hp Hf Hnone. unfold _agMap_set. rewrite Hf. cbn [mbind outcome_bind deref].
  destruct (Z.eqb_spec p 0); [lia|]. cbn [negb].
  destruct (resize_spec m Hok Hlt) as (m1 & -> & Ht1 & Hp1 & Hcnt & ? & ? & ? & ?).
  cbn [mbind outcome_bind]. set (e := mk_element (key_hash key) key p).
  destruct (insert_element_spec m1 e Ht1 eq_refl Hp) as (m2 & -> & Ht2 & Hs2 & Hc2 & Hp2).
  cbn [mbind outcome_bind]. exists m2. split; [reflexivity|].
  pose proof (zlen_nonneg (elems m)). rewrite u64_small in Hc2 by lia.
  assert (Hlen1 : zlen (elems m1) = zlen (elems m)) by (unfold zlen; now rewrite Hp1).
  assert (Hlen : zlen (elems m2) = 1 + zlen (elems m)) by (unfold zlen in *; rewrite Hp2; cbn [length]; lia).
  assert (Hnin : key ∉ (me_key <$> elems m)).
  { now apply (bindings_absent binding) in Hnone. }
  assert (Hn2 : NoDup (me_key <$> elems m2)).
  { rewrite Hp2, Hp1. cbn. apply list.NoDup_cons. split; [exact Hnin|apply (ok_nodup _ Hok)]. }
  split; [|split].
  - destruct Ht2. constructor; try assumption; [right; lia|lia].
  - intros Hc. specialize (Hcnt Hc). unfold counted in *. lia.
  - assert (Hp12 : elems m2 ≡ₚ e :: elems m) by now rewrite Hp2, Hp1.
    destruct (bindings_split binding _ e (elems m) Hn2 Hp12) as [Hb _]. exact Hb.
Qed.

Lemma agMap_set_spec (m : agmap K) key p :
  map_ok m -> item_count m < 2 ^ 61 ->
  exists m', _agMap_set (Some m) key p = Ret (Some m', default 0 (to_gmap m !! key)) /\ map_ok m' /\
    (counted m -> counted m') /\
    to_gmap m' = if p =? 0 then delete key (to_gmap m) else <[key := p]> (to_gmap m).
Proof.
  intros Hok Hlt.
  destruct (find_spec m key Hok) as [[Hf Hnone]|(i & e & c & rest & Hf & Hs & Hc & Hi & Hk & Hh & Hp)].
  - rewrite Hnone. destruct (Z.eqb_spec p 0) as [->|Hp].
    + exists m. unfold _agMap_set. rewrite Hf. cbn. rewrite delete_id by assumption. auto.
    + now apply set_absent.
  - destruct (delete_fresh m e rest key (ok_nodup _ Hok) Hp Hk) as [_ Hget]. rewrite Hget.
    eapply set_found; eassumption.
Qed.
End Refinement.

(** ** Client-level theorems *)

(** ** The interface of the map for its clients *)

(** A map from 64-bit keys to pointers, as [_agMap_ip_get] and [_agMap_ip_set] offer it. *)
Class PtrMap (M : Type) := {
  pm_get : M -> Z -> outcome Z;
  pm_set : M -> Z -> Z -> outcome (M * Z) }.

(** What the operations promise, in terms of the finite map [pm_abs]. *)
Class PtrMapLaws (M : Type) `{PtrMap M} := {
  pm_ok : M -> Prop;
  pm_abs : M -> gmap Z Z;
  pm_get_spec : forall m key, pm_ok m -> pm_get m key = Ret (default 0 (pm_abs m !! key));
  pm_set_spec : forall m key p, pm_ok m -> Z.of_nat (size (pm_abs m)) < 2 ^ 61 ->
    exists m', pm_set m key p = Ret (m', default 0 (pm_abs m !! key)) /\ pm_ok m' /\
      pm_abs m' = if p =? 0 then delete key (pm_abs m) else <[key := p]> (pm_abs m) }.

Definition _agMap_ip_get (map : agmap Z) (key : Z) : outcome Z := _agMap_get (Some map) key.
Definition _agMap_ip_set (map : agmap Z) (key p : Z) : outcome (agmap Z * Z) :=
  '(m, o) ← _agMap_set (Some map) key p; m ← deref m; Ret (m, o).

#[export] Instance agmap_ptr_map : PtrMap (agmap Z) := { pm_get := _agMap_ip_get; pm_set := _agMap_ip_set }.

(** The same for string keys. *)
Definition _agMap_sp_get (map : agmap (list Z)) (key : list Z) : outcome Z := _agMap_get (Some map) key.
Definition _agMap_sp_set (map : agmap (list Z)) (key : list Z) (p : Z) : outcome (agmap (list Z) * Z) :=
  '(m, o) ← _agMap_set (Some map) key p; m ← deref m; Ret (m, o).

Section NullMap.
Context {M : Type} `{PtrMap M}.

(** [_agMap_ip_get] and [_agMap_ip_set] on a pointer that can be null. *)
Definition map_get (m : option M) (key : Z) : outcome Z :=
  match m with None => Ret 0 | Some m => pm_get m key end.
Definition map_set (m : option M) (key p : Z) : outcome (option M * Z) :=
  match m with
  | None => if p =? 0 then Ret (None, 0) else Undef
  | Some m => '(m, o) ← pm_set m key p; Ret (Some m, o)
  end.
End NullMap.

Section Theorems.
Context {K : Type} `{MapKey K}.

(** A sequence of [_agMap_*_set] calls with the values they return. *)
Fixpoint run_sets (m : agmap K) (ops : list (K * Z)) : outcome (agmap K * list Z) :=
  match ops with
  | [] => Ret (m, [])
  | (key, p) :: ops' =>
    '(m, o) ← _agMap_set (Some m) key p;
    m ← deref m;
    '(m, os) ← run_sets m ops';
    Ret (m, o :: os)
  end.

(** The same on the abstract map. *)
Fixpoint spec_sets (g : gmap K Z) (ops : list (K * Z)) : gmap K Z * list Z :=
  match ops with
  | [] => (g, [])
  | (key, p) :: ops' =>
    let '(g', os) := spec_sets (if p =? 0 then delete key g else <[key := p]> g) ops' in
    (g', default 0 (g !! key) :: os)
  end.

Lemma size_to_gmap (m : agmap K) : map_ok m -> Z.of_nat (size (to_gmap m)) = zlen (elems m).
Proof.
  intros Hok. unfold to_gmap. rewrite bindings_size; [reflexivity|]. apply (ok_nodup _ Hok).
Qed.

Lemma size_gmap_step (g : gmap K Z) key p :
  (size (if (p =? 0)%Z then delete key g else <[key := p]> g) <= S (size g))%nat.
Proof.
  destruct (p =? 0).
  - rewrite map_size_delete. destruct (g !! key); cbn [id]; lia.
  - rewrite map_size_insert. destruct (g !! key); cbn [id]; lia.
Qed.

Lemma run_sets_spec ops : forall m : agmap K,
  map_ok m -> counted m -> zlen (elems m) + zlen ops < 2 ^ 61 ->
  exists m', run_sets m ops = Ret (m', (spec_sets (to_gmap m) ops).2) /\ map_ok m' /\ counted m' /\
    to_gmap m' = (spec_sets (to_gmap m) ops).1.
Proof.
  induction ops as [|[key p] ops IH]; intros m Hok Hc Hl; cbn [run_sets spec_sets]; [eauto|].
  rewrite zlen_cons in Hl. pose proof (zlen_nonneg ops).
  destruct (agMap_set_spec m key p Hok) as (m1 & -> & Hok1 & Hc1 & Hg1); [rewrite Hc; lia|].
  cbn [mbind outcome_bind deref].
  destruct (IH m1) as (m2 & -> & Hok2 & Hc2 & Hg2); [assumption|auto| |].
  { rewrite <- size_to_gmap, Hg1 by assumption. rewrite <- size_to_gmap in Hl by assumption.
    pose proof (size_gmap_step (to_gmap m) key p). lia. }
  cbn [mbind outcome_bind]. rewrite Hg1 in Hg2 |- *.
  destruct (spec_sets (if p =? 0 then _ else _) ops) as [g os]. exists m2. auto.
Qed.

(** C32: [framework/map.c] implements a finite map: after any sequence of sets and
    deletions (a set of the null pointer) on a new map, shorter than [2^61],
    every set has returned the previous value of its key, every get returns
    the value of the abstract map (null for an absent key) and the size is
    the number of bindings. *)
Theorem agMap_refines_gmap (ops : list (K * Z)) :
  zlen ops < 2 ^ 61 ->
  exists m, run_sets _agMap_new ops = Ret (m, (spec_sets ∅ ops).2) /\
    (forall key, _agMap_get (Some m) key = Ret (default 0 ((spec_sets ∅ ops).1 !! key))) /\
    _agMap_size m = Z.of_nat (size (spec_sets ∅ ops).1).
Proof.
  intros Hl. destruct agMap_new_ok as (Hok & Hc & Hg).
  destruct (run_sets_spec ops (@_agMap_new K) Hok Hc) as (m & Hr & Hok' & Hc' & Hg');
    [change (zlen (elems (@_agMap_new K))) with 0; lia|].
  rewrite Hg in Hr, Hg'. exists m. split; [exact Hr|]. rewrite <- Hg'. split.
  - intros key. now apply agMap_get_spec.
  - rewrite size_to_gmap by assumption. exact Hc'.
Qed.

Lemma foldl_collect (es : list (map_element K)) acc :
  foldl (fun ctx ite => ctx ++ [(me_key ite, me_value ite)]) acc es = acc ++ (binding <$> es).
Proof.
  revert acc. induction es as [|e es IH]; intros acc; cbn; [now rewrite app_nil_r|].
  rewrite IH, <- (assoc_L (++)). reflexivity.
Qed.

(** The [foreach] loops call the callback exactly once on every binding of the
    map and on nothing else. *)
Theorem agMap_foreach_bindings (m : agmap K) :
  map_ok m ->
  _agMap_foreach m (fun key p seen => seen ++ [(key, p)]) [] ≡ₚ map_to_list (to_gmap m).
Proof.
  intros Hok. unfold _agMap_foreach. rewrite (foldl_collect _ []). cbn [app].
  unfold to_gmap, bindings. rewrite map_to_list_to_map; [reflexivity|].
  rewrite <- list_fmap_compose. apply (ok_nodup _ Hok).
Qed.

Lemma next_pointer (m : agmap K) b i :
  map_ok m -> is_Some (buckets m !! b ≫= lookup i) ->
  _agMap_next m (Some (b, i)) = Ret (pointer_next (buckets m) b i).
Proof.
  intros Hok [e He]. unfold _agMap_next, pointer_next.
  destruct (buckets m !! b) as [c|] eqn:Eb; [|discriminate]. cbn [mbind option_bind] in He.
  cbn [deref mbind outcome_bind]. rewrite He. cbn [deref mbind outcome_bind].
  destruct (S i <? length c)%nat; [reflexivity|]. unfold _find_first.
  destruct (ok_placed _ Hok b c e Eb) as (_ & <- & _); [apply list_elem_of_lookup; eauto|].
  now rewrite Nat.add_1_r.
Qed.

(** Walking a map with [_agMap_next] from the null iterator ends and visits
    every element exactly once, in the order of [foreach]. *)
Theorem agMap_next_walks_all (m : agmap K) :
  map_ok m -> table_walk (_agMap_next m) (buckets m) (S (length (elems m))) None = Ret (elems m).
Proof.
  intros Hok. apply table_walk_all; [reflexivity|]. intros b i. now apply next_pointer.
Qed.

(** [_agMap_empty] removes every binding and hands every value to the
    callback, but keeps the element count: [_agMap_size] of the emptied map is
    still the old size. *)
Theorem agMap_empty_spec (m : agmap K) :
  map_ok m -> counted m ->
  let '(m', freed) := _agMap_empty m in
  map_ok m' /\ (forall key, _agMap_get (Some m') key = Ret 0) /\
  freed ≡ₚ (map_to_list (to_gmap m)).*2 /\
  _agMap_size m' = Z.of_nat (size (to_gmap m)).
Proof.
  intros Hok Hc. cbn [_agMap_empty]. set (m' := mk_map _ _ _).
  assert (He : elems m' = []) by apply concat_repeat_nil.
  assert (Hok' : map_ok m').
  { constructor; rewrite ?He; [apply repeat_length|apply (ok_size _ Hok)| |apply NoDup_nil_2|].
    - intros i c e Hi He'. apply lookup_repeat_nil in Hi as ->. inversion He'.
    - pose proof (ok_count _ Hok). pose proof (zlen_nonneg (elems m)). rewrite zlen_nil.
      change (0 <= item_count m <= buckets_size m). lia. }
  split; [exact Hok'|]. split; [|split].
  - intros key. rewrite agMap_get_spec by assumption. unfold to_gmap. rewrite He. reflexivity.
  - unfold to_gmap, bindings. rewrite map_to_list_to_map by (rewrite <- list_fmap_compose; apply (ok_nodup _ Hok)).
    rewrite <- list_fmap_compose. reflexivity.
  - rewrite size_to_gmap by assumption. exact Hc.
Qed.

(** [_agMap_sp_next] cannot enumerate a map: it leaves the key it is given
    unchanged, so the loop that starts from the null key gets the first
    element of a non-empty map again on every call. *)
Theorem agMap_sp_next_stuck (m : agmap K) :
  elems m <> [] ->
  exists p, _agMap_sp_next (Some m) None = Ret (Some p, None) /\
    (buckets m !! p.1 ≫= lookup p.2) = head (elems m).
Proof.
  intros Hne. cbn [_agMap_sp_next]. unfold _find_first.
  pose proof (first_from_elems (buckets m) 0) as Hf. rewrite drop_0 in *.
  destruct (first_from (buckets m) 0) as [[b i]|] eqn:E; [|now destruct Hne].
  exists (b, i). split; [reflexivity|].
  destruct (first_from_valid (buckets m) 0 (b, i)) as [e He]; [now rewrite drop_0|].
  cbn [fst snd] in He |- *. rewrite He. unfold elems. rewrite <- Hf. symmetry. now apply from_pointer_head.
Qed.
End Theorems.

(** ** Concrete maps *)

(** Two integer keys of one bucket, one replaced. *)
#[export] Program Instance agmap_ptr_laws : PtrMapLaws (agmap Z) := {
  pm_ok m := map_ok m /\ counted m;
  pm_abs := to_gmap }.
Next Obligation. intros m key [Hok _]. exact (agMap_get_spec m key Hok). Qed.
Next Obligation.
  intros m key p [Hok Hc] Hsize. rewrite size_to_gmap in Hsize by assumption. unfold counted in Hc.
  destruct (agMap_set_spec m key p Hok) as (m' & Hs & Hok' & Hc' & Hg); [lia|].
  exists m'. cbn [pm_set agmap_ptr_map]. unfold _agMap_ip_set. rewrite Hs. cbn.
  split; [reflexivity|]. split; [split; [exact Hok'|exact (Hc' Hc)]|exact Hg].
Qed.

Lemma sp_set_spec (m : agmap (list Z)) key p :
  map_ok m -> counted m -> Z.of_nat (size (to_gmap m)) < 2 ^ 61 ->
  exists m', _agMap_sp_set m key p = Ret (m', default 0 (to_gmap m !! key)) /\ map_ok m' /\ counted m' /\
    to_gmap m' = if p =? 0 then delete key (to_gmap m) else <[key := p]> (to_gmap m).
Proof.
  intros Hok Hc Hsize. rewrite size_to_gmap in Hsize by assumption. unfold counted in Hc.
  destruct (agMap_set_spec m key p Hok) as (m' & Hs & Hok' & Hc' & Hg); [lia|].
  exists m'. unfold _agMap_sp_set. rewrite Hs. cbn.
  split; [reflexivity|]. split; [exact Hok'|]. split; [exact (Hc' Hc)|exact Hg].
Qed.

Definition sample_map : agmap Z :=
  match run_sets _agMap_new [(7, 100); (39, 200); (7, 300)] with Ret (m, _) => m | _ => _agMap_new end.

Lemma sample_map_ok : map_ok sample_map /\ counted sample_map.
Proof.
  destruct (@agMap_new_ok Z _ _ _) as (Hok & Hc & _).
  destruct (run_sets_spec [(7, 100); (39, 200); (7, 300)] _agMap_new Hok Hc) as (m & Hr & Hok' & Hc' & _);
    [vm_compute; reflexivity|].
  unfold sample_map. rewrite Hr. auto.
Qed.

Lemma agMap_refines_gmap_witness :
  exists m, run_sets (@_agMap_new (list Z)) [([97; 98], 5); ([99], 6); ([97; 98], 0)] = Ret (m, [0; 0; 5]) /\
    (forall key, _agMap_get (Some m) key =
      Ret (default 0 ((spec_sets ∅ [([97; 98], 5); ([99], 6); ([97; 98], 0)]).1 !! key))) /\
    _agMap_size m = 1.
Proof.
  destruct (agMap_refines_gmap [([97; 98], 5); ([99], 6); ([97; 98], 0)]) as (m & Hr & Hg & Hs); [reflexivity|].
  exists m. split; [rewrite Hr; vm_compute; reflexivity|]. split; [exact Hg|].
  rewrite Hs. vm_compute. reflexivity.
Defined.

Lemma agMap_foreach_bindings_witness :
  _agMap_foreach sample_map (fun key p seen => seen ++ [(key, p)]) [] ≡ₚ map_to_list (to_gmap sample_map).
Proof. apply agMap_foreach_bindings, sample_map_ok. Defined.

Lemma agMap_next_walks_all_witness :
  table_walk (_agMap_next sample_map) (buckets sample_map) 3 None =
  Ret [mk_element 39 39 200; mk_element 7 7 300].
Proof. apply (agMap_next_walks_all sample_map), sample_map_ok. Defined.

Lemma agMap_empty_spec_witness :
  let '(m', freed) := _agMap_empty sample_map in
  map_ok m' /\ (forall key, _agMap_get (Some m') key = Ret 0) /\
  freed ≡ₚ (map_to_list (to_gmap sample_map)).*2 /\ _agMap_size m' = 2.
Proof.
  destruct (agMap_empty_spec sample_map) as (Hok & Hg & Hf & Hs); [apply sample_map_ok..|].
  cbn [_agMap_empty]. split; [exact Hok|]. split; [exact Hg|]. split; [exact Hf|reflexivity].
Defined.

Lemma agMap_sp_next_stuck_witness :
  exists p, _agMap_sp_next (Some sample_map) None = Ret (Some p, None) /\
    (buckets sample_map !! p.1 ≫= lookup p.2) = Some (mk_element 39 39 200).
Proof. apply (agMap_sp_next_stuck sample_map). vm_compute. discriminate. Defined.
