(* ===== verification/Hash.v ===== *)
(** * The framework's hash table: [framework/hash.c]

    A table of data pointers indexed by a key the table reads from the data
    through the callback [get_key], with ordered chains.  The operations are
    parameterised by [get_key], so that data whose key changes while it is in
    a table can be modelled, and by whether [malloc] succeeds in
    [hash_resize].  A key is the list of its bytes. *)
From Stdlib Require Import Sorted.
From S2P Require Import Prelude Buckets.

(** ** Keys *)

Abbreviation key := (list Z).

(** [memcmp], by its sign. *)
Fixpoint memcmp (a b : key) (n : nat) : Z :=
  match n, a, b with
  | S n', x :: a', y :: b' => if x <? y then -1 else if y <? x then 1 else memcmp a' b' n'
  | _, _, _ => 0
  end.

Definition default_cmp_key (key1 key2 : key) : Z :=
  if zlen key1 <? zlen key2 then -1
  else if zlen key2 <? zlen key1 then 1
  else memcmp key1 key2 (length key1).

(** [nhash += (nhash<<5) + nhash + *p++]; [*p] is a signed [char]. *)
Definition default_hash_key (k : key) : Z :=
  foldl (fun nhash c => u32 (nhash + (u32 (Z.shiftl nhash 5) + nhash + i8 c))) 0 k.

(** [hash_number_key] on a little-endian host: [v = (v << 8) + t[i-1]] from the
    last byte. *)
Definition hash_number_key (k : key) : Z :=
  foldr (fun c v => u32 (u32 (Z.shiftl v 8) + i8 c)) 0 k.

(** What the table needs of [cmp_key]: a strict total order by sign. *)
Class KeyOrder (cmp : key -> key -> Z) : Prop := {
  cmp_eq : forall a b, cmp a b = 0 <-> a = b;
  cmp_anti : forall a b, 0 < cmp a b <-> cmp b a < 0;
  cmp_trans : forall a b c, cmp a b < 0 -> cmp b c < 0 -> cmp a c < 0 }.

Lemma memcmp_eq n : forall a b, length a = n -> length b = n -> (memcmp a b n = 0 <-> a = b).
Proof.
  induction n as [|n IH]; intros [|x a] [|y b]; cbn [length memcmp]; try discriminate; [tauto|].
  intros [= Ha] [= Hb]. destruct (Z.ltb_spec x y); [split; [discriminate|intros [= -> _]; lia]|].
  destruct (Z.ltb_spec y x); [split; [discriminate|intros [= -> _]; lia]|].
  rewrite IH by assumption. replace x with y by lia. split; [now intros ->|now intros [= ->]].
Qed.

Lemma memcmp_anti n : forall a b, 0 < memcmp a b n <-> memcmp b a n < 0.
Proof.
  induction n as [|n IH]; intros [|x a] [|y b]; cbn [memcmp]; try lia.
  destruct (Z.ltb_spec x y), (Z.ltb_spec y x); try lia. apply IH.
Qed.

Lemma memcmp_trans n : forall a b c,
  length b = n -> memcmp a b n < 0 -> memcmp b c n < 0 -> memcmp a c n < 0.
Proof.
  induction n as [|n IH]; intros [|x a] [|y b] [|z c]; cbn [memcmp length]; try discriminate; try lia.
  intros [= Hb]. destruct (Z.ltb_spec x y), (Z.ltb_spec y x); try lia;
    destruct (Z.ltb_spec y z), (Z.ltb_spec z y); try lia;
    destruct (Z.ltb_spec x z), (Z.ltb_spec z x); try lia. now apply IH.
Qed.

#[global] Instance default_cmp_order : KeyOrder default_cmp_key.
Proof.
  assert (Hz : forall a b : key, length a = length b <-> zlen a = zlen b) by (unfold zlen; lia).
  constructor; unfold default_cmp_key.
  - intros a b. ztests; try (split; [discriminate|intros ->; lia]).
    apply memcmp_eq; [reflexivity|]. apply Hz. lia.
  - intros a b. ztests. replace (length b) with (length a) by (apply Hz; lia). apply memcmp_anti.
  - intros a b c.
    destruct (Z.ltb_spec (zlen a) (zlen b)), (Z.ltb_spec (zlen b) (zlen c)),
      (Z.ltb_spec (zlen a) (zlen c)); try lia;
      destruct (Z.ltb_spec (zlen b) (zlen a)); try lia;
      destruct (Z.ltb_spec (zlen c) (zlen b)); try lia;
      destruct (Z.ltb_spec (zlen c) (zlen a)); try lia.
    replace (length b) with (length a) by (apply Hz; lia). apply memcmp_trans. apply Hz. lia.
Qed.

(** ** Data *)

Record element (D : Type) := mk_elem { he_data : D; he_hash : Z }.
Arguments mk_elem {D} _ _.
Arguments he_data {D} _.
Arguments he_hash {D} _.

(** [struct hash] without its callbacks. *)
Record hash (D : Type) := mk_hash { h_count : Z; h_size : Z; h_buckets : list (list (element D)) }.
Arguments mk_hash {D} _ _ _.
Arguments h_count {D} _.
Arguments h_size {D} _.
Arguments h_buckets {D} _.

(** ** Operations *)

Section Operations.
Context {D : Type} (get_key : D -> key) (hash_key : key -> Z) (cmp_key : key -> key -> Z).

(** The walk of [find_element]: whether the key was found and the position where
    the walk stopped; [prev] is the position before it. *)
Fixpoint find_element_loop (c : list (element D)) (k : key) (i : nat) : bool * nat :=
  match c with
  | [] => (false, i)
  | p :: c' =>
    let cmp := cmp_key k (get_key (he_data p)) in
    if cmp =? 0 then (true, i)
    else if 0 <? cmp then find_element_loop c' k (S i)
    else (false, i)
  end.

(** [x % buckets_size], undefined for an empty table. *)
Definition bucket_index (h : hash D) (hash_val : Z) : outcome nat :=
  if h_size h =? 0 then Undef else Ret (Z.to_nat (hash_val mod h_size h)).

Definition find_element (h : hash D) (index : nat) (k : key)
    : outcome (list (element D) * bool * nat) :=
  c ← deref (h_buckets h !! index);
  let '(found, i) := find_element_loop c k 0 in
  Ret (c, found, i).

(** Linking [e] after [prev], or as the head. *)
Definition link_element (h : hash D) (index i : nat) (c : list (element D)) (e : element D)
    : list (list (element D)) :=
  <[index := take i c ++ e :: drop i c]> (h_buckets h).

Definition hash_insert_element (h : hash D) (e : element D) : outcome (hash D) :=
  index ← bucket_index h (he_hash e);
  '(c, found, i) ← find_element h index (get_key (he_data e));
  _ ← c_assert (negb found);
  Ret (mk_hash (h_count h) (h_size h) (link_element h index i c e)).

Fixpoint hash_insert_elements (h : hash D) (es : list (element D)) : outcome (hash D) :=
  match es with
  | [] => Ret h
  | e :: es' => h ← hash_insert_element h e; hash_insert_elements h es'
  end.

Definition hash_resize (malloc_ok : bool) (h : hash D) (new_size : Z) : outcome (hash D) :=
  if malloc_ok then
    hash_insert_elements (mk_hash (h_count h) new_size (repeat [] (Z.to_nat new_size)))
      (concat (h_buckets h))
  else Ret h.

Definition hash_create (malloc_ok : bool) : outcome (hash D) :=
  hash_resize malloc_ok (mk_hash 0 0 []) 128.

Definition hash_size (h : hash D) : Z := h_count h.

Definition hash_insert (malloc_ok : bool) (h : hash D) (data : D) : outcome (hash D * option D) :=
  let k := get_key data in
  let hash_val := hash_key k in
  index ← bucket_index h hash_val;
  '(c, found, i) ← find_element h index k;
  if (found : bool) then
    e ← deref (c !! i);
    Ret (mk_hash (h_count h) (h_size h)
           (<[index := <[i := mk_elem data hash_val]> c]> (h_buckets h)), Some (he_data e))
  else
    let h := mk_hash (u32 (h_count h + 1)) (h_size h)
               (link_element h index i c (mk_elem data hash_val)) in
    h ← (if h_size h <=? h_count h then hash_resize malloc_ok h (u32 (h_size h * 2)) else Ret h);
    Ret (h, None).

Definition hash_remove (h : hash D) (k : key) : outcome (hash D * option D) :=
  index ← bucket_index h (hash_key k);
  '(c, found, i) ← find_element h index k;
  if (found : bool) then
    e ← deref (c !! i);
    Ret (mk_hash (u32 (h_count h - 1)) (h_size h)
           (<[index := take i c ++ drop (S i) c]> (h_buckets h)), Some (he_data e))
  else Ret (h, None).

Definition hash_get (h : hash D) (k : key) : outcome (option D) :=
  index ← bucket_index h (hash_key k);
  '(c, found, i) ← find_element h index k;
  if (found : bool) then e ← deref (c !! i); Ret (Some (he_data e)) else Ret None.

Definition hash_next (h : hash D) (ite : option (nat * nat)) : outcome (option (nat * nat)) :=
  match ite with
  | None => Ret (first_from (h_buckets h) 0)
  | Some (b, i) =>
    c ← deref (h_buckets h !! b);
    e ← deref (c !! i);
    if (S i <? length c)%nat then Ret (Some (b, S i))
    else
      index ← bucket_index h (he_hash e);
      Ret (first_from (drop (index + 1) (h_buckets h)) (index + 1))
  end.
End Operations.

(** [account_change] of gateway/account.c, after the database update: the name
    of the account [acc] is overwritten in place, the account is inserted under
    the new name and the old name is removed. *)
Definition account_change {D} `{EqDecision D} (name : D -> key) (malloc_ok : bool)
    (h : hash D) (acc : D) (new_name : key) : outcome ((D -> key) * hash D) :=
  let old_name := name acc in
  let name := fun a => if decide (a = acc) then take 127 new_name else name a in
  '(h, _) ← hash_insert name default_hash_key default_cmp_key malloc_ok h acc;
  '(h, _) ← hash_remove name default_hash_key default_cmp_key h old_name;
  Ret (name, h).

(** ** Invariant *)

Lemma strongly_sorted_app {A} (R : A -> A -> Prop) l1 l2 :
  StronglySorted R (l1 ++ l2) <->
  StronglySorted R l1 /\ StronglySorted R l2 /\ (forall x y, x ∈ l1 -> y ∈ l2 -> R x y).
Proof.
  induction l1 as [|a l1 IH]; cbn [app].
  - split; [intros H; repeat split; [constructor|exact H|intros x y Hx; inversion Hx]|tauto].
  - split.
    + intros H. inversion_clear H as [|? ? Hs Hf]. apply IH in Hs as (H1 & H2 & H12).
      apply Forall_app in Hf as [Hf1 Hf2]. repeat split; [now constructor|assumption|].
      intros x y Hx Hy. apply elem_of_cons in Hx as [->|Hx]; [|auto].
      apply list_elem_of_lookup in Hy as (i & Hi). eapply Forall_lookup_1; eassumption.
    + intros (H1 & H2 & H12). inversion_clear H1 as [|? ? Hs Hf]. constructor.
      * apply IH. repeat split; auto. intros x y Hx Hy. apply H12; [now right|assumption].
      * apply Forall_app. split; [assumption|]. apply list.Forall_forall. intros y Hy.
        apply H12; [left|assumption].
Qed.

Section Invariant.
Context {D : Type} (get_key : D -> key) (hash_key : key -> Z) (cmp_key : key -> key -> Z).
Context `{!KeyOrder cmp_key}.

Definition ekey (e : element D) : key := get_key (he_data e).
Definition elem_lt (a b : element D) : Prop := cmp_key (ekey a) (ekey b) < 0.
Definition hbinding (e : element D) : key * D := (ekey e, he_data e).
Definition helems (h : hash D) : list (element D) := concat (h_buckets h).

(** The finite map a table represents. *)
Definition hash_map (h : hash D) : gmap key D := bindings hbinding (helems h).

Definition chain_ok (size : Z) (i : nat) (c : list (element D)) : Prop :=
  StronglySorted elem_lt c /\
  forall e, e ∈ c -> he_hash e = hash_key (ekey e) /\ i = Z.to_nat (he_hash e mod size).

(** Everything but the element count, which is not touched while rebuilding. *)
Record buckets_ok (h : hash D) : Prop := {
  b_size : 0 < h_size h <= 2 ^ 31;
  b_length : length (h_buckets h) = Z.to_nat (h_size h);
  b_chain : forall i c, h_buckets h !! i = Some c -> chain_ok (h_size h) i c;
  b_nodup : NoDup (ekey <$> helems h) }.

Record hash_ok (h : hash D) : Prop := {
  h_ok : buckets_ok h;
  h_counted : h_count h = zlen (helems h) }.

Lemma find_loop_spec c k i0 :
  StronglySorted elem_lt c ->
  match find_element_loop get_key cmp_key c k i0 with
  | (true, i) => exists e, (i0 <= i)%nat /\ c !! (i - i0)%nat = Some e /\ ekey e = k
  | (false, i) => (i0 <= i <= i0 + length c)%nat /\
      (forall e, e ∈ take (i - i0) c -> cmp_key (ekey e) k < 0) /\
      (forall e, e ∈ drop (i - i0) c -> cmp_key k (ekey e) < 0)
  end.
Proof.
  revert i0. induction c as [|p c IH]; intros i0 Hs; cbn [find_element_loop].
  - rewrite Nat.sub_diag. cbn. split; [lia|]. split; intros e He; inversion He.
  - apply StronglySorted_inv in Hs as [Hs Hf]. fold (ekey p).
    destruct (Z.eqb_spec (cmp_key k (ekey p)) 0) as [E|E].
    { exists p. rewrite Nat.sub_diag. repeat split; [lia|]. now apply cmp_eq in E. }
    destruct (Z.ltb_spec 0 (cmp_key k (ekey p))) as [L|L].
    + specialize (IH (S i0) Hs). destruct (find_element_loop get_key cmp_key c k (S i0)) as [[] i].
      * destruct IH as (e & ? & Hl & ?). exists e. repeat split; [lia| |assumption].
        replace (i - i0)%nat with (S (i - S i0)) by lia. exact Hl.
      * destruct IH as (? & Ht & Hd). replace (i - i0)%nat with (S (i - S i0)) by lia. cbn [take drop length].
        split; [lia|]. split; [|exact Hd]. intros e He. apply elem_of_cons in He as [->|He]; [|auto].
        now apply cmp_anti.
    + rewrite Nat.sub_diag. cbn [take drop length]. split; [lia|]. split; [intros e He; inversion He|].
      intros e He. apply elem_of_cons in He as [->|He]; [lia|].
      apply (cmp_trans k (ekey p)); [lia|]. apply list_elem_of_lookup in He as (j & Hj).
      exact (Forall_lookup_1 _ _ _ _ Hf Hj).
Qed.

Lemma bucket_index_ok h v :
  buckets_ok h -> exists i c, bucket_index h v = Ret i /\ i = Z.to_nat (v mod h_size h) /\
    h_buckets h !! i = Some c.
Proof.
  intros Hok. destruct (b_size _ Hok). unfold bucket_index. destruct (Z.eqb_spec (h_size h) 0); [lia|].
  destruct (lookup_lt_is_Some_2 (h_buckets h) (Z.to_nat (v mod h_size h))) as (c & Hc).
  { rewrite (b_length _ Hok). now apply bucket_lt. }
  eauto.
Qed.

(** The two answers of a lookup of [k] in the bucket of [k]. *)
Lemma find_element_spec h k :
  buckets_ok h ->
  exists c i, bucket_index h (hash_key k) = Ret (Z.to_nat (hash_key k mod h_size h)) /\
   h_buckets h !! Z.to_nat (hash_key k mod h_size h) = Some c /\
   ((exists e rest, find_element get_key cmp_key h (Z.to_nat (hash_key k mod h_size h)) k = Ret (c, true, i) /\
       c !! i = Some e /\ ekey e = k /\ helems h ≡ₚ e :: rest) \/
    (find_element get_key cmp_key h (Z.to_nat (hash_key k mod h_size h)) k = Ret (c, false, i) /\
       hash_map h !! k = None /\
       (forall e, e ∈ take i c -> cmp_key (ekey e) k < 0) /\
       (forall e, e ∈ drop i c -> cmp_key k (ekey e) < 0))).
Proof.
  intros Hok. destruct (bucket_index_ok h (hash_key k) Hok) as (j & c & Hi & -> & Hc).
  unfold find_element. rewrite Hc. cbn [deref mbind outcome_bind].
  destruct (b_chain _ Hok _ _ Hc) as [Hs _]. pose proof (find_loop_spec c k 0 Hs) as Hf.
  destruct (find_element_loop get_key cmp_key c k 0) as [[] i]; rewrite Nat.sub_0_r in Hf; exists c, i;
    (split; [exact Hi|split; [reflexivity|]]).
  - left. destruct Hf as (e & _ & Hl & Hk). destruct (concat_elem_split _ _ _ _ _ Hc Hl) as (rest & Hr).
    exists e, rest. auto.
  - right. destruct Hf as (_ & Ht & Hd). split; [reflexivity|]. split; [|auto].
    apply bindings_absent. intros Hin. apply list_elem_of_fmap in Hin as (e & Hke & He).
    cbn in Hke. apply elem_of_concat in He as (j & c' & Hj & He).
    destruct (b_chain _ Hok _ _ Hj) as [_ Hp]. destruct (Hp e He) as [Hh Hpos].
    rewrite Hh, <- Hke in Hpos. subst j. rewrite Hc in Hj. injection Hj as <-.
    assert (Hkk : cmp_key k k = 0) by now apply cmp_eq.
    rewrite <- (take_drop i c) in He. apply elem_of_app in He as [He|He];
      [apply Ht in He|apply Hd in He]; rewrite <- Hke in He; lia.
Qed.

Lemma link_sorted (c : list (element D)) i e :
  StronglySorted elem_lt c ->
  (forall x, x ∈ take i c -> cmp_key (ekey x) (ekey e) < 0) ->
  (forall x, x ∈ drop i c -> cmp_key (ekey e) (ekey x) < 0) ->
  StronglySorted elem_lt (take i c ++ e :: drop i c).
Proof.
  intros Hs Ht Hd. rewrite <- (take_drop i c) in Hs. apply strongly_sorted_app in Hs as (H1 & H2 & H12).
  apply strongly_sorted_app. repeat split; [assumption| |].
  - constructor; [assumption|]. apply list.Forall_forall. exact Hd.
  - intros x y Hx Hy. apply elem_of_cons in Hy as [->|Hy]; [now apply Ht|now apply H12].
Qed.

Lemma insert_chain_ok h pos c' count :
  buckets_ok h -> chain_ok (h_size h) pos c' ->
  NoDup (ekey <$> concat (<[pos := c']> (h_buckets h))) ->
  buckets_ok (mk_hash count (h_size h) (<[pos := c']> (h_buckets h))).
Proof.
  intros [Hs Hl Hc Hn] Hc' Hn'. constructor; cbn [h_size h_buckets]; try assumption.
  - now rewrite length_insert.
  - intros i c Hi. apply list_lookup_insert_Some in Hi as [(<- & <- & _)|(_ & Hi)]; auto.
Qed.

Lemma link_ok h k c i (e : element D) count :
  buckets_ok h -> ekey e = k -> he_hash e = hash_key k ->
  h_buckets h !! Z.to_nat (hash_key k mod h_size h) = Some c -> hash_map h !! k = None ->
  (forall x, x ∈ take i c -> cmp_key (ekey x) k < 0) ->
  (forall x, x ∈ drop i c -> cmp_key k (ekey x) < 0) ->
  let h' := mk_hash count (h_size h) (link_element h (Z.to_nat (hash_key k mod h_size h)) i c e) in
  buckets_ok h' /\ helems h' ≡ₚ e :: helems h.
Proof.
  intros Hok Hk Hh Hc Hnone Ht Hd. cbv zeta. unfold link_element.
  pose proof (concat_insert_at _ _ _ i e Hc) as Hp. split; [|exact Hp].
  destruct (b_chain _ Hok _ _ Hc) as [Hs Hpl].
  apply insert_chain_ok; [assumption| |].
  - split; [subst k; now apply link_sorted|]. intros x Hx.
    assert (Hin : x = e \/ x ∈ c).
    { rewrite <- (take_drop i c). apply elem_of_app in Hx as [Hx|Hx]; [right; apply elem_of_app; now left|].
      apply elem_of_cons in Hx as [->|Hx]; [now left|right; apply elem_of_app; now right]. }
    destruct Hin as [->|Hin]; [split; congruence|auto].
  - rewrite Hp. cbn. apply list.NoDup_cons. split; [|apply (b_nodup _ Hok)].
    rewrite Hk. now apply (bindings_absent hbinding) in Hnone.
Qed.

Lemma hash_insert_element_spec h e :
  buckets_ok h -> he_hash e = hash_key (ekey e) -> hash_map h !! ekey e = None ->
  exists h', hash_insert_element get_key cmp_key h e = Ret h' /\ buckets_ok h' /\
    h_count h' = h_count h /\ h_size h' = h_size h /\ helems h' ≡ₚ e :: helems h.
Proof.
  intros Hok Hh Hnone. unfold hash_insert_element. rewrite Hh. fold (ekey e).
  destruct (find_element_spec h (ekey e) Hok) as (c & i & -> & Hc & [(e' & rest & Hf & Hi & Hk & Hp)|(Hf & _ & Ht & Hd)]).
  - destruct (bindings_delete hbinding _ e' rest (b_nodup _ Hok) Hp) as [_ Hg].
    cbn in Hg. unfold hash_map in Hnone. rewrite Hk in Hg. congruence.
  - cbn [mbind outcome_bind]. rewrite Hf. cbn [mbind outcome_bind negb c_assert].
    eexists. split; [reflexivity|]. cbn [h_count h_size].
    destruct (link_ok h (ekey e) c i e (h_count h) Hok eq_refl Hh Hc Hnone Ht Hd) as [Hok' Hp]. auto.
Qed.

Lemma hash_insert_elements_spec es : forall h,
  buckets_ok h -> (forall e, e ∈ es -> he_hash e = hash_key (ekey e)) ->
  NoDup (ekey <$> es ++ helems h) ->
  exists h', hash_insert_elements get_key cmp_key h es = Ret h' /\ buckets_ok h' /\
    h_count h' = h_count h /\ h_size h' = h_size h /\ helems h' ≡ₚ es ++ helems h.
Proof.
  induction es as [|e es IH]; intros h Hok Hh Hn; cbn [hash_insert_elements]; [eauto 6|].
  cbn [app fmap list_fmap] in Hn. apply list.NoDup_cons in Hn as [Hnin Hn].
  destruct (hash_insert_element_spec h e Hok) as (h1 & -> & Hok1 & Hc1 & Hs1 & Hp1).
  - apply Hh. left.
  - apply bindings_absent. intros Hin. apply Hnin. rewrite fmap_app. apply elem_of_app. now right.
  - cbn [mbind outcome_bind].
    destruct (IH h1 Hok1) as (h2 & -> & Hok2 & Hc2 & Hs2 & Hp2).
    + intros x Hx. apply Hh. now right.
    + rewrite Hp1. rewrite <- Permutation_middle. cbn. now apply list.NoDup_cons.
    + exists h2. split; [reflexivity|]. split; [exact Hok2|]. split; [congruence|]. split; [congruence|].
      rewrite Hp2, Hp1. symmetry. apply Permutation_middle.
Qed.

Lemma helems_hash h e : buckets_ok h -> e ∈ helems h -> he_hash e = hash_key (ekey e).
Proof.
  intros Hok He. apply elem_of_concat in He as (i & c & Hi & He).
  destruct (b_chain _ Hok _ _ Hi) as [_ Hp]. now destruct (Hp e He).
Qed.

(** Growing the table, or failing to, keeps its elements; the assertion of
    [hash_insert_element] never fails. *)
Lemma hash_resize_spec malloc_ok h new_size :
  buckets_ok h -> 0 < new_size <= 2 ^ 31 ->
  exists h', hash_resize get_key cmp_key malloc_ok h new_size = Ret h' /\ buckets_ok h' /\
    h_count h' = h_count h /\ helems h' ≡ₚ helems h.
Proof.
  intros Hok Hs. unfold hash_resize. destruct malloc_ok; [|eauto].
  set (h0 := mk_hash (h_count h) new_size (repeat [] (Z.to_nat new_size))).
  assert (He0 : helems h0 = []) by apply concat_repeat_nil.
  destruct (hash_insert_elements_spec (helems h) h0) as (h' & Hr & Hok' & Hc & _ & Hp).
  - constructor; rewrite ?He0; [exact Hs|apply repeat_length| |apply NoDup_nil_2].
    intros i c Hi. apply lookup_repeat_nil in Hi as ->. split; [constructor|]. intros e He. inversion He.
  - intros e. now apply helems_hash.
  - rewrite He0, app_nil_r. apply (b_nodup _ Hok).
  - exists h'. rewrite He0, app_nil_r in Hp. auto.
Qed.

Lemma hash_map_perm h h' : buckets_ok h -> helems h ≡ₚ helems h' -> hash_map h = hash_map h'.
Proof. intros Hok Hp. apply bindings_perm; [apply (b_nodup _ Hok)|exact Hp]. Qed.

Lemma hash_create_spec malloc_ok :
  malloc_ok = true -> exists h, hash_create get_key cmp_key malloc_ok = Ret h /\ hash_ok h /\ hash_map h = ∅.
Proof.
  intros ->. exists (mk_hash 0 128 (repeat [] 128)). split; [reflexivity|].
  assert (He : helems (mk_hash 0 128 (repeat [] 128)) = []) by apply concat_repeat_nil.
  split; [|unfold hash_map; now rewrite He].
  constructor; [constructor; rewrite ?He|now rewrite He]; [cbn; lia|reflexivity| |apply NoDup_nil_2].
  intros i c Hi. apply lookup_repeat_nil in Hi as ->. split; [constructor|]. intros e Hx. inversion Hx.
Qed.
End Invariant.

(** ** Changing the names of data outside the table *)

Section Ext.
Context {D : Type} (get_key get_key' : D -> key) (hash_key : key -> Z) (cmp_key : key -> key -> Z).

Lemma ekeys_ext (l : list (element D)) :
  (forall e, e ∈ l -> get_key (he_data e) = get_key' (he_data e)) ->
  hbinding get_key <$> l = hbinding get_key' <$> l.
Proof.
  intros Hx. apply list_fmap_ext. intros i e He. unfold hbinding, ekey. now rewrite (Hx e) by (eapply list_elem_of_lookup_2, He).
Qed.

Lemma sorted_ext (l : list (element D)) :
  (forall e, e ∈ l -> get_key (he_data e) = get_key' (he_data e)) ->
  StronglySorted (elem_lt get_key cmp_key) l -> StronglySorted (elem_lt get_key' cmp_key) l.
Proof.
  intros Hx Hs. induction Hs as [|e l Hs IH Hf]; constructor.
  - apply IH. intros d Hd. apply Hx. now right.
  - apply list.Forall_forall. intros d Hd. rewrite list.Forall_forall in Hf. specialize (Hf d Hd). unfold elem_lt, ekey in *.
    rewrite <- (Hx e), <- (Hx d); [exact Hf|now right|left].
Qed.

Lemma hash_ext h :
  (forall e, e ∈ helems h -> get_key (he_data e) = get_key' (he_data e)) ->
  hash_ok get_key hash_key cmp_key h ->
  hash_ok get_key' hash_key cmp_key h /\ hash_map get_key' h = hash_map get_key h.
Proof.
  intros Hx [[Hsz Hl Hc Hn] Hcnt]. pose proof (ekeys_ext _ Hx) as He. split; [|unfold hash_map, bindings; now rewrite He].
  constructor; [constructor; [exact Hsz|exact Hl| |]|exact Hcnt].
  - intros i c Hi. destruct (Hc i c Hi) as [Hs Hh].
    assert (Hin : forall e, e ∈ c -> get_key (he_data e) = get_key' (he_data e)).
    { intros e Hec. apply Hx, elem_of_concat. eauto. }
    split; [now apply (sorted_ext c Hin)|]. intros e Hec. destruct (Hh e Hec) as [E1 E2]. split; [|exact E2].
    rewrite E1. unfold ekey. now rewrite (Hin e).
  - assert (E : ekey get_key' <$> helems h = ekey get_key <$> helems h); [|now rewrite E].
    change (ekey get_key') with (fst ∘ hbinding get_key'). change (ekey get_key) with (fst ∘ hbinding get_key).
    now rewrite !(list_fmap_compose _ fst), He.
Qed.

(** The bindings of the abstract map are the elements of the table. *)
Lemma hash_map_elem h k a :
  hash_ok get_key hash_key cmp_key h ->
  hash_map get_key h !! k = Some a <-> exists e, e ∈ helems h /\ ekey get_key e = k /\ he_data e = a.
Proof.
  intros [[_ _ _ Hn] _]. unfold hash_map, bindings. rewrite <- elem_of_list_to_map.
  - rewrite list_elem_of_fmap. unfold hbinding. split; [intros (e & [=] & He); eauto|intros (e & He & <- & <-); eauto].
  - rewrite <- list_fmap_compose. exact Hn.
Qed.
End Ext.

(** ** The table is a finite map from keys to data *)

Section Refinement.
Context {D : Type} (get_key : D -> key) (hash_key : key -> Z) (cmp_key : key -> key -> Z).
Context `{!KeyOrder cmp_key}.
#[local] Abbreviation ok := (hash_ok get_key hash_key cmp_key).
#[local] Abbreviation bok := (buckets_ok get_key hash_key cmp_key).
#[local] Abbreviation hmap := (hash_map get_key).

Lemma hash_get_spec h k : bok h -> hash_get get_key hash_key cmp_key h k = Ret (hmap h !! k).
Proof.
  intros Hok. unfold hash_get.
  destruct (find_element_spec get_key hash_key cmp_key h k Hok)
    as (c & i & -> & Hc & [(e & rest & Hf & Hi & Hk & Hp)|(Hf & Hn & _)]);
    cbn [mbind outcome_bind]; rewrite Hf; cbn [mbind outcome_bind].
  - rewrite Hi. cbn. destruct (bindings_delete (hbinding get_key) _ e rest (b_nodup _ _ _ _ Hok) Hp) as [_ Hg].
    cbn in Hg. unfold hash_map. now rewrite <- Hk, Hg.
  - now rewrite Hn.
Qed.

(** Replacing or unlinking the element of a chain that holds [k]. *)
Lemma chain_replace_ok size pos c i (e : element D) data :
  chain_ok get_key hash_key cmp_key size pos c -> c !! i = Some e -> get_key data = ekey get_key e ->
  chain_ok get_key hash_key cmp_key size pos (<[i := mk_elem data (hash_key (get_key data))]> c) /\
  chain_ok get_key hash_key cmp_key size pos (take i c ++ drop (S i) c).
Proof.
  intros [Hs Hp] Hi Hd. pose proof (take_drop_middle c i e Hi) as Hm.
  pose proof (lookup_lt_Some _ _ _ Hi) as Hlt.
  rewrite <- Hm in Hs. apply strongly_sorted_app in Hs as (H1 & H2 & H12).
  apply StronglySorted_inv in H2 as [H2 Hf]. split; split.
  - rewrite insert_take_drop by assumption. apply strongly_sorted_app. split; [assumption|]. split.
    + constructor; [assumption|]. eapply list.Forall_impl; [exact Hf|]. intros x Hx. unfold elem_lt, ekey in *.
      cbn. now rewrite Hd.
    + intros x y Hx Hy. apply elem_of_cons in Hy as [->|Hy].
      * unfold elem_lt, ekey in *. cbn. rewrite Hd. apply (H12 x e Hx). left.
      * apply H12; [assumption|now right].
  - intros x Hx. apply list_elem_of_lookup in Hx as (j & Hj).
    apply list_lookup_insert_Some in Hj as [(_ & <- & _)|(_ & Hj)];
      [|apply Hp, list_elem_of_lookup; eauto].
    cbn. split; [reflexivity|]. rewrite Hd. destruct (Hp e) as [Hh Hpos]; [apply list_elem_of_lookup; eauto|].
    now rewrite <- Hh.
  - apply strongly_sorted_app. repeat split; [assumption..|]. intros x y Hx Hy. apply H12; [assumption|now right].
  - intros x Hx. apply Hp. rewrite <- Hm. apply elem_of_app in Hx as [Hx|Hx]; apply elem_of_app;
      [now left|right; now right].
Qed.

Lemma hash_remove_spec h k :
  ok h -> zlen (helems h) < 2 ^ 30 ->
  exists h', hash_remove get_key hash_key cmp_key h k = Ret (h', hmap h !! k) /\ ok h' /\
    hmap h' = delete k (hmap h) /\ (zlen (helems h') <= zlen (helems h)).
Proof.
  intros [Hok Hcnt] Hlt. unfold hash_remove.
  destruct (find_element_spec get_key hash_key cmp_key h k Hok)
    as (c & i & -> & Hc & [(e & rest & Hf & Hi & Hk & Hp)|(Hf & Hn & _)]);
    cbn [mbind outcome_bind]; rewrite Hf; cbn [mbind outcome_bind].
  - rewrite Hi. cbn [deref mbind outcome_bind]. pose proof (b_nodup _ _ _ _ Hok) as Hnd.
    destruct (bindings_delete (hbinding get_key) _ e rest Hnd Hp) as [Hdel Hg]. cbn in Hg, Hdel.
    destruct (concat_replace _ _ _ _ _ e rest Hc Hi Hp) as [_ Hrem].
    destruct (chain_replace_ok _ _ _ _ _ (he_data e) (b_chain _ _ _ _ Hok _ _ Hc) Hi eq_refl) as [_ Hch].
    assert (Hnr : NoDup (ekey get_key <$> rest))
      by (rewrite Hp in Hnd; now apply list.NoDup_cons in Hnd as [_ ?]).
    assert (Hlen : zlen (helems h) = 1 + zlen rest) by (unfold zlen; rewrite Hp; cbn [length]; lia).
    pose proof (zlen_nonneg rest). destruct (b_size _ _ _ _ Hok).
    eexists. unfold hash_map. rewrite <- Hk, Hg. split; [reflexivity|]. rewrite <- Hdel, Hk. split; [|split].
    + constructor.
      * apply insert_chain_ok; [assumption..|]. rewrite Hrem. exact Hnr.
      * unfold helems. cbn [h_count h_buckets]. rewrite Hcnt, Hlen, u32_small by lia.
        unfold zlen. rewrite Hrem. lia.
    + symmetry. now apply bindings_perm.
    + unfold helems at 1. cbn [h_buckets]. unfold zlen. rewrite Hrem. unfold zlen in *. lia.
  - rewrite Hn. exists h. split; [reflexivity|]. split; [now constructor|].
    rewrite delete_id by assumption. split; [reflexivity|lia].
Qed.

Lemma hash_insert_spec malloc_ok h data :
  ok h -> zlen (helems h) < 2 ^ 30 ->
  exists h', hash_insert get_key hash_key cmp_key malloc_ok h data = Ret (h', hmap h !! get_key data) /\ ok h' /\
    hmap h' = <[get_key data := data]> (hmap h) /\ zlen (helems h') <= zlen (helems h) + 1.
Proof.
  intros [Hok Hcnt] Hlt. unfold hash_insert. set (k := get_key data).
  set (e' := mk_elem data (hash_key k)). pose proof (b_nodup _ _ _ _ Hok) as Hnd.
  destruct (b_size _ _ _ _ Hok). pose proof (zlen_nonneg (helems h)).
  destruct (find_element_spec get_key hash_key cmp_key h k Hok)
    as (c & i & -> & Hc & [(e & rest & Hf & Hi & Hk & Hp)|(Hf & Hn & Ht & Hd)]);
    cbn [mbind outcome_bind]; rewrite Hf; cbn [mbind outcome_bind].
  - rewrite Hi. cbn [deref mbind outcome_bind].
    destruct (bindings_delete (hbinding get_key) _ e rest Hnd Hp) as [Hdel Hg]. cbn in Hg, Hdel.
    destruct (concat_replace _ _ _ _ _ e' rest Hc Hi Hp) as [Hrep _].
    destruct (chain_replace_ok _ _ _ _ _ data (b_chain _ _ _ _ Hok _ _ Hc) Hi (eq_sym Hk)) as [Hch _].
    assert (Hn2 : NoDup (ekey get_key <$> e' :: rest)).
    { rewrite Hp in Hnd. cbn in Hnd |- *. rewrite Hk in Hnd. exact Hnd. }
    eexists. unfold hash_map. rewrite <- Hk, Hg. split; [reflexivity|]. rewrite Hk. split; [|split].
    + constructor; [apply insert_chain_ok; [assumption..|]; rewrite Hrep; exact Hn2|].
      cbn [h_count]. rewrite Hcnt. unfold helems, zlen. cbn [h_buckets]. rewrite Hrep.
      unfold helems in Hp. rewrite Hp. reflexivity.
    + transitivity (bindings (hbinding get_key) (e' :: rest)); [symmetry; now apply bindings_perm|].
      destruct (bindings_split (hbinding get_key) (e' :: rest) e' rest Hn2 (Permutation_refl _)) as [-> _].
      cbn. fold k. rewrite Hdel, Hk. apply insert_delete_eq.
    + unfold helems, zlen. cbn [h_buckets]. rewrite Hrep. unfold helems in Hp. rewrite Hp. cbn [length]. lia.
  - set (h1 := mk_hash _ _ _). rewrite Hn.
    destruct (link_ok get_key hash_key cmp_key h k c i e' (u32 (h_count h + 1)) Hok eq_refl eq_refl Hc Hn Ht Hd)
      as [Hok1 Hp1]. fold h1 in Hok1, Hp1.
    assert (Hg : hmap h1 = <[k := data]> (hmap h)).
    { destruct (bindings_split (hbinding get_key) _ e' (helems h) (b_nodup _ _ _ _ Hok1) Hp1) as [Hb _]. exact Hb. }
    assert (Hlen : zlen (helems h1) = 1 + zlen (helems h)) by (unfold zlen; rewrite Hp1; cbn [length]; lia).
    assert (Hcnt1 : h_count h1 = zlen (helems h1)) by (cbn [h_count h1]; rewrite u32_small; lia).
    destruct (Z.leb_spec (h_size h1) (h_count h1)) as [Hfull|Hroom].
    + assert (0 < u32 (h_size h1 * 2) <= 2 ^ 31).
      { cbn [h_size h1] in *. rewrite u32_small; lia. }
      destruct (hash_resize_spec get_key hash_key cmp_key malloc_ok h1 (u32 (h_size h1 * 2)) Hok1)
        as (h2 & -> & Hok2 & Hc2 & Hp2); [assumption|].
      cbn [mbind outcome_bind]. exists h2. split; [reflexivity|].
      assert (Hl2 : zlen (helems h2) = zlen (helems h1)) by (unfold zlen; now rewrite Hp2).
      split; [constructor; [exact Hok2|congruence]|]. split; [|lia].
      rewrite <- Hg. now apply (hash_map_perm get_key hash_key cmp_key).
    + cbn [mbind outcome_bind]. exists h1. split; [reflexivity|]. split; [now constructor|]. split; [exact Hg|lia].
Qed.

(** A client's calls: inserts (with the outcome of a possible [malloc]) and
    removals. *)
Inductive hash_op := HInsert (malloc_ok : bool) (data : D) | HRemove (k : key).

Fixpoint run_hash (h : hash D) (ops : list hash_op) : outcome (hash D * list (option D)) :=
  match ops with
  | [] => Ret (h, [])
  | op :: ops' =>
    '(h, r) ← match op with
              | HInsert malloc_ok data => hash_insert get_key hash_key cmp_key malloc_ok h data
              | HRemove k => hash_remove get_key hash_key cmp_key h k
              end;
    '(h, rs) ← run_hash h ops';
    Ret (h, r :: rs)
  end.

Fixpoint spec_hash (g : gmap key D) (ops : list hash_op) : gmap key D * list (option D) :=
  match ops with
  | [] => (g, [])
  | HInsert _ data :: ops' =>
    let '(g', rs) := spec_hash (<[get_key data := data]> g) ops' in (g', g !! get_key data :: rs)
  | HRemove k :: ops' =>
    let '(g', rs) := spec_hash (delete k g) ops' in (g', g !! k :: rs)
  end.

Lemma run_hash_spec ops : forall h,
  ok h -> zlen (helems h) + zlen ops < 2 ^ 30 ->
  exists h', run_hash h ops = Ret (h', (spec_hash (hmap h) ops).2) /\ ok h' /\
    hmap h' = (spec_hash (hmap h) ops).1.
Proof.
  induction ops as [|op ops IH]; intros h Hok Hl; cbn [run_hash spec_hash]; [eauto|].
  rewrite zlen_cons in Hl. pose proof (zlen_nonneg ops). destruct op as [mok data|k].
  - destruct (hash_insert_spec mok h data Hok) as (h1 & -> & Hok1 & Hg1 & Hl1); [lia|].
    cbn [mbind outcome_bind]. rewrite <- Hg1.
    destruct (IH h1 Hok1 ltac:(lia)) as (h2 & -> & Hok2 & Hg2). cbn [mbind outcome_bind].
    destruct (spec_hash (hmap h1) ops) as [g rs]. exists h2. auto.
  - destruct (hash_remove_spec h k Hok) as (h1 & -> & Hok1 & Hg1 & Hl1); [lia|].
    cbn [mbind outcome_bind]. rewrite <- Hg1.
    destruct (IH h1 Hok1 ltac:(lia)) as (h2 & -> & Hok2 & Hg2). cbn [mbind outcome_bind].
    destruct (spec_hash (hmap h1) ops) as [g rs]. exists h2. auto.
Qed.

(** C33: [framework/hash.c] implements a finite map from keys to data for any
    callbacks whose comparison is a total order, whether or not the [malloc]s
    of the growing steps succeed: after a successful creation and fewer than
    [2^30] inserts and removals, none of them aborts, each has returned the
    data that was stored under its key, [hash_get] answers as the abstract map
    and [hash_size] is the number of keys. *)
Theorem hash_refines_gmap (ops : list hash_op) :
  zlen ops < 2 ^ 30 ->
  exists h0 h, hash_create get_key cmp_key true = Ret h0 /\
    run_hash h0 ops = Ret (h, (spec_hash ∅ ops).2) /\
    (forall k, hash_get get_key hash_key cmp_key h k = Ret ((spec_hash ∅ ops).1 !! k)) /\
    hash_size h = Z.of_nat (size (spec_hash ∅ ops).1).
Proof.
  intros Hl. destruct (hash_create_spec get_key hash_key cmp_key true eq_refl) as (h0 & Hc & Hok & Hg).
  assert (He : zlen (helems h0) = 0).
  { unfold zlen. rewrite <- (bindings_size (hbinding get_key) (helems h0)) by apply (h_ok _ _ _ _ Hok).
    fold (hash_map get_key h0). now rewrite Hg. }
  destruct (run_hash_spec ops h0 Hok ltac:(lia)) as (h & Hr & Hok' & Hg').
  rewrite Hg in Hr, Hg'. exists h0, h. split; [exact Hc|]. split; [exact Hr|]. rewrite <- Hg'. split.
  - intros k. apply hash_get_spec, (h_ok _ _ _ _ Hok').
  - unfold hash_size. rewrite (h_counted _ _ _ _ Hok'). unfold hash_map.
    rewrite (bindings_size (hbinding get_key)) by apply (h_ok _ _ _ _ Hok'). reflexivity.
Qed.
End Refinement.

(** ** Iteration *)

(** Walking a table with [hash_next] ends and visits every element exactly
    once. *)
Theorem hash_next_walks_all {D} (get_key : D -> key) (hash_key : key -> Z) (cmp_key : key -> key -> Z) h :
  buckets_ok get_key hash_key cmp_key h ->
  table_walk (hash_next h) (h_buckets h) (S (length (helems h))) None = Ret (helems h).
Proof.
  intros Hok. apply table_walk_all; [reflexivity|]. intros b i [e He]. unfold hash_next, pointer_next.
  destruct (h_buckets h !! b) as [c|] eqn:Eb; [|discriminate]. cbn [mbind option_bind] in He.
  cbn [deref mbind outcome_bind]. rewrite He. cbn [deref mbind outcome_bind].
  destruct (S i <? length c)%nat; [reflexivity|]. unfold bucket_index.
  destruct (b_size _ _ _ _ Hok). destruct (Z.eqb_spec (h_size h) 0); [lia|]. cbn [mbind outcome_bind].
  destruct (b_chain _ _ _ _ Hok b c Eb) as [_ Hp].
  destruct (Hp e) as [_ <-]; [apply list_elem_of_lookup; eauto|]. now rewrite Nat.add_1_r.
Qed.

(** Accounts 1 and 2, named "a" and "DY", whose names share a bucket. *)
Definition sample_names (d : Z) : key := if d =? 1 then [97] else if d =? 2 then [68; 89] else [].

Definition sample_hash : hash Z :=
  match
    h ← hash_create sample_names default_cmp_key true;
    run_hash sample_names default_hash_key default_cmp_key h [HInsert true 1; HInsert true 2]
  with Ret (h, _) => h | _ => mk_hash 0 0 [] end.

Lemma sample_hash_ok : hash_ok sample_names default_hash_key default_cmp_key sample_hash.
Proof.
  destruct (hash_create_spec sample_names default_hash_key default_cmp_key true eq_refl) as (h0 & Hc & Hok & Hg).
  unfold sample_hash. rewrite Hc. cbn [mbind outcome_bind].
  destruct (run_hash_spec sample_names default_hash_key default_cmp_key [HInsert true 1; HInsert true 2] h0 Hok)
    as (h & -> & Hok' & _); [|exact Hok'].
  injection Hc as <-. vm_compute. reflexivity.
Qed.

Lemma hash_next_walks_all_witness :
  table_walk (hash_next sample_hash) (h_buckets sample_hash) 3 None = Ret [mk_elem 1 97; mk_elem 2 2401].
Proof.
  apply (hash_next_walks_all sample_names default_hash_key default_cmp_key sample_hash), sample_hash_ok.
Defined.

Lemma hash_refines_gmap_witness :
  exists h0 h, hash_create sample_names default_cmp_key true = Ret h0 /\
    run_hash sample_names default_hash_key default_cmp_key h0 [HInsert true 1; HInsert true 2; HRemove [97]] =
      Ret (h, [None; None; Some 1]) /\
    hash_get sample_names default_hash_key default_cmp_key h [68; 89] = Ret (Some 2) /\ hash_size h = 1.
Proof.
  destruct (hash_refines_gmap sample_names default_hash_key default_cmp_key
              [HInsert true 1; HInsert true 2; HRemove [97]]) as (h0 & h & Hc & Hr & Hg & Hs); [reflexivity|].
  exists h0, h. split; [exact Hc|]. split; [rewrite Hr; vm_compute; reflexivity|].
  split; [rewrite Hg; vm_compute; reflexivity|]. rewrite Hs. vm_compute. reflexivity.
Defined.

(** ** Renaming an account *)

(** [account_change] breaks the account table: it overwrites the name while
    the old entry is still linked under it, so the removal of the old name
    finds nothing, the account is stored twice, and another account of the
    same bucket ("DY", after "a" is renamed to "abc") can no longer be found. *)
Theorem account_change_corrupts_table :
  hash_get sample_names default_hash_key default_cmp_key sample_hash [68; 89] = Ret (Some 2) /\
  exists name' h', account_change sample_names true sample_hash 1 [97; 98; 99] = Ret (name', h') /\
    name' 2 = [68; 89] /\ hash_size h' = 3 /\ he_data <$> helems h' = [1; 2; 1] /\
    hash_get name' default_hash_key default_cmp_key h' [68; 89] = Ret None.
Proof.
  split; [vm_compute; reflexivity|].
  destruct (account_change sample_names true sample_hash 1 [97; 98; 99]) as [[name' h']| | |] eqn:E;
    [|vm_compute in E; discriminate..].
  exists name', h'. vm_compute in E. injection E as <- <-. repeat split; vm_compute; reflexivity.
Qed.
