(* ===== verification/Buffer.v ===== *)
(** * Byte buffers: [framework/buffer.c]

    A growing buffer with a read and a write position.  A pointer the code
    returns is an offset into [data].  [realloc_ok] is whether [REALLOC]
    succeeds, [junk] the content of fresh memory. *)
From S2P Require Import Prelude.

(** [struct buffer]; [data] has [size] bytes. *)
Record buffer := mk_buffer { bsize : Z; rpos : Z; wpos : Z; bdata : mem }.

Definition ALIGN (s : Z) : Z := Z.land (u64 (s + 3)) (u64 (Z.lnot 3)).

Definition _agB_new (junk : Z) (size : Z) : buffer :=
  let size := if size =? 0 then 64 else size in
  let size := ALIGN size in
  mk_buffer size 0 0 (repeat junk (Z.to_nat size)).

Definition CHECK (buf : buffer) : outcome unit :=
  c_assert ((wpos buf <=? bsize buf) && (rpos buf <=? bsize buf) && (rpos buf <=? wpos buf)).

Definition _agB_size (buf : buffer) : outcome Z :=
  _ ← CHECK buf;
  Ret (wpos buf - rpos buf).

Definition _agB_align (buf : buffer) : outcome buffer :=
  if (0 <? rpos buf) && (rpos buf <? wpos buf) then
    let s := wpos buf - rpos buf in
    bs ← load_bytes (bdata buf) (rpos buf) s;
    data ← store_bytes (bdata buf) 0 bs;
    Ret (mk_buffer (bsize buf) 0 s data)
  else Ret buf.

(** [REALLOC(data, size)]. *)
Definition realloc (junk : Z) (data : mem) (size : Z) : mem :=
  take (Z.to_nat size) data ++ repeat junk (Z.to_nat size - length data).

(** The buffer and the result, 0 or -1. *)
Definition _agB_resize (junk : Z) (realloc_ok : bool) (buf : buffer) (size : Z) : outcome (buffer * Z) :=
  if size <? wpos buf - rpos buf then Ret (buf, -1)
  else
    buf ← (if size <? wpos buf then _agB_align buf else Ret buf);
    _ ← c_assert (wpos buf <=? size);
    if realloc_ok then Ret (mk_buffer size (rpos buf) (wpos buf) (realloc junk (bdata buf) size), 0)
    else Ret (buf, -1).

Definition _agB_peek (buf : buffer) (len : Z) : outcome (option Z) :=
  _ ← CHECK buf;
  if wpos buf - rpos buf <? len then Ret None else Ret (Some (rpos buf)).

Definition _agB_read (buf : buffer) (len : Z) : outcome (buffer * option Z) :=
  _ ← CHECK buf;
  if wpos buf - rpos buf <? len then Ret (buf, None)
  else Ret (mk_buffer (bsize buf) (rpos buf + len) (wpos buf) (bdata buf), Some (rpos buf)).

Definition _agB_buffer (junk : Z) (realloc_ok : bool) (buf : buffer) (len : Z)
    : outcome (buffer * option Z) :=
  _ ← CHECK buf;
  let nr := u64 (wpos buf - rpos buf + len) in
  ns ← double_while 65 (bsize buf) nr;
  '(buf, rc) ← (if negb (ns =? bsize buf) then _agB_resize junk realloc_ok buf ns else Ret (buf, 0));
  if negb (rc =? 0) then Ret (buf, None)
  else
    let buf := if rpos buf =? wpos buf then mk_buffer (bsize buf) 0 0 (bdata buf) else buf in
    let tail := bsize buf - wpos buf in
    buf ← (if tail <? len then _agB_align buf else Ret buf);
    _ ← c_assert (len <=? bsize buf - wpos buf);
    Ret (mk_buffer (bsize buf) (rpos buf) (wpos buf + len) (bdata buf), Some (wpos buf)).

Definition _agB_write (junk : Z) (realloc_ok : bool) (buf : buffer) (data : list Z)
    : outcome (buffer * Z) :=
  '(buf, ptr) ← _agB_buffer junk realloc_ok buf (zlen data);
  match ptr with
  | None => Ret (buf, -1)
  | Some ptr =>
    bs ← store_bytes (bdata buf) ptr data;
    Ret (mk_buffer (bsize buf) (rpos buf) (wpos buf) bs, 0)
  end.

Definition _agB_getc (buf : buffer) : outcome (buffer * Z) :=
  '(buf, ptr) ← _agB_read buf 1;
  match ptr with
  | Some ptr => c ← load (bdata buf) ptr; Ret (buf, i8 c)
  | None => Ret (buf, 0)
  end.

Definition _agB_putc (junk : Z) (realloc_ok : bool) (buf : buffer) (c : Z) : outcome (buffer * Z) :=
  _agB_write junk realloc_ok buf [u8 c].

(** ** Invariant and contents *)

(** The unread bytes. *)
Definition content (buf : buffer) : list Z := slice (bdata buf) (rpos buf) (wpos buf - rpos buf).

Record buf_ok (buf : buffer) : Prop := {
  buf_pos : 0 <= rpos buf <= wpos buf /\ wpos buf <= bsize buf;
  buf_size : 0 < bsize buf <= 2 ^ 62;
  buf_data : zlen (bdata buf) = bsize buf }.

Lemma check_ok buf : buf_ok buf -> CHECK buf = Ret tt.
Proof. intros [? ? ?]. unfold CHECK. ztests. reflexivity. Qed.

Lemma zlen_content buf : buf_ok buf -> zlen (content buf) = wpos buf - rpos buf.
Proof. intros [? ? ?]. apply zlen_slice; lia. Qed.

Lemma slice_split m p n k :
  0 <= p -> 0 <= k <= n -> p + n <= zlen m -> slice m p n = slice m p k ++ slice m (p + k) (n - k).
Proof.
  intros. unfold slice. replace (Z.to_nat (p + k)) with (Z.to_nat p + Z.to_nat k)%nat by lia.
  rewrite <- drop_drop. replace (Z.to_nat n) with (Z.to_nat k + Z.to_nat (n - k))%nat by lia.
  now rewrite <- take_take_drop.
Qed.

(** A write right behind a range does not touch the range. *)
Lemma slice_splice_before m p n q bs :
  0 <= p -> 0 <= n -> p + n <= q -> q <= zlen m -> slice (splice m q bs) p n = slice m p n.
Proof.
  intros. unfold slice, splice, zlen in *. rewrite drop_app_le by (rewrite length_take; lia).
  rewrite take_app_le by (rewrite length_drop, length_take; lia).
  rewrite !take_drop_commute, take_take. f_equal. f_equal. lia.
Qed.

Lemma agB_align_spec buf :
  buf_ok buf -> exists buf', _agB_align buf = Ret buf' /\ buf_ok buf' /\ content buf' = content buf /\
    bsize buf' = bsize buf /\ (rpos buf < wpos buf -> rpos buf' = 0).
Proof.
  intros Hok. pose proof Hok as [? ? Hd]. unfold _agB_align.
  destruct ((0 <? rpos buf) && (rpos buf <? wpos buf)) eqn:E; zbool.
  - assert (Hz : zlen (slice (bdata buf) (rpos buf) (wpos buf - rpos buf)) = wpos buf - rpos buf)
      by (apply zlen_slice; lia).
    unfold load_bytes. replace (_ && _ && _) with true by (symmetry; ztests; reflexivity).
    cbn [mbind outcome_bind]. rewrite store_bytes_splice by lia. cbn [mbind outcome_bind].
    eexists. split; [reflexivity|]. split; [|split; [|cbn; lia]].
    + constructor; cbn [rpos wpos bsize bdata]; [lia|lia|]. rewrite zlen_splice; lia.
    + unfold content. cbn [rpos wpos bdata]. rewrite Z.sub_0_r. rewrite <- Hz at 2. apply slice_splice; lia.
  - exists buf. split; [reflexivity|]. split; [exact Hok|]. split; [reflexivity|]. split; [reflexivity|].
    intros. apply andb_false_iff in E as [E|E]; zbool; lia.
Qed.

(** Growing in [_agB_buffer], where the new size is at least the old one. *)
Lemma agB_resize_grow junk realloc_ok buf ns :
  buf_ok buf -> bsize buf <= ns <= 2 ^ 62 ->
  exists buf' rc, _agB_resize junk realloc_ok buf ns = Ret (buf', rc) /\ buf_ok buf' /\
    content buf' = content buf /\ wpos buf' - rpos buf' = wpos buf - rpos buf /\
    if realloc_ok then rc = 0 /\ bsize buf' = ns else rc = -1.
Proof.
  intros Hok Hns. pose proof Hok as [? ? Hd]. unfold _agB_resize.
  destruct (Z.ltb_spec ns (wpos buf - rpos buf)); [lia|]. destruct (Z.ltb_spec ns (wpos buf)); [lia|].
  cbn [mbind outcome_bind]. destruct (Z.leb_spec (wpos buf) ns); [|lia]. cbn [c_assert mbind outcome_bind].
  destruct realloc_ok; [|eauto 8]. eexists _, _. split; [reflexivity|].
  assert (Ht : realloc junk (bdata buf) ns = bdata buf ++ repeat junk (Z.to_nat ns - length (bdata buf))).
  { unfold realloc. rewrite firstn_all2 by (unfold zlen in *; lia). reflexivity. }
  split; [|split; [|cbn; auto]].
  - constructor; cbn [rpos wpos bsize bdata]; [lia|lia|]. rewrite Ht, zlen_app. unfold zlen in *.
    rewrite repeat_length. lia.
  - unfold content, slice. cbn [rpos wpos bdata]. rewrite Ht. unfold zlen in *.
    rewrite drop_app_le by lia. rewrite take_app_le by (rewrite length_drop; lia). reflexivity.
Qed.

(** The answer of [_agB_buffer]: room for [len] bytes behind the unread ones, or
    nothing when [realloc] fails. *)
Definition reserved (realloc_ok : bool) (buf : buffer) (len : Z) (buf' : buffer) (ptr : option Z) : Prop :=
  buf_ok buf' /\
  match ptr with
  | None => realloc_ok = false /\ content buf' = content buf
  | Some p => p = wpos buf' - len /\ rpos buf' <= p /\
      slice (bdata buf') (rpos buf') (p - rpos buf') = content buf
  end.

Lemma agB_buffer_spec junk realloc_ok buf len :
  buf_ok buf -> 0 <= len -> wpos buf - rpos buf + len <= 2 ^ 61 ->
  exists buf' ptr, _agB_buffer junk realloc_ok buf len = Ret (buf', ptr) /\
    reserved realloc_ok buf len buf' ptr.
Proof.
  intros Hok Hlen Hmax. pose proof Hok as [? ? Hd]. unfold _agB_buffer. rewrite check_ok by assumption.
  cbn [mbind outcome_bind]. cbv zeta. rewrite u64_small by lia.
  destruct (double_while_spec 64 (bsize buf) (wpos buf - rpos buf + len)) as (ns & -> & Hge & Hns & Hor); [lia..|].
  cbn [mbind outcome_bind].
  assert (Hgrow : exists buf1 rc,
    (if negb (ns =? bsize buf) then _agB_resize junk realloc_ok buf ns else Ret (buf, 0)) = Ret (buf1, rc) /\
    buf_ok buf1 /\ content buf1 = content buf /\ wpos buf1 - rpos buf1 = wpos buf - rpos buf /\
    (rc = 0 /\ bsize buf1 = ns \/ rc = -1 /\ realloc_ok = false)).
  { destruct (Z.eqb_spec ns (bsize buf)) as [->|]; cbn [negb]; [eauto 10|].
    destruct (agB_resize_grow junk realloc_ok buf ns Hok) as (b & rc & -> & ? & ? & ? & Hr); [lia|].
    exists b, rc. destruct realloc_ok; intuition. }
  destruct Hgrow as (buf1 & rc & -> & Hok1 & Hc1 & Hl1 & Hrc). cbn [mbind outcome_bind].
  destruct Hrc as [[-> Hs1]|[-> ->]]; cbn [Z.eqb negb];
    [|exists buf1, None; split; [reflexivity|split; [exact Hok1|auto]]].
  set (buf2 := if rpos buf1 =? wpos buf1 then _ else buf1).
  assert (Hb2 : buf_ok buf2 /\ content buf2 = content buf /\ bsize buf2 = ns /\
    wpos buf2 - rpos buf2 = wpos buf - rpos buf /\ (rpos buf2 = wpos buf2 -> wpos buf2 = 0)).
  { subst buf2. pose proof Hok1 as [? ? ?]. destruct (Z.eqb_spec (rpos buf1) (wpos buf1)) as [E|E].
    - split; [constructor; cbn; lia|]. split; [|cbn; lia]. rewrite <- Hc1. unfold content, slice.
      cbn [rpos wpos bdata]. now rewrite E, !Z.sub_diag.
    - repeat split; try lia; auto. }
  clearbody buf2. destruct Hb2 as (Hok2 & Hc2 & Hs2 & Hl2 & Hz2). pose proof Hok2 as [? ? ?].
  assert (Hal : exists buf3, (if bsize buf2 - wpos buf2 <? len then _agB_align buf2 else Ret buf2) = Ret buf3 /\
    buf_ok buf3 /\ content buf3 = content buf /\ len <= bsize buf3 - wpos buf3).
  { destruct (Z.ltb_spec (bsize buf2 - wpos buf2) len); [|eauto].
    destruct (agB_align_spec buf2 Hok2) as (b & -> & Hb & Hcb & Hsb & Hrb).
    exists b. split; [reflexivity|]. split; [exact Hb|]. split; [congruence|].
    apply (f_equal zlen) in Hcb. rewrite !zlen_content in Hcb by assumption. pose proof Hb as [? ? ?]. lia. }
  destruct Hal as (buf3 & -> & Hok3 & Hc3 & Hroom). cbn [mbind outcome_bind]. pose proof Hok3 as [? ? ?].
  destruct (Z.leb_spec len (bsize buf3 - wpos buf3)); [|lia]. cbn [c_assert mbind outcome_bind].
  eexists _, _. split; [reflexivity|]. split; [constructor; cbn; lia|]. cbn [rpos wpos bdata].
  split; [lia|]. split; [lia|exact Hc3].
Qed.

Lemma agB_write_spec junk realloc_ok buf data :
  buf_ok buf -> zlen (content buf) + zlen data <= 2 ^ 61 ->
  exists buf' rc, _agB_write junk realloc_ok buf data = Ret (buf', rc) /\ buf_ok buf' /\
    (rc = 0 /\ content buf' = content buf ++ data \/
     rc = -1 /\ realloc_ok = false /\ content buf' = content buf).
Proof.
  intros Hok Hmax. rewrite zlen_content in Hmax by assumption. unfold _agB_write.
  destruct (agB_buffer_spec junk realloc_ok buf (zlen data) Hok) as (b & p & -> & Hok' & Hp);
    [apply zlen_nonneg|lia|].
  cbn [mbind outcome_bind]. pose proof Hok' as [? ? ?]. pose proof (zlen_nonneg data).
  destruct p as [p|]; [|destruct Hp; eauto 8]. destruct Hp as (-> & Hr & Hc).
  rewrite store_bytes_splice by lia. cbn [mbind outcome_bind]. eexists _, _. split; [reflexivity|].
  split; [constructor; cbn [rpos wpos bsize bdata]; [lia|lia|rewrite zlen_splice; lia]|].
  left. split; [reflexivity|]. unfold content at 1. cbn [rpos wpos bdata].
  rewrite (slice_split _ _ _ (wpos b - zlen data - rpos b)) by (rewrite ?zlen_splice; lia).
  rewrite slice_splice_before, Hc by lia. f_equal.
  replace (rpos b + (wpos b - zlen data - rpos b)) with (wpos b - zlen data) by lia.
  replace (wpos b - rpos b - (wpos b - zlen data - rpos b)) with (zlen data) by lia.
  apply slice_splice; lia.
Qed.

Lemma agB_read_spec buf len :
  buf_ok buf -> 0 <= len ->
  if zlen (content buf) <? len then _agB_read buf len = Ret (buf, None)
  else exists buf', _agB_read buf len = Ret (buf', Some (rpos buf)) /\ buf_ok buf' /\ bdata buf' = bdata buf /\
    content buf = slice (bdata buf') (rpos buf) len ++ content buf'.
Proof.
  intros Hok Hlen. pose proof Hok as [? ? ?]. rewrite zlen_content by assumption. unfold _agB_read.
  rewrite check_ok by assumption. cbn [mbind outcome_bind].
  destruct (Z.ltb_spec (wpos buf - rpos buf) len); [reflexivity|].
  eexists. split; [reflexivity|]. split; [constructor; cbn; lia|]. split; [reflexivity|].
  unfold content. cbn [rpos wpos bdata]. rewrite (slice_split _ _ _ len) by lia. do 2 f_equal; lia.
Qed.

(** ** First in, first out *)

Inductive buf_op := BWrite (realloc_ok : bool) (data : list Z) | BRead (len : Z).

(** A sequence of calls; the bytes of the accepted writes and the bytes read. *)
Fixpoint run_buf (junk : Z) (buf : buffer) (ops : list buf_op) : outcome (buffer * list Z * list Z) :=
  match ops with
  | [] => Ret (buf, [], [])
  | BWrite realloc_ok data :: ops' =>
    '(buf, rc) ← _agB_write junk realloc_ok buf data;
    '(buf, acc, out) ← run_buf junk buf ops';
    Ret (buf, (if rc =? 0 then data else []) ++ acc, out)
  | BRead len :: ops' =>
    '(buf, ptr) ← _agB_read buf len;
    bs ← match ptr with Some p => load_bytes (bdata buf) p len | None => Ret [] end;
    '(buf, acc, out) ← run_buf junk buf ops';
    Ret (buf, acc, bs ++ out)
  end.

Definition op_written (op : buf_op) : list Z := match op with BWrite _ data => data | BRead _ => [] end.
Definition op_ok (op : buf_op) : Prop := match op with BWrite _ _ => True | BRead len => 0 <= len end.
Definition op_granted (op : buf_op) : bool := match op with BWrite ok _ => ok | BRead _ => true end.

Lemma run_buf_spec junk ops : forall buf,
  buf_ok buf -> Forall op_ok ops -> zlen (content buf) + zlen (concat (op_written <$> ops)) <= 2 ^ 61 ->
  exists buf' acc out, run_buf junk buf ops = Ret (buf', acc, out) /\ buf_ok buf' /\
    content buf ++ acc = out ++ content buf' /\
    (forallb op_granted ops = true -> acc = concat (op_written <$> ops)).
Proof.
  induction ops as [|op ops IH]; intros buf Hok Hf Hmax; cbn [run_buf].
  { exists buf, [], []. rewrite app_nil_r. auto. }
  inversion_clear Hf as [|? ? Hop Hops]. cbn [op_ok] in Hop. cbn [fmap list_fmap concat] in Hmax. rewrite zlen_app in Hmax.
  pose proof (zlen_nonneg (concat (op_written <$> ops))) as Hnn. unfold fmap in *.
  destruct op as [mok data|len]; cbn [op_written op_ok] in *.
  - destruct (agB_write_spec junk mok buf data Hok) as (b & rc & -> & Hb & Hw); [lia|].
    cbn [mbind outcome_bind].
    destruct (IH b Hb Hops) as (b' & acc & out & -> & Hb' & Hc & Hacc).
    { pose proof (zlen_nonneg data). destruct Hw as [[_ ->]|(_ & _ & ->)]; rewrite ?zlen_app; lia. }
    cbn [mbind outcome_bind]. eexists _, _, _. split; [reflexivity|]. split; [exact Hb'|].
    destruct Hw as [[-> Hcb]|(-> & -> & Hcb)]; cbn [Z.eqb]; rewrite Hcb in Hc.
    + split; [now rewrite (assoc_L (++))|]. cbn [forallb op_granted concat list_fmap op_written].
      intros [_ Hg]%andb_true_iff. now rewrite Hacc.
    + split; [exact Hc|]. cbn. discriminate.
  - pose proof (agB_read_spec buf len Hok Hop) as Hr. change (zlen (@nil Z)) with 0 in Hmax.
    destruct (Z.ltb_spec (zlen (content buf)) len) as [Hlt|Hge].
    + rewrite Hr. cbn [mbind outcome_bind].
      destruct (IH buf Hok Hops ltac:(lia)) as (b' & acc & out & -> & Hb' & Hc & Hacc).
      cbn [mbind outcome_bind app]. exists b', acc, out. auto.
    + destruct Hr as (b & -> & Hb & Hd & Hcb). cbn [mbind outcome_bind].
      pose proof Hok as [? ? ?]. rewrite zlen_content in Hge by assumption.
      unfold load_bytes. rewrite Hd in *. replace (_ && _ && _) with true by (symmetry; ztests; reflexivity).
      cbn [mbind outcome_bind]. rewrite Hcb in Hmax. rewrite zlen_app in Hmax.
      pose proof (zlen_nonneg (slice (bdata buf) (rpos buf) len)).
      destruct (IH b Hb Hops ltac:(lia)) as (b' & acc & out & -> & Hb' & Hc & Hacc).
      cbn [mbind outcome_bind]. eexists _, _, _. split; [reflexivity|]. split; [exact Hb'|].
      split; [|exact Hacc]. rewrite Hcb, <- !(assoc_L (++)). now rewrite Hc.
Qed.

Lemma land_shiftl a c k : 0 <= k -> Z.land a (Z.shiftl c k) = Z.shiftl (Z.land (Z.shiftr a k) c) k.
Proof.
  intros Hk. apply Z.bits_inj'. intros i Hi. rewrite Z.land_spec. destruct (Z.lt_ge_cases i k).
  - rewrite !Z.shiftl_spec_low by lia. apply andb_false_r.
  - rewrite !Z.shiftl_spec, Z.land_spec, Z.shiftr_spec by lia. do 2 f_equal. lia.
Qed.

Lemma ALIGN_spec s : 0 <= s < 2 ^ 62 -> s <= ALIGN s <= s + 3.
Proof.
  intros Hs. unfold ALIGN. rewrite u64_small by lia.
  change (u64 (Z.lnot 3)) with (Z.shiftl (Z.ones 62) 2). rewrite land_shiftl, Z.land_ones by lia.
  rewrite Z.shiftl_mul_pow2, Z.shiftr_div_pow2 by lia. Z.div_mod_to_equations; lia.
Qed.

Lemma agB_new_ok junk size :
  0 <= size <= 2 ^ 61 -> buf_ok (_agB_new junk size) /\ content (_agB_new junk size) = [].
Proof.
  intros Hs. unfold _agB_new. set (s := if size =? 0 then 64 else size).
  assert (0 < s <= 2 ^ 61) by (subst s; ztests). pose proof (ALIGN_spec s ltac:(lia)).
  split; [|reflexivity]. constructor; cbn [rpos wpos bsize bdata]; [lia|lia|].
  unfold zlen. rewrite repeat_length. lia.
Qed.

(** C36: A buffer is a FIFO of bytes: on a new buffer, for any sequence of writes and
    reads of at most [2^61] bytes and any outcome of [realloc], no assertion
    fails and no access leaves the buffer; the bytes read so far followed by
    the unread ones are exactly the bytes of the writes that returned 0, in
    order, and every write is accepted when memory is available. *)
Theorem agB_fifo junk size ops :
  0 <= size <= 2 ^ 61 -> Forall op_ok ops -> zlen (concat (op_written <$> ops)) <= 2 ^ 61 ->
  exists buf acc out, run_buf junk (_agB_new junk size) ops = Ret (buf, acc, out) /\
    acc = out ++ content buf /\ _agB_size buf = Ret (zlen acc - zlen out) /\
    (forallb op_granted ops = true -> acc = concat (op_written <$> ops)).
Proof.
  intros Hs Hf Hmax. destruct (agB_new_ok junk size Hs) as [Hok Hc].
  destruct (run_buf_spec junk ops (_agB_new junk size) Hok Hf) as (buf & acc & out & Hr & Hb & Hcat & Hg).
  { rewrite Hc, zlen_nil. lia. }
  rewrite Hc in Hcat. cbn [app] in Hcat. exists buf, acc, out. split; [exact Hr|]. split; [exact Hcat|].
  split; [|exact Hg]. unfold _agB_size. rewrite check_ok by assumption. cbn [mbind outcome_bind].
  rewrite Hcat, zlen_app, zlen_content by assumption. f_equal. lia.
Qed.

Lemma agB_fifo_witness :
  exists buf acc out, run_buf 0 (_agB_new 0 4) [BWrite true [1; 2; 3]; BRead 2; BWrite true [4; 5; 6; 7]; BRead 9; BRead 3]
      = Ret (buf, acc, out) /\
    acc = out ++ content buf /\ _agB_size buf = Ret (zlen acc - zlen out) /\
    (forallb op_granted [BWrite true [1; 2; 3]; BRead 2; BWrite true [4; 5; 6; 7]; BRead 9; BRead 3] = true ->
     acc = [1; 2; 3; 4; 5; 6; 7]).
Proof.
  apply (agB_fifo 0 4 [BWrite true [1; 2; 3]; BRead 2; BWrite true [4; 5; 6; 7]; BRead 9; BRead 3]);
    [lia|repeat constructor; cbn; lia|vm_compute; discriminate].
Defined.
