(* ===== verification/CodeQueue.v ===== *)
(** * Message ring: [framework/codequeue.c]

    A ring buffer of length-prefixed messages in a block of memory.  The block
    is the control record and the [size] bytes behind it.  A message is a
    4-byte length followed by its bytes; four bytes of the ring are kept free
    so that an empty and a full ring differ. *)
From S2P Require Import Prelude.

Definition AG_CODEQUEEU_RESERVE : Z := 4.

(** [struct codequeue] with the bytes behind it. *)
Record codequeue := mk_cq { cbegin : Z; cend : Z; csize : Z; cdata : mem }.

(** [sizeof(CQ)] *)
Definition sizeof_CQ : Z := 24.

(** [agCQ_open] on a block of [size] bytes at an aligned address or not. *)
Definition agCQ_open (aligned : bool) (ptr : mem) : option codequeue :=
  let size := zlen ptr in
  if size <? sizeof_CQ + AG_CODEQUEEU_RESERVE then None
  else if aligned then Some (mk_cq 0 0 (size - sizeof_CQ) (drop (Z.to_nat sizeof_CQ) ptr))
  else None.

Definition SetCriticalData (q : codequeue) (begin end_ : Z) : codequeue :=
  let b := if negb (begin =? SIZE_MAX) && (begin <? csize q) then begin else cbegin q in
  let e := if negb (end_ =? SIZE_MAX) && (end_ <? csize q) then end_ else cend q in
  mk_cq b e (csize q) (cdata q).

Definition CQSize (q : codequeue) : Z :=
  if AG_CODEQUEEU_RESERVE <=? csize q then csize q - AG_CODEQUEEU_RESERVE else 0.
Definition CQLength (q : codequeue) (begin end_ : Z) : Z :=
  if begin <=? end_ then end_ - begin else csize q + end_ - begin.

Definition CQRead (q : codequeue) (begin len : Z) : outcome (list Z * Z) :=
  bs ← (if len <? csize q - begin then load_bytes (cdata q) begin len
        else
          let l1 := csize q - begin in
          b1 ← load_bytes (cdata q) begin l1;
          b2 ← load_bytes (cdata q) 0 (len - l1);
          Ret (b1 ++ b2));
  Ret (bs, (begin + len) mod csize q).

Definition CQWrite (q : codequeue) (end_ : Z) (data : list Z) : outcome (codequeue * Z) :=
  let len := zlen data in
  d ← (if len <? csize q - end_ then store_bytes (cdata q) end_ data
       else
         let l1 := csize q - end_ in
         d ← store_bytes (cdata q) end_ (take (Z.to_nat l1) data);
         store_bytes d 0 (drop (Z.to_nat l1) data));
  Ret (mk_cq (cbegin q) (cend q) (csize q) d, (end_ + len) mod csize q).

(** [agCQ_pop] into a buffer of [len] bytes: the queue after the call, the result
    and the bytes copied. *)
Definition agCQ_pop (q : codequeue) (len : Z) : outcome (codequeue * Z * list Z) :=
  let begin := cbegin q in let end_ := cend q in
  if begin =? end_ then Ret (q, 0, [])
  else
    let length := CQLength q begin end_ in
    if length <? 4 then Ret (SetCriticalData q end_ SIZE_MAX, 0, [])
    else
      '(hd, begin) ← CQRead q begin 4;
      let rlen := le_combine hd in
      if (len =? 0) || (len <? rlen) then Ret (q, rlen, [])
      else
        let length := length - 4 in
        if 0 <? rlen then
          if length <? rlen then Ret (SetCriticalData q end_ SIZE_MAX, 0, [])
          else
            '(bs, begin) ← CQRead q begin rlen;
            Ret (SetCriticalData q begin SIZE_MAX, rlen, bs)
        else Ret (SetCriticalData q begin SIZE_MAX, rlen, []).

Definition agCQ_push (q : codequeue) (data : list Z) : outcome (codequeue * Z) :=
  let begin := cbegin q in let end_ := cend q in
  let size := CQSize q in
  let length := CQLength q begin end_ in
  let len := zlen data in
  let wlen := u32 len in
  if size <? length + len + 4 then Ret (q, 0)
  else
    '(q, end_) ← CQWrite q end_ (le_split 4 wlen);
    '(q, end_) ← (if 0 <? len then CQWrite q end_ data else Ret (q, end_));
    Ret (SetCriticalData q SIZE_MAX end_, len).

(** The loop of [agCQ_pushv] over its arguments: [None] when one does not fit. *)
Fixpoint pushv_loop (q : codequeue) (begin end_ size tlen : Z) (args : list (list Z))
    : outcome (codequeue * option (Z * Z)) :=
  match args with
  | [] => Ret (q, Some (end_, tlen))
  | data :: args' =>
    let length := CQLength q begin end_ in
    if size <? length + zlen data then Ret (q, None)
    else
      '(q, end_) ← CQWrite q end_ data;
      pushv_loop q begin end_ size (tlen + zlen data) args'
  end.

(** [agCQ_pushv]: the header is written at [s_end], which is 0. *)
Definition agCQ_pushv (q : codequeue) (args : list (list Z)) : outcome (codequeue * Z) :=
  let begin := cbegin q in let end_ := cend q in
  let s_end := 0 in
  let size := CQSize q in
  let end_ := (end_ + 4) mod csize q in
  '(q, r) ← pushv_loop q begin end_ size 0 args;
  match r with
  | None => Ret (q, 0)
  | Some (end_, tlen) =>
    '(q, _) ← CQWrite q s_end (le_split 4 (u32 tlen));
    Ret (SetCriticalData q SIZE_MAX end_, tlen)
  end.

(** ** Rings *)

(** Lookup by a [Z] index. *)
Definition at_ (l : list Z) (i : Z) : option Z := l !! Z.to_nat i.

(** Offsets modulo the ring's size, for offsets below twice the size. *)
Definition wrap (n x : Z) : Z := if x <? n then x else x - n.

Lemma wrap_mod n x : 0 <= x < 2 * n -> x mod n = wrap n x.
Proof. intros. unfold wrap. ztests; [apply Z.mod_small; lia|]. symmetry. apply (Z.mod_unique_pos _ _ 1); lia. Qed.

(** The [n] bytes of the ring from [p] on. *)
Definition ring (d : mem) (p n : Z) : list Z :=
  if n <? zlen d - p then slice d p n
  else slice d p (zlen d - p) ++ slice d 0 (n - (zlen d - p)).

Definition ring_write (d : mem) (p : Z) (bs : list Z) : mem :=
  if zlen bs <? zlen d - p then splice d p bs
  else splice (splice d p (take (Z.to_nat (zlen d - p)) bs)) 0 (drop (Z.to_nat (zlen d - p)) bs).

Lemma at_slice d p n i : 0 <= p -> 0 <= i < n -> at_ (slice d p n) i = at_ d (p + i).
Proof.
  intros. unfold at_, slice. rewrite lookup_take_lt, lookup_drop by lia. f_equal. lia.
Qed.

Lemma at_app l k i : 0 <= i -> at_ (l ++ k) i = if i <? zlen l then at_ l i else at_ k (i - zlen l).
Proof.
  intros. unfold at_, zlen. destruct (Z.ltb_spec i (Z.of_nat (length l))).
  - now rewrite lookup_app_l by lia.
  - rewrite lookup_app_r by lia. f_equal. lia.
Qed.

Lemma at_splice d p bs i :
  0 <= p -> p + zlen bs <= zlen d -> 0 <= i ->
  at_ (splice d p bs) i = if (p <=? i) && (i <? p + zlen bs) then at_ bs (i - p) else at_ d i.
Proof.
  intros. unfold splice. pose proof (zlen_nonneg bs).
  assert (Hz : zlen (take (Z.to_nat p) d) = p) by (unfold zlen in *; rewrite length_take; lia).
  rewrite at_app, Hz by lia. destruct (Z.ltb_spec i p).
  - destruct (Z.leb_spec p i); [lia|]. cbn [andb]. unfold at_. now rewrite lookup_take_lt by lia.
  - destruct (Z.leb_spec p i); [|lia]. cbn [andb]. rewrite at_app by lia.
    destruct (Z.ltb_spec (i - p) (zlen bs)), (Z.ltb_spec i (p + zlen bs)); try lia; [reflexivity|].
    unfold at_. rewrite lookup_drop. f_equal. unfold zlen in *. lia.
Qed.

Lemma zlen_ring d p n : 0 <= p < zlen d -> 0 <= n <= zlen d -> zlen (ring d p n) = n.
Proof.
  intros. unfold ring. ztests; [apply zlen_slice; lia|].
  rewrite zlen_app, !zlen_slice by lia. lia.
Qed.

Lemma at_ring d p n i :
  0 <= p < zlen d -> n <= zlen d -> 0 <= i < n -> at_ (ring d p n) i = at_ d (wrap (zlen d) (p + i)).
Proof.
  intros. unfold ring, wrap. destruct (Z.ltb_spec n (zlen d - p)).
  - rewrite at_slice by lia. ztests. reflexivity.
  - rewrite at_app, zlen_slice by lia. destruct (Z.ltb_spec i (zlen d - p)).
    + rewrite at_slice by lia. ztests. reflexivity.
    + rewrite at_slice by lia. ztests. f_equal. lia.
Qed.

Lemma zlen_take {A} n (l : list A) : 0 <= n <= zlen l -> zlen (take (Z.to_nat n) l) = n.
Proof. unfold zlen. intros. rewrite length_take. lia. Qed.
Lemma zlen_drop {A} n (l : list A) : 0 <= n <= zlen l -> zlen (drop (Z.to_nat n) l) = zlen l - n.
Proof. unfold zlen. intros. rewrite length_drop. lia. Qed.

Lemma zlen_ring_write d p bs :
  0 <= p < zlen d -> zlen bs <= zlen d -> zlen (ring_write d p bs) = zlen d.
Proof.
  intros. pose proof (zlen_nonneg bs). unfold ring_write. ztests; [apply zlen_splice; lia|].
  pose proof (zlen_take (zlen d - p) bs ltac:(lia)). pose proof (zlen_drop (zlen d - p) bs ltac:(lia)).
  rewrite !zlen_splice by (rewrite ?zlen_splice; lia). reflexivity.
Qed.

Lemma at_ring_write d p bs i :
  0 <= p < zlen d -> zlen bs <= zlen d -> 0 <= i < zlen d ->
  at_ (ring_write d p bs) (wrap (zlen d) (p + i)) =
  if i <? zlen bs then at_ bs i else at_ d (wrap (zlen d) (p + i)).
Proof.
  intros. pose proof (zlen_nonneg bs). unfold ring_write.
  destruct (Z.ltb_spec (zlen bs) (zlen d - p)) as [Hs|Hs].
  - rewrite at_splice by (unfold wrap; ztests; lia). unfold wrap. ztests; try reflexivity; f_equal; lia.
  - pose proof (zlen_take (zlen d - p) bs ltac:(lia)) as Ht. pose proof (zlen_drop (zlen d - p) bs ltac:(lia)) as Hd.
    rewrite at_splice by (rewrite ?zlen_splice; unfold wrap; ztests; lia).
    rewrite at_splice by (unfold wrap; ztests; lia). rewrite Ht, Hd. unfold wrap.
    destruct (Z.ltb_spec (p + i) (zlen d)) as [Hw|Hw].
    + replace ((0 <=? p + i) && (p + i <? 0 + (zlen bs - (zlen d - p)))) with false
        by (symmetry; ztests; reflexivity).
      ztests. unfold at_. rewrite lookup_take_lt by lia. f_equal. lia.
    + destruct (Z.ltb_spec i (zlen bs)).
      * replace ((0 <=? p + i - zlen d) && (p + i - zlen d <? 0 + (zlen bs - (zlen d - p)))) with true
          by (symmetry; ztests; reflexivity).
        unfold at_. rewrite lookup_drop. f_equal. lia.
      * replace ((0 <=? p + i - zlen d) && (p + i - zlen d <? 0 + (zlen bs - (zlen d - p)))) with false
          by (symmetry; ztests; reflexivity).
        ztests. reflexivity.
Qed.

Lemma at_ext (l k : list Z) : zlen l = zlen k -> (forall i, 0 <= i < zlen l -> at_ l i = at_ k i) -> l = k.
Proof.
  intros Hl Hi. apply list_eq. intros i. destruct (Nat.lt_ge_cases i (length l)) as [Hlt|Hge].
  - specialize (Hi (Z.of_nat i) ltac:(unfold zlen; lia)). unfold at_ in Hi. now rewrite Nat2Z.id in Hi.
  - rewrite !lookup_ge_None_2 by (unfold zlen in *; lia). reflexivity.
Qed.

Lemma wrap_range n x : 0 <= x < 2 * n -> 0 <= wrap n x < n.
Proof. unfold wrap. intros. ztests. Qed.

Lemma ring_split d p n1 n2 :
  0 <= p < zlen d -> 0 <= n1 -> 0 <= n2 -> n1 + n2 <= zlen d ->
  ring d p (n1 + n2) = ring d p n1 ++ ring d (wrap (zlen d) (p + n1)) n2.
Proof.
  intros. pose proof (wrap_range (zlen d) (p + n1) ltac:(lia)). apply at_ext.
  - rewrite zlen_app, !zlen_ring by lia. reflexivity.
  - intros i Hi. rewrite zlen_ring in Hi by lia.
    rewrite at_app, zlen_ring by lia. rewrite at_ring by lia. destruct (Z.ltb_spec i n1).
    + now rewrite at_ring by lia.
    + rewrite at_ring by lia. f_equal. unfold wrap in *. ztests.
Qed.

Lemma ring_append d b l bs :
  0 <= b < zlen d -> 0 <= l -> l + zlen bs <= zlen d ->
  ring (ring_write d (wrap (zlen d) (b + l)) bs) b (l + zlen bs) = ring d b l ++ bs.
Proof.
  intros. pose proof (zlen_nonneg bs). pose proof (wrap_range (zlen d) (b + l) ltac:(lia)) as Hw.
  assert (Hz : zlen (ring_write d (wrap (zlen d) (b + l)) bs) = zlen d) by (apply zlen_ring_write; lia).
  apply at_ext.
  - rewrite zlen_app, !zlen_ring by lia. reflexivity.
  - intros i Hi. rewrite zlen_ring in Hi by lia. rewrite at_app, zlen_ring, at_ring by lia. rewrite Hz.
    destruct (Z.ltb_spec i l).
    + rewrite at_ring by lia.
      pose proof (at_ring_write d (wrap (zlen d) (b + l)) bs (zlen d - l + i)) as Ha.
      replace (wrap (zlen d) (wrap (zlen d) (b + l) + (zlen d - l + i))) with (wrap (zlen d) (b + i)) in Ha
        by (unfold wrap in *; ztests).
      rewrite Ha by lia. ztests. reflexivity.
    + pose proof (at_ring_write d (wrap (zlen d) (b + l)) bs (i - l)) as Ha.
      replace (wrap (zlen d) (wrap (zlen d) (b + l) + (i - l))) with (wrap (zlen d) (b + i)) in Ha
        by (unfold wrap in *; ztests).
      rewrite Ha by lia. ztests. reflexivity.
Qed.

Lemma CQRead_spec q begin len :
  csize q = zlen (cdata q) -> 0 <= begin < csize q -> 0 <= len <= csize q ->
  CQRead q begin len = Ret (ring (cdata q) begin len, wrap (csize q) (begin + len)).
Proof.
  intros Hs Hb Hl. unfold CQRead, ring. rewrite Hs in *. rewrite wrap_mod by lia.
  destruct (Z.ltb_spec len (zlen (cdata q) - begin)); unfold load_bytes.
  - replace (_ && _ && _) with true by (symmetry; ztests; reflexivity). reflexivity.
  - replace ((0 <=? begin) && _ && _) with true by (symmetry; ztests; reflexivity). cbn [mbind outcome_bind].
    replace (_ && _ && _) with true by (symmetry; ztests; reflexivity). reflexivity.
Qed.

Lemma CQWrite_spec q end_ data :
  csize q = zlen (cdata q) -> 0 <= end_ < csize q -> zlen data <= csize q ->
  CQWrite q end_ data =
  Ret (mk_cq (cbegin q) (cend q) (csize q) (ring_write (cdata q) end_ data), wrap (csize q) (end_ + zlen data)).
Proof.
  intros Hs He Hl. unfold CQWrite, ring_write. rewrite Hs in *. pose proof (zlen_nonneg data).
  rewrite wrap_mod by lia. destruct (Z.ltb_spec (zlen data) (zlen (cdata q) - end_)).
  - rewrite store_bytes_splice by lia. reflexivity.
  - pose proof (zlen_take (zlen (cdata q) - end_) data ltac:(lia)).
    pose proof (zlen_drop (zlen (cdata q) - end_) data ltac:(lia)).
    rewrite store_bytes_splice by lia. cbn [mbind outcome_bind].
    rewrite store_bytes_splice by (rewrite ?zlen_splice; lia). reflexivity.
Qed.

(** ** The queue as a list of messages *)

Definition frame (msg : list Z) : list Z := le_split 4 (u32 (zlen msg)) ++ msg.
Definition frames (msgs : list (list Z)) : list Z := concat (frame <$> msgs).

(** [q] holds the messages [msgs], oldest first. *)
Record cq_ok (q : codequeue) (msgs : list (list Z)) : Prop := {
  cq_size : 4 <= csize q < 2 ^ 32 /\ csize q = zlen (cdata q);
  cq_begin : 0 <= cbegin q < csize q;
  cq_end : cend q = wrap (csize q) (cbegin q + zlen (frames msgs));
  cq_room : zlen (frames msgs) <= csize q - 4;
  cq_ring : ring (cdata q) (cbegin q) (zlen (frames msgs)) = frames msgs }.

Lemma frames_snoc msgs m : frames (msgs ++ [m]) = frames msgs ++ frame m.
Proof. unfold frames. rewrite fmap_app, concat_app. cbn. now rewrite app_nil_r. Qed.
Lemma frames_cons msgs m : frames (m :: msgs) = frame m ++ frames msgs.
Proof. reflexivity. Qed.
Lemma zlen_frame m : zlen (frame m) = 4 + zlen m.
Proof. unfold frame. rewrite zlen_app, zlen_le_split. lia. Qed.

Lemma CQLength_spec q msgs : cq_ok q msgs -> CQLength q (cbegin q) (cend q) = zlen (frames msgs).
Proof.
  intros [? ? He Hr ?]. pose proof (zlen_nonneg (frames msgs)). unfold CQLength. rewrite He. unfold wrap. ztests.
Qed.

Lemma set_begin q b : 0 <= b < csize q -> csize q < 2 ^ 32 ->
  SetCriticalData q b SIZE_MAX = mk_cq b (cend q) (csize q) (cdata q).
Proof. intros. unfold SetCriticalData, SIZE_MAX. ztests. reflexivity. Qed.
Lemma set_end q e : 0 <= e < csize q -> csize q < 2 ^ 32 ->
  SetCriticalData q SIZE_MAX e = mk_cq (cbegin q) e (csize q) (cdata q).
Proof. intros. unfold SetCriticalData, SIZE_MAX. ztests. reflexivity. Qed.

Lemma agCQ_open_spec ptr :
  28 <= zlen ptr < 2 ^ 32 -> exists q, agCQ_open true ptr = Some q /\ cq_ok q [] /\ csize q = zlen ptr - 24.
Proof.
  intros H. unfold agCQ_open, sizeof_CQ, AG_CODEQUEEU_RESERVE. ztests. eexists. split; [reflexivity|].
  split; [|reflexivity]. pose proof (zlen_drop 24 ptr ltac:(lia)).
  constructor; cbn [csize cdata cbegin cend]; change (zlen (frames [])) with 0; try lia.
  - unfold wrap. ztests.
  - unfold ring. ztests. reflexivity.
Qed.

(** Pushing a message: refused when it does not fit, appended otherwise. *)
Lemma agCQ_push_spec q msgs data :
  cq_ok q msgs ->
  if csize q - 4 <? zlen (frames msgs) + zlen data + 4 then agCQ_push q data = Ret (q, 0)
  else exists q', agCQ_push q data = Ret (q', zlen data) /\ cq_ok q' (msgs ++ [data]) /\ csize q' = csize q.
Proof.
  intros Hok. unfold agCQ_push. rewrite (CQLength_spec q msgs) by assumption.
  pose proof Hok as [[? Hsz] ? He Hr Hring]. unfold CQSize, AG_CODEQUEEU_RESERVE.
  destruct (Z.leb_spec 4 (csize q)); [|lia]. pose proof (zlen_nonneg data). pose proof (zlen_nonneg (frames msgs)).
  destruct (Z.ltb_spec (csize q - 4) (zlen (frames msgs) + zlen data + 4)); [reflexivity|].
  set (L := zlen (frames msgs)) in *. set (n := csize q) in *. rewrite He.
  pose proof (wrap_range n (cbegin q + L) ltac:(lia)) as Hw.
  rewrite CQWrite_spec by (rewrite ?zlen_le_split; fold n; lia). rewrite zlen_le_split.
  fold n. change (Z.of_nat 4) with 4. cbn [mbind outcome_bind].
  replace (wrap n (wrap n (cbegin q + L) + 4)) with (wrap n (cbegin q + (L + 4))) by (unfold wrap in *; ztests).
  set (q1 := mk_cq _ _ _ _).
  assert (Hz1 : zlen (cdata q1) = n).
  { cbn [cdata q1]. rewrite zlen_ring_write by (rewrite ?zlen_le_split; lia). lia. }
  assert (Hr1 : ring (cdata q1) (cbegin q) (L + 4) = frames msgs ++ le_split 4 (u32 (zlen data))).
  { rewrite <- Hring. cbn [cdata q1]. rewrite Hsz.
    replace (L + 4) with (L + zlen (le_split 4 (u32 (zlen data)))) by (rewrite zlen_le_split; lia).
    apply ring_append; rewrite ?zlen_le_split; lia. }
  pose proof (wrap_range n (cbegin q + (L + 4)) ltac:(lia)).
  assert (Hbody : exists q2, (if 0 <? zlen data then CQWrite q1 (wrap n (cbegin q + (L + 4))) data
      else Ret (q1, wrap n (cbegin q + (L + 4)))) = Ret (q2, wrap n (cbegin q + (L + 4 + zlen data))) /\
    cbegin q2 = cbegin q /\ csize q2 = n /\ zlen (cdata q2) = n /\
    ring (cdata q2) (cbegin q) (L + 4 + zlen data) = frames (msgs ++ [data])).
  { rewrite frames_snoc. unfold frame. destruct (Z.ltb_spec 0 (zlen data)).
    - rewrite CQWrite_spec by (cbn [csize q1]; fold n; lia). eexists. split; [f_equal; f_equal; cbn [csize q1]|].
      + unfold wrap in *; ztests.
      + cbn [cbegin csize cdata]. split; [reflexivity|]. split; [reflexivity|].
        split; [rewrite zlen_ring_write; lia|].
        rewrite <- Hz1 at 1. rewrite ring_append by lia. rewrite Hr1. now rewrite <- (assoc_L (++)).
    - exists q1. assert (Hnil : data = []) by (destruct data; [reflexivity|rewrite zlen_cons in *; pose proof (zlen_nonneg data); lia]).
      subst data. rewrite zlen_nil, Z.add_0_r, app_nil_r. auto. }
  destruct Hbody as (q2 & -> & Hb2 & Hs2 & Hz2 & Hr2). cbn [mbind outcome_bind].
  pose proof (wrap_range n (cbegin q + (L + 4 + zlen data)) ltac:(lia)).
  rewrite set_end by (rewrite Hs2; lia). eexists. split; [reflexivity|]. split; [|exact Hs2].
  assert (Hlen : zlen (frames (msgs ++ [data])) = L + 4 + zlen data) by (rewrite frames_snoc, zlen_app, zlen_frame; lia).
  constructor; cbn [csize cdata cbegin cend]; rewrite ?Hlen, ?Hs2, ?Hb2; try lia; assumption || reflexivity.
Qed.

Lemma cq_empty_iff q msgs : cq_ok q msgs -> (cbegin q = cend q <-> msgs = []).
Proof.
  intros [? ? He Hr ?]. destruct msgs as [|m rest].
  - split; [reflexivity|]. intros _. rewrite He. change (zlen (frames [])) with 0. unfold wrap. ztests.
  - rewrite frames_cons, zlen_app, zlen_frame in *. pose proof (zlen_nonneg m). pose proof (zlen_nonneg (frames rest)).
    split; [|discriminate]. rewrite He. unfold wrap. ztests.
Qed.

Lemma agCQ_pop_empty q len : cq_ok q [] -> agCQ_pop q len = Ret (q, 0, []).
Proof.
  intros Hok. unfold agCQ_pop. pose proof (proj2 (cq_empty_iff q [] Hok) eq_refl) as E.
  destruct (Z.eqb_spec (cbegin q) (cend q)); [reflexivity|congruence].
Qed.

(** Popping the oldest message: its length when the buffer is too small,
    otherwise its bytes. *)
Lemma agCQ_pop_spec q m rest len :
  cq_ok q (m :: rest) ->
  if (len =? 0) || (len <? zlen m) then agCQ_pop q len = Ret (q, zlen m, [])
  else exists q', agCQ_pop q len = Ret (q', zlen m, m) /\ cq_ok q' rest /\ csize q' = csize q.
Proof.
  intros Hok. unfold agCQ_pop. rewrite (CQLength_spec q (m :: rest)) by assumption.
  destruct (Z.eqb_spec (cbegin q) (cend q)) as [E|_]; [apply (cq_empty_iff q (m :: rest) Hok) in E; discriminate|].
  pose proof Hok as [[? Hsz] Hb He Hr Hring].
  pose proof (zlen_nonneg m). pose proof (zlen_nonneg (frames rest)).
  assert (Hlen : zlen (frames (m :: rest)) = 4 + (zlen m + zlen (frames rest)))
    by (rewrite frames_cons, zlen_app, zlen_frame; lia).
  rewrite Hlen in *. destruct (Z.ltb_spec (4 + (zlen m + zlen (frames rest))) 4); [lia|].
  rewrite CQRead_spec by lia. cbn [mbind outcome_bind].
  set (n := csize q) in *. set (b1 := wrap n (cbegin q + 4)).
  assert (Hb1 : 0 <= b1 < n) by (apply wrap_range; lia).
  rewrite (ring_split _ _ 4) in Hring by lia. rewrite <- Hsz in Hring. fold n b1 in Hring.
  rewrite (ring_split _ b1 (zlen m)) in Hring by lia. rewrite <- Hsz in Hring. fold n in Hring.
  set (b2 := wrap n (b1 + zlen m)) in *. assert (Hb2 : 0 <= b2 < n) by (apply wrap_range; lia).
  rewrite frames_cons in Hring. unfold frame in Hring. rewrite <- (assoc_L (++)) in Hring.
  apply app_inj_1 in Hring as [Hhd Hring];
    [|apply Nat2Z.inj; change (zlen (ring (cdata q) (cbegin q) 4) = zlen (le_split 4 (u32 (zlen m))));
      rewrite zlen_le_split, zlen_ring by lia; reflexivity].
  apply app_inj_1 in Hring as [Hbody Hrest];
    [|apply Nat2Z.inj; change (zlen (ring (cdata q) b1 (zlen m)) = zlen m); apply zlen_ring; lia].
  rewrite Hhd, le_combine_split, (u32_small (zlen m)) by lia. change (2 ^ (8 * Z.of_nat 4)) with (2 ^ 32).
  rewrite Z.mod_small by lia.
  destruct ((len =? 0) || (len <? zlen m)); [reflexivity|].
  assert (Hend : cend q = wrap n (b2 + zlen (frames rest))).
  { rewrite He. subst b2 b1. unfold wrap. ztests. }
  assert (Hok' : cq_ok (mk_cq b2 (cend q) n (cdata q)) rest)
    by (constructor; cbn [csize cdata cbegin cend]; try lia; assumption).
  destruct (Z.ltb_spec 0 (zlen m)).
  - destruct (Z.ltb_spec (4 + (zlen m + zlen (frames rest)) - 4) (zlen m)); [lia|].
    rewrite CQRead_spec by (fold n; lia). fold n b2. cbn [mbind outcome_bind]. rewrite set_begin by (fold n; lia).
    rewrite Hbody. eauto.
  - rewrite set_begin by (fold n; lia).
    assert (Hm : m = []) by (destruct m; [reflexivity|rewrite zlen_cons in *; pose proof (zlen_nonneg m); lia]).
    subst m. assert (Hb12 : b2 = b1) by (subst b2; rewrite zlen_nil; unfold wrap; ztests).
    rewrite Hb12 in Hok'. eauto.
Qed.

(** ** Refinement *)

Inductive cq_op := CPush (msg : list Z) | CPop (len : Z).

(** A sequence of calls with their results and the bytes they copied. *)
Fixpoint run_cq (q : codequeue) (ops : list cq_op) : outcome (codequeue * list (Z * list Z)) :=
  match ops with
  | [] => Ret (q, [])
  | CPush msg :: ops' =>
    '(q, r) ← agCQ_push q msg;
    '(q, rs) ← run_cq q ops';
    Ret (q, (r, []) :: rs)
  | CPop len :: ops' =>
    '(q, r, bs) ← agCQ_pop q len;
    '(q, rs) ← run_cq q ops';
    Ret (q, (r, bs) :: rs)
  end.

(** The specification: a list of messages of at most [room] framed bytes. *)
Fixpoint spec_cq (room : Z) (msgs : list (list Z)) (ops : list cq_op)
    : list (list Z) * list (Z * list Z) :=
  match ops with
  | [] => (msgs, [])
  | CPush msg :: ops' =>
    if room <? zlen (frames msgs) + zlen msg + 4
    then let '(msgs', rs) := spec_cq room msgs ops' in (msgs', (0, []) :: rs)
    else let '(msgs', rs) := spec_cq room (msgs ++ [msg]) ops' in (msgs', (zlen msg, []) :: rs)
  | CPop len :: ops' =>
    match msgs with
    | [] => let '(msgs', rs) := spec_cq room msgs ops' in (msgs', (0, []) :: rs)
    | m :: rest =>
      if (len =? 0) || (len <? zlen m)
      then let '(msgs', rs) := spec_cq room msgs ops' in (msgs', (zlen m, []) :: rs)
      else let '(msgs', rs) := spec_cq room rest ops' in (msgs', (zlen m, m) :: rs)
    end
  end.

Lemma run_cq_spec ops : forall q msgs,
  cq_ok q msgs ->
  exists q', run_cq q ops = Ret (q', (spec_cq (csize q - 4) msgs ops).2) /\
    cq_ok q' (spec_cq (csize q - 4) msgs ops).1.
Proof.
  induction ops as [|[msg|len] ops IH]; intros q msgs Hok; cbn [run_cq spec_cq]; [eauto| |].
  - pose proof (agCQ_push_spec q msgs msg Hok) as Hp.
    destruct (csize q - 4 <? zlen (frames msgs) + zlen msg + 4).
    + rewrite Hp. cbn [mbind outcome_bind]. destruct (IH q msgs Hok) as (q' & -> & Hq').
      destruct (spec_cq (csize q - 4) msgs ops). eexists. split; [reflexivity|exact Hq'].
    + destruct Hp as (q1 & -> & Hok1 & Hs1). cbn [mbind outcome_bind].
      destruct (IH q1 _ Hok1) as (q' & -> & Hq'). rewrite Hs1 in *.
      destruct (spec_cq (csize q - 4) (msgs ++ [msg]) ops). eexists. split; [reflexivity|exact Hq'].
  - destruct msgs as [|m rest].
    + rewrite agCQ_pop_empty by assumption. cbn [mbind outcome_bind]. destruct (IH q [] Hok) as (q' & -> & Hq').
      destruct (spec_cq (csize q - 4) [] ops). eexists. split; [reflexivity|exact Hq'].
    + pose proof (agCQ_pop_spec q m rest len Hok) as Hp. destruct ((len =? 0) || (len <? zlen m)).
      * rewrite Hp. cbn [mbind outcome_bind]. destruct (IH q _ Hok) as (q' & -> & Hq').
        destruct (spec_cq (csize q - 4) (m :: rest) ops). eexists. split; [reflexivity|exact Hq'].
      * destruct Hp as (q1 & -> & Hok1 & Hs1). cbn [mbind outcome_bind].
        destruct (IH q1 _ Hok1) as (q' & -> & Hq'). rewrite Hs1 in *.
        destruct (spec_cq (csize q - 4) rest ops). eexists. split; [reflexivity|exact Hq'].
Qed.

(** C35: The ring is a bounded FIFO of whole messages: for any block of at least 28
    bytes (below 4 GiB) and any sequence of pushes and pops, the results and
    the bytes popped are those of a list of messages, where a push that does
    not fit returns 0 and changes nothing, and a pop into a buffer that is too
    small returns the length of the oldest message and leaves it. *)
Theorem codequeue_refines_fifo ptr ops :
  28 <= zlen ptr < 2 ^ 32 ->
  exists q q', agCQ_open true ptr = Some q /\
    run_cq q ops = Ret (q', (spec_cq (zlen ptr - 28) [] ops).2) /\
    cq_ok q' (spec_cq (zlen ptr - 28) [] ops).1.
Proof.
  intros Hp. destruct (agCQ_open_spec ptr Hp) as (q & Ho & Hok & Hs).
  destruct (run_cq_spec ops q [] Hok) as (q' & Hr & Hok').
  rewrite Hs in Hr, Hok'. replace (zlen ptr - 24 - 4) with (zlen ptr - 28) in * by lia. eauto.
Qed.

Definition sample_ops : list cq_op :=
  [CPush [1; 2; 3]; CPush [4; 5; 6; 7]; CPush [9; 9]; CPop 2; CPop 10; CPush [8; 8; 8]; CPop 10; CPop 10; CPop 10].

Lemma codequeue_refines_fifo_witness :
  exists q q', agCQ_open true (repeat 0 44) = Some q /\
    run_cq q sample_ops
      = Ret (q', [(3, []); (4, []); (0, []); (3, []); (3, [1; 2; 3]); (3, []); (4, [4; 5; 6; 7]); (3, [8; 8; 8]); (0, [])]) /\
    cq_ok q' [].
Proof.
  destruct (codequeue_refines_fifo (repeat 0 44) sample_ops) as (q & q' & Ho & Hr & Hok);
    [vm_compute; split; [discriminate|reflexivity]|].
  exists q, q'. split; [exact Ho|].
  change (spec_cq (zlen (repeat 0 44) - 28) [] sample_ops) with (spec_cq 16 [] sample_ops) in Hr, Hok.
  replace (spec_cq 16 [] sample_ops)
    with (@nil (list Z), [(3, []); (4, []); (0, []); (3, []); (3, [1; 2; 3]); (3, []); (4, [4; 5; 6; 7]); (3, [8; 8; 8]); (0, [])])
    in Hr, Hok by (vm_compute; reflexivity).
  split; [exact Hr|exact Hok].
Defined.

(** [agCQ_pushv] writes the message length at offset 0 of the ring instead of at
    the end of the queue: after a plain push, it overwrites the length of the
    queued message, and the pops that follow return the wrong messages, while
    the same two messages pushed by [agCQ_push] are both delivered. *)
Theorem agCQ_pushv_corrupts :
  exists q, agCQ_open true (repeat 0 64) = Some q /\
    (exists q2, (q1 ← agCQ_push q [1; 2; 3]; agCQ_pushv q1.1 [[4]; [5; 6; 7; 8; 9]]) = Ret (q2, 6) /\
      exists q3 m, agCQ_pop q2 16 = Ret (q3, 6, m) /\ m <> [1; 2; 3]) /\
    (exists q2, (q1 ← agCQ_push q [1; 2; 3]; agCQ_push q1.1 [4; 5; 6; 7; 8; 9]) = Ret (q2, 6) /\
      exists q3, agCQ_pop q2 16 = Ret (q3, 3, [1; 2; 3]) /\
      exists q4, agCQ_pop q3 16 = Ret (q4, 6, [4; 5; 6; 7; 8; 9])).
Proof.
  eexists. split; [reflexivity|]. split.
  - eexists. split; [vm_compute; reflexivity|]. eexists _, _. split; [vm_compute; reflexivity|discriminate].
  - eexists. split; [vm_compute; reflexivity|]. eexists. split; [vm_compute; reflexivity|].
    eexists. vm_compute. reflexivity.
Qed.
