(* ===== verification/Lrm.v ===== *)
(** * Resource handles: [framework/lrm.c]

    A fixed pool of slots handed out under 32-bit ids.  The id of a slot is its
    index plus a multiple of the pool size that grows at every release, so that
    an id that was released stops being valid.  Idle slots are chained through
    their [next] pointers; a slot in use has a null [next]. *)
From S2P Require Import Prelude.

(** The values of a [struct lresource *]: null, the address of
    [resource_list_end], or a slot. *)
Inductive rptr := RNull | REnd | RAt (index : nat).

#[global] Instance rptr_eq_dec : EqDecision rptr.
Proof. solve_decision. Defined.

Record lresource := mk_res { res_id : Z; res_next : rptr }.

(** [struct lrm]; the data of slot [i] is identified by [i]. *)
Record lrm := mk_lrm { lmax : Z; idle : rptr; slots : list lresource }.

Definition INVALID_ID : Z := 2 ^ 32 - 1.

(** [init_lrm_idle_list], from the last slot to the first. *)
Fixpoint init_lrm_idle_list (i : nat) (m : lrm) : lrm :=
  match i with
  | O => m
  | S i' => init_lrm_idle_list i'
              (mk_lrm (lmax m) (RAt i') (<[i' := mk_res (Z.of_nat i') (idle m)]> (slots m)))
  end.

Definition _agRM_new (max : Z) : lrm :=
  init_lrm_idle_list (Z.to_nat max) (mk_lrm max REnd (repeat (mk_res 0 RNull) (Z.to_nat max))).

Definition get_lresource_by_index (m : lrm) (index : Z) : option nat :=
  if (index <? 0) || (lmax m <=? index) then None else Some (Z.to_nat index).

(** The slot of an id; [res->id] is read without a null test.  A pool of size 0
    divides by zero. *)
Definition get_lresource (m : lrm) (id : Z) : outcome (option nat) :=
  if lmax m =? 0 then Undef
  else
    let idx := i32 (id mod lmax m) in
    i ← deref (get_lresource_by_index m idx);
    res ← deref (slots m !! i);
    if negb (res_id res =? id) then Ret None else Ret (Some i).

Definition _agR_new (m : lrm) : outcome (lrm * Z) :=
  match idle m with
  | REnd => Ret (m, INVALID_ID)
  | RNull => Undef
  | RAt i =>
    res ← deref (slots m !! i);
    Ret (mk_lrm (lmax m) (res_next res) (<[i := mk_res (res_id res) RNull]> (slots m)), res_id res)
  end.

Definition _agR_get (m : lrm) (id : Z) : outcome (option nat) := get_lresource m id.

Definition _agR_free (m : lrm) (id : Z) : outcome lrm :=
  r ← get_lresource m id;
  match r with
  | None => Ret m
  | Some i =>
    res ← deref (slots m !! i);
    let nid := u32 (res_id res + lmax m) in
    let nid := if nid =? INVALID_ID then u32 (nid + lmax m) else nid in
    Ret (mk_lrm (lmax m) (RAt i) (<[i := mk_res nid (idle m)]> (slots m)))
  end.

(** The loop of [_agR_next] over the slots from [index]. *)
Fixpoint next_in_use (l : list lresource) : Z :=
  match l with
  | [] => INVALID_ID
  | res :: l' => if decide (res_next res = RNull) then res_id res else next_in_use l'
  end.

Definition _agR_next (m : lrm) (ite : Z) : outcome Z :=
  index ← (if ite =? INVALID_ID then Ret 0
           else if lmax m =? 0 then Undef
           else Ret (ite mod lmax m + 1));
  Ret (next_in_use (drop (Z.to_nat index) (slots m))).

(** ** Invariant *)

(** The idle slots in the order of the chain that starts at [p]. *)
Fixpoint chain (slots : list lresource) (p : rptr) (l : list nat) : Prop :=
  match l with
  | [] => p = REnd
  | i :: l' => p = RAt i /\ exists res, slots !! i = Some res /\ chain slots (res_next res) l'
  end.

(** [idles] are the idle slots; ids are below [bound]. *)
Record lrm_ok (bound : Z) (m : lrm) (idles : list nat) : Prop := {
  lrm_max : 0 < lmax m < 2 ^ 31 /\ length (slots m) = Z.to_nat (lmax m);
  lrm_ids : forall i res, slots m !! i = Some res ->
    res_id res mod lmax m = Z.of_nat i /\ 0 <= res_id res < bound;
  lrm_chain : chain (slots m) (idle m) idles;
  lrm_nodup : NoDup idles;
  lrm_used : forall i res, slots m !! i = Some res -> (res_next res = RNull <-> i ∉ idles) }.

(** The live handles: id and slot of the slots in use. *)
Definition live (m : lrm) (id : Z) : Prop :=
  exists i res, slots m !! i = Some res /\ res_id res = id /\ res_next res = RNull.

Lemma chain_insert slots p l i res :
  i ∉ l -> chain slots p l -> chain (<[i := res]> slots) p l.
Proof.
  revert p. induction l as [|j l IH]; intros p Hi; cbn [chain]; [auto|].
  intros (-> & r & Hr & Hc). split; [reflexivity|]. exists r.
  rewrite list_lookup_insert_ne by (intros ->; apply Hi; left). split; [exact Hr|].
  apply IH; [|exact Hc]. intros Hin. apply Hi. now right.
Qed.

Lemma chain_lookup slots p l i : chain slots p l -> i ∈ l -> is_Some (slots !! i).
Proof.
  revert p. induction l as [|j l IH]; intros p Hc Hin; [inversion Hin|].
  destruct Hc as (_ & r & Hr & Hc). apply elem_of_cons in Hin as [->|Hin]; eauto.
Qed.

Lemma get_lresource_spec bound m idles id :
  lrm_ok bound m idles -> 0 <= id ->
  exists i res, i = Z.to_nat (id mod lmax m) /\ slots m !! i = Some res /\
    get_lresource m id = Ret (if res_id res =? id then Some i else None).
Proof.
  intros [[Hm Hl] Hid Hc Hn Hu] H0. unfold get_lresource.
  destruct (Z.eqb_spec (lmax m) 0); [lia|]. pose proof (Z.mod_pos_bound id (lmax m) ltac:(lia)).
  rewrite i32_small by lia. unfold get_lresource_by_index.
  destruct (Z.ltb_spec (id mod lmax m) 0); [lia|]. destruct (Z.leb_spec (lmax m) (id mod lmax m)); [lia|].
  cbn [orb deref mbind outcome_bind].
  destruct (lookup_lt_is_Some_2 (slots m) (Z.to_nat (id mod lmax m))) as (res & Hr); [lia|].
  exists (Z.to_nat (id mod lmax m)), res. rewrite Hr. cbn [deref mbind outcome_bind].
  split; [reflexivity|]. split; [reflexivity|]. destruct (res_id res =? id); reflexivity.
Qed.

(** A live id is answered with its own slot. *)
Lemma get_live bound m idles id i res :
  lrm_ok bound m idles -> slots m !! i = Some res -> res_id res = id -> get_lresource m id = Ret (Some i).
Proof.
  intros Hok Hi Hid. destruct (lrm_ids _ _ _ Hok i res Hi) as [Hmod Hr]. subst id.
  destruct (get_lresource_spec bound m idles (res_id res) Hok) as (j & r & -> & Hj & ->); [lia|].
  rewrite Hmod, Nat2Z.id in *. rewrite Hi in Hj. injection Hj as <-. now rewrite Z.eqb_refl.
Qed.

(** ** Operations on a well-formed pool *)

Lemma chain_used bound m idles i :
  lrm_ok bound m idles -> i ∈ idles -> exists res, slots m !! i = Some res /\ res_next res <> RNull.
Proof.
  intros Hok Hi. destruct (chain_lookup _ _ _ _ (lrm_chain _ _ _ Hok) Hi) as (res & Hr).
  exists res. split; [exact Hr|]. intros Hn. now apply (lrm_used _ _ _ Hok i res Hr) in Hn.
Qed.

Lemma agR_new_full bound m : lrm_ok bound m [] -> _agR_new m = Ret (m, INVALID_ID).
Proof. intros Hok. unfold _agR_new. now rewrite (lrm_chain _ _ _ Hok). Qed.

Lemma agR_new_spec bound m i rest :
  lrm_ok bound m (i :: rest) ->
  exists res m', slots m !! i = Some res /\ _agR_new m = Ret (m', res_id res) /\ lrm_ok bound m' rest /\
    slots m' = <[i := mk_res (res_id res) RNull]> (slots m) /\ lmax m' = lmax m.
Proof.
  intros Hok. pose proof Hok as [Hm Hid Hc Hn Hu]. destruct Hc as (Hp & res & Hr & Hc).
  apply list.NoDup_cons in Hn as [Hni Hn].
  exists res. unfold _agR_new. rewrite Hp, Hr. cbn [deref mbind outcome_bind].
  eexists. split; [reflexivity|]. split; [reflexivity|]. split; [|split; reflexivity].
  constructor; cbn [lmax slots idle].
  - now rewrite length_insert.
  - intros j r Hj. apply list_lookup_insert_Some in Hj as [(<- & <- & _)|(_ & Hj)]; [|now apply Hid].
    cbn. now apply Hid.
  - now apply chain_insert.
  - exact Hn.
  - intros j r Hj. apply list_lookup_insert_Some in Hj as [(<- & <- & _)|(Hne & Hj)].
    + cbn. tauto.
    + rewrite (Hu j r Hj). split; intros H Hin; apply H; [now right|].
      apply elem_of_cons in Hin as [->|Hin]; [congruence|exact Hin].
Qed.

Lemma agR_free_spec bound m idles i res :
  lrm_ok bound m idles -> bound + lmax m <= INVALID_ID -> slots m !! i = Some res -> i ∉ idles ->
  exists m', _agR_free m (res_id res) = Ret m' /\ lrm_ok (bound + lmax m) m' (i :: idles) /\
    slots m' = <[i := mk_res (res_id res + lmax m) (idle m)]> (slots m) /\ lmax m' = lmax m.
Proof.
  intros Hok Hb Hi Hni. unfold _agR_free. rewrite (get_live bound m idles _ i res Hok Hi eq_refl).
  cbn [mbind outcome_bind]. rewrite Hi. cbn [deref mbind outcome_bind].
  pose proof Hok as [[Hm Hl] Hid Hc Hn Hu]. destruct (Hid i res Hi) as [Hmod Hr]. unfold INVALID_ID in *.
  rewrite u32_small by lia. destruct (Z.eqb_spec (res_id res + lmax m) (2 ^ 32 - 1)); [lia|].
  eexists. split; [reflexivity|]. split; [|split; reflexivity].
  pose proof (lookup_lt_Some _ _ _ Hi) as Hlt.
  assert (Hend : idle m <> RNull).
  { destruct idles; cbn in Hc; [now rewrite Hc|]. destruct Hc as [-> _]. discriminate. }
  constructor; cbn [lmax slots idle].
  - now rewrite length_insert.
  - intros j r Hj. apply list_lookup_insert_Some in Hj as [(<- & <- & _)|(_ & Hj)].
    + cbn. rewrite <- (Z.mul_1_l (lmax m)) at 1. rewrite Z.mod_add by lia. lia.
    + destruct (Hid j r Hj). lia.
  - split; [reflexivity|]. eexists. split; [now apply list_lookup_insert_eq|]. cbn. now apply chain_insert.
  - now apply list.NoDup_cons.
  - intros j r Hj. apply list_lookup_insert_Some in Hj as [(<- & <- & _)|(Hne & Hj)].
    + cbn. split; [congruence|]. intros H. destruct H. left.
    + rewrite (Hu j r Hj). split; intros H Hin; apply H; [|now right].
      apply elem_of_cons in Hin as [->|Hin]; [congruence|exact Hin].
Qed.

(** Releasing an id that is not the current id of its slot changes nothing. *)
Lemma agR_free_stale bound m idles id :
  lrm_ok bound m idles -> 0 <= id ->
  (forall res, slots m !! Z.to_nat (id mod lmax m) = Some res -> res_id res <> id) ->
  _agR_free m id = Ret m.
Proof.
  intros Hok H0 Hne. unfold _agR_free.
  destruct (get_lresource_spec bound m idles id Hok H0) as (i & res & -> & Hi & ->).
  destruct (Z.eqb_spec (res_id res) id) as [E|_]; [now apply Hne in Hi|reflexivity].
Qed.

(** ** A new pool *)

Lemma init_idle_spec n : forall m l,
  (n <= length (slots m))%nat -> chain (slots m) (idle m) l -> (forall i, i ∈ l -> (n <= i)%nat) ->
  let m' := init_lrm_idle_list n m in
  lmax m' = lmax m /\ length (slots m') = length (slots m) /\ chain (slots m') (idle m') (seq 0 n ++ l) /\
  (forall i, (n <= i)%nat -> slots m' !! i = slots m !! i) /\
  (forall i, (i < n)%nat -> exists p, slots m' !! i = Some (mk_res (Z.of_nat i) p) /\ (idle m <> RNull -> p <> RNull)).
Proof.
  induction n as [|n IH]; intros m l Hn Hc Hl; cbn [init_lrm_idle_list].
  { repeat split; auto. intros i Hi. lia. }
  set (m1 := mk_lrm _ _ _).
  destruct (IH m1 (n :: l)) as (Hmax & Hlen & Hch & Hhi & Hlo).
  - cbn [slots m1]. rewrite length_insert. lia.
  - cbn [slots idle m1]. split; [reflexivity|]. eexists. split; [apply list_lookup_insert_eq; lia|].
    cbn. apply chain_insert; [intros H; apply Hl in H; lia|exact Hc].
  - intros i Hi. apply elem_of_cons in Hi as [->|Hi]; [lia|]. apply Hl in Hi. lia.
  - cbn [slots m1] in Hlen, Hhi. rewrite length_insert in Hlen.
    split; [exact Hmax|]. split; [exact Hlen|]. split; [|split].
    + rewrite seq_S, <- (assoc_L (++)). exact Hch.
    + intros i Hi. rewrite Hhi by lia. now rewrite list_lookup_insert_ne by lia.
    + intros i Hi. destruct (decide (i = n)) as [->|Hne].
      * exists (idle m). rewrite Hhi by lia. now rewrite list_lookup_insert_eq by lia.
      * destruct (Hlo i ltac:(lia)) as (p & Hp & Hnn). exists p. split; [exact Hp|]. intros _. now apply Hnn.
Qed.

Lemma agRM_new_ok max :
  0 < max < 2 ^ 31 -> lrm_ok max (_agRM_new max) (seq 0 (Z.to_nat max)) /\ lmax (_agRM_new max) = max.
Proof.
  intros Hm. unfold _agRM_new.
  destruct (init_idle_spec (Z.to_nat max) (mk_lrm max REnd (repeat (mk_res 0 RNull) (Z.to_nat max))) [])
    as (Hmax & Hlen & Hch & _ & Hlo).
  - cbn [slots]. now rewrite repeat_length.
  - reflexivity.
  - intros i Hi. inversion Hi.
  - cbn [lmax slots] in Hmax, Hlen. rewrite repeat_length in Hlen. rewrite app_nil_r in Hch.
    split; [|exact Hmax].
    assert (Hslot : forall i res, slots (init_lrm_idle_list (Z.to_nat max) (mk_lrm max REnd (repeat (mk_res 0 RNull) (Z.to_nat max)))) !! i = Some res ->
      (i < Z.to_nat max)%nat /\ res_id res = Z.of_nat i /\ res_next res <> RNull).
    { intros i res Hi. pose proof (lookup_lt_Some _ _ _ Hi) as Hlt. rewrite Hlen in Hlt.
      destruct (Hlo i Hlt) as (p & Hp & Hnn). rewrite Hp in Hi. injection Hi as <-. cbn.
      split; [exact Hlt|]. split; [reflexivity|]. now apply Hnn. }
    constructor; rewrite ?Hmax; auto.
    + intros i res Hi. destruct (Hslot i res Hi) as (Hlt & -> & _). rewrite Z.mod_small; lia.
    + apply NoDup_seq.
    + intros i res Hi. destruct (Hslot i res Hi) as (Hlt & _ & Hne). split; [congruence|].
      intros Hnin. destruct Hnin. apply elem_of_seq. lia.
Qed.

(** ** Clients *)

(** A pool with the ids it has issued and the ids that were released.  Clients
    release ids they were given, possibly more than once. *)
Inductive lrm_step : lrm * list Z * list Z -> lrm * list Z * list Z -> Prop :=
| step_new m m' id issued released :
    _agR_new m = Ret (m', id) -> id <> INVALID_ID ->
    lrm_step (m, issued, released) (m', id :: issued, released)
| step_full m m' issued released :
    _agR_new m = Ret (m', INVALID_ID) -> lrm_step (m, issued, released) (m', issued, released)
| step_free m m' id issued released :
    id ∈ issued -> _agR_free m id = Ret m' ->
    lrm_step (m, issued, released) (m', issued, id :: released).

Inductive lrm_reach (max : Z) : nat -> lrm * list Z * list Z -> Prop :=
| reach_new : lrm_reach max 0 (_agRM_new max, [], [])
| reach_step n s s' : lrm_reach max n s -> lrm_step s s' -> lrm_reach max (S n) s'.

(** An issued id is at most the current id of its slot; it is below it when the
    slot is idle, and exactly when it was released. *)
Definition issued_ok (m : lrm) (idles : list nat) (issued released : list Z) : Prop :=
  forall id, id ∈ issued -> exists i res, slots m !! i = Some res /\ id mod lmax m = Z.of_nat i /\
    0 <= id <= res_id res /\ (i ∈ idles -> id < res_id res) /\ (id ∈ released <-> id < res_id res).

Record clients_ok (m : lrm) (idles : list nat) (issued released : list Z) : Prop := {
  cl_issued : issued_ok m idles issued released;
  cl_nodup : NoDup issued;
  cl_released : forall id, id ∈ released -> id ∈ issued }.

Lemma lrm_ok_mono b b' m idles : b <= b' -> lrm_ok b m idles -> lrm_ok b' m idles.
Proof.
  intros Hb [? Hid ? ? ?]. constructor; auto. intros i res Hi. destruct (Hid i res Hi). split; [assumption|lia].
Qed.

Lemma new_preserves bound m i rest res m' issued released :
  lrm_ok bound m (i :: rest) -> slots m !! i = Some res -> lmax m' = lmax m ->
  slots m' = <[i := mk_res (res_id res) RNull]> (slots m) ->
  clients_ok m (i :: rest) issued released -> clients_ok m' rest (res_id res :: issued) released.
Proof.
  intros Hok Hi Hmax Hs [Hiss Hnd Hrel]. pose proof (lookup_lt_Some _ _ _ Hi) as Hlt.
  pose proof (lrm_nodup _ _ _ Hok) as Hndi. apply list.NoDup_cons in Hndi as [Hni _].
  destruct (lrm_ids _ _ _ Hok i res Hi) as [Hmod Hr].
  assert (Hfresh : res_id res ∉ issued).
  { intros Hin. destruct (Hiss _ Hin) as (j & r & Hj & Hxm & Hxr & Hxi & _).
    assert (j = i) as -> by (apply Nat2Z.inj; congruence). rewrite Hi in Hj. injection Hj as <-.
    specialize (Hxi ltac:(left)). lia. }
  constructor; [|now apply list.NoDup_cons|intros x Hx; right; auto].
  intros x Hx. rewrite Hs, Hmax. apply elem_of_cons in Hx as [->|Hx].
  - exists i. eexists. split; [now apply list_lookup_insert_eq|]. cbn. repeat split; [assumption|lia..| | |].
    + intros Hin. now apply Hni in Hin.
    + intros Hin. now apply Hrel, Hfresh in Hin.
    + lia.
  - destruct (Hiss x Hx) as (j & r & Hj & Hxm & Hxr & Hxi & Hrl). destruct (decide (j = i)) as [->|Hne'].
    + exists i. eexists. split; [now apply list_lookup_insert_eq|]. rewrite Hi in Hj. injection Hj as <-.
      cbn. repeat split; [assumption|lia..| |apply Hrl|apply Hrl]. intros Hin. now apply Hni in Hin.
    + exists j, r. rewrite list_lookup_insert_ne by congruence.
      repeat split; [assumption..|lia|lia| |apply Hrl|apply Hrl]. intros Hin. apply Hxi. now right.
Qed.

Lemma free_preserves m idles i res p m' issued released :
  slots m !! i = Some res -> i ∉ idles -> 0 < lmax m -> lmax m' = lmax m ->
  slots m' = <[i := mk_res (res_id res + lmax m) p]> (slots m) -> res_id res mod lmax m = Z.of_nat i ->
  res_id res ∈ issued -> clients_ok m idles issued released ->
  clients_ok m' (i :: idles) issued (res_id res :: released).
Proof.
  intros Hi Hni Hm Hmax Hs Hmod Hin [Hiss Hnd Hrel]. pose proof (lookup_lt_Some _ _ _ Hi) as Hlt.
  constructor; [|exact Hnd|intros x Hx; apply elem_of_cons in Hx as [->|Hx]; auto].
  intros x Hx. rewrite Hs, Hmax. destruct (Hiss x Hx) as (j & r & Hj & Hxm & Hxr & Hxi & Hrl).
  destruct (decide (j = i)) as [->|Hne'].
  - exists i. eexists. split; [now apply list_lookup_insert_eq|]. rewrite Hi in Hj. injection Hj as <-. cbn.
    split; [assumption|]. split; [lia|]. split; [lia|]. rewrite elem_of_cons. split; [lia|]. intros _.
    destruct (Z.eq_dec x (res_id res)); [now left|]. right. apply Hrl. lia.
  - exists j, r. rewrite list_lookup_insert_ne by congruence. rewrite !elem_of_cons.
    repeat split; [assumption..|lia|lia| | |].
    + intros [->|Hij]; [congruence|auto].
    + intros [->|Hx']; [|now apply Hrl]. destruct Hne'. apply Nat2Z.inj. congruence.
    + intros Hlt'. right. now apply Hrl.
Qed.

Lemma step_preserves bound m issued released m' issued' released' idles :
  lrm_ok bound m idles -> clients_ok m idles issued released -> bound + lmax m <= INVALID_ID ->
  lrm_step (m, issued, released) (m', issued', released') ->
  exists idles', lrm_ok (bound + lmax m) m' idles' /\ lmax m' = lmax m /\ clients_ok m' idles' issued' released'.
Proof.
  intros Hok Hcl Hb Hstep. destruct (lrm_max _ _ _ Hok) as [Hm Hlen].
  assert (Hmono := lrm_ok_mono bound (bound + lmax m)).
  inversion Hstep as [? ? id ? ? Hnew Hne|? ? ? ? Hnew|? ? id ? ? Hin Hfree]; subst.
  - destruct idles as [|i rest]; [rewrite (agR_new_full _ _ Hok) in Hnew; congruence|].
    destruct (agR_new_spec _ _ _ _ Hok) as (res & m1 & Hi & Hr & Hok1 & Hs1 & Hm1).
    rewrite Hnew in Hr. injection Hr as -> ->. exists rest. split; [apply Hmono; [lia|exact Hok1]|].
    split; [exact Hm1|]. eapply new_preserves; eauto.
  - destruct idles as [|i rest].
    + rewrite (agR_new_full _ _ Hok) in Hnew. injection Hnew as <-. exists []. split; [apply Hmono; [lia|assumption]|auto].
    + destruct (agR_new_spec _ _ _ _ Hok) as (res & m1 & Hi & Hr & _). rewrite Hnew in Hr. injection Hr as _ E.
      destruct (lrm_ids _ _ _ Hok i res Hi) as [_ Hr]. unfold INVALID_ID in *. lia.
  - destruct (cl_issued _ _ _ _ Hcl id Hin) as (i & res & Hi & Hmod & Hle & Hidle & Hrl).
    destruct (decide (res_id res = id)) as [E|Hne].
    + assert (Hni : i ∉ idles) by (intros Hx; specialize (Hidle Hx); lia).
      destruct (agR_free_spec _ _ _ _ _ Hok Hb Hi Hni) as (m1 & Hr & Hok1 & Hs1 & Hm1).
      rewrite E, Hfree in Hr. injection Hr as <-. exists (i :: idles). split; [exact Hok1|]. split; [exact Hm1|].
      rewrite <- E. rewrite <- E in Hmod, Hin. eapply free_preserves; eauto; lia.
    + rewrite (agR_free_stale _ _ _ id Hok) in Hfree; [|lia|].
      2:{ intros r Hr. rewrite Hmod, Nat2Z.id, Hi in Hr. now injection Hr as <-. }
      injection Hfree as <-. exists idles. split; [apply Hmono; [lia|assumption]|]. split; [reflexivity|].
      assert (Hr : id ∈ released) by (apply Hrl; lia). destruct Hcl as [Hiss Hnd Hrel]. constructor; [|exact Hnd|].
      * intros x Hx. destruct (Hiss x Hx) as (j & r & ? & ? & ? & ? & Hxr). exists j, r. repeat (split; [assumption|]).
        rewrite elem_of_cons, <- Hxr. split; [intros [->|?]; assumption|auto].
      * intros x Hx. apply elem_of_cons in Hx as [->|Hx]; auto.
Qed.

Lemma reach_ok max n s :
  0 < max < 2 ^ 31 -> lrm_reach max n s -> (Z.of_nat n + 1) * max <= INVALID_ID ->
  exists idles, lrm_ok ((Z.of_nat n + 1) * max) s.1.1 idles /\ lmax s.1.1 = max /\
    clients_ok s.1.1 idles s.1.2 s.2.
Proof.
  intros Hm Hr. induction Hr as [|n [[m issued] released] [[m' issued'] released'] Hr IH Hstep]; intros Hb.
  - destruct (agRM_new_ok max Hm) as [Hok Hmax]. exists (seq 0 (Z.to_nat max)).
    replace ((Z.of_nat 0 + 1) * max) with max by lia. split; [exact Hok|]. split; [exact Hmax|].
    constructor; [intros x Hx; inversion Hx|apply NoDup_nil_2|intros x Hx; inversion Hx].
  - destruct IH as (idles & Hok & Hmax & Hcl); [lia|]. cbn [fst snd] in *.
    replace ((Z.of_nat (S n) + 1) * max) with ((Z.of_nat n + 1) * max + max) in * by lia.
    destruct (step_preserves _ _ _ _ _ _ _ _ Hok Hcl ltac:(lia) Hstep) as (idles' & ? & ? & ?).
    exists idles'. rewrite Hmax in *. auto.
Qed.

(** C37: Handles are never confused: after any [n] calls of [_agR_new] and
    [_agR_free] on a new pool, as long as the id counters cannot have wrapped
    and clients only release ids they were given (possibly several times), no
    id was issued twice; an id that was issued and not released is in use,
    [_agR_get] answers it with its own slot, and no other such id has the
    same slot; and from the first release of an id on [_agR_get] answers null and a
    further [_agR_free] changes nothing, even after the slot was issued again. *)
Theorem lrm_handles_safe max n m issued released :
  0 < max < 2 ^ 31 -> (Z.of_nat n + 1) * max <= INVALID_ID -> lrm_reach max n (m, issued, released) ->
  NoDup issued /\
  forall id, id ∈ issued ->
    (id ∉ released -> live m id /\ _agR_get m id = Ret (Some (Z.to_nat (id mod max))) /\
      forall id', id' ∈ issued -> id' ∉ released -> id' mod max = id mod max -> id' = id) /\
    (id ∈ released -> ~ live m id /\ _agR_get m id = Ret None /\ _agR_free m id = Ret m).
Proof.
  intros Hm Hb Hr. destruct (reach_ok max n (m, issued, released) Hm Hr Hb) as (idles & Hok & Hmax & [Hiss Hnd Hrel]).
  cbn [fst snd] in *. split; [exact Hnd|]. intros id Hin.
  destruct (Hiss id Hin) as (i & res & Hi & Hmod & Hle & Hidle & Hrl). split.
  - intros Hnr. assert (E : res_id res = id) by (destruct (Z.eq_dec (res_id res) id); [assumption|destruct Hnr; apply Hrl; lia]).
    split; [|split].
    + exists i, res. split; [exact Hi|]. split; [exact E|]. apply (lrm_used _ _ _ Hok i res Hi).
      intros Hx. specialize (Hidle Hx). lia.
    + unfold _agR_get. rewrite (get_live _ _ _ _ i res Hok Hi E), <- Hmax, Hmod. now rewrite Nat2Z.id.
    + intros id' Hin' Hnr' Hm'. destruct (Hiss id' Hin') as (j & r & Hj & Hmod' & Hle' & _ & Hrl').
      assert (j = i) as -> by (apply Nat2Z.inj; congruence). rewrite Hi in Hj. injection Hj as <-.
      destruct (Z.eq_dec id' id); [assumption|]. destruct Hnr'. apply Hrl'. lia.
  - intros Hir. apply Hrl in Hir as Hlt.
    assert (Hne : forall r, slots m !! Z.to_nat (id mod lmax m) = Some r -> res_id r <> id).
    { intros r Hr'. rewrite Hmod, Nat2Z.id, Hi in Hr'. injection Hr' as <-. lia. }
    split; [|split].
    + intros (j & r & Hj & E & _). destruct (lrm_ids _ _ _ Hok j r Hj) as [Hmod' _]. rewrite E in Hmod'.
      assert (j = i) as -> by (apply Nat2Z.inj; congruence). rewrite Hi in Hj. injection Hj as <-. lia.
    + unfold _agR_get. destruct (get_lresource_spec _ _ _ id Hok) as (j & r & -> & Hj & ->); [lia|].
      apply Hne in Hj. destruct (Z.eqb_spec (res_id r) id); [congruence|reflexivity].
    + eapply agR_free_stale; [eassumption|lia|exact Hne].
Qed.

(** The loop [while ((id = _agR_next(lrm, id)) != INVALID_ID)] from [ite]. *)
Fixpoint lrm_walk (fuel : nat) (m : lrm) (ite : Z) : outcome (list Z) :=
  match fuel with
  | O => NoFuel
  | S fuel' =>
    id ← _agR_next m ite;
    if id =? INVALID_ID then Ret []
    else ids ← lrm_walk fuel' m id; Ret (id :: ids)
  end.

(** The ids of the slots in use, in slot order. *)
Fixpoint ids_in_use (l : list lresource) : list Z :=
  match l with
  | [] => []
  | res :: l' => if decide (res_next res = RNull) then res_id res :: ids_in_use l' else ids_in_use l'
  end.

Lemma next_in_use_spec l :
  (next_in_use l = INVALID_ID /\ ids_in_use l = []) \/
  exists j res, l !! j = Some res /\ next_in_use l = res_id res /\
    ids_in_use l = res_id res :: ids_in_use (drop (S j) l).
Proof.
  induction l as [|r l IH]; cbn [next_in_use ids_in_use]; [auto|].
  destruct (decide (res_next r = RNull)).
  - right. exists 0%nat, r. auto.
  - destruct IH as [IH|(j & res & Hj & Hn & Hi)]; [auto|]. right. exists (S j), res. auto.
Qed.

Lemma walk_from_slot bound m idles fuel : forall k ite,
  lrm_ok bound m idles -> bound <= INVALID_ID ->
  _agR_next m ite = Ret (next_in_use (drop k (slots m))) -> (length (slots m) - k < fuel)%nat ->
  lrm_walk fuel m ite = Ret (ids_in_use (drop k (slots m))).
Proof.
  induction fuel as [|fuel IH]; intros k ite Hok Hb Hn Hf; [lia|]. cbn [lrm_walk]. rewrite Hn. cbn [mbind outcome_bind].
  destruct (next_in_use_spec (drop k (slots m))) as [[-> ->]|(j & res & Hj & -> & ->)]; [reflexivity|].
  rewrite lookup_drop in Hj. destruct (lrm_ids _ _ _ Hok _ _ Hj) as [Hmod Hr].
  destruct (Z.eqb_spec (res_id res) INVALID_ID); [lia|]. pose proof (lookup_lt_Some _ _ _ Hj).
  rewrite (IH (k + j + 1)%nat); [|assumption|assumption| |lia].
  - cbn [mbind outcome_bind]. rewrite drop_drop. now replace (k + S j)%nat with (k + j + 1)%nat by lia.
  - unfold _agR_next. destruct (Z.eqb_spec (res_id res) INVALID_ID); [lia|]. rewrite Hmod.
    destruct (lrm_max _ _ _ Hok). destruct (Z.eqb_spec (lmax m) 0); [lia|]. cbn [mbind outcome_bind]. do 3 f_equal. lia.
Qed.

Lemma elem_of_ids_in_use l id :
  id ∈ ids_in_use l <-> exists i res, l !! i = Some res /\ res_id res = id /\ res_next res = RNull.
Proof.
  induction l as [|r l IH]; cbn [ids_in_use].
  - split; [intros H; inversion H|intros ([] & res & H & _); discriminate].
  - destruct (decide (res_next r = RNull)) as [E|E].
    + rewrite elem_of_cons, IH. split.
      * intros [->|(i & res & Hi & ?)]; [exists 0%nat, r; auto|exists (S i), res; auto].
      * intros ([|i] & res & Hi & Hid & Hn); [left; injection Hi as <-; auto|right; eauto].
    + rewrite IH. split.
      * intros (i & res & Hi & ?). exists (S i), res. auto.
      * intros ([|i] & res & Hi & Hid & Hn); [injection Hi as <-; congruence|eauto].
Qed.

Lemma ids_in_use_slots bound m idles k :
  lrm_ok bound m idles -> NoDup (ids_in_use (drop k (slots m))).
Proof.
  intros Hok. remember (length (slots m) - k)%nat as d eqn:Ed. revert k Ed.
  induction d as [|d IH]; intros k Ed.
  - rewrite drop_ge by lia. apply NoDup_nil_2.
  - destruct (lookup_lt_is_Some_2 (slots m) k) as (r & Hr); [lia|].
    rewrite (drop_S _ _ _ Hr). cbn [ids_in_use]. specialize (IH (S k) ltac:(lia)).
    destruct (decide (res_next r = RNull)); [|exact IH]. apply list.NoDup_cons. split; [|exact IH].
    intros Hin. apply elem_of_ids_in_use in Hin as (j & res & Hj & Hid & _). rewrite lookup_drop in Hj.
    destruct (lrm_ids _ _ _ Hok _ _ Hr) as [H1 _]. destruct (lrm_ids _ _ _ Hok _ _ Hj) as [H2 _].
    rewrite Hid in H2. lia.
Qed.

(** Walking a pool with [_agR_next] from [INVALID_ID] ends and visits every live
    id exactly once and nothing else; [_agR_new] fails only when every slot
    is live. *)
Theorem lrm_next_walks_live bound m idles :
  lrm_ok bound m idles -> bound <= INVALID_ID ->
  exists ids, lrm_walk (S (length (slots m))) m INVALID_ID = Ret ids /\ NoDup ids /\
    (forall id, id ∈ ids <-> live m id) /\
    (_agR_new m = Ret (m, INVALID_ID) <-> zlen ids = lmax m).
Proof.
  intros Hok Hb. exists (ids_in_use (slots m)). split; [|split; [|split]].
  - rewrite <- (drop_0 (slots m)) at 2. eapply walk_from_slot; [eassumption..|reflexivity|lia].
  - rewrite <- (drop_0 (slots m)). eapply ids_in_use_slots. eassumption.
  - intros id. apply elem_of_ids_in_use.
  - destruct (lrm_max _ _ _ Hok) as [Hm Hl].
    assert (Hcount : forall l, zlen (ids_in_use l) = zlen l <-> (forall i r, l !! i = Some r -> res_next r = RNull)).
    { induction l as [|r l IHl]; cbn [ids_in_use].
      - split; [intros _ i r H; destruct i; discriminate|reflexivity].
      - assert (Hle : zlen (ids_in_use l) <= zlen l).
        { clear. induction l as [|r l IH]; cbn [ids_in_use]; [vm_compute; discriminate|]. rewrite zlen_cons.
          destruct (decide _); rewrite ?zlen_cons; lia. }
        destruct (decide (res_next r = RNull)) as [E|E]; rewrite !zlen_cons.
        + split; [|intros H; f_equal; apply IHl; intros i; apply (H (S i))].
          intros H [|i] r' Hi; [injection Hi as <-; exact E|]. apply (proj1 IHl) with (i := i); [lia|exact Hi].
        + split; [lia|]. intros H. destruct E. now apply (H 0%nat r). }
    replace (lmax m) with (zlen (slots m)) by (unfold zlen; lia). rewrite Hcount.
    destruct idles as [|i rest].
    + rewrite (agR_new_full _ _ Hok). split; [|reflexivity]. intros _ j r Hj.
      apply (lrm_used _ _ _ Hok j r Hj). intros Hin. inversion Hin.
    + destruct (agR_new_spec _ _ _ _ Hok) as (res & m' & Hi & -> & _). destruct (lrm_ids _ _ _ Hok i res Hi).
      split; [intros [= _ E]; lia|]. intros Hall. specialize (Hall i res Hi).
      apply (lrm_used _ _ _ Hok i res Hi) in Hall. destruct Hall. left.
Qed.

Lemma lrm_next_walks_live_witness :
  exists ids, lrm_walk 4 (_agRM_new 3) INVALID_ID = Ret ids /\ NoDup ids /\
    (forall id, id ∈ ids <-> live (_agRM_new 3) id) /\
    (_agR_new (_agRM_new 3) = Ret (_agRM_new 3, INVALID_ID) <-> zlen ids = 3).
Proof.
  apply (lrm_next_walks_live 3 (_agRM_new 3) (seq 0 3)); [apply (agRM_new_ok 3); lia|unfold INVALID_ID; lia].
Defined.

(** A slot issued, released and issued again. *)
Definition sample_lrm : outcome (lrm * list Z * list Z) :=
  '(m, a) ← _agR_new (_agRM_new 3);
  m ← _agR_free m a;
  '(m, b) ← _agR_new m;
  Ret (m, [b; a], [a]).

Lemma lrm_handles_safe_witness :
  exists m, sample_lrm = Ret (m, [3; 0], [0]) /\ NoDup [3; 0] /\
    _agR_get m 3 = Ret (Some 0%nat) /\ _agR_get m 0 = Ret None /\ _agR_free m 0 = Ret m.
Proof.
  destruct sample_lrm as [[[m l] r]| | |] eqn:E; [|discriminate..].
  exists m. assert (l = [3; 0] /\ r = [0]) as [-> ->] by (vm_compute in E; now injection E). split; [reflexivity|].
  destruct (lrm_handles_safe 3 3 m [3; 0] [0]) as [Hnd H]; [lia|unfold INVALID_ID; lia| |].
  - unfold sample_lrm in E.
    destruct (_agR_new (_agRM_new 3)) as [[m1 a]| | |] eqn:E1; cbn [mbind outcome_bind] in E; [|discriminate..].
    destruct (_agR_free m1 a) as [m2| | |] eqn:E2; cbn [mbind outcome_bind] in E; [|discriminate..].
    destruct (_agR_new m2) as [[m3 b]| | |] eqn:E3; cbn [mbind outcome_bind] in E; [|discriminate..].
    injection E as -> -> ->. eapply reach_step; [eapply reach_step; [eapply reach_step; [apply reach_new|]|]|].
    + eapply step_new; [exact E1|unfold INVALID_ID; lia].
    + eapply step_free; [left|exact E2].
    + eapply step_new; [exact E3|unfold INVALID_ID; lia].
  - split; [exact Hnd|]. destruct (H 3 ltac:(left)) as [H3 _]. destruct (H 0 ltac:(right; left)) as [_ H0].
    split; [apply H3; apply (bool_decide_unpack _); vm_compute; exact I|]. apply H0. left.
Defined.

(** [_agR_free] does not check that the slot is in use: releasing the id an idle
    slot would be issued under next links the slot into the idle chain a
    second time, and the pool then issues one handle twice. *)
Theorem lrm_free_idle_double_issue :
  exists m1 m2 m3, _agR_free (_agRM_new 2) 0 = Ret m1 /\
    _agR_new m1 = Ret (m2, 2) /\ _agR_new m2 = Ret (m3, 2).
Proof. eexists _, _, _. split; [|split]; vm_compute; reflexivity. Qed.

(** The id counters wrap at 32 bits without keeping the residue: in a pool of
    three slots, the id after the wrap of slot 0 belongs to slot 2, so a
    handle just issued resolves to nothing and can never be released. *)
Theorem lrm_wrap_loses_slot :
  exists m1 m2, let m := mk_lrm 3 (RAt 1) [mk_res (INVALID_ID - 3) RNull; mk_res 1 (RAt 2); mk_res 5 REnd] in
    _agR_free m (INVALID_ID - 3) = Ret m1 /\ _agR_new m1 = Ret (m2, 2) /\
    _agR_get m2 2 = Ret None /\ _agR_free m2 2 = Ret m2.
Proof. eexists _, _. cbv zeta. split; [vm_compute; reflexivity|]. repeat split; vm_compute; reflexivity. Qed.
