(* ===== verification/Timer.v ===== *)
(** * The timing wheel: [world/timer.c]

    One list of timers per second of an hour, and the second processed next.
    [module_timer_update] fires the lists of the seconds that have passed.  A
    callback works on the state of the rest of the program and on the wheel; a
    timer's address is its number. *)
From S2P Require Import Prelude Buckets.

Definition MAX_TIMER : Z := 3600 * 1.

Record timer := mk_timer { t_ptr : Z; t_at : Z; t_data : Z }.

#[global] Instance timer_eq_dec : EqDecision timer.
Proof. solve_decision. Defined.

(** [struct TimerManger]; [t_fresh] is the address of the next allocation. *)
Record manager := mk_manager { t_next : Z; timer_list : list (list timer); t_fresh : Z }.

Definition module_timer_load (now : Z) (fresh : Z) : manager :=
  mk_manager now (repeat [] (Z.to_nat MAX_TIMER)) fresh.

Definition timer_max_sec : Z := MAX_TIMER - 1.

(** [x % MAX_TIMER] of a [time_t], truncated as in C, then an [int]. *)
Definition slot_of (at_ : Z) : Z := Z.rem at_ MAX_TIMER.

(** [timer_add]; [None] when the time is out of the wheel's range. *)
Definition timer_add (m : manager) (at_ data : Z) : outcome (manager * option timer) :=
  if (at_ <? t_next m) || (t_next m + MAX_TIMER <=? at_) then Ret (m, None)
  else
    let timer := mk_timer (t_fresh m) at_ data in
    let pos := slot_of at_ in
    if pos <? 0 then Undef
    else
      lst ← deref (timer_list m !! Z.to_nat pos);
      Ret (mk_manager (t_next m) (<[Z.to_nat pos := lst ++ [timer]]> (timer_list m)) (t_fresh m + 1), Some timer).

(** [timer_remove] of a timer that is linked in its list. *)
Definition timer_remove (m : manager) (tm : timer) : outcome manager :=
  let pos := slot_of (t_at tm) in
  if pos <? 0 then Undef
  else
    lst ← deref (timer_list m !! Z.to_nat pos);
    if existsb (fun x => bool_decide (x = tm)) lst then
      Ret (mk_manager (t_next m)
             (<[Z.to_nat pos := List.filter (fun x => negb (bool_decide (x = tm))) lst]> (timer_list m)) (t_fresh m))
    else Undef.

(** A callback gets the time and the data of its timer. *)
Definition callback (S : Type) := Z -> Z -> S -> manager -> outcome (S * manager).

Section Firing.
Context {S : Type} (cb : callback S).

(** [while (list)]: fire and free the detached list. *)
Fixpoint fire_list (s : S) (m : manager) (lst : list timer) : outcome (S * manager) :=
  match lst with
  | [] => Ret (s, m)
  | timer :: lst' => '(s, m) ← cb (t_at timer) (t_data timer) s m; fire_list s m lst'
  end.

(** [for (; manager.next <= now; manager.next++)]; the log has the second that
    was processed and the timer that fired. *)
Fixpoint update_loop (fuel : nat) (s : S) (m : manager) (now : Z) : outcome (S * manager * list (Z * timer)) :=
  match fuel with
  | O => if t_next m <=? now then NoFuel else Ret (s, m, [])
  | Datatypes.S fuel' =>
    if t_next m <=? now then
      let pos := slot_of (t_next m) in
      if pos <? 0 then Undef
      else
        lst ← deref (timer_list m !! Z.to_nat pos);
        let sec := t_next m in
        let m := mk_manager (t_next m) (<[Z.to_nat pos := []]> (timer_list m)) (t_fresh m) in
        '(s, m) ← fire_list s m lst;
        let m := mk_manager (t_next m + 1) (timer_list m) (t_fresh m) in
        '(s, m, log) ← update_loop fuel' s m now;
        Ret (s, m, map (pair sec) lst ++ log)
    else Ret (s, m, [])
  end.

Definition module_timer_update (s : S) (m : manager) (now : Z) : outcome (S * manager * list (Z * timer)) :=
  update_loop (Z.to_nat (now - t_next m + 1)) s m now.
End Firing.

(** ** Invariant *)

(** The timers that wait in the wheel. *)
Definition pending (m : manager) : list timer := concat (timer_list m).

(** Every timer is in the list of its second, and its second is within the hour
    that starts at [next]. *)
Record wheel_ok (m : manager) : Prop := {
  w_length : length (timer_list m) = Z.to_nat MAX_TIMER;
  w_next : 0 <= t_next m;
  w_placed : forall i l t, timer_list m !! i = Some l -> t ∈ l ->
    i = Z.to_nat (t_at t mod MAX_TIMER) /\ t_next m <= t_at t < t_next m + MAX_TIMER }.

Lemma slot_of_mod t : 0 <= t -> slot_of t = t mod MAX_TIMER /\ 0 <= t mod MAX_TIMER < MAX_TIMER.
Proof.
  intros. unfold slot_of. split; [apply Z.rem_mod_nonneg; [lia|unfold MAX_TIMER; lia]|].
  apply Z.mod_pos_bound. unfold MAX_TIMER. lia.
Qed.

(** The list of a second, with the timers of the rest of the wheel. *)
Lemma wheel_slot m t :
  wheel_ok m -> 0 <= t -> exists l, timer_list m !! Z.to_nat (t mod MAX_TIMER) = Some l.
Proof.
  intros Hok Ht. apply lookup_lt_is_Some. rewrite (w_length _ Hok).
  destruct (slot_of_mod t Ht). lia.
Qed.

Lemma timer_add_spec m at_ data :
  wheel_ok m ->
  if (t_next m <=? at_) && (at_ <? t_next m + MAX_TIMER)
  then exists m', let t := mk_timer (t_fresh m) at_ data in
    timer_add m at_ data = Ret (m', Some t) /\ wheel_ok m' /\ t_next m' = t_next m /\
    pending m' ≡ₚ t :: pending m
  else timer_add m at_ data = Ret (m, None).
Proof.
  intros Hok. pose proof (w_next _ Hok). unfold timer_add.
  destruct (Z.leb_spec (t_next m) at_); [|destruct (Z.ltb_spec at_ (t_next m)); [reflexivity|lia]].
  destruct (Z.ltb_spec at_ (t_next m)); [lia|].
  destruct (Z.ltb_spec at_ (t_next m + MAX_TIMER));
    [|destruct (Z.leb_spec (t_next m + MAX_TIMER) at_); [reflexivity|lia]].
  destruct (Z.leb_spec (t_next m + MAX_TIMER) at_); [lia|]. cbn [andb orb].
  destruct (slot_of_mod at_ ltac:(lia)) as [-> Hs]. destruct (Z.ltb_spec (at_ mod MAX_TIMER) 0); [lia|].
  destruct (wheel_slot m at_ Hok ltac:(lia)) as (l & Hl). rewrite Hl. cbn [deref mbind outcome_bind].
  eexists. split; [reflexivity|]. split; [|split; [reflexivity|]].
  - constructor; cbn [timer_list t_next]; [rewrite length_insert; apply (w_length _ Hok)|lia|].
    intros i l' x Hi Ht. apply list_lookup_insert_Some in Hi as [(<- & <- & _)|(_ & Hi)].
    + apply elem_of_app in Ht as [Ht|Ht]; [now apply (w_placed _ Hok _ _ _ Hl)|].
      apply list_elem_of_singleton in Ht as ->. cbn. split; [reflexivity|lia].
    + now apply (w_placed _ Hok _ _ _ Hi).
  - unfold pending. cbn [timer_list]. destruct (concat_insert_split _ _ _ (l ++ [mk_timer (t_fresh m) at_ data]) Hl)
      as (rest & -> & ->). rewrite (Permutation_app_comm l). reflexivity.
Qed.

Lemma timer_add_fresh m at_ data m' x : timer_add m at_ data = Ret (m', Some x) -> x = mk_timer (t_fresh m) at_ data /\ t_fresh m' = t_fresh m + 1.
Proof.
  unfold timer_add. destruct (_ || _); [discriminate|]. destruct (slot_of at_ <? 0); [discriminate|].
  destruct (timer_list m !! _) as [l|]; [|discriminate]. intros [= <- <-]. auto.
Qed.

(** A timer that waits is taken out of the wheel. *)
Lemma timer_remove_spec m t : wheel_ok m -> t ∈ pending m -> NoDup (pending m) ->
  exists m', timer_remove m t = Ret m' /\ wheel_ok m' /\ t_next m' = t_next m /\ t_fresh m' = t_fresh m /\ pending m ≡ₚ t :: pending m'.
Proof.
  intros Hok Ht Hnd. apply elem_of_concat in Ht as (i & l & Hi & Ht). destruct (w_placed _ Hok _ _ _ Hi Ht) as [-> Hr]. pose proof (w_next _ Hok).
  unfold timer_remove. destruct (slot_of_mod (t_at t) ltac:(lia)) as [-> Hs]. rewrite (proj2 (Z.ltb_ge _ _)) by lia. rewrite Hi. cbn [deref mbind outcome_bind].
  rewrite (proj2 (existsb_exists _ _)) by (exists t; split; [now apply list_elem_of_In|now apply bool_decide_eq_true]).
  set (f := fun x => negb (bool_decide (x = t))). eexists. split; [reflexivity|].
  assert (Hl : NoDup l -> l ≡ₚ t :: List.filter f l).
  { clear - Ht. induction l as [|x l IH]; [inversion Ht|]. intros Hnd. apply list.NoDup_cons in Hnd as [Hx Hnd]. cbn [List.filter]. unfold f at 1.
    apply elem_of_cons in Ht as [->|Ht].
    - rewrite bool_decide_true by reflexivity. cbn [negb]. f_equiv. clear - Hx. induction l as [|y l IH]; [reflexivity|]. cbn [List.filter]. unfold f at 1.
      rewrite bool_decide_false by (intros ->; apply Hx; left). cbn [negb]. f_equiv. apply IH. intros Hin. apply Hx. now right.
    - rewrite bool_decide_false by (intros ->; contradiction). cbn [negb]. rewrite (IH Ht Hnd) at 1. apply Permutation_swap. }
  destruct (concat_insert_split _ _ _ (List.filter f l) Hi) as (rest & Hp & Hp').
  assert (Hndl : NoDup l) by (unfold pending in Hnd; rewrite Hp in Hnd; now apply list.NoDup_app in Hnd).
  split; [|split; [reflexivity|split; [reflexivity|]]].
  - constructor; cbn [timer_list t_next]; [rewrite length_insert; apply (w_length _ Hok)|lia|].
    intros j l' x Hj Hx. apply list_lookup_insert_Some in Hj as [(<- & <- & _)|(_ & Hj)]; [|now apply (w_placed _ Hok _ _ _ Hj)].
    apply (w_placed _ Hok _ _ _ Hi). apply list_elem_of_In in Hx. apply List.filter_In in Hx as [Hx _]. now apply list_elem_of_In.
  - unfold pending. cbn [timer_list]. rewrite Hp, Hp'. rewrite (Hl Hndl) at 1. reflexivity.
Qed.

(** What the users of the wheel keep true of the state, the wheel and the timers that are being fired.  A
    callback may add timers for later seconds and remove timers that wait. *)
Record tame {S : Type} (cb : callback S) (now : Z) (I : S -> manager -> list timer -> Prop) : Prop := {
  tame_wheel : forall s m m' l l', I s m l -> t_next m <= t_next m' -> t_fresh m = t_fresh m' -> l ++ pending m ≡ₚ l' ++ pending m' -> I s m' l';
  tame_fire : forall s m t l, wheel_ok m -> t_at t = t_next m -> t_next m <= now -> I s m (t :: l) ->
    exists s' m' added removed, cb (t_at t) (t_data t) s m = Ret (s', m') /\ wheel_ok m' /\ t_next m' = t_next m /\
      pending m' ++ removed ≡ₚ added ++ pending m /\ (forall x, x ∈ added -> t_next m < t_at x) /\ I s' m' l }.

Lemma fire_list_spec {S} (cb : callback S) now I l : tame cb now I -> forall s m,
  wheel_ok m -> t_next m <= now -> (forall t, t ∈ l -> t_at t = t_next m) -> I s m l ->
  exists s' m' added removed, fire_list cb s m l = Ret (s', m') /\ wheel_ok m' /\ t_next m' = t_next m /\
    pending m' ++ removed ≡ₚ added ++ pending m /\ (forall t, t ∈ added -> t_next m < t_at t) /\ I s' m' [].
Proof.
  intros Ht. induction l as [|t l IH]; intros s m Hok Hnow Hat HI; cbn [fire_list].
  { exists s, m, [], []. rewrite app_nil_r. split; [reflexivity|]. split; [exact Hok|]. split; [reflexivity|].
    split; [reflexivity|]. split; [intros x Hx; inversion Hx|exact HI]. }
  destruct (tame_fire _ _ _ Ht s m t l Hok (Hat t ltac:(left)) Hnow HI) as (s1 & m1 & a1 & r1 & -> & Hok1 & Hn1 & Hp1 & Ha1 & HI1).
  cbn [mbind outcome_bind].
  destruct (IH s1 m1 Hok1) as (s2 & m2 & a2 & r2 & -> & Hok2 & Hn2 & Hp2 & Ha2 & HI2); [lia| |exact HI1|].
  { intros x Hx. rewrite Hn1. apply Hat. now right. }
  exists s2, m2, (a2 ++ a1), (r2 ++ r1). split; [reflexivity|]. split; [exact Hok2|]. split; [congruence|]. split; [|split; [|exact HI2]].
  - solve_perm.
  - intros x Hx. apply elem_of_app in Hx as [Hx|Hx]; [rewrite <- Hn1|]; auto.
Qed.

(** Detaching the list of the current second. *)
Lemma detach_spec m :
  wheel_ok m -> exists l, timer_list m !! Z.to_nat (t_next m mod MAX_TIMER) = Some l /\
    (forall t, t ∈ l -> t_at t = t_next m) /\
    let m0 := mk_manager (t_next m) (<[Z.to_nat (t_next m mod MAX_TIMER) := []]> (timer_list m)) (t_fresh m) in
    wheel_ok m0 /\ pending m ≡ₚ l ++ pending m0 /\ (forall t, t ∈ pending m0 -> t_next m < t_at t).
Proof.
  intros Hok. pose proof (w_next _ Hok). destruct (wheel_slot m (t_next m) Hok ltac:(lia)) as (l & Hl).
  pose proof (slot_of_mod (t_next m) ltac:(lia)) as [_ Hs].
  assert (Hmod : forall t, t_next m <= t_at t < t_next m + MAX_TIMER ->
    Z.to_nat (t_next m mod MAX_TIMER) = Z.to_nat (t_at t mod MAX_TIMER) -> t_at t = t_next m).
  { intros t Hr Hp. pose proof (slot_of_mod (t_at t) ltac:(lia)) as [_ Hs'].
    unfold MAX_TIMER in *. Z.div_mod_to_equations. lia. }
  exists l. split; [exact Hl|]. split.
  { intros t Ht. destruct (w_placed _ Hok _ _ _ Hl Ht) as [Hp Hr]. now apply Hmod. }
  cbv zeta. split; [|split].
  - constructor; cbn [timer_list t_next]; [rewrite length_insert; apply (w_length _ Hok)|lia|].
    intros i l' t Hi Ht. apply list_lookup_insert_Some in Hi as [(<- & <- & _)|(_ & Hi)]; [inversion Ht|].
    now apply (w_placed _ Hok _ _ _ Hi).
  - unfold pending. cbn [timer_list]. destruct (concat_insert_split _ _ _ [] Hl) as (rest & -> & ->). reflexivity.
  - intros t Ht. apply elem_of_concat in Ht as (i & l' & Hi & Ht). cbn [timer_list] in Hi.
    apply list_lookup_insert_Some in Hi as [(<- & <- & _)|(Hne & Hi)]; [inversion Ht|].
    destruct (w_placed _ Hok _ _ _ Hi Ht) as [Hp Hr].
    destruct (Z.eq_dec (t_at t) (t_next m)) as [E|]; [|lia]. rewrite E in Hp. congruence.
Qed.

Lemma update_loop_spec {S} (cb : callback S) now I : tame cb now I -> forall fuel s m,
  wheel_ok m -> I s m [] -> now - t_next m + 1 <= Z.of_nat fuel ->
  exists s' m' log added removed, update_loop cb fuel s m now = Ret (s', m', log) /\ wheel_ok m' /\ I s' m' [] /\
    t_next m' = Z.max (t_next m) (now + 1) /\
    (forall sec t, (sec, t) ∈ log -> t_at t = sec /\ t_next m <= sec <= now) /\
    pending m ++ added ≡ₚ log.*2 ++ removed ++ pending m'.
Proof.
  intros Ht. induction fuel as [|fuel IH]; intros s m Hok HI Hf; cbn [update_loop];
    destruct (Z.leb_spec (t_next m) now) as [Hle|Hgt]; [lia| | |].
  1,3: exists s, m, [], [], []; split; [reflexivity|]; split; [exact Hok|]; split; [exact HI|]; split; [lia|];
    split; [intros sec t Hin; inversion Hin|now rewrite app_nil_r].
  pose proof (w_next _ Hok). pose proof (slot_of_mod (t_next m) ltac:(lia)) as [-> Hs].
  destruct (Z.ltb_spec (t_next m mod MAX_TIMER) 0); [lia|].
  destruct (detach_spec m Hok) as (l & -> & Hat & Hok0 & Hp0 & Hlate). cbn [deref mbind outcome_bind].
  set (m0 := mk_manager _ _ _) in *.
  destruct (fire_list_spec cb now I l Ht s m0 Hok0 Hle Hat) as (s1 & m1 & a1 & r1 & -> & Hok1 & Hn1 & Hp1 & Ha1 & HI1).
  { exact (tame_wheel _ _ _ Ht s m m0 [] l HI ltac:(reflexivity) eq_refl Hp0). }
  cbn [mbind outcome_bind]. set (m2 := mk_manager (t_next m1 + 1) _ _).
  assert (Hn2 : t_next m2 = t_next m + 1) by (cbn [t_next m2]; rewrite Hn1; reflexivity).
  assert (Hok2 : wheel_ok m2).
  { constructor; [apply (w_length _ Hok1)|lia|]. intros i l' t Hi Hin. rewrite Hn2.
    destruct (w_placed _ Hok1 _ _ _ Hi Hin) as [Hp Hr]. split; [exact Hp|].
    assert (Hq : t ∈ pending m1 ++ r1) by (apply elem_of_app; left; apply elem_of_concat; eauto). rewrite Hp1 in Hq.
    rewrite Hn1 in Hr. cbn [t_next m0] in Hr.
    apply elem_of_app in Hq as [Hq|Hq]; [apply Ha1 in Hq; cbn in Hq|apply Hlate in Hq]; lia. }
  destruct (IH s1 m2 Hok2) as (s3 & m3 & log & a2 & r2 & -> & Hok3 & HI3 & Hn3 & Hlog & Hp3); [|lia|].
  { apply (tame_wheel _ _ _ Ht s1 m1 m2 [] [] HI1); [cbn; lia|reflexivity|reflexivity]. }
  cbn [mbind outcome_bind]. exists s3, m3, (map (pair (t_next m)) l ++ log), (a1 ++ a2), (r1 ++ r2). split; [reflexivity|]. split; [exact Hok3|]. split; [exact HI3|].
  split; [lia|]. split.
  - intros sec t Hin. apply elem_of_app in Hin as [Hin|Hin].
    + apply list_elem_of_In, in_map_iff in Hin as (x & [= <- <-] & Hx). apply list_elem_of_In in Hx.
      rewrite (Hat x Hx). split; [reflexivity|lia].
    + destruct (Hlog sec t Hin). split; [assumption|lia].
  - change (map (pair (t_next m)) l) with (pair (t_next m) <$> l).
    rewrite fmap_app, <- list_fmap_compose. change (snd ∘ pair (t_next m)) with (@id timer). rewrite list_fmap_id.
    change (pending m2) with (pending m1) in Hp3. solve_perm.
Qed.

Lemma module_timer_load_ok now fresh :
  0 <= now -> wheel_ok (module_timer_load now fresh) /\ pending (module_timer_load now fresh) = [].
Proof.
  intros Hn. split; [|apply concat_repeat_nil].
  constructor; [apply repeat_length|exact Hn|]. intros i l t Hi Ht.
  apply lookup_repeat_nil in Hi as ->. inversion Ht.
Qed.

(** What a user of the wheel knows after an update. *)
Lemma update_spec {S} (cb : callback S) I s m now : wheel_ok m -> tame cb now I -> I s m [] ->
  exists s' m' log added removed, module_timer_update cb s m now = Ret (s', m', log) /\ wheel_ok m' /\ I s' m' [] /\
    t_next m' = Z.max (t_next m) (now + 1) /\
    (forall sec t, (sec, t) ∈ log -> t_at t = sec /\ t_next m <= sec <= now) /\
    pending m ++ added ≡ₚ log.*2 ++ removed ++ pending m' /\
    (forall t, t ∈ pending m' -> now < t_at t).
Proof.
  intros Hok Ht HI. unfold module_timer_update.
  destruct (update_loop_spec cb now I Ht (Z.to_nat (now - t_next m + 1)) s m Hok HI ltac:(lia))
    as (s' & m' & log & added & removed & Hr & Hok' & HI' & Hn & Hlog & Hp).
  exists s', m', log, added, removed. repeat (split; [assumption|]). intros t Hin.
  apply elem_of_concat in Hin as (i & l & Hi & Hin). destruct (w_placed _ Hok' _ _ _ Hi Hin) as [_ Hr']. lia.
Qed.

(** C38: Timers are punctual: on a well-formed wheel, and with callbacks that keep their
    own invariant, schedule only for later seconds and may remove timers that
    wait, [module_timer_update] terminates, fires a timer only in the round of
    its own second, fires every timer that waited or was added meanwhile and
    was not removed, once its time has come, exactly once, keeps the others, and
    leaves a well-formed wheel that starts at the next second and the
    callbacks' invariant. *)
Theorem timer_update_punctual {S} (cb : callback S) I s m now :
  wheel_ok m -> tame cb now I -> I s m [] ->
  exists s' m' log added removed, module_timer_update cb s m now = Ret (s', m', log) /\ wheel_ok m' /\ I s' m' [] /\
    t_next m' = Z.max (t_next m) (now + 1) /\
    (forall sec t, (sec, t) ∈ log -> t_at t = sec /\ t_next m <= sec <= now) /\
    pending m ++ added ≡ₚ log.*2 ++ removed ++ pending m' /\
    (forall t, t ∈ pending m' -> now < t_at t).
Proof.
  intros Hok Ht HI. destruct (update_spec cb I s m now Hok Ht HI) as (s' & m' & log & added & removed & Hr). eauto 10.
Qed.

(** Timer 1 reschedules itself for five seconds later; the state counts. *)
Definition sample_callback : callback Z := fun at_ data s m =>
  if data =? 1 then '(m, _) ← timer_add m (at_ + 5) 2; Ret (s + 1, m) else Ret (s + 1, m).

Definition sample_wheel : manager :=
  match timer_add (module_timer_load 1000 0) 1002 1 with Ret (m, _) => m | _ => module_timer_load 1000 0 end.

Lemma sample_wheel_ok : wheel_ok sample_wheel.
Proof.
  pose proof (timer_add_spec (module_timer_load 1000 0) 1002 1 (proj1 (module_timer_load_ok 1000 0 ltac:(lia)))) as H.
  cbn [t_next module_timer_load] in H. change ((1000 <=? 1002) && (1002 <? 1000 + MAX_TIMER)) with true in H.
  destruct H as (m & He & Hok & _). unfold sample_wheel. now rewrite He.
Qed.

Lemma sample_callback_tame now : tame sample_callback now (fun _ _ _ => True).
Proof.
  constructor; [auto|]. intros s m t l Hok Hat _ _. unfold sample_callback. destruct (t_data t =? 1).
  - pose proof (timer_add_spec m (t_at t + 5) 2 Hok) as Ha. rewrite Hat in *. destruct ((t_next m <=? t_next m + 5) && (t_next m + 5 <? t_next m + MAX_TIMER)).
    + destruct Ha as (m' & -> & Hok' & Hn & Hp). cbn [mbind outcome_bind]. exists (s + 1), m', [mk_timer (t_fresh m) (t_next m + 5) 2], [].
      split; [reflexivity|]. split; [exact Hok'|]. split; [exact Hn|]. split; [rewrite app_nil_r; exact Hp|]. split; [|exact I]. intros x Hx. apply list_elem_of_singleton in Hx as ->. cbn. lia.
    + rewrite Ha. cbn [mbind outcome_bind]. exists (s + 1), m, [], []. split; [reflexivity|]. split; [exact Hok|]. split; [reflexivity|]. split; [now rewrite app_nil_r|].
      split; [intros x Hx; inversion Hx|exact I].
  - exists (s + 1), m, [], []. split; [reflexivity|]. split; [exact Hok|]. split; [reflexivity|]. split; [now rewrite app_nil_r|]. split; [intros x Hx; inversion Hx|exact I].
Qed.

Lemma timer_update_punctual_witness :
  exists s' m' log added removed, module_timer_update sample_callback 0 sample_wheel 1004 = Ret (s', m', log) /\ wheel_ok m' /\ True /\
    t_next m' = 1005 /\
    (forall sec t, (sec, t) ∈ log -> t_at t = sec /\ 1000 <= sec <= 1004) /\
    pending sample_wheel ++ added ≡ₚ log.*2 ++ removed ++ pending m' /\
    (forall t, t ∈ pending m' -> 1004 < t_at t).
Proof. exact (timer_update_punctual sample_callback (fun _ _ _ => True) 0 sample_wheel 1004 sample_wheel_ok (sample_callback_tame 1004) I). Defined.

(** [timer_add] and [timer_remove] *)

(** A time inside the hour that starts at the next second is accepted and the new
    timer joins the pending ones; any other time is refused without effect;
    and removing a timer right after adding it gives the wheel back. *)
Theorem timer_add_remove m at_ data :
  wheel_ok m -> (forall t, t ∈ pending m -> t_ptr t < t_fresh m) ->
  if (t_next m <=? at_) && (at_ <? t_next m + MAX_TIMER)
  then exists m' m'' t, timer_add m at_ data = Ret (m', Some t) /\ t_at t = at_ /\ wheel_ok m' /\
    pending m' ≡ₚ t :: pending m /\
    timer_remove m' t = Ret m'' /\ timer_list m'' = timer_list m /\ t_next m'' = t_next m
  else timer_add m at_ data = Ret (m, None).
Proof.
  intros Hok Hfresh. pose proof (timer_add_spec m at_ data Hok) as Ha.
  destruct ((t_next m <=? at_) && (at_ <? t_next m + MAX_TIMER)) eqn:E; [|exact Ha]. zbool.
  destruct Ha as (m' & Hadd & Hok' & Hn & Hp). cbv zeta in *. set (t := mk_timer (t_fresh m) at_ data) in *.
  assert (Hat : 0 <= at_) by (pose proof (w_next _ Hok); lia).
  destruct (slot_of_mod at_ Hat) as [Hslot Hs]. destruct (wheel_slot m at_ Hok Hat) as (l & Hl).
  exists m', (mk_manager (t_next m) (timer_list m) (t_fresh m + 1)), t.
  assert (Hm' : m' = mk_manager (t_next m) (<[Z.to_nat (at_ mod MAX_TIMER) := l ++ [t]]> (timer_list m)) (t_fresh m + 1)).
  { revert Hadd. unfold timer_add. rewrite Hslot. destruct (Z.ltb_spec at_ (t_next m)); [lia|].
    destruct (Z.leb_spec (t_next m + MAX_TIMER) at_); [lia|]. destruct (Z.ltb_spec (at_ mod MAX_TIMER) 0); [lia|].
    cbn [orb]. rewrite Hl. cbn [deref mbind outcome_bind]. now intros [= <-]. }
  split; [exact Hadd|]. split; [reflexivity|]. split; [exact Hok'|]. split; [exact Hp|].
  split; [|split; reflexivity]. unfold timer_remove. change (t_at t) with at_. rewrite Hslot.
  destruct (Z.ltb_spec (at_ mod MAX_TIMER) 0); [lia|]. rewrite Hm'. cbn [timer_list t_next t_fresh].
  pose proof (lookup_lt_Some _ _ _ Hl) as Hlt.
  rewrite list_lookup_insert_eq by assumption. cbn [deref mbind outcome_bind].
  assert (Hnin : t ∉ l).
  { intros Hin. assert (Hpd : t ∈ pending m) by (apply elem_of_concat; eauto). apply Hfresh in Hpd. cbn in Hpd. lia. }
  rewrite existsb_app. cbn [existsb]. rewrite bool_decide_true, orb_true_r by reflexivity.
  rewrite List.filter_app. cbn [List.filter]. rewrite bool_decide_true by reflexivity. cbn [negb]. rewrite app_nil_r.
  assert (Hf : List.filter (fun x => negb (bool_decide (x = t))) l = l).
  { clear - Hnin. induction l as [|x l IH]; [reflexivity|]. cbn [List.filter].
    rewrite bool_decide_false by (intros ->; apply Hnin; left). cbn [negb]. f_equal.
    apply IH. intros Hin. apply Hnin. now right. }
  rewrite Hf, list_insert_insert_eq, (list_insert_id _ _ _ Hl). reflexivity.
Qed.

Lemma timer_add_remove_witness :
  exists m' m'' t, timer_add (module_timer_load 1000 0) 4599 7 = Ret (m', Some t) /\ t_at t = 4599 /\ wheel_ok m' /\
    pending m' ≡ₚ t :: pending (module_timer_load 1000 0) /\
    timer_remove m' t = Ret m'' /\ timer_list m'' = timer_list (module_timer_load 1000 0) /\ t_next m'' = 1000.
Proof.
  destruct (module_timer_load_ok 1000 0 ltac:(lia)) as [Hok Hp].
  refine (timer_add_remove (module_timer_load 1000 0) 4599 7 Hok _).
  intros t Ht. rewrite Hp in Ht. inversion Ht.
Defined.

(** ** A timer added for the second being fired *)

Definition no_adds : callback unit := fun _ _ s m => Ret (s, m).

Lemma fire_no_adds l m : fire_list no_adds () m l = Ret ((), m).
Proof. induction l as [|t l IH]; [reflexivity|exact IH]. Qed.

Lemma update_keeps_slot fuel : forall m now i l,
  length (timer_list m) = Z.to_nat MAX_TIMER -> 0 <= t_next m -> now - t_next m + 1 <= Z.of_nat fuel ->
  timer_list m !! i = Some l ->
  (forall sec, t_next m <= sec <= now -> Z.to_nat (sec mod MAX_TIMER) <> i) ->
  exists m' log, update_loop no_adds fuel () m now = Ret ((), m', log) /\ timer_list m' !! i = Some l.
Proof.
  induction fuel as [|fuel IH]; intros m now i l Hlen Hn Hf Hi Hsec; cbn [update_loop];
    destruct (Z.leb_spec (t_next m) now) as [Hle|Hgt]; [lia|eauto| |eauto].
  pose proof (slot_of_mod (t_next m) Hn) as [-> Hs]. destruct (Z.ltb_spec (t_next m mod MAX_TIMER) 0); [lia|].
  destruct (lookup_lt_is_Some_2 (timer_list m) (Z.to_nat (t_next m mod MAX_TIMER))) as (l0 & Hl0); [lia|].
  rewrite Hl0. cbn [deref mbind outcome_bind]. rewrite fire_no_adds. cbn [mbind outcome_bind].
  set (m1 := mk_manager _ _ _).
  destruct (IH m1 now i l) as (m' & log & Hr & Hl'); subst m1; cbn [timer_list t_next] in *.
  - now rewrite length_insert.
  - lia.
  - lia.
  - rewrite list_lookup_insert_ne; [exact Hi|]. apply Hsec. lia.
  - intros sec Hr. apply Hsec. lia.
  - rewrite Hr. cbn [mbind outcome_bind]. eauto.
Qed.

(** A timer scheduled for the second being fired. *)
Definition again : callback unit := fun at_ data s m => '(m, _) ← timer_add m at_ data; Ret (s, m).

(** A callback that schedules a timer for the second being fired is accepted by
    [timer_add] but served an hour late: the timer goes to the list of the wheel
    that was just emptied, and is still pending after every update of the
    following 3599 seconds. *)
Theorem timer_add_same_second_late m t0 now :
  wheel_ok m -> timer_list m !! Z.to_nat (slot_of (t_next m)) = Some [t0] ->
  t_at t0 = t_next m -> t_next m < now < t_next m + MAX_TIMER ->
  exists m1 t m' log, module_timer_update again () m (t_next m) = Ret ((), m1, [(t_next m, t0)]) /\ t_at t = t_next m /\
    module_timer_update no_adds () m1 now = Ret ((), m', log) /\ t ∈ pending m'.
Proof.
  intros Hok Hl Hcb Hnow. pose proof (w_next _ Hok) as Hn. pose proof (w_length _ Hok) as Hlen.
  destruct (slot_of_mod (t_next m) Hn) as [Hslot Hs]. rewrite Hslot in Hl.
  pose proof (lookup_lt_Some _ _ _ Hl) as Hlt. set (i := Z.to_nat (t_next m mod MAX_TIMER)) in *.
  set (t := mk_timer (t_fresh m) (t_next m) (t_data t0)).
  set (m1 := mk_manager (t_next m + 1) (<[i := [t]]> (timer_list m)) (t_fresh m + 1)).
  assert (H1 : module_timer_update again () m (t_next m) = Ret ((), m1, [(t_next m, t0)])).
  { unfold module_timer_update. replace (Z.to_nat _) with 1%nat by lia. cbn [update_loop].
    rewrite Z.leb_refl, Hslot. destruct (Z.ltb_spec (t_next m mod MAX_TIMER) 0); [lia|]. fold i.
    rewrite Hl. cbn [deref mbind outcome_bind fire_list]. unfold again, timer_add. cbn [t_next]. rewrite Hcb.
    rewrite Z.ltb_irrefl, Hslot. destruct (Z.leb_spec (t_next m + MAX_TIMER) (t_next m)); [unfold MAX_TIMER in *; lia|].
    cbn [orb]. destruct (Z.ltb_spec (t_next m mod MAX_TIMER) 0); [lia|]. cbn [timer_list]. fold i.
    rewrite list_lookup_insert_eq by exact Hlt. cbn [deref mbind outcome_bind app t_next timer_list t_fresh map].
    rewrite list_insert_insert_eq. destruct (Z.leb_spec (t_next m + 1) (t_next m)); [lia|]. reflexivity. }
  destruct (update_keeps_slot (Z.to_nat (now - t_next m1 + 1)) m1 now i [t]) as (m' & log & Hr & Hl');
    cbn [m1 t_next timer_list]; [now rewrite length_insert|lia|lia|now rewrite list_lookup_insert_eq| |].
  - intros sec Hsec. pose proof (slot_of_mod sec ltac:(lia)) as [_ Hs2].
    subst i. unfold MAX_TIMER in *. Z.div_mod_to_equations. lia.
  - exists m1, t, m', log. repeat split; [exact H1|exact Hr|]. apply elem_of_concat. exists i, [t]. split; [exact Hl'|left].
Qed.

Lemma timer_add_same_second_late_witness :
  exists m1 t m' log, module_timer_update again ()
      (mk_manager 1000 (<[1000%nat := [mk_timer 5 1000 7]]> (timer_list (module_timer_load 1000 0))) 6) 1000 =
      Ret ((), m1, [(1000, mk_timer 5 1000 7)]) /\ t_at t = 1000 /\
    module_timer_update no_adds () m1 4599 = Ret ((), m', log) /\ t ∈ pending m'.
Proof.
  destruct (module_timer_load_ok 1000 0 ltac:(lia)) as [Hok _].
  refine (timer_add_same_second_late (mk_manager 1000 _ 6) (mk_timer 5 1000 7) 4599 _ _ eq_refl _).
  - constructor; cbn [timer_list t_next].
    + rewrite length_insert. apply (w_length _ Hok).
    + lia.
    + intros i l t Hi Ht. destruct (decide (i = 1000%nat)) as [->|Hne].
      * rewrite list_lookup_insert_eq in Hi by (rewrite (w_length _ Hok); unfold MAX_TIMER; lia).
        injection Hi as <-. apply list_elem_of_singleton in Ht as ->. split; [vm_compute; reflexivity|]. unfold MAX_TIMER. cbn. lia.
      * rewrite list_lookup_insert_ne in Hi by congruence. exact (w_placed _ Hok i l t Hi Ht).
  - cbn [timer_list t_next]. change (Z.to_nat (slot_of 1000)) with 1000%nat. apply list_lookup_insert_eq.
    rewrite (w_length _ Hok). unfold MAX_TIMER. lia.
  - unfold MAX_TIMER. cbn [t_next]. lia.
Defined.
