(* ===== verification/Network.v ===== *)
(** * Connections: [framework/network.c]

    The connection table, its state machine, the read path that reassembles
    messages from the byte stream and the write path with its buffer.

    System calls are answered from the record [kernel]: the results of the
    successive [recv], [send]/[writev], [accept], [getsockopt] and connection
    attempts, and whether [epoll_ctl] and [realloc] succeed.  What the code
    does to the outside is appended to [n_log].  The handler's callbacks are
    functions on the whole state, so that they can call back into this file;
    [A] is the state of the application behind them.  A [struct conn *] is the
    slot of the connection in the resource pool. *)
From S2P Require Import Prelude Buffer Lrm.

Inductive conn_status :=
| cs_closed | cs_listening | cs_connecting | cs_connected | cs_closing | cs_connected_wait_cb.

#[global] Instance conn_status_eq_dec : EqDecision conn_status.
Proof. solve_decision. Defined.

(** [struct network_handler]: which callbacks are set. *)
Record network_handler := mk_handler {
  has_on_message : bool; has_on_closed : bool; has_on_accept : bool; has_on_connected : bool }.

Definition no_handler : network_handler := mk_handler false false false false.

(** [struct conn].  [next] links the connection in the active or in the closing
    list. *)
Record conn := mk_conn {
  c_next : option nat; in_active_list : bool; c_id : Z; c_status : conn_status;
  c_fd : Z; c_events : Z; c_rbuf : option buffer; c_wbuf : option buffer;
  c_handler : network_handler }.

(** A connection after [memset] to zero. *)
Definition zero_conn : conn := mk_conn None false 0 cs_closed 0 0 None None no_handler.

Definition EPOLLIN : Z := 1.
Definition EPOLLOUT : Z := 4.
Definition EPOLLERR : Z := 8.

(** Results of [recv] into a buffer of [DEFAULT_BUFFER_SIZE] bytes. *)
Inductive recv_result :=
| RecvClosed
| RecvAgain
| RecvIntr
| RecvError (errno : Z)
| RecvData (bytes : list Z).

(** Results of [accept] followed by [setnblock]. *)
Inductive accept_result := AcceptAgain | AcceptIntr | AcceptFd (fd : Z) (nblock_ok : bool).

Record kernel := mk_kernel {
  k_recv : list recv_result; k_send : list Z; k_accept : list accept_result;
  k_so_error : list Z; k_connect : list (Z * bool); k_epoll_ok : bool; k_realloc_ok : bool }.

Inductive net_event :=
| SysSend (fd : Z) (bytes : list Z)
| SysClose (fd : Z)
| SysEpoll (op fd events : Z)
| CallMessage (id : Z) (bytes : list Z)
| CallClosed (id error : Z)
| CallAccept (listener id : Z)
| CallConnected (id : Z).

Definition DEFAULT_BUFFER_SIZE : Z := 1024.

Record network (A : Type) := mk_net {
  n_lrm : lrm; n_conns : list conn; closing_list : option nat; active_list : option nat;
  n_stop : bool; n_last : Z; n_kernel : kernel; n_app : A; n_log : list net_event }.
Arguments mk_net {A} _ _ _ _ _ _ _ _ _.
Arguments n_lrm {A} _.
Arguments n_conns {A} _.
Arguments closing_list {A} _.
Arguments active_list {A} _.
Arguments n_stop {A} _.
Arguments n_last {A} _.
Arguments n_kernel {A} _.
Arguments n_app {A} _.
Arguments n_log {A} _.

(** ** Field updates *)

Section Updates.
Context {A : Type}.

Definition set_conns (net : network A) (cs : list conn) : network A :=
  mk_net (n_lrm net) cs (closing_list net) (active_list net) (n_stop net) (n_last net)
    (n_kernel net) (n_app net) (n_log net).
Definition set_kernel (net : network A) (k : kernel) : network A :=
  mk_net (n_lrm net) (n_conns net) (closing_list net) (active_list net) (n_stop net) (n_last net)
    k (n_app net) (n_log net).
Definition set_lrm (net : network A) (l : lrm) : network A :=
  mk_net l (n_conns net) (closing_list net) (active_list net) (n_stop net) (n_last net)
    (n_kernel net) (n_app net) (n_log net).
Definition set_closing (net : network A) (p : option nat) : network A :=
  mk_net (n_lrm net) (n_conns net) p (active_list net) (n_stop net) (n_last net)
    (n_kernel net) (n_app net) (n_log net).
Definition set_active (net : network A) (p : option nat) : network A :=
  mk_net (n_lrm net) (n_conns net) (closing_list net) p (n_stop net) (n_last net)
    (n_kernel net) (n_app net) (n_log net).
Definition set_last (net : network A) (t : Z) : network A :=
  mk_net (n_lrm net) (n_conns net) (closing_list net) (active_list net) (n_stop net) t
    (n_kernel net) (n_app net) (n_log net).
Definition log_event (net : network A) (e : net_event) : network A :=
  mk_net (n_lrm net) (n_conns net) (closing_list net) (active_list net) (n_stop net) (n_last net)
    (n_kernel net) (n_app net) (n_log net ++ [e]).

(** The connection in a slot, and its replacement. *)
Definition conn_at (net : network A) (c : nat) : outcome conn := deref (n_conns net !! c).
Definition put_conn (net : network A) (c : nat) (v : conn) : network A :=
  set_conns net (<[c := v]> (n_conns net)).
End Updates.

Definition with_next (v : conn) (p : option nat) : conn :=
  mk_conn p (in_active_list v) (c_id v) (c_status v) (c_fd v) (c_events v) (c_rbuf v) (c_wbuf v) (c_handler v).
Definition with_active (v : conn) (b : bool) : conn :=
  mk_conn (c_next v) b (c_id v) (c_status v) (c_fd v) (c_events v) (c_rbuf v) (c_wbuf v) (c_handler v).
Definition with_status (v : conn) (s : conn_status) : conn :=
  mk_conn (c_next v) (in_active_list v) (c_id v) s (c_fd v) (c_events v) (c_rbuf v) (c_wbuf v) (c_handler v).
Definition with_fd (v : conn) (fd : Z) : conn :=
  mk_conn (c_next v) (in_active_list v) (c_id v) (c_status v) fd (c_events v) (c_rbuf v) (c_wbuf v) (c_handler v).
Definition with_events (v : conn) (e : Z) : conn :=
  mk_conn (c_next v) (in_active_list v) (c_id v) (c_status v) (c_fd v) e (c_rbuf v) (c_wbuf v) (c_handler v).
Definition with_rbuf (v : conn) (b : option buffer) : conn :=
  mk_conn (c_next v) (in_active_list v) (c_id v) (c_status v) (c_fd v) (c_events v) b (c_wbuf v) (c_handler v).
Definition with_wbuf (v : conn) (b : option buffer) : conn :=
  mk_conn (c_next v) (in_active_list v) (c_id v) (c_status v) (c_fd v) (c_events v) (c_rbuf v) b (c_handler v).
Definition with_handler (v : conn) (h : network_handler) : conn :=
  mk_conn (c_next v) (in_active_list v) (c_id v) (c_status v) (c_fd v) (c_events v) (c_rbuf v) (c_wbuf v) h.

(** [buf == 0 || _agB_size(buf) == 0] *)
Definition buf_empty (b : option buffer) : outcome bool :=
  match b with
  | None => Ret true
  | Some b => s ← _agB_size b; Ret (s =? 0)
  end.

(** ** System calls *)

Section Kernel.
Context {A : Type}.

Definition recv (net : network A) : network A * recv_result :=
  let k := n_kernel net in
  match k_recv k with
  | [] => (net, RecvAgain)
  | r :: rs =>
    (set_kernel net (mk_kernel rs (k_send k) (k_accept k) (k_so_error k) (k_connect k) (k_epoll_ok k) (k_realloc_ok k)), r)
  end.

(** [send]/[writev] of [bytes]: at most all of them are taken; a non-positive
    result takes nothing. *)
Definition send (net : network A) (fd : Z) (bytes : list Z) : network A * Z :=
  let k := n_kernel net in
  let '(ret, rs) := match k_send k with [] => (-1, []) | r :: rs => (Z.min r (zlen bytes), rs) end in
  let net := set_kernel net (mk_kernel (k_recv k) rs (k_accept k) (k_so_error k) (k_connect k) (k_epoll_ok k) (k_realloc_ok k)) in
  if 0 <? ret then (log_event net (SysSend fd (take (Z.to_nat ret) bytes)), ret) else (net, ret).

Definition accept (net : network A) : network A * accept_result :=
  let k := n_kernel net in
  match k_accept k with
  | [] => (net, AcceptAgain)
  | r :: rs =>
    (set_kernel net (mk_kernel (k_recv k) (k_send k) rs (k_so_error k) (k_connect k) (k_epoll_ok k) (k_realloc_ok k)), r)
  end.

Definition getsockopt_error (net : network A) : network A * Z :=
  let k := n_kernel net in
  match k_so_error k with
  | [] => (net, 0)
  | r :: rs =>
    (set_kernel net (mk_kernel (k_recv k) (k_send k) (k_accept k) rs (k_connect k) (k_epoll_ok k) (k_realloc_ok k)), r)
  end.

(** [connect_to] and [listen_on]: the descriptor and whether it is done. *)
Definition open_socket (net : network A) : network A * (Z * bool) :=
  let k := n_kernel net in
  match k_connect k with
  | [] => (net, (-1, false))
  | r :: rs =>
    (set_kernel net (mk_kernel (k_recv k) (k_send k) (k_accept k) (k_so_error k) rs (k_epoll_ok k) (k_realloc_ok k)), r)
  end.

Definition EPOLL_CTL_ADD : Z := 1.
Definition EPOLL_CTL_DEL : Z := 2.
Definition EPOLL_CTL_MOD : Z := 3.

Definition conn_set_event (net : network A) (c : nat) (events : Z) : outcome (network A * Z) :=
  v ← conn_at net c;
  if events =? c_events v then Ret (net, 0)
  else
    let opt := if c_events v =? 0 then EPOLL_CTL_ADD
               else if events =? 0 then EPOLL_CTL_DEL else EPOLL_CTL_MOD in
    let net := log_event net (SysEpoll opt (c_fd v) events) in
    if k_epoll_ok (n_kernel net) then Ret (put_conn net c (with_events v events), 0)
    else Ret (net, -1).

(** Growth of a connection's buffer. *)
Definition realloc_ok (net : network A) : bool := k_realloc_ok (n_kernel net).
End Kernel.

(** ** Operations *)

Section Operations.
Context {A : Type}.

(** The application's callbacks. *)
Variable on_message : network A -> Z -> list Z -> network A * Z.
Variable on_closed : network A -> Z -> Z -> network A.
Variable on_accept : network A -> Z -> Z -> network A.
Variable on_connected : network A -> Z -> network A.
Variable on_timer : network A -> Z -> network A.
Variable on_tick : network A -> network A.

Definition _agN_new (max : Z) (k : kernel) (app : A) : network A :=
  mk_net (_agRM_new max) (repeat zero_conn (Z.to_nat max)) None None false 0 k app [].

(** The slot of a live id, if any. *)
Definition get_conn (net : network A) (id : Z) : outcome (option nat) := _agR_get (n_lrm net) id.

Definition _agN_close (net : network A) (id : Z) : outcome (network A) :=
  r ← get_conn net id;
  match r with
  | None => Ret net
  | Some c =>
    v ← conn_at net c;
    if decide (c_status v = cs_closing) then Ret net
    else
      let net := put_conn net c (with_status v cs_closing) in
      '(net, _) ← conn_set_event net c 0;
      v ← conn_at net c;
      let net := put_conn net c (with_next v (closing_list net)) in
      Ret (set_closing net (Some c))
  end.

Definition do_close (net : network A) (c : nat) : outcome (network A) :=
  v ← conn_at net c;
  let net := if 0 <=? c_fd v then log_event net (SysClose (c_fd v)) else net in
  let net := put_conn net c (with_status v cs_closed) in
  l ← _agR_free (n_lrm net) (c_id v);
  Ret (set_lrm net l).

(** [cleanClient], also the second loop of [_agN_free]. *)
Fixpoint cleanClient (fuel : nat) (net : network A) : outcome (network A) :=
  match closing_list net with
  | None => Ret net
  | Some c =>
    match fuel with
    | O => NoFuel
    | S fuel' =>
      v ← conn_at net c;
      let net := set_closing net (c_next v) in
      net ← do_close net c;
      cleanClient fuel' net
    end
  end.

(** [agR_new] followed by [memset] and the id, common to every way a connection
    is created; [None] when the pool is full. *)
Definition new_conn (net : network A) : outcome (network A * option nat) :=
  '(l, id) ← _agR_new (n_lrm net);
  let net := set_lrm net l in
  if id =? INVALID_ID then Ret (net, None)
  else
    r ← _agR_get (n_lrm net) id;
    c ← deref r;
    let z := zero_conn in
    Ret (put_conn net c (mk_conn None false id (c_status z) 0 0 None None no_handler), Some c).

(** [accept_once]: whether to call it again.  An interrupted [accept] is retried;
    the results script bounds the retries. *)
Fixpoint accept_once (fuel : nat) (net : network A) (c : nat) : outcome (network A * bool) :=
  match fuel with
  | O => NoFuel
  | S fuel' =>
    let '(net, r) := accept net in
    match r with
    | AcceptAgain => Ret (net, false)
    | AcceptIntr => accept_once fuel' net c
    | AcceptFd fd nblock_ok =>
      if negb nblock_ok then Ret (log_event net (SysClose fd), true)
      else
        '(net, nc) ← new_conn net;
        match nc with
        | None => Ret (log_event net (SysClose fd), true)
        | Some nc =>
          nv ← conn_at net nc;
          let net := put_conn net nc (with_status (with_fd nv fd) cs_connected) in
          v ← conn_at net c;
          if has_on_accept (c_handler v)
          then Ret (on_accept (log_event net (CallAccept (c_id v) (c_id nv))) (c_id v) (c_id nv), true)
          else Ret (net, true)
        end
    end
  end.

(** [while (accept_once(net, c))] *)
Fixpoint accept_all (fuel : nat) (net : network A) (c : nat) : outcome (network A) :=
  match fuel with
  | O => NoFuel
  | S fuel' =>
    '(net, again) ← accept_once fuel' net c;
    if (again : bool) then accept_all fuel' net c else Ret net
  end.

Definition finish_connecting (net : network A) (c : nat) : outcome (network A) :=
  v ← conn_at net c;
  let net := put_conn net c (with_status v cs_connected) in
  e ← buf_empty (c_wbuf v);
  let flag := if (e : bool) then EPOLLIN else Z.lor EPOLLIN EPOLLOUT in
  '(net, _) ← conn_set_event net c flag;
  v ← conn_at net c;
  if has_on_connected (c_handler v)
  then Ret (on_connected (log_event net (CallConnected (c_id v))) (c_id v)) else Ret net.

(** The end of a connection: the callback, then [_agN_close]. *)
Definition report_closed (net : network A) (c : nat) (error : Z) : outcome (network A) :=
  v ← conn_at net c;
  let net := if has_on_closed (c_handler v)
             then on_closed (log_event net (CallClosed (c_id v) error)) (c_id v) error else net in
  v ← conn_at net c;
  _agN_close net (c_id v).

Definition check_connecting (net : network A) (c : nat) : outcome (network A) :=
  let '(net, error) := getsockopt_error net in
  if negb (error =? 0) then report_closed net c error else finish_connecting net c.

Definition do_conn_error (net : network A) (c : nat) : outcome (network A) :=
  report_closed net c (-1000).

(** The loop of [process_conn_message] on the [len] bytes of [data]: the bytes
    consumed. *)
Fixpoint process_loop (fuel : nat) (net : network A) (c : nat) (data : list Z) (tsize : Z)
    : outcome (network A * Z) :=
  match fuel with
  | O => NoFuel
  | S fuel' =>
    if zlen data =? 0 then Ret (net, tsize)
    else
      v ← conn_at net c;
      let '(net, s) := on_message (log_event net (CallMessage (c_id v) data)) (c_id v) data in
      v ← conn_at net c;
      if (s =? 0) || (zlen data <? s) || negb (bool_decide (c_status v = cs_connected)) then Ret (net, tsize)
      else process_loop fuel' net c (drop (Z.to_nat s) data) (tsize + s)
  end.

Definition process_conn_message (net : network A) (c : nat) (data : list Z) : outcome (network A * Z) :=
  v ← conn_at net c;
  if negb (has_on_message (c_handler v)) then Ret (net, zlen data)
  else process_loop (S (length data)) net c data 0.

(** Offering the content of [rbuf] to the handler and dropping what it consumed. *)
Definition process_rbuf (net : network A) (c : nat) : outcome (network A) :=
  v ← conn_at net c;
  rbuf ← deref (c_rbuf v);
  size ← _agB_size rbuf;
  p ← _agB_peek rbuf size;
  ptr ← deref p;
  data ← load_bytes (bdata rbuf) ptr size;
  '(net, s) ← process_conn_message net c data;
  _ ← c_assert (s <=? size);
  v ← conn_at net c;
  if negb (bool_decide (c_status v = cs_connected)) then Ret net
  else
    rbuf ← deref (c_rbuf v);
    '(rbuf, _) ← _agB_read rbuf s;
    Ret (put_conn net c (with_rbuf v (Some rbuf))).

(** [_agB_write] to [rbuf], which is created when it is null; the result of the
    write is not looked at. *)
Definition write_rbuf (net : network A) (c : nat) (bytes : list Z) : outcome (network A) :=
  v ← conn_at net c;
  let rbuf := match c_rbuf v with Some b => b | None => _agB_new 0 DEFAULT_BUFFER_SIZE end in
  '(rbuf, _) ← _agB_write 0 (realloc_ok net) rbuf bytes;
  Ret (put_conn net c (with_rbuf v (Some rbuf))).

(** [while (bits < 1024 * 10)] of [do_conn_read]. *)
Fixpoint read_loop (fuel : nat) (net : network A) (c : nat) (bits : Z) : outcome (network A) :=
  if 1024 * 10 <=? bits then Ret net
  else
  match fuel with
  | O => NoFuel
  | S fuel' =>
    let '(net, ret) := recv net in
    match ret with
    | RecvClosed => report_closed net c 0
    | RecvIntr => read_loop fuel' net c bits
    | RecvAgain =>
      v ← conn_at net c;
      e ← buf_empty (c_rbuf v);
      if (e : bool) then Ret net else process_rbuf net c
    | RecvError errno => report_closed net c errno
    | RecvData buff =>
      let bits := bits + zlen buff in
      v ← conn_at net c;
      if negb (has_on_message (c_handler v)) then read_loop fuel' net c bits
      else
        e ← buf_empty (c_rbuf v);
        if (e : bool) then
          '(net, s) ← process_conn_message net c buff;
          _ ← c_assert (s <=? zlen buff);
          v ← conn_at net c;
          if negb (bool_decide (c_status v = cs_connected)) then Ret net
          else
            net ← (if s <? zlen buff then write_rbuf net c (drop (Z.to_nat s) buff) else Ret net);
            read_loop fuel' net c bits
        else
          net ← write_rbuf net c buff;
          net ← process_rbuf net c;
          v ← conn_at net c;
          if negb (bool_decide (c_status v = cs_connected)) then Ret net
          else read_loop fuel' net c bits
    end
  end.

(** Every round takes one result from the script, and an exhausted script
    answers [EAGAIN], which ends the loop. *)
Definition do_conn_read (net : network A) (c : nat) : outcome (network A) :=
  v ← conn_at net c;
  if negb (bool_decide (c_status v = cs_connected)) then Ret net
  else read_loop (S (length (k_recv (n_kernel net)))) net c 0.

Definition do_conn_write (net : network A) (c : nat) : outcome (network A) :=
  v ← conn_at net c;
  if negb (bool_decide (c_status v = cs_connected)) then Ret net
  else
    e ← buf_empty (c_wbuf v);
    net ← (if (e : bool) then Ret net
           else
             wbuf ← deref (c_wbuf v);
             s ← _agB_size wbuf;
             p ← _agB_peek wbuf s;
             ptr ← deref p;
             data ← load_bytes (bdata wbuf) ptr s;
             let '(net, ret) := send net (c_fd v) data in
             if 0 <? ret then
               '(wbuf, _) ← _agB_read wbuf ret;
               Ret (put_conn net c (with_wbuf v (Some wbuf)))
             else Ret net);
    v ← conn_at net c;
    e ← buf_empty (c_wbuf v);
    if (e : bool) then '(net, _) ← conn_set_event net c EPOLLIN; Ret net else Ret net.

Definition has_event (event flag : Z) : bool := negb (Z.land event flag =? 0).

Definition do_conn_event (net : network A) (c : nat) (event : Z) : outcome (network A) :=
  if has_event event EPOLLERR then do_conn_error net c
  else
    net ← (if has_event event EPOLLIN then do_conn_read net c else Ret net);
    if has_event event EPOLLOUT then do_conn_write net c else Ret net.

(** ** Creating, sending, closing *)

(** The debug walk of [_network_active]: it asserts that the list does not come
    back to its head. *)
Fixpoint active_walk (fuel : nat) (net : network A) (head : option nat) (n : option nat) : outcome unit :=
  match n with
  | None => Ret tt
  | Some c =>
    match fuel with
    | O => NoFuel
    | S fuel' =>
      v ← conn_at net c;
      _ ← c_assert (negb (bool_decide (c_next v = head)));
      active_walk fuel' net head (c_next v)
    end
  end.

Definition _network_active (net : network A) (c : nat) : outcome (network A) :=
  v ← conn_at net c;
  let net :=
    if bool_decide (c_next v = None) && negb (in_active_list v)
    then set_active (put_conn net c (with_active (with_next v (active_list net)) true)) (Some c)
    else net in
  _ ← active_walk (S (length (n_conns net))) net (active_list net) (active_list net);
  Ret net.

(** [_agN_connect]: the id, or [INVALID_ID] (which [-1] is as a [resid_t]). *)
Definition _agN_connect (net : network A) (handler : network_handler) : outcome (network A * Z) :=
  '(net, nc) ← new_conn net;
  match nc with
  | None => Ret (net, INVALID_ID)
  | Some c =>
    v ← conn_at net c;
    let id := c_id v in
    let '(net, (fd, done)) := open_socket net in
    let net := put_conn net c (with_fd (with_handler v handler) fd) in
    if fd =? -1 then l ← _agR_free (n_lrm net) id; Ret (set_lrm net l, INVALID_ID)
    else
      v ← conn_at net c;
      if (done : bool) then
        net ← _network_active (put_conn net c (with_status v cs_connected_wait_cb)) c;
        Ret (net, id)
      else
        '(net, _) ← conn_set_event (put_conn net c (with_status v cs_connecting)) c EPOLLOUT;
        Ret (net, id)
  end.

Definition _agN_listen (net : network A) (handler : network_handler) : outcome (network A * Z) :=
  '(net, nc) ← new_conn net;
  match nc with
  | None => Ret (net, INVALID_ID)
  | Some c =>
    v ← conn_at net c;
    let id := c_id v in
    let '(net, (fd, _)) := open_socket net in
    let net := put_conn net c (with_fd (with_handler v handler) fd) in
    if fd =? -1 then l ← _agR_free (n_lrm net) id; Ret (set_lrm net l, INVALID_ID)
    else
      v ← conn_at net c;
      '(net, _) ← conn_set_event (put_conn net c (with_status v cs_listening)) c EPOLLIN;
      Ret (net, id)
  end.

Definition _agN_attach (net : network A) (fd : Z) (handler : network_handler) : outcome (network A * Z) :=
  '(net, nc) ← new_conn net;
  match nc with
  | None => Ret (net, INVALID_ID)
  | Some c =>
    v ← conn_at net c;
    let net := put_conn net c (with_status (with_fd (with_handler v handler) fd) cs_connected) in
    '(net, _) ← conn_set_event net c EPOLLIN;
    Ret (net, c_id v)
  end.

Definition _agN_detach (net : network A) (id : Z) : outcome (network A * Z) :=
  r ← get_conn net id;
  match r with
  | None => Ret (net, -1)
  | Some c =>
    v ← conn_at net c;
    if bool_decide (c_status v = cs_closed) || bool_decide (c_status v = cs_closing) then Ret (net, -1)
    else
      let fd := c_fd v in
      net ← _agN_close (put_conn net c (with_fd v (-1))) id;
      Ret (net, fd)
  end.

(** Appending to [wbuf] through [_agB_buffer] and [memcpy]; [false] when there is
    no room. *)
Definition append_wbuf (net : network A) (c : nat) (bytes : list Z) : outcome (network A * bool) :=
  v ← conn_at net c;
  let wbuf := match c_wbuf v with Some b => b | None => _agB_new 0 DEFAULT_BUFFER_SIZE end in
  '(wbuf, rc) ← _agB_write 0 (realloc_ok net) wbuf bytes;
  Ret (put_conn net c (with_wbuf v (Some wbuf)), rc =? 0).

Definition _agN_send (net : network A) (id : Z) (buff : list Z) : outcome (network A * Z) :=
  r ← get_conn net id;
  match r with
  | None => Ret (net, -1)
  | Some c =>
    v ← conn_at net c;
    if negb (bool_decide (c_status v = cs_connected)) then Ret (net, -1)
    else if zlen buff =? 0 then conn_set_event net c (Z.lor EPOLLIN EPOLLOUT)
    else
      e ← buf_empty (c_wbuf v);
      let '(net, buff) :=
        if (e : bool) then
          let '(net, ret) := send net (c_fd v) buff in
          if 0 <? ret then (net, drop (Z.to_nat ret) buff) else (net, buff)
        else (net, buff) in
      if 0 <? zlen buff then
        '(net, ok) ← append_wbuf net c buff;
        if negb ok then Ret (net, -1)
        else '(net, _) ← conn_set_event net c (Z.lor EPOLLIN EPOLLOUT); Ret (net, 0)
      else Ret (net, 0)
  end.

(** The adjustment of [iov] after [writev] took [ret] bytes. *)
Fixpoint iov_consume (iov : list (list Z)) (ret : Z) : list (list Z) :=
  match iov with
  | [] => []
  | v :: iov' =>
    if 0 <? ret then
      if zlen v <? ret then [] :: iov_consume iov' (ret - zlen v)
      else drop (Z.to_nat ret) v :: iov'
    else v :: iov'
  end.

Fixpoint append_iov (net : network A) (c : nat) (iov : list (list Z)) : outcome (network A) :=
  match iov with
  | [] => Ret net
  | v :: iov' =>
    net ← (if 0 <? zlen v then '(net, _) ← append_wbuf net c v; Ret net else Ret net);
    append_iov net c iov'
  end.

Definition _agN_writev (net : network A) (id : Z) (iov : list (list Z)) : outcome (network A * Z) :=
  r ← get_conn net id;
  match r with
  | None => Ret (net, -1)
  | Some c =>
    v ← conn_at net c;
    if negb (bool_decide (c_status v = cs_connected)) then Ret (net, -1)
    else
      e ← buf_empty (c_wbuf v);
      let '(net, iov) :=
        if (e : bool) then
          let '(net, ret) := send net (c_fd v) (concat iov) in (net, iov_consume iov ret)
        else (net, iov) in
      net ← append_iov net c iov;
      v ← conn_at net c;
      e ← buf_empty (c_wbuf v);
      if (e : bool) then Ret (net, 0)
      else '(net, _) ← conn_set_event net c (Z.lor EPOLLIN EPOLLOUT); Ret (net, 0)
  end.

(** [_agN_buffer]: the offset in [wbuf] the caller writes to. *)
Definition _agN_buffer (net : network A) (id len : Z) : outcome (network A * option Z) :=
  r ← get_conn net id;
  match r with
  | None => Ret (net, None)
  | Some c =>
    v ← conn_at net c;
    if negb (bool_decide (c_status v = cs_connecting)) && negb (bool_decide (c_status v = cs_connected))
    then Ret (net, None)
    else
      let wbuf := match c_wbuf v with Some b => b | None => _agB_new 0 DEFAULT_BUFFER_SIZE end in
      '(wbuf, ptr) ← _agB_buffer 0 (realloc_ok net) wbuf len;
      '(net, _) ← conn_set_event (put_conn net c (with_wbuf v (Some wbuf))) c (Z.lor EPOLLIN EPOLLOUT);
      Ret (net, ptr)
  end.

Definition _agN_set_handler (net : network A) (id : Z) (handler : network_handler) : outcome (network A * Z) :=
  r ← get_conn net id;
  match r with
  | None => Ret (net, -1)
  | Some c =>
    v ← conn_at net c;
    net ← _network_active (put_conn net c (with_handler v handler)) c;
    v ← conn_at net c;
    e ← buf_empty (c_wbuf v);
    conn_set_event net c (if (e : bool) then EPOLLIN else Z.lor EPOLLIN EPOLLOUT)
  end.

Definition _agN_get_fd (net : network A) (id : Z) : outcome Z :=
  r ← get_conn net id;
  match r with
  | Some c => v ← conn_at net c; Ret (c_fd v)
  | None => Ret (-1)
  end.

(** ** The main loop *)

(** What [_agN_tick] does with a connection of the active list. *)
Definition active_step (fuel : nat) (net : network A) (c : nat) : outcome (network A) :=
  v ← conn_at net c;
  match c_status v with
  | cs_listening => accept_all fuel net c
  | cs_connecting => check_connecting net c
  | cs_connected => do_conn_event net c (Z.lor EPOLLIN EPOLLOUT)
  | cs_connected_wait_cb => finish_connecting net c
  | _ => Ret net
  end.

Fixpoint active_loop (fuel : nat) (net : network A) : outcome (network A) :=
  match active_list net with
  | None => Ret net
  | Some c =>
    match fuel with
    | O => NoFuel
    | S fuel' =>
      v ← conn_at net c;
      let net := set_active net (c_next v) in
      let net := put_conn net c (with_active (with_next v None) false) in
      net ← active_step fuel' net c;
      active_loop fuel' net
    end
  end.

(** What it does with an event of [epoll_wait]. *)
Definition event_step (fuel : nat) (net : network A) (c : nat) (e : Z) : outcome (network A) :=
  v ← conn_at net c;
  match c_status v with
  | cs_listening => if has_event e EPOLLIN then accept_all fuel net c else Ret net
  | cs_connecting => check_connecting net c
  | cs_connected => do_conn_event net c e
  | _ => Ret net
  end.

Fixpoint event_loop (fuel : nat) (net : network A) (events : list (nat * Z)) : outcome (network A) :=
  match events with
  | [] => Ret net
  | (c, e) :: events' => net ← event_step fuel net c e; event_loop fuel net events'
  end.

(** [_agN_tick] with the events [epoll_wait] reports and the time of day.  The
    fuel bounds the accept and list loops. *)
Definition _agN_tick (fuel : nat) (net : network A) (events : list (nat * Z)) (now : Z)
    : outcome (network A * Z) :=
  match active_list net with
  | Some _ => net ← active_loop fuel net; Ret (net, 0)
  | None =>
    if n_stop net then Ret (net, 0)
    else
      let net := on_tick net in
      let net := if n_last net <? now then on_timer (set_last net now) now else net in
      net ← event_loop fuel net events;
      net ← cleanClient fuel net;
      Ret (net, zlen events)
  end.

(** [timesub], in milliseconds. *)
Definition timesub (sec1 usec1 sec2 usec2 : Z) : Z :=
  let sec := i32 (sec1 - sec2) in
  let usec := i32 (usec1 - usec2) in
  let '(sec, usec) := if usec <? 0 then (i32 (sec - 1), i32 (usec + 1000 * 1000)) else (sec, usec) in
  i32 (i32 (sec * 1000) + Z.quot usec 1000).
End Operations.
