(* ===== verification/NetworkTheorems.v ===== *)
(** * What the network layer guarantees

    Theorems on [framework/network.c]: the write path neither loses nor
    reorders bytes, the read path delivers the same messages however the
    stream is cut into chunks, closed connections are released exactly once,
    and the leak that follows from the active and the closing list sharing one
    link field. *)
From S2P Require Import Prelude Buffer Lrm Network.

(** ** Lookups and updates *)

Lemma conn_at_lookup {A} (net : network A) c v : n_conns net !! c = Some v -> conn_at net c = Ret v.
Proof. unfold conn_at. now intros ->. Qed.

Lemma put_conn_lookup {A} (net : network A) c v v' :
  n_conns net !! c = Some v -> n_conns (put_conn net c v') !! c = Some v'.
Proof. intros Hc. cbn. apply list_lookup_insert_eq. eapply lookup_lt_Some, Hc. Qed.

Lemma bool_decide_connected v : c_status v = cs_connected -> bool_decide (c_status v = cs_connected) = true.
Proof. intros ->. reflexivity. Qed.

(** The unread content of an optional buffer. *)
Definition obuf_content (b : option buffer) : list Z := match b with Some b => content b | None => [] end.
Definition obuf_ok (b : option buffer) : Prop := match b with Some b => buf_ok b | None => True end.

Lemma buf_empty_spec b :
  obuf_ok b -> buf_empty b = Ret (zlen (obuf_content b) =? 0).
Proof.
  destruct b as [b|]; cbn; [|reflexivity]. intros Hok. unfold _agB_size. rewrite check_ok by assumption.
  cbn. now rewrite zlen_content.
Qed.

Lemma peek_all b :
  buf_ok b -> exists n, _agB_size b = Ret n /\ n = zlen (content b) /\ _agB_peek b n = Ret (Some (rpos b)) /\
    load_bytes (bdata b) (rpos b) n = Ret (content b).
Proof.
  intros Hok. pose proof Hok as [? ? ?]. exists (wpos b - rpos b). unfold _agB_size, _agB_peek.
  rewrite check_ok by assumption. cbn [mbind outcome_bind]. rewrite zlen_content by assumption.
  destruct (Z.ltb_spec (wpos b - rpos b) (wpos b - rpos b)); [lia|]. repeat split.
  unfold load_bytes. replace (_ && _ && _) with true by (symmetry; ztests; reflexivity). reflexivity.
Qed.

(** Writing to a buffer that is created on demand. *)
Lemma obuf_write b bytes :
  obuf_ok b -> zlen (obuf_content b) + zlen bytes <= 2 ^ 61 ->
  exists b', _agB_write 0 true (match b with Some b => b | None => _agB_new 0 DEFAULT_BUFFER_SIZE end) bytes = Ret (b', 0) /\
    buf_ok b' /\ content b' = obuf_content b ++ bytes.
Proof.
  intros Hok Hmax.
  assert (Hb : exists b0, match b with Some b => b | None => _agB_new 0 DEFAULT_BUFFER_SIZE end = b0 /\
    buf_ok b0 /\ content b0 = obuf_content b).
  { destruct b as [b|]; [eauto|]. destruct (agB_new_ok 0 DEFAULT_BUFFER_SIZE) as [Hn Hc]; [unfold DEFAULT_BUFFER_SIZE; lia|].
    eexists. split; [reflexivity|]. split; [exact Hn|exact Hc]. }
  destruct Hb as (b0 & -> & Hok0 & Hc0). rewrite <- Hc0 in Hmax.
  destruct (agB_write_spec 0 true b0 bytes Hok0 Hmax) as (b' & rc & Hw & Hok' & [[-> Hc']|(_ & ? & _)]); [|discriminate].
  exists b'. split; [exact Hw|]. split; [exact Hok'|]. congruence.
Qed.

(** ** The write path *)

(** The bytes given to [send] on a descriptor. *)
Definition sent_by (fd : Z) (e : net_event) : list Z :=
  match e with SysSend f bs => if f =? fd then bs else [] | _ => [] end.
Definition sent {A} (net : network A) (fd : Z) : list Z := concat (sent_by fd <$> n_log net).

Lemma sent_log {A} (net : network A) fd e : sent (log_event net e) fd = sent net fd ++ sent_by fd e.
Proof. unfold sent. cbn [n_log log_event]. rewrite fmap_app, concat_app. cbn. now rewrite app_nil_r. Qed.

(** Slot [c] is the connected socket [fd] of handle [id], and [stream] is what was
    accepted for sending: what the kernel took, then what waits in [wbuf]. *)
Record wstate {A} (net : network A) (id : Z) (c : nat) (fd : Z) (stream : list Z) : Prop := {
  ws_get : get_conn net id = Ret (Some c);
  ws_realloc : realloc_ok net = true;
  ws_conn : exists v, n_conns net !! c = Some v /\ c_status v = cs_connected /\ c_fd v = fd /\
    obuf_ok (c_wbuf v) /\ sent net fd ++ obuf_content (c_wbuf v) = stream }.

Section WritePath.
Context {A : Type}.
Implicit Types net : network A.

Lemma send_spec net fd bytes :
  exists k ret, k_realloc_ok k = realloc_ok net /\ send net fd bytes =
    (if 0 <? ret then log_event (set_kernel net k) (SysSend fd (take (Z.to_nat ret) bytes)) else set_kernel net k, ret)
    /\ ret <= zlen bytes.
Proof.
  unfold send. pose proof (zlen_nonneg bytes).
  destruct (match k_send (n_kernel net) with [] => (-1, []) | r :: rs => (Z.min r (zlen bytes), rs) end) as [ret rs] eqn:E.
  exists (mk_kernel (k_recv (n_kernel net)) rs (k_accept (n_kernel net)) (k_so_error (n_kernel net))
           (k_connect (n_kernel net)) (k_epoll_ok (n_kernel net)) (k_realloc_ok (n_kernel net))), ret.
  split; [reflexivity|]. split; [now destruct (0 <? ret)|].
  destruct (k_send (n_kernel net)); injection E as <- <-; lia.
Qed.

(** Handing bytes to the kernel. *)
Lemma wstate_send net id c fd stream bytes v :
  wstate net id c fd stream -> n_conns net !! c = Some v -> obuf_content (c_wbuf v) = [] ->
  let '(net', ret) := send net fd bytes in
  wstate net' id c fd (stream ++ (if 0 <? ret then take (Z.to_nat ret) bytes else [])) /\
  n_conns net' = n_conns net /\ ret <= zlen bytes.
Proof.
  intros [Hg Hr (v' & Hv & Hst & Hfd & Hok & Hs)] Hv' He. rewrite Hv in Hv'. injection Hv' as ->.
  destruct (send_spec net fd bytes) as (k & ret & Hk & -> & Hret). rewrite He, app_nil_r in Hs.
  destruct (0 <? ret); (split; [|split; [reflexivity|exact Hret]]).
  - constructor; [exact Hg|exact (eq_trans Hk Hr)|]. exists v. repeat split; auto.
    rewrite sent_log, He, app_nil_r. cbn [sent_by]. rewrite Z.eqb_refl. unfold sent in *. cbn [n_log set_kernel]. congruence.
  - constructor; [exact Hg|exact (eq_trans Hk Hr)|]. exists v. repeat split; auto.
    rewrite He, !app_nil_r. exact Hs.
Qed.

Lemma wstate_set_event net id c fd stream events :
  wstate net id c fd stream ->
  exists net' r, conn_set_event net c events = Ret (net', r) /\ wstate net' id c fd stream.
Proof.
  intros [Hg Hr (v & Hv & Hst & Hfd & Hok & Hs)]. unfold conn_set_event. rewrite (conn_at_lookup _ _ _ Hv).
  cbn [mbind outcome_bind].
  assert (Hw : forall net' v', get_conn net' id = Ret (Some c) -> realloc_ok net' = true -> n_conns net' !! c = Some v' ->
    c_status v' = c_status v -> c_fd v' = c_fd v -> c_wbuf v' = c_wbuf v -> sent net' fd = sent net fd ->
    wstate net' id c fd stream).
  { intros net' v' ? ? ? E1 E2 E3 E4. constructor; auto. exists v'. rewrite E1, E2, E3, E4. auto. }
  destruct (events =? c_events v); [exists net, 0; split; [reflexivity|eapply Hw; eauto]|].
  set (net1 := log_event net _).
  assert (Hs1 : sent net1 fd = sent net fd) by (unfold net1; rewrite sent_log; cbn; apply app_nil_r).
  destruct (k_epoll_ok (n_kernel net1)); eexists _, _; (split; [reflexivity|]).
  - eapply Hw; [exact Hg|exact Hr|eapply put_conn_lookup; exact Hv|reflexivity..|exact Hs1].
  - eapply Hw; [exact Hg|exact Hr|exact Hv|reflexivity..|exact Hs1].
Qed.

Lemma wstate_append net id c fd stream bytes :
  wstate net id c fd stream -> zlen stream + zlen bytes <= 2 ^ 61 ->
  exists net', append_wbuf net c bytes = Ret (net', true) /\ wstate net' id c fd (stream ++ bytes).
Proof.
  intros [Hg Hr (v & Hv & Hst & Hfd & Hok & Hs)] Hmax. unfold append_wbuf. rewrite (conn_at_lookup _ _ _ Hv), Hr.
  cbn [mbind outcome_bind].
  destruct (obuf_write (c_wbuf v) bytes Hok) as (b & -> & Hokb & Hcb).
  { rewrite <- Hs, zlen_app in Hmax. pose proof (zlen_nonneg (sent net fd)). lia. }
  cbn [mbind outcome_bind]. eexists. split; [reflexivity|]. constructor; [exact Hg|exact Hr|].
  eexists. split; [eapply put_conn_lookup; exact Hv|]. cbn [c_status c_fd c_wbuf with_wbuf obuf_ok obuf_content].
  split; [exact Hst|]. split; [exact Hfd|]. split; [exact Hokb|]. change (sent (put_conn _ _ _) fd) with (sent net fd). rewrite Hcb, (assoc_L (++)). f_equal. exact Hs.
Qed.

Lemma agN_send_spec net id c fd stream buff :
  wstate net id c fd stream -> zlen stream + zlen buff <= 2 ^ 61 -> 0 < zlen buff ->
  exists net', _agN_send net id buff = Ret (net', 0) /\ wstate net' id c fd (stream ++ buff).
Proof.
  intros Hw Hmax Hlen. pose proof Hw as [Hg Hr (v & Hv & Hst & Hfd & Hok & Hs)]. unfold _agN_send.
  rewrite Hg. cbn [mbind outcome_bind]. rewrite (conn_at_lookup _ _ _ Hv). cbn [mbind outcome_bind].
  rewrite bool_decide_connected by assumption. cbn [negb]. destruct (Z.eqb_spec (zlen buff) 0); [lia|].
  rewrite buf_empty_spec by assumption. cbn [mbind outcome_bind].
  assert (Hsend : exists net1 rest, (if zlen (obuf_content (c_wbuf v)) =? 0 then
      let '(net, ret) := send net (c_fd v) buff in if 0 <? ret then (net, drop (Z.to_nat ret) buff) else (net, buff)
      else (net, buff)) = (net1, rest) /\ exists taken, wstate net1 id c fd (stream ++ taken) /\ taken ++ rest = buff).
  { destruct (Z.eqb_spec (zlen (obuf_content (c_wbuf v))) 0) as [E|E].
    - assert (Hnil : obuf_content (c_wbuf v) = []) by (destruct (obuf_content (c_wbuf v)); [reflexivity|rewrite zlen_cons in E; pose proof (zlen_nonneg l); lia]).
      pose proof (wstate_send net id c fd stream buff v Hw Hv Hnil) as Hsd. rewrite Hfd.
      destruct (send net fd buff) as [net1 ret]. destruct Hsd as (Hw1 & _ & Hle).
      destruct (Z.ltb_spec 0 ret); eexists _, _; (split; [reflexivity|]); eexists; (split; [exact Hw1|]); [apply take_drop|reflexivity].
    - exists net, buff. split; [reflexivity|]. exists []. rewrite app_nil_r. auto. }
  destruct Hsend as (net1 & rest & -> & taken & Hw1 & Hcat).
  destruct (Z.ltb_spec 0 (zlen rest)).
  - destruct (wstate_append net1 id c fd (stream ++ taken) rest Hw1) as (net2 & -> & Hw2).
    { rewrite zlen_app. rewrite <- Hcat, zlen_app in Hmax. lia. }
    cbn [mbind outcome_bind negb].
    destruct (wstate_set_event net2 id c fd _ (Z.lor EPOLLIN EPOLLOUT) Hw2) as (net3 & r & -> & Hw3).
    cbn [mbind outcome_bind]. exists net3. split; [reflexivity|]. rewrite <- (assoc_L (++)), Hcat in Hw3. exact Hw3.
  - exists net1. split; [reflexivity|].
    assert (rest = []) as -> by (destruct rest; [reflexivity|rewrite zlen_cons in *; pose proof (zlen_nonneg rest); lia]).
    rewrite app_nil_r in Hcat. now subst taken.
Qed.

Lemma do_conn_write_spec net id c fd stream :
  wstate net id c fd stream ->
  exists net', do_conn_write net c = Ret net' /\ wstate net' id c fd stream.
Proof.
  intros Hw. pose proof Hw as [Hg Hr (v & Hv & Hst & Hfd & Hok & Hs)]. unfold do_conn_write.
  rewrite (conn_at_lookup _ _ _ Hv). cbn [mbind outcome_bind]. rewrite bool_decide_connected by assumption. cbn [negb].
  rewrite buf_empty_spec by assumption. cbn [mbind outcome_bind].
  match goal with |- context [mbind _ ?e] => assert (Hfl : exists net1, e = Ret net1 /\ wstate net1 id c fd stream) end.
  { destruct (Z.eqb_spec (zlen (obuf_content (c_wbuf v))) 0) as [E|E]; [eauto|].
    destruct (c_wbuf v) as [b|] eqn:Eb; [|destruct E; reflexivity]. cbn [deref mbind outcome_bind obuf_ok obuf_content] in *.
    destruct (peek_all b Hok) as (n & -> & Hn & Hp & Hl). cbn [mbind outcome_bind]. rewrite Hp. cbn [deref mbind outcome_bind].
    rewrite Hl. cbn [mbind outcome_bind]. rewrite Hfd.
    destruct (send_spec net fd (content b)) as (k & ret & Hk & -> & Hret).
    destruct (Z.ltb_spec 0 ret).
    - pose proof (agB_read_spec b ret Hok ltac:(lia)) as Hrd.
      destruct (Z.ltb_spec (zlen (content b)) ret); [lia|]. destruct Hrd as (b' & -> & Hok' & Hd & Hc').
      cbn [mbind outcome_bind]. eexists. split; [reflexivity|]. constructor; [exact Hg|exact (eq_trans Hk Hr)|].
      eexists. split; [eapply put_conn_lookup; exact Hv|]. cbn [c_status c_fd c_wbuf with_wbuf obuf_ok obuf_content].
      split; [exact Hst|]. split; [exact Hfd|]. split; [exact Hok'|].
      change (sent (log_event (set_kernel net k) (SysSend fd (take (Z.to_nat ret) (content b)))) fd ++ content b' = stream).
      rewrite sent_log. cbn [sent_by]. rewrite Z.eqb_refl.
      change (sent (set_kernel net k) fd) with (sent net fd). rewrite <- (assoc_L (++)).
      assert (Hz : zlen (slice (bdata b') (rpos b) ret) = ret).
      { rewrite zlen_content in Hret by assumption. destruct Hok. rewrite Hd. apply zlen_slice; lia. }
      assert (Ht : take (Z.to_nat ret) (content b) = slice (bdata b') (rpos b) ret).
      { rewrite Hc'. apply take_app_length'. unfold zlen in Hz. lia. }
      rewrite Ht, <- Hc'. exact Hs.
    - eexists. split; [reflexivity|]. constructor; [exact Hg|exact (eq_trans Hk Hr)|]. exists v. rewrite Eb.
      split; [exact Hv|]. split; [exact Hst|]. split; [exact Hfd|]. split; [exact Hok|exact Hs]. }
  destruct Hfl as (net1 & -> & Hw1). cbn [mbind outcome_bind].
  pose proof Hw1 as [_ _ (v1 & Hv1 & _ & _ & Hok1 & _)].
  rewrite (conn_at_lookup _ _ _ Hv1). cbn [mbind outcome_bind]. rewrite buf_empty_spec by assumption. cbn [mbind outcome_bind].
  destruct (zlen (obuf_content (c_wbuf v1)) =? 0); [|eauto].
  destruct (wstate_set_event net1 id c fd _ EPOLLIN Hw1) as (net2 & r & -> & Hw2). cbn [mbind outcome_bind]. eauto.
Qed.

Lemma iov_consume_concat iov ret :
  concat (iov_consume iov ret) = drop (Z.to_nat ret) (concat iov).
Proof.
  revert ret. induction iov as [|v iov IH]; intros ret; cbn [iov_consume concat]; [now rewrite drop_nil|].
  destruct (Z.ltb_spec 0 ret); [|replace (Z.to_nat ret) with 0%nat by lia; reflexivity].
  destruct (Z.ltb_spec (zlen v) ret); cbn [concat app].
  - rewrite IH, drop_app_ge by (unfold zlen in *; lia). f_equal. unfold zlen in *. lia.
  - rewrite drop_app_le by (unfold zlen in *; lia). reflexivity.
Qed.

Lemma append_iov_spec iov : forall net id c fd stream,
  wstate net id c fd stream -> zlen stream + zlen (concat iov) <= 2 ^ 61 ->
  exists net', append_iov net c iov = Ret net' /\ wstate net' id c fd (stream ++ concat iov).
Proof.
  induction iov as [|v iov IH]; intros net id c fd stream Hw Hmax; cbn [append_iov concat] in *.
  { rewrite app_nil_r. eauto. }
  rewrite zlen_app in Hmax. pose proof (zlen_nonneg (concat iov)).
  assert (Hone : exists net1, (if 0 <? zlen v then '(net, _) ← append_wbuf net c v; Ret net else Ret net) = Ret net1 /\
    wstate net1 id c fd (stream ++ v)).
  { destruct (Z.ltb_spec 0 (zlen v)).
    - destruct (wstate_append net id c fd stream v Hw) as (net1 & -> & Hw1); [lia|]. cbn. eauto.
    - assert (v = []) as -> by (destruct v; [reflexivity|rewrite zlen_cons in *; pose proof (zlen_nonneg v); lia]).
      rewrite app_nil_r. eauto. }
  destruct Hone as (net1 & -> & Hw1). cbn [mbind outcome_bind].
  destruct (IH net1 id c fd (stream ++ v) Hw1) as (net2 & -> & Hw2); [rewrite zlen_app; lia|].
  rewrite <- (assoc_L (++)) in Hw2. eauto.
Qed.

Lemma agN_writev_spec net id c fd stream iov :
  wstate net id c fd stream -> zlen stream + zlen (concat iov) <= 2 ^ 61 ->
  exists net', _agN_writev net id iov = Ret (net', 0) /\ wstate net' id c fd (stream ++ concat iov).
Proof.
  intros Hw Hmax. pose proof Hw as [Hg Hr (v & Hv & Hst & Hfd & Hok & Hs)]. unfold _agN_writev.
  rewrite Hg. cbn [mbind outcome_bind]. rewrite (conn_at_lookup _ _ _ Hv). cbn [mbind outcome_bind].
  rewrite bool_decide_connected by assumption. cbn [negb].
  rewrite buf_empty_spec by assumption. cbn [mbind outcome_bind].
  assert (Hsend : exists net1 rest, (if zlen (obuf_content (c_wbuf v)) =? 0 then
      let '(net, ret) := send net (c_fd v) (concat iov) in (net, iov_consume iov ret) else (net, iov)) = (net1, rest) /\
      exists taken, wstate net1 id c fd (stream ++ taken) /\ taken ++ concat rest = concat iov).
  { destruct (Z.eqb_spec (zlen (obuf_content (c_wbuf v))) 0) as [E|E].
    - assert (Hnil : obuf_content (c_wbuf v) = []) by (destruct (obuf_content (c_wbuf v)); [reflexivity|rewrite zlen_cons in E; pose proof (zlen_nonneg l); lia]).
      pose proof (wstate_send net id c fd stream (concat iov) v Hw Hv Hnil) as Hsd. rewrite Hfd.
      destruct (send net fd (concat iov)) as [net1 ret]. destruct Hsd as (Hw1 & _ & Hle).
      eexists _, _. split; [reflexivity|]. eexists. split; [exact Hw1|]. rewrite iov_consume_concat.
      destruct (Z.ltb_spec 0 ret); [apply take_drop|]. replace (Z.to_nat ret) with 0%nat by lia. reflexivity.
    - exists net, iov. split; [reflexivity|]. exists []. rewrite app_nil_r. auto. }
  destruct Hsend as (net1 & rest & -> & taken & Hw1 & Hcat).
  destruct (append_iov_spec rest net1 id c fd (stream ++ taken) Hw1) as (net2 & -> & Hw2).
  { rewrite zlen_app. rewrite <- Hcat, zlen_app in Hmax. lia. }
  rewrite <- (assoc_L (++)), Hcat in Hw2. cbn [mbind outcome_bind].
  pose proof Hw2 as [_ _ (v2 & Hv2 & _ & _ & Hok2 & _)].
  rewrite (conn_at_lookup _ _ _ Hv2). cbn [mbind outcome_bind]. rewrite buf_empty_spec by assumption. cbn [mbind outcome_bind].
  destruct (zlen (obuf_content (c_wbuf v2)) =? 0); [eauto|].
  destruct (wstate_set_event net2 id c fd _ (Z.lor EPOLLIN EPOLLOUT) Hw2) as (net3 & r & -> & Hw3). cbn [mbind outcome_bind]. eauto.
Qed.

(** The calls that write to one connection. *)
Inductive write_op := WSend (buff : list Z) | WWritev (iov : list (list Z)) | WFlush.

Definition written (op : write_op) : list Z :=
  match op with WSend buff => buff | WWritev iov => concat iov | WFlush => [] end.

Fixpoint run_writes (net : network A) (id : Z) (c : nat) (ops : list write_op) : outcome (network A) :=
  match ops with
  | [] => Ret net
  | WSend buff :: ops' =>
    '(net, rc) ← _agN_send net id buff; _ ← c_assert (rc =? 0); run_writes net id c ops'
  | WWritev iov :: ops' =>
    '(net, rc) ← _agN_writev net id iov; _ ← c_assert (rc =? 0); run_writes net id c ops'
  | WFlush :: ops' => net ← do_conn_write net c; run_writes net id c ops'
  end.

(** C3: The write path is a byte stream: for any sequence of [_agN_send], [_agN_writev]
    and write events on a connected handle, and however many bytes each [send]
    of the kernel takes, every call succeeds and the bytes handed to the
    kernel followed by those that wait in the buffer are exactly the bytes
    written, in order, as long as memory can be had. *)
Theorem write_path_stream ops : forall net id c fd stream,
  wstate net id c fd stream -> zlen stream + zlen (concat (written <$> ops)) <= 2 ^ 61 ->
  Forall (fun op => match op with WSend buff => 0 < zlen buff | _ => True end) ops ->
  exists net', run_writes net id c ops = Ret net' /\ wstate net' id c fd (stream ++ concat (written <$> ops)).
Proof.
  induction ops as [|op ops IH]; intros net id c fd stream Hw Hmax Hf; cbn [run_writes].
  { cbn. rewrite app_nil_r. eauto. }
  inversion_clear Hf as [|? ? Hop Hops]. cbn [fmap list_fmap concat] in Hmax |- *. rewrite zlen_app in Hmax.
  pose proof (zlen_nonneg (concat (written <$> ops))) as Hnn. unfold fmap in *.
  assert (Hstep : exists net1, match op with
     | WSend buff => _agN_send net id buff = Ret (net1, 0)
     | WWritev iov => _agN_writev net id iov = Ret (net1, 0)
     | WFlush => do_conn_write net c = Ret net1 end /\ wstate net1 id c fd (stream ++ written op)).
  { destruct op as [buff|iov|]; cbn [written] in *.
    - apply agN_send_spec; [assumption|lia|exact Hop].
    - apply agN_writev_spec; [assumption|lia].
    - rewrite app_nil_r. now apply do_conn_write_spec. }
  destruct Hstep as (net1 & Hr & Hw1).
  destruct (IH net1 id c fd (stream ++ written op) Hw1) as (net2 & Hr2 & Hw2); [rewrite zlen_app; lia|exact Hops|].
  rewrite <- (assoc_L (++)) in Hw2. exists net2.
  destruct op; rewrite Hr; cbn [mbind outcome_bind Z.eqb c_assert]; auto.
Qed.
End WritePath.

(** A pool of two connections with one attached socket; the kernel takes two
    bytes, then nothing, then three. *)
Definition sample_kernel : kernel := mk_kernel [] [2; -1; 3] [] [] [] true true.
Definition sample_net : network unit :=
  match _agN_attach (_agN_new 2 sample_kernel tt) 9 (mk_handler true true false false) with
  | Ret (net, _) => net
  | _ => _agN_new 2 sample_kernel tt
  end.

Lemma sample_net_wstate : wstate sample_net 0 0 9 [].
Proof. constructor; [reflexivity|reflexivity|]. eexists. split; [reflexivity|]. repeat split. Qed.

Lemma write_path_stream_witness :
  exists net', run_writes sample_net 0 0 [WSend [1; 2; 3; 4]; WFlush; WWritev [[5; 6]; [7]]; WFlush] = Ret net' /\
    wstate net' 0 0 9 [1; 2; 3; 4; 5; 6; 7].
Proof.
  apply (write_path_stream [WSend [1; 2; 3; 4]; WFlush; WWritev [[5; 6]; [7]]; WFlush] sample_net 0 0 9 []);
    [exact sample_net_wstate|vm_compute; discriminate|repeat constructor].
Defined.

(** ** The read path *)

(** What a message handler promises to the network layer: it answers the length of
    the complete message at the head of the data, or 0 when it is incomplete,
    and more data does not change a positive answer. *)
Class Framing (frame_len : list Z -> Z) : Prop := {
  frame_range : forall p, 0 <= frame_len p <= zlen p;
  frame_stable : forall p q, 0 < frame_len p -> frame_len (p ++ q) = frame_len p }.

(** [s] is the messages [ms] followed by the incomplete [r]. *)
Inductive splits (frame_len : list Z -> Z) : list Z -> list (list Z) -> list Z -> Prop :=
| splits_rest r : frame_len r = 0 -> splits frame_len r [] r
| splits_message s ms r :
    0 < frame_len s -> splits frame_len (drop (Z.to_nat (frame_len s)) s) ms r ->
    splits frame_len s (take (Z.to_nat (frame_len s)) s :: ms) r.

Section ReadPath.
Context (frame_len : list Z -> Z) `{!Framing frame_len}.
#[local] Abbreviation net_t := (network (list (list Z))).

(** The handler: it records the message and answers its length. *)
Definition frame_handler (net : net_t) (id : Z) (data : list Z) : net_t * Z :=
  let n := frame_len data in
  (if 0 <? n then
     mk_net (n_lrm net) (n_conns net) (closing_list net) (active_list net) (n_stop net) (n_last net)
       (n_kernel net) (n_app net ++ [take (Z.to_nat n) data]) (n_log net)
   else net, n).

Definition quiet_closed (net : net_t) (id error : Z) : net_t := net.

Lemma splits_concat s ms r : splits frame_len s ms r -> s = concat ms ++ r.
Proof.
  induction 1 as [|s ms r Hs _ IH]; [reflexivity|]. cbn [concat]. rewrite <- (assoc_L (++)), <- IH. symmetry. apply take_drop.
Qed.

Lemma splits_app s t ms r ms' r' :
  splits frame_len s ms r -> splits frame_len (r ++ t) ms' r' -> splits frame_len (s ++ t) (ms ++ ms') r'.
Proof.
  induction 1 as [r Hr|s ms r Hs _ IH]; intros Ht; [exact Ht|]. specialize (IH Ht).
  pose proof (frame_range s) as Hrange. pose proof (frame_stable s t Hs) as Hst.
  assert (Htk : take (Z.to_nat (frame_len s)) s = take (Z.to_nat (frame_len (s ++ t))) (s ++ t))
    by (rewrite Hst, take_app_le; [reflexivity|unfold zlen in *; lia]).
  cbn [app]. rewrite Htk. constructor; [lia|]. rewrite Hst, drop_app_le by (unfold zlen in *; lia). exact IH.
Qed.

Lemma splits_det s ms r ms' r' :
  splits frame_len s ms r -> splits frame_len s ms' r' -> ms = ms' /\ r = r'.
Proof.
  intros H. revert ms' r'. induction H as [r Hr|s ms r Hs _ IH]; intros ms' r' H'; inversion H'; subst; try lia; [auto|].
  match goal with H : splits _ (drop _ _) _ _ |- _ => apply IH in H as [-> ->] end. auto.
Qed.

Lemma frame_nil : frame_len [] = 0.
Proof. pose proof (frame_range []) as Hn. change (zlen (@nil Z)) with 0 in Hn. lia. Qed.

(** Slot [c] is connected, [rest] waits in [rbuf], which holds no whole message, and
    [msgs] were delivered. *)
Record rstate (net : net_t) (c : nat) (rest : list Z) (msgs : list (list Z)) : Prop := {
  rs_realloc : realloc_ok net = true;
  rs_app : n_app net = msgs;
  rs_conn : exists v, n_conns net !! c = Some v /\ c_status v = cs_connected /\
    has_on_message (c_handler v) = true /\ obuf_ok (c_rbuf v) /\ obuf_content (c_rbuf v) = rest }.

(** The state between a read and the end of its processing: everything but the
    delivered messages and the log is as in [net]. *)
Definition same_but_app (net net' : net_t) : Prop :=
  n_conns net' = n_conns net /\ n_kernel net' = n_kernel net.

Lemma process_loop_spec fuel : forall net c data tsize v,
  n_conns net !! c = Some v -> c_status v = cs_connected -> (length data < fuel)%nat ->
  exists net' ms r, process_loop frame_handler fuel net c data tsize = Ret (net', tsize + (zlen data - zlen r)) /\
    splits frame_len data ms r /\ same_but_app net net' /\ n_app net' = n_app net ++ ms.
Proof.
  induction fuel as [|fuel IH]; intros net c data tsize v Hv Hst Hf; [lia|]. cbn [process_loop].
  destruct (Z.eqb_spec (zlen data) 0) as [E|E].
  - assert (data = []) as -> by (destruct data; [reflexivity|rewrite zlen_cons in E; pose proof (zlen_nonneg data); lia]).
    exists net, [], []. change (zlen (@nil Z)) with 0. rewrite Z.sub_0_r, Z.add_0_r, app_nil_r.
    split; [reflexivity|]. split; [constructor; apply frame_nil|]. split; [split; reflexivity|reflexivity].
  - rewrite (conn_at_lookup _ _ _ Hv). cbn [mbind outcome_bind]. unfold frame_handler at 1. cbv zeta.
    pose proof (frame_range data) as Hr. destruct (Z.ltb_spec 0 (frame_len data)) as [Hp|Hz].
    + set (net1 := mk_net _ _ _ _ _ _ _ _ _).
      assert (Hv1 : n_conns net1 !! c = Some v) by exact Hv.
      rewrite (conn_at_lookup _ _ _ Hv1). cbn [mbind outcome_bind]. rewrite bool_decide_connected by assumption.
      destruct (Z.eqb_spec (frame_len data) 0); [lia|]. destruct (Z.ltb_spec (zlen data) (frame_len data)); [lia|].
      cbn [orb negb].
      destruct (IH net1 c (drop (Z.to_nat (frame_len data)) data) (tsize + frame_len data) v Hv1 Hst)
        as (net' & ms & r & -> & Hsp & Hsame & Happ).
      { rewrite length_drop. unfold zlen in *. lia. }
      exists net', (take (Z.to_nat (frame_len data)) data :: ms), r. split.
      { do 2 f_equal. unfold zlen in *. rewrite length_drop. lia. }
      split; [now constructor|]. split; [exact Hsame|]. rewrite Happ. cbn [n_app net1 log_event].
      rewrite <- (assoc_L (++)). reflexivity.
    + rewrite (conn_at_lookup (log_event net _) c v Hv). cbn [mbind outcome_bind].
      destruct (Z.eqb_spec (frame_len data) 0); [|lia]. cbn [orb].
      exists (log_event net (CallMessage (c_id v) data)), [], data. rewrite Z.sub_diag, Z.add_0_r, app_nil_r.
      split; [reflexivity|]. split; [now constructor|]. split; [split; reflexivity|reflexivity].
Qed.

Lemma process_message_spec net c data v :
  n_conns net !! c = Some v -> c_status v = cs_connected -> has_on_message (c_handler v) = true ->
  exists net' ms r, process_conn_message frame_handler net c data = Ret (net', zlen data - zlen r) /\
    splits frame_len data ms r /\ same_but_app net net' /\ n_app net' = n_app net ++ ms.
Proof.
  intros Hv Hst Hh. unfold process_conn_message. rewrite (conn_at_lookup _ _ _ Hv). cbn [mbind outcome_bind].
  rewrite Hh. cbn [negb]. destruct (process_loop_spec (S (length data)) net c data 0 v Hv Hst ltac:(lia))
    as (net' & ms & r & -> & H). eauto.
Qed.

(** Dropping the consumed prefix leaves the rest. *)
Lemma read_consumed b ms r :
  buf_ok b -> splits frame_len (content b) ms r ->
  exists b' p, _agB_read b (zlen (content b) - zlen r) = Ret (b', p) /\ buf_ok b' /\ content b' = r.
Proof.
  intros Hok Hsp. pose proof (splits_concat _ _ _ Hsp) as Hc. pose proof (zlen_nonneg (concat ms)).
  pose proof (zlen_nonneg r). assert (Hz : zlen (content b) = zlen (concat ms) + zlen r) by (rewrite Hc at 1; apply zlen_app).
  pose proof (agB_read_spec b (zlen (content b) - zlen r) Hok ltac:(lia)) as Hrd.
  destruct (Z.ltb_spec (zlen (content b)) (zlen (content b) - zlen r)); [lia|].
  destruct Hrd as (b' & -> & Hok' & Hd & Hcat). exists b'. eexists. split; [reflexivity|]. split; [exact Hok'|].
  rewrite Hc in Hcat at 1. apply app_inj_2 in Hcat as [_ Hr]; [now symmetry|].
  apply Nat2Z.inj. change (zlen r = zlen (content b')).
  assert (Hs : zlen (slice (bdata b') (rpos b) (zlen (content b) - zlen r)) = zlen (content b) - zlen r).
  { rewrite Hd. rewrite zlen_content in * by assumption. destruct Hok. apply zlen_slice; lia. }
  assert (Hz' : zlen (content b) = zlen (slice (bdata b') (rpos b) (zlen (content b) - zlen r)) + zlen (content b')).
  { rewrite <- zlen_app. f_equal. rewrite Hc at 1. exact Hcat. }
  lia.
Qed.

Lemma process_rbuf_spec net c msgs v b :
  realloc_ok net = true -> n_app net = msgs -> n_conns net !! c = Some v -> c_status v = cs_connected ->
  has_on_message (c_handler v) = true -> c_rbuf v = Some b -> buf_ok b ->
  exists net' ms r, process_rbuf frame_handler net c = Ret net' /\ splits frame_len (content b) ms r /\
    rstate net' c r (msgs ++ ms) /\ n_kernel net' = n_kernel net.
Proof.
  intros Hr Happ Hv Hst Hh Hb Hok. unfold process_rbuf. rewrite (conn_at_lookup _ _ _ Hv). cbn [mbind outcome_bind].
  rewrite Hb. cbn [deref mbind outcome_bind]. destruct (peek_all b Hok) as (n & -> & Hn & Hp & Hl).
  cbn [mbind outcome_bind]. rewrite Hp. cbn [deref mbind outcome_bind]. rewrite Hl. cbn [mbind outcome_bind].
  destruct (process_message_spec net c (content b) v Hv Hst Hh) as (net1 & ms & r & -> & Hsp & [Hc1 Hk1] & Ha1).
  cbn [mbind outcome_bind]. pose proof (zlen_nonneg r).
  destruct (Z.leb_spec (zlen (content b) - zlen r) n); [|lia]. cbn [c_assert mbind outcome_bind].
  assert (Hv1 : n_conns net1 !! c = Some v) by (rewrite Hc1; exact Hv).
  rewrite (conn_at_lookup _ _ _ Hv1). cbn [mbind outcome_bind]. rewrite bool_decide_connected by assumption. cbn [negb].
  rewrite Hb. cbn [deref mbind outcome_bind]. destruct (read_consumed b ms r Hok Hsp) as (b' & p & -> & Hok' & Hc').
  cbn [mbind outcome_bind]. eexists _, ms, r. split; [reflexivity|]. split; [exact Hsp|]. split; [|exact Hk1].
  constructor; [unfold realloc_ok in *; cbn; now rewrite Hk1|cbn; congruence|].
  eexists. split; [eapply put_conn_lookup; exact Hv1|]. split; [exact Hst|]. split; [exact Hh|]. split; [exact Hok'|exact Hc'].
Qed.

Lemma splits_end s ms r : splits frame_len s ms r -> frame_len r = 0.
Proof. now induction 1. Qed.

Lemma write_rbuf_spec (net : net_t) c v bytes :
  realloc_ok net = true -> n_conns net !! c = Some v -> obuf_ok (c_rbuf v) ->
  zlen (obuf_content (c_rbuf v)) + zlen bytes <= 2 ^ 61 ->
  exists b, write_rbuf net c bytes = Ret (put_conn net c (with_rbuf v (Some b))) /\ buf_ok b /\
    content b = obuf_content (c_rbuf v) ++ bytes.
Proof.
  intros Hr Hv Hok Hmax. unfold write_rbuf. rewrite (conn_at_lookup _ _ _ Hv), Hr. cbn [mbind outcome_bind].
  destruct (obuf_write (c_rbuf v) bytes Hok Hmax) as (b & -> & Hb & Hc). cbn [mbind outcome_bind]. eauto.
Qed.

(** Results of [recv] that do not end the connection, and their bytes. *)
Definition benign (r : recv_result) : bool :=
  match r with RecvData _ | RecvIntr | RecvAgain => true | _ => false end.
Definition bytes_of (rs : list recv_result) : list Z :=
  concat (map (fun r => match r with RecvData bs => bs | _ => [] end) rs).

Lemma zlen_zero_nil (l : list Z) : zlen l = 0 -> l = [].
Proof. destruct l; [reflexivity|]. rewrite zlen_cons. pose proof (zlen_nonneg l). lia. Qed.

(** One chunk of data. *)
Lemma read_chunk net c rest msgs buff :
  rstate net c rest msgs -> frame_len rest = 0 -> zlen rest + zlen buff <= 2 ^ 61 ->
  exists net' ms rest', splits frame_len (rest ++ buff) ms rest' /\ rstate net' c rest' (msgs ++ ms) /\
    n_kernel net' = n_kernel net /\
    forall fuel bits, (v ← conn_at net c;
      if negb (has_on_message (c_handler v)) then read_loop frame_handler quiet_closed fuel net c bits
      else
        e ← buf_empty (c_rbuf v);
        if (e : bool) then
          '(net, s) ← process_conn_message frame_handler net c buff;
          _ ← c_assert (s <=? zlen buff);
          v ← conn_at net c;
          if negb (bool_decide (c_status v = cs_connected)) then Ret net
          else
            net ← (if s <? zlen buff then write_rbuf net c (drop (Z.to_nat s) buff) else Ret net);
            read_loop frame_handler quiet_closed fuel net c bits
        else
          net ← write_rbuf net c buff;
          net ← process_rbuf frame_handler net c;
          v ← conn_at net c;
          if negb (bool_decide (c_status v = cs_connected)) then Ret net
          else read_loop frame_handler quiet_closed fuel net c bits) =
    read_loop frame_handler quiet_closed fuel net' c bits.
Proof.
  intros [Hr Ha (v & Hv & Hst & Hh & Hok & Hc)] Hf Hmax.
  destruct (Z.eqb_spec (zlen rest) 0) as [E|E].
  - apply zlen_zero_nil in E. subst rest. rewrite E in *. cbn [app].
    destruct (process_message_spec net c buff v Hv Hst Hh) as (net1 & ms & r & Hp & Hsp & [Hc1 Hk1] & Ha1).
    pose proof (splits_concat _ _ _ Hsp) as Hcat. pose proof (zlen_nonneg (concat ms)). pose proof (zlen_nonneg r).
    assert (Hz : zlen buff = zlen (concat ms) + zlen r) by (rewrite Hcat at 1; apply zlen_app).
    assert (Hv1 : n_conns net1 !! c = Some v) by (rewrite Hc1; exact Hv).
    assert (Hr1 : realloc_ok net1 = true) by (unfold realloc_ok in *; now rewrite Hk1).
    assert (Hdrop : drop (Z.to_nat (zlen buff - zlen r)) buff = r).
    { rewrite Hcat at 2. apply drop_app_length'. rewrite Hz. unfold zlen. lia. }
    assert (Hnext : exists net2, (if zlen buff - zlen r <? zlen buff then write_rbuf net1 c r else Ret net1) = Ret net2 /\
      rstate net2 c r (msgs ++ ms) /\ n_kernel net2 = n_kernel net).
    { destruct (Z.ltb_spec (zlen buff - zlen r) (zlen buff)).
      - destruct (write_rbuf_spec net1 c v r Hr1 Hv1 Hok) as (b & Hw & Hb & Hcb); [rewrite E; change (zlen (@nil Z)) with 0 in *; lia|].
        rewrite Hw. eexists. split; [reflexivity|]. split; [|exact Hk1]. constructor; [exact Hr1|cbn; congruence|].
        eexists. split; [eapply put_conn_lookup; exact Hv1|]. split; [exact Hst|]. split; [exact Hh|]. split; [exact Hb|].
        cbn. rewrite Hcb, E. reflexivity.
      - exists net1. split; [reflexivity|]. assert (r = []) as -> by (apply zlen_zero_nil; lia). split; [|exact Hk1].
        constructor; [exact Hr1|congruence|]. exists v. auto. }
    destruct Hnext as (net2 & Hw & Hrs & Hk2). exists net2, ms, r. split; [exact Hsp|]. split; [exact Hrs|]. split; [exact Hk2|].
    intros fuel bits. rewrite (conn_at_lookup _ _ _ Hv). cbn [mbind outcome_bind]. rewrite Hh. cbn [negb].
    rewrite buf_empty_spec, E by assumption. cbn [mbind outcome_bind]. change (zlen (@nil Z) =? 0) with true. cbv iota.
    rewrite Hp. cbn [mbind outcome_bind]. destruct (Z.leb_spec (zlen buff - zlen r) (zlen buff)); [|lia].
    cbn [c_assert mbind outcome_bind]. rewrite (conn_at_lookup _ _ _ Hv1). cbn [mbind outcome_bind].
    rewrite bool_decide_connected by assumption. cbn [negb]. rewrite Hdrop, Hw. reflexivity.
  - subst rest. destruct (write_rbuf_spec net c v buff Hr Hv Hok Hmax) as (b & Hw & Hb & Hcb).
    set (v1 := with_rbuf v (Some b)). set (net1 := put_conn net c v1).
    assert (Hv1 : n_conns net1 !! c = Some v1) by (eapply put_conn_lookup; exact Hv).
    destruct (process_rbuf_spec net1 c msgs v1 b) as (net2 & ms & r & Hp & Hsp & Hrs & Hk2); try assumption || reflexivity.
    rewrite Hcb in Hsp. exists net2, ms, r. split; [exact Hsp|]. split; [exact Hrs|]. split; [exact Hk2|].
    intros fuel bits. rewrite (conn_at_lookup _ _ _ Hv). cbn [mbind outcome_bind]. rewrite Hh. cbn [negb].
    rewrite buf_empty_spec by assumption. cbn [mbind outcome_bind].
    destruct (Z.eqb_spec (zlen (obuf_content (c_rbuf v))) 0); [contradiction|].
    rewrite Hw. cbn [mbind outcome_bind]. fold v1 net1. rewrite Hp. cbn [mbind outcome_bind].
    destruct Hrs as [_ _ (v2 & Hv2 & Hst2 & _)]. rewrite (conn_at_lookup _ _ _ Hv2). cbn [mbind outcome_bind].
    rewrite bool_decide_connected by assumption. reflexivity.
Qed.

Lemma rstate_kernel net c rest msgs k :
  rstate net c rest msgs -> k_realloc_ok k = realloc_ok net -> rstate (set_kernel net k) c rest msgs.
Proof. intros [Hr Ha Hc] Hk. constructor; [exact (eq_trans Hk Hr)|exact Ha|exact Hc]. Qed.

(** [EAGAIN]: the handler sees the incomplete message again and takes nothing. *)
Lemma read_again net c rest msgs :
  rstate net c rest msgs -> frame_len rest = 0 ->
  exists net', (v ← conn_at net c; e ← buf_empty (c_rbuf v);
      if (e : bool) then Ret net else process_rbuf frame_handler net c) = Ret net' /\
    rstate net' c rest msgs /\ n_kernel net' = n_kernel net.
Proof.
  intros Hrs Hf. pose proof Hrs as [Hr Ha (v & Hv & Hst & Hh & Hok & Hc)].
  rewrite (conn_at_lookup _ _ _ Hv). cbn [mbind outcome_bind].
  rewrite buf_empty_spec by assumption. cbn [mbind outcome_bind].
  destruct (Z.eqb_spec (zlen (obuf_content (c_rbuf v))) 0) as [E|E]; [eauto|].
  destruct (c_rbuf v) as [b|] eqn:Eb; [|destruct E; reflexivity].
  destruct (process_rbuf_spec net c msgs v b Hr Ha Hv Hst Hh Eb Hok) as (net' & ms & r & -> & Hsp & Hrs' & Hk).
  cbn [obuf_content] in Hc. rewrite Hc in Hsp.
  destruct (splits_det _ _ _ _ _ Hsp (splits_rest frame_len rest Hf)) as [-> ->]. rewrite app_nil_r in Hrs'. eauto.
Qed.

Lemma read_loop_spec fuel : forall net c bits rest msgs,
  rstate net c rest msgs -> frame_len rest = 0 -> forallb benign (k_recv (n_kernel net)) = true ->
  (length (k_recv (n_kernel net)) < fuel)%nat -> zlen rest + zlen (bytes_of (k_recv (n_kernel net))) <= 2 ^ 61 ->
  exists net' done todo ms rest', read_loop frame_handler quiet_closed fuel net c bits = Ret net' /\
    k_recv (n_kernel net) = done ++ todo /\ k_recv (n_kernel net') = todo /\
    splits frame_len (rest ++ bytes_of done) ms rest' /\ rstate net' c rest' (msgs ++ ms) /\
    (bits < 10240 -> done = [] -> todo = []).
Proof.
  induction fuel as [|fuel IH]; intros net c bits rest msgs Hrs Hf Hben Hfuel Hmax; [lia|].
  cbn [read_loop]. change (1024 * 10) with 10240. destruct (Z.leb_spec 10240 bits).
  { exists net, [], (k_recv (n_kernel net)), [], rest. split; [reflexivity|]. split; [reflexivity|]. split; [reflexivity|].
    cbn [bytes_of concat map]. rewrite !app_nil_r. split; [now constructor|]. split; [exact Hrs|]. lia. }
  unfold recv at 1. destruct (k_recv (n_kernel net)) as [|r rs] eqn:Ek.
  - destruct (read_again net c rest msgs Hrs Hf) as (net' & -> & Hrs' & Hk'). exists net', [], [], [], rest. cbn [bytes_of concat map]. rewrite !app_nil_r, Hk'.
    split; [reflexivity|]. split; [reflexivity|]. split; [exact Ek|]. split; [now constructor|]. split; [exact Hrs'|auto].
  - cbn [forallb] in Hben. apply andb_true_iff in Hben as [Hb Hben]. cbn [length] in Hfuel.
    set (k1 := mk_kernel _ _ _ _ _ _ _). set (net1 := set_kernel net k1).
    assert (Hrs1 : rstate net1 c rest msgs) by (apply rstate_kernel; [exact Hrs|reflexivity]).
    assert (Hbytes : bytes_of (r :: rs) = (match r with RecvData bs => bs | _ => [] end) ++ bytes_of rs) by reflexivity.
    rewrite Hbytes, zlen_app in Hmax. pose proof (zlen_nonneg (bytes_of rs)).
    destruct r as [| | |e|buff]; try discriminate.
    + (* EAGAIN *)
      destruct (read_again net1 c rest msgs Hrs1 Hf) as (net' & -> & Hrs' & Hk'). exists net', [RecvAgain], rs, [], rest.
      change (bytes_of [RecvAgain]) with (@nil Z). rewrite !app_nil_r, Hk'.
      split; [reflexivity|]. split; [reflexivity|]. split; [reflexivity|]. split; [now constructor|]. split; [exact Hrs'|discriminate].
    + (* EINTR *)
      change (zlen (@nil Z)) with 0 in Hmax.
      destruct (IH net1 c bits rest msgs Hrs1 Hf Hben) as (net' & done & todo & ms & rest' & -> & Hd & Ht & Hsp & Hrs' & _);
        [change (length rs < fuel)%nat; lia|change (zlen rest + zlen (bytes_of rs) <= 2 ^ 61); lia|].
      cbn in Hd. exists net', (RecvIntr :: done), todo, ms, rest'.
      split; [reflexivity|]. split; [cbn; now rewrite Hd|]. split; [exact Ht|]. split; [exact Hsp|]. split; [exact Hrs'|discriminate].
    + (* data *)
      destruct (read_chunk net1 c rest msgs buff Hrs1 Hf) as (net2 & ms1 & rest1 & Hsp1 & Hrs2 & Hk2 & Heq); [lia|].
      rewrite Heq. clear Heq.
      pose proof (splits_concat _ _ _ Hsp1) as Hcat. apply (f_equal zlen) in Hcat. rewrite !zlen_app in Hcat.
      pose proof (zlen_nonneg (concat ms1)).
      destruct (IH net2 c (bits + zlen buff) rest1 (msgs ++ ms1) Hrs2 (splits_end _ _ _ Hsp1))
        as (net' & done & todo & ms & rest' & -> & Hd & Ht & Hsp & Hrs' & _); rewrite ?Hk2; cbn [n_kernel set_kernel net1 k_recv k1];
        [exact Hben|lia|lia|].
      rewrite Hk2 in Hd. cbn in Hd. exists net', (RecvData buff :: done), todo, (ms1 ++ ms), rest'.
      split; [reflexivity|]. split; [cbn; now rewrite Hd|]. split; [exact Ht|].
      split; [|split; [now rewrite (assoc_L (++))|discriminate]].
      change (bytes_of (RecvData buff :: done)) with (buff ++ bytes_of done). rewrite (assoc_L (++)).
      eapply splits_app; eassumption.
Qed.

(** [n] read events on the connection. *)
Fixpoint read_events (n : nat) (net : net_t) (c : nat) : outcome net_t :=
  match n with
  | O => Ret net
  | S n' => net ← do_conn_read frame_handler quiet_closed net c; read_events n' net c
  end.

Lemma do_conn_read_loop net c rest msgs :
  rstate net c rest msgs ->
  do_conn_read frame_handler quiet_closed net c =
  read_loop frame_handler quiet_closed (S (length (k_recv (n_kernel net)))) net c 0.
Proof.
  intros [_ _ (v & Hv & Hst & _)]. unfold do_conn_read. rewrite (conn_at_lookup _ _ _ Hv). cbn [mbind outcome_bind].
  now rewrite bool_decide_connected.
Qed.

Lemma bytes_of_app rs rs' : bytes_of (rs ++ rs') = bytes_of rs ++ bytes_of rs'.
Proof. unfold bytes_of. now rewrite map_app, concat_app. Qed.

(** Any number of readable events until the script of [recv] is exhausted. *)
Lemma read_events_spec n : forall net c rest msgs,
  rstate net c rest msgs -> frame_len rest = 0 -> forallb benign (k_recv (n_kernel net)) = true ->
  zlen rest + zlen (bytes_of (k_recv (n_kernel net))) <= 2 ^ 61 -> (length (k_recv (n_kernel net)) <= n)%nat ->
  exists net' ms rest', read_events n net c = Ret net' /\ k_recv (n_kernel net') = [] /\
    splits frame_len (rest ++ bytes_of (k_recv (n_kernel net))) ms rest' /\ rstate net' c rest' (msgs ++ ms) /\
    forall ms' r', splits frame_len (rest ++ bytes_of (k_recv (n_kernel net))) ms' r' -> ms' = ms /\ r' = rest'.
Proof.
  intros net c rest msgs Hrs Hf Hben Hmax Hn.
  enough (H : exists net' ms rest', read_events n net c = Ret net' /\ k_recv (n_kernel net') = [] /\
    splits frame_len (rest ++ bytes_of (k_recv (n_kernel net))) ms rest' /\ rstate net' c rest' (msgs ++ ms)).
  { destruct H as (net' & ms & rest' & H1 & H2 & H3 & H4). exists net', ms, rest'. repeat (split; [assumption|]).
    intros ms' r' Hs. eapply splits_det; eassumption. }
  revert net rest msgs Hrs Hf Hben Hmax Hn. induction n as [|n IH]; intros net rest msgs Hrs Hf Hben Hmax Hn; cbn [read_events].
  { destruct (k_recv (n_kernel net)) eqn:Ek; [|cbn in Hn; lia]. exists net, [], rest. rewrite !app_nil_r.
    split; [reflexivity|]. split; [exact Ek|]. split; [|exact Hrs]. now constructor. }
  rewrite (do_conn_read_loop net c rest msgs Hrs).
  destruct (read_loop_spec (S (length (k_recv (n_kernel net)))) net c 0 rest msgs Hrs Hf Hben ltac:(lia) Hmax)
    as (net1 & done & todo & ms1 & rest1 & -> & Hd & Ht & Hsp1 & Hrs1 & Hprog). cbn [mbind outcome_bind].
  rewrite Hd in Hben, Hmax, Hn. rewrite bytes_of_app, zlen_app in Hmax. rewrite forallb_app in Hben.
  apply andb_true_iff in Hben as [_ Hben]. rewrite length_app in Hn.
  pose proof (splits_concat _ _ _ Hsp1) as Hcat. apply (f_equal zlen) in Hcat. rewrite !zlen_app in Hcat.
  pose proof (zlen_nonneg (concat ms1)).
  destruct (IH net1 rest1 (msgs ++ ms1) Hrs1 (splits_end _ _ _ Hsp1)) as (net2 & ms2 & rest2 & Hr & Hk & Hsp2 & Hrs2);
    rewrite ?Ht; [exact Hben|lia| |].
  { destruct done; [rewrite (Hprog ltac:(lia) eq_refl); cbn; lia|cbn in Hn; lia]. }
  rewrite Ht in Hsp2. exists net2, (ms1 ++ ms2), rest2. split; [exact Hr|]. split; [exact Hk|].
  rewrite Hd, bytes_of_app, !(assoc_L (++)). split; [eapply splits_app; eassumption|exact Hrs2].
Qed.

(** C2: The read path reassembles messages independently of the packets: with a
    handler that answers the length of the complete message at the head of the
    data or 0, whatever chunks, interruptions and would-block answers [recv]
    gives, the messages delivered are exactly the messages of the byte stream,
    each once and in order, and the incomplete rest waits in the buffer. *)
Theorem read_path_reassembles n : forall net c rest msgs,
  rstate net c rest msgs -> frame_len rest = 0 -> forallb benign (k_recv (n_kernel net)) = true ->
  zlen rest + zlen (bytes_of (k_recv (n_kernel net))) <= 2 ^ 61 -> (length (k_recv (n_kernel net)) <= n)%nat ->
  exists net' ms rest', read_events n net c = Ret net' /\ k_recv (n_kernel net') = [] /\
    splits frame_len (rest ++ bytes_of (k_recv (n_kernel net))) ms rest' /\ rstate net' c rest' (msgs ++ ms) /\
    forall ms' r', splits frame_len (rest ++ bytes_of (k_recv (n_kernel net))) ms' r' -> ms' = ms /\ r' = rest'.
Proof. exact (read_events_spec n). Qed.
End ReadPath.

(** ** Closing *)

(** The closing list as the slots it links. *)
Fixpoint closing_chain (conns : list conn) (p : option nat) (cl : list nat) : Prop :=
  match cl with
  | [] => p = None
  | c :: cl' => p = Some c /\ exists v, conns !! c = Some v /\ closing_chain conns (c_next v) cl'
  end.

(** [idles] are the idle slots of the pool, [cl] the connections to be closed: a
    connection in use carries the id of its slot, and it is in [cl] exactly
    when its status is [cs_closing]. *)
Record net_ok {A} (bound : Z) (net : network A) (idles cl : list nat) : Prop := {
  no_lrm : lrm_ok bound (n_lrm net) idles;
  no_length : length (n_conns net) = length (slots (n_lrm net));
  no_chain : closing_chain (n_conns net) (closing_list net) cl;
  no_nodup : NoDup cl;
  no_busy : forall c, c ∈ cl -> c ∉ idles;
  no_used : forall c v, n_conns net !! c = Some v -> c ∉ idles ->
    (exists res, slots (n_lrm net) !! c = Some res /\ res_id res = c_id v) /\
    (c_status v = cs_closing <-> c ∈ cl) }.

(** The descriptors closed so far. *)
Definition closed_by (e : net_event) : list Z := match e with SysClose fd => [fd] | _ => [] end.
Definition closed_fds {A} (net : network A) : list Z := concat (closed_by <$> n_log net).

Lemma closed_log {A} (net : network A) e : closed_fds (log_event net e) = closed_fds net ++ closed_by e.
Proof. unfold closed_fds. cbn [n_log log_event]. rewrite fmap_app, concat_app. cbn. now rewrite app_nil_r. Qed.

Lemma closing_chain_insert conns p cl c v :
  c ∉ cl -> closing_chain conns p cl -> closing_chain (<[c := v]> conns) p cl.
Proof.
  revert p. induction cl as [|d cl IH]; intros p Hc; cbn [closing_chain]; [auto|].
  intros (-> & w & Hw & Hch). split; [reflexivity|]. exists w.
  rewrite list_lookup_insert_ne by (intros ->; apply Hc; left). split; [exact Hw|].
  apply IH; [|exact Hch]. intros Hin. apply Hc. now right.
Qed.

Lemma conn_set_event_spec {A} (net : network A) c v e :
  n_conns net !! c = Some v ->
  exists net' r v', conn_set_event net c e = Ret (net', r) /\ n_conns net' = <[c := v']> (n_conns net) /\
    n_lrm net' = n_lrm net /\ closing_list net' = closing_list net /\ closed_fds net' = closed_fds net /\
    c_id v' = c_id v /\ c_status v' = c_status v /\ c_next v' = c_next v /\ c_fd v' = c_fd v.
Proof.
  intros Hv. unfold conn_set_event. rewrite (conn_at_lookup _ _ _ Hv). cbn [mbind outcome_bind].
  destruct (e =? c_events v).
  - exists net, 0, v. rewrite list_insert_id by assumption. repeat split.
  - set (net1 := log_event net _).
    assert (Hc : closed_fds net1 = closed_fds net) by (unfold net1; rewrite closed_log; apply app_nil_r).
    destruct (k_epoll_ok (n_kernel net1)).
    + eexists _, _, (with_events v e). split; [reflexivity|]. repeat split. exact Hc.
    + exists net1, (-1), v. split; [reflexivity|]. rewrite list_insert_id by assumption. repeat split. exact Hc.
Qed.

Section Closing.
Context {A : Type}.
Implicit Types net : network A.

Lemma agN_close_spec bound net idles cl c v :
  net_ok bound net idles cl -> n_conns net !! c = Some v -> c ∉ idles -> c ∉ cl ->
  exists net' v', _agN_close net (c_id v) = Ret net' /\ net_ok bound net' idles (c :: cl) /\
    n_lrm net' = n_lrm net /\ closed_fds net' = closed_fds net /\
    n_conns net' = <[c := v']> (n_conns net) /\ c_fd v' = c_fd v /\ c_id v' = c_id v.
Proof.
  intros Hok Hv Hni Hncl. pose proof Hok as [Hl Hlen Hch Hnd Hbusy Hused].
  destruct (Hused c v Hv Hni) as [(res & Hres & Hid) Hst].
  unfold _agN_close, get_conn, _agR_get. rewrite (get_live _ _ _ _ c res Hl Hres Hid). cbn [mbind outcome_bind].
  rewrite (conn_at_lookup _ _ _ Hv). cbn [mbind outcome_bind].
  destruct (decide (c_status v = cs_closing)) as [E|_]; [now apply Hst in E|].
  pose proof (lookup_lt_Some _ _ _ Hv) as Hlt.
  destruct (conn_set_event_spec (put_conn net c (with_status v cs_closing)) c (with_status v cs_closing) 0)
    as (net1 & r & v1 & -> & Hc1 & Hl1 & Hcl1 & Hfd1 & Hid1 & Hst1 & Hn1 & Hf1); [eapply put_conn_lookup; exact Hv|].
  cbn [mbind outcome_bind]. cbn [put_conn n_conns set_conns n_lrm closing_list] in Hc1, Hl1, Hcl1.
  rewrite list_insert_insert_eq in Hc1.
  assert (Hv1 : n_conns net1 !! c = Some v1) by (rewrite Hc1; now apply list_lookup_insert_eq).
  rewrite (conn_at_lookup _ _ _ Hv1). cbn [mbind outcome_bind].
  set (v2 := with_next v1 (closing_list net1)). exists (set_closing (put_conn net1 c v2) (Some c)), v2.
  assert (Hc2 : <[c:=v2]> (n_conns net1) = <[c:=v2]> (n_conns net)) by (rewrite Hc1; apply list_insert_insert_eq).
  split; [reflexivity|]. split; [|split; [exact Hl1|split; [exact Hfd1|split; [exact Hc2|split; [exact Hf1|exact Hid1]]]]].
  constructor; cbn [n_lrm n_conns closing_list set_closing put_conn set_conns]; rewrite ?Hl1, ?Hc2.
  - exact Hl.
  - now rewrite length_insert.
  - split; [reflexivity|]. exists v2. split; [now apply list_lookup_insert_eq|]. cbn [v2 with_next c_next].
    rewrite Hcl1. now apply closing_chain_insert.
  - now apply list.NoDup_cons.
  - intros d Hd. apply elem_of_cons in Hd as [->|Hd]; auto.
  - intros d w Hd Hdi. apply list_lookup_insert_Some in Hd as [(<- & <- & _)|(Hne & Hd)].
    + split; [exists res; split; [exact Hres|exact (eq_trans Hid (eq_sym Hid1))]|]. split; [intros _; left|]. intros _. cbn. now rewrite Hst1.
    + destruct (Hused d w Hd Hdi) as [Hr Hiff]. split; [exact Hr|]. rewrite Hiff, elem_of_cons. split; [auto|].
      intros [->|H]; [congruence|exact H].
Qed.

(** Closing a connection that is already closing does nothing. *)
Lemma agN_close_again bound net idles cl c v :
  net_ok bound net idles cl -> n_conns net !! c = Some v -> c ∈ cl -> _agN_close net (c_id v) = Ret net.
Proof.
  intros Hok Hv Hcl. pose proof Hok as [Hl Hlen Hch Hnd Hbusy Hused].
  destruct (Hused c v Hv (Hbusy c Hcl)) as [(res & Hres & Hid) Hst].
  unfold _agN_close, get_conn, _agR_get. rewrite (get_live _ _ _ _ c res Hl Hres Hid). cbn [mbind outcome_bind].
  rewrite (conn_at_lookup _ _ _ Hv). cbn [mbind outcome_bind].
  destruct (decide (c_status v = cs_closing)) as [_|E]; [reflexivity|]. destruct E. now apply Hst.
Qed.

(** The descriptors of the connections [cl], in order, that are open. *)
Definition fds_of (net : network A) (cl : list nat) : list Z :=
  concat (map (fun c => match n_conns net !! c with
                        | Some v => if 0 <=? c_fd v then [c_fd v] else []
                        | None => [] end) cl).

Lemma do_close_spec bound net idles c cl v :
  net_ok bound net idles (c :: cl) -> bound + lmax (n_lrm net) <= INVALID_ID -> n_conns net !! c = Some v ->
  exists net', do_close (set_closing net (c_next v)) c = Ret net' /\
    net_ok (bound + lmax (n_lrm net)) net' (c :: idles) cl /\ lmax (n_lrm net') = lmax (n_lrm net) /\
    closed_fds net' = closed_fds net ++ fds_of net [c] /\
    n_conns net' = <[c := with_status v cs_closed]> (n_conns net) /\
    (forall d, d <> c -> slots (n_lrm net') !! d = slots (n_lrm net) !! d) /\
    _agR_get (n_lrm net') (c_id v) = Ret None.
Proof.
  intros Hok Hb Hv. pose proof Hok as [Hl Hlen Hch Hnd Hbusy Hused].
  apply list.NoDup_cons in Hnd as [Hncl Hnd]. assert (Hni : c ∉ idles) by (apply Hbusy; left).
  destruct (Hused c v Hv Hni) as [(res & Hres & Hid) Hst].
  destruct Hch as (Hhead & v' & Hv' & Hch). rewrite Hv in Hv'. injection Hv' as <-.
  unfold do_close. rewrite (conn_at_lookup (set_closing net (c_next v)) c v Hv). cbn [mbind outcome_bind].
  set (net1 := if 0 <=? c_fd v then _ else _).
  assert (H1 : n_lrm net1 = n_lrm net /\ n_conns net1 = n_conns net /\ closing_list net1 = c_next v /\
    closed_fds net1 = closed_fds net ++ fds_of net [c]).
  { unfold fds_of. cbn [map concat]. rewrite Hv, app_nil_r. subst net1. destruct (0 <=? c_fd v).
    - repeat split. exact (closed_log (set_closing net (c_next v)) (SysClose (c_fd v))).
    - rewrite app_nil_r. repeat split. }
  clearbody net1. destruct H1 as (Hl1 & Hc1 & Hcl1 & Hfd1). cbn [put_conn set_conns n_lrm]. rewrite Hl1, <- Hid.
  destruct (agR_free_spec _ _ _ _ _ Hl Hb Hres Hni) as (l & -> & Hl' & Hs' & Hmax'). cbn [mbind outcome_bind].
  pose proof (lookup_lt_Some _ _ _ Hv) as Hlt. pose proof (lookup_lt_Some _ _ _ Hres) as Hltr.
  eexists. split; [reflexivity|]. cbn [n_lrm n_conns closing_list set_lrm put_conn set_conns].
  split; [|split; [exact Hmax'|split; [exact Hfd1|split; [now rewrite Hc1|split]]]].
  - constructor; cbn [n_lrm n_conns closing_list set_lrm put_conn set_conns]; rewrite ?Hc1, ?Hs'.
    + exact Hl'.
    + now rewrite !length_insert.
    + rewrite Hcl1. now apply closing_chain_insert.
    + exact Hnd.
    + intros d Hd Hin. apply elem_of_cons in Hin as [->|Hin]; [contradiction|]. eapply Hbusy; [right; exact Hd|exact Hin].
    + intros d w Hd Hdi. assert (Hne : d <> c) by (intros ->; apply Hdi; left).
      rewrite list_lookup_insert_ne in Hd by congruence. rewrite list_lookup_insert_ne by congruence.
      destruct (Hused d w Hd) as [Hr Hiff]; [intros Hin; apply Hdi; now right|]. split; [exact Hr|].
      rewrite Hiff, elem_of_cons. split; [intros [->|H]; [congruence|exact H]|auto].
  - intros d Hd. rewrite Hs'. now rewrite list_lookup_insert_ne by congruence.
  - unfold _agR_get. destruct (lrm_ids _ _ _ Hl c res Hres) as [Hmod Hr].
    destruct (get_lresource_spec _ _ _ (res_id res) Hl' ltac:(lia)) as (i & res' & Hi & Hres' & ->).
    rewrite Hmax', Hmod, Nat2Z.id in Hi. subst i. rewrite Hs', list_lookup_insert_eq in Hres' by assumption.
    injection Hres' as <-. cbn [res_id]. destruct (lrm_max _ _ _ Hl) as [Hm _].
    destruct (Z.eqb_spec (res_id res + lmax (n_lrm net)) (res_id res)); [lia|reflexivity].
Qed.

Lemma get_frame l l' id i :
  lmax l' = lmax l -> 0 < lmax l < 2 ^ 31 -> slots l' !! i = slots l !! i -> id mod lmax l = Z.of_nat i ->
  get_lresource l id = Ret None -> get_lresource l' id = Ret None.
Proof.
  intros Hm Hr Hs Hi. unfold get_lresource, get_lresource_by_index. rewrite Hm, Hi.
  assert (Hi32 : i32 (Z.of_nat i) = Z.of_nat i) by (apply i32_small; pose proof (Z.mod_pos_bound id (lmax l)); lia).
  rewrite Hi32. destruct (lmax l =? 0); [auto|]. destruct ((Z.of_nat i <? 0) || (lmax l <=? Z.of_nat i)); [auto|].
  cbn [deref mbind outcome_bind]. rewrite Nat2Z.id, Hs. auto.
Qed.

Lemma fds_of_frame net net' cl :
  (forall c, c ∈ cl -> n_conns net' !! c = n_conns net !! c) -> fds_of net' cl = fds_of net cl.
Proof.
  intros H. unfold fds_of. f_equal. apply map_ext_in. intros c Hc. rewrite H; [reflexivity|]. now apply list_elem_of_In.
Qed.

Lemma cleanClient_spec cl : forall fuel bound net idles,
  net_ok bound net idles cl -> bound + zlen cl * lmax (n_lrm net) <= INVALID_ID -> (length cl <= fuel)%nat ->
  exists net', cleanClient fuel net = Ret net' /\
    net_ok (bound + zlen cl * lmax (n_lrm net)) net' (rev cl ++ idles) [] /\
    lmax (n_lrm net') = lmax (n_lrm net) /\
    closed_fds net' = closed_fds net ++ fds_of net cl /\
    (forall d, d ∉ cl -> slots (n_lrm net') !! d = slots (n_lrm net) !! d) /\
    (forall c v, c ∈ cl -> n_conns net !! c = Some v -> _agR_get (n_lrm net') (c_id v) = Ret None).
Proof.
  induction cl as [|c cl IH]; intros fuel bound net idles Hok Hb Hf.
  - exists net. pose proof (no_chain _ _ _ _ Hok) as Hch. cbn in Hch.
    split; [destruct fuel; cbn; now rewrite Hch|].
    change (zlen (@nil nat)) with 0. rewrite Z.mul_0_l, Z.add_0_r. cbn [rev app]. unfold fds_of. cbn [map concat].
    rewrite app_nil_r. split; [exact Hok|]. split; [reflexivity|]. split; [reflexivity|]. split; [reflexivity|].
    intros c v Hc. inversion Hc.
  - destruct fuel as [|fuel]; [cbn in Hf; lia|].
    pose proof (no_chain _ _ _ _ Hok) as (Hhead & v & Hv & Hch). cbn [cleanClient]. rewrite Hhead.
    rewrite (conn_at_lookup _ _ _ Hv). cbn [mbind outcome_bind].
    rewrite zlen_cons in Hb |- *. destruct (lrm_max _ _ _ (no_lrm _ _ _ _ Hok)) as [Hm _].
    pose proof (zlen_nonneg cl).
    destruct (do_close_spec bound net idles c cl v Hok ltac:(nia) Hv) as (net1 & -> & Hok1 & Hm1 & Hfd1 & Hc1 & Hfr1 & Hg1).
    cbn [mbind outcome_bind]. pose proof (no_nodup _ _ _ _ Hok) as Hnd. apply list.NoDup_cons in Hnd as [Hncl Hnd].
    destruct (IH fuel _ net1 (c :: idles) Hok1) as (net2 & -> & Hok2 & Hm2 & Hfd2 & Hfr2 & Hg2);
      [rewrite Hm1; nia|cbn in Hf; lia|].
    assert (Hsame : forall d, d ∈ cl -> n_conns net1 !! d = n_conns net !! d).
    { intros d Hd. rewrite Hc1, list_lookup_insert_ne; [reflexivity|]. intros ->. contradiction. }
    exists net2. split; [reflexivity|]. split; [|split; [congruence|split; [|split]]].
    + rewrite Hm1 in Hok2. cbn [rev]. rewrite <- (assoc_L (++)). cbn [app].
      replace (bound + (1 + zlen cl) * lmax (n_lrm net)) with (bound + lmax (n_lrm net) + zlen cl * lmax (n_lrm net)) by lia.
      exact Hok2.
    + rewrite Hfd2, Hfd1, (fds_of_frame net net1 cl Hsame), <- (assoc_L (++)). unfold fds_of.
      cbn [map concat]. rewrite app_nil_r. reflexivity.
    + intros d Hd. rewrite Hfr2 by (intros Hin; apply Hd; now right). apply Hfr1. intros ->. apply Hd. left.
    + intros d w Hd Hw. apply elem_of_cons in Hd as [->|Hd].
      * rewrite Hv in Hw. injection Hw as <-.
        destruct (no_used _ _ _ _ Hok c v Hv (no_busy _ _ _ _ Hok c ltac:(left))) as [(res & Hres & Hid) _].
        destruct (lrm_ids _ _ _ (no_lrm _ _ _ _ Hok) c res Hres) as [Hmod _]. rewrite Hid in Hmod.
        apply (get_frame (n_lrm net1) _ _ c); [exact Hm2|lia|exact (Hfr2 c Hncl)|rewrite Hm1; exact Hmod|exact Hg1].
      * apply (Hg2 d w Hd). now rewrite Hsame.
Qed.

(** Closing is safe and complete: [_agN_close] on a live handle (any number of
    times) only marks it; the cleanup at the end of the tick then closes the
    descriptor of every closing connection exactly once, in the order of the
    list, empties the list, gives the slots back to the pool, and from then on
    the handles are stale. *)
Theorem close_and_cleanup bound net idles cl c v :
  net_ok bound net idles cl -> n_conns net !! c = Some v -> c ∉ idles -> c ∉ cl ->
  bound + (1 + zlen cl) * lmax (n_lrm net) <= INVALID_ID ->
  exists net1 net2, _agN_close net (c_id v) = Ret net1 /\ _agN_close net1 (c_id v) = Ret net1 /\
    closed_fds net1 = closed_fds net /\
    cleanClient (length (n_conns net)) net1 = Ret net2 /\
    closed_fds net2 = closed_fds net ++ fds_of net (c :: cl) /\ closing_list net2 = None /\
    _agR_get (n_lrm net2) (c_id v) = Ret None /\
    net_ok (bound + (1 + zlen cl) * lmax (n_lrm net)) net2 (rev (c :: cl) ++ idles) [].
Proof.
  intros Hok Hv Hni Hncl Hb.
  destruct (agN_close_spec bound net idles cl c v Hok Hv Hni Hncl) as (net1 & v1 & Hr1 & Hok1 & Hl1 & Hfd1 & Hc1 & Hf1 & Hi1).
  pose proof (lookup_lt_Some _ _ _ Hv) as Hlt.
  assert (Hv1 : n_conns net1 !! c = Some v1) by (rewrite Hc1; now apply list_lookup_insert_eq).
  assert (Hcount : (length (c :: cl) <= length (n_conns net))%nat).
  { pose proof Hok1 as [_ Hlen1 Hch1 Hnd1 _ _]. replace (length (n_conns net)) with (length (n_conns net1)) by (rewrite Hc1; apply length_insert).
    assert (Hsub : forall x, x ∈ c :: cl -> x ∈ seq 0 (length (n_conns net1))).
    { clear - Hch1. revert Hch1. generalize (closing_list net1). generalize (c :: cl). intros l.
      induction l as [|d l IH]; intros p Hch x Hx; [inversion Hx|]. destruct Hch as (_ & w & Hw & Hch).
      apply elem_of_cons in Hx as [->|Hx]; [|exact (IH _ Hch x Hx)].
      apply elem_of_seq. split; [lia|]. apply lookup_lt_Some in Hw. lia. }
    rewrite <- (length_seq (length (n_conns net1)) 0). exact (submseteq_length _ _ (NoDup_submseteq _ _ Hnd1 Hsub)). }
  destruct (cleanClient_spec (c :: cl) (length (n_conns net)) bound net1 idles Hok1) as (net2 & Hr2 & Hok2 & Hm2 & Hfd2 & _ & Hg2);
    [rewrite Hl1, zlen_cons; exact Hb|exact Hcount|].
  exists net1, net2. split; [exact Hr1|].
  split; [rewrite <- Hi1; eapply agN_close_again; [exact Hok1|exact Hv1|left]|].
  split; [exact Hfd1|]. split; [exact Hr2|]. split; [|split; [exact (no_chain _ _ _ _ Hok2)|split]].
  - rewrite Hfd2, Hfd1. f_equal. unfold fds_of. cbn [map concat]. rewrite Hv1, Hv, Hf1. f_equal.
    apply (fds_of_frame net net1 cl). intros d Hd. rewrite Hc1, list_lookup_insert_ne; [reflexivity|]. intros ->. contradiction.
  - rewrite <- Hi1. apply (Hg2 c v1); [left|exact Hv1].
  - rewrite Hl1, zlen_cons in Hok2. exact Hok2.
Qed.
End Closing.

Lemma sample_net_ok : net_ok 2 sample_net [1%nat] [].
Proof.
  constructor.
  - constructor; cbn.
    + split; [split; reflexivity|reflexivity].
    + intros [|[|i]] res H; cbn in H; try discriminate; injection H as <-; cbn; (split; [reflexivity|lia]).
    + split; [reflexivity|]. eexists. split; reflexivity.
    + apply NoDup_singleton.
    + intros [|[|i]] res H; cbn in H; try discriminate; injection H as <-; cbn; split; try congruence.
      * intros _ Hin. apply list_elem_of_singleton in Hin. discriminate.
      * intros Hin. destruct Hin. left.
  - reflexivity.
  - reflexivity.
  - apply NoDup_nil_2.
  - intros c Hc. inversion Hc.
  - intros [|[|c]] v Hv Hc; cbn in Hv; try discriminate.
    + injection Hv as <-. split; [eexists; split; reflexivity|]. cbn. split; [discriminate|]. intros H. inversion H.
    + destruct Hc. left.
Qed.

Lemma close_and_cleanup_witness :
  exists net1 net2, _agN_close sample_net 0 = Ret net1 /\ _agN_close net1 0 = Ret net1 /\
    closed_fds net1 = [] /\ cleanClient 2 net1 = Ret net2 /\ closed_fds net2 = [9] /\
    closing_list net2 = None /\ _agR_get (n_lrm net2) 0 = Ret None /\ net_ok 4 net2 [0%nat; 1%nat] [].
Proof.
  refine (close_and_cleanup 2 sample_net [1%nat] [] 0 _ sample_net_ok eq_refl _ _ _).
  - intros Hin. apply list_elem_of_singleton in Hin. discriminate.
  - intros Hin. inversion Hin.
  - vm_compute. discriminate.
Defined.

(** ** Two lists, one link *)

Definition quiet_kernel : kernel := mk_kernel [] [] [] [] [] true true.
Definition idle_handler : network_handler := mk_handler true true false false.

(** A tick without events and with callbacks that do nothing. *)
Definition idle_tick (net : network unit) (now : Z) : outcome (network unit) :=
  '(net, _) ← _agN_tick (fun n _ _ => (n, 0)) (fun n _ _ => n) (fun n _ _ => n) (fun n _ => n) (fun n _ => n)
    (fun n => n) 10 net [] now;
  Ret net.

(** Two connections, on descriptors 7 and 8: the first is closed, the second gets a new handler
    (which puts it in the active list) and is closed; then three ticks. *)
Definition leak_run : outcome (network unit) :=
  '(net, a) ← _agN_attach (_agN_new 2 quiet_kernel tt) 7 idle_handler;
  '(net, b) ← _agN_attach net 8 idle_handler;
  net ← _agN_close net a;
  '(net, _) ← _agN_set_handler net b idle_handler;
  net ← _agN_close net b;
  net ← idle_tick net 1;
  net ← idle_tick net 2;
  idle_tick net 3.

(** The active list and the closing list are linked through the same field, so closing a
    connection that waits in the active list joins the two lists, and walking the active list cuts
    the closing list: the earlier closed connection is never cleaned up.  Here descriptor 7 is
    still open after three ticks, its slot is still taken with the status [cs_closing] that makes
    every further [_agN_close] do nothing, and both lists are empty. *)
Theorem closing_active_leaks :
  exists net, leak_run = Ret net /\ closed_fds net = [8] /\ closing_list net = None /\ active_list net = None /\
    _agR_get (n_lrm net) 0 = Ret (Some 0%nat) /\ _agN_close net 0 = Ret net /\ _agN_get_fd net 0 = Ret 7.
Proof. eexists. split; [vm_compute; reflexivity|]. repeat split. Qed.
