(* ===== verification/Package.v ===== *)
(** * Messages on the wire: [framework/package.h]

    The two packed headers, the player id split over two of their fields, the
    functions that build a message ([client_send] of the gateway,
    [world_send_message], [backend_send], [send_message] and [Kick] of the
    world) and the header checks with which every message handler starts. *)
From S2P Require Import Prelude Buffer Lrm AmfWire Network NetworkTheorems.

(** ** Byte order *)

(** [htonl] on a little-endian host: the four bytes in reverse. *)
Definition htonl (x : Z) : Z := le_combine (rev (le_split 4 x)).
Definition ntohl (x : Z) : Z := htonl x.

(** ** Headers *)

(** [struct client_header] and [struct translate_header], with the fields as they are stored. *)
Record client_header := mk_client_header { ch_len : Z; ch_flag : Z; ch_cmd : Z }.

Record translate_header := mk_translate_header {
  th_len : Z; th_sn : Z; th_playerid : Z; th_flag : Z; th_cmd : Z; th_serverid : Z }.

Definition sizeof_client_header : Z := 12.
Definition sizeof_translate_header : Z := 28.

(** The packed layouts. *)
Definition client_header_bytes (h : client_header) : list Z :=
  le_split 4 (ch_len h) ++ le_split 4 (ch_flag h) ++ le_split 4 (ch_cmd h).

Definition translate_header_bytes (h : translate_header) : list Z :=
  le_split 4 (th_len h) ++ le_split 4 (th_sn h) ++ le_split 8 (th_playerid h) ++
  le_split 4 (th_flag h) ++ le_split 4 (th_cmd h) ++ le_split 4 (th_serverid h).

(** [(struct client_header * )data] and [(struct translate_header * )data]. *)
Definition client_header_at (data : list Z) : client_header :=
  mk_client_header (le_combine (slice data 0 4)) (le_combine (slice data 4 4)) (le_combine (slice data 8 4)).

Definition translate_header_at (data : list Z) : translate_header :=
  mk_translate_header (le_combine (slice data 0 4)) (le_combine (slice data 4 4)) (le_combine (slice data 8 8))
    (le_combine (slice data 16 4)) (le_combine (slice data 20 4)) (le_combine (slice data 24 4)).

(** ** Player ids *)

(** The upper half of a player id is the id of its server. *)
Definition TRANSFORM_PLAYERID (value_64 : Z) (b : bool) : Z :=
  if b then u32 (Z.shiftr value_64 32) else u32 value_64.

(** Overwrites the lower, then the upper half of the variable. *)
Definition TRANSFORM_PLAYERID_TO_64 (sid pid : Z) : Z := u32 pid + 2 ^ 32 * u32 sid.

Definition NTOHL_PID_AND_SID (pid serverid : Z) : Z :=
  if 0 <? pid then
    if TRANSFORM_PLAYERID pid true =? 0 then TRANSFORM_PLAYERID_TO_64 serverid pid else pid
  else pid.

Definition CHECK_PID_AND_TRANSFORM (ag_server_id pid : Z) : Z :=
  if 0 <? pid then
    if (TRANSFORM_PLAYERID pid true =? 0) && (100000 <? pid)
    then TRANSFORM_PLAYERID_TO_64 ag_server_id pid else pid
  else pid.

(** ** Building messages *)

(** The [iovec]s [client_send] and [client_broadcast] hand to [agN_writev]. *)
Definition client_iov (cmd flag : Z) (msg : list Z) : list (list Z) :=
  let h := mk_client_header (htonl (zlen msg + sizeof_client_header)) (htonl flag) (htonl cmd) in
  [client_header_bytes h; msg].

(** The [iovec]s of [world_send_message] and of the gateway's [backend_send] and
    [backend_broadcast], which leave [sn] uninitialised, and of the world's
    [send_message], which sets it to 0. *)
Definition translate_iov (sn channel cmd flag : Z) (msg : list Z) : list (list Z) :=
  let sid := TRANSFORM_PLAYERID channel true in
  let theader := mk_translate_header (htonl (sizeof_translate_header + zlen msg)) sn (htonl channel)
                   (htonl flag) (htonl cmd) (htonl sid) in
  [translate_header_bytes theader; msg].

Definition send_message_iov (playerid cmd flag : Z) (data : list Z) : list (list Z) :=
  translate_iov 0 playerid cmd flag data.

Definition RET_SUCCESS : Z := 0.
Definition S_SERVICE_BROADCAST_REQUEST : Z := 1006.
Definition C_LOGIN_REQUEST : Z := 1.
Definition C_LOGIN_RESPOND : Z := 2.
Definition C_LOGOUT_REQUEST : Z := 3.
Definition C_LOGOUT_RESPOND : Z := 4.

(** The bytes [Kick] sends: the header in front of [0, 0, reason] in a zeroed buffer; [sn] and
    [serverid] keep the zeros of the buffer. *)
Definition Kick_bytes (pid reason : Z) : outcome (list Z) :=
  let tlen := 1024 in
  let res_buf := repeat 0 (Z.to_nat tlen) in
  let offset := sizeof_translate_header in
  '(n, res_buf) ← amf_encode_array res_buf offset (tlen - offset) 3;
  let offset := offset + n in
  '(n, res_buf) ← amf_encode_integer res_buf offset (tlen - offset) 0;
  let offset := offset + n in
  '(n, res_buf) ← amf_encode_integer res_buf offset (tlen - offset) 0;
  let offset := offset + n in
  '(n, res_buf) ← amf_encode_integer res_buf offset (tlen - offset) reason;
  let offset := offset + n in
  let h := mk_translate_header (htonl offset) 0 (htonl pid) (htonl 1) (htonl C_LOGOUT_RESPOND) 0 in
  res_buf ← store_bytes res_buf 0 (translate_header_bytes h);
  load_bytes res_buf 0 offset.

(** ** Reading messages *)

(** The checks of every [on_message] handler: 0 while the header or the announced length is
    incomplete. *)
Definition package_len (hdr : Z) (data : list Z) : Z :=
  if zlen data <? hdr then 0
  else
    let n := ntohl (le_combine (slice data 0 4)) in
    if zlen data <? n then 0 else n.

Definition client_package_len : list Z -> Z := package_len sizeof_client_header.
Definition translate_package_len : list Z -> Z := package_len sizeof_translate_header.

(** What a handler takes from a client's package: flag, command, payload. *)
Definition open_client_package (data : list Z) : Z * Z * list Z :=
  let h := client_header_at data in
  (ntohl (ch_flag h), ntohl (ch_cmd h), drop (Z.to_nat sizeof_client_header) data).

(** What a handler takes from a server's package: player, flag, command, payload. *)
Definition open_translate_package (data : list Z) : Z * Z * Z * list Z :=
  let h := translate_header_at data in
  let playerid := ntohl (u32 (th_playerid h)) in
  let serverid := ntohl (th_serverid h) in
  (NTOHL_PID_AND_SID playerid serverid, ntohl (th_flag h), ntohl (th_cmd h),
   drop (Z.to_nat sizeof_translate_header) data).

(** ** Byte order and layout lemmas *)

Lemma le_split_combine bs : bytes_ok bs -> le_split (length bs) (le_combine bs) = bs.
Proof.
  induction 1 as [|b bs Hb _ IH]; [reflexivity|]. cbn [le_combine length le_split].
  unfold byte_ok in Hb. rewrite lor_shiftl_add by lia. f_equal.
  - unfold u8. rewrite Z_mod_plus_full. apply Z.mod_small. lia.
  - rewrite Z.shiftr_div_pow2, Z.div_add, (Z.div_small b) by lia. exact IH.
Qed.

Lemma le_split_rev4 x : rev (le_split 4 x) = le_split 4 (htonl x).
Proof.
  unfold htonl. rewrite <- (le_split_combine (rev (le_split 4 x))) at 1; [reflexivity|].
  unfold bytes_ok. rewrite list.Forall_forall. intros b Hb.
  pose proof (le_split_bytes 4 x) as H. unfold bytes_ok in H. rewrite list.Forall_forall in H. apply H.
  apply list_elem_of_In, in_rev. now apply list_elem_of_In.
Qed.

Lemma ntohl_htonl x : ntohl (htonl x) = u32 x.
Proof.
  unfold ntohl. unfold htonl at 1. rewrite <- le_split_rev4, rev_involutive, le_combine_split. reflexivity.
Qed.

Lemma le_combine_slice (l pre post : list Z) p n k v :
  l = pre ++ le_split n v ++ post -> p = zlen pre -> k = Z.of_nat n -> 0 <= v < 2 ^ (8 * Z.of_nat n) ->
  le_combine (slice l p k) = v.
Proof.
  intros -> -> -> Hv. rewrite (slice_app_middle pre (le_split n v) post); [|reflexivity|now rewrite zlen_le_split].
  rewrite le_combine_split. now apply Z.mod_small.
Qed.

(** The field that follows [pre]. *)
Ltac field_after pre :=
  eapply (le_combine_slice _ pre); [rewrite <- ?(assoc_L (++)); reflexivity|reflexivity|reflexivity|assumption].

Lemma htonl_range x : 0 <= htonl x < 2 ^ 32.
Proof.
  assert (H : htonl x = htonl x mod 2 ^ 32) by (rewrite <- (le_combine_split 4), <- le_split_rev4; reflexivity).
  rewrite H. apply Z.mod_pos_bound. lia.
Qed.

Lemma htonl_mod x k : 32 <= k -> htonl x mod 2 ^ k = htonl x.
Proof.
  intros Hk. apply Z.mod_small. pose proof (htonl_range x). assert (2 ^ 32 <= 2 ^ k) by (apply Z.pow_le_mono_r; lia). lia.
Qed.

Lemma client_header_at_bytes h rest :
  0 <= ch_len h < 2 ^ 32 -> 0 <= ch_flag h < 2 ^ 32 -> 0 <= ch_cmd h < 2 ^ 32 ->
  client_header_at (client_header_bytes h ++ rest) = h.
Proof.
  destruct h as [len flag cmd]. unfold client_header_at, client_header_bytes. cbn [ch_len ch_flag ch_cmd]. intros.
  f_equal; [field_after (@nil Z)|field_after (le_split 4 len)|field_after (le_split 4 len ++ le_split 4 flag)].
Qed.

Lemma translate_header_at_bytes h rest :
  0 <= th_len h < 2 ^ 32 -> 0 <= th_sn h < 2 ^ 32 -> 0 <= th_playerid h < 2 ^ 64 -> 0 <= th_flag h < 2 ^ 32 ->
  0 <= th_cmd h < 2 ^ 32 -> 0 <= th_serverid h < 2 ^ 32 ->
  translate_header_at (translate_header_bytes h ++ rest) = h.
Proof.
  destruct h as [len sn pid flag cmd sid]. unfold translate_header_at, translate_header_bytes.
  cbn [th_len th_sn th_playerid th_flag th_cmd th_serverid]. intros.
  f_equal; [field_after (@nil Z)|field_after (le_split 4 len)|field_after (le_split 4 len ++ le_split 4 sn)
    |field_after (le_split 4 len ++ le_split 4 sn ++ le_split 8 pid)
    |field_after (le_split 4 len ++ le_split 4 sn ++ le_split 8 pid ++ le_split 4 flag)
    |field_after (le_split 4 len ++ le_split 4 sn ++ le_split 8 pid ++ le_split 4 flag ++ le_split 4 cmd)].
Qed.

(** ** Player ids *)

Lemma shiftr_32_mod pid : 0 <= pid < 2 ^ 64 -> TRANSFORM_PLAYERID pid true = pid / 2 ^ 32.
Proof.
  intros H. unfold TRANSFORM_PLAYERID. rewrite Z.shiftr_div_pow2 by lia. apply u32_small.
  split; [apply Z.div_pos; lia|]. apply Z.div_lt_upper_bound; lia.
Qed.

(** The id a receiver computes from the two fields of the header. *)
Definition received_pid (lo sid : Z) : Z := NTOHL_PID_AND_SID (u32 lo) (u32 sid).

Lemma received_pid_value lo sid :
  received_pid lo sid = if u32 lo =? 0 then 0 else u32 lo + 2 ^ 32 * u32 sid.
Proof.
  unfold received_pid, NTOHL_PID_AND_SID. pose proof (u32_range lo). pose proof (u32_range sid).
  rewrite shiftr_32_mod, Z.div_small by lia. cbn [Z.eqb]. unfold TRANSFORM_PLAYERID_TO_64.
  rewrite !(u32_small (u32 _)) by lia. ztests; lia.
Qed.

Lemma received_pid_iff pid :
  0 <= pid < 2 ^ 64 -> received_pid pid (TRANSFORM_PLAYERID pid true) = pid <-> (u32 pid <> 0 \/ pid = 0).
Proof.
  intros H. rewrite received_pid_value, (shiftr_32_mod pid H).
  assert (Hd : 0 <= pid / 2 ^ 32 < 2 ^ 32) by (split; [apply Z.div_pos; lia|apply Z.div_lt_upper_bound; lia]).
  rewrite (u32_small (pid / 2 ^ 32)) by lia. unfold u32. pose proof (Z.div_mod pid (2 ^ 32)).
  ztests; lia.
Qed.

(** ** Framing *)

Lemma slice_app_l (p q : list Z) a n : 0 <= a -> 0 <= n -> a + n <= zlen p -> slice (p ++ q) a n = slice p a n.
Proof.
  intros. unfold slice, zlen in *. rewrite drop_app_le, take_app_le by (rewrite ?length_drop; lia). reflexivity.
Qed.

#[export] Instance package_framing hdr : 4 <= hdr -> Framing (package_len hdr).
Proof.
  intros Hhdr. constructor.
  - intros p. unfold package_len. pose proof (zlen_nonneg p).
    pose proof (htonl_range (le_combine (slice p 0 4))). unfold ntohl. ztests; lia.
  - intros p q. unfold package_len. destruct (Z.ltb_spec (zlen p) hdr); [lia|]. cbv zeta.
    rewrite zlen_app. pose proof (zlen_nonneg q). rewrite slice_app_l by lia. ztests; lia.
Qed.

#[export] Instance client_framing : Framing client_package_len.
Proof. apply package_framing. unfold sizeof_client_header. lia. Qed.
#[export] Instance translate_framing : Framing translate_package_len.
Proof. apply package_framing. unfold sizeof_translate_header. lia. Qed.

(** A package whose first four bytes announce its own length. *)
Definition framed (hdr : Z) (p : list Z) : Prop :=
  exists rest, p = le_split 4 (htonl (zlen p)) ++ rest /\ hdr <= zlen p < 2 ^ 32.

Lemma package_len_framed hdr p q : 4 <= hdr -> framed hdr p -> package_len hdr (p ++ q) = zlen p.
Proof.
  intros Hh (rest & Hp & Hr). unfold package_len. rewrite zlen_app. pose proof (zlen_nonneg q).
  assert (Hf : le_combine (slice (p ++ q) 0 4) = htonl (zlen p)).
  { eapply (le_combine_slice _ [] (rest ++ q) _ 4); [|reflexivity|reflexivity|apply htonl_range].
    rewrite Hp at 1. rewrite <- (assoc_L (++)). reflexivity. }
  rewrite Hf, ntohl_htonl, u32_small by lia. ztests; reflexivity.
Qed.

Lemma splits_framed hdr ps : 4 <= hdr -> Forall (framed hdr) ps -> splits (package_len hdr) (concat ps) ps [].
Proof.
  intros Hh. induction 1 as [|p ps Hp _ IH]; cbn [concat].
  - constructor. unfold package_len. change (zlen (@nil Z)) with 0. ztests; lia.
  - pose proof (package_len_framed hdr p (concat ps) Hh Hp) as Hl. destruct Hp as (rest & _ & Hr).
    assert (Ht : p = take (Z.to_nat (package_len hdr (p ++ concat ps))) (p ++ concat ps))
      by (rewrite Hl, to_nat_zlen, take_app_length; reflexivity).
    rewrite Ht at 2. constructor; [lia|]. rewrite Hl, to_nat_zlen, drop_app_length. exact IH.
Qed.

(** A stream of framed packages is delivered package by package, however it is cut. *)
Lemma packages_delivered hdr n net c ps :
  4 <= hdr -> Forall (framed hdr) ps ->
  rstate net c [] [] -> forallb benign (k_recv (n_kernel net)) = true ->
  bytes_of (k_recv (n_kernel net)) = concat ps -> zlen (concat ps) <= 2 ^ 61 ->
  (length (k_recv (n_kernel net)) <= n)%nat ->
  exists net', read_events (package_len hdr) n net c = Ret net' /\ n_app net' = ps /\ rstate net' c [] ps.
Proof.
  intros Hh Hps Hrs Hben Hb Hmax Hn. pose proof (package_framing hdr Hh) as Hfr.
  destruct (read_events_spec (package_len hdr) n net c [] [] Hrs) as (net' & ms & rest & Hr & _ & _ & Hrs' & Hdet);
    [apply (frame_nil (package_len hdr))|exact Hben|rewrite Hb; change (zlen (@nil Z)) with 0; lia|exact Hn|].
  destruct (Hdet ps []) as [Hms Hrest]; [cbn [app]; rewrite Hb; now apply splits_framed|].
  rewrite <- Hms, <- Hrest in Hrs'. exists net'. split; [exact Hr|]. split; [exact (rs_app _ _ _ _ Hrs')|exact Hrs'].
Qed.

(** ** From sender to receiver *)

(** A message between servers: player, command, flag, payload. *)
Record server_message := mk_server_message { sm_pid : Z; sm_cmd : Z; sm_flag : Z; sm_body : list Z }.

(** The fields fit their types, the length fits its field, and the id can be routed. *)
Definition sendable (m : server_message) : Prop :=
  0 <= sm_pid m < 2 ^ 64 /\ (u32 (sm_pid m) <> 0 \/ sm_pid m = 0) /\
  0 <= sm_cmd m < 2 ^ 32 /\ 0 <= sm_flag m < 2 ^ 32 /\ zlen (sm_body m) + sizeof_translate_header < 2 ^ 32.

Definition server_package (sn : Z) (m : server_message) : list Z :=
  concat (translate_iov sn (sm_pid m) (sm_cmd m) (sm_flag m) (sm_body m)).

Definition opened (m : server_message) : Z * Z * Z * list Z := (sm_pid m, sm_flag m, sm_cmd m, sm_body m).

Lemma zlen_translate_header h : zlen (translate_header_bytes h) = sizeof_translate_header.
Proof. unfold translate_header_bytes. rewrite !zlen_app, !zlen_le_split. reflexivity. Qed.

Lemma zlen_client_header h : zlen (client_header_bytes h) = sizeof_client_header.
Proof. unfold client_header_bytes. rewrite !zlen_app, !zlen_le_split. reflexivity. Qed.

Lemma server_package_framed sn m : sendable m -> framed sizeof_translate_header (server_package sn m).
Proof.
  intros (_ & _ & _ & _ & Hl). unfold framed, server_package, translate_iov. cbn [concat]. cbv zeta.
  rewrite app_nil_r, zlen_app, zlen_translate_header. unfold translate_header_bytes at 1. cbn [th_len].
  pose proof (zlen_nonneg (sm_body m)). eexists. split; [rewrite <- (assoc_L (++)); reflexivity|].
  unfold sizeof_translate_header in *. lia.
Qed.

Lemma u32_htonl x : u32 (htonl x) = htonl x.
Proof. apply u32_small, htonl_range. Qed.

Lemma open_server_package sn m :
  0 <= sn < 2 ^ 32 -> sendable m -> open_translate_package (server_package sn m) = opened m.
Proof.
  intros Hsn (Hp & Hroute & Hc & Hf & _). unfold server_package, translate_iov. cbn [concat]. cbv zeta.
  rewrite app_nil_r. set (h := mk_translate_header _ _ _ _ _ _). unfold open_translate_package.
  rewrite translate_header_at_bytes by (cbn [h th_len th_sn th_playerid th_flag th_cmd th_serverid];
    first [exact Hsn | apply htonl_range | match goal with |- _ <= htonl ?x < _ => pose proof (htonl_range x); lia end]).
  cbv zeta. cbn [h th_playerid th_serverid th_flag th_cmd].
  rewrite u32_htonl, !ntohl_htonl, (u32_small (sm_flag m)), (u32_small (sm_cmd m)) by lia.
  change (NTOHL_PID_AND_SID _ _) with (received_pid (sm_pid m) (TRANSFORM_PLAYERID (sm_pid m) true)).
  rewrite (proj2 (received_pid_iff _ Hp) Hroute). reflexivity.
Qed.

(** C4: Messages between the servers arrive: whatever the sender passes to [world_send_message],
    [backend_send] or [send_message] (the bytes of [translate_iov]), and however the stream is cut
    into packets, the receiver's handler is called with exactly these packages in this order, and
    the player id, flag, command and payload it extracts are the sent ones. *)
Theorem server_messages_delivered n net c sn ms :
  0 <= sn < 2 ^ 32 -> Forall sendable ms ->
  rstate net c [] [] -> forallb benign (k_recv (n_kernel net)) = true ->
  bytes_of (k_recv (n_kernel net)) = concat (map (server_package sn) ms) ->
  zlen (concat (map (server_package sn) ms)) <= 2 ^ 61 -> (length (k_recv (n_kernel net)) <= n)%nat ->
  exists net', read_events translate_package_len n net c = Ret net' /\
    n_app net' = map (server_package sn) ms /\
    map open_translate_package (n_app net') = map opened ms.
Proof.
  intros Hsn Hms Hrs Hben Hb Hmax Hn.
  destruct (packages_delivered sizeof_translate_header n net c (map (server_package sn) ms)) as (net' & Hr & Happ & _);
    try assumption.
  - unfold sizeof_translate_header. lia.
  - apply Forall_fmap. eapply list.Forall_impl; [exact Hms|]. intros m. apply server_package_framed.
  - exists net'. split; [exact Hr|]. split; [exact Happ|]. rewrite Happ, map_map. apply map_ext_in. intros m Hm.
    apply open_server_package; [exact Hsn|]. rewrite list.Forall_forall in Hms. apply Hms, list_elem_of_In, Hm.
Qed.

(** A player id survives the two header fields exactly when its lower half is not zero (or the
    whole id is 0): [htonl] of the 64-bit id keeps only the lower half, the upper half travels as the
    server id, and the receiver joins them again only for a positive lower half. *)
Theorem playerid_roundtrip_iff pid :
  0 <= pid < 2 ^ 64 ->
  NTOHL_PID_AND_SID (ntohl (htonl pid)) (ntohl (htonl (TRANSFORM_PLAYERID pid true))) = pid <->
  (TRANSFORM_PLAYERID pid false <> 0 \/ pid = 0).
Proof. intros H. rewrite !ntohl_htonl. exact (received_pid_iff pid H). Qed.

(** ** Client messages *)

(** A message to or from a client: command, flag, payload. *)
Record client_message := mk_client_message { cm_cmd : Z; cm_flag : Z; cm_body : list Z }.

Definition client_sendable (m : client_message) : Prop :=
  0 <= cm_cmd m < 2 ^ 32 /\ 0 <= cm_flag m < 2 ^ 32 /\ zlen (cm_body m) + sizeof_client_header < 2 ^ 32.

Definition client_package (m : client_message) : list Z :=
  concat (client_iov (cm_cmd m) (cm_flag m) (cm_body m)).

Lemma client_package_framed m : client_sendable m -> framed sizeof_client_header (client_package m).
Proof.
  intros (_ & _ & Hl). unfold framed, client_package, client_iov. cbn [concat]. cbv zeta.
  rewrite app_nil_r, zlen_app, zlen_client_header. unfold client_header_bytes at 1. cbn [ch_len].
  pose proof (zlen_nonneg (cm_body m)). rewrite (Z.add_comm (zlen (cm_body m))).
  eexists. split; [rewrite <- (assoc_L (++)); reflexivity|]. unfold sizeof_client_header in *. lia.
Qed.

Lemma open_client_package_spec m :
  client_sendable m -> open_client_package (client_package m) = (cm_flag m, cm_cmd m, cm_body m).
Proof.
  intros (Hc & Hf & _). unfold client_package, client_iov. cbn [concat]. cbv zeta. rewrite app_nil_r.
  set (h := mk_client_header _ _ _). unfold open_client_package.
  rewrite client_header_at_bytes by apply htonl_range. cbv zeta. cbn [h ch_flag ch_cmd].
  rewrite !ntohl_htonl, !u32_small by assumption. reflexivity.
Qed.

(** Messages between client and gateway arrive: the packages [client_send] and
    [client_broadcast] build are delivered one by one and in order, whatever the chunks of the
    stream, with the flag, command and payload that were sent. *)
Theorem client_messages_delivered n net c ms :
  Forall client_sendable ms ->
  rstate net c [] [] -> forallb benign (k_recv (n_kernel net)) = true ->
  bytes_of (k_recv (n_kernel net)) = concat (map client_package ms) ->
  zlen (concat (map client_package ms)) <= 2 ^ 61 -> (length (k_recv (n_kernel net)) <= n)%nat ->
  exists net', read_events client_package_len n net c = Ret net' /\
    n_app net' = map client_package ms /\
    map open_client_package (n_app net') = map (fun m => (cm_flag m, cm_cmd m, cm_body m)) ms.
Proof.
  intros Hms Hrs Hben Hb Hmax Hn.
  destruct (packages_delivered sizeof_client_header n net c (map client_package ms)) as (net' & Hr & Happ & _);
    try assumption.
  - unfold sizeof_client_header. lia.
  - apply Forall_fmap. eapply list.Forall_impl; [exact Hms|]. intros m. apply client_package_framed.
  - exists net'. split; [exact Hr|]. split; [exact Happ|]. rewrite Happ, map_map. apply map_ext_in. intros m Hm.
    apply open_client_package_spec. rewrite list.Forall_forall in Hms. apply Hms, list_elem_of_In, Hm.
Qed.

(** ** Kicking a player *)

Definition kick_body (reason : Z) : list Z :=
  array_header 3 ++ integer_bytes amf_integer 0 ++ integer_bytes amf_integer 0 ++ integer_bytes amf_integer reason.

Lemma zlen_integer_bytes n : 1 <= zlen (integer_bytes amf_integer n) <= 9.
Proof.
  unfold integer_bytes, double_bytes. ztests.
  - rewrite zlen_cons. unfold zlen. rewrite length_rev, length_le_split. lia.
  - rewrite zlen_cons. pose proof (u29_bytes_pos n). lia.
Qed.

Lemma amf_encode_integer_spec m data len n :
  0 <= data -> 0 <= n < 2 ^ 32 -> 9 <= len -> data + 9 <= zlen m ->
  amf_encode_integer m data len n =
  Ret (zlen (integer_bytes amf_integer n), splice m data (integer_bytes amf_integer n)).
Proof.
  intros. pose proof (zlen_integer_bytes n). apply amf_encode_integer_with_type_spec; [now left|lia..].
Qed.

(** Lengths of spliced buffers. *)
Ltac splice_len := repeat (rewrite zlen_splice || rewrite zlen_app); lia.

Lemma Kick_bytes_spec pid reason :
  0 <= reason < 2 ^ 32 ->
  exists h, Kick_bytes pid reason = Ret (translate_header_bytes h ++ kick_body reason) /\
    h = mk_translate_header (htonl (zlen (translate_header_bytes h ++ kick_body reason))) 0 (htonl pid)
          (htonl 1) (htonl C_LOGOUT_RESPOND) 0.
Proof.
  intros Hr. unfold Kick_bytes, sizeof_translate_header. cbv zeta.
  pose proof (zlen_integer_bytes 0). pose proof (zlen_integer_bytes reason).
  assert (Ha : zlen (array_header 3) = 3) by reflexivity.
  set (m := repeat 0 (Z.to_nat 1024)). assert (Hm : zlen m = 1024) by (unfold m, zlen; rewrite repeat_length; lia).
  clearbody m. rewrite amf_encode_array_spec by lia. cbn [mbind outcome_bind].
  rewrite Ha, amf_encode_integer_spec by splice_len. cbn [mbind outcome_bind].
  rewrite splice_app by lia.
  rewrite amf_encode_integer_spec by splice_len. cbn [mbind outcome_bind].
  rewrite splice_app by splice_len.
  rewrite amf_encode_integer_spec by splice_len. cbn [mbind outcome_bind].
  rewrite splice_app by splice_len. rewrite <- !(assoc_L (++)). fold (kick_body reason).
  set (h := mk_translate_header _ _ _ _ _ _). exists h.
  assert (Hb : zlen (kick_body reason) =
    3 + zlen (integer_bytes amf_integer 0) + zlen (integer_bytes amf_integer 0) + zlen (integer_bytes amf_integer reason))
    by (unfold kick_body; rewrite !zlen_app, Ha; lia).
  pose proof (zlen_translate_header h) as Hh. unfold sizeof_translate_header in Hh.
  rewrite store_bytes_splice by splice_len. cbn [mbind outcome_bind].
  rewrite splice_app_before by lia. unfold load_bytes. rewrite zlen_splice by splice_len. split.
  - ztests. f_equal.
    replace (28 + 3 + _ + _ + _) with (zlen (translate_header_bytes h ++ kick_body reason)) by (rewrite zlen_app; lia).
    apply slice_splice; rewrite ?zlen_app; lia.
  - unfold h at 1. f_equal. f_equal. rewrite zlen_app. lia.
Qed.

(** [Kick] (and [kickPlayer]) fill the header without a server id, so the gateway that routes the
    message computes a different player than the one to kick, for every id with a server part: the
    package is complete and well formed, but it is addressed to the lower half of the id. *)
Theorem kick_loses_server pid reason :
  0 <= pid < 2 ^ 64 -> 0 <= reason < 2 ^ 32 ->
  exists p, Kick_bytes pid reason = Ret p /\ translate_package_len p = zlen p /\
    open_translate_package p = (TRANSFORM_PLAYERID pid false, 1, C_LOGOUT_RESPOND, kick_body reason) /\
    (TRANSFORM_PLAYERID pid true <> 0 -> TRANSFORM_PLAYERID pid false <> pid).
Proof.
  intros Hp Hr. destruct (Kick_bytes_spec pid reason Hr) as (h & -> & Hh).
  eexists. split; [reflexivity|]. pose proof (zlen_translate_header h) as Hz. unfold sizeof_translate_header in Hz.
  assert (Hb : 0 <= zlen (kick_body reason) < 1000).
  { unfold kick_body. rewrite !zlen_app. change (zlen (array_header 3)) with 3.
    pose proof (zlen_integer_bytes 0). pose proof (zlen_integer_bytes reason). lia. }
  split; [|split].
  - rewrite <- (app_nil_r (_ ++ _)) at 1. apply package_len_framed; [unfold sizeof_translate_header; lia|].
    eexists. split; [|rewrite zlen_app; unfold sizeof_translate_header; lia].
    rewrite Hh at 1. unfold translate_header_bytes at 1. cbn [th_len]. rewrite <- (assoc_L (++)). reflexivity.
  - unfold open_translate_package. rewrite translate_header_at_bytes, Hh.
    all: try (rewrite Hh; cbn [th_len th_sn th_playerid th_flag th_cmd th_serverid];
      match goal with |- _ <= htonl ?x < _ => pose proof (htonl_range x); lia | _ => lia end).
    cbv zeta. cbn [th_playerid th_serverid th_flag th_cmd]. rewrite <- Hh, u32_htonl, !ntohl_htonl.
    change (ntohl 0) with (u32 0). change (NTOHL_PID_AND_SID _ _) with (received_pid pid 0).
    rewrite received_pid_value. cbn [TRANSFORM_PLAYERID].
    rewrite <- (zlen_translate_header h), to_nat_zlen, drop_app_length. f_equal. f_equal. f_equal.
    change (u32 0) with 0. ztests; lia.
  - rewrite shiftr_32_mod by assumption. cbn [TRANSFORM_PLAYERID]. unfold u32. intros Hd He. apply Hd.
    apply Z.div_small. rewrite <- He. apply Z.mod_pos_bound. lia.
Qed.

(** ** Concrete runs *)

(** A connected socket whose [recv] answers [rs]. *)
Definition reader_net (rs : list recv_result) : network (list (list Z)) :=
  match _agN_attach (_agN_new 2 (mk_kernel rs [] [] [] [] true true) []) 9 idle_handler with
  | Ret (net, _) => net
  | _ => _agN_new 2 quiet_kernel []
  end.

Lemma reader_net_rstate rs : rstate (reader_net rs) 0 [] [].
Proof. constructor; [reflexivity|reflexivity|]. eexists. split; [reflexivity|]. repeat split. Qed.

Lemma read_path_reassembles_witness :
  exists net' ms rest', read_events client_package_len 4
      (reader_net [RecvData [0; 0; 0; 13]; RecvAgain; RecvData [0; 0; 0; 1; 0; 0; 0; 3; 7; 0]]) 0 = Ret net' /\
    k_recv (n_kernel net') = [] /\
    splits client_package_len [0; 0; 0; 13; 0; 0; 0; 1; 0; 0; 0; 3; 7; 0] ms rest' /\ rstate net' 0 rest' ms /\
    forall ms' r', splits client_package_len [0; 0; 0; 13; 0; 0; 0; 1; 0; 0; 0; 3; 7; 0] ms' r' -> ms' = ms /\ r' = rest'.
Proof.
  apply (read_path_reassembles client_package_len 4
    (reader_net [RecvData [0; 0; 0; 13]; RecvAgain; RecvData [0; 0; 0; 1; 0; 0; 0; 3; 7; 0]]) 0 [] []).
  - apply reader_net_rstate.
  - reflexivity.
  - reflexivity.
  - vm_compute. discriminate.
  - vm_compute. lia.
Defined.

Definition sample_message : server_message := mk_server_message (2 ^ 32 + 5) 7 1 [10; 1; 1].

Lemma server_messages_delivered_witness :
  exists net', read_events translate_package_len 3
      (reader_net [RecvData (take 30 (server_package 0 sample_message)); RecvIntr;
                   RecvData (drop 30 (server_package 0 sample_message))]) 0 = Ret net' /\
    n_app net' = [server_package 0 sample_message] /\
    map open_translate_package (n_app net') = [(2 ^ 32 + 5, 1, 7, [10; 1; 1])].
Proof.
  apply (server_messages_delivered 3 _ 0 0 [sample_message]).
  - lia.
  - apply Forall_singleton. unfold sendable, sizeof_translate_header. cbn [sample_message sm_pid sm_cmd sm_flag sm_body].
    split; [lia|]. split; [left; vm_compute; discriminate|]. split; [lia|]. split; [lia|]. unfold zlen. cbn. lia.
  - apply reader_net_rstate.
  - reflexivity.
  - reflexivity.
  - vm_compute. discriminate.
  - vm_compute. lia.
Defined.

Lemma client_messages_delivered_witness :
  exists net', read_events client_package_len 2
      (reader_net [RecvData (client_package (mk_client_message 3 1 [10]) ++ [0; 0]);
                   RecvData (drop 2 (client_package (mk_client_message 5 2 [])))]) 0 = Ret net' /\
    n_app net' = [client_package (mk_client_message 3 1 [10]); client_package (mk_client_message 5 2 [])] /\
    map open_client_package (n_app net') = [(1, 3, [10]); (2, 5, [])].
Proof.
  apply (client_messages_delivered 2 _ 0 [mk_client_message 3 1 [10]; mk_client_message 5 2 []]).
  - repeat apply list.Forall_cons_2; try apply list.Forall_nil_2;
      unfold client_sendable, sizeof_client_header, zlen; cbn [cm_cmd cm_flag cm_body length]; lia.
  - apply reader_net_rstate.
  - reflexivity.
  - reflexivity.
  - vm_compute. discriminate.
  - vm_compute. lia.
Defined.

Lemma playerid_roundtrip_iff_witness :
  NTOHL_PID_AND_SID (ntohl (htonl (2 ^ 32))) (ntohl (htonl (TRANSFORM_PLAYERID (2 ^ 32) true))) = 2 ^ 32 <->
  (TRANSFORM_PLAYERID (2 ^ 32) false <> 0 \/ 2 ^ 32 = 0).
Proof. apply (playerid_roundtrip_iff (2 ^ 32)). lia. Defined.

Lemma kick_loses_server_witness :
  exists p, Kick_bytes (2 ^ 32 + 5) 1 = Ret p /\ translate_package_len p = zlen p /\
    open_translate_package p = (5, 1, 4, kick_body 1) /\
    (TRANSFORM_PLAYERID (2 ^ 32 + 5) true <> 0 -> TRANSFORM_PLAYERID (2 ^ 32 + 5) false <> 2 ^ 32 + 5).
Proof. apply (kick_loses_server (2 ^ 32 + 5) 1); lia. Defined.
