(* ===== verification/Dlist.v ===== *)
(** * Doubly linked circular lists: [framework/dlist.h]

    The list macros on a heap of structures that contain the two link fields.
    A pointer is an address, 0 is the null pointer, and the variable that
    holds the list is the address of its first node.  The macros are refined
    to operations on the list of node addresses. *)
From S2P Require Import Prelude.

(** A structure with [prev] and [next] fields. *)
Class Linked (T : Type) := {
  l_prev : T -> Z;
  l_next : T -> Z;
  set_prev : T -> Z -> T;
  set_next : T -> Z -> T }.

(** The fields are independent, and writing them keeps the rest of the structure. *)
Class LinkedLaws (T : Type) `{Linked T} : Prop := {
  next_set_next : forall v a, l_next (set_next v a) = a;
  prev_set_next : forall v a, l_prev (set_next v a) = l_prev v;
  next_set_prev : forall v a, l_next (set_prev v a) = l_next v;
  prev_set_prev : forall v a, l_prev (set_prev v a) = a;
  strip_set_next : forall v a, set_prev (set_next (set_next v a) 0) 0 = set_prev (set_next v 0) 0;
  strip_set_prev : forall v a, set_prev (set_next (set_prev v a) 0) 0 = set_prev (set_next v 0) 0 }.

Section Macros.
Context {T : Type} `{Linked T}.
#[local] Abbreviation heap := (gmap Z T).

(** Field accesses through a pointer. *)
Definition rd_next (h : heap) (a : Z) : outcome Z := v ← deref (h !! a); Ret (l_next v).
Definition rd_prev (h : heap) (a : Z) : outcome Z := v ← deref (h !! a); Ret (l_prev v).
Definition wr_next (h : heap) (a x : Z) : outcome heap := v ← deref (h !! a); Ret (<[a := set_next v x]> h).
Definition wr_prev (h : heap) (a x : Z) : outcome heap := v ← deref (h !! a); Ret (<[a := set_prev v x]> h).

(** [assert((n)->next == 0 && (n)->prev == 0)] *)
Definition assert_unlinked (h : heap) (n : Z) : outcome unit :=
  nn ← rd_next h n; np ← rd_prev h n; c_assert ((nn =? 0) && (np =? 0)).

Definition dlist_init (h : heap) (n : Z) : outcome heap := h ← wr_next h n 0; wr_prev h n 0.

Definition dlist_insert_before (h : heap) (l n : Z) : outcome heap :=
  _ ← assert_unlinked h n;
  h ← wr_next h n l;
  p ← rd_prev h l;
  h ← wr_prev h n p;
  p ← rd_prev h l;
  h ← wr_next h p n;
  wr_prev h l n.

Definition dlist_insert_after (h : heap) (l n : Z) : outcome heap :=
  _ ← assert_unlinked h n;
  h ← wr_prev h n l;
  p ← rd_next h l;
  h ← wr_next h n p;
  p ← rd_next h l;
  h ← wr_prev h p n;
  wr_next h l n.

(** The first node of an empty list. *)
Definition link_alone (h : heap) (n : Z) : outcome heap := h ← wr_prev h n n; wr_next h n n.

Definition dlist_insert_head (h : heap) (l n : Z) : outcome (heap * Z) :=
  _ ← assert_unlinked h n;
  if l =? 0 then h ← link_alone h n; Ret (h, n)
  else h ← dlist_insert_before h l n; Ret (h, n).

Definition dlist_insert_tail (h : heap) (l n : Z) : outcome (heap * Z) :=
  _ ← assert_unlinked h n;
  if l =? 0 then h ← link_alone h n; Ret (h, n)
  else h ← dlist_insert_before h l n; Ret (h, l).

Definition dlist_remove (h : heap) (l n : Z) : outcome (heap * Z) :=
  nn ← rd_next h n;
  if nn =? n then h ← dlist_init h n; Ret (h, 0)
  else
    np ← rd_prev h n;
    if (nn =? 0) || (np =? 0) then h ← dlist_init h n; Ret (h, l)
    else
      h ← wr_prev h nn np;
      nn ← rd_next h n;
      np ← rd_prev h n;
      h ← wr_next h np nn;
      nn ← rd_next h n;
      let l := if l =? n then nn else l in
      h ← dlist_init h n;
      Ret (h, l).

Definition dlist_next (h : heap) (head cur : Z) : outcome Z :=
  if (head =? 0) || (cur =? 0) then Ret head
  else n ← rd_next h cur; Ret (if negb (n =? head) then n else 0).

Definition dlist_prev (h : heap) (head cur : Z) : outcome Z :=
  if (head =? 0) || (cur =? head) then Ret 0
  else if cur =? 0 then rd_prev h head else rd_prev h cur.
End Macros.

(** ** Effects of the macros on the link fields *)

Section Links.
Context {T : Type} `{LinkedLaws T}.
#[local] Abbreviation heap := (gmap Z T).

Definition nx (h : heap) (a : Z) : option Z := l_next <$> h !! a.
Definition pv (h : heap) (a : Z) : option Z := l_prev <$> h !! a.

(** The heap without its links. *)
Definition strip (h : heap) : gmap Z T := (fun v => set_prev (set_next v 0) 0) <$> h.

Definition unlinked (h : heap) (n : Z) : Prop := nx h n = Some 0 /\ pv h n = Some 0.

Lemma rd_next_spec h a x : nx h a = Some x -> rd_next h a = Ret x.
Proof. unfold nx, rd_next. destruct (h !! a); cbn; congruence. Qed.
Lemma rd_prev_spec h a x : pv h a = Some x -> rd_prev h a = Ret x.
Proof. unfold pv, rd_prev. destruct (h !! a); cbn; congruence. Qed.

Lemma nx_pv h a : is_Some (nx h a) <-> is_Some (pv h a).
Proof. unfold nx, pv. rewrite !fmap_is_Some. reflexivity. Qed.

Lemma wr_next_spec h a x :
  is_Some (nx h a) -> exists h', wr_next h a x = Ret h' /\
    (forall b, nx h' b = if decide (b = a) then Some x else nx h b) /\ (forall b, pv h' b = pv h b) /\ strip h' = strip h.
Proof.
  unfold nx, pv. intros [y Hy]. destruct (h !! a) as [v|] eqn:E; [|discriminate].
  exists (<[a := set_next v x]> h). unfold wr_next. rewrite E. split; [reflexivity|]. split; [|split].
  - intros b. destruct (decide (b = a)) as [->|Hne].
    + rewrite lookup_insert_eq. cbn. now rewrite next_set_next.
    + now rewrite lookup_insert_ne by congruence.
  - intros b. destruct (decide (b = a)) as [->|Hne].
    + rewrite lookup_insert_eq, E. cbn. now rewrite prev_set_next.
    + now rewrite lookup_insert_ne by congruence.
  - unfold strip. rewrite fmap_insert, strip_set_next. apply insert_id. now rewrite lookup_fmap, E.
Qed.

Lemma wr_prev_spec h a x :
  is_Some (pv h a) -> exists h', wr_prev h a x = Ret h' /\
    (forall b, pv h' b = if decide (b = a) then Some x else pv h b) /\ (forall b, nx h' b = nx h b) /\ strip h' = strip h.
Proof.
  unfold nx, pv. intros [y Hy]. destruct (h !! a) as [v|] eqn:E; [|discriminate].
  exists (<[a := set_prev v x]> h). unfold wr_prev. rewrite E. split; [reflexivity|]. split; [|split].
  - intros b. destruct (decide (b = a)) as [->|Hne].
    + rewrite lookup_insert_eq. cbn. now rewrite prev_set_prev.
    + now rewrite lookup_insert_ne by congruence.
  - intros b. destruct (decide (b = a)) as [->|Hne].
    + rewrite lookup_insert_eq, E. cbn. now rewrite next_set_prev.
    + now rewrite lookup_insert_ne by congruence.
  - unfold strip. rewrite fmap_insert, strip_set_prev. apply insert_id. now rewrite lookup_fmap, E.
Qed.

End Links.

(** Run the next write or read of a macro; its effect is named. *)
Ltac wr_next_step H' Hn Hp Hs :=
  match goal with |- context [wr_next ?h ?a ?x] =>
    let E := fresh in
    destruct (wr_next_spec h a x) as (H' & E & Hn & Hp & Hs); [|rewrite E; clear E; cbn [mbind outcome_bind]] end.
Ltac wr_prev_step H' Hn Hp Hs :=
  match goal with |- context [wr_prev ?h ?a ?x] =>
    let E := fresh in
    destruct (wr_prev_spec h a x) as (H' & E & Hp & Hn & Hs); [|rewrite E; clear E; cbn [mbind outcome_bind]] end.

Section Effects.
Context {T : Type} `{LinkedLaws T}.
#[local] Abbreviation heap := (gmap Z T).

Lemma assert_unlinked_spec (h : heap) n : unlinked h n -> assert_unlinked h n = Ret tt.
Proof.
  intros [Hn Hp]. unfold assert_unlinked. now rewrite (rd_next_spec _ _ _ Hn), (rd_prev_spec _ _ _ Hp).
Qed.

Lemma dlist_init_spec (h : heap) n :
  is_Some (nx h n) -> exists h', dlist_init h n = Ret h' /\ strip h' = strip h /\
    (forall b, nx h' b = if decide (b = n) then Some 0 else nx h b) /\
    (forall b, pv h' b = if decide (b = n) then Some 0 else pv h b).
Proof.
  intros Hs. unfold dlist_init.
  wr_next_step h1 Hn1 Hp1 Hs1; [exact Hs|].
  destruct (wr_prev_spec h1 n 0) as (h2 & -> & Hp2 & Hn2 & Hs2); [rewrite Hp1; now apply nx_pv|].
  exists h2. split; [reflexivity|]. split; [congruence|]. split; intros b.
  - now rewrite Hn2, Hn1.
  - rewrite Hp2. case_decide; [reflexivity|apply Hp1].
Qed.

(** Inserting [n] between [p] and [l]. *)
Lemma insert_before_effect (h : heap) l n p :
  unlinked h n -> n <> l -> p <> n -> pv h l = Some p -> is_Some (nx h p) ->
  exists h', dlist_insert_before h l n = Ret h' /\ strip h' = strip h /\
    (forall b, nx h' b = if decide (b = p) then Some n else if decide (b = n) then Some l else nx h b) /\
    (forall b, pv h' b = if decide (b = l) then Some n else if decide (b = n) then Some p else pv h b).
Proof.
  intros Hu Hnl Hpn Hl Hsp. unfold dlist_insert_before. rewrite assert_unlinked_spec by assumption.
  cbn [mbind outcome_bind]. destruct Hu as [Hun Hup].
  wr_next_step h1 Hn1 Hp1 Hs1; [eauto|].
  rewrite (rd_prev_spec h1 l p) by (now rewrite Hp1). cbn [mbind outcome_bind].
  wr_prev_step h2 Hn2 Hp2 Hs2; [rewrite Hp1; eauto|].
  rewrite (rd_prev_spec h2 l p) by (rewrite Hp2, decide_False by congruence; now rewrite Hp1). cbn [mbind outcome_bind].
  wr_next_step h3 Hn3 Hp3 Hs3; [rewrite Hn2, Hn1, decide_False by congruence; exact Hsp|].
  destruct (wr_prev_spec h3 l n) as (h4 & -> & Hp4 & Hn4 & Hs4);
    [rewrite Hp3, Hp2, decide_False by congruence; rewrite Hp1; eauto|].
  exists h4. split; [reflexivity|]. split; [congruence|]. split; intros b.
  - rewrite Hn4, Hn3. case_decide; [reflexivity|]. now rewrite Hn2, Hn1.
  - rewrite Hp4. case_decide; [reflexivity|]. rewrite Hp3, Hp2. case_decide; [reflexivity|]. apply Hp1.
Qed.

(** Unlinking [n] from between [p] and [q]. *)
Lemma remove_effect (h : heap) l n p q :
  nx h n = Some q -> pv h n = Some p -> n <> 0 -> p <> 0 -> q <> 0 -> q <> n -> p <> n ->
  is_Some (nx h p) -> is_Some (pv h q) ->
  exists h', dlist_remove h l n = Ret (h', if l =? n then q else l) /\ strip h' = strip h /\
    (forall b, nx h' b = if decide (b = n) then Some 0 else if decide (b = p) then Some q else nx h b) /\
    (forall b, pv h' b = if decide (b = n) then Some 0 else if decide (b = q) then Some p else pv h b).
Proof.
  intros Hq Hp Hn0 Hp0 Hq0 Hqn Hpn Hsp Hsq. unfold dlist_remove.
  rewrite (rd_next_spec _ _ _ Hq). cbn [mbind outcome_bind]. destruct (Z.eqb_spec q n); [contradiction|].
  rewrite (rd_prev_spec _ _ _ Hp). cbn [mbind outcome_bind].
  destruct (Z.eqb_spec q 0); [contradiction|]. destruct (Z.eqb_spec p 0); [contradiction|]. cbn [orb].
  wr_prev_step h1 Hn1 Hp1 Hs1; [exact Hsq|].
  rewrite (rd_next_spec h1 n q) by (now rewrite Hn1). cbn [mbind outcome_bind].
  rewrite (rd_prev_spec h1 n p) by (rewrite Hp1, decide_False by congruence; exact Hp). cbn [mbind outcome_bind].
  wr_next_step h2 Hn2 Hp2 Hs2; [rewrite Hn1; exact Hsp|].
  assert (Hnq : nx h2 n = Some q) by (rewrite Hn2, decide_False by congruence; now rewrite Hn1).
  rewrite (rd_next_spec h2 n q Hnq). cbn [mbind outcome_bind].
  destruct (dlist_init_spec h2 n) as (h3 & -> & Hs3 & Hn3 & Hp3); [eauto|]. cbn [mbind outcome_bind].
  exists h3. split; [reflexivity|]. split; [congruence|]. split; intros b.
  - rewrite Hn3. case_decide; [reflexivity|]. rewrite Hn2. case_decide; [reflexivity|]. apply Hn1.
  - rewrite Hp3. case_decide; [reflexivity|]. now rewrite Hp2, Hp1.
Qed.
End Effects.

(** ** Rings *)

Section Rings.
Context {T : Type} `{LinkedLaws T}.
#[local] Abbreviation heap := (gmap Z T).

Definition link (h : heap) (a b : Z) : Prop := nx h a = Some b /\ pv h b = Some a.

(** Consecutive addresses of the list are linked both ways. *)
Fixpoint seg (h : heap) (l : list Z) : Prop :=
  match l with
  | a :: ((b :: _) as l') => link h a b /\ seg h l'
  | _ => True
  end.

(** The variable [head] holds the circular list of the nodes [l]. *)
Record ring (h : heap) (head : Z) (l : list Z) : Prop := {
  ring_head : head = default 0 (hd_error l);
  ring_seg : match l with [] => True | x :: r => seg h (x :: r ++ [x]) end;
  ring_nodup : NoDup l;
  ring_null : 0 ∉ l }.

Lemma seg_app h l1 a l2 : seg h (l1 ++ a :: l2) <-> seg h (l1 ++ [a]) /\ seg h (a :: l2).
Proof.
  induction l1 as [|b l1 IH]; [destruct l2; cbn; tauto|].
  destruct l1 as [|c l1]; cbn [app seg] in *; tauto.
Qed.

Lemma seg_snoc2 h l a b : seg h (l ++ [a; b]) <-> seg h (l ++ [a]) /\ link h a b.
Proof. rewrite seg_app. cbn [seg]. tauto. Qed.

Lemma seg_frame h h' l :
  seg h l -> (forall a, a ∈ removelast l -> nx h' a = nx h a) -> (forall b, b ∈ tail l -> pv h' b = pv h b) -> seg h' l.
Proof.
  induction l as [|a l IH]; [trivial|]. destruct l as [|b l]; [trivial|]. intros [[Hn Hp] Hs] Hnx Hpv.
  change (removelast (a :: b :: l)) with (a :: removelast (b :: l)) in Hnx. cbn [tail] in Hpv.
  split; [split; [rewrite Hnx by left; exact Hn|rewrite Hpv by left; exact Hp]|].
  apply IH; [exact Hs|intros; apply Hnx; now right|intros; apply Hpv; now right].
Qed.

(** Any node of a ring can be taken as its start. *)
Lemma ring_rotate h l1 x l2 :
  match l1 ++ x :: l2 with [] => True | y :: r => seg h (y :: r ++ [y]) end -> seg h (x :: (l2 ++ l1) ++ [x]).
Proof.
  destruct l1 as [|y l1]; cbn [app].
  - now rewrite app_nil_r.
  - intros Hs. rewrite <- (assoc_L (++)) in Hs. change (y :: l1 ++ _) with ((y :: l1) ++ x :: l2 ++ [y]) in Hs.
    apply seg_app in Hs as [H1 H2]. rewrite <- (assoc_L (++)). cbn [app].
    change (x :: l2 ++ y :: _) with ((x :: l2) ++ y :: l1 ++ [x]). apply seg_app. split; assumption.
Qed.

Lemma ring_unrotate h l1 x l2 :
  seg h (x :: (l2 ++ l1) ++ [x]) -> match l1 ++ x :: l2 with [] => True | y :: r => seg h (y :: r ++ [y]) end.
Proof.
  destruct l1 as [|y l1]; cbn [app].
  - now rewrite app_nil_r.
  - intros Hs. rewrite <- (assoc_L (++)) in Hs. cbn [app] in Hs.
    change (x :: l2 ++ y :: _) with ((x :: l2) ++ y :: l1 ++ [x]) in Hs. apply seg_app in Hs as [H1 H2].
    rewrite <- (assoc_L (++)). cbn [app]. change (y :: l1 ++ _) with ((y :: l1) ++ x :: l2 ++ [y]).
    apply seg_app. split; assumption.
Qed.

(** The last node of a non-empty list, and its links in the ring. *)
Lemma ring_last h x r :
  seg h (x :: r ++ [x]) -> exists r' z, x :: r = r' ++ [z] /\ seg h (r' ++ [z]) /\ link h z x.
Proof.
  intros Hs. destruct (exists_last (l := x :: r)) as (r' & z & E); [discriminate|]. exists r', z. split; [exact E|].
  rewrite app_comm_cons, E, <- (assoc_L (++)) in Hs. now apply seg_snoc2.
Qed.

(** Iterating over a ring visits its nodes in order. *)
Lemma ring_next h head l1 x l2 : ring h head (l1 ++ x :: l2) -> dlist_next h head x = Ret (default 0 (hd_error l2)).
Proof.
  intros [Hh Hs Hnd Hnull]. assert (Hx : x <> 0) by (intros ->; apply Hnull, elem_of_app; right; left). unfold dlist_next. apply Z.eqb_neq in Hx as ->.
  destruct (Z.eqb_spec head 0) as [E|_].
  { exfalso. rewrite E in Hh. destruct l1 as [|y l1]; cbn in Hh; unfold id in Hh; apply Hnull; rewrite Hh; left. }
  cbn [orb]. apply ring_rotate in Hs. assert (Hn : nx h x = Some (default head (hd_error l2))).
  { destruct l2 as [|y l2]; cbn [app hd_error default from_option id] in *; [|exact (proj1 (proj1 Hs))]. subst head. destruct l1 as [|z l1]; exact (proj1 (proj1 Hs)). }
  rewrite (rd_next_spec h x _ Hn). cbn [mbind outcome_bind]. destruct l2 as [|y l2]; cbn [hd_error default from_option id]; [now rewrite Z.eqb_refl|].
  destruct (Z.eqb_spec y head) as [->|]; [|reflexivity]. exfalso.
  assert (Hin : head ∈ l1 ++ [x]) by (destruct l1 as [|z l1]; cbn in Hh; unfold id in Hh; rewrite Hh; left).
  change (x :: head :: l2) with ([x] ++ head :: l2) in Hnd. rewrite (assoc_L (++)) in Hnd. apply list.NoDup_app in Hnd as (_ & Hd & _). apply (Hd head Hin). left.
Qed.

(** Adding [n] at the end of the ring of [x :: r], in front of [x]. *)
Lemma seg_insert h h' x r n :
  seg h (x :: r ++ [x]) -> NoDup (x :: r) -> n ∉ x :: r ->
  (exists z, pv h x = Some z /\
    (forall b, nx h' b = if decide (b = z) then Some n else if decide (b = n) then Some x else nx h b) /\
    (forall b, pv h' b = if decide (b = x) then Some n else if decide (b = n) then Some z else pv h b)) ->
  seg h' (x :: (r ++ [n]) ++ [x]).
Proof.
  intros Hs Hnd Hn (z & Hz & Hnx & Hpv). destruct (ring_last _ _ _ Hs) as (r' & z' & E & Hseg & [Hzx Hxz]).
  rewrite Hxz in Hz. injection Hz as ->. rewrite !app_comm_cons, E, <- !(assoc_L (++)). cbn [app].
  assert (Hzin : z ∈ x :: r) by (rewrite E; apply elem_of_app; right; left).
  change (r' ++ [z; n; x]) with (r' ++ [z] ++ [n; x]). rewrite (assoc_L (++)). apply seg_snoc2.
  rewrite <- (assoc_L (++)). cbn [app]. split.
  - apply seg_snoc2. split.
    + apply (seg_frame h); [exact Hseg| |].
      * rewrite removelast_last. intros a Ha. assert (Hin : a ∈ x :: r) by (rewrite E; apply elem_of_app; now left).
        rewrite Hnx, !decide_False; [reflexivity|intros ->; contradiction|].
        intros ->. rewrite E in Hnd. apply list.NoDup_app in Hnd as (_ & Hd & _). apply (Hd z Ha). left.
      * rewrite <- E. cbn [tail]. intros b Hb. apply list.NoDup_cons in Hnd as [Hx _].
        rewrite Hpv, !decide_False; [reflexivity|intros ->; apply Hn; now right|intros ->; contradiction].
    + split; [now rewrite Hnx, decide_True|]. rewrite Hpv, decide_False; [now rewrite decide_True|].
      intros ->. apply Hn. left.
  - split.
    + rewrite Hnx, decide_False; [now rewrite decide_True|]. intros ->. contradiction.
    + now rewrite Hpv, decide_True.
Qed.

(** Taking the first node out of a ring of at least two. *)
Lemma seg_remove h h' x y r :
  seg h (x :: (y :: r) ++ [x]) -> NoDup (x :: y :: r) ->
  (exists z, pv h x = Some z /\
    (forall b, nx h' b = if decide (b = x) then Some 0 else if decide (b = z) then Some y else nx h b) /\
    (forall b, pv h' b = if decide (b = x) then Some 0 else if decide (b = y) then Some z else pv h b)) ->
  seg h' (y :: r ++ [y]).
Proof.
  intros Hs Hnd (z & Hz & Hnx & Hpv). apply list.NoDup_cons in Hnd as [Hx Hnd].
  destruct (exists_last (l := y :: r)) as (r' & z' & E); [discriminate|].
  cbn [app] in Hs. destruct Hs as [_ Hs]. rewrite app_comm_cons, E in Hs. rewrite <- (assoc_L (++)) in Hs. cbn [app] in Hs.
  apply seg_snoc2 in Hs as [Hs [Hzx Hxz]]. rewrite Hxz in Hz. injection Hz as ->.
  rewrite app_comm_cons, E, <- (assoc_L (++)). cbn [app]. apply seg_snoc2. split.
  - apply (seg_frame h); [exact Hs| |].
    + rewrite removelast_last. intros a Ha. rewrite Hnx, !decide_False; [reflexivity| |].
      * intros ->. rewrite E in Hnd. apply list.NoDup_app in Hnd as (_ & Hd & _). apply (Hd z Ha). left.
      * intros ->. apply Hx. rewrite E. apply elem_of_app. now left.
    + rewrite <- E. cbn [tail]. intros b Hb. rewrite Hpv, !decide_False; [reflexivity| |].
      * intros ->. apply list.NoDup_cons in Hnd as [Hy _]. contradiction.
      * intros ->. apply Hx. now right.
  - assert (Hzx' : z <> x) by (intros ->; apply Hx; rewrite E; apply elem_of_app; right; left).
    split.
    + now rewrite Hnx, decide_False, decide_True by congruence.
    + rewrite Hpv, decide_False, decide_True; [reflexivity|reflexivity|]. intros ->. apply Hx. left.
Qed.

(** Every node of a ring has both links, and they lead to nodes of the ring. *)
Lemma ring_node h head l n :
  ring h head l -> n ∈ l -> exists p q, nx h n = Some q /\ pv h n = Some p /\ p ∈ l /\ q ∈ l.
Proof.
  intros [_ Hs _ _] Hn. apply list_elem_of_split in Hn as (l1 & l2 & ->). apply ring_rotate in Hs.
  destruct (ring_last _ _ _ Hs) as (r' & z & E & _ & [Hzx Hxz]).
  assert (Hz : z ∈ l1 ++ n :: l2).
  { assert (Hin : z ∈ n :: l2 ++ l1) by (rewrite E; apply elem_of_app; right; left).
    rewrite !elem_of_cons, !elem_of_app in *. rewrite elem_of_cons. tauto. }
  assert (Hq : exists q, nx h n = Some q /\ q ∈ l1 ++ n :: l2).
  { destruct (l2 ++ l1) as [|y r] eqn:El; cbn [app seg] in Hs; destruct Hs as [[Hq _] _]; eexists; (split; [exact Hq|]).
    - apply elem_of_app. right. left.
    - assert (Hin : y ∈ l2 ++ l1) by (rewrite El; left). rewrite elem_of_app in Hin. rewrite elem_of_app, elem_of_cons. tauto. }
  destruct Hq as (q & Hq & Hqin). eauto 10.
Qed.

(** Links outside [l] are as before. *)
Definition links_frame (h h' : heap) (l : list Z) : Prop :=
  forall b, b ∉ l -> nx h' b = nx h b /\ pv h' b = pv h b.

Lemma link_alone_spec h n :
  unlinked h n -> n <> 0 -> exists h', link_alone h n = Ret h' /\ ring h' n [n] /\ strip h' = strip h /\ links_frame h h' [n].
Proof.
  intros [Hn Hp] Hn0. unfold link_alone. wr_prev_step h1 Hn1 Hp1 Hs1; [eauto|].
  destruct (wr_next_spec h1 n n) as (h2 & -> & Hn2 & Hp2 & Hs2); [rewrite Hn1; eauto|].
  exists h2. split; [reflexivity|]. split; [|split; [congruence|]].
  - constructor; [reflexivity| |apply NoDup_singleton|intros Hin; apply list_elem_of_singleton in Hin; congruence].
    cbn. split; [|trivial]. split; [now rewrite Hn2, decide_True|now rewrite Hp2, Hp1, decide_True].
  - intros b Hb. assert (b <> n) by (intros ->; apply Hb; left). rewrite Hn2, Hp2, Hp1, Hn1, !decide_False by assumption. auto.
Qed.

(** Both insertions link [n] in front of the head [x]. *)
Lemma insert_before_ring h x r n :
  ring h x (x :: r) -> n ∉ x :: r -> n <> 0 -> unlinked h n ->
  exists h', dlist_insert_before h x n = Ret h' /\ strip h' = strip h /\ links_frame h h' (n :: x :: r) /\
    seg h' (x :: (r ++ [n]) ++ [x]) /\ NoDup (n :: x :: r) /\ 0 ∉ n :: x :: r.
Proof.
  intros Hring Hn Hn0 Hu. destruct (ring_node _ _ _ x Hring ltac:(left)) as (z & q & Hq & Hz & Hzin & _).
  destruct (ring_node _ _ _ z Hring Hzin) as (_ & y & Hy & _). destruct Hring as [_ Hs Hnd Hnull].
  destruct (insert_before_effect h x n z Hu) as (h' & -> & Hst & Hnx & Hpv);
    [intros ->; apply Hn; left|intros ->; contradiction|exact Hz|eauto|].
  exists h'. split; [reflexivity|]. split; [exact Hst|]. split; [|split; [|split]].
  - intros b Hb. rewrite !elem_of_cons in Hb. rewrite Hnx, Hpv.
    rewrite !(decide_False (P := b = n)), (decide_False (P := b = x)), (decide_False (P := b = z)); [auto| |tauto..].
    intros ->. rewrite elem_of_cons in Hzin. tauto.
  - eapply seg_insert; [exact Hs|exact Hnd|exact Hn|eauto].
  - apply list.NoDup_cons. split; [exact Hn|exact Hnd].
  - intros Hin. apply elem_of_cons in Hin as [<-|Hin]; [now apply Hn0|contradiction].
Qed.

Lemma insert_tail_spec h head l n :
  ring h head l -> n ∉ l -> n <> 0 -> unlinked h n ->
  exists h' head', dlist_insert_tail h head n = Ret (h', head') /\ ring h' head' (l ++ [n]) /\
    strip h' = strip h /\ links_frame h h' (n :: l).
Proof.
  intros Hring Hn Hn0 Hu. pose proof (ring_head _ _ _ Hring) as ->. unfold dlist_insert_tail.
  rewrite assert_unlinked_spec by assumption. cbn [mbind outcome_bind]. destruct l as [|x r]; cbn [hd_error from_option id Z.eqb].
  - destruct (link_alone_spec h n Hu Hn0) as (h' & -> & Hr & Hst & Hf). exists h', n. auto.
  - assert (x <> 0) by (intros ->; apply (ring_null _ _ _ Hring); left). destruct (Z.eqb_spec x 0); [contradiction|].
    destruct (insert_before_ring h x r n Hring Hn Hn0 Hu) as (h' & -> & Hst & Hf & Hs & Hnd & Hnull).
    exists h', x. split; [reflexivity|]. split; [|auto].
    constructor; [reflexivity|exact Hs| |].
    + now rewrite <- Permutation_cons_append.
    + intros Hin. apply Hnull. rewrite elem_of_app, list_elem_of_singleton in Hin. rewrite elem_of_cons. tauto.
Qed.

Lemma insert_head_spec h head l n :
  ring h head l -> n ∉ l -> n <> 0 -> unlinked h n ->
  exists h', dlist_insert_head h head n = Ret (h', n) /\ ring h' n (n :: l) /\
    strip h' = strip h /\ links_frame h h' (n :: l).
Proof.
  intros Hring Hn Hn0 Hu. pose proof (ring_head _ _ _ Hring) as ->. unfold dlist_insert_head.
  rewrite assert_unlinked_spec by assumption. cbn [mbind outcome_bind].
  destruct l as [|x r]; cbn [hd_error from_option id Z.eqb].
  - destruct (link_alone_spec h n Hu Hn0) as (h' & -> & Hr & Hst & Hf). exists h'. auto.
  - assert (x <> 0) by (intros ->; apply (ring_null _ _ _ Hring); left). destruct (Z.eqb_spec x 0); [contradiction|].
    destruct (insert_before_ring h x r n Hring Hn Hn0 Hu) as (h' & -> & Hst & Hf & Hs & Hnd & Hnull).
    exists h'. split; [reflexivity|]. split; [|auto].
    constructor; [reflexivity| |exact Hnd|exact Hnull].
    exact (ring_rotate h' (x :: r) n [] Hs).
Qed.

Lemma remove_spec h head l1 n l2 :
  ring h head (l1 ++ n :: l2) ->
  exists h' head', dlist_remove h head n = Ret (h', head') /\ ring h' head' (l1 ++ l2) /\ unlinked h' n /\
    strip h' = strip h /\ links_frame h h' (l1 ++ n :: l2).
Proof.
  intros Hring. assert (Hin : n ∈ l1 ++ n :: l2) by (apply elem_of_app; right; left).
  destruct (ring_node _ _ _ n Hring Hin) as (p & q & Hq & Hp & Hpin & Hqin).
  destruct (ring_node _ _ _ p Hring Hpin) as (_ & y & Hy & _).
  destruct (ring_node _ _ _ q Hring Hqin) as (w & _ & _ & Hw & _).
  pose proof Hring as [Hhd Hs Hnd Hnull]. apply ring_rotate in Hs.
  assert (Hnd' : NoDup (n :: l2 ++ l1)) by (rewrite Permutation_app_comm in Hnd; exact Hnd).
  assert (Hnd12 : NoDup (l1 ++ l2)) by (apply list.NoDup_cons in Hnd' as [_ Hnd']; now rewrite Permutation_app_comm in Hnd').
  assert (Hnull12 : 0 ∉ l1 ++ l2) by (rewrite elem_of_app, elem_of_cons in Hnull; rewrite elem_of_app; tauto).
  assert (Hne : forall a, a ∈ l1 ++ n :: l2 -> a <> 0) by (intros a Ha ->; contradiction).
  destruct (l2 ++ l1) as [|z r] eqn:E.
  - apply app_eq_nil in E as [-> ->]. cbn [app] in *. cbn [seg] in Hs. destruct Hs as [[Hnn Hnp] _].
    rewrite Hq in Hnn. injection Hnn as ->. unfold dlist_remove. rewrite (rd_next_spec _ _ _ Hq). cbn [mbind outcome_bind].
    rewrite Z.eqb_refl. destruct (dlist_init_spec h n) as (h' & -> & Hst & Hnx & Hpv); [eauto|]. cbn [mbind outcome_bind].
    exists h', 0. split; [reflexivity|]. split; [constructor; [reflexivity|exact I|apply NoDup_nil_2|exact Hnull12]|].
    split; [split; [now rewrite Hnx, decide_True|now rewrite Hpv, decide_True]|]. split; [exact Hst|].
    intros b Hb. assert (b <> n) by (intros ->; apply Hb; left). rewrite Hnx, Hpv, !decide_False by assumption. auto.
  - pose proof Hs as Hs0. cbn [app] in Hs0. destruct Hs0 as [[Hnn _] _]. rewrite Hq in Hnn. injection Hnn as ->.
    destruct (ring_last _ _ _ Hs) as (r' & z' & El & _ & [_ Hz']). rewrite Hp in Hz'. injection Hz' as <-.
    assert (Hzn : z <> n) by (apply list.NoDup_cons in Hnd' as [Hx _]; intros ->; apply Hx; left).
    assert (Hpn : p <> n).
    { intros ->. destruct r' as [|n' r']; [discriminate El|]. injection El as <- El.
      apply list.NoDup_cons in Hnd' as [Hx _]. apply Hx. rewrite El. apply elem_of_app. right. left. }
    destruct (remove_effect h head n p z Hq Hp) as (h' & -> & Hst & Hnx & Hpv);
      [apply Hne, Hin|apply Hne, Hpin|apply Hne, Hqin|exact Hzn|exact Hpn|eauto|eauto|].
    exists h', (if head =? n then z else head). split; [reflexivity|].
    assert (Hseg : seg h' (z :: r ++ [z])) by (eapply (seg_remove h h' n); eauto).
    split; [|split; [split; [now rewrite Hnx, decide_True|now rewrite Hpv, decide_True]|split; [exact Hst|]]].
    + constructor; [| |exact Hnd12|exact Hnull12].
      * rewrite Hhd. destruct l1 as [|x l1]; cbn [app hd_error from_option id].
        -- rewrite app_nil_r in E. rewrite E, Z.eqb_refl. reflexivity.
        -- destruct (Z.eqb_spec x n) as [->|]; [|reflexivity]. exfalso. cbn [app] in Hnd.
           apply list.NoDup_cons in Hnd as [Hx _]. apply Hx. apply elem_of_app. right. left.
      * destruct l2 as [|y2 l2].
        -- rewrite app_nil_r. cbn [app] in E. rewrite E. exact Hseg.
        -- injection E as -> E. rewrite <- E in Hseg. now apply ring_unrotate.
    + intros b Hb. assert (Hbn : forall a, a ∈ l1 ++ n :: l2 -> b <> a) by (intros a Ha ->; contradiction).
      rewrite Hnx, Hpv, !decide_False by auto. auto.
Qed.

(** Removing a node that is in no list only clears its links. *)
Lemma remove_unlinked h head n :
  unlinked h n -> n <> 0 -> exists h', dlist_remove h head n = Ret (h', head) /\ strip h' = strip h /\ links_frame h h' [].
Proof.
  intros [Hn Hp] Hn0. unfold dlist_remove. rewrite (rd_next_spec _ _ _ Hn). cbn [mbind outcome_bind].
  destruct (Z.eqb_spec 0 n); [congruence|]. rewrite (rd_prev_spec _ _ _ Hp). cbn [mbind outcome_bind Z.eqb orb].
  destruct (dlist_init_spec h n) as (h' & -> & Hst & Hnx & Hpv); [eauto|]. cbn [mbind outcome_bind].
  exists h'. split; [reflexivity|]. split; [exact Hst|]. intros b _. rewrite Hnx, Hpv. case_decide; subst; auto.
Qed.
End Rings.

(** ** Iteration *)

Section Walks.
Context {T : Type} `{LinkedLaws T}.
#[local] Abbreviation heap := (gmap Z T).

(** [while((ite = dlist_next(head, ite)) != 0)]: the nodes visited. *)
Fixpoint walk_next (fuel : nat) (h : heap) (head ite : Z) : outcome (list Z) :=
  match fuel with
  | O => NoFuel
  | S fuel' =>
    n ← dlist_next h head ite;
    if n =? 0 then Ret [] else l ← walk_next fuel' h head n; Ret (n :: l)
  end.

Fixpoint walk_prev (fuel : nat) (h : heap) (head ite : Z) : outcome (list Z) :=
  match fuel with
  | O => NoFuel
  | S fuel' =>
    n ← dlist_prev h head ite;
    if n =? 0 then Ret [] else l ← walk_prev fuel' h head n; Ret (n :: l)
  end.

Lemma ring_pos h head l x : ring h head l -> x ∈ l -> x <> 0.
Proof. intros Hr Hx ->. exact (ring_null _ _ _ Hr Hx). Qed.

(** The node after [x] in a ring split at [x]. *)
Lemma dlist_next_spec h head l1 x l2 :
  ring h head (l1 ++ x :: l2) -> dlist_next h head x = Ret (default 0 (hd_error l2)).
Proof.
  intros Hr. pose proof Hr as [Hhd Hs Hnd Hnull]. unfold dlist_next.
  assert (Hx0 : x <> 0) by (apply (ring_pos _ _ _ _ Hr); apply elem_of_app; right; left).
  assert (Hh0 : head <> 0).
  { apply (ring_pos _ _ _ _ Hr). rewrite Hhd. destruct l1; cbn; left. }
  destruct (Z.eqb_spec head 0); [contradiction|]. destruct (Z.eqb_spec x 0); [contradiction|]. cbn [orb].
  apply ring_rotate in Hs. destruct l2 as [|y l2]; cbn [hd_error from_option id].
  - assert (Hn : nx h x = Some head).
    { destruct l1 as [|z l1]; cbn [app] in *; cbn in Hhd; subst head; destruct Hs as [[Hq _] _]; exact Hq. }
    rewrite (rd_next_spec _ _ _ Hn). cbn [mbind outcome_bind]. now rewrite Z.eqb_refl.
  - cbn [app] in Hs. destruct Hs as [[Hq _] _]. rewrite (rd_next_spec _ _ _ Hq). cbn [mbind outcome_bind].
    destruct (Z.eqb_spec y head) as [->|]; [|reflexivity]. exfalso.
    destruct l1 as [|z l1]; cbn in Hhd; subst; cbn [app] in Hnd.
    + apply list.NoDup_cons in Hnd as [Hx _]. apply Hx. left.
    + apply list.NoDup_cons in Hnd as [Hx _]. apply Hx. apply elem_of_app. right. right. left.
Qed.

Lemma dlist_prev_spec h head l1 x l2 :
  ring h head (l1 ++ x :: l2) -> dlist_prev h head x = Ret (default 0 (hd_error (rev l1))).
Proof.
  intros Hr. pose proof Hr as [Hhd Hs Hnd Hnull]. unfold dlist_prev.
  assert (Hx0 : x <> 0) by (apply (ring_pos _ _ _ _ Hr); apply elem_of_app; right; left).
  assert (Hh0 : head <> 0).
  { apply (ring_pos _ _ _ _ Hr). rewrite Hhd. destruct l1; cbn; left. }
  destruct (Z.eqb_spec head 0); [contradiction|]. cbn [orb].
  destruct l1 as [|z l1].
  - cbn in Hhd. subst head. now rewrite Z.eqb_refl.
  - cbn in Hhd. subst head. destruct (Z.eqb_spec x z) as [->|].
    { exfalso. cbn [app] in Hnd. apply list.NoDup_cons in Hnd as [Hx _]. apply Hx. apply elem_of_app. right. left. }
    destruct (Z.eqb_spec x 0); [contradiction|].
    destruct (exists_last (l := z :: l1)) as (r' & w & E); [discriminate|]. rewrite E, rev_unit. cbn [hd_error from_option id].
    apply rd_prev_spec. cbn [app] in Hs.
    assert (Hl : seg h (r' ++ [w; x])).
    { change (z :: (l1 ++ x :: l2) ++ [z]) with ((z :: l1 ++ x :: l2) ++ [z]) in Hs.
      rewrite app_comm_cons, E, <- !(assoc_L (++)) in Hs. cbn [app] in Hs.
      replace (r' ++ w :: x :: l2 ++ [z]) with ((r' ++ [w]) ++ x :: l2 ++ [z]) in Hs by (now rewrite <- (assoc_L (++))).
      apply seg_app in Hs as [Hs _]. now rewrite <- (assoc_L (++)) in Hs. }
    apply seg_snoc2 in Hl as [_ [_ Hp]]. exact Hp.
Qed.

Lemma walk_next_spec h head l1 x l2 fuel :
  ring h head (l1 ++ x :: l2) -> (length l2 < fuel)%nat -> walk_next fuel h head x = Ret l2.
Proof.
  revert l1 x l2. induction fuel as [|fuel IH]; intros l1 x l2 Hr Hf; [lia|]. cbn [walk_next].
  rewrite (dlist_next_spec _ _ _ _ _ Hr). cbn [mbind outcome_bind]. destruct l2 as [|y l2]; [reflexivity|].
  cbn [hd_error from_option id]. destruct (Z.eqb_spec y 0) as [->|].
  { exfalso. apply (ring_null _ _ _ Hr). apply elem_of_app. right. right. left. }
  rewrite (IH (l1 ++ [x]) y l2); [reflexivity|now rewrite <- (assoc_L (++))|cbn in Hf; lia].
Qed.

Lemma walk_prev_spec h head l1 x l2 fuel :
  ring h head (rev l1 ++ x :: l2) -> (length l1 < fuel)%nat -> walk_prev fuel h head x = Ret l1.
Proof.
  revert l1 x l2. induction fuel as [|fuel IH]; intros l1 x l2 Hr Hf; [lia|]. cbn [walk_prev].
  rewrite (dlist_prev_spec _ _ _ _ _ Hr). cbn [mbind outcome_bind]. destruct l1 as [|y l1]; [reflexivity|].
  cbn [rev] in *. rewrite rev_unit, ?rev_involutive. cbn [hd_error from_option id]. rewrite <- (assoc_L (++)) in Hr. cbn [app] in Hr.
  destruct (Z.eqb_spec y 0) as [->|].
  { exfalso. apply (ring_null _ _ _ Hr). apply elem_of_app. right. left. }
  rewrite (IH l1 y (x :: l2)); [reflexivity|exact Hr|cbn in Hf; lia].
Qed.

(** Both loops from the null pointer visit the whole list. *)
Lemma walk_all h head l :
  ring h head l -> walk_next (S (length l)) h head 0 = Ret l /\ walk_prev (S (length l)) h head 0 = Ret (rev l).
Proof.
  intros Hr. pose proof Hr as [Hhd Hs Hnd Hnull]. split.
  - cbn [walk_next]. unfold dlist_next. rewrite orb_true_r. cbn [mbind outcome_bind].
    destruct l as [|x l]; cbn in Hhd; subst head; [reflexivity|]. destruct (Z.eqb_spec x 0) as [->|].
    { exfalso. apply Hnull. left. }
    change (length (x :: l)) with (S (length l)). rewrite (walk_next_spec h x [] x l (S (length l))); [reflexivity|exact Hr|lia].
  - destruct l as [|x l] using rev_ind; [cbn in Hhd; subst; reflexivity|]. clear IHl.
    cbn [walk_prev]. unfold dlist_prev.
    assert (Hh0 : head <> 0) by (apply (ring_pos _ _ _ _ Hr); rewrite Hhd; destruct l; cbn; left).
    destruct (Z.eqb_spec head 0); [contradiction|]. destruct (Z.eqb_spec 0 head); [congruence|]. cbn [orb Z.eqb].
    assert (Hx : x <> 0) by (apply (ring_pos _ _ _ _ Hr); apply elem_of_app; right; left).
    assert (Hp : pv h head = Some x).
    { destruct l as [|z l]; cbn [app] in *; cbn in Hhd; subst head.
      - destruct Hs as [[_ Hp] _]. exact Hp.
      - change (z :: (l ++ [x]) ++ [z]) with (((z :: l) ++ [x]) ++ [z]) in Hs. rewrite <- (assoc_L (++)) in Hs.
        cbn [app] in Hs. apply (seg_snoc2 h (z :: l)) in Hs as [_ [_ Hp]]. exact Hp. }
    rewrite (rd_prev_spec _ _ _ Hp). cbn [mbind outcome_bind]. destruct (Z.eqb_spec x 0); [contradiction|].
    rewrite (walk_prev_spec h head (rev l) x []); [now rewrite rev_app_distr|now rewrite rev_involutive|].
    rewrite length_rev, length_app. cbn. lia.
Qed.
End Walks.

(** ** Sequences of operations *)

Inductive dlist_op := DTail (n : Z) | DHead (n : Z) | DRemove (n : Z).

Section Runs.
Context {T : Type} `{LinkedLaws T}.
#[local] Abbreviation heap := (gmap Z T).

Definition dlist_step (h : heap) (head : Z) (op : dlist_op) : outcome (heap * Z) :=
  match op with
  | DTail n => dlist_insert_tail h head n
  | DHead n => dlist_insert_head h head n
  | DRemove n => dlist_remove h head n
  end.

Fixpoint run_dlist (h : heap) (head : Z) (ops : list dlist_op) : outcome (heap * Z) :=
  match ops with
  | [] => Ret (h, head)
  | op :: ops' => '(h, head) ← dlist_step h head op; run_dlist h head ops'
  end.

(** The list the operations stand for: an insertion needs a node that is in no list, a removal
    of a node that is in no list does nothing. *)
Definition spec_step (l : list Z) (op : dlist_op) : option (list Z) :=
  match op with
  | DTail n => if decide (n ∈ l) then None else Some (l ++ [n])
  | DHead n => if decide (n ∈ l) then None else Some (n :: l)
  | DRemove n => Some (filter (fun x => x <> n) l)
  end.

Fixpoint spec_list (l : list Z) (ops : list dlist_op) : option (list Z) :=
  match ops with
  | [] => Some l
  | op :: ops' => l ← spec_step l op; spec_list l ops'
  end.

Definition op_node (op : dlist_op) : Z := match op with DTail n | DHead n | DRemove n => n end.

(** The list, and every other node of the heap unlinked. *)
Definition dlist_inv (h : heap) (head : Z) (l : list Z) : Prop :=
  ring h head l /\ forall n, is_Some (h !! n) -> n ∉ l -> unlinked h n.

Lemma strip_dom (h h' : heap) n : strip h' = strip h -> is_Some (h' !! n) <-> is_Some (h !! n).
Proof.
  intros Hs. apply (f_equal (lookup n)) in Hs. unfold strip in Hs. rewrite !lookup_fmap in Hs.
  rewrite <- (fmap_is_Some (fun v => set_prev (set_next v 0) 0)), Hs, fmap_is_Some. reflexivity.
Qed.

Lemma inv_frame h h' head head' l l' scope :
  dlist_inv h head l -> ring h' head' l' -> strip h' = strip h -> links_frame h h' scope ->
  (forall n, n ∈ scope -> n ∉ l' -> unlinked h' n) -> (forall n, n ∈ l -> n ∈ scope) -> dlist_inv h' head' l'.
Proof.
  intros [_ Hu] Hr Hst Hf Hscope Hsub. split; [exact Hr|]. intros n Hn Hnl'.
  destruct (decide (n ∈ scope)) as [Hin|Hout]; [now apply Hscope|].
  destruct (Hf n Hout) as [Hnx Hpv]. destruct (Hu n) as [H1 H2]; [now apply (strip_dom h h')|auto|].
  split; congruence.
Qed.

Lemma filter_absent (l : list Z) n : n ∉ l -> filter (fun x => x <> n) l = l.
Proof.
  induction l as [|a l IH]; intros Hn; [reflexivity|]. rewrite not_elem_of_cons in Hn.
  rewrite list.filter_cons_True by (destruct Hn; congruence). f_equal. tauto.
Qed.

Lemma filter_split (l1 l2 : list Z) n : NoDup (l1 ++ n :: l2) -> filter (fun x => x <> n) (l1 ++ n :: l2) = l1 ++ l2.
Proof.
  intros Hnd. apply list.NoDup_app in Hnd as (_ & Hd & Hnd2). apply list.NoDup_cons in Hnd2 as [Hn2 _].
  rewrite list.filter_app, list.filter_cons_False by tauto.
  rewrite !filter_absent; [reflexivity|exact Hn2|]. intros Hx. apply (Hd n Hx). left.
Qed.

Lemma dlist_step_spec h head l op l' :
  dlist_inv h head l -> is_Some (h !! op_node op) -> op_node op <> 0 -> spec_step l op = Some l' ->
  exists h' head', dlist_step h head op = Ret (h', head') /\ dlist_inv h' head' l' /\ strip h' = strip h.
Proof.
  intros Hinv Hn Hn0 Hsp. pose proof Hinv as [Hr Hu]. destruct op as [n|n|n]; cbn [op_node dlist_step spec_step] in *.
  - destruct (decide (n ∈ l)) as [|Hni]; [discriminate|]. injection Hsp as <-.
    destruct (insert_tail_spec h head l n Hr Hni Hn0 (Hu n Hn Hni)) as (h' & head' & -> & Hr' & Hst & Hf).
    exists h', head'. split; [reflexivity|]. split; [|exact Hst].
    eapply inv_frame; [exact Hinv|exact Hr'|exact Hst|exact Hf| |];
      intros x; rewrite ?elem_of_app, ?elem_of_cons, ?elem_of_nil; tauto.
  - destruct (decide (n ∈ l)) as [|Hni]; [discriminate|]. injection Hsp as <-.
    destruct (insert_head_spec h head l n Hr Hni Hn0 (Hu n Hn Hni)) as (h' & -> & Hr' & Hst & Hf).
    exists h', n. split; [reflexivity|]. split; [|exact Hst].
    eapply inv_frame; [exact Hinv|exact Hr'|exact Hst|exact Hf| |];
      intros x; rewrite ?elem_of_app, ?elem_of_cons, ?elem_of_nil; tauto.
  - injection Hsp as <-. destruct (decide (n ∈ l)) as [Hi|Hni].
    + apply list_elem_of_split in Hi as (l1 & l2 & ->). rewrite filter_split by exact (ring_nodup _ _ _ Hr).
      destruct (remove_spec h head l1 n l2 Hr) as (h' & head' & -> & Hr' & Hun & Hst & Hf).
      exists h', head'. split; [reflexivity|]. split; [|exact Hst].
      eapply inv_frame; [exact Hinv|exact Hr'|exact Hst|exact Hf| |].
      * intros x Hx Hnx. rewrite elem_of_app, elem_of_cons in Hx. rewrite elem_of_app in Hnx.
        assert (x = n) as -> by tauto. exact Hun.
      * tauto.
    + rewrite filter_absent by assumption.
      destruct (remove_unlinked h head n (Hu n Hn Hni) Hn0) as (h' & -> & Hst & Hf).
      exists h', head. split; [reflexivity|]. split; [|exact Hst]. split.
      * destruct Hr as [Hh Hs Hnd Hnull]. constructor; [exact Hh| |exact Hnd|exact Hnull].
        destruct l as [|x r]; [exact I|]. apply (seg_frame h); [exact Hs| |]; intros b _; apply Hf; set_solver.
      * intros x Hx Hnx. destruct (Hu x) as [H1 H2]; [now apply (strip_dom h h')|exact Hnx|].
        destruct (Hf x ltac:(set_solver)) as [E1 E2]. split; congruence.
Qed.

Lemma run_dlist_spec ops : forall h head l l',
  dlist_inv h head l -> Forall (fun op => is_Some (h !! op_node op) /\ op_node op <> 0) ops ->
  spec_list l ops = Some l' ->
  exists h' head', run_dlist h head ops = Ret (h', head') /\ dlist_inv h' head' l' /\ strip h' = strip h.
Proof.
  induction ops as [|op ops IH]; intros h head l l' Hinv Hops Hsp.
  - injection Hsp as <-. eauto.
  - inversion Hops as [|? ? [Hn Hn0] Hops']; subst. cbn [spec_list] in Hsp.
    destruct (spec_step l op) as [l1|] eqn:E1; [|discriminate]. cbn in Hsp.
    destruct (dlist_step_spec h head l op l1 Hinv Hn Hn0 E1) as (h1 & head1 & Hs1 & Hinv1 & Hst1).
    destruct (IH h1 head1 l1 l' Hinv1) as (h2 & head2 & Hs2 & Hinv2 & Hst2); [|exact Hsp|].
    + eapply list.Forall_impl; [exact Hops'|]. intros o [Ho Ho0]. split; [|exact Ho0]. now apply (strip_dom h h1).
    + exists h2, head2. cbn [run_dlist]. rewrite Hs1. cbn [mbind outcome_bind]. rewrite Hs2.
      split; [reflexivity|]. split; [exact Hinv2|congruence].
Qed.

(** The list macros implement lists: for every sequence of insertions (of nodes that are in no
    list) at either end and of removals, none of the asserts fails and no null pointer is followed,
    iterating with [dlist_next] visits exactly the nodes of the abstract list in order and with
    [dlist_prev] in reverse order, and no field besides the links has changed. *)
Theorem dlist_refines_list (h : heap) ops l :
  (forall n, is_Some (h !! n) -> unlinked h n) ->
  Forall (fun op => is_Some (h !! op_node op) /\ op_node op <> 0) ops ->
  spec_list [] ops = Some l ->
  exists h' head, run_dlist h 0 ops = Ret (h', head) /\ strip h' = strip h /\
    walk_next (S (length l)) h' head 0 = Ret l /\ walk_prev (S (length l)) h' head 0 = Ret (rev l).
Proof.
  intros Hu Hops Hsp.
  assert (Hinv : dlist_inv h 0 []).
  { split; [constructor; [reflexivity|exact I|apply NoDup_nil_2|set_solver]|auto]. }
  destruct (run_dlist_spec ops h 0 [] l Hinv Hops Hsp) as (h' & head & Hr & [Hring _] & Hst).
  exists h', head. split; [exact Hr|]. split; [exact Hst|]. exact (walk_all _ _ _ Hring).
Qed.
End Runs.

(** ** [struct dlist_node] *)

Record dlist_node := mk_node { dn_prev : Z; dn_next : Z; dn_data : Z }.

#[export] Instance dlist_node_linked : Linked dlist_node := {
  l_prev := dn_prev; l_next := dn_next;
  set_prev v a := mk_node a (dn_next v) (dn_data v);
  set_next v a := mk_node (dn_prev v) a (dn_data v) }.

#[export] Instance dlist_node_laws : LinkedLaws dlist_node.
Proof. split; intros [? ? ?]; reflexivity. Qed.

Definition sample_nodes : gmap Z dlist_node :=
  {[ 1 := mk_node 0 0 10; 2 := mk_node 0 0 20; 3 := mk_node 0 0 30 ]}.

Lemma dlist_refines_list_witness :
  exists h' head, run_dlist sample_nodes 0 [DTail 1; DTail 2; DHead 3; DRemove 1; DTail 1; DRemove 3] = Ret (h', head) /\
    strip h' = strip sample_nodes /\
    walk_next 3 h' head 0 = Ret [2; 1] /\ walk_prev 3 h' head 0 = Ret [1; 2].
Proof.
  apply (dlist_refines_list sample_nodes [DTail 1; DTail 2; DHead 3; DRemove 1; DTail 1; DRemove 3] [2; 1]).
  - intros n [v Hv]. unfold sample_nodes in Hv.
    repeat (apply lookup_insert_Some in Hv as [[<- <-]|[_ Hv]]; [split; reflexivity|]).
    apply lookup_singleton_Some in Hv as [<- <-]. split; reflexivity.
  - repeat apply list.Forall_cons_2; try apply list.Forall_nil_2; (split; [eexists; reflexivity|discriminate]).
  - reflexivity.
Defined.
