(* ===== verification/Keyed.v ===== *)
(** * Queues with an index

    Several components of the gateway keep the same two structures over one set of heap nodes: an
    intrusive queue ([dlist.h]) and a map from a key in the node to its address ([map.c]).  This file
    has what they share: the agreement of heap, map and queue, and its preservation. *)
From S2P Require Import Prelude AgMap Dlist.

Section Index.
Context {T : Type} `{LinkedLaws T} {key : T -> Z}.

(** ** The index: heap contents and map agree *)

(** A structure without its links. *)
Definition strip1 (v : T) : T := set_prev (set_next v 0) 0.

(** [S] holds the structures without their links, [g] maps keys to addresses, [l] is the queue. *)
Record index_ok (S : gmap Z T) (g : gmap Z Z) (l : list Z) : Prop := {
  ix_dom : forall a, is_Some (S !! a) <-> a ∈ l;
  ix_map : forall k a, g !! k = Some a <-> exists v, S !! a = Some v /\ key v = k;
  ix_size : size g = length l }.

Lemma index_add S g l a v :
  index_ok S g l -> a ∉ l -> g !! key v = None -> index_ok (<[a := v]> S) (<[key v := a]> g) (l ++ [a]).
Proof.
  intros [Hd Hm Hs] Ha Hg. assert (HSa : S !! a = None) by (apply eq_None_not_Some; rewrite Hd; exact Ha). constructor.
  - intros b. rewrite elem_of_app, list_elem_of_singleton, <- Hd. destruct (decide (b = a)) as [->|Hne].
    + rewrite lookup_insert_eq. split; [now right|eauto].
    + rewrite lookup_insert_ne by congruence. tauto.
  - intros k b. rewrite lookup_insert_Some, Hm. split.
    + intros [[<- <-]|[Hne (w & Hw & <-)]]; [exists v; now rewrite lookup_insert_eq|].
      exists w. rewrite lookup_insert_ne by congruence. auto.
    + intros (w & Hw & <-). apply lookup_insert_Some in Hw as [[<- <-]|[Hne Hw]]; [now left|]. right. split; [|eauto].
      intros E. rewrite E in Hg. apply eq_None_not_Some in Hg. apply Hg. exists b. apply Hm. eauto.
  - rewrite map_size_insert_None, length_app by assumption. cbn. lia.
Qed.

Lemma index_remove S g l1 a l2 v :
  index_ok S g (l1 ++ a :: l2) -> NoDup (l1 ++ a :: l2) -> S !! a = Some v ->
  index_ok (delete a S) (delete (key v) g) (l1 ++ l2).
Proof.
  intros [Hd Hm Hs] Hnd Ha. assert (Hga : g !! key v = Some a) by (apply Hm; eauto).
  apply list.NoDup_app in Hnd as (_ & Hn1 & Hnd2). apply list.NoDup_cons in Hnd2 as [Hn2 _]. constructor.
  - intros b. destruct (decide (b = a)) as [->|Hne].
    + rewrite lookup_delete_eq, elem_of_app. split; [intros [? [=]]|]. intros [H1|H2]; [|contradiction].
      exfalso. apply (Hn1 a H1). left.
    + rewrite lookup_delete_ne, Hd, !elem_of_app, elem_of_cons by congruence. tauto.
  - intros k b. rewrite lookup_delete_Some, Hm. split.
    + intros [Hne (w & Hw & <-)]. exists w. rewrite lookup_delete_ne; [auto|]. intros ->. congruence.
    + intros (w & Hw & <-). apply lookup_delete_Some in Hw as [Hne Hw]. split; [|eauto].
      intros E. assert (Hgb : g !! key w = Some b) by (apply Hm; eauto). congruence.
  - rewrite (map_size_delete_Some _ _ (ex_intro _ _ Hga)), Hs, !length_app. cbn. lia.
Qed.

Lemma index_update S g l a v v' :
  index_ok S g l -> S !! a = Some v -> key v' = key v -> index_ok (<[a := v']> S) g l.
Proof.
  intros [Hd Hm Hs] Ha Hp. constructor; [| |exact Hs].
  - intros b. rewrite <- Hd. destruct (decide (b = a)) as [->|Hne].
    + rewrite lookup_insert_eq, Ha. split; eauto.
    + now rewrite lookup_insert_ne by congruence.
  - intros k b. rewrite Hm. destruct (decide (b = a)) as [->|Hne].
    + rewrite lookup_insert_eq, Ha. split; intros (w & [= <-] & <-); eauto.
    + now rewrite lookup_insert_ne by congruence.
Qed.

Lemma index_perm S g l l' : index_ok S g l -> l ≡ₚ l' -> index_ok S g l'.
Proof.
  intros [Hd Hm Hs] Hp. constructor; [|exact Hm|now rewrite Hs, Hp]. intros a. now rewrite Hd, Hp.
Qed.

(** ** Links and contents *)

Lemma lookup_strip (h : gmap Z T) a : strip h !! a = strip1 <$> h !! a.
Proof. unfold strip. now rewrite lookup_fmap. Qed.

Lemma ring_same (h h' : gmap Z T) head l :
  ring h head l -> (forall b, b ∈ l -> nx h' b = nx h b /\ pv h' b = pv h b) -> ring h' head l.
Proof.
  intros [Hh Hs Hnd Hnull] He. constructor; [exact Hh| |exact Hnd|exact Hnull].
  destruct l as [|x r]; [exact I|]. apply (seg_frame h); [exact Hs| |].
  - rewrite app_comm_cons, removelast_last. intros a Ha. now apply He.
  - cbn [tail]. intros b Hb. apply He. rewrite elem_of_app, list_elem_of_singleton in Hb. rewrite elem_of_cons. tauto.
Qed.

(** Writing the data of an unlinked node and queueing it. *)
Lemma append_with (h : gmap Z T) q l a v v' :
  ring h q l -> a ∉ l -> a <> 0 -> unlinked h a -> h !! a = Some v ->
  l_next v' = l_next v -> l_prev v' = l_prev v ->
  exists h' q', dlist_insert_tail (<[a := v']> h) q a = Ret (h', q') /\ ring h' q' (l ++ [a]) /\
    strip h' = <[a := strip1 v']> (strip h).
Proof.
  intros Hr Ha Ha0 [Hu1 Hu2] Hv Hn Hp.
  assert (Hl : forall b, nx (<[a := v']> h) b = nx h b /\ pv (<[a := v']> h) b = pv h b).
  { intros b. unfold nx, pv. destruct (decide (b = a)) as [->|Hne].
    - rewrite lookup_insert_eq, Hv. cbn. now rewrite Hn, Hp.
    - now rewrite lookup_insert_ne by congruence. }
  destruct (insert_tail_spec (<[a := v']> h) q l a) as (h' & q' & He & Hr' & Hst & _).
  - apply (ring_same h); auto.
  - exact Ha.
  - exact Ha0.
  - destruct (Hl a) as [E1 E2]. split; congruence.
  - exists h', q'. split; [exact He|]. split; [exact Hr'|]. rewrite Hst. unfold strip. now rewrite fmap_insert.
Qed.
End Index.
Arguments index_ok {T} key S g l.

(** ** A queue in a heap that has other nodes too *)

(** [l] without [a], and with [a] moved to its end. *)
Definition without (a : Z) (l : list Z) : list Z := filter (fun x => x <> a) l.
Definition touch (a : Z) (l : list Z) : list Z := without a l ++ [a].

Lemma elem_of_without a b l : b ∈ without a l <-> b ∈ l /\ b <> a.
Proof. unfold without. rewrite list_elem_of_filter. tauto. Qed.
Lemma elem_of_touch a b l : b ∈ touch a l <-> b ∈ l \/ b = a.
Proof.
  unfold touch. rewrite elem_of_app, list_elem_of_singleton, elem_of_without. destruct (decide (b = a)); tauto.
Qed.
Lemma without_nodup a l : NoDup l -> NoDup (without a l).
Proof. apply list.NoDup_filter. Qed.

Section Queues.
Context {T : Type} `{LinkedLaws T}.
#[local] Abbreviation heap := (gmap Z T).

(** The queue at [q] is [l], and the nodes outside it are unlinked. *)
Record queue_in (h : heap) (q : Z) (l : list Z) : Prop := {
  qi_ring : ring h q l;
  qi_out : forall a, is_Some (h !! a) -> a ∉ l -> unlinked h a }.

Lemma queue_frame (h h' : heap) q l :
  queue_in h q l -> (forall a, nx h' a = nx h a /\ pv h' a = pv h a) -> queue_in h' q l.
Proof.
  intros [Hr Ho] Hf. constructor; [apply (ring_same h); auto|]. intros a Ha Hl. destruct (Hf a) as [Hn Hp].
  assert (Hs : is_Some (nx h a)) by (rewrite <- Hn; unfold nx; now apply fmap_is_Some).
  unfold unlinked. rewrite Hn, Hp. apply Ho; [|exact Hl]. unfold nx in Hs. now apply fmap_is_Some in Hs.
Qed.

Lemma queue_remove (h : heap) q l p :
  queue_in h q l -> p <> 0 -> is_Some (h !! p) ->
  exists h' q', dlist_remove h q p = Ret (h', q') /\ queue_in h' q' (without p l) /\ unlinked h' p /\ strip h' = strip h.
Proof.
  intros [Hr Ho] Hp Hs. destruct (decide (p ∈ l)) as [Hin|Hout].
  - apply list_elem_of_split in Hin as (l1 & l2 & ->).
    destruct (remove_spec h q l1 p l2 Hr) as (h' & q' & He & Hr' & Hu & Hst & Hf). exists h', q'.
    split; [exact He|]. split; [|auto]. unfold without. rewrite filter_split by apply (ring_nodup _ _ _ Hr).
    constructor; [exact Hr'|]. intros a Ha Hl. destruct (decide (a = p)) as [->|Hne]; [exact Hu|].
    assert (Hout : a ∉ l1 ++ p :: l2) by (rewrite elem_of_app, elem_of_cons in *; tauto).
    destruct (Hf a Hout) as [Hn Hpv]. unfold unlinked. rewrite Hn, Hpv. apply Ho; [|exact Hout].
    now apply (strip_dom h h').
  - destruct (remove_unlinked h q p (Ho _ Hs Hout) Hp) as (h' & He & Hst & Hf). exists h', q.
    split; [exact He|]. unfold without. rewrite filter_absent by exact Hout.
    assert (Hl : forall a, nx h' a = nx h a /\ pv h' a = pv h a) by (intros a; apply Hf, not_elem_of_nil).
    split; [apply (queue_frame h); [now constructor|exact Hl]|]. split; [|exact Hst].
    destruct (Hl p) as [Hn Hpv]. unfold unlinked. rewrite Hn, Hpv. now apply Ho.
Qed.

Lemma queue_append (h : heap) q l p :
  queue_in h q l -> p ∉ l -> p <> 0 -> is_Some (h !! p) ->
  exists h' q', dlist_insert_tail h q p = Ret (h', q') /\ queue_in h' q' (l ++ [p]) /\ strip h' = strip h.
Proof.
  intros [Hr Ho] Hin Hp Hs.
  destruct (insert_tail_spec h q l p Hr Hin Hp (Ho _ Hs Hin)) as (h' & q' & He & Hr' & Hst & Hf). exists h', q'.
  split; [exact He|]. split; [|exact Hst]. constructor; [exact Hr'|]. intros a Ha Hl.
  assert (Hout : a ∉ p :: l) by (rewrite elem_of_app, list_elem_of_singleton in Hl; rewrite elem_of_cons; tauto).
  destruct (Hf a Hout) as [Hn Hpv]. unfold unlinked. rewrite Hn, Hpv.
  apply Ho; [now apply (strip_dom h h')|]. rewrite elem_of_cons in Hout. tauto.
Qed.

Lemma queue_init (h : heap) q l p :
  queue_in h q l -> p ∉ l -> is_Some (h !! p) ->
  exists h', dlist_init h p = Ret h' /\ queue_in h' q l /\ strip h' = strip h.
Proof.
  intros Hq Hin Hs. destruct (qi_out _ _ _ Hq p Hs Hin) as [Hn0 Hp0].
  destruct (dlist_init_spec h p) as (h' & He & Hst & Hn & Hp); [eauto|]. exists h'. split; [exact He|]. split; [|exact Hst].
  apply (queue_frame h); [exact Hq|]. intros a. rewrite Hn, Hp. case_decide; subst; auto.
Qed.

Lemma queue_empty : queue_in ∅ 0 [].
Proof.
  constructor; [constructor; [reflexivity|exact I|constructor|apply not_elem_of_nil]|].
  intros a [x Hx]. now rewrite lookup_empty in Hx.
Qed.

(** A node that is not queued leaves the heap, a new unlinked node enters it. *)
Lemma queue_delete (h : heap) q l p : queue_in h q l -> p ∉ l -> queue_in (delete p h) q l.
Proof.
  intros [Hr Ho] Hin. assert (Hf : forall a, a <> p -> nx (delete p h) a = nx h a /\ pv (delete p h) a = pv h a).
  { intros a Ha. unfold nx, pv. now rewrite lookup_delete_ne by congruence. }
  constructor; [apply (ring_same h); [exact Hr|]; intros b Hb; apply Hf; intros ->; contradiction|].
  intros a Ha Hl. destruct (decide (a = p)) as [->|Hne]; [rewrite lookup_delete_eq in Ha; now destruct Ha|].
  destruct (Hf a Hne) as [Hn Hpv]. rewrite lookup_delete_ne in Ha by congruence. unfold unlinked. rewrite Hn, Hpv. now apply Ho.
Qed.
Lemma queue_new (h : heap) q l p v :
  queue_in h q l -> p ∉ l -> l_next v = 0 -> l_prev v = 0 -> queue_in (<[p := v]> h) q l.
Proof.
  intros [Hr Ho] Hin Hvn Hvp. assert (Hf : forall a, a <> p -> nx (<[p := v]> h) a = nx h a /\ pv (<[p := v]> h) a = pv h a).
  { intros a Ha. unfold nx, pv. now rewrite lookup_insert_ne by congruence. }
  constructor; [apply (ring_same h); [exact Hr|]; intros b Hb; apply Hf; intros ->; contradiction|].
  intros a Ha Hl. destruct (decide (a = p)) as [->|Hne].
  - unfold unlinked, nx, pv. rewrite lookup_insert_eq. cbn. now rewrite Hvn, Hvp.
  - destruct (Hf a Hne) as [Hn Hpv]. rewrite lookup_insert_ne in Ha by congruence. unfold unlinked. rewrite Hn, Hpv. now apply Ho.
Qed.
End Queues.

(** ** Queue and map together *)

Section KeyedQueue.
Context {T : Type} `{LinkedLaws T} (key : T -> Z) {M : Type} `{PtrMapLaws M}.
Hypothesis key_links : forall v, key (strip1 v) = key v.

(** The queue at [q] in the heap [h] and the map [m] hold the nodes [l]. *)
Record kq_ok (h : gmap Z T) (q : Z) (m : M) (l : list Z) : Prop := {
  kq_ring : ring h q l;
  kq_index : index_ok key (strip h) (pm_abs m) l;
  kq_map : pm_ok m }.

(** The nodes in queue order, without their links. *)
Definition nodes (h : gmap Z T) (l : list Z) : list (Z * T) := omap (fun a => (fun v => (a, strip1 v)) <$> h !! a) l.

Lemma nodes_app h l1 l2 : nodes h (l1 ++ l2) = nodes h l1 ++ nodes h l2.
Proof. apply omap_app. Qed.

Lemma nodes_strip h h' l : (forall a, a ∈ l -> strip h' !! a = strip h !! a) -> nodes h' l = nodes h l.
Proof.
  intros He. unfold nodes. induction l as [|a l IH]; [reflexivity|]. cbn.
  specialize (He a ltac:(left)) as Ha. rewrite !lookup_strip in Ha. rewrite IH by (intros; apply He; now right).
  destruct (h !! a), (h' !! a); cbn in *; congruence.
Qed.

Lemma kq_node h q m l a : kq_ok h q m l -> a ∈ l -> a <> 0 /\ exists v, h !! a = Some v.
Proof.
  intros [Hr [Hd _ _] _] Ha. split; [exact (ring_pos _ _ _ _ Hr Ha)|]. apply Hd in Ha as [v Hv]. rewrite lookup_strip in Hv.
  destruct (h !! a); [eauto|discriminate].
Qed.

Lemma kq_lookup h q m l k : kq_ok h q m l ->
  (exists a v, a ∈ l /\ h !! a = Some v /\ key v = k /\ pm_abs m !! k = Some a) \/
  (pm_abs m !! k = None /\ forall a v, a ∈ l -> h !! a = Some v -> key v <> k).
Proof.
  intros [Hr [Hd Hm _] _]. destruct (pm_abs m !! k) as [a|] eqn:E.
  - left. pose proof E as E'. apply Hm in E' as (w & Hw & Hk). rewrite lookup_strip in Hw.
    destruct (h !! a) as [v|] eqn:Hv; [|discriminate]. injection Hw as <-. exists a, v.
    split; [apply Hd; now rewrite lookup_strip, Hv|]. rewrite key_links in Hk. auto.
  - right. split; [reflexivity|]. intros a v Ha Hv Hk.
    assert (Hn : pm_abs m !! k = Some a); [|congruence]. apply Hm. exists (strip1 v).
    split; [now rewrite lookup_strip, Hv|now rewrite key_links].
Qed.

Lemma elem_of_nodes h l e : e ∈ nodes h l <-> fst e ∈ l /\ exists v, h !! fst e = Some v /\ snd e = strip1 v.
Proof.
  unfold nodes. rewrite list_elem_of_omap. destruct e as [a w]. cbn [fst snd]. split.
  - intros (b & Hb & E). destruct (h !! b) as [v|] eqn:Hv; [|discriminate]. injection E as <- <-. eauto.
  - intros (Ha & v & Hv & ->). exists a. now rewrite Hv.
Qed.

Lemma nodes_cons h a v l : h !! a = Some v -> nodes h (a :: l) = (a, strip1 v) :: nodes h l.
Proof. intros Hv. unfold nodes. cbn. now rewrite Hv. Qed.

Lemma nodes_fst h q m l : kq_ok h q m l -> map fst (nodes h l) = l.
Proof.
  intros Hok. assert (Hs : forall a, a ∈ l -> exists v, h !! a = Some v) by (intros a Ha; now apply (kq_node h q m l a Hok)).
  clear Hok. induction l as [|a l IH]; [reflexivity|]. destruct (Hs a) as [v Hv]; [left|].
  rewrite (nodes_cons _ _ _ _ Hv). cbn [map fst]. f_equal. apply IH. intros b Hb. apply Hs. now right.
Qed.

Lemma kq_unique h q m l a b v w :
  kq_ok h q m l -> h !! a = Some v -> h !! b = Some w -> key v = key w -> a = b.
Proof.
  intros [_ [_ Hm _] _] Ha Hb Hk.
  assert (Ga : pm_abs m !! key v = Some a) by (apply Hm; exists (strip1 v); now rewrite lookup_strip, Ha, key_links).
  assert (Gb : pm_abs m !! key v = Some b) by (apply Hm; exists (strip1 w); now rewrite lookup_strip, Hb, key_links).
  congruence.
Qed.

(** The nodes fit into the heap: the fuel of a loop that frees them. *)
Lemma kq_size h q m l : kq_ok h q m l -> (length l <= size h)%nat.
Proof.
  intros Hok. rewrite <- size_dom, <- (size_list_to_set (C := gset Z)) by (apply (ring_nodup _ _ _ (kq_ring _ _ _ _ Hok))).
  apply subseteq_size. intros a Ha. apply elem_of_list_to_set in Ha. apply elem_of_dom.
  destruct (kq_node h q m l a Hok Ha) as [_ [v ->]]. eauto.
Qed.

(** No node. *)
Lemma kq_empty m : pm_ok m -> pm_abs m = ∅ -> kq_ok ∅ 0 m [].
Proof.
  intros Hm He. constructor; [|constructor|exact Hm].
  - constructor; [reflexivity|exact I|constructor|apply not_elem_of_nil].
  - intros a. unfold strip. rewrite lookup_fmap, lookup_empty. split; [intros [v Hv]; discriminate|intros Hin; inversion Hin].
  - intros k a. rewrite He, lookup_empty. split; [discriminate|]. intros (v & Hv & _). unfold strip in Hv.
    now rewrite lookup_fmap, lookup_empty in Hv.
  - now rewrite He, map_size_empty.
Qed.

(** A new node at the tail. *)
Lemma kq_append h q m l a v :
  kq_ok h q m l -> zlen l < 2 ^ 61 -> a ∉ l -> a <> 0 -> l_next v = 0 -> l_prev v = 0 -> pm_abs m !! key v = None ->
  exists h' q' m', dlist_insert_tail (<[a := v]> h) q a = Ret (h', q') /\ pm_set m (key v) a = Ret (m', 0) /\
    kq_ok h' q' m' (l ++ [a]) /\ nodes h' (l ++ [a]) = nodes h l ++ [(a, strip1 v)].
Proof.
  intros Hok Hl Ha Ha0 Hn Hp Hk. pose proof Hok as [Hr Hix Hm].
  assert (Hr0 : ring (<[a := v]> h) q l).
  { apply (ring_same h); [exact Hr|]. intros b Hb. unfold nx, pv. rewrite lookup_insert_ne by (intros ->; contradiction). auto. }
  assert (Hu : unlinked (<[a := v]> h) a) by (unfold unlinked, nx, pv; rewrite lookup_insert_eq; cbn; now rewrite Hn, Hp).
  destruct (insert_tail_spec _ q l a Hr0 Ha Ha0 Hu) as (h' & q' & He & Hr' & Hst & _).
  destruct (pm_set_spec m (key v) a Hm) as (m' & Hs & Hm' & Habs); [rewrite (ix_size _ _ _ Hix); exact Hl|].
  rewrite Hk in Hs. destruct (Z.eqb_spec a 0); [contradiction|].
  exists h', q', m'. split; [exact He|]. split; [exact Hs|].
  assert (HS : strip h' = <[a := strip1 v]> (strip h)) by (rewrite Hst; unfold strip; now rewrite fmap_insert).
  split.
  - constructor; [exact Hr'| |exact Hm']. rewrite HS, Habs. rewrite <- (key_links v) in Hk |- *. now apply index_add.
  - rewrite nodes_app. f_equal.
    + apply nodes_strip. intros b Hb. rewrite HS, lookup_insert_ne by (intros ->; contradiction). reflexivity.
    + unfold nodes. cbn. assert (E : strip h' !! a = Some (strip1 v)) by (rewrite HS; apply lookup_insert_eq).
      rewrite lookup_strip in E. destruct (h' !! a) as [w|]; [|discriminate]. cbn in *. congruence.
Qed.

(** A node leaves the queue and the map and is freed. *)
Lemma kq_unlink h q m l1 a l2 v :
  kq_ok h q m (l1 ++ a :: l2) -> zlen (l1 ++ a :: l2) < 2 ^ 61 -> h !! a = Some v ->
  exists h' q' m' v', dlist_remove h q a = Ret (h', q') /\ h' !! a = Some v' /\ strip1 v' = strip1 v /\
    pm_set m (key v) 0 = Ret (m', a) /\ kq_ok (delete a h') q' m' (l1 ++ l2) /\
    nodes (delete a h') (l1 ++ l2) = nodes h l1 ++ nodes h l2.
Proof.
  intros Hok Hl Hv. pose proof Hok as [Hr Hix Hm].
  destruct (remove_spec h q l1 a l2 Hr) as (h' & q' & He & Hr' & _ & Hst & _).
  assert (HSv : strip h !! a = Some (strip1 v)) by (now rewrite lookup_strip, Hv).
  destruct (pm_set_spec m (key v) 0 Hm) as (m' & Hs & Hm' & Habs); [rewrite (ix_size _ _ _ Hix); exact Hl|].
  cbn [Z.eqb] in Habs. assert (Hka : pm_abs m !! key v = Some a).
  { apply (ix_map _ _ _ Hix). exists (strip1 v). split; [exact HSv|apply key_links]. }
  rewrite Hka in Hs. pose proof HSv as HSv'. rewrite <- Hst, lookup_strip in HSv'.
  destruct (h' !! a) as [v'|] eqn:Hv'; [|discriminate]. cbn in HSv'.
  pose proof (ring_nodup _ _ _ Hr) as Hnd.
  assert (Hn : a ∉ l1 ++ l2) by (rewrite <- Permutation_middle in Hnd; now apply list.NoDup_cons in Hnd as [? _]).
  assert (HS : strip (delete a h') = delete a (strip h)) by (rewrite <- Hst; unfold strip; apply fmap_delete).
  exists h', q', m', v'. split; [exact He|]. split; [exact Hv'|]. split; [congruence|]. split; [exact Hs|]. split.
  - constructor; [| |exact Hm'].
    + apply (ring_same h'); [exact Hr'|]. intros b Hb. unfold nx, pv. rewrite lookup_delete_ne by (intros ->; contradiction). auto.
    + rewrite HS, Habs, <- (key_links v). exact (index_remove _ _ l1 a l2 _ Hix Hnd HSv).
  - rewrite <- nodes_app. apply nodes_strip. intros b Hb. rewrite HS, lookup_delete_ne by (intros ->; contradiction). reflexivity.
Qed.
End KeyedQueue.
