(* ===== verification/Waiting.v ===== *)
(** * Connections waiting for a login: [gateway/auth.c]

    A connection that has not logged in is entered in a queue ordered by time and in a map by
    connection.  Entering one closes those that wait for more than ten seconds; a login takes its
    connection out.  The two structures are refined to the list of the waiting connections. *)
From S2P Require Import Prelude AgMap Dlist Keyed.

(** [struct waiting_client] *)
Record waiting_client := mk_waiting { wc_next : Z; wc_prev : Z; wc_conn : Z; wc_start : Z }.

#[export] Instance waiting_linked : Linked waiting_client := {
  l_prev := wc_prev;
  l_next := wc_next;
  set_prev v a := mk_waiting (wc_next v) a (wc_conn v) (wc_start v);
  set_next v a := mk_waiting a (wc_prev v) (wc_conn v) (wc_start v) }.

#[export] Instance waiting_laws : LinkedLaws waiting_client.
Proof. split; intros []; reflexivity. Qed.

(** The heap of waiting clients, [wqueue] and [wmap]; [None] is the null pointer. *)
Record waiting (M : Type) := mk_wait { wq_heap : gmap Z waiting_client; wqueue : Z; wmap : option M }.
Arguments mk_wait {M} _ _ _.
Arguments wq_heap {M} _.
Arguments wqueue {M} _.
Arguments wmap {M} _.

(** The static initialisers. *)
Definition waiting_init {M} : waiting M := mk_wait ∅ 0 None.

Section Operations.
Context {M : Type} `{PtrMap M}.

(** [clean_waiting_client]: the table and the connections that [agN_close] is called on. *)
Fixpoint clean_waiting_client (fuel : nat) (t : waiting M) (now : Z) : outcome (waiting M * list Z) :=
  if wqueue t =? 0 then Ret (t, [])
  else
    v ← deref (wq_heap t !! wqueue t);
    if negb (10 <? now - wc_start v) then Ret (t, [])
    else
      match fuel with
      | O => NoFuel
      | S fuel' =>
        let wc := wqueue t in
        '(heap, queue) ← dlist_remove (wq_heap t) (wqueue t) wc;
        v ← deref (heap !! wc);
        '(m, _) ← map_set (wmap t) (wc_conn v) 0;
        '(t, closed) ← clean_waiting_client fuel' (mk_wait (delete wc heap) queue m) now;
        Ret (t, wc_conn v :: closed)
      end.

(** [new_waiting_client] when [malloc] answers [wc] and [_agMap_new] the map [new_map]. *)
Definition new_waiting_client (new_map : M) (t : waiting M) (wc now conn : Z) : outcome (waiting M * list Z) :=
  '(t, closed) ← clean_waiting_client (size (wq_heap t)) t now;
  let m := match wmap t with None => Some new_map | Some m => Some m end in
  if wc =? 0 then Undef
  else
    let heap := <[wc := mk_waiting 0 0 conn now]> (wq_heap t) in
    '(heap, queue) ← dlist_insert_tail heap (wqueue t) wc;
    '(m, _) ← map_set m conn wc;
    Ret (mk_wait heap queue m, closed).

Definition remove_waiting (t : waiting M) (conn : Z) : outcome (waiting M) :=
  wc ← map_get (wmap t) conn;
  if wc =? 0 then Ret t
  else
    '(heap, queue) ← dlist_remove (wq_heap t) (wqueue t) wc;
    '(m, _) ← map_set (wmap t) conn 0;
    Ret (mk_wait (delete wc heap) queue m).

(** A sequence of calls with the connections they close. *)
Inductive wait_op := WNew (wc now conn : Z) | WRemove (conn : Z).

Fixpoint run_waiting (new_map : M) (t : waiting M) (ops : list wait_op) : outcome (waiting M * list Z) :=
  match ops with
  | [] => Ret (t, [])
  | op :: ops' =>
    '(t, closed) ← match op with
                   | WNew wc now conn => new_waiting_client new_map t wc now conn
                   | WRemove conn => t ← remove_waiting t conn; Ret (t, [])
                   end;
    '(t, closed') ← run_waiting new_map t ops';
    Ret (t, closed ++ closed')
  end.
End Operations.

(** ** Specification *)

(** The waiting connections in the order they came, each at its address, and the one the map has for a
    connection: the last one that arrived, unless an earlier one of the same connection was closed since. *)
Definition wlist : Type := list (Z * waiting_client).
Definition wstate : Type := wlist * gmap Z Z.

Definition expired (now : Z) (e : Z * waiting_client) : bool := 10 <? now - wc_start (snd e).

(** The connections at the front that wait too long, and the rest. *)
Fixpoint expired_front (now : Z) (W : wlist) : wlist * wlist :=
  match W with
  | [] => ([], [])
  | e :: W' => if expired now e then let '(x, r) := expired_front now W' in (e :: x, r) else ([], W)
  end.

Definition conn_of (e : Z * waiting_client) : Z := wc_conn (snd e).
Definition forget (F : gmap Z Z) (x : wlist) : gmap Z Z := foldl (fun F e => delete (conn_of e) F) F x.

(** [None] for an address in use. *)
Definition spec_wait (s : wstate) (op : wait_op) : option (wstate * list Z) :=
  let '(W, F) := s in
  match op with
  | WNew wc now conn =>
    let '(x, r) := expired_front now W in
    if (wc =? 0) || existsb (Z.eqb wc) (map fst r) then None
    else Some ((r ++ [(wc, mk_waiting 0 0 conn now)], <[conn := wc]> (forget F x)), map conn_of x)
  | WRemove conn =>
    match F !! conn with
    | Some a => Some ((List.filter (fun e => negb (fst e =? a)) W, delete conn F), [])
    | None => Some ((W, F), [])
    end
  end.

Fixpoint spec_waits (s : wstate) (ops : list wait_op) : option (wstate * list Z) :=
  match ops with
  | [] => Some (s, [])
  | op :: ops' =>
    '(s, closed) ← spec_wait s op;
    '(s, closed') ← spec_waits s ops';
    Some (s, closed ++ closed')
  end.

(** As long as no connection arrives while it waits, only the list is needed; [None] also for a connection
    that does. *)
Definition once_wait (W : wlist) (op : wait_op) : option (wlist * list Z) :=
  match op with
  | WNew wc now conn =>
    let '(x, r) := expired_front now W in
    if (wc =? 0) || existsb (Z.eqb wc) (map fst r) || existsb (Z.eqb conn) (map conn_of r) then None
    else Some (r ++ [(wc, mk_waiting 0 0 conn now)], map conn_of x)
  | WRemove conn => Some (List.filter (fun e => negb (conn_of e =? conn)) W, [])
  end.

Fixpoint once_waits (W : wlist) (ops : list wait_op) : option (wlist * list Z) :=
  match ops with
  | [] => Some (W, [])
  | op :: ops' =>
    '(W, closed) ← once_wait W op;
    '(W, closed') ← once_waits W ops';
    Some (W, closed ++ closed')
  end.

(** *** The list and the map *)

Lemma expired_split now W : fst (expired_front now W) ++ snd (expired_front now W) = W.
Proof.
  induction W as [|e W IH]; [reflexivity|]. cbn [expired_front]. destruct (expired now e); [|reflexivity].
  destruct (expired_front now W) as [x r]. cbn [fst snd app] in *. now rewrite IH.
Qed.

Lemma forget_lookup x : forall F c, forget F x !! c = if existsb (Z.eqb c) (map conn_of x) then None else F !! c.
Proof.
  induction x as [|e x IH]; intros F c; [reflexivity|]. unfold forget in *. cbn [foldl map existsb]. rewrite IH.
  destruct (existsb _ _); [now rewrite orb_true_r|]. rewrite orb_false_r.
  destruct (Z.eqb_spec c (conn_of e)) as [->|]; [apply lookup_delete_eq|now apply lookup_delete_ne].
Qed.

(** What the map finds waits; [agree]: it finds all that wait. *)
Definition found (W : wlist) (F : gmap Z Z) : Prop := forall c a, F !! c = Some a -> exists w, (a, w) ∈ W /\ wc_conn w = c.
Definition agree (W : wlist) (F : gmap Z Z) : Prop := forall a w, (a, w) ∈ W -> F !! wc_conn w = Some a.

Lemma existsb_in c (l : list Z) : existsb (Z.eqb c) l = true <-> c ∈ l.
Proof.
  rewrite existsb_exists. setoid_rewrite Z.eqb_eq. rewrite list_elem_of_In. split; [intros (x & Hx & ->); exact Hx|eauto].
Qed.
Lemma existsb_not c (l : list Z) : existsb (Z.eqb c) l = false <-> c ∉ l.
Proof. rewrite <- existsb_in. now destruct (existsb _ _). Qed.

Lemma same_entry (W : wlist) a w w' : NoDup (map fst W) -> (a, w) ∈ W -> (a, w') ∈ W -> w = w'.
Proof.
  intros Hnd Hw Hw'. apply list_elem_of_split in Hw as (W1 & W2 & ->). rewrite map_app in Hnd. cbn [map fst] in Hnd.
  rewrite <- Permutation_middle in Hnd. apply list.NoDup_cons in Hnd as [Hn _]. rewrite elem_of_app, elem_of_cons in Hw'.
  rewrite elem_of_app in Hn.
  destruct Hw' as [Hw'|[[= ->]|Hw']]; [|reflexivity|]; destruct Hn; [left|right]; exact (list_elem_of_fmap_2 fst _ _ Hw').
Qed.

Lemma found_expired W F now : found W F -> found (snd (expired_front now W)) (forget F (fst (expired_front now W))).
Proof.
  intros Hf c a. rewrite forget_lookup. pose proof (expired_split now W) as E.
  destruct (expired_front now W) as [x r]. cbn [fst snd] in *. destruct (existsb _ _) eqn:Ex; [discriminate|]. intros Ha.
  destruct (Hf c a Ha) as (w & Hw & Hc). exists w. split; [|exact Hc]. rewrite <- E in Hw. apply elem_of_app in Hw as [Hw|Hw]; [|exact Hw].
  apply existsb_not in Ex. destruct Ex. rewrite <- Hc. exact (list_elem_of_fmap_2 conn_of _ _ Hw).
Qed.

Lemma filter_address (W : wlist) a : forall b w, (b, w) ∈ List.filter (fun e => negb (fst e =? a)) W <-> (b, w) ∈ W /\ b <> a.
Proof. intros b w. rewrite !list_elem_of_In, filter_In, negb_true_iff, Z.eqb_neq. reflexivity. Qed.

Lemma found_removed W F c a : NoDup (map fst W) -> found W F -> F !! c = Some a ->
  found (List.filter (fun e => negb (fst e =? a)) W) (delete c F).
Proof.
  intros Hnd Hf Ha c' a' Ha'. apply lookup_delete_Some in Ha' as [Hne Ha']. destruct (Hf c' a' Ha') as (w & Hw & Hc).
  exists w. split; [|exact Hc]. apply filter_address. split; [exact Hw|]. intros ->.
  destruct (Hf c a Ha) as (w' & Hw' & Hc'). pose proof (same_entry W a w w' Hnd Hw Hw'). congruence.
Qed.

Lemma agree_expired W F now : NoDup (map fst W) -> agree W F ->
  agree (snd (expired_front now W)) (forget F (fst (expired_front now W))).
Proof.
  intros Hnd Hag a w. rewrite forget_lookup. pose proof (expired_split now W) as E.
  destruct (expired_front now W) as [x r]. cbn [fst snd] in *. intros Hw.
  assert (HwW : (a, w) ∈ W) by (rewrite <- E; apply elem_of_app; now right).
  destruct (existsb _ _) eqn:Ex; [|now apply Hag]. apply existsb_in, list_elem_of_fmap in Ex as ([b u] & Hc & Hu). exfalso.
  assert (Hb : (b, u) ∈ W) by (rewrite <- E; apply elem_of_app; now left). pose proof (Hag b u Hb) as Hbu. pose proof (Hag a w HwW) as Haw.
  change (wc_conn w = wc_conn u) in Hc. rewrite Hc in Haw. assert (a = b) as -> by congruence.
  rewrite <- E, map_app in Hnd. apply list.NoDup_app in Hnd as (_ & Hd & _).
  apply (Hd b); [exact (list_elem_of_fmap_2 fst _ _ Hu)|exact (list_elem_of_fmap_2 fst _ _ Hw)].
Qed.

Lemma filter_same {A} (f g : A -> bool) l : (forall x, x ∈ l -> f x = g x) -> List.filter f l = List.filter g l.
Proof.
  induction l as [|x l IH]; intros Hf; [reflexivity|]. cbn. rewrite (Hf x), IH; [reflexivity|intros; apply Hf; now right|left].
Qed.

Lemma filter_true {A} (f : A -> bool) l : (forall x, x ∈ l -> f x = true) -> List.filter f l = l.
Proof. intros Hf. rewrite (filter_same f (fun _ => true)) by exact Hf. induction l; cbn; [reflexivity|]. f_equal. apply IHl. intros x Hx. apply Hf. now right. Qed.

(** Without second arrivals the two descriptions agree. *)
Lemma once_agree W F op W' c : NoDup (map fst W) -> found W F -> agree W F -> once_wait W op = Some (W', c) ->
  exists F', spec_wait (W, F) op = Some ((W', F'), c) /\ agree W' F'.
Proof.
  intros Hnd Hf Hag. destruct op as [wc now conn|conn]; cbn [once_wait spec_wait].
  - pose proof (agree_expired W F now Hnd Hag) as Hag'. destruct (expired_front now W) as [x r]. cbn [fst snd] in Hag'.
    destruct (_ || _ || _) eqn:Eg; [discriminate|]. apply orb_false_iff in Eg as [-> Ec]. intros [= <- <-].
    eexists. split; [reflexivity|]. intros a w Hw. apply elem_of_app in Hw as [Hw|Hw].
    + rewrite lookup_insert_ne; [now apply Hag'|]. intros E. apply existsb_not in Ec. apply Ec. rewrite E.
      exact (list_elem_of_fmap_2 conn_of _ _ Hw).
    + apply list_elem_of_singleton in Hw as [= -> ->]. apply lookup_insert_eq.
  - intros [= <- <-]. destruct (F !! conn) as [a|] eqn:Ea.
    + exists (delete conn F). destruct (Hf conn a Ea) as (w & Hw & Hc).
      assert (Hsame : forall e, e ∈ W -> (fst e =? a) = (conn_of e =? conn)).
      { intros [b u] Hb. cbn [fst]. change (conn_of (b, u)) with (wc_conn u). pose proof (Hag b u Hb) as Hbu.
        destruct (Z.eqb_spec (wc_conn u) conn) as [E|E]; [rewrite E, Ea in Hbu; injection Hbu as ->; apply Z.eqb_refl|].
        apply Z.eqb_neq. intros ->. apply E. rewrite <- Hc. f_equal. exact (same_entry W a u w Hnd Hb Hw). }
      assert (Efil : List.filter (fun e => negb (fst e =? a)) W = List.filter (fun e => negb (conn_of e =? conn)) W).
      { apply filter_same. intros e He. now rewrite Hsame. }
      split; [now rewrite Efil|]. rewrite <- Efil. intros b u Hb. apply filter_address in Hb as [Hb Hne].
      rewrite lookup_delete_ne; [now apply Hag|]. intros E. pose proof (Hag b u Hb) as Hbu. rewrite <- E, Ea in Hbu. congruence.
    + exists F. assert (Hnone : List.filter (fun e => negb (conn_of e =? conn)) W = W).
      { apply filter_true. intros [b u] Hb. apply negb_true_iff, Z.eqb_neq.
        change (wc_conn u <> conn). intros <-. pose proof (Hag b u Hb). congruence. }
      rewrite Hnone. auto.
Qed.

Section Refinement.
Context {M : Type} `{PtrMapLaws M} (new_map : M).
Hypothesis new_ok : pm_ok new_map.
Hypothesis new_empty : pm_abs new_map = ∅.
#[local] Abbreviation heap := (gmap Z waiting_client).

(** *** The queue *)

(** The queue is [l], and there are no other structures. *)
Record queued (h : heap) (q : Z) (l : list Z) : Prop := {
  qd_ring : ring h q l;
  qd_all : forall a, is_Some (h !! a) <-> a ∈ l }.

Lemma queued_nodes h q l : queued h q l -> map fst (nodes h l) = l.
Proof.
  intros [_ Ha]. assert (Hs : forall a, a ∈ l -> is_Some (h !! a)) by (intros a; apply Ha). clear Ha.
  induction l as [|a l IH]; [reflexivity|]. destruct (Hs a ltac:(left)) as [v Hv]. rewrite (nodes_cons _ _ _ _ Hv). cbn [map fst].
  f_equal. apply IH. intros b Hb. apply Hs. now right.
Qed.

Lemma queued_size h q l : queued h q l -> (length l <= size h)%nat.
Proof.
  intros [Hr Ha]. rewrite <- size_dom, <- (size_list_to_set (C := gset Z)) by apply (ring_nodup _ _ _ Hr).
  apply subseteq_size. intros a Hin. apply elem_of_list_to_set, Ha in Hin. now apply elem_of_dom.
Qed.

Lemma strip_at (h h' : heap) a v : strip h' = strip h -> h !! a = Some v -> exists v', h' !! a = Some v' /\ strip1 v' = strip1 v.
Proof.
  intros Hst Hv. assert (E : strip h' !! a = Some (strip1 v)) by now rewrite Hst, lookup_strip, Hv.
  rewrite lookup_strip in E. destruct (h' !! a) as [v'|]; [|discriminate]. exists v'. split; [reflexivity|].
  cbn [fmap option_fmap option_map] in E. congruence.
Qed.

Lemma queued_unlink h q l1 a l2 v : queued h q (l1 ++ a :: l2) -> h !! a = Some v ->
  exists h' q' v', dlist_remove h q a = Ret (h', q') /\ h' !! a = Some v' /\ strip1 v' = strip1 v /\
    queued (delete a h') q' (l1 ++ l2) /\ nodes (delete a h') (l1 ++ l2) = nodes h l1 ++ nodes h l2.
Proof.
  intros [Hr Hall] Hv. destruct (remove_spec h q l1 a l2 Hr) as (h' & q' & He & Hr' & _ & Hst & _).
  destruct (strip_at h h' a v Hst Hv) as (v' & Hv' & Hs). pose proof (ring_nodup _ _ _ Hr) as Hnd.
  assert (Hn : a ∉ l1 ++ l2) by (rewrite <- Permutation_middle in Hnd; now apply list.NoDup_cons in Hnd as [? _]).
  exists h', q', v'. split; [exact He|]. split; [exact Hv'|]. split; [exact Hs|]. split.
  - constructor.
    + apply (ring_same h'); [exact Hr'|]. intros b Hb. unfold nx, pv. rewrite lookup_delete_ne by (intros ->; contradiction). auto.
    + intros b. destruct (decide (b = a)) as [->|Hne]; [rewrite lookup_delete_eq; split; [intros [? [=]]|contradiction]|].
      rewrite lookup_delete_ne, (strip_dom h h') by (congruence || exact Hst).
      rewrite Hall, !elem_of_app, elem_of_cons. tauto.
  - rewrite <- nodes_app. apply nodes_strip. intros b Hb. assert (Hne : b <> a) by (intros ->; contradiction).
    rewrite !lookup_strip, lookup_delete_ne, <- !lookup_strip by congruence. now rewrite Hst.
Qed.

Lemma queued_append h q l a v : queued h q l -> a ∉ l -> a <> 0 -> l_next v = 0 -> l_prev v = 0 ->
  exists h' q', dlist_insert_tail (<[a := v]> h) q a = Ret (h', q') /\ queued h' q' (l ++ [a]) /\
    nodes h' (l ++ [a]) = nodes h l ++ [(a, strip1 v)].
Proof.
  intros [Hr Hall] Ha Ha0 Hn Hp.
  assert (Hr0 : ring (<[a := v]> h) q l).
  { apply (ring_same h); [exact Hr|]. intros b Hb. unfold nx, pv. rewrite lookup_insert_ne by (intros ->; contradiction). auto. }
  assert (Hu : unlinked (<[a := v]> h) a) by (unfold unlinked, nx, pv; rewrite lookup_insert_eq; cbn in *; now rewrite Hn, Hp).
  destruct (insert_tail_spec _ q l a Hr0 Ha Ha0 Hu) as (h' & q' & He & Hr' & Hst & _).
  exists h', q'. split; [exact He|]. split; [constructor; [exact Hr'|]|].
  - intros b. rewrite (strip_dom _ h') by exact Hst. rewrite elem_of_app, list_elem_of_singleton.
    destruct (decide (b = a)) as [->|Hne]; [rewrite lookup_insert_eq; split; eauto|]. rewrite lookup_insert_ne, Hall by congruence. tauto.
  - rewrite nodes_app. f_equal.
    + apply nodes_strip. intros b Hb. rewrite Hst, !lookup_strip, lookup_insert_ne by (intros ->; contradiction). reflexivity.
    + destruct (strip_at _ h' a v Hst (lookup_insert_eq _ _ _)) as (w & Hw & Es). rewrite (nodes_cons _ _ _ _ Hw). now rewrite Es.
Qed.

(** *** The table *)

(** The table holds the connections [W], found as [F] says. *)
Record holds_waiting (t : waiting M) (l : list Z) (W : wlist) (F : gmap Z Z) : Prop := {
  hw_queue : queued (wq_heap t) (wqueue t) l;
  hw_nodes : nodes (wq_heap t) l = W;
  hw_map : pm_ok (default new_map (wmap t));
  hw_abs : pm_abs (default new_map (wmap t)) = F;
  hw_found : found W F;
  hw_null : wmap t = None -> l = [] }.

Lemma init_holds : holds_waiting waiting_init [] [] ∅.
Proof.
  constructor; [|reflexivity|exact new_ok|exact new_empty|intros c a Ha; now rewrite lookup_empty in Ha|reflexivity].
  constructor; [constructor; [reflexivity|exact I|constructor|apply not_elem_of_nil]|]. intros a. cbn. rewrite lookup_empty, elem_of_nil.
  split; [intros [? [=]]|tauto].
Qed.

Lemma holds_fst t l W F : holds_waiting t l W F -> map fst W = l.
Proof. intros Hh. rewrite <- (hw_nodes _ _ _ _ Hh). eapply queued_nodes, hw_queue, Hh. Qed.

Lemma holds_room t l W F : holds_waiting t l W F -> zlen l < 2 ^ 61 -> Z.of_nat (size (pm_abs (default new_map (wmap t)))) < 2 ^ 61.
Proof.
  intros Hh Hl. pose proof (hw_abs _ _ _ _ Hh) as HF. assert (Hsz : (size F <= length (map conn_of W))%nat).
  { apply size_keys. intros c a Ha. destruct (hw_found _ _ _ _ Hh c a Ha) as (w & Hw & <-). exact (list_elem_of_fmap_2 conn_of _ _ Hw). }
  rewrite length_map, <- (length_map fst), (holds_fst _ _ _ _ Hh) in Hsz. rewrite HF. unfold zlen in Hl. lia.
Qed.

Lemma clean_spec now : forall fuel t l W F,
  holds_waiting t l W F -> zlen l < 2 ^ 61 -> (length l <= fuel)%nat ->
  exists t' l', clean_waiting_client fuel t now = Ret (t', map conn_of (fst (expired_front now W))) /\
    holds_waiting t' l' (snd (expired_front now W)) (forget F (fst (expired_front now W))) /\ (length l' <= length l)%nat.
Proof.
  induction fuel as [|fuel IH]; intros t l W F Hh Hl Hf; pose proof (ring_head _ _ _ (qd_ring _ _ _ (hw_queue _ _ _ _ Hh))) as Hhd;
    cbn [clean_waiting_client]; destruct l as [|a l]; cbn [hd_error default from_option id] in Hhd; rewrite Hhd.
  1,3: pose proof (hw_nodes _ _ _ _ Hh) as HW; cbn in HW; subst W; exists t, []; repeat split; try apply Hh; auto.
  { cbn in Hf. lia. }
  pose proof Hh as [Hq HW Hm HF Hfo Hnull].
  assert (Ha0 : a <> 0) by (apply (ring_pos _ _ _ _ (qd_ring _ _ _ Hq)); left).
  destruct (proj2 (qd_all _ _ _ Hq a) ltac:(left)) as [v Hv]. destruct (Z.eqb_spec a 0); [contradiction|].
  rewrite Hv. cbn [deref mbind outcome_bind]. rewrite (nodes_cons _ _ _ _ Hv) in HW. pose proof (found_expired W F now Hfo) as Hfe. subst W.
  cbn [expired_front] in *. change (expired now (a, strip1 v)) with (10 <? now - wc_start v) in *.
  destruct (10 <? now - wc_start v) eqn:E; cbn [negb].
  2: { exists t, (a :: l). split; [reflexivity|]. split; [exact Hh|lia]. }
  destruct (wmap t) as [m|] eqn:Em; [|now specialize (Hnull eq_refl)]. cbn [default from_option id] in Hm, HF.
  destruct (queued_unlink _ _ [] a l v Hq Hv) as (h' & q' & v' & He & Hv' & Hs & Hq' & Hn').
  rewrite Hhd in He. rewrite He. cbn [mbind outcome_bind]. rewrite Hv'. cbn [deref mbind outcome_bind map_set].
  assert (Hc : wc_conn v' = wc_conn v) by exact (f_equal wc_conn Hs). rewrite Hc.
  pose proof (holds_room _ _ _ _ Hh Hl) as Hroom. rewrite Em in Hroom. cbn [default from_option id] in Hroom.
  destruct (pm_set_spec m (wc_conn v) 0 Hm Hroom) as (m' & -> & Hm' & Habs). cbn [Z.eqb] in Habs. cbn [mbind outcome_bind].
  cbn [app] in Hq', Hn'. change (nodes (wq_heap t) []) with (@nil (Z * waiting_client)) in Hn'. cbn [app] in Hn'.
  destruct (IH (mk_wait (delete a h') q' (Some m')) l (nodes (wq_heap t) l) (delete (wc_conn v) F)) as (t' & l' & -> & Hh' & Hl').
  - constructor; cbn [wq_heap wqueue wmap default from_option id]; [exact Hq'|exact Hn'|exact Hm'|now rewrite Habs, HF| |discriminate].
    intros c b Hb. apply lookup_delete_Some in Hb as [Hne Hb]. destruct (Hfo c b Hb) as (w & Hw & Hcw). exists w. split; [|exact Hcw].
    apply elem_of_cons in Hw as [[= -> ->]|Hw]; [|exact Hw]. destruct Hne. exact Hcw.
  - rewrite zlen_cons in Hl. lia.
  - cbn in Hf. lia.
  - exists t', l'. cbn [mbind outcome_bind]. destruct (expired_front now (nodes (wq_heap t) l)). cbn [fst snd map] in *.
    split; [reflexivity|]. split; [exact Hh'|]. cbn. lia.
Qed.

Lemma filter_out_address (W : wlist) a : a ∉ map fst W -> List.filter (fun e => negb (fst e =? a)) W = W.
Proof.
  induction W as [|[b w] W IH]; [reflexivity|]. cbn [map fst List.filter]. rewrite not_elem_of_cons. intros [Hne Hn].
  destruct (Z.eqb_spec b a); [congruence|]. cbn. now rewrite IH.
Qed.

Lemma remove_waiting_spec t l W F conn W' F' c : holds_waiting t l W F -> zlen l < 2 ^ 61 ->
  spec_wait (W, F) (WRemove conn) = Some ((W', F'), c) ->
  exists t' l', remove_waiting t conn = Ret t' /\ holds_waiting t' l' W' F' /\ (length l' <= length l)%nat /\ c = [].
Proof.
  intros Hh Hl Hsp. cbn [spec_wait] in Hsp. unfold remove_waiting. pose proof Hh as [Hq HW Hm HF Hfo Hnull].
  assert (Hget : map_get (wmap t) conn = Ret (default 0 (F !! conn))).
  { destruct (wmap t) as [m|]; cbn [map_get default from_option id] in *; [rewrite (pm_get_spec _ _ Hm); now rewrite HF|].
    rewrite <- HF, new_empty, lookup_empty. reflexivity. }
  rewrite Hget. destruct (F !! conn) as [a|] eqn:Ea; cbn [default from_option id mbind outcome_bind].
  2: { injection Hsp as <- <- <-. cbn [Z.eqb]. exists t, l. auto. }
  injection Hsp as <- <- <-. pose proof (holds_fst _ _ _ _ Hh) as Hfst.
  destruct (Hfo conn a Ea) as (w & Hw & Hc). assert (Hin : a ∈ l) by (rewrite <- Hfst; exact (list_elem_of_fmap_2 fst _ _ Hw)).
  assert (Ha0 : a <> 0) by exact (ring_pos _ _ _ _ (qd_ring _ _ _ Hq) Hin). destruct (Z.eqb_spec a 0); [contradiction|].
  destruct (wmap t) as [m|] eqn:Em; [|rewrite (Hnull eq_refl) in Hin; inversion Hin]. cbn [default from_option id] in Hm, HF.
  destruct (proj2 (qd_all _ _ _ Hq a) Hin) as [v Hv]. pose proof (ring_nodup _ _ _ (qd_ring _ _ _ Hq)) as Hnd.
  assert (HndW : NoDup (map fst W)) by now rewrite Hfst.
  pose proof (holds_room _ _ _ _ Hh Hl) as Hroom. rewrite Em in Hroom. cbn [default from_option id] in Hroom.
  apply list_elem_of_split in Hin as (l1 & l2 & ->).
  destruct (queued_unlink _ _ l1 a l2 v Hq Hv) as (h' & q' & v' & -> & _ & _ & Hq' & Hn'). cbn [mbind outcome_bind map_set].
  destruct (pm_set_spec m conn 0 Hm Hroom) as (m' & -> & Hm' & Habs). cbn [Z.eqb] in Habs. cbn [mbind outcome_bind].
  assert (HW' : List.filter (fun e => negb (fst e =? a)) W = nodes (wq_heap t) l1 ++ nodes (wq_heap t) l2).
  { rewrite <- HW, nodes_app, (nodes_cons _ _ _ _ Hv) in Hfst |- *. rewrite map_app in Hfst. cbn [map fst] in Hfst.
    rewrite List.filter_app. cbn [List.filter fst]. rewrite Z.eqb_refl. cbn [negb].
    rewrite <- Hfst in Hnd. apply list.NoDup_app in Hnd as (_ & Hd & Hnd). apply list.NoDup_cons in Hnd as [Hnd _].
    rewrite !filter_out_address; [reflexivity|exact Hnd|]. intros Hx. apply (Hd a Hx). left. }
  exists (mk_wait (delete a h') q' (Some m')), (l1 ++ l2). split; [reflexivity|]. split; [|split; [rewrite !length_app; cbn; lia|reflexivity]].
  constructor; cbn [wq_heap wqueue wmap default from_option id]; [exact Hq'|congruence|exact Hm'|now rewrite Habs, HF| |discriminate].
  exact (found_removed W F conn a HndW Hfo Ea).
Qed.

Lemma new_waiting_spec t l W F W' F' closed wc now conn : holds_waiting t l W F -> zlen l < 2 ^ 61 ->
  spec_wait (W, F) (WNew wc now conn) = Some ((W', F'), closed) ->
  exists t' l', new_waiting_client new_map t wc now conn = Ret (t', closed) /\ holds_waiting t' l' W' F' /\
    (length l' <= S (length l))%nat.
Proof.
  intros Hh Hl Hsp. pose proof (queued_size _ _ _ (hw_queue _ _ _ _ Hh)) as Hsz.
  destruct (clean_spec now (size (wq_heap t)) t l W F Hh Hl Hsz) as (t1 & l1 & He & Hh1 & Hl1).
  cbn [spec_wait] in Hsp. destruct (expired_front now W) as [x r]. cbn [fst snd] in He, Hh1.
  destruct ((wc =? 0) || existsb (Z.eqb wc) (map fst r)) eqn:Eg; [discriminate|].
  injection Hsp as <- <- <-. apply orb_false_iff in Eg as [Hz%Z.eqb_neq Hnin%existsb_not]. unfold new_waiting_client. rewrite He. cbn [mbind outcome_bind].
  replace (match wmap t1 with None => Some new_map | Some m => Some m end) with (Some (default new_map (wmap t1))) by now destruct (wmap t1).
  destruct (Z.eqb_spec wc 0); [contradiction|]. set (v := mk_waiting 0 0 conn now). rewrite (holds_fst _ _ _ _ Hh1) in Hnin.
  pose proof Hh1 as [Hq HW Hm HF Hfo Hnull].
  destruct (queued_append _ _ l1 wc v Hq Hnin Hz eq_refl eq_refl) as (h' & q' & -> & Hq' & Hn'). cbn [mbind outcome_bind map_set].
  assert (Hroom : Z.of_nat (size (pm_abs (default new_map (wmap t1)))) < 2 ^ 61) by (eapply holds_room; [exact Hh1|unfold zlen in *; lia]).
  destruct (pm_set_spec (default new_map (wmap t1)) conn wc Hm Hroom) as (m' & -> & Hm' & Habs). cbn [mbind outcome_bind].
  destruct (Z.eqb_spec wc 0); [contradiction|].
  exists (mk_wait h' q' (Some m')), (l1 ++ [wc]). split; [reflexivity|]. split; [|rewrite length_app; cbn; lia].
  constructor; cbn [wq_heap wqueue wmap default from_option id]; [exact Hq'|now rewrite Hn', HW|exact Hm'|now rewrite Habs, HF| |discriminate].
  intros c b Hb. apply lookup_insert_Some in Hb as [[<- <-]|[Hne Hb]].
  - exists v. split; [apply elem_of_app; right; left|reflexivity].
  - destruct (Hfo c b Hb) as (w & Hw & Hc). exists w. split; [apply elem_of_app; now left|exact Hc].
Qed.

Lemma run_waiting_spec ops : forall t l W F W' F' closed,
  holds_waiting t l W F -> zlen l + zlen ops < 2 ^ 61 -> spec_waits (W, F) ops = Some ((W', F'), closed) ->
  exists t' l', run_waiting new_map t ops = Ret (t', closed) /\ holds_waiting t' l' W' F' /\
    (agree W F -> forall W1 c1, once_waits W ops = Some (W1, c1) -> W1 = W' /\ c1 = closed /\ agree W' F').
Proof.
  induction ops as [|op ops IH]; intros t l W F W' F' closed Hh Hl Hsp; cbn [spec_waits once_waits run_waiting] in *.
  { injection Hsp as <- <- <-. exists t, l. split; [reflexivity|]. split; [exact Hh|]. intros Hag W1 c1 [= <- <-]. auto. }
  destruct (spec_wait (W, F) op) as [[[W1 F1] c1]|] eqn:E1; [|discriminate]. cbn in Hsp.
  destruct (spec_waits (W1, F1) ops) as [[[W2 F2] c2]|] eqn:E2; [|discriminate]. cbn in Hsp. injection Hsp as <- <- <-.
  rewrite zlen_cons in Hl. pose proof (zlen_nonneg ops).
  assert (Hstep : exists t1 l1, match op with
      | WNew wc now conn => new_waiting_client new_map t wc now conn
      | WRemove conn => t ← remove_waiting t conn; Ret (t, [])
      end = Ret (t1, c1) /\ holds_waiting t1 l1 W1 F1 /\ (length l1 <= S (length l))%nat).
  { destruct op as [wc now conn|conn].
    - eapply new_waiting_spec; [exact Hh|lia|exact E1].
    - destruct (remove_waiting_spec t l W F conn W1 F1 c1 Hh ltac:(lia) E1) as (t1 & l1 & -> & Hh1 & Hl1 & ->).
      exists t1, l1. split; [reflexivity|]. split; [exact Hh1|lia]. }
  destruct Hstep as (t1 & l1 & -> & Hh1 & Hl1). cbn [mbind outcome_bind].
  destruct (IH t1 l1 W1 F1 W2 F2 c2 Hh1 ltac:(unfold zlen in *; lia) E2) as (t2 & l2 & -> & Hh2 & Hag2). cbn [mbind outcome_bind].
  exists t2, l2. split; [reflexivity|]. split; [exact Hh2|]. intros Hag W3 c3 Ho.
  destruct (once_wait W op) as [[W4 c4]|] eqn:E4; [|discriminate]. cbn in Ho.
  assert (Hnd : NoDup (map fst W)) by (rewrite (holds_fst _ _ _ _ Hh); apply (ring_nodup _ _ _ (qd_ring _ _ _ (hw_queue _ _ _ _ Hh)))).
  destruct (once_agree W F op W4 c4 Hnd (hw_found _ _ _ _ Hh) Hag E4) as (F4 & E5 & Hag4). pose proof (eq_trans (eq_sym E1) E5) as E7. injection E7 as -> -> ->.
  destruct (once_waits W4 ops) as [[W5 c5]|] eqn:E6; [|discriminate]. cbn in Ho. injection Ho as <- <-.
  destruct (Hag2 Hag4 W5 c5 eq_refl) as (-> & -> & Hag'). auto.
Qed.

Lemma agree_find W F conn : NoDup (map fst W) -> found W F -> agree W F ->
  F !! conn = fst <$> List.find (fun e => conn_of e =? conn) W.
Proof.
  intros Hnd Hf Hag. destruct (List.find _ W) as [[a w]|] eqn:Ef.
  - apply find_some in Ef as [Hin Hc]. apply Z.eqb_eq in Hc. change (wc_conn w = conn) in Hc. rewrite <- Hc. apply Hag. now apply list_elem_of_In.
  - apply eq_None_not_Some. intros [a Ha]. destruct (Hf conn a Ha) as (w & Hw & Hc). apply list_elem_of_In in Hw.
    pose proof (find_none _ _ Ef _ Hw) as Hn. change ((wc_conn w =? conn) = false) in Hn. apply Z.eqb_neq in Hn. contradiction.
Qed.

(** C11: The waiting connections are kept like a list with an index: for every sequence of arrivals and logins
    from the start of the process, [agN_close] is called on exactly the connections that an arrival finds at
    the front of the list with more than ten seconds of waiting, in order; the queue holds exactly the
    others, in order of arrival, but for those taken out by a login, no structure is leaked, and the map finds
    for a connection what it found last: a login takes out the entry of the last arrival.
    As long as no connection arrives again while it waits, the list is that of the connections that have not
    logged in, and the map finds each of them and no other; one that does arrive again has two entries, of
    which a login takes out one ([waiting_twice_closes]).  ([spec_waits] is [None] only when an arrival is given the
    address of a structure that is in use, or 0, which [malloc] does not.) *)
Theorem waiting_refines_list ops W F closed :
  zlen ops < 2 ^ 61 -> spec_waits ([], ∅) ops = Some ((W, F), closed) ->
  exists t, run_waiting new_map waiting_init ops = Ret (t, closed) /\
    walk_next (S (length W)) (wq_heap t) (wqueue t) 0 = Ret (map fst W) /\
    (forall a w, (a, w) ∈ W -> exists v, wq_heap t !! a = Some v /\ wc_conn v = wc_conn w /\ wc_start v = wc_start w) /\
    (forall conn, map_get (wmap t) conn = Ret (default 0 (F !! conn))) /\
    (forall a, is_Some (wq_heap t !! a) -> a ∈ map fst W) /\
    (forall W1 c1, once_waits [] ops = Some (W1, c1) -> W1 = W /\ c1 = closed /\
      forall conn, F !! conn = fst <$> List.find (fun e => conn_of e =? conn) W).
Proof.
  intros Hl Hsp. destruct (run_waiting_spec ops waiting_init [] [] ∅ W F closed init_holds Hl Hsp) as (t & l & Hr & Hh & Hag).
  pose proof Hh as [Hq HW Hm HF Hfo Hnull]. pose proof (holds_fst _ _ _ _ Hh) as Hf.
  exists t. split; [exact Hr|]. split; [|split; [|split; [|split]]].
  - rewrite Hf. replace (length W) with (length l) by (rewrite <- Hf; apply length_map). now apply walk_all, (qd_ring _ _ _ Hq).
  - intros a w Hin. rewrite <- HW in Hin. apply elem_of_nodes in Hin as (_ & v & Hv & Hw). cbn [fst snd] in *. subst w. exists v. auto.
  - intros conn. destruct (wmap t) as [m|]; cbn [map_get default from_option id] in *; [rewrite (pm_get_spec _ _ Hm); now rewrite HF|].
    rewrite <- HF, new_empty, lookup_empty. reflexivity.
  - intros a Ha. rewrite Hf. now apply (qd_all _ _ _ Hq).
  - intros W1 c1 Ho. destruct (Hag ltac:(intros a w Ha; inversion Ha) W1 c1 Ho) as (-> & -> & Hag'). split; [reflexivity|]. split; [reflexivity|].
    intros conn. apply agree_find; [rewrite Hf; apply (ring_nodup _ _ _ (qd_ring _ _ _ Hq))|exact Hfo|exact Hag'].
Qed.
End Refinement.

(** Connection 3 logs in, connection 4 waits too long, connection 5 arrives twice and logs in once. *)
Definition sample_waits : list wait_op :=
  [WNew 16 100 3; WNew 32 101 4; WRemove 3; WNew 48 105 5; WNew 16 112 6; WNew 64 113 5; WRemove 5].
Lemma waiting_refines_list_witness :
  exists t, run_waiting (_agMap_new (K := Z)) waiting_init sample_waits = Ret (t, [4]) /\
    walk_next 3 (wq_heap t) (wqueue t) 0 = Ret [48; 16] /\
    map_get (wmap t) 5 = Ret 0 /\ map_get (wmap t) 6 = Ret 16 /\ forall a, is_Some (wq_heap t !! a) -> a ∈ [48; 16].
Proof.
  destruct (@agMap_new_ok Z _ _ _) as (Hok & Hc & Hg).
  assert (Hpm : pm_ok (M := agmap Z) _agMap_new) by (split; assumption).
  destruct (waiting_refines_list (_agMap_new (K := Z)) Hpm Hg sample_waits
    [(48, mk_waiting 0 0 5 105); (16, mk_waiting 0 0 6 112)] {[6 := 16]} [4]) as (t & Hr & Hw & _ & Hm & Ha & _);
    [reflexivity|vm_compute; reflexivity|].
  exists t. split; [exact Hr|]. split; [exact Hw|]. split; [rewrite (Hm 5); reflexivity|]. split; [rewrite (Hm 6); reflexivity|exact Ha].
Defined.

(** A connection that is entered twice, as a second failed login does, is in the queue twice: a login
    takes out one entry, and the other one closes the connection ten seconds later. *)
Lemma waiting_twice_closes :
  exists t, run_waiting (_agMap_new (K := Z)) waiting_init
    [WNew 16 100 3; WNew 32 101 3; WRemove 3; WNew 48 112 4] = Ret (t, [3]).
Proof. eexists. vm_compute. reflexivity. Qed.
