(* ===== verification/Client.v ===== *)
(** * The gateway's client table: [gateway/client.c]

    Every client is a heap structure that is linked in a queue ordered by last
    use ([dlist.h]) and entered in a map from player id to pointer
    ([framework/map.c], here through its interface [PtrMap]).  The table is
    refined to the list of its clients from the least to the most recently
    used one. *)
From S2P Require Import Prelude AgMap Lrm Dlist Keyed Network NetworkTheorems AmfWire Package.

(** [struct client] *)
Record client := mk_client {
  cl_conn : Z; cl_world : Z; cl_playerid : Z; cl_prev : Z; cl_next : Z; cl_last_active : Z;
  cl_protocol_flag : Z; cl_adult : Z; cl_vip : Z; cl_vip2 : Z }.

#[export] Instance client_linked : Linked client := {
  l_prev := cl_prev;
  l_next := cl_next;
  set_prev v a := mk_client (cl_conn v) (cl_world v) (cl_playerid v) a (cl_next v) (cl_last_active v)
                    (cl_protocol_flag v) (cl_adult v) (cl_vip v) (cl_vip2 v);
  set_next v a := mk_client (cl_conn v) (cl_world v) (cl_playerid v) (cl_prev v) a (cl_last_active v)
                    (cl_protocol_flag v) (cl_adult v) (cl_vip v) (cl_vip2 v) }.

#[export] Instance client_laws : LinkedLaws client.
Proof. split; intros []; reflexivity. Qed.

Definition with_last_active (v : client) (now : Z) : client :=
  mk_client (cl_conn v) (cl_world v) (cl_playerid v) (cl_prev v) (cl_next v) now
    (cl_protocol_flag v) (cl_adult v) (cl_vip v) (cl_vip2 v).

(** The assignments of [client_set]. *)
Definition with_session (v : client) (now conn world playerid : Z) : client :=
  mk_client conn world playerid (cl_prev v) (cl_next v) now
    (cl_protocol_flag v) (cl_adult v) (cl_vip v) (cl_vip2 v).

(** The assignments of [client_new], on the uninitialised [v]. *)
Definition init_client (v : client) (now conn world playerid : Z) : client :=
  mk_client conn world playerid (cl_prev v) (cl_next v) now (cl_protocol_flag v) 0 0 0.

Definition INVALID_PLAYER_ID : Z := 2 ^ 32 - 1.
Definition MAX_CLIENTS : Z := 10000.

(** The variables of the file: the heap of clients, [client_hash], [client_queue] and
    [client_count]. *)
Record client_table (M : Type) := mk_table {
  ct_heap : gmap Z client; client_hash : M; client_queue : Z; client_count : Z }.
Arguments mk_table {M} _ _ _ _.
Arguments ct_heap {M} _.
Arguments client_hash {M} _.
Arguments client_queue {M} _.
Arguments client_count {M} _.

Section Operations.
Context {M : Type} `{PtrMap M}.
#[local] Abbreviation table := (client_table M).

(** [module_client_load] on a new map. *)
Definition module_client_load (m : M) : table := mk_table ∅ m 0 0.

(** [client_new] when [malloc] answers the address [a] (0 when it fails) of memory that holds
    [junk]. *)
Definition client_new (t : table) (a : Z) (junk : client) (now conn world playerid : Z) : outcome (table * Z) :=
  let c := if client_count t <? MAX_CLIENTS then a else 0 in
  if c =? 0 then Ret (t, 0)
  else
    let count := client_count t + 1 in
    let heap := <[c := junk]> (ct_heap t) in
    heap ← dlist_init heap c;
    v ← deref (heap !! c);
    let heap := <[c := init_client v now conn world playerid]> heap in
    '(hash, _) ← pm_set (client_hash t) playerid c;
    '(heap, queue) ← dlist_insert_tail heap (client_queue t) c;
    Ret (mk_table heap hash queue count, c).

Definition client_free (t : table) (c : Z) : outcome table :=
  if c =? 0 then Ret t
  else
    v ← deref (ct_heap t !! c);
    '(hash, _) ← pm_set (client_hash t) (cl_playerid v) 0;
    '(heap, queue) ← dlist_remove (ct_heap t) (client_queue t) c;
    Ret (mk_table (delete c heap) hash queue (client_count t - 1)).

Definition client_set (t : table) (c now conn world playerid : Z) : outcome table :=
  _ ← c_assert (negb (c =? 0) && negb (playerid =? INVALID_PLAYER_ID));
  v ← deref (ct_heap t !! c);
  hash ← (if negb (cl_playerid v =? INVALID_PLAYER_ID)
          then '(hash, _) ← pm_set (client_hash t) (cl_playerid v) 0; Ret hash
          else Ret (client_hash t));
  '(heap, queue) ← (if negb (cl_next v =? 0) && negb (cl_prev v =? 0)
                    then dlist_remove (ct_heap t) (client_queue t) c
                    else Ret (ct_heap t, client_queue t));
  v ← deref (heap !! c);
  let heap := <[c := with_session v now conn world playerid]> heap in
  '(hash, _) ← pm_set hash playerid c;
  '(heap, queue) ← dlist_insert_tail heap queue c;
  Ret (mk_table heap hash queue (client_count t)).

Definition client_get_by_playerid (t : table) (now playerid : Z) : outcome (table * Z) :=
  c ← pm_get (client_hash t) playerid;
  if c =? 0 then Ret (t, 0)
  else
    '(heap, queue) ← dlist_remove (ct_heap t) (client_queue t) c;
    v ← deref (heap !! c);
    let heap := <[c := with_last_active v now]> heap in
    '(heap, queue) ← dlist_insert_tail heap queue c;
    Ret (mk_table heap (client_hash t) queue (client_count t), c).

(** [client_foreach]: the loop over the queue, with a callback that leaves the table alone. *)
Fixpoint foreach_loop {C} (cb : client -> C -> C) (fuel : nat) (t : table) (ite : Z) (ctx : C) : outcome C :=
  match fuel with
  | O => NoFuel
  | S fuel' =>
    n ← dlist_next (ct_heap t) (client_queue t) ite;
    if n =? 0 then Ret ctx
    else
      v ← deref (ct_heap t !! n);
      foreach_loop cb fuel' t n (if negb (cl_conn v =? INVALID_ID) then cb v ctx else ctx)
  end.

Definition client_foreach {C} (cb : client -> C -> C) (fuel : nat) (t : table) (ctx : C) : outcome C :=
  foreach_loop cb fuel t 0 ctx.

(** [client_broadcast]: the calls of [agN_writev], as connection and [iovec]s. *)
Definition client_broadcast (fuel : nat) (t : table) (cmd flag : Z) (msg : list Z)
    : outcome (list (Z * list (list Z))) :=
  foreach_loop (fun v out => out ++ [(cl_conn v, client_iov cmd flag msg)]) fuel t 0 [].

(** [client_send]: [None] is the answer -1 for a null pointer. *)
Definition client_send (t : table) (c cmd flag : Z) (msg : list Z) : outcome (option (Z * list (list Z))) :=
  if c =? 0 then Ret None
  else v ← deref (ct_heap t !! c); Ret (Some (cl_conn v, client_iov cmd flag msg)).

(** The loop of [module_client_unload], which frees every client. *)
Fixpoint module_client_unload (fuel : nat) (t : table) : outcome table :=
  if client_queue t =? 0 then Ret t
  else
    match fuel with
    | O => NoFuel
    | S fuel' =>
      let c := client_queue t in
      '(heap, queue) ← dlist_remove (ct_heap t) c c;
      module_client_unload fuel' (mk_table (delete c heap) (client_hash t) queue (client_count t))
    end.
End Operations.

(** ** The table against the list of its clients *)

Section Refinement.
Context {M : Type} `{PtrMapLaws M}.
#[local] Abbreviation table := (client_table M).

Record table_ok (t : table) (l : list Z) : Prop := {
  tb_ring : ring (ct_heap t) (client_queue t) l;
  tb_index : index_ok cl_playerid (strip (ct_heap t)) (pm_abs (client_hash t)) l;
  tb_hash : pm_ok (client_hash t);
  tb_count : client_count t = zlen l /\ zlen l <= MAX_CLIENTS }.

(** The clients in queue order, without their links. *)
Definition entries (S : gmap Z client) (l : list Z) : list (Z * client) :=
  omap (fun a => (fun v => (a, v)) <$> S !! a) l.
Definition clients (t : table) (l : list Z) : list (Z * client) := entries (strip (ct_heap t)) l.

Lemma entries_app S l1 l2 : entries S (l1 ++ l2) = entries S l1 ++ entries S l2.
Proof. unfold entries. apply omap_app. Qed.

Lemma entries_cons S a v l : S !! a = Some v -> entries S (a :: l) = (a, v) :: entries S l.
Proof. unfold entries. cbn. now intros ->. Qed.

Lemma entries_ext S S' l : (forall a, a ∈ l -> S' !! a = S !! a) -> entries S' l = entries S l.
Proof.
  induction l as [|a l IH]; intros He; [reflexivity|]. unfold entries in *. cbn.
  rewrite (He a) by left. destruct (S !! a); cbn; [f_equal|]; apply IH; intros; apply He; now right.
Qed.

Lemma entries_insert S l a v : a ∉ l -> entries (<[a := v]> S) l = entries S l.
Proof. intros Ha. apply entries_ext. intros b Hb. apply lookup_insert_ne. intros ->. contradiction. Qed.

Lemma entries_delete S l a : a ∉ l -> entries (delete a S) l = entries S l.
Proof. intros Ha. apply entries_ext. intros b Hb. apply lookup_delete_ne. intros ->. contradiction. Qed.

(** The room in the map that [pm_set] asks for. *)
Lemma table_room t l : table_ok t l -> Z.of_nat (size (pm_abs (client_hash t))) < 2 ^ 61.
Proof.
  intros [_ [_ _ Hs] _ [_ Hm]]. rewrite Hs. unfold zlen, MAX_CLIENTS in Hm. lia.
Qed.

Lemma table_node t l a : table_ok t l -> a ∈ l -> exists v, ct_heap t !! a = Some v /\ strip (ct_heap t) !! a = Some (strip1 v).
Proof.
  intros [_ [Hd _ _] _ _] Ha. apply Hd in Ha as [w Hw]. rewrite lookup_strip in Hw.
  destruct (ct_heap t !! a) as [v|] eqn:E; [|discriminate]. exists v. split; [reflexivity|]. now rewrite lookup_strip, E.
Qed.

Lemma table_absent t l a : table_ok t l -> a ∉ l -> ct_heap t !! a = None.
Proof.
  intros [_ [Hd _ _] _ _] Ha. apply eq_None_not_Some. intros Hs. apply Ha, Hd. rewrite lookup_strip. now apply fmap_is_Some.
Qed.

(** [client_new] with an address that is not in use, for a player without client. *)
Lemma client_new_spec t l a junk now conn world pid :
  table_ok t l -> a ∉ l -> a <> 0 -> pm_abs (client_hash t) !! pid = None -> zlen l < MAX_CLIENTS ->
  exists t', client_new t a junk now conn world pid = Ret (t', a) /\ table_ok t' (l ++ [a]) /\
    clients t' (l ++ [a]) = clients t l ++ [(a, strip1 (init_client junk now conn world pid))].
Proof.
  intros Hok Ha Ha0 Hpid Hmax. pose proof Hok as [Hr Hix Hh [Hc Hcm]]. unfold client_new.
  destruct (Z.ltb_spec (client_count t) MAX_CLIENTS); [|lia]. destruct (Z.eqb_spec a 0); [contradiction|].
  set (h0 := <[a := junk]> (ct_heap t)).
  assert (Hj : h0 !! a = Some junk) by apply lookup_insert_eq.
  destruct (dlist_init_spec h0 a) as (h1 & -> & Hst1 & Hn1 & Hp1); [unfold nx; rewrite Hj; eexists; reflexivity|].
  cbn [mbind outcome_bind].
  assert (Hv1 : exists v, h1 !! a = Some v /\ strip1 v = strip1 junk).
  { pose proof (f_equal (lookup a) Hst1) as E. rewrite !lookup_strip, Hj in E.
    destruct (h1 !! a) as [v|]; [|discriminate]. exists v. split; [reflexivity|]. exact (inj Some _ _ E). }
  destruct Hv1 as (v1 & Hv1 & Hsv1). rewrite Hv1. cbn [deref mbind outcome_bind].
  destruct (pm_set_spec (client_hash t) pid a Hh (table_room t l Hok)) as (m' & -> & Hm' & Habs). cbn [mbind outcome_bind].
  assert (Hr1 : ring h1 (client_queue t) l).
  { apply (ring_same (ct_heap t)); [exact Hr|]. intros b Hb. assert (b <> a) by (intros ->; contradiction).
    rewrite Hn1, Hp1, !decide_False by assumption. unfold nx, pv, h0. now rewrite lookup_insert_ne by congruence. }
  destruct (append_with h1 (client_queue t) l a v1 (init_client v1 now conn world pid)) as (h2 & q2 & -> & Hr2 & Hst2);
    [exact Hr1|exact Ha|exact Ha0|split; [now rewrite Hn1, decide_True|now rewrite Hp1, decide_True]|exact Hv1|reflexivity|reflexivity|].
  cbn [mbind outcome_bind]. eexists. split; [reflexivity|].
  assert (Hs1 : strip1 (init_client v1 now conn world pid) = strip1 (init_client junk now conn world pid)).
  { destruct v1, junk. unfold strip1 in Hsv1. cbn in Hsv1. injection Hsv1 as -> -> -> -> -> -> -> ->. reflexivity. }
  assert (HS : strip h2 = <[a := strip1 (init_client junk now conn world pid)]> (strip (ct_heap t))).
  { rewrite Hst2, Hs1, Hst1. unfold h0, strip. rewrite fmap_insert, insert_insert_eq. reflexivity. }
  split.
  - constructor; cbn [ct_heap client_queue client_hash client_count]; [exact Hr2| |exact Hm'|].
    + rewrite HS, Habs. destruct (Z.eqb_spec a 0); [contradiction|]. exact (index_add _ _ l a (strip1 (init_client junk now conn world pid)) Hix Ha Hpid).
    + rewrite zlen_app, zlen_cons, zlen_nil. lia.
  - unfold clients. cbn [ct_heap]. rewrite HS, entries_app, entries_insert by assumption.
    now rewrite (entries_cons _ a _ []) by apply lookup_insert_eq.
Qed.

(** Unlinking a queued client: what [client_free], [client_set] and [client_get_by_playerid] share. *)
Lemma unlink_spec t l1 a l2 :
  table_ok t (l1 ++ a :: l2) ->
  exists h q v, dlist_remove (ct_heap t) (client_queue t) a = Ret (h, q) /\ ring h q (l1 ++ l2) /\ unlinked h a /\
    strip h = strip (ct_heap t) /\ h !! a = Some v /\ strip (ct_heap t) !! a = Some (strip1 v) /\
    a <> 0 /\ a ∉ l1 ++ l2.
Proof.
  intros Hok. pose proof Hok as [Hr Hix Hh _].
  assert (Hin : a ∈ l1 ++ a :: l2) by (apply elem_of_app; right; left).
  destruct (remove_spec _ _ l1 a l2 Hr) as (h & q & He & Hr' & Hu & Hst & _).
  destruct (table_node t _ a Hok Hin) as (v & _ & Hv). rewrite <- Hst, lookup_strip in Hv.
  destruct (h !! a) as [w|] eqn:Hw; [|discriminate].
  exists h, q, w. split; [exact He|]. split; [exact Hr'|]. split; [exact Hu|]. split; [exact Hst|]. split; [exact Hw|].
  split; [now rewrite <- Hst, lookup_strip, Hw|]. split; [exact (ring_pos _ _ _ _ Hr Hin)|].
  pose proof (ring_nodup _ _ _ Hr) as Hnd. rewrite <- Permutation_middle in Hnd. now apply list.NoDup_cons in Hnd as [? _].
Qed.

Lemma clients_split t l1 a l2 v :
  strip (ct_heap t) !! a = Some v ->
  clients t (l1 ++ a :: l2) = clients t l1 ++ (a, v) :: clients t l2.
Proof. intros Hv. unfold clients. rewrite entries_app. now rewrite (entries_cons _ _ _ _ Hv). Qed.

Lemma client_free_spec t l1 a l2 :
  table_ok t (l1 ++ a :: l2) ->
  exists t', client_free t a = Ret t' /\ table_ok t' (l1 ++ l2) /\ clients t' (l1 ++ l2) = clients t l1 ++ clients t l2.
Proof.
  intros Hok. pose proof Hok as [Hr Hix Hh [Hc Hcm]].
  destruct (unlink_spec t l1 a l2 Hok) as (h & q & v & He & Hr' & _ & Hst & Hv & HSv & Ha0 & Hn).
  destruct (table_node t _ a Hok ltac:(apply elem_of_app; right; left)) as (w & Hw & HSw).
  rewrite HSv in HSw. injection HSw as Hwc Hww Hwp Hwl Hwf Hwa Hwv Hwv2.
  unfold client_free. destruct (Z.eqb_spec a 0); [contradiction|]. rewrite Hw. cbn [deref mbind outcome_bind].
  destruct (pm_set_spec (client_hash t) (cl_playerid w) 0 Hh (table_room _ _ Hok)) as (m' & -> & Hm' & Habs).
  cbn [mbind outcome_bind]. rewrite He. cbn [mbind outcome_bind]. eexists. split; [reflexivity|].
  assert (HS : strip (delete a h) = delete a (strip (ct_heap t))) by (rewrite <- Hst; unfold strip; apply fmap_delete).
  split.
  - constructor; cbn [ct_heap client_queue client_hash client_count].
    + apply (ring_same h); [exact Hr'|]. intros b Hb. unfold nx, pv.
      rewrite lookup_delete_ne by (intros ->; contradiction). auto.
    + rewrite HS, Habs. cbn [Z.eqb]. rewrite <- Hwp.
      exact (index_remove _ _ l1 a l2 (strip1 v) Hix (ring_nodup _ _ _ Hr) HSv).
    + exact Hm'.
    + autorewrite with cserver in Hc, Hcm |- *. lia.
  - unfold clients. cbn [ct_heap]. rewrite HS, entries_delete by assumption. apply entries_app.
Qed.

Lemma client_get_found t l1 a l2 v now pid :
  table_ok t (l1 ++ a :: l2) -> strip (ct_heap t) !! a = Some v -> cl_playerid v = pid ->
  exists t', client_get_by_playerid t now pid = Ret (t', a) /\ table_ok t' (l1 ++ l2 ++ [a]) /\
    clients t' (l1 ++ l2 ++ [a]) = clients t l1 ++ clients t l2 ++ [(a, with_last_active v now)].
Proof.
  intros Hok HSa Hpid. pose proof Hok as [Hr Hix Hh [Hc Hcm]].
  destruct (unlink_spec t l1 a l2 Hok) as (h & q & w & He & Hr' & Hu & Hst & Hw & HSw & Ha0 & Hn).
  rewrite HSa in HSw. apply (inj Some) in HSw. subst v.
  unfold client_get_by_playerid. rewrite (pm_get_spec _ _ Hh).
  rewrite (proj2 (ix_map _ _ _ Hix pid a)) by eauto. cbn [from_option id mbind outcome_bind].
  destruct (Z.eqb_spec a 0); [contradiction|]. rewrite He. cbn [mbind outcome_bind]. rewrite Hw. cbn [deref mbind outcome_bind].
  destruct (append_with h q (l1 ++ l2) a w (with_last_active w now)) as (h' & q' & -> & Hr2 & Hst2);
    [exact Hr'|exact Hn|exact Ha0|exact Hu|exact Hw|reflexivity|reflexivity|].
  cbn [mbind outcome_bind]. rewrite <- (assoc_L (++)) in Hr2. eexists. split; [reflexivity|].
  rewrite Hst in Hst2. change (strip1 (with_last_active w now)) with (with_last_active (strip1 w) now) in Hst2. split.
  - constructor; cbn [ct_heap client_queue client_hash client_count]; [exact Hr2| |exact Hh|].
    + rewrite Hst2. eapply index_perm; [eapply (index_update _ _ _ a (strip1 w)); [exact Hix|exact HSa|reflexivity]|].
      rewrite <- Permutation_middle, (assoc_L (++)). apply Permutation_cons_append.
    + autorewrite with cserver in Hc, Hcm |- *. lia.
  - unfold clients. cbn [ct_heap]. rewrite Hst2, (assoc_L (++)), entries_app, entries_insert by assumption.
    rewrite (entries_cons _ a _ []) by apply lookup_insert_eq. now rewrite entries_app, <- (assoc_L (++)).
Qed.

Lemma client_get_missing t l now pid :
  table_ok t l -> pm_abs (client_hash t) !! pid = None -> client_get_by_playerid t now pid = Ret (t, 0).
Proof.
  intros [_ _ Hh _] Hp. unfold client_get_by_playerid. rewrite (pm_get_spec _ _ Hh), Hp. reflexivity.
Qed.

Lemma client_set_spec t l1 a l2 v now conn world pid :
  table_ok t (l1 ++ a :: l2) -> strip (ct_heap t) !! a = Some v ->
  pid <> INVALID_PLAYER_ID -> cl_playerid v <> INVALID_PLAYER_ID ->
  (pm_abs (client_hash t) !! pid = None \/ pid = cl_playerid v) ->
  exists t', client_set t a now conn world pid = Ret t' /\ table_ok t' (l1 ++ l2 ++ [a]) /\
    clients t' (l1 ++ l2 ++ [a]) = clients t l1 ++ clients t l2 ++ [(a, with_session v now conn world pid)].
Proof.
  intros Hok HSa Hpi Hvi Hfree. pose proof Hok as [Hr Hix Hh [Hc Hcm]].
  destruct (unlink_spec t l1 a l2 Hok) as (h & q & w & He & Hr' & Hu & Hst & Hw & HSw & Ha0 & Hn).
  rewrite HSa in HSw. apply (inj Some) in HSw. subst v.
  destruct (table_node t _ a Hok ltac:(apply elem_of_app; right; left)) as (w0 & Hw0 & HSw0).
  rewrite HSa in HSw0. injection HSw0 as _ _ Hwp _ _ _ _ _.
  destruct (ring_node _ _ _ a Hr ltac:(apply elem_of_app; right; left)) as (p0 & q0 & Hq0 & Hp0 & Hpin & Hqin).
  unfold nx, pv in Hq0, Hp0. rewrite Hw0 in Hq0, Hp0. cbn in Hq0, Hp0. injection Hq0 as Hq0. injection Hp0 as Hp0.
  unfold client_set. destruct (Z.eqb_spec a 0); [contradiction|]. destruct (Z.eqb_spec pid INVALID_PLAYER_ID); [contradiction|].
  cbn [negb andb c_assert mbind outcome_bind]. rewrite Hw0. cbn [deref mbind outcome_bind].
  cbn [strip1 set_prev set_next client_linked cl_playerid] in Hvi, Hfree, Hwp. rewrite <- Hwp.
  destruct (Z.eqb_spec (cl_playerid w) INVALID_PLAYER_ID); [contradiction|]. cbn [negb].
  destruct (pm_set_spec (client_hash t) (cl_playerid w) 0 Hh (table_room _ _ Hok)) as (m1 & -> & Hm1 & Habs1).
  cbn [mbind outcome_bind Z.eqb] in *. rewrite Hq0, Hp0.
  destruct (Z.eqb_spec q0 0) as [->|]; [destruct (ring_null _ _ _ Hr Hqin)|].
  destruct (Z.eqb_spec p0 0) as [->|]; [destruct (ring_null _ _ _ Hr Hpin)|]. cbn [negb andb].
  rewrite He. cbn [mbind outcome_bind]. rewrite Hw. cbn [deref mbind outcome_bind].
  pose proof (index_remove _ _ l1 a l2 (strip1 w) Hix (ring_nodup _ _ _ Hr) HSa) as Hix1.
  assert (Hfree1 : pm_abs m1 !! pid = None).
  { rewrite Habs1. destruct Hfree as [Hf| ->]; [|apply lookup_delete_eq]. apply lookup_delete_None. now right. }
  destruct (pm_set_spec m1 pid a Hm1) as (m2 & -> & Hm2 & Habs2).
  { rewrite Habs1. pose proof (ix_size _ _ _ Hix1) as Hsz.
    change (cl_playerid (strip1 w)) with (cl_playerid w) in Hsz. rewrite Hsz.
    unfold zlen, MAX_CLIENTS in Hcm. rewrite length_app in *. cbn in Hcm. lia. }
  cbn [mbind outcome_bind].
  destruct (append_with h q (l1 ++ l2) a w (with_session w now conn world pid)) as (h' & q' & -> & Hr2 & Hst2);
    [exact Hr'|exact Hn|exact Ha0|exact Hu|exact Hw|reflexivity|reflexivity|].
  cbn [mbind outcome_bind]. eexists. split; [reflexivity|]. rewrite Hst in Hst2. rewrite !(assoc_L (++)).
  change (strip1 (with_session w now conn world pid)) with (with_session (strip1 w) now conn world pid) in Hst2.
  split.
  - constructor; cbn [ct_heap client_queue client_hash client_count]; [exact Hr2| |exact Hm2|].
    + rewrite Hst2, Habs2, <- insert_delete_eq, Habs1. destruct (Z.eqb_spec a 0); [contradiction|].
      refine (index_add _ _ (l1 ++ l2) a (with_session (strip1 w) now conn world pid) Hix1 Hn _).
      change (cl_playerid (strip1 w)) with (cl_playerid w). rewrite <- Habs1. exact Hfree1.
    + autorewrite with cserver in Hc, Hcm |- *. lia.
  - unfold clients. cbn [ct_heap]. rewrite Hst2, entries_app, entries_insert by assumption.
    rewrite (entries_cons _ a _ []) by apply lookup_insert_eq. now rewrite entries_app.
Qed.

(** ** Lookups by player and by address *)

Definition find_pid (pid : Z) (E : list (Z * client)) : option (Z * client) :=
  List.find (fun e => cl_playerid (snd e) =? pid) E.
Definition find_addr (a : Z) (E : list (Z * client)) : option (Z * client) := List.find (fun e => fst e =? a) E.
Definition others (a : Z) (E : list (Z * client)) : list (Z * client) := List.filter (fun e => negb (fst e =? a)) E.

Lemma entries_fst S l e : e ∈ entries S l -> fst e ∈ l /\ S !! fst e = Some (snd e).
Proof.
  unfold entries. rewrite list_elem_of_omap. intros (a & Ha & He).
  destruct (S !! a) as [v|] eqn:Hv; [|discriminate]. injection He as <-. auto.
Qed.

Lemma find_none {A} (f : A -> bool) l : (forall x, x ∈ l -> f x = false) -> List.find f l = None.
Proof.
  induction l as [|x l IH]; intros Hf; [reflexivity|]. cbn. rewrite Hf by left. apply IH. intros; apply Hf. now right.
Qed.

Lemma find_middle {A} (f : A -> bool) l1 x l2 :
  (forall y, y ∈ l1 -> f y = false) -> f x = true -> List.find f (l1 ++ x :: l2) = Some x.
Proof.
  induction l1 as [|y l1 IH]; intros Hf Hx; cbn; [now rewrite Hx|]. rewrite Hf by left. apply IH; [|exact Hx].
  intros; apply Hf. now right.
Qed.

Lemma others_id a E : (forall e, e ∈ E -> fst e <> a) -> others a E = E.
Proof.
  induction E as [|e E IH]; intros Hf; [reflexivity|]. cbn. destruct (Z.eqb_spec (fst e) a) as [E1|].
  - destruct (Hf e); [left|exact E1].
  - cbn. f_equal. apply IH. intros x Hx. apply Hf. now right.
Qed.

Lemma split_not t l1 a l2 : table_ok t (l1 ++ a :: l2) -> (a ∉ l1) /\ (a ∉ l2).
Proof.
  intros [Hr _ _ _]. pose proof (ring_nodup _ _ _ Hr) as Hnd.
  apply list.NoDup_app in Hnd as (_ & Hd & Hnd2). apply list.NoDup_cons in Hnd2 as [Hn2 _].
  split; [|exact Hn2]. intros Ha. apply (Hd a Ha). left.
Qed.

Lemma others_split t l1 a l2 v :
  table_ok t (l1 ++ a :: l2) -> others a (clients t l1 ++ (a, v) :: clients t l2) = clients t l1 ++ clients t l2.
Proof.
  intros Hok. destruct (split_not _ _ _ _ Hok) as [H1 H2]. unfold others. rewrite filter_app. cbn [List.filter fst].
  rewrite Z.eqb_refl. cbn [negb]. f_equal; apply others_id; intros e He Hf; apply entries_fst in He as [He _]; congruence.
Qed.

Lemma find_addr_spec t l a :
  table_ok t l ->
  match find_addr a (clients t l) with
  | Some e => exists l1 l2, l = l1 ++ a :: l2 /\ strip (ct_heap t) !! a = Some (snd e) /\ fst e = a
  | None => a ∉ l
  end.
Proof.
  intros Hok. destruct (decide (a ∈ l)) as [Ha|Ha].
  - apply list_elem_of_split in Ha as (l1 & l2 & ->). destruct (split_not _ _ _ _ Hok) as [H1 H2].
    destruct (table_node t _ a Hok ltac:(apply elem_of_app; right; left)) as (v & _ & Hv).
    rewrite (clients_split _ _ _ _ _ Hv). unfold find_addr. rewrite find_middle.
    + eauto.
    + intros e He. apply entries_fst in He as [He _]. apply Z.eqb_neq. congruence.
    + apply Z.eqb_refl.
  - unfold find_addr. rewrite find_none; [exact Ha|]. intros e He. apply entries_fst in He as [He _].
    apply Z.eqb_neq. congruence.
Qed.

Lemma find_pid_spec t l pid :
  table_ok t l ->
  match find_pid pid (clients t l) with
  | Some (a, v) => pm_abs (client_hash t) !! pid = Some a /\
      exists l1 l2, l = l1 ++ a :: l2 /\ strip (ct_heap t) !! a = Some v /\ cl_playerid v = pid
  | None => pm_abs (client_hash t) !! pid = None
  end.
Proof.
  intros Hok. pose proof Hok as [_ [Hd Hm _] _ _]. destruct (pm_abs (client_hash t) !! pid) as [a|] eqn:Hg.
  - pose proof Hg as Hg'. apply Hm in Hg' as (v & Hv & Hp).
    assert (Ha : a ∈ l) by (apply Hd; eauto). apply list_elem_of_split in Ha as (l1 & l2 & ->).
    rewrite (clients_split _ _ _ _ _ Hv). unfold find_pid. rewrite find_middle.
    + split; [reflexivity|]. eauto.
    + intros e He. apply entries_fst in He as [He Hse]. apply Z.eqb_neq. intros E.
      assert (Hge : pm_abs (client_hash t) !! pid = Some (fst e)) by (apply Hm; eauto).
      destruct (split_not _ _ _ _ Hok) as [H1 _]. congruence.
    + now apply Z.eqb_eq.
  - unfold find_pid. rewrite find_none; [reflexivity|]. intros e He. apply entries_fst in He as [_ Hse].
    apply Z.eqb_neq. intros E. assert (Hge : pm_abs (client_hash t) !! pid = Some (fst e)) by (apply Hm; eauto). congruence.
Qed.

Lemma length_clients t l : table_ok t l -> zlen (clients t l) = zlen l.
Proof.
  intros [_ [Hd _ _] _ _]. unfold clients. assert (Hs : forall a, a ∈ l -> is_Some (strip (ct_heap t) !! a)) by (intros; now apply Hd).
  clear Hd. induction l as [|a l IH]; [reflexivity|]. destruct (Hs a) as [v Hv]; [left|].
  rewrite (entries_cons _ _ _ _ Hv), !zlen_cons, IH; [reflexivity|]. intros; apply Hs. now right.
Qed.

(** ** Iteration and unloading *)

Definition connected (v : client) : bool := negb (cl_conn v =? INVALID_ID).

Lemma foreach_loop_spec {C} (cb : client -> C -> C) t l1 x l2 : forall fuel ctx,
  table_ok t (l1 ++ x :: l2) -> (length l2 < fuel)%nat ->
  (forall v ctx, cb (strip1 v) ctx = cb v ctx) ->
  foreach_loop cb fuel t x ctx =
  Ret (foldl (fun ctx e => if connected (snd e) then cb (snd e) ctx else ctx) ctx (clients t l2)).
Proof.
  revert l1 x. induction l2 as [|y l2 IH]; intros l1 x fuel ctx Hok Hf Hcb; (destruct fuel as [|fuel]; [cbn in Hf; lia|]).
  - cbn [foreach_loop]. rewrite (dlist_next_spec _ _ _ _ _ (tb_ring _ _ Hok)). reflexivity.
  - cbn [foreach_loop]. rewrite (dlist_next_spec _ _ _ _ _ (tb_ring _ _ Hok)). cbn [hd_error from_option id mbind outcome_bind].
    assert (Hy : y ∈ l1 ++ x :: y :: l2) by (apply elem_of_app; right; right; left).
    destruct (Z.eqb_spec y 0) as [->|]; [destruct (ring_null _ _ _ (tb_ring _ _ Hok) Hy)|].
    destruct (table_node t _ y Hok Hy) as (v & Hv & HSv). rewrite Hv. cbn [deref mbind outcome_bind].
    unfold clients. rewrite (entries_cons _ _ _ _ HSv). cbn [foldl snd]. change (connected (strip1 v)) with (connected v).
    rewrite Hcb. apply (IH (l1 ++ [x]) y); [|cbn in Hf; lia|exact Hcb]. rewrite <- (assoc_L (++)). exact Hok.
Qed.

Lemma client_foreach_spec {C} (cb : client -> C -> C) t l fuel ctx :
  table_ok t l -> (length l < fuel)%nat -> (forall v ctx, cb (strip1 v) ctx = cb v ctx) ->
  client_foreach cb fuel t ctx =
  Ret (foldl (fun ctx e => if connected (snd e) then cb (snd e) ctx else ctx) ctx (clients t l)).
Proof.
  intros Hok Hf Hcb. unfold client_foreach. destruct fuel as [|fuel]; [lia|]. cbn [foreach_loop].
  unfold dlist_next. rewrite orb_true_r. cbn [mbind outcome_bind].
  pose proof (tb_ring _ _ Hok) as Hr. rewrite (ring_head _ _ _ Hr).
  destruct l as [|x l]; [reflexivity|]. cbn [hd_error from_option id].
  destruct (Z.eqb_spec x 0) as [->|]; [destruct (ring_null _ _ _ Hr); left|].
  destruct (table_node t _ x Hok ltac:(left)) as (v & Hv & HSv). rewrite Hv. cbn [deref mbind outcome_bind].
  unfold clients. rewrite (entries_cons _ _ _ _ HSv). cbn [foldl snd]. change (connected (strip1 v)) with (connected v).
  rewrite Hcb. apply (foreach_loop_spec cb t [] x l); [exact Hok|cbn in Hf; lia|exact Hcb].
Qed.

Lemma module_client_unload_spec fuel : forall (t : table) l,
  ring (ct_heap t) (client_queue t) l -> (forall a, is_Some (ct_heap t !! a) <-> a ∈ l) -> (length l <= fuel)%nat ->
  exists t', module_client_unload fuel t = Ret t' /\ ct_heap t' = ∅ /\ client_queue t' = 0.
Proof.
  induction fuel as [|fuel IH]; intros t l Hr Hd Hf; cbn [module_client_unload]; rewrite (ring_head _ _ _ Hr).
  all: destruct l as [|x l]; [cbn [hd_error from_option id Z.eqb]; exists t; split; [reflexivity|]; split|].
  1,4: apply map_eq; intros a; rewrite lookup_empty; apply eq_None_not_Some; rewrite Hd; intros Ha; inversion Ha.
  1,3: exact (ring_head _ _ _ Hr).
  - cbn in Hf. lia.
  - cbn [hd_error from_option id]. destruct (Z.eqb_spec x 0) as [->|]; [destruct (ring_null _ _ _ Hr); left|].
    pose proof (ring_head _ _ _ Hr) as Hq. cbn [hd_error from_option id] in Hq. rewrite Hq in Hr.
    destruct (remove_spec _ _ [] x l Hr) as (h & q & -> & Hr' & _ & Hst & _). cbn [mbind outcome_bind app] in *.
    pose proof (ring_nodup _ _ _ Hr) as Hnd. apply list.NoDup_cons in Hnd as [Hx _].
    apply (IH _ l); cbn [ct_heap client_queue]; [| |cbn in Hf; lia].
    + apply (ring_same h); [exact Hr'|]. intros b Hb. unfold nx, pv. rewrite lookup_delete_ne by (intros ->; contradiction). auto.
    + intros a. destruct (decide (a = x)) as [->|Hne].
      * rewrite lookup_delete_eq. split; [intros [? [=]]|contradiction].
      * rewrite lookup_delete_ne by congruence. rewrite (strip_dom (ct_heap t) h a Hst), Hd, elem_of_cons. tauto.
Qed.
End Refinement.

(** ** Sequences of operations *)

Inductive client_op :=
| CNew (a : Z) (junk : client) (now conn world pid : Z)
| CGet (now pid : Z)
| CFree (a : Z)
| CSet (a now conn world pid : Z).

(** What the operations do to the list of clients: the list and the pointer returned; [None] when
    the caller breaks a precondition ([malloc] answers a used address, a second client for a player,
    a pointer that is no client). *)
Definition spec_client (E : list (Z * client)) (op : client_op) : option (list (Z * client) * Z) :=
  match op with
  | CNew a junk now conn world pid =>
    match find_addr a E, find_pid pid E with
    | None, None =>
      if a =? 0 then None
      else if zlen E <? MAX_CLIENTS then Some (E ++ [(a, strip1 (init_client junk now conn world pid))], a)
      else Some (E, 0)
    | _, _ => None
    end
  | CGet now pid =>
    match find_pid pid E with
    | Some (a, v) => Some (others a E ++ [(a, with_last_active v now)], a)
    | None => Some (E, 0)
    end
  | CFree a =>
    match find_addr a E with
    | Some _ => Some (others a E, 0)
    | None => None
    end
  | CSet a now conn world pid =>
    match find_addr a E with
    | Some (_, v) =>
      let taken := match find_pid pid E with Some (b, _) => negb (b =? a) | None => false end in
      if taken || (pid =? INVALID_PLAYER_ID) || (cl_playerid v =? INVALID_PLAYER_ID) then None
      else Some (others a E ++ [(a, with_session v now conn world pid)], 0)
    | None => None
    end
  end.

Fixpoint spec_clients (E : list (Z * client)) (ops : list client_op) : option (list (Z * client) * list Z) :=
  match ops with
  | [] => Some (E, [])
  | op :: ops' => '(E, r) ← spec_client E op; '(E, rs) ← spec_clients E ops'; Some (E, r :: rs)
  end.

Section Runs.
Context {M : Type} `{PtrMapLaws M}.
#[local] Abbreviation table := (client_table M).

Definition client_step (t : table) (op : client_op) : outcome (table * Z) :=
  match op with
  | CNew a junk now conn world pid => client_new t a junk now conn world pid
  | CGet now pid => client_get_by_playerid t now pid
  | CFree a => t ← client_free t a; Ret (t, 0)
  | CSet a now conn world pid => t ← client_set t a now conn world pid; Ret (t, 0)
  end.

Fixpoint run_clients (t : table) (ops : list client_op) : outcome (table * list Z) :=
  match ops with
  | [] => Ret (t, [])
  | op :: ops' => '(t, r) ← client_step t op; '(t, rs) ← run_clients t ops'; Ret (t, r :: rs)
  end.

(** The table holds the clients [E]. *)
Definition holds (t : table) (E : list (Z * client)) : Prop := exists l, table_ok t l /\ clients t l = E.

Lemma client_step_spec t E op E' r :
  holds t E -> spec_client E op = Some (E', r) -> exists t', client_step t op = Ret (t', r) /\ holds t' E'.
Proof.
  intros (l & Hok & <-) Hsp. pose proof (length_clients t l Hok) as Hlen.
  destruct op as [a junk now conn world pid|now pid|a|a now conn world pid]; cbn [spec_client client_step] in *.
  - pose proof (find_addr_spec t l a Hok) as Ha. pose proof (find_pid_spec t l pid Hok) as Hp.
    destruct (find_addr a (clients t l)); [discriminate|]. destruct (find_pid pid (clients t l)); [discriminate|].
    destruct (Z.eqb_spec a 0); [discriminate|]. rewrite Hlen in Hsp. destruct (Z.ltb_spec (zlen l) MAX_CLIENTS).
    + injection Hsp as <- <-.
      destruct (client_new_spec t l a junk now conn world pid) as (t' & He & Hok' & Hc); try assumption. unfold holds. eauto 10.
    + injection Hsp as <- <-. exists t. unfold client_new. rewrite (proj1 (tb_count _ _ Hok)).
      destruct (Z.ltb_spec (zlen l) MAX_CLIENTS); [lia|]. split; [reflexivity|]. exists l. auto.
  - pose proof (find_pid_spec t l pid Hok) as Hp. destruct (find_pid pid (clients t l)) as [[a v]|]; injection Hsp as <- <-.
    + destruct Hp as (_ & l1 & l2 & -> & Hv & Hpid).
      destruct (client_get_found t l1 a l2 v now pid Hok Hv Hpid) as (t' & He & Hok' & Hc). exists t'. split; [exact He|].
      exists (l1 ++ l2 ++ [a]). split; [exact Hok'|].
      now rewrite Hc, (clients_split _ _ _ _ _ Hv), others_split, <- (assoc_L (++)).
    + exists t. split; [now apply (client_get_missing t l)|]. exists l. auto.
  - pose proof (find_addr_spec t l a Hok) as Ha. destruct (find_addr a (clients t l)) as [e|]; [|discriminate].
    injection Hsp as <- <-. destruct Ha as (l1 & l2 & -> & Hv & _).
    destruct (client_free_spec t l1 a l2 Hok) as (t' & He & Hok' & Hc). exists t'. rewrite He. split; [reflexivity|].
    exists (l1 ++ l2). split; [exact Hok'|]. now rewrite Hc, (clients_split _ _ _ _ _ Hv), others_split.
  - pose proof (find_addr_spec t l a Hok) as Ha. destruct (find_addr a (clients t l)) as [[a' v]|]; [|discriminate].
    destruct Ha as (l1 & l2 & -> & Hv & _). cbn [snd] in Hv. pose proof (find_pid_spec t _ pid Hok) as Hp.
    destruct (match find_pid pid (clients t (l1 ++ a :: l2)) with Some (b, _) => _ | None => _ end) eqn:Ht; [discriminate|].
    destruct (Z.eqb_spec pid INVALID_PLAYER_ID); [discriminate|].
    destruct (Z.eqb_spec (cl_playerid v) INVALID_PLAYER_ID); [discriminate|]. injection Hsp as <- <-.
    destruct (client_set_spec t l1 a l2 v now conn world pid Hok Hv) as (t' & He & Hok' & Hc); [assumption..| |].
    { destruct (find_pid pid (clients t (l1 ++ a :: l2))) as [[b w]|]; [right|now left].
      apply negb_false_iff, Z.eqb_eq in Ht. subst b. destruct Hp as (_ & _ & _ & _ & Hw & <-). congruence. }
    exists t'. rewrite He. split; [reflexivity|]. exists (l1 ++ l2 ++ [a]). split; [exact Hok'|].
    now rewrite Hc, (clients_split _ _ _ _ _ Hv), others_split, <- (assoc_L (++)).
Qed.

Lemma run_clients_spec ops : forall t E E' rs,
  holds t E -> spec_clients E ops = Some (E', rs) -> exists t', run_clients t ops = Ret (t', rs) /\ holds t' E'.
Proof.
  induction ops as [|op ops IH]; intros t E E' rs Hh Hsp; cbn [spec_clients run_clients] in *.
  - injection Hsp as <- <-. eauto.
  - destruct (spec_client E op) as [[E1 r]|] eqn:E1eq; [|discriminate]. cbn in Hsp.
    destruct (spec_clients E1 ops) as [[E2 rs2]|] eqn:E2eq; [|discriminate]. cbn in Hsp. injection Hsp as <- <-.
    destruct (client_step_spec t E op E1 r Hh E1eq) as (t1 & -> & Hh1). cbn [mbind outcome_bind].
    destruct (IH t1 E1 E2 rs2 Hh1 E2eq) as (t2 & -> & Hh2). eauto.
Qed.

Lemma load_holds m : pm_ok m -> pm_abs m = ∅ -> holds (module_client_load m) [].
Proof.
  intros Hm Ha. exists []. split; [|reflexivity]. constructor.
  - constructor; [reflexivity|exact I|apply NoDup_nil_2|intros Hin; inversion Hin].
  - cbn. rewrite Ha. constructor; [| |reflexivity].
    + intros a. split; [intros [? [=]]|intros Hin; inversion Hin].
    + intros pid a. split; [intros [=]|intros (v & [=] & _)].
  - exact Hm.
  - unfold MAX_CLIENTS. split; [reflexivity|]. change (zlen (@nil Z)) with 0. lia.
Qed.

Lemma foldl_connected {B} (f : client -> B) (E : list (Z * client)) : forall acc,
  foldl (fun out e => if connected (snd e) then out ++ [f (snd e)] else out) acc E =
  acc ++ map (fun e => f (snd e)) (List.filter (fun e => connected (snd e)) E).
Proof.
  induction E as [|e E IH]; intros acc; cbn [foldl List.filter map]; [now rewrite app_nil_r|].
  rewrite IH. destruct (connected (snd e)); cbn [map]; [|reflexivity]. now rewrite <- (assoc_L (++)).
Qed.

(** C6: The client table behaves as a list ordered by last use: whatever sequence of
    [client_new], [client_get_by_playerid], [client_set] and [client_free] is run (within the
    preconditions of [spec_client]), every call returns the pointer the list prescribes, the counter is the
    number of clients and never exceeds 10000, a broadcast reaches exactly the connected clients in
    queue order, each once, and unloading frees them all.  It holds for every map that keeps the
    promises of [PtrMapLaws]. *)
Theorem client_table_refines m ops E rs cmd flag msg :
  pm_ok m -> pm_abs m = ∅ -> spec_clients [] ops = Some (E, rs) ->
  exists t, run_clients (module_client_load m) ops = Ret (t, rs) /\
    client_count t = zlen E /\ zlen E <= MAX_CLIENTS /\
    client_broadcast (S (length E)) t cmd flag msg =
      Ret (map (fun e => (cl_conn (snd e), client_iov cmd flag msg)) (List.filter (fun e => connected (snd e)) E)) /\
    exists t', module_client_unload (length E) t = Ret t' /\ ct_heap t' = ∅ /\ client_queue t' = 0.
Proof.
  intros Hm Ha Hsp. destruct (run_clients_spec ops _ _ _ _ (load_holds m Hm Ha) Hsp) as (t & Hr & l & Hok & <-).
  pose proof (length_clients t l Hok) as Hlen. unfold zlen in Hlen. apply Nat2Z.inj in Hlen.
  exists t. split; [exact Hr|]. destruct (tb_count _ _ Hok) as [Hc Hcm]. unfold zlen in *. rewrite Hlen.
  split; [exact Hc|]. split; [exact Hcm|]. split.
  - pose proof (client_foreach_spec (fun v out => out ++ [(cl_conn v, client_iov cmd flag msg)]) t l (S (length l)) [] Hok ltac:(lia)
      ltac:(reflexivity)) as Hf. unfold client_foreach in Hf. unfold client_broadcast. rewrite Hf. f_equal.
    exact (foldl_connected (fun v => (cl_conn v, client_iov cmd flag msg)) (clients t l) []).
  - apply (module_client_unload_spec _ _ l (tb_ring _ _ Hok)); [|lia]. intros a.
    rewrite <- (ix_dom _ _ _ (tb_index _ _ Hok)), lookup_strip. now rewrite fmap_is_Some.
Qed.
End Runs.

(** The table over [framework/map.c]. *)
Definition junk_client : client := mk_client 0 0 0 77 78 0 9 9 9 9.

Lemma client_table_refines_witness :
  exists t, run_clients (module_client_load _agMap_new)
      [CNew 16 junk_client 1 4 0 70; CNew 32 junk_client 2 5 1 80; CGet 3 70; CGet 4 99; CSet 32 5 INVALID_ID 1 81; CFree 16;
       CNew 48 junk_client 6 7 0 90] = Ret (t, [16; 32; 16; 0; 0; 0; 48]) /\
    client_count t = 2 /\ 2 <= MAX_CLIENTS /\
    client_broadcast 3 t 9 1 [] = Ret [(7, client_iov 9 1 [])] /\
    exists t', module_client_unload 2 t = Ret t' /\ ct_heap t' = ∅ /\ client_queue t' = 0.
Proof.
  apply (client_table_refines _agMap_new
    [CNew 16 junk_client 1 4 0 70; CNew 32 junk_client 2 5 1 80; CGet 3 70; CGet 4 99; CSet 32 5 INVALID_ID 1 81; CFree 16;
     CNew 48 junk_client 6 7 0 90]
    [(32, mk_client INVALID_ID 1 81 0 0 5 9 0 0 0); (48, mk_client 7 0 90 0 0 6 9 0 0 0)] _ 9 1 []).
  - destruct (@agMap_new_ok Z _ _ _) as (Hok & Hc & _). split; assumption.
  - reflexivity.
  - vm_compute. reflexivity.
Defined.
