(* ===== verification/EventManager.v ===== *)
(** * Events of the world server: [world/event_manager.c]

    Watchers are heap structures in singly linked lists, one list per event id;
    dispatched events are serialised into a byte buffer ([framework/buffer.c])
    and delivered by [agEvent_schedule].  The callbacks are the parameter
    [call]: a callback reads its parameter (which lies in the buffer) and then
    may dispatch events of its own. *)
From S2P Require Import Prelude Buckets Buffer.

(** [struct watcher]; [prev] is never used.  A pointer is an address, 0 is null. *)
Record watcher := mk_watcher { w_next : Z; w_cb : Z; w_ctx : Z }.

(** [struct WatcherList] *)
Record watcher_list := mk_wlist { wl_head : Z; wl_tail : Z }.

Definition MAX_EVENT_ID : Z := 1024.

(** The variables of the file: the heap of watchers, [free_watcher], [eventManager.events] and
    [eventBuffer]; [em_app] is the state of the program behind the callbacks. *)
Record event_manager (A : Type) := mk_em {
  em_heap : gmap Z watcher; free_watcher : Z; em_events : list watcher_list; eventBuffer : option buffer; em_app : A }.
Arguments mk_em {A} _ _ _ _ _.
Arguments em_heap {A} _.
Arguments free_watcher {A} _.
Arguments em_events {A} _.
Arguments eventBuffer {A} _.
Arguments em_app {A} _.

Section Operations.
Context {A : Type}.
#[local] Abbreviation em := (event_manager A).

(** [call cb id param ctx app]: the state after the callback and the events it dispatches. *)
Variable call : Z -> Z -> list Z -> Z -> A -> A * list (Z * list Z).

Definition set_buffer (m : em) (b : option buffer) : em :=
  mk_em (em_heap m) (free_watcher m) (em_events m) b (em_app m).
Definition set_app (m : em) (a : A) : em :=
  mk_em (em_heap m) (free_watcher m) (em_events m) (eventBuffer m) a.

(** The static initialisers: no watcher, no buffer. *)
Definition em_static (app : A) : em :=
  mk_em ∅ 0 (repeat (mk_wlist 0 0) (Z.to_nat MAX_EVENT_ID)) None app.

(** [memset(&eventManager, 0, sizeof(eventManager))] *)
Definition module_event_manager_load (m : em) : em :=
  mk_em (em_heap m) (free_watcher m) (repeat (mk_wlist 0 0) (Z.to_nat MAX_EVENT_ID)) (eventBuffer m) (em_app m).

(** [alloc_watcher] when [malloc] answers the new address [a]; memory from [malloc] is given some
    content. *)
Definition alloc_watcher (m : em) (a : Z) : outcome (em * Z) :=
  if free_watcher m =? 0 then
    Ret (mk_em (<[a := mk_watcher 0 0 0]> (em_heap m)) (free_watcher m) (em_events m) (eventBuffer m) (em_app m), a)
  else
    let w := free_watcher m in
    v ← deref (em_heap m !! w);
    f ← deref (em_heap m !! free_watcher m);
    let heap := <[free_watcher m := mk_watcher (w_next v) (w_cb f) (w_ctx f)]> (em_heap m) in
    Ret (mk_em heap (free_watcher m) (em_events m) (eventBuffer m) (em_app m), w).

Definition release_watcher (m : em) (w : Z) : outcome em :=
  v ← deref (em_heap m !! w);
  let heap := <[w := mk_watcher (free_watcher m) (w_cb v) (w_ctx v)]> (em_heap m) in
  Ret (mk_em heap w (em_events m) (eventBuffer m) (em_app m)).

(** [_agB_write] on [eventBuffer]; its result is not looked at, and allocations succeed. *)
Definition write_event (b : buffer) (data : list Z) : outcome buffer :=
  '(b, _) ← _agB_write 0 true b data; Ret b.

Definition agEvent_dispatch (m : em) (id : Z) (param : list Z) : outcome (em * Z) :=
  if MAX_EVENT_ID <=? id then Ret (m, -1)
  else
    let b := match eventBuffer m with Some b => b | None => _agB_new 0 4096 end in
    b ← write_event b (le_split 4 id);
    b ← write_event b (le_split 8 (zlen param));
    b ← write_event b param;
    Ret (set_buffer m (Some b), 0).

Definition agEvent_watch (m : em) (a id cb ctx : Z) : outcome (em * Z) :=
  if MAX_EVENT_ID <=? id then Ret (m, -1)
  else
    '(m, w) ← alloc_watcher m a;
    let heap := <[w := mk_watcher 0 cb ctx]> (em_heap m) in
    wl ← deref (em_events m !! Z.to_nat id);
    let head := if wl_head wl =? 0 then w else wl_head wl in
    heap ← (if negb (wl_tail wl =? 0)
            then t ← deref (heap !! wl_tail wl); Ret (<[wl_tail wl := mk_watcher w (w_cb t) (w_ctx t)]> heap)
            else Ret heap);
    Ret (mk_em heap (free_watcher m) (<[Z.to_nat id := mk_wlist head w]> (em_events m)) (eventBuffer m) (em_app m), 0).

(** The events a callback dispatches, one after the other. *)
Fixpoint dispatch_all (m : em) (es : list (Z * list Z)) : outcome em :=
  match es with
  | [] => Ret m
  | (id, param) :: es' => '(m, _) ← agEvent_dispatch m id param; dispatch_all m es'
  end.

(** [for(ite = list->head; ite; ite = ite->next) ite->cb(id, param, len, ite->ctx)]: every callback reads
    the [len] bytes at [param] in the buffer as it is at that time.  [param] points into the buffer of
    size [alloc]: a reallocation, which changes the size, leaves it dangling. *)
Fixpoint call_watchers (fuel : nat) (m : em) (ite id alloc param len : Z) : outcome em :=
  if ite =? 0 then Ret m
  else
    match fuel with
    | O => NoFuel
    | S fuel' =>
      w ← deref (em_heap m !! ite);
      b ← deref (eventBuffer m);
      bytes ← (if bsize b =? alloc then load_bytes (bdata b) param len else Undef);
      let '(app, es) := call (w_cb w) id bytes (w_ctx w) (em_app m) in
      m ← dispatch_all (set_app m app) es;
      w ← deref (em_heap m !! ite);
      call_watchers fuel' m (w_next w) id alloc param len
    end.

(** An [int] at an offset of the buffer. *)
Definition int_at (b : buffer) (p : Z) : outcome Z :=
  bs ← load_bytes (bdata b) p 4; Ret (i32 (le_combine bs)).

(** The loop of [agEvent_schedule]; the fuel bounds the number of events delivered. *)
Fixpoint schedule_loop (fuel : nat) (m : em) : outcome em :=
  b ← deref (eventBuffer m);
  sz ← _agB_size b;
  if negb (0 <? sz) then Ret m
  else
    match fuel with
    | O => NoFuel
    | S fuel' =>
      '(b, p) ← _agB_read b 4;
      p ← deref p;
      id ← int_at b p;
      let id := u32 id in
      '(b, p) ← _agB_read b 8;
      p ← deref p;
      len ← int_at b p;
      let len := u64 len in
      '(b, p) ← _agB_read b len;
      param ← deref p;
      wl ← deref (em_events m !! Z.to_nat id);
      m ← call_watchers (S (size (em_heap m))) (set_buffer m (Some b)) (wl_head wl) id (bsize b) param len;
      schedule_loop fuel' m
    end.

Definition agEvent_schedule (fuel : nat) (m : em) : outcome em :=
  match eventBuffer m with
  | None => Ret m
  | Some _ => schedule_loop fuel m
  end.
End Operations.

(** ** Watcher lists *)

(** The list from [p] is [l]: linked by [next], ended by null. *)
Fixpoint wchain (heap : gmap Z watcher) (p : Z) (l : list Z) : Prop :=
  match l with
  | [] => p = 0
  | a :: l' => p = a /\ a <> 0 /\ exists w, heap !! a = Some w /\ wchain heap (w_next w) l'
  end.

(** Callback and context of the watchers of a list. *)
Definition subscribers (heap : gmap Z watcher) (l : list Z) : list (Z * Z) :=
  omap (fun a => (fun w => (w_cb w, w_ctx w)) <$> heap !! a) l.

Record lists_ok {A} (m : event_manager A) (ws : list (list Z)) : Prop := {
  lo_len : length (em_events m) = Z.to_nat MAX_EVENT_ID /\ length ws = Z.to_nat MAX_EVENT_ID;
  lo_chain : forall i wl l, em_events m !! i = Some wl -> ws !! i = Some l ->
    wchain (em_heap m) (wl_head wl) l /\ wl_tail wl = List.last l 0;
  lo_nodup : NoDup (concat ws);
  lo_free : free_watcher m = 0 }.

Lemma wchain_frame heap heap' p l :
  wchain heap p l -> (forall a, a ∈ l -> heap' !! a = heap !! a) -> wchain heap' p l.
Proof.
  revert p. induction l as [|a l IH]; intros p; [trivial|]. cbn. intros (-> & Ha & w & Hw & Hl) He.
  split; [reflexivity|]. split; [exact Ha|]. exists w. rewrite He by left. split; [exact Hw|].
  apply IH; [exact Hl|]. intros b Hb. apply He. now right.
Qed.

Lemma wchain_in heap p l a : wchain heap p l -> a ∈ l -> a <> 0 /\ is_Some (heap !! a).
Proof.
  revert p. induction l as [|b l IH]; intros p Hc Ha; [inversion Ha|]. destruct Hc as (_ & Hb & w & Hw & Hc).
  apply elem_of_cons in Ha as [->|Ha]; eauto.
Qed.

(** Appending a fresh watcher [a] behind the last one. *)
Lemma wchain_snoc heap p l a v :
  wchain heap p l -> NoDup l -> a ∉ l -> a <> 0 -> w_next v = 0 ->
  wchain (match l with
          | [] => <[a := v]> heap
          | _ => match heap !! List.last l 0 with
                 | Some t => <[List.last l 0 := mk_watcher a (w_cb t) (w_ctx t)]> (<[a := v]> heap)
                 | None => heap
                 end
          end) (if p =? 0 then a else p) (l ++ [a]).
Proof.
  revert p. induction l as [|b l IH]; intros p Hc Hnd Ha Ha0 Hv.
  - cbn in Hc. subst p. cbn. split; [reflexivity|]. split; [exact Ha0|]. exists v. rewrite lookup_insert_eq. auto.
  - destruct Hc as (-> & Hb & w & Hw & Hc). destruct (Z.eqb_spec b 0); [contradiction|].
    apply list.NoDup_cons in Hnd as [Hbl Hnd]. rewrite not_elem_of_cons in Ha. destruct Ha as [Hab Hal].
    destruct l as [|c l].
    + cbn in Hc |- *. rewrite Hw. split; [reflexivity|]. split; [exact Hb|].
      eexists. rewrite lookup_insert_eq. split; [reflexivity|]. cbn. split; [reflexivity|]. split; [exact Ha0|].
      exists v. rewrite lookup_insert_ne, lookup_insert_eq by congruence. auto.
    + specialize (IH (w_next w) Hc Hnd Hal Ha0 Hv).
      change (List.last (b :: c :: l) 0) with (List.last (c :: l) 0).
      assert (Hlast : List.last (c :: l) 0 ∈ c :: l).
      { destruct (exists_last (l := c :: l)) as (r & z & E); [discriminate|]. rewrite E, last_last. apply elem_of_app. right. left. }
      destruct (wchain_in _ _ _ _ Hc Hlast) as [_ [t Ht]]. rewrite Ht in *.
      pose proof Hc as (Hwc & Hc0 & _). rewrite Hwc in IH. destruct (Z.eqb_spec c 0); [contradiction|].
      cbn [app]. split; [reflexivity|]. split; [exact Hb|]. exists w. rewrite Hwc. split; [|exact IH].
      rewrite !lookup_insert_ne; [exact Hw|congruence|]. intros E. rewrite E in Hlast. contradiction.
Qed.

Lemma concat_disjoint {A} (ws : list (list A)) i j l l' x :
  NoDup (concat ws) -> ws !! i = Some l -> ws !! j = Some l' -> i <> j -> x ∈ l -> x ∉ l'.
Proof.
  intros Hnd Hi Hj Hne Hx Hx'. destruct (concat_insert_split ws i l [] Hi) as (rest & Hp & Hq). rewrite Hp in Hnd.
  apply list.NoDup_app in Hnd as (_ & Hd & _). apply (Hd x Hx). cbn [app] in Hq. rewrite <- Hq. apply elem_of_concat.
  exists j, l'. rewrite list_lookup_insert_ne by congruence. auto.
Qed.

Lemma concat_nodup_part {A} (ws : list (list A)) i l : NoDup (concat ws) -> ws !! i = Some l -> NoDup l.
Proof.
  intros Hnd Hi. destruct (concat_insert_split ws i l [] Hi) as (rest & Hp & _). rewrite Hp in Hnd.
  now apply list.NoDup_app in Hnd as (H & _).
Qed.

Lemma subscribers_frame heap heap' l :
  (forall a, a ∈ l -> (fun w => (w_cb w, w_ctx w)) <$> heap' !! a = (fun w => (w_cb w, w_ctx w)) <$> heap !! a) ->
  subscribers heap' l = subscribers heap l.
Proof.
  induction l as [|a l IH]; intros He; [reflexivity|]. unfold subscribers in *. cbn. rewrite (He a) by left.
  rewrite IH; [reflexivity|]. intros b Hb. apply He. now right.
Qed.

(** The heap after [agEvent_watch]. *)
Definition watch_heap (heap : gmap Z watcher) (l : list Z) (a : Z) (v : watcher) : gmap Z watcher :=
  match l with
  | [] => <[a := v]> heap
  | _ => match heap !! List.last l 0 with
         | Some t => <[List.last l 0 := mk_watcher a (w_cb t) (w_ctx t)]> (<[a := v]> heap)
         | None => heap
         end
  end.

Lemma last_in {A} (l : list A) d : l <> [] -> List.last l d ∈ l.
Proof.
  intros Hne. destruct (exists_last Hne) as (r & z & ->). rewrite last_last. apply elem_of_app. right. left.
Qed.

Lemma watch_heap_other heap l a v b :
  (forall x, x ∈ l -> is_Some (heap !! x)) -> b <> a -> b ∉ l -> watch_heap heap l a v !! b = heap !! b.
Proof.
  intros Hs Hba Hbl. unfold watch_heap. destruct l as [|c l]; [now rewrite lookup_insert_ne by congruence|].
  pose proof (last_in (c :: l) 0 ltac:(discriminate)) as Hl. destruct (Hs _ Hl) as [t Ht]. rewrite Ht.
  rewrite !lookup_insert_ne; [reflexivity|congruence|]. intros <-. contradiction.
Qed.

Lemma watch_heap_subs heap l a v b :
  (forall x, x ∈ l -> is_Some (heap !! x)) -> b <> a ->
  (fun w => (w_cb w, w_ctx w)) <$> watch_heap heap l a v !! b = (fun w => (w_cb w, w_ctx w)) <$> heap !! b.
Proof.
  intros Hs Hba. unfold watch_heap. destruct l as [|c l]; [now rewrite lookup_insert_ne by congruence|].
  destruct (Hs _ (last_in (c :: l) 0 ltac:(discriminate))) as [t Ht]. rewrite Ht.
  destruct (decide (b = List.last (c :: l) 0)) as [->|Hne].
  - rewrite lookup_insert_eq, Ht. reflexivity.
  - now rewrite !lookup_insert_ne by congruence.
Qed.

Lemma watch_heap_new heap l a v :
  (forall x, x ∈ l -> is_Some (heap !! x)) -> a ∉ l -> watch_heap heap l a v !! a = Some v.
Proof.
  intros Hs Ha. unfold watch_heap. destruct l as [|c l]; [apply lookup_insert_eq|].
  pose proof (last_in (c :: l) 0 ltac:(discriminate)) as Hl. destruct (Hs _ Hl) as [t Ht]. rewrite Ht.
  rewrite lookup_insert_ne; [apply lookup_insert_eq|]. intros E. rewrite E in Hl. contradiction.
Qed.

Section Watch.
Context {A : Type}.
#[local] Abbreviation em := (event_manager A).

Lemma agEvent_watch_spec (m : em) ws a id cb ctx l :
  lists_ok m ws -> 0 <= id < MAX_EVENT_ID -> ws !! Z.to_nat id = Some l -> a ∉ concat ws -> a <> 0 ->
  exists m', agEvent_watch m a id cb ctx = Ret (m', 0) /\ lists_ok m' (<[Z.to_nat id := l ++ [a]]> ws) /\
    eventBuffer m' = eventBuffer m /\ em_app m' = em_app m /\
    subscribers (em_heap m') (l ++ [a]) = subscribers (em_heap m) l ++ [(cb, ctx)] /\
    (forall j lj, j <> Z.to_nat id -> ws !! j = Some lj -> subscribers (em_heap m') lj = subscribers (em_heap m) lj).
Proof.
  intros [[Hlen Hlenw] Hch Hnd Hfree] Hid Hl Ha Ha0. unfold agEvent_watch, alloc_watcher.
  destruct (Z.leb_spec MAX_EVENT_ID id); [lia|]. rewrite Hfree. cbn [Z.eqb mbind outcome_bind em_heap em_events free_watcher eventBuffer em_app].
  pose proof (lookup_lt_Some _ _ _ Hl) as Hlt. destruct (em_events m !! Z.to_nat id) as [wl|] eqn:Hwl;
    [|apply lookup_ge_None in Hwl; lia]. cbn [deref mbind outcome_bind].
  destruct (Hch _ _ _ Hwl Hl) as [Hc Htail]. rewrite insert_insert_eq.
  assert (Hal : a ∉ l) by (intros Hin; apply Ha, elem_of_concat; eauto).
  assert (Hs : forall x, x ∈ l -> is_Some (em_heap m !! x)) by (intros x Hx; eapply wchain_in; eassumption).
  assert (Hstep : (if negb (wl_tail wl =? 0)
    then t ← deref (<[a := mk_watcher 0 cb ctx]> (em_heap m) !! wl_tail wl);
         Ret (<[wl_tail wl := mk_watcher a (w_cb t) (w_ctx t)]> (<[a := mk_watcher 0 cb ctx]> (em_heap m)))
    else Ret (<[a := mk_watcher 0 cb ctx]> (em_heap m))) = Ret (watch_heap (em_heap m) l a (mk_watcher 0 cb ctx))).
  { rewrite Htail. destruct l as [|c l]; [reflexivity|]. pose proof (last_in (c :: l) 0 ltac:(discriminate)) as Hin.
    destruct (wchain_in _ _ _ _ Hc Hin) as [Hn0 [t Ht]]. destruct (Z.eqb_spec (List.last (c :: l) 0) 0); [contradiction|].
    cbn [negb]. rewrite lookup_insert_ne by (intros E; rewrite <- E in Hin; contradiction). rewrite Ht. cbn [deref mbind outcome_bind].
    unfold watch_heap. now rewrite Ht. }
  rewrite Hstep. cbn [mbind outcome_bind]. eexists. split; [reflexivity|]. split; [|split; [reflexivity|split; [reflexivity|split]]].
  - constructor; cbn [em_events em_heap free_watcher].
    + now rewrite !length_insert.
    + intros j wlj lj Hj Hlj. apply list_lookup_insert_Some in Hlj as [(<- & <- & _)|(Hne & Hlj)].
      * rewrite list_lookup_insert_eq in Hj by lia. injection Hj as <-. cbn [wl_head wl_tail].
        split; [|now rewrite last_last]. apply wchain_snoc; try assumption; [|reflexivity]. eapply concat_nodup_part; eassumption.
      * rewrite list_lookup_insert_ne in Hj by congruence. destruct (Hch _ _ _ Hj Hlj) as [Hcj Htj]. split; [|exact Htj].
        eapply wchain_frame; [exact Hcj|]. intros b Hb. apply watch_heap_other; [exact Hs| |].
        -- intros ->. apply Ha, elem_of_concat. eauto.
        -- intros Hbl. eapply (concat_disjoint ws (Z.to_nat id) j); eassumption.
    + destruct (concat_insert_split ws _ l (l ++ [a]) Hl) as (rest & Hp & ->). rewrite Hp in Hnd, Ha.
      rewrite <- (assoc_L (++)). cbn [app]. rewrite <- Permutation_middle. now apply list.NoDup_cons.
    + reflexivity.
  - cbn [em_heap]. unfold subscribers at 1. rewrite omap_app. f_equal.
    + apply subscribers_frame. intros b Hb. apply watch_heap_subs; [exact Hs|]. intros ->. contradiction.
    + cbn. now rewrite watch_heap_new.
  - intros j lj Hne Hlj. cbn [em_heap]. apply subscribers_frame. intros b Hb. apply watch_heap_subs; [exact Hs|].
    intros ->. apply Ha, elem_of_concat. eauto.
Qed.
End Watch.

(** ** The queue of events *)

Abbreviation event := (Z * list Z)%type.

Definition encode_event (e : event) : list Z := le_split 4 (fst e) ++ le_split 8 (zlen (snd e)) ++ snd e.

(** Ids within the table; the length is read back as an [int]. *)
Definition valid_event (e : event) : Prop := 0 <= fst e < MAX_EVENT_ID /\ zlen (snd e) < 2 ^ 31.

Definition queue_bytes (q : list event) : list Z := concat (map encode_event q).

Lemma zlen_encode_event e : zlen (encode_event e) = 12 + zlen (snd e).
Proof. unfold encode_event. rewrite !zlen_app, !zlen_le_split. lia. Qed.

Lemma queue_bytes_app q q' : queue_bytes (q ++ q') = queue_bytes q ++ queue_bytes q'.
Proof. unfold queue_bytes. now rewrite map_app, concat_app. Qed.

(** Reading what is at the front of a buffer. *)
Lemma read_front b x y :
  buf_ok b -> content b = x ++ y ->
  exists b', _agB_read b (zlen x) = Ret (b', Some (rpos b)) /\ buf_ok b' /\ content b' = y /\
    load_bytes (bdata b') (rpos b) (zlen x) = Ret x.
Proof.
  intros Hok Hc. pose proof (zlen_nonneg x) as Hx. pose proof (zlen_nonneg y) as Hy.
  pose proof (agB_read_spec b (zlen x) Hok Hx) as Hr. pose proof (zlen_content b Hok) as Hz.
  pose proof Hok as [Hp Hs Hd]. rewrite Hc, zlen_app in Hz, Hr.
  destruct (Z.ltb_spec (zlen x + zlen y) (zlen x)); [lia|]. destruct Hr as (b' & Hr & Hok' & Hd' & Hcat).
  assert (Hlen : length x = length (slice (bdata b') (rpos b) (zlen x))).
  { apply Nat2Z.inj. change (zlen x = zlen (slice (bdata b') (rpos b) (zlen x))). rewrite zlen_slice; rewrite ?Hd'; lia. }
  apply app_inj_1 in Hcat as [Hx' Hy']; [|exact Hlen].
  exists b'. split; [exact Hr|]. split; [exact Hok'|]. split; [auto|].
  unfold load_bytes. rewrite <- Hx', Hd', Hd. replace (_ && _ && _) with true by (symmetry; ztests; reflexivity). reflexivity.
Qed.

Lemma write_event_spec b data :
  buf_ok b -> zlen (content b) + zlen data <= 2 ^ 61 ->
  exists b', write_event b data = Ret b' /\ buf_ok b' /\ content b' = content b ++ data.
Proof.
  intros Hok Hmax. unfold write_event. destruct (agB_write_spec 0 true b data Hok Hmax) as (b' & rc & -> & Hok' & [[-> Hc]|(_ & [=] & _)]).
  eauto.
Qed.

Section Schedule.
Context {A : Type}.
#[local] Abbreviation em := (event_manager A).
Variable call : Z -> Z -> list Z -> Z -> A -> A * list event.

(** The buffer holds the events [q]. *)
Definition queue_ok (m : em) (q : list event) : Prop :=
  match eventBuffer m with
  | None => q = []
  | Some b => buf_ok b /\ content b = queue_bytes q
  end.

Definition same_lists (m m' : em) : Prop :=
  em_heap m' = em_heap m /\ em_events m' = em_events m /\ free_watcher m' = free_watcher m /\
  (is_Some (eventBuffer m) -> is_Some (eventBuffer m')).

(** Dispatching on the queue; [None] beyond the sizes of the model. *)
Definition spec_dispatch (q : list event) (e : event) : option (list event) :=
  if MAX_EVENT_ID <=? fst e then Some q
  else if (0 <=? fst e) && (zlen (snd e) <? 2 ^ 31) && (zlen (queue_bytes q) + zlen (encode_event e) <=? 2 ^ 61)
  then Some (q ++ [e]) else None.

Fixpoint spec_dispatch_all (q : list event) (es : list event) : option (list event) :=
  match es with
  | [] => Some q
  | e :: es' => q ← spec_dispatch q e; spec_dispatch_all q es'
  end.

(** Calling the subscribers one after the other with the same parameter. *)
Fixpoint spec_calls (subs : list (Z * Z)) (id : Z) (param : list Z) (app : A) (q : list event)
    : option (A * list event) :=
  match subs with
  | [] => Some (app, q)
  | (cb, ctx) :: subs' =>
    let '(app, es) := call cb id param ctx app in
    q ← spec_dispatch_all q es;
    spec_calls subs' id param app q
  end.

(** Delivering the events of the queue until it is empty. *)
Fixpoint spec_schedule (fuel : nat) (subs : Z -> list (Z * Z)) (q : list event) (app : A) : option A :=
  match q with
  | [] => Some app
  | (id, param) :: q' =>
    match fuel with
    | O => None
    | S fuel' => '(app, q) ← spec_calls (subs id) id param app q'; spec_schedule fuel' subs q app
    end
  end.

(** No subscriber but the last one dispatches events. *)
Definition quiet (subs : list (Z * Z)) : Prop :=
  forall cb ctx, (cb, ctx) ∈ removelast subs -> forall id param app, (call cb id param ctx app).2 = [].

Lemma agEvent_dispatch_spec (m : em) q e q' :
  queue_ok m q -> spec_dispatch q e = Some q' ->
  exists m' r, agEvent_dispatch m (fst e) (snd e) = Ret (m', r) /\ queue_ok m' q' /\ same_lists m m' /\ em_app m' = em_app m.
Proof.
  intros Hq Hsp. unfold agEvent_dispatch, spec_dispatch in *. destruct (MAX_EVENT_ID <=? fst e).
  { injection Hsp as <-. unfold same_lists. eauto 10. }
  destruct ((0 <=? fst e) && _ && _) eqn:Hg; [|discriminate]. injection Hsp as <-. zbool.
  set (b := match eventBuffer m with Some b => b | None => _ end).
  assert (Hb : buf_ok b /\ content b = queue_bytes q).
  { unfold queue_ok in Hq. subst b. destruct (eventBuffer m); [exact Hq|]. subst q. apply agB_new_ok. lia. }
  clearbody b. destruct Hb as [Hb Hcb]. rewrite zlen_encode_event in *. pose proof (zlen_nonneg (snd e)).
  destruct (write_event_spec b (le_split 4 (fst e)) Hb) as (b1 & -> & Hb1 & Hc1); [rewrite Hcb, zlen_le_split; lia|].
  cbn [mbind outcome_bind].
  destruct (write_event_spec b1 (le_split 8 (zlen (snd e))) Hb1) as (b2 & -> & Hb2 & Hc2);
    [rewrite Hc1, Hcb, zlen_app, !zlen_le_split; lia|]. cbn [mbind outcome_bind].
  destruct (write_event_spec b2 (snd e) Hb2) as (b3 & -> & Hb3 & Hc3);
    [rewrite Hc2, Hc1, Hcb, !zlen_app, !zlen_le_split; lia|]. cbn [mbind outcome_bind].
  eexists _, _. split; [reflexivity|]. split; [|split; [split; [reflexivity|split; [reflexivity|split; [reflexivity|cbn; eauto]]]|reflexivity]].
  unfold queue_ok. cbn [set_buffer eventBuffer]. split; [exact Hb3|].
  rewrite Hc3, Hc2, Hc1, Hcb, queue_bytes_app. change (queue_bytes [e]) with (encode_event e ++ []).
  unfold encode_event. now rewrite app_nil_r, <- !(assoc_L (++)).
Qed.

Lemma dispatch_all_spec es : forall (m : em) q q',
  queue_ok m q -> spec_dispatch_all q es = Some q' ->
  exists m', dispatch_all m es = Ret m' /\ queue_ok m' q' /\ same_lists m m' /\ em_app m' = em_app m.
Proof.
  induction es as [|[id param] es IH]; intros m q q' Hq Hsp; cbn [spec_dispatch_all dispatch_all] in *.
  - injection Hsp as <-. unfold same_lists. eauto 10.
  - destruct (spec_dispatch q (id, param)) as [q1|] eqn:E; [|discriminate]. cbn in Hsp.
    destruct (agEvent_dispatch_spec m q (id, param) q1 Hq E) as (m1 & r & He & Hq1 & (H1 & H2 & H3 & H4) & Ha1).
    cbn [fst snd] in He. rewrite He. cbn [mbind outcome_bind].
    destruct (IH m1 q1 q' Hq1 Hsp) as (m2 & -> & Hq2 & (G1 & G2 & G3 & G4) & Ha2).
    exists m2. split; [reflexivity|]. split; [exact Hq2|]. split; [|congruence]. repeat split; [congruence..|auto].
Qed.

Lemma call_watchers_spec id param al p : forall l fuel (m : em) ite q app' q',
  wchain (em_heap m) ite l -> (length l <= fuel)%nat -> quiet (subscribers (em_heap m) l) ->
  queue_ok m q -> (exists b, eventBuffer m = Some b /\ bsize b = al /\ load_bytes (bdata b) p (zlen param) = Ret param) ->
  spec_calls (subscribers (em_heap m) l) id param (em_app m) q = Some (app', q') ->
  exists m', call_watchers call fuel m ite id al p (zlen param) = Ret m' /\ queue_ok m' q' /\ same_lists m m' /\ em_app m' = app'.
Proof.
  induction l as [|a l IH]; intros fuel m ite q app' q' Hc Hf Hquiet Hq (b & Hb & Hal & Hld) Hsp.
  - cbn in Hc. subst ite. cbn in Hsp. injection Hsp as <- <-.
    exists m. split; [destruct fuel; reflexivity|]. split; [exact Hq|]. split; [repeat split; auto|reflexivity].
  - destruct Hc as (-> & Ha0 & w & Hw & Hc). destruct fuel as [|fuel]; [cbn in Hf; lia|]. cbn [call_watchers].
    destruct (Z.eqb_spec a 0); [contradiction|]. rewrite Hw, Hb. cbn [deref mbind outcome_bind]. rewrite Hal, Z.eqb_refl, Hld. cbn [mbind outcome_bind].
    assert (Hsub : subscribers (em_heap m) (a :: l) = (w_cb w, w_ctx w) :: subscribers (em_heap m) l)
      by (unfold subscribers; cbn; now rewrite Hw).
    rewrite Hsub in Hsp, Hquiet. cbn [spec_calls] in Hsp.
    destruct (call (w_cb w) id param (w_ctx w) (em_app m)) as [app1 es] eqn:Hcall.
    destruct (spec_dispatch_all q es) as [q1|] eqn:Hd; [|discriminate]. cbn in Hsp.
    destruct (dispatch_all_spec es (set_app m app1) q q1 Hq Hd) as (m1 & Hd1 & Hq1 & (H1 & H2 & H3 & H4) & Ha1).
    rewrite Hd1. cbn [mbind outcome_bind]. cbn [set_app em_heap em_events free_watcher em_app] in *.
    rewrite H1, Hw. cbn [deref mbind outcome_bind].
    assert (Hnext : l = [] \/ (exists b1, eventBuffer m1 = Some b1 /\ bsize b1 = al /\ load_bytes (bdata b1) p (zlen param) = Ret param)).
    { destruct l as [|a2 l]; [now left|right]. assert (es = []) as ->.
      { destruct Hc as (_ & _ & w2 & Hw2 & _). specialize (Hquiet (w_cb w) (w_ctx w)).
        unfold subscribers in Hquiet. cbn in Hquiet. rewrite Hw2 in Hquiet. cbn in Hquiet.
        specialize (Hquiet ltac:(left) id param (em_app m)). now rewrite Hcall in Hquiet. }
      cbn in Hd1. injection Hd1 as <-. exists b. auto. }
    destruct Hnext as [->|Hnext].
    + cbn in Hc. rewrite Hc. cbn in Hsp. injection Hsp as <- <-. exists m1. split; [destruct fuel; reflexivity|].
      split; [exact Hq1|]. split; [repeat split; assumption|exact Ha1].
    + destruct (IH fuel m1 (w_next w) q1 app' q') as (m2 & -> & Hq2 & (G1 & G2 & G3 & G4) & Ha2).
      * now rewrite H1.
      * cbn in Hf. lia.
      * rewrite H1. intros cb ctx Hin. apply Hquiet. destruct (subscribers (em_heap m) l); [inversion Hin|]. now right.
      * exact Hq1.
      * exact Hnext.
      * rewrite H1, Ha1. exact Hsp.
      * exists m2. split; [reflexivity|]. split; [exact Hq2|]. split; [repeat split; [congruence..|auto]|exact Ha2].
Qed.

Lemma spec_dispatch_all_valid es : forall q q',
  Forall valid_event q -> spec_dispatch_all q es = Some q' -> Forall valid_event q'.
Proof.
  induction es as [|e es IH]; intros q q' Hv Hsp; cbn [spec_dispatch_all] in Hsp; [now injection Hsp as <-|].
  destruct (spec_dispatch q e) as [q1|] eqn:E; [|discriminate]. cbn in Hsp. apply (IH q1); [|exact Hsp].
  unfold spec_dispatch in E. destruct (Z.leb_spec MAX_EVENT_ID (fst e)); [now injection E as <-|].
  destruct ((0 <=? fst e) && _ && _) eqn:Hg; [|discriminate]. injection E as <-. zbool.
  apply Forall_app. split; [exact Hv|]. apply Forall_singleton. split; lia.
Qed.

Lemma spec_calls_valid subs id param : forall app q app' q',
  Forall valid_event q -> spec_calls subs id param app q = Some (app', q') -> Forall valid_event q'.
Proof.
  induction subs as [|[cb ctx] subs IH]; intros app q app' q' Hv Hsp; cbn [spec_calls] in Hsp; [now injection Hsp as <- <-|].
  destruct (call cb id param ctx app) as [app1 es]. destruct (spec_dispatch_all q es) as [q1|] eqn:E; [|discriminate].
  cbn in Hsp. eapply IH; [|exact Hsp]. eapply spec_dispatch_all_valid; eassumption.
Qed.

Lemma chain_size heap p l : wchain heap p l -> NoDup l -> (length l <= size heap)%nat.
Proof.
  intros Hc Hnd. rewrite <- size_dom, <- (size_list_to_set (C := gset Z)) by assumption. apply subseteq_size.
  intros a Ha. apply elem_of_list_to_set in Ha. apply elem_of_dom. eapply wchain_in; eassumption.
Qed.

(** The lists of the manager hold the subscribers [subs]. *)
Definition subscribed (m : em) (subs : Z -> list (Z * Z)) : Prop :=
  exists ws, lists_ok m ws /\ forall i l, ws !! i = Some l -> subs (Z.of_nat i) = subscribers (em_heap m) l.

Lemma subscribed_same m m' subs : same_lists m m' -> subscribed m subs -> subscribed m' subs.
Proof.
  intros (H1 & H2 & H3 & H4) (ws & [Hl Hc Hn Hf] & Hs). exists ws. split; [|now rewrite H1].
  constructor; [now rewrite H2|now rewrite H1, H2|exact Hn|now rewrite H3].
Qed.

Lemma le_combine_int n : 0 <= n < 2 ^ 31 -> i32 (n mod 2 ^ 32) = n.
Proof. intros Hn. rewrite Z.mod_small by lia. apply i32_small. lia. Qed.

(** The header and the parameter of the first event are read back. *)
Lemma read_event b e rest :
  buf_ok b -> valid_event e -> content b = encode_event e ++ rest ->
  exists b1 b2 b3, _agB_read b 4 = Ret (b1, Some (rpos b)) /\ int_at b1 (rpos b) = Ret (fst e) /\
    _agB_read b1 8 = Ret (b2, Some (rpos b1)) /\ int_at b2 (rpos b1) = Ret (zlen (snd e)) /\
    _agB_read b2 (zlen (snd e)) = Ret (b3, Some (rpos b2)) /\ buf_ok b3 /\ content b3 = rest /\
    load_bytes (bdata b3) (rpos b2) (zlen (snd e)) = Ret (snd e).
Proof.
  intros Hok [Hid Hlen] Hc. unfold encode_event in Hc. rewrite <- !(assoc_L (++)) in Hc. pose proof (zlen_nonneg (snd e)).
  destruct (read_front b _ _ Hok Hc) as (b1 & Hr1 & Hb1 & Hc1 & Hl1). rewrite zlen_le_split in Hr1, Hl1.
  destruct (read_front b1 _ _ Hb1 Hc1) as (b2 & Hr2 & Hb2 & Hc2 & Hl2). rewrite zlen_le_split in Hr2, Hl2.
  destruct (read_front b2 _ _ Hb2 Hc2) as (b3 & Hr3 & Hb3 & Hc3 & Hl3).
  exists b1, b2, b3. split; [exact Hr1|]. split.
  { unfold int_at. change (Z.of_nat 4) with 4 in Hl1. rewrite Hl1. cbn [mbind outcome_bind]. rewrite le_combine_split.
    change (8 * Z.of_nat 4) with 32. unfold MAX_EVENT_ID in Hid. now rewrite le_combine_int by lia. }
  split; [exact Hr2|]. split; [|auto].
  unfold int_at. change (le_split 8 (zlen (snd e))) with (le_split 4 (zlen (snd e)) ++ le_split 4 (Z.shiftr (Z.shiftr (Z.shiftr (Z.shiftr (zlen (snd e)) 8) 8) 8) 8)) in Hl2.
  assert (Hl4 : load_bytes (bdata b2) (rpos b1) 4 = Ret (le_split 4 (zlen (snd e)))).
  { unfold load_bytes in Hl2 |- *. destruct ((0 <=? rpos b1) && (0 <=? Z.of_nat 8) && _) eqn:Hg; [|discriminate]. zbool.
    replace (_ && _ && _) with true by (symmetry; ztests; reflexivity). f_equal.
    match type of Hl2 with Ret ?x = Ret ?y => assert (Hl2s : x = y) by congruence end.
    rewrite (slice_split _ _ _ 4) in Hl2s by lia. apply app_inj_1 in Hl2s as [Hl2s _]; [exact Hl2s|].
    rewrite length_le_split. apply Nat2Z.inj. change (Z.of_nat (length ?x)) with (zlen x). rewrite zlen_slice; lia. }
  rewrite Hl4. cbn [mbind outcome_bind]. rewrite le_combine_split. change (8 * Z.of_nat 4) with 32.
  now rewrite le_combine_int by lia.
Qed.

Lemma schedule_loop_spec subs : forall fuel (m : em) q app',
  subscribed m subs -> (forall id, quiet (subs id)) -> (exists b, eventBuffer m = Some b) -> queue_ok m q ->
  Forall valid_event q -> spec_schedule fuel subs q (em_app m) = Some app' ->
  exists m', schedule_loop call fuel m = Ret m' /\ em_app m' = app' /\ queue_ok m' [] /\ subscribed m' subs.
Proof.
  induction fuel as [|fuel IH]; intros m q app' Hsub Hquiet [b Hb] Hq Hv Hsp;
    pose proof Hq as Hq'; unfold queue_ok in Hq'; rewrite Hb in Hq'; destruct Hq' as [Hok Hc];
    cbn [schedule_loop]; rewrite Hb; cbn [deref mbind outcome_bind]; unfold _agB_size; rewrite check_ok by assumption;
    cbn [mbind outcome_bind]; rewrite <- zlen_content, Hc by assumption.
  all: destruct q as [|e q]; [cbn in Hsp; injection Hsp as <-; exists m; auto|].
  all: inversion Hv as [|? ? He Hvq]; subst; unfold queue_bytes in Hc; cbn [map concat] in Hc; fold (queue_bytes q) in Hc.
  { destruct e. cbn in Hsp. discriminate. }
  unfold queue_bytes at 1. cbn [map concat]. rewrite zlen_app, zlen_encode_event.
  pose proof (zlen_nonneg (snd e)). pose proof (zlen_nonneg (concat (map encode_event q))).
  destruct (Z.ltb_spec 0 (12 + zlen (snd e) + zlen (concat (map encode_event q)))); [|lia]. cbn [negb].
  destruct (read_event b e (queue_bytes q) Hok He Hc) as (b1 & b2 & b3 & -> & Hid & Hr2 & Hlen & Hr3 & Hb3 & Hc3 & Hld).
  cbn [mbind outcome_bind deref]. rewrite Hid. cbn [mbind outcome_bind]. rewrite Hr2. cbn [mbind outcome_bind deref].
  rewrite Hlen. cbn [mbind outcome_bind]. destruct He as [Hidr Hlenr]. unfold MAX_EVENT_ID in Hidr.
  rewrite u64_small, u32_small by lia. rewrite Hr3. cbn [mbind outcome_bind deref].
  destruct Hsub as (ws & Hlo & Hsubs). pose proof Hlo as [[Hlen1 Hlen2] Hch Hnd _]. unfold MAX_EVENT_ID in *.
  destruct (em_events m !! Z.to_nat (fst e)) as [wl|] eqn:Hwl; [|apply lookup_ge_None in Hwl; lia].
  destruct (ws !! Z.to_nat (fst e)) as [l|] eqn:Hl; [|apply lookup_ge_None in Hl; lia]. cbn [deref mbind outcome_bind].
  destruct (Hch _ _ _ Hwl Hl) as [Hcl _]. pose proof (Hsubs _ _ Hl) as Hse. rewrite Z2Nat.id in Hse by lia.
  destruct e as [id param]. cbn [fst snd spec_schedule] in *.
  destruct (spec_calls (subs id) id param (em_app m) q) as [[app1 q1]|] eqn:Hcalls; [|discriminate]. cbn in Hsp.
  rewrite Hse in Hcalls.
  destruct (call_watchers_spec id param (bsize b3) (rpos b2) l (S (size (em_heap m))) (set_buffer m (Some b3)) (wl_head wl) q app1 q1)
    as (m1 & -> & Hq1 & Hsame & Ha1); cbn [set_buffer em_heap eventBuffer em_app];
    [exact Hcl| |rewrite <- Hse; apply Hquiet|split; assumption|eauto|exact Hcalls|].
  { pose proof (chain_size _ _ _ Hcl (concat_nodup_part _ _ _ Hnd Hl)). lia. }
  cbn [mbind outcome_bind]. apply (IH m1 q1).
  - apply (subscribed_same (set_buffer m (Some b3))); [exact Hsame|]. exists ws. split; [|exact Hsubs].
    destruct Hlo as [? ? ? ?]. constructor; assumption.
  - exact Hquiet.
  - destruct Hsame as (_ & _ & _ & H4). apply H4. cbn. eauto.
  - exact Hq1.
  - eapply spec_calls_valid; eassumption.
  - rewrite Ha1. exact Hsp.
Qed.

(** ** Watch, dispatch, schedule *)

(** A call of [agEvent_watch] with the address [malloc] gives it. *)
Record watch_call := mk_watch { wc_addr : Z; wc_id : Z; wc_cb : Z; wc_ctx : Z }.

Fixpoint run_watches (m : em) (ws : list watch_call) : outcome em :=
  match ws with
  | [] => Ret m
  | w :: ws' => '(m, _) ← agEvent_watch m (wc_addr w) (wc_id w) (wc_cb w) (wc_ctx w); run_watches m ws'
  end.

(** The subscribers of an event, in the order of the calls. *)
Definition subs_of (ws : list watch_call) (id : Z) : list (Z * Z) :=
  map (fun w => (wc_cb w, wc_ctx w)) (List.filter (fun w => wc_id w =? id) ws).

Definition watch_ok (w : watch_call) : Prop := wc_addr w <> 0 /\ 0 <= wc_id w < MAX_EVENT_ID.

Lemma run_watches_spec ws : forall (m : em) lists,
  lists_ok m lists -> Forall watch_ok ws -> NoDup (map wc_addr ws) ->
  (forall w, w ∈ ws -> wc_addr w ∉ concat lists) ->
  exists m' lists', run_watches m ws = Ret m' /\ lists_ok m' lists' /\ eventBuffer m' = eventBuffer m /\ em_app m' = em_app m /\
    forall i l, lists !! i = Some l -> exists l', lists' !! i = Some l' /\
      subscribers (em_heap m') l' = subscribers (em_heap m) l ++ subs_of ws (Z.of_nat i).
Proof.
  induction ws as [|w ws IH]; intros m lists Hlo Hok Hnd Hfresh; cbn [run_watches].
  { exists m, lists. split; [reflexivity|]. split; [exact Hlo|]. split; [reflexivity|]. split; [reflexivity|].
    intros i l Hl. exists l. split; [exact Hl|]. now rewrite app_nil_r. }
  inversion Hok as [|? ? [Ha0 Hid] Hoks]; subst. cbn [map] in Hnd. apply list.NoDup_cons in Hnd as [Hna Hnd].
  pose proof Hlo as [[_ Hlen] _ _ _]. destruct (lists !! Z.to_nat (wc_id w)) as [l|] eqn:Hl; [|apply lookup_ge_None in Hl; lia].
  destruct (agEvent_watch_spec m lists (wc_addr w) (wc_id w) (wc_cb w) (wc_ctx w) l Hlo Hid Hl) as (m1 & -> & Hlo1 & Hb1 & Ha1 & Hs1 & Ho1);
    [apply Hfresh; left|exact Ha0|]. cbn [mbind outcome_bind].
  destruct (IH m1 _ Hlo1 Hoks Hnd) as (m2 & lists2 & -> & Hlo2 & Hb2 & Ha2 & Hs2).
  { intros w' Hw' Hin. destruct (concat_insert_split lists _ l (l ++ [wc_addr w]) Hl) as (rest & Hp & Hq). rewrite Hq in Hin.
    rewrite !elem_of_app, list_elem_of_singleton in Hin. destruct Hin as [[Hin|Hin]|Hin].
    - apply (Hfresh w'); [now right|]. rewrite Hp. apply elem_of_app. now left.
    - apply Hna. rewrite <- Hin. apply list_elem_of_In, in_map, list_elem_of_In, Hw'.
    - apply (Hfresh w'); [now right|]. rewrite Hp. apply elem_of_app. now right. }
  exists m2, lists2. split; [reflexivity|]. split; [exact Hlo2|]. split; [congruence|]. split; [congruence|].
  intros i li Hli. unfold subs_of. cbn [List.filter]. destruct (decide (i = Z.to_nat (wc_id w))) as [->|Hne].
  - rewrite Hl in Hli. injection Hli as <-.
    destruct (Hs2 (Z.to_nat (wc_id w)) (l ++ [wc_addr w])) as (l' & Hl' & Hs); [apply list_lookup_insert_eq; apply lookup_lt_Some in Hl; lia|].
    exists l'. split; [exact Hl'|]. rewrite Hs, Hs1, Z2Nat.id, Z.eqb_refl by lia. cbn [map].
    now rewrite <- (assoc_L (++)).
  - destruct (Hs2 i li) as (l' & Hl' & Hs); [now rewrite list_lookup_insert_ne by congruence|].
    exists l'. split; [exact Hl'|]. rewrite Hs, (Ho1 i li Hne Hli). destruct (Z.eqb_spec (wc_id w) (Z.of_nat i)); [lia|reflexivity].
Qed.

Lemma lookup_repeat_lt {B} (x : B) n i : (i < n)%nat -> repeat x n !! i = Some x.
Proof. revert i. induction n as [|n IH]; intros [|i] Hi; cbn; [lia|lia|reflexivity|apply IH; lia]. Qed.

Lemma load_lists_ok (app : A) :
  lists_ok (module_event_manager_load (em_static app)) (repeat [] (Z.to_nat MAX_EVENT_ID)).
Proof.
  constructor; cbn [module_event_manager_load em_static em_events em_heap free_watcher].
  - rewrite !repeat_length. auto.
  - intros i wl l Hwl Hl. apply lookup_repeat_nil in Hl. subst l.
    apply list_elem_of_lookup_2, list_elem_of_In, repeat_spec in Hwl. subst wl. split; reflexivity.
  - rewrite concat_repeat_nil. apply NoDup_nil_2.
  - reflexivity.
Qed.

(** C39: Events are delivered first in, first out: after any registrations and dispatches, and as long as
    only the last watcher of an event dispatches further events, [agEvent_schedule] calls for every
    event all its watchers, in the order they were registered, each once and with the
    bytes that were dispatched, including the events dispatched by callbacks on the way, and it
    ends with an empty buffer as soon as the abstract queue does. *)
Theorem events_delivered_fifo (ws : list watch_call) (es : list event) (app app' : A) fuel q :
  Forall watch_ok ws -> NoDup (map wc_addr ws) -> (forall id, quiet (subs_of ws id)) ->
  spec_dispatch_all [] es = Some q -> spec_schedule fuel (subs_of ws) q app = Some app' ->
  exists m1 m2 m3, run_watches (module_event_manager_load (em_static app)) ws = Ret m1 /\ dispatch_all m1 es = Ret m2 /\
    agEvent_schedule call fuel m2 = Ret m3 /\ em_app m3 = app' /\ queue_ok m3 [].
Proof.
  intros Hok Hnd Hquiet Hd Hsp.
  destruct (run_watches_spec ws _ _ (load_lists_ok app) Hok Hnd) as (m1 & lists & Hr1 & Hlo & Hb1 & Ha1 & Hs).
  { intros w _ Hin. rewrite concat_repeat_nil in Hin. inversion Hin. }
  assert (Hq1 : queue_ok m1 []) by (unfold queue_ok; now rewrite Hb1).
  destruct (dispatch_all_spec es m1 [] q Hq1 Hd) as (m2 & Hr2 & Hq2 & Hsame & Ha2).
  assert (Hsub : subscribed m2 (subs_of ws)).
  { apply (subscribed_same m1 m2 _ Hsame). exists lists. split; [exact Hlo|]. intros i l Hl.
    pose proof Hlo as [[_ Hlen] _ _ _]. pose proof (lookup_lt_Some _ _ _ Hl).
    destruct (Hs i []) as (l' & Hl' & Hsl).
    { apply lookup_repeat_lt. lia. }
    rewrite Hl in Hl'. injection Hl' as <-. now rewrite Hsl. }
  unfold agEvent_schedule. exists m1, m2.
  destruct (eventBuffer m2) as [b|] eqn:Hb2.
  - destruct (schedule_loop_spec (subs_of ws) fuel m2 q app' Hsub Hquiet) as (m3 & Hr3 & Ha3 & Hq3 & _);
      [eauto|exact Hq2|eapply spec_dispatch_all_valid; [apply list.Forall_nil_2|exact Hd]|rewrite Ha2, Ha1; exact Hsp|].
    exists m3. auto.
  - unfold queue_ok in Hq2. rewrite Hb2 in Hq2. subst q.
    assert (app = app') as <- by (destruct fuel; cbn in Hsp; congruence).
    exists m2. split; [exact Hr1|]. split; [exact Hr2|]. split; [reflexivity|]. split; [now rewrite Ha2, Ha1|].
    unfold queue_ok. now rewrite Hb2.
Qed.
End Schedule.

(** ** Concrete callbacks *)

(** Callbacks that log the call; callback 2 also dispatches the event 2 when it sees the event 1. *)
Definition log_call (cb id : Z) (param : list Z) (ctx : Z) (app : list (Z * Z * list Z))
    : list (Z * Z * list Z) * list event :=
  (app ++ [(ctx, id, param)], if (cb =? 2) && (id =? 1) then [(2, [9])] else []).

Lemma events_delivered_fifo_witness :
  exists m1 m2 m3, run_watches (module_event_manager_load (em_static []))
      [mk_watch 16 1 1 100; mk_watch 32 1 2 200; mk_watch 48 2 1 300] = Ret m1 /\
    dispatch_all m1 [(1, [5; 6]); (2, [7])] = Ret m2 /\
    agEvent_schedule log_call 3 m2 = Ret m3 /\
    em_app m3 = [(100, 1, [5; 6]); (200, 1, [5; 6]); (300, 2, [7]); (300, 2, [9])] /\ queue_ok m3 [].
Proof.
  apply (events_delivered_fifo log_call [mk_watch 16 1 1 100; mk_watch 32 1 2 200; mk_watch 48 2 1 300]
    [(1, [5; 6]); (2, [7])] [] [(100, 1, [5; 6]); (200, 1, [5; 6]); (300, 2, [7]); (300, 2, [9])] 3 [(1, [5; 6]); (2, [7])]).
  - repeat apply list.Forall_cons_2; try apply list.Forall_nil_2; unfold watch_ok, MAX_EVENT_ID; cbn; lia.
  - cbn. apply (bool_decide_unpack _). vm_compute. exact I.
  - intros id cb ctx Hin p1 p2 p3. unfold log_call. cbn [snd]. unfold subs_of in Hin. cbn [List.filter wc_id] in Hin.
    destruct (Z.eqb_spec 1 id); destruct (Z.eqb_spec 2 id); try lia; cbn in Hin;
      repeat (apply elem_of_cons in Hin as [Hin|Hin]; [injection Hin as -> ->; reflexivity|]); inversion Hin.
  - reflexivity.
  - reflexivity.
Defined.

(** Watchers 1 and 2 watch the event 1, and the first one (callback 2) dispatches the event 2. *)
Definition overwrite_run : outcome (list (Z * Z * list Z)) :=
  m ← run_watches (module_event_manager_load (em_static [])) [mk_watch 16 1 2 100; mk_watch 32 1 1 200];
  m ← dispatch_all m [(1, [5])];
  m ← agEvent_schedule log_call 2 m;
  Ret (em_app m).

(** The parameter a callback gets lies in the event buffer, so an event dispatched by one watcher
    overwrites it for the next watcher of the same event: here the first watcher gets the dispatched
    byte 5, and the second one, for the same event, the byte 9 of the event the first one
    dispatched. *)
Theorem event_param_overwritten : overwrite_run = Ret [(100, 1, [5]); (200, 1, [9])].
Proof. vm_compute. reflexivity. Qed.

(** [alloc_watcher] does not take the watcher it returns off the free list: after a release two
    allocations answer the same structure. *)
Theorem alloc_watcher_reissues :
  exists m1 m2 m3 w, release_watcher (mk_em {[16 := mk_watcher 0 1 2]} 0 [] None tt) 16 = Ret m1 /\
    alloc_watcher m1 32 = Ret (m2, w) /\ alloc_watcher m2 48 = Ret (m3, w).
Proof. eexists _, _, _, _. split; [vm_compute; reflexivity|]. split; vm_compute; reflexivity. Qed.
