(* ===== verification/WorldBackend.v ===== *)
(** * The world server's backends: [world/backend.c]

    The backends the world server sends to, by name.  A backend is connected when it is first asked
    for, and again after its connection was closed.  The network behind them is reduced to what it
    answers: [agN_connect] and [agN_writev] of [framework/network.c] (the module [Network]) answer what
    the environment says, any answers at all, and what was written is recorded.  The table of the backends, a
    map with strings as keys, is the finite map that [AgMap] shows it to be.  The fields [sn] and
    [serverid] of the header are never set by [backend_send]: they hold what the stack held. *)
From stdpp Require Import strings.
From S2P Require Import Prelude Lrm Package.

(** [struct Backend] *)
Record Backend := mk_backend {
  bk_min : Z; bk_max : Z; bk_id : Z; bk_name : string; bk_host : string; bk_port : Z; bk_timeout : Z;
  bk_conn : Z; bk_reconnected : bool }.

(** The answers of the network to the calls still to come, what the stack holds at each of them, and
    what was written so far. *)
Record world_net := mk_wnet {
  wn_calls : nat; wn_connects : nat -> Z; wn_writes : nat -> Z; wn_stack : nat -> Z * Z;
  wn_written : list (Z * list (list Z)) }.

(** The variables of the file and the network. *)
Record backends := mk_backends { bk_all : gmap string Backend; bk_net : world_net; port_base : Z }.

Definition agN_connect (net : world_net) : world_net * Z :=
  (mk_wnet (S (wn_calls net)) (wn_connects net) (wn_writes net) (wn_stack net) (wn_written net),
   wn_connects net (wn_calls net)).
Definition agN_writev (net : world_net) (conn : Z) (iov : list (list Z)) : world_net * Z :=
  (mk_wnet (S (wn_calls net)) (wn_connects net) (wn_writes net) (wn_stack net) (wn_written net ++ [(conn, iov)]),
   wn_writes net (wn_calls net)).

Definition with_conn (b : Backend) (conn : Z) (reconnected : bool) : Backend :=
  mk_backend (bk_min b) (bk_max b) (bk_id b) (bk_name b) (bk_host b) (bk_port b) (bk_timeout b) conn reconnected.

(** The assignment [backend->conn = agN_connect(...)]. *)
Definition connect_to (bs : backends) (name : string) (b : Backend) : backends * Backend :=
  let '(net, c) := agN_connect (bk_net bs) in
  let b := with_conn b c (bk_reconnected b) in
  (mk_backends (<[name := b]> (bk_all bs)) net (port_base bs), b).

Definition backend_get (bs : backends) (name : string) (pid : Z) : backends * option Backend :=
  match bk_all bs !! name with
  | Some b =>
    if bk_conn b =? INVALID_ID then let '(bs, b) := connect_to bs name b in (bs, Some b) else (bs, Some b)
  | None => (bs, None)
  end.

Definition backend_connect (bs : backends) (name : string) : backends :=
  match bk_all bs !! name with
  | Some b => if bk_conn b =? INVALID_ID then fst (connect_to bs name b) else bs
  | None => bs
  end.

(** [reconnect_backend] on the element [name] of the table. *)
Definition reconnect_backend (bs : backends) (name : string) : backends :=
  match bk_all bs !! name with
  | Some b => if (bk_conn b =? INVALID_ID) && bk_reconnected b then fst (connect_to bs name b) else bs
  | None => bs
  end.

(** [on_closed] for the backend [name]. *)
Definition on_closed (bs : backends) (name : string) (c : Z) : outcome backends :=
  peer ← deref (bk_all bs !! name);
  _ ← c_assert (c =? bk_conn peer);
  Ret (mk_backends (<[name := with_conn peer INVALID_ID true]> (bk_all bs)) (bk_net bs) (port_base bs)).

(** [strcpy] to an array of 256 bytes. *)
Definition strcpy256 (s : string) : outcome string := if (String.length s <? 256)%nat then Ret s else Undef.

Definition backend_new (bs : backends) (name : string) (id : Z) (host : option string) (port timeout : Z)
    : outcome (backends * option Backend) :=
  match bk_all bs !! name with
  | Some _ => Ret (bs, None)
  | None =>
    h ← strcpy256 (default "localhost"%string host);
    n ← strcpy256 name;
    let b := mk_backend 0 0 0 n h (if port =? 0 then i32 (port_base bs + id) else port)
               (if timeout =? 0 then 5 else timeout) INVALID_ID false in
    Ret (backend_get (mk_backends (<[name := b]> (bk_all bs)) (bk_net bs) (port_base bs)) name 0)
  end.

(** The [iovec]s of [backend_send]; [sn] and [sid] are the uninitialised fields. *)
Definition backend_iov (sn sid channel cmd flag : Z) (msg : list Z) : list (list Z) :=
  let theader := mk_translate_header (htonl (sizeof_translate_header + zlen msg)) sn (htonl channel)
                   (htonl flag) (htonl cmd) sid in
  [translate_header_bytes theader; msg].

Definition backend_send (bs : backends) (peer : Backend) (channel cmd flag : Z) (msg : list Z) : backends * Z :=
  let '(sn, sid) := wn_stack (bk_net bs) (wn_calls (bk_net bs)) in
  let '(net, r) := agN_writev (bk_net bs) (bk_conn peer) (backend_iov sn sid channel cmd flag msg) in
  (mk_backends (bk_all bs) net (port_base bs), r).

Definition backend_avalible (b : Backend) : bool := negb (bk_conn b =? INVALID_ID).
Definition backend_get_id (b : Backend) : Z := bk_id b.
Definition backend_get_name (b : Backend) : string := bk_name b.

(** ** What asking for a backend does *)

(** The backends asked for and sent to stay the same ones, and the network keeps its answers. *)
Definition same_backends (bs bs' : backends) : Prop :=
  (forall name, is_Some (bk_all bs' !! name) <-> is_Some (bk_all bs !! name)) /\
  wn_writes (bk_net bs') = wn_writes (bk_net bs).

Lemma same_backends_refl bs : same_backends bs bs.
Proof. split; reflexivity. Qed.
Lemma same_backends_trans a b c : same_backends a b -> same_backends b c -> same_backends a c.
Proof. intros [H1 H2] [H3 H4]. split; [intros n; now rewrite H3|congruence]. Qed.

Lemma backend_get_spec bs name pid :
  same_backends bs (fst (backend_get bs name pid)) /\
  (is_Some (snd (backend_get bs name pid)) <-> is_Some (bk_all bs !! name)).
Proof.
  unfold backend_get. destruct (bk_all bs !! name) as [b|] eqn:E; [|split; [apply same_backends_refl|reflexivity]].
  destruct (bk_conn b =? INVALID_ID); cbn [connect_to agN_connect fst snd]; (split; [|split; eauto]);
    [|apply same_backends_refl]. split; [|reflexivity]. intros n. cbn [bk_all].
  destruct (decide (n = name)) as [->|]; [rewrite lookup_insert_eq, E; split; eauto|now rewrite lookup_insert_ne].
Qed.

Lemma backend_send_spec bs b channel cmd flag msg :
  same_backends bs (fst (backend_send bs b channel cmd flag msg)) /\
  exists k, snd (backend_send bs b channel cmd flag msg) = wn_writes (bk_net bs) k.
Proof.
  unfold backend_send. destruct (wn_stack _ _) as [sn sid]. cbn [agN_writev fst snd bk_all bk_net].
  split; [split; reflexivity|eauto].
Qed.
