(* ===== verification/NotifyCount.v ===== *)
(** * Counts for the backends: the table [nb_list] of [world/notify.c]

    What players do is counted by event and told to the backend in one message per event, when nothing
    more has been counted for a player during three seconds or when the table of a hundred players is
    full.  A pointer into the array [nb_list.player] is the index plus one.  Messages are sent through
    [world/backend.c] (the module [WorldBackend]); the functions return one notice per message and
    backend, which says whether there was such a backend and what the network answered.  The bytes of
    a message are built by the protobuf library, the class [Pbc]. *)
From stdpp Require Import strings.
From S2P Require Import Prelude AgMap Lrm WorldBackend.

Definition NB_COUNT : Z := 100.
Definition NB_DELAY : Z := 3.
Definition NB_PLAYER_MIN : Z := 4.
Definition NB_PLAYER_MAX : Z := 24.

(** [pbc_wmessage_buffer] of a message of the named type with the given integer fields. *)
Class Pbc := pbc_buffer : string -> list (string * Z) -> list Z.

Definition nb_backend : list string := ["ADSupport"%string].

(** [struct nb_player] and [nb_list], with the backends of [world/backend.c] it sends to *)
Record nb_player := mk_nb { nb_pid : Z; nb_time : Z; nb_value : list Z }.
Record nb_list (M : Type) := mk_nbl { nb_map : M; nb_used : Z; nb_slots : list nb_player; nb_bs : backends }.
Arguments mk_nbl {M} _ _ _ _.
Arguments nb_map {M} _.
Arguments nb_used {M} _.
Arguments nb_slots {M} _.
Arguments nb_bs {M} _.

Definition nb_zero : nb_player := mk_nb 0 0 (repeat 0 (Z.to_nat (NB_PLAYER_MAX + 1))).
Definition nb_slot (i : Z) : Z := i + 1.

(** A message: the lower half of the player's id, the event, the value. *)
Definition coucn_event : Type := (Z * Z * Z).

(** A message for a backend; [cn_answer] is null when there is no such backend, and otherwise what
    [backend_send] returned. *)
Record count_notice := mk_cn { cn_event : coucn_event; cn_backend : string; cn_answer : option Z }.

Section Operations.
Context {M : Type} `{PtrMap M} {pbc : Pbc}.

(** The loop that asks for every backend once. *)
Definition connect_backends (bs : backends) : backends :=
  foldl (fun bs name => fst (backend_get bs name 0)) bs nb_backend.

Definition _nb_init (m : M) (bs : backends) : nb_list M :=
  mk_nbl m 0 (repeat nb_zero (Z.to_nat NB_COUNT)) (connect_backends bs).

Definition _nb_get (nb : nb_list M) (pid : Z) : outcome (nb_list M * Z) :=
  player ← pm_get (nb_map nb) pid;
  if negb (player =? 0) then Ret (nb, player)
  else if nb_used nb <? NB_COUNT then
    let i := nb_used nb in
    v ← deref (nb_slots nb !! Z.to_nat i);
    '(m, _) ← pm_set (nb_map nb) pid (nb_slot i);
    Ret (mk_nbl m (i + 1) (<[Z.to_nat i := mk_nb pid (nb_time v) (nb_value v)]> (nb_slots nb)) (nb_bs nb), nb_slot i)
  else Ret (nb, 0).

(** The loop over the names of the backends: the message [e] goes to each one there is. *)
Fixpoint nb_send (names : list string) (bs : backends) (e : coucn_event) : backends * list count_notice :=
  match names with
  | [] => (bs, [])
  | name :: names' =>
    let '(bs, backend) := backend_get bs name 0 in
    let '(bs, n) := match backend with
      | Some b =>
        let '(pid, i, x) := e in
        let msg := pbc_buffer "NotifyADSupportEventRequest" [("pid", pid); ("eventid", i); ("value", x)]%string in
        let '(bs, r) := backend_send bs b 0 14006 2 msg in (bs, mk_cn e name (Some r))
      | None => (bs, mk_cn e name None)
      end in
    let '(bs, ns) := nb_send names' bs e in (bs, n :: ns)
  end.

(** The loop over the events of a player, [n] of them from [i] on. *)
Fixpoint nb_messages (n : nat) (bs : backends) (v : nb_player) (i : Z) : outcome (backends * list count_notice) :=
  match n with
  | O => Ret (bs, [])
  | S n' =>
    x ← deref (nb_value v !! Z.to_nat i);
    let '(bs, ns) := if 0 <? x then nb_send nb_backend bs (u32 (nb_pid v), i, x) else (bs, []) in
    '(bs, ns') ← nb_messages n' bs v (i + 1);
    Ret (bs, ns ++ ns')
  end.

Definition nb_flush (bs : backends) (v : nb_player) : outcome (backends * list count_notice) :=
  nb_messages (Z.to_nat (NB_PLAYER_MAX - NB_PLAYER_MIN + 1)) bs v NB_PLAYER_MIN.

(** The loop over the players, [n] of them from [i] on. *)
Fixpoint nb_clean_loop (n : nat) (nb : nb_list M) (i : Z) (force : bool) (dead_line : Z)
    : outcome (nb_list M * list count_notice) :=
  match n with
  | O => Ret (nb, [])
  | S n' =>
    player ← deref (nb_slots nb !! Z.to_nat i);
    '(nb, es) ← (if force || (nb_time player <=? dead_line) then
        '(m, _) ← pm_set (nb_map nb) (nb_pid player) 0;
        '(bs, es) ← nb_flush (nb_bs nb) player;
        Ret (mk_nbl m (nb_used nb) (<[Z.to_nat i := nb_zero]> (nb_slots nb)) bs, es)
      else
        let j := nb_used nb in
        _ ← c_assert (j <=? i);
        if negb (j =? i) then
          '(m, _) ← pm_set (nb_map nb) (nb_pid player) (nb_slot j);
          Ret (mk_nbl m (j + 1) (<[Z.to_nat i := nb_zero]> (<[Z.to_nat j := player]> (nb_slots nb))) (nb_bs nb), [])
        else Ret (mk_nbl (nb_map nb) (j + 1) (nb_slots nb) (nb_bs nb), []));
    '(nb, es') ← nb_clean_loop n' nb (i + 1) force dead_line;
    Ret (nb, es ++ es')
  end.

Definition _nb_clean (nb : nb_list M) (force : bool) (now : Z) : outcome (nb_list M * list count_notice) :=
  nb_clean_loop (Z.to_nat (nb_used nb)) (mk_nbl (nb_map nb) 0 (nb_slots nb) (nb_bs nb)) 0 force (now - NB_DELAY).

Definition notification_backend (nb : nb_list M) (pid type value now : Z) : outcome (nb_list M * list count_notice) :=
  if (type <? NB_PLAYER_MIN) || (NB_PLAYER_MAX <? type) then Ret (nb, [])
  else
    '(nb, player) ← _nb_get nb pid;
    '(nb, player, es) ← (if player =? 0 then
        '(nb, es) ← _nb_clean nb true now;
        '(nb, player) ← _nb_get nb pid;
        Ret (nb, player, es)
      else Ret (nb, player, []));
    if player =? 0 then Undef
    else
      let i := Z.to_nat (player - 1) in
      v ← deref (nb_slots nb !! i);
      x ← deref (nb_value v !! Z.to_nat type);
      Ret (mk_nbl (nb_map nb) (nb_used nb)
             (<[i := mk_nb (nb_pid v) now (<[Z.to_nat type := u32 (x + value)]> (nb_value v))]> (nb_slots nb)) (nb_bs nb), es).

Definition notification_record_count (nb : nb_list M) (playerid event count now : Z)
    : outcome (nb_list M * list count_notice) :=
  notification_backend nb playerid event count now.
End Operations.

(** ** The abstract table: the players counted for, in the order of the array *)

Definition counting (force : bool) (dead_line : Z) (v : nb_player) : bool := negb (force || (nb_time v <=? dead_line)).
Definition count_range : list Z := seqZ NB_PLAYER_MIN (NB_PLAYER_MAX - NB_PLAYER_MIN + 1).
Definition value_of (v : nb_player) (e : Z) : Z := default 0 (nb_value v !! Z.to_nat e).
Definition event_of (v : nb_player) (e : Z) : option coucn_event :=
  if 0 <? value_of v e then Some (u32 (nb_pid v), e, value_of v e) else None.
Definition messages_of (v : nb_player) : list coucn_event := omap (event_of v) count_range.
Definition flushed (force : bool) (dead_line : Z) (l : list nb_player) : list coucn_event :=
  concat (map messages_of (filter (fun v => counting force dead_line v = false) l)).
Definition kept (force : bool) (dead_line : Z) (l : list nb_player) : list nb_player :=
  filter (fun v => counting force dead_line v = true) l.
(** Messages sent one after another. *)
Fixpoint deliver `{Pbc} (bs : backends) (es : list coucn_event) : backends * list count_notice :=
  match es with
  | [] => (bs, [])
  | e :: es' =>
    let '(bs, ns) := nb_send nb_backend bs e in
    let '(bs, ns') := deliver bs es' in (bs, ns ++ ns')
  end.

Lemma deliver_app `{Pbc} es : forall bs es',
  deliver bs (es ++ es') =
  (fst (deliver (fst (deliver bs es)) es'), snd (deliver bs es) ++ snd (deliver (fst (deliver bs es)) es')).
Proof.
  induction es as [|e es IH]; intros bs es'; cbn [deliver app fst snd]; [now destruct (deliver bs es')|].
  destruct (nb_send _ bs e) as [bs1 ns]. rewrite IH. destruct (deliver bs1 es) as [bs2 ns2]. cbn [fst snd].
  now rewrite app_assoc.
Qed.

Definition player_shape (v : nb_player) : Prop := length (nb_value v) = 25%nat /\ Forall (fun x => 0 <= x < 2 ^ 32) (nb_value v).

Section Theorems.
Context {M : Type} `{PtrMapLaws M} {pbc : Pbc}.

(** The map finds the players at their index. *)
Record nb_rep (nb : nb_list M) (l : list nb_player) : Prop := {
  nr_slots : exists r, nb_slots nb = l ++ r /\ Forall (eq nb_zero) r /\ length (nb_slots nb) = 100%nat;
  nr_used : nb_used nb = zlen l;
  nr_shape : Forall player_shape l;
  nr_nodup : NoDup (map nb_pid l);
  nr_map : pm_ok (nb_map nb);
  nr_find : forall pid p, pm_abs (nb_map nb) !! pid = Some p <->
    exists i v, l !! i = Some v /\ nb_pid v = pid /\ p = nb_slot (Z.of_nat i) }.

Lemma zero_shape : player_shape nb_zero.
Proof. split; [reflexivity|]. cbn. repeat constructor; lia. Qed.

(** *** The messages of a player *)

Lemma nb_messages_spec v n : forall bs i, length (nb_value v) = 25%nat -> 0 <= i -> i + Z.of_nat n <= 25 ->
  nb_messages n bs v i = Ret (deliver bs (omap (event_of v) (seqZ i (Z.of_nat n)))).
Proof.
  induction n as [|n IH]; intros bs i Hl Hi Hn; cbn [nb_messages].
  - now rewrite seqZ_nil by lia.
  - rewrite seqZ_cons by lia. destruct (nb_value v !! Z.to_nat i) as [x|] eqn:E.
    2:{ apply lookup_ge_None_1 in E. lia. }
    cbn [deref mbind outcome_bind].
    assert (Hv : event_of v i = if 0 <? x then Some (u32 (nb_pid v), i, x) else None) by (unfold event_of, value_of; now rewrite E).
    cbn [omap list_omap]. rewrite Hv. destruct (0 <? x); cbn [deliver]; [destruct (nb_send _ bs _) as [bs1 ns]|];
      rewrite IH by lia; replace (Z.pred (Z.of_nat (S n))) with (Z.of_nat n) by lia; unfold Z.succ;
      destruct (deliver _ _); reflexivity.
Qed.

Lemma nb_flush_spec bs v : player_shape v -> nb_flush bs v = Ret (deliver bs (messages_of v)).
Proof. intros [Hl _]. unfold nb_flush. now rewrite nb_messages_spec by (rewrite ?Hl; unfold NB_PLAYER_MIN, NB_PLAYER_MAX; lia). Qed.

(** *** Cleaning *)

(** The map finds the players [K] from the index 0 and the players [R] from the index [i] on. *)
Definition finds (g : gmap Z Z) (K R : list nb_player) (i : nat) : Prop :=
  forall pid p, g !! pid = Some p <->
    (exists k v, K !! k = Some v /\ nb_pid v = pid /\ p = nb_slot (Z.of_nat k)) \/
    (exists k v, R !! k = Some v /\ nb_pid v = pid /\ p = nb_slot (Z.of_nat (i + k))).

Lemma finds_size g K R i : finds g K R i -> (size g <= length K + length R)%nat.
Proof.
  intros Hg. rewrite <- length_app, <- (length_map nb_pid). apply size_keys. intros k a Ha.
  apply list_elem_of_fmap. apply Hg in Ha as [(j & v & Hv & <- & _)|(j & v & Hv & <- & _)]; exists v; (split; [reflexivity|]);
    apply elem_of_app; [left|right]; eapply list_elem_of_lookup_2; eassumption.
Qed.

Lemma pid_absent l k v pid : l !! k = Some v -> nb_pid v = pid -> pid ∈ map nb_pid l.
Proof. intros Hv <-. apply list_elem_of_fmap. exists v. split; [reflexivity|]. eapply list_elem_of_lookup_2; eassumption. Qed.

(** The first of the players [R] is dropped. *)
Lemma finds_drop g K v R i : finds g K (v :: R) i -> NoDup (map nb_pid (K ++ v :: R)) ->
  finds (delete (nb_pid v) g) K R (S i).
Proof.
  intros Hg Hnd pid p. rewrite map_app in Hnd. apply list.NoDup_app in Hnd as (_ & Hd & Hnd). cbn in Hnd.
  apply list.NoDup_cons in Hnd as [Hv _].
  rewrite lookup_delete_Some, (Hg pid p). split.
  - intros [Hne [H1|([|k] & w & Hw & Hp & ->)]]; [now left| |].
    + injection Hw as <-. contradiction.
    + right. exists k, w. repeat split; [exact Hw|exact Hp|]. f_equal. lia.
  - intros [(k & w & Hw & Hp & ->)|(k & w & Hw & Hp & ->)].
    + split; [|left; eauto 10]. intros <-. apply (Hd (nb_pid v)); [|left]. rewrite <- Hp. eapply pid_absent; eauto.
    + split; [|right; exists (S k), w; repeat split; [exact Hw|exact Hp|f_equal; lia]].
      intros <-. apply Hv. eapply pid_absent; eassumption.
Qed.

(** The first of the players [R] becomes the last of [K]. *)
Lemma finds_keep g K v R i : finds g K (v :: R) i -> NoDup (map nb_pid (K ++ v :: R)) ->
  finds (<[nb_pid v := nb_slot (zlen K)]> g) (K ++ [v]) R (S i).
Proof.
  intros Hg Hnd pid p. rewrite map_app in Hnd. apply list.NoDup_app in Hnd as (_ & Hd & Hnd). cbn in Hnd.
  apply list.NoDup_cons in Hnd as [Hv _].
  rewrite lookup_insert_Some, (Hg pid p). split.
  - intros [[<- <-]|[Hne [(k & w & Hw & Hp & ->)|([|k] & w & Hw & Hp & ->)]]].
    + left. exists (length K), v. rewrite lookup_app_r, Nat.sub_diag by lia. repeat split.
    + left. exists k, w. rewrite lookup_app_l by (eapply lookup_lt_Some; eassumption). auto.
    + injection Hw as <-. contradiction.
    + right. exists k, w. repeat split; [exact Hw|exact Hp|f_equal; lia].
  - intros [(k & w & Hw & Hp & ->)|(k & w & Hw & Hp & ->)].
    + apply lookup_app_Some in Hw as [Hw|[Hk Hw]].
      * right. split; [|left; eauto 10]. intros <-. apply (Hd (nb_pid v)); [|left]. rewrite <- Hp. eapply pid_absent; eauto.
      * apply list_lookup_singleton_Some in Hw as [Hk' ->]. left. split; [exact Hp|]. unfold zlen. f_equal. lia.
    + right. split; [|right; exists (S k), w; repeat split; [exact Hw|exact Hp|f_equal; lia]].
      intros <-. apply Hv. eapply pid_absent; eassumption.
Qed.

Lemma finds_same g K v R : finds g K (v :: R) (length K) -> finds g (K ++ [v]) R (S (length K)).
Proof.
  intros Hg pid p. rewrite (Hg pid p). split.
  - intros [(k & w & Hw & Hp & ->)|([|k] & w & Hw & Hp & ->)].
    + left. exists k, w. rewrite lookup_app_l by (eapply lookup_lt_Some; eassumption). auto.
    + injection Hw as <-. left. exists (length K), v. rewrite lookup_app_r, Nat.sub_diag by lia. repeat split; [exact Hp|]. f_equal. lia.
    + right. exists k, w. repeat split; [exact Hw|exact Hp|f_equal; lia].
  - intros [(k & w & Hw & Hp & ->)|(k & w & Hw & Hp & ->)].
    + apply lookup_app_Some in Hw as [Hw|[Hk Hw]]; [left; eauto 10|]. apply list_lookup_singleton_Some in Hw as [Hk' ->].
      right. exists 0%nat, w. repeat split; [exact Hp|]. f_equal. lia.
    + right. exists (S k), w. repeat split; [exact Hw|exact Hp|f_equal; lia].
Qed.

Lemma kept_cons force dl v R : kept force dl (v :: R) = (if counting force dl v then [v] else []) ++ kept force dl R.
Proof. unfold kept. destruct (counting force dl v) eqn:E; [now rewrite list.filter_cons_True|now rewrite list.filter_cons_False by congruence]. Qed.
Lemma flushed_cons force dl v R :
  flushed force dl (v :: R) = (if counting force dl v then [] else messages_of v) ++ flushed force dl R.
Proof. unfold flushed. destruct (counting force dl v) eqn:E; [now rewrite list.filter_cons_False by congruence|now rewrite list.filter_cons_True]. Qed.

Lemma clean_loop_spec force dl R : forall K Zs T nb,
  nb_slots nb = K ++ Zs ++ R ++ T -> Forall (eq nb_zero) Zs -> nb_used nb = zlen K -> pm_ok (nb_map nb) ->
  finds (pm_abs (nb_map nb)) K R (length K + length Zs) -> NoDup (map nb_pid (K ++ R)) -> Forall player_shape R ->
  zlen (nb_slots nb) < 2 ^ 61 ->
  exists nb' Zs', nb_clean_loop (length R) nb (zlen K + zlen Zs) force dl =
      Ret (nb', snd (deliver (nb_bs nb) (flushed force dl R))) /\
    nb_bs nb' = fst (deliver (nb_bs nb) (flushed force dl R)) /\
    nb_slots nb' = K ++ kept force dl R ++ Zs' ++ T /\ Forall (eq nb_zero) Zs' /\
    length (nb_slots nb') = length (nb_slots nb) /\ nb_used nb' = zlen (K ++ kept force dl R) /\
    pm_ok (nb_map nb') /\ finds (pm_abs (nb_map nb')) (K ++ kept force dl R) [] 0.
Proof.
  induction R as [|v R IH]; intros K Zs T nb Hs HZ Hu Hm Hg Hnd Hsh Hroom; cbn [nb_clean_loop length].
  - exists nb, Zs. split; [reflexivity|]. cbn [kept filter list_filter app]. rewrite app_nil_r. cbn in Hs.
    repeat (split; [assumption || reflexivity|]). intros pid p. rewrite (Hg pid p). split; (intros [Hx|(k & w & Hw & _)]; [now left|]);
      now rewrite lookup_nil in Hw.
  - apply list.Forall_cons in Hsh as [Hv Hsh].
    assert (Hroom' : Z.of_nat (size (pm_abs (nb_map nb))) < 2 ^ 61).
    { apply finds_size in Hg. revert Hroom. rewrite Hs. autorewrite with cserver. unfold zlen. cbn [length] in *. lia. }
    assert (Hat : nb_slots nb !! Z.to_nat (zlen K + zlen Zs) = Some v).
    { rewrite Hs, !assoc_L by apply _. replace (Z.to_nat (zlen K + zlen Zs)) with (length (K ++ Zs)) by (rewrite length_app; unfold zlen; lia).
      rewrite <- assoc_L by apply _. rewrite lookup_app_r, Nat.sub_diag by lia. reflexivity. }
    rewrite Hat. cbn [deref mbind outcome_bind].
    rewrite kept_cons, flushed_cons. destruct (force || (nb_time v <=? dl)) eqn:Ef.
    + assert (counting force dl v = false) as -> by (unfold counting; now rewrite Ef).
      destruct (pm_set_spec (nb_map nb) (nb_pid v) 0 Hm Hroom') as (m & Em & Hm1 & Ha). rewrite Em. cbn [mbind outcome_bind].
      rewrite nb_flush_spec by assumption. rewrite deliver_app.
      destruct (deliver (nb_bs nb) (messages_of v)) as [bs1 ns1]. cbn [mbind outcome_bind fst snd].
      edestruct (IH K (Zs ++ [nb_zero]) T (mk_nbl m (nb_used nb) (<[Z.to_nat (zlen K + zlen Zs) := nb_zero]> (nb_slots nb)) bs1))
        as (nb' & Zs' & E & Hbs & Hs' & HZ' & Hlen & Hrest).
      * cbn [nb_slots]. rewrite Hs, !assoc_L by apply _.
        replace (Z.to_nat (zlen K + zlen Zs)) with (length (K ++ Zs)) by (rewrite length_app; unfold zlen; lia).
        rewrite <- !assoc_L by apply _. rewrite (assoc_L app K Zs). rewrite insert_app_r_alt, Nat.sub_diag by lia. cbn [app].
        now rewrite <- !assoc_L by apply _.
      * apply list.Forall_app. split; [exact HZ|]. now constructor.
      * exact Hu.
      * exact Hm1.
      * cbn [nb_map]. rewrite Ha. cbn [Z.eqb]. rewrite length_app. cbn [length]. rewrite Nat.add_1_r, Nat.add_succ_r.
        now apply finds_drop.
      * rewrite map_app in *. apply list.NoDup_app in Hnd as (H1 & H2 & H3). cbn in H3. apply list.NoDup_cons in H3 as [_ H3].
        apply list.NoDup_app. split; [exact H1|]. split; [|exact H3]. intros x Hx Hx'. apply (H2 x Hx). now right.
      * exact Hsh.
      * cbn [nb_slots]. unfold zlen. rewrite length_insert. exact Hroom.
      * exists nb', Zs'. autorewrite with cserver in E. cbn [zlen length] in E.
        replace (zlen K + zlen Zs + 1) with (zlen K + (zlen Zs + (1 + 0))) by lia. rewrite E. cbn [mbind outcome_bind app].
        split; [reflexivity|]. split; [exact Hbs|]. split; [exact Hs'|]. split; [exact HZ'|]. split; [|exact Hrest].
        rewrite Hlen. cbn [nb_slots]. apply length_insert.
    + assert (counting force dl v = true) as -> by (unfold counting; now rewrite Ef).
      rewrite Hu. destruct (Z.leb_spec (zlen K) (zlen K + zlen Zs)) as [_|Hlt]; [|pose proof (zlen_nonneg Zs); lia].
      cbn [c_assert mbind outcome_bind].
      assert (Hcont : forall nb1 Zs1,
        nb_slots nb1 = (K ++ [v]) ++ Zs1 ++ R ++ T -> Forall (eq nb_zero) Zs1 -> nb_used nb1 = zlen (K ++ [v]) ->
        length Zs1 = length Zs -> length (nb_slots nb1) = length (nb_slots nb) ->
        pm_ok (nb_map nb1) -> finds (pm_abs (nb_map nb1)) (K ++ [v]) R (S (length K + length Zs)) -> nb_bs nb1 = nb_bs nb ->
        exists nb' Zs', ('(nb0, es') ← nb_clean_loop (length R) nb1 (zlen K + zlen Zs + 1) force dl; Ret (nb0, [] ++ es')) =
            Ret (nb', snd (deliver (nb_bs nb) ([] ++ flushed force dl R))) /\
          nb_bs nb' = fst (deliver (nb_bs nb) ([] ++ flushed force dl R)) /\
          nb_slots nb' = K ++ ([v] ++ kept force dl R) ++ Zs' ++ T /\ Forall (eq nb_zero) Zs' /\
          length (nb_slots nb') = length (nb_slots nb) /\ nb_used nb' = zlen (K ++ [v] ++ kept force dl R) /\
          pm_ok (nb_map nb') /\ finds (pm_abs (nb_map nb')) (K ++ [v] ++ kept force dl R) [] 0).
      { intros nb1 Zs1 Hs1 HZ1 Hu1 Hl1 Hl2 Hm1 Hg1 Hb1.
        edestruct (IH (K ++ [v]) Zs1 T nb1 Hs1 HZ1 Hu1 Hm1) as (nb' & Zs' & E & Hbs & Hs' & HZ' & Hlen & Hu' & Hm' & Hg').
        - rewrite length_app, Hl1. cbn [length]. replace (length K + 1 + length Zs)%nat with (S (length K + length Zs)) by lia. exact Hg1.
        - now rewrite <- assoc_L by apply _.
        - exact Hsh.
        - unfold zlen. rewrite Hl2. exact Hroom.
        - exists nb', Zs'. autorewrite with cserver in E. change (zlen Zs1) with (Z.of_nat (length Zs1)) in E. rewrite Hl1 in E.
          replace (zlen K + zlen Zs + 1) with (zlen K + (1 + 0) + Z.of_nat (length Zs)) by (unfold zlen; lia).
          rewrite E. cbn [mbind outcome_bind]. change ([] ++ flushed force dl R) with (flushed force dl R).
          rewrite Hb1 in *. split; [reflexivity|]. split; [exact Hbs|]. rewrite <- !assoc_L in Hs', Hu', Hg' by apply _.
          rewrite <- !assoc_L by apply _. rewrite Hlen, Hl2. split; [exact Hs'|]. split; [exact HZ'|]. split; [reflexivity|]. split; [exact Hu'|]. split; [exact Hm'|]. exact Hg'. }
      destruct Zs as [|z Zs].
      * rewrite zlen_nil, Z.add_0_r, Z.eqb_refl. cbn [negb mbind outcome_bind]. rewrite zlen_nil, Z.add_0_r in Hcont.
        apply (Hcont _ []); cbn [nb_slots nb_used nb_map].
        -- rewrite Hs. now rewrite <- assoc_L by apply _.
        -- constructor.
        -- autorewrite with cserver. reflexivity.
        -- reflexivity.
        -- reflexivity.
        -- exact Hm.
        -- cbn [length] in Hg |- *. rewrite Nat.add_0_r in *. now apply finds_same.
        -- reflexivity.
      * apply list.Forall_cons in HZ as [<- HZ].
        destruct (Z.eqb_spec (zlen K) (zlen K + zlen (nb_zero :: Zs))) as [Hx|_].
        { rewrite zlen_cons in Hx. pose proof (zlen_nonneg Zs). lia. }
        cbn [negb].
        destruct (pm_set_spec (nb_map nb) (nb_pid v) (nb_slot (zlen K)) Hm Hroom') as (m & Em & Hm1 & Ha).
        rewrite Em. cbn [mbind outcome_bind]. apply (Hcont _ (Zs ++ [nb_zero])); cbn [nb_slots nb_used nb_map].
        -- rewrite Hs. replace (Z.to_nat (zlen K)) with (length K) by (unfold zlen; lia).
           rewrite insert_app_r_alt, Nat.sub_diag by lia. cbn [app].
           change (<[0%nat := v]> (nb_zero :: Zs ++ v :: R ++ T)) with (v :: Zs ++ v :: R ++ T).
           replace (Z.to_nat (zlen K + zlen (nb_zero :: Zs))) with (length (K ++ v :: Zs)) by (rewrite length_app; unfold zlen; cbn; lia).
           change (v :: Zs ++ v :: R ++ T) with ((v :: Zs) ++ v :: R ++ T). rewrite (assoc_L app K).
           rewrite insert_app_r_alt, Nat.sub_diag by lia. cbn. rewrite <- !assoc_L by apply _. reflexivity.
        -- apply list.Forall_app. split; [exact HZ|]. now constructor.
        -- autorewrite with cserver. reflexivity.
        -- rewrite length_app. cbn. lia.
        -- now rewrite !length_insert.
        -- exact Hm1.
        -- rewrite Ha. assert (Hnz : nb_slot (zlen K) <> 0) by (unfold nb_slot; pose proof (zlen_nonneg K); lia).
           destruct (Z.eqb_spec (nb_slot (zlen K)) 0); [contradiction|]. now apply finds_keep.
        -- reflexivity.
Qed.

(** *** The operations on the abstract table *)

Lemma nb_clean_spec nb l force now : nb_rep nb l ->
  exists nb', _nb_clean nb force now = Ret (nb', snd (deliver (nb_bs nb) (flushed force (now - NB_DELAY) l))) /\
    nb_bs nb' = fst (deliver (nb_bs nb) (flushed force (now - NB_DELAY) l)) /\ nb_rep nb' (kept force (now - NB_DELAY) l).
Proof.
  intros [(r & Hs & Hr & Hl) Hu Hsh Hnd Hm Hf]. unfold _nb_clean. rewrite Hu, to_nat_zlen.
  destruct (clean_loop_spec force (now - NB_DELAY) l [] [] r (mk_nbl (nb_map nb) 0 (nb_slots nb) (nb_bs nb)))
    as (nb' & Zs & E & Hbs & Hs' & HZ & Hlen & Hu' & Hm' & Hg); [exact Hs|constructor|reflexivity|exact Hm| |exact Hnd|exact Hsh| |].
  - intros pid p. cbn [nb_map]. rewrite Hf. cbn [length Nat.add]. split; [intros (k & v & Hv); right; eauto|].
    intros [(k & v & Hv & _)|Hv]; [now rewrite lookup_nil in Hv|exact Hv].
  - cbn [nb_slots]. unfold zlen. rewrite Hl. lia.
  - exists nb'. split; [exact E|]. split; [exact Hbs|]. cbn [app] in *. constructor.
    + exists (Zs ++ r). split; [exact Hs'|]. split; [now apply list.Forall_app|]. now rewrite Hlen.
    + exact Hu'.
    + unfold kept. apply list.Forall_forall. intros v Hv. apply list_elem_of_filter in Hv as [_ Hv].
      now apply (proj1 (list.Forall_forall _ _) Hsh).
    + unfold kept. change (map nb_pid) with (fmap (M := list) nb_pid) in *. clear -Hnd.
      induction l as [|v l IH]; [constructor|]. cbn in Hnd. apply list.NoDup_cons in Hnd as [Hv Hnd].
      destruct (decide (counting force (now - NB_DELAY) v = true)); [rewrite list.filter_cons_True by assumption|rewrite list.filter_cons_False by assumption; auto].
      cbn. constructor; [|auto]. intros Hin. apply Hv. apply list_elem_of_fmap in Hin as (w & -> & Hw).
      apply list_elem_of_filter in Hw as [_ Hw]. apply list_elem_of_fmap. eauto.
    + exact Hm'.
    + intros pid p. rewrite (Hg pid p). split; [|intros Hv; now left].
      intros [Hv|(k & v & Hv & _)]; [exact Hv|now rewrite lookup_nil in Hv].
Qed.

Definition find_player (l : list nb_player) (pid : Z) : option (nat * nb_player) := list_find (fun v => nb_pid v = pid) l.

Lemma nb_room nb l : nb_rep nb l -> Z.of_nat (size (pm_abs (nb_map nb))) < 2 ^ 61.
Proof.
  intros [(r & Hs & _ & Hl) _ _ _ _ Hf]. assert (Hsz : (size (pm_abs (nb_map nb)) <= length l)%nat).
  { rewrite <- (length_map nb_pid). apply size_keys. intros k a Ha. apply Hf in Ha as (i & v & Hv & Hp & _).
    eapply pid_absent; eassumption. }
  rewrite Hs, length_app in Hl. lia.
Qed.

Lemma nb_get_spec nb l pid : nb_rep nb l ->
  match find_player l pid with
  | Some (i, v) => _nb_get nb pid = Ret (nb, nb_slot (Z.of_nat i))
  | None => if zlen l <? NB_COUNT
            then exists nb', _nb_get nb pid = Ret (nb', nb_slot (zlen l)) /\ nb_bs nb' = nb_bs nb /\
              nb_rep nb' (l ++ [mk_nb pid 0 (nb_value nb_zero)])
            else _nb_get nb pid = Ret (nb, 0)
  end.
Proof.
  intros Hrep. pose proof (nb_room _ _ Hrep) as Hroom. pose proof Hrep as [(r & Hs & Hr & Hl) Hu Hsh Hnd Hm Hf].
  unfold find_player, _nb_get. rewrite (pm_get_spec _ _ Hm). cbn [mbind outcome_bind].
  destruct (list_find _ l) as [[i v]|] eqn:E.
  - apply list_find_Some in E as (Hv & Hp & _). rewrite (proj2 (Hf pid (nb_slot (Z.of_nat i)))) by eauto.
    cbn [default from_option Datatypes.id]. destruct (Z.eqb_spec (nb_slot (Z.of_nat i)) 0) as [E|]; [unfold nb_slot in E; lia|reflexivity].
  - apply list_find_None in E. assert (Hno : pm_abs (nb_map nb) !! pid = None).
    { apply eq_None_not_Some. intros [a Ha]. apply Hf in Ha as (k & v & Hv & Hp & _).
      apply (proj1 (list.Forall_forall _ _) E v); [eapply list_elem_of_lookup_2; eassumption|exact Hp]. }
    rewrite Hno. cbn [default from_option Z.eqb negb]. rewrite Hu. destruct (Z.ltb_spec (zlen l) NB_COUNT) as [Hlt|]; [|reflexivity].
    assert (Hat : nb_slots nb !! Z.to_nat (zlen l) = Some nb_zero /\ exists r', r = nb_zero :: r').
    { destruct r as [|z r']; [exfalso; rewrite Hs, app_nil_r in Hl; unfold zlen, NB_COUNT in Hlt; lia|].
      apply list.Forall_cons in Hr as [<- _]. rewrite Hs, to_nat_zlen, lookup_app_r, Nat.sub_diag by lia. eauto. }
    destruct Hat as (-> & r' & ->). cbn [deref mbind outcome_bind].
    destruct (pm_set_spec (nb_map nb) pid (nb_slot (zlen l)) Hm Hroom) as (m & -> & Hm' & Ha).
    cbn [mbind outcome_bind]. eexists. split; [reflexivity|]. split; [reflexivity|].
    assert (Hnz : nb_slot (zlen l) <> 0) by (unfold nb_slot; pose proof (zlen_nonneg l); lia).
    destruct (Z.eqb_spec (nb_slot (zlen l)) 0); [contradiction|]. constructor; cbn [nb_slots nb_used nb_map].
    + exists r'. apply list.Forall_cons in Hr as [_ Hr]. split; [|split; [exact Hr|now rewrite length_insert]].
      rewrite Hs, to_nat_zlen, insert_app_r_alt, Nat.sub_diag by lia. cbn. now rewrite <- assoc_L by apply _.
    + autorewrite with cserver. lia.
    + apply list.Forall_app. split; [exact Hsh|]. constructor; [exact zero_shape|constructor].
    + rewrite map_app. cbn. apply list.NoDup_app. split; [exact Hnd|]. split; [|apply list.NoDup_singleton].
      intros x Hx Hx'. apply list_elem_of_singleton in Hx'. subst x. apply list_elem_of_fmap in Hx as (v & Hp & Hv).
      exact (proj1 (list.Forall_forall _ _) E v Hv (eq_sym Hp)).
    + exact Hm'.
    + intros k p. rewrite Ha, lookup_insert_Some, Hf. split.
      * intros [[<- <-]|[Hne (i & v & Hv & Hp & ->)]].
        -- exists (length l), (mk_nb pid 0 (nb_value nb_zero)). rewrite lookup_app_r, Nat.sub_diag by lia. auto.
        -- exists i, v. rewrite lookup_app_l by (eapply lookup_lt_Some; eassumption). auto.
      * intros (i & v & Hv & Hp & ->). apply lookup_app_Some in Hv as [Hv|[Hi Hv]].
        -- right. split; [|eauto]. intros <-. apply (proj1 (list.Forall_forall _ _) E v); [eapply list_elem_of_lookup_2; eassumption|exact Hp].
        -- apply list_lookup_singleton_Some in Hv as [Hi' <-]. left. split; [exact Hp|]. unfold zlen. f_equal. lia.
Qed.

(** What one call counts. *)
Definition bump (v : nb_player) (e x now : Z) : nb_player :=
  mk_nb (nb_pid v) now (<[Z.to_nat e := u32 (value_of v e + x)]> (nb_value v)).

Lemma bump_shape v e x now : player_shape v -> player_shape (bump v e x now).
Proof. intros [Hl Hv]. split; [cbn; now rewrite length_insert|]. cbn. apply Forall_insert; [exact Hv|]. apply u32_range. Qed.

(** Writing the counter of the player at [i]. *)
Lemma write_spec nb l i v e x now : nb_rep nb l -> l !! i = Some v -> NB_PLAYER_MIN <= e <= NB_PLAYER_MAX ->
  exists nb', (v ← deref (nb_slots nb !! Z.to_nat (nb_slot (Z.of_nat i) - 1));
     y ← deref (nb_value v !! Z.to_nat e);
     Ret (mk_nbl (nb_map nb) (nb_used nb)
            (<[Z.to_nat (nb_slot (Z.of_nat i) - 1) := mk_nb (nb_pid v) now (<[Z.to_nat e := u32 (y + x)]> (nb_value v))]> (nb_slots nb)) (nb_bs nb))) = Ret nb' /\
    nb_bs nb' = nb_bs nb /\ nb_rep nb' (<[i := bump v e x now]> l).
Proof.
  intros [(r & Hs & Hr & Hl) Hu Hsh Hnd Hm Hf] Hi He. assert (Hlt : (i < length l)%nat) by (eapply lookup_lt_Some; eassumption).
  assert (Hv : player_shape v) by (eapply Forall_lookup_1; eassumption). pose proof Hv as [Hlv _].
  replace (Z.to_nat (nb_slot (Z.of_nat i) - 1)) with i by (unfold nb_slot; lia).
  rewrite Hs, lookup_app_l, Hi by lia. cbn [deref mbind outcome_bind].
  destruct (nb_value v !! Z.to_nat e) as [y|] eqn:E.
  2:{ apply lookup_ge_None_1 in E. unfold NB_PLAYER_MIN, NB_PLAYER_MAX in He. lia. }
  cbn [deref mbind outcome_bind]. eexists. split; [reflexivity|]. split; [reflexivity|].
  assert (Eb : mk_nb (nb_pid v) now (<[Z.to_nat e := u32 (y + x)]> (nb_value v)) = bump v e x now) by (unfold bump, value_of; now rewrite E).
  rewrite Eb. assert (Hp : forall pid k w, <[i := bump v e x now]> l !! k = Some w /\ nb_pid w = pid -> exists w', l !! k = Some w' /\ nb_pid w' = pid).
  { intros pid k w [Hw Hp]. apply list_lookup_insert_Some in Hw as [(<- & <- & _)|[_ Hw]]; eauto. }
  constructor; cbn [nb_slots nb_used nb_map].
  - exists r. rewrite insert_app_l by lia. split; [reflexivity|]. split; [exact Hr|]. rewrite <- insert_app_l, length_insert, <- Hs by lia. exact Hl.
  - unfold zlen. rewrite length_insert. exact Hu.
  - apply Forall_insert; [exact Hsh|now apply bump_shape].
  - change (map nb_pid) with (fmap (M := list) nb_pid) in *. rewrite list_fmap_insert. cbn.
    rewrite list_insert_id; [exact Hnd|]. now rewrite list_lookup_fmap, Hi.
  - exact Hm.
  - intros pid p. rewrite Hf. split.
    + intros (k & w & Hw & Hpw & ->). destruct (decide (k = i)) as [->|Hne].
      * exists i, (bump v e x now). rewrite list_lookup_insert_eq by lia. split; [reflexivity|]. split; [|reflexivity].
        cbn. congruence.
      * exists k, w. rewrite list_lookup_insert_ne by congruence. auto.
    + intros (k & w & Hw & Hpw & ->). destruct (Hp pid k w (conj Hw Hpw)) as (w' & Hw' & Hpw'). eauto.
Qed.

(** The abstract call. *)
Definition record_count (l : list nb_player) (pid e x now : Z) : list nb_player * list coucn_event :=
  if (e <? NB_PLAYER_MIN) || (NB_PLAYER_MAX <? e) then (l, [])
  else
    let new := bump (mk_nb pid 0 (nb_value nb_zero)) e x now in
    match find_player l pid with
    | Some (i, v) => (<[i := bump v e x now]> l, [])
    | None => if zlen l <? NB_COUNT then (l ++ [new], []) else ([new], flushed true (now - NB_DELAY) l)
    end.

Lemma record_spec nb l pid e x now : nb_rep nb l ->
  exists nb', notification_record_count nb pid e x now = Ret (nb', snd (deliver (nb_bs nb) (snd (record_count l pid e x now)))) /\
    nb_bs nb' = fst (deliver (nb_bs nb) (snd (record_count l pid e x now))) /\ nb_rep nb' (fst (record_count l pid e x now)).
Proof.
  intros Hrep. unfold notification_record_count, notification_backend, record_count.
  destruct ((e <? NB_PLAYER_MIN) || (NB_PLAYER_MAX <? e)) eqn:Er; [eauto|].
  assert (He : NB_PLAYER_MIN <= e <= NB_PLAYER_MAX) by (apply orb_false_iff in Er as [?%Z.ltb_ge ?%Z.ltb_ge]; lia).
  assert (Hput : forall nb l i v es, nb_rep nb l -> l !! i = Some v ->
    exists nb', (if nb_slot (Z.of_nat i) =? 0 then Undef else
        v ← deref (nb_slots nb !! Z.to_nat (nb_slot (Z.of_nat i) - 1));
        y ← deref (nb_value v !! Z.to_nat e);
        Ret (mk_nbl (nb_map nb) (nb_used nb)
            (<[Z.to_nat (nb_slot (Z.of_nat i) - 1) := mk_nb (nb_pid v) now (<[Z.to_nat e := u32 (y + x)]> (nb_value v))]> (nb_slots nb)) (nb_bs nb), es)) =
      Ret (nb', es : list count_notice) /\ nb_bs nb' = nb_bs nb /\ nb_rep nb' (<[i := bump v e x now]> l)).
  { clear -He. intros nb l i v es Hrep Hi. destruct (write_spec nb l i v e x now Hrep Hi He) as (nb' & E & Hbs & Hrep').
    destruct (Z.eqb_spec (nb_slot (Z.of_nat i)) 0) as [Hz|_]; [unfold nb_slot in Hz; lia|]. exists nb'. split; [|split; [exact Hbs|exact Hrep']].
    destruct (nb_slots nb !! _) as [w|]; [|discriminate]. cbn [deref mbind outcome_bind] in *.
    destruct (nb_value w !! _); [|discriminate]. cbn [deref mbind outcome_bind] in *. now injection E as <-. }
  assert (Hnew : forall nb l v es, nb_rep nb (l ++ [v]) ->
    exists nb', (if nb_slot (zlen l) =? 0 then Undef else
        v ← deref (nb_slots nb !! Z.to_nat (nb_slot (zlen l) - 1));
        y ← deref (nb_value v !! Z.to_nat e);
        Ret (mk_nbl (nb_map nb) (nb_used nb)
            (<[Z.to_nat (nb_slot (zlen l) - 1) := mk_nb (nb_pid v) now (<[Z.to_nat e := u32 (y + x)]> (nb_value v))]> (nb_slots nb)) (nb_bs nb), es)) =
      Ret (nb', es : list count_notice) /\ nb_bs nb' = nb_bs nb /\ nb_rep nb' (l ++ [bump v e x now])).
  { clear -Hput. intros nb l v es Hrep. destruct (Hput nb (l ++ [v]) (length l) v es Hrep) as (nb' & E & Hbs & Hrep').
    - now rewrite lookup_app_r, Nat.sub_diag by lia.
    - exists nb'. split; [exact E|]. split; [exact Hbs|]. rewrite insert_app_r_alt, Nat.sub_diag in Hrep' by lia. exact Hrep'. }
  pose proof (nb_get_spec nb l pid Hrep) as Hget. destruct (find_player l pid) as [[i v]|] eqn:Ef.
  - rewrite Hget. cbn [mbind outcome_bind]. apply list_find_Some in Ef as (Hi & _ & _).
    destruct (Z.eqb_spec (nb_slot (Z.of_nat i)) 0) as [Hz|_]; [unfold nb_slot in Hz; lia|]. cbn [mbind outcome_bind fst snd].
    exact (Hput nb l i v [] Hrep Hi).
  - destruct (zlen l <? NB_COUNT) eqn:El.
    + destruct Hget as (nb1 & -> & Hbs1 & Hrep1). cbn [mbind outcome_bind].
      destruct (Z.eqb_spec (nb_slot (zlen l)) 0) as [Hz|_]; [unfold nb_slot in Hz; pose proof (zlen_nonneg l); lia|].
      cbn [mbind outcome_bind fst snd deliver]. rewrite <- Hbs1. exact (Hnew nb1 l _ [] Hrep1).
    + rewrite Hget. cbn [mbind outcome_bind Z.eqb].
      destruct (nb_clean_spec nb l true now Hrep) as (nb1 & -> & Hbs1 & Hrep1). cbn [mbind outcome_bind].
      assert (Hk : kept true (now - NB_DELAY) l = []) by (unfold kept; clear; induction l; [reflexivity|now rewrite list.filter_cons_False]).
      rewrite Hk in Hrep1. pose proof (nb_get_spec nb1 [] pid Hrep1) as Hget1. cbn in Hget1. destruct Hget1 as (nb2 & -> & Hbs2 & Hrep2).
      cbn [mbind outcome_bind fst snd]. rewrite <- Hbs1, <- Hbs2. exact (Hnew nb2 [] _ _ Hrep2).
Qed.

(** *** What is counted reaches the backend *)

(** Calls on the table; between them the rest of the server may change the backends and the network
    in any way ([CBackends]). *)
Inductive count_op := CRecord (pid e x now : Z) | CClean (now : Z) | CBackends (bs : backends).

Definition count_call (nb : nb_list M) (op : count_op) : outcome (nb_list M * list count_notice) :=
  match op with
  | CRecord pid e x now => notification_record_count nb pid e x now
  | CClean now => _nb_clean nb false now
  | CBackends bs => Ret (mk_nbl (nb_map nb) (nb_used nb) (nb_slots nb) bs, [])
  end.
Fixpoint run_counts (nb : nb_list M) (ops : list count_op) : outcome (nb_list M * list count_notice) :=
  match ops with
  | [] => Ret (nb, [])
  | op :: ops' => '(nb, es) ← count_call nb op; '(nb, es') ← run_counts nb ops'; Ret (nb, es ++ es')
  end.

Definition total {A} (f : A -> Z) (l : list A) : Z := foldr (fun x s => f x + s) 0 l.

(** The sums for the player with the lower half [p] and the event [e]: in messages, waiting in the table, and counted
    by the calls. *)
Definition sent (p e : Z) (es : list coucn_event) : Z :=
  total (fun '(q, f, x) => if (q =? p) && (f =? e) then x else 0) es.
Definition waiting (p e : Z) (l : list nb_player) : Z := total (fun v => if u32 (nb_pid v) =? p then value_of v e else 0) l.
Definition asked (p e : Z) (ops : list count_op) : Z :=
  total (fun op => match op with CRecord q f x _ => if (u32 q =? p) && (f =? e) then x else 0 | _ => 0 end) ops.

(** Of the messages, those the network took, and those that went nowhere: there was no backend, or the network
    refused them. *)
Definition taken (n : count_notice) : bool := match cn_answer n with Some r => r =? 0 | None => false end.
Definition told (p e : Z) (ns : list count_notice) : Z := sent p e (map cn_event (filter (fun n => taken n = true) ns)).
Definition lost (p e : Z) (ns : list count_notice) : Z := sent p e (map cn_event (filter (fun n => taken n = false) ns)).

(** The backend is configured and the network takes everything; there is no such backend. *)
Definition available (bs : backends) : Prop :=
  is_Some (bk_all bs !! "ADSupport"%string) /\ forall k, wn_writes (bk_net bs) k = 0.
Definition absent (bs : backends) : Prop := bk_all bs !! "ADSupport"%string = None.
Definition throughout (P : backends -> Prop) (ops : list count_op) : Prop :=
  Forall (fun op => match op with CBackends bs => P bs | _ => True end) ops.

Lemma total_app {A} (f : A -> Z) l k : total f (l ++ k) = total f l + total f k.
Proof. induction l as [|x l IH]; cbn; [reflexivity|]. unfold total in *. lia. Qed.

Lemma sent_cons p e v f l : sent p e (omap (event_of v) (f :: l)) =
  (if (0 <? value_of v f) && (u32 (nb_pid v) =? p) && (f =? e) then value_of v f else 0) + sent p e (omap (event_of v) l).
Proof. cbn [omap list_omap]. unfold event_of at 1. destruct (0 <? value_of v f); [|reflexivity]. reflexivity. Qed.

Lemma waiting_app p e l k : waiting p e (l ++ k) = waiting p e l + waiting p e k.
Proof. apply total_app. Qed.
Lemma sent_app p e l k : sent p e (l ++ k) = sent p e l + sent p e k.
Proof. apply total_app. Qed.

Lemma told_app p e l k : told p e (l ++ k) = told p e l + told p e k.
Proof. unfold told. now rewrite list.filter_app, map_app, sent_app. Qed.
Lemma lost_app p e l k : lost p e (l ++ k) = lost p e l + lost p e k.
Proof. unfold lost. now rewrite list.filter_app, map_app, sent_app. Qed.

Lemma available_same bs bs' : same_backends bs bs' -> available bs -> available bs'.
Proof. intros [Hn Hw] [Ha Hk]. split; [now apply Hn|]. now rewrite Hw. Qed.
Lemma absent_same bs bs' : same_backends bs bs' -> absent bs -> absent bs'.
Proof.
  unfold absent. intros [Hn _] Ha. apply eq_None_not_Some. rewrite Hn, Ha. apply is_Some_None.
Qed.

(** One message makes one notice. *)
Lemma nb_send_one bs e : exists bs' r, nb_send nb_backend bs e = (bs', [mk_cn e "ADSupport" r]) /\
  same_backends bs bs' /\ (available bs -> r = Some 0) /\ (absent bs -> r = None).
Proof.
  unfold nb_backend. cbn [nb_send]. destruct (backend_get_spec bs "ADSupport" 0) as [Hs Hr].
  destruct (backend_get bs "ADSupport" 0) as [bs1 [b|]]; cbn [fst snd] in *.
  - destruct e as [[pid i] x].
    destruct (backend_send_spec bs1 b 0 14006 2
      (pbc_buffer "NotifyADSupportEventRequest" [("pid", pid); ("eventid", i); ("value", x)]%string)) as [Hs1 (k & Hk)].
    destruct (backend_send bs1 b _ _ _ _) as [bs2 r2]. cbn [fst snd] in *. exists bs2, (Some r2).
    split; [reflexivity|]. split; [eapply same_backends_trans; eassumption|]. split.
    + intros Ha. apply (available_same _ _ Hs) in Ha as [_ Ha]. now rewrite Hk, Ha.
    + intros Ha. destruct Hr as [Hr _]. unfold absent in Ha. rewrite Ha in Hr. destruct Hr as [? ?]; [eauto|discriminate].
  - exists bs1, None. split; [reflexivity|]. split; [exact Hs|]. split; [|reflexivity].
    intros [Ha _]. apply Hr in Ha as [? ?]. discriminate.
Qed.

(** Every message is told or lost. *)
Lemma deliver_spec p e es : forall bs,
  same_backends bs (fst (deliver bs es)) /\
  told p e (snd (deliver bs es)) + lost p e (snd (deliver bs es)) = sent p e es /\
  (available bs -> lost p e (snd (deliver bs es)) = 0) /\ (absent bs -> told p e (snd (deliver bs es)) = 0).
Proof.
  induction es as [|x es IH]; intros bs; cbn [deliver fst snd]; [split; [apply same_backends_refl|]; cbn; auto|].
  destruct (nb_send_one bs x) as (bs1 & r & -> & Hs1 & Hav & Hab).
  destruct (IH bs1) as (Hs2 & Hsum & Hav2 & Hab2). destruct (deliver bs1 es) as [bs2 ns]. cbn [fst snd] in *.
  split; [eapply same_backends_trans; eassumption|]. rewrite told_app, lost_app.
  change (sent p e (x :: es)) with (sent p e ([x] ++ es)). rewrite sent_app. set (n := mk_cn x "ADSupport" r).
  assert (Hone : told p e [n] = (if taken n then sent p e [x] else 0) /\ lost p e [n] = if taken n then 0 else sent p e [x]).
  { unfold told, lost. destruct (taken n) eqn:E.
    - now rewrite list.filter_cons_True, list.filter_cons_False by congruence.
    - now rewrite list.filter_cons_False, list.filter_cons_True by congruence. }
  destruct Hone as [-> ->]. split; [destruct (taken n); lia|]. split; intros Hx.
  - rewrite Hav2 by (eapply available_same; eassumption). subst n. unfold taken. cbn [cn_answer]. now rewrite (Hav Hx).
  - rewrite Hab2 by (eapply absent_same; eassumption). subst n. unfold taken. cbn [cn_answer]. now rewrite (Hab Hx).
Qed.

Lemma messages_sent p e v l : NoDup l -> e ∈ l -> player_shape v ->
  sent p e (omap (event_of v) l) = if u32 (nb_pid v) =? p then value_of v e else 0.
Proof.
  intros Hnd Hin [_ Hv]. assert (Hge : 0 <= value_of v e).
  { unfold value_of. destruct (nb_value v !! Z.to_nat e) eqn:E; cbn; [|lia]. eapply Forall_lookup_1 in Hv; [|exact E]. lia. }
  assert (Hno : forall k, e ∉ k -> sent p e (omap (event_of v) k) = 0).
  { clear. induction k as [|f k IH]; intros Hk; [reflexivity|]. apply not_elem_of_cons in Hk as [Hne Hk]. rewrite sent_cons, (IH Hk).
    destruct (Z.eqb_spec f e); [congruence|]. now rewrite andb_false_r. }
  induction Hnd as [|f l Hf Hnd IH]; [inversion Hin|]. rewrite sent_cons. apply elem_of_cons in Hin as [<-|Hin].
  - rewrite (Hno _ Hf), Z.eqb_refl, andb_true_r. destruct (Z.ltb_spec 0 (value_of v e)); cbn [andb]; destruct (_ =? p); lia.
  - assert (Hne : f <> e) by congruence. destruct (Z.eqb_spec f e); [congruence|]. rewrite andb_false_r. now apply IH.
Qed.

Lemma event_range e : e ∈ count_range <-> NB_PLAYER_MIN <= e <= NB_PLAYER_MAX.
Proof. unfold count_range. rewrite elem_of_seqZ. lia. Qed.

(** Cleaning moves what was waiting into messages. *)
Lemma clean_conserves p e force dl l : e ∈ count_range -> Forall player_shape l ->
  sent p e (flushed force dl l) + waiting p e (kept force dl l) = waiting p e l.
Proof.
  intros He. induction 1 as [|v l Hv Hl IH]; [reflexivity|]. rewrite flushed_cons, kept_cons.
  change (waiting p e (v :: l)) with ((if u32 (nb_pid v) =? p then value_of v e else 0) + waiting p e l).
  unfold sent, waiting in *. rewrite !total_app. destruct (counting force dl v); cbn [app total foldr] in *.
  - unfold total in *. lia.
  - pose proof (messages_sent p e v count_range (NoDup_seqZ _ _) He Hv) as Hm. unfold sent, messages_of, total in *. lia.
Qed.

Lemma bump_value v e f x now : player_shape v -> NB_PLAYER_MIN <= e <= NB_PLAYER_MAX -> 0 <= f ->
  value_of (bump v e x now) f = if f =? e then u32 (value_of v e + x) else value_of v f.
Proof.
  intros [Hl _] He Hf. unfold value_of at 1, bump. cbn [nb_value]. destruct (Z.eqb_spec f e) as [->|Hne].
  - rewrite list_lookup_insert_eq; [reflexivity|]. rewrite Hl. unfold NB_PLAYER_MIN, NB_PLAYER_MAX in He. lia.
  - rewrite list_lookup_insert_ne; [reflexivity|]. unfold NB_PLAYER_MIN in He. lia.
Qed.

Lemma waiting_insert p e l i v w : l !! i = Some v ->
  waiting p e (<[i := w]> l) = waiting p e l - waiting p e [v] + waiting p e [w].
Proof.
  intros Hi. rewrite (insert_take_drop l i w) by (eapply lookup_lt_Some; eassumption).
  rewrite <- (take_drop_middle l i v Hi) at 3. unfold waiting. rewrite !total_app. cbn [total foldr]. unfold total. lia.
Qed.

Lemma bump_waiting p e v f x now : player_shape v -> NB_PLAYER_MIN <= f <= NB_PLAYER_MAX -> NB_PLAYER_MIN <= e ->
  (waiting p e [bump v f x now]) mod 2 ^ 32 =
  (waiting p e [v] + if (u32 (nb_pid v) =? p) && (f =? e) then x else 0) mod 2 ^ 32.
Proof.
  intros Hv Hf He. unfold waiting. cbn [total foldr]. cbn [bump nb_pid].
  destruct (u32 (nb_pid v) =? p); cbn [andb]; [|reflexivity].
  rewrite bump_value by (unfold NB_PLAYER_MIN in *; assumption || lia). rewrite (Z.eqb_sym f e). destruct (Z.eqb_spec e f) as [->|].
  - unfold u32. rewrite !Z.add_0_r. now rewrite Z.mod_mod by lia.
  - f_equal. lia.
Qed.

Lemma shape_nth l i v : Forall player_shape l -> l !! i = Some v -> player_shape v.
Proof. intros Hl Hi. eapply Forall_lookup_1; eassumption. Qed.

Lemma record_conserves p e l pid f x now : e ∈ count_range -> Forall player_shape l ->
  (sent p e (snd (record_count l pid f x now)) + waiting p e (fst (record_count l pid f x now))) mod 2 ^ 32 =
  (waiting p e l + if (u32 pid =? p) && (f =? e) then x else 0) mod 2 ^ 32.
Proof.
  intros He Hl. pose proof (proj1 (event_range e) He) as He'. unfold record_count.
  destruct ((f <? NB_PLAYER_MIN) || (NB_PLAYER_MAX <? f)) eqn:Er; cbn [fst snd].
  { destruct (Z.eqb_spec f e) as [->|]; [apply orb_true_iff in Er as [?%Z.ltb_lt|?%Z.ltb_lt]; lia|].
    rewrite andb_false_r. f_equal. cbn. lia. }
  assert (Hf : NB_PLAYER_MIN <= f <= NB_PLAYER_MAX) by (apply orb_false_iff in Er as [?%Z.ltb_ge ?%Z.ltb_ge]; lia).
  set (z := mk_nb pid 0 (nb_value nb_zero)).
  assert (Hz : waiting p e [z] = 0).
  { unfold waiting. cbn [total foldr]. unfold value_of. cbn [nb_value nb_zero z].
    assert (E : default 0 (repeat 0 (Z.to_nat (NB_PLAYER_MAX + 1)) !! Z.to_nat e) = 0).
    { destruct (repeat 0 _ !! _) as [y|] eqn:E; [|reflexivity]. apply list_elem_of_lookup_2, list_elem_of_In, repeat_spec in E. now subst. }
    rewrite E. now destruct (_ =? p). }
  assert (Hnew : (waiting p e [bump z f x now]) mod 2 ^ 32 = (if (u32 pid =? p) && (f =? e) then x else 0) mod 2 ^ 32).
  { rewrite bump_waiting by (try exact zero_shape; lia). now rewrite Hz. }
  destruct (find_player l pid) as [[i v]|] eqn:Ef; cbn [fst snd].
  - apply list_find_Some in Ef as (Hi & Hp & _). rewrite (waiting_insert _ _ _ _ _ _ Hi).
    pose proof (bump_waiting p e v f x now (shape_nth _ _ _ Hl Hi) Hf (proj1 He')) as Hb. rewrite Hp in Hb.
    replace (sent p e [] + (waiting p e l - waiting p e [v] + waiting p e [bump v f x now]))
      with (waiting p e [bump v f x now] + (waiting p e l - waiting p e [v])) by (cbn; lia).
    rewrite Z.add_mod, Hb, <- Z.add_mod by lia. f_equal. lia.
  - destruct (zlen l <? NB_COUNT); cbn [fst snd].
    + rewrite waiting_app. change (sent p e []) with 0. rewrite Z.add_0_l.
      rewrite Z.add_mod, Hnew, <- Z.add_mod by lia. reflexivity.
    + pose proof (clean_conserves p e true (now - NB_DELAY) l He Hl) as Hc.
      assert (Hk : kept true (now - NB_DELAY) l = []) by (unfold kept; clear; induction l; [reflexivity|now rewrite list.filter_cons_False]).
      rewrite Hk in Hc. change (waiting p e []) with 0 in Hc. rewrite Z.add_0_r in Hc. rewrite Hc.
      rewrite Z.add_mod, Hnew, <- Z.add_mod by lia. reflexivity.
Qed.

Lemma count_call_spec p e op nb l : e ∈ count_range -> nb_rep nb l ->
  exists nb' l' ns, count_call nb op = Ret (nb', ns) /\ nb_rep nb' l' /\
    (told p e ns + lost p e ns + waiting p e l') mod 2 ^ 32 = (waiting p e l + asked p e [op]) mod 2 ^ 32 /\
    (available (nb_bs nb) -> throughout available [op] -> available (nb_bs nb') /\ lost p e ns = 0) /\
    (absent (nb_bs nb) -> throughout absent [op] -> absent (nb_bs nb') /\ told p e ns = 0).
Proof.
  intros He Hrep. pose proof (nr_shape _ _ Hrep) as Hsh.
  assert (Hdone : forall nb' l' es, nb_bs nb' = fst (deliver (nb_bs nb) es) -> nb_rep nb' l' ->
    (sent p e es + waiting p e l') mod 2 ^ 32 = (waiting p e l + asked p e [op]) mod 2 ^ 32 ->
    exists nb'' l'' ns, Ret (nb', snd (deliver (nb_bs nb) es)) = Ret (nb'', ns) /\ nb_rep nb'' l'' /\
      (told p e ns + lost p e ns + waiting p e l'') mod 2 ^ 32 = (waiting p e l + asked p e [op]) mod 2 ^ 32 /\
      (available (nb_bs nb) -> throughout available [op] -> available (nb_bs nb'') /\ lost p e ns = 0) /\
      (absent (nb_bs nb) -> throughout absent [op] -> absent (nb_bs nb'') /\ told p e ns = 0)).
  { intros nb' l' es Hbs Hrep' Hc. destruct (deliver_spec p e es (nb_bs nb)) as (Hs & Hsum & Hav & Hab).
    exists nb', l'. eexists. split; [reflexivity|]. split; [exact Hrep'|]. rewrite Hsum. split; [exact Hc|]. rewrite Hbs.
    split; intros Hx _; (split; [|auto]); [eapply available_same|eapply absent_same]; eassumption. }
  destruct op as [pid f x now|now|bs]; cbn [count_call].
  - destruct (record_spec nb l pid f x now Hrep) as (nb1 & -> & Hbs & Hrep1). eapply Hdone; [exact Hbs|exact Hrep1|].
    rewrite record_conserves by assumption. unfold asked. cbn [total foldr]. now rewrite !Z.add_0_r.
  - destruct (nb_clean_spec nb l false now Hrep) as (nb1 & -> & Hbs & Hrep1). eapply Hdone; [exact Hbs|exact Hrep1|].
    rewrite clean_conserves by assumption. unfold asked. cbn [total foldr]. now rewrite !Z.add_0_r.
  - exists (mk_nbl (nb_map nb) (nb_used nb) (nb_slots nb) bs), l, []. split; [reflexivity|].
    split; [destruct Hrep; constructor; assumption|]. split; [f_equal; cbn; lia|].
    split; intros _ Hx; inversion_clear Hx; auto.
Qed.

Lemma run_counts_spec p e ops : forall nb l, e ∈ count_range -> nb_rep nb l ->
  exists nb' l' ns, run_counts nb ops = Ret (nb', ns) /\ nb_rep nb' l' /\
    (told p e ns + lost p e ns + waiting p e l') mod 2 ^ 32 = (waiting p e l + asked p e ops) mod 2 ^ 32 /\
    (available (nb_bs nb) -> throughout available ops -> lost p e ns = 0) /\
    (absent (nb_bs nb) -> throughout absent ops -> told p e ns = 0).
Proof.
  induction ops as [|op ops IH]; intros nb l He Hrep; cbn [run_counts].
  - exists nb, l, []. split; [reflexivity|]. split; [exact Hrep|]. split; [f_equal; cbn; lia|]. auto.
  - destruct (count_call_spec p e op nb l He Hrep) as (nb1 & l1 & ns1 & -> & Hrep1 & Hc1 & Hav1 & Hab1).
    cbn [mbind outcome_bind].
    destruct (IH nb1 l1 He Hrep1) as (nb2 & l2 & ns2 & -> & Hrep2 & Hc2 & Hav2 & Hab2). cbn [mbind outcome_bind].
    exists nb2, l2, (ns1 ++ ns2). split; [reflexivity|]. split; [exact Hrep2|]. rewrite told_app, lost_app. split; [|split].
    + replace (told p e ns1 + told p e ns2 + (lost p e ns1 + lost p e ns2) + waiting p e l2)
        with (told p e ns2 + lost p e ns2 + waiting p e l2 + (told p e ns1 + lost p e ns1)) by lia.
      rewrite Z.add_mod, Hc2, <- Z.add_mod by lia.
      replace (waiting p e l1 + asked p e ops + (told p e ns1 + lost p e ns1))
        with (told p e ns1 + lost p e ns1 + waiting p e l1 + asked p e ops) by lia.
      rewrite Z.add_mod, Hc1, <- Z.add_mod by lia. f_equal.
      unfold asked, total. cbn [foldr]. rewrite Z.add_0_r. lia.
    + intros Ha Ht. unfold throughout in *. apply list.Forall_cons in Ht as [Ht1 Ht2].
      destruct Hav1 as [Ha1 ->]; [exact Ha|repeat constructor; exact Ht1|]. now rewrite Hav2.
    + intros Ha Ht. unfold throughout in *. apply list.Forall_cons in Ht as [Ht1 Ht2].
      destruct Hab1 as [Ha1 ->]; [exact Ha|repeat constructor; exact Ht1|]. now rewrite Hab2.
Qed.

Lemma init_rep m bs : pm_ok m -> pm_abs m = ∅ -> nb_rep (_nb_init m bs) [].
Proof.
  intros Hm Hn. constructor; cbn [_nb_init nb_slots nb_used nb_map].
  - exists (repeat nb_zero (Z.to_nat NB_COUNT)). split; [reflexivity|]. split; [|now rewrite repeat_length].
    apply list.Forall_forall. intros x Hx. apply list_elem_of_In, repeat_spec in Hx. congruence.
  - reflexivity.
  - constructor.
  - constructor.
  - exact Hm.
  - intros pid p. rewrite Hn, lookup_empty. split; [discriminate|]. intros (i & v & Hv & _). now rewrite lookup_nil in Hv.
Qed.

(** The part of the array in use. *)
Definition in_use (nb : nb_list M) : list nb_player := take (Z.to_nat (nb_used nb)) (nb_slots nb).

Lemma rep_in_use nb l : nb_rep nb l -> in_use nb = l.
Proof.
  intros [(r & Hs & _ & _) Hu _ _ _ _]. unfold in_use. rewrite Hu, Hs, to_nat_zlen. apply take_app_length.
Qed.

Lemma connect_same bs : same_backends bs (connect_backends bs).
Proof. unfold connect_backends, nb_backend. cbn [foldl]. apply backend_get_spec. Qed.

(** C26: Counts are conserved: for every player (by the half of the id the message has) and event, what the network
    took of the messages, what was lost because there was no backend "ADSupport" or the network refused the message,
    and what waits in the table are together, modulo 2^32, what was counted; no call goes wrong, however many players
    are counted for and whatever happens to the backends between the calls.  While the backend is there and the
    network takes what is written nothing is lost; without the backend nothing is told, so all that leaves the table
    is lost: the code clears a counter whether its message was sent or not. *)
Theorem counts_conserved m bs ops p e : pm_ok m -> pm_abs m = ∅ -> NB_PLAYER_MIN <= e <= NB_PLAYER_MAX ->
  exists nb ns, run_counts (_nb_init m bs) ops = Ret (nb, ns) /\
    (told p e ns + lost p e ns + waiting p e (in_use nb)) mod 2 ^ 32 = asked p e ops mod 2 ^ 32 /\
    (available bs -> throughout available ops -> lost p e ns = 0) /\
    (absent bs -> throughout absent ops -> told p e ns = 0).
Proof.
  intros Hm Hn He. destruct (run_counts_spec p e ops (_nb_init m bs) []) as (nb & l & ns & E & Hrep & Hc & Hav & Hab).
  - now apply event_range.
  - now apply init_rep.
  - exists nb, ns. split; [exact E|]. rewrite (rep_in_use _ _ Hrep). split; [exact Hc|].
    cbn [nb_bs _nb_init] in *. pose proof (connect_same bs) as Hs. split; intros Hx Hy.
    + apply Hav; [eapply available_same; eassumption|exact Hy].
    + apply Hab; [eapply absent_same; eassumption|exact Hy].
Qed.

(** Cleaning leaves only the players counted for during the last three seconds. *)
Lemma clean_leaves_recent nb l now : nb_rep nb l ->
  exists nb' es, _nb_clean nb false now = Ret (nb', es) /\ Forall (fun v => now - NB_DELAY < nb_time v) (in_use nb').
Proof.
  intros Hrep. destruct (nb_clean_spec nb l false now Hrep) as (nb' & E & _ & Hrep'). exists nb'. eexists. split; [exact E|].
  rewrite (rep_in_use _ _ Hrep'). apply list.Forall_forall. intros v Hv. apply list_elem_of_filter in Hv as [Hc _].
  unfold counting in Hc. cbn [orb] in Hc. destruct (Z.leb_spec (nb_time v) (now - NB_DELAY)); [discriminate|assumption].
Qed.
End Theorems.

(** Two players, one idle when the table is cleaned, with the map of [framework/map.c], a configured
    backend, which is taken out of the configuration before the last cleaning. *)
Definition sample_net : world_net := mk_wnet 0 (fun _ => 8) (fun _ => 0) (fun _ => (0, 0)) [].
Definition sample_backends : backends :=
  mk_backends {["ADSupport"%string := mk_backend 14001 14099 14 "ADSupport" "localhost" 9824 5 INVALID_ID false]} sample_net 9810.
Definition sample_counts : list count_op :=
  [CRecord 7 5 2 100; CRecord 9 5 3 101; CRecord 7 5 4 101; CRecord 9 4 1 103; CClean 104;
   CBackends (mk_backends ∅ sample_net 9810); CRecord 7 5 1 105; CClean 106; CClean 110].
#[local] Instance no_pbc : Pbc := fun _ _ => [].

Lemma counts_conserved_witness :
  exists nb ns, run_counts (_nb_init (@_agMap_new Z) sample_backends) sample_counts = Ret (nb, ns) /\
    (told 7 5 ns + lost 7 5 ns + waiting 7 5 (in_use nb)) mod 2 ^ 32 = 7 /\ told 7 5 ns = 6 /\ lost 7 5 ns = 1 /\
    map (fun n => (cn_event n, cn_answer n)) ns = [((7, 5, 6), Some 0); ((9, 4, 1), None); ((9, 5, 3), None); ((7, 5, 1), None)].
Proof.
  destruct (counts_conserved (@_agMap_new Z) sample_backends sample_counts 7 5) as (nb & ns & E & Hc & _).
  - split; apply agMap_new_ok.
  - apply agMap_new_ok.
  - unfold NB_PLAYER_MIN, NB_PLAYER_MAX. lia.
  - exists nb, ns. split; [exact E|]. split; [exact Hc|]. vm_compute in E. injection E as <- <-. vm_compute. auto.
Defined.
