(* ===== verification/Notify.v ===== *)
(** * Notifications of players: [world/notify.c]

    What changes for a player while a request is served is collected and sent in one message at its end.
    A change with a key replaces the value of the one that waits with the same key.  The queue of a
    player is a singly linked list with an index by key; the players with a queue are a singly linked
    list with an index by player.  Sending is an interface, the class [Sender]. *)
From S2P Require Import Prelude AmfWire AmfValue AmfTheorems AgMap Package NotifyCount.

Definition C_PLAYER_DATA_CHANGE : Z := 104.

(** [struct Notify], [struct PlayerNotify] and the variables of the file *)
Record Notify := mk_note { nf_next : Z; nf_type : Z; nf_rkey : Z; nf_value : option amf_value }.
Record PlayerNotify (M : Type) := mk_pn { pn_next : Z; pn_playerid : Z; pn_m : M; pn_l : Z; pn_t : Z }.
Arguments mk_pn {M} _ _ _ _ _.
Arguments pn_next {M} _.
Arguments pn_playerid {M} _.
Arguments pn_m {M} _.
Arguments pn_l {M} _.
Arguments pn_t {M} _.
Record notify_state (M : Type) := mk_notifier {
  nt_notes : gmap Z Notify; nt_players : gmap Z (PlayerNotify M);
  player_notify_hash : M; player_notify_list : Z; nt_counts : nb_list M }.
Arguments mk_notifier {M} _ _ _ _ _.
Arguments nt_notes {M} _.
Arguments nt_players {M} _.
Arguments player_notify_hash {M} _.
Arguments player_notify_list {M} _.
Arguments nt_counts {M} _.

(** What [notification_clean] sends with: [send_amf_message_to] of message.c and [broadcast_to_client] of
    dispatch.c. *)
Class Sender (O : Type) := {
  send_amf_message_to : O -> Z -> Z -> amf_value -> outcome O;
  broadcast_to_client : O -> Z -> Z -> list Z -> outcome O }.

Section Operations.
Context {M : Type} `{PtrMap M} (map_new : M) (malloc_note : gmap Z Notify -> Z) (malloc_player : gmap Z (PlayerNotify M) -> Z).
#[local] Abbreviation notifier := (notify_state M).

Definition with_notes (nt : notifier) h : notifier :=
  mk_notifier h (nt_players nt) (player_notify_hash nt) (player_notify_list nt) (nt_counts nt).
Definition with_players (nt : notifier) h : notifier :=
  mk_notifier (nt_notes nt) h (player_notify_hash nt) (player_notify_list nt) (nt_counts nt).
Definition with_counts (nt : notifier) c : notifier :=
  mk_notifier (nt_notes nt) (nt_players nt) (player_notify_hash nt) (player_notify_list nt) c.

Definition get_player_notify (nt : notifier) (playerid : Z) : outcome (notifier * Z) :=
  notify ← pm_get (player_notify_hash nt) playerid;
  if notify =? 0 then
    let a := malloc_player (nt_players nt) in
    if a =? 0 then Undef
    else
      '(h, _) ← pm_set (player_notify_hash nt) playerid a;
      let v := mk_pn (player_notify_list nt) playerid map_new 0 0 in
      Ret (mk_notifier (nt_notes nt) (<[a := v]> (nt_players nt)) h a (nt_counts nt), a)
  else Ret (nt, notify).

Definition notification_add_r (nt : notifier) (playerid type : Z) (value : option amf_value) : outcome (notifier * Z) :=
  '(nt, p) ← get_player_notify nt playerid;
  let msg := malloc_note (nt_notes nt) in
  if msg =? 0 then Undef
  else
    let notes := <[msg := mk_note 0 type 0 value]> (nt_notes nt) in
    v ← deref (nt_players nt !! p);
    if pn_l v =? 0 then
      _ ← c_assert (pn_t v =? 0);
      let v := mk_pn (pn_next v) (pn_playerid v) (pn_m v) msg msg in
      Ret (with_players (with_notes nt notes) (<[p := v]> (nt_players nt)), msg)
    else
      _ ← c_assert (negb (pn_t v =? 0));
      t ← deref (notes !! pn_t v);
      _ ← c_assert (nf_next t =? 0);
      let notes := <[pn_t v := mk_note msg (nf_type t) (nf_rkey t) (nf_value t)]> notes in
      let v := mk_pn (pn_next v) (pn_playerid v) (pn_m v) (pn_l v) msg in
      Ret (with_players (with_notes nt notes) (<[p := v]> (nt_players nt)), msg).

Definition notification_add (nt : notifier) (playerid type : Z) (value : option amf_value) : outcome notifier :=
  '(nt, _) ← notification_add_r nt playerid type value; Ret nt.

Definition notification_set (nt : notifier) (playerid type key : Z) (value : option amf_value) : outcome notifier :=
  '(nt, p) ← get_player_notify nt playerid;
  let rkey := Z.lor (Z.shiftl (u32 key) 32) type in
  v ← deref (nt_players nt !! p);
  msg ← pm_get (pn_m v) rkey;
  if negb (msg =? 0) then
    n ← deref (nt_notes nt !! msg);
    Ret (with_notes nt (<[msg := mk_note (nf_next n) (nf_type n) (nf_rkey n) value]> (nt_notes nt)))
  else
    '(nt, msg) ← notification_add_r nt playerid type value;
    n ← deref (nt_notes nt !! msg);
    let nt := with_notes nt (<[msg := mk_note (nf_next n) (nf_type n) rkey (nf_value n)]> (nt_notes nt)) in
    v ← deref (nt_players nt !! p);
    '(m, _) ← pm_set (pn_m v) rkey msg;
    Ret (with_players nt (<[p := mk_pn (pn_next v) (pn_playerid v) m (pn_l v) (pn_t v)]> (nt_players nt))).

(** The element of the message for a notification. *)
Definition note_element (n : Notify) : outcome amf_value :=
  match nf_value n with
  | Some value =>
    '(c, _) ← amf_set (amf_new_array 2) 0 (Some (amf_new_integer (nf_type n)));
    '(c, _) ← amf_set c 1 (Some value);
    Ret c
  | None => '(c, _) ← amf_set (amf_new_array 1) 0 (Some (amf_new_integer (nf_type n))); Ret c
  end.

(** The loop over the notifications of the player at [p]. *)
Fixpoint notes_loop (fuel : nat) (nt : notifier) (p : Z) (msg : amf_value) : outcome (notifier * amf_value) :=
  v ← deref (nt_players nt !! p);
  if pn_l v =? 0 then Ret (nt, msg)
  else
    match fuel with
    | O => NoFuel
    | S fuel' =>
      n ← deref (nt_notes nt !! pn_l v);
      c ← note_element n;
      msg ← amf_push msg (Some c);
      '(m, _) ← pm_set (pn_m v) (nf_rkey n) 0;
      let v' := mk_pn (pn_next v) (pn_playerid v) m (nf_next n) (pn_t v) in
      notes_loop fuel' (with_players (with_notes nt (delete (pn_l v) (nt_notes nt))) (<[p := v']> (nt_players nt))) p msg
    end.

Context {Out : Type} `{Sender Out} {pbc : Pbc}.

(** The end of the loop over the players: the message [msg] is sent. *)
Definition send_notify (s : Out) (playerid : Z) (msg : amf_value) : outcome Out :=
  if playerid =? 0 then
    len ← amf_get_encode_length (Some msg);
    '(n, message) ← amf_encode (repeat 0 (Z.to_nat len)) 0 len (Some msg);
    bytes ← load_bytes message 0 n;
    broadcast_to_client s C_PLAYER_DATA_CHANGE 1 bytes
  else send_amf_message_to s playerid C_PLAYER_DATA_CHANGE msg.

Fixpoint players_loop (fuel : nat) (nt : notifier) (s : Out) : outcome (notifier * Out) :=
  if player_notify_list nt =? 0 then Ret (nt, s)
  else
    match fuel with
    | O => NoFuel
    | S fuel' =>
      let p := player_notify_list nt in
      v ← deref (nt_players nt !! p);
      '(h, _) ← pm_set (player_notify_hash nt) (pn_playerid v) 0;
      let nt := mk_notifier (nt_notes nt) (nt_players nt) h (pn_next v) (nt_counts nt) in
      msg ← amf_push (amf_new_array 0) (Some (amf_new_integer 0));
      msg ← amf_push msg (Some (amf_new_integer RET_SUCCESS));
      '(nt, msg) ← notes_loop (size (nt_notes nt)) nt p msg;
      s ← send_notify s (pn_playerid v) msg;
      players_loop fuel' (with_players nt (delete p (nt_players nt))) s
    end.

(** [notification_clean]; the counts are sent at its end. *)
Definition notification_clean (nt : notifier) (s : Out) (now : Z) : outcome (notifier * Out * list count_notice) :=
  '(nt, s) ← players_loop (size (nt_players nt)) nt s;
  '(nb, es) ← _nb_clean (nt_counts nt) false now;
  Ret (with_counts nt nb, s, es).
End Operations.
