(* ===== verification/NotifyTheorems.v ===== *)
(** * Notifications are collected and sent

    The queues of [Notify] refine a list of players with a list of notifications each; cleaning sends
    one message for each of them and leaves no memory behind. *)
From S2P Require Import Prelude AmfWire AmfValue AmfTheorems AgMap Package NotifyCount Notify.

(** ** The abstract queue *)

(** A notification that waits, with its key when it was entered by [notification_set]. *)
Record note := mk_n { n_key : option Z; n_type : Z; n_value : option amf_value }.
Definition pending : Type := list (Z * list note).

(** A call: the key is null for [notification_add]. *)
Record post := mk_post { po_player : Z; po_type : Z; po_key : option Z; po_value : option amf_value }.
Definition rkey_of (key type : Z) : Z := Z.lor (Z.shiftl (u32 key) 32) type.
Definition post_note (x : post) : note := mk_n ((fun k => rkey_of k (po_type x)) <$> po_key x) (po_type x) (po_value x).

(** A notification with the key of one that waits replaces its value; others are entered at the end. *)
Definition same_key (k : option Z) (y : note) : Prop := is_Some k /\ n_key y = k.
#[global] Instance same_key_dec k y : Decision (same_key k y).
Proof. unfold same_key. apply _. Defined.
Definition place (l : list note) (x : note) : list note :=
  match list_find (same_key (n_key x)) l with
  | Some (i, y) => <[i := mk_n (n_key y) (n_type y) (n_value x)]> l
  | None => l ++ [x]
  end.

(** A player without notifications is entered in front. *)
Definition ensure (pid : Z) (l : pending) : pending := if bool_decide (pid ∈ map fst l) then l else (pid, []) :: l.
Definition enter (l : pending) (x : post) : pending :=
  map (fun e => if fst e =? po_player x then (fst e, place (snd e) (post_note x)) else e) (ensure (po_player x) l).

(** The message of a player: no serial number, success, and an element for each notification. *)
Definition element_of (x : note) : option amf_value :=
  Some (match n_value x with
        | Some v => AV amf_array 2 (PChild [Some (amf_new_integer (n_type x)); Some v])
        | None => AV amf_array 1 (PChild [Some (amf_new_integer (n_type x))])
        end).
Definition message_for (m : Z * amf_value) (e : Z * list note) : Prop :=
  fst m = fst e /\ wf_amf (snd m) /\
  amf_elems (snd m) = [Some (amf_new_integer 0); Some (amf_new_integer RET_SUCCESS)] ++ map element_of (snd e).

Definition post_ok (x : post) : Prop :=
  0 <= po_type x < 2 ^ 32 /\ (forall v, po_value x = Some v -> wf_amf v).
Definition note_ok (x : note) : Prop := 0 <= n_type x < 2 ^ 32 /\ forall v, n_value x = Some v -> wf_amf v.

Section Theorems.
Context {M : Type} `{PtrMapLaws M} (map_new : M) (malloc_note : gmap Z Notify -> Z) (malloc_player : gmap Z (PlayerNotify M) -> Z).
Context (map_new_ok : pm_ok map_new) (map_new_empty : pm_abs map_new = ∅)
        (note_fresh : forall h, h !! malloc_note h = None /\ malloc_note h <> 0)
        (player_fresh : forall h, h !! malloc_player h = None /\ malloc_player h <> 0).
#[local] Abbreviation notifier := (notify_state M).

(** *** The representation: the waiting notifications with their addresses *)

#[local] Abbreviation lnote := (Z * note)%type.
#[local] Abbreviation entry := (Z * (Z * list (Z * note)))%type.
Definition note_is (n : Notify) (x : note) : Prop :=
  nf_type n = n_type x /\ nf_value n = n_value x /\ nf_rkey n = default 0 (n_key x).
Record notes_ok (notes : gmap Z Notify) (v : PlayerNotify M) (l : list lnote) : Prop := {
  no_list : slist nf_next notes (pn_l v) (map fst l);
  no_tail : pn_t v = default 0 (list.last (map fst l));
  no_note : forall b x, (b, x) ∈ l -> note_ok x /\ exists n, notes !! b = Some n /\ note_is n x;
  no_nodup : NoDup (map fst l);
  no_map : pm_ok (pn_m v);
  no_find : forall k b, pm_abs (pn_m v) !! k = Some b <-> exists x, (b, x) ∈ l /\ n_key x = Some k }.

Definition addresses (A : list entry) : list Z := concat (map (fun e => map fst (snd (snd e))) A).
Record rep (nt : notifier) (A : list entry) : Prop := {
  rp_list : slist pn_next (nt_players nt) (player_notify_list nt) (map fst A);
  rp_entry : forall a pid l, (a, (pid, l)) ∈ A -> exists v, nt_players nt !! a = Some v /\ pn_playerid v = pid /\ notes_ok (nt_notes nt) v l;
  rp_nodup : NoDup (map fst A);
  rp_pids : NoDup (map (fun e => fst (snd e)) A);
  rp_notes : NoDup (addresses A);
  rp_dom : forall b, is_Some (nt_notes nt !! b) -> b ∈ addresses A;
  rp_players : forall a, is_Some (nt_players nt !! a) -> a ∈ map fst A;
  rp_hash : pm_ok (player_notify_hash nt);
  rp_find : forall pid a, pm_abs (player_notify_hash nt) !! pid = Some a <-> exists l, (a, (pid, l)) ∈ A }.

Definition erase (A : list entry) : pending := map (fun e => (fst (snd e), map snd (snd (snd e)))) A.

Lemma notes_frame notes notes' v l :
  (forall b, b ∈ map fst l -> notes' !! b = notes !! b) -> notes_ok notes v l -> notes_ok notes' v l.
Proof.
  intros Hf [H1 H2 H3 H4 H5 H6]. constructor; try assumption.
  - eapply slist_frame; [|exact H1]. intros b Hb. now rewrite Hf.
  - intros b x Hx. destruct (H3 b x Hx) as (Hok & n & Hn & Hi). split; [exact Hok|]. exists n. rewrite Hf; [auto|].
    apply list_elem_of_fmap. exists (b, x). auto.
Qed.

Lemma elem_of_addresses A b : b ∈ addresses A <-> exists e, e ∈ A /\ b ∈ map fst (snd (snd e)).
Proof.
  unfold addresses. induction A as [|e A IH]; cbn [map concat].
  - split; [intros Hb; inversion Hb|intros (e & He & _); inversion He].
  - rewrite elem_of_app, IH. split.
    + intros [Hb|(f & Hf & Hb)]; [exists e|exists f]; (split; [|exact Hb]); [left|now right].
    + intros (f & Hf & Hb). apply elem_of_cons in Hf as [->|Hf]; eauto.
Qed.

Lemma in_addresses A a pid l b x : (a, (pid, l)) ∈ A -> (b, x) ∈ l -> b ∈ addresses A.
Proof.
  intros Ha Hb. apply elem_of_addresses. exists (a, (pid, l)). split; [exact Ha|]. apply list_elem_of_fmap. exists (b, x). auto.
Qed.

(** Two different entries have no notification in common. *)
Lemma addresses_disjoint A1 a pid l A2 : NoDup (addresses (A1 ++ (a, (pid, l)) :: A2)) ->
  NoDup (map fst l) /\ NoDup (addresses (A1 ++ A2)) /\ forall b, b ∈ map fst l -> b ∉ addresses (A1 ++ A2).
Proof.
  unfold addresses. rewrite !map_app, !concat_app. cbn [map concat snd fst].
  intros Hnd. assert (Hp : NoDup (map fst l ++ concat (map (fun e : entry => map fst (snd (snd e))) A1) ++
     concat (map (fun e : entry => map fst (snd (snd e))) A2))).
  { eapply NoDup_Permutation_proper; [|exact Hnd]. rewrite (Permutation_app_comm (concat _) (map fst l ++ _)), <- app_assoc.
    apply Permutation_app_head, Permutation_app_comm. }
  apply list.NoDup_app in Hp as (H1 & H2 & H3). auto.
Qed.

(** Changing the entry in the middle: the structure of the player, its notifications, and nothing else. *)
Lemma rep_update nt A1 a pid l A2 v v' notes' l' :
  rep nt (A1 ++ (a, (pid, l)) :: A2) -> nt_players nt !! a = Some v ->
  pn_next v' = pn_next v -> pn_playerid v' = pn_playerid v ->
  (forall b, b ∈ addresses (A1 ++ A2) -> notes' !! b = nt_notes nt !! b) ->
  notes_ok notes' v' l' -> (forall b, b ∈ map fst l' -> b ∉ addresses (A1 ++ A2)) ->
  (forall b, is_Some (notes' !! b) -> b ∈ addresses (A1 ++ A2) \/ b ∈ map fst l') ->
  rep (with_players (with_notes nt notes') (<[a := v']> (nt_players nt))) (A1 ++ (a, (pid, l')) :: A2).
Proof.
  intros [R1 R2 R3 R4 R5 R6 R7 R8 R9] Hv Hnx Hpid Hf Hok Hdis Hdom.
  assert (Hmid : map fst (A1 ++ (a, (pid, l')) :: A2) = map fst (A1 ++ (a, (pid, l)) :: A2)) by now rewrite !map_app.
  assert (Hcase : forall e : entry, e ∈ A1 ++ (a, (pid, l')) :: A2 -> e = (a, (pid, l')) \/ e ∈ A1 ++ A2).
  { intros e He. apply elem_of_app in He as [He|He]; [right; apply elem_of_app; auto|].
    apply elem_of_cons in He as [->|He]; [auto|right; apply elem_of_app; auto]. }
  assert (Hsub : forall e : entry, e ∈ A1 ++ A2 -> e ∈ A1 ++ (a, (pid, l)) :: A2).
  { intros e He. apply elem_of_app in He as [He|He]; apply elem_of_app; [now left|right; now right]. }
  assert (Hne : forall b q k, (b, (q, k)) ∈ A1 ++ A2 -> b <> a).
  { intros b q k Hb ->. rewrite map_app in R3. apply list.NoDup_app in R3 as (_ & R3a & R3b). cbn in R3b.
    apply list.NoDup_cons in R3b as [R3b _]. apply elem_of_app in Hb as [Hb|Hb].
    - apply (R3a a); [|left]. apply list_elem_of_fmap. exists (a, (q, k)). auto.
    - apply R3b. apply list_elem_of_fmap. exists (a, (q, k)). auto. }
  assert (Haddr : forall k, Permutation (addresses (A1 ++ (a, (pid, k)) :: A2)) (map fst k ++ addresses (A1 ++ A2))).
  { intros k. unfold addresses. rewrite !map_app, !concat_app. cbn [map concat snd fst].
    rewrite (Permutation_app_comm (concat _) (map fst k ++ _)), <- app_assoc. apply Permutation_app_head, Permutation_app_comm. }
  pose proof (addresses_disjoint _ _ _ _ _ R5) as (_ & Hrest & _).
  constructor; cbn [with_players with_notes nt_players nt_notes player_notify_hash player_notify_list].
  - rewrite Hmid. eapply slist_frame; [|exact R1]. intros b _. destruct (decide (b = a)) as [->|Hb].
    + rewrite lookup_insert_eq, Hv. cbn. now rewrite Hnx.
    + now rewrite lookup_insert_ne by congruence.
  - intros b q k Hin. apply Hcase in Hin as [[= -> -> ->]|Hin].
    + exists v'. rewrite lookup_insert_eq. split; [reflexivity|]. split; [|exact Hok].
      destruct (R2 a pid l) as (w & Hw & Hp & _); [apply elem_of_app; right; left|]. congruence.
    + destruct (R2 b q k (Hsub _ Hin)) as (w & Hw & Hp & Hk). exists w. rewrite lookup_insert_ne by (apply not_eq_sym; eauto).
      split; [exact Hw|]. split; [exact Hp|]. eapply notes_frame; [|exact Hk]. intros c Hc. apply Hf.
      apply elem_of_addresses. exists (b, (q, k)). auto.
  - now rewrite Hmid.
  - now rewrite map_app in *.
  - rewrite Haddr. apply list.NoDup_app. split; [apply (no_nodup _ _ _ Hok)|]. split; [exact Hdis|exact Hrest].
  - intros b Hb. rewrite Haddr. apply elem_of_app. apply Hdom in Hb as [Hb|Hb]; auto.
  - intros b Hb. rewrite Hmid. apply R7. destruct (decide (b = a)) as [->|Hb']; [rewrite Hv; eauto|].
    now rewrite lookup_insert_ne in Hb by congruence.
  - exact R8.
  - intros q b. rewrite R9. split; intros (k & Hk).
    + apply elem_of_app in Hk as [Hk|Hk]; [exists k; apply elem_of_app; auto|].
      apply elem_of_cons in Hk as [[= -> -> ->]|Hk]; [exists l'; apply elem_of_app; right; left|exists k; apply elem_of_app; right; now right].
    + apply Hcase in Hk as [[= -> -> ->]|Hk]; [exists l; apply elem_of_app; right; left|eauto].
Qed.

(** *** Entering notifications *)

Lemma hash_room nt A : rep nt A -> zlen A < 2 ^ 61 -> Z.of_nat (size (pm_abs (player_notify_hash nt))) < 2 ^ 61.
Proof.
  intros [_ _ _ _ _ _ _ _ R9] Hn. assert (Hs : (size (pm_abs (player_notify_hash nt)) <= length (map (fun e : entry => fst (snd e)) A))%nat).
  { apply size_keys. intros k a Ha. apply R9 in Ha as (l & Hl). apply list_elem_of_fmap. exists (a, (k, l)). auto. }
  rewrite length_map in Hs. unfold zlen in Hn. lia.
Qed.

Lemma map_room notes v l : notes_ok notes v l -> zlen l < 2 ^ 61 -> Z.of_nat (size (pm_abs (pn_m v))) < 2 ^ 61.
Proof.
  intros [_ _ _ _ _ H6] Hn. assert (Hs : (size (pm_abs (pn_m v)) <= length (map (fun e : lnote => default 0%Z (n_key (snd e))) l))%nat).
  { apply size_keys. intros k b Hb. apply H6 in Hb as (x & Hx & Hk). apply list_elem_of_fmap. exists (b, x). cbn. now rewrite Hk. }
  rewrite length_map in Hs. unfold zlen in Hn. lia.
Qed.

Lemma entry_at A1 (a pid : Z) (l : list lnote) (A2 : list entry) : (a, (pid, l)) ∈ A1 ++ (a, (pid, l)) :: A2.
Proof. apply elem_of_app. right. left. Qed.

Lemma get_found nt A a pid l : rep nt A -> (a, (pid, l)) ∈ A -> get_player_notify map_new malloc_player nt pid = Ret (nt, a).
Proof.
  intros Hrep Ha. unfold get_player_notify. rewrite (pm_get_spec _ _ (rp_hash _ _ Hrep)).
  rewrite (proj2 (rp_find _ _ Hrep pid a)) by eauto. cbn [mbind outcome_bind default from_option Datatypes.id].
  assert (Hn : a <> 0). { eapply slist_nonzero; [apply (rp_list _ _ Hrep)|]. apply list_elem_of_fmap. exists (a, (pid, l)). auto. }
  destruct (Z.eqb_spec a 0); [contradiction|reflexivity].
Qed.

Lemma pids_erase A : map fst (erase A) = map (fun e : entry => fst (snd e)) A.
Proof. unfold erase. rewrite map_map. reflexivity. Qed.

Lemma player_notify_spec nt A pid : rep nt A -> zlen A < 2 ^ 61 ->
  exists nt' A1 a l A2, get_player_notify map_new malloc_player nt pid = Ret (nt', a) /\
    rep nt' (A1 ++ (a, (pid, l)) :: A2) /\ erase (A1 ++ (a, (pid, l)) :: A2) = ensure pid (erase A) /\
    nt_counts nt' = nt_counts nt.
Proof.
  intros Hrep Hroom. unfold ensure. rewrite pids_erase. case_bool_decide as Hin.
  - apply list_elem_of_fmap in Hin as ([a [q l]] & -> & Ha). cbn [fst snd].
    pose proof (get_found _ _ _ _ _ Hrep Ha) as Hg. apply list_elem_of_split in Ha as (A1 & A2 & ->).
    exists nt, A1, a, l, A2. auto.
  - unfold get_player_notify. rewrite (pm_get_spec _ _ (rp_hash _ _ Hrep)).
    assert (Hno : pm_abs (player_notify_hash nt) !! pid = None).
    { apply eq_None_not_Some. intros [a Ha]. apply (rp_find _ _ Hrep) in Ha as (l & Hl). apply Hin.
      apply list_elem_of_fmap. exists (a, (pid, l)). auto. }
    rewrite Hno. cbn [mbind outcome_bind default from_option Datatypes.id Z.eqb].
    destruct (player_fresh (nt_players nt)) as [Hfr Hnz]. set (a := malloc_player (nt_players nt)) in *.
    destruct (Z.eqb_spec a 0); [contradiction|].
    destruct (pm_set_spec (player_notify_hash nt) pid a (rp_hash _ _ Hrep) (hash_room _ _ Hrep Hroom)) as (h & -> & Hh & Ha).
    cbn [mbind outcome_bind]. eexists _, [], a, [], A. split; [reflexivity|]. split; [|auto].
    assert (Hnew : a ∉ map fst A).
    { intros Hx. destruct (slist_nonzero _ _ _ _ _ (rp_list _ _ Hrep) Hx) as [_ Hs]. rewrite Hfr in Hs. now apply is_Some_None in Hs. }
    assert (Hframe : forall b, b <> a -> <[a := mk_pn (player_notify_list nt) pid map_new 0 0]> (nt_players nt) !! b = nt_players nt !! b).
    { intros b Hb. now rewrite lookup_insert_ne by congruence. }
    destruct Hrep as [R1 R2 R3 R4 R5 R6 R7 R8 R9].
    constructor; cbn [nt_players nt_notes player_notify_hash player_notify_list app map fst].
    + cbn. split; [reflexivity|]. split; [exact Hnz|]. eexists. split; [apply lookup_insert_eq|]. cbn [pn_next].
      eapply slist_frame; [|exact R1]. intros b Hb. rewrite Hframe; [reflexivity|congruence].
    + intros b q k Hk. apply elem_of_cons in Hk as [[= -> -> ->]|Hk].
      * eexists. split; [apply lookup_insert_eq|]. split; [reflexivity|]. constructor; cbn.
        -- reflexivity.
        -- reflexivity.
        -- intros b x Hx. inversion Hx.
        -- constructor.
        -- exact map_new_ok.
        -- intros k b. rewrite map_new_empty, lookup_empty. split; [discriminate|]. intros (x & Hx & _). inversion Hx.
      * destruct (R2 b q k Hk) as (v & Hv & Hrest). exists v. rewrite Hframe; [auto|]. intros ->. apply Hnew.
        apply list_elem_of_fmap. exists (a, (q, k)). auto.
    + constructor; assumption.
    + constructor; [exact Hin|exact R4].
    + exact R5.
    + exact R6.
    + intros b Hb. destruct (decide (b = a)) as [->|Hne]; [left|right]. apply R7. now rewrite Hframe in Hb.
    + exact Hh.
    + intros q b. rewrite Ha. destruct (Z.eqb_spec a 0); [contradiction|]. rewrite lookup_insert_Some, R9. split.
      * intros [[<- <-]|[Hne (k & Hk)]]; [exists []; left|exists k; now right].
      * intros (k & Hk). apply elem_of_cons in Hk as [[= -> -> ->]|Hk]; [now left|]. right. split; [|eauto]. intros <-.
        apply Hin. apply list_elem_of_fmap. exists (b, (pid, k)). auto.
Qed.

Lemma last_snoc_fst (l : list lnote) e : default 0 (list.last (map fst (l ++ [e]))) = fst e.
Proof. rewrite map_app. cbn. now rewrite last_snoc. Qed.

(** A new notification at the end of a player's list. *)
Lemma add_spec nt nt1 A1 a pid l A2 type value :
  get_player_notify map_new malloc_player nt pid = Ret (nt1, a) ->
  rep nt1 (A1 ++ (a, (pid, l)) :: A2) -> note_ok (mk_n None type value) ->
  exists nt' b v, notification_add_r map_new malloc_note malloc_player nt pid type value = Ret (nt', b) /\
    rep nt' (A1 ++ (a, (pid, l ++ [(b, mk_n None type value)])) :: A2) /\
    nt_notes nt' !! b = Some (mk_note 0 type 0 value) /\
    nt_players nt1 !! a = Some v /\ nt_counts nt' = nt_counts nt1 /\
    nt_players nt' !! a = Some (mk_pn (pn_next v) (pn_playerid v) (pn_m v) (default b (head (map fst l))) b).
Proof.
  intros Hget Hrep Hok. unfold notification_add_r. rewrite Hget. cbn [mbind outcome_bind].
  destruct (note_fresh (nt_notes nt1)) as [Hfr Hnz]. set (b := malloc_note (nt_notes nt1)) in *.
  destruct (Z.eqb_spec b 0); [contradiction|].
  destruct (rp_entry _ _ Hrep a pid l (entry_at _ _ _ _ _)) as (v & Hv & Hpid & Hl). rewrite Hv. cbn [deref mbind outcome_bind].
  pose proof Hl as [H1 H2 H3 H4 H5 H6]. pose proof (addresses_disjoint _ _ _ _ _ (rp_notes _ _ Hrep)) as (_ & _ & Hdis).
  assert (Hlive : forall c, c ∈ addresses (A1 ++ A2) -> is_Some (nt_notes nt1 !! c)).
  { intros c Hc. apply elem_of_addresses in Hc as ([a' [q k]] & He & Hc). cbn in Hc.
    assert (He' : (a', (q, k)) ∈ A1 ++ (a, (pid, l)) :: A2).
    { apply elem_of_app in He as [He|He]; apply elem_of_app; [now left|right; now right]. }
    destruct (rp_entry _ _ Hrep a' q k He') as (w & _ & _ & Hk). eapply slist_nonzero; [apply (no_list _ _ _ Hk)|exact Hc]. }
  assert (Hbl : b ∉ map fst l).
  { intros Hb. destruct (slist_nonzero _ _ _ _ _ H1 Hb) as [_ Hs]. rewrite Hfr in Hs. now apply is_Some_None in Hs. }
  assert (Hba : b ∉ addresses (A1 ++ A2)).
  { intros Hb. apply Hlive in Hb. rewrite Hfr in Hb. now apply is_Some_None in Hb. }
  set (x := mk_n None type value).
  assert (Hgo : forall notes' hd, slist nf_next notes' hd (map fst (l ++ [(b, x)])) ->
    hd = default b (head (map fst l)) ->
    (forall c, c <> b -> c ∉ map fst l -> notes' !! c = nt_notes nt1 !! c) ->
    (forall c, is_Some (notes' !! c) -> c = b \/ is_Some (nt_notes nt1 !! c)) ->
    (forall c y, (c, y) ∈ l -> exists n, notes' !! c = Some n /\ note_is n y) ->
    notes' !! b = Some (mk_note 0 type 0 value) ->
    rep (with_players (with_notes nt1 notes') (<[a := mk_pn (pn_next v) (pn_playerid v) (pn_m v) hd b]> (nt_players nt1)))
      (A1 ++ (a, (pid, l ++ [(b, x)])) :: A2)).
  { intros notes' hd Hs Hhd Hf Hd Hn Hb. eapply (rep_update _ _ _ _ _ _ v); [exact Hrep|exact Hv|reflexivity|reflexivity| | | |].
    - intros c Hc. apply Hf; [congruence|]. intros Hcl. exact (Hdis c Hcl Hc).
    - constructor; cbn [pn_l pn_t pn_m].
      + exact Hs.
      + now rewrite last_snoc_fst.
      + intros c y Hc. apply elem_of_app in Hc as [Hc|Hc].
        * split; [exact (proj1 (H3 c y Hc))|exact (Hn c y Hc)].
        * apply list_elem_of_singleton in Hc. injection Hc as -> ->. split; [exact Hok|]. eexists. split; [exact Hb|]. repeat split.
      + rewrite map_app. apply list.NoDup_app. split; [exact H4|]. split; [|apply list.NoDup_singleton].
        intros c Hc Hc'. apply list_elem_of_singleton in Hc'. cbn in Hc'. subst c. contradiction.
      + exact H5.
      + intros k c. rewrite H6. split; intros (y & Hy & Hk).
        * exists y. split; [apply elem_of_app; now left|exact Hk].
        * apply elem_of_app in Hy as [Hy|Hy]; [eauto|]. apply list_elem_of_singleton in Hy. injection Hy as -> ->. discriminate.
    - intros c Hc. rewrite map_app in Hc. apply elem_of_app in Hc as [Hc|Hc]; [exact (Hdis c Hc)|].
      apply list_elem_of_singleton in Hc. cbn in Hc. subst c. exact Hba.
    - intros c Hc. destruct (Hd c Hc) as [->|Hs'].
      + right. rewrite map_app. apply elem_of_app. right. left.
      + apply (rp_dom _ _ Hrep) in Hs'. apply elem_of_addresses in Hs' as ([a' [q k]] & He & Hck).
        apply elem_of_app in He as [He|He]; [left; apply elem_of_addresses; exists (a', (q, k)); split; [apply elem_of_app; now left|exact Hck]|].
        apply elem_of_cons in He as [[= -> -> ->]|He]; [right; rewrite map_app; apply elem_of_app; now left|].
        left. apply elem_of_addresses. exists (a', (q, k)). split; [apply elem_of_app; now right|exact Hck]. }
  destruct (decide (l = [])) as [->|Hne].
  - cbn in H1, H2. rewrite H1, H2. cbn [Z.eqb c_assert mbind outcome_bind].
    exists (with_players (with_notes nt1 (<[b := mk_note 0 type 0 value]> (nt_notes nt1)))
              (<[a := mk_pn (pn_next v) (pn_playerid v) (pn_m v) b b]> (nt_players nt1))), b, v.
    split; [reflexivity|]. split; [|cbn; rewrite !lookup_insert_eq; auto]. apply Hgo.
    + cbn. split; [reflexivity|]. split; [exact Hnz|]. rewrite lookup_insert_eq. eauto.
    + reflexivity.
    + intros c Hc _. now rewrite lookup_insert_ne by congruence.
    + intros c Hc. destruct (decide (c = b)) as [->|Hc']; [now left|right]. now rewrite lookup_insert_ne in Hc by congruence.
    + intros c y Hc. inversion Hc.
    + apply lookup_insert_eq.
  - destruct (exists_last Hne) as (l0 & [t y] & ->). rewrite last_snoc_fst in H2. cbn [fst] in H2.
    assert (Hty : (t, y) ∈ l0 ++ [(t, y)]) by (apply elem_of_app; right; left).
    assert (Htl : t ∈ map fst (l0 ++ [(t, y)])) by (apply list_elem_of_fmap; exists (t, y); auto).
    destruct (slist_nonzero _ _ _ _ _ H1 Htl) as [Ht0 _]. destruct (H3 t y Hty) as (_ & w & Hn & Hi).
    assert (Htb : t <> b) by (intros ->; contradiction).
    assert (Hhead : pn_l v = default b (head (map fst (l0 ++ [(t, y)]))) /\ pn_l v <> 0).
    { destruct l0 as [|[c z] l0]; cbn in H1 |- *; (split; [apply H1|]); destruct H1 as (-> & Hc & _); exact Hc. }
    destruct Hhead as [Hhead Hl0]. destruct (Z.eqb_spec (pn_l v) 0); [contradiction|]. rewrite H2.
    destruct (Z.eqb_spec t 0); [contradiction|]. cbn [negb c_assert mbind outcome_bind].
    rewrite lookup_insert_ne, Hn by congruence. cbn [deref mbind outcome_bind].
    assert (Hnt : nf_next w = 0).
    { rewrite map_app in H1. exact (slist_last _ _ _ _ _ _ H1 Hn). }
    rewrite Hnt. cbn [Z.eqb c_assert mbind outcome_bind].
    set (notes' := <[t := mk_note b (nf_type w) (nf_rkey w) (nf_value w)]> (<[b := mk_note 0 type 0 value]> (nt_notes nt1))).
    assert (Hnd : t ∉ map fst l0).
    { rewrite map_app in H4. apply list.NoDup_app in H4 as (_ & H4 & _). intros Hx. apply (H4 t Hx). left. }
    exists (with_players (with_notes nt1 notes') (<[a := mk_pn (pn_next v) (pn_playerid v) (pn_m v) (pn_l v) b]> (nt_players nt1))), b, v.
    split; [reflexivity|]. split.
    + apply Hgo.
      * rewrite !map_app. cbn [map fst]. rewrite map_app in H1. cbn [map fst] in H1. eapply slist_snoc; [exact H1| | | |exact Hnz].
        -- intros c Hc. unfold notes'. assert (Hct : c <> t) by (intros ->; contradiction).
           assert (Hcb : c <> b) by (intros ->; apply Hbl; rewrite map_app; apply elem_of_app; now left).
           now rewrite !lookup_insert_ne by congruence.
        -- unfold notes'. rewrite lookup_insert_eq. reflexivity.
        -- unfold notes'. rewrite lookup_insert_ne, lookup_insert_eq by congruence. reflexivity.
      * exact Hhead.
      * intros c Hc Hcl. unfold notes'. assert (Hct : c <> t) by (intros ->; contradiction).
        now rewrite !lookup_insert_ne by congruence.
      * intros c Hc. unfold notes' in Hc. destruct (decide (c = b)) as [->|Hcb]; [now left|right].
        destruct (decide (c = t)) as [->|Hct]; [rewrite Hn; eauto|]. now rewrite !lookup_insert_ne in Hc by congruence.
      * intros c z Hc. destruct (H3 c z Hc) as (_ & m & Hm & Him). unfold notes'. destruct (decide (c = t)) as [->|Hct].
        -- rewrite lookup_insert_eq. eexists. split; [reflexivity|]. assert (m = w) as -> by congruence. exact Him.
        -- assert (Hcb : c <> b) by (intros ->; apply Hbl, list_elem_of_fmap; exists (b, z); auto).
           rewrite !lookup_insert_ne by congruence. eauto.
      * unfold notes'. rewrite lookup_insert_ne by congruence. apply lookup_insert_eq.
    + split; [|split; [reflexivity|]].
      * cbn. unfold notes'. rewrite lookup_insert_ne by congruence. apply lookup_insert_eq.
      * split; [reflexivity|]. cbn [with_players nt_players]. rewrite lookup_insert_eq. do 2 f_equal. exact Hhead.
Qed.

Definition bounded (n : Z) (l : pending) : Prop := zlen l <= n /\ Forall (fun e => zlen (snd e) <= n) l.

Lemma place_length l x : zlen (place l x) <= zlen l + 1.
Proof.
  unfold place. destruct (list_find _ l) as [[i y]|].
  - unfold zlen. rewrite length_insert. lia.
  - autorewrite with cserver. lia.
Qed.

Lemma enter_bounded n l x : 0 <= n -> bounded n l -> bounded (n + 1) (enter l x).
Proof.
  intros Hn [Hl Hf]. assert (He : zlen (ensure (po_player x) l) <= n + 1 /\ Forall (fun e => zlen (snd e) <= n) (ensure (po_player x) l)).
  { unfold ensure. case_bool_decide; [split; [lia|exact Hf]|]. split; [rewrite zlen_cons; lia|]. constructor; [cbn; exact Hn|exact Hf]. }
  destruct He as [H1 H2]. unfold enter. split; [unfold zlen in *; now rewrite length_map|].
  apply list.Forall_forall. intros e He. apply list_elem_of_fmap in He as (f & -> & Hin).
  pose proof (proj1 (list.Forall_forall _ _) H2 f Hin) as Hle. destruct (fst f =? po_player x); cbn [snd] in *.
  - pose proof (place_length (snd f) (post_note x)). lia.
  - lia.
Qed.

Lemma erase_entry A1 (a pid : Z) (l l' : list lnote) A2 f :
  NoDup (map (fun e : entry => fst (snd e)) (A1 ++ (a, (pid, l)) :: A2)) -> map snd l' = f (map snd l) ->
  erase (A1 ++ (a, (pid, l')) :: A2) =
  map (fun e => if fst e =? pid then (fst e, f (snd e)) else e) (erase (A1 ++ (a, (pid, l)) :: A2)).
Proof.
  intros Hnd Hl. unfold erase. rewrite !map_app in *. cbn [map fst snd] in *. rewrite Z.eqb_refl, Hl.
  apply list.NoDup_app in Hnd as (_ & H1 & H2). apply list.NoDup_cons in H2 as [H2 _].
  assert (Hid : forall B : list entry, pid ∉ map (fun e : entry => fst (snd e)) B ->
    map (fun e => if fst e =? pid then (fst e, f (snd e)) else e) (map (fun e : entry => (fst (snd e), map snd (snd (snd e)))) B) =
    map (fun e : entry => (fst (snd e), map snd (snd (snd e)))) B).
  { clear. induction B as [|e B IH]; intros Hn; [reflexivity|]. cbn [map] in *. apply not_elem_of_cons in Hn as [Hne Hn].
    rewrite IH by exact Hn. cbn [fst]. destruct (Z.eqb_spec (fst (snd e)) pid); [congruence|reflexivity]. }
  rewrite !Hid; [reflexivity|exact H2|]. intros Hx. apply (H1 pid Hx). left.
Qed.

Lemma erase_zlen (A : list entry) : zlen (erase A) = zlen A.
Proof. unfold zlen, erase. now rewrite length_map. Qed.

Lemma erase_bound nt A n a pid l : rep nt A -> bounded n (erase A) -> (a, (pid, l)) ∈ A -> zlen A <= n /\ zlen l <= n.
Proof.
  intros _ [H1 H2] Ha. split; [now rewrite <- erase_zlen|].
  assert (He : (pid, map snd l) ∈ erase A) by (apply list_elem_of_fmap; exists (a, (pid, l)); auto).
  apply (proj1 (list.Forall_forall _ _) H2) in He. cbn in He. unfold zlen in *. now rewrite length_map in He.
Qed.

Lemma add_post_spec nt A n x : rep nt A -> bounded n (erase A) -> 0 <= n < 2 ^ 61 -> post_ok x -> po_key x = None ->
  exists nt' A', notification_add map_new malloc_note malloc_player nt (po_player x) (po_type x) (po_value x) = Ret nt' /\
    rep nt' A' /\ erase A' = enter (erase A) x /\ nt_counts nt' = nt_counts nt.
Proof.
  intros Hrep Hb Hn [Ht Hv] Hk. destruct (player_notify_spec nt A (po_player x) Hrep) as (nt1 & A1 & a & l & A2 & Hget & Hrep1 & He & Hc).
  { destruct Hb as [Hb _]. rewrite erase_zlen in Hb. lia. }
  destruct (add_spec nt nt1 A1 a (po_player x) l A2 (po_type x) (po_value x) Hget Hrep1) as (nt' & b & v & Hadd & Hrep' & _ & _ & Hc' & _).
  { split; assumption. }
  unfold notification_add. rewrite Hadd. cbn [mbind outcome_bind]. do 2 eexists. split; [reflexivity|]. split; [exact Hrep'|].
  split; [|congruence]. unfold enter. rewrite <- He.
  apply (erase_entry _ _ _ _ _ _ (fun k => place k (post_note x)) (rp_pids _ _ Hrep1)).
  unfold post_note. rewrite Hk. cbn. unfold place. cbn [n_key]. rewrite map_app.
  destruct (list_find _ (map snd l)) as [[i y]|] eqn:E; [|reflexivity].
  apply list_find_Some in E as (_ & [[k Hsome] _] & _). discriminate.
Qed.

(** The value of a notification that waits is replaced. *)
Lemma notes_replace notes v l i b y value n :
  notes_ok notes v l -> l !! i = Some (b, y) -> notes !! b = Some n -> note_ok (mk_n (n_key y) (n_type y) value) ->
  notes_ok (<[b := mk_note (nf_next n) (nf_type n) (nf_rkey n) value]> notes) v (<[i := (b, mk_n (n_key y) (n_type y) value)]> l) /\
  map fst (<[i := (b, mk_n (n_key y) (n_type y) value)]> l) = map fst l.
Proof.
  intros [H1 H2 H3 H4 H5 H6] Hi Hn Hok.
  assert (Hfst : map fst (<[i := (b, mk_n (n_key y) (n_type y) value)]> l) = map fst l).
  { rewrite map_insert. apply list_insert_id. now rewrite lookup_map, Hi. }
  split; [|exact Hfst]. assert (Hby : (b, y) ∈ l) by (eapply list_elem_of_lookup_2; exact Hi).
  assert (Hlt : (i < length l)%nat) by (eapply lookup_lt_Some; exact Hi).
  assert (Huniq : forall c z j, l !! j = Some (c, z) -> j <> i -> c <> b).
  { intros c z j Hj Hne ->. apply Hne. eapply (list.NoDup_lookup (map fst l)); [exact H4| |].
    - now rewrite lookup_map, Hj.
    - now rewrite lookup_map, Hi. }
  constructor; rewrite ?Hfst; try assumption.
  - eapply slist_frame; [|exact H1]. intros c _. destruct (decide (c = b)) as [->|Hne].
    + now rewrite lookup_insert_eq, Hn.
    + now rewrite lookup_insert_ne by congruence.
  - intros c z Hc. apply list_elem_of_lookup in Hc as (j & Hj). apply list_lookup_insert_Some in Hj as [(<- & [= <- <-] & _)|[Hne Hj]].
    + split; [exact Hok|]. rewrite lookup_insert_eq. eexists. split; [reflexivity|].
      destruct (H3 b y Hby) as (_ & m & Hm & E1 & _ & E3). assert (m = n) as -> by congruence. repeat split; assumption.
    + assert (Hcz : (c, z) ∈ l) by (eapply list_elem_of_lookup_2; exact Hj).
      rewrite lookup_insert_ne by (apply not_eq_sym; eapply Huniq; [exact Hj|congruence]). exact (H3 c z Hcz).
  - intros k c. rewrite H6. split; intros (z & Hz & Hk).
    + apply list_elem_of_lookup in Hz as (j & Hj). destruct (decide (j = i)) as [->|Hne].
      * assert ((c, z) = (b, y)) as [= -> ->] by congruence. exists (mk_n (n_key y) (n_type y) value). split; [|exact Hk].
        eapply list_elem_of_lookup_2, list_lookup_insert_eq. exact Hlt.
      * exists z. split; [|exact Hk]. eapply (list_elem_of_lookup_2 _ j). now rewrite list_lookup_insert_ne by congruence.
    + apply list_elem_of_lookup in Hz as (j & Hj). apply list_lookup_insert_Some in Hj as [(<- & [= <- <-] & _)|[_ Hj]].
      * eauto.
      * exists z. split; [eapply list_elem_of_lookup_2; exact Hj|exact Hk].
Qed.

(** A new notification gets its key. *)
Lemma notes_key notes v l b x k m n :
  notes_ok notes v (l ++ [(b, mk_n None (n_type x) (n_value x))]) -> n_key x = Some k -> note_ok x ->
  notes !! b = Some n -> pm_abs (pn_m v) !! k = None -> pm_ok m -> pm_abs m = <[k := b]> (pm_abs (pn_m v)) ->
  notes_ok (<[b := mk_note (nf_next n) (nf_type n) k (nf_value n)]> notes) (mk_pn (pn_next v) (pn_playerid v) m (pn_l v) (pn_t v)) (l ++ [(b, x)]).
Proof.
  intros [H1 H2 H3 H4 H5 H6] Hk Hok Hn Hno Hm Ha. rewrite map_app in H1, H4. cbn [map fst] in H1, H4.
  assert (Hnb : forall c z, (c, z) ∈ l -> c <> b).
  { intros c z Hc ->. apply list.NoDup_app in H4 as (_ & H4 & _). apply (H4 b); [|left]. apply list_elem_of_fmap. exists (b, z). auto. }
  constructor; cbn [pn_l pn_t pn_m].
  - rewrite map_app. cbn [map fst]. eapply slist_frame; [|exact H1]. intros c _. destruct (decide (c = b)) as [->|Hne].
    + now rewrite lookup_insert_eq, Hn.
    + now rewrite lookup_insert_ne by congruence.
  - now rewrite last_snoc_fst in *.
  - intros c z Hc. apply elem_of_app in Hc as [Hc|Hc].
    + rewrite lookup_insert_ne by (apply not_eq_sym; eauto). apply H3. apply elem_of_app. now left.
    + apply list_elem_of_singleton in Hc. injection Hc as -> ->. split; [exact Hok|]. rewrite lookup_insert_eq.
      eexists. split; [reflexivity|]. destruct (H3 b (mk_n None (n_type x) (n_value x))) as (_ & w & Hw & E1 & E2 & _); [apply elem_of_app; right; left|].
      assert (w = n) as -> by congruence. cbn in *. split; [exact E1|]. split; [exact E2|]. cbn. now rewrite Hk.
  - rewrite map_app. exact H4.
  - exact Hm.
  - intros q c. rewrite Ha, lookup_insert_Some, H6. split.
    + intros [[<- <-]|[Hne (z & Hz & Hq)]].
      * exists x. split; [apply elem_of_app; right; left|exact Hk].
      * apply elem_of_app in Hz as [Hz|Hz]; [exists z; split; [apply elem_of_app; now left|exact Hq]|].
        apply list_elem_of_singleton in Hz. injection Hz as -> ->. discriminate.
    + intros (z & Hz & Hq). apply elem_of_app in Hz as [Hz|Hz].
      * right. split; [|exists z; split; [apply elem_of_app; now left|exact Hq]]. intros <-.
        rewrite (proj2 (H6 k c)) in Hno by (exists z; split; [apply elem_of_app; now left|exact Hq]). discriminate.
      * apply list_elem_of_singleton in Hz. injection Hz as -> ->. left. split; congruence.
Qed.

Lemma with_players_id (nt : notifier) notes a v : nt_players nt !! a = Some v ->
  with_players (with_notes nt notes) (<[a := v]> (nt_players nt)) = with_notes nt notes.
Proof. intros Hv. unfold with_players, with_notes. cbn. now rewrite insert_id. Qed.

Lemma other_addresses nt A1 a pid (l : list lnote) A2 b : rep nt (A1 ++ (a, (pid, l)) :: A2) -> is_Some (nt_notes nt !! b) ->
  b ∈ addresses (A1 ++ A2) \/ b ∈ map fst l.
Proof.
  intros Hrep Hs. apply (rp_dom _ _ Hrep) in Hs. apply elem_of_addresses in Hs as (e & He & Hb).
  apply elem_of_app in He as [He|He]; [left; apply elem_of_addresses; exists e; split; [apply elem_of_app; now left|exact Hb]|].
  apply elem_of_cons in He as [->|He]; [now right|]. left. apply elem_of_addresses. exists e. split; [apply elem_of_app; now right|exact Hb].
Qed.

(** Writing the notification at [b] of the entry in the middle. *)
Lemma rep_write nt A1 a pid l A2 v v' b m l' :
  rep nt (A1 ++ (a, (pid, l)) :: A2) -> nt_players nt !! a = Some v ->
  pn_next v' = pn_next v -> pn_playerid v' = pn_playerid v -> b ∈ map fst l -> map fst l' = map fst l ->
  notes_ok (<[b := m]> (nt_notes nt)) v' l' ->
  rep (with_players (with_notes nt (<[b := m]> (nt_notes nt))) (<[a := v']> (nt_players nt))) (A1 ++ (a, (pid, l')) :: A2).
Proof.
  intros Hrep Hv H1 H2 Hb Hfst Hok. pose proof (addresses_disjoint _ _ _ _ _ (rp_notes _ _ Hrep)) as (_ & _ & Hdis).
  eapply rep_update; [exact Hrep|exact Hv|exact H1|exact H2| |exact Hok| |].
  - intros c Hc. apply lookup_insert_ne. intros <-. exact (Hdis b Hb Hc).
  - rewrite Hfst. exact Hdis.
  - intros c Hc. rewrite Hfst. destruct (decide (c = b)) as [->|Hne]; [now right|].
    rewrite lookup_insert_ne in Hc by congruence. exact (other_addresses _ _ _ _ _ _ _ Hrep Hc).
Qed.

Lemma key_nonzero nt A a pid (l : list lnote) b x : rep nt A -> (a, (pid, l)) ∈ A -> (b, x) ∈ l -> b <> 0.
Proof.
  intros Hrep Ha Hb. destruct (rp_entry _ _ Hrep a pid l Ha) as (v & _ & _ & Hl).
  eapply slist_nonzero; [apply (no_list _ _ _ Hl)|]. apply list_elem_of_fmap. exists (b, x). auto.
Qed.

Lemma set_post_spec nt A n x key : rep nt A -> bounded n (erase A) -> 0 <= n < 2 ^ 60 -> post_ok x -> po_key x = Some key ->
  exists nt' A', notification_set map_new malloc_note malloc_player nt (po_player x) (po_type x) key (po_value x) = Ret nt' /\
    rep nt' A' /\ erase A' = enter (erase A) x /\ nt_counts nt' = nt_counts nt.
Proof.
  intros Hrep Hb Hn [Ht Hval] Hk. set (pid := po_player x).
  destruct (player_notify_spec nt A pid Hrep) as (nt1 & A1 & a & l & A2 & Hget & Hrep1 & He & Hc).
  { destruct Hb as [Hb _]. rewrite erase_zlen in Hb. lia. }
  unfold notification_set. rewrite Hget. cbn [mbind outcome_bind].
  destruct (rp_entry _ _ Hrep1 a pid l (entry_at _ _ _ _ _)) as (v & Hv & Hpid & Hl). rewrite Hv. cbn [deref mbind outcome_bind].
  change (Z.lor (Z.shiftl (u32 key) 32) (po_type x)) with (rkey_of key (po_type x)). set (k := rkey_of key (po_type x)).
  assert (Hpn : post_note x = mk_n (Some k) (po_type x) (po_value x)) by (unfold post_note; now rewrite Hk).
  rewrite (pm_get_spec _ _ (no_map _ _ _ Hl)). cbn [mbind outcome_bind].
  assert (Hen : forall l', map snd l' = place (map snd l) (post_note x) -> erase (A1 ++ (a, (pid, l')) :: A2) = enter (erase A) x).
  { intros l' Hl'. unfold enter. change (po_player x) with pid. rewrite <- He. exact (erase_entry _ _ _ _ _ _ (fun k => place k (post_note x)) (rp_pids _ _ Hrep1) Hl'). }
  destruct (list_find (same_key (Some k)) (map snd l)) as [[i y]|] eqn:E.
  - pose proof E as Ef. apply list_find_Some in E as (Hi & [_ Hy] & _). rewrite lookup_map in Hi.
    destruct (l !! i) as [[b z]|] eqn:Hli; [|discriminate]. injection Hi as ->.
    assert (Hbl : (b, y) ∈ l) by (eapply list_elem_of_lookup_2; exact Hli).
    rewrite (proj2 (no_find _ _ _ Hl k b)) by eauto. cbn [default from_option Datatypes.id].
    pose proof (key_nonzero _ _ _ _ _ _ _ Hrep1 (entry_at _ _ _ _ _) Hbl) as Hb0.
    destruct (Z.eqb_spec b 0); [contradiction|]. cbn [negb].
    destruct (no_note _ _ _ Hl b y Hbl) as ([Hty _] & w & Hw & _). rewrite Hw. cbn [deref mbind outcome_bind].
    destruct (notes_replace _ _ _ i b y (po_value x) w Hl Hli Hw) as [Hl' Hfst]; [split; assumption|].
    eexists _, (A1 ++ (a, (pid, <[i := (b, mk_n (n_key y) (n_type y) (po_value x))]> l)) :: A2). split; [reflexivity|].
    assert (Hbm : b ∈ map fst l) by (apply list_elem_of_fmap; exists (b, y); auto).
    pose proof (rep_write nt1 A1 a pid l A2 v v b _ _ Hrep1 Hv eq_refl eq_refl Hbm Hfst Hl') as Hrep2.
    rewrite with_players_id in Hrep2 by exact Hv. split; [exact Hrep2|]. split; [|exact Hc].
    apply Hen. rewrite map_insert. unfold place. rewrite Hpn. cbn [n_key n_value]. now rewrite Ef.
  - assert (Hno : pm_abs (pn_m v) !! k = None).
    { apply eq_None_not_Some. intros [b Hbk]. apply (no_find _ _ _ Hl) in Hbk as (y & Hy & Hyk).
      apply list_find_None in E. refine (proj1 (list.Forall_forall _ _) E y _ _); [apply list_elem_of_fmap; exists (b, y); auto|].
      split; [eauto|exact Hyk]. }
    rewrite Hno. cbn [default from_option Z.eqb negb].
    pose proof (get_found _ _ _ _ _ Hrep1 (entry_at _ _ _ _ _)) as Hget1.
    destruct (add_spec nt1 nt1 A1 a pid l A2 (po_type x) (po_value x) Hget1 Hrep1) as (nt2 & b & v1 & -> & Hrep2 & Hb2 & Hv1 & Hc2 & Hv2).
    { split; assumption. }
    cbn [mbind outcome_bind]. rewrite Hb2. cbn [deref mbind outcome_bind nf_next nf_type nf_value].
    assert (v1 = v) as -> by congruence. cbn [with_notes nt_players]. rewrite Hv2. cbn [deref mbind outcome_bind pn_m pn_next pn_playerid pn_l pn_t].
    destruct (rp_entry _ _ Hrep2 a pid _ (entry_at _ _ _ _ _)) as (v2 & Hv2' & _ & Hl2).
    rewrite Hv2 in Hv2'. injection Hv2' as <-.
    assert (Hroom : Z.of_nat (size (pm_abs (pn_m v))) < 2 ^ 61).
    { apply (map_room _ _ _ Hl). assert (Hln : zlen (map snd l) <= n + 1); [|unfold zlen in *; rewrite length_map in Hln; lia].
      assert (Hin : (pid, map snd l) ∈ ensure pid (erase A)).
      { rewrite <- He. apply list_elem_of_fmap. exists (a, (pid, l)). split; [reflexivity|apply entry_at]. }
      unfold ensure in Hin. destruct Hb as [_ Hb]. case_bool_decide.
      - apply (proj1 (list.Forall_forall _ _) Hb) in Hin. cbn in Hin. lia.
      - apply elem_of_cons in Hin as [[= ->]|Hin]; [rewrite zlen_nil; lia|]. apply (proj1 (list.Forall_forall _ _) Hb) in Hin. cbn in Hin. lia. }
    destruct (pm_set_spec (pn_m v) k b (no_map _ _ _ Hl) Hroom) as (m & -> & Hm & Ha). cbn [mbind outcome_bind].
    assert (Hbl : (b, mk_n None (po_type x) (po_value x)) ∈ l ++ [(b, mk_n None (po_type x) (po_value x))]) by (apply elem_of_app; right; left).
    pose proof (key_nonzero _ _ _ _ _ _ _ Hrep2 (entry_at _ _ _ _ _) Hbl) as Hb0.
    destruct (Z.eqb_spec b 0); [contradiction|].
    eexists _, (A1 ++ (a, (pid, l ++ [(b, post_note x)])) :: A2). split; [reflexivity|]. split; [|split; [|cbn; congruence]].
    + eapply (rep_write nt2 A1 a pid (l ++ [(b, mk_n None (po_type x) (po_value x))]) A2); [exact Hrep2|exact Hv2|reflexivity|reflexivity| | |].
      * apply list_elem_of_fmap. eexists. split; [|exact Hbl]. reflexivity.
      * rewrite !map_app. reflexivity.
      * pose proof (notes_key (nt_notes nt2) _ l b (post_note x) k m (mk_note 0 (po_type x) 0 (po_value x)) Hl2) as Hnk.
        apply Hnk; [now rewrite Hpn|rewrite Hpn; split; assumption|exact Hb2|exact Hno|exact Hm|exact Ha].
    + apply Hen. rewrite map_app. unfold place. rewrite Hpn. cbn [n_key map snd]. now rewrite E.
Qed.

(** A sequence of calls between two cleanings. *)
Definition post_call (nt : notifier) (x : post) : outcome notifier :=
  match po_key x with
  | Some key => notification_set map_new malloc_note malloc_player nt (po_player x) (po_type x) key (po_value x)
  | None => notification_add map_new malloc_note malloc_player nt (po_player x) (po_type x) (po_value x)
  end.
Fixpoint run_posts (nt : notifier) (l : list post) : outcome notifier :=
  match l with [] => Ret nt | x :: l' => nt ← post_call nt x; run_posts nt l' end.

Lemma run_posts_spec l : forall nt A n, rep nt A -> bounded n (erase A) -> 0 <= n -> n + zlen l < 2 ^ 60 -> Forall post_ok l ->
  exists nt' A', run_posts nt l = Ret nt' /\ rep nt' A' /\ erase A' = foldl enter (erase A) l /\ bounded (n + zlen l) (erase A') /\
    nt_counts nt' = nt_counts nt.
Proof.
  induction l as [|x l IH]; intros nt A n Hrep Hb Hn Hroom Hok; cbn [run_posts foldl].
  - exists nt, A. rewrite zlen_nil, Z.add_0_r. auto.
  - apply list.Forall_cons in Hok as [Hx Hok]. rewrite zlen_cons in *. pose proof (zlen_nonneg l) as Hz.
    assert (Hstep : exists nt1 A1, post_call nt x = Ret nt1 /\ rep nt1 A1 /\ erase A1 = enter (erase A) x /\ nt_counts nt1 = nt_counts nt).
    { unfold post_call. destruct (po_key x) as [key|] eqn:Hk.
      - eapply set_post_spec; [exact Hrep|exact Hb|lia|exact Hx|exact Hk].
      - eapply add_post_spec; [exact Hrep|exact Hb|lia|exact Hx|exact Hk]. }
    destruct Hstep as (nt1 & A1 & -> & Hrep1 & He & Hc). cbn [mbind outcome_bind].
    pose proof (enter_bounded n (erase A) x Hn Hb) as Hb1. rewrite <- He in Hb1.
    destruct (IH nt1 A1 (n + 1) Hrep1 Hb1 ltac:(lia) ltac:(lia) Hok) as (nt2 & A2 & E & Hrep2 & He2 & Hb2 & Hc2).
    exists nt2, A2. split; [exact E|]. split; [exact Hrep2|]. split; [now rewrite He2, He|]. split; [|congruence].
    now replace (n + (1 + zlen l)) with (n + 1 + zlen l) by lia.
Qed.

(** *** Cleaning *)

Lemma element_wf x : note_ok x -> forall c, element_of x = Some c -> wf_amf c.
Proof.
  intros [Ht Hv] c Hc. injection Hc as <-. destruct (n_value x) as [v|]; (apply wf_array_intro; [vm_compute; split; discriminate| |constructor]); intros c Hc.
  - apply elem_of_cons in Hc as [[= ->]|Hc]; [now constructor|]. apply elem_of_cons in Hc as [[= ->]|Hc]; [auto|inversion Hc].
  - apply elem_of_cons in Hc as [[= ->]|Hc]; [now constructor|inversion Hc].
Qed.

Lemma note_element_spec n x : note_is n x -> exists c, note_element n = Ret c /\ element_of x = Some c.
Proof.
  intros (Ht & Hv & _). unfold note_element, element_of. rewrite Hv, Ht. destruct (n_value x) as [v|]; eexists; split; reflexivity.
Qed.

(** A value that can be pushed to. *)
Definition is_array (a : amf_value) : Prop := wf_amf a /\ exists size child, a = AV amf_array size (PChild child).

Lemma push_array a v : is_array a -> (forall c, v = Some c -> wf_amf c) ->
  exists a', amf_push a v = Ret a' /\ is_array a' /\ amf_elems a' = amf_elems a ++ [v].
Proof.
  intros [Hwf (size & child & ->)] Hv. destruct (amf_push_appends size child v Hwf Hv) as (a' & E & Hwf' & He).
  exists a'. split; [exact E|]. split; [|exact He]. split; [exact Hwf'|].
  assert (Hne : amf_elems a' <> []) by (rewrite He; intros Hx; now apply app_eq_nil in Hx as [_ Hx]).
  destruct Hwf' as [| | | | | |sz ch]; try (exfalso; apply Hne; reflexivity). eauto.
Qed.

Lemma first_message : exists a b, amf_push (amf_new_array 0) (Some (amf_new_integer 0)) = Ret a /\
  amf_push a (Some (amf_new_integer RET_SUCCESS)) = Ret b /\ is_array b /\
  amf_elems b = [Some (amf_new_integer 0); Some (amf_new_integer RET_SUCCESS)].
Proof.
  assert (Hint : forall c n, 0 <= n < 2 ^ 32 -> Some (amf_new_integer n) = Some c -> wf_amf c) by (intros c n Hn [= <-]; now constructor).
  destruct (push_array (amf_new_array 0) (Some (amf_new_integer 0))) as (a & Ea & Ha & Hea).
  - split; [|do 2 eexists; reflexivity]. apply wf_array_intro; [vm_compute; split; discriminate| |repeat constructor].
    intros c Hc. cbn in Hc. repeat (apply elem_of_cons in Hc as [Hc|Hc]; [discriminate|]). inversion Hc.
  - intros c. apply Hint. lia.
  - destruct (push_array a (Some (amf_new_integer RET_SUCCESS)) Ha) as (b & Eb & Hb & Heb).
    + intros c. apply Hint. unfold RET_SUCCESS. lia.
    + exists a, b. split; [exact Ea|]. split; [exact Eb|]. split; [exact Hb|]. rewrite Heb, Hea. reflexivity.
Qed.

Lemma notes_loop_spec l : forall fuel nt p v msg,
  nt_players nt !! p = Some v -> slist nf_next (nt_notes nt) (pn_l v) (map fst l) -> NoDup (map fst l) ->
  (forall b x, (b, x) ∈ l -> note_ok x /\ exists n, nt_notes nt !! b = Some n /\ note_is n x) ->
  pm_ok (pn_m v) -> Z.of_nat (size (pm_abs (pn_m v))) < 2 ^ 61 -> (length l <= fuel)%nat -> is_array msg ->
  exists notes' v' msg', notes_loop fuel nt p msg = Ret (with_players (with_notes nt notes') (<[p := v']> (nt_players nt)), msg') /\
    (forall c, c ∈ map fst l -> notes' !! c = None) /\ (forall c, c ∉ map fst l -> notes' !! c = nt_notes nt !! c) /\
    is_array msg' /\ amf_elems msg' = amf_elems msg ++ map element_of (map snd l).
Proof.
  induction l as [|[b x] l IH]; intros fuel nt p v msg Hv Hs Hnd Hn Hm Hroom Hfuel Hmsg.
  - cbn in Hs. exists (nt_notes nt), v, msg. unfold notes_loop. destruct fuel; rewrite Hv; cbn [deref mbind outcome_bind]; rewrite Hs;
      cbn [Z.eqb]; (split; [destruct nt; unfold with_players, with_notes; cbn in *; now rewrite insert_id|]);
      (split; [intros c Hc; inversion Hc|]); (split; [reflexivity|]); (split; [exact Hmsg|]); cbn; now rewrite app_nil_r.
  - destruct fuel as [|fuel]; [cbn in Hfuel; lia|]. cbn [map fst] in Hs, Hnd. destruct Hs as (Hhd & Hb0 & n & Hbn & Hs).
    cbn [notes_loop]. rewrite Hv. cbn [deref mbind outcome_bind]. rewrite Hhd. destruct (Z.eqb_spec b 0); [contradiction|].
    rewrite Hbn. cbn [deref mbind outcome_bind].
    destruct (Hn b x) as (Hok & n' & Hn' & Hi); [left|]. assert (n' = n) as -> by congruence.
    destruct (note_element_spec n x Hi) as (c & -> & Hc). cbn [mbind outcome_bind].
    destruct (push_array msg (Some c) Hmsg) as (msg1 & -> & Hmsg1 & He1).
    { rewrite <- Hc. now apply element_wf. }
    cbn [mbind outcome_bind]. destruct (pm_set_spec (pn_m v) (nf_rkey n) 0 Hm Hroom) as (m & -> & Hm1 & Ha). cbn [mbind outcome_bind Z.eqb] in *.
    apply list.NoDup_cons in Hnd as [Hbl Hnd].
    set (v1 := mk_pn (pn_next v) (pn_playerid v) m (nf_next n) (pn_t v)).
    set (nt1 := with_players (with_notes nt (delete b (nt_notes nt))) (<[p := v1]> (nt_players nt))).
    assert (Hfr : forall q, q ∈ map fst l -> nt_notes nt1 !! q = nt_notes nt !! q).
    { intros q Hq. apply lookup_delete_ne. intros <-. contradiction. }
    destruct (IH fuel nt1 p v1 msg1) as (notes' & v' & msg' & E & H1 & H2 & H3 & H4).
    + apply lookup_insert_eq.
    + eapply slist_frame; [|exact Hs]. intros q Hq. now rewrite Hfr.
    + exact Hnd.
    + intros q y Hy. destruct (Hn q y) as (Hoky & w & Hw & Hiw); [now right|]. split; [exact Hoky|]. exists w. split; [|exact Hiw].
      rewrite Hfr; [exact Hw|]. apply list_elem_of_fmap. exists (q, y). auto.
    + exact Hm1.
    + cbn [pn_m v1]. rewrite Ha, map_size_delete. destruct (pm_abs (pn_m v) !! nf_rkey n); [|exact Hroom].
      eapply Z.le_lt_trans; [|exact Hroom]. apply inj_le, Nat.le_pred_l.
    + cbn in Hfuel. lia.
    + exact Hmsg1.
    + exists notes', v', msg'. split.
      { etransitivity; [exact E|]. do 2 f_equal. unfold nt1, with_players, with_notes. cbn. now rewrite insert_insert_eq. }
      split; [|split; [|split; [exact H3|]]].
      * intros q Hq. cbn [map fst] in Hq. destruct (decide (q ∈ map fst l)) as [Hin|Hni]; [auto|].
        apply elem_of_cons in Hq as [->|Hq]; [|contradiction]. rewrite H2 by exact Hni. apply lookup_delete_eq.
      * intros q Hq. cbn [map fst] in Hq. apply not_elem_of_cons in Hq as [Hqb Hq]. rewrite H2 by exact Hq. apply lookup_delete_ne. congruence.
      * rewrite H4, He1, <- app_assoc. cbn [app map snd]. now rewrite Hc.
Qed.

(** Nothing waits and nothing is allocated. *)
Record idle (nt : notifier) : Prop := {
  id_notes : nt_notes nt = ∅; id_players : nt_players nt = ∅; id_list : player_notify_list nt = 0;
  id_hash : pm_ok (player_notify_hash nt); id_find : pm_abs (player_notify_hash nt) = ∅ }.

Lemma idle_rep nt : idle nt <-> rep nt [].
Proof.
  split.
  - intros [I1 I2 I3 I4 I5]. constructor; rewrite ?I1, ?I2; cbn; try assumption; try constructor.
    + intros a pid l Hx. inversion Hx.
    + intros b Hb. rewrite lookup_empty in Hb. now apply is_Some_None in Hb.
    + intros b Hb. rewrite lookup_empty in Hb. now apply is_Some_None in Hb.
    + rewrite I5, lookup_empty. discriminate.
    + intros (l & Hl). inversion Hl.
  - intros [R1 R2 R3 R4 R5 R6 R7 R8 R9]. constructor.
    + apply map_eq. intros b. rewrite lookup_empty. apply eq_None_not_Some. intros Hb. apply R6 in Hb. inversion Hb.
    + apply map_eq. intros b. rewrite lookup_empty. apply eq_None_not_Some. intros Hb. apply R7 in Hb. inversion Hb.
    + exact R1.
    + exact R8.
    + apply map_eq. intros b. rewrite lookup_empty. apply eq_None_not_Some. intros [c Hc]. apply R9 in Hc as (l & Hl). inversion Hl.
Qed.

Section Sending.
Context {Out : Type} `{Sender Out} {pbc : Pbc}.

(** The messages are sent one after the other. *)
Fixpoint send_all (s : Out) (msgs : list (Z * amf_value)) : outcome Out :=
  match msgs with [] => Ret s | (pid, msg) :: msgs' => s ← send_notify s pid msg; send_all s msgs' end.

(** The queue after the first player was taken out, with its notifications. *)
Lemma rep_tail nt a pid l A notes' v v' h :
  rep nt ((a, (pid, l)) :: A) -> nt_players nt !! a = Some v -> pm_ok h -> pm_abs h = delete pid (pm_abs (player_notify_hash nt)) ->
  (forall c, c ∈ map fst l -> notes' !! c = None) -> (forall c, c ∉ map fst l -> notes' !! c = nt_notes nt !! c) ->
  rep (mk_notifier notes' (delete a (<[a := v']> (nt_players nt))) h (pn_next v) (nt_counts nt)) A.
Proof.
  intros Hrep Hv Hh Ha Hin Hout. pose proof (addresses_disjoint [] _ _ _ _ (rp_notes _ _ Hrep)) as (Hndl & HndA & Hdis). cbn [app] in HndA, Hdis.
  destruct Hrep as [R1 R2 R3 R4 R5 R6 R7 R8 R9]. cbn [map fst snd] in *.
  apply list.NoDup_cons in R3 as [R3a R3]. apply list.NoDup_cons in R4 as [R4a R4].
  destruct R1 as (_ & Ha0 & w & Hw & R1). assert (w = v) as -> by congruence.
  assert (Hpl : forall b, b <> a -> delete a (<[a := v']> (nt_players nt)) !! b = nt_players nt !! b).
  { intros b Hb. rewrite lookup_delete_ne, lookup_insert_ne by congruence. reflexivity. }
  constructor; cbn [nt_players nt_notes player_notify_hash player_notify_list].
  - eapply slist_frame; [|exact R1]. intros b Hb. rewrite Hpl; [reflexivity|]. intros ->. contradiction.
  - intros b q k Hk. destruct (R2 b q k) as (x & Hx & Hq & Hnk); [now right|]. exists x. split; [|split; [exact Hq|]].
    + rewrite Hpl; [exact Hx|]. intros ->. apply R3a, list_elem_of_fmap. exists (a, (q, k)). auto.
    + eapply notes_frame; [|exact Hnk]. intros c Hc. apply Hout. intros Hcl. apply (Hdis c Hcl).
      apply elem_of_addresses. exists (b, (q, k)). auto.
  - exact R3.
  - exact R4.
  - exact HndA.
  - intros b Hb. destruct (decide (b ∈ map fst l)) as [Hbl|Hbl]; [rewrite Hin in Hb by exact Hbl; now apply is_Some_None in Hb|].
    rewrite Hout in Hb by exact Hbl. apply R6, elem_of_addresses in Hb as (e & He & Hb).
    apply elem_of_cons in He as [->|He]; [contradiction|]. apply elem_of_addresses. eauto.
  - intros b Hb. destruct (decide (b = a)) as [->|Hne]; [rewrite lookup_delete_eq in Hb; now apply is_Some_None in Hb|].
    rewrite Hpl in Hb by exact Hne. apply R7, elem_of_cons in Hb as [->|Hb]; [contradiction|exact Hb].
  - exact Hh.
  - intros q b. rewrite Ha, lookup_delete_Some, R9. split.
    + intros [Hne (k & Hk)]. apply elem_of_cons in Hk as [[= -> -> ->]|Hk]; [contradiction|eauto].
    + intros (k & Hk). split; [|exists k; now right]. intros <-. apply R4a, list_elem_of_fmap. exists (b, (pid, k)). auto.
Qed.

Lemma players_loop_spec A : forall fuel nt n, rep nt A -> bounded n (erase A) -> n < 2 ^ 61 -> (length A <= fuel)%nat ->
  exists nt' msgs, (forall s, players_loop fuel nt s = (s' ← send_all s msgs; Ret (nt', s'))) /\
    Forall2 message_for msgs (erase A) /\ rep nt' [] /\ nt_counts nt' = nt_counts nt.
Proof.
  induction A as [|[a [pid l]] A IH]; intros fuel nt n Hrep Hb Hn Hfuel.
  - exists nt, []. split; [|split; [constructor|split; [exact Hrep|reflexivity]]]. intros s.
    pose proof (rp_list _ _ Hrep) as Hl. cbn in Hl. destruct fuel; cbn [players_loop]; rewrite Hl; reflexivity.
  - destruct fuel as [|fuel]; [cbn in Hfuel; lia|].
    assert (Hin : (a, (pid, l)) ∈ (a, (pid, l)) :: A) by left.
    destruct (rp_entry _ _ Hrep a pid l Hin) as (v & Hv & Hpid & Hl). pose proof (rp_list _ _ Hrep) as Hlist. cbn [map fst] in Hlist.
    destruct Hlist as (Hhd & Ha0 & _). destruct (erase_bound _ _ n _ _ _ Hrep Hb Hin) as [HnA Hnl].
    assert (HroomA : zlen ((a, (pid, l)) :: A) < 2 ^ 61) by lia.
    destruct (pm_set_spec (player_notify_hash nt) pid 0 (rp_hash _ _ Hrep) (hash_room _ _ Hrep HroomA)) as (h & Eh & Hh & Hha).
    cbn [Z.eqb] in Hha. destruct first_message as (m1 & m2 & E1 & E2 & Hm2 & He2).
    set (nt1 := mk_notifier (nt_notes nt) (nt_players nt) h (pn_next v) (nt_counts nt)).
    assert (Hsz : (length l <= size (nt_notes nt1))%nat).
    { rewrite <- (length_map fst l). apply nodup_size; [apply (no_nodup _ _ _ Hl)|]. intros b Hbl.
      apply list_elem_of_fmap in Hbl as ([c x] & -> & Hc). destruct (no_note _ _ _ Hl c x Hc) as (_ & w & Hw & _). cbn. eauto. }
    assert (Hml : zlen l < 2 ^ 61) by lia.
    destruct (notes_loop_spec l (size (nt_notes nt1)) nt1 a v m2 Hv (no_list _ _ _ Hl) (no_nodup _ _ _ Hl) (no_note _ _ _ Hl)
      (no_map _ _ _ Hl) (map_room _ _ _ Hl Hml) Hsz Hm2) as (notes' & v' & msg & El & Hi & Ho & Hmsg & Hem).
    pose proof (rep_tail nt a pid l A notes' v v' h Hrep Hv Hh Hha Hi Ho) as Hrep'.
    destruct (IH fuel _ n Hrep') as (nt' & msgs & Hloop & Hmsgs & Hrep2 & Hc).
    + destruct Hb as [Hb1 Hb2]. rewrite erase_zlen in Hb1. apply list.Forall_cons in Hb2 as [_ Hb2]. split; [|exact Hb2].
      rewrite erase_zlen. rewrite zlen_cons in Hb1. lia.
    + exact Hn.
    + cbn in Hfuel. lia.
    + exists nt', ((pid, msg) :: msgs). split; [|split; [|split; [exact Hrep2|exact Hc]]].
      * intros s. cbn [players_loop send_all]. rewrite Hhd. destruct (Z.eqb_spec a 0); [contradiction|].
        rewrite Hv. cbn [deref mbind outcome_bind]. rewrite Hpid, Eh. cbn [mbind outcome_bind]. rewrite E1. cbn [mbind outcome_bind].
        rewrite E2. cbn [mbind outcome_bind]. fold nt1. change (nt_notes nt) with (nt_notes nt1). rewrite El. cbn [mbind outcome_bind].
        destruct (send_notify s pid msg) as [s'| | |]; cbn [mbind outcome_bind]; [|reflexivity..].
        rewrite <- Hloop. reflexivity.
      * constructor; [|exact Hmsgs]. split; [reflexivity|]. split; [apply Hmsg|]. cbn [fst snd]. rewrite Hem, He2. reflexivity.
Qed.

(** Cleaning sends what is pending and leaves the queue idle. *)
Lemma clean_pending nt A n k now : rep nt A -> bounded n (erase A) -> n < 2 ^ 61 -> nb_rep (nt_counts nt) k ->
  exists nt2 msgs, Forall2 message_for msgs (erase A) /\ idle nt2 /\
    forall s, notification_clean nt s now = (s' ← send_all s msgs; Ret (nt2, s', snd (deliver (nb_bs (nt_counts nt)) (flushed false (now - NB_DELAY) k)))).
Proof.
  intros Hrep Hb Hn Hnb.
  destruct (players_loop_spec A (size (nt_players nt)) nt n Hrep Hb Hn) as (nt2 & msgs & Hloop & Hmsgs & Hrep2 & Hc2).
  { rewrite <- (length_map fst A). apply nodup_size; [apply (rp_nodup _ _ Hrep)|]. intros a Ha.
    eapply slist_nonzero; [apply (rp_list _ _ Hrep)|exact Ha]. }
  destruct (nb_clean_spec (nt_counts nt2) k false now) as (nb' & Ec & _); [rewrite Hc2; exact Hnb|]. rewrite Hc2 in Ec.
  exists (with_counts nt2 nb'), msgs. split; [exact Hmsgs|]. split.
  - apply idle_rep in Hrep2 as [I1 I2 I3 I4 I5]. constructor; assumption.
  - intros s. unfold notification_clean. rewrite Hloop. destruct (send_all s msgs) as [s'| | |]; cbn [mbind outcome_bind]; [|reflexivity..].
    rewrite Hc2, Ec. reflexivity.
Qed.

(** Posting from an idle queue. *)
Lemma posts_pending nt l : idle nt -> Forall post_ok l -> zlen l < 2 ^ 60 ->
  exists nt1 A, run_posts nt l = Ret nt1 /\ rep nt1 A /\ erase A = foldl enter [] l /\ bounded (zlen l) (erase A) /\ nt_counts nt1 = nt_counts nt.
Proof.
  intros Hidle Hok Hroom. pose proof (zlen_nonneg l).
  apply (run_posts_spec l nt [] 0 (proj1 (idle_rep nt) Hidle)); [split; [apply Z.le_refl|constructor]|lia|lia|exact Hok].
Qed.

(** C25: Whatever is posted between two cleanings, no call goes wrong, and the next cleaning sends exactly one message for each
    player something was posted for: success and an element for each notification, in the order they were entered, where a
    notification with a key has the value posted last under this key.  Afterwards nothing waits and no memory is left; the counts that are
    due are sent as well, to the backend if there is one. *)
Theorem notifications_coalesced nt l k now s : idle nt -> Forall post_ok l -> zlen l < 2 ^ 60 -> nb_rep (nt_counts nt) k ->
  exists nt1 nt2 msgs, run_posts nt l = Ret nt1 /\
    Forall2 message_for msgs (foldl enter [] l) /\ idle nt2 /\
    notification_clean nt1 s now = (s' ← send_all s msgs; Ret (nt2, s', snd (deliver (nb_bs (nt_counts nt)) (flushed false (now - NB_DELAY) k)))).
Proof.
  intros Hidle Hok Hroom Hnb. destruct (posts_pending nt l Hidle Hok Hroom) as (nt1 & A & Er & Hrep & He & Hb & Hc).
  rewrite <- Hc in Hnb |- *. destruct (clean_pending nt1 A (zlen l) k now Hrep Hb ltac:(lia) Hnb) as (nt2 & msgs & Hmsgs & Hid2 & Hclean).
  exists nt1, nt2, msgs. split; [exact Er|]. split; [now rewrite <- He|]. split; [exact Hid2|apply Hclean].
Qed.
End Sending.
End Theorems.

(** A run with the map of [framework/map.c], where sending is recorded. *)
Definition sample_posts : list post :=
  [mk_post 7 1 None (Some (amf_new_integer 5)); mk_post 7 8 (Some 3) (Some (amf_new_integer 10)); mk_post 9 4 None None;
   mk_post 7 8 (Some 3) (Some (amf_new_integer 11)); mk_post 7 1 None None].
Definition sample_idle : notify_state (agmap Z) := mk_notifier ∅ ∅ _agMap_new 0 (_nb_init _agMap_new sample_backends).

#[local] Existing Instance no_pbc.
#[local] Instance record_sender : Sender (list (Z * amf_value)) := {
  send_amf_message_to s playerid _ v := Ret (s ++ [(playerid, v)]);
  broadcast_to_client s _ _ _ := Ret s }.

Lemma notifications_coalesced_witness :
  exists nt1 nt2 msgs, run_posts _agMap_new fresh_address fresh_address sample_idle sample_posts = Ret nt1 /\
    Forall2 message_for msgs
      [(9, [mk_n None 4 None]);
       (7, [mk_n None 1 (Some (amf_new_integer 5)); mk_n (Some (rkey_of 3 8)) 8 (Some (amf_new_integer 11)); mk_n None 1 None])] /\
    idle nt2 /\ notification_clean nt1 [] 100 = (s' ← send_all [] msgs; Ret (nt2, s', [])).
Proof.
  apply (notifications_coalesced _agMap_new fresh_address fresh_address) with (k := []).
  - split; apply agMap_new_ok.
  - apply agMap_new_ok.
  - intros h. apply fresh_address_spec.
  - intros h. apply fresh_address_spec.
  - constructor; try reflexivity. split; apply agMap_new_ok.
  - repeat constructor; try (cbn; lia); intros v [= <-]; constructor; lia.
  - vm_compute. reflexivity.
  - apply init_rep; [split|]; apply agMap_new_ok.
Defined.
