(* ===== verification/Gateway.v ===== *)
(** * Routing in the gateway: [gateway/world.c], [gateway/backend.c], [gateway/translate.c]

    The gateway keeps a table of worlds (cells) and of backends, and forwards every package of a
    client to the backend whose command range contains its command, or else to the client's world.
    Connections are seen through [agN_writev], [agN_close] and the set of connections that accept
    data; what is sent is appended to [g_out]. *)
From S2P Require Import Prelude AgMap Lrm Dlist AmfWire AmfValue Buffer Network NetworkTheorems Package Client.

Definition INVALID_WORLD_ID : Z := 2 ^ 32 - 1.
Definition max_world_id : Z := 10.
Definition MAX_BACK_END : Z := 30.
Definition RET_SERVICE_STATUS_ERROR : Z := 14.

(** [WorldConfig], without the names of the peer. *)
Record WorldConfig := mk_world {
  wo_port : Z; wo_max_count : Z; wo_id : Z; wo_ok : bool; wo_conn : Z; wo_player_count : Z }.

(** [struct Backend], without the names of the peer. *)
Record Backend := mk_backend { be_min : Z; be_max : Z; be_id : Z; be_conn : Z }.

Inductive gw_event :=
| GSend (conn : Z) (bytes : list Z)
| GClose (conn : Z)
| GAuth (conn : Z)
| GRecord (id : Z) (bytes : list Z).

Record gateway (M : Type) := mk_gw {
  g_clients : client_table M; g_worlds : list WorldConfig; g_backends : list Backend;
  g_refs : amf_refs; g_live : list Z; g_out : list gw_event }.
Arguments mk_gw {M} _ _ _ _ _ _.
Arguments g_clients {M} _.
Arguments g_worlds {M} _.
Arguments g_backends {M} _.
Arguments g_refs {M} _.
Arguments g_live {M} _.
Arguments g_out {M} _.

(** ** The table of worlds *)

Definition world_slot (world : Z) : nat := Z.to_nat (world mod max_world_id).

Definition with_conn (w : WorldConfig) (conn : Z) : WorldConfig :=
  mk_world (wo_port w) (wo_max_count w) (wo_id w) (wo_ok w) conn (wo_player_count w).
Definition with_count (w : WorldConfig) (n : Z) : WorldConfig :=
  mk_world (wo_port w) (wo_max_count w) (wo_id w) (wo_ok w) (wo_conn w) n.

(** [cfg->id += max_world_id], once more when that gives the invalid id. *)
Definition next_world_id (id : Z) : Z :=
  let id := u32 (id + max_world_id) in
  if id =? INVALID_WORLD_ID then u32 (id + max_world_id) else id.

(** [on_connected] of world.c: the table; the registration message is built by the protobuf library. *)
Definition world_on_connected (ws : list WorldConfig) (i : nat) : list WorldConfig :=
  alter (fun w => mk_world (wo_port w) 2000 (wo_id w) true (wo_conn w) (wo_player_count w)) i ws.

Definition world_on_closed (ws : list WorldConfig) (i : nat) : list WorldConfig :=
  alter (fun w => mk_world (wo_port w) 0 (next_world_id (wo_id w)) false INVALID_ID 0) i ws.

(** The loop of [module_world_update]: [connect] answers the connection of a new attempt. *)
Definition module_world_update (connect : nat -> Z) (ws : list WorldConfig) : list WorldConfig :=
  imap (fun i w =>
    if wo_port w =? 0 then w
    else if wo_conn w =? INVALID_ID then with_conn w (connect i) else w) ws.

(** The last loop of [module_world_load]. *)
Definition module_world_load (connect : nat -> Z) (ws : list WorldConfig) : list WorldConfig :=
  imap (fun i w =>
    if wo_port w =? 0 then w
    else
      let id := Z.of_nat i in
      let id := if id =? INVALID_WORLD_ID then u32 (id + max_world_id) else id in
      mk_world (wo_port w) (wo_max_count w) id false (connect i) 0) ws.

Definition world_is_valid (ws : list WorldConfig) (world : Z) : outcome bool :=
  w ← deref (ws !! world_slot world);
  if negb (world =? wo_id w) then Ret false
  else Ret (negb (wo_conn w =? INVALID_ID) && wo_ok w).

Definition world_increase_player (ws : list WorldConfig) (world : Z) : list WorldConfig :=
  alter (fun w => with_count w (wo_player_count w + 1)) (world_slot world) ws.

Definition world_reduce_player (ws : list WorldConfig) (world : Z) : list WorldConfig :=
  alter (fun w => if 0 <? wo_player_count w then with_count w (wo_player_count w - 1) else w) (world_slot world) ws.

(** The configured worlds at the front of the table. *)
Fixpoint world_count (ws : list WorldConfig) : Z :=
  match ws with
  | [] => 0
  | w :: ws' => if wo_port w =? 0 then 0 else 1 + world_count ws'
  end.

(** The remainder by zero is undefined when no world is configured. *)
Definition world_get_idle_world (ws : list WorldConfig) (pid : Z) : outcome Z :=
  let wcount := world_count ws in
  if wcount =? 0 then Undef
  else w ← deref (ws !! Z.to_nat (pid mod wcount)); Ret (wo_id w).

(** ** Backends *)

(** [backend_get]: the first configured backend whose range contains the command. *)
Definition backend_get (bs : list Backend) (cmd : Z) : option Backend :=
  List.find (fun b => negb (be_id b =? 0) && ((be_min b <=? cmd) && (cmd <=? be_max b))) bs.

(** ** Sending *)

Section Operations.
Context {M : Type} `{PtrMap M}.
#[local] Abbreviation gw := (gateway M).

(** [sn] of the headers is never set: the content of the stack. *)
Variable stack_sn : Z.
(** The content of uninitialised locals of the AMF decoder. *)
Variable junk : Z.
(** [account_get_by_pid(pid)->name], [getpeername] of a connection, the time. *)
Variable account_name : Z -> option (list Z).
Variable peer_ip : Z -> option (list Z).
Variable now : Z.

Definition set_clients (g : gw) (t : client_table M) : gw :=
  mk_gw t (g_worlds g) (g_backends g) (g_refs g) (g_live g) (g_out g).
Definition set_worlds (g : gw) (ws : list WorldConfig) : gw :=
  mk_gw (g_clients g) ws (g_backends g) (g_refs g) (g_live g) (g_out g).
Definition set_refs (g : gw) (st : amf_refs) : gw :=
  mk_gw (g_clients g) (g_worlds g) (g_backends g) st (g_live g) (g_out g).
Definition emit (g : gw) (e : gw_event) : gw :=
  mk_gw (g_clients g) (g_worlds g) (g_backends g) (g_refs g) (g_live g) (g_out g ++ [e]).

(** [agN_writev] and [agN_close]. *)
Definition agN_writev (g : gw) (conn : Z) (iov : list (list Z)) : gw * Z :=
  if existsb (Z.eqb conn) (g_live g) then (emit g (GSend conn (concat iov)), 0) else (g, -1).

Definition agN_close (g : gw) (conn : Z) : gw :=
  let g := emit g (GClose conn) in
  mk_gw (g_clients g) (g_worlds g) (g_backends g) (g_refs g)
    (List.filter (fun c => negb (c =? conn)) (g_live g)) (g_out g).

Definition backend_send (g : gw) (peer : Backend) (channel cmd flag : Z) (msg : list Z) : gw * Z :=
  agN_writev g (be_conn peer) (translate_iov stack_sn channel cmd flag msg).

(** The loop of [backend_broadcast]. *)
Fixpoint broadcast_loop (g : gw) (bs : list Backend) (iov : list (list Z)) : gw :=
  match bs with
  | [] => g
  | b :: bs' =>
    if be_id b =? 0 then broadcast_loop g bs' iov
    else if negb (be_conn b =? INVALID_ID)
    then broadcast_loop (fst (agN_writev g (be_conn b) iov)) bs' iov
    else broadcast_loop g bs' iov
  end.

Definition backend_broadcast (g : gw) (channel cmd flag : Z) (msg : list Z) : gw :=
  broadcast_loop g (g_backends g) (translate_iov stack_sn channel cmd flag msg).

Definition world_send_message (g : gw) (world playerid cmd flag : Z) (msg : list Z) : outcome (gw * Z) :=
  v ← world_is_valid (g_worlds g) world;
  if negb v then Ret (g, -1)
  else
    w ← deref (g_worlds g !! world_slot world);
    Ret (agN_writev g (wo_conn w) (translate_iov stack_sn playerid cmd flag msg)).

(** [client_send] on a pointer. *)
Definition send_to_client (g : gw) (c cmd flag : Z) (msg : list Z) : outcome (gw * Z) :=
  r ← client_send (g_clients g) c cmd flag msg;
  match r with
  | None => Ret (g, -1)
  | Some (conn, iov) => Ret (agN_writev g conn iov)
  end.

(** [offset += amf_encode_...(buff + offset, sizeof(buff) - offset, ...)] for a sequence of fields. *)
Fixpoint amf_fields (tlen : Z) (fs : list (mem -> Z -> Z -> outcome (Z * mem))) (m : mem) (offset : Z)
    : outcome (Z * mem) :=
  match fs with
  | [] => Ret (offset, m)
  | f :: fs' => '(n, m) ← f m offset (tlen - offset); amf_fields tlen fs' m (offset + n)
  end.

(** The encoded bytes of the fields in a zeroed buffer of [tlen] bytes. *)
Definition encode_fields (tlen : Z) (fs : list (mem -> Z -> Z -> outcome (Z * mem))) : outcome (Z * mem) :=
  amf_fields tlen fs (repeat 0 (Z.to_nat tlen)) 0.

Definition f_array (n : Z) : mem -> Z -> Z -> outcome (Z * mem) := fun m p l => amf_encode_array m p l n.
Definition f_integer (n : Z) : mem -> Z -> Z -> outcome (Z * mem) := fun m p l => amf_encode_integer m p l n.
Definition f_string (s : list Z) : mem -> Z -> Z -> outcome (Z * mem) := fun m p l => amf_encode_string m p l (s ++ [0]) 0.

(** Updating a field of [*c]. *)
Definition update_client (g : gw) (c : Z) (f : client -> client) : outcome gw :=
  v ← deref (ct_heap (g_clients g) !! c);
  let t := g_clients g in
  Ret (set_clients g (mk_table (<[c := f v]> (ct_heap t)) (client_hash t) (client_queue t) (client_count t))).

Definition with_world (v : client) (world : Z) : client :=
  mk_client (cl_conn v) world (cl_playerid v) (cl_prev v) (cl_next v) (cl_last_active v)
    (cl_protocol_flag v) (cl_adult v) (cl_vip v) (cl_vip2 v).
Definition with_protocol_flag (v : client) (flag : Z) : client :=
  mk_client (cl_conn v) (cl_world v) (cl_playerid v) (cl_prev v) (cl_next v) (cl_last_active v)
    flag (cl_adult v) (cl_vip v) (cl_vip2 v).

(** The world of a client, assigned again when it is not valid any more. *)
Definition ensure_world (g : gw) (c : Z) : outcome (gw * Z) :=
  v ← deref (ct_heap (g_clients g) !! c);
  ok ← (if cl_world v =? INVALID_WORLD_ID then Ret false else world_is_valid (g_worlds g) (cl_world v));
  if (ok : bool) then Ret (g, cl_world v)
  else
    world ← world_get_idle_world (g_worlds g) (cl_playerid v);
    g ← update_client g c (fun v => with_world v world);
    Ret (set_worlds g (world_increase_player (g_worlds g) world), world).

Definition send_logout (g : gw) (c : Z) : outcome gw :=
  '(offset, msg) ← encode_fields 4096 [f_array 2; f_integer 0; f_integer 1];
  let cmd := C_LOGOUT_REQUEST in
  '(g, world) ← ensure_world g c;
  v ← deref (ct_heap (g_clients g) !! c);
  if world =? INVALID_WORLD_ID then Ret (agN_close g (cl_conn v))
  else
    bytes ← load_bytes msg 0 offset;
    '(g, _) ← world_send_message g world (cl_playerid v) cmd 1 bytes;
    let g := backend_broadcast g (cl_playerid v) cmd 1 bytes in
    let g := emit g (GAuth (cl_conn v)) in
    t ← client_free (g_clients g) c;
    Ret (set_clients g t).

(** ** A client's package *)

(** [amf_read] on the [len] bytes at [p] of [d]; [*read_len] stays 0 when nothing was read. *)
Definition read_amf (g : gw) (d : mem) (p len : Z) : outcome (gw * option amf_value * Z) :=
  '(v, n, st) ← amf_read junk d p len (g_refs g);
  Ret (set_refs g st, v, default 0 n).

(** [send_backend_message] on the [len] bytes at [p] of [d]: whether the message was handled. *)
Definition send_backend_message (g : gw) (c cmd flag : Z) (d : mem) (p len : Z) : outcome (gw * bool) :=
  match backend_get (g_backends g) cmd with
  | None => Ret (g, false)
  | Some peer =>
    v ← deref (ct_heap (g_clients g) !! c);
    msg ← load_bytes d p len;
    let '(g, rc) := backend_send g peer (cl_playerid v) cmd flag msg in
    if rc <? 0 then
      '(g, req, rlen) ← read_amf g d p len;
      if negb (rlen =? len) then
        let g := agN_close g (cl_conn v) in
        _ ← deref req;  (* [amf_free(req)] *)
        Ret (g, true)
      else
        sn ← (if bool_decide (amf_type_of req = amf_array) && (1 <=? amf_size req)
              then e ← amf_get req 0; amf_get_integer e else Ret 0);
        _ ← deref req;  (* [amf_free(req)] *)
        '(offset, respond) ← encode_fields 4096
           [f_array 3; f_integer sn; f_integer RET_SERVICE_STATUS_ERROR; f_integer (be_id peer)];
        bytes ← load_bytes respond 0 offset;
        '(g, _) ← send_to_client g c (u32 (cmd + 1)) 1 bytes;
        Ret (g, true)
    else Ret (g, true)
  end.

(** A C string: the bytes up to the terminating null. *)
Fixpoint cstr (s : list Z) : list Z :=
  match s with
  | [] => []
  | ch :: s' => if ch =? 0 then [] else ch :: cstr s'
  end.

(** ["ip:"] *)
Definition ip_prefix : list Z := [105; 112; 58].

(** The address a proxy passes as the fifth field of the login request; [] when there is none. *)
Definition proxy_ip (v : option amf_value) : outcome (list Z) :=
  e ← amf_get v 4;
  if (5 <=? amf_size v) && bool_decide (amf_type_of e = amf_string) then
    str ← amf_get_string e;
    match str with
    | Some str =>
      let str := cstr str in
      Ret (if bool_decide (take 3 str = ip_prefix) then drop 3 str else [])
    | None => Ret []
    end
  else Ret [].

(** [strncpy] into 256 bytes leaves longer strings without a terminator, and printing them is undefined. *)
Definition ip_string (ip : list Z) : outcome (list Z) := if zlen ip <? 256 then Ret ip else Undef.

(** Decimal digits of an unsigned number. *)
Fixpoint decimal_loop (fuel : nat) (n : Z) (acc : list Z) : list Z :=
  match fuel with
  | O => acc
  | S fuel' =>
    let acc := 48 + n mod 10 :: acc in
    if n / 10 =? 0 then acc else decimal_loop fuel' (n / 10) acc
  end.
Definition decimal (n : Z) : list Z := decimal_loop 20 n [].

(** [snprintf(xtoken, 128, "%llu:%u:%s", pid, adult, ip)] *)
Definition xtoken (pid adult : Z) (ip : list Z) : list Z :=
  take 127 (decimal pid ++ [58] ++ decimal (u32 adult) ++ [58] ++ ip).

(** The login message the gateway sends instead of the client's. *)
Definition login_message (v : client) (ip : list Z) : outcome (Z * mem) :=
  let pid := cl_playerid v in
  encode_fields 4096
    [f_array 5; f_integer 0; f_string (default [] (account_name pid)); f_string (xtoken pid (cl_adult v) ip);
     f_integer (cl_vip v); f_integer (cl_vip2 v)].

(** The forwarding at the end of [process_message]: to the backend of the command or to the world. *)
Definition forward (g : gw) (c cmd flag : Z) (d : mem) (p len : Z) (package_len : Z) : outcome (gw * Z) :=
  '(g, done) ← send_backend_message g c cmd flag d p len;
  if (done : bool) then Ret (g, package_len)
  else
    '(g, world) ← ensure_world g c;
    v ← deref (ct_heap (g_clients g) !! c);
    if world =? INVALID_WORLD_ID then Ret (agN_close g (cl_conn v), 0)
    else
      msg ← load_bytes d p len;
      '(g, _) ← world_send_message g world (cl_playerid v) cmd flag msg;
      if cmd =? C_LOGOUT_REQUEST
      then Ret (backend_broadcast g (cl_playerid v) cmd flag msg, package_len)
      else Ret (g, package_len).

(** [process_message] of translate.c for the connection [conn] of the client [c]: the answer is the
    number of bytes consumed. *)
Definition process_message (g : gw) (conn c : Z) (data : list Z) : outcome (gw * Z) :=
  v ← deref (ct_heap (g_clients g) !! c);
  _ ← c_assert (cl_conn v =? conn);
  if zlen data <? sizeof_client_header then Ret (g, 0)
  else
    let h := client_header_at data in
    let package_len := ntohl (ch_len h) in
    if zlen data <? package_len then Ret (g, 0)
    else
      let flag := ntohl (ch_flag h) in
      let cmd := ntohl (ch_cmd h) in
      let msg := sizeof_client_header in
      let msg_len := u64 (package_len - sizeof_client_header) in
      '(g, a, read_len) ← read_amf g data msg msg_len;
      if bool_decide (a = None) || negb (read_len =? msg_len) || negb (bool_decide (amf_type_of a = amf_array)) then
        let g := agN_close g conn in
        t ← client_free (g_clients g) c;
        Ret (set_clients g t, 0)
      else
        ip ← (if cmd =? C_LOGIN_REQUEST then proxy_ip a else Ret []);
        g ← update_client g c (fun v => with_protocol_flag v flag);
        if negb ((flag =? 1) || (flag =? 2)) then
          g ← send_logout g c;
          Ret (agN_close g conn, 0)
        else
          let recorded g := emit g (GRecord (u32 (cl_playerid v)) (take (Z.to_nat package_len) data)) in
          if cmd =? C_LOGIN_REQUEST then
            ip ← ip_string (if bool_decide (ip = []) then default [] (peer_ip conn) else ip);
            '(offset, buff) ← login_message v ip;
            forward (recorded g) c cmd 1 buff 0 offset package_len
          else forward (recorded g) c cmd flag data msg msg_len package_len.

(** [on_closed] of translate.c. *)
Definition translate_on_closed (g : gw) (conn c : Z) : outcome gw :=
  v ← deref (ct_heap (g_clients g) !! c);
  if conn =? cl_conn v then
    let g := set_worlds g (world_reduce_player (g_worlds g) (cl_world v)) in
    send_logout g c
  else Ret g.

(** ** A backend's package *)

Definition S_SERVICE_REGISTER_RESPOND : Z := 1005.
Definition S_SERVICE_BROADCAST_RESPOND : Z := 1007.

(** The fields of a decoded [ServiceBroadcastRequest]. *)
Record broadcast_request := mk_broadcast {
  bc_sn : Z; bc_cmd : Z; bc_flag : Z; bc_msg : list Z; bc_pids : list Z }.

(** The protobuf library: decoding the request, encoding the respond (serial number, result). *)
Variable protocol_new_r : list Z -> option broadcast_request.
Variable broadcast_respond : Z -> Z -> list Z.

Fixpoint writev_all (g : gw) (out : list (Z * list (list Z))) : gw :=
  match out with
  | [] => g
  | (conn, iov) :: out' => writev_all (fst (agN_writev g conn iov)) out'
  end.

Fixpoint send_to_players (g : gw) (pids : list Z) (cmd flag : Z) (msg : list Z) : outcome gw :=
  match pids with
  | [] => Ret g
  | pid :: pids' =>
    '(t, c) ← client_get_by_playerid (g_clients g) now pid;
    let g := set_clients g t in
    g ← (if negb (c =? 0) then '(g, _) ← send_to_client g c cmd flag msg; Ret g else Ret g);
    send_to_players g pids' cmd flag msg
  end.

Definition broadcast_to_client (g : gw) (peer : Backend) (request : broadcast_request) : outcome gw :=
  let '(cmd, flag, msg) := (bc_cmd request, bc_flag request, bc_msg request) in
  g ← (if zlen (bc_pids request) =? 0 then
         out ← client_broadcast (S (Z.to_nat (client_count (g_clients g)))) (g_clients g) cmd flag msg;
         Ret (writev_all g out)
       else send_to_players g (bc_pids request) cmd flag msg);
  let '(g, _) := backend_send g peer 0 S_SERVICE_BROADCAST_RESPOND 2 (broadcast_respond (bc_sn request) RET_SUCCESS) in
  Ret g.

(** [on_message] of backend.c. *)
Definition backend_on_message (g : gw) (peer : Backend) (data : list Z) : outcome (gw * Z) :=
  if zlen data <? sizeof_translate_header then Ret (g, 0)
  else
    let h := translate_header_at data in
    let package_len := ntohl (th_len h) in
    if zlen data <? package_len then Ret (g, 0)
    else
      let flag := ntohl (th_flag h) in
      let command := ntohl (th_cmd h) in
      let playerid := NTOHL_PID_AND_SID (ntohl (u32 (th_playerid h))) (ntohl (th_serverid h)) in
      let data_len := u64 (package_len - sizeof_translate_header) in
      if command =? C_LOGOUT_RESPOND then Ret (g, package_len)
      else if command =? S_SERVICE_REGISTER_RESPOND then Ret (g, package_len)
      else if command =? S_SERVICE_BROADCAST_REQUEST then
        if negb (playerid =? 0) then Ret (g, package_len)
        else
          msg ← load_bytes data sizeof_translate_header data_len;
          request ← deref (protocol_new_r msg);
          g ← broadcast_to_client g peer request;
          Ret (g, package_len)
      else
        '(t, c) ← client_get_by_playerid (g_clients g) now playerid;
        let g := set_clients g t in
        if c =? 0 then Ret (g, package_len)
        else
          v ← deref (ct_heap (g_clients g) !! c);
          if cl_conn v =? INVALID_ID then Ret (g, package_len)
          else
            msg ← load_bytes data sizeof_translate_header data_len;
            '(g, _) ← send_to_client g c command flag msg;
            Ret (g, package_len).

(** [on_closed] of backend.c: the table of backends after the connection [conn] of entry [i] was closed. *)
Definition backend_on_closed (bs : list Backend) (i : nat) (conn : Z) : outcome (list Backend) :=
  b ← deref (bs !! i);
  _ ← c_assert (conn =? be_conn b);
  Ret (<[i := mk_backend (be_min b) (be_max b) (be_id b) INVALID_ID]> bs).

(** The loop of [module_backend_update]. *)
Definition module_backend_update (connect : nat -> Z) (bs : list Backend) : list Backend :=
  imap (fun i b =>
    if be_id b =? 0 then b
    else if be_conn b =? INVALID_ID then mk_backend (be_min b) (be_max b) (be_id b) (connect i) else b) bs.
End Operations.
