(* ===== verification/GatewayTheorems.v ===== *)
(** * What the gateway guarantees

    Theorems on [gateway/world.c], [gateway/backend.c] and [gateway/translate.c]: where a package
    goes and that it arrives unchanged, what happens when it is malformed or its backend is
    down, and that ids of closed worlds are never valid again. *)
From S2P Require Import Prelude AgMap Lrm Dlist Keyed AmfWire AmfValue Buffer Network NetworkTheorems Package Client Gateway.

(** ** World ids *)

Section Worlds.

(** What happens to the table of worlds; the id of a world grows with every lost connection, so the guard
    leaves room for some [4 * 10^8] of them. *)
Inductive world_step : list WorldConfig -> list WorldConfig -> Prop :=
| step_connected ws i : world_step ws (world_on_connected ws i)
| step_closed ws i w : ws !! i = Some w -> wo_id w < 2 ^ 32 - 20 -> world_step ws (world_on_closed ws i)
| step_update connect ws : world_step ws (module_world_update connect ws)
| step_increase ws world : world_step ws (world_increase_player ws world)
| step_reduce ws world : world_step ws (world_reduce_player ws world).

Inductive world_reach : list WorldConfig -> list WorldConfig -> Prop :=
| reach_refl ws : world_reach ws ws
| reach_step ws1 ws2 ws3 : world_reach ws1 ws2 -> world_step ws2 ws3 -> world_reach ws1 ws3.

(** Ids are unsigned and never decrease. *)
Definition ids_ok (ws : list WorldConfig) : Prop := forall i w, ws !! i = Some w -> 0 <= wo_id w < 2 ^ 32.
Definition ids_le (ws ws' : list WorldConfig) : Prop :=
  forall i w, ws !! i = Some w -> exists w', ws' !! i = Some w' /\ wo_id w <= wo_id w'.

Lemma next_world_id_spec id :
  0 <= id < 2 ^ 32 - 20 -> id < next_world_id id < 2 ^ 32 /\ next_world_id id mod max_world_id = id mod max_world_id.
Proof.
  intros Hid. unfold next_world_id, max_world_id, INVALID_WORLD_ID. rewrite !u32_small by (rewrite ?u32_small; lia).
  ztests; (split; [lia|]); Z.div_mod_to_equations; lia.
Qed.

Lemma alter_ids (f : WorldConfig -> WorldConfig) ws i :
  (forall w, ws !! i = Some w -> wo_id w <= wo_id (f w) < 2 ^ 32) -> ids_ok ws ->
  ids_ok (alter f i ws) /\ ids_le ws (alter f i ws).
Proof.
  intros Hf Hok. split; intros j w Hj; destruct (decide (i = j)) as [->|Hne].
  - rewrite list_lookup_alter_eq in Hj. destruct (ws !! j) as [w0|] eqn:Hw0; [|discriminate]. injection Hj as <-.
    specialize (Hf _ eq_refl). pose proof (Hok _ _ Hw0). lia.
  - rewrite list_lookup_alter_ne in Hj by assumption. eauto.
  - rewrite list_lookup_alter_eq, Hj. cbn. eexists. split; [reflexivity|]. apply Hf, Hj.
  - rewrite list_lookup_alter_ne by assumption. exists w. split; [exact Hj|lia].
Qed.

Lemma world_step_ids ws ws' : world_step ws ws' -> ids_ok ws -> ids_ok ws' /\ ids_le ws ws'.
Proof.
  intros Hst Hok. destruct Hst as [ws i|ws i w Hw Hmax|connect ws|ws world|ws world].
  - apply alter_ids; [|exact Hok]. intros w Hw. cbn. pose proof (Hok _ _ Hw). lia.
  - apply alter_ids; [|exact Hok]. intros w' Hw'. rewrite Hw in Hw'. injection Hw' as <-. cbn [wo_id].
    pose proof (Hok _ _ Hw). destruct (next_world_id_spec (wo_id w)); lia.
  - unfold module_world_update. split; intros i w Hi.
    + rewrite list_lookup_imap in Hi. destruct (ws !! i) as [w0|] eqn:Hw0; [|discriminate]. cbn in Hi. injection Hi as <-.
      pose proof (Hok _ _ Hw0). ztests; cbn [with_conn wo_id]; lia.
    + rewrite list_lookup_imap, Hi. cbn. eexists. split; [reflexivity|]. ztests; cbn [with_conn wo_id]; lia.
  - apply alter_ids; [|exact Hok]. intros w Hw. cbn. pose proof (Hok _ _ Hw). lia.
  - apply alter_ids; [|exact Hok]. intros w Hw. pose proof (Hok _ _ Hw). ztests; cbn [with_count wo_id]; lia.
Qed.

Lemma world_reach_ids ws ws' : world_reach ws ws' -> ids_ok ws -> ids_ok ws' /\ ids_le ws ws'.
Proof.
  induction 1 as [ws|ws1 ws2 ws3 _ IH Hst]; intros Hok.
  - split; [exact Hok|]. intros i w Hw. exists w. split; [exact Hw|lia].
  - destruct (IH Hok) as [Hok2 Hle]. destruct (world_step_ids _ _ Hst Hok2) as [Hok3 Hle'].
    split; [exact Hok3|]. intros i w Hw. destruct (Hle i w Hw) as (w2 & Hw2 & ?).
    destruct (Hle' i w2 Hw2) as (w3 & Hw3 & ?). exists w3. split; [exact Hw3|lia].
Qed.

(** World ids are generational: once the connection of a world is lost, its id (which clients keep in
    their session) is not valid in any later state, so no message of an old session reaches the
    new connection by mistake; and after the reconnect the next id of the same slot is valid. *)
Theorem world_id_never_reused ws ws' world w conn :
  ids_ok ws -> ws !! world_slot world = Some w -> world_is_valid ws world = Ret true ->
  wo_id w < 2 ^ 32 - 20 -> 0 < wo_port w -> conn <> INVALID_ID ->
  world_reach (world_on_closed ws (world_slot world)) ws' ->
  world_is_valid ws' world = Ret false /\
  world_is_valid (world_on_connected (module_world_update (fun _ => conn) (world_on_closed ws (world_slot world)))
    (world_slot world)) (next_world_id world) = Ret true.
Proof.
  intros Hok Hw Hv Hmax Hport Hconn Hreach. unfold world_is_valid in Hv. rewrite Hw in Hv. cbn in Hv.
  destruct (Z.eqb_spec world (wo_id w)) as [->|]; [|discriminate].
  destruct (next_world_id_spec (wo_id w)) as [Hgt Hmod]; [pose proof (Hok _ _ Hw); lia|].
  set (i := world_slot (wo_id w)) in *.
  assert (Hok1 : ids_ok (world_on_closed ws i)) by (eapply world_step_ids; [econstructor; eassumption|exact Hok]).
  assert (Hw1 : world_on_closed ws i !! i = Some (mk_world (wo_port w) 0 (next_world_id (wo_id w)) false INVALID_ID 0))
    by (unfold world_on_closed; now rewrite list_lookup_alter_eq, Hw).
  split.
  - destruct (world_reach_ids _ _ Hreach Hok1) as [_ Hle]. destruct (Hle i _ Hw1) as (w' & Hw' & Hid'). cbn [wo_id] in Hid'.
    unfold world_is_valid. fold i. rewrite Hw'. cbn [deref mbind outcome_bind].
    destruct (Z.eqb_spec (wo_id w) (wo_id w')); [lia|reflexivity].
  - assert (Hslot : world_slot (next_world_id (wo_id w)) = i) by (unfold i, world_slot; now rewrite Hmod).
    unfold world_is_valid. rewrite Hslot. unfold world_on_connected. rewrite list_lookup_alter_eq.
    unfold module_world_update. rewrite list_lookup_imap, Hw1. cbn.
    destruct (Z.eqb_spec (wo_port w) 0); [lia|]. rewrite (Z.eqb_refl INVALID_ID). cbn. rewrite Z.eqb_refl. cbn.
    destruct (Z.eqb_spec conn INVALID_ID); [contradiction|reflexivity].
Qed.
End Worlds.

Definition sample_worlds : list WorldConfig :=
  mk_world 9811 2000 0 true 4 1 :: mk_world 9812 2000 1 true 5 1 :: repeat (mk_world 0 0 0 false 0 0) 8.

Lemma world_id_never_reused_witness :
  world_is_valid (world_on_connected (module_world_update (fun _ => 8) (world_on_closed sample_worlds 1)) 1) 1 = Ret false /\
  world_is_valid (world_on_connected (module_world_update (fun _ => 7) (world_on_closed sample_worlds 1)) 1) 11 = Ret true.
Proof.
  apply (world_id_never_reused sample_worlds
    (world_on_connected (module_world_update (fun _ => 8) (world_on_closed sample_worlds 1)) 1) 1 (mk_world 9812 2000 1 true 5 1) 7).
  - intros i w Hw. unfold sample_worlds in Hw.
    destruct i as [|[|i]]; cbn [lookup list_lookup] in Hw; [injection Hw as <-; cbn; lia..|].
    apply list_elem_of_lookup_2, list_elem_of_In, repeat_spec in Hw. subst w. cbn. lia.
  - reflexivity.
  - reflexivity.
  - cbn. lia.
  - cbn. lia.
  - discriminate.
  - eapply reach_step; [eapply reach_step; [apply reach_refl|apply (step_update (fun _ => 8))]|apply step_connected].
Defined.

(** ** Packages *)

Section Packages.
Context {M : Type} `{PtrMap M}.
#[local] Abbreviation gw := (gateway M).
Context (stack_sn junk : Z) (account_name peer_ip : Z -> option (list Z)).
#[local] Abbreviation process := (process_message stack_sn junk account_name peer_ip).

(** What [process_message] reads from a complete package at the head of the data. *)
Lemma package_fields m rest :
  client_sendable m ->
  let data := client_package m ++ rest in
  (zlen data <? sizeof_client_header) = false /\
  ntohl (ch_len (client_header_at data)) = zlen (client_package m) /\ (zlen data <? zlen (client_package m)) = false /\
  ntohl (ch_flag (client_header_at data)) = cm_flag m /\ ntohl (ch_cmd (client_header_at data)) = cm_cmd m /\
  u64 (zlen (client_package m) - sizeof_client_header) = zlen (cm_body m) /\
  load_bytes data sizeof_client_header (zlen (cm_body m)) = Ret (cm_body m) /\
  take (Z.to_nat (zlen (client_package m))) data = client_package m.
Proof.
  intros (Hc & Hf & Hl). cbv zeta. pose proof (zlen_nonneg (cm_body m)) as Hb. pose proof (zlen_nonneg rest) as Hr.
  assert (Hz : zlen (client_package m) = sizeof_client_header + zlen (cm_body m)).
  { unfold client_package, client_iov. cbn [concat]. cbv zeta. rewrite app_nil_r, zlen_app, zlen_client_header. reflexivity. }
  rewrite !zlen_app, Hz. unfold sizeof_client_header in *.
  split; [ztests; reflexivity|]. split; [|split; [ztests; reflexivity|]].
  - unfold client_package, client_iov. cbn [concat]. cbv zeta. rewrite app_nil_r, <- (assoc_L (++)).
    rewrite client_header_at_bytes by apply htonl_range. cbn [ch_len]. rewrite ntohl_htonl, u32_small; unfold sizeof_client_header; lia.
  - assert (Hh : ntohl (ch_flag (client_header_at (client_package m ++ rest))) = cm_flag m /\
                 ntohl (ch_cmd (client_header_at (client_package m ++ rest))) = cm_cmd m).
    { unfold client_package, client_iov. cbn [concat]. cbv zeta. rewrite app_nil_r, <- (assoc_L (++)).
      rewrite client_header_at_bytes by apply htonl_range. cbn [ch_flag ch_cmd]. now rewrite !ntohl_htonl, !u32_small. }
    destruct Hh as [H1 H2]. split; [exact H1|]. split; [exact H2|].
    split; [rewrite u64_small; lia|]. split.
    + unfold load_bytes. rewrite zlen_app, Hz. replace (_ && _ && _) with true by (symmetry; ztests; reflexivity). f_equal.
      unfold client_package, client_iov. cbn [concat]. cbv zeta. rewrite app_nil_r, <- (assoc_L (++)).
      apply slice_app_middle; [now rewrite zlen_client_header|reflexivity].
    + rewrite <- Hz, to_nat_zlen. apply take_app_length.
Qed.

(** The connection a command of the client [v] goes to: the backend of the command, or the client's
    world when no backend takes it. *)
Definition routed (g : gw) (v : client) (cmd target : Z) : Prop :=
  (exists peer, backend_get (g_backends g) cmd = Some peer /\ target = be_conn peer) \/
  (backend_get (g_backends g) cmd = None /\ cmd <> C_LOGOUT_REQUEST /\ cl_world v <> INVALID_WORLD_ID /\
   world_is_valid (g_worlds g) (cl_world v) = Ret true /\
   exists w, g_worlds g !! world_slot (cl_world v) = Some w /\ target = wo_conn w).

Lemma forward_spec (g : gw) c v cmd flag d p len msg plen target :
  ct_heap (g_clients g) !! c = Some v -> load_bytes d p len = Ret msg -> routed g v cmd target ->
  existsb (Z.eqb target) (g_live g) = true ->
  forward stack_sn junk g c cmd flag d p len plen =
  Ret (emit g (GSend target (server_package stack_sn (mk_server_message (cl_playerid v) cmd flag msg))), plen).
Proof.
  intros Hv Hld Hroute Hlive. unfold forward, send_backend_message.
  destruct Hroute as [(peer & Hb & ->)|(Hb & Hlo & Hwi & Hval & w & Hw & ->)]; rewrite Hb.
  - rewrite Hv. cbn [deref mbind outcome_bind]. rewrite Hld. cbn [mbind outcome_bind].
    unfold backend_send, agN_writev. rewrite Hlive. reflexivity.
  - cbn [mbind outcome_bind]. unfold ensure_world. rewrite Hv. cbn [deref mbind outcome_bind].
    destruct (Z.eqb_spec (cl_world v) INVALID_WORLD_ID); [contradiction|]. rewrite Hval. cbn [mbind outcome_bind].
    rewrite Hv. cbn [deref mbind outcome_bind].
    destruct (Z.eqb_spec (cl_world v) INVALID_WORLD_ID); [contradiction|]. rewrite Hld. cbn [mbind outcome_bind].
    unfold world_send_message. rewrite Hval. cbn [mbind outcome_bind negb]. rewrite Hw. cbn [deref mbind outcome_bind].
    unfold agN_writev. rewrite Hlive. destruct (Z.eqb_spec cmd C_LOGOUT_REQUEST); [contradiction|]. reflexivity.
Qed.

(** C5: A client's package goes to one place and arrives unchanged: for a complete package with an AMF
    array as payload, a known flag and any command but login and logout to the world, the
    gateway sends exactly one message, to the backend whose range contains the command or else to the
    client's world, and this message carries the client's player id and the command, flag and
    payload of the package; exactly the package is consumed, whatever follows it. *)
Theorem package_forwarded (g : gw) conn c v m rest a st target :
  ct_heap (g_clients g) !! c = Some v -> cl_conn v = conn ->
  client_sendable m -> (cm_flag m = 1 \/ cm_flag m = 2) -> cm_cmd m <> C_LOGIN_REQUEST ->
  amf_read junk (client_package m ++ rest) sizeof_client_header (zlen (cm_body m)) (g_refs g) =
    Ret (Some a, Some (zlen (cm_body m)), st) ->
  av_type a = amf_array -> routed g v (cm_cmd m) target -> existsb (Z.eqb target) (g_live g) = true ->
  exists g', process g conn c (client_package m ++ rest) = Ret (g', zlen (client_package m)) /\
    g_out g' = g_out g ++
      [GRecord (u32 (cl_playerid v)) (client_package m);
       GSend target (server_package stack_sn (mk_server_message (cl_playerid v) (cm_cmd m) (cm_flag m) (cm_body m)))] /\
    ct_heap (g_clients g') = <[c := with_protocol_flag v (cm_flag m)]> (ct_heap (g_clients g)) /\
    g_worlds g' = g_worlds g /\ g_backends g' = g_backends g /\ g_live g' = g_live g.
Proof.
  intros Hv Hconn Hm Hflag Hcmd Hamf Ha Hroute Hlive.
  destruct (package_fields m rest Hm) as (E1 & E2 & E3 & E4 & E5 & E6 & E7 & E8). cbv zeta in *.
  unfold process_message. rewrite Hv. cbn [deref mbind outcome_bind]. rewrite Hconn, Z.eqb_refl. cbn [c_assert mbind outcome_bind].
  rewrite E1, E2, E3, E4, E5, E6, E8. unfold read_amf. rewrite Hamf. cbn [mbind outcome_bind from_option id].
  rewrite bool_decide_eq_false_2 by discriminate. rewrite Z.eqb_refl. cbn [amf_type_of]. rewrite Ha.
  rewrite (bool_decide_eq_true_2 (amf_array = amf_array)) by reflexivity. cbn [orb negb].
  destruct (Z.eqb_spec (cm_cmd m) C_LOGIN_REQUEST); [contradiction|]. cbn [mbind outcome_bind].
  unfold update_client. cbn [set_refs g_clients]. rewrite Hv. cbn [deref mbind outcome_bind].
  replace (negb ((cm_flag m =? 1) || (cm_flag m =? 2))) with false by (destruct Hflag as [-> | ->]; reflexivity).
  set (g1 := set_clients (set_refs g st) _).
  assert (Hv1 : ct_heap (g_clients (emit g1 (GRecord (u32 (cl_playerid v)) (client_package m)))) !! c
    = Some (with_protocol_flag v (cm_flag m))) by apply lookup_insert_eq.
  rewrite (forward_spec _ c _ (cm_cmd m) (cm_flag m) _ _ _ (cm_body m) _ target Hv1 E7 Hroute Hlive).
  eexists. split; [reflexivity|]. cbn. rewrite <- (assoc_L (++)). auto.
Qed.
End Packages.

Section Errors.
Context {M : Type} `{PtrMapLaws M}.
#[local] Abbreviation gw := (gateway M).
Context (stack_sn junk : Z) (account_name peer_ip : Z -> option (list Z)).
#[local] Abbreviation process := (process_message stack_sn junk account_name peer_ip).

(** The answer of [amf_read] is not an array that takes the whole payload. *)
Definition rejected (len : Z) (o : option amf_value) (p : option Z) : Prop :=
  match o with None => True | Some a => default 0 p <> len \/ av_type a <> amf_array end.

(** A malformed package ends the session cleanly: when the payload is not one AMF array, nothing
    is forwarded, the connection is closed, the client is taken out of the table and freed, the
    other clients keep their places, and no byte is consumed. *)
Theorem malformed_package_closes (g : gw) conn c v m rest o p st l1 l2 :
  table_ok (g_clients g) (l1 ++ c :: l2) ->
  ct_heap (g_clients g) !! c = Some v -> cl_conn v = conn -> client_sendable m ->
  amf_read junk (client_package m ++ rest) sizeof_client_header (zlen (cm_body m)) (g_refs g) = Ret (o, p, st) ->
  rejected (zlen (cm_body m)) o p ->
  exists g', process g conn c (client_package m ++ rest) = Ret (g', 0) /\ g_out g' = g_out g ++ [GClose conn] /\
    table_ok (g_clients g') (l1 ++ l2) /\ ct_heap (g_clients g') !! c = None /\
    clients (g_clients g') (l1 ++ l2) = clients (g_clients g) l1 ++ clients (g_clients g) l2 /\
    conn ∉ g_live g'.
Proof.
  intros Hok Hv Hconn Hm Hamf Hrej.
  destruct (package_fields m rest Hm) as (E1 & E2 & E3 & E4 & E5 & E6 & _). cbv zeta in *.
  unfold process_message. rewrite Hv. cbn [deref mbind outcome_bind]. rewrite Hconn, Z.eqb_refl. cbn [c_assert mbind outcome_bind].
  rewrite E1, E2, E3, E4, E5, E6. unfold read_amf. rewrite Hamf. cbn [mbind outcome_bind].
  replace (bool_decide (o = None) || negb (default 0 p =? zlen (cm_body m)) || negb (bool_decide (amf_type_of o = amf_array)))
    with true.
  2: { destruct o as [a|]; [|reflexivity]. cbn [rejected amf_type_of] in *. rewrite bool_decide_eq_false_2 by discriminate. cbn [orb].
       destruct Hrej as [Hr|Hr].
       - destruct (Z.eqb_spec (default 0 p) (zlen (cm_body m))); [contradiction|reflexivity].
       - rewrite (bool_decide_eq_false_2 (av_type a = amf_array)) by assumption. now rewrite orb_true_r. }
  cbn [agN_close emit set_refs g_clients].
  destruct (client_free_spec (g_clients g) l1 c l2 Hok) as (t' & -> & Hok' & Hcl). cbn [mbind outcome_bind].
  eexists. split; [reflexivity|]. cbn [set_clients g_out g_clients g_live]. split; [reflexivity|]. split; [exact Hok'|].
  split; [apply (table_absent _ _ _ Hok')|split; [exact Hcl|]].
  - destruct (split_not _ _ _ _ Hok) as [H1 H2]. rewrite elem_of_app. tauto.
  - intros Hin. apply list_elem_of_In, filter_In in Hin as [_ Hin]. now rewrite Z.eqb_refl in Hin.
Qed.

(** The bytes a field writes. *)
Definition writes (f : mem -> Z -> Z -> outcome (Z * mem)) (bs : list Z) : Prop :=
  forall m p l, 0 <= p -> zlen bs <= l -> p + zlen bs <= zlen m -> f m p l = Ret (zlen bs, splice m p bs).

Lemma f_array_writes n : 0 <= n < 2 ^ 28 -> writes (f_array n) (array_header n).
Proof. intros Hn m p l Hp Hl Hm. now apply amf_encode_array_spec. Qed.

Lemma f_integer_writes n : 0 <= n < 2 ^ 32 -> writes (f_integer n) (integer_bytes amf_integer n).
Proof. intros Hn m p l Hp Hl Hm. apply amf_encode_integer_with_type_spec; [now left|assumption..]. Qed.

Lemma amf_fields_spec tlen fs bss : Forall2 writes fs bss -> forall m offset,
  0 <= offset -> zlen m = tlen -> offset + zlen (concat bss) <= tlen ->
  amf_fields tlen fs m offset = Ret (offset + zlen (concat bss), splice m offset (concat bss)).
Proof.
  induction 1 as [|f bs fs bss Hf _ IH]; intros m offset Ho Hm Hl; cbn [amf_fields concat] in *.
  - rewrite splice_nil. change (zlen (@nil Z)) with 0. now rewrite Z.add_0_r.
  - rewrite zlen_app in *. pose proof (zlen_nonneg bs). pose proof (zlen_nonneg (concat bss)).
    rewrite Hf by lia. cbn [mbind outcome_bind]. rewrite IH by (rewrite ?zlen_splice; lia).
    rewrite splice_app by lia. do 2 f_equal. lia.
Qed.

Lemma encode_fields_spec tlen fs bss :
  Forall2 writes fs bss -> zlen (concat bss) <= tlen ->
  exists m, encode_fields tlen fs = Ret (zlen (concat bss), m) /\ load_bytes m 0 (zlen (concat bss)) = Ret (concat bss).
Proof.
  intros Hf Hl. unfold encode_fields. pose proof (zlen_nonneg (concat bss)).
  assert (Hz : zlen (repeat 0 (Z.to_nat tlen)) = tlen) by (unfold zlen; rewrite repeat_length; lia).
  rewrite (amf_fields_spec tlen fs bss Hf) by lia. eexists. split; [reflexivity|].
  unfold load_bytes. rewrite zlen_splice by lia. replace (_ && _ && _) with true by (symmetry; ztests; reflexivity).
  f_equal. apply slice_splice; lia.
Qed.

(** The answer for a backend that is down: serial number, error code, backend. *)
Definition backend_error (sn id : Z) : list Z :=
  concat [array_header 3; integer_bytes amf_integer sn; integer_bytes amf_integer RET_SERVICE_STATUS_ERROR;
          integer_bytes amf_integer id].

(** When the backend of a command is not connected, the client is told: it gets one message, with the
    next command number, that carries the serial number of its request, the code
    [RET_SERVICE_STATUS_ERROR] and the id of the backend; nothing else is sent. *)
Theorem backend_down_answered (g : gw) c v peer cmd flag d p len msg a e sn st :
  ct_heap (g_clients g) !! c = Some v -> c <> 0 -> backend_get (g_backends g) cmd = Some peer ->
  existsb (Z.eqb (be_conn peer)) (g_live g) = false -> existsb (Z.eqb (cl_conn v)) (g_live g) = true ->
  load_bytes d p len = Ret msg -> amf_read junk d p len (g_refs g) = Ret (Some a, Some len, st) ->
  av_type a = amf_array -> 1 <= amf_size (Some a) -> amf_get (Some a) 0 = Ret e -> amf_get_integer e = Ret sn ->
  0 <= sn < 2 ^ 32 -> 0 <= be_id peer < 2 ^ 32 ->
  exists g', send_backend_message stack_sn junk g c cmd flag d p len = Ret (g', true) /\
    g_out g' = g_out g ++
      [GSend (cl_conn v) (client_package (mk_client_message (u32 (cmd + 1)) 1 (backend_error sn (be_id peer))))] /\
    g_clients g' = g_clients g /\ g_worlds g' = g_worlds g.
Proof.
  intros Hv Hc Hb Hdown Hlive Hld Hamf Ha Hsize Hget Hint Hsn Hid. unfold send_backend_message. rewrite Hb, Hv.
  cbn [deref mbind outcome_bind]. rewrite Hld. cbn [mbind outcome_bind]. unfold backend_send, agN_writev at 1. rewrite Hdown.
  cbn [Z.ltb Z.compare]. unfold read_amf. rewrite Hamf. cbn [mbind outcome_bind from_option id]. rewrite Z.eqb_refl. cbn [negb amf_type_of].
  rewrite Ha, (bool_decide_eq_true_2 (amf_array = amf_array)) by reflexivity.
  destruct (Z.leb_spec 1 (amf_size (Some a))); [|lia]. cbn [andb]. rewrite Hget. cbn [mbind outcome_bind]. rewrite Hint.
  cbn [mbind outcome_bind]. pose proof (zlen_integer_bytes sn). pose proof (zlen_integer_bytes (be_id peer)).
  pose proof (zlen_integer_bytes RET_SERVICE_STATUS_ERROR).
  destruct (encode_fields_spec 4096 [f_array 3; f_integer sn; f_integer RET_SERVICE_STATUS_ERROR; f_integer (be_id peer)]
    [array_header 3; integer_bytes amf_integer sn; integer_bytes amf_integer RET_SERVICE_STATUS_ERROR; integer_bytes amf_integer (be_id peer)])
    as (m & -> & Hm).
  - repeat apply Forall2_cons_2; [apply f_array_writes; lia|apply f_integer_writes..|apply Forall2_nil_2]; [lia|unfold RET_SERVICE_STATUS_ERROR; lia|lia].
  - cbn [concat]. rewrite !zlen_app. change (zlen (array_header 3)) with 3. change (zlen (@nil Z)) with 0. lia.
  - cbn [mbind outcome_bind]. rewrite Hm. cbn [mbind outcome_bind]. unfold send_to_client, client_send.
    destruct (Z.eqb_spec c 0); [contradiction|]. cbn [set_refs g_clients]. rewrite Hv. cbn [deref mbind outcome_bind].
    unfold agN_writev. cbn [set_refs g_live]. rewrite Hlive. cbn [mbind outcome_bind]. eexists. split; [reflexivity|].
    split; [reflexivity|]. split; reflexivity.
Qed.

(** A package length below the header size is not rejected: [msg_len] wraps around, and the AMF
    decoder reads behind the received data.  For every such header as the whole received data, and
    every client, the read is outside the data. *)
Theorem short_package_reads_outside (g : gw) conn c v flag cmd n :
  ct_heap (g_clients g) !! c = Some v -> cl_conn v = conn -> 0 <= n < sizeof_client_header ->
  process g conn c (client_header_bytes (mk_client_header (htonl n) (htonl flag) (htonl cmd))) = Undef.
Proof.
  intros Hv Hconn Hn. set (h := mk_client_header _ _ _). unfold process_message. rewrite Hv. cbn [deref mbind outcome_bind].
  rewrite Hconn, Z.eqb_refl. cbn [c_assert mbind outcome_bind]. rewrite zlen_client_header, Z.ltb_irrefl.
  rewrite <- (app_nil_r (client_header_bytes h)), client_header_at_bytes by apply htonl_range. cbv zeta.
  cbn [h ch_len]. unfold sizeof_client_header in *. rewrite ntohl_htonl, u32_small by lia. destruct (Z.ltb_spec 12 n); [lia|].
  unfold read_amf, amf_read. generalize (Z.to_nat (u64 (n - 12))). intros fuel. cbn [_read_amf].
  rewrite app_nil_r. unfold load. cbn [Z.leb Z.compare].
  rewrite lookup_ge_None_2; [reflexivity|]. pose proof (zlen_client_header h) as Hz. unfold zlen, sizeof_client_header in Hz. lia.
Qed.
End Errors.

(** ** From a backend to the client *)

Section Replies.
Context {M : Type} `{PtrMapLaws M}.
#[local] Abbreviation gw := (gateway M).
Context (stack_sn now : Z) (protocol_new_r : list Z -> option broadcast_request) (broadcast_respond : Z -> Z -> list Z).

Lemma server_package_fields sn m rest :
  0 <= sn < 2 ^ 32 -> sendable m ->
  let data := server_package sn m ++ rest in
  (zlen data <? sizeof_translate_header) = false /\
  ntohl (th_len (translate_header_at data)) = zlen (server_package sn m) /\ (zlen data <? zlen (server_package sn m)) = false /\
  ntohl (th_flag (translate_header_at data)) = sm_flag m /\ ntohl (th_cmd (translate_header_at data)) = sm_cmd m /\
  NTOHL_PID_AND_SID (ntohl (u32 (th_playerid (translate_header_at data)))) (ntohl (th_serverid (translate_header_at data))) = sm_pid m /\
  u64 (zlen (server_package sn m) - sizeof_translate_header) = zlen (sm_body m) /\
  load_bytes data sizeof_translate_header (zlen (sm_body m)) = Ret (sm_body m).
Proof.
  intros Hsn (Hp & Hroute & Hc & Hf & Hl). cbv zeta. pose proof (zlen_nonneg (sm_body m)) as Hb. pose proof (zlen_nonneg rest) as Hr.
  unfold server_package, translate_iov. cbn [concat]. cbv zeta. rewrite app_nil_r, <- (assoc_L (++)).
  set (h := mk_translate_header _ _ _ _ _ _).
  assert (Hz : zlen (translate_header_bytes h ++ sm_body m) = sizeof_translate_header + zlen (sm_body m))
    by (now rewrite zlen_app, zlen_translate_header).
  rewrite (assoc_L (++)), (zlen_app (_ ++ _)), Hz, <- (assoc_L (++)).
  rewrite translate_header_at_bytes by (cbn [h th_len th_sn th_playerid th_flag th_cmd th_serverid];
    first [exact Hsn | apply htonl_range | match goal with |- _ <= htonl ?x < _ => pose proof (htonl_range x); lia end]).
  cbn [h th_len th_playerid th_serverid th_flag th_cmd]. unfold sizeof_translate_header in *.
  rewrite u32_htonl, !ntohl_htonl, (u32_small (28 + _)), (u32_small (sm_flag m)), (u32_small (sm_cmd m)) by lia.
  split; [ztests; reflexivity|]. split; [reflexivity|]. split; [ztests; reflexivity|]. split; [reflexivity|]. split; [reflexivity|].
  split; [exact (proj2 (received_pid_iff _ Hp) Hroute)|]. split; [rewrite u64_small; lia|].
  unfold load_bytes. rewrite !zlen_app, zlen_translate_header. unfold sizeof_translate_header.
  replace (_ && _ && _) with true by (symmetry; ztests; reflexivity). f_equal.
  apply slice_app_middle; [now rewrite zlen_translate_header|reflexivity].
Qed.

(** Looking up the player of a client of the table finds this client and moves it to the end. *)
Lemma client_found (t : client_table M) l1 c l2 v pid :
  table_ok t (l1 ++ c :: l2) -> ct_heap t !! c = Some v -> cl_playerid v = pid ->
  exists t' v', client_get_by_playerid t now pid = Ret (t', c) /\ table_ok t' (l1 ++ l2 ++ [c]) /\
    ct_heap t' !! c = Some v' /\ c <> 0 /\ strip1 v' = strip1 (with_last_active v now) /\
    clients t' (l1 ++ l2) = clients t l1 ++ clients t l2.
Proof.
  intros Hok Hv Hpid. assert (HSv : strip (ct_heap t) !! c = Some (strip1 v)) by (now rewrite lookup_strip, Hv).
  destruct (client_get_found t l1 c l2 (strip1 v) now pid Hok HSv Hpid) as (t' & He & Hok' & Hcl).
  assert (Hin : c ∈ l1 ++ l2 ++ [c]) by (rewrite !elem_of_app; right; right; left).
  destruct (table_node t' _ c Hok' Hin) as (v' & Hv' & HSv').
  rewrite (assoc_L (++)) in Hcl. rewrite (clients_split t' (l1 ++ l2) c [] (strip1 v') HSv'), (assoc_L (++)) in Hcl.
  apply app_inj_2 in Hcl as [Hcl Hl]; [|reflexivity]. change (clients t' []) with (@nil (Z * client)) in Hl.
  injection Hl as Hs. exists t', v'. split; [exact He|]. split; [exact Hok'|]. split; [exact Hv'|].
  split; [exact (ring_pos _ _ _ _ (tb_ring _ _ Hok') Hin)|]. split; [|exact Hcl].
  unfold strip1 in *. cbn in *. congruence.
Qed.

(** What a backend sends to a player reaches this player's connection: a package with an ordinary
    command, for a player whose client is connected, makes the gateway send exactly one
    message, on the client's connection, with the command, flag and payload of the backend, and
    the client becomes the most recently used one. *)
Theorem backend_reply_delivered (g : gw) peer sn m rest l1 c l2 v :
  table_ok (g_clients g) (l1 ++ c :: l2) -> ct_heap (g_clients g) !! c = Some v -> cl_playerid v = sm_pid m ->
  0 <= sn < 2 ^ 32 -> sendable m ->
  sm_cmd m <> C_LOGOUT_RESPOND -> sm_cmd m <> S_SERVICE_REGISTER_RESPOND -> sm_cmd m <> S_SERVICE_BROADCAST_REQUEST ->
  cl_conn v <> INVALID_ID -> existsb (Z.eqb (cl_conn v)) (g_live g) = true ->
  exists g', backend_on_message stack_sn now protocol_new_r broadcast_respond g peer (server_package sn m ++ rest) =
      Ret (g', zlen (server_package sn m)) /\
    g_out g' = g_out g ++ [GSend (cl_conn v) (client_package (mk_client_message (sm_cmd m) (sm_flag m) (sm_body m)))] /\
    table_ok (g_clients g') (l1 ++ l2 ++ [c]).
Proof.
  intros Hok Hv Hpid Hsn Hm Hc1 Hc2 Hc3 Hconn Hlive.
  destruct (server_package_fields sn m rest Hsn Hm) as (E1 & E2 & E3 & E4 & E5 & E6 & E7 & E8). cbv zeta in *.
  unfold backend_on_message. rewrite E1, E2, E3, E4, E5, E6, E7.
  destruct (Z.eqb_spec (sm_cmd m) C_LOGOUT_RESPOND); [contradiction|].
  destruct (Z.eqb_spec (sm_cmd m) S_SERVICE_REGISTER_RESPOND); [contradiction|].
  destruct (Z.eqb_spec (sm_cmd m) S_SERVICE_BROADCAST_REQUEST); [contradiction|].
  destruct (client_found (g_clients g) l1 c l2 v (sm_pid m) Hok Hv Hpid) as (t' & v' & -> & Hok' & Hv' & Hc0 & Hs & _).
  cbn [mbind outcome_bind]. assert (Hc' : cl_conn v' = cl_conn v) by (exact (f_equal cl_conn Hs)).
  destruct (Z.eqb_spec c 0); [contradiction|]. cbn [set_clients g_clients]. rewrite Hv'. cbn [deref mbind outcome_bind].
  rewrite Hc'. destruct (Z.eqb_spec (cl_conn v) INVALID_ID); [contradiction|]. rewrite E8. cbn [mbind outcome_bind].
  unfold send_to_client, client_send. destruct (Z.eqb_spec c 0); [contradiction|]. cbn [set_clients g_clients]. rewrite Hv'.
  cbn [deref mbind outcome_bind]. rewrite Hc'. unfold agN_writev. cbn [set_clients g_live]. rewrite Hlive. cbn [mbind outcome_bind].
  eexists. split; [reflexivity|]. split; [reflexivity|exact Hok'].
Qed.
End Replies.

(** ** A concrete gateway *)

Definition sample_ops : list client_op :=
  [CNew 16 junk_client 1 4 0 (2 ^ 32 + 5); CNew 32 junk_client 2 6 1 (2 ^ 32 + 7)].

Definition sample_table : client_table (agmap Z) :=
  match run_clients (module_client_load _agMap_new) sample_ops with
  | Ret (t, _) => t
  | _ => module_client_load _agMap_new
  end.

Lemma clients_fst {M} `{PtrMapLaws M} (t : client_table M) l : table_ok t l -> map fst (clients t l) = l.
Proof.
  intros [_ [Hd _ _] _ _]. unfold clients. assert (Hs : forall a, a ∈ l -> is_Some (strip (ct_heap t) !! a)) by (intros; now apply Hd).
  clear Hd. induction l as [|a l IH]; [reflexivity|]. destruct (Hs a) as [v Hv]; [left|].
  rewrite (entries_cons _ _ _ _ Hv). cbn [map fst]. f_equal. apply IH. intros b Hb. apply Hs. now right.
Qed.

Lemma sample_table_ok : table_ok sample_table [16; 32].
Proof.
  destruct (@agMap_new_ok Z _ _ _) as (Hok & Hc & Hg).
  assert (Hpm : pm_ok (M := agmap Z) _agMap_new) by (split; assumption).
  destruct (run_clients_spec sample_ops _ _
    [(16, mk_client 4 0 (2 ^ 32 + 5) 0 0 1 9 0 0 0); (32, mk_client 6 1 (2 ^ 32 + 7) 0 0 2 9 0 0 0)] [16; 32]
    (load_holds _agMap_new Hpm Hg) ltac:(vm_compute; reflexivity)) as (t & Hr & l & Hl & Hcl).
  pose proof (clients_fst t l Hl) as Hfst. rewrite Hcl in Hfst. cbn in Hfst. subst l.
  unfold sample_table. rewrite Hr. exact Hl.
Qed.

Definition sample_client : client := mk_client 4 0 (2 ^ 32 + 5) 32 32 1 9 0 0 0.

(** Backend 11 takes the commands 200 to 299 on connection 7, backend 12 the commands 300 to 399 and is
    down; world 0 is connection 8. *)
Definition sample_gateway : gateway (agmap Z) :=
  mk_gw sample_table (mk_world 9811 2000 0 true 8 1 :: repeat (mk_world 0 0 0 false 0 0) 9)
    [mk_backend 0 0 0 0; mk_backend 200 299 11 7; mk_backend 300 399 12 INVALID_ID] refs_init [4; 6; 7; 8] [].

(** The payload [42, 1, 2]. *)
Definition sample_body : list Z := [9; 7; 1; 4; 42; 4; 1; 4; 2].
Definition sample_array : amf_value :=
  AV amf_array 3 (PChild [Some (AV amf_integer 1 (PInteger 42)); Some (AV amf_integer 1 (PInteger 1));
    Some (AV amf_integer 1 (PInteger 2))]).
Definition no_name (pid : Z) : option (list Z) := None.

Lemma package_forwarded_witness :
  exists g', process_message 0 0 no_name no_name sample_gateway 4 16
      (client_package (mk_client_message 210 1 sample_body) ++ [0]) = Ret (g', 21) /\
    g_out g' = [GRecord 5 (client_package (mk_client_message 210 1 sample_body));
                GSend 7 (server_package 0 (mk_server_message (2 ^ 32 + 5) 210 1 sample_body))] /\
    ct_heap (g_clients g') = <[16 := with_protocol_flag sample_client 1]> (ct_heap sample_table) /\
    g_worlds g' = g_worlds sample_gateway /\ g_backends g' = g_backends sample_gateway /\ g_live g' = [4; 6; 7; 8].
Proof.
  apply (package_forwarded 0 0 no_name no_name sample_gateway 4 16 sample_client (mk_client_message 210 1 sample_body) [0]
    sample_array refs_init 7).
  - vm_compute. reflexivity.
  - reflexivity.
  - unfold client_sendable, sizeof_client_header, zlen. cbn. lia.
  - now left.
  - discriminate.
  - vm_compute. reflexivity.
  - reflexivity.
  - left. exists (mk_backend 200 299 11 7). split; reflexivity.
  - reflexivity.
Defined.

Lemma malformed_package_closes_witness :
  exists g', process_message 0 0 no_name no_name sample_gateway 4 16
      (client_package (mk_client_message 210 1 [4; 1]) ++ [0]) = Ret (g', 0) /\ g_out g' = [GClose 4] /\
    table_ok (g_clients g') [32] /\ ct_heap (g_clients g') !! 16 = None /\
    clients (g_clients g') [32] = clients sample_table [] ++ clients sample_table [32] /\ 4 ∉ g_live g'.
Proof.
  apply (malformed_package_closes 0 0 no_name no_name sample_gateway 4 16 sample_client (mk_client_message 210 1 [4; 1]) [0]
    (Some (AV amf_integer 1 (PInteger 1))) (Some 2) refs_init [] [32]).
  - exact sample_table_ok.
  - vm_compute. reflexivity.
  - reflexivity.
  - unfold client_sendable, sizeof_client_header, zlen. cbn. lia.
  - vm_compute. reflexivity.
  - right. discriminate.
Defined.

Lemma backend_down_answered_witness :
  exists g', send_backend_message 0 0 sample_gateway 16 310 1 (sample_body ++ [0]) 0 9 = Ret (g', true) /\
    g_out g' = [GSend 4 (client_package (mk_client_message 311 1 (backend_error 42 12)))] /\
    g_clients g' = sample_table /\ g_worlds g' = g_worlds sample_gateway.
Proof.
  apply (backend_down_answered 0 0 sample_gateway 16 sample_client (mk_backend 300 399 12 INVALID_ID) 310 1 (sample_body ++ [0]) 0 9
    sample_body sample_array (Some (AV amf_integer 1 (PInteger 42))) 42 refs_init).
  - vm_compute. reflexivity.
  - discriminate.
  - reflexivity.
  - reflexivity.
  - reflexivity.
  - reflexivity.
  - vm_compute. reflexivity.
  - reflexivity.
  - cbn. lia.
  - reflexivity.
  - reflexivity.
  - lia.
  - cbn. lia.
Defined.

Lemma short_package_reads_outside_witness :
  process_message 0 0 no_name no_name sample_gateway 4 16
    (client_header_bytes (mk_client_header (htonl 5) (htonl 1) (htonl 210))) = Undef.
Proof.
  apply (short_package_reads_outside 0 0 no_name no_name sample_gateway 4 16 sample_client 1 210 5).
  - vm_compute. reflexivity.
  - reflexivity.
  - unfold sizeof_client_header. lia.
Defined.

Lemma backend_reply_delivered_witness :
  exists g', backend_on_message 0 3 (fun _ => None) (fun _ _ => []) sample_gateway (mk_backend 200 299 11 7)
      (server_package 0 (mk_server_message (2 ^ 32 + 5) 211 1 sample_body) ++ [1; 2]) = Ret (g', 37) /\
    g_out g' = [GSend 4 (client_package (mk_client_message 211 1 sample_body))] /\ table_ok (g_clients g') [32; 16].
Proof.
  apply (backend_reply_delivered 0 3 (fun _ => None) (fun _ _ => []) sample_gateway (mk_backend 200 299 11 7) 0
    (mk_server_message (2 ^ 32 + 5) 211 1 sample_body) [1; 2] [] 16 [32] sample_client).
  - exact sample_table_ok.
  - vm_compute. reflexivity.
  - reflexivity.
  - lia.
  - unfold sendable, sizeof_translate_header. cbn [sm_pid sm_cmd sm_flag sm_body].
    split; [lia|]. split; [left; vm_compute; discriminate|]. split; [lia|]. split; [lia|]. unfold zlen. cbn. lia.
  - discriminate.
  - discriminate.
  - discriminate.
  - discriminate.
  - reflexivity.
Defined.
