(* ===== verification/GatewayWorld.v ===== *)
(** * From the worlds to the clients: [gateway/world.c]

    What the gateway does with a package of a world: it is sent to the player's client, the answer to
    a login is rewritten and announced to the backends, and the answer to a logout ends the session.
    The operations extend those of [Gateway]; [start_auth] is the event [GAuth]. *)
From S2P Require Import Prelude AgMap Lrm Dlist Keyed AmfWire AmfValue Buffer Network NetworkTheorems Package Client.
From S2P Require Import Gateway GatewayTheorems.

Definition C_CREATE_PLAYER_RESPOND : Z := 8.
Definition S_SERVICE_REGISTER_REQUEST : Z := 1004.
Definition RET_CHARACTER_NOT_EXIST : Z := 3.

(** The conversion of an [unsigned long long] to the nearest [double], ties to even.  A carry out of the
    mantissa goes into the exponent. *)
Definition double_of_u64 (n : Z) : Z :=
  if n =? 0 then 0
  else
    let e := Z.log2 n in
    if e <=? 52 then Z.shiftl (1023 + e) 52 + (Z.shiftl n (52 - e) - 2 ^ 52)
    else
      let k := e - 52 in
      let q := Z.shiftr n k in
      let r := n mod 2 ^ k in
      let half := 2 ^ (k - 1) in
      let q := if (half <? r) || ((r =? half) && Z.odd q) then q + 1 else q in
      Z.shiftl (1023 + e) 52 + (q - 2 ^ 52).

(** Player ids below [2^53] keep their value. *)
Lemma double_of_u64_exact n : 0 <= n < 2 ^ 53 -> double_to_Z (double_of_u64 n) = n.
Proof.
  intros Hn. rewrite <- (double_roundtrip n Hn) at 2. f_equal. unfold double_of_u64.
  destruct (Z.eqb_spec n 0) as [->|]; [reflexivity|]. rewrite double_of_Z_val by lia.
  assert (Z.log2 n < 53) by (apply Z.log2_lt_pow2; lia). pose proof (Z.log2_nonneg n).
  destruct (Z.leb_spec (Z.log2 n) 52); [|lia]. rewrite !Z.shiftl_mul_pow2 by lia.
  replace (2 ^ 52) with (2 ^ Z.log2 n * 2 ^ (52 - Z.log2 n)) at 2 by (rewrite <- Z.pow_add_r by lia; f_equal; lia). nia.
Qed.

Definition f_double (d : Z) : mem -> Z -> Z -> outcome (Z * mem) := fun m p l => amf_encode_double m p l d.

Section Operations.
Context {M : Type} `{PtrMap M}.
#[local] Abbreviation gw := (gateway M).
Variable stack_sn : Z.
(** [account_get_by_pid(pid)->name], the time. *)
Variable account_name : Z -> option (list Z).
Variable now : Z.
(** The protobuf library: the fields of a broadcast request, the encoded respond, and the encoded
    registrations at a world and at a backend with the players online. *)
Variable protocol_new_r : list Z -> option broadcast_request.
Variable broadcast_respond : Z -> Z -> list Z.
Variable world_register backend_register : list Z -> list Z.

(** [client_foreach(append_player, request)]: the players of the connected clients. *)
Definition online_players (t : client_table M) : outcome (list Z) :=
  client_foreach (fun v ps => if 0 <? cl_playerid v then ps ++ [cl_playerid v] else ps)
    (S (Z.to_nat (client_count t))) t [].

(** [on_connected] of world.c for the world in slot [i].  [pbc_wmessage_integer] takes the lower half of a
    player id. *)
Definition world_connected (g : gw) (i : nat) : outcome gw :=
  let g := set_worlds g (world_on_connected (g_worlds g) i) in
  cfg ← deref (g_worlds g !! i);
  players ← online_players (g_clients g);
  '(g, _) ← world_send_message stack_sn g (wo_id cfg) 0 S_SERVICE_REGISTER_REQUEST 2 (world_register (map u32 players));
  Ret g.

(** [on_connected] of backend.c. *)
Definition backend_connected (g : gw) (peer : Backend) : outcome gw :=
  players ← online_players (g_clients g);
  let '(g, _) := backend_send stack_sn g peer 0 S_SERVICE_REGISTER_REQUEST 2 (backend_register players) in
  Ret g.

(** The loop of [module_world_unload]: the worlds are closed and get their next ids. *)
Fixpoint world_unload_loop (g : gw) (n i : nat) : gw :=
  match n with
  | O => g
  | S n' =>
    match g_worlds g !! i with
    | None => g
    | Some w =>
      if wo_port w =? 0 then world_unload_loop g n' (S i)
      else
        let g := agN_close g (wo_conn w) in
        let w := mk_world (wo_port w) (wo_max_count w) (next_world_id (wo_id w)) (wo_ok w) (wo_conn w) (wo_player_count w) in
        world_unload_loop (set_worlds g (<[i := w]> (g_worlds g))) n' (S i)
    end
  end.
Definition module_world_unload (g : gw) : gw := world_unload_loop g (length (g_worlds g)) 0.

(** The loop of [module_backend_unload]. *)
Fixpoint backend_unload_loop (g : gw) (bs : list Backend) : gw :=
  match bs with
  | [] => g
  | b :: bs' =>
    if be_id b =? 0 then backend_unload_loop g bs'
    else backend_unload_loop (if negb (be_conn b =? INVALID_ID) then agN_close g (be_conn b) else g) bs'
  end.
Definition module_backend_unload (g : gw) : gw := backend_unload_loop g (g_backends g).

Definition send_logout_to_backend (g : gw) (playerid : Z) : outcome gw :=
  '(offset, msg) ← encode_fields 4096 [f_array 2; f_integer 0; f_integer 1];
  bytes ← load_bytes msg 0 offset;
  Ret (backend_broadcast stack_sn g playerid C_LOGOUT_REQUEST 1 bytes).

(** [broadcast_to_client] of world.c. *)
Definition world_broadcast_to_client (g : gw) (world : Z) (request : broadcast_request) : outcome gw :=
  let '(cmd, flag, msg) := (bc_cmd request, bc_flag request, bc_msg request) in
  g ← (if zlen (bc_pids request) =? 0 then
         out ← client_broadcast (S (Z.to_nat (client_count (g_clients g)))) (g_clients g) cmd flag msg;
         Ret (writev_all g out)
       else send_to_players now g (bc_pids request) cmd flag msg);
  '(g, _) ← world_send_message stack_sn g world 0 S_SERVICE_BROADCAST_RESPOND 2 (broadcast_respond (bc_sn request) RET_SUCCESS);
  Ret g.

(** [offset += amf_decode_...(msg + offset, msg_len - offset, &v)]: the serial number and the result of a
    login or create respond at [msg] in [d]. *)
Definition respond_fields (d : mem) (msg msg_len : Z) : outcome (Z * Z) :=
  '(offset, sz) ← amf_decode_array d msg msg_len;
  _ ← c_assert (2 <=? out_or 0 sz);
  '(n, sn) ← amf_decode_integer d (msg + offset) (u64 (msg_len - offset));
  let offset := offset + n in
  '(_, result) ← amf_decode_integer d (msg + offset) (u64 (msg_len - offset));
  Ret (out_or 0 sn, out_or 0 result).

(** The answer to a login as the client gets it.  The array is announced with four elements, and
    the account name is only written for two of the results. *)
Definition login_respond (sn result playerid : Z) : outcome (Z * mem) :=
  encode_fields 1024
    ([f_array 4; f_integer sn; f_integer result; f_double (double_of_u64 playerid)] ++
     (if (result =? RET_SUCCESS) || (result =? RET_CHARACTER_NOT_EXIST)
      then [f_string (default [] (account_name playerid))] else [])).

(** The login announced to the backends. *)
Definition login_notice (v : client) : outcome (Z * mem) :=
  encode_fields 1024
    [f_array 5; f_integer 0; f_string []; f_string []; f_integer (cl_vip v); f_integer (cl_vip2 v)].

(** The part of [translate_to_client] for the answers to a login and to the creation of a character;
    [true] when the function returns there. *)
Definition handle_login_respond (g : gw) (c cmd flag playerid : Z) (d : mem) (msg msg_len : Z) : outcome (gw * bool) :=
  '(sn, result) ← respond_fields d msg msg_len;
  v ← deref (ct_heap (g_clients g) !! c);
  g ← (if cmd =? C_LOGIN_RESPOND then
         '(offset, buff) ← login_respond sn result playerid;
         bytes ← load_bytes buff 0 offset;
         Ret (fst (agN_writev g (cl_conn v) (client_iov cmd flag bytes)))
       else Ret g);
  if result =? 0 then
    '(offset, buff) ← login_notice v;
    bytes ← load_bytes buff 0 offset;
    Ret (backend_broadcast stack_sn g (cl_playerid v) C_LOGIN_REQUEST 1 bytes, false)
  else if (cmd =? C_LOGIN_RESPOND) && negb (result =? RET_CHARACTER_NOT_EXIST)
  then Ret (emit g (GAuth (cl_conn v)), true)
  else Ret (g, false).

(** [translate_to_client] of world.c on the package at the head of [data]. *)
Definition translate_to_client (g : gw) (data : list Z) : outcome gw :=
  let h := translate_header_at data in
  let len := ntohl (th_len h) in
  let playerid := NTOHL_PID_AND_SID (ntohl (u32 (th_playerid h))) (ntohl (th_serverid h)) in
  let msg := sizeof_translate_header in
  let msg_len := u64 (len - sizeof_translate_header) in
  let flag := ntohl (th_flag h) in
  let cmd := ntohl (th_cmd h) in
  '(t, c) ← client_get_by_playerid (g_clients g) now playerid;
  let g := set_clients g t in
  if c =? 0 then Ret g
  else
    v ← deref (ct_heap (g_clients g) !! c);
    if cl_conn v =? INVALID_ID then Ret g
    else
      g ← (if negb (cmd =? C_LOGIN_RESPOND)
           then bytes ← load_bytes data msg msg_len; Ret (fst (agN_writev g (cl_conn v) (client_iov cmd flag bytes)))
           else Ret g);
      '(g, done) ← (if (cmd =? C_LOGIN_RESPOND) || (cmd =? C_CREATE_PLAYER_RESPOND)
                    then handle_login_respond g c cmd flag playerid data msg msg_len
                    else Ret (g, false));
      if (done : bool) then Ret g
      else if cmd =? C_LOGOUT_RESPOND then
        let g := agN_close g (cl_conn v) in
        g ← send_logout_to_backend g (cl_playerid v);
        t ← client_free (g_clients g) c;
        Ret (set_clients g t)
      else Ret g.

(** [process_message] of world.c for the world in slot [i].  A broadcast request is decoded from all
    the received bytes behind the header. *)
Definition world_process_message (g : gw) (i : nat) (data : list Z) : outcome (gw * Z) :=
  if zlen data <? sizeof_translate_header then Ret (g, 0)
  else
    let h := translate_header_at data in
    let package_len := ntohl (th_len h) in
    if zlen data <? package_len then Ret (g, 0)
    else
      let command := ntohl (th_cmd h) in
      let playerid := NTOHL_PID_AND_SID (ntohl (u32 (th_playerid h))) (ntohl (th_serverid h)) in
      let data_len := zlen data - sizeof_translate_header in
      cfg ← deref (g_worlds g !! i);
      if command =? S_SERVICE_BROADCAST_REQUEST then
        if negb (playerid =? 0) then Ret (g, package_len)
        else
          msg ← load_bytes data sizeof_translate_header data_len;
          match protocol_new_r msg with
          | Some request => g ← world_broadcast_to_client g (wo_id cfg) request; Ret (g, package_len)
          | None => Ret (g, package_len)
          end
      else
        g ← translate_to_client g data;
        Ret (g, package_len).
End Operations.

(** ** Sending to the backends *)

(** What a broadcast sends: one message to every configured backend whose connection accepts data. *)
Definition announced (live : list Z) (bs : list Backend) (bytes : list Z) : list gw_event :=
  map (fun b => GSend (be_conn b) bytes)
    (List.filter (fun b => negb (be_id b =? 0) && negb (be_conn b =? INVALID_ID) && existsb (Z.eqb (be_conn b)) live) bs).

Definition emit_all {M} (g : gateway M) (es : list gw_event) : gateway M :=
  mk_gw (g_clients g) (g_worlds g) (g_backends g) (g_refs g) (g_live g) (g_out g ++ es).

Lemma broadcast_loop_spec {M} bs iov : forall g : gateway M,
  broadcast_loop g bs iov = emit_all g (announced (g_live g) bs (concat iov)).
Proof.
  induction bs as [|b bs IH]; intros [t ws bks st live out]; cbn [broadcast_loop].
  - unfold emit_all. cbn. now rewrite app_nil_r.
  - unfold announced. cbn [List.filter g_live]. destruct (be_id b =? 0); cbn [negb andb]; [apply IH|].
    destruct (be_conn b =? INVALID_ID); cbn [negb andb]; [apply IH|]. rewrite IH. unfold agN_writev. cbn [g_live].
    destruct (existsb _ live); cbn [fst]; [|reflexivity]. unfold emit_all, emit. cbn. now rewrite <- (assoc_L (++)).
Qed.

Lemma backend_broadcast_spec {M} sn (g : gateway M) channel cmd flag msg :
  backend_broadcast sn g channel cmd flag msg =
  emit_all g (announced (g_live g) (g_backends g) (server_package sn (mk_server_message channel cmd flag msg))).
Proof. apply broadcast_loop_spec. Qed.

(** ** Fields *)

Definition no_nul (s : list Z) : Prop := Forall (fun c => c <> 0) s.

Lemma strlen_no_nul s tail : no_nul s -> strlen (s ++ 0 :: tail) = Ret (zlen s).
Proof.
  induction 1 as [|c s Hc _ IH]; [reflexivity|]. cbn [app strlen]. destruct (Z.eqb_spec c 0); [contradiction|].
  rewrite IH. cbn [mbind outcome_bind]. now rewrite zlen_cons.
Qed.

Lemma f_string_writes s : no_nul s -> zlen s < 2 ^ 28 -> writes (f_string s) (string_bytes amf_string s).
Proof.
  intros Hn Hs m p l Hp Hl Hm. unfold f_string. rewrite <- (amf_encode_string_spec m p l s Hp Hs Hl Hm).
  unfold amf_encode_string. cbn [Z.eqb]. rewrite (strlen_no_nul s [] Hn). cbn [mbind outcome_bind].
  destruct (Z.eqb_spec (zlen s) 0) as [E|E]; [|reflexivity]. destruct s; [reflexivity|]. rewrite zlen_cons in E. pose proof (zlen_nonneg s). lia.
Qed.

Lemma f_double_writes d : writes (f_double d) (double_bytes d).
Proof.
  intros m p l Hp Hl Hm. assert (Hz : zlen (double_bytes d) = 9) by reflexivity. rewrite Hz in *.
  now apply amf_encode_double_spec.
Qed.

Lemma zlen_string_bytes s : zlen s < 8192 -> zlen (string_bytes amf_string s) <= zlen s + 3.
Proof.
  intros Hs. unfold string_bytes, size_bytes, u29_bytes. pose proof (zlen_nonneg s). rewrite zlen_cons, zlen_app.
  destruct (Z.leb_spec (2 * zlen s + 1) 0x7F); [|destruct (Z.leb_spec (2 * zlen s + 1) 0x3FFF); [|lia]];
    rewrite !zlen_cons; change (zlen (@nil Z)) with 0; lia.
Qed.

Lemma respond_fields_spec pre n sn result tail len :
  2 <= n < 2 ^ 28 -> 0 <= sn <= AMF_INTEGER_MAX -> 0 <= result <= AMF_INTEGER_MAX ->
  zlen (array_header n) + zlen (integer_bytes amf_integer sn) + zlen (integer_bytes amf_integer result) <= len < 2 ^ 64 ->
  respond_fields (pre ++ array_header n ++ integer_bytes amf_integer sn ++ integer_bytes amf_integer result ++ tail)
    (zlen pre) len = Ret (sn, result).
Proof.
  intros Hn Hsn Hr Hl. unfold respond_fields. pose proof (zlen_integer_bytes sn). pose proof (zlen_integer_bytes result).
  pose proof (zlen_nonneg (array_header n)).
  rewrite amf_decode_array_spec by lia. cbn [mbind outcome_bind out_or default from_option id].
  destruct (Z.leb_spec 2 n); [|lia]. cbn [c_assert mbind outcome_bind]. rewrite u64_small by lia.
  pose proof (amf_decode_integer_spec (pre ++ array_header n) amf_integer sn (integer_bytes amf_integer result ++ tail)
    (u64 (len - zlen (array_header n))) Hsn) as D1.
  pose proof (amf_decode_integer_spec (pre ++ array_header n ++ integer_bytes amf_integer sn) amf_integer result tail
    (len - (zlen (array_header n) + zlen (integer_bytes amf_integer sn))) Hr) as D2.
  rewrite zlen_app, <- !app_assoc in D1. rewrite !zlen_app, <- !app_assoc in D2. rewrite u64_small in * by lia. rewrite D1 by lia. cbn [mbind outcome_bind].
  rewrite u64_small by lia. rewrite D2 by lia. reflexivity.
Qed.

(** ** Answers of a world *)

Section Answers.
Context {M : Type} `{PtrMapLaws M}.
#[local] Abbreviation gw := (gateway M).
Context (stack_sn now : Z) (account_name : Z -> option (list Z)).
Context (protocol_new_r : list Z -> option broadcast_request) (broadcast_respond : Z -> Z -> list Z).
#[local] Abbreviation world_message := (world_process_message stack_sn account_name now protocol_new_r broadcast_respond).

(** A package for a connected client reaches the body of [translate_to_client]: what the handler computes
    from the header, and the client it finds. *)
Lemma world_package (g : gw) i cfg sn m rest l1 c l2 v :
  table_ok (g_clients g) (l1 ++ c :: l2) -> ct_heap (g_clients g) !! c = Some v -> cl_playerid v = sm_pid m ->
  g_worlds g !! i = Some cfg -> 0 <= sn < 2 ^ 32 -> sendable m -> sm_cmd m <> S_SERVICE_BROADCAST_REQUEST ->
  exists t' v', table_ok t' (l1 ++ l2 ++ [c]) /\ ct_heap t' !! c = Some v' /\ c <> 0 /\
    strip1 v' = strip1 (with_last_active v now) /\ clients t' (l1 ++ l2) = clients (g_clients g) l1 ++ clients (g_clients g) l2 /\
    world_message g i (server_package sn m ++ rest) =
    (g' ← (let g := set_clients g t' in
           if cl_conn v' =? INVALID_ID then Ret g
           else
             g ← (if negb (sm_cmd m =? C_LOGIN_RESPOND)
                  then Ret (fst (agN_writev g (cl_conn v') (client_iov (sm_cmd m) (sm_flag m) (sm_body m)))) else Ret g);
             '(g, done) ← (if (sm_cmd m =? C_LOGIN_RESPOND) || (sm_cmd m =? C_CREATE_PLAYER_RESPOND)
                           then handle_login_respond stack_sn account_name g c (sm_cmd m) (sm_flag m) (sm_pid m)
                                  (server_package sn m ++ rest) sizeof_translate_header (zlen (sm_body m))
                           else Ret (g, false));
             if (done : bool) then Ret g
             else if sm_cmd m =? C_LOGOUT_RESPOND then
               let g := agN_close g (cl_conn v') in
               g ← send_logout_to_backend stack_sn g (cl_playerid v');
               t ← client_free (g_clients g) c;
               Ret (set_clients g t)
             else Ret g);
     Ret (g', zlen (server_package sn m))).
Proof.
  intros Hok Hv Hpid Hw Hsn Hm Hb.
  destruct (server_package_fields sn m rest Hsn Hm) as (E1 & E2 & E3 & E4 & E5 & E6 & E7 & E8). cbv zeta in *.
  destruct (client_found now (g_clients g) l1 c l2 v (sm_pid m) Hok Hv Hpid) as (t' & v' & He & Hok' & Hv' & Hc0 & Hs & Hcl).
  exists t', v'. split; [exact Hok'|]. split; [exact Hv'|]. split; [exact Hc0|]. split; [exact Hs|]. split; [exact Hcl|].
  unfold world_process_message. cbv zeta. rewrite E1, E2, E3, E5, Hw. cbn [deref mbind outcome_bind].
  destruct (Z.eqb_spec (sm_cmd m) S_SERVICE_BROADCAST_REQUEST); [contradiction|].
  unfold translate_to_client. cbv zeta. rewrite E2, E4, E5, E6, E7, He. cbn [mbind outcome_bind].
  destruct (Z.eqb_spec c 0); [contradiction|]. cbn [set_clients g_clients]. rewrite Hv'. cbn [deref mbind outcome_bind].
  destruct (cl_conn v' =? INVALID_ID); [reflexivity|]. now rewrite E8.
Qed.

(** What a world sends to a player reaches this player's connection: an ordinary package for a
    connected client makes the gateway send exactly one message, on the client's connection, with the
    command, flag and payload of the world; the client becomes the most recently used one and exactly
    the package is consumed. *)
Theorem world_reply_delivered (g : gw) i cfg sn m rest l1 c l2 v :
  table_ok (g_clients g) (l1 ++ c :: l2) -> ct_heap (g_clients g) !! c = Some v -> cl_playerid v = sm_pid m ->
  g_worlds g !! i = Some cfg -> 0 <= sn < 2 ^ 32 -> sendable m ->
  sm_cmd m ∉ [S_SERVICE_BROADCAST_REQUEST; C_LOGIN_RESPOND; C_CREATE_PLAYER_RESPOND; C_LOGOUT_RESPOND] ->
  cl_conn v <> INVALID_ID -> existsb (Z.eqb (cl_conn v)) (g_live g) = true ->
  exists g', world_message g i (server_package sn m ++ rest) = Ret (g', zlen (server_package sn m)) /\
    g_out g' = g_out g ++ [GSend (cl_conn v) (client_package (mk_client_message (sm_cmd m) (sm_flag m) (sm_body m)))] /\
    table_ok (g_clients g') (l1 ++ l2 ++ [c]).
Proof.
  intros Hok Hv Hpid Hw Hsn Hm Hcmd Hconn Hlive. rewrite !not_elem_of_cons in Hcmd. destruct Hcmd as (Hc1 & Hc2 & Hc3 & Hc4 & _).
  destruct (world_package g i cfg sn m rest l1 c l2 v Hok Hv Hpid Hw Hsn Hm Hc1) as (t' & v' & Hok' & Hv' & Hc0 & Hs & _ & ->).
  cbv zeta. assert (Hc' : cl_conn v' = cl_conn v) by (exact (f_equal cl_conn Hs)). rewrite Hc'.
  destruct (Z.eqb_spec (cl_conn v) INVALID_ID); [contradiction|]. destruct (Z.eqb_spec (sm_cmd m) C_LOGIN_RESPOND); [contradiction|].
  destruct (Z.eqb_spec (sm_cmd m) C_CREATE_PLAYER_RESPOND); [contradiction|].
  destruct (Z.eqb_spec (sm_cmd m) C_LOGOUT_RESPOND); [contradiction|]. cbn [negb orb mbind outcome_bind].
  unfold agN_writev. cbn [set_clients g_live]. rewrite Hlive. eexists. split; [reflexivity|]. split; [reflexivity|exact Hok'].
Qed.

Definition logout_body : list Z := concat [array_header 2; integer_bytes amf_integer 0; integer_bytes amf_integer 1].

Lemma send_logout_to_backend_spec (g : gw) pid :
  send_logout_to_backend stack_sn g pid =
  Ret (emit_all g (announced (g_live g) (g_backends g) (server_package stack_sn (mk_server_message pid C_LOGOUT_REQUEST 1 logout_body)))).
Proof.
  unfold send_logout_to_backend.
  destruct (encode_fields_spec 4096 [f_array 2; f_integer 0; f_integer 1]
    [array_header 2; integer_bytes amf_integer 0; integer_bytes amf_integer 1]) as (m & -> & Hm).
  - repeat apply Forall2_cons_2; [apply f_array_writes; lia|apply f_integer_writes; lia..|apply Forall2_nil_2].
  - vm_compute. discriminate.
  - cbn [mbind outcome_bind]. rewrite Hm. cbn [mbind outcome_bind]. now rewrite backend_broadcast_spec.
Qed.

(** The answer of a world to a logout ends the session: the client gets the answer, its connection is
    closed, every connected backend is told that the player logged out, and the client is taken out of
    the table and freed, while the other clients stay as they are. *)
Theorem logout_respond_ends_session (g : gw) i cfg sn m rest l1 c l2 v :
  table_ok (g_clients g) (l1 ++ c :: l2) -> ct_heap (g_clients g) !! c = Some v -> cl_playerid v = sm_pid m ->
  g_worlds g !! i = Some cfg -> 0 <= sn < 2 ^ 32 -> sendable m -> sm_cmd m = C_LOGOUT_RESPOND ->
  cl_conn v <> INVALID_ID -> existsb (Z.eqb (cl_conn v)) (g_live g) = true ->
  exists g', world_message g i (server_package sn m ++ rest) = Ret (g', zlen (server_package sn m)) /\
    g_out g' = g_out g ++
      [GSend (cl_conn v) (client_package (mk_client_message C_LOGOUT_RESPOND (sm_flag m) (sm_body m))); GClose (cl_conn v)] ++
      announced (g_live g') (g_backends g) (server_package stack_sn (mk_server_message (sm_pid m) C_LOGOUT_REQUEST 1 logout_body)) /\
    (cl_conn v ∉ g_live g') /\ table_ok (g_clients g') (l1 ++ l2) /\ ct_heap (g_clients g') !! c = None /\
    clients (g_clients g') (l1 ++ l2) = clients (g_clients g) l1 ++ clients (g_clients g) l2.
Proof.
  intros Hok Hv Hpid Hw Hsn Hm Hcmd Hconn Hlive.
  destruct (world_package g i cfg sn m rest l1 c l2 v Hok Hv Hpid Hw Hsn Hm) as (t' & v' & Hok' & Hv' & Hc0 & Hs & Hcl & ->);
    [rewrite Hcmd; discriminate|].
  cbv zeta. assert (Hc' : cl_conn v' = cl_conn v) by (exact (f_equal cl_conn Hs)).
  assert (Hp' : cl_playerid v' = sm_pid m) by (rewrite <- Hpid; exact (f_equal cl_playerid Hs)).
  rewrite Hc', Hp', Hcmd. destruct (Z.eqb_spec (cl_conn v) INVALID_ID); [contradiction|].
  unfold agN_writev. cbn [set_clients g_live]. rewrite Hlive. cbn [Z.eqb Pos.eqb negb orb mbind outcome_bind fst C_LOGOUT_RESPOND C_LOGIN_RESPOND C_CREATE_PLAYER_RESPOND].
  rewrite send_logout_to_backend_spec. cbn [mbind outcome_bind].
  rewrite (assoc_L (++)) in Hok'.
  destruct (client_free_spec t' (l1 ++ l2) c [] Hok') as (t2 & He & Hok2 & Hcl2). rewrite app_nil_r in Hok2, Hcl2.
  cbn [emit_all agN_close emit set_clients g_clients]. rewrite He. cbn [mbind outcome_bind]. eexists. split; [reflexivity|].
  cbn [set_clients emit_all agN_close emit g_out g_live g_clients g_backends]. split; [now rewrite <- !(assoc_L (++))|]. split.
  - intros Hin. apply list_elem_of_In, filter_In in Hin as [_ Hin]. now rewrite Z.eqb_refl in Hin.
  - split; [exact Hok2|]. split; [|rewrite Hcl2; change (clients t' []) with (@nil (Z * client)); now rewrite app_nil_r, Hcl].
    apply (table_absent _ _ _ Hok2). destruct (split_not _ _ _ _ Hok). rewrite elem_of_app. tauto.
Qed.

(** The answer to a login as the client gets it, and the login as the backends get it. *)
Definition login_body (sn result pid : Z) : list Z :=
  concat ([array_header 4; integer_bytes amf_integer sn; integer_bytes amf_integer result; double_bytes (double_of_u64 pid)] ++
    (if (result =? RET_SUCCESS) || (result =? RET_CHARACTER_NOT_EXIST)
     then [string_bytes amf_string (default [] (account_name pid))] else [])).
Definition notice_body (v : client) : list Z :=
  concat [array_header 5; integer_bytes amf_integer 0; string_bytes amf_string []; string_bytes amf_string [];
          integer_bytes amf_integer (cl_vip v); integer_bytes amf_integer (cl_vip2 v)].

Definition account_names_ok : Prop := forall pid s, account_name pid = Some s -> no_nul s /\ zlen s < 128.

Lemma login_respond_spec sn result pid :
  account_names_ok -> 0 <= sn < 2 ^ 32 -> 0 <= result < 2 ^ 32 ->
  exists m, login_respond account_name sn result pid = Ret (zlen (login_body sn result pid), m) /\
    load_bytes m 0 (zlen (login_body sn result pid)) = Ret (login_body sn result pid).
Proof.
  intros Hnames Hsn Hr. unfold login_respond, login_body.
  assert (Hs : no_nul (default [] (account_name pid)) /\ zlen (default [] (account_name pid)) < 128).
  { destruct (account_name pid) as [s|] eqn:E; [exact (Hnames _ _ E)|]. split; [constructor|vm_compute; reflexivity]. }
  destruct Hs as [Hs1 Hs2]. set (s := default [] (account_name pid)) in *.
  pose proof (zlen_integer_bytes sn). pose proof (zlen_integer_bytes result). pose proof (zlen_string_bytes s ltac:(lia)).
  assert (Hd : zlen (double_bytes (double_of_u64 pid)) = 9) by reflexivity.
  apply encode_fields_spec.
  - apply Forall2_app.
    + repeat apply Forall2_cons_2; [apply f_array_writes; lia|apply f_integer_writes; lia..|apply f_double_writes|apply Forall2_nil_2].
    + destruct (_ || _); [apply Forall2_cons_2; [apply f_string_writes; [assumption|lia]|]|]; apply Forall2_nil_2.
  - destruct (_ || _); cbn [app concat]; rewrite !zlen_app, Hd; change (zlen (array_header 4)) with 3;
      change (zlen (@nil Z)) with 0; lia.
Qed.

Lemma login_notice_spec v :
  0 <= cl_vip v < 2 ^ 32 -> 0 <= cl_vip2 v < 2 ^ 32 ->
  exists m, login_notice v = Ret (zlen (notice_body v), m) /\ load_bytes m 0 (zlen (notice_body v)) = Ret (notice_body v).
Proof.
  intros H1 H2. pose proof (zlen_integer_bytes (cl_vip v)). pose proof (zlen_integer_bytes (cl_vip2 v)).
  apply encode_fields_spec.
  - assert (Hf : writes (f_string []) (string_bytes amf_string [])) by (apply f_string_writes; [constructor|vm_compute; reflexivity]).
    repeat apply Forall2_cons_2; [apply f_array_writes; lia|apply f_integer_writes; lia|exact Hf|exact Hf|
      apply f_integer_writes; lia..|apply Forall2_nil_2].
  - cbn [concat]. rewrite !zlen_app. change (zlen (array_header 5)) with 3. change (zlen (integer_bytes amf_integer 0)) with 2.
    change (zlen (string_bytes amf_string [])) with 2. change (zlen (@nil Z)) with 0. lia.
Qed.

(** What follows the answer to a login: a success is announced to the backends, a missing character is
    left to the client, after any other failure the connection goes back to authentication. *)
Definition after_login (g : gw) (v : client) (result : Z) : list gw_event :=
  if result =? RET_SUCCESS
  then announced (g_live g) (g_backends g) (server_package stack_sn (mk_server_message (cl_playerid v) C_LOGIN_REQUEST 1 (notice_body v)))
  else if result =? RET_CHARACTER_NOT_EXIST then [] else [GAuth (cl_conn v)].

Lemma server_package_split sn m : exists hdr, server_package sn m = hdr ++ sm_body m /\ zlen hdr = sizeof_translate_header.
Proof.
  unfold server_package, translate_iov. cbn [concat]. cbv zeta. rewrite app_nil_r. eexists. split; [reflexivity|].
  apply zlen_translate_header.
Qed.

(** The answer of a world to a login is rewritten before the client gets it: of the payload only the
    serial number and the result are taken, and the client gets one message with them, the player id
    as a double and, for a success or a missing character, the account name.  A success is announced
    to every connected backend, and after a failure the connection is authenticated again.  (The
    payload always announces four elements, so the message of a failure is one element short.) *)
Theorem login_respond_rewritten (g : gw) i cfg hsn m rest l1 c l2 v n sn result tail :
  table_ok (g_clients g) (l1 ++ c :: l2) -> ct_heap (g_clients g) !! c = Some v -> cl_playerid v = sm_pid m ->
  g_worlds g !! i = Some cfg -> 0 <= hsn < 2 ^ 32 -> sendable m -> sm_cmd m = C_LOGIN_RESPOND ->
  sm_body m = array_header n ++ integer_bytes amf_integer sn ++ integer_bytes amf_integer result ++ tail ->
  2 <= n < 2 ^ 28 -> 0 <= sn <= AMF_INTEGER_MAX -> 0 <= result <= AMF_INTEGER_MAX ->
  account_names_ok -> 0 <= cl_vip v < 2 ^ 32 -> 0 <= cl_vip2 v < 2 ^ 32 ->
  cl_conn v <> INVALID_ID -> existsb (Z.eqb (cl_conn v)) (g_live g) = true ->
  exists g', world_message g i (server_package hsn m ++ rest) = Ret (g', zlen (server_package hsn m)) /\
    g_out g' = g_out g ++
      [GSend (cl_conn v) (client_package (mk_client_message C_LOGIN_RESPOND (sm_flag m) (login_body sn result (sm_pid m))))] ++
      after_login g v result /\
    table_ok (g_clients g') (l1 ++ l2 ++ [c]).
Proof.
  intros Hok Hv Hpid Hw Hhsn Hm Hcmd Hbody Hn Hsn Hr Hnames Hvip Hvip2 Hconn Hlive.
  destruct (world_package g i cfg hsn m rest l1 c l2 v Hok Hv Hpid Hw Hhsn Hm) as (t' & v' & Hok' & Hv' & Hc0 & Hs & _ & ->);
    [rewrite Hcmd; discriminate|].
  cbv zeta. assert (Hc' : cl_conn v' = cl_conn v) by (exact (f_equal cl_conn Hs)).
  rewrite Hc', Hcmd. destruct (Z.eqb_spec (cl_conn v) INVALID_ID); [contradiction|].
  rewrite Z.eqb_refl. cbn [negb orb mbind outcome_bind]. unfold handle_login_respond.
  destruct (server_package_split hsn m) as (hdr & Hsp & Hz). pose proof Hm as (_ & _ & _ & _ & Hlen).
  assert (Hf : respond_fields (server_package hsn m ++ rest) sizeof_translate_header (zlen (sm_body m)) = Ret (sn, result)).
  { rewrite Hsp, Hbody, <- Hz, <- !app_assoc. apply respond_fields_spec; [assumption..|]. rewrite !zlen_app.
    pose proof (zlen_nonneg tail). rewrite Hbody, !zlen_app in Hlen. unfold sizeof_translate_header in Hlen. lia. }
  rewrite Hf. cbn [mbind outcome_bind set_clients g_clients]. rewrite Hv'. cbn [deref mbind outcome_bind]. rewrite Z.eqb_refl.
  unfold AMF_INTEGER_MAX in *.
  destruct (login_respond_spec sn result (sm_pid m) Hnames ltac:(lia) ltac:(lia)) as (bf & -> & Hbf). cbn [mbind outcome_bind].
  rewrite Hbf. cbn [mbind outcome_bind]. rewrite Hc'. unfold agN_writev. cbn [set_clients g_live]. rewrite Hlive. cbn [fst].
  assert (Hnb : notice_body v' = notice_body v).
  { unfold notice_body. now rewrite (f_equal cl_vip Hs : cl_vip v' = cl_vip v), (f_equal cl_vip2 Hs : cl_vip2 v' = cl_vip2 v). }
  unfold after_login, RET_SUCCESS. destruct (Z.eqb_spec result 0) as [->|Hr0].
  - destruct (login_notice_spec v') as (nb & -> & Hnbl);
      [now rewrite (f_equal cl_vip Hs : cl_vip v' = cl_vip v)|now rewrite (f_equal cl_vip2 Hs : cl_vip2 v' = cl_vip2 v)|].
    cbn [mbind outcome_bind]. rewrite Hnbl. cbn [mbind outcome_bind C_LOGIN_RESPOND C_LOGOUT_RESPOND Z.eqb Pos.eqb].
    rewrite backend_broadcast_spec, Hnb, (f_equal cl_playerid Hs : cl_playerid v' = cl_playerid v).
    eexists. split; [reflexivity|]. split; [cbn; now rewrite <- (assoc_L (++))|exact Hok'].
  - cbn [andb C_LOGIN_RESPOND C_LOGOUT_RESPOND Z.eqb Pos.eqb]. destruct (result =? RET_CHARACTER_NOT_EXIST); cbn [negb mbind outcome_bind];
      (eexists; split; [reflexivity|]; split; [cbn; rewrite ?app_nil_r, <- ?(assoc_L (++)); reflexivity|exact Hok']).
Qed.
End Answers.

(** ** Witnesses on the concrete gateway *)

(** A message for player [2^32 + 5] with the payload [42, result, ...] of [sample_body] or of a login. *)
Definition sample_answer (cmd : Z) (body : list Z) : server_message := mk_server_message (2 ^ 32 + 5) cmd 1 body.

Lemma sample_answer_sendable cmd body : 0 <= cmd < 2 ^ 32 -> zlen body < 1000 -> sendable (sample_answer cmd body).
Proof.
  intros Hc Hb. unfold sendable, sizeof_translate_header. cbn [sample_answer sm_pid sm_cmd sm_flag sm_body].
  split; [lia|]. split; [left; vm_compute; discriminate|]. split; [lia|]. split; lia.
Qed.

Definition no_request (bs : list Z) : option broadcast_request := None.
Definition no_respond (sn result : Z) : list Z := [].

Lemma world_reply_delivered_witness :
  exists g', world_process_message 0 no_name 3 no_request no_respond sample_gateway 0
      (server_package 0 (sample_answer 211 sample_body) ++ [1]) = Ret (g', 37) /\
    g_out g' = [GSend 4 (client_package (mk_client_message 211 1 sample_body))] /\ table_ok (g_clients g') [32; 16].
Proof.
  apply (world_reply_delivered 0 3 no_name no_request no_respond sample_gateway 0 (mk_world 9811 2000 0 true 8 1) 0
    (sample_answer 211 sample_body) [1] [] 16 [32] sample_client).
  - exact sample_table_ok.
  - vm_compute. reflexivity.
  - reflexivity.
  - reflexivity.
  - lia.
  - apply sample_answer_sendable; [lia|reflexivity].
  - cbn. rewrite !not_elem_of_cons. repeat split; try discriminate. apply not_elem_of_nil.
  - discriminate.
  - reflexivity.
Defined.

Lemma logout_respond_ends_session_witness :
  exists g', world_process_message 0 no_name 3 no_request no_respond sample_gateway 0
      (server_package 0 (sample_answer 4 sample_body) ++ []) = Ret (g', 37) /\
    g_out g' = [GSend 4 (client_package (mk_client_message 4 1 sample_body)); GClose 4] ++
      announced (g_live g') (g_backends sample_gateway) (server_package 0 (mk_server_message (2 ^ 32 + 5) 3 1 logout_body)) /\
    (4 ∉ g_live g') /\ table_ok (g_clients g') [32] /\ ct_heap (g_clients g') !! 16 = None /\
    clients (g_clients g') [32] = clients sample_table [] ++ clients sample_table [32].
Proof.
  apply (logout_respond_ends_session 0 3 no_name no_request no_respond sample_gateway 0 (mk_world 9811 2000 0 true 8 1) 0
    (sample_answer 4 sample_body) [] [] 16 [32] sample_client).
  - exact sample_table_ok.
  - vm_compute. reflexivity.
  - reflexivity.
  - reflexivity.
  - lia.
  - apply sample_answer_sendable; [lia|reflexivity].
  - reflexivity.
  - discriminate.
  - reflexivity.
Defined.

(** The payload [42, 0] of a successful login. *)
Lemma login_respond_rewritten_witness :
  exists g', world_process_message 0 no_name 3 no_request no_respond sample_gateway 0
      (server_package 0 (sample_answer 2 [9; 5; 1; 4; 42; 4; 0]) ++ []) = Ret (g', 35) /\
    g_out g' = [GSend 4 (client_package (mk_client_message 2 1 (login_body no_name 42 0 (2 ^ 32 + 5))));
                GSend 7 (server_package 0 (mk_server_message (2 ^ 32 + 5) 1 1 (notice_body sample_client)))] /\
    table_ok (g_clients g') [32; 16].
Proof.
  apply (login_respond_rewritten 0 3 no_name no_request no_respond sample_gateway 0 (mk_world 9811 2000 0 true 8 1) 0
    (sample_answer 2 [9; 5; 1; 4; 42; 4; 0]) [] [] 16 [32] sample_client 2 42 0 []).
  - exact sample_table_ok.
  - vm_compute. reflexivity.
  - reflexivity.
  - reflexivity.
  - lia.
  - apply sample_answer_sendable; [lia|reflexivity].
  - reflexivity.
  - reflexivity.
  - lia.
  - unfold AMF_INTEGER_MAX. lia.
  - unfold AMF_INTEGER_MAX. lia.
  - intros pid s [=].
  - cbn. lia.
  - cbn. lia.
  - discriminate.
  - reflexivity.
Defined.
