(* ===== verification/Account.v ===== *)
(** * Accounts of the gateway: [gateway/account.c], the queries of [gateway/database.c]

    A login resolves the account name to a player id: from the name itself for the players of the AI,
    from the cache of accounts, or from the database, where a new name is inserted.  The cache is a
    hash table by name and a map by player over the same heap of accounts.  The hash table reads the
    name through the pointer, so that a freed account that is still linked in it is visible as an
    undefined access. *)
From stdpp Require Import strings.
From S2P Require Import Prelude AgMap Buckets Hash Lrm Dlist AmfWire AmfValue Buffer Network NetworkTheorems Package Client.
From S2P Require Import Gateway.

(** The bytes of a string literal. *)
Definition chars (s : string) : list Z := map (fun a => Z.of_N (Ascii.N_of_ascii a)) (String.list_ascii_of_string s).

(** The length of a literal. *)
Ltac zchars := repeat match goal with
  | |- context [zlen (chars ?s)] => let n := eval vm_compute in (zlen (chars s)) in change (zlen (chars s)) with n
  end.

(** ** The C library's number parsers *)

Definition is_space (ch : Z) : bool := (ch =? 32) || ((9 <=? ch) && (ch <=? 13)).
Definition is_digit (ch : Z) : bool := (48 <=? ch) && (ch <=? 57).

Fixpoint skip_space (s : list Z) : list Z :=
  match s with
  | ch :: s' => if is_space ch then skip_space s' else s
  | [] => []
  end.

Fixpoint parse_digits (s : list Z) (acc : Z) : Z :=
  match s with
  | ch :: s' => if is_digit ch then parse_digits s' (acc * 10 + (ch - 48)) else acc
  | [] => acc
  end.

(** White space, a sign and digits; [None] without a digit. *)
Definition parse_number (s : list Z) : option Z :=
  let '(neg, s) := match skip_space s with
                   | ch :: s' => if ch =? 45 then (true, s') else if ch =? 43 then (false, s') else (false, ch :: s')
                   | [] => (false, [])
                   end in
  match s with
  | ch :: _ => if is_digit ch then let n := parse_digits s 0 in Some (if neg then - n else n) else None
  | [] => None
  end.

(** [atoll] and [sscanf(s, "%llu", ...)]; a number that does not fit is undefined. *)
Definition atoll (s : list Z) : outcome Z :=
  let n := default 0 (parse_number s) in
  if (- 2 ^ 63 <=? n) && (n <? 2 ^ 63) then Ret n else Undef.

Definition sscanf_llu (s : list Z) : outcome (option Z) :=
  match parse_number s with
  | None => Ret None
  | Some n => if Z.abs n <? 2 ^ 64 then Ret (Some (u64 n)) else Undef
  end.

(** [strstr]: the position of the first occurrence. *)
Fixpoint strstr (s pat : list Z) : option nat :=
  if bool_decide (take (length pat) s = pat) then Some O
  else match s with [] => None | _ :: s' => S <$> strstr s' pat end.

(** ** Accounts *)

(** [account]: the characters of [name], without the nulls that fill the 128 bytes. *)
Record account := mk_account { ac_name : list Z; ac_playerid : Z; ac_last_world : Z }.

(** What [_do_write_account_log] writes: player, name, address. *)
Definition account_log : Type := Z * list Z * list Z.

(** The accounts that are allocated, [account_hash], [g_account_table], [DISABLE_NEW_ACCOUNT], the
    connection [account_db->mysql] ([None] is the null pointer) and the log. *)
Record accounts (M D : Type) := mk_accounts {
  acs_heap : gmap Z account; acs_hash : hash Z; acs_table : M; acs_disable : Z; acs_db : option D;
  acs_log : list account_log }.
Arguments mk_accounts {M D} _ _ _ _ _ _.
Arguments acs_heap {M D} _.
Arguments acs_hash {M D} _.
Arguments acs_table {M D} _.
Arguments acs_disable {M D} _.
Arguments acs_db {M D} _.
Arguments acs_log {M D} _.

(** [get_name_of_account] *)
Definition get_name_of_account (heap : gmap Z account) (a : Z) : key := default [] (ac_name <$> heap !! a).

Definition all_live (heap : gmap Z account) (l : list Z) : bool :=
  forallb (fun a => bool_decide (is_Some (heap !! a))) l.

(** The accounts whose names a search for [k] compares. *)
Definition visited (heap : gmap Z account) (h : hash Z) (k : key) : outcome (bool * list Z) :=
  index ← bucket_index h (default_hash_key k);
  '(c, found, i) ← find_element (get_name_of_account heap) default_cmp_key h index k;
  Ret (found, map he_data (take (S i) c)).

(** [hash_get(account_hash, ...)], undefined when a freed account is compared. *)
Definition account_hash_get (heap : gmap Z account) (h : hash Z) (k : key) : outcome (option Z) :=
  '(_, l) ← visited heap h k;
  if all_live heap l then hash_get (get_name_of_account heap) default_hash_key default_cmp_key h k else Undef.

(** [hash_insert(account_hash, acc)]: growing the table reads the names of all accounts. *)
Definition account_hash_insert (heap : gmap Z account) (malloc_ok : bool) (h : hash Z) (acc : Z)
    : outcome (hash Z * option Z) :=
  '(found, l) ← visited heap h (get_name_of_account heap acc);
  let grows := negb found && (h_size h <=? u32 (h_count h + 1)) && malloc_ok in
  if all_live heap (if grows then acc :: map he_data (concat (h_buckets h)) else l)
  then hash_insert (get_name_of_account heap) default_hash_key default_cmp_key malloc_ok h acc else Undef.

Definition account_hash_remove (heap : gmap Z account) (h : hash Z) (k : key) : outcome (hash Z * option Z) :=
  '(_, l) ← visited heap h k;
  if all_live heap l then hash_remove (get_name_of_account heap) default_hash_key default_cmp_key h k else Undef.

(** ** SQL *)

(** ["SELECT `id` FROM `account` WHERE `account`=" name] in double quotes. *)
Definition select_sql (name : list Z) : list Z := chars "SELECT `id` FROM `account` WHERE `account`=" ++ [34] ++ name ++ [34].
Definition insert_sql (name : list Z) : list Z :=
  chars "INSERT INTO `account`(`account`, `from`, `game`)VALUES(" ++ [34] ++ name ++ [34] ++ chars ", 0, 0)".
Definition update_sql (new_name : list Z) (pid : Z) : list Z :=
  chars "UPDATE `account` SET `account`=" ++ new_name ++ chars " WHERE `id`=" ++ decimal pid.
Definition disable_sql : list Z := chars "SELECT `id` FROM `account` WHERE `account`='DISABLE_NEW_ACCOUNT'".

Section Operations.
Context {M D : Type} `{PtrMap M}.
#[local] Abbreviation accs := (accounts M D).

(** The MySQL client.  [mysql_query d sql] is [mysql_real_query] and [mysql_store_result]: [None] when
    the statement fails, else the rows ([[]] also without a result set), each by its first column, which
    is a null pointer for a NULL of the database. *)
Variable mysql_query : D -> list Z -> D * option (list (option (list Z))).
Variable mysql_insert_id : D -> Z.
(** The content of uninitialised locals of the AMF decoder, [getpeername] of a connection. *)
Variable junk : Z.
Variable peer_ip : Z -> option (list Z).

Definition set_db (A : accs) (db : option D) : accs :=
  mk_accounts (acs_heap A) (acs_hash A) (acs_table A) (acs_disable A) db (acs_log A).
Definition set_disable (A : accs) (n : Z) : accs :=
  mk_accounts (acs_heap A) (acs_hash A) (acs_table A) n (acs_db A) (acs_log A).
Definition add_log (A : accs) (e : account_log) : accs :=
  mk_accounts (acs_heap A) (acs_hash A) (acs_table A) (acs_disable A) (acs_db A) (acs_log A ++ [e]).

(** [load_int64]: the answer is [None] for -1. *)
Definition load_int64 (A : accs) (query_str : list Z) : outcome (accs * option Z) :=
  d ← deref (acs_db A);
  let '(d, r) := mysql_query d query_str in
  let A := set_db A (Some d) in
  match r with
  | Some (row :: _) => s ← deref row; v ← atoll s; Ret (A, Some v)
  | _ => Ret (A, None)
  end.

(** [database_update] with the formatted statement, in a buffer of 4096 bytes. *)
Definition database_update (A : accs) (sql : list Z) : outcome (accs * Z) :=
  match acs_db A with
  | None => Ret (A, -1)
  | Some d =>
    if 4096 <=? zlen sql then Undef
    else
      let '(d, r) := mysql_query d sql in
      Ret (set_db A (Some d), match r with None => -1 | Some _ => 0 end)
  end.

Definition database_last_id (A : accs) : outcome Z := d ← deref (acs_db A); Ret (u64 (mysql_insert_id d)).

(** [module_account_load]; [None] when the hash table cannot be allocated. *)
Definition module_account_load (create_ok malloc_ok : bool) (m : M) (db : option D) : outcome (option accs) :=
  if create_ok
  then h ← hash_create (get_name_of_account ∅) default_cmp_key malloc_ok; Ret (Some (mk_accounts ∅ h m (-1) db []))
  else Ret None.

Definition module_account_update (A : accs) (now : Z) : outcome accs :=
  if negb (acs_disable A =? -1) && negb (Z.rem now 5 =? 0) then Ret A
  else
    '(A, pid) ← load_int64 A disable_sql;
    Ret (set_disable A (match pid with Some _ => 1 | None => 0 end)).

(** [account_new] when [malloc] answers [acc]; [malloc_ok] is the answer to the hash table. *)
Definition account_new (A : accs) (acc : Z) (malloc_ok : bool) (name : list Z) (playerid : Z) : outcome (accs * Z) :=
  if acc =? 0 then Ret (A, 0)
  else
    let heap := <[acc := mk_account (take 127 name) playerid (-1)]> (acs_heap A) in
    '(h, _) ← account_hash_insert heap malloc_ok (acs_hash A) acc;
    '(t, tmp) ← pm_set (acs_table A) playerid acc;
    heap ← (if tmp =? 0 then Ret heap
            else
              old ← deref (heap !! tmp);
              let heap := <[acc := mk_account (take 127 name) playerid (ac_last_world old)]> heap in
              Ret (delete tmp heap));
    Ret (mk_accounts heap h t (acs_disable A) (acs_db A) (acs_log A), acc).

Definition account_get (A : accs) (name : list Z) : outcome (option Z) := account_hash_get (acs_heap A) (acs_hash A) name.
Definition account_get_by_pid (A : accs) (pid : Z) : outcome Z := pm_get (acs_table A) pid.

(** The address [_do_write_account_log] writes for the login request [data] of [conn]. *)
Definition account_ip (st : amf_refs) (conn : Z) (data : list Z) : outcome (amf_refs * list Z) :=
  let unknown := chars "unknown" in
  if zlen data <? sizeof_client_header then Ret (st, unknown)
  else
    let h := client_header_at data in
    let package_len := ntohl (ch_len h) in
    if zlen data <? package_len then Ret (st, unknown)
    else if negb (ntohl (ch_cmd h) =? C_LOGIN_REQUEST) then Ret (st, unknown)
    else
      let msg_len := u64 (package_len - sizeof_client_header) in
      '(v, n, st) ← amf_read junk data sizeof_client_header msg_len st;
      if bool_decide (v = None) || negb (default 0 n =? msg_len) || negb (bool_decide (amf_type_of v = amf_array))
      then Ret (st, unknown)
      else
        ip ← proxy_ip v;
        let ip := if bool_decide (ip = []) then default [] (peer_ip conn) else ip in
        ip ← ip_string (if bool_decide (ip = []) then unknown else ip);
        Ret (st, ip).

(** [account_parse_pid_by_name]: the player, or [None] for -1.  [acc] and [malloc_ok] are the answers of
    [malloc] in [account_new]. *)
Definition account_parse_pid_by_name (A : accs) (st : amf_refs) (acc : Z) (malloc_ok : bool) (conn : Z) (name : list Z)
    (data : list Z) (serverid : Z) : outcome (accs * amf_refs * option Z) :=
  let real_name := take 96 name in
  match strstr real_name (chars "@ai") with
  | Some pos => pid ← sscanf_llu (take pos real_name); Ret (A, st, pid)
  | None =>
    a ← account_get A real_name;
    match a with
    | Some a => v ← deref (acs_heap A !! a); Ret (A, st, Some (ac_playerid v))
    | None =>
      '(A, id) ← load_int64 A (select_sql real_name);
      match id with
      | Some id =>
        let pid := u64 (NTOHL_PID_AND_SID id serverid) in
        '(A, _) ← account_new A acc malloc_ok real_name pid;
        Ret (A, st, Some pid)
      | None =>
        if acs_disable A =? 1 then Ret (A, st, None)
        else
          '(A, rc) ← database_update A (insert_sql real_name);
          if negb (rc =? 0) then
            _ ← deref (acs_db A);  (* [mysql_errno(account_db->mysql)] *)
            Ret (A, st, None)
          else
            id ← database_last_id A;
            let pid := u64 (NTOHL_PID_AND_SID (i64 id) serverid) in
            '(A, _) ← account_new A acc malloc_ok real_name pid;
            '(st, ip) ← account_ip st conn data;
            Ret (add_log A (pid, real_name, ip), st, Some pid)
      end
    end
  end.

(** [account_change] *)
Definition account_change (A : accs) (malloc_ok : bool) (pid : Z) (new_name : list Z) : outcome (accs * Z) :=
  acc ← account_get_by_pid A pid;
  if acc =? 0 then Ret (A, -1)
  else
    '(A, rc) ← database_update A (update_sql new_name pid);
    if negb (rc =? 0) then _ ← deref (acs_db A); Ret (A, -1)
    else
      v ← deref (acs_heap A !! acc);
      let old_name := ac_name v in
      let heap := <[acc := mk_account (take 127 new_name) (ac_playerid v) (ac_last_world v)]> (acs_heap A) in
      '(h, _) ← account_hash_insert heap malloc_ok (acs_hash A) acc;
      '(h, _) ← account_hash_remove heap h old_name;
      Ret (mk_accounts heap h (acs_table A) (acs_disable A) (acs_db A) (acs_log A), 0).
End Operations.

(** ** Decimal numbers *)

Lemma decimal_loop_app fuel : forall n acc, decimal_loop fuel n acc = decimal_loop fuel n [] ++ acc.
Proof.
  induction fuel as [|fuel IH]; intros n acc; [reflexivity|]. cbn [decimal_loop]. destruct (n / 10 =? 0); [reflexivity|].
  rewrite IH, (IH _ [_]), <- (assoc_L (++)). reflexivity.
Qed.

Lemma decimal_loop_spec fuel : forall n rest a, 0 <= n < 10 ^ Z.of_nat fuel -> (0 < fuel)%nat ->
  exists ch ds, decimal_loop fuel n [] = ch :: ds /\ is_digit ch = true /\
    exists k, 0 <= k /\ parse_digits (decimal_loop fuel n [] ++ rest) a = parse_digits rest (a * 10 ^ k + n).
Proof.
  induction fuel as [|fuel IH]; intros n rest a Hn Hf; [lia|]. cbn [decimal_loop].
  assert (Hd : is_digit (48 + n mod 10) = true).
  { unfold is_digit. pose proof (Z.mod_pos_bound n 10 ltac:(lia)). apply andb_true_intro. split; apply Z.leb_le; lia. }
  assert (Hp : forall b, parse_digits ((48 + n mod 10) :: rest) b = parse_digits rest (b * 10 + n mod 10)).
  { intros b. cbn [parse_digits]. rewrite Hd. f_equal. lia. }
  destruct (Z.eqb_spec (n / 10) 0) as [E|E].
  - exists (48 + n mod 10), []. split; [reflexivity|]. split; [exact Hd|]. exists 1. split; [lia|]. cbn [app]. rewrite Hp. f_equal.
    rewrite Z.pow_1_r. pose proof (Z.div_mod n 10). lia.
  - destruct fuel as [|fuel]; [rewrite Z.div_small in E by lia; lia|].
    assert (Hn' : 0 <= n / 10 < 10 ^ Z.of_nat (S fuel)).
    { split; [apply Z.div_pos; lia|]. apply Z.div_lt_upper_bound; [lia|].
      replace (Z.of_nat (S (S fuel))) with (1 + Z.of_nat (S fuel)) in Hn by lia. rewrite Z.pow_add_r in Hn by lia. lia. }
    rewrite decimal_loop_app. destruct (IH (n / 10) ((48 + n mod 10) :: rest) a Hn' ltac:(lia)) as (ch & ds & He & Hc & k & Hk0 & Hk).
    exists ch, (ds ++ [48 + n mod 10]). split; [now rewrite He|]. split; [exact Hc|].
    exists (k + 1). split; [lia|]. rewrite <- (assoc_L (++)). cbn [app]. rewrite Hk, Hp. f_equal.
    rewrite Z.pow_add_r by lia. pose proof (Z.div_mod n 10). lia.
Qed.

Lemma atoll_decimal n : 0 <= n < 2 ^ 63 -> atoll (decimal n) = Ret n.
Proof.
  intros Hn. unfold decimal. destruct (decimal_loop_spec 20 n [] 0) as (ch & ds & He & Hc & k & _ & Hk); [lia|lia|].
  rewrite app_nil_r in Hk. rewrite He in Hk |- *. unfold atoll, parse_number. cbn [skip_space].
  assert (Hr : 48 <= ch <= 57) by (unfold is_digit in Hc; zbool; lia).
  assert (Hs : is_space ch = false) by (unfold is_space; destruct (Z.eqb_spec ch 32), (Z.leb_spec ch 13); cbn; rewrite ?andb_false_r; lia).
  rewrite Hs. destruct (Z.eqb_spec ch 45); [lia|]. destruct (Z.eqb_spec ch 43); [lia|]. rewrite Hc, Hk.
  cbn [default from_option id parse_digits]. replace (0 * 10 ^ k + n) with n by lia. destruct (Z.leb_spec (- 2 ^ 63) n), (Z.ltb_spec n (2 ^ 63)); try lia. reflexivity.
Qed.

(** ** What the gateway relies on of the table [account] *)

(** Names that reach the database: no quotes or backslashes, at most 96 bytes, and not of the AI. *)
Definition plain_name (name : list Z) : Prop :=
  Forall (fun c => c <> 0 /\ c <> 34 /\ c <> 92) name /\ zlen name <= 96 /\ strstr name (chars "@ai") = None.

(** [ids d] are the ids of the names in the table, under the [collate]d name: the collation of the
    column identifies names that differ in trailing spaces or accents.  Any statement may fail. *)
Class AccountDb {D} (mysql_query : D -> list Z -> D * option (list (option (list Z)))) (mysql_insert_id : D -> Z)
    (collate : list Z -> list Z) (ids : D -> gmap (list Z) Z) : Prop := {
  db_select : forall d name, plain_name name ->
    exists d', ids d' = ids d /\
      (mysql_query d (select_sql name) = (d', None) \/
       mysql_query d (select_sql name) =
         (d', Some (match ids d !! collate name with Some id => [Some (decimal id)] | None => [] end)));
  db_insert : forall d name, plain_name name ->
    exists d', (mysql_query d (insert_sql name) = (d', None) /\ ids d' = ids d) \/
      (mysql_query d (insert_sql name) = (d', Some []) /\ ids d !! collate name = None /\
       ids d' = <[collate name := mysql_insert_id d']> (ids d));
  db_range : forall d k id, ids d !! k = Some id -> 0 < id < 2 ^ 31;
  db_unique : forall d k1 k2 id, ids d !! k1 = Some id -> ids d !! k2 = Some id -> k1 = k2 }.

Section Correctness.
Context {M D : Type} `{PtrMapLaws M}.
Context (mysql_query : D -> list Z -> D * option (list (option (list Z)))) (mysql_insert_id : D -> Z).
Context (collate : list Z -> list Z) (ids : D -> gmap (list Z) Z) `{!AccountDb mysql_query mysql_insert_id collate ids}.
Context (junk : Z) (peer_ip : Z -> option (list Z)) (serverid : Z).
Hypothesis serverid_ok : 0 <= serverid < 2 ^ 32.
#[local] Abbreviation accs := (accounts M D).
#[local] Abbreviation named heap := (hash_map (get_name_of_account heap)).

(** The player of the row [id]. *)
Definition pid_of (id : Z) : Z := id + 2 ^ 32 * serverid.

(** The cache: both indexes hold exactly the allocated accounts, which are rows of the database. *)
Record accounts_ok (A : accs) (d : D) : Prop := {
  ao_db : acs_db A = Some d;
  ao_hash : hash_ok (get_name_of_account (acs_heap A)) default_hash_key default_cmp_key (acs_hash A);
  ao_table : pm_ok (acs_table A);
  ao_names : forall name a, named (acs_heap A) (acs_hash A) !! name = Some a <->
    exists v, acs_heap A !! a = Some v /\ ac_name v = name;
  ao_pids : forall pid a, pm_abs (acs_table A) !! pid = Some a <-> exists v, acs_heap A !! a = Some v /\ ac_playerid v = pid;
  ao_rows : forall a v, acs_heap A !! a = Some v ->
    a <> 0 /\ exists id, ids d !! collate (ac_name v) = Some id /\ ac_playerid v = pid_of id }.

Lemma pid_of_row id : 0 < id < 2 ^ 31 -> u64 (NTOHL_PID_AND_SID id serverid) = pid_of id.
Proof.
  intros Hid. unfold NTOHL_PID_AND_SID, pid_of. destruct (Z.ltb_spec 0 id); [|lia].
  unfold TRANSFORM_PLAYERID. rewrite Z.shiftr_div_pow2, Z.div_small by lia. cbn [u32 Z.modulo Z.eqb].
  unfold TRANSFORM_PLAYERID_TO_64. change (u32 0 =? 0) with true. cbv iota. rewrite !u32_small by lia. apply u64_small. lia.
Qed.

(** Every element of the table is an allocated account. *)
Lemma elem_live A d e : accounts_ok A d -> e ∈ helems (acs_hash A) -> exists v, acs_heap A !! he_data e = Some v.
Proof.
  intros Hok He.
  assert (Hm : named (acs_heap A) (acs_hash A) !! ekey (get_name_of_account (acs_heap A)) e = Some (he_data e))
    by (apply hash_map_elem with (1 := ao_hash _ _ Hok); eauto).
  apply (ao_names _ _ Hok) in Hm as (v & Hv & _). eauto.
Qed.

Lemma all_live_spec heap l : all_live heap l = true <-> forall a, a ∈ l -> is_Some (heap !! a).
Proof.
  unfold all_live. rewrite forallb_forall. split.
  - intros Hl a Ha. apply list_elem_of_In, Hl, bool_decide_eq_true in Ha. exact Ha.
  - intros Hl a Ha. apply bool_decide_eq_true, Hl, list_elem_of_In, Ha.
Qed.

(** A search in a table of live accounts reads only live accounts. *)
Lemma visited_spec heap h k :
  hash_ok (get_name_of_account heap) default_hash_key default_cmp_key h ->
  (forall e, e ∈ helems h -> is_Some (heap !! he_data e)) ->
  exists found l, visited heap h k = Ret (found, l) /\ all_live heap l = true.
Proof.
  intros Hok Hl. unfold visited.
  destruct (find_element_spec _ _ default_cmp_key h k (h_ok _ _ _ _ Hok)) as (c & i & -> & Hc & Hf).
  assert (Hlive : all_live heap (map he_data (take (S i) c)) = true).
  { apply all_live_spec. intros a Ha. apply list_elem_of_fmap in Ha as (e & -> & He). apply Hl.
    apply elem_of_concat. exists (Z.to_nat (default_hash_key k mod h_size h)), c. split; [exact Hc|].
    rewrite <- (take_drop (S i) c). apply elem_of_app. now left. }
  cbn [mbind outcome_bind].
  destruct Hf as [(e & rest & -> & _)|(-> & _)]; cbn [mbind outcome_bind]; eauto.
Qed.

Lemma account_get_spec A d name :
  accounts_ok A d -> account_get A name = Ret (named (acs_heap A) (acs_hash A) !! name).
Proof.
  intros Hok. unfold account_get, account_hash_get.
  destruct (visited_spec (acs_heap A) (acs_hash A) name (ao_hash _ _ Hok)) as (found & l & -> & Hl).
  { intros e He. destruct (elem_live A d e Hok He) as [v ->]. eauto. }
  cbn [mbind outcome_bind]. rewrite Hl. apply hash_get_spec; [apply _|]. apply (h_ok _ _ _ _ (ao_hash _ _ Hok)).
Qed.

(** The empty cache. *)
Lemma load_accounts_ok (m : M) d : pm_ok m -> pm_abs m = ∅ ->
  exists A, module_account_load true true m (Some d) = Ret (Some A) /\ accounts_ok A d /\ acs_heap A = ∅.
Proof.
  intros Hm He. destruct (hash_create_spec (get_name_of_account ∅) default_hash_key default_cmp_key true eq_refl) as (h & Hc & Hok & Hmap).
  unfold module_account_load. rewrite Hc. cbn [mbind outcome_bind]. eexists. split; [reflexivity|]. split; [|reflexivity].
  constructor; cbn [acs_db acs_heap acs_hash acs_table]; [reflexivity|exact Hok|exact Hm| | |].
  - intros name a. rewrite Hmap, lookup_empty. split; [discriminate|]. intros (v & Hv & _). now rewrite lookup_empty in Hv.
  - intros pid a. rewrite He, lookup_empty. split; [discriminate|]. intros (v & Hv & _). now rewrite lookup_empty in Hv.
  - intros a v Hv. now rewrite lookup_empty in Hv.
Qed.

(** A new account of a row whose name and player are not cached yet. *)
Lemma account_new_spec A d acc malloc_ok name id :
  accounts_ok A d -> acc <> 0 -> acs_heap A !! acc = None -> zlen name <= 96 ->
  zlen (helems (acs_hash A)) < 2 ^ 30 -> Z.of_nat (size (pm_abs (acs_table A))) < 2 ^ 61 ->
  ids d !! collate name = Some id -> 0 < id < 2 ^ 31 ->
  (forall a v, acs_heap A !! a = Some v -> ac_name v <> name /\ ac_playerid v <> pid_of id) ->
  exists A', account_new A acc malloc_ok name (pid_of id) = Ret (A', acc) /\ accounts_ok A' d /\
    acs_disable A' = acs_disable A /\ acs_log A' = acs_log A /\
    acs_heap A' = <[acc := mk_account name (pid_of id) (-1)]> (acs_heap A).
Proof.
  intros Hok Ha0 Ha Hn Hsz Hsz2 Hrow Hid Hnew. unfold account_new. destruct (Z.eqb_spec acc 0) as [|_]; [contradiction|].
  rewrite take_ge by (unfold zlen in Hn; lia). set (heap := <[acc := _]> (acs_heap A)).
  assert (Hgn : get_name_of_account heap acc = name) by (unfold get_name_of_account, heap; now rewrite lookup_insert_eq).
  assert (Hx : forall e, e ∈ helems (acs_hash A) -> get_name_of_account (acs_heap A) (he_data e) = get_name_of_account heap (he_data e)).
  { intros e He. destruct (elem_live A d e Hok He) as [v Hv]. unfold get_name_of_account, heap. rewrite lookup_insert_ne; [reflexivity|].
    intros E. rewrite <- E, Ha in Hv. discriminate. }
  destruct (hash_ext _ (get_name_of_account heap) _ _ _ Hx (ao_hash _ _ Hok)) as [Hok1 Hmap].
  assert (Hlive : forall e, e ∈ helems (acs_hash A) -> is_Some (heap !! he_data e)).
  { intros e He. destruct (elem_live A d e Hok He) as [v Hv]. unfold heap.
    rewrite lookup_insert_is_Some, Hv. destruct (decide (acc = he_data e)); eauto. }
  unfold account_hash_insert. destruct (visited_spec heap (acs_hash A) (get_name_of_account heap acc) Hok1 Hlive) as (found & l & -> & Hl).
  cbn [mbind outcome_bind].
  assert (Hall : all_live heap (if negb found && (h_size (acs_hash A) <=? u32 (h_count (acs_hash A) + 1)) && malloc_ok
     then acc :: map he_data (concat (h_buckets (acs_hash A))) else l) = true).
  { destruct (negb found && _ && malloc_ok); [|exact Hl]. apply all_live_spec. intros a Hin. apply elem_of_cons in Hin as [->|Hin].
    - unfold heap. rewrite lookup_insert_eq. eauto.
    - apply list_elem_of_fmap in Hin as (e & -> & He). now apply Hlive. }
  rewrite Hall.
  destruct (hash_insert_spec (get_name_of_account heap) default_hash_key default_cmp_key malloc_ok (acs_hash A) acc Hok1 Hsz)
    as (h' & -> & Hok2 & Hmap2 & _). cbn [mbind outcome_bind]. rewrite Hgn, Hmap in Hmap2.
  assert (Hnone : pm_abs (acs_table A) !! pid_of id = None).
  { apply eq_None_not_Some. intros [a Ea]. apply (ao_pids _ _ Hok) in Ea as (v & Hv & Hp). destruct (Hnew a v Hv); congruence. }
  destruct (pm_set_spec (acs_table A) (pid_of id) acc (ao_table _ _ Hok) Hsz2) as (t' & -> & Hpm & Habs). rewrite Hnone.
  cbn [mbind outcome_bind default from_option Datatypes.id Z.eqb]. eexists. split; [reflexivity|]. cbn [acs_disable acs_log acs_heap].
  split; [|auto]. destruct (Z.eqb_spec acc 0) as [|_] in Habs; [contradiction|].
  constructor; cbn [acs_db acs_heap acs_hash acs_table].
  - apply (ao_db _ _ Hok).
  - exact Hok2.
  - exact Hpm.
  - intros nm a. rewrite Hmap2, lookup_insert_Some, (ao_names _ _ Hok). unfold heap. split.
    + intros [[<- <-]|[Hne (v & Hv & <-)]]; [rewrite lookup_insert_eq; eauto|]. exists v.
      rewrite lookup_insert_ne; [auto|]. intros ->. congruence.
    + intros (v & Hv & <-). apply lookup_insert_Some in Hv as [[<- <-]|[Hne Hv]]; [now left|]. right.
      split; [|eauto]. intros E. destruct (Hnew a v Hv); congruence.
  - intros pid a. rewrite Habs, lookup_insert_Some, (ao_pids _ _ Hok). unfold heap. split.
    + intros [[<- <-]|[Hne (v & Hv & <-)]]; [rewrite lookup_insert_eq; eauto|]. exists v.
      rewrite lookup_insert_ne; [auto|]. intros ->. congruence.
    + intros (v & Hv & <-). apply lookup_insert_Some in Hv as [[<- <-]|[Hne Hv]]; [now left|]. right.
      split; [|eauto]. intros E. destruct (Hnew a v Hv); congruence.
  - intros a v Hv. apply lookup_insert_Some in Hv as [[<- <-]|[Hne Hv]]; [|now apply (ao_rows _ _ Hok)].
    split; [exact Ha0|]. exists id. auto.
Qed.

Lemma accounts_ok_db A d d' : accounts_ok A d -> ids d ⊆ ids d' -> accounts_ok (set_db A (Some d')) d'.
Proof.
  intros [Hdb Hh Ht Hn Hp Hr] Hsub. constructor; cbn [set_db acs_db acs_heap acs_hash acs_table]; try assumption; [reflexivity|].
  intros a v Hv. destruct (Hr a v Hv) as (Ha & id & Hid & Hpid). split; [exact Ha|]. exists id. split; [|exact Hpid].
  eapply lookup_weaken; eassumption.
Qed.

Lemma account_room A d : accounts_ok A d ->
  zlen (helems (acs_hash A)) <= Z.of_nat (size (acs_heap A)) /\ (size (pm_abs (acs_table A)) <= size (acs_heap A))%nat.
Proof.
  intros Hok. split.
  - unfold zlen. rewrite <- (bindings_size (hbinding (get_name_of_account (acs_heap A)))) by apply (h_ok _ _ _ _ (ao_hash _ _ Hok)).
    apply Nat2Z.inj_le. apply (index_size _ _ ac_name). intros k a Ha. now apply (ao_names _ _ Hok).
  - apply (index_size _ _ ac_playerid). intros k a Ha. now apply (ao_pids _ _ Hok).
Qed.

(** The answer for a row that the database has and the cache does not. *)
Lemma parse_cached A d acc malloc_ok name id :
  accounts_ok A d -> plain_name name -> acc <> 0 -> acs_heap A !! acc = None -> Z.of_nat (size (acs_heap A)) < 2 ^ 30 ->
  (forall a v, acs_heap A !! a = Some v -> collate (ac_name v) = collate name -> ac_name v = name) ->
  named (acs_heap A) (acs_hash A) !! name = None -> ids d !! collate name = Some id ->
  exists A', account_new A acc malloc_ok name (pid_of id) = Ret (A', acc) /\ accounts_ok A' d /\
    acs_log A' = acs_log A /\ acs_heap A' = <[acc := mk_account name (pid_of id) (-1)]> (acs_heap A).
Proof.
  intros Hok (_ & Hlen & _) Ha0 Ha Hsz Hcol Hmiss Hrow. destruct (account_room A d Hok) as [Hr1 Hr2].
  destruct (account_new_spec A d acc malloc_ok name id Hok Ha0 Ha Hlen) as (A' & He & Hok' & _ & Hlog & Hheap);
    [lia|lia|exact Hrow|eapply db_range; exact Hrow| |].
  - intros a v Hv. assert (Hne : ac_name v <> name).
    { intros E. apply eq_None_not_Some in Hmiss. apply Hmiss. exists a. apply (ao_names _ _ Hok). eauto. }
    split; [exact Hne|]. intros E. apply Hne, (Hcol a v Hv).
    destruct (ao_rows _ _ Hok a v Hv) as (_ & id' & Hid' & Hp). rewrite Hp in E. unfold pid_of in E.
    eapply db_unique; [exact Hid'|]. replace id' with id by lia. exact Hrow.
  - exists A'. auto.
Qed.

(** The name is cached with the player of its row. *)
Definition resolved (A : accs) (d : D) (name : list Z) (pid : Z) : Prop :=
  exists id a v, ids d !! collate name = Some id /\ pid = pid_of id /\
    account_get A name = Ret (Some a) /\ acs_heap A !! a = Some v /\ ac_playerid v = pid.

Lemma resolved_cached A d name a v :
  accounts_ok A d -> acs_heap A !! a = Some v -> ac_name v = name -> resolved A d name (ac_playerid v).
Proof.
  intros Hok Hv <-. destruct (ao_rows _ _ Hok a v Hv) as (_ & id & Hid & Hp). exists id, a, v.
  split; [exact Hid|]. split; [exact Hp|]. split; [|auto]. rewrite (account_get_spec A d _ Hok). f_equal.
  apply (ao_names _ _ Hok). eauto.
Qed.

(** C9: Resolving a name that reaches the database: whatever statements the database refuses, the call
    returns and the cache stays consistent with the database.  An answer is the player of the row of
    that name, which is found in the cache from then on; a refusal caches nothing.  The condition on
    [collate] is needed: [account_alias_dangles]. *)
Theorem account_parse_resolves A d st acc malloc_ok conn name data st1 ip :
  accounts_ok A d -> plain_name name -> acc <> 0 -> acs_heap A !! acc = None -> Z.of_nat (size (acs_heap A)) < 2 ^ 30 ->
  (forall a v, acs_heap A !! a = Some v -> collate (ac_name v) = collate name -> ac_name v = name) ->
  account_ip junk peer_ip st conn data = Ret (st1, ip) ->
  exists A' st' r d', account_parse_pid_by_name mysql_query mysql_insert_id junk peer_ip A st acc malloc_ok conn name data serverid =
      Ret (A', st', r) /\ accounts_ok A' d' /\ ids d ⊆ ids d' /\
    match r with
    | Some pid => resolved A' d' name pid
    | None => acs_heap A' = acs_heap A /\ ids d' = ids d
    end.
Proof.
  intros Hok Hpl Ha0 Ha Hsz Hcol Hip. pose proof Hpl as (_ & Hlen & Hai). unfold account_parse_pid_by_name. cbv zeta.
  rewrite (take_ge name) by (unfold zlen in Hlen; lia). rewrite Hai, (account_get_spec A d name Hok). cbn [mbind outcome_bind].
  destruct (named (acs_heap A) (acs_hash A) !! name) as [a|] eqn:Hnm.
  { apply (ao_names _ _ Hok) in Hnm as (v & Hv & Hn). rewrite Hv. cbn [deref mbind outcome_bind].
    exists A, st, (Some (ac_playerid v)), d. repeat (split; [first [reflexivity|assumption]|]). eapply resolved_cached; eassumption. }
  unfold load_int64. rewrite (ao_db _ _ Hok). cbn [deref mbind outcome_bind].
  destruct (db_select d name Hpl) as (d1 & Hd1 & Hsel).
  pose proof (accounts_ok_db A d d1 Hok ltac:(now rewrite Hd1)) as Hok1.
  destruct (mysql_query d (select_sql name)) as [dd r] eqn:Eq. assert (dd = d1) as -> by (destruct Hsel; congruence).
  assert (Hr : (exists id, r = Some [Some (decimal id)] /\ ids d !! collate name = Some id) \/
    (r = None \/ r = Some [] /\ ids d !! collate name = None)).
  { destruct Hsel as [[= ->]|[= ->]]; [auto|]. destruct (ids d !! collate name); eauto. }
  destruct Hr as [(id & -> & Hid)|Hr].
  - rewrite <- Hd1 in Hid. pose proof (db_range d1 _ _ Hid) as Hrg. cbn [deref mbind outcome_bind].
    rewrite atoll_decimal by lia. cbn [mbind outcome_bind]. rewrite pid_of_row by exact Hrg.
    destruct (parse_cached (set_db A (Some d1)) d1 acc malloc_ok name id Hok1 Hpl Ha0 Ha Hsz Hcol Hnm Hid) as (A' & -> & Hok' & _ & Hheap).
    cbn [mbind outcome_bind]. exists A', st, (Some (pid_of id)), d1.
    split; [reflexivity|]. split; [exact Hok'|]. split; [now rewrite Hd1|].
    apply (resolved_cached A' d1 name acc (mk_account name (pid_of id) (-1)) Hok'); [|reflexivity]. rewrite Hheap. apply lookup_insert_eq.
  - assert (E : (match r with Some (row :: _) => s ← deref row; v ← atoll s; Ret (set_db A (Some d1), Some v) | _ => Ret (set_db A (Some d1), None) end) = Ret (set_db A (Some d1), None))
      by (destruct Hr as [->|[-> _]]; reflexivity).
    rewrite E. cbn [mbind outcome_bind set_db acs_disable].
    destruct (acs_disable A =? 1).
    { eexists _, _, None, d1. split; [reflexivity|]. split; [exact Hok1|]. split; [now rewrite Hd1|]. auto. }
    unfold database_update. change (acs_db (set_db A (Some d1))) with (Some d1). cbv iota.
    assert (Hsql : (4096 <=? zlen (insert_sql name)) = false).
    { apply Z.leb_gt. unfold insert_sql. rewrite !zlen_app. zchars. change (zlen [34]) with 1. lia. }
    rewrite Hsql. destruct (db_insert d1 name Hpl) as (d2 & [[-> Hd2]|(-> & Hfresh & Hd2)]); cbn [mbind outcome_bind Z.eqb negb].
    + pose proof (accounts_ok_db _ d1 d2 Hok1 ltac:(now rewrite Hd2)) as Hok2.
      cbn [set_db acs_db deref mbind outcome_bind]. eexists _, _, None, d2. split; [reflexivity|]. split; [exact Hok2|].
      split; [now rewrite Hd2, Hd1|]. split; [reflexivity|now rewrite Hd2].
    + pose proof (accounts_ok_db _ d1 d2 Hok1 ltac:(rewrite Hd2; now apply insert_subseteq)) as Hok2.
      set (id := mysql_insert_id d2) in *. assert (Hid : ids d2 !! collate name = Some id) by (rewrite Hd2; apply lookup_insert_eq).
      pose proof (db_range d2 _ _ Hid) as Hrg. unfold database_last_id. cbn [set_db acs_db deref mbind outcome_bind]. fold id.
      rewrite (u64_small id) by lia. replace (i64 id) with id. 2: { unfold i64, signed. change (64 - 1) with 63. rewrite Z.mod_small by lia. destruct (Z.ltb_spec id (2 ^ 63)); lia. }
      rewrite pid_of_row by exact Hrg.
      destruct (parse_cached (set_db (set_db A (Some d1)) (Some d2)) d2 acc malloc_ok name id Hok2 Hpl Ha0 Ha Hsz Hcol Hnm Hid)
        as (A' & He & Hok' & _ & Hheap). cbn [set_db acs_db acs_heap acs_hash acs_table acs_disable acs_log] in He. rewrite He.
      cbn [mbind outcome_bind]. rewrite Hip. cbn [mbind outcome_bind].
      exists (add_log A' (pid_of id, name, ip)), st1, (Some (pid_of id)), d2.
      split; [reflexivity|]. split; [destruct Hok'; constructor; assumption|]. split; [rewrite Hd2, Hd1; now apply insert_subseteq; rewrite <- Hd1|].
      change (resolved A' d2 name (pid_of id)).
      apply (resolved_cached A' d2 name acc (mk_account name (pid_of id) (-1)) Hok'); [|reflexivity]. rewrite Hheap. apply lookup_insert_eq.
Qed.
End Correctness.

(** ** A concrete database *)

(** Rows numbered from 1; the table takes a thousand of them. *)
Definition rows (d : list (list Z)) : list (list Z * Z) := imap (fun i n => (n, Z.of_nat i + 1)) (take 1000 d).
Definition row_ids (d : list (list Z)) : gmap (list Z) Z := list_to_map (rows d).

(** What a statement quotes between [k] bytes before and [j] behind. *)
Definition quoted (k j : nat) (sql : list Z) : list Z := take (length sql - k - j) (drop k sql).

Lemma quoted_spec pre name post : quoted (length pre) (length post) (pre ++ name ++ post) = name.
Proof.
  unfold quoted. rewrite drop_app_length, !length_app.
  replace (_ - _ - _)%nat with (length name) by lia. apply take_app_length.
Qed.

Definition sample_query (d : list (list Z)) (sql : list Z) : list (list Z) * option (list (option (list Z))) :=
  let name := quoted (length (chars "SELECT `id` FROM `account` WHERE `account`=" ++ [34])) 1 sql in
  if bool_decide (sql = select_sql name)
  then (d, Some (match row_ids d !! name with Some id => [Some (decimal id)] | None => [] end))
  else
    let name := quoted (length (chars "INSERT INTO `account`(`account`, `from`, `game`)VALUES(" ++ [34])) 8 sql in
    if bool_decide (sql = insert_sql name) && bool_decide (row_ids d !! name = None) && (length d <? 1000)%nat
    then (d ++ [name], Some []) else (d, None).

Lemma quoted_select name : quoted (length (chars "SELECT `id` FROM `account` WHERE `account`=" ++ [34])) 1 (select_sql name) = name.
Proof.
  unfold select_sql. rewrite (assoc_L (++)). exact (quoted_spec (chars "SELECT `id` FROM `account` WHERE `account`=" ++ [34]) name [34]).
Qed.
Lemma quoted_insert name : quoted (length (chars "INSERT INTO `account`(`account`, `from`, `game`)VALUES(" ++ [34])) 8 (insert_sql name) = name.
Proof.
  unfold insert_sql. rewrite (assoc_L (++)).
  exact (quoted_spec (chars "INSERT INTO `account`(`account`, `from`, `game`)VALUES(" ++ [34]) name ([34] ++ chars ", 0, 0)")).
Qed.

Lemma row_ids_elem d k id : row_ids d !! k = Some id -> (k, id) ∈ rows d.
Proof. apply elem_of_list_to_map_2. Qed.

Lemma elem_of_rows d k id : (k, id) ∈ rows d -> exists i, id = Z.of_nat i + 1 /\ take 1000 d !! i = Some k /\ (i < 1000)%nat.
Proof.
  intros Hin. apply list_elem_of_lookup in Hin as [i Hi]. unfold rows in Hi. rewrite list_lookup_imap in Hi.
  destruct (take 1000 d !! i) eqn:E; [|discriminate]. injection Hi as -> <-. exists i. split; [reflexivity|]. split; [exact E|].
  apply lookup_lt_Some in E. rewrite length_take in E. lia.
Qed.

#[export] Instance sample_db : AccountDb sample_query (fun d => zlen d) (fun n => n) row_ids.
Proof.
  constructor.
  - intros d name _. exists d. split; [reflexivity|]. right. unfold sample_query. rewrite quoted_select.
    now rewrite bool_decide_true by reflexivity.
  - intros d name _. unfold sample_query. rewrite (bool_decide_false (insert_sql name = select_sql _)) by discriminate.
    rewrite quoted_insert, (bool_decide_true (insert_sql name = _)) by reflexivity. cbn [andb].
    destruct (decide (row_ids d !! name = None)) as [Hn|Hn]; [|exists d; left; rewrite bool_decide_false by exact Hn; auto].
    rewrite bool_decide_true by exact Hn. cbn [andb]. destruct (Nat.ltb_spec (length d) 1000) as [Hl|]; [|exists d; left; auto].
    exists (d ++ [name]). right. split; [reflexivity|]. split; [exact Hn|]. unfold row_ids, rows.
    rewrite !take_ge by (rewrite ?length_app; cbn; lia). rewrite imap_app. cbn [imap].
    rewrite list_to_map_snoc.
    + unfold zlen. rewrite length_app. cbn [length]. f_equal. lia.
    + apply not_elem_of_list_to_map_2. unfold row_ids, rows in Hn. rewrite take_ge in Hn by lia. exact Hn.
  - intros d k id Hid. apply row_ids_elem, elem_of_rows in Hid as (i & -> & _ & Hi). lia.
  - intros d k1 k2 id Hin1 Hin2. apply row_ids_elem, elem_of_rows in Hin1 as (i & -> & Hi & _).
    apply row_ids_elem, elem_of_rows in Hin2 as (j & Hj & Hj' & _). replace j with i in Hj' by lia. congruence.
Qed.

(** A new player ["bob"] of server 1. *)
Lemma account_parse_resolves_witness :
  exists A A' st' r d',
    module_account_load (M := agmap Z) true true _agMap_new (Some []) = Ret (Some A) /\
    account_parse_pid_by_name sample_query zlen 0 (fun _ => None) A refs_init 16 true 3 (chars "bob") [] 1 = Ret (A', st', r) /\
    accounts_ok (fun n => n) row_ids 1 A' d' /\ row_ids [] ⊆ row_ids d' /\
    match r with
    | Some pid => resolved (fun n => n) row_ids 1 A' d' (chars "bob") pid
    | None => acs_heap A' = acs_heap A /\ row_ids d' = row_ids []
    end.
Proof.
  destruct (@agMap_new_ok Z _ _ _) as (Hok & Hc & Hg).
  assert (Hpm : pm_ok (M := agmap Z) _agMap_new) by (split; assumption).
  destruct (load_accounts_ok (fun n => n) row_ids 1 ltac:(lia) _agMap_new [] Hpm Hg) as (A & HA & Ha & He). exists A.
  assert (Hpl : plain_name (chars "bob")).
  { split; [repeat constructor; vm_compute; congruence|]. split; [vm_compute; congruence|reflexivity]. }
  destruct (account_parse_resolves sample_query zlen (fun n => n) row_ids 0 (fun _ => None) 1 ltac:(lia) A [] refs_init 16 true 3
    (chars "bob") [] refs_init (chars "unknown") Ha Hpl) as (A' & st' & r & d' & H); [lia|now rewrite He|rewrite He, map_size_empty; lia| |reflexivity|].
  - intros a v Hv. rewrite He, lookup_empty in Hv. discriminate.
  - exists A', st', r, d'. split; [exact HA|]. exact H.
Defined.

(** ** Names the database identifies *)

(** When the database answers two names with the same row, as it does for ["bob"] and ["bob "], the
    account of the first is freed while the table of names still holds it, and the next login under the
    first name reads it. *)
Lemma account_alias_dangles :
  let query (d : unit) (_ : list Z) := (d, Some [Some (chars "7")]) in
  let parse A acc name := account_parse_pid_by_name query (fun _ => 0) 0 (fun _ => None) A refs_init acc true 3 name [] 1 in
  exists A A1 A2 st1 st2, module_account_load (M := agmap Z) true true _agMap_new (Some tt) = Ret (Some A) /\
    parse A 16 (chars "bob") = Ret (A1, st1, Some (7 + 2 ^ 32)) /\
    parse A1 32 (chars "bob ") = Ret (A2, st2, Some (7 + 2 ^ 32)) /\
    parse A2 48 (chars "bob") = Undef.
Proof.
  eexists _, _, _, _, _. split; [vm_compute; reflexivity|]. split; [vm_compute; reflexivity|].
  split; [vm_compute; reflexivity|]. vm_compute. reflexivity.
Qed.
