(* ===== verification/Login.v ===== *)
(** * Logging in: [gateway/auth.c], [gateway/authserver.c]

    A connection starts with the handler of auth.c, which accepts one login request and asks the
    authentication server.  The request is kept, by its serial number in a map and by its time in an
    intrusive list, until the server answers or five seconds have passed.  A positive answer binds the
    connection to the client of the player and hands the request on to [process_message] of
    [Gateway].

    The state is that of the whole gateway: the handler and context of each connection select the
    component its messages go to.  The functions of [Gateway] record their calls of [start_auth] as
    [GAuth]; [settle] performs them.  A connection that does not exist any more keeps its entry in
    the table of handlers; nothing calls it, because handles are not issued again ([Lrm]). *)
From stdpp Require Import strings.
From S2P Require Import Prelude AgMap Lrm Dlist Keyed AmfWire AmfValue Buffer Network NetworkTheorems Package Client.
From S2P Require Import Gateway Hash Waiting Account.

Definition RET_PERMISSION : Z := 11.
Definition RET_VERSION_MISSMATCH : Z := 812.
Definition LOGOUT_ANOTHER_LOGIN : Z := 1.
Definition S_AUTH_REQUEST : Z := 30001.
Definition S_AUTH_RESPOND : Z := 30002.
(** The comment behind it in [authserver.c] says 300 seconds; the code compiles to 5, and this is what is modelled. *)
Definition AUTH_SERVER_RPC_TIMEOUT : Z := 5.

(** [RPC_DATA] without [net]; strings are kept without the nulls behind them, and [package_data] with
    its bytes. *)
Record RPC_DATA := mk_rpc {
  rpc_prev : Z; rpc_next : Z; rpc_sn : Z; rpc_create_time : Z; rpc_conn : Z; rpc_package : list Z;
  rpc_client_sn : Z; rpc_account : list Z; rpc_token : list Z; rpc_pid : Z; rpc_serverid : Z }.

#[export] Instance rpc_linked : Linked RPC_DATA := {
  l_prev := rpc_prev;
  l_next := rpc_next;
  set_prev v a := mk_rpc a (rpc_next v) (rpc_sn v) (rpc_create_time v) (rpc_conn v) (rpc_package v)
    (rpc_client_sn v) (rpc_account v) (rpc_token v) (rpc_pid v) (rpc_serverid v);
  set_next v a := mk_rpc (rpc_prev v) a (rpc_sn v) (rpc_create_time v) (rpc_conn v) (rpc_package v)
    (rpc_client_sn v) (rpc_account v) (rpc_token v) (rpc_pid v) (rpc_serverid v) }.

#[export] Instance rpc_laws : LinkedLaws RPC_DATA.
Proof. split; intros []; reflexivity. Qed.

Definition with_rpc_conn (v : RPC_DATA) (conn : Z) : RPC_DATA :=
  mk_rpc (rpc_prev v) (rpc_next v) (rpc_sn v) (rpc_create_time v) conn (rpc_package v)
    (rpc_client_sn v) (rpc_account v) (rpc_token v) (rpc_pid v) (rpc_serverid v).
Definition with_rpc_account (v : RPC_DATA) (account : list Z) : RPC_DATA :=
  mk_rpc (rpc_prev v) (rpc_next v) (rpc_sn v) (rpc_create_time v) (rpc_conn v) (rpc_package v)
    (rpc_client_sn v) account (rpc_token v) (rpc_pid v) (rpc_serverid v).
Definition with_rpc_pid (v : RPC_DATA) (pid : Z) : RPC_DATA :=
  mk_rpc (rpc_prev v) (rpc_next v) (rpc_sn v) (rpc_create_time v) (rpc_conn v) (rpc_package v)
    (rpc_client_sn v) (rpc_account v) (rpc_token v) pid (rpc_serverid v).

(** The handlers that [agN_set_handler] installs, with the context: of auth.c, of authserver.c for the
    request at an address, and of translate.c for the client at an address. *)
Inductive conn_handler := HAuth | HAuthserver (rpc : Z) | HTranslate (c : Z).

#[export] Instance conn_handler_eq_dec : EqDecision conn_handler.
Proof. solve_decision. Defined.

(** The variables of the gateway's files; [lg_table] is [None] for a null pointer, [lg_auth] is
    [g_authserver.conn]. *)
Record login (M D : Type) := mk_login {
  lg_gw : gateway M; lg_accounts : accounts M D; lg_waiting : waiting M; lg_handler : gmap Z conn_handler;
  lg_rpcs : gmap Z RPC_DATA; lg_list : Z; lg_table : option M; lg_sn : Z; lg_auth : Z }.
Arguments mk_login {M D} _ _ _ _ _ _ _ _ _.
Arguments lg_gw {M D} _.
Arguments lg_accounts {M D} _.
Arguments lg_waiting {M D} _.
Arguments lg_handler {M D} _.
Arguments lg_rpcs {M D} _.
Arguments lg_list {M D} _.
Arguments lg_table {M D} _.
Arguments lg_sn {M D} _.
Arguments lg_auth {M D} _.

(** The answers of [malloc] during a step: for a request, an account, a client and its content, the
    waiting connections in order; whether the hash table can grow; [_agMap_new]. *)
Record allocs (M : Type) := mk_allocs {
  al_rpc : Z; al_account : Z; al_client : Z; al_junk : client; al_waiting : list Z; al_hash : bool; al_map : M }.
Arguments mk_allocs {M} _ _ _ _ _ _ _.
Arguments al_rpc {M} _.
Arguments al_account {M} _.
Arguments al_client {M} _.
Arguments al_junk {M} _.
Arguments al_waiting {M} _.
Arguments al_hash {M} _.
Arguments al_map {M} _.

(** ["<policy-file-request/>"] with the null behind it. *)
Definition policy_request : list Z := chars "<policy-file-request/>" ++ [0].

(** [policy_file] with the null behind it; 34 is the double quote. *)
Definition policy_file : list Z :=
  chars "<?xml version=" ++ [34] ++ chars "1.0" ++ [34] ++ chars "?><cross-domain-policy><site-control permitted-cross-domain-policies="
  ++ [34] ++ chars "all" ++ [34] ++ chars "/><allow-access-from domain=" ++ [34] ++ chars "*" ++ [34] ++ chars " to-ports="
  ++ [34] ++ chars "*" ++ [34] ++ chars "/></cross-domain-policy>" ++ [0].

Definition TWS_HEAD : list Z := chars "tgw_".

(** The loop over the lines of a proxy's header: the position behind the [j]-th line feed from here, or 0. *)
Fixpoint tgw_loop (data : list Z) (i j : Z) : Z :=
  match data with
  | [] => 0
  | ch :: data' =>
    if ch =? 10 then (if j + 1 =? 3 then i + 1 else tgw_loop data' (i + 1) (j + 1))
    else tgw_loop data' (i + 1) j
  end.

(** [isupper] and [tolower] in the C locale. *)
Definition lower (ch : Z) : Z := if (65 <=? ch) && (ch <=? 90) then ch + 32 else ch.

(** [atoi] of the C library, which keeps the lower half of what [strtol] reads. *)
Definition atoi (s : list Z) : Z := i32 (Z.max (- 2 ^ 63) (Z.min (2 ^ 63 - 1) (default 0 (parse_number s)))).

(** [sn += 1; return sn] on the static counter. *)
Definition next_sn (sn : Z) : Z := u32 (sn + 1).

(** The fields of a decoded [aGameRespond]; missing ones are 0 and empty. *)
Record auth_answer := mk_answer { an_sn : Z; an_result : Z; an_account : list Z }.

Section Operations.
Context {M D : Type} `{PtrMap M}.
#[local] Abbreviation lg := (login M D).
#[local] Abbreviation gw := (gateway M).

Variable stack_sn : Z.
Variable junk : Z.
Variable peer_ip : Z -> option (list Z).
Variable mysql_query : D -> list Z -> D * option (list (option (list Z))).
Variable mysql_insert_id : D -> Z.
(** [agC_get_version()], [agC_get_server_id()]. *)
Variable version server_id : Z.
(** The protobuf library: the encoded [AuthRequest] of an account, a token and a serial number ([None] for
    an unknown message type), and the decoded answer of the server. *)
Variable auth_request : list Z -> list Z -> Z -> option (list Z).
Variable auth_respond : list Z -> option auth_answer.

Definition set_gw (L : lg) (g : gw) : lg :=
  mk_login g (lg_accounts L) (lg_waiting L) (lg_handler L) (lg_rpcs L) (lg_list L) (lg_table L) (lg_sn L) (lg_auth L).
Definition set_accounts (L : lg) (A : accounts M D) : lg :=
  mk_login (lg_gw L) A (lg_waiting L) (lg_handler L) (lg_rpcs L) (lg_list L) (lg_table L) (lg_sn L) (lg_auth L).
Definition set_waiting (L : lg) (w : waiting M) : lg :=
  mk_login (lg_gw L) (lg_accounts L) w (lg_handler L) (lg_rpcs L) (lg_list L) (lg_table L) (lg_sn L) (lg_auth L).
Definition set_rpcs (L : lg) (heap : gmap Z RPC_DATA) (l : Z) (t : option M) : lg :=
  mk_login (lg_gw L) (lg_accounts L) (lg_waiting L) (lg_handler L) heap l t (lg_sn L) (lg_auth L).
Definition set_sn (L : lg) (sn : Z) : lg :=
  mk_login (lg_gw L) (lg_accounts L) (lg_waiting L) (lg_handler L) (lg_rpcs L) (lg_list L) (lg_table L) sn (lg_auth L).
Definition set_auth (L : lg) (conn : Z) : lg :=
  mk_login (lg_gw L) (lg_accounts L) (lg_waiting L) (lg_handler L) (lg_rpcs L) (lg_list L) (lg_table L) (lg_sn L) conn.

(** [agN_set_handler] *)
Definition set_handler (L : lg) (conn : Z) (h : conn_handler) : lg :=
  mk_login (lg_gw L) (lg_accounts L) (lg_waiting L) (<[conn := h]> (lg_handler L)) (lg_rpcs L) (lg_list L) (lg_table L)
    (lg_sn L) (lg_auth L).

(** [agN_close], [agN_send] *)
Definition lg_close (L : lg) (conn : Z) : lg := set_gw L (agN_close (lg_gw L) conn).
Definition lg_send (L : lg) (conn : Z) (bytes : list Z) : lg := set_gw L (fst (agN_writev (lg_gw L) conn [bytes])).

(** [start_auth] at the time [now], when [malloc] answers [wc]. *)
Definition start_auth (L : lg) (new_map : M) (now wc conn : Z) : outcome lg :=
  '(w, closed) ← new_waiting_client new_map (lg_waiting L) wc now conn;
  Ret (set_handler (foldl lg_close (set_waiting L w) closed) conn HAuth).

(** The calls of [start_auth] among the events behind the first [n]. *)
Definition pending_auths (n : nat) (g : gw) : list Z :=
  omap (fun e => match e with GAuth conn => Some conn | _ => None end) (drop n (g_out g)).

Fixpoint start_auths (L : lg) (new_map : M) (now : Z) (wcs conns : list Z) : outcome lg :=
  match conns with
  | [] => Ret L
  | conn :: conns' =>
    wc ← deref (head wcs);
    L ← start_auth L new_map now wc conn;
    start_auths L new_map now (tail wcs) conns'
  end.

(** [L] with the gateway state [g] that a function of [Gateway] computed from that of [L]. *)
Definition settle (L : lg) (al : allocs M) (now : Z) (g : gw) : outcome lg :=
  start_auths (set_gw L g) (al_map al) now (al_waiting al) (pending_auths (length (g_out (lg_gw L))) g).

(** A message of two integers to a client, in a buffer of 1024 bytes with its header. *)
Definition pair_message (cmd sn result : Z) : outcome (list Z) :=
  '(offset, buf) ← encode_fields (1024 - sizeof_client_header) [f_array 2; f_integer sn; f_integer result];
  bytes ← load_bytes buf 0 offset;
  Ret (client_header_bytes (mk_client_header (htonl (sizeof_client_header + offset)) (htonl 1) (htonl cmd)) ++ bytes).

Definition respond_auth (L : lg) (conn sn result : Z) : outcome lg :=
  res_buf ← pair_message C_LOGIN_RESPOND sn result;
  Ret (lg_send L conn res_buf).

Definition respond_auth_fail_and_close (L : lg) (conn sn result : Z) : outcome lg :=
  L ← respond_auth L conn sn result;
  Ret (lg_close L conn).

(** [authserver_send] *)
Definition authserver_send (L : lg) (channel cmd flag : Z) (msg : list Z) (serverid : Z) : lg * Z :=
  let theader := mk_translate_header (htonl (sizeof_translate_header + zlen msg)) stack_sn (htonl channel)
                   (htonl flag) (htonl cmd) (htonl serverid) in
  let '(g, rc) := agN_writev (lg_gw L) (lg_auth L) [translate_header_bytes theader; msg] in
  (set_gw L g, rc).

(** [start_authserver] *)
Definition start_authserver (L : lg) (conn rpc : Z) : lg := set_handler L conn (HAuthserver rpc).

Definition authserver_auth (L : lg) (al : allocs M) (now conn : Z) (account token : list Z) (package : list Z)
    (client_sn serverid : Z) : outcome (lg * Z) :=
  let sn := next_sn (lg_sn L) in
  let L := set_sn L sn in
  match auth_request account token sn with
  | None => Ret (L, -1)
  | Some slice =>
    let rpc := al_rpc al in
    if rpc =? 0 then Undef
    else
      let heap := <[rpc := mk_rpc 0 0 sn now conn package client_sn (take 127 account) (take 127 token) 0 serverid]> (lg_rpcs L) in
      '(t, old) ← map_set (lg_table L) sn rpc;
      heap ← (if old =? 0 then Ret heap else _ ← deref (heap !! old); Ret (delete old heap));
      '(heap, l) ← dlist_insert_tail heap (lg_list L) rpc;
      let L := start_authserver (set_rpcs L heap l t) conn rpc in
      Ret (authserver_send L 0 S_AUTH_REQUEST 2 slice serverid)
  end.

(** [do_amf_auth] on the [len] bytes at [p] of [data]; [package] is the whole request. *)
Definition do_amf_auth (L : lg) (al : allocs M) (now conn : Z) (data : mem) (p len : Z) (package : mem) (package_len : Z)
    : outcome lg :=
  '(g, v, read_len) ← read_amf junk (lg_gw L) data p len;
  let L := set_gw L g in
  if bool_decide (v = None) then Ret (lg_close L conn)
  else if negb (read_len =? len) then Ret (lg_close L conn)
  else if negb (bool_decide (amf_type_of v = amf_array)) || (amf_size v <? 3) then Ret (lg_close L conn)
  else
    e ← amf_get v 0; sn ← amf_get_integer e;
    e ← amf_get v 1; account_name ← amf_get_string e;
    e ← amf_get v 2; token ← amf_get_string e;
    ver ← (if 3 <? amf_size v then e ← amf_get v 3; n ← amf_get_integer e; Ret (i32 n) else Ret 0);
    if negb (version =? ver) then respond_auth_fail_and_close L conn sn RET_VERSION_MISSMATCH
    else
      serverid ← (if 4 <=? amf_size v
                  then e ← amf_get v 4; str_sid ← amf_get_string e;
                       Ret (match str_sid with Some s => atoi (cstr s) | None => 0 end)
                  else Ret 0);
      let serverid := if negb (serverid =? server_id) then server_id else serverid in
      name ← deref account_name;  (* [strncpy] from a null pointer *)
      let account_name_lower := map lower (take 127 (cstr name)) in
      tok ← deref token;  (* [strlen] of a null pointer *)
      package ← load_bytes package 0 package_len;
      '(L, rc) ← authserver_auth L al now conn account_name_lower (cstr tok) package sn (u32 serverid);
      if negb (rc =? 0) then respond_auth_fail_and_close L conn sn RET_PERMISSION else Ret L.

(** [process_message] of auth.c: the answer is the number of bytes consumed. *)
Definition auth_process_message (L : lg) (al : allocs M) (now conn : Z) (data : list Z) : outcome (lg * Z) :=
  _ ← c_assert (0 <? zlen data);
  if (23 <=? zlen data) && bool_decide (take 23 data = policy_request) then Ret (lg_send L conn policy_file, 23)
  else if (zlen TWS_HEAD <=? zlen data) && bool_decide (take 4 data = TWS_HEAD) then Ret (L, tgw_loop data 0 0)
  else if zlen data <? sizeof_client_header then Ret (L, 0)
  else
    let c_header := client_header_at data in
    let package_len := ntohl (ch_len c_header) in
    if zlen data <? package_len then Ret (L, 0)
    else
      let flag := ntohl (ch_flag c_header) in
      let cmd := ntohl (ch_cmd c_header) in
      if negb (cmd =? C_LOGIN_REQUEST) then Ret (lg_close L conn, 0)
      else
        L ← (if flag =? 1
             then do_amf_auth L al now conn data sizeof_client_header (u64 (package_len - sizeof_client_header)) data package_len
             else Ret (lg_close L conn));
        Ret (L, package_len).

(** ** The answers of the authentication server *)

(** [account_get_by_pid(pid)->name], for [Gateway]. *)
Definition account_name_of (A : accounts M D) (pid : Z) : option (list Z) :=
  match account_get_by_pid A pid with
  | Ret a => if a =? 0 then None else ac_name <$> acs_heap A !! a
  | _ => None
  end.

(** [start_translate] *)
Definition start_translate (L : lg) (al : allocs M) (now conn c : Z) (package : list Z) : outcome lg :=
  let L := set_handler L conn (HTranslate c) in
  '(g, _) ← process_message stack_sn junk (account_name_of (lg_accounts L)) peer_ip (lg_gw L) conn c package;
  settle L al now g.

(** The old connection of a player who logs in again gets a notice and the handler of auth.c. *)
Definition kick_old (L : lg) (new_map : M) (now wc old : Z) : outcome lg :=
  res_buf ← pair_message C_LOGOUT_RESPOND 0 LOGOUT_ANOTHER_LOGIN;
  start_auth (lg_send L old res_buf) new_map now wc old.

Definition after_auth (L : lg) (al : allocs M) (now rpc : Z) : outcome lg :=
  v ← deref (lg_rpcs L !! rpc);
  let conn := rpc_conn v in
  if conn =? INVALID_ID then Ret L
  else
    '(A, st, pid) ← account_parse_pid_by_name mysql_query mysql_insert_id junk peer_ip (lg_accounts L) (g_refs (lg_gw L))
        (al_account al) (al_hash al) conn (rpc_account v) (rpc_package v) (rpc_serverid v);
    let L := set_accounts (set_gw L (set_refs (lg_gw L) st)) A in
    match pid with
    | None => respond_auth_fail_and_close L conn (rpc_client_sn v) RET_PERMISSION
    | Some pid =>
      let L := set_rpcs L (<[rpc := with_rpc_pid v pid]> (lg_rpcs L)) (lg_list L) (lg_table L) in
      '(t, c) ← client_get_by_playerid (g_clients (lg_gw L)) now pid;
      '(t, c) ← (if c =? 0 then client_new t (al_client al) (al_junk al) now conn INVALID_WORLD_ID pid else Ret (t, c));
      let L := set_gw L (set_clients (lg_gw L) t) in
      cv ← deref (ct_heap t !! c);
      '(L, al) ← (if negb (cl_conn cv =? conn) && negb (cl_conn cv =? INVALID_ID)
                  then wc ← deref (head (al_waiting al));
                       L ← kick_old L (al_map al) now wc (cl_conn cv);
                       Ret (L, mk_allocs (al_rpc al) (al_account al) (al_client al) (al_junk al) (tail (al_waiting al))
                                 (al_hash al) (al_map al))
                  else Ret (L, al));
      g ← update_client (lg_gw L) c (fun v => mk_client conn (cl_world v) (cl_playerid v) (cl_prev v) (cl_next v)
             (cl_last_active v) (cl_protocol_flag v) (cl_adult v) (cl_vip v) (cl_vip2 v));
      w ← remove_waiting (lg_waiting L) conn;
      start_translate (set_waiting (set_gw L g) w) al now conn c (rpc_package v)
    end.

Definition authserver_fail (L : lg) (rpc : Z) : outcome lg :=
  v ← deref (lg_rpcs L !! rpc);
  respond_auth_fail_and_close L (rpc_conn v) (rpc_client_sn v) RET_PERMISSION.

(** Taking the request at [rpc] out of the list and the map. *)
Definition rpc_free (L : lg) (rpc : Z) : outcome lg :=
  '(heap, l) ← dlist_remove (lg_rpcs L) (lg_list L) rpc;
  v ← deref (heap !! rpc);
  '(t, _) ← map_set (lg_table L) (rpc_sn v) 0;
  Ret (set_rpcs L (delete rpc heap) l t).

(** [on_message] of authserver.c *)
Definition authserver_on_message (L : lg) (al : allocs M) (now : Z) (data : list Z) : outcome (lg * Z) :=
  if zlen data <? sizeof_translate_header then Ret (L, 0)
  else
    let h := translate_header_at data in
    let package_len := ntohl (th_len h) in
    if zlen data <? package_len then Ret (L, 0)
    else
      let command := ntohl (th_cmd h) in
      let playerid := NTOHL_PID_AND_SID (ntohl (u32 (th_playerid h))) (ntohl (th_serverid h)) in
      let data_len := u64 (package_len - sizeof_translate_header) in
      if negb (command =? S_AUTH_RESPOND) then Ret (L, package_len)
      else if negb (playerid =? 0) then Ret (L, package_len)
      else
        msg ← load_bytes data sizeof_translate_header data_len;
        respond ← deref (auth_respond msg);
        rpc ← map_get (lg_table L) (an_sn respond);
        if rpc =? 0 then Ret (L, package_len)
        else
          L ← (if an_result respond =? RET_SUCCESS then
                 v ← deref (lg_rpcs L !! rpc);
                 let L := set_rpcs L (<[rpc := with_rpc_account v (take 127 (cstr (an_account respond)))]> (lg_rpcs L))
                            (lg_list L) (lg_table L) in
                 after_auth L al now rpc
               else authserver_fail L rpc);
          L ← rpc_free L rpc;
          Ret (L, package_len).

(** [on_closed] of authserver.c *)
Definition authserver_on_closed (L : lg) (conn : Z) : outcome lg :=
  _ ← c_assert (conn =? lg_auth L);
  Ret (set_auth L INVALID_ID).

(** [on_closed_client]; [on_message_client] consumes nothing. *)
Definition on_closed_client (L : lg) (rpc : Z) : outcome lg :=
  v ← deref (lg_rpcs L !! rpc);
  Ret (set_rpcs L (<[rpc := with_rpc_conn v INVALID_ID]> (lg_rpcs L)) (lg_list L) (lg_table L)).

(** The loop of [module_authserver_update]. *)
Fixpoint timeout_loop (fuel : nat) (L : lg) (now : Z) : outcome lg :=
  if lg_list L =? 0 then Ret L
  else
    let node := lg_list L in
    v ← deref (lg_rpcs L !! node);
    if AUTH_SERVER_RPC_TIMEOUT <=? now - rpc_create_time v then
      match fuel with
      | O => NoFuel
      | S fuel' =>
        '(heap, l) ← dlist_remove (lg_rpcs L) (lg_list L) node;
        v ← deref (heap !! node);
        '(t, _) ← map_set (lg_table L) (rpc_sn v) 0;
        L ← respond_auth_fail_and_close (set_rpcs L heap l t) (rpc_conn v) (rpc_client_sn v) RET_PERMISSION;
        timeout_loop fuel' (set_rpcs L (delete node heap) l t) now
      end
    else Ret L.

(** [module_authserver_update]: [connect] is the answer of [agN_connect]. *)
Definition module_authserver_update (L : lg) (connect now : Z) : outcome lg :=
  let L := if lg_auth L =? INVALID_ID then set_auth L connect else L in
  timeout_loop (size (lg_rpcs L)) L now.

(** The loop of [module_authserver_unload]. *)
Fixpoint rpc_clean_loop (fuel : nat) (heap : gmap Z RPC_DATA) (l : Z) : outcome (gmap Z RPC_DATA * Z) :=
  if l =? 0 then Ret (heap, l)
  else
    match fuel with
    | O => NoFuel
    | S fuel' => '(heap', l') ← dlist_remove heap l l; rpc_clean_loop fuel' (delete l heap') l'
    end.

Definition module_authserver_unload (L : lg) : outcome lg :=
  let L := lg_close L (lg_auth L) in
  '(heap, l) ← rpc_clean_loop (size (lg_rpcs L)) (lg_rpcs L) (lg_list L);
  Ret (set_rpcs L heap l None).

(** [module_authserver_load] with the configuration present. *)
Definition module_authserver_load (L : lg) (new_map : M) (connect : Z) : lg :=
  set_auth (set_rpcs L (lg_rpcs L) 0 (Some new_map)) connect.

(** ** The handlers of the clients' connections *)

(** [on_accept] of listener.c *)
Definition on_accept (L : lg) (al : allocs M) (now conn : Z) : outcome lg :=
  wc ← deref (head (al_waiting al));
  start_auth (set_gw L (mk_gw (g_clients (lg_gw L)) (g_worlds (lg_gw L)) (g_backends (lg_gw L)) (g_refs (lg_gw L))
    (conn :: g_live (lg_gw L)) (g_out (lg_gw L)))) (al_map al) now wc conn.

(** A message on a client's connection, by its handler. *)
Definition conn_on_message (L : lg) (al : allocs M) (now conn : Z) (data : list Z) : outcome (lg * Z) :=
  match lg_handler L !! conn with
  | None => Ret (L, 0)
  | Some HAuth => auth_process_message L al now conn data
  | Some (HAuthserver _) => Ret (L, 0)
  | Some (HTranslate c) =>
    '(g, n) ← process_message stack_sn junk (account_name_of (lg_accounts L)) peer_ip (lg_gw L) conn c data;
    L ← settle L al now g;
    Ret (L, n)
  end.

(** The end of a client's connection, by its handler; the connection accepts no data any more. *)
Definition conn_on_closed (L : lg) (al : allocs M) (now conn : Z) : outcome lg :=
  L ← match lg_handler L !! conn with
      | None => Ret L
      | Some HAuth => Ret L
      | Some (HAuthserver rpc) => on_closed_client L rpc
      | Some (HTranslate c) =>
        g ← translate_on_closed stack_sn (lg_gw L) conn c;
        settle L al now g
      end;
  Ret (lg_close L conn).

(** What happens to the gateway, with the answers of [malloc] and the time. *)
Inductive event :=
| EAccept (conn : Z)
| EMessage (conn : Z) (data : list Z)
| EClosed (conn : Z)
| EAuthMessage (data : list Z)
| EAuthClosed (conn : Z)
| EUpdate (connect : Z).

Definition login_step (L : lg) (al : allocs M) (now : Z) (e : event) : outcome lg :=
  match e with
  | EAccept conn => on_accept L al now conn
  | EMessage conn data => '(L, _) ← conn_on_message L al now conn data; Ret L
  | EClosed conn => conn_on_closed L al now conn
  | EAuthMessage data => '(L, _) ← authserver_on_message L al now data; Ret L
  | EAuthClosed conn => authserver_on_closed L conn
  | EUpdate connect => module_authserver_update L connect now
  end.
End Operations.
