(* ===== verification/LoginTheorems.v ===== *)
(** * Properties of logging in *)
From stdpp Require Import strings.
From Stdlib Require Import Sorted.
From S2P Require Import Prelude AgMap Lrm Dlist Keyed AmfWire AmfValue AmfTheorems Buffer Network NetworkTheorems Package Client.
From S2P Require Import Gateway GatewayTheorems Hash Waiting Account Login.

(** Take a returning call apart. *)
Ltac inv_bind H :=
  let a := fresh "r" in let E := fresh "E" in
  apply bind_ret_inv in H as (a & E & H);
  match type of a with
  | (_ * _ * _)%type => destruct a as [[? ?] ?]
  | (_ * _)%type => destruct a as [? ?]
  | _ => idtac
  end; cbn beta iota in H.

(** ** Who is logged in *)

Section Handlers.
Context {M D : Type} `{PtrMap M}.
#[local] Abbreviation lg := (login M D).
Context (stack_sn junk : Z) (peer_ip : Z -> option (list Z)).
Context (mysql_query : D -> list Z -> D * option (list (option (list Z)))) (mysql_insert_id : D -> Z).
Context (version server_id : Z).
Context (auth_request : list Z -> list Z -> Z -> option (list Z)) (auth_respond : list Z -> option auth_answer).

(** No connection is bound to a client that was not bound to it before. *)
Definition no_new (L L' : lg) : Prop :=
  forall k c, lg_handler L' !! k = Some (HTranslate c) -> lg_handler L !! k = Some (HTranslate c).

Lemma no_new_refl L L' : lg_handler L' = lg_handler L -> no_new L L'.
Proof. intros E k c. now rewrite E. Qed.

#[local] Instance no_new_trans : Transitive no_new.
Proof. intros L1 L2 L3 H1 H2 k c Hk. eauto. Qed.

Lemma no_new_set L conn h : (forall c, h <> HTranslate c) -> no_new L (set_handler L conn h).
Proof.
  intros Hh k c Hk. cbn [set_handler lg_handler] in Hk. apply lookup_insert_Some in Hk as [[_ ->]|[_ Hk]]; [now destruct (Hh c)|exact Hk].
Qed.

Lemma closes_handler conns : forall L : lg, lg_handler (foldl lg_close L conns) = lg_handler L.
Proof. induction conns as [|k conns IH]; intros L; [reflexivity|]. cbn [foldl]. now rewrite IH. Qed.

Lemma start_auth_no_new L m now wc conn L' : start_auth L m now wc conn = Ret L' -> no_new L L'.
Proof.
  unfold start_auth. intros Hs. inv_bind Hs. injection Hs as <-. etransitivity; [|apply no_new_set; discriminate].
  apply no_new_refl. now rewrite closes_handler.
Qed.

Lemma start_auths_no_new m now conns : forall L wcs L', start_auths L m now wcs conns = Ret L' -> no_new L L'.
Proof.
  induction conns as [|k conns IH]; intros L wcs L' Hs; cbn [start_auths] in Hs; [injection Hs as <-; now apply no_new_refl|].
  inv_bind Hs. inv_bind Hs. etransitivity; [eapply start_auth_no_new; eassumption|eapply IH; eassumption].
Qed.

Lemma settle_no_new L al now g L' : settle L al now g = Ret L' -> no_new L L'.
Proof. intros Hs. apply start_auths_no_new in Hs. exact Hs. Qed.

Lemma respond_handler (L : lg) conn sn result (L' : lg) :
  respond_auth_fail_and_close L conn sn result = Ret L' -> lg_handler L' = lg_handler L.
Proof. unfold respond_auth_fail_and_close, respond_auth. intros Hs. inv_bind Hs. inv_bind E. injection E as <-. now injection Hs as <-. Qed.

Lemma authserver_auth_no_new L al now conn account token package sn serverid L' rc :
  authserver_auth stack_sn auth_request L al now conn account token package sn serverid = Ret (L', rc) -> no_new L L'.
Proof.
  unfold authserver_auth, authserver_send. cbv zeta. intros Hs.
  destruct (auth_request _ _ _); [|injection Hs as <- <-; now apply no_new_refl].
  destruct (al_rpc al =? 0); [discriminate|]. inv_bind Hs. inv_bind Hs. inv_bind Hs.
  destruct (agN_writev _ _ _) as [gw' rc']. injection Hs as <- <-. intros k c Hk. cbn in Hk.
  apply lookup_insert_Some in Hk as [[_ [=]]|[_ Hk]]. exact Hk.
Qed.

Lemma do_amf_auth_no_new L al now conn data p len package plen L' :
  do_amf_auth stack_sn junk version server_id auth_request L al now conn data p len package plen = Ret L' -> no_new L L'.
Proof.
  unfold do_amf_auth. intros Hs. inv_bind Hs. set (L1 := set_gw L g) in *. cut (no_new L1 L'); [auto|]. clearbody L1.
  destruct (bool_decide (o = None)); [injection Hs as <-; now apply no_new_refl|].
  destruct (negb (z =? len)); [injection Hs as <-; now apply no_new_refl|].
  destruct (negb _ || _); [injection Hs as <-; now apply no_new_refl|].
  do 7 inv_bind Hs. destruct (negb (version =? r5)); [apply no_new_refl; eapply respond_handler; exact Hs|].
  do 5 inv_bind Hs. apply authserver_auth_no_new in E11. etransitivity; [exact E11|].
  destruct (negb (z0 =? 0)); [apply no_new_refl; eapply respond_handler; exact Hs|injection Hs as <-; now apply no_new_refl].
Qed.

Lemma auth_process_no_new L al now conn data L' n :
  auth_process_message stack_sn junk version server_id auth_request L al now conn data = Ret (L', n) -> no_new L L'.
Proof.
  unfold auth_process_message. cbv zeta. intros Hs. inv_bind Hs.
  destruct (_ && bool_decide (take 23 data = _)); [injection Hs as <- _; now apply no_new_refl|].
  destruct (_ && bool_decide (take 4 data = _)); [injection Hs as <- _; now apply no_new_refl|].
  destruct (zlen data <? _); [injection Hs as <- _; now apply no_new_refl|].
  destruct (zlen data <? _); [injection Hs as <- _; now apply no_new_refl|].
  destruct (negb _); [injection Hs as <- _; now apply no_new_refl|]. inv_bind Hs. injection Hs as <- _.
  destruct (_ =? 1); [eapply do_amf_auth_no_new; exact E0|injection E0 as <-; now apply no_new_refl].
Qed.

Lemma timeout_loop_handler now fuel : forall L L' : lg,
  timeout_loop fuel L now = Ret L' -> lg_handler L' = lg_handler L.
Proof.
  induction fuel as [|fuel IH]; intros L L' Hs; cbn [timeout_loop] in Hs; (destruct (lg_list L =? 0); [now injection Hs as <-|]);
    inv_bind Hs; (destruct (_ <=? _); [|now injection Hs as <-]); [discriminate|].
  do 4 inv_bind Hs. apply IH in Hs. rewrite Hs. cbn [set_rpcs lg_handler].
  match goal with E : respond_auth_fail_and_close _ _ _ _ = _ |- _ => exact (respond_handler _ _ _ _ _ E) end.
Qed.

(** A positive answer binds the connection of its request, and no other. *)
Lemma after_auth_new L al now rpc L' v :
  after_auth stack_sn junk peer_ip mysql_query mysql_insert_id L al now rpc = Ret L' -> lg_rpcs L !! rpc = Some v ->
  forall k c, lg_handler L' !! k = Some (HTranslate c) -> lg_handler L !! k = Some (HTranslate c) \/ k = rpc_conn v.
Proof.
  unfold after_auth. intros Hs Hv k c Hk. rewrite Hv in Hs. cbn [deref mbind outcome_bind] in Hs. cbv zeta in Hs.
  destruct (rpc_conn v =? INVALID_ID); [injection Hs as <-; auto|]. inv_bind Hs.
  destruct o as [pid|]; [|left; apply respond_handler in Hs; now rewrite Hs in Hk].
  inv_bind Hs. inv_bind Hs. inv_bind Hs. inv_bind Hs. inv_bind Hs. inv_bind Hs.
  unfold start_translate in Hs. inv_bind Hs. apply settle_no_new in Hs. apply Hs in Hk. cbn [set_handler lg_handler] in Hk.
  apply lookup_insert_Some in Hk as [[<- _]|[_ Hk]]; [now right|]. left. cbn in Hk.
  destruct (negb _ && negb _) in *.
  - match goal with E : _ ≫= _ = Ret (l, a1) |- _ => inv_bind E; inv_bind E; injection E as -> _ end.
    match goal with E : kick_old _ _ _ _ _ = _ |- _ => unfold kick_old in E; inv_bind E; apply start_auth_no_new in E; exact (E _ _ Hk) end.
  - match goal with E : Ret _ = Ret (l, _) |- _ => injection E as <- _ end. exact Hk.
Qed.

Lemma rpc_free_handler (L : lg) rpc (L' : lg) : rpc_free L rpc = Ret L' -> lg_handler L' = lg_handler L.
Proof. unfold rpc_free. intros Hs. inv_bind Hs. inv_bind Hs. inv_bind Hs. now injection Hs as <-. Qed.

(** The payload of a complete package of the authentication server. *)
Definition auth_answer_of (data : list Z) (an : auth_answer) : Prop :=
  let h := translate_header_at data in
  ntohl (th_len h) <= zlen data /\ ntohl (th_cmd h) = S_AUTH_RESPOND /\
  exists msg, load_bytes data sizeof_translate_header (u64 (ntohl (th_len h) - sizeof_translate_header)) = Ret msg /\
    auth_respond msg = Some an.

#[local] Abbreviation step :=
  (login_step stack_sn junk peer_ip mysql_query mysql_insert_id version server_id auth_request auth_respond).

(** C7: Who is logged in: whatever arrives from clients, from the authentication server or by time, a
    connection is bound to a client in a step only when that step is a complete answer of the
    authentication server with the result [RET_SUCCESS] to the pending request of this connection. *)
Theorem login_needs_answer L al now e L' conn c :
  step L al now e = Ret L' -> lg_handler L' !! conn = Some (HTranslate c) -> lg_handler L !! conn <> Some (HTranslate c) ->
  exists data an rpc v, e = EAuthMessage data /\ auth_answer_of data an /\ an_result an = RET_SUCCESS /\
    map_get (lg_table L) (an_sn an) = Ret rpc /\ lg_rpcs L !! rpc = Some v /\ rpc_conn v = conn.
Proof.
  intros Hs Hc Hn. destruct e as [k|k data|k|data|k|k]; cbn [login_step] in Hs; [exfalso; apply Hn..| | |].
  - unfold on_accept in Hs. inv_bind Hs. exact (start_auth_no_new _ _ _ _ _ _ Hs _ _ Hc).
  - inv_bind Hs. injection Hs as ->. unfold conn_on_message in E. destruct (lg_handler L !! k) as [[|r|c']|].
    + exact (auth_process_no_new _ _ _ _ _ _ _ E _ _ Hc).
    + now injection E as -> _.
    + inv_bind E. inv_bind E. injection E as -> _. exact (settle_no_new _ _ _ _ _ ltac:(eassumption) _ _ Hc).
    + now injection E as -> _.
  - unfold conn_on_closed in Hs. inv_bind Hs. injection Hs as <-. cbn [lg_close set_gw lg_handler] in Hc.
    destruct (lg_handler L !! k) as [[|r'|c']|].
    + now injection E as ->.
    + unfold on_closed_client in E. inv_bind E. injection E as <-. exact Hc.
    + inv_bind E. exact (settle_no_new _ _ _ _ _ ltac:(eassumption) _ _ Hc).
    + now injection E as ->.
  - inv_bind Hs. injection Hs as ->. unfold authserver_on_message in E. cbv zeta in E.
    destruct (zlen data <? sizeof_translate_header); [injection E as -> _; now destruct Hn|].
    destruct (Z.ltb_spec (zlen data) (ntohl (th_len (translate_header_at data)))); [injection E as -> _; now destruct Hn|].
    destruct (Z.eqb_spec (ntohl (th_cmd (translate_header_at data))) S_AUTH_RESPOND) as [Hcmd|]; [|injection E as -> _; now destruct Hn].
    cbn [negb] in E. destruct (negb _); [injection E as -> _; now destruct Hn|].
    apply bind_ret_inv in E as (msg & Em & E). apply bind_ret_inv in E as (an & Ea & E). apply bind_ret_inv in E as (rpc & Er & E).
    destruct (Z.eqb_spec rpc 0); [injection E as -> _; now destruct Hn|].
    apply bind_ret_inv in E as (L1 & E1 & E). apply bind_ret_inv in E as (L2 & E2 & E). injection E as <- _.
    apply rpc_free_handler in E2. rewrite E2 in Hc.
    destruct (auth_respond msg) as [an'|] eqn:Ean; [|discriminate]. injection Ea as ->.
    destruct (Z.eqb_spec (an_result an) RET_SUCCESS) as [Hres|].
    + apply bind_ret_inv in E1 as (v' & Ev' & E1). destruct (lg_rpcs L !! rpc) as [v|] eqn:Ev; [|discriminate]. injection Ev' as ->.
      exists data, an, rpc, v'. split; [reflexivity|]. split; [split; [lia|]; split; [exact Hcmd|]; eauto|].
      split; [exact Hres|]. split; [exact Er|]. split; [exact Ev|].
      destruct (after_auth_new _ _ _ _ _ (with_rpc_account v' (take 127 (cstr (an_account an)))) E1 ltac:(cbn; apply lookup_insert_eq) _ _ Hc) as [Hold|Hk];
        [now destruct Hn|now rewrite Hk].
    + unfold authserver_fail in E1. inv_bind E1. apply respond_handler in E1. rewrite E1 in Hc. now destruct Hn.
  - unfold authserver_on_closed in Hs. inv_bind Hs. injection Hs as <-. now destruct Hn.
  - unfold module_authserver_update in Hs. cbv zeta in Hs. apply timeout_loop_handler in Hs. rewrite Hs in Hc.
    destruct (lg_auth L =? INVALID_ID); now destruct Hn.
Qed.
End Handlers.

(** ** What a connection reaches before it is logged in *)

Section Confined.
Context {M D : Type} `{PtrMap M}.
#[local] Abbreviation lg := (login M D).
Context (stack_sn junk : Z) (peer_ip : Z -> option (list Z)) (version server_id : Z).
Context (auth_request : list Z -> list Z -> Z -> option (list Z)).

(** Messages to the connection itself and to the authentication server, and closing the connection. *)
Definition own_event (conn auth : Z) (e : gw_event) : Prop :=
  match e with
  | GSend k _ => k = conn \/ k = auth
  | GClose k => k = conn
  | _ => False
  end.

(** From [L] to [L'] only these were emitted, and players, accounts and servers stayed as they were. *)
Definition confined (conn : Z) (L L' : lg) : Prop :=
  lg_accounts L' = lg_accounts L /\ lg_auth L' = lg_auth L /\ g_clients (lg_gw L') = g_clients (lg_gw L) /\
  g_worlds (lg_gw L') = g_worlds (lg_gw L) /\ g_backends (lg_gw L') = g_backends (lg_gw L) /\
  exists es, g_out (lg_gw L') = g_out (lg_gw L) ++ es /\ Forall (own_event conn (lg_auth L)) es.

#[local] Instance confined_refl conn : Reflexive (confined conn).
Proof. intros L. repeat split. exists []. split; [now rewrite app_nil_r|constructor]. Qed.

#[local] Instance confined_trans conn : Transitive (confined conn).
Proof.
  intros L1 L2 L3 (A1 & A2 & A3 & A4 & A5 & es & Ae & Af) (B1 & B2 & B3 & B4 & B5 & es' & Be & Bf).
  repeat split; try congruence. exists (es ++ es'). split; [rewrite Be, Ae; symmetry; apply (assoc_L (++))|].
  apply list.Forall_app. split; [exact Af|]. now rewrite A2 in Bf.
Qed.

Lemma confined_same conn (L L' : lg) :
  lg_gw L' = lg_gw L -> lg_accounts L' = lg_accounts L -> lg_auth L' = lg_auth L -> confined conn L L'.
Proof. intros E1 E2 E3. repeat split; rewrite ?E1, ?E2, ?E3; auto. exists []. split; [now rewrite app_nil_r|constructor]. Qed.

Lemma confined_writev conn (L : lg) k iov g rc :
  k = conn \/ k = lg_auth L -> agN_writev (lg_gw L) k iov = (g, rc) -> confined conn L (set_gw L g).
Proof.
  intros Hk. unfold agN_writev. destruct (existsb _ _); intros [= <- _]; [|apply confined_same; now destruct L].
  repeat split. exists [GSend k (concat iov)]. split; [reflexivity|]. constructor; [exact Hk|constructor].
Qed.

Lemma confined_send conn (L : lg) bytes : confined conn L (lg_send L conn bytes).
Proof. unfold lg_send. destruct (agN_writev _ _ _) as [g rc] eqn:E. eapply confined_writev; [now left|exact E]. Qed.

Lemma confined_close conn (L : lg) : confined conn L (lg_close L conn).
Proof. repeat split. exists [GClose conn]. split; [reflexivity|]. repeat constructor. Qed.

Lemma confined_respond conn (L : lg) sn result L' : respond_auth_fail_and_close L conn sn result = Ret L' -> confined conn L L'.
Proof.
  unfold respond_auth_fail_and_close, respond_auth. intros Hs. inv_bind Hs. inv_bind E. injection E as <-. injection Hs as <-.
  etransitivity; [apply confined_send|apply confined_close].
Qed.

Lemma confined_auth L al now conn account token package sn serverid L' rc :
  authserver_auth stack_sn auth_request L al now conn account token package sn serverid = Ret (L', rc) -> confined conn L L'.
Proof.
  unfold authserver_auth, authserver_send. cbv zeta. intros Hs.
  destruct (auth_request _ _ _); [|injection Hs as <- <-; now apply confined_same].
  destruct (al_rpc al =? 0); [discriminate|]. inv_bind Hs. inv_bind Hs. inv_bind Hs.
  set (L1 := start_authserver _ _ _) in *. destruct (agN_writev _ _ _) as [gw' rc'] eqn:E'. injection Hs as <- <-.
  transitivity L1; [now apply confined_same|]. eapply confined_writev; [now right|exact E'].
Qed.

Lemma confined_amf L al now conn data p len package plen L' :
  do_amf_auth stack_sn junk version server_id auth_request L al now conn data p len package plen = Ret L' -> confined conn L L'.
Proof.
  unfold do_amf_auth. intros Hs. inv_bind Hs. set (L1 := set_gw L g) in *.
  assert (H1 : confined conn L L1).
  { unfold read_amf in E. inv_bind E. injection E as <- _ _. repeat split. exists []. split; [symmetry; apply app_nil_r|constructor]. }
  transitivity L1; [exact H1|]. clearbody L1.
  destruct (bool_decide (o = None)); [injection Hs as <-; apply confined_close|].
  destruct (negb (z =? len)); [injection Hs as <-; apply confined_close|].
  destruct (negb _ || _); [injection Hs as <-; apply confined_close|].
  do 7 inv_bind Hs. destruct (negb (version =? r5)); [eapply confined_respond; exact Hs|].
  do 5 inv_bind Hs. apply confined_auth in E11. etransitivity; [exact E11|].
  destruct (negb (z0 =? 0)); [eapply confined_respond; exact Hs|now injection Hs as <-].
Qed.

(** C8: Before the login nothing of a connection gets past the gateway: whatever bytes arrive on a
    connection that is not bound to a client, the gateway sends only to this connection and to the
    authentication server and closes nothing else; players, accounts and the tables of worlds and
    backends stay as they are. *)
Theorem unauthenticated_confined L al now conn data L' n :
  conn_on_message (M := M) (D := D) stack_sn junk peer_ip version server_id auth_request L al now conn data = Ret (L', n) ->
  (forall c, lg_handler L !! conn <> Some (HTranslate c)) -> confined conn L L'.
Proof.
  unfold conn_on_message. intros Hs Hh. destruct (lg_handler L !! conn) as [[|r|c]|] eqn:Eh.
  - unfold auth_process_message in Hs. cbv zeta in Hs. inv_bind Hs.
    destruct (_ && bool_decide (take 23 data = _)); [injection Hs as <- _; apply confined_send|].
    destruct (_ && bool_decide (take 4 data = _)); [now injection Hs as <- _|].
    destruct (zlen data <? _); [now injection Hs as <- _|]. destruct (zlen data <? _); [now injection Hs as <- _|].
    destruct (negb _); [injection Hs as <- _; apply confined_close|]. inv_bind Hs. injection Hs as <- _.
    destruct (_ =? 1); [eapply confined_amf; exact E0|injection E0 as <-; apply confined_close].
  - now injection Hs as <- _.
  - now destruct (Hh c).
  - now injection Hs as <- _.
Qed.
End Confined.

(** ** Requests to the authentication server *)

(** The answer to a login that is refused. *)
Definition fail_package (sn result : Z) : list Z :=
  client_package (mk_client_message C_LOGIN_RESPOND 1
    (array_header 2 ++ integer_bytes amf_integer sn ++ integer_bytes amf_integer result)).

Lemma pair_message_spec cmd sn result : 0 <= sn < 2 ^ 32 -> 0 <= result < 2 ^ 32 ->
  pair_message cmd sn result = Ret (client_package (mk_client_message cmd 1
    (array_header 2 ++ integer_bytes amf_integer sn ++ integer_bytes amf_integer result))).
Proof.
  intros Hsn Hr. unfold pair_message. pose proof (zlen_integer_bytes sn). pose proof (zlen_integer_bytes result).
  assert (Ha : zlen (array_header 2) = 3) by reflexivity.
  destruct (encode_fields_spec (1024 - sizeof_client_header) [f_array 2; f_integer sn; f_integer result]
    [array_header 2; integer_bytes amf_integer sn; integer_bytes amf_integer result]) as (m & -> & Hm).
  - repeat constructor; [apply f_array_writes; lia|apply f_integer_writes; lia..].
  - cbn [concat]. rewrite app_nil_r, !zlen_app. unfold sizeof_client_header. lia.
  - cbn [mbind outcome_bind]. rewrite Hm. cbn [mbind outcome_bind concat]. rewrite app_nil_r.
    unfold client_package, client_iov. cbn [cm_cmd cm_flag cm_body concat]. cbv zeta. now rewrite app_nil_r, (Z.add_comm sizeof_client_header).
Qed.

Section Requests.
Context {M D : Type} `{PtrMapLaws M}.
#[local] Abbreviation lg := (login M D).

(** A refused login on the wire. *)
Definition refuse (g : gateway M) (v : RPC_DATA) : gateway M :=
  agN_close (fst (agN_writev g (rpc_conn v) [fail_package (rpc_client_sn v) RET_PERMISSION])) (rpc_conn v).

Lemma respond_fail_spec (L : lg) conn sn result : 0 <= sn < 2 ^ 32 -> 0 <= result < 2 ^ 32 ->
  respond_auth_fail_and_close L conn sn result =
  Ret (set_gw L (agN_close (fst (agN_writev (lg_gw L) conn [fail_package sn result])) conn)).
Proof.
  intros Hsn Hr. unfold respond_auth_fail_and_close, respond_auth. now rewrite pair_message_spec by assumption.
Qed.

(** The requests that are pending: map and list hold [l]; serial numbers of clients are 32-bit. *)
Record pending_ok (L : lg) (l : list Z) : Prop := {
  po_table : exists m, lg_table L = Some m /\ kq_ok rpc_sn (lg_rpcs L) (lg_list L) m l;
  po_small : zlen l < 2 ^ 61;
  po_sn : forall a v, (a, v) ∈ nodes (lg_rpcs L) l -> 0 <= rpc_client_sn v < 2 ^ 32 }.

Definition requests (L : lg) (l : list Z) : list (Z * RPC_DATA) := nodes (lg_rpcs L) l.

Lemma sn_links v : rpc_sn (strip1 v) = rpc_sn v.
Proof. reflexivity. Qed.

(** A request is five seconds old. *)
Definition timed_out (now : Z) (e : Z * RPC_DATA) : bool := AUTH_SERVER_RPC_TIMEOUT <=? now - rpc_create_time (snd e).

Lemma timeout_stop now (L : lg) l :
  pending_ok L l -> span (timed_out now) (requests L l) = ([], requests L l) ->
  exists heap q m l', let L' := set_rpcs (set_gw L (foldl refuse (lg_gw L) (map snd (fst (span (timed_out now) (requests L l)))))) heap q (Some m) in
    Ret L = Ret L' /\ pending_ok L' l' /\ requests L' l' = snd (span (timed_out now) (requests L l)).
Proof.
  intros Hp E. pose proof Hp as [(m & Hm & _) _ _]. exists (lg_rpcs L), (lg_list L), m, l. rewrite E. cbv zeta. cbn [fst snd map foldl].
  replace (set_rpcs (set_gw L (lg_gw L)) (lg_rpcs L) (lg_list L) (Some m)) with L; [auto|]. rewrite <- Hm. now destruct L.
Qed.

Lemma timeout_loop_spec now : forall fuel (L : lg) l,
  pending_ok L l -> (length l <= fuel)%nat ->
  exists heap q m l', let L' := set_rpcs (set_gw L (foldl refuse (lg_gw L) (map snd (fst (span (timed_out now) (requests L l)))))) heap q (Some m) in
    timeout_loop fuel L now = Ret L' /\ pending_ok L' l' /\ requests L' l' = snd (span (timed_out now) (requests L l)).
Proof.
  induction fuel as [|fuel IH]; intros L l Hp Hf; pose proof Hp as [(m & Hm & Hok) Hl Hsn];
    pose proof (ring_head _ _ _ (kq_ring _ _ _ _ _ Hok)) as Hh; cbn [timeout_loop];
    destruct l as [|a l]; cbn [hd_error default from_option id] in Hh; rewrite Hh.
  1,3: now apply timeout_stop.
  { cbn in Hf. lia. }
  destruct (kq_node _ _ _ _ _ a Hok ltac:(left)) as [Ha0 [v Hv]]. destruct (Z.eqb_spec a 0); [contradiction|].
  rewrite Hv. cbn [deref mbind outcome_bind]. unfold requests in *. rewrite (nodes_cons _ _ _ _ Hv) in *. cbn [span].
  change (timed_out now (a, strip1 v)) with (AUTH_SERVER_RPC_TIMEOUT <=? now - rpc_create_time v).
  destruct (AUTH_SERVER_RPC_TIMEOUT <=? now - rpc_create_time v) eqn:E.
  2: { pose proof (timeout_stop now L (a :: l) Hp) as Hst. unfold requests in Hst. rewrite (nodes_cons _ _ _ _ Hv) in Hst.
       cbn [span] in Hst. change (timed_out now (a, strip1 v)) with (AUTH_SERVER_RPC_TIMEOUT <=? now - rpc_create_time v) in Hst.
       rewrite E in Hst. now apply Hst. }
  destruct (kq_unlink rpc_sn sn_links _ _ _ [] a l v Hok Hl Hv) as (h' & q' & m' & v' & He & Hv' & Hs & Hset & Hok' & Hn').
  rewrite Hh in He. rewrite He. cbn [mbind outcome_bind]. rewrite Hv', Hm. cbn [deref mbind outcome_bind map_set].
  assert (Hk : rpc_sn v' = rpc_sn v) by exact (f_equal rpc_sn Hs).
  assert (Hcl : rpc_client_sn v' = rpc_client_sn v) by exact (f_equal rpc_client_sn Hs).
  assert (Hcn : rpc_conn v' = rpc_conn v) by exact (f_equal rpc_conn Hs). rewrite Hk, Hset, Hcl, Hcn. cbn [mbind outcome_bind].
  rewrite respond_fail_spec; [|exact (Hsn a (strip1 v) ltac:(left))|unfold RET_PERMISSION; lia]. cbn [mbind outcome_bind].
  cbn [app] in Hok', Hn'. change (nodes (lg_rpcs L) []) with (@nil (Z * RPC_DATA)) in Hn'. cbn [app] in Hn'.
  set (L1 := set_rpcs (set_gw (set_rpcs L h' q' (Some m')) _) (delete a h') q' (Some m')).
  destruct (IH L1 l) as (heap & q & m2 & l' & Hr & Hp' & Hn2).
  - constructor; [exists m'; split; [reflexivity|exact Hok']|rewrite zlen_cons in Hl; lia|].
    intros b w Hb. cbn in Hb. rewrite Hn' in Hb. apply (Hsn b w). now right.
  - cbn in Hf. lia.
  - exists heap, q, m2, l'. unfold requests in *. cbn [L1 set_rpcs set_gw lg_rpcs lg_gw] in *. rewrite Hn' in *.
    destruct (span (timed_out now) (nodes (lg_rpcs L) l)) as [x r]. cbn [fst snd map foldl] in *. auto.
Qed.

(** A login request becomes pending: [authserver_auth] gives it the next serial number, enters it
    behind all others in list and map with the data of the connection, takes the connection away from
    auth.c, and sends the encoded request to the authentication server and nothing else. *)
Theorem auth_request_pending stack_sn auth_request (L : lg) l al now conn account token package client_sn serverid slice :
  pending_ok L l -> zlen l < 2 ^ 61 - 1 -> 0 <= client_sn < 2 ^ 32 -> al_rpc al <> 0 -> lg_rpcs L !! al_rpc al = None ->
  (forall a v, (a, v) ∈ requests L l -> rpc_sn v <> next_sn (lg_sn L)) ->
  auth_request account token (next_sn (lg_sn L)) = Some slice ->
  exists L' rc, authserver_auth stack_sn auth_request L al now conn account token package client_sn serverid = Ret (L', rc) /\
    pending_ok L' (l ++ [al_rpc al]) /\
    requests L' (l ++ [al_rpc al]) = requests L l ++
      [(al_rpc al, mk_rpc 0 0 (next_sn (lg_sn L)) now conn package client_sn (take 127 account) (take 127 token) 0 serverid)] /\
    lg_sn L' = next_sn (lg_sn L) /\ lg_handler L' = <[conn := HAuthserver (al_rpc al)]> (lg_handler L) /\
    (lg_gw L', rc) = agN_writev (lg_gw L) (lg_auth L) [translate_header_bytes (mk_translate_header
      (htonl (sizeof_translate_header + zlen slice)) stack_sn (htonl 0) (htonl 2) (htonl S_AUTH_REQUEST) (htonl serverid)); slice].
Proof.
  intros [(m & Hm & Hok) Hl Hsn] Hl1 Hcs Ha0 Hfresh Hnew Hslice. unfold authserver_auth. cbv zeta. rewrite Hslice.
  destruct (Z.eqb_spec (al_rpc al) 0); [contradiction|]. cbn [set_sn lg_rpcs lg_table lg_list]. set (v := mk_rpc 0 0 _ _ _ _ _ _ _ _ _).
  assert (Hni : al_rpc al ∉ l) by (intros Hin; destruct (kq_node _ _ _ _ _ _ Hok Hin) as [_ [w Hw]]; congruence).
  assert (Hk : pm_abs m !! rpc_sn v = None).
  { destruct (kq_lookup rpc_sn sn_links _ _ _ _ (rpc_sn v) Hok) as [(a & w & Hin & Hw & Hk & _)|[E _]]; [|exact E]. exfalso.
    apply (Hnew a (strip1 w)); [|exact Hk]. apply elem_of_nodes. cbn. eauto. }
  destruct (kq_append rpc_sn sn_links _ _ _ _ (al_rpc al) v Hok Hl Hni Ha0 eq_refl eq_refl Hk) as (h' & q' & m' & He & Hs & Hok' & Hn').
  rewrite Hm. cbn [map_set]. change (rpc_sn v) with (next_sn (lg_sn L)) in Hs. rewrite Hs. cbn [mbind outcome_bind Z.eqb]. rewrite He. cbn [mbind outcome_bind].
  unfold authserver_send. cbn [start_authserver set_handler set_rpcs set_sn lg_gw lg_auth].
  destruct (agN_writev _ _ _) as [g rc] eqn:Ew. eexists _, rc. split; [reflexivity|].
  split; [|split; [exact Hn'|split; [reflexivity|split; [reflexivity|reflexivity]]]].
  constructor; [exists m'; split; [reflexivity|exact Hok']|autorewrite with cserver; lia|].
  intros a w Hin. cbn [set_gw start_authserver set_handler set_rpcs lg_rpcs] in Hin. rewrite Hn' in Hin.
  apply elem_of_app in Hin as [Hin|Hin]; [exact (Hsn a w Hin)|]. apply list_elem_of_singleton in Hin as [= _ ->]. exact Hcs.
Qed.

(** An answer of the authentication server counts once: it changes nothing when no request with its
    serial number is pending (because it was answered or has timed out), and a refusal of a pending
    request answers and closes its connection and takes this request, and no other, out of list and
    map. *)
Theorem auth_answer_counts_once stack_sn junk peer_ip mysql_query mysql_insert_id auth_respond (L : lg) l al now sn body rest an :
  pending_ok L l -> 0 <= sn < 2 ^ 32 -> zlen body + sizeof_translate_header < 2 ^ 32 -> auth_respond body = Some an ->
  let data := server_package sn (mk_server_message 0 S_AUTH_RESPOND 2 body) in
  let handle := authserver_on_message stack_sn junk peer_ip mysql_query mysql_insert_id auth_respond L al now (data ++ rest) in
  ((forall a v, (a, v) ∈ requests L l -> rpc_sn v <> an_sn an) -> handle = Ret (L, zlen data)) /\
  (forall l1 a l2 v, l = l1 ++ a :: l2 -> lg_rpcs L !! a = Some v -> rpc_sn v = an_sn an -> an_result an <> RET_SUCCESS ->
    exists L', handle = Ret (L', zlen data) /\ pending_ok L' (l1 ++ l2) /\
      requests L' (l1 ++ l2) = requests L l1 ++ requests L l2 /\ lg_gw L' = refuse (lg_gw L) v /\ lg_handler L' = lg_handler L).
Proof.
  intros Hp Hsn Hb Han data handle. pose proof Hp as [(m & Hm & Hok) Hl Hcs].
  destruct (server_package_fields sn (mk_server_message 0 S_AUTH_RESPOND 2 body) rest Hsn) as (E1 & E2 & E3 & _ & E5 & E6 & E7 & E8).
  { unfold sendable, S_AUTH_RESPOND. cbn [sm_pid sm_cmd sm_flag sm_body]. split; [lia|]. split; [now right|lia]. }
  cbv zeta in *. fold data in E1, E2, E3, E5, E6, E7, E8. cbn [sm_pid sm_cmd sm_body] in *.
  assert (Hh : forall r, map_get (lg_table L) (an_sn an) = Ret r -> handle =
    if r =? 0 then Ret (L, zlen data)
    else L' ← (if an_result an =? RET_SUCCESS then
             v ← deref (lg_rpcs L !! r);
             let L := set_rpcs L (<[r := with_rpc_account v (take 127 (cstr (an_account an)))]> (lg_rpcs L)) (lg_list L) (lg_table L) in
             after_auth stack_sn junk peer_ip mysql_query mysql_insert_id L al now r
           else authserver_fail L r); L' ← rpc_free L' r; Ret (L', zlen data)).
  { intros r Hr. unfold handle, authserver_on_message. cbv zeta. rewrite E1, E2, E3, E5, E6, E7, E8. cbn [Z.eqb negb mbind outcome_bind].
    change (S_AUTH_RESPOND =? S_AUTH_RESPOND) with true. cbn [negb]. rewrite Han. cbn [deref mbind outcome_bind]. rewrite Hr. reflexivity. }
  assert (Hget : map_get (lg_table L) (an_sn an) = Ret (default 0 (pm_abs m !! an_sn an)))
    by (rewrite Hm; apply pm_get_spec, (kq_map _ _ _ _ _ Hok)).
  rewrite (Hh _ Hget). clear Hh. split.
  - intros Hno. destruct (kq_lookup rpc_sn sn_links _ _ _ _ (an_sn an) Hok) as [(a & w & Hin & Hw & Hk & _)|[-> _]]; [|reflexivity].
    exfalso. apply (Hno a (strip1 w)); [|exact Hk]. apply elem_of_nodes. cbn. eauto.
  - intros l1 a l2 v -> Hv Hk Hres.
    assert (Habs : pm_abs m !! an_sn an = Some a).
    { destruct (kq_lookup rpc_sn sn_links _ _ _ _ (an_sn an) Hok) as [(b & w & Hin & Hw & Hkw & ->)|[_ Hno]].
      - f_equal. eapply (kq_unique rpc_sn sn_links); [exact Hok|exact Hw|exact Hv|congruence].
      - exfalso. apply (Hno a v); [apply elem_of_app; right; left|exact Hv|exact Hk]. }
    rewrite Habs. cbn [default from_option id]. assert (Hin : a ∈ l1 ++ a :: l2) by (apply elem_of_app; right; left).
    destruct (kq_node _ _ _ _ _ a Hok Hin) as [Ha0 _]. destruct (Z.eqb_spec a 0); [contradiction|].
    destruct (Z.eqb_spec (an_result an) RET_SUCCESS); [contradiction|]. unfold authserver_fail. rewrite Hv. cbn [deref mbind outcome_bind].
    assert (Hcv : 0 <= rpc_client_sn v < 2 ^ 32) by (refine (Hcs a (strip1 v) _); apply elem_of_nodes; cbn; eauto).
    rewrite respond_fail_spec by (assumption || unfold RET_PERMISSION; lia). cbn [mbind outcome_bind].
    destruct (kq_unlink rpc_sn sn_links _ _ _ l1 a l2 v Hok Hl Hv) as (h' & q' & m' & v' & He & Hv' & Hs & Hset & Hok' & Hn').
    unfold rpc_free. cbn [set_gw lg_rpcs lg_list lg_table]. rewrite He. cbn [mbind outcome_bind]. rewrite Hv', Hm. cbn [deref mbind outcome_bind map_set].
    replace (rpc_sn v') with (rpc_sn v) by (symmetry; exact (f_equal rpc_sn Hs)). rewrite Hset. cbn [mbind outcome_bind].
    eexists. split; [reflexivity|]. split; [|split; [exact Hn'|split; [reflexivity|reflexivity]]].
    constructor; [exists m'; split; [reflexivity|exact Hok']|revert Hl; autorewrite with cserver; lia|].
    intros b w Hb'. cbn [set_rpcs lg_rpcs] in Hb'. rewrite Hn' in Hb'. apply (Hcs b w). rewrite nodes_app, (nodes_cons _ _ _ _ Hv).
    apply elem_of_app in Hb' as [Hb'|Hb']; apply elem_of_app; [now left|right; now right].
Qed.

(** C10: Requests to the authentication server time out: with the requests in the order of their times,
    a tick of the clock answers exactly those that are at least five seconds old with [RET_PERMISSION],
    in order, closes their connections, and keeps exactly the others, in order; nothing is leaked or
    freed twice.  Five is the value of [AUTH_SERVER_RPC_TIMEOUT], which decides; the comment on its line in
    [authserver.c] says 300 seconds, and by that comment requests from 5 to 300 seconds old would have to be
    kept, which the code answers and closes. *)
Theorem auth_requests_time_out (L : lg) l connect now :
  pending_ok L l -> StronglySorted (fun e1 e2 => rpc_create_time (snd e1) <= rpc_create_time (snd e2)) (requests L l) ->
  exists L' l', module_authserver_update L connect now = Ret L' /\ pending_ok L' l' /\
    requests L' l' = List.filter (fun e => negb (timed_out now e)) (requests L l) /\
    lg_gw L' = foldl refuse (lg_gw L) (map snd (List.filter (timed_out now) (requests L l))) /\
    lg_handler L' = lg_handler L /\ (forall a, is_Some (lg_rpcs L' !! a) <-> a ∈ l').
Proof.
  intros Hp Hs. unfold module_authserver_update. cbv zeta.
  set (L0 := if lg_auth L =? INVALID_ID then set_auth L connect else L).
  assert (E0 : lg_rpcs L0 = lg_rpcs L /\ lg_gw L0 = lg_gw L /\ lg_handler L0 = lg_handler L /\ lg_list L0 = lg_list L /\ lg_table L0 = lg_table L)
    by (unfold L0; now destruct (lg_auth L =? INVALID_ID)).
  destruct E0 as (Er & Eg & Eh & El & Et). pose proof Hp as [(m & Hm & Hok) Hl Hsn].
  assert (Hp0 : pending_ok L0 l) by (constructor; rewrite ?Er, ?El, ?Et; eauto).
  destruct (timeout_loop_spec now (size (lg_rpcs L0)) L0 l Hp0) as (heap & q & m' & l' & Hr & Hp' & Hn).
  { rewrite Er. exact (kq_size _ _ _ _ _ Hok). }
  assert (Esp : span (timed_out now) (requests L l) =
    (List.filter (timed_out now) (requests L l), List.filter (fun e => negb (timed_out now e)) (requests L l))).
  { apply (span_filter _ _ _ Hs). intros x y Hxy Hx. unfold timed_out in *. zbool. apply Z.leb_gt. lia. }
  unfold requests in *. rewrite Er, Esp in *.
  eexists _, l'. split; [exact Hr|]. split; [exact Hp'|]. split; [exact Hn|]. cbn [fst snd]. split; [cbn; now rewrite Eg|].
  split; [exact Eh|]. intros a. destruct Hp' as [(m2 & _ & Hok') _ _]. rewrite <- (ix_dom _ _ _ (kq_index _ _ _ _ _ Hok')), lookup_strip.
  symmetry. apply fmap_is_Some.
Qed.
End Requests.

(** ** A login from the first connection on *)

(** A gateway with one world (connection 7), one backend and the authentication server (connection 9). *)
Definition sample_login : login (agmap Z) (list (list Z)) :=
  mk_login
    (mk_gw (module_client_load _agMap_new) [mk_world 9001 2000 0 true 7 0] [mk_backend 100 199 5 8] refs_init [7; 8; 9] [])
    (mk_accounts ∅ (mk_hash 0 128 (repeat [] 128)) _agMap_new 0 (Some []) [])
    waiting_init ∅ ∅ 0 (Some _agMap_new) 0 9.

Definition sample_allocs : allocs (agmap Z) :=
  mk_allocs 64 80 96 (mk_client 0 0 0 0 0 0 0 0 0 0) [112; 128] true _agMap_new.

Definition sample_login_request : list Z :=
  concat (client_iov C_LOGIN_REQUEST 1
    (array_header 4 ++ integer_bytes amf_integer 5 ++ string_bytes amf_string (chars "Bob") ++
     string_bytes amf_string (chars "token") ++ integer_bytes amf_integer 3)).

(** The messages of the authentication server in this run: serial number, result, account. *)
Definition sample_respond (msg : list Z) : option auth_answer :=
  Some (mk_answer (le_combine (take 4 msg)) (default 0 (msg !! 4%nat)) (drop 5 msg)).
Definition sample_answer (result : Z) : list Z :=
  concat (translate_iov 0 0 S_AUTH_RESPOND 2 (le_split 4 1 ++ [result] ++ chars "bob")).

#[local] Abbreviation sample_step :=
  (login_step 0 0 (fun _ => None) sample_query zlen 3 1 (fun a t sn => Some (le_split 4 sn)) sample_respond).

Definition sample_run : outcome (login (agmap Z) (list (list Z))) :=
  L ← sample_step sample_login sample_allocs 100 (EAccept 3);
  L ← sample_step L sample_allocs 101 (EMessage 3 sample_login_request);
  Ret L.

Lemma sample_passes : exists L L', sample_run = Ret L /\
  sample_step L sample_allocs 102 (EAuthMessage (sample_answer 0)) = Ret L' /\
  lg_handler L' !! 3 = Some (HTranslate 96) /\ lg_handler L !! 3 <> Some (HTranslate 96).
Proof.
  assert (Hr : exists L, sample_run = Ret L) by (eexists; vm_compute; reflexivity). destruct Hr as [L Hr]. exists L.
  assert (E : (L ← sample_run; L' ← sample_step L sample_allocs 102 (EAuthMessage (sample_answer 0));
    Ret (lg_handler L' !! 3, lg_handler L !! 3)) = Ret (Some (HTranslate 96), Some (HAuthserver 64))) by (vm_compute; reflexivity).
  rewrite Hr in E. cbn [mbind outcome_bind] in E. inv_bind E. injection E as E1 E2. exists r.
  split; [exact Hr|]. split; [exact E0|]. split; [exact E1|]. rewrite E2. discriminate.
Qed.

(** The answer to the request of connection 3. *)
Lemma login_needs_answer_witness :
  exists L L', sample_run = Ret L /\ sample_step L sample_allocs 102 (EAuthMessage (sample_answer 0)) = Ret L' /\
    exists data an rpc v, EAuthMessage (sample_answer 0) = EAuthMessage data /\ auth_answer_of sample_respond data an /\
      an_result an = RET_SUCCESS /\ map_get (lg_table L) (an_sn an) = Ret rpc /\ lg_rpcs L !! rpc = Some v /\ rpc_conn v = 3.
Proof.
  destruct sample_passes as (L & L' & Hr & Hs & Hc & Hn). exists L, L'. split; [exact Hr|]. split; [exact Hs|].
  exact (login_needs_answer _ _ _ _ _ _ _ _ _ _ _ _ _ _ _ _ Hs Hc Hn).
Defined.

(** Two requests are pending, of connections 3 and 4. *)
Definition sample_rpc (sn time conn : Z) : RPC_DATA := mk_rpc 0 0 sn time conn [] 5 (chars "bob") (chars "token") 0 1.

Lemma sample_pending : exists L : login (agmap Z) (list (list Z)),
  pending_ok L [64; 80] /\ requests L [64; 80] = [(64, sample_rpc 1 100 3); (80, sample_rpc 2 105 4)] /\
  lg_gw L = lg_gw sample_login.
Proof.
  destruct (@agMap_new_ok Z _ _ _) as (Hok & Hc & Hg).
  assert (Hpm : pm_ok (M := agmap Z) _agMap_new) by (split; assumption).
  assert (Habs : pm_abs (M := agmap Z) _agMap_new = ∅) by exact Hg.
  pose proof (kq_empty rpc_sn _agMap_new Hpm Habs) as H0.
  destruct (kq_append rpc_sn sn_links _ _ _ [] 64 (sample_rpc 1 100 3) H0 eq_refl
    (not_elem_of_nil _) ltac:(lia) eq_refl eq_refl ltac:(rewrite Habs; apply lookup_empty)) as (h1 & q1 & m1 & _ & _ & H1 & N1).
  assert (Hm1 : pm_abs m1 !! 2 = None).
  { destruct (kq_lookup rpc_sn sn_links _ _ _ _ 2 H1) as [(a & w & Hin & Hw & Hk & _)|[E _]]; [|exact E]. exfalso.
    assert (Hn : (a, strip1 w) ∈ nodes h1 [64]) by (apply elem_of_nodes; cbn; eauto).
    cbn [app] in N1. rewrite N1 in Hn. apply list_elem_of_singleton in Hn.
    apply (f_equal (fun e => rpc_sn (snd e))) in Hn. cbn in Hn. congruence. }
  destruct (kq_append rpc_sn sn_links _ _ _ [64] 80 (sample_rpc 2 105 4) H1 eq_refl
    ltac:(cbn; intros Hin; apply list_elem_of_singleton in Hin; discriminate) ltac:(lia) eq_refl eq_refl Hm1)
    as (h2 & q2 & m2 & _ & _ & H2 & N2).
  cbn [app] in N1, N2, H2. rewrite N1 in N2. exists (set_rpcs sample_login h2 q2 (Some m2)). split; [|split; [exact N2|reflexivity]].
  constructor; [exists m2; split; [reflexivity|exact H2]|reflexivity|].
  intros a v Hin. change (lg_rpcs (set_rpcs sample_login h2 q2 (Some m2))) with h2 in Hin. rewrite N2 in Hin.
  apply elem_of_app in Hin as [Hin|Hin]; apply list_elem_of_singleton in Hin as [= _ ->]; cbn; lia.
Qed.

(** Six and one seconds later, the first of them has timed out. *)
Lemma auth_requests_time_out_witness : exists L L' l',
  requests (M := agmap Z) (D := list (list Z)) L [64; 80] = [(64, sample_rpc 1 100 3); (80, sample_rpc 2 105 4)] /\
  module_authserver_update L 9 106 = Ret L' /\ pending_ok L' l' /\
  requests L' l' = List.filter (fun e => negb (timed_out 106 e)) (requests L [64; 80]) /\
  lg_gw L' = foldl refuse (lg_gw L) (map snd (List.filter (timed_out 106) (requests L [64; 80]))) /\
  lg_handler L' = lg_handler L /\ (forall a, is_Some (lg_rpcs L' !! a) <-> a ∈ l').
Proof.
  destruct sample_pending as (L & Hp & Hr & _).
  destruct (auth_requests_time_out L [64; 80] 9 106 Hp) as (L' & l' & H').
  - rewrite Hr. repeat constructor; cbn; lia.
  - exists L, L', l'. split; [exact Hr|exact H'].
Defined.

(** A third request, of connection 5. *)
Lemma auth_request_pending_witness : exists L L' rc,
  requests (M := agmap Z) (D := list (list Z)) L [64; 80] = [(64, sample_rpc 1 100 3); (80, sample_rpc 2 105 4)] /\
  authserver_auth 0 (fun a t sn => Some (le_split 4 sn)) L (mk_allocs 96 0 0 (mk_client 0 0 0 0 0 0 0 0 0 0) [] true _agMap_new)
    106 5 (chars "ann") (chars "token") [] 7 1 = Ret (L', rc) /\
  pending_ok L' [64; 80; 96] /\
  requests L' [64; 80; 96] = requests L [64; 80] ++
    [(96, mk_rpc 0 0 (next_sn (lg_sn L)) 106 5 [] 7 (chars "ann") (chars "token") 0 1)].
Proof.
  destruct sample_pending as (L0 & Hp0 & Hr0 & _). set (L := set_sn L0 2).
  assert (Hp : pending_ok L [64; 80]) by (destruct Hp0; constructor; assumption).
  assert (Hr : requests L [64; 80] = [(64, sample_rpc 1 100 3); (80, sample_rpc 2 105 4)]) by exact Hr0.
  destruct (auth_request_pending 0 (fun a t sn => Some (le_split 4 sn)) L [64; 80]
    (mk_allocs 96 0 0 (mk_client 0 0 0 0 0 0 0 0 0 0) [] true _agMap_new) 106 5 (chars "ann") (chars "token") [] 7 1 (le_split 4 3) Hp)
    as (L' & rc & He & Hp' & Hr' & _); [reflexivity|lia|discriminate| | |reflexivity|].
  - destruct Hp as [(m & _ & Hok) _ _]. apply eq_None_not_Some. intros [v Hv].
    assert (Hin : 96 ∈ [64; 80]) by (apply (ix_dom _ _ _ (kq_index _ _ _ _ _ Hok)); rewrite lookup_strip; cbn [al_rpc] in Hv; rewrite Hv; eauto).
    apply elem_of_cons in Hin as [|Hin]; [discriminate|]. apply list_elem_of_singleton in Hin. discriminate.
  - intros a v Hin. rewrite Hr in Hin. apply elem_of_cons in Hin as [[= _ ->]|Hin]; [discriminate|].
    apply list_elem_of_singleton in Hin as [= _ ->]. discriminate.
  - exists L, L', rc. split; [exact Hr|]. split; [exact He|]. split; [exact Hp'|exact Hr'].
Defined.

(** An answer with an unknown serial number, and a refusal of the second request. *)
Lemma auth_answer_counts_once_witness : exists L : login (agmap Z) (list (list Z)),
  let handle sn := authserver_on_message 0 0 (fun _ => None) sample_query zlen sample_respond L sample_allocs 106
      (server_package 0 (mk_server_message 0 S_AUTH_RESPOND 2 (le_split 4 sn ++ [11])) ++ []) in
  handle 9 = Ret (L, 33) /\
  exists L', handle 2 = Ret (L', 33) /\ pending_ok L' [64] /\ requests L' [64] = [(64, sample_rpc 1 100 3)].
Proof.
  destruct sample_pending as (L & Hp & Hr & _). exists L. cbv zeta. split.
  - refine (proj1 (auth_answer_counts_once 0 0 (fun _ => None) sample_query zlen sample_respond L [64; 80] sample_allocs 106 0
      (le_split 4 9 ++ [11]) [] (mk_answer 9 11 []) Hp ltac:(lia) _ eq_refl) _); [reflexivity|].
    intros a v Hin. rewrite Hr in Hin. apply elem_of_cons in Hin as [[= _ ->]|Hin]; [discriminate|].
    apply list_elem_of_singleton in Hin as [= _ ->]. discriminate.
  - assert (Hin : (80, sample_rpc 2 105 4) ∈ requests L [64; 80]) by (rewrite Hr; right; left).
    apply elem_of_nodes in Hin as (_ & v & Hv & Hs). cbn [fst snd] in Hv, Hs.
    destruct (proj2 (auth_answer_counts_once 0 0 (fun _ => None) sample_query zlen sample_respond L [64; 80] sample_allocs 106 0
      (le_split 4 2 ++ [11]) [] (mk_answer 2 11 []) Hp ltac:(lia) ltac:(reflexivity) eq_refl) [64] 80 [] v eq_refl Hv)
      as (L' & He & Hp' & Hr' & _).
    + exact (eq_sym (f_equal rpc_sn Hs)).
    + discriminate.
    + exists L'. split; [exact He|]. split; [exact Hp'|]. cbn [app] in Hr'. rewrite Hr'. change (requests L []) with (@nil (Z * RPC_DATA)).
      assert (Hin : (64, sample_rpc 1 100 3) ∈ requests L [64; 80]) by (rewrite Hr; left).
      apply elem_of_nodes in Hin as (_ & w & Hw & Hws). cbn [fst snd] in Hw, Hws. unfold requests. rewrite (nodes_cons _ _ _ _ Hw).
      now rewrite <- Hws.
Defined.

(** The login request itself. *)
Lemma unauthenticated_confined_witness : exists L L' n,
  sample_step sample_login sample_allocs 100 (EAccept 3) = Ret L /\
  conn_on_message 0 0 (fun _ => None) 3 1 (fun a t sn => Some (le_split 4 sn)) L sample_allocs 101 3 sample_login_request = Ret (L', n) /\
  confined 3 L L'.
Proof.
  assert (Hr : exists L, sample_step sample_login sample_allocs 100 (EAccept 3) = Ret L) by (eexists; vm_compute; reflexivity).
  destruct Hr as [L Hr].
  assert (E : (L ← sample_step sample_login sample_allocs 100 (EAccept 3);
    '(_, n) ← conn_on_message 0 0 (fun _ => None) 3 1 (fun a t sn => Some (le_split 4 sn)) L sample_allocs 101 3 sample_login_request;
    Ret (lg_handler L !! 3, n)) = Ret (Some HAuth, 31)) by (vm_compute; reflexivity).
  rewrite Hr in E. cbn [mbind outcome_bind] in E. inv_bind E. injection E as E1 _. exists L, l, z.
  split; [exact Hr|]. split; [exact E0|].
  apply (unauthenticated_confined _ _ _ _ _ _ _ _ _ _ _ _ _ E0). rewrite E1. discriminate.
Defined.

(** A login request whose account is not a string dereferences a null pointer, before any
    authentication: the array [5, 1, 2, 3]. *)
Lemma login_account_not_string :
  sample_step (set_handler sample_login 3 HAuth) sample_allocs 101 (EMessage 3
    (client_package (mk_client_message C_LOGIN_REQUEST 1
       (array_header 4 ++ integer_bytes amf_integer 5 ++ integer_bytes amf_integer 1 ++
        integer_bytes amf_integer 2 ++ integer_bytes amf_integer 3)))) = Undef.
Proof. vm_compute. reflexivity. Qed.

(** When a serial number is issued again while its request is pending, the old request is freed while it
    is still in the list, which the new one is appended to. *)
Lemma auth_wrap_dangles : exists L rc,
  let ask L rpc := authserver_auth 0 (fun a t sn => Some (le_split 4 sn)) L
    (mk_allocs rpc 0 0 (mk_client 0 0 0 0 0 0 0 0 0 0) [] true (@_agMap_new Z)) 100 3 (chars "ann") (chars "token") [] 7 1 in
  ask sample_login 64 = Ret (L, rc) /\ ask (set_sn L (2 ^ 32)) 80 = Undef.
Proof. eexists _, _. split; [vm_compute; reflexivity|]. vm_compute. reflexivity. Qed.

(** Unloading the module, as a reload does, frees the pending requests, but the connections keep them as
    the context of their handler: the end of such a connection writes into a freed request. *)
Lemma auth_reload_dangles : exists L L', sample_run = Ret L /\ module_authserver_unload L = Ret L' /\
  sample_step L' sample_allocs 103 (EClosed 3) = Undef.
Proof. eexists _, _. split; [vm_compute; reflexivity|]. split; [vm_compute; reflexivity|]. vm_compute. reflexivity. Qed.
