(* ===== verification/Player.v ===== *)
(** * The player cache of the world: [world/player.c]

    A loaded player is a heap structure.  It is in one of the maps [player_online] and
    [player_offline], in the map of names, in the list ordered by last use and, while it is offline,
    in the list of zombies, from which it is unloaded after a quarter of an hour.

    The data of a player belongs to the modules of the table [player_modules].  They are an argument
    here: the class [Modules] has the function pointers of the table, over a type [D] of module data
    and a type [W] of everything outside the cache that they change (the database and its write
    queue).  A null data pointer is [None].  The modules do not call back into the cache. *)
From S2P Require Import Prelude AmfWire AgMap Lrm Dlist.

Definition PLAYER_MODULE_PROPERTY : nat := 0.
Definition PLAYER_MODULE_COUNT : nat := 15.
Definition RESERVED_ID : Z := 1.
Definition YQ_MAX_ZOMBIE_TIME : Z := 15 * 60.

(** [struct Player]: [pl_module] has the data and the update time of each module. *)
Record Player (D : Type) := mk_player {
  pl_prev : Z; pl_next : Z; pl_zprev : Z; pl_znext : Z; pl_zombie_time : Z; pl_conn : Z;
  pl_update_time : Z; pl_last_active : Z; pl_id : Z; pl_name : list Z; pl_loading : Z;
  pl_module : list (option D * Z) }.
Arguments mk_player {D} _ _ _ _ _ _ _ _ _ _ _ _.
Arguments pl_prev {D} _.
Arguments pl_next {D} _.
Arguments pl_zprev {D} _.
Arguments pl_znext {D} _.
Arguments pl_zombie_time {D} _.
Arguments pl_conn {D} _.
Arguments pl_update_time {D} _.
Arguments pl_last_active {D} _.
Arguments pl_id {D} _.
Arguments pl_name {D} _.
Arguments pl_loading {D} _.
Arguments pl_module {D} _.

Section Fields.
Context {D : Type}.
Implicit Type v : Player D.

Definition set_active_links v p n := mk_player p n (pl_zprev v) (pl_znext v) (pl_zombie_time v) (pl_conn v)
  (pl_update_time v) (pl_last_active v) (pl_id v) (pl_name v) (pl_loading v) (pl_module v).
Definition set_zombie_links v p n := mk_player (pl_prev v) (pl_next v) p n (pl_zombie_time v) (pl_conn v)
  (pl_update_time v) (pl_last_active v) (pl_id v) (pl_name v) (pl_loading v) (pl_module v).
Definition set_zombie_time v t := mk_player (pl_prev v) (pl_next v) (pl_zprev v) (pl_znext v) t (pl_conn v)
  (pl_update_time v) (pl_last_active v) (pl_id v) (pl_name v) (pl_loading v) (pl_module v).
Definition set_conn v c := mk_player (pl_prev v) (pl_next v) (pl_zprev v) (pl_znext v) (pl_zombie_time v) c
  (pl_update_time v) (pl_last_active v) (pl_id v) (pl_name v) (pl_loading v) (pl_module v).
Definition set_update_time v t := mk_player (pl_prev v) (pl_next v) (pl_zprev v) (pl_znext v) (pl_zombie_time v)
  (pl_conn v) t (pl_last_active v) (pl_id v) (pl_name v) (pl_loading v) (pl_module v).
Definition set_last_active v t := mk_player (pl_prev v) (pl_next v) (pl_zprev v) (pl_znext v) (pl_zombie_time v)
  (pl_conn v) (pl_update_time v) t (pl_id v) (pl_name v) (pl_loading v) (pl_module v).
Definition set_name v s := mk_player (pl_prev v) (pl_next v) (pl_zprev v) (pl_znext v) (pl_zombie_time v)
  (pl_conn v) (pl_update_time v) (pl_last_active v) (pl_id v) s (pl_loading v) (pl_module v).
Definition set_loading v b := mk_player (pl_prev v) (pl_next v) (pl_zprev v) (pl_znext v) (pl_zombie_time v)
  (pl_conn v) (pl_update_time v) (pl_last_active v) (pl_id v) (pl_name v) b (pl_module v).
Definition set_module v (m : nat) x := mk_player (pl_prev v) (pl_next v) (pl_zprev v) (pl_znext v) (pl_zombie_time v)
  (pl_conn v) (pl_update_time v) (pl_last_active v) (pl_id v) (pl_name v) (pl_loading v) (<[m := x]> (pl_module v)).

(** The two lists a player is linked in: [prev]/[next] and [zombie.prev]/[zombie.next]. *)
Definition active_links : Linked (Player D) := {|
  l_prev := pl_prev;
  l_next := pl_next;
  set_prev v a := set_active_links v a (pl_next v);
  set_next v a := set_active_links v (pl_prev v) a |}.
Definition zombie_links : Linked (Player D) := {|
  l_prev := pl_zprev;
  l_next := pl_znext;
  set_prev v a := set_zombie_links v a (pl_znext v);
  set_next v a := set_zombie_links v (pl_zprev v) a |}.

(** [memset(player, 0, sizeof(Player))] and the id. *)
Definition new_player (id : Z) : Player D :=
  mk_player 0 0 0 0 0 0 0 0 id (repeat 0 32) 0 (repeat (None, 0) PLAYER_MODULE_COUNT).
End Fields.

(** The pointers of [player_modules], all of them set, and what player.c uses of the data of the
    property module.  The first argument is the index of the module. *)
Class Modules (D W : Type) := {
  module_new : nat -> Player D -> W -> outcome (W * option D);
  module_load : nat -> Player D -> W -> outcome (W * option D);
  module_update : nat -> Player D -> D -> Z -> W -> outcome (W * D);
  module_save : nat -> Player D -> D -> W -> outcome W;
  module_release : nat -> Player D -> D -> W -> outcome W;
  data_flush : W -> outcome W;
  property_name : D -> list Z;
  property_set_head : D -> Z -> D;
  (** [select pid from property where name = ...]: [None] when the query fails. *)
  query_pid_by_name : W -> list Z -> option (option Z) }.

(** [strncpy] of a string into [name], which has 32 bytes. *)
Definition strncpy_name (s : list Z) : list Z := take 32 (s ++ repeat 0 32).

(** The string in [name]; reading it is undefined when it is not terminated. *)
Definition name_string (name : list Z) : outcome (list Z) :=
  n ← strlen name; Ret (take (Z.to_nat n) name).

(** ** One player and its modules *)

Section Modules.
Context {D W : Type} `{Modules D W}.
#[local] Abbreviation player := (Player D).

(** [_player_load_module]: the world, the player and the data; a failed load leaves [loading]. *)
Definition _player_load_module (w : W) (v : player) (m : nat) : outcome (W * player * option D) :=
  let v := set_loading v 1 in
  '(w, data) ← module_load m v w;
  _ ← deref (pl_module v !! m);
  match data with
  | None => Ret (w, set_module v m (None, snd (default (None, 0) (pl_module v !! m))), None)
  | Some d => Ret (w, set_loading (set_module v m (Some d, 0)) 0, Some d)
  end.

Definition _player_update_module (w : W) (v : player) (m : nat) (now : Z) : outcome (W * player) :=
  '(data, update_time) ← deref (pl_module v !! m);
  _ ← c_assert (update_time <=? now);
  if update_time =? now then Ret (w, v)
  else
    let v := set_module v m (data, now) in
    d ← deref data;
    '(w, d) ← module_update m v d now w;
    Ret (w, set_module v m (Some d, now)).

(** [player_get_module] with [agT_current()] = [now]. *)
Definition player_get_module (w : W) (v : player) (m : nat) (now : Z) : outcome (W * player * option D) :=
  _ ← c_assert (bool_decide (m < PLAYER_MODULE_COUNT)%nat);
  '(data, _) ← deref (pl_module v !! m);
  '(w, v, data) ← (match data with Some d => Ret (w, v, Some d) | None => _player_load_module w v m end);
  match data with
  | None => Ret (w, v, None)
  | Some _ =>
    let v := set_update_time v now in
    '(w, v) ← _player_update_module w v m now;
    '(data, _) ← deref (pl_module v !! m);
    Ret (w, v, data)
  end.

Definition player_get_property (w : W) (v : player) (now : Z) : outcome (W * player * option D) :=
  player_get_module w v PLAYER_MODULE_PROPERTY now.

Definition afterLoad (w : W) (v : player) (now : Z) : outcome (W * player) :=
  '(w, v, property) ← player_get_module w v PLAYER_MODULE_PROPERTY now;
  d ← deref property;
  Ret (w, set_update_time (set_name v (strncpy_name (property_name d))) 0).

(** The loop of [_player_release]. *)
Fixpoint release_modules (w : W) (v : player) (i : nat) (l : list (option D * Z)) : outcome W :=
  match l with
  | [] => Ret w
  | (data, _) :: l' =>
    w ← (match data with Some d => module_release i v d w | None => Ret w end);
    release_modules w v (S i) l'
  end.

Definition _player_release (w : W) (v : player) : outcome W :=
  w ← data_flush w; release_modules w v 0 (pl_module v).

(** The loop of [_player_load]; [false] when a module is missing. *)
Fixpoint load_modules (w : W) (v : player) (ms : list nat) : outcome (W * player * bool) :=
  match ms with
  | [] => Ret (w, v, true)
  | m :: ms' =>
    '(w, v, data) ← _player_load_module w v m;
    match data with
    | None => w ← _player_release w v; Ret (w, v, false)
    | Some d => load_modules w (set_module v m (Some d, 0)) ms'
    end
  end.

Definition _player_load (w : W) (v : player) (now : Z) : outcome (W * option player) :=
  '(w, v, ok) ← load_modules w (set_loading v 1) (seq 0 PLAYER_MODULE_COUNT);
  if (ok : bool) then '(w, v) ← afterLoad w v now; Ret (w, Some (set_loading v 0)) else Ret (w, None).

(** What the cache loads: the property module; the others are loaded when they are used. *)
Definition _player_load_sample (w : W) (v : player) (now : Z) : outcome (W * option player) :=
  '(w, v, property) ← _player_load_module w (set_loading v 1) PLAYER_MODULE_PROPERTY;
  match property with
  | None => Ret (w, None)
  | Some _ => '(w, v) ← afterLoad w v now; Ret (w, Some (set_loading v 0))
  end.

Fixpoint update_modules (w : W) (v : player) (now : Z) (ms : list nat) : outcome (W * player) :=
  match ms with
  | [] => Ret (w, v)
  | m :: ms' => '(w, v) ← _player_update_module w v m now; update_modules w v now ms'
  end.

Definition _player_update_modules (w : W) (v : player) (now : Z) : outcome (W * player) :=
  update_modules w (set_update_time v now) now (seq 0 PLAYER_MODULE_COUNT).

Fixpoint save_modules (w : W) (v : player) (i : nat) (l : list (option D * Z)) : outcome W :=
  match l with
  | [] => Ret w
  | (data, _) :: l' => d ← deref data; w ← module_save i v d w; save_modules w v (S i) l'
  end.

Definition _player_save (w : W) (v : player) : outcome W := save_modules w v 0 (pl_module v).

(** The first loop of [_player_create]. *)
Fixpoint new_modules (w : W) (v : player) (head : Z) (ms : list nat) : outcome (W * player * bool) :=
  match ms with
  | [] => Ret (w, v, true)
  | m :: ms' =>
    '(w, data) ← module_new m v w;
    '(_, t) ← deref (pl_module v !! m);
    match data with
    | None => w ← _player_release w (set_module v m (None, t)); Ret (w, v, false)
    | Some d =>
      let d := if (m =? PLAYER_MODULE_PROPERTY)%nat then property_set_head d head else d in
      new_modules w (set_module v m (Some d, t)) head ms'
    end
  end.

Definition _player_create (w : W) (v : player) (head now : Z) : outcome (W * option player) :=
  if 0x1fffffff <? u32 (pl_id v) then Ret (w, None)
  else
    '(w, v, ok) ← new_modules w (set_loading v 1) head (seq 0 PLAYER_MODULE_COUNT);
    if (ok : bool) then
      '(w, v) ← _player_update_modules w v now;
      w ← _player_save w v;
      Ret (w, Some (set_loading v 0))
    else Ret (w, None).

(** [player_get_name]: the name of the loaded player, from its property when there is one; a flag
    tells whether it is the array [name] of the player itself. *)
Definition player_get_name (w : W) (v : player) (now : Z) : outcome (W * player * list Z * bool) :=
  if negb (pl_loading v =? 0) then s ← name_string (pl_name v); Ret (w, v, s, true)
  else
    '(w, v, property) ← player_get_property w v now;
    match property with
    | Some d => Ret (w, v, property_name d, false)
    | None => s ← name_string (pl_name v); Ret (w, v, s, true)
    end.
End Modules.

(** ** The manager *)

(** The variables of the file; [None] is a null map. *)
Record PlayerManager (D W M : Type) := mk_cache {
  c_world : W; c_heap : gmap Z (Player D); player_not_exist : M; player_online : M; player_offline : M;
  player_names : agmap (list Z); player_zombie_list : Z; player_zombie_table : option M;
  player_active_list : Z }.
Arguments mk_cache {D W M} _ _ _ _ _ _ _ _ _.
Arguments c_world {D W M} _.
Arguments c_heap {D W M} _.
Arguments player_not_exist {D W M} _.
Arguments player_online {D W M} _.
Arguments player_offline {D W M} _.
Arguments player_names {D W M} _.
Arguments player_zombie_list {D W M} _.
Arguments player_zombie_table {D W M} _.
Arguments player_active_list {D W M} _.

Section Manager.
Context {D W : Type} `{Modules D W} {M : Type} `{PtrMap M} (map_new : M).
#[local] Abbreviation player := (Player D).
#[local] Abbreviation cache := (PlayerManager D W M).

Definition with_world (c : cache) w : cache := mk_cache w (c_heap c) (player_not_exist c) (player_online c)
  (player_offline c) (player_names c) (player_zombie_list c) (player_zombie_table c) (player_active_list c).
Definition with_heap (c : cache) h : cache := mk_cache (c_world c) h (player_not_exist c) (player_online c)
  (player_offline c) (player_names c) (player_zombie_list c) (player_zombie_table c) (player_active_list c).
Definition with_not_exist (c : cache) m : cache := mk_cache (c_world c) (c_heap c) m (player_online c)
  (player_offline c) (player_names c) (player_zombie_list c) (player_zombie_table c) (player_active_list c).
Definition with_online (c : cache) m : cache := mk_cache (c_world c) (c_heap c) (player_not_exist c) m
  (player_offline c) (player_names c) (player_zombie_list c) (player_zombie_table c) (player_active_list c).
Definition with_offline (c : cache) m : cache := mk_cache (c_world c) (c_heap c) (player_not_exist c) (player_online c)
  m (player_names c) (player_zombie_list c) (player_zombie_table c) (player_active_list c).
Definition with_names (c : cache) m : cache := mk_cache (c_world c) (c_heap c) (player_not_exist c) (player_online c)
  (player_offline c) m (player_zombie_list c) (player_zombie_table c) (player_active_list c).
Definition with_zombies (c : cache) h q t : cache := mk_cache (c_world c) h (player_not_exist c) (player_online c)
  (player_offline c) (player_names c) q t (player_active_list c).
Definition with_active (c : cache) h q : cache := mk_cache (c_world c) h (player_not_exist c) (player_online c)
  (player_offline c) (player_names c) (player_zombie_list c) (player_zombie_table c) q.

(** The list macros with the field names [prev]/[next], and the [_with] ones with [zombie]. *)
Definition remove_active : gmap Z player -> Z -> Z -> outcome (gmap Z player * Z) := dlist_remove (H := active_links).
Definition append_active : gmap Z player -> Z -> Z -> outcome (gmap Z player * Z) := dlist_insert_tail (H := active_links).
Definition remove_zombie : gmap Z player -> Z -> Z -> outcome (gmap Z player * Z) := dlist_remove (H := zombie_links).
Definition append_zombie : gmap Z player -> Z -> Z -> outcome (gmap Z player * Z) := dlist_insert_tail (H := zombie_links).
Definition init_zombie : gmap Z player -> Z -> outcome (gmap Z player) := dlist_init (H := zombie_links).

(** [agPM_init]: four new maps (allocation succeeds). *)
Definition agPM_init (w : W) : cache := mk_cache w ∅ map_new map_new map_new _agMap_new 0 None 0.

Definition _update_player_active_list (c : cache) (p now : Z) : outcome (cache * Z) :=
  if p =? 0 then Ret (c, p)
  else
    v ← deref (c_heap c !! p);
    '(h, q) ← (if negb (pl_next v =? 0) then remove_active (c_heap c) (player_active_list c) p
               else Ret (c_heap c, player_active_list c));
    v ← deref (h !! p);
    '(h, q) ← append_active (<[p := set_last_active v now]> h) q p;
    Ret (with_active c h q, p).

Definition try_add_player_to_zombie_list (c : cache) (p now : Z) : outcome cache :=
  if p =? 0 then Ret c
  else
    '(h, q) ← remove_zombie (c_heap c) (player_zombie_list c) p;
    h ← init_zombie h p;
    '(h, q) ← append_zombie h q p;
    v ← deref (h !! p);
    let h := <[p := set_zombie_time v now]> h in
    let t := match player_zombie_table c with Some t => t | None => map_new end in
    '(t, _) ← pm_set t (pl_id v) p;
    Ret (with_zombies c h q (Some t)).

Definition try_remove_player_from_zombie_list (c : cache) (p : Z) : outcome cache :=
  if (p =? 0) || (player_zombie_list c =? 0) then Ret c
  else
    v ← deref (c_heap c !! p);
    t ← (match player_zombie_table c with
         | Some t => '(t, _) ← pm_set t (pl_id v) 0; Ret (Some t)
         | None => Ret None
         end);
    '(h, q) ← remove_zombie (c_heap c) (player_zombie_list c) p;
    h ← init_zombie h p;
    Ret (with_zombies c h q t).

Definition get_player_from_zombie_list (c : cache) (pid : Z) : outcome Z :=
  match player_zombie_table c with None => Ret 0 | Some t => pm_get t pid end.

Definition agPM_GetOnline (c : cache) (id now : Z) : outcome (cache * Z) :=
  p ← pm_get (player_online c) id;
  c ← try_remove_player_from_zombie_list c p;
  _update_player_active_list c p now.

Definition agPM_SetOnline (c : cache) (p conn : Z) : outcome cache :=
  if p =? 0 then Ret c
  else
    v ← deref (c_heap c !! p);
    c ← (if pl_conn v =? INVALID_ID then
           '(m, _) ← pm_set (player_online c) (pl_id v) p;
           '(m', _) ← pm_set (player_offline c) (pl_id v) 0;
           Ret (with_offline (with_online c m) m')
         else Ret c);
    let c := with_heap c (<[p := set_conn v conn]> (c_heap c)) in
    try_remove_player_from_zombie_list c p.

(** The parameter of [agPM_SetOffline] is an [unsigned int]. *)
Definition agPM_SetOffline (c : cache) (id now : Z) : outcome cache :=
  let id := u32 id in
  '(c, p) ← agPM_GetOnline c id now;
  if p =? 0 then Ret c
  else
    v ← deref (c_heap c !! p);
    _ ← c_assert (negb (pl_conn v =? INVALID_ID));
    '(m, _) ← pm_set (player_offline c) (pl_id v) p;
    '(m', _) ← pm_set (player_online c) (pl_id v) 0;
    let c := with_offline (with_online c m') m in
    let c := with_heap c (<[p := set_conn v INVALID_ID]> (c_heap c)) in
    try_add_player_to_zombie_list c p now.

(** The end of [agPM_Get] and [agPM_Create]: the loaded player at [p] enters the cache as offline. *)
Definition agPM_enter (c : cache) (p now : Z) : outcome cache :=
  c ← try_add_player_to_zombie_list c p now;
  v ← deref (c_heap c !! p);
  let c := with_heap c (<[p := set_conn v INVALID_ID]> (c_heap c)) in
  '(m, _) ← pm_set (player_offline c) (pl_id v) p;
  s ← name_string (pl_name v);
  '(ns, _) ← _agMap_sp_set (player_names c) s p;
  Ret (with_names (with_offline c m) ns).

(** [agPM_Create] when [malloc] answers [a]. *)
Definition agPM_Create (c : cache) (a id : Z) (name : list Z) (head now : Z) : outcome (cache * Z) :=
  if id <? RESERVED_ID then Ret (c, 0)
  else if a =? 0 then Ret (c, 0)
  else
    '(w, r) ← _player_create (c_world c) (set_name (new_player id) (strncpy_name name)) head now;
    let c := with_world c w in
    match r with
    | None => Ret (c, 0)
    | Some v =>
      c ← agPM_enter (with_heap c (<[a := v]> (c_heap c))) a now;
      v ← deref (c_heap c !! a);
      '(ne, _) ← pm_set (player_not_exist c) (pl_id v) 0;
      _update_player_active_list (with_not_exist c ne) a now
    end.

(** [agPM_Get] when [malloc] answers [a]. *)
Definition agPM_Get (c : cache) (a id now : Z) : outcome (cache * Z) :=
  if id <? RESERVED_ID then Ret (c, 0)
  else
    p ← pm_get (player_online c) id;
    if negb (p =? 0) then
      c ← try_remove_player_from_zombie_list c p;
      _update_player_active_list c p now
    else
      p ← pm_get (player_offline c) id;
      if negb (p =? 0) then
        c ← try_add_player_to_zombie_list c p now;
        _update_player_active_list c p now
      else
        t ← pm_get (player_not_exist c) id;
        if now <=? t + 5 then Ret (c, 0)
        else
          '(ne, _) ← pm_set (player_not_exist c) id 0;
          let c := with_not_exist c ne in
          if a =? 0 then Ret (c, 0)
          else
            '(w, r) ← _player_load_sample (c_world c) (new_player id) now;
            let c := with_world c w in
            match r with
            | None =>
              '(ne, _) ← pm_set (player_not_exist c) id now;
              Ret (with_not_exist c ne, 0)
            | Some v =>
              c ← agPM_enter (with_heap c (<[a := v]> (c_heap c))) a now;
              _update_player_active_list c a now
            end.

Definition player_is_not_exist (c : cache) (id : Z) : outcome bool :=
  p ← pm_get (player_not_exist c) id; Ret (negb (p =? 0)).

(** [agPM_GetIDByName]: 0 when there is none or the query fails. *)
Definition agPM_GetIDByName (c : cache) (name : list Z) : outcome Z :=
  p ← _agMap_sp_get (player_names c) name;
  if negb (p =? 0) then v ← deref (c_heap c !! p); Ret (pl_id v)
  else
    Ret match query_pid_by_name (c_world c) name with
        | Some (Some pid) => u64 pid
        | _ => 0
        end.

Definition agPM_ChangeNameRecord (c : cache) (old_name : list Z) (now : Z) : outcome cache :=
  p ← _agMap_sp_get (player_names c) old_name;
  if p =? 0 then Ret c
  else
    '(ns, _) ← _agMap_sp_set (player_names c) old_name 0;
    v ← deref (c_heap c !! p);
    '(w, v, name, own) ← player_get_name (c_world c) v now;
    let v := if (own : bool) then v else set_name v (strncpy_name name) in
    s ← name_string (pl_name v);
    '(ns, _) ← _agMap_sp_set ns s p;
    Ret (with_names (with_heap (with_world c w) (<[p := v]> (c_heap c))) ns).

Definition agPM_Release (c : cache) (p : Z) : outcome cache :=
  v ← deref (c_heap c !! p);
  c ← (if pl_conn v =? INVALID_ID
       then '(m, _) ← pm_set (player_offline c) (pl_id v) 0; Ret (with_offline c m)
       else '(m, _) ← pm_set (player_online c) (pl_id v) 0; Ret (with_online c m));
  s ← name_string (pl_name v);
  '(ns, _) ← _agMap_sp_set (player_names c) s 0;
  w ← _player_release (c_world c) v;
  let c := with_world (with_names c ns) w in
  _ ← c_assert (negb (pl_next v =? 0));
  '(h, q) ← remove_active (c_heap c) (player_active_list c) p;
  c ← try_remove_player_from_zombie_list (with_active c h q) p;
  Ret (with_heap c (delete p (c_heap c))).

(** [try_unload_player_from_zombie_list]: the loop; [player_unload] is [agPM_Release]. *)
Fixpoint try_unload_player_from_zombie_list (fuel : nat) (c : cache) (now : Z) : outcome cache :=
  if player_zombie_list c =? 0 then Ret c
  else
    let cr := player_zombie_list c in
    v ← deref (c_heap c !! cr);
    if now - pl_zombie_time v <=? YQ_MAX_ZOMBIE_TIME then Ret c
    else
      match fuel with
      | O => NoFuel
      | S fuel' =>
        c ← try_remove_player_from_zombie_list c cr;
        c ← agPM_Release c cr;
        try_unload_player_from_zombie_list fuel' c now
      end.

(** [agPM_free]'s loop, which releases every player. *)
Fixpoint agPM_free (fuel : nat) (c : cache) : outcome cache :=
  if player_active_list c =? 0 then Ret c
  else
    match fuel with
    | O => NoFuel
    | S fuel' => c ← agPM_Release c (player_active_list c); agPM_free fuel' c
    end.

(** *** The interface of [player.h] *)

Definition player_get (c : cache) (a id now : Z) : outcome (cache * Z) := agPM_Get c a id now.
Definition player_get_online (c : cache) (id now : Z) : outcome (cache * Z) := agPM_GetOnline c id now.
Definition player_unload (c : cache) (p : Z) : outcome cache := agPM_Release c p.

Definition player_create (c : cache) (a1 a2 id : Z) (name : list Z) (head now : Z) : outcome (cache * Z) :=
  '(c, p) ← agPM_Get c a1 id now;
  if negb (p =? 0) then Ret (c, 0) else agPM_Create c a2 id name head now.

Definition player_set_conn (c : cache) (a playerid conn now : Z) : outcome cache :=
  if conn =? INVALID_ID then agPM_SetOffline c playerid now
  else
    '(c, p) ← player_get c a playerid now;
    if p =? 0 then Ret c else agPM_SetOnline c p conn.

Definition player_get_conn (c : cache) (playerid now : Z) : outcome (cache * Z) :=
  '(c, p) ← agPM_GetOnline c playerid now;
  if p =? 0 then Ret (c, INVALID_ID) else v ← deref (c_heap c !! p); Ret (c, pl_conn v).

(** [player_get_module] on the player at [p]. *)
Definition player_module (c : cache) (p : Z) (m : nat) (now : Z) : outcome (cache * option D) :=
  v ← deref (c_heap c !! p);
  '(w, v, data) ← player_get_module (c_world c) v m now;
  Ret (with_heap (with_world c w) (<[p := v]> (c_heap c)), data).
End Manager.
