(* ===== verification/PlayerLemmas.v ===== *)
(** * Lemmas on the player cache

    The two intrusive lists of [Player] as queues of one heap, and the functions that work on a single
    player: loading, creating and updating its modules. *)
From S2P Require Import Prelude AmfWire AgMap Lrm Dlist Keyed Player.
From Stdlib Require Import Sorted.

(** ** The links *)

Section Links.
Context {D : Type}.
#[local] Abbreviation player := (Player D).

Lemma active_laws : @LinkedLaws player active_links.
Proof. split; intros []; reflexivity. Qed.
Lemma zombie_laws : @LinkedLaws player zombie_links.
Proof. split; intros []; reflexivity. Qed.

(** A player without its links. *)
Definition bare (v : player) : player := set_zombie_links (set_active_links v 0 0) 0 0.

(** The links of one list with everything else. *)
Definition a_strip : gmap Z player -> gmap Z player := strip (H := active_links).
Definition z_strip : gmap Z player -> gmap Z player := strip (H := zombie_links).
Definition a_ring : gmap Z player -> Z -> list Z -> Prop := ring (H := active_links).
Definition z_ring : gmap Z player -> Z -> list Z -> Prop := ring (H := zombie_links).

Lemma a_strip_lookup (h : gmap Z player) a : a_strip h !! a = (fun v => set_active_links v 0 0) <$> h !! a.
Proof. unfold a_strip, strip. rewrite lookup_fmap. now destruct (h !! a) as [[]|]. Qed.
Lemma z_strip_lookup (h : gmap Z player) a : z_strip h !! a = (fun v => set_zombie_links v 0 0) <$> h !! a.
Proof. unfold z_strip, strip. rewrite lookup_fmap. now destruct (h !! a) as [[]|]. Qed.

(** What a change of the active links keeps. *)
Lemma a_same (h h' : gmap Z player) a v :
  a_strip h' = a_strip h -> h !! a = Some v -> exists v', h' !! a = Some v' /\
    pl_zprev v' = pl_zprev v /\ pl_znext v' = pl_znext v /\ set_active_links v' 0 0 = set_active_links v 0 0 /\ bare v' = bare v.
Proof.
  intros Hs Hv. pose proof (f_equal (lookup a) Hs) as E. rewrite !a_strip_lookup, Hv in E.
  destruct (h' !! a) as [v'|]; [|discriminate]. apply (inj Some) in E. exists v'. split; [reflexivity|].
  split; [|split; [|split; [exact E|]]]; destruct v, v'; cbn in E |- *; injection E; intros; subst; reflexivity.
Qed.
Lemma z_same (h h' : gmap Z player) a v :
  z_strip h' = z_strip h -> h !! a = Some v -> exists v', h' !! a = Some v' /\
    pl_prev v' = pl_prev v /\ pl_next v' = pl_next v /\ set_zombie_links v' 0 0 = set_zombie_links v 0 0 /\ bare v' = bare v.
Proof.
  intros Hs Hv. pose proof (f_equal (lookup a) Hs) as E. rewrite !z_strip_lookup, Hv in E.
  destruct (h' !! a) as [v'|]; [|discriminate]. apply (inj Some) in E. exists v'. split; [reflexivity|].
  split; [|split; [|split; [exact E|]]]; destruct v, v'; cbn in E |- *; injection E; intros; subst; reflexivity.
Qed.
Lemma a_gone (h h' : gmap Z player) a : a_strip h' = a_strip h -> h !! a = None -> h' !! a = None.
Proof.
  intros Hs Hv. pose proof (f_equal (lookup a) Hs) as E. rewrite !a_strip_lookup, Hv in E. now destruct (h' !! a).
Qed.
Lemma z_gone (h h' : gmap Z player) a : z_strip h' = z_strip h -> h !! a = None -> h' !! a = None.
Proof.
  intros Hs Hv. pose proof (f_equal (lookup a) Hs) as E. rewrite !z_strip_lookup, Hv in E. now destruct (h' !! a).
Qed.

Lemma a_bare (h h' : gmap Z player) : a_strip h' = a_strip h -> bare <$> h' = bare <$> h.
Proof.
  intros Hs. apply map_eq. intros a. rewrite !lookup_fmap. destruct (h !! a) as [v|] eqn:E.
  - destruct (a_same _ _ _ _ Hs E) as (v' & -> & _ & _ & _ & Hb). cbn. now rewrite Hb.
  - now rewrite (a_gone _ _ _ Hs E).
Qed.
Lemma z_bare (h h' : gmap Z player) : z_strip h' = z_strip h -> bare <$> h' = bare <$> h.
Proof.
  intros Hs. apply map_eq. intros a. rewrite !lookup_fmap. destruct (h !! a) as [v|] eqn:E.
  - destruct (z_same _ _ _ _ Hs E) as (v' & -> & _ & _ & _ & Hb). cbn. now rewrite Hb.
  - now rewrite (z_gone _ _ _ Hs E).
Qed.

(** The list in its links, and no stray links. *)
Definition a_queue (h : gmap Z player) (q : Z) (l : list Z) : Prop := queue_in (H := active_links) h q l.
Definition z_queue (h : gmap Z player) (q : Z) (l : list Z) : Prop := queue_in (H := zombie_links) h q l.

(** A queue depends on its own links only. *)
Lemma a_queue_frame (h h' : gmap Z player) q l :
  a_queue h q l -> (forall a, (fun v => (pl_prev v, pl_next v)) <$> h' !! a = (fun v => (pl_prev v, pl_next v)) <$> h !! a) ->
  a_queue h' q l.
Proof.
  intros Hq Hf. apply (queue_frame (H := active_links) h); [exact Hq|]. intros a. specialize (Hf a). unfold nx, pv.
  destruct (h' !! a) as [x|], (h !! a) as [y|]; cbn in Hf |- *; [|discriminate|discriminate|auto].
  injection Hf as -> ->. auto.
Qed.
Lemma z_queue_frame (h h' : gmap Z player) q l :
  z_queue h q l -> (forall a, (fun v => (pl_zprev v, pl_znext v)) <$> h' !! a = (fun v => (pl_zprev v, pl_znext v)) <$> h !! a) ->
  z_queue h' q l.
Proof.
  intros Hq Hf. apply (queue_frame (H := zombie_links) h); [exact Hq|]. intros a. specialize (Hf a). unfold nx, pv.
  destruct (h' !! a) as [x|], (h !! a) as [y|]; cbn in Hf |- *; [|discriminate|discriminate|auto].
  injection Hf as -> ->. auto.
Qed.

(** Changes of one list leave the other alone. *)
Lemma z_queue_a (h h' : gmap Z player) q l : a_strip h' = a_strip h -> z_queue h q l -> z_queue h' q l.
Proof.
  intros Hs Hq. apply (z_queue_frame h); [exact Hq|]. intros a. destruct (h !! a) as [v|] eqn:E.
  - destruct (a_same _ _ _ _ Hs E) as (v' & -> & Hp & Hn & _). cbn. now rewrite Hp, Hn.
  - now rewrite (a_gone _ _ _ Hs E).
Qed.
Lemma a_queue_z (h h' : gmap Z player) q l : z_strip h' = z_strip h -> a_queue h q l -> a_queue h' q l.
Proof.
  intros Hs Hq. apply (a_queue_frame h); [exact Hq|]. intros a. destruct (h !! a) as [v|] eqn:E.
  - destruct (z_same _ _ _ _ Hs E) as (v' & -> & Hp & Hn & _). cbn. now rewrite Hp, Hn.
  - now rewrite (z_gone _ _ _ Hs E).
Qed.
End Links.

(** ** The list operations of the cache *)

Section Lists.
Context {D W : Type} `{Modules D W} {M : Type} `{PtrMapLaws M}.
#[local] Abbreviation player := (Player D).
#[local] Abbreviation cache := (PlayerManager D W M).

(** The players, without their links. *)
Definition players (c : cache) : gmap Z player := bare <$> c_heap c.

(** The active list holds [al], the zombie list [zl]. *)
Definition lists_ok (c : cache) (al zl : list Z) : Prop :=
  a_queue (c_heap c) (player_active_list c) al /\ z_queue (c_heap c) (player_zombie_list c) zl.

Definition zombie_abs (c : cache) : gmap Z Z := match player_zombie_table c with Some t => pm_abs t | None => ∅ end.
Definition zombie_map_ok (c : cache) : Prop := match player_zombie_table c with Some t => pm_ok t | None => True end.

Lemma bare_last_active (v : player) t : bare (set_last_active v t) = set_last_active (bare v) t.
Proof. now destruct v. Qed.
Lemma bare_zombie_time (v : player) t : bare (set_zombie_time v t) = set_zombie_time (bare v) t.
Proof. now destruct v. Qed.
Lemma bare_conn (v : player) t : bare (set_conn v t) = set_conn (bare v) t.
Proof. now destruct v. Qed.

Lemma players_lookup (c : cache) a v : players c !! a = Some v <-> exists w, c_heap c !! a = Some w /\ bare w = v.
Proof.
  unfold players. rewrite lookup_fmap. destruct (c_heap c !! a) as [w|]; cbn; split.
  - intros [= <-]. eauto.
  - intros (w' & [= <-] & <-). reflexivity.
  - discriminate.
  - intros (w' & E & _). discriminate.
Qed.

(** Writing fields that are not links. *)
Lemma a_queue_write (h : gmap Z player) q l a v v' :
  a_queue h q l -> h !! a = Some v -> pl_prev v' = pl_prev v -> pl_next v' = pl_next v -> a_queue (<[a := v']> h) q l.
Proof.
  intros Hq Hv Hp Hn. apply (a_queue_frame h); [exact Hq|]. intros b. destruct (decide (b = a)) as [->|Hne].
  - rewrite lookup_insert_eq, Hv. cbn. now rewrite Hp, Hn.
  - now rewrite lookup_insert_ne by congruence.
Qed.
Lemma z_queue_write (h : gmap Z player) q l a v v' :
  z_queue h q l -> h !! a = Some v -> pl_zprev v' = pl_zprev v -> pl_znext v' = pl_znext v -> z_queue (<[a := v']> h) q l.
Proof.
  intros Hq Hv Hp Hn. apply (z_queue_frame h); [exact Hq|]. intros b. destruct (decide (b = a)) as [->|Hne].
  - rewrite lookup_insert_eq, Hv. cbn. now rewrite Hp, Hn.
  - now rewrite lookup_insert_ne by congruence.
Qed.

Lemma update_active_spec (c : cache) p al zl v now :
  lists_ok c al zl -> p <> 0 -> c_heap c !! p = Some v ->
  exists h q, _update_player_active_list c p now = Ret (with_active c h q, p) /\
    lists_ok (with_active c h q) (touch p al) zl /\
    bare <$> h = <[p := set_last_active (bare v) now]> (players c).
Proof.
  intros [Ha Hz] Hp Hv. unfold _update_player_active_list. destruct (Z.eqb_spec p 0); [contradiction|].
  rewrite Hv. cbn [deref mbind outcome_bind].
  assert (Hrem : exists h q, (if negb (pl_next v =? 0) then remove_active (c_heap c) (player_active_list c) p
      else Ret (c_heap c, player_active_list c)) = Ret (h, q) /\ a_queue h q (without p al) /\ a_strip h = a_strip (c_heap c)).
  { destruct (Z.eqb_spec (pl_next v) 0) as [E|E]; cbn [negb].
    - exists (c_heap c), (player_active_list c). split; [reflexivity|]. split; [|reflexivity].
      unfold without. rewrite filter_absent; [exact Ha|]. intros Hin. destruct Ha as [Hr _].
      destruct (ring_node _ _ _ _ Hr Hin) as (x & y & Hn & _ & _ & Hy). unfold nx in Hn. rewrite Hv in Hn.
      cbn in Hn. injection Hn as Hn. apply (ring_null _ _ _ Hr). congruence.
    - destruct (queue_remove (H0 := active_laws) _ _ _ p Ha Hp (ex_intro _ _ Hv)) as (h & q & He & Hq & _ & Hs). eauto. }
  destruct Hrem as (h1 & q1 & -> & Hq1 & Hs1). cbn [mbind outcome_bind].
  destruct (a_same _ _ _ _ Hs1 Hv) as (v1 & Hv1 & _ & _ & _ & Hb1). rewrite Hv1. cbn [deref mbind outcome_bind].
  set (h2 := <[p := set_last_active v1 now]> h1).
  assert (Hq2 : a_queue h2 q1 (without p al)) by (apply (a_queue_write h1 _ _ p v1); auto).
  assert (Hz2 : z_queue h2 (player_zombie_list c) zl).
  { apply (z_queue_write h1 _ _ p v1); auto. now apply (z_queue_a (c_heap c)). }
  destruct (queue_append (H0 := active_laws) h2 q1 (without p al) p Hq2) as (h3 & q3 & He & Hq3 & Hs3).
  { rewrite elem_of_without. tauto. }
  { exact Hp. }
  { unfold h2. rewrite lookup_insert_eq. eauto. }
  unfold append_active. rewrite He. cbn [mbind outcome_bind]. exists h3, q3. split; [reflexivity|]. split.
  - split; [exact Hq3|]. cbn. now apply (z_queue_a h2).
  - rewrite (a_bare h2 h3) by exact Hs3. unfold h2, players. rewrite fmap_insert, bare_last_active, Hb1. f_equal. now apply a_bare.
Qed.

Lemma remove_zombie_spec (c : cache) p al zl v :
  lists_ok c al zl -> p <> 0 -> c_heap c !! p = Some v -> zombie_map_ok c -> Z.of_nat (size (zombie_abs c)) < 2 ^ 61 ->
  (zl = [] -> zombie_abs c = ∅) ->
  exists h q t, try_remove_player_from_zombie_list c p = Ret (with_zombies c h q t) /\
    lists_ok (with_zombies c h q t) al (without p zl) /\ bare <$> h = players c /\
    zombie_map_ok (with_zombies c h q t) /\ zombie_abs (with_zombies c h q t) = delete (pl_id v) (zombie_abs c).
Proof.
  intros [Ha Hz] Hp Hv Hm Hsize Hnil. unfold try_remove_player_from_zombie_list. destruct (Z.eqb_spec p 0); [contradiction|].
  cbn [orb]. destruct (Z.eqb_spec (player_zombie_list c) 0) as [E|E].
  { exists (c_heap c), (player_zombie_list c), (player_zombie_table c).
    assert (zl = []) as ->.
    { destruct Hz as [Hr _]. pose proof (ring_head _ _ _ Hr) as Hh. destruct zl as [|x l]; [reflexivity|].
      destruct (ring_null _ _ _ Hr). cbn in Hh. rewrite <- E, Hh. left. }
    split; [now destruct c|]. split; [now split|]. split; [reflexivity|]. split; [exact Hm|].
    unfold zombie_abs in *. cbn. rewrite (Hnil eq_refl). now rewrite delete_empty. }
  rewrite Hv. cbn [deref mbind outcome_bind].
  assert (Ht : exists t, (match player_zombie_table c with
      | Some t => '(t, _) ← pm_set t (pl_id v) 0; Ret (Some t) | None => Ret None end) = Ret t /\
      (match t with Some t => pm_ok t | None => True end) /\
      match t with Some t => pm_abs t | None => ∅ end = delete (pl_id v) (zombie_abs c)).
  { unfold zombie_abs, zombie_map_ok in *. destruct (player_zombie_table c) as [t|].
    - destruct (pm_set_spec t (pl_id v) 0 Hm) as (t' & -> & Ht' & Habs); [exact Hsize|]. exists (Some t'). auto.
    - exists None. split; [reflexivity|]. split; [exact I|]. now rewrite delete_empty. }
  destruct Ht as (t & -> & Ht1 & Ht2). cbn [mbind outcome_bind].
  destruct (queue_remove (H0 := zombie_laws) _ _ _ p Hz Hp (ex_intro _ _ Hv)) as (h1 & q1 & He1 & Hq1 & _ & Hs1).
  unfold remove_zombie. rewrite He1. cbn [mbind outcome_bind].
  destruct (z_same _ _ _ _ Hs1 Hv) as (v1 & Hv1 & _ & _ & _ & Hb1).
  destruct (queue_init (H0 := zombie_laws) h1 q1 (without p zl) p Hq1) as (h2 & He2 & Hq2 & Hs2);
    [rewrite elem_of_without; tauto|eauto|].
  unfold init_zombie. rewrite He2. cbn [mbind outcome_bind]. exists h2, q1, t. split; [reflexivity|]. split; [split; cbn|].
  - apply (a_queue_z h1); [exact Hs2|]. now apply (a_queue_z (c_heap c)).
  - exact Hq2.
  - split; [rewrite (z_bare _ _ Hs2); now apply z_bare|]. auto.
Qed.
Context (map_new : M).
Hypothesis map_new_ok : pm_ok map_new /\ pm_abs map_new = ∅.

Lemma add_zombie_spec (c : cache) p al zl v now :
  lists_ok c al zl -> p <> 0 -> c_heap c !! p = Some v -> zombie_map_ok c -> Z.of_nat (size (zombie_abs c)) < 2 ^ 61 ->
  exists h q t, try_add_player_to_zombie_list map_new c p now = Ret (with_zombies c h q (Some t)) /\
    lists_ok (with_zombies c h q (Some t)) al (touch p zl) /\
    bare <$> h = <[p := set_zombie_time (bare v) now]> (players c) /\
    pm_ok t /\ pm_abs t = <[pl_id v := p]> (zombie_abs c).
Proof.
  intros [Ha Hz] Hp Hv Hm Hsize. unfold try_add_player_to_zombie_list. destruct (Z.eqb_spec p 0); [contradiction|].
  destruct (queue_remove (H0 := zombie_laws) _ _ _ p Hz Hp (ex_intro _ _ Hv)) as (h1 & q1 & He1 & Hq1 & _ & Hs1).
  unfold remove_zombie. rewrite He1. cbn [mbind outcome_bind].
  destruct (z_same _ _ _ _ Hs1 Hv) as (v1 & Hv1 & _ & _ & _ & Hb1).
  assert (Hout : p ∉ without p zl) by (rewrite elem_of_without; tauto).
  destruct (queue_init (H0 := zombie_laws) h1 q1 _ p Hq1 Hout (ex_intro _ _ Hv1)) as (h2 & He2 & Hq2 & Hs2).
  unfold init_zombie. rewrite He2. cbn [mbind outcome_bind].
  destruct (z_same _ _ _ _ Hs2 Hv1) as (v2 & Hv2 & _ & _ & _ & Hb2).
  destruct (queue_append (H0 := zombie_laws) h2 q1 _ p Hq2 Hout Hp (ex_intro _ _ Hv2)) as (h3 & q3 & He3 & Hq3 & Hs3).
  unfold append_zombie. rewrite He3. cbn [mbind outcome_bind].
  destruct (z_same _ _ _ _ Hs3 Hv2) as (v3 & Hv3 & _ & _ & _ & Hb3). rewrite Hv3. cbn [deref mbind outcome_bind].
  assert (Hid : pl_id v3 = pl_id v).
  { assert (E : pl_id (bare v3) = pl_id (bare v)) by congruence. exact E. }
  set (t := match player_zombie_table c with Some t => t | None => map_new end).
  assert (Ht : pm_ok t /\ pm_abs t = zombie_abs c).
  { unfold t, zombie_abs, zombie_map_ok in *. destruct (player_zombie_table c); [auto|exact map_new_ok]. }
  destruct Ht as [Ht1 Ht2]. destruct (pm_set_spec t (pl_id v3) p Ht1) as (t' & -> & Ht' & Habs); [now rewrite Ht2|].
  cbn [mbind outcome_bind]. exists (<[p := set_zombie_time v3 now]> h3), q3, t'. split; [reflexivity|].
  split; [split; cbn|split; [|split; [exact Ht'|]]].
  - apply (a_queue_write h3 _ _ p v3); auto. apply (a_queue_z h2); [exact Hs3|]. apply (a_queue_z h1); [exact Hs2|].
    now apply (a_queue_z (c_heap c)).
  - now apply (z_queue_write h3 _ _ p v3).
  - rewrite fmap_insert, bare_zombie_time, Hb3, Hb2, Hb1. f_equal.
    rewrite (z_bare _ _ Hs3), (z_bare _ _ Hs2). now apply z_bare.
  - rewrite Habs, Ht2, Hid. destruct (Z.eqb_spec p 0); [contradiction|reflexivity].
Qed.

End Lists.

(** ** The modules of one player *)

(** A name that fits into [char name[32]]. *)
Definition name_ok (s : list Z) : Prop := Forall (fun c => c <> 0) s /\ zlen s < 32.

(** What the cache needs of the modules: every call returns, and the name of a loaded or new
    property fits. *)
Definition data_ok {D W} `{Modules D W} (m : nat) (d : D) : Prop :=
  m = PLAYER_MODULE_PROPERTY -> name_ok (property_name d).

Class ModuleLaws (D W : Type) `{Modules D W} : Prop := {
  new_total : forall m v w, exists w' o, module_new m v w = Ret (w', o) /\ forall d, o = Some d -> data_ok m d;
  load_total : forall m v w, exists w' o, module_load m v w = Ret (w', o) /\ forall d, o = Some d -> data_ok m d;
  update_total : forall m v d t w, exists w' d', module_update m v d t w = Ret (w', d') /\ (data_ok m d -> data_ok m d');
  save_total : forall m v d w, exists w', module_save m v d w = Ret w';
  release_total : forall m v d w, exists w', module_release m v d w = Ret w';
  flush_total : forall w, exists w', data_flush w = Ret w';
  set_head_name : forall d head, property_name (property_set_head d head) = property_name d }.

Lemma strlen_app_nul s tail : Forall (fun c => c <> 0) s -> strlen (s ++ 0 :: tail) = Ret (zlen s).
Proof.
  induction 1 as [|c s Hc _ IH]; [reflexivity|]. cbn [app strlen]. destruct (Z.eqb_spec c 0); [contradiction|].
  rewrite IH, zlen_cons. reflexivity.
Qed.

Lemma name_string_strncpy s : name_ok s -> name_string (strncpy_name s) = Ret s.
Proof.
  intros [Hs Hl]. unfold name_string, strncpy_name. rewrite take_app_ge by (unfold zlen in Hl; lia).
  assert (E : exists k, (32 - length s)%nat = S k) by (exists (31 - length s)%nat; unfold zlen in Hl; lia).
  destruct E as [k E]. assert (Hr : take (32 - length s) (repeat 0 32) = 0 :: take k (repeat 0 31)) by (rewrite E; reflexivity).
  rewrite Hr, strlen_app_nul by exact Hs. cbn [mbind outcome_bind]. now rewrite to_nat_zlen, take_app_length.
Qed.

(** A name of 32 bytes or more is left without a terminator. *)
Lemma long_name_unterminated s : Forall (fun c => c <> 0) s -> 32 <= zlen s -> name_string (strncpy_name s) = Undef.
Proof.
  intros Hs Hl. unfold name_string, strncpy_name. rewrite take_app_le by (unfold zlen in Hl; lia).
  assert (Hn : forall l, Forall (fun c => c <> 0) l -> strlen l = Undef).
  { clear. induction 1 as [|c l Hc _ IH]; [reflexivity|]. cbn. destruct (Z.eqb_spec c 0); [contradiction|]. now rewrite IH. }
  now rewrite Hn by now apply list.Forall_take.
Qed.

Section Players.
Context {D W : Type} `{ModuleLaws D W}.
#[local] Abbreviation player := (Player D).

(** A well-formed player at the time [now]. *)
Record player_ok (now : Z) (v : player) : Prop := {
  po_id : RESERVED_ID <= pl_id v < 2 ^ 64;
  po_modules : length (pl_module v) = PLAYER_MODULE_COUNT;
  po_times : forall m d t, pl_module v !! m = Some (d, t) -> 0 <= t <= now;
  po_data : forall m d t, pl_module v !! m = Some (Some d, t) -> data_ok m d;
  po_name : exists n, name_string (pl_name v) = Ret n;
  po_zombie : pl_zombie_time v <= now }.

(** The fields that loading, creating and updating modules leave alone. *)
Definition with_data (v : player) u b ms : player :=
  mk_player (pl_prev v) (pl_next v) (pl_zprev v) (pl_znext v) (pl_zombie_time v) (pl_conn v) u (pl_last_active v)
    (pl_id v) (pl_name v) b ms.
Definition same_core (v v' : player) : Prop := exists u b ms, v' = with_data v u b ms.

Lemma same_core_refl v : same_core v v.
Proof. destruct v. unfold same_core, with_data. cbn. eauto. Qed.
Lemma same_core_trans v1 v2 v3 : same_core v1 v2 -> same_core v2 v3 -> same_core v1 v3.
Proof. intros (u & b & ms & ->) (u' & b' & ms' & ->). unfold same_core, with_data. cbn. eauto. Qed.
Lemma same_core_module v m x : same_core v (set_module v m x).
Proof. unfold same_core, with_data, set_module. eauto. Qed.
Lemma same_core_loading v b : same_core v (set_loading v b).
Proof. unfold same_core, with_data, set_loading. eauto. Qed.
Lemma same_core_update v t : same_core v (set_update_time v t).
Proof. unfold same_core, with_data, set_update_time. eauto. Qed.

Lemma player_ok_loading now v b : player_ok now v -> player_ok now (set_loading v b).
Proof. intros []. now constructor. Qed.
Lemma player_ok_update now v t : player_ok now v -> player_ok now (set_update_time v t).
Proof. intros []. now constructor. Qed.
Lemma player_ok_module now v m o t :
  player_ok now v -> 0 <= t <= now -> (forall d, o = Some d -> data_ok m d) -> player_ok now (set_module v m (o, t)).
Proof.
  intros [Hi Hm Ht Hd Hn Hz] Hr Ho. constructor; auto.
  - cbn. now rewrite length_insert.
  - intros k d t' Hk. cbn in Hk. apply list_lookup_insert_Some in Hk as [(<- & E & _)|(_ & Hk)]; [|eauto].
    injection E as <- <-. exact Hr.
  - intros k d t' Hk. cbn in Hk. apply list_lookup_insert_Some in Hk as [(<- & E & _)|(_ & Hk)]; [|eauto].
    injection E as -> <-. auto.
Qed.
Lemma player_ok_mono now now' v : player_ok now v -> now <= now' -> player_ok now' v.
Proof.
  intros [Hi Hm Ht Hd Hn Hz] Hle. constructor; auto; [|lia]. intros m d t Hk. specialize (Ht m d t Hk). lia.
Qed.

Lemma module_slot now v m : player_ok now v -> (m < PLAYER_MODULE_COUNT)%nat -> exists o t, pl_module v !! m = Some (o, t).
Proof.
  intros Hok Hm. destruct (lookup_lt_is_Some_2 (pl_module v) m) as [[o t] E]; [rewrite (po_modules _ _ Hok); exact Hm|]. eauto.
Qed.

Lemma load_module_spec now w v m :
  player_ok now v -> 0 <= now -> (m < PLAYER_MODULE_COUNT)%nat ->
  exists w' v' o, _player_load_module w v m = Ret (w', v', o) /\ player_ok now v' /\ same_core v v' /\
    (forall d, o = Some d -> pl_module v' !! m = Some (Some d, 0)).
Proof.
  intros Hok Hnow Hm. unfold _player_load_module. pose proof (player_ok_loading _ _ 1 Hok) as Hok1.
  destruct (load_total m (set_loading v 1) w) as (w' & o & -> & Ho). cbn [mbind outcome_bind].
  destruct (module_slot _ _ _ Hok1 Hm) as (o0 & t0 & E). rewrite E. cbn [deref mbind outcome_bind].
  assert (Hl : (m < length (pl_module (set_loading v 1)))%nat) by now rewrite (po_modules _ _ Hok1).
  destruct o as [d|]; eexists _, _, _; (split; [reflexivity|]).
  - split; [apply player_ok_loading; now apply player_ok_module; [..|intros ? [= <-]; apply Ho]|]. split.
    + eapply same_core_trans; [|apply same_core_loading]. eapply same_core_trans; [apply same_core_loading|apply same_core_module].
    + intros d' [= <-]. cbn. now apply list_lookup_insert_eq.
  - split; [apply player_ok_module; [exact Hok1|cbn; exact (po_times _ _ Hok1 _ _ _ E)|discriminate]|]. split; [|discriminate].
    eapply same_core_trans; [apply same_core_loading|apply same_core_module].
Qed.

Lemma update_module_spec now w v m d t :
  player_ok now v -> 0 <= now -> pl_module v !! m = Some (Some d, t) ->
  exists w' v' d' , _player_update_module w v m now = Ret (w', v') /\ player_ok now v' /\ same_core v v' /\
    pl_module v' !! m = Some (Some d', now) /\ (forall k, k <> m -> pl_module v' !! k = pl_module v !! k).
Proof.
  intros Hok Hnow Hm. unfold _player_update_module. rewrite Hm. cbn [deref mbind outcome_bind].
  pose proof (po_times _ _ Hok _ _ _ Hm). destruct (Z.leb_spec t now); [|lia]. cbn [c_assert mbind outcome_bind].
  destruct (Z.eqb_spec t now) as [->|Hne].
  - exists w, v, d. split; [reflexivity|]. split; [exact Hok|]. split; [apply same_core_refl|]. auto.
  - destruct (update_total m (set_module v m (Some d, now)) d now w) as (w' & d' & -> & Hd). cbn [mbind outcome_bind].
    assert (Hd0 : data_ok m d) by (apply (po_data _ _ Hok _ _ _ Hm)).
    assert (Hl : (m < length (pl_module v))%nat) by (eapply lookup_lt_Some; exact Hm).
    exists w', (set_module (set_module v m (Some d, now)) m (Some d', now)), d'. split; [reflexivity|].
    split; [|split; [eapply same_core_trans; apply same_core_module|split]].
    + apply player_ok_module; [apply player_ok_module|lia|]; [exact Hok|lia|intros ? [= <-]; exact Hd0|intros ? [= <-]; exact (Hd Hd0)].
    + cbn. apply list_lookup_insert_eq. now rewrite length_insert.
    + intros k Hk. cbn. now rewrite !list_lookup_insert_ne by congruence.
Qed.

Lemma get_module_spec now w v m :
  player_ok now v -> 0 <= now -> (m < PLAYER_MODULE_COUNT)%nat ->
  exists w' v' o, player_get_module w v m now = Ret (w', v', o) /\ player_ok now v' /\ same_core v v' /\
    (forall d, o = Some d -> data_ok m d) /\ (forall d t, pl_module v !! m = Some (Some d, t) -> is_Some o).
Proof.
  intros Hok Hnow Hm. unfold player_get_module. rewrite bool_decide_eq_true_2 by exact Hm. cbn [c_assert mbind outcome_bind].
  destruct (module_slot _ _ _ Hok Hm) as (o0 & t0 & E). rewrite E. cbn [deref mbind outcome_bind].
  assert (Hfin : forall w v d t, player_ok now v -> pl_module v !! m = Some (Some d, t) ->
    exists w' v' o, ('(w, v) ← _player_update_module w (set_update_time v now) m now;
      '(data, _) ← deref (pl_module v !! m); Ret (w, v, data)) = Ret (w', v', o) /\ player_ok now v' /\ same_core v v' /\
      (forall d, o = Some d -> data_ok m d) /\ is_Some o).
  { clear -Hnow H0. intros w v d t Hok Hm.
    destruct (update_module_spec now w (set_update_time v now) m d t) as (w' & v' & d' & -> & Hok' & Hc & Hd' & _);
      [now apply player_ok_update|exact Hnow|exact Hm|].
    cbn [mbind outcome_bind]. rewrite Hd'. cbn [deref mbind outcome_bind]. eexists _, _, _. split; [reflexivity|].
    split; [exact Hok'|]. split; [eapply same_core_trans; [apply same_core_update|exact Hc]|]. split; [|eauto].
    intros ? [= <-]. exact (po_data _ _ Hok' _ _ _ Hd'). }
  destruct o0 as [d|]; cbn [mbind outcome_bind].
  - destruct (Hfin w v d t0 Hok E) as (w' & v' & o & He & ? & ? & ? & ?). exists w', v', o. auto.
  - destruct (load_module_spec now w v m Hok Hnow Hm) as (w1 & v1 & o & -> & Hok1 & Hc1 & Ho). cbn [mbind outcome_bind].
    destruct o as [d|].
    + destruct (Hfin w1 v1 d 0 Hok1 (Ho d eq_refl)) as (w' & v' & o & -> & ? & ? & ? & ?).
      eexists _, _, _. split; [reflexivity|]. split; [assumption|]. split; [eapply same_core_trans; eassumption|]. auto.
    + eexists _, _, _. split; [reflexivity|]. split; [exact Hok1|]. split; [exact Hc1|]. split; [discriminate|].
      intros d t Hd. congruence.
Qed.

(** A player just loaded or created, before it enters the cache. *)
Definition fresh (id : Z) (v : player) : Prop :=
  exists n, same_core (set_name (new_player id) n) v.

Lemma new_player_ok now id : RESERVED_ID <= id < 2 ^ 64 -> 0 <= now -> player_ok now (new_player (D := D) id).
Proof.
  intros Hi Hnow. constructor; try (cbn; lia); [reflexivity| | |exists []; reflexivity].
  - intros m d t Hm. change (replicate PLAYER_MODULE_COUNT (@None D, 0) !! m = Some (d, t)) in Hm. apply lookup_replicate_1 in Hm as [[= -> ->] _]. lia.
  - intros m d t Hm. change (replicate PLAYER_MODULE_COUNT (@None D, 0) !! m = Some (Some d, t)) in Hm. apply lookup_replicate_1 in Hm as [E _]. discriminate.
Qed.

Lemma player_ok_name now v s : player_ok now v -> name_ok s -> player_ok now (set_name v (strncpy_name s)).
Proof. intros [] Hs. constructor; auto. exists s. now apply name_string_strncpy. Qed.

Lemma load_sample_spec now w id :
  RESERVED_ID <= id < 2 ^ 64 -> 0 <= now ->
  exists w' r, _player_load_sample w (new_player id) now = Ret (w', r) /\
    forall v, r = Some v -> player_ok now v /\ fresh id v.
Proof.
  intros Hi Hnow. unfold _player_load_sample. pose proof (player_ok_loading _ _ 1 (new_player_ok now id Hi Hnow)) as Hok.
  destruct (load_module_spec now w _ PLAYER_MODULE_PROPERTY Hok Hnow) as (w1 & v1 & o & -> & Hok1 & Hc1 & Ho);
    [unfold PLAYER_MODULE_PROPERTY, PLAYER_MODULE_COUNT; lia|]. cbn [mbind outcome_bind].
  destruct o as [d|]; [|eexists _, None; split; [reflexivity|discriminate]].
  unfold afterLoad. destruct (get_module_spec now w1 v1 PLAYER_MODULE_PROPERTY Hok1 Hnow) as (w2 & v2 & o2 & -> & Hok2 & Hc2 & Hd & Hs);
    [unfold PLAYER_MODULE_PROPERTY, PLAYER_MODULE_COUNT; lia|]. cbn [mbind outcome_bind].
  destruct (Hs d 0) as [d2 ->]; [now apply Ho|]. cbn [deref mbind outcome_bind].
  eexists _, _. split; [reflexivity|]. intros v [= <-]. specialize (Hd d2 eq_refl eq_refl). split.
  - now apply player_ok_loading, player_ok_update, player_ok_name.
  - exists (strncpy_name (property_name d2)).
    assert (Hc : same_core (new_player id) v2).
    { eapply same_core_trans; [apply (same_core_loading _ 1)|]. eapply same_core_trans; eassumption. }
    destruct Hc as (u & b & ms & ->). unfold same_core, with_data. cbn. eauto.
Qed.

Lemma release_modules_spec w v i l : exists w', release_modules w v i l = Ret w'.
Proof.
  revert w i. induction l as [|[[d|] t] l IH]; intros w i; cbn [release_modules]; [eauto| |apply IH].
  destruct (release_total i v d w) as (w' & ->). cbn [mbind outcome_bind]. apply IH.
Qed.
Lemma release_spec w v : exists w', _player_release w v = Ret w'.
Proof.
  unfold _player_release. destruct (flush_total (D := D) w) as (w' & ->). apply release_modules_spec.
Qed.

Lemma new_modules_spec now head ms : forall w v, player_ok now v -> Forall (fun m => m < PLAYER_MODULE_COUNT)%nat ms -> 0 <= now ->
  exists w' v' ok, new_modules w v head ms = Ret (w', v', ok) /\ player_ok now v' /\ same_core v v' /\
    (ok = true -> forall m, m ∈ ms -> exists d t, pl_module v' !! m = Some (Some d, t)) /\
    (forall m d t, pl_module v !! m = Some (Some d, t) -> exists d t, pl_module v' !! m = Some (Some d, t)).
Proof.
  induction ms as [|m ms IH]; intros w v Hok Hms Hnow; cbn [new_modules].
  - exists w, v, true. split; [reflexivity|]. split; [exact Hok|]. split; [apply same_core_refl|]. split; [|eauto].
    intros _ m Hm. inversion Hm.
  - apply list.Forall_cons in Hms as [Hm Hms].
    destruct (new_total m v w) as (w1 & o & -> & Ho). cbn [mbind outcome_bind].
    destruct (module_slot _ _ _ Hok Hm) as (o0 & t0 & E). rewrite E. cbn [deref mbind outcome_bind].
    destruct o as [d|].
    + set (d' := if (m =? PLAYER_MODULE_PROPERTY)%nat then property_set_head d head else d).
      assert (Hd' : data_ok m d').
      { intros Hp. unfold d'. rewrite (proj2 (Nat.eqb_eq _ _) Hp), set_head_name. exact (Ho d eq_refl Hp). }
      assert (Hl : (m < length (pl_module v))%nat) by now rewrite (po_modules _ _ Hok).
      destruct (IH w1 (set_module v m (Some d', t0))) as (w2 & v2 & ok & -> & Hok2 & Hc2 & Hall & Hkeep).
      { apply player_ok_module; [exact Hok|exact (po_times _ _ Hok _ _ _ E)|intros ? [= <-]; exact Hd']. }
      { exact Hms. }
      { exact Hnow. }
      exists w2, v2, ok. split; [reflexivity|]. split; [exact Hok2|].
      split; [eapply same_core_trans; [apply same_core_module|exact Hc2]|]. split.
      * intros Hk k Hin. apply elem_of_cons in Hin as [->|Hin]; [|eauto]. apply (Hkeep m d' t0). cbn.
        now apply list_lookup_insert_eq.
      * intros k e t Hk. destruct (decide (k = m)) as [->|Hne].
        -- apply (Hkeep m d' t0). cbn. now apply list_lookup_insert_eq.
        -- apply (Hkeep k e t). cbn. now rewrite list_lookup_insert_ne by congruence.
    + destruct (release_spec w1 (set_module v m (None, t0))) as (w2 & ->). cbn [mbind outcome_bind].
      exists w2, v, false. split; [reflexivity|]. split; [exact Hok|]. split; [apply same_core_refl|]. split; [discriminate|eauto].
Qed.

Definition all_loaded (v : player) : Prop := forall m o t, pl_module v !! m = Some (o, t) -> is_Some o.

Lemma update_modules_spec now ms : forall w v, player_ok now v -> all_loaded v -> Forall (fun m => m < PLAYER_MODULE_COUNT)%nat ms ->
  0 <= now -> exists w' v', update_modules w v now ms = Ret (w', v') /\ player_ok now v' /\ same_core v v' /\ all_loaded v'.
Proof.
  induction ms as [|m ms IH]; intros w v Hok Hall Hms Hnow; cbn [update_modules].
  - exists w, v. split; [reflexivity|]. split; [exact Hok|]. split; [apply same_core_refl|exact Hall].
  - apply list.Forall_cons in Hms as [Hm Hms]. destruct (module_slot _ _ _ Hok Hm) as (o & t & E).
    destruct (Hall _ _ _ E) as [d ->].
    destruct (update_module_spec now w v m d t Hok Hnow E) as (w1 & v1 & d1 & -> & Hok1 & Hc1 & Hd1 & Hk1).
    cbn [mbind outcome_bind]. destruct (IH w1 v1) as (w2 & v2 & -> & Hok2 & Hc2 & Hall2); [exact Hok1| |exact Hms|exact Hnow|].
    + intros k o t' Hk. destruct (decide (k = m)) as [->|Hne]; [rewrite Hd1 in Hk; injection Hk as <- _; eauto|].
      rewrite Hk1 in Hk by exact Hne. eauto.
    + exists w2, v2. split; [reflexivity|]. split; [exact Hok2|]. split; [eapply same_core_trans; eassumption|exact Hall2].
Qed.

Lemma save_modules_spec v l : forall w i, (forall o t, (o, t) ∈ l -> is_Some o) -> exists w', save_modules w v i l = Ret w'.
Proof.
  induction l as [|[o t] l IH]; intros w i Hl; cbn [save_modules]; [eauto|].
  destruct (Hl o t) as [d ->]; [left|]. cbn [deref mbind outcome_bind]. destruct (save_total i v d w) as (w' & ->).
  cbn [mbind outcome_bind]. apply IH. intros o' t' Hin. apply (Hl o' t'). now right.
Qed.

Lemma create_spec now w id name head :
  RESERVED_ID <= id < 2 ^ 64 -> 0 <= now -> name_ok name ->
  exists w' r, _player_create w (set_name (new_player id) (strncpy_name name)) head now = Ret (w', r) /\
    forall v, r = Some v -> player_ok now v /\ fresh id v.
Proof.
  intros Hi Hnow Hname. unfold _player_create. destruct (0x1fffffff <? _); [eexists _, None; split; [reflexivity|discriminate]|].
  set (v0 := set_name (new_player id) (strncpy_name name)).
  assert (Hok : player_ok now (set_loading v0 1)) by now apply player_ok_loading, player_ok_name, Hname; apply new_player_ok.
  assert (Hseq : Forall (fun m => m < PLAYER_MODULE_COUNT)%nat (seq 0 PLAYER_MODULE_COUNT)).
  { apply list.Forall_forall. intros m Hm. apply elem_of_seq in Hm. lia. }
  destruct (new_modules_spec now head _ w _ Hok Hseq Hnow) as (w1 & v1 & ok & -> & Hok1 & Hc1 & Hall & _).
  cbn [mbind outcome_bind]. destruct ok; [|eexists _, None; split; [reflexivity|discriminate]].
  unfold _player_update_modules.
  assert (Hall1 : all_loaded (set_update_time v1 now)).
  { intros m o t Hm. cbn in Hm. pose proof (lookup_lt_Some _ _ _ Hm) as Hl. rewrite (po_modules _ _ Hok1) in Hl.
    destruct (Hall eq_refl m) as (d & t' & E); [apply elem_of_seq; lia|]. rewrite E in Hm. injection Hm as <- _. eauto. }
  destruct (update_modules_spec now _ w1 _ (player_ok_update _ _ now Hok1) Hall1 Hseq Hnow) as (w2 & v2 & -> & Hok2 & Hc2 & Hall2).
  cbn [mbind outcome_bind]. unfold _player_save. destruct (save_modules_spec v2 (pl_module v2) w2 0%nat) as (w3 & ->).
  { intros o t Hin. apply list_elem_of_lookup in Hin as [m Hm]. exact (Hall2 _ _ _ Hm). }
  cbn [mbind outcome_bind]. eexists _, _. split; [reflexivity|]. intros v [= <-]. split; [now apply player_ok_loading|].
  exists (strncpy_name name). fold v0. eapply same_core_trans; [apply (same_core_loading _ 1)|].
  eapply same_core_trans; [exact Hc1|]. eapply same_core_trans; [apply (same_core_update _ now)|].
  eapply same_core_trans; [exact Hc2|apply same_core_loading].
Qed.
End Players.
