(* ===== verification/PlayerCache.v ===== *)
(** * Theorems on the player cache

    The lists and maps of [Player] agree with the heap of players after any sequence of calls; players
    are found, loaded and remembered as missing as they should; zombies are unloaded when their time
    has come. *)
From S2P Require Import Prelude AmfWire AgMap Lrm Dlist Keyed Player PlayerLemmas.
From Stdlib Require Import Sorted.

(** ** Maps that index the players by id *)

Section Indexes.
Context {D : Type}.
#[local] Abbreviation players := (gmap Z (Player D)).
Implicit Types (B : players) (m : gmap Z Z) (P : Player D -> bool).

Definition indexes B m P : Prop :=
  forall k a, m !! k = Some a <-> exists v, B !! a = Some v /\ pl_id v = k /\ P v = true.
Definition unique_ids B : Prop :=
  forall a b v w, B !! a = Some v -> B !! b = Some w -> pl_id v = pl_id w -> a = b.

Definition offline (v : Player D) : bool := pl_conn v =? INVALID_ID.
Definition online (v : Player D) : bool := negb (offline v).

(** The index after the player at [a] has been written. *)
Definition upd P m (a : Z) (v : Player D) : gmap Z Z := if P v then <[pl_id v := a]> m else delete (pl_id v) m.

Lemma idx_upd B m P a v :
  indexes B m P -> unique_ids (<[a := v]> B) -> (forall w, B !! a = Some w -> pl_id w = pl_id v) ->
  indexes (<[a := v]> B) (upd P m a v) P.
Proof.
  intros Hi Hu Hid k b.
  assert (Hold : b <> a -> k <> pl_id v -> m !! k = Some b <-> exists w, <[a := v]> B !! b = Some w /\ pl_id w = k /\ P w = true).
  { intros Hb Hk. rewrite lookup_insert_ne by congruence. apply Hi. }
  assert (Hne : forall w, <[a := v]> B !! b = Some w -> b <> a -> pl_id w <> pl_id v).
  { intros w Hw Hb E. apply Hb. apply (Hu b a w v); [exact Hw|apply lookup_insert_eq|exact E]. }
  assert (Hma : forall k', m !! k' = Some a -> k' = pl_id v).
  { intros k' Hk. apply Hi in Hk as (w & Hw & <- & _). now apply Hid. }
  destruct (decide (b = a)) as [->|Hb].
  - rewrite lookup_insert_eq. unfold upd. split.
    + intros Hk. exists v. destruct (P v) eqn:E.
      * apply lookup_insert_Some in Hk as [[<- _]|[Hne' Hk]]; [auto|]. now rewrite (Hma _ Hk) in Hne'.
      * apply lookup_delete_Some in Hk as [Hne' Hk]. now rewrite (Hma _ Hk) in Hne'.
    + intros (w & [= <-] & <- & ->). apply lookup_insert_eq.
  - split.
    + intros Hk. assert (Hk' : k <> pl_id v /\ m !! k = Some b).
      { unfold upd in Hk. destruct (P v); [apply lookup_insert_Some in Hk as [[_ E]|[? Hk]]; [congruence|]|apply lookup_delete_Some in Hk as [? Hk]]; auto. }
      destruct Hk' as [Hn Hk']. now apply Hold.
    + intros (w & Hw & <- & HP). pose proof (Hne w Hw Hb) as Hn. assert (Hk : m !! pl_id w = Some b) by (apply Hold; eauto).
      unfold upd. destruct (P v); [rewrite lookup_insert_ne by congruence|rewrite lookup_delete_ne by congruence]; exact Hk.
Qed.

Lemma idx_delete B m P a v :
  indexes B m P -> unique_ids B -> B !! a = Some v -> indexes (delete a B) (delete (pl_id v) m) P.
Proof.
  intros Hi Hu Hv k b. rewrite lookup_delete_Some. split.
  - intros [Hne Hb]. apply Hi in Hb as (w & Hw & <- & HP). exists w. split; [|auto]. rewrite lookup_delete_ne; [exact Hw|].
    intros ->. congruence.
  - intros (w & Hw & <- & HP). apply lookup_delete_Some in Hw as [Hne Hw]. split; [|apply Hi; eauto].
    intros E. apply Hne. apply (Hu a b v w); auto.
Qed.
Lemma idx_get B m P k : indexes B m P -> unique_ids B ->
  (exists a v, B !! a = Some v /\ pl_id v = k /\ P v = true /\ m !! k = Some a) \/
  (m !! k = None /\ forall a v, B !! a = Some v -> pl_id v = k -> P v = false).
Proof.
  intros Hi Hu. destruct (m !! k) as [a|] eqn:E.
  - left. pose proof E as E'. apply Hi in E' as (v & Hv & Hid & HP). eauto 10.
  - right. split; [reflexivity|]. intros a v Hv Hid. destruct (P v) eqn:HP; [|reflexivity].
    assert (m !! k = Some a) by (apply Hi; eauto). congruence.
Qed.

Lemma idx_none B m P v a : indexes B m P -> unique_ids B -> B !! a = Some v -> P v = false -> m !! pl_id v = None.
Proof.
  intros Hi Hu Hv HP. apply eq_None_not_Some. intros [b Hb]. apply Hi in Hb as (w & Hw & Hid & HPw).
  assert (b = a) as -> by (apply (Hu b a w v); auto). congruence.
Qed.

Lemma upd_same B m P a v w : indexes B m P -> unique_ids B -> B !! a = Some w -> pl_id v = pl_id w -> P v = P w -> upd P m a v = m.
Proof.
  intros Hi Hu Hw Hid HP. unfold upd. rewrite Hid. destruct (P v) eqn:E.
  - apply insert_id. apply Hi. exists w. auto.
  - apply delete_id. now apply (idx_none B m P w a).
Qed.

Lemma unique_write B a v w : unique_ids B -> B !! a = Some w -> pl_id v = pl_id w -> unique_ids (<[a := v]> B).
Proof.
  intros Hu Hw Hid b c x y Hb Hc E.
  assert (HB : forall d z, <[a := v]> B !! d = Some z -> exists z', B !! d = Some z' /\ pl_id z' = pl_id z).
  { intros d z Hz. apply lookup_insert_Some in Hz as [[<- <-]|[_ Hz]]; eauto. }
  destruct (HB _ _ Hb) as (x' & Hx & Ex), (HB _ _ Hc) as (y' & Hy & Ey). apply (Hu b c x' y'); congruence.
Qed.
Lemma unique_new B a v : unique_ids B -> (forall b w, B !! b = Some w -> pl_id w <> pl_id v) -> unique_ids (<[a := v]> B).
Proof.
  intros Hu Hn b c x y Hb Hc E. apply lookup_insert_Some in Hb as [[<- <-]|[_ Hb]].
  - apply lookup_insert_Some in Hc as [[<- <-]|[_ Hc]]; [reflexivity|]. destruct (Hn _ _ Hc). congruence.
  - apply lookup_insert_Some in Hc as [[<- <-]|[_ Hc]]; [destruct (Hn _ _ Hb); congruence|eauto].
Qed.
Lemma unique_delete B a : unique_ids B -> unique_ids (delete a B).
Proof. intros Hu b c x y Hb Hc. apply lookup_delete_Some in Hb as [_ Hb], Hc as [_ Hc]. eauto. Qed.

(** An index has no more entries than there are players. *)
Lemma injective_size (m : gmap Z Z) (S : gset Z) :
  (forall k a, m !! k = Some a -> a ∈ S) -> (forall k k' a, m !! k = Some a -> m !! k' = Some a -> k = k') -> (size m <= size S)%nat.
Proof.
  revert S. induction m as [|k a m Hk IH] using map_ind; intros S Hin Hinj; [rewrite map_size_empty; lia|].
  rewrite map_size_insert_None by exact Hk.
  assert (Ha : a ∈ S) by (apply (Hin k); apply lookup_insert_eq).
  specialize (IH (S ∖ {[a]})). rewrite size_difference, size_singleton in IH by set_solver.
  assert (Hpos : (size S <> 0)%nat) by (intros E; apply size_empty_inv in E; set_solver).
  assert (size m <= size S - 1)%nat; [|lia]. apply IH.
  - intros k' b Hb. apply elem_of_difference. split.
    + apply (Hin k'). rewrite lookup_insert_ne; [exact Hb|]. intros ->. congruence.
    + rewrite elem_of_singleton. intros ->. assert (k = k'); [|congruence]. apply (Hinj k k' a); [apply lookup_insert_eq|].
      rewrite lookup_insert_ne; [exact Hb|]. intros ->. congruence.
  - intros k1 k2 b H1 H2. apply (Hinj k1 k2 b); rewrite lookup_insert_ne; auto; intros ->; congruence.
Qed.

Lemma idx_size B m P : indexes B m P -> (size m <= size B)%nat.
Proof.
  intros Hi. rewrite <- (size_dom (D := gset Z) B). apply injective_size.
  - intros k a Ha. apply Hi in Ha as (v & Hv & _). apply elem_of_dom. eauto.
  - intros k k' a H1 H2. apply Hi in H1 as (v & Hv & <- & _), H2 as (w & Hw & <- & _). congruence.
Qed.
End Indexes.

(** ** The state of the cache *)

Section State.
Context {D W : Type} `{ModuleLaws D W}.
#[local] Abbreviation player := (Player D).
Implicit Types (B : gmap Z player).

Definition zombie_times B (zl : list Z) : list Z := omap (fun a => pl_zombie_time <$> B !! a) zl.

(** The players [B], the maps and the lists agree at the time [now]. *)
Record state_ok (now : Z) B (on off tb : gmap Z Z) (ns : gmap (list Z) Z) (al zl : list Z) : Prop := {
  so_dom : forall a, is_Some (B !! a) <-> a ∈ al;
  so_null : B !! 0 = None;
  so_unique : unique_ids B;
  so_online : indexes B on online;
  so_offline : indexes B off offline;
  so_table : indexes B tb offline;
  so_zombies : forall a, a ∈ zl <-> exists v, B !! a = Some v /\ offline v = true;
  so_names : forall s a, ns !! s = Some a -> exists v, B !! a = Some v /\ name_string (pl_name v) = Ret s;
  so_players : forall a v, B !! a = Some v -> player_ok now v;
  so_order : StronglySorted Z.le (zombie_times B zl) }.

Lemma zombie_times_ext B B' zl :
  (forall a, a ∈ zl -> pl_zombie_time <$> B' !! a = pl_zombie_time <$> B !! a) -> zombie_times B' zl = zombie_times B zl.
Proof.
  intros He. unfold zombie_times. induction zl as [|a zl IH]; [reflexivity|]. cbn. rewrite (He a) by left.
  rewrite IH by (intros; apply He; now right). reflexivity.
Qed.

Lemma zombie_times_elem B zl t : t ∈ zombie_times B zl -> exists a v, a ∈ zl /\ B !! a = Some v /\ t = pl_zombie_time v.
Proof.
  unfold zombie_times. rewrite list_elem_of_omap. intros (a & Ha & E). destruct (B !! a) as [v|] eqn:Hv; [|discriminate].
  injection E as <-. eauto.
Qed.

Lemma sorted_without B zl p : StronglySorted Z.le (zombie_times B zl) -> StronglySorted Z.le (zombie_times B (without p zl)).
Proof.
  unfold zombie_times, without. induction zl as [|a zl IH]; intros Hs; [constructor|]. cbn in Hs.
  assert (Hs' : StronglySorted Z.le (omap (fun a => pl_zombie_time <$> B !! a) zl)).
  { destruct (pl_zombie_time <$> B !! a); [now inversion Hs|exact Hs]. }
  rewrite filter_cons. case_decide; [|now apply IH]. cbn. destruct (pl_zombie_time <$> B !! a) as [t|]; [|now apply IH].
  inversion Hs as [|? ? _ Hall]; subst. constructor; [now apply IH|]. apply list.Forall_forall. intros u Hu.
  rewrite list.Forall_forall in Hall. apply Hall. apply list_elem_of_omap in Hu as (b & Hb & E).
  apply list_elem_of_filter in Hb as [_ Hb]. apply list_elem_of_omap. eauto.
Qed.

(** A player whose zombie time is now goes to the end. *)
Lemma sorted_touch B zl p v now :
  StronglySorted Z.le (zombie_times B zl) -> (forall a w, B !! a = Some w -> pl_zombie_time w <= now) -> pl_zombie_time v = now ->
  StronglySorted Z.le (zombie_times (<[p := v]> B) (touch p zl)).
Proof.
  intros Hs Hle Hv. unfold touch, zombie_times. rewrite omap_app. cbn. rewrite lookup_insert_eq. cbn. rewrite Hv.
  fold (zombie_times (<[p := v]> B) (without p zl)). rewrite (zombie_times_ext B).
  - assert (Hw : Forall (fun t => t <= now) (zombie_times B (without p zl))).
    { apply list.Forall_forall. intros t Ht. apply zombie_times_elem in Ht as (a & w & _ & Hw & ->). eauto. }
    apply sorted_without with (p := p) in Hs. induction Hs as [|t l Hs IH Ht]; [repeat constructor|]. cbn.
    apply list.Forall_cons in Hw as [Htn Hw]. constructor; [now apply IH|]. apply list.Forall_app. split; [exact Ht|].
    now repeat constructor.
  - intros a Ha. apply elem_of_without in Ha as [_ Ha]. now rewrite lookup_insert_ne by congruence.
Qed.

(** A player is written, keeping its id and its name. *)
Lemma so_write now B on off tb ns al zl p w v al' zl' :
  state_ok now B on off tb ns al zl -> B !! p = Some w -> pl_id v = pl_id w -> pl_name v = pl_name w -> player_ok now v ->
  (forall a, a ∈ al' <-> a ∈ al) ->
  (forall a, a ∈ zl' <-> (a ∈ zl /\ a <> p) \/ (a = p /\ offline v = true)) ->
  StronglySorted Z.le (zombie_times (<[p := v]> B) zl') ->
  state_ok now (<[p := v]> B) (upd online on p v) (upd offline off p v) (upd offline tb p v) ns al' zl'.
Proof.
  intros [Hd H0' Hu Hon Hoff Ht Hz Hn Hp Ho] Hw Hid Hnm Hok Hal Hzl Hs.
  assert (Hp0 : p <> 0) by (intros ->; congruence).
  assert (Hu' : unique_ids (<[p := v]> B)) by now apply (unique_write B p v w).
  assert (Hids : forall x, B !! p = Some x -> pl_id x = pl_id v) by (intros x Hx; congruence).
  constructor; auto using idx_upd.
  - intros a. rewrite Hal, <- Hd. destruct (decide (a = p)) as [->|Hne]; [rewrite lookup_insert_eq, Hw; split; eauto|].
    now rewrite lookup_insert_ne by congruence.
  - now rewrite lookup_insert_ne by congruence.
  - intros a. rewrite Hzl, Hz. destruct (decide (a = p)) as [->|Hne].
    + rewrite lookup_insert_eq. split; [intros [[_ ?]|[_ Hf]]; [congruence|eauto]|]. intros (x & [= <-] & Hx). auto.
    + rewrite lookup_insert_ne by congruence. intuition.
  - intros s a Ha. destruct (Hn s a Ha) as (x & Hx & E). destruct (decide (a = p)) as [->|Hne].
    + rewrite lookup_insert_eq. exists v. split; [reflexivity|]. rewrite Hnm. congruence.
    + rewrite lookup_insert_ne by congruence. eauto.
  - intros a x Hx. apply lookup_insert_Some in Hx as [[<- <-]|[_ Hx]]; eauto.
Qed.

(** The same for a player that is offline afterwards: it goes to the end of the zombies. *)
Lemma so_offline_now now B on off tb ns al zl p w v al' :
  state_ok now B on off tb ns al zl -> B !! p = Some w -> pl_id v = pl_id w -> pl_name v = pl_name w -> player_ok now v ->
  (forall a, a ∈ al' <-> a ∈ al) -> offline v = true -> pl_zombie_time v = now ->
  state_ok now (<[p := v]> B) (delete (pl_id v) on) (<[pl_id v := p]> off) (<[pl_id v := p]> tb) ns al' (touch p zl).
Proof.
  intros Hs Hw Hid Hnm Hok Hal Hof Ht. pose proof Hs as [_ _ _ _ _ _ _ _ Hp Ho].
  pose proof (so_write now B on off tb ns al zl p w v al' (touch p zl) Hs Hw Hid Hnm Hok Hal) as Hg.
  unfold upd, online in Hg. rewrite Hof in Hg. apply Hg.
  - intros a. rewrite elem_of_touch. destruct (decide (a = p)); tauto.
  - apply (sorted_touch _ _ _ _ now Ho); [|exact Ht]. intros a x Hx. exact (po_zombie _ _ (Hp a x Hx)).
Qed.

(** A new player enters, offline. *)
Lemma so_new now B on off tb ns al zl a v s :
  state_ok now B on off tb ns al zl -> B !! a = None -> a <> 0 -> (forall b w, B !! b = Some w -> pl_id w <> pl_id v) ->
  player_ok now v -> offline v = true -> pl_zombie_time v = now -> name_string (pl_name v) = Ret s ->
  state_ok now (<[a := v]> B) on (<[pl_id v := a]> off) (<[pl_id v := a]> tb) (<[s := a]> ns) (al ++ [a]) (touch a zl).
Proof.
  intros [Hd H0' Hu Hon Hoff Ht Hz Hn Hp Ho] Ha Ha0 Hnew Hok Hof Htime Hname.
  assert (Hu' : unique_ids (<[a := v]> B)) by now apply unique_new.
  assert (Hids : forall x, B !! a = Some x -> pl_id x = pl_id v) by (intros x Hx; congruence).
  assert (Hupd : forall m, indexes B m offline -> indexes (<[a := v]> B) (<[pl_id v := a]> m) offline).
  { intros m Hm. pose proof (idx_upd _ _ _ _ _ Hm Hu' Hids) as Hi. unfold upd in Hi. now rewrite Hof in Hi. }
  constructor; auto.
  - intros b. rewrite elem_of_app, list_elem_of_singleton, <- Hd. destruct (decide (b = a)) as [->|Hne].
    + rewrite lookup_insert_eq. split; [now right|eauto].
    + rewrite lookup_insert_ne by congruence. tauto.
  - now rewrite lookup_insert_ne by congruence.
  - pose proof (idx_upd _ _ _ _ _ Hon Hu' Hids) as Hi. unfold upd, online in Hi. rewrite Hof in Hi. cbn in Hi.
    rewrite delete_id in Hi; [exact Hi|]. apply eq_None_not_Some. intros [b Hb]. apply Hon in Hb as (w & Hw & E & _).
    now apply (Hnew b w).
  - intros b. rewrite elem_of_touch, Hz. destruct (decide (b = a)) as [->|Hne].
    + rewrite lookup_insert_eq. split; [eauto|auto].
    + rewrite lookup_insert_ne by congruence. intuition.
  - intros t b Hb. apply lookup_insert_Some in Hb as [[<- <-]|[_ Hb]]; [rewrite lookup_insert_eq; eauto|].
    destruct (Hn t b Hb) as (x & Hx & E). exists x. split; [|exact E]. rewrite lookup_insert_ne; [exact Hx|]. intros ->. congruence.
  - intros b x Hx. apply lookup_insert_Some in Hx as [[<- <-]|[_ Hx]]; eauto.
  - apply (sorted_touch B zl a v now Ho); [|exact Htime]. intros b x Hx. apply (po_zombie _ _ (Hp b x Hx)).
Qed.

(** A player leaves. *)
Lemma so_delete now B on off tb ns al zl p v s :
  state_ok now B on off tb ns al zl -> B !! p = Some v -> name_string (pl_name v) = Ret s ->
  state_ok now (delete p B) (delete (pl_id v) on) (delete (pl_id v) off) (delete (pl_id v) tb) (delete s ns)
    (without p al) (without p zl).
Proof.
  intros [Hd H0' Hu Hon Hoff Ht Hz Hn Hp Ho] Hv Hs. constructor; auto using idx_delete, unique_delete.
  - intros a. rewrite elem_of_without, <- Hd. destruct (decide (a = p)) as [->|Hne].
    + rewrite lookup_delete_eq. split; [intros [? [=]]|tauto].
    + rewrite lookup_delete_ne by congruence. tauto.
  - apply lookup_delete_None. now right.
  - intros a. rewrite elem_of_without, Hz. destruct (decide (a = p)) as [->|Hne].
    + rewrite lookup_delete_eq. split; [tauto|]. intros (x & E & _). discriminate.
    + rewrite lookup_delete_ne by congruence. tauto.
  - intros t a Ha. apply lookup_delete_Some in Ha as [Hne Ha]. destruct (Hn t a Ha) as (x & Hx & E). exists x.
    split; [|exact E]. rewrite lookup_delete_ne; [exact Hx|]. intros ->. congruence.
  - intros a x Hx. apply lookup_delete_Some in Hx as [_ Hx]. eauto.
  - rewrite (zombie_times_ext B); [now apply sorted_without|]. intros a Ha. apply elem_of_without in Ha as [_ Ha].
    now rewrite lookup_delete_ne by congruence.
Qed.

(** A player gets another name. *)
Lemma so_rename now B on off tb ns al zl p w v s s' :
  state_ok now B on off tb ns al zl -> ns !! s = Some p -> B !! p = Some w -> player_ok now v ->
  pl_id v = pl_id w -> pl_conn v = pl_conn w -> pl_zombie_time v = pl_zombie_time w -> name_string (pl_name v) = Ret s' ->
  state_ok now (<[p := v]> B) on off tb (<[s' := p]> (delete s ns)) al zl.
Proof.
  intros [Hd H0' Hu Hon Hoff Ht Hz Hn Hp Ho] Hns Hw Hok Hid Hc Htime Hs.
  assert (Hu' : unique_ids (<[p := v]> B)) by now apply (unique_write B p v w).
  assert (Hids : forall x, B !! p = Some x -> pl_id x = pl_id v) by (intros x Hx; congruence).
  assert (Hof : offline v = offline w) by (unfold offline; now rewrite Hc).
  assert (Hkeep : forall m P, (P v = P w) -> indexes B m P -> indexes (<[p := v]> B) m P).
  { intros m P HP Hm. pose proof (idx_upd _ _ _ _ _ Hm Hu' Hids) as Hi. now rewrite (upd_same B m P p v w) in Hi. }
  constructor; auto.
  - intros a. rewrite <- Hd. destruct (decide (a = p)) as [->|Hne]; [rewrite lookup_insert_eq, Hw; split; eauto|].
    now rewrite lookup_insert_ne by congruence.
  - rewrite lookup_insert_ne; [exact H0'|]. intros ->. congruence.
  - apply Hkeep; [unfold online; now rewrite Hof|exact Hon].
  - intros a. rewrite Hz. destruct (decide (a = p)) as [->|Hne].
    + rewrite lookup_insert_eq, Hw. split; intros (x & [= <-] & Hx); eexists; (split; [reflexivity|congruence]).
    + now rewrite lookup_insert_ne by congruence.
  - intros t a Ha. apply lookup_insert_Some in Ha as [[<- <-]|[_ Ha]]; [rewrite lookup_insert_eq; eauto|].
    apply lookup_delete_Some in Ha as [Hne Ha]. destruct (Hn t a Ha) as (x & Hx & E). exists x. split; [|exact E].
    rewrite lookup_insert_ne; [exact Hx|]. intros ->. destruct (Hn s a Hns) as (y & Hy & E'). congruence.
  - intros a x Hx. apply lookup_insert_Some in Hx as [[<- <-]|[_ Hx]]; eauto.
  - rewrite (zombie_times_ext B); [exact Ho|]. intros a _. destruct (decide (a = p)) as [->|Hne].
    + rewrite lookup_insert_eq, Hw. cbn. now rewrite Htime.
    + now rewrite lookup_insert_ne by congruence.
Qed.

Lemma state_ok_mono now now' B on off tb ns al zl : state_ok now B on off tb ns al zl -> now <= now' -> state_ok now' B on off tb ns al zl.
Proof. intros [] Hle. constructor; auto. intros a v Hv. eapply player_ok_mono; eauto. Qed.
End State.

(** ** The operations keep the cache consistent *)

Section Operations.
Context {D W : Type} `{ModuleLaws D W} {M : Type} `{PtrMapLaws M}.
#[local] Abbreviation player := (Player D).
#[local] Abbreviation cache := (PlayerManager D W M).

(** The cache at the time [now]: linked players in order of last use [al], all players [dl], zombies
    in order of their time [zl]; the maps have room for [n] entries. *)
Record cache_at (n now : Z) (c : cache) (al dl zl : list Z) : Prop := {
  co_lists : lists_ok c al zl;
  co_state : state_ok now (players c) (pm_abs (player_online c)) (pm_abs (player_offline c)) (zombie_abs c)
               (to_gmap (player_names c)) dl zl;
  co_maps : pm_ok (player_online c) /\ pm_ok (player_offline c) /\ pm_ok (player_not_exist c) /\ zombie_map_ok c;
  co_names : map_ok (player_names c) /\ counted (player_names c);
  co_size : Z.of_nat (size (players c)) <= n /\ Z.of_nat (size (pm_abs (player_not_exist c))) <= n < 2 ^ 61 - 1;
  co_now : 0 < now }.

(** Between two calls all players are linked. *)
Definition cache_ok (n now : Z) (c : cache) (al zl : list Z) : Prop := cache_at n now c al al zl.

Lemma co_player n now c al dl zl p v : cache_at n now c al dl zl -> c_heap c !! p = Some v -> p <> 0 /\ players c !! p = Some (bare v).
Proof.
  intros Hok Hv. assert (Hp : players c !! p = Some (bare v)) by (apply players_lookup; eauto). split; [|exact Hp].
  intros ->. rewrite (so_null _ _ _ _ _ _ _ _ (co_state _ _ _ _ _ _ Hok)) in Hp. discriminate.
Qed.

Lemma co_heap n now c al dl zl p v : cache_at n now c al dl zl -> players c !! p = Some v ->
  p <> 0 /\ exists w, c_heap c !! p = Some w /\ bare w = v.
Proof.
  intros Hok Hv. apply players_lookup in Hv as (w & Hw & <-). split; [|eauto]. now destruct (co_player _ _ _ _ _ _ _ _ Hok Hw).
Qed.

Lemma names_size (B : gmap Z player) (ns : gmap (list Z) Z) :
  (forall s a, ns !! s = Some a -> exists v, B !! a = Some v /\ name_string (pl_name v) = Ret s) -> (size ns <= size B)%nat.
Proof.
  revert B. induction ns as [|s a ns Hs IH] using map_ind; intros B Hn; [rewrite map_size_empty; lia|].
  rewrite map_size_insert_None by exact Hs. destruct (Hn s a) as (v & Hv & Es); [apply lookup_insert_eq|].
  assert (Hd : size B = S (size (delete a B))).
  { rewrite (map_size_delete_Some _ _ (ex_intro _ _ Hv)). assert (size B <> 0)%nat; [|lia]. apply map_size_ne_0_lookup. eauto. }
  rewrite Hd. apply le_n_S, IH. intros t b Hb. assert (s <> t) by (intros ->; congruence).
  destruct (Hn t b) as (w & Hw & Et); [now rewrite lookup_insert_ne|]. exists w. split; [|exact Et].
  rewrite lookup_delete_ne; [exact Hw|]. intros ->. congruence.
Qed.

(** Room for the calls of [_agMap_*_set]. *)
Lemma co_room n now c al dl zl : cache_at n now c al dl zl ->
  Z.of_nat (size (pm_abs (player_online c))) < 2 ^ 61 /\ Z.of_nat (size (pm_abs (player_offline c))) < 2 ^ 61 /\
  Z.of_nat (size (zombie_abs c)) < 2 ^ 61 /\ Z.of_nat (size (to_gmap (player_names c))) < 2 ^ 61 /\
  Z.of_nat (size (pm_abs (player_not_exist c))) < 2 ^ 61.
Proof.
  intros [_ [_ _ _ H1' H2' H3' _ H4' _ _] _ _ [Hs Hn] _].
  apply idx_size in H1', H2', H3'. pose proof (names_size _ _ H4'). lia.
Qed.

Lemma co_no_zombies n now c al dl zl : cache_at n now c al dl zl -> zl = [] -> zombie_abs c = ∅.
Proof.
  intros Hok ->. apply map_empty. intros k. apply eq_None_not_Some. intros [a Ha].
  destruct (co_state _ _ _ _ _ _ Hok) as [_ _ _ _ _ Ht Hz _ _ _]. apply Ht in Ha as (v & Hv & _ & Hof).
  assert (Hin : a ∈ []) by (apply Hz; eauto). inversion Hin.
Qed.

Lemma player_ok_active now (v : player) t : player_ok now v -> player_ok now (set_last_active v t).
Proof. intros []. now constructor. Qed.
Lemma player_ok_conn now (v : player) x : player_ok now v -> player_ok now (set_conn v x).
Proof. intros []. now constructor. Qed.
Lemma player_ok_zombie now (v : player) : player_ok now v -> player_ok now (set_zombie_time v now).
Proof. intros []. constructor; auto. cbn. lia. Qed.
Lemma player_ok_bare now (v : player) : player_ok now (bare v) <-> player_ok now v.
Proof. split; intros []; now constructor. Qed.

(** The last use of a cached player is noted. *)
Lemma update_active_ok n now c al dl zl p v :
  cache_at n now c al dl zl -> players c !! p = Some v ->
  exists h q, _update_player_active_list c p now = Ret (with_active c h q, p) /\
    cache_at n now (with_active c h q) (touch p al) dl zl /\ players (with_active c h q) = <[p := set_last_active v now]> (players c).
Proof.
  intros Hok Hv. destruct (co_heap _ _ _ _ _ _ _ _ Hok Hv) as (Hp & w & Hw & <-).
  destruct (update_active_spec c p al zl w now (co_lists _ _ _ _ _ _ Hok) Hp Hw) as (h & q & He & Hl & Hb).
  exists h, q. split; [exact He|]. split; [|exact Hb]. destruct Hok as [_ Hs Hm Hn [Hsz Hne] Hnow].
  constructor; [exact Hl| |exact Hm|exact Hn| |exact Hnow].
  - change (players (with_active c h q)) with (bare <$> h). rewrite Hb. cbn [with_active player_online player_offline player_names].
    change (zombie_abs (with_active c h q)) with (zombie_abs c).
    pose proof Hs as [Hd _ Hu Hon Hoff Ht Hz _ Hpl Ho].
    rewrite <- (upd_same _ _ online p (set_last_active (bare w) now) (bare w) Hon Hu Hv eq_refl eq_refl).
    rewrite <- (upd_same _ _ offline p (set_last_active (bare w) now) (bare w) Hoff Hu Hv eq_refl eq_refl).
    rewrite <- (upd_same _ _ offline p (set_last_active (bare w) now) (bare w) Ht Hu Hv eq_refl eq_refl).
    apply (so_write now _ _ _ _ _ dl zl p (bare w)); auto.
    + now apply player_ok_active, Hpl with p.
    + intros a. change (offline (set_last_active (bare w) now)) with (offline (bare w)). rewrite Hz.
      destruct (decide (a = p)) as [->|Hap]; [|intuition]. rewrite Hv. split; [intros (x & [= <-] & E); auto|].
      intros [[_ ?]|[_ E]]; [congruence|eauto].
    + rewrite (zombie_times_ext (players c)); [exact Ho|]. intros a _. destruct (decide (a = p)) as [->|Hap].
      * now rewrite lookup_insert_eq, Hv.
      * now rewrite lookup_insert_ne by congruence.
  - change (players (with_active c h q)) with (bare <$> h). rewrite Hb. cbn [with_active player_not_exist]. split; [|exact Hne].
    rewrite (map_size_insert_Some _ _ _ (ex_intro _ _ Hv)). exact Hsz.
Qed.

(** The zombie list is left alone by an online player. *)
Lemma remove_zombie_online n now c al dl zl p v :
  cache_at n now c al dl zl -> players c !! p = Some v -> online v = true ->
  exists h q t, try_remove_player_from_zombie_list c p = Ret (with_zombies c h q t) /\
    cache_at n now (with_zombies c h q t) al dl zl /\ players (with_zombies c h q t) = players c.
Proof.
  intros Hok Hv Hon. destruct (co_heap _ _ _ _ _ _ _ _ Hok Hv) as (Hp & w & Hw & <-).
  destruct (co_room _ _ _ _ _ _ Hok) as (_ & _ & Hroom & _).
  destruct (co_maps _ _ _ _ _ _ Hok) as (_ & _ & _ & Hzm).
  destruct (remove_zombie_spec c p al zl w (co_lists _ _ _ _ _ _ Hok) Hp Hw Hzm Hroom (co_no_zombies _ _ _ _ _ _ Hok))
    as (h & q & t & He & Hl & Hb & Hzm' & Habs).
  exists h, q, t. split; [exact He|]. split; [|exact Hb].
  pose proof (co_state _ _ _ _ _ _ Hok) as [_ _ Hu _ _ Ht Hz _ _ _].
  assert (Hnz : p ∉ zl).
  { intros Hin. apply Hz in Hin as (x & Hx & Hof). unfold online in Hon. rewrite Hv in Hx. injection Hx as <-. now rewrite Hof in Hon. }
  rewrite delete_id in Habs.
  - unfold without in Hl. rewrite filter_absent in Hl by exact Hnz. destruct Hok as [_ Hs (? & ? & ? & _) Hn Hsz Hnow].
    constructor; auto; change (players (with_zombies c h q t)) with (bare <$> h); rewrite Hb; [|exact Hsz].
    rewrite Habs. exact Hs.
  - apply (idx_none _ _ _ (bare w) p Ht Hu Hv). unfold online in Hon. destruct (offline (bare w)); [discriminate|reflexivity].
Qed.

(** A linked player is touched. *)
Lemma cache_touched n now c al zl p : p ∈ al -> cache_at n now c (touch p al) al zl -> cache_ok n now c (touch p al) zl.
Proof.
  intros Hp [Hl [] Hm Hn Hs Hnow]. constructor; auto. constructor; auto. intros a. rewrite so_dom0, elem_of_touch.
  split; [auto|]. now intros [? | ->].
Qed.

Lemma co_linked n now c al zl p v : cache_ok n now c al zl -> players c !! p = Some v -> p ∈ al.
Proof. intros [_ [Hd _ _ _ _ _ _ _ _ _] _ _ _ _] Hv. apply Hd. eauto. Qed.

(** Calls that change players and lists only. *)
Definition same_tables (c c' : cache) : Prop :=
  c_world c' = c_world c /\ player_online c' = player_online c /\ player_offline c' = player_offline c /\
  player_names c' = player_names c /\ player_not_exist c' = player_not_exist c.

Lemma touch_online n now c al zl p v :
  cache_ok n now c al zl -> players c !! p = Some v -> online v = true ->
  exists c', (c ← try_remove_player_from_zombie_list c p; _update_player_active_list c p now) = Ret (c', p) /\
    cache_ok n now c' (touch p al) zl /\ players c' = <[p := set_last_active v now]> (players c) /\ same_tables c c'.
Proof.
  intros Hok Hv Hon. pose proof (co_linked _ _ _ _ _ _ _ Hok Hv) as Hin.
  destruct (remove_zombie_online _ _ _ _ _ _ _ _ Hok Hv Hon) as (h & q & t & -> & Hok1 & Hp1).
  cbn [mbind outcome_bind]. rewrite <- Hp1 in Hv.
  destruct (update_active_ok _ _ _ _ _ _ _ _ Hok1 Hv) as (h' & q' & -> & Hok2 & Hp2). eexists. split; [reflexivity|].
  split; [now apply cache_touched|]. split; [now rewrite Hp2, Hp1|]. now repeat split.
Qed.

(** [agPM_GetOnline]: nothing when the player is not online. *)
Lemma get_online_spec n now c al zl id :
  cache_ok n now c al zl ->
  (agPM_GetOnline c id now = Ret (c, 0) /\ forall a v, players c !! a = Some v -> pl_id v = id -> online v = false) \/
  exists c' p v, agPM_GetOnline c id now = Ret (c', p) /\ players c !! p = Some v /\ pl_id v = id /\ online v = true /\
    cache_ok n now c' (touch p al) zl /\ players c' = <[p := set_last_active v now]> (players c) /\ same_tables c c'.
Proof.
  intros Hok. unfold agPM_GetOnline. destruct (co_maps _ _ _ _ _ _ Hok) as (Hm & _).
  rewrite pm_get_spec by exact Hm. cbn [mbind outcome_bind].
  destruct (idx_get _ _ _ id (so_online _ _ _ _ _ _ _ _ (co_state _ _ _ _ _ _ Hok)) (so_unique _ _ _ _ _ _ _ _ (co_state _ _ _ _ _ _ Hok)))
    as [(a & v & Hv & Hid & Hon & ->)|[-> Hnone]]; [right|left; split; [reflexivity|exact Hnone]]. cbn [from_option Datatypes.id].
  destruct (touch_online _ _ _ _ _ _ _ Hok Hv Hon) as (c' & He & Hok' & Hp & Hs). exists c', a, v. auto 10.
Qed.

(** Writing the connection, before the lists follow. *)
Lemma lists_conn (c : cache) al zl p w x :
  lists_ok c al zl -> c_heap c !! p = Some w -> lists_ok (with_heap c (<[p := set_conn w x]> (c_heap c))) al zl.
Proof. intros [Ha Hz] Hw. split; cbn; [now apply (a_queue_write _ _ _ p w)|now apply (z_queue_write _ _ _ p w)]. Qed.
Lemma players_conn (c : cache) p w x :
  players (with_heap c (<[p := set_conn w x]> (c_heap c))) = <[p := set_conn (bare w) x]> (players c).
Proof. unfold players. cbn. now rewrite fmap_insert, bare_conn. Qed.

Lemma set_online_spec n now c al zl p v conn :
  cache_ok n now c al zl -> players c !! p = Some v -> conn <> INVALID_ID ->
  exists c', agPM_SetOnline c p conn = Ret c' /\ cache_ok n now c' al (without p zl) /\
    players c' = <[p := set_conn v conn]> (players c) /\ c_world c' = c_world c.
Proof.
  intros Hok Hv Hconn. destruct (co_heap _ _ _ _ _ _ _ _ Hok Hv) as (Hp & w & Hw & Ew).
  assert (Hid : pl_id w = pl_id v) by now rewrite <- Ew.
  destruct (co_room _ _ _ _ _ _ Hok) as (Hr1 & Hr2 & Hr3 & _). pose proof (co_no_zombies _ _ _ _ _ _ Hok) as Hnil.
  destruct Hok as [Hl Hs (Hm1 & Hm2 & Hm3 & Hzm) Hn Hsz Hnow]. pose proof Hs as [_ _ Hu Hon Hoff Ht Hz _ Hpl Ho].
  set (v' := set_conn v conn). assert (Hv' : online v' = true /\ offline v' = false).
  { unfold online, offline, v'. cbn. now destruct (Z.eqb_spec conn INVALID_ID). }
  unfold agPM_SetOnline. destruct (Z.eqb_spec p 0); [contradiction|]. rewrite Hw. cbn [deref mbind outcome_bind].
  assert (Hmaps : exists m m', (if pl_conn w =? INVALID_ID then
           '(m, _) ← pm_set (player_online c) (pl_id w) p; '(m', _) ← pm_set (player_offline c) (pl_id w) 0;
           Ret (with_offline (with_online c m) m') else Ret c) = Ret (with_offline (with_online c m) m') /\ pm_ok m /\ pm_ok m' /\
      pm_abs m = upd online (pm_abs (player_online c)) p v' /\ pm_abs m' = upd offline (pm_abs (player_offline c)) p v').
  { rewrite Hid. change (pl_id v) with (pl_id v'). destruct (pl_conn w =? INVALID_ID) eqn:E.
    - destruct (pm_set_spec _ (pl_id v') p Hm1 Hr1) as (m & -> & Hm & Ha). cbn [mbind outcome_bind].
      destruct (pm_set_spec _ (pl_id v') 0 Hm2 Hr2) as (m' & -> & Hm' & Ha'). cbn [mbind outcome_bind]. exists m, m'.
      split; [reflexivity|]. split; [exact Hm|]. split; [exact Hm'|]. unfold upd. destruct Hv' as [-> ->].
      destruct (Z.eqb_spec p 0); [contradiction|]. auto.
    - exists (player_online c), (player_offline c). split; [now destruct c|]. split; [exact Hm1|]. split; [exact Hm2|].
      assert (Eo : offline v = false) by (unfold offline; now rewrite <- Ew). split; symmetry.
      + apply (upd_same _ _ _ p v' v Hon Hu Hv eq_refl). unfold online. rewrite (proj2 Hv'), Eo. reflexivity.
      + apply (upd_same _ _ _ p v' v Hoff Hu Hv eq_refl). now rewrite (proj2 Hv'), Eo. }
  destruct Hmaps as (m & m' & -> & Hm & Hm' & Ha & Ha'). cbn [mbind outcome_bind].
  set (c2 := with_heap (with_offline (with_online c m) m') _).
  assert (Hw2 : c_heap c2 !! p = Some (set_conn w conn)) by apply lookup_insert_eq.
  assert (Hl2 : lists_ok c2 al zl) by exact (lists_conn (with_offline (with_online c m) m') al zl p w conn Hl Hw).
  assert (Hp2 : players c2 = <[p := v']> (players c)).
  { transitivity (<[p := set_conn (bare w) conn]> (players c)); [exact (players_conn (with_offline (with_online c m) m') p w conn)|now rewrite Ew]. }
  destruct (remove_zombie_spec c2 p al zl _ Hl2 Hp Hw2 Hzm Hr3 Hnil) as (h & q & t & -> & Hl3 & Hb & Hzm' & Habs).
  exists (with_zombies c2 h q t). split; [reflexivity|]. rewrite Hp2 in Hb. split; [|split; [exact Hb|reflexivity]].
  assert (Hb' : players (with_zombies c2 h q t) = <[p := v']> (players c)) by exact Hb.
  constructor; [exact Hl3| |now split|exact Hn| |exact Hnow]; rewrite Hb'.
  - rewrite Habs. change (pl_id (set_conn w conn)) with (pl_id w). rewrite Hid.
    change (player_online (with_zombies c2 h q t)) with m. change (player_offline (with_zombies c2 h q t)) with m'.
    change (zombie_abs c2) with (zombie_abs c). rewrite Ha, Ha'.
    assert (Htb : delete (pl_id v) (zombie_abs c) = upd offline (zombie_abs c) p v') by (unfold upd; now rewrite (proj2 Hv')).
    rewrite Htb. apply (so_write now _ _ _ _ _ al zl p v); auto.
    + now apply player_ok_conn, Hpl with p.
    + intros a. rewrite elem_of_without, (proj2 Hv'). intuition discriminate.
    + rewrite (zombie_times_ext (players c)); [now apply sorted_without|]. intros a Hin. apply elem_of_without in Hin as [_ Hin].
      now rewrite lookup_insert_ne by congruence.
  - rewrite (map_size_insert_Some _ _ _ (ex_intro _ _ Hv)). exact Hsz.
Qed.

(** What [agPM_Release] does to lists and maps, whether or not the player is still a zombie. *)
Lemma release_effect n (c : cache) al zl p v s :
  lists_ok c al zl -> players c !! p = Some v -> p <> 0 -> p ∈ al -> name_string (pl_name v) = Ret s ->
  pm_ok (player_online c) /\ pm_ok (player_offline c) /\ zombie_map_ok c -> map_ok (player_names c) /\ counted (player_names c) ->
  n < 2 ^ 61 -> Z.of_nat (size (pm_abs (player_online c))) <= n -> Z.of_nat (size (pm_abs (player_offline c))) <= n ->
  Z.of_nat (size (zombie_abs c)) <= n -> Z.of_nat (size (to_gmap (player_names c))) <= n -> (zl = [] -> zombie_abs c = ∅) ->
  exists c', agPM_Release c p = Ret c' /\ lists_ok c' (without p al) (without p zl) /\ players c' = delete p (players c) /\
    pm_abs (player_online c') = (if offline v then pm_abs (player_online c) else delete (pl_id v) (pm_abs (player_online c))) /\
    pm_abs (player_offline c') = (if offline v then delete (pl_id v) (pm_abs (player_offline c)) else pm_abs (player_offline c)) /\
    zombie_abs c' = delete (pl_id v) (zombie_abs c) /\ to_gmap (player_names c') = delete s (to_gmap (player_names c)) /\
    (pm_ok (player_online c') /\ pm_ok (player_offline c') /\ zombie_map_ok c') /\
    (map_ok (player_names c') /\ counted (player_names c')) /\ player_not_exist c' = player_not_exist c.
Proof.
  intros [Hla Hlz] Hv Hp Hin Hs (Hm1 & Hm2 & Hzm) [Hn Hcn] Hroom Hr1 Hr2 Hr3 Hr4 Hnil.
  apply players_lookup in Hv as (w & Hw & Ew). unfold agPM_Release. rewrite Hw. cbn [deref mbind outcome_bind].
  assert (Hid : pl_id w = pl_id v) by now rewrite <- Ew. assert (Hnm : pl_name w = pl_name v) by now rewrite <- Ew.
  assert (Hcn' : (pl_conn w =? INVALID_ID) = offline v) by now rewrite <- Ew. rewrite Hcn', Hid, Hnm.
  assert (Hmaps : exists m m', (if offline v
       then '(m, _) ← pm_set (player_offline c) (pl_id v) 0; Ret (with_offline c m)
       else '(m, _) ← pm_set (player_online c) (pl_id v) 0; Ret (with_online c m)) = Ret (with_online (with_offline c m') m) /\
     pm_ok m /\ pm_ok m' /\ pm_abs m = (if offline v then pm_abs (player_online c) else delete (pl_id v) (pm_abs (player_online c))) /\
     pm_abs m' = (if offline v then delete (pl_id v) (pm_abs (player_offline c)) else pm_abs (player_offline c))).
  { destruct (offline v).
    - destruct (pm_set_spec _ (pl_id v) 0 Hm2) as (m' & -> & Hm' & Ha); [lia|]. exists (player_online c), m'. now destruct c.
    - destruct (pm_set_spec _ (pl_id v) 0 Hm1) as (m & -> & Hm & Ha); [lia|]. exists m, (player_offline c). now destruct c. }
  destruct Hmaps as (m & m' & -> & Hm & Hm' & Ha & Ha'). cbn [mbind outcome_bind]. rewrite Hs. cbn [mbind outcome_bind].
  cbn [with_online with_offline player_names c_world].
  destruct (sp_set_spec (player_names c) s 0 Hn Hcn) as (ns & -> & Hns & Hcns & Hnsa); [lia|]. cbn [mbind outcome_bind].
  destruct (release_spec (c_world c) w) as (w' & ->). cbn [mbind outcome_bind].
  destruct (ring_node _ _ _ p (qi_ring _ _ _ Hla) Hin) as (x & y & Hy & _ & _ & Hyin). unfold nx in Hy. rewrite Hw in Hy.
  cbn in Hy. injection Hy as Hy. destruct (Z.eqb_spec (pl_next w) 0) as [E|_].
  { destruct (ring_null _ _ _ (qi_ring _ _ _ Hla)). congruence. }
  cbn [negb c_assert mbind outcome_bind with_world with_names with_online with_offline c_heap player_active_list].
  destruct (queue_remove (H0 := active_laws) _ _ _ p Hla Hp (ex_intro _ _ Hw)) as (h1 & q1 & He1 & Hq1 & _ & Hs1).
  unfold remove_active. rewrite He1. cbn [mbind outcome_bind].
  match goal with |- context [try_remove_player_from_zombie_list ?x p] => set (c1 := x) end.
  destruct (a_same _ _ _ _ Hs1 Hw) as (w1 & Hw1 & _ & _ & _ & Hb1).
  assert (Hl1 : lists_ok c1 (without p al) zl) by (split; [exact Hq1|now apply (z_queue_a (c_heap c))]).
  destruct (remove_zombie_spec c1 p (without p al) zl w1 Hl1 Hp Hw1 Hzm) as (h2 & q2 & t2 & -> & Hl2 & Hb2 & Hzm2 & Habs2);
    [change (zombie_abs c1) with (zombie_abs c); lia|exact Hnil|].
  cbn [mbind outcome_bind]. eexists. split; [reflexivity|].
  assert (Hw1id : pl_id w1 = pl_id v) by (change (pl_id (bare w1) = pl_id v); now rewrite Hb1, Ew).
  split; [|split; [|split; [exact Ha|split; [exact Ha'|split; [|split; [exact Hnsa|auto]]]]]].
  - destruct Hl2 as [Hla2 Hlz2]. split; cbn.
    + apply (queue_delete (H := active_links)); [exact Hla2|]. rewrite elem_of_without. tauto.
    + apply (queue_delete (H := zombie_links)); [exact Hlz2|]. rewrite elem_of_without. tauto.
  - unfold players. cbn. rewrite fmap_delete, Hb2. f_equal. exact (a_bare _ _ Hs1).
  - rewrite <- Hw1id. exact Habs2.
Qed.

Lemma release_ok n now c al zl p v :
  cache_ok n now c al zl -> players c !! p = Some v ->
  exists c', agPM_Release c p = Ret c' /\ cache_ok n now c' (without p al) (without p zl) /\ players c' = delete p (players c).
Proof.
  intros Hok Hv. destruct (co_heap _ _ _ _ _ _ _ _ Hok Hv) as (Hp & _). pose proof (co_linked _ _ _ _ _ _ _ Hok Hv) as Hin.
  pose proof (co_no_zombies _ _ _ _ _ _ Hok) as Hnil. destruct Hok as [Hl Hst (Hm1 & Hm2 & Hm3 & Hzm) Hn [Hsz Hne] Hnow].
  pose proof Hst as [_ _ Hu Hon Hoff Ht _ Hns Hpl _]. destruct (po_name _ _ (Hpl p v Hv)) as [s Hs].
  pose proof (idx_size _ _ _ Hon). pose proof (idx_size _ _ _ Hoff). pose proof (idx_size _ _ _ Ht). pose proof (names_size _ _ Hns).
  destruct (release_effect n c al zl p v s) as (c' & He & Hl' & Hp' & E1 & E2 & E3 & E4 & Hmaps & Hn' & Ene); auto; try lia.
  exists c'. split; [exact He|]. split; [|exact Hp'].
  constructor; [exact Hl'| |rewrite Ene; tauto|exact Hn'| |exact Hnow]; rewrite Hp'.
  - rewrite E1, E2, E3, E4. pose proof (so_delete now _ _ _ _ _ _ _ p v s Hst Hv Hs) as Hd. destruct (offline v) eqn:E.
    + rewrite (delete_id (pm_abs (player_online c))) in Hd; [exact Hd|]. apply (idx_none _ _ _ v p Hon Hu Hv). unfold online. now rewrite E.
    + rewrite (delete_id (pm_abs (player_offline c))) in Hd; [exact Hd|]. now apply (idx_none _ _ _ v p Hoff Hu Hv).
  - rewrite Ene. split; [|exact Hne]. rewrite map_size_delete, Hv. cbn. lia.
Qed.

(** One round of the loop over the zombies. *)
Lemma expire_one n now c al zl p v :
  cache_ok n now c al zl -> players c !! p = Some v -> offline v = true ->
  exists c', (c ← try_remove_player_from_zombie_list c p; agPM_Release c p) = Ret c' /\
    cache_ok n now c' (without p al) (without p zl) /\ players c' = delete p (players c).
Proof.
  intros Hok Hv Hof. destruct (co_heap _ _ _ _ _ _ _ _ Hok Hv) as (Hp & w & Hw & Ew).
  pose proof (co_linked _ _ _ _ _ _ _ Hok Hv) as Hin. pose proof (co_no_zombies _ _ _ _ _ _ Hok) as Hnil.
  destruct (co_room _ _ _ _ _ _ Hok) as (_ & _ & Hr3 & _).
  destruct Hok as [Hl Hst (Hm1 & Hm2 & Hm3 & Hzm) Hn [Hsz Hne] Hnow].
  destruct (remove_zombie_spec c p al zl w Hl Hp Hw Hzm Hr3 Hnil) as (h & q & t & -> & Hl1 & Hb1 & Hzm1 & Habs1).
  cbn [mbind outcome_bind]. set (c1 := with_zombies c h q t) in *. assert (Hid : pl_id w = pl_id v) by now rewrite <- Ew.
  rewrite Hid in Habs1. assert (Hp1 : players c1 = players c) by exact Hb1.
  pose proof Hst as [_ _ Hu Hon Hoff Ht Hz Hns Hpl _]. destruct (po_name _ _ (Hpl p v Hv)) as [s Hs].
  pose proof (idx_size _ _ _ Hon). pose proof (idx_size _ _ _ Hoff). pose proof (idx_size _ _ _ Ht). pose proof (names_size _ _ Hns).
  destruct (release_effect n c1 al (without p zl) p v s) as (c' & He & Hl' & Hp' & E1 & E2 & E3 & E4 & Hmaps & Hn' & Ene); auto; try lia.
  - now rewrite Hp1.
  - change (player_online c1) with (player_online c). lia.
  - change (player_offline c1) with (player_offline c). lia.
  - rewrite Habs1, map_size_delete. destruct (zombie_abs c !! pl_id v); cbn; lia.
  - change (player_names c1) with (player_names c). lia.
  - intros E. rewrite Habs1. apply map_empty. intros k. apply eq_None_not_Some. intros [a Ha].
    apply lookup_delete_Some in Ha as [Hk Ha]. apply Ht in Ha as (x & Hx & Hxid & Hxo).
    assert (Ha : a ∈ without p zl); [|rewrite E in Ha; inversion Ha]. apply elem_of_without. split; [apply Hz; eauto|].
    intros ->. congruence.
  - exists c'. split; [exact He|]. rewrite Hp1 in Hp'. split; [|exact Hp'].
    assert (Hww : without p (without p zl) = without p zl).
    { unfold without at 1. apply filter_absent. rewrite elem_of_without. tauto. }
    rewrite Hww in Hl'. constructor; [exact Hl'| |rewrite Ene; tauto|exact Hn'| |exact Hnow]; rewrite Hp'.
    + rewrite E1, E2, E3, E4, Habs1, delete_delete_eq. pose proof (so_delete now _ _ _ _ _ _ _ p v s Hst Hv Hs) as Hd.
      rewrite Hof. rewrite (delete_id (pm_abs (player_online c))) in Hd; [exact Hd|].
      apply (idx_none _ _ _ v p Hon Hu Hv). unfold online. now rewrite Hof.
    + rewrite Ene. split; [|exact Hne]. rewrite map_size_delete, Hv. cbn. lia.
Qed.

Lemma cache_ok_mono n n' now now' c al zl : cache_ok n now c al zl -> n <= n' < 2 ^ 61 - 1 -> now <= now' -> cache_ok n' now' c al zl.
Proof.
  intros [Hl Hs Hm Hn [Hsz Hne] Hnow] Hle Ht. constructor; auto; [|lia..]. now apply (state_ok_mono now).
Qed.

Lemma world_ok n now c al zl w : cache_ok n now c al zl -> cache_ok n now (with_world c w) al zl.
Proof. now intros []. Qed.

(** *** Modules and names *)

(** A player is written whose links, id, connection and zombie time are kept. *)
Lemma write_same n now c al zl p w v w' :
  cache_ok n now c al zl -> c_heap c !! p = Some w -> same_core w v -> player_ok now v ->
  cache_ok n now (with_heap (with_world c w') (<[p := v]> (c_heap c))) al zl.
Proof.
  intros Hok Hw (u & b & ms & ->) Hpok. destruct (co_player _ _ _ _ _ _ _ _ Hok Hw) as (Hp & Hv).
  destruct Hok as [[Hla Hlz] Hst Hm Hn [Hsz Hne] Hnow]. set (v := with_data w u b ms) in *.
  assert (Hb : bare <$> <[p := v]> (c_heap c) = <[p := bare v]> (players c)) by (unfold players; now rewrite fmap_insert).
  constructor; auto.
  - split; cbn; [now apply (a_queue_write _ _ _ p w)|now apply (z_queue_write _ _ _ p w)].
  - change (players (with_heap _ _)) with (bare <$> <[p := v]> (c_heap c)). rewrite Hb.
    pose proof Hst as [Hd _ Hu Hon Hoff Ht Hz _ Hpl Ho].
    cbn [with_heap with_world player_online player_offline player_names].
    change (zombie_abs (with_heap _ _)) with (zombie_abs c).
    rewrite <- (upd_same _ _ online p (bare v) (bare w) Hon Hu Hv eq_refl eq_refl).
    rewrite <- (upd_same _ _ offline p (bare v) (bare w) Hoff Hu Hv eq_refl eq_refl).
    rewrite <- (upd_same _ _ offline p (bare v) (bare w) Ht Hu Hv eq_refl eq_refl).
    apply (so_write now _ _ _ _ _ al zl p (bare w)); auto.
    + now apply player_ok_bare.
    + intros a. change (offline (bare v)) with (offline (bare w)). rewrite Hz.
      destruct (decide (a = p)) as [->|Hap]; [|intuition]. rewrite Hv. split; [intros (x & [= <-] & E); auto|].
      intros [[_ ?]|[_ E]]; [congruence|eauto].
    + rewrite (zombie_times_ext (players c)); [exact Ho|]. intros a _. destruct (decide (a = p)) as [->|Hap].
      * now rewrite lookup_insert_eq, Hv.
      * now rewrite lookup_insert_ne by congruence.
  - change (players (with_heap _ _)) with (bare <$> <[p := v]> (c_heap c)). rewrite Hb. split; [|exact Hne].
    rewrite (map_size_insert_Some _ _ _ (ex_intro _ _ Hv)). exact Hsz.
Qed.

Lemma player_module_ok n now c al zl p v m :
  cache_ok n now c al zl -> players c !! p = Some v -> (m < PLAYER_MODULE_COUNT)%nat ->
  exists c' o, player_module c p m now = Ret (c', o) /\ cache_ok n now c' al zl.
Proof.
  intros Hok Hv Hm. destruct (co_heap _ _ _ _ _ _ _ _ Hok Hv) as (Hp & w & Hw & Ew). unfold player_module.
  rewrite Hw. cbn [deref mbind outcome_bind]. pose proof (co_now _ _ _ _ _ _ Hok) as Hnow.
  assert (Hpok : player_ok now w) by (apply player_ok_bare; rewrite Ew; now apply (so_players _ _ _ _ _ _ _ _ (co_state _ _ _ _ _ _ Hok) p)).
  destruct (get_module_spec now (c_world c) w m Hpok ltac:(lia) Hm) as (w' & v' & o & -> & Hpok' & Hc & _).
  cbn [mbind outcome_bind]. eexists _, o. split; [reflexivity|]. now apply (write_same n now c al zl p w).
Qed.

(** The name of a player, as [player_get_name] finds it. *)
Lemma get_name_spec now w v :
  player_ok now v -> 0 <= now ->
  exists w' v' s own, player_get_name w v now = Ret (w', v', s, own) /\ player_ok now v' /\ same_core v v' /\
    if own : bool then name_string (pl_name v') = Ret s else name_ok s.
Proof.
  intros Hok Hnow. unfold player_get_name. destruct (po_name _ _ Hok) as [s Hs].
  destruct (negb (pl_loading v =? 0)).
  { rewrite Hs. exists w, v, s, true. split; [reflexivity|]. split; [exact Hok|]. split; [apply same_core_refl|exact Hs]. }
  unfold player_get_property. destruct (get_module_spec now w v PLAYER_MODULE_PROPERTY Hok Hnow) as (w1 & v1 & o & -> & Hok1 & Hc1 & Hd & _);
    [unfold PLAYER_MODULE_PROPERTY, PLAYER_MODULE_COUNT; lia|]. cbn [mbind outcome_bind].
  destruct o as [d|].
  - exists w1, v1, (property_name d), false. split; [reflexivity|]. split; [exact Hok1|]. split; [exact Hc1|].
    now apply (Hd d eq_refl).
  - destruct (po_name _ _ Hok1) as [s1 Hs1]. rewrite Hs1. exists w1, v1, s1, true. auto.
Qed.

Lemma rename_ok n now c al zl old :
  cache_ok n now c al zl ->
  exists c', agPM_ChangeNameRecord c old now = Ret c' /\ cache_ok n now c' al zl.
Proof.
  intros Hok. unfold agPM_ChangeNameRecord, _agMap_sp_get. destruct (co_names _ _ _ _ _ _ Hok) as [Hn Hcn].
  rewrite (agMap_get_spec _ _ Hn). cbn [mbind outcome_bind].
  destruct (to_gmap (player_names c) !! old) as [p|] eqn:E; cbn [from_option]; [|exists c; auto].
  destruct (so_names _ _ _ _ _ _ _ _ (co_state _ _ _ _ _ _ Hok) _ _ E) as (v & Hv & Hs).
  destruct (co_heap _ _ _ _ _ _ _ _ Hok Hv) as (Hp & w & Hw & Ew). cbn [Datatypes.id].
  destruct (Z.eqb_spec p 0); [contradiction|]. destruct (co_room _ _ _ _ _ _ Hok) as (_ & _ & _ & Hr4 & _).
  destruct (sp_set_spec _ old 0 Hn Hcn Hr4) as (ns1 & -> & Hns1 & Hcns1 & Ha1).
  cbn [mbind outcome_bind Z.eqb] in *. rewrite Hw. cbn [deref mbind outcome_bind].
  pose proof (co_now _ _ _ _ _ _ Hok) as Hnow. pose proof (co_state _ _ _ _ _ _ Hok) as Hst.
  assert (Hpok : player_ok now w) by (apply player_ok_bare; rewrite Ew; now apply (so_players _ _ _ _ _ _ _ _ Hst p)).
  destruct (get_name_spec now (c_world c) w Hpok ltac:(lia)) as (w' & v1 & s & own & -> & Hok1 & Hc1 & Hname). cbn [mbind outcome_bind].
  set (v2 := if own then v1 else set_name v1 (strncpy_name s)).
  assert (Hv2 : player_ok now v2 /\ name_string (pl_name v2) = Ret s).
  { unfold v2. destruct own; [auto|]. split; [now apply player_ok_name|now apply name_string_strncpy]. }
  destruct Hv2 as [Hpok2 Hs2]. rewrite Hs2. cbn [mbind outcome_bind].
  assert (Hsame : pl_id v2 = pl_id w /\ pl_conn v2 = pl_conn w /\ pl_zombie_time v2 = pl_zombie_time w /\
    pl_prev v2 = pl_prev w /\ pl_next v2 = pl_next w /\ pl_zprev v2 = pl_zprev w /\ pl_znext v2 = pl_znext w).
  { unfold v2. destruct Hc1 as (u & b & ms & ->). destruct own; auto 10. }
  destruct Hsame as (I1 & I2 & I3 & L1 & L2 & L3 & L4).
  assert (Hr1 : Z.of_nat (size (to_gmap ns1)) < 2 ^ 61).
  { rewrite Ha1, map_size_delete, E. cbn. lia. }
  destruct (sp_set_spec ns1 s p Hns1 Hcns1 Hr1) as (ns2 & -> & Hns2 & Hcns2 & Ha2). cbn [mbind outcome_bind].
  eexists. split; [reflexivity|]. destruct Hok as [[Hla Hlz] _ Hm _ [Hsz Hne] _].
  assert (Hb : bare <$> <[p := v2]> (c_heap c) = <[p := bare v2]> (players c)) by (unfold players; now rewrite fmap_insert).
  constructor; [|..|exact Hnow].
  - split; cbn; [now apply (a_queue_write _ _ _ p w)|now apply (z_queue_write _ _ _ p w)].
  - change (players (with_names _ _)) with (bare <$> <[p := v2]> (c_heap c)). rewrite Hb.
    cbn [with_names with_heap with_world player_online player_offline player_names]. rewrite Ha2, Ha1.
    destruct (Z.eqb_spec p 0); [contradiction|]. rewrite <- Ew in Hv.
    apply (so_rename now _ _ _ _ _ al zl p (bare w) (bare v2) old s Hst E Hv); auto. now apply player_ok_bare.
  - exact Hm.
  - now split.
  - change (players (with_names _ _)) with (bare <$> <[p := v2]> (c_heap c)). rewrite Hb. split; [|exact Hne].
    rewrite (map_size_insert_Some _ _ _ (ex_intro _ _ Hv)). exact Hsz.
Qed.

(** The loop over the zombies unloads those that are older than a quarter of an hour. *)
Lemma expire_spec zl : forall n now c al fuel,
  cache_ok n now c al zl -> (length zl <= fuel)%nat ->
  exists c' al' zl', try_unload_player_from_zombie_list fuel c now = Ret c' /\ cache_ok n now c' al' zl' /\
    forall a v, players c' !! a = Some v <->
      players c !! a = Some v /\ (online v = true \/ now - pl_zombie_time v <= YQ_MAX_ZOMBIE_TIME).
Proof.
  induction zl as [|p zl IH]; intros n now c al fuel Hok Hf.
  - pose proof (ring_head _ _ _ (qi_ring _ _ _ (proj2 (co_lists _ _ _ _ _ _ Hok)))) as Hh. cbn in Hh.
    exists c, al, []. split; [|split; [exact Hok|]].
    + destruct fuel; cbn [try_unload_player_from_zombie_list]; rewrite Hh; reflexivity.
    + intros a v. split; [|tauto]. intros Hv. split; [exact Hv|]. left. unfold online.
      destruct (offline v) eqn:E; [|reflexivity]. assert (Hin : a ∈ []); [|inversion Hin].
      apply (so_zombies _ _ _ _ _ _ _ _ (co_state _ _ _ _ _ _ Hok)). eauto.
  - pose proof (qi_ring _ _ _ (proj2 (co_lists _ _ _ _ _ _ Hok))) as Hr. pose proof (ring_head _ _ _ Hr) as Hh. cbn in Hh.
    pose proof (co_state _ _ _ _ _ _ Hok) as [_ _ _ _ _ _ Hz _ _ Ho].
    destruct (proj1 (Hz p) ltac:(left)) as (v & Hv & Hof). destruct (co_heap _ _ _ _ _ _ _ _ Hok Hv) as (Hp & w & Hw & Ew).
    assert (Ht : pl_zombie_time w = pl_zombie_time v) by now rewrite <- Ew.
    destruct (Z.leb_spec (now - pl_zombie_time v) YQ_MAX_ZOMBIE_TIME) as [Hle|Hgt].
    + exists c, al, (p :: zl). split; [|split; [exact Hok|]].
      * destruct fuel; cbn [try_unload_player_from_zombie_list]; rewrite Hh; destruct (Z.eqb_spec p 0); try contradiction;
          rewrite Hw; cbn [deref mbind outcome_bind]; rewrite Ht; destruct (Z.leb_spec (now - pl_zombie_time v) YQ_MAX_ZOMBIE_TIME); (reflexivity || lia).
      * intros a x. split; [|tauto]. intros Hx. split; [exact Hx|]. destruct (online x) eqn:E; [auto|]. right.
        assert (Hin : a ∈ p :: zl) by (apply Hz; exists x; split; [exact Hx|unfold online in E; now destruct (offline x)]).
        unfold zombie_times in Ho. cbn in Ho. rewrite Hv in Ho. cbn in Ho. apply StronglySorted_inv in Ho as [_ Hall].
        apply elem_of_cons in Hin as [->|Hin]; [rewrite Hv in Hx; now injection Hx as <-|].
        rewrite list.Forall_forall in Hall. specialize (Hall (pl_zombie_time x)).
        assert (pl_zombie_time v <= pl_zombie_time x); [|lia]. apply Hall, list_elem_of_omap. exists a. now rewrite Hx.
    + destruct fuel as [|fuel]; [cbn in Hf; lia|]. cbn [try_unload_player_from_zombie_list]. rewrite Hh.
      destruct (Z.eqb_spec p 0); [contradiction|]. rewrite Hw. cbn [deref mbind outcome_bind]. rewrite Ht.
      destruct (Z.leb_spec (now - pl_zombie_time v) YQ_MAX_ZOMBIE_TIME); [lia|].
      destruct (expire_one n now c al (p :: zl) p v Hok Hv Hof) as (c1 & He & Hok1 & Hp1).
      destruct (try_remove_player_from_zombie_list c p) as [c0| | |]; try discriminate He. cbn [mbind outcome_bind] in He |- *.
      rewrite He. cbn [mbind outcome_bind].
      assert (Hzl : without p (p :: zl) = zl).
      { unfold without. rewrite filter_cons. case_decide; [contradiction|]. apply filter_absent.
        pose proof (ring_nodup _ _ _ Hr) as Hnd. now apply list.NoDup_cons in Hnd as [? _]. }
      rewrite Hzl in Hok1. destruct (IH n now c1 (without p al) fuel Hok1) as (c' & al' & zl' & -> & Hok' & Hp'); [cbn in Hf; lia|].
      exists c', al', zl'. split; [reflexivity|]. split; [exact Hok'|]. intros a x. rewrite Hp', Hp1, lookup_delete_Some.
      split; [tauto|]. intros [Hx Hk]. split; [|exact Hk]. split; [|exact Hx]. intros <-. rewrite Hv in Hx. injection Hx as <-.
      destruct Hk as [Hk|Hk]; [unfold online in Hk; now rewrite Hof in Hk|lia].
Qed.
(** The zombie list and its map after an offline player has been put to its end. *)
Context (map_new : M).
Hypothesis map_new_ok : pm_ok map_new /\ pm_abs map_new = ∅.

Lemma zombie_times_le now B on off tb ns al zl : state_ok now B on off tb ns al zl -> forall a (w : player), B !! a = Some w -> pl_zombie_time w <= now.
Proof. intros Hs a w Hw. exact (po_zombie _ _ (so_players _ _ _ _ _ _ _ _ Hs a w Hw)). Qed.

(** [agPM_SetOffline] for an id of 32 bits. *)
Lemma set_offline_spec n now c al zl id :
  cache_ok n now c al zl -> 0 <= id < 2 ^ 32 ->
  (agPM_SetOffline map_new c id now = Ret c /\ forall a v, players c !! a = Some v -> pl_id v = id -> online v = false) \/
  exists c' p v, agPM_SetOffline map_new c id now = Ret c' /\ players c !! p = Some v /\ pl_id v = id /\ online v = true /\
    cache_ok n now c' (touch p al) (touch p zl) /\ c_world c' = c_world c /\
    players c' = <[p := set_zombie_time (set_conn (set_last_active v now) INVALID_ID) now]> (players c).
Proof.
  intros Hok Hid. unfold agPM_SetOffline. rewrite u32_small by exact Hid.
  destruct (get_online_spec n now c al zl id Hok) as [[-> Hnone]|(c1 & p & v & -> & Hv & Hvid & Hvon & Hok1 & Hp1 & Ht1)].
  { left. split; [reflexivity|exact Hnone]. }
  right. cbn [mbind outcome_bind]. set (v1 := set_last_active v now) in *.
  assert (Hv1 : players c1 !! p = Some v1) by (rewrite Hp1; apply lookup_insert_eq).
  destruct (co_heap _ _ _ _ _ _ _ _ Hok1 Hv1) as (Hp & w & Hw & Ew).
  destruct (Z.eqb_spec p 0); [contradiction|]. rewrite Hw. cbn [deref mbind outcome_bind].
  assert (Hwid : pl_id w = pl_id v) by (change (pl_id v) with (pl_id v1); now rewrite <- Ew).
  assert (Hwc : pl_conn w <> INVALID_ID).
  { assert (E : pl_conn w = pl_conn v) by (change (pl_conn v) with (pl_conn v1); now rewrite <- Ew). rewrite E.
    unfold online, offline in Hvon. now destruct (Z.eqb_spec (pl_conn v) INVALID_ID). }
  destruct (Z.eqb_spec (pl_conn w) INVALID_ID); [contradiction|]. cbn [negb c_assert mbind outcome_bind].
  destruct (co_room _ _ _ _ _ _ Hok1) as (Hr1 & Hr2 & Hr3 & _).
  destruct Hok1 as [Hl Hs (Hm1 & Hm2 & Hm3 & Hzm) Hn Hsz Hnow].
  destruct (pm_set_spec _ (pl_id w) p Hm2 Hr2) as (m & -> & Hm & Ha). cbn [mbind outcome_bind].
  destruct (pm_set_spec _ (pl_id w) 0 Hm1 Hr1) as (m' & -> & Hm' & Ha'). cbn [mbind outcome_bind].
  destruct (Z.eqb_spec p 0); [contradiction|]. cbn [Z.eqb] in Ha'.
  set (c2 := with_heap (with_offline (with_online c1 m') m) _).
  assert (Hw2 : c_heap c2 !! p = Some (set_conn w INVALID_ID)) by apply lookup_insert_eq.
  assert (Hl2 : lists_ok c2 (touch p al) zl) by exact (lists_conn (with_offline (with_online c1 m') m) _ zl p w INVALID_ID Hl Hw).
  destruct (add_zombie_spec map_new map_new_ok c2 p _ zl _ now Hl2 Hp Hw2 Hzm Hr3) as (h & q & t & -> & Hl3 & Hb & Ht & Habs).
  exists (with_zombies c2 h q (Some t)), p, v. split; [reflexivity|]. split; [exact Hv|]. split; [exact Hvid|]. split; [exact Hvon|].
  set (v2 := set_zombie_time (set_conn v1 INVALID_ID) now).
  assert (Hb' : players (with_zombies c2 h q (Some t)) = <[p := v2]> (players c1)).
  { change (players (with_zombies c2 h q (Some t))) with (bare <$> h). rewrite Hb.
    unfold c2. rewrite players_conn. change (players (with_offline (with_online c1 m') m)) with (players c1).
    rewrite insert_insert_eq, bare_conn, Ew. reflexivity. }
  assert (Hoff2 : offline v2 = true) by reflexivity.
  split; [|split; [exact (proj1 Ht1)|now rewrite Hb', Hp1, insert_insert_eq]].
  constructor; [exact Hl3| |now repeat split|exact Hn| |exact Hnow]; rewrite Hb'.
  - change (zombie_abs (with_zombies c2 h q (Some t))) with (pm_abs t). rewrite Habs.
    change (zombie_abs c2) with (zombie_abs c1). change (pl_id (set_conn w INVALID_ID)) with (pl_id w).
    change (player_online (with_zombies c2 h q (Some t))) with m'. change (player_offline (with_zombies c2 h q (Some t))) with m.
    rewrite Ha, Ha', Hwid. change (pl_id v) with (pl_id v2).
    pose proof Hs as [_ _ _ _ _ _ _ _ Hpl _].
    apply (so_offline_now now _ _ _ _ _ (touch p al) zl p v1); auto. now apply player_ok_zombie, player_ok_conn, Hpl with p.
  - rewrite (map_size_insert_Some _ _ _ (ex_intro _ _ Hv1)). exact Hsz.
Qed.

(** An offline player that is asked for starts its quarter of an hour anew. *)
Lemma refresh_offline n now c al zl p v :
  cache_ok n now c al zl -> players c !! p = Some v -> offline v = true ->
  exists c', (c ← try_add_player_to_zombie_list map_new c p now; _update_player_active_list c p now) = Ret (c', p) /\
    cache_ok n now c' (touch p al) (touch p zl) /\
    players c' = <[p := set_last_active (set_zombie_time v now) now]> (players c) /\ same_tables c c'.
Proof.
  intros Hok Hv Hof. pose proof (co_linked _ _ _ _ _ _ _ Hok Hv) as Hin.
  destruct (co_heap _ _ _ _ _ _ _ _ Hok Hv) as (Hp & w & Hw & Ew). destruct (co_room _ _ _ _ _ _ Hok) as (_ & _ & Hr3 & _).
  destruct Hok as [Hl Hs (Hm1 & Hm2 & Hm3 & Hzm) Hn Hsz Hnow].
  destruct (add_zombie_spec map_new map_new_ok c p _ zl _ now Hl Hp Hw Hzm Hr3) as (h & q & t & -> & Hl1 & Hb & Ht & Habs).
  cbn [mbind outcome_bind]. set (c1 := with_zombies c h q (Some t)). set (v1 := set_zombie_time v now). rewrite Ew in Hb.
  assert (Hb1 : players c1 = <[p := v1]> (players c)) by exact Hb.
  assert (Hok1 : cache_ok n now c1 al (touch p zl)).
  { constructor; [exact Hl1| |now repeat split|exact Hn| |exact Hnow]; rewrite Hb1.
    - change (zombie_abs c1) with (pm_abs t). rewrite Habs. replace (pl_id w) with (pl_id v1) by (unfold v1; cbn; now rewrite <- Ew).
      change (player_online c1) with (player_online c). change (player_offline c1) with (player_offline c).
      change (player_names c1) with (player_names c). pose proof Hs as [_ _ Hu Hon Hoff _ _ _ Hpl _].
      replace (pm_abs (player_online c)) with (delete (pl_id v1) (pm_abs (player_online c))).
      2: { apply delete_id. apply (idx_none _ _ _ v p Hon Hu Hv). unfold online. now rewrite Hof. }
      replace (pm_abs (player_offline c)) with (<[pl_id v1 := p]> (pm_abs (player_offline c))).
      2: { apply insert_id, Hoff. exists v. auto. }
      apply (so_offline_now now _ _ _ _ _ al zl p v); auto; try reflexivity. now apply player_ok_zombie, Hpl with p.
    - rewrite (map_size_insert_Some _ _ _ (ex_intro _ _ Hv)). exact Hsz. }
  assert (Hv1 : players c1 !! p = Some v1) by (rewrite Hb1; apply lookup_insert_eq).
  destruct (update_active_ok _ _ _ _ _ _ _ _ Hok1 Hv1) as (h' & q' & -> & Hok2 & Hp2). eexists. split; [reflexivity|].
  split; [now apply cache_touched|]. split; [|now repeat split]. now rewrite Hp2, Hb1, insert_insert_eq.
Qed.

(** A loaded or created player enters the cache. *)
Lemma enter_spec n now c al zl a v s :
  cache_ok n now c al zl -> n + 1 < 2 ^ 61 - 1 -> c_heap c !! a = None -> a <> 0 ->
  (forall b w, players c !! b = Some w -> pl_id w <> pl_id v) -> player_ok now v ->
  pl_prev v = 0 -> pl_next v = 0 -> pl_zprev v = 0 -> pl_znext v = 0 -> name_string (pl_name v) = Ret s ->
  exists c', agPM_enter map_new (with_heap c (<[a := v]> (c_heap c))) a now = Ret c' /\
    cache_at (n + 1) now c' al (al ++ [a]) (touch a zl) /\
    players c' = <[a := set_conn (set_zombie_time (bare v) now) INVALID_ID]> (players c) /\
    c_world c' = c_world c /\ player_not_exist c' = player_not_exist c.
Proof.
  intros Hok Hn1 Ha Ha0 Hids Hpok Hl1 Hl2 Hl3 Hl4 Hs.
  assert (Hpa : players c !! a = None) by (unfold players; now rewrite lookup_fmap, Ha).
  destruct (co_room _ _ _ _ _ _ Hok) as (_ & Hr2 & Hr3 & Hr4 & _).
  destruct Hok as [[Hla Hlz] Hst (Hm1 & Hm2 & Hm3 & Hzm) [Hn Hcn] [Hsz Hne] Hnow].
  pose proof Hst as [Hd _ _ _ _ _ Hz _ _ _].
  assert (Hal : a ∉ al) by (intros Hin; apply Hd in Hin as [x Hx]; congruence).
  assert (Hzl : a ∉ zl) by (intros Hin; apply Hz in Hin as (x & Hx & _); congruence).
  set (c0 := with_heap c (<[a := v]> (c_heap c))).
  assert (Hl0 : lists_ok c0 al zl).
  { split; [now apply (queue_new (H := active_links))|now apply (queue_new (H := zombie_links))]. }
  assert (Hv0 : c_heap c0 !! a = Some v) by apply lookup_insert_eq.
  destruct (add_zombie_spec map_new map_new_ok c0 a al zl v now Hl0 Ha0 Hv0 Hzm Hr3) as (h & q & t & He & Hll & Hb & Ht & Habs).
  unfold agPM_enter. rewrite He. cbn [mbind outcome_bind]. set (c1 := with_zombies c0 h q (Some t)) in *.
  assert (Hb1 : players c1 = <[a := set_zombie_time (bare v) now]> (players c)).
  { change (players c1) with (bare <$> h). rewrite Hb. unfold c0, players. cbn. now rewrite fmap_insert, insert_insert_eq. }
  assert (Hw : exists w, c_heap c1 !! a = Some w /\ bare w = set_zombie_time (bare v) now).
  { apply players_lookup. rewrite Hb1. apply lookup_insert_eq. }
  destruct Hw as (w & Hw & Ew). change h with (c_heap c1). rewrite Hw. cbn [deref mbind outcome_bind].
  assert (Hwid : pl_id w = pl_id v) by (change (pl_id (bare w) = pl_id (bare v)); now rewrite Ew).
  assert (Hwn : pl_name w = pl_name v) by (change (pl_name (bare w) = pl_name (bare v)); now rewrite Ew).
  cbn [with_heap player_offline player_names c1 with_zombies c0].
  destruct (pm_set_spec (player_offline c) (pl_id w) a Hm2 Hr2) as (m & -> & Hm & Hma). cbn [mbind outcome_bind].
  rewrite Hwn, Hs. cbn [mbind outcome_bind].
  destruct (sp_set_spec (player_names c) s a Hn Hcn Hr4) as (ns & -> & Hns & Hcns & Hnsa). cbn [mbind outcome_bind].
  destruct (Z.eqb_spec a 0); [contradiction|]. eexists. split; [reflexivity|].
  match goal with |- cache_at _ _ ?x _ _ _ /\ _ => set (c2 := x) end.
  set (v2 := set_conn (set_zombie_time (bare v) now) INVALID_ID).
  assert (Hb2 : players c2 = <[a := v2]> (players c)).
  { change (players c2) with (players (with_heap c1 (<[a := set_conn w INVALID_ID]> (c_heap c1)))).
    rewrite players_conn, Hb1, insert_insert_eq, Ew. reflexivity. }
  split; [|split; [exact Hb2|split; reflexivity]].
  constructor; [exact (lists_conn c1 al (touch a zl) a w INVALID_ID Hll Hw)| |now repeat split|now split| |exact Hnow]; rewrite Hb2.
  - change (player_online c2) with (player_online c). change (player_offline c2) with m. change (player_names c2) with ns.
    change (zombie_abs c2) with (pm_abs t). rewrite Hma, Habs, Hnsa. change (zombie_abs c0) with (zombie_abs c).
    rewrite Hwid. change (pl_id v) with (pl_id v2).
    apply so_new; auto; try reflexivity. now apply player_ok_conn, player_ok_zombie, player_ok_bare.
  - rewrite map_size_insert_None by exact Hpa. change (player_not_exist c2) with (player_not_exist c). lia.
Qed.

Lemma enter_linked n now c al zl a v :
  cache_at n now c al (al ++ [a]) zl -> a ∉ al -> players c !! a = Some v ->
  exists h q, _update_player_active_list c a now = Ret (with_active c h q, a) /\
    cache_ok n now (with_active c h q) (al ++ [a]) zl /\ players (with_active c h q) = <[a := set_last_active v now]> (players c).
Proof.
  intros Hok Ha Hv. destruct (update_active_ok _ _ _ _ _ _ _ _ Hok Hv) as (h & q & He & Hok' & Hp). exists h, q.
  split; [exact He|]. split; [|exact Hp]. unfold touch, without in Hok'. now rewrite filter_absent in Hok'.
Qed.

(** *** [agPM_Get] *)

(** What [agPM_Get] answers: a player that is cached, one it has loaded, or none. *)
Inductive get_result (c : cache) (id now : Z) : cache -> Z -> Prop :=
| get_cached p v c' :
    players c !! p = Some v -> pl_id v = id ->
    players c' = <[p := set_last_active (if online v then v else set_zombie_time v now) now]> (players c) ->
    same_tables c c' -> get_result c id now c' p
| get_loaded p v c' :
    (forall b w, players c !! b = Some w -> pl_id w <> id) -> players c !! p = None -> p <> 0 ->
    players c' = <[p := v]> (players c) -> pl_id v = id -> offline v = true -> pl_zombie_time v = now -> pl_last_active v = now ->
    get_result c id now c' p
| get_none c' :
    (forall b w, players c !! b = Some w -> pl_id w <> id) -> players c' = players c -> get_result c id now c' 0.

Lemma co_uncached n now c al dl zl id : cache_at n now c al dl zl ->
  pm_abs (player_online c) !! id = None -> pm_abs (player_offline c) !! id = None ->
  forall b w, players c !! b = Some w -> pl_id w <> id.
Proof.
  intros Hok H1' H2' b w Hw Hid. destruct (co_state _ _ _ _ _ _ Hok) as [_ _ _ Hon Hoff _ _ _ _ _].
  destruct (offline w) eqn:E.
  - assert (pm_abs (player_offline c) !! id = Some b) by (apply Hoff; eauto). congruence.
  - assert (pm_abs (player_online c) !! id = Some b); [|congruence]. apply Hon. exists w. unfold online. now rewrite E.
Qed.

Lemma with_not_exist_ok n now c al zl id t :
  cache_ok n now c al zl -> n + 1 < 2 ^ 61 - 1 ->
  exists m, pm_set (player_not_exist c) id t = Ret (m, default 0 (pm_abs (player_not_exist c) !! id)) /\
    cache_ok (n + 1) now (with_not_exist c m) al zl /\
    pm_abs m = if t =? 0 then delete id (pm_abs (player_not_exist c)) else <[id := t]> (pm_abs (player_not_exist c)).
Proof.
  intros [Hl Hs (Hm1 & Hm2 & Hm3 & Hzm) Hn [Hsz Hne] Hnow] Hn1.
  destruct (pm_set_spec _ id t Hm3) as (m & He & Hm & Ha); [lia|]. exists m. split; [exact He|]. split; [|exact Ha].
  constructor; auto. split; [change (players (with_not_exist c m)) with (players c); lia|].
  cbn [with_not_exist player_not_exist]. rewrite Ha. split; [|lia]. destruct (t =? 0).
  - rewrite map_size_delete. destruct (pm_abs (player_not_exist c) !! id); cbn; lia.
  - rewrite map_size_insert. destruct (pm_abs (player_not_exist c) !! id); cbn; lia.
Qed.

(** A player that has just been loaded or created enters the cache and its lists. *)
Lemma enter_ok n now c al zl a id v :
  cache_ok n now c al zl -> n + 1 < 2 ^ 61 - 1 -> c_heap c !! a = None -> a <> 0 ->
  (forall b w, players c !! b = Some w -> pl_id w <> id) -> player_ok now v -> fresh id v ->
  exists c1 v1, agPM_enter map_new (with_heap c (<[a := v]> (c_heap c))) a now = Ret c1 /\
    cache_at (n + 1) now c1 al (al ++ [a]) (touch a zl) /\ (a ∉ al) /\
    players c1 = <[a := v1]> (players c) /\ pl_id v1 = id /\ offline v1 = true /\ pl_zombie_time v1 = now /\
    c_world c1 = c_world c /\ player_not_exist c1 = player_not_exist c.
Proof.
  intros Hok Hn1 Ha Ha0 Hids Hpok Hfr. destruct (po_name _ _ Hpok) as [s Hs].
  assert (Hv : pl_id v = id /\ pl_prev v = 0 /\ pl_next v = 0 /\ pl_zprev v = 0 /\ pl_znext v = 0)
    by (destruct Hfr as (nm & u & b & ms & ->); auto).
  destruct Hv as (Hid & L1 & L2 & L3 & L4).
  destruct (enter_spec n now c al zl a v s Hok Hn1 Ha Ha0) as (c1 & He & Hok1 & Hp1 & Hw1 & Hne1); auto; [now rewrite Hid|].
  exists c1. eexists. split; [exact He|]. split; [exact Hok1|]. split; [|split; [exact Hp1|auto 10]].
  intros Hin. apply (so_dom _ _ _ _ _ _ _ _ (co_state _ _ _ _ _ _ Hok)) in Hin as [x Hx].
  unfold players in Hx. rewrite lookup_fmap, Ha in Hx. discriminate.
Qed.

Lemma get_ok n now c al zl a id :
  cache_ok n now c al zl -> n + 3 < 2 ^ 61 - 1 -> 0 <= id < 2 ^ 64 -> c_heap c !! a = None ->
  exists c' p al' zl', agPM_Get map_new c a id now = Ret (c', p) /\ cache_ok (n + 3) now c' al' zl' /\
    (RESERVED_ID <= id -> get_result c id now c' p) /\ (id < RESERVED_ID -> c' = c /\ p = 0).
Proof.
  intros Hok Hn3 Hid Ha. unfold agPM_Get, RESERVED_ID. destruct (Z.ltb_spec id 1) as [Hlt|Hge].
  { exists c, 0, al, zl. split; [reflexivity|]. split; [apply (cache_ok_mono n _ now); [exact Hok|lia..]|]. split; [lia|auto]. }
  destruct (co_maps _ _ _ _ _ _ Hok) as (Hm1 & Hm2 & Hm3 & _). pose proof (co_state _ _ _ _ _ _ Hok) as [_ _ Hu Hon Hoff _ _ _ _ _].
  rewrite (pm_get_spec _ _ Hm1). cbn [mbind outcome_bind].
  destruct (idx_get _ _ _ id Hon Hu) as [(p & v & Hv & Hvid & Hvon & Hget)|[Hget Hnon]]; rewrite Hget; cbn [from_option Datatypes.id].
  { destruct (co_heap _ _ _ _ _ _ _ _ Hok Hv) as (Hp & _). destruct (Z.eqb_spec p 0); [contradiction|]. cbn [negb].
    destruct (touch_online _ _ _ _ _ _ _ Hok Hv Hvon) as (c' & -> & Hok' & Hp' & Hs'). exists c', p, (touch p al), zl.
    split; [reflexivity|]. split; [apply (cache_ok_mono n _ now); [exact Hok'|lia..]|]. split; [intros _|unfold RESERVED_ID; lia].
    apply (get_cached _ _ _ p v); auto. now rewrite Hvon. }
  cbn [Z.eqb negb]. rewrite (pm_get_spec _ _ Hm2). cbn [mbind outcome_bind].
  destruct (idx_get _ _ _ id Hoff Hu) as [(p & v & Hv & Hvid & Hvoff & Hget2)|[Hget2 Hnoff]]; rewrite Hget2; cbn [from_option Datatypes.id].
  { destruct (co_heap _ _ _ _ _ _ _ _ Hok Hv) as (Hp & _). destruct (Z.eqb_spec p 0); [contradiction|]. cbn [negb].
    destruct (refresh_offline _ _ _ _ _ _ _ Hok Hv Hvoff) as (c' & -> & Hok' & Hp' & Hs'). exists c', p, (touch p al), (touch p zl).
    split; [reflexivity|]. split; [apply (cache_ok_mono n _ now); [exact Hok'|lia..]|]. split; [intros _|unfold RESERVED_ID; lia].
    apply (get_cached _ _ _ p v); auto. unfold online. now rewrite Hvoff. }
  cbn [Z.eqb negb]. pose proof (co_uncached _ _ _ _ _ _ _ Hok Hget Hget2) as Hnone.
  rewrite (pm_get_spec _ _ Hm3). cbn [mbind outcome_bind]. destruct (now <=? _).
  { exists c, 0, al, zl. split; [reflexivity|]. split; [apply (cache_ok_mono n _ now); [exact Hok|lia..]|].
    split; [intros _; now constructor|unfold RESERVED_ID; lia]. }
  destruct (with_not_exist_ok n now c al zl id 0 Hok) as (m & -> & Hok1 & _); [lia|]. cbn [mbind outcome_bind].
  destruct (Z.eqb_spec a 0) as [->|Ha0].
  { exists (with_not_exist c m), 0, al, zl. split; [reflexivity|]. split; [apply (cache_ok_mono (n + 1) _ now); [exact Hok1|lia..]|].
    split; [intros _; now constructor|unfold RESERVED_ID; lia]. }
  pose proof (co_now _ _ _ _ _ _ Hok) as Hnow.
  destruct (load_sample_spec now (c_world (with_not_exist c m)) id) as (w' & r & -> & Hr); [unfold RESERVED_ID; lia|lia|].
  cbn [mbind outcome_bind]. apply (world_ok _ _ _ _ _ w') in Hok1.
  set (c1 := with_world (with_not_exist c m) w') in *. destruct r as [v|].
  - destruct (Hr v eq_refl) as [Hpok Hfr].
    destruct (enter_ok (n + 1) now c1 al zl a id v Hok1) as (c2 & v2 & -> & Hok2 & Hal & Hp2 & Hid2 & Hof2 & Ht2 & _); auto; [lia|].
    cbn [mbind outcome_bind].
    assert (Hv2 : players c2 !! a = Some v2) by (rewrite Hp2; apply lookup_insert_eq).
    destruct (enter_linked _ _ _ _ _ _ _ Hok2 Hal Hv2) as (h & q & -> & Hok3 & Hp3).
    exists (with_active c2 h q), a, (al ++ [a]), (touch a zl). split; [reflexivity|].
    split; [apply (cache_ok_mono (n + 1 + 1) _ now); [exact Hok3|lia..]|]. split; [intros _|unfold RESERVED_ID; lia].
    apply (get_loaded _ _ _ a (set_last_active v2 now)); auto.
    + change (players c) with (bare <$> c_heap c). now rewrite lookup_fmap, Ha.
    + now rewrite Hp3, Hp2, insert_insert_eq.
  - destruct (with_not_exist_ok _ now c1 al zl id now Hok1) as (m' & -> & Hok2 & _); [lia|]. cbn [mbind outcome_bind].
    exists (with_not_exist c1 m'), 0, al, zl. split; [reflexivity|]. split; [apply (cache_ok_mono (n + 1 + 1) _ now); [exact Hok2|lia..]|].
    split; [intros _; now constructor|unfold RESERVED_ID; lia].
Qed.

(** *** [player_create] *)

Lemma create_ok n now c al zl a1 a2 id name head :
  cache_ok n now c al zl -> n + 6 < 2 ^ 61 - 1 -> 0 <= id < 2 ^ 64 -> c_heap c !! a1 = None -> c_heap c !! a2 = None -> name_ok name ->
  exists c' p al' zl', player_create map_new c a1 a2 id name head now = Ret (c', p) /\ cache_ok (n + 6) now c' al' zl'.
Proof.
  intros Hok Hn Hid Ha1 Ha2 Hname. unfold player_create.
  destruct (get_ok n now c al zl a1 id Hok) as (c1 & p & al1 & zl1 & -> & Hok1 & Hres & Hlow); [lia|exact Hid|exact Ha1|].
  cbn [mbind outcome_bind]. destruct (Z.eqb_spec p 0) as [->|Hp]; cbn [negb].
  2: { exists c1, 0, al1, zl1. split; [reflexivity|]. apply (cache_ok_mono (n + 3) _ now); [exact Hok1|lia..]. }
  unfold agPM_Create. destruct (Z.ltb_spec id RESERVED_ID) as [Hlt|Hge].
  { exists c1, 0, al1, zl1. split; [reflexivity|]. apply (cache_ok_mono (n + 3) _ now); [exact Hok1|lia..]. }
  assert (Hnone : (forall b w, players c1 !! b = Some w -> pl_id w <> id) /\ players c1 = players c).
  { specialize (Hres Hge). inversion Hres as [? v ? Hv _ _ _ E|? v ? _ _ Hp0 _ _ _ _ _ E|? Hno Hpl]; subst.
    - destruct (co_heap _ _ _ _ _ _ _ _ Hok Hv) as (? & _). contradiction.
    - contradiction.
    - rewrite Hpl. auto. }
  destruct Hnone as [Hnone Hpl].
  destruct (Z.eqb_spec a2 0) as [->|Ha20].
  { exists c1, 0, al1, zl1. split; [reflexivity|]. apply (cache_ok_mono (n + 3) _ now); [exact Hok1|lia..]. }
  pose proof (co_now _ _ _ _ _ _ Hok) as Hnow.
  destruct (create_spec now (c_world c1) id name head) as (w' & r & -> & Hr); [unfold RESERVED_ID in *; lia|lia|exact Hname|].
  cbn [mbind outcome_bind]. apply (world_ok _ _ _ _ _ w') in Hok1.
  destruct r as [v|].
  2: { exists (with_world c1 w'), 0, al1, zl1. split; [reflexivity|]. apply (cache_ok_mono (n + 3) _ now); [exact Hok1|lia..]. }
  destruct (Hr v eq_refl) as [Hpok Hfr].
  assert (Ha2' : c_heap (with_world c1 w') !! a2 = None).
  { pose proof (f_equal (lookup a2) Hpl) as E. unfold players in E. rewrite !lookup_fmap, Ha2 in E. cbn in E |- *.
    now destruct (c_heap c1 !! a2). }
  destruct (enter_ok _ now _ al1 zl1 a2 id v Hok1) as (c2 & v2 & -> & Hok2 & Hal & Hp2 & Hid2 & Hof2 & Ht2 & _ & Hne2); auto; [lia|].
  cbn [mbind outcome_bind].
  assert (Hv2 : players c2 !! a2 = Some v2) by (rewrite Hp2; apply lookup_insert_eq).
  destruct (co_heap _ _ _ _ _ _ _ _ Hok2 Hv2) as (_ & w2 & Hw2 & Ew2). rewrite Hw2. cbn [deref mbind outcome_bind].
  destruct Hok2 as [Hl Hs (Hm1 & Hm2 & Hm3 & Hzm) Hns [Hsz Hne] _].
  destruct (pm_set_spec _ (pl_id w2) 0 Hm3) as (m & -> & Hm & Ha); [lia|]. cbn [mbind outcome_bind].
  assert (Hok3 : cache_at (n + 3 + 1) now (with_not_exist c2 m) al1 (al1 ++ [a2]) (touch a2 zl1)).
  { constructor; auto. split; [exact Hsz|]. cbn [with_not_exist player_not_exist]. rewrite Ha. cbn [Z.eqb].
    rewrite map_size_delete. destruct (pm_abs (player_not_exist c2) !! pl_id w2); cbn; lia. }
  destruct (enter_linked _ _ _ _ _ _ _ Hok3 Hal Hv2) as (h & q & -> & Hok4 & _).
  eexists _, a2, _, _. split; [reflexivity|]. apply (cache_ok_mono (n + 3 + 1) _ now); [exact Hok4|lia..].
Qed.

(** *** Connections and zombies *)

Lemma set_conn_ok n now c al zl a id conn :
  cache_ok n now c al zl -> n + 3 < 2 ^ 61 - 1 -> 0 <= id < 2 ^ 64 -> c_heap c !! a = None ->
  exists c' al' zl', player_set_conn map_new c a id conn now = Ret c' /\ cache_ok (n + 3) now c' al' zl'.
Proof.
  intros Hok Hn Hid Ha. unfold player_set_conn. destruct (Z.eqb_spec conn INVALID_ID) as [->|Hconn].
  - assert (Hu : agPM_SetOffline map_new c id now = agPM_SetOffline map_new c (u32 id) now).
    { unfold agPM_SetOffline. now rewrite (u32_small (u32 id)) by apply u32_range. }
    rewrite Hu.
    destruct (set_offline_spec n now c al zl (u32 id) Hok (u32_range id)) as [[-> _]|(c' & p & v & -> & _ & _ & _ & Hok' & _)];
      eexists _, _, _; (split; [reflexivity|]); (eapply cache_ok_mono; [eassumption|lia..]).
  - unfold player_get. destruct (get_ok n now c al zl a id Hok Hn Hid Ha) as (c1 & p & al1 & zl1 & -> & Hok1 & Hres & Hlow).
    cbn [mbind outcome_bind]. destruct (Z.eqb_spec p 0) as [->|Hp]; [eauto|].
    assert (Hv : exists v, players c1 !! p = Some v).
    { destruct (Z.lt_ge_cases id RESERVED_ID) as [Hlt|Hge]; [destruct (Hlow Hlt); contradiction|].
      specialize (Hres Hge). inversion Hres as [? v ? Hv _ Hpl _ E|? v ? _ _ _ Hpl _ _ _ _ E|]; subst; [..|contradiction];
        rewrite Hpl, lookup_insert_eq; eauto. }
    destruct Hv as [v Hv]. destruct (set_online_spec _ _ _ _ _ _ _ conn Hok1 Hv Hconn) as (c2 & -> & Hok2 & _).
    eexists _, _, _. split; [reflexivity|exact Hok2].
Qed.

(** *** The empty cache *)

Lemma init_ok w now : 0 < now -> cache_ok 0 now (agPM_init map_new w) [] [].
Proof.
  intros Hnow. destruct map_new_ok as [Hm Ha]. destruct (@agMap_new_ok (list Z) _ _ _) as (Hn1 & Hn2 & Hn3).
  constructor; cbn [agPM_init player_online player_offline player_not_exist player_names].
  - split; apply queue_empty.
  - change (players (agPM_init map_new w)) with (bare <$> (∅ : gmap Z player)). rewrite Ha, Hn3, fmap_empty.
    change (zombie_abs (agPM_init map_new w)) with (∅ : gmap Z Z).
    constructor.
    + intros a. rewrite lookup_empty. split; [intros [? [=]]|intros Hin; inversion Hin].
    + reflexivity.
    + intros a b v w' E. now rewrite lookup_empty in E.
    + intros k a. rewrite lookup_empty. split; [discriminate|]. intros (v & E & _). now rewrite lookup_empty in E.
    + intros k a. rewrite lookup_empty. split; [discriminate|]. intros (v & E & _). now rewrite lookup_empty in E.
    + intros k a. rewrite lookup_empty. split; [discriminate|]. intros (v & E & _). now rewrite lookup_empty in E.
    + intros a. split; [intros Hin; inversion Hin|]. intros (v & E & _). now rewrite lookup_empty in E.
    + intros s a E. now rewrite lookup_empty in E.
    + intros a v E. now rewrite lookup_empty in E.
    + constructor.
  - repeat split; exact Hm.
  - auto.
  - rewrite Ha. split; [vm_compute; discriminate|]. split; [vm_compute; discriminate|lia].
  - exact Hnow.
Qed.

End Operations.
