(* ===== verification/PlayerTheorems.v ===== *)
(** * The player cache over time

    Sequences of calls on the cache of [Player], and what they guarantee: the invariant of
    [PlayerCache] in every state, the answers of [player_get], the unloading of zombies, and which
    players a logout puts offline. *)
From S2P Require Import Prelude AmfWire AgMap Lrm Dlist Keyed Player PlayerLemmas PlayerCache.
From Stdlib Require Import Sorted.

(** ** Sequences of calls *)

(** The calls other files make; the last one is made for every message that arrives. *)
Inductive cache_op :=
| OpGet (id : Z)
| OpGetOnline (id : Z)
| OpGetConn (id : Z)
| OpCreate (id : Z) (name : list Z) (head : Z)
| OpSetConn (id conn : Z)
| OpUnload (id : Z)
| OpModule (id : Z) (m : nat)
| OpRename (old : list Z)
| OpExpire.

Definition op_ok (op : cache_op) : Prop :=
  match op with
  | OpGet id | OpGetOnline id | OpGetConn id | OpSetConn id _ | OpUnload id => 0 <= id < 2 ^ 64
  | OpCreate id name _ => 0 <= id < 2 ^ 64 /\ name_ok name
  | OpModule id m => 0 <= id < 2 ^ 64 /\ (m < PLAYER_MODULE_COUNT)%nat
  | OpRename _ | OpExpire => True
  end.

Section Runs.
Context {D W : Type} `{ModuleLaws D W} {M : Type} `{PtrMapLaws M} (map_new : M).
Hypothesis map_new_ok : pm_ok map_new /\ pm_abs map_new = ∅.
#[local] Abbreviation player := (Player D).
#[local] Abbreviation cache := (PlayerManager D W M).

(** [malloc] answers an address that is not in use, or 0. *)
Variable malloc : gmap Z player -> Z.
Hypothesis malloc_fresh : forall h, malloc h = 0 \/ h !! malloc h = None.

Definition cache_step (now : Z) (op : cache_op) (c : cache) : outcome cache :=
  let a := malloc (c_heap c) in
  match op with
  | OpGet id => '(c, _) ← player_get map_new c a id now; Ret c
  | OpGetOnline id => '(c, _) ← player_get_online c id now; Ret c
  | OpGetConn id => '(c, _) ← player_get_conn c id now; Ret c
  | OpCreate id name head => '(c, _) ← player_create map_new c a a id name head now; Ret c
  | OpSetConn id conn => player_set_conn map_new c a id conn now
  | OpUnload id => '(c, p) ← player_get map_new c a id now; if p =? 0 then Ret c else player_unload c p
  | OpModule id m =>
    '(c, p) ← player_get map_new c a id now;
    if p =? 0 then Ret c else '(c, _) ← player_module c p m now; Ret c
  | OpRename old => agPM_ChangeNameRecord c old now
  | OpExpire => try_unload_player_from_zombie_list (size (c_heap c)) c now
  end.

Fixpoint run_cache (ops : list (Z * cache_op)) (c : cache) : outcome cache :=
  match ops with
  | [] => Ret c
  | (now, op) :: ops' => c ← cache_step now op c; run_cache ops' c
  end.

(** The clock does not run backwards. *)
Fixpoint clock_ok (t : Z) (ops : list (Z * cache_op)) : Prop :=
  match ops with
  | [] => True
  | (now, _) :: ops' => t <= now /\ clock_ok now ops'
  end.

Lemma malloc_none n now (c : cache) al zl : cache_ok n now c al zl -> c_heap c !! malloc (c_heap c) = None.
Proof.
  intros Hok. destruct (malloc_fresh (c_heap c)) as [->|E]; [|exact E].
  pose proof (so_null _ _ _ _ _ _ _ _ (co_state _ _ _ _ _ _ Hok)) as E. unfold players in E. rewrite lookup_fmap in E.
  now destruct (c_heap c !! 0).
Qed.

Lemma get_answer n now (c c' : cache) al zl p id :
  cache_ok n now c al zl -> (RESERVED_ID <= id -> get_result c id now c' p) -> (id < RESERVED_ID -> c' = c /\ p = 0) -> p <> 0 ->
  exists v, players c' !! p = Some v.
Proof.
  intros Hok Hres Hlow Hp. destruct (Z.lt_ge_cases id RESERVED_ID) as [Hlt|Hge]; [destruct (Hlow Hlt); contradiction|].
  specialize (Hres Hge). inversion Hres as [? v ? Hv _ Hpl _ E|? v ? _ _ _ Hpl _ _ _ _ E|]; subst; [..|contradiction];
    rewrite Hpl, lookup_insert_eq; eauto.
Qed.

Lemma zombies_in_heap n now (c : cache) al zl : cache_ok n now c al zl -> (length zl <= size (c_heap c))%nat.
Proof.
  intros Hok. rewrite <- size_dom. pose proof (ring_nodup _ _ _ (qi_ring _ _ _ (proj2 (co_lists _ _ _ _ _ _ Hok)))) as Hnd.
  rewrite <- (size_list_to_set (C := gset Z) zl Hnd). apply subseteq_size. intros a Ha. apply elem_of_list_to_set in Ha.
  apply (so_zombies _ _ _ _ _ _ _ _ (co_state _ _ _ _ _ _ Hok)) in Ha as (v & Hv & _).
  apply players_lookup in Hv as (w & Hw & _). apply elem_of_dom. eauto.
Qed.

Lemma cache_step_ok n now c al zl op :
  cache_ok n now c al zl -> n + 6 < 2 ^ 61 - 1 -> op_ok op ->
  exists c' al' zl', cache_step now op c = Ret c' /\ cache_ok (n + 6) now c' al' zl'.
Proof.
  intros Hok Hn Hop. pose proof (malloc_none _ _ _ _ _ Hok) as Ha.
  destruct op as [id|id|id|id name head|id conn|id|id m|old|]; cbn [cache_step op_ok] in *.
  - unfold player_get. destruct (get_ok map_new map_new_ok n now c al zl _ id Hok ltac:(lia) Hop Ha) as (c' & p & al' & zl' & -> & Hok' & _).
    eexists _, _, _. split; [reflexivity|]. eapply cache_ok_mono; [exact Hok'|lia..].
  - unfold player_get_online. destruct (get_online_spec n now c al zl id Hok) as [[-> _]|(c' & p & v & -> & _ & _ & _ & Hok' & _)];
      eexists _, _, _; (split; [reflexivity|]); (eapply cache_ok_mono; [eassumption|lia..]).
  - unfold player_get_conn. destruct (get_online_spec n now c al zl id Hok) as [[-> _]|(c' & p & v & -> & Hv & _ & _ & Hok' & Hp' & _)].
    + eexists _, _, _. split; [reflexivity|]. eapply cache_ok_mono; [eassumption|lia..].
    + cbn [mbind outcome_bind]. assert (Hv' : players c' !! p = Some (set_last_active v now)) by (rewrite Hp'; apply lookup_insert_eq).
      destruct (co_heap _ _ _ _ _ _ _ _ Hok' Hv') as (Hp & w & Hw & _). destruct (Z.eqb_spec p 0); [contradiction|].
      rewrite Hw. eexists _, _, _. split; [reflexivity|]. eapply cache_ok_mono; [eassumption|lia..].
  - destruct Hop as [Hid Hname].
    destruct (create_ok map_new map_new_ok n now c al zl _ _ id name head Hok Hn Hid Ha Ha Hname) as (c' & p & al' & zl' & -> & Hok'). eauto.
  - destruct (set_conn_ok map_new map_new_ok n now c al zl _ id conn Hok ltac:(lia) Hop Ha) as (c' & al' & zl' & -> & Hok').
    eexists _, _, _. split; [reflexivity|]. eapply cache_ok_mono; [exact Hok'|lia..].
  - unfold player_get. destruct (get_ok map_new map_new_ok n now c al zl _ id Hok ltac:(lia) Hop Ha) as (c' & p & al' & zl' & -> & Hok' & Hres & Hlow).
    cbn [mbind outcome_bind]. destruct (Z.eqb_spec p 0) as [->|Hp].
    + eexists _, _, _. split; [reflexivity|]. eapply cache_ok_mono; [exact Hok'|lia..].
    + destruct (get_answer _ _ _ _ _ _ _ _ Hok Hres Hlow Hp) as [v Hv]. unfold player_unload.
      destruct (release_ok _ _ _ _ _ _ _ Hok' Hv) as (c2 & -> & Hok2 & _). eexists _, _, _. split; [reflexivity|].
      eapply cache_ok_mono; [exact Hok2|lia..].
  - destruct Hop as [Hid Hm]. unfold player_get.
    destruct (get_ok map_new map_new_ok n now c al zl _ id Hok ltac:(lia) Hid Ha) as (c' & p & al' & zl' & -> & Hok' & Hres & Hlow).
    cbn [mbind outcome_bind]. destruct (Z.eqb_spec p 0) as [->|Hp].
    + eexists _, _, _. split; [reflexivity|]. eapply cache_ok_mono; [exact Hok'|lia..].
    + destruct (get_answer _ _ _ _ _ _ _ _ Hok Hres Hlow Hp) as [v Hv].
      destruct (player_module_ok _ _ _ _ _ _ _ m Hok' Hv Hm) as (c2 & o & -> & Hok2). eexists _, _, _. split; [reflexivity|].
      eapply cache_ok_mono; [exact Hok2|lia..].
  - destruct (rename_ok n now c al zl old Hok) as (c' & -> & Hok'). eexists _, _, _. split; [reflexivity|].
    eapply cache_ok_mono; [exact Hok'|lia..].
  - destruct (expire_spec zl n now c al _ Hok (zombies_in_heap _ _ _ _ _ Hok)) as (c' & al' & zl' & -> & Hok' & _).
    eexists _, _, _. split; [reflexivity|]. eapply cache_ok_mono; [exact Hok'|lia..].
Qed.

(** C27: After any sequence of calls on an empty player cache (players asked for, created, connected,
    disconnected, unloaded, renamed, their modules used, zombies expired) with a clock that does not run
    backwards, no call has gone wrong, and in the state reached the two lists, the maps of online and
    offline players, of zombies and of names agree with the players in memory: every player is in the
    active list and in exactly one of the two maps, is a zombie exactly when it is offline, no entry of
    a map refers to a freed player, and the zombies are in the order of their times. *)
Theorem player_cache_consistent w ops t :
  0 < t -> clock_ok t ops -> Forall (fun e => op_ok (snd e)) ops -> 6 * (zlen ops + 1) < 2 ^ 61 - 1 ->
  exists c al zl t', run_cache ops (agPM_init map_new w) = Ret c /\ cache_ok (6 * zlen ops) t' c al zl.
Proof.
  intros Ht Hc Hops Hn.
  assert (Hrun : forall ops n t c al zl, cache_ok n t c al zl -> clock_ok t ops -> Forall (fun e => op_ok (snd e)) ops ->
    n + 6 * zlen ops < 2 ^ 61 - 1 -> exists c' al' zl' t', run_cache ops c = Ret c' /\ cache_ok (n + 6 * zlen ops) t' c' al' zl').
  { clear -malloc_fresh map_new_ok H0. induction ops as [|[now op] ops IH]; intros n t c al zl Hok Hc Hops Hn.
    - exists c, al, zl, t. split; [reflexivity|]. change (zlen (@nil (Z * cache_op))) with 0 in *. eapply cache_ok_mono; [exact Hok|lia..].
    - rewrite zlen_cons in *. pose proof (zlen_nonneg ops). destruct Hc as [Hle Hc]. apply list.Forall_cons in Hops as [Hop Hops].
      apply (cache_ok_mono n n t now) in Hok; [|destruct Hok as [_ _ _ _ [_ ?] _]; lia|exact Hle].
      destruct (cache_step_ok n now c al zl op Hok) as (c1 & al1 & zl1 & E & Hok1); [lia|exact Hop|].
      cbn [run_cache]. rewrite E. cbn [mbind outcome_bind].
      destruct (IH (n + 6) now c1 al1 zl1 Hok1 Hc Hops) as (c' & al' & zl' & t' & -> & Hok'); [lia|].
      exists c', al', zl', t'. split; [reflexivity|]. eapply cache_ok_mono; [exact Hok'|lia..]. }
  apply (Hrun ops 0 t (agPM_init map_new w) [] []); auto; [now apply init_ok|lia].
Qed.

(** [player_get] on a consistent cache answers the cached player of this id, whose last use is
    noted and whose time as a zombie starts anew, changing no map and not asking the database; or a
    player it has loaded, which is then offline; or, when none of this id is cached, null. *)
Theorem player_get_answers n now c al zl id :
  cache_ok n now c al zl -> n + 3 < 2 ^ 61 - 1 -> RESERVED_ID <= id < 2 ^ 64 ->
  exists c' p al' zl', player_get map_new c (malloc (c_heap c)) id now = Ret (c', p) /\ cache_ok (n + 3) now c' al' zl' /\
    get_result c id now c' p.
Proof.
  intros Hok Hn Hid.
  destruct (get_ok map_new map_new_ok n now c al zl _ id Hok Hn ltac:(unfold RESERVED_ID in *; lia) (malloc_none _ _ _ _ _ Hok))
    as (c' & p & al' & zl' & He & Hok' & Hres & _).
  exists c', p, al', zl'. split; [exact He|]. split; [exact Hok'|]. apply Hres. lia.
Qed.

(** C30: The check made for every message unloads exactly the players that are offline and have not been
    asked for during the last quarter of an hour; it keeps the others as they are, and the cache
    consistent. *)
Theorem zombies_unloaded n now c al zl :
  cache_ok n now c al zl ->
  exists c' al' zl', try_unload_player_from_zombie_list (size (c_heap c)) c now = Ret c' /\ cache_ok n now c' al' zl' /\
    forall a v, players c' !! a = Some v <->
      players c !! a = Some v /\ (online v = true \/ now - pl_zombie_time v <= YQ_MAX_ZOMBIE_TIME).
Proof. intros Hok. exact (expire_spec zl n now c al _ Hok (zombies_in_heap _ _ _ _ _ Hok)). Qed.

(** Disconnecting an online player puts it offline exactly when its id is below [2^32]: the
    parameter of [agPM_SetOffline] has 32 bits, and the ids the world uses carry the server id in the
    upper half, so that players who log out stay online and are never unloaded. *)
Theorem logout_offline_iff_narrow n now c al zl p v :
  cache_ok n now c al zl -> players c !! p = Some v -> online v = true ->
  exists c', player_set_conn map_new c (malloc (c_heap c)) (pl_id v) INVALID_ID now = Ret c' /\
    ((exists v', players c' !! p = Some v' /\ offline v' = true) <-> pl_id v < 2 ^ 32).
Proof.
  intros Hok Hv Hon. unfold player_set_conn. cbn [Z.eqb]. change (INVALID_ID =? INVALID_ID) with true.
  pose proof (po_id _ _ (so_players _ _ _ _ _ _ _ _ (co_state _ _ _ _ _ _ Hok) p v Hv)) as Hid. unfold RESERVED_ID in Hid.
  assert (Hof : offline v = false) by (unfold online in Hon; now destruct (offline v)).
  assert (Hu : agPM_SetOffline map_new c (pl_id v) now = agPM_SetOffline map_new c (u32 (pl_id v)) now).
  { unfold agPM_SetOffline. now rewrite (u32_small (u32 _)) by apply u32_range. }
  rewrite Hu.
  destruct (set_offline_spec map_new map_new_ok n now c al zl _ Hok (u32_range (pl_id v)))
    as [[-> Hnone]|(c' & q & x & -> & Hx & Hxid & Hxon & Hok' & _ & Hp')]; eexists; (split; [reflexivity|]).
  - split; [intros (v' & Hv' & Hof'); congruence|]. intros Hlt. rewrite u32_small in Hnone by lia.
    pose proof (Hnone p v Hv eq_refl). congruence.
  - rewrite Hp'. destruct (decide (q = p)) as [->|Hne].
    + rewrite lookup_insert_eq. assert (x = v) as -> by congruence. split; [intros _|eauto].
      rewrite Hxid. apply u32_range.
    + rewrite lookup_insert_ne by congruence. split; [intros (v' & Hv' & Hof'); congruence|]. intros Hlt.
      rewrite u32_small in Hxid by lia. destruct Hne.
      apply (so_unique _ _ _ _ _ _ _ _ (co_state _ _ _ _ _ _ Hok) q p x v Hx Hv Hxid).
Qed.
End Runs.

(** ** Concrete runs *)

(** Modules whose data is the id of the player; the database is the list of the ids that exist. *)
#[local] Instance sample_modules : Modules Z (list Z) := {
  module_new m v w := Ret (if (m =? PLAYER_MODULE_PROPERTY)%nat then w ++ [pl_id v] else w, Some (pl_id v));
  module_load m v w :=
    Ret (w, if (m =? PLAYER_MODULE_PROPERTY)%nat && negb (bool_decide (pl_id v ∈ w)) then None else Some (pl_id v));
  module_update m v d now w := Ret (w, d);
  module_save m v d w := Ret w;
  module_release m v d w := Ret w;
  data_flush w := Ret w;
  property_name d := [97 + d mod 26];
  property_set_head d head := d;
  query_pid_by_name w name := Some None }.

#[local] Instance sample_module_laws : ModuleLaws Z (list Z).
Proof.
  assert (Hn : forall m d, data_ok (W := list Z) m d).
  { intros m d _. split; [|vm_compute; reflexivity]. apply list.Forall_singleton. cbn. pose proof (Z.mod_pos_bound d 26). lia. }
  constructor; cbn; eauto 10.
Qed.

Definition sample_new : agmap Z := _agMap_new.
Lemma sample_new_ok : pm_ok sample_new /\ pm_abs sample_new = ∅.
Proof. destruct (@agMap_new_ok Z _ _ _) as (Hok & Hc & He). split; [split; [exact Hok|exact Hc]|exact He]. Qed.

Definition sample_malloc : gmap Z (Player Z) -> Z := fresh_address.
Lemma sample_malloc_fresh h : sample_malloc h = 0 \/ h !! sample_malloc h = None.
Proof. right. apply fresh_address_spec. Qed.

Definition sample_pid : Z := 2 ^ 32 + 700001.
Definition sample_start : PlayerManager Z (list Z) (agmap Z) := agPM_init sample_new [sample_pid; 42].

(** A player of the first server logs in and out, another one is created and expires. *)
Definition sample_ops : list (Z * cache_op) :=
  [(100, OpGet sample_pid); (100, OpSetConn sample_pid 7); (101, OpCreate 77 [98; 111; 98] 3); (110, OpGet 78);
   (120, OpModule sample_pid 5%nat); (130, OpSetConn sample_pid INVALID_ID); (1100, OpExpire); (1101, OpUnload sample_pid)].

Lemma player_cache_consistent_witness :
  exists c al zl t', run_cache sample_new sample_malloc sample_ops sample_start = Ret c /\
    cache_ok (6 * zlen sample_ops) t' c al zl.
Proof.
  apply (player_cache_consistent sample_new sample_new_ok sample_malloc sample_malloc_fresh [sample_pid; 42] sample_ops 1).
  - lia.
  - cbn. lia.
  - repeat constructor; try (vm_compute; congruence); cbn; lia.
  - vm_compute. reflexivity.
Defined.

Lemma player_get_answers_witness :
  exists c' p al' zl', player_get sample_new sample_start (sample_malloc (c_heap sample_start)) sample_pid 100 = Ret (c', p) /\
    cache_ok (0 + 3) 100 c' al' zl' /\ get_result sample_start sample_pid 100 c' p.
Proof.
  apply (player_get_answers sample_new sample_new_ok sample_malloc sample_malloc_fresh 0 100 sample_start [] [] sample_pid).
  - apply init_ok; [exact sample_new_ok|lia].
  - lia.
  - split; vm_compute; congruence.
Defined.

(** The cache with one loaded player. *)
Definition sample_loaded : outcome (PlayerManager Z (list Z) (agmap Z)) := cache_step sample_new sample_malloc 100 (OpGet sample_pid) sample_start.
Definition sample_online : outcome (PlayerManager Z (list Z) (agmap Z)) :=
  c ← sample_loaded; cache_step sample_new sample_malloc 101 (OpSetConn sample_pid 7) c.

Lemma sample_loaded_ok : exists c al zl, sample_loaded = Ret c /\ cache_ok 6 100 c al zl.
Proof.
  destruct (cache_step_ok sample_new sample_new_ok sample_malloc sample_malloc_fresh 0 100 sample_start [] [] (OpGet sample_pid))
    as (c & al & zl & E & Hok); [apply init_ok; [exact sample_new_ok|lia]|lia|split; vm_compute; congruence|].
  exists c, al, zl. split; [exact E|exact Hok].
Qed.
Lemma sample_online_ok : exists c al zl, sample_online = Ret c /\ cache_ok 12 101 c al zl.
Proof.
  destruct sample_loaded_ok as (c0 & al0 & zl0 & E0 & Hok0). apply (cache_ok_mono 6 6 100 101) in Hok0; [|lia..].
  destruct (cache_step_ok sample_new sample_new_ok sample_malloc sample_malloc_fresh 6 101 c0 al0 zl0 (OpSetConn sample_pid 7) Hok0)
    as (c & al & zl & E & Hok); [lia|split; vm_compute; congruence|].
  exists c, al, zl. split; [unfold sample_online; rewrite E0; exact E|exact Hok].
Qed.

Lemma zombies_unloaded_witness :
  exists c, sample_loaded = Ret c /\ (exists a (v : Player Z), players c !! a = Some v /\ offline v = true) /\
  exists c' al' zl', try_unload_player_from_zombie_list (size (c_heap c)) c 1001 = Ret c' /\ cache_ok 6 1001 c' al' zl' /\
    forall a v, players c' !! a = Some v <->
      players c !! a = Some v /\ (online v = true \/ 1001 - pl_zombie_time v <= YQ_MAX_ZOMBIE_TIME).
Proof.
  destruct sample_loaded_ok as (c & al & zl & E & Hok). exists c. split; [exact E|]. split.
  - vm_compute in E. injection E as <-. exists 1. eexists. split; vm_compute; reflexivity.
  - apply (zombies_unloaded 6 1001 c al zl). apply (cache_ok_mono 6 6 100 1001); [exact Hok|lia..].
Defined.

Lemma logout_offline_iff_narrow_witness :
  exists c p (v : Player Z) c', sample_online = Ret c /\ pl_id v = sample_pid /\
    player_set_conn sample_new c (sample_malloc (c_heap c)) (pl_id v) INVALID_ID 101 = Ret c' /\
    ((exists v', players c' !! p = Some v' /\ offline v' = true) <-> pl_id v < 2 ^ 32).
Proof.
  destruct sample_online_ok as (c & al & zl & E & Hok).
  assert (Hv : exists v : Player Z, players c !! 1 = Some v /\ online v = true /\ pl_id v = sample_pid).
  { clear Hok. vm_compute in E. injection E as <-. eexists. repeat split; vm_compute; reflexivity. }
  destruct Hv as (v & Hv & Hon & Hid).
  destruct (logout_offline_iff_narrow sample_new sample_new_ok sample_malloc 12 101 c al zl 1 v Hok Hv Hon) as (c' & He & Hiff).
  exists c, 1, v, c'. split; [exact E|]. split; [exact Hid|]. split; [exact He|exact Hiff].
Defined.
