(* ===== verification/RequestQueue.v ===== *)
(** * The request queue of a player: [world/modules/request_queue.c]

    A player module whose data is a queue of the requests the player has sent.  The queue and its items
    are heap structures; the module is an instance of the interface [Modules] of the player cache, next
    to the other modules, which stay an argument. *)
From S2P Require Import Prelude AmfWire AgMap Lrm Dlist Keyed Player PlayerLemmas PlayerCache.

Definition PLAYER_MODULE_REQUEST_QUEUE : nat := 1.

(** [REQUEST_ITEM]; the fields [rpc_id] and [channel_id] are never used, there is one network. *)
Record request_item := mk_item {
  ri_prev : Z; ri_next : Z; ri_context : Z; ri_busy : Z; ri_create_time : Z; ri_playerid : Z; ri_cmd : Z; ri_flag : Z;
  ri_data : list Z }.

Definition set_ri_prev (i : request_item) a := mk_item a (ri_next i) (ri_context i) (ri_busy i) (ri_create_time i)
  (ri_playerid i) (ri_cmd i) (ri_flag i) (ri_data i).
Definition set_ri_next (i : request_item) a := mk_item (ri_prev i) a (ri_context i) (ri_busy i) (ri_create_time i)
  (ri_playerid i) (ri_cmd i) (ri_flag i) (ri_data i).

(** [REQUEST_QUEUE] *)
Record request_queue := mk_queue { rq_pid : Z; rq_head : Z; rq_tail : Z }.

(** The data of a module: a queue, or the data of one of the other modules. *)
Inductive module_data (P : Type) := MQueue (q : Z) | MData (d : P).
Arguments MQueue {P} q.
Arguments MData {P} d.

(** The heaps of queues and items, and what the other modules change. *)
Record rq_world (W : Type) := mk_rw { rw_queues : gmap Z request_queue; rw_items : gmap Z request_item; rw_rest : W }.
Arguments mk_rw {W} _ _ _.
Arguments rw_queues {W} _.
Arguments rw_items {W} _.
Arguments rw_rest {W} _.

Section Queue.
Context {W : Type}.
#[local] Abbreviation world := (rq_world W).

(** The lines of [request_queue_push] on the queue [q], when [malloc] answers [a]. *)
Definition push_item (w : world) (q a now pid cmd flag : Z) (data : list Z) : outcome world :=
  _ ← c_assert (negb (zlen data =? 0));
  if a =? 0 then Undef
  else
    let item := mk_item 0 0 0 0 now pid cmd flag data in
    let items := <[a := item]> (rw_items w) in
    queue ← deref (rw_queues w !! q);
    if rq_head queue =? 0 then
      Ret (mk_rw (<[q := mk_queue (rq_pid queue) a a]> (rw_queues w)) items (rw_rest w))
    else
      tail ← deref (items !! rq_tail queue);
      let items := <[rq_tail queue := set_ri_next tail a]> items in
      item ← deref (items !! a);
      let items := <[a := set_ri_prev item (rq_tail queue)]> items in
      Ret (mk_rw (<[q := mk_queue (rq_pid queue) (rq_head queue) a]> (rw_queues w)) items (rw_rest w)).

(** The lines of [request_queue_pop]; the context of the item is freed with it. *)
Definition pop_item (w : world) (q : Z) : outcome world :=
  queue ← deref (rw_queues w !! q);
  if rq_head queue =? 0 then Ret w
  else if rq_head queue =? rq_tail queue then
    _ ← deref (rw_items w !! rq_head queue);
    Ret (mk_rw (<[q := mk_queue (rq_pid queue) 0 0]> (rw_queues w)) (delete (rq_head queue) (rw_items w)) (rw_rest w))
  else
    item ← deref (rw_items w !! rq_head queue);
    let head := ri_next item in
    next ← deref (rw_items w !! head);
    let items := <[head := set_ri_prev next 0]> (rw_items w) in
    Ret (mk_rw (<[q := mk_queue (rq_pid queue) head (rq_tail queue)]> (rw_queues w)) (delete (rq_head queue) items) (rw_rest w)).

(** The loop of [request_queue_release]. *)
Fixpoint free_items (fuel : nat) (items : gmap Z request_item) (item : Z) : outcome (gmap Z request_item) :=
  if item =? 0 then Ret items
  else
    match fuel with
    | O => NoFuel
    | S fuel' => i ← deref (items !! item); free_items fuel' (delete item items) (ri_next i)
    end.

Definition release_queue (w : world) (q : Z) : outcome world :=
  if q =? 0 then Ret w
  else
    queue ← deref (rw_queues w !! q);
    items ← free_items (size (rw_items w)) (rw_items w) (rq_head queue);
    Ret (mk_rw (delete q (rw_queues w)) items (rw_rest w)).
End Queue.

(** ** The module *)

Section Module.
Context {P W : Type} (other : Modules (module_data P) W) (malloc_queue : gmap Z request_queue -> Z).
#[local] Abbreviation world := (rq_world W).
#[local] Abbreviation player := (Player (module_data P)).

(** [request_queue_new] and [request_queue_load]. *)
Definition request_queue_new (v : player) (w : world) : outcome (world * option (module_data P)) :=
  let q := malloc_queue (rw_queues w) in
  if q =? 0 then Undef
  else Ret (mk_rw (<[q := mk_queue (pl_id v) 0 0]> (rw_queues w)) (rw_items w) (rw_rest w), Some (MQueue q)).

Definition request_queue_release (d : module_data P) (w : world) : outcome world :=
  match d with MQueue q => release_queue w q | MData _ => Undef end.

(** Another module changes its own part of the world. *)
Definition lift_world {A} (w : world) (x : outcome (W * A)) : outcome (world * A) :=
  '(r, a) ← x; Ret (mk_rw (rw_queues w) (rw_items w) r, a).
Definition lift_unit (w : world) (x : outcome W) : outcome world :=
  r ← x; Ret (mk_rw (rw_queues w) (rw_items w) r).

Definition is_queue (m : nat) : bool := (m =? PLAYER_MODULE_REQUEST_QUEUE)%nat.

#[export] Instance request_modules : Modules (module_data P) world := {
  module_new m v w := if is_queue m then request_queue_new v w else lift_world w (module_new m v (rw_rest w));
  module_load m v w := if is_queue m then request_queue_new v w else lift_world w (module_load m v (rw_rest w));
  module_update m v d now w := if is_queue m then Ret (w, d) else lift_world w (module_update m v d now (rw_rest w));
  module_save m v d w := if is_queue m then Ret w else lift_unit w (module_save m v d (rw_rest w));
  module_release m v d w := if is_queue m then request_queue_release d w else lift_unit w (module_release m v d (rw_rest w));
  data_flush w := lift_unit w (data_flush (rw_rest w));
  property_name := property_name;
  property_set_head := property_set_head;
  query_pid_by_name w := query_pid_by_name (rw_rest w) }.
End Module.

(** ** The queue is a list *)

Section Contents.
Context {W : Type}.
#[local] Abbreviation world := (rq_world W).

(** What a request asks for. *)
Record request := mk_request { rq_time : Z; rq_player : Z; rq_cmd : Z; rq_flag : Z; rq_data : list Z; rq_busy : Z }.
Definition request_of (i : request_item) : request :=
  mk_request (ri_create_time i) (ri_playerid i) (ri_cmd i) (ri_flag i) (ri_data i) (ri_busy i).

(** The items from [a] on, whose previous item is [p], are linked in the order of [l]. *)
Fixpoint chain (items : gmap Z request_item) (p a : Z) (l : list (Z * request)) : Prop :=
  match l with
  | [] => a = 0
  | (b, r) :: l' => a = b /\ b <> 0 /\ exists i, items !! b = Some i /\ ri_prev i = p /\ request_of i = r /\ chain items b (ri_next i) l'
  end.

Definition last_of (l : list (Z * request)) : Z := default 0 (list.last (fst <$> l)).

(** The queue at [q] holds the requests [l] (with the addresses of their items). *)
Definition queue_holds (w : world) (q : Z) (l : list (Z * request)) : Prop :=
  exists pid, rw_queues w !! q = Some (mk_queue pid (default 0 (head (fst <$> l))) (last_of l)) /\
    chain (rw_items w) 0 (default 0 (head (fst <$> l))) l /\ NoDup (fst <$> l).

Lemma chain_nonzero items p a l : chain items p a l -> 0 ∉ fst <$> l.
Proof.
  revert p a. induction l as [|[b r] l IH]; intros p a; cbn; [intros _ Hin; inversion Hin|].
  intros (_ & Hb & i & _ & _ & _ & Hc) Hin. apply elem_of_cons in Hin as [E|Hin]; [congruence|]. exact (IH _ _ Hc Hin).
Qed.

Lemma chain_item items p a l b r : chain items p a l -> (b, r) ∈ l -> exists i, items !! b = Some i /\ request_of i = r.
Proof.
  revert p a. induction l as [|[c s] l IH]; intros p a Hc Hin; [inversion Hin|]. cbn in Hc.
  destruct Hc as (_ & _ & i & Hi & _ & Hr & Hc). apply elem_of_cons in Hin as [[= -> ->]|Hin]; eauto.
Qed.

Lemma chain_frame items items' p a l :
  chain items p a l -> (forall b, b ∈ fst <$> l -> items' !! b = items !! b) -> chain items' p a l.
Proof.
  revert p a. induction l as [|[b r] l IH]; intros p a Hc He; [exact Hc|]. cbn in Hc |- *.
  destruct Hc as (Ha & Hb & i & Hi & Hp & Hr & Hc). split; [exact Ha|]. split; [exact Hb|]. exists i.
  split; [rewrite He; [exact Hi|left]|]. split; [exact Hp|]. split; [exact Hr|]. apply IH; [exact Hc|]. intros c Hc'. apply He. now right.
Qed.

(** Linking a new item behind the last one. *)
Lemma chain_snoc items p a l b i c j :
  chain items p a (l ++ [(b, request_of i)]) -> items !! b = Some i -> NoDup (fst <$> l ++ [(b, request_of i)]) ->
  c ∉ fst <$> l ++ [(b, request_of i)] -> c <> 0 -> ri_prev j = b -> ri_next j = 0 ->
  chain (<[c := j]> (<[b := set_ri_next i c]> items)) p a ((l ++ [(b, request_of i)]) ++ [(c, request_of j)]).
Proof.
  revert p a. induction l as [|[d r] l IH]; intros p a Hc Hi Hnd Hcn Hc0 Hj1 Hj2; cbn in *.
  - destruct Hc as (-> & Hb & i' & Hi' & Hp & _ & Hn). assert (i' = i) as -> by congruence.
    assert (c <> b) by (intros ->; apply Hcn; left). split; [reflexivity|]. split; [exact Hb|]. exists (set_ri_next i c).
    split; [rewrite lookup_insert_ne by congruence; apply lookup_insert_eq|]. split; [exact Hp|]. split; [reflexivity|]. split; [reflexivity|].
    split; [exact Hc0|]. exists j. split; [apply lookup_insert_eq|]. auto.
  - destruct Hc as (-> & Hd & i' & Hi' & Hp & Hr & Hn). apply list.NoDup_cons in Hnd as [Hnd1 Hnd2].
    assert (d <> b). { intros ->. apply Hnd1. rewrite fmap_app. apply elem_of_app. right. left. }
    assert (d <> c) by (intros ->; apply Hcn; left). split; [reflexivity|]. split; [exact Hd|]. exists i'.
    split; [now rewrite !lookup_insert_ne by congruence|]. split; [exact Hp|]. split; [exact Hr|].
    apply IH; auto. intros Hin. apply Hcn. now right.
Qed.

Lemma last_of_snoc l b r : last_of (l ++ [(b, r)]) = b.
Proof. unfold last_of. rewrite fmap_app. cbn. now rewrite last_snoc. Qed.
Lemma head_app_cons (l k : list (Z * request)) e : default 0 (head (fst <$> (l ++ [e]) ++ k)) = default 0 (head (fst <$> l ++ [e])).
Proof. now destruct l. Qed.

(** The last item of a chain. *)
Lemma chain_last items p a l b r : chain items p a (l ++ [(b, r)]) -> exists i, items !! b = Some i /\ request_of i = r /\ ri_next i = 0.
Proof.
  revert p a. induction l as [|[c s] l IH]; intros p a; cbn.
  - intros (_ & _ & i & Hi & _ & Hr & Hn). eauto.
  - intros (_ & _ & i & _ & _ & _ & Hc). exact (IH _ _ Hc).
Qed.

(** [request_queue_push] appends. *)
Lemma push_spec (w : world) q l a now pid cmd flag data :
  queue_holds w q l -> rw_items w !! a = None -> a <> 0 -> data <> [] ->
  exists w', push_item w q a now pid cmd flag data = Ret w' /\
    queue_holds w' q (l ++ [(a, mk_request now pid cmd flag data 0)]).
Proof.
  intros (qp & Hq & Hc & Hnd) Ha Ha0 Hdata. unfold push_item.
  destruct (Z.eqb_spec (zlen data) 0) as [E|_]; [destruct data; [contradiction|unfold zlen in E; cbn in E; lia]|].
  cbn [negb c_assert mbind outcome_bind]. destruct (Z.eqb_spec a 0); [contradiction|]. rewrite Hq. cbn [deref mbind outcome_bind rq_head rq_tail rq_pid].
  assert (Hal : a ∉ fst <$> l).
  { intros Hin. apply list_elem_of_fmap in Hin as ([b r] & -> & Hin). destruct (chain_item _ _ _ _ _ _ Hc Hin) as (i & Hi & _). cbn in Ha. congruence. }
  set (item := mk_item 0 0 0 0 now pid cmd flag data).
  destruct l as [|x l0].
  - cbn [fmap list_fmap head from_option Z.eqb Datatypes.id]. eexists. split; [reflexivity|]. exists qp. cbn. split; [apply lookup_insert_eq|]. split.
    + split; [reflexivity|]. split; [exact Ha0|]. exists item. split; [apply lookup_insert_eq|]. now repeat split.
    + apply NoDup_singleton.
  - destruct (exists_last (l := x :: l0)) as (l' & [b r] & E); [discriminate|]. rewrite E in *. clear E x l0.
    destruct (chain_last _ _ _ _ _ _ Hc) as (i & Hi & <- & Hin). rewrite last_of_snoc.
    assert (Hab : a <> b) by congruence.
    assert (Hh : default 0 (head (fst <$> l' ++ [(b, request_of i)])) <> 0).
    { pose proof (chain_nonzero _ _ _ _ Hc) as Hz. destruct l' as [|[c s] l']; cbn in Hz |- *; intros E0; apply Hz; rewrite <- E0; left. }
    destruct (Z.eqb_spec (default 0 (head (fst <$> l' ++ [(b, request_of i)]))) 0); [contradiction|].
    rewrite lookup_insert_ne by congruence. rewrite Hi. cbn [deref mbind outcome_bind].
    rewrite lookup_insert_ne, lookup_insert_eq by congruence. cbn [deref mbind outcome_bind].
    eexists. split; [reflexivity|]. exists qp. rewrite head_app_cons, last_of_snoc. cbn [rw_queues rw_items].
    split; [apply lookup_insert_eq|]. change (mk_request now pid cmd flag data 0) with (request_of (set_ri_prev item b)).
    rewrite (insert_insert_ne _ b a) by congruence. rewrite insert_insert_eq. split.
    + apply chain_snoc; auto. 
    + rewrite fmap_app. apply list.NoDup_app. split; [exact Hnd|]. split; [|apply NoDup_singleton].
      intros d Hd Hda. apply list_elem_of_singleton in Hda. cbn in Hda. now subst.
Qed.

(** [request_queue_pop] removes the first request. *)
Lemma pop_spec (w : world) q b r l :
  queue_holds w q ((b, r) :: l) ->
  exists w', pop_item w q = Ret w' /\ queue_holds w' q l.
Proof.
  intros (qp & Hq & Hc & Hnd). unfold pop_item. rewrite Hq. cbn in Hc, Hnd.
  cbn [deref mbind outcome_bind rq_head rq_tail rq_pid fmap list_fmap head from_option Datatypes.id fst].
  destruct Hc as (_ & Hb & i & Hi & Hp & Hr & Hc). apply list.NoDup_cons in Hnd as [Hbl Hnd].
  destruct (Z.eqb_spec b 0); [contradiction|]. destruct l as [|[c s] l].
  - unfold last_of. cbn [fmap list_fmap list.last from_option Datatypes.id fst]. rewrite Z.eqb_refl, Hi. cbn [deref mbind outcome_bind].
    eexists. split; [reflexivity|]. exists qp. split; [apply lookup_insert_eq|]. split; [reflexivity|constructor].
  - assert (Hlast : last_of ((b, r) :: (c, s) :: l) = last_of ((c, s) :: l)) by reflexivity. rewrite Hlast.
    assert (Hbt : b <> last_of ((c, s) :: l)).
    { intros E. apply Hbl. rewrite E. unfold last_of. destruct (list.last (fst <$> (c, s) :: l)) as [x|] eqn:El.
      - apply last_Some_elem_of in El. exact El.
      - apply last_None in El. discriminate. }
    destruct (Z.eqb_spec b (last_of ((c, s) :: l))); [contradiction|]. rewrite Hi. cbn [deref mbind outcome_bind].
    cbn in Hc. destruct Hc as (Ec & Hc0 & j & Hj & Hjp & Hjr & Hc). rewrite Ec, Hj. cbn [deref mbind outcome_bind].
    eexists. split; [reflexivity|]. exists qp. cbn [rw_queues rw_items fmap list_fmap head from_option Datatypes.id fst].
    split; [apply lookup_insert_eq|]. split; [|exact Hnd]. cbn in Hbl. apply not_elem_of_cons in Hbl as [Hbc Hbl].
    split; [reflexivity|]. split; [exact Hc0|]. exists (set_ri_prev j 0).
    split; [rewrite lookup_delete_ne by congruence; apply lookup_insert_eq|]. split; [reflexivity|]. split; [exact Hjr|].
    apply (chain_frame (rw_items w)); [exact Hc|]. cbn in Hnd. apply list.NoDup_cons in Hnd as [Hcl _].
    intros d Hd. rewrite lookup_delete_ne by (intros ->; contradiction). rewrite lookup_insert_ne; [reflexivity|]. intros ->. contradiction.
Qed.

Lemma empty_queue (w : world) q pid : rw_queues w !! q = Some (mk_queue pid 0 0) -> queue_holds w q [].
Proof. intros Hq. exists pid. split; [exact Hq|]. split; [reflexivity|constructor]. Qed.

Lemma front_of (w : world) q l : queue_holds w q l ->
  exists queue, rw_queues w !! q = Some queue /\ rq_head queue = default 0 (head (fst <$> l)).
Proof. intros (pid & Hq & _). eauto. Qed.
End Contents.
