(* ===== verification/Dispatch.v ===== *)
(** * The requests of players: [world/dispatch.c]

    A message of a connection is decoded, its player is put online on this connection, and its request
    is entered in the player's queue and served; requests without a player, and those that log in or
    create a player, are served at once.

    The handlers of the commands ([do_*], chosen by command and flag) and the checks of [addicted.c] are
    arguments, functions on the whole state: the class [Handlers].  [h_after] is the end of every
    request: [agEvent_schedule], [DATA_FLUSH_ALL] and [notification_clean]. *)
From S2P Require Import Prelude AmfWire AmfValue AgMap Lrm Dlist Keyed Package Player PlayerLemmas PlayerCache RequestQueue.

Definition C_CREATE_PLAYER_REQUEST : Z := 7.
Definition LOGOUT_ANOTHER_LOGIN : Z := 1.
Definition LOGOUT_ADMIN_KICK : Z := 3.
Definition AI_MAX_ID : Z := 99999.
Definition PNR_ERROR : Z := -1.
Definition PNR_MORE : Z := 0.
Definition PNR_BUSY : Z := 1.
Definition PNR_EMPTY : Z := 2.

(** The state: the player cache with the request queues, the reference table of [amf_read], the map of
    [realtime.c], the bytes given to [_agN_send] and what else the handlers change. *)
Record dispatch (P W M E : Type) := mk_dispatch {
  d_cache : PlayerManager (module_data P) (rq_world W) M; d_refs : amf_refs; d_online : M; d_sent : list (Z * list Z); d_env : E }.
Arguments mk_dispatch {P W M E} _ _ _ _ _.
Arguments d_cache {P W M E} _.
Arguments d_refs {P W M E} _.
Arguments d_online {P W M E} _.
Arguments d_sent {P W M E} _.
Arguments d_env {P W M E} _.

(** The handlers of a connection, a player and a command; the time is that of the message. *)
Class Handlers (P W M E : Type) := {
  h_amf : Z -> Z -> Z -> Z -> amf_value -> dispatch P W M E -> outcome (dispatch P W M E);
  h_pbc : Z -> Z -> Z -> Z -> list Z -> dispatch P W M E -> outcome (dispatch P W M E);
  h_after : Z -> dispatch P W M E -> outcome (dispatch P W M E);
  h_can_login : Z -> Z -> dispatch P W M E -> outcome (dispatch P W M E * bool);
  h_login : Z -> Z -> dispatch P W M E -> outcome (dispatch P W M E) }.

Section Operations.
Context {P W M E : Type} (other : Modules (module_data P) W) `{PtrMap M} `{Handlers P W M E}.
Context (map_new : M) (malloc_queue : gmap Z request_queue -> Z) (malloc_item : gmap Z request_item -> Z)
        (malloc_player : gmap Z (Player (module_data P)) -> Z) (junk : Z).
#[local] Abbreviation dispatch := (dispatch P W M E).
#[local] Abbreviation cache := (PlayerManager (module_data P) (rq_world W) M).
#[local] Existing Instance request_modules.
#[local] Instance queue_modules : Modules (module_data P) (rq_world W) := request_modules other malloc_queue.

Definition set_cache (st : dispatch) c : dispatch := mk_dispatch c (d_refs st) (d_online st) (d_sent st) (d_env st).
Definition set_refs (st : dispatch) r : dispatch := mk_dispatch (d_cache st) r (d_online st) (d_sent st) (d_env st).
Definition set_online (st : dispatch) m : dispatch := mk_dispatch (d_cache st) (d_refs st) m (d_sent st) (d_env st).
Definition send (st : dispatch) conn bytes : dispatch :=
  mk_dispatch (d_cache st) (d_refs st) (d_online st) (d_sent st ++ [(conn, bytes)]) (d_env st).

(** *** [request_queue.c], with the player found by its id *)

(** [player_get] and [player_get_module]; a missing queue would be dereferenced. *)
Definition find_queue (c : cache) (pid now : Z) : outcome (cache * option Z) :=
  '(c, p) ← player_get map_new c (malloc_player (c_heap c)) pid now;
  if p =? 0 then Ret (c, None)
  else
    '(c, d) ← player_module c p PLAYER_MODULE_REQUEST_QUEUE now;
    match d with Some (MQueue q) => Ret (c, Some q) | _ => Undef end.

Definition request_queue_push (c : cache) (pid now cmd flag : Z) (data : list Z) : outcome cache :=
  '(c, q) ← find_queue c pid now;
  match q with
  | None => Ret c
  | Some q =>
    w ← push_item (c_world c) q (malloc_item (rw_items (c_world c))) now pid cmd flag data;
    Ret (with_world c w)
  end.

Definition request_queue_pop (c : cache) (pid now : Z) : outcome cache :=
  '(c, q) ← find_queue c pid now;
  match q with None => Ret c | Some q => w ← pop_item (c_world c) q; Ret (with_world c w) end.

Definition request_queue_front (c : cache) (pid now : Z) : outcome (cache * Z) :=
  '(c, q) ← find_queue c pid now;
  match q with
  | None => Ret (c, 0)
  | Some q => queue ← deref (rw_queues (c_world c) !! q); Ret (c, rq_head queue)
  end.

(** *** [dispatch.c] *)

Definition Kick (st : dispatch) (conn pid reason : Z) : outcome dispatch :=
  bytes ← Kick_bytes pid reason; Ret (send st conn bytes).

(** [process_request] on the [len] bytes at [p] of [d]. *)
Definition process_request (st : dispatch) (now conn pid cmd flag : Z) (d : mem) (p len : Z) : outcome (dispatch * Z) :=
  if flag =? 1 then
    '(v, n, refs) ← amf_read junk d p len (d_refs st);
    let st := set_refs st refs in
    match v with
    | None => st ← Kick st conn pid LOGOUT_ADMIN_KICK; Ret (st, -1)
    | Some v =>
      if negb (default 0 n =? len) then st ← Kick st conn pid LOGOUT_ADMIN_KICK; Ret (st, -1)
      else if negb (bool_decide (amf_type_of (Some v) = amf_array)) then
        st ← Kick st conn pid LOGOUT_ADMIN_KICK; Ret (st, -1)
      else
        st ← h_amf now conn pid cmd v st;
        st ← h_after now st;
        Ret (st, 0)
    end
  else if flag =? 2 then
    data ← load_bytes d p len;
    st ← h_pbc now conn pid cmd data st;
    st ← h_after now st;
    Ret (st, 0)
  else st ← Kick st conn pid LOGOUT_ADMIN_KICK; Ret (st, -1).

(** The bytes behind [item->data]: the structure has 80 bytes in front of it and is padded to 88. *)
Definition item_buffer (data : list Z) : mem := data ++ repeat 0 7.

Definition process_next_request (st : dispatch) (pid now : Z) : outcome (dispatch * Z) :=
  '(c, player) ← player_get_online (d_cache st) pid now;
  if player =? 0 then Ret (set_cache st c, PNR_EMPTY)
  else
    '(c, item) ← request_queue_front c pid now;
    if item =? 0 then Ret (set_cache st c, PNR_EMPTY)
    else
      i ← deref (rw_items (c_world c) !! item);
      if negb (ri_busy i =? 0) then Ret (set_cache st c, PNR_BUSY)
      else
        '(c, conn) ← player_get_conn c (ri_playerid i) now;
        '(st, r) ← process_request (set_cache st c) now conn (ri_playerid i) (ri_cmd i) (ri_flag i)
                     (item_buffer (ri_data i)) 0 (zlen (ri_data i));
        if r =? -1 then Ret (st, PNR_ERROR)
        else
          '(c, tmp_item) ← request_queue_front (d_cache st) pid now;
          if item =? tmp_item then
            j ← deref (rw_items (c_world c) !! item);
            if negb (ri_busy j =? 0) then Ret (set_cache st c, PNR_BUSY)
            else
              c ← request_queue_pop c (ri_playerid i) now;
              '(c, item) ← request_queue_front c (ri_playerid i) now;
              Ret (set_cache st c, if negb (item =? 0) then PNR_MORE else PNR_EMPTY)
          else Ret (set_cache st c, PNR_EMPTY).

(** [while(PNR_MORE == process_next_request(playerid));] *)
Fixpoint process_requests (fuel : nat) (st : dispatch) (pid now : Z) : outcome dispatch :=
  '(st, r) ← process_next_request st pid now;
  if r =? PNR_MORE then match fuel with O => NoFuel | S fuel' => process_requests fuel' st pid now end
  else Ret st.

(** A request of a player: it is entered in the queue, and the queue is served. *)
Definition queue_request (fuel : nat) (st : dispatch) (pid now cmd flag : Z) (data : list Z) : outcome dispatch :=
  c ← request_queue_push (d_cache st) pid now cmd flag data;
  process_requests fuel (set_cache st c) pid now.

Definition realtime_online_add (st : dispatch) (id : Z) : outcome dispatch :=
  if AI_MAX_ID <? id then '(m, _) ← pm_set (d_online st) id 1; Ret (set_online st m) else Ret st.

(** [process_message] of dispatch.c: the answer is the number of bytes consumed. *)
Definition dispatch_message (fuel : nat) (st : dispatch) (now conn : Z) (data : list Z) : outcome (dispatch * Z) :=
  if zlen data <? sizeof_translate_header then Ret (st, 0)
  else
    let h := translate_header_at data in
    let package_len := ntohl (th_len h) in
    if zlen data <? package_len then Ret (st, 0)
    else
      c ← try_unload_player_from_zombie_list (size (c_heap (d_cache st))) (d_cache st) now;
      let st := set_cache st c in
      let flag := ntohl (th_flag h) in
      let command := ntohl (th_cmd h) in
      let playerid := ntohl (th_playerid h) in
      let serverid := ntohl (th_serverid h) in
      if (serverid =? 0) && negb (playerid =? 0) then Ret (st, 0)
      else
        let pid := NTOHL_PID_AND_SID playerid serverid in
        '(st, serve) ← (if 0 <? playerid then
          '(c, player) ← player_get_online (d_cache st) pid now;
          st ← (if negb (player =? 0) then
            '(c, xconn) ← player_get_conn c pid now;
            if negb (xconn =? conn) then Kick (set_cache st c) xconn pid LOGOUT_ANOTHER_LOGIN else Ret (set_cache st c)
          else Ret (set_cache st c));
          '(st, can_login) ← h_can_login now pid st;
          if negb can_login && negb (command =? C_LOGIN_REQUEST) && negb (command =? C_LOGOUT_REQUEST) then Ret (st, false)
          else
            st ← (if (can_login : bool) then
              '(c, player) ← player_get map_new (d_cache st) (malloc_player (c_heap (d_cache st))) pid now;
              let st := set_cache st c in
              st ← (if negb (player =? 0) then realtime_online_add st pid else Ret st);
              h_login now pid st
            else Ret st);
            c ← player_set_conn map_new (d_cache st) (malloc_player (c_heap (d_cache st))) pid conn now;
            Ret (set_cache st c, true)
        else Ret (st, true));
        if negb (serve : bool) then Ret (st, package_len)
        else
          let data_len := u64 (package_len - sizeof_translate_header) in
          if negb (pid =? 0) && negb (command =? C_LOGIN_REQUEST) && negb (command =? C_CREATE_PLAYER_REQUEST) then
            bytes ← load_bytes data sizeof_translate_header (u32 data_len);
            st ← queue_request fuel st pid now command flag bytes;
            Ret (st, package_len)
          else
            '(st, r) ← process_request st now conn pid command flag data sizeof_translate_header (u32 data_len);
            if r =? 0 then Ret (st, package_len)
            else st ← h_after now st; Ret (st, 0).
End Operations.
