(* ===== verification/DispatchTheorems.v ===== *)
(** * Serving requests in order

    With handlers that leave the player and its queue alone, the queue of a player is served completely,
    in order, and every request reaches its handler once; a request that cannot be processed stays at
    the head of the queue and blocks everything behind it. *)
From S2P Require Import Prelude AmfWire AmfValue AgMap Lrm Dlist Keyed Package Player PlayerLemmas PlayerCache RequestQueue Dispatch.

(** What a handler is called for. *)
Inductive call := CAmf (cmd : Z) (v : amf_value) | CPbc (cmd : Z) (data : list Z).

Section Serving.
Context {P W M E : Type} (other : Modules (module_data P) W) `{PtrMapLaws M} `{Handlers P W M E}.
Context (map_new : M) (malloc_queue : gmap Z request_queue -> Z) (malloc_item : gmap Z request_item -> Z)
        (malloc_player : gmap Z (Player (module_data P)) -> Z) (junk : Z).
#[local] Abbreviation dispatch := (dispatch P W M E).
#[local] Abbreviation cache := (PlayerManager (module_data P) (rq_world W) M).
#[local] Abbreviation player := (Player (module_data P)).
#[local] Hint Extern 0 (Modules (module_data _) (rq_world _)) => exact (queue_modules other malloc_queue) : typeclass_instances.

(** The player [pid] is cached at [p] and online; its queue is loaded at [q]. *)
Context (n now pid p q : Z).
Definition has_queue (v : player) : Prop :=
  pl_id v = pid /\ online v = true /\ exists t, pl_module v !! PLAYER_MODULE_REQUEST_QUEUE = Some (Some (MQueue q), t).
Definition ready (c : cache) : Prop :=
  exists al zl v, cache_ok n now c al zl /\ players c !! p = Some v /\ has_queue v.
Definition holds (c : cache) (l : list (Z * request)) : Prop := ready c /\ queue_holds (c_world c) q l.

(** *** Access to the queue *)

Lemma get_cached_online c a : ready c -> RESERVED_ID <= pid ->
  exists c', player_get map_new c a pid now = Ret (c', p) /\ ready c' /\ c_world c' = c_world c.
Proof.
  intros (al & zl & v & Hok & Hv & Hid & Hon & t & Hm) Hpid. unfold player_get, agPM_Get.
  destruct (Z.ltb_spec pid RESERVED_ID); [lia|]. destruct (co_maps _ _ _ _ _ _ Hok) as (Hm1 & _).
  pose proof (co_state _ _ _ _ _ _ Hok) as [_ _ _ Hion _ _ _ _ _ _].
  rewrite (pm_get_spec _ _ Hm1). rewrite (proj2 (Hion pid p)) by eauto. cbn [mbind outcome_bind from_option Datatypes.id].
  destruct (co_heap _ _ _ _ _ _ _ _ Hok Hv) as (Hp & _). destruct (Z.eqb_spec p 0); [contradiction|]. cbn [negb].
  destruct (touch_online _ _ _ _ _ _ _ Hok Hv Hon) as (c' & -> & Hok' & Hp' & Hs).
  exists c'. split; [reflexivity|]. split; [|exact (proj1 Hs)]. exists (touch p al), zl, (set_last_active v now).
  split; [exact Hok'|]. split; [rewrite Hp'; apply lookup_insert_eq|]. split; [exact Hid|]. split; [exact Hon|]. exists t. exact Hm.
Qed.

Lemma get_online_ready c : ready c -> exists c', player_get_online c pid now = Ret (c', p) /\ ready c' /\ c_world c' = c_world c.
Proof.
  intros (al & zl & v & Hok & Hv & Hid & Hon & t & Hm). unfold player_get_online.
  destruct (get_online_spec n now c al zl pid Hok) as [[_ Hno]|(c' & p' & v' & He & Hv' & Hid' & Hon' & Hok' & Hp' & Hs)].
  - rewrite (Hno p v Hv Hid) in Hon. discriminate.
  - assert (p' = p) as ->.
    { apply (so_unique _ _ _ _ _ _ _ _ (co_state _ _ _ _ _ _ Hok) p' p v' v Hv' Hv). congruence. }
    exists c'. split; [exact He|]. split; [|exact (proj1 Hs)]. assert (v' = v) as -> by congruence.
    exists (touch p al), zl, (set_last_active v now). split; [exact Hok'|]. split; [rewrite Hp'; apply lookup_insert_eq|].
    split; [exact Hid|]. split; [exact Hon|]. exists t. exact Hm.
Qed.

Lemma queue_module_ready c : ready c ->
  exists c', player_module c p PLAYER_MODULE_REQUEST_QUEUE now = Ret (c', Some (MQueue q)) /\ ready c' /\ c_world c' = c_world c.
Proof.
  intros (al & zl & v & Hok & Hv & Hid & Hon & t & Hm). destruct (co_heap _ _ _ _ _ _ _ _ Hok Hv) as (Hp & w & Hw & Ew).
  assert (Hmw : pl_module w !! PLAYER_MODULE_REQUEST_QUEUE = Some (Some (MQueue q), t)) by now rewrite <- Ew in Hm.
  assert (Hpok : player_ok (W := rq_world W) now w).
  { apply player_ok_bare. rewrite Ew. exact (so_players _ _ _ _ _ _ _ _ (co_state _ _ _ _ _ _ Hok) p v Hv). }
  pose proof (po_times _ _ Hpok _ _ _ Hmw) as Ht.
  assert (Hl : (PLAYER_MODULE_REQUEST_QUEUE < length (pl_module w))%nat) by (eapply lookup_lt_Some; exact Hmw).
  unfold player_module. rewrite Hw. cbn [deref mbind outcome_bind]. unfold player_get_module.
  rewrite bool_decide_eq_true_2 by (unfold PLAYER_MODULE_REQUEST_QUEUE, PLAYER_MODULE_COUNT; lia).
  cbn [c_assert mbind outcome_bind]. rewrite Hmw. cbn [deref mbind outcome_bind].
  unfold _player_update_module. cbn [set_update_time pl_module]. rewrite Hmw. cbn [deref mbind outcome_bind].
  destruct (Z.leb_spec t now); [|lia]. cbn [c_assert mbind outcome_bind].
  assert (Hfin : forall v', same_core w v' -> player_ok (W := rq_world W) now v' ->
    pl_module v' !! PLAYER_MODULE_REQUEST_QUEUE = Some (Some (MQueue q), now) ->
    ready (with_heap (with_world c (c_world c)) (<[p := v']> (c_heap c)))).
  { intros v' Hc Hpok' Hm'. exists al, zl, (bare v'). split; [exact (write_same n now c al zl p w v' (c_world c) Hok Hw Hc Hpok')|].
    split; [unfold players; cbn; now rewrite lookup_fmap, lookup_insert_eq|]. destruct Hc as (u & b & ms & ->).
    split; [change (pl_id w = pid); rewrite <- Hid, <- Ew; reflexivity|]. split; [|exists now; exact Hm'].
    change (online (bare w) = true). now rewrite Ew. }
  destruct (Z.eqb_spec t now) as [->|Hne]; cbn [mbind outcome_bind].
  - cbn [set_update_time pl_module]. rewrite Hmw. cbn [deref mbind outcome_bind]. eexists. split; [reflexivity|]. split; [|reflexivity].
    apply Hfin; [apply same_core_update|now apply player_ok_update|exact Hmw].
  - cbn [module_update queue_modules request_modules is_queue PLAYER_MODULE_REQUEST_QUEUE Nat.eqb mbind outcome_bind].
    cbn [set_module pl_module]. rewrite list_lookup_insert_eq by now rewrite length_insert.
    cbn [deref mbind outcome_bind]. eexists. split; [reflexivity|]. split; [|reflexivity]. apply Hfin.
    + eapply same_core_trans; [apply (same_core_update _ now)|]. eapply same_core_trans; apply same_core_module.
    + assert (Hd : forall d, Some (MQueue q) = Some d -> data_ok (W := rq_world W) PLAYER_MODULE_REQUEST_QUEUE d) by (intros d _ [=]).
      apply player_ok_module; [apply player_ok_module; [now apply player_ok_update|lia|exact Hd]|lia|exact Hd].
    + cbn. apply list_lookup_insert_eq. now rewrite length_insert.
Qed.

Lemma find_queue_ready c : ready c -> RESERVED_ID <= pid ->
  exists c', find_queue other map_new malloc_queue malloc_player c pid now = Ret (c', Some q) /\ ready c' /\ c_world c' = c_world c.
Proof.
  intros Hr Hpid. unfold find_queue.
  destruct (get_cached_online c (malloc_player (c_heap c)) Hr Hpid) as (c1 & E1 & Hr1 & Hw1).
  rewrite E1. cbn [mbind outcome_bind].
  assert (Hp : p <> 0). { destruct Hr as (al & zl & v & Hok & Hv & _). now destruct (co_heap _ _ _ _ _ _ _ _ Hok Hv). }
  destruct (Z.eqb_spec p 0); [contradiction|].
  destruct (queue_module_ready c1 Hr1) as (c2 & E2 & Hr2 & Hw2). rewrite E2.
  exists c2. split; [reflexivity|]. split; [exact Hr2|congruence].
Qed.

Lemma ready_world c w : ready c -> ready (with_world c w).
Proof. intros (al & zl & v & Hok & Hv & Hq). exists al, zl, v. split; [now apply world_ok|]. auto. Qed.

Lemma front_ready c l : holds c l -> RESERVED_ID <= pid ->
  exists c', request_queue_front other map_new malloc_queue malloc_player c pid now = Ret (c', default 0 (head (fst <$> l))) /\
    holds c' l /\ c_world c' = c_world c.
Proof.
  intros [Hr Hq] Hpid. unfold request_queue_front. destruct (find_queue_ready c Hr Hpid) as (c' & -> & Hr' & Hw').
  cbn [mbind outcome_bind]. rewrite Hw'. destruct (front_of _ _ _ Hq) as (queue & -> & Hh). cbn [deref mbind outcome_bind].
  exists c'. rewrite Hh. split; [reflexivity|]. split; [|exact Hw']. split; [exact Hr'|]. now rewrite Hw'.
Qed.

Lemma pop_ready c b r l : holds c ((b, r) :: l) -> RESERVED_ID <= pid ->
  exists c', request_queue_pop other map_new malloc_queue malloc_player c pid now = Ret c' /\ holds c' l.
Proof.
  intros [Hr Hq] Hpid. unfold request_queue_pop. destruct (find_queue_ready c Hr Hpid) as (c' & -> & Hr' & Hw').
  cbn [mbind outcome_bind]. rewrite Hw'. destruct (pop_spec _ _ _ _ _ Hq) as (w' & -> & Hq'). cbn [mbind outcome_bind].
  eexists. split; [reflexivity|]. split; [now apply ready_world|exact Hq'].
Qed.

Hypothesis malloc_item_fresh : forall h, h !! malloc_item h = None /\ malloc_item h <> 0.

Lemma push_ready c l cmd flag data : holds c l -> RESERVED_ID <= pid -> data <> [] ->
  exists c' a, request_queue_push other map_new malloc_queue malloc_item malloc_player c pid now cmd flag data = Ret c' /\
    holds c' (l ++ [(a, mk_request now pid cmd flag data 0)]).
Proof.
  intros [Hr Hq] Hpid Hd. unfold request_queue_push. destruct (find_queue_ready c Hr Hpid) as (c' & -> & Hr' & Hw').
  cbn [mbind outcome_bind]. rewrite Hw'. destruct (malloc_item_fresh (rw_items (c_world c))) as [Hf Hf0].
  destruct (push_spec _ _ _ _ now pid cmd flag data Hq Hf Hf0 Hd) as (w' & -> & Hq'). cbn [mbind outcome_bind].
  eexists _, _. split; [reflexivity|]. split; [now apply ready_world|exact Hq'].
Qed.

Lemma get_conn_ready c l : holds c l -> exists c' conn, player_get_conn c pid now = Ret (c', conn) /\ holds c' l.
Proof.
  intros [Hr Hq]. unfold player_get_conn. destruct (get_online_ready c Hr) as (c' & He & Hr' & Hw').
  unfold player_get_online in He. rewrite He. cbn [mbind outcome_bind]. pose proof Hr' as (al & zl & v & Hok & Hv & _).
  destruct (co_heap _ _ _ _ _ _ _ _ Hok Hv) as (Hp & w & -> & _). destruct (Z.eqb_spec p 0); [contradiction|].
  cbn [deref mbind outcome_bind]. exists c', (pl_conn w). split; [reflexivity|]. split; [exact Hr'|now rewrite Hw'].
Qed.

(** *** Requests and their handlers *)

(** What must be served next depends on the queue only through [holds]; the handlers report their
    calls through [log]. *)
Context (log : E -> list call).
Definition served (st : dispatch) (l : list (Z * request)) (calls : list call) : Prop :=
  holds (d_cache st) l /\ log (d_env st) = calls.

(** A handler that returns, leaves the player and its queue as they are, and logs [k]. *)
Definition tame (k : list call) (f : dispatch -> outcome dispatch) : Prop :=
  forall st l calls, served st l calls -> exists st', f st = Ret st' /\ served st' l (calls ++ k).

Record tame_handlers : Prop := {
  tame_amf : forall conn cmd v, tame [CAmf cmd v] (h_amf now conn pid cmd v);
  tame_pbc : forall conn cmd data, tame [CPbc cmd data] (h_pbc now conn pid cmd data);
  tame_after : tame [] (h_after now) }.

(** The payload of the request is one AMF array. *)
Definition reads_array (data : list Z) (v : amf_value) : Prop :=
  amf_type_of (Some v) = amf_array /\
  forall refs, exists refs', amf_read junk (item_buffer data) 0 (zlen data) refs = Ret (Some v, Some (zlen data), refs').

(** The request leads to the call [k]. *)
Inductive request_call (r : request) : call -> Prop :=
| call_amf v : rq_flag r = 1 -> reads_array (rq_data r) v -> request_call r (CAmf (rq_cmd r) v)
| call_pbc : rq_flag r = 2 -> request_call r (CPbc (rq_cmd r) (rq_data r)).

(** The request can not be processed: its flag is unknown, or its payload not one AMF array. *)
Inductive bad_request (r : request) : Prop :=
| bad_flag : rq_flag r <> 1 -> rq_flag r <> 2 -> bad_request r
| bad_payload : rq_flag r = 1 ->
    (forall refs, exists v m refs', amf_read junk (item_buffer (rq_data r)) 0 (zlen (rq_data r)) refs = Ret (v, m, refs') /\
       (v = None \/ default 0 m <> zlen (rq_data r) \/ amf_type_of v <> amf_array)) -> bad_request r.

Lemma load_item_buffer data : load_bytes (item_buffer data) 0 (zlen data) = Ret data.
Proof.
  unfold load_bytes, item_buffer. rewrite zlen_app. pose proof (zlen_nonneg data). pose proof (zlen_nonneg (repeat 0 7)).
  ztests. unfold slice. rewrite to_nat_zlen. change (Z.to_nat 0) with O. rewrite drop_0. now rewrite take_app_length.
Qed.

Lemma process_good st l calls conn r k : tame_handlers ->
  served st l calls -> request_call r k ->
  exists st', process_request junk st now conn pid (rq_cmd r) (rq_flag r) (item_buffer (rq_data r)) 0 (zlen (rq_data r)) = Ret (st', 0) /\
    served st' l (calls ++ [k]).
Proof.
  intros [Ha Hp Hf] Hs Hk. unfold process_request. destruct Hk as [v Hfl [Hty Hrd]|Hfl]; rewrite Hfl; cbn [Z.eqb Pos.eqb].
  - destruct (Hrd (d_refs st)) as (refs & ->). cbn [mbind outcome_bind from_option Datatypes.id]. rewrite Z.eqb_refl. cbn [negb].
    rewrite bool_decide_eq_true_2 by exact Hty. cbn [negb].
    destruct (Ha conn (rq_cmd r) v (Dispatch.set_refs st refs) l calls) as (st1 & -> & Hs1); [exact Hs|]. cbn [mbind outcome_bind].
    destruct (Hf st1 l _ Hs1) as (st2 & -> & Hs2). cbn [mbind outcome_bind]. exists st2. split; [reflexivity|]. now rewrite app_nil_r in Hs2.
  - rewrite load_item_buffer. cbn [mbind outcome_bind].
    destruct (Hp conn (rq_cmd r) (rq_data r) st l calls Hs) as (st1 & -> & Hs1). cbn [mbind outcome_bind].
    destruct (Hf st1 l _ Hs1) as (st2 & -> & Hs2). cbn [mbind outcome_bind]. exists st2. split; [reflexivity|]. now rewrite app_nil_r in Hs2.
Qed.

Lemma process_bad st l calls conn r :
  served st l calls -> bad_request r ->
  exists st' bytes, process_request junk st now conn pid (rq_cmd r) (rq_flag r) (item_buffer (rq_data r)) 0 (zlen (rq_data r)) = Ret (st', -1) /\
    served st' l calls /\ Kick_bytes pid LOGOUT_ADMIN_KICK = Ret bytes /\ d_sent st' = d_sent st ++ [(conn, bytes)].
Proof.
  intros Hs Hb. destruct (Kick_bytes_spec pid LOGOUT_ADMIN_KICK) as (h & Hk & _); [unfold LOGOUT_ADMIN_KICK; lia|].
  unfold process_request, Kick. rewrite Hk. cbn [mbind outcome_bind].
  destruct Hb as [Hf1 Hf2|Hf Hr].
  - destruct (Z.eqb_spec (rq_flag r) 1); [contradiction|]. destruct (Z.eqb_spec (rq_flag r) 2); [contradiction|].
    eexists _, _. split; [reflexivity|]. split; [exact Hs|]. auto.
  - rewrite Hf. cbn [Z.eqb Pos.eqb]. destruct (Hr (d_refs st)) as (v & m & refs & -> & Hbad). cbn [mbind outcome_bind].
    destruct v as [v|].
    + destruct (Z.eqb_spec (default 0 m) (zlen (rq_data r))); cbn [negb];
        [|eexists _, _; split; [reflexivity|]; split; [exact Hs|]; auto].
      destruct Hbad as [?|[?|Hty]]; [discriminate|contradiction|].
      rewrite bool_decide_eq_false_2 by exact Hty. cbn [negb]. eexists _, _. split; [reflexivity|]. split; [exact Hs|]. auto.
    + eexists _, _. split; [reflexivity|]. split; [exact Hs|]. auto.
Qed.

Lemma head_item (w : rq_world W) a r l : queue_holds w q ((a, r) :: l) -> a <> 0 /\ exists i, rw_items w !! a = Some i /\ request_of i = r.
Proof. intros (x & _ & Hc & _). cbn in Hc. destruct Hc as (_ & Ha & i & Hi & _ & Hr & _). eauto. Qed.

#[local] Abbreviation next := (process_next_request other map_new malloc_queue malloc_player junk).
#[local] Abbreviation serve := (process_requests other map_new malloc_queue malloc_player junk).

(** Up to the call of [process_request] on the first request. *)
Lemma next_start st a r l calls : RESERVED_ID <= pid -> served st ((a, r) :: l) calls -> rq_player r = pid -> rq_busy r = 0 ->
  exists c conn, served (set_cache st c) ((a, r) :: l) calls /\
    next st pid now =
    '(st, x) ← process_request junk (set_cache st c) now conn pid (rq_cmd r) (rq_flag r) (item_buffer (rq_data r)) 0 (zlen (rq_data r));
    if x =? -1 then Ret (st, PNR_ERROR)
    else
      '(c, tmp_item) ← request_queue_front other map_new malloc_queue malloc_player (d_cache st) pid now;
      if a =? tmp_item then
        j ← deref (rw_items (c_world c) !! a);
        if negb (ri_busy j =? 0) then Ret (set_cache st c, PNR_BUSY)
        else
          c ← request_queue_pop other map_new malloc_queue malloc_player c pid now;
          '(c, item) ← request_queue_front other map_new malloc_queue malloc_player c pid now;
          Ret (set_cache st c, if negb (item =? 0) then PNR_MORE else PNR_EMPTY)
      else Ret (set_cache st c, PNR_EMPTY).
Proof.
  intros Hpid [Hh Hlog] Hpl Hbusy. unfold process_next_request.
  destruct (get_online_ready (d_cache st) (proj1 Hh)) as (c1 & -> & Hr1 & Hw1). cbn [mbind outcome_bind].
  assert (Hp : p <> 0). { destruct Hr1 as (al & zl & v & Hok & Hv & _). now destruct (co_heap _ _ _ _ _ _ _ _ Hok Hv). }
  destruct (Z.eqb_spec p 0); [contradiction|].
  assert (Hh1 : holds c1 ((a, r) :: l)) by (split; [exact Hr1|rewrite Hw1; exact (proj2 Hh)]).
  destruct (front_ready c1 _ Hh1 Hpid) as (c2 & -> & Hh2 & _). cbn [mbind outcome_bind fmap list_fmap head from_option Datatypes.id fst].
  destruct (head_item _ _ _ _ (proj2 Hh2)) as (Ha & i & Hi & <-). destruct (Z.eqb_spec a 0); [contradiction|].
  rewrite Hi. cbn [deref mbind outcome_bind]. cbn in Hpl, Hbusy. rewrite Hbusy, Hpl. cbn [Z.eqb negb].
  destruct (get_conn_ready c2 _ Hh2) as (c3 & conn & -> & Hh3). cbn [mbind outcome_bind].
  exists c3, conn. split; [split; [exact Hh3|exact Hlog]|]. reflexivity.
Qed.

Lemma next_good st a r l calls k : tame_handlers -> RESERVED_ID <= pid ->
  served st ((a, r) :: l) calls -> rq_player r = pid -> rq_busy r = 0 -> request_call r k ->
  exists st', next st pid now = Ret (st', match l with [] => PNR_EMPTY | _ => PNR_MORE end) /\ served st' l (calls ++ [k]).
Proof.
  intros Ht Hpid Hs Hpl Hbusy Hk. destruct (next_start st a r l calls Hpid Hs Hpl Hbusy) as (c & conn & Hs1 & ->).
  destruct (process_good _ _ _ conn r k Ht Hs1 Hk) as (st1 & -> & [Hh2 Hl2]). cbn [mbind outcome_bind Z.eqb].
  destruct (front_ready _ _ Hh2 Hpid) as (c3 & -> & Hh3 & _). cbn [mbind outcome_bind fmap list_fmap head from_option Datatypes.id fst].
  rewrite Z.eqb_refl. destruct (head_item _ _ _ _ (proj2 Hh3)) as (Ha & i & Hi & Hir). rewrite Hi. cbn [deref mbind outcome_bind].
  assert (Hib : ri_busy i = 0) by (rewrite <- Hbusy, <- Hir; reflexivity). rewrite Hib. cbn [Z.eqb negb].
  destruct (pop_ready _ _ _ _ Hh3 Hpid) as (c4 & -> & Hh4). cbn [mbind outcome_bind].
  destruct (front_ready _ _ Hh4 Hpid) as (c5 & -> & Hh5 & _). cbn [mbind outcome_bind].
  exists (set_cache st1 c5). split; [|split; [exact Hh5|exact Hl2]]. f_equal. f_equal. destruct l as [|[b s] l]; [reflexivity|].
  cbn [fmap list_fmap head from_option Datatypes.id fst]. destruct (head_item _ _ _ _ (proj2 Hh5)) as (Hb & _).
  now destruct (Z.eqb_spec b 0).
Qed.

Lemma next_bad st a r l calls : RESERVED_ID <= pid ->
  served st ((a, r) :: l) calls -> rq_player r = pid -> rq_busy r = 0 -> bad_request r ->
  exists st' conn bytes, next st pid now = Ret (st', PNR_ERROR) /\ served st' ((a, r) :: l) calls /\
    Kick_bytes pid LOGOUT_ADMIN_KICK = Ret bytes /\ d_sent st' = d_sent st ++ [(conn, bytes)].
Proof.
  intros Hpid Hs Hpl Hbusy Hb. destruct (next_start st a r l calls Hpid Hs Hpl Hbusy) as (c & conn & Hs1 & ->).
  destruct (process_bad _ _ _ conn r Hs1 Hb) as (st1 & bytes & -> & Hs2 & Hk & Hsent). cbn [mbind outcome_bind Z.eqb].
  exists st1, conn, bytes. auto.
Qed.

(** The requests of a queue and the calls they lead to. *)
Definition serves (l : list (Z * request)) (ks : list call) : Prop :=
  Forall2 (fun e k => rq_player (snd e) = pid /\ rq_busy (snd e) = 0 /\ request_call (snd e) k) l ks.

Lemma serve_all : tame_handlers -> RESERVED_ID <= pid -> forall l ks st calls fuel,
  l <> [] -> served st l calls -> serves l ks -> (length l <= S fuel)%nat ->
  exists st', serve fuel st pid now = Ret st' /\ served st' [] (calls ++ ks).
Proof.
  intros Ht Hpid. induction l as [|[a r] l IH]; intros ks st calls fuel Hne Hs Hks Hf; [contradiction|].
  apply Forall2_cons_inv_l in Hks as (k & ks' & (Hpl & Hbusy & Hk) & Hks & ->). cbn [snd] in *.
  destruct (next_good st a r l calls k Ht Hpid Hs Hpl Hbusy Hk) as (st1 & He & Hs1).
  destruct l as [|e l].
  - apply Forall2_nil_inv_l in Hks as ->. destruct fuel; cbn [process_requests]; rewrite He; cbn [mbind outcome_bind Z.eqb PNR_EMPTY PNR_MORE Pos.eqb];
      exists st1; (split; [reflexivity|exact Hs1]).
  - destruct fuel as [|fuel]; [cbn in Hf; lia|]. cbn [process_requests]. rewrite He. cbn [mbind outcome_bind Z.eqb PNR_MORE].
    destruct (IH ks' st1 (calls ++ [k]) fuel) as (st2 & -> & Hs2); [discriminate|exact Hs1|exact Hks|cbn in Hf |- *; lia|].
    exists st2. split; [reflexivity|]. now rewrite <- (assoc_L (++)) in Hs2.
Qed.

(** C28: With handlers that leave the player and its queue as they are, entering a request of an online
    player and serving the queue terminates, calls the handler of every waiting request and then of the
    new one, each once, in the order in which they were entered, and leaves the queue empty. *)
Theorem requests_served_in_order st l calls cmd flag data ks k fuel :
  tame_handlers -> RESERVED_ID <= pid -> served st l calls -> data <> [] ->
  serves l ks -> request_call (mk_request now pid cmd flag data 0) k -> (length l <= fuel)%nat ->
  exists st', queue_request other map_new malloc_queue malloc_item malloc_player junk fuel st pid now cmd flag data = Ret st' /\
    served st' [] (calls ++ ks ++ [k]).
Proof.
  intros Ht Hpid [Hh Hl] Hd Hks Hk Hf. unfold queue_request.
  destruct (push_ready (d_cache st) l cmd flag data Hh Hpid Hd) as (c & a & -> & Hh'). cbn [mbind outcome_bind].
  apply (serve_all Ht Hpid (l ++ [(a, mk_request now pid cmd flag data 0)]) (ks ++ [k])).
  - now destruct l.
  - split; [exact Hh'|exact Hl].
  - apply Forall2_app; [exact Hks|]. repeat constructor. exact Hk.
  - rewrite length_app. cbn. lia.
Qed.

(** C29: A request that can not be processed stays in front of the queue of its player: a further request
    is entered behind it, no handler is called, and the player is kicked once more; so nothing the
    player sends is served again before the player is unloaded. *)
Theorem bad_request_blocks_player st a r l calls cmd flag data fuel :
  RESERVED_ID <= pid -> served st ((a, r) :: l) calls -> rq_player r = pid -> rq_busy r = 0 -> bad_request r -> data <> [] ->
  exists st' b conn bytes,
    queue_request other map_new malloc_queue malloc_item malloc_player junk fuel st pid now cmd flag data = Ret st' /\
    served st' ((a, r) :: l ++ [(b, mk_request now pid cmd flag data 0)]) calls /\
    Kick_bytes pid LOGOUT_ADMIN_KICK = Ret bytes /\ d_sent st' = d_sent st ++ [(conn, bytes)].
Proof.
  intros Hpid [Hh Hl] Hpl Hbusy Hb Hd. unfold queue_request.
  destruct (push_ready (d_cache st) _ cmd flag data Hh Hpid Hd) as (c & b & -> & Hh'). cbn [mbind outcome_bind].
  destruct (next_bad (set_cache st c) a r (l ++ [(b, mk_request now pid cmd flag data 0)]) calls Hpid) as (st' & conn & bytes & He & Hs & Hk & Hsent);
    [split; [exact Hh'|exact Hl]|exact Hpl|exact Hbusy|exact Hb|].
  exists st', b, conn, bytes. split; [|auto]. destruct fuel; cbn [process_requests]; rewrite He; reflexivity.
Qed.
End Serving.

(** ** Concrete runs *)

(** Other modules without data of their own, and handlers that only log their calls. *)
#[local] Instance no_modules : Modules (module_data Z) unit := {
  module_new m v w := Ret (w, Some (MData 0));
  module_load m v w := Ret (w, Some (MData 0));
  module_update m v d now w := Ret (w, d);
  module_save m v d w := Ret w;
  module_release m v d w := Ret w;
  data_flush w := Ret w;
  property_name d := [97];
  property_set_head d head := d;
  query_pid_by_name w name := None }.

Definition log_call {P W M : Type} (k : call) (st : dispatch P W M (list call)) : dispatch P W M (list call) :=
  mk_dispatch (d_cache st) (d_refs st) (d_online st) (d_sent st) (d_env st ++ [k]).

#[local] Instance log_handlers {P W M : Type} : Handlers P W M (list call) := {
  h_amf now conn pid cmd v st := Ret (log_call (CAmf cmd v) st);
  h_pbc now conn pid cmd data st := Ret (log_call (CPbc cmd data) st);
  h_after now st := Ret st;
  h_can_login now pid st := Ret (st, true);
  h_login now pid st := Ret st }.

Definition sample_id : Z := 2 ^ 32 + 5.
Definition sample_map_new : agmap Z := _agMap_new.
Lemma sample_map_new_ok : pm_ok sample_map_new /\ pm_abs sample_map_new = ∅.
Proof. destruct (@agMap_new_ok Z _ _ _) as (Hok & Hc & He). split; [split; [exact Hok|exact Hc]|exact He]. Qed.

#[local] Hint Extern 0 (Modules (module_data _) (rq_world _)) => exact (queue_modules no_modules fresh_address) : typeclass_instances.

Definition sample_player : Player (module_data Z) := set_module (new_player sample_id) PLAYER_MODULE_REQUEST_QUEUE (Some (MQueue 5), 0).

(** The player, online on connection 7, with the world [w]. *)
Definition sample_cache (w : rq_world unit) : outcome (PlayerManager (module_data Z) (rq_world unit) (agmap Z)) :=
  let c := agPM_init sample_map_new w in
  c ← agPM_enter sample_map_new (with_heap c (<[1 := sample_player]> (c_heap c))) 1 100;
  '(c, _) ← _update_player_active_list c 1 100;
  agPM_SetOnline c 1 7.

Lemma sample_ready w :
  exists c, sample_cache w = Ret c /\ ready (M := agmap Z) no_modules fresh_address 10 100 sample_id 1 5 c /\ c_world c = w.
Proof.
  pose proof (init_ok (D := module_data Z) sample_map_new sample_map_new_ok w 100 ltac:(lia)) as Hok0. unfold sample_cache.
  set (c0 := agPM_init sample_map_new w) in *.
  assert (Hpok : player_ok (W := rq_world unit) 100 sample_player).
  { apply player_ok_module; [apply new_player_ok; [split; vm_compute; congruence|lia]|lia|]. intros d _ [=]. }
  assert (Hnone : forall b v, players c0 !! b = Some v -> pl_id v <> pl_id sample_player).
  { intros b v Hv. unfold players, c0 in Hv. cbn in Hv. rewrite lookup_fmap, lookup_empty in Hv. discriminate. }
  destruct (enter_spec sample_map_new sample_map_new_ok 0 100 c0 [] [] 1 sample_player [] Hok0)
    as (c1 & -> & Hok1 & Hp1 & Hw1 & _); [lia|reflexivity|lia|exact Hnone|exact Hpok|reflexivity..|].
  cbn [mbind outcome_bind]. set (v1 := set_conn _ _) in Hp1.
  assert (Hv1 : players c1 !! 1 = Some v1) by (rewrite Hp1; apply lookup_insert_eq).
  destruct (enter_linked _ _ _ [] _ 1 v1 Hok1 ltac:(apply not_elem_of_nil) Hv1) as (h & q & -> & Hok2 & Hp2).
  cbn [mbind outcome_bind]. set (c2 := with_active c1 h q) in *.
  assert (Hv2 : players c2 !! 1 = Some (set_last_active v1 100)) by (rewrite Hp2; apply lookup_insert_eq).
  destruct (set_online_spec _ _ _ _ _ _ _ 7 Hok2 Hv2) as (c3 & -> & Hok3 & Hp3 & Hw3); [vm_compute; discriminate|].
  exists c3. split; [reflexivity|]. split; [|rewrite Hw3; exact Hw1].
  eexists _, _, (set_conn (set_last_active v1 100) 7).
  split; [apply (cache_ok_mono (0 + 1) 10 100 100); [exact Hok3|lia..]|]. split; [rewrite Hp3; apply lookup_insert_eq|].
  split; [reflexivity|]. split; [reflexivity|]. exists 0. reflexivity.
Qed.

#[local] Abbreviation sample_served := (served (M := agmap Z) no_modules fresh_address 10 100 sample_id 1 5 (fun e => e)).

Lemma sample_tame : tame_handlers (M := agmap Z) no_modules fresh_address 10 100 sample_id 1 5 (fun e => e).
Proof.
  constructor; intros; intros st l calls [Hh Hl]; eexists; (split; [reflexivity|]); (split; [exact Hh|]); cbn; rewrite Hl.
  - reflexivity.
  - reflexivity.
  - now rewrite app_nil_r.
Qed.

Definition sample_state (c : PlayerManager (module_data Z) (rq_world unit) (agmap Z)) : dispatch Z unit (agmap Z) (list call) :=
  mk_dispatch c (mk_refs 0 []) _agMap_new [] [].

(** A queue with one waiting request. *)
Definition sample_world (flag : Z) : rq_world unit :=
  mk_rw {[5 := mk_queue sample_id 3 3]} {[3 := mk_item 0 0 0 0 90 sample_id 11 flag [1; 2]]} tt.

Lemma sample_holds flag : queue_holds (sample_world flag) 5 [(3, mk_request 90 sample_id 11 flag [1; 2] 0)].
Proof.
  exists sample_id. split; [reflexivity|]. split; [|apply NoDup_singleton]. split; [reflexivity|]. split; [lia|].
  eexists. split; [reflexivity|]. now repeat split.
Qed.

Lemma requests_served_in_order_witness :
  exists c st', sample_cache (sample_world 2) = Ret c /\
    queue_request no_modules sample_map_new fresh_address fresh_address fresh_address 0 1 (sample_state c) sample_id 100 13 2 [7] = Ret st' /\
    sample_served st' [] ([] ++ [CPbc 11 [1; 2]] ++ [CPbc 13 [7]]).
Proof.
  destruct (sample_ready (sample_world 2)) as (c & Hc & Hr & Hw).
  edestruct (requests_served_in_order (M := agmap Z) no_modules sample_map_new fresh_address fresh_address fresh_address 0 10 100 sample_id 1 5
    (fun h => fresh_address_spec h) (fun e => e) (sample_state c) [(3, mk_request 90 sample_id 11 2 [1; 2] 0)] [] 13 2 [7]
    [CPbc 11 [1; 2]] (CPbc 13 [7]) 1) as (st' & He & Hs).
  - exact sample_tame.
  - vm_compute. congruence.
  - split; [|reflexivity]. split; [exact Hr|]. cbn. rewrite Hw. apply sample_holds.
  - discriminate.
  - constructor; [|constructor]. split; [reflexivity|]. split; [reflexivity|]. now apply (call_pbc 0 (mk_request 90 sample_id 11 2 [1; 2] 0)).
  - now apply (call_pbc 0 (mk_request 100 sample_id 13 2 [7] 0)).
  - cbn. lia.
  - exists c, st'. split; [exact Hc|]. split; [exact He|exact Hs].
Defined.

Lemma bad_request_blocks_player_witness :
  exists c st' b conn bytes, sample_cache (sample_world 9) = Ret c /\
    queue_request no_modules sample_map_new fresh_address fresh_address fresh_address 0 1 (sample_state c) sample_id 100 13 2 [7] = Ret st' /\
    sample_served st' [(3, mk_request 90 sample_id 11 9 [1; 2] 0); (b, mk_request 100 sample_id 13 2 [7] 0)] [] /\
    Kick_bytes sample_id LOGOUT_ADMIN_KICK = Ret bytes /\ d_sent st' = [] ++ [(conn, bytes)].
Proof.
  destruct (sample_ready (sample_world 9)) as (c & Hc & Hr & Hw).
  edestruct (bad_request_blocks_player (M := agmap Z) no_modules sample_map_new fresh_address fresh_address fresh_address 0 10 100 sample_id 1 5
    (fun h => fresh_address_spec h) (fun e => e) (sample_state c) 3 (mk_request 90 sample_id 11 9 [1; 2] 0) [] [] 13 2 [7] 1)
    as (st' & b & conn & bytes & He & Hs & Hk & Hsent).
  - vm_compute. congruence.
  - split; [|reflexivity]. split; [exact Hr|]. cbn. rewrite Hw. apply sample_holds.
  - reflexivity.
  - reflexivity.
  - apply bad_flag; discriminate.
  - discriminate.
  - exists c, st', b, conn, bytes. split; [exact Hc|]. split; [exact He|]. split; [exact Hs|]. split; [exact Hk|exact Hsent].
Defined.
