(* ===== verification/Message.v ===== *)
(** * Messages of the world: [world/message.c] and the rest of [world/dispatch.c]

    Sending to a player, to the gateway and to everybody.  These functions are what [notify.c] sends with
    (an instance of [Sender]).  The variable [gateway_conn] of dispatch.c is part of the environment [E] of the
    dispatcher; messages of protobuf are built by generated code, an argument. *)
From S2P Require Import Prelude AmfWire AmfValue AmfTheorems AgMap Lrm Dlist Keyed Package Player PlayerLemmas PlayerCache RequestQueue Notify Dispatch.

Section Operations.
Context {P W M E : Type} `{PtrMap M} (gateway_conn : E -> Z) (set_gateway_conn : E -> Z -> E).
#[local] Abbreviation dispatch := (dispatch P W M E).

(** [agN_writev] is given the header and the payload. *)
Definition send_message (st : dispatch) (conn playerid cmd flag : Z) (data : list Z) : dispatch :=
  send st conn (concat (send_message_iov playerid cmd flag data)).

Definition send_message_to (st : dispatch) (now playerid cmd flag : Z) (data : list Z) : outcome dispatch :=
  '(c, conn) ← player_get_conn (d_cache st) playerid now;
  Ret (send_message (set_cache st c) conn playerid cmd flag data).

Definition send_amf_message (st : dispatch) (conn playerid cmd : Z) (v : amf_value) : outcome dispatch :=
  len ← amf_get_encode_length (Some v);
  '(offset, message) ← amf_encode (repeat 0 (Z.to_nat len)) 0 len (Some v);
  bytes ← load_bytes message 0 offset;
  Ret (send_message st conn playerid cmd 1 bytes).

Definition send_amf_message_to (st : dispatch) (now playerid cmd : Z) (v : amf_value) : outcome dispatch :=
  '(c, conn) ← player_get_conn (d_cache st) playerid now;
  send_amf_message (set_cache st c) conn playerid cmd v.

Definition send_pbc_message (st : dispatch) (conn playerid cmd : Z) (msg : list Z) : dispatch :=
  send_message st conn playerid cmd 2 msg.

Definition send_pbc_message_to (st : dispatch) (now playerid cmd : Z) (msg : list Z) : outcome dispatch :=
  '(c, conn) ← player_get_conn (d_cache st) playerid now;
  Ret (send_pbc_message (set_cache st c) conn playerid cmd msg).

Definition get_gateway_conn (st : dispatch) : Z := gateway_conn (d_env st).
Definition reset_gateway_conn (st : dispatch) : dispatch :=
  mk_dispatch (d_cache st) (d_refs st) (d_online st) (d_sent st) (set_gateway_conn (d_env st) INVALID_ID).

(** [protocol_new_w] and what is written to the message: players (the lower halves of their ids), command,
    flag, payload; null when the type is unknown. *)
Context (broadcast_request : list Z -> Z -> Z -> list Z -> option (list Z)).

Definition broadcast_to_client (st : dispatch) (cmd flag : Z) (msg : list Z) (pids : list Z) : outcome dispatch :=
  if zlen msg <=? 0 then Ret st
  else
    let conn := get_gateway_conn st in
    if conn =? INVALID_ID then Ret st
    else
      match broadcast_request (map u32 pids) cmd flag msg with
      | None => Ret st
      | Some req => Ret (send_pbc_message st conn 0 S_SERVICE_BROADCAST_REQUEST req)
      end.

#[export] Instance message_sender (now : Z) : Sender dispatch := {
  Notify.send_amf_message_to st playerid cmd v := send_amf_message_to st now playerid cmd v;
  Notify.broadcast_to_client st cmd flag msg := broadcast_to_client st cmd flag msg [] }.

(** [realtime.c] *)
Definition realtime_online_remove (st : dispatch) (id : Z) : outcome dispatch :=
  '(m, _) ← pm_set (d_online st) id 0; Ret (set_online st m).

(** [realtime_online_clean]: a new map. *)
Context (map_new : M).

Fixpoint online_all (st : dispatch) (pids : list Z) : outcome dispatch :=
  match pids with [] => Ret st | pid :: pids' => st ← realtime_online_add st pid; online_all st pids' end.

(** A decoded [ServiceRegisterRequest]: its type and its players. *)
Definition do_pbc_service_register (st : dispatch) (conn : Z) (request : option (Z * list Z)) : outcome dispatch :=
  match request with
  | None => Ret st
  | Some (type, players) =>
    if type =? 1 then
      st ← online_all (set_online st map_new) players;
      Ret (mk_dispatch (d_cache st) (d_refs st) (d_online st) (d_sent st) (set_gateway_conn (d_env st) conn))
    else Ret st
  end.

(** [aL_logout] is a function of the game rules. *)
Definition kickPlayer (aL_logout : Z -> dispatch -> outcome dispatch) (st : dispatch) (now playerid reason : Z) : outcome dispatch :=
  '(c, xconn) ← player_get_conn (d_cache st) playerid now;
  bytes ← Kick_bytes playerid reason;
  aL_logout playerid (send (set_cache st c) xconn bytes).
End Operations.

Section Theorems.
Context {P W M E : Type} `{PtrMapLaws M} `{Modules (module_data P) (rq_world W)}.
#[local] Abbreviation dispatch := (dispatch P W M E).

(** A value that fits is sent with its exact bytes. *)
Lemma send_amf_spec (st : dispatch) conn pid cmd v : wf_amf v -> amf_fits (-0x10000000) v = true ->
  send_amf_message st conn pid cmd v = Ret (send_message st conn pid cmd 1 (amf_bytes v)).
Proof.
  intros Hwf Hfit. unfold send_amf_message. cbn [amf_get_encode_length]. rewrite amf_get_encode_length_value_spec by assumption.
  cbn [mbind outcome_bind amf_encode]. pose proof (zlen_nonneg (amf_bytes v)) as Hz.
  assert (Hlen : zlen (repeat 0 (Z.to_nat (zlen (amf_bytes v)))) = zlen (amf_bytes v)) by (unfold zlen at 1; rewrite repeat_length; lia).
  rewrite amf_encode_value_spec by (try assumption; lia). cbn [mbind outcome_bind].
  assert (Hs : splice (repeat 0 (Z.to_nat (zlen (amf_bytes v)))) 0 (amf_bytes v) = amf_bytes v).
  { unfold splice. cbn [Z.to_nat take app]. rewrite drop_ge; [apply app_nil_r|]. rewrite repeat_length. unfold zlen. lia. }
  rewrite Hs. unfold load_bytes. cbn [Z.leb Z.compare]. destruct (Z.leb_spec 0 (zlen (amf_bytes v))); [|lia].
  rewrite Z.add_0_l. destruct (Z.leb_spec (zlen (amf_bytes v)) (zlen (amf_bytes v))); [|lia]. cbn [andb].
  unfold slice. cbn [Z.to_nat drop]. now rewrite to_nat_zlen, firstn_all.
Qed.

(** An AMF message for an online player goes out on the player's connection. *)
Lemma send_to_online n now (st : dispatch) al zl p v pid cmd msg :
  cache_ok n now (d_cache st) al zl -> players (d_cache st) !! p = Some v -> pl_id v = pid -> online v = true ->
  wf_amf msg -> amf_fits (-0x10000000) msg = true ->
  exists st', send_amf_message_to st now pid cmd msg = Ret st' /\ cache_ok n now (d_cache st') (touch p al) zl /\
    d_sent st' = d_sent st ++ [(pl_conn v, concat (send_message_iov pid cmd 1 (amf_bytes msg)))] /\
    d_refs st' = d_refs st /\ d_online st' = d_online st /\ d_env st' = d_env st.
Proof.
  intros Hok Hv Hid Hon Hwf Hfit. unfold send_amf_message_to, player_get_conn.
  destruct (get_online_spec n now (d_cache st) al zl pid Hok) as [[? Hno]|(c' & q & w & -> & Hw & Hwid & Hwon & Hok' & Hp & _)].
  - rewrite (Hno p v Hv Hid) in Hon. discriminate.
  - assert (q = p) as -> by (eapply (so_unique _ _ _ _ _ _ _ _ (co_state _ _ _ _ _ _ Hok)); [exact Hw|exact Hv|congruence]).
    assert (w = v) as -> by congruence. cbn [mbind outcome_bind].
    assert (Hpv : players c' !! p = Some (set_last_active v now)) by (rewrite Hp; apply lookup_insert_eq).
    destruct (co_heap _ _ _ _ _ _ _ _ Hok' Hpv) as (Hp0 & x & Hx & Hbx). destruct (Z.eqb_spec p 0); [contradiction|].
    rewrite Hx. cbn [deref mbind outcome_bind]. rewrite send_amf_spec by assumption.
    eexists. split; [reflexivity|]. split; [exact Hok'|]. split; [|auto]. cbn.
    assert (Ec : pl_conn x = pl_conn v) by (change (pl_conn x) with (pl_conn (bare x)); now rewrite Hbx). now rewrite Ec.
Qed.
End Theorems.
