(* ===== verification/EndToEnd.v ===== *)
(** * From the world to the client

    The parts of this library composed: what is posted for a player in the world ([Notify]) is sent on the
    connection of the gateway ([Message]), which finds the client of the player and sends the message on
    ([GatewayWorld]). *)
From S2P Require Import Prelude AmfWire AmfValue AmfTheorems AgMap Lrm Dlist Keyed Package Client Gateway GatewayTheorems GatewayWorld.
From S2P Require Import NotifyCount Notify NotifyTheorems Player PlayerLemmas PlayerCache RequestQueue Dispatch DispatchTheorems Message.

Section World.
Context {P W M E : Type} `{PtrMapLaws M} `{Modules (module_data P) (rq_world W)}.
Context (gateway_conn : E -> Z) (broadcast_request : list Z -> Z -> Z -> list Z -> option (list Z)).
Context (map_new : M) (malloc_note : gmap Z Notify -> Z) (malloc_player : gmap Z (PlayerNotify M) -> Z).
#[local] Abbreviation dispatch := (dispatch P W M E).
Context (now : Z) {pbc : Pbc}.
#[local] Existing Instance message_sender.
#[local] Instance sender : Sender dispatch := message_sender gateway_conn broadcast_request now.

(** What is posted for one player, as the value of its message. *)
Definition notice (notes : list note) : amf_value :=
  array_of ([Some (amf_new_integer 0); Some (amf_new_integer RET_SUCCESS)] ++ map element_of notes).

Lemma message_notice lo msg pid notes : message_for (pid, msg) (pid, notes) ->
  wf_amf msg /\ amf_bytes msg = amf_bytes (notice notes) /\ amf_norm msg = amf_norm (notice notes) /\
  amf_strings msg = amf_strings (notice notes) /\ amf_fits lo msg = amf_fits lo (notice notes).
Proof.
  intros (_ & Hwf & He). cbn [fst snd] in *. split; [exact Hwf|]. unfold notice. rewrite <- He.
  assert (Ha : exists size child, msg = AV amf_array size (PChild child)); [|destruct Ha as (size & child & Ha); exact (array_canonical lo msg size child Ha Hwf)].
  destruct Hwf as [| | | | | |size child]; try discriminate. eauto.
Qed.

(** The world's side: posts for one online player. *)
Lemma notices_sent nt l k notes pid n (st : dispatch) al zl p v :
  (forall h, h !! malloc_note h = None /\ malloc_note h <> 0) -> (forall h, h !! malloc_player h = None /\ malloc_player h <> 0) ->
  pm_ok map_new -> pm_abs map_new = ∅ ->
  idle nt -> Forall post_ok l -> zlen l < 2 ^ 60 -> nb_rep (nt_counts nt) k -> foldl enter [] l = [(pid, notes)] -> pid <> 0 ->
  cache_ok n now (d_cache st) al zl -> players (d_cache st) !! p = Some v -> pl_id v = pid -> online v = true ->
  amf_fits (-0x1000000) (notice notes) = true ->
  exists nt1 nt2 st' msg, run_posts map_new malloc_note malloc_player nt l = Ret nt1 /\ message_for (pid, msg) (pid, notes) /\
    notification_clean nt1 st now = Ret (nt2, st', snd (deliver (nb_bs (nt_counts nt)) (flushed false (now - NB_DELAY) k))) /\
    d_sent st' = d_sent st ++ [(pl_conn v, concat (send_message_iov pid C_PLAYER_DATA_CHANGE 1 (amf_bytes (notice notes))))].
Proof.
  intros Hfn Hfp Hm Hme Hidle Hok Hroom Hnb Hl Hpid Hc Hv Hid Hon Hfit.
  destruct (posts_pending map_new malloc_note malloc_player Hm Hme Hfn Hfp nt l Hidle Hok Hroom) as (nt1 & A & Er & Hrep & He & Hb & Hcnt).
  rewrite <- Hcnt in Hnb |- *. destruct (clean_pending nt1 A (zlen l) k now Hrep Hb ltac:(lia) Hnb) as (nt2 & msgs & Hmsgs & _ & Hclean).
  rewrite He, Hl in Hmsgs. apply Forall2_cons_inv_r in Hmsgs as ([pid' msg] & msgs' & Hmsg & Hnil & ->).
  apply Forall2_nil_inv_r in Hnil as ->. assert (pid' = pid) as -> by apply Hmsg.
  destruct (message_notice (-0x1000000) msg pid notes Hmsg) as (Hwf & Hbytes & _ & _ & Hf). rewrite <- Hf in Hfit.
  assert (Hfit' : amf_fits (-0x10000000) msg = true) by (eapply amf_fits_weaken; [|exact Hwf|exact Hfit]; lia).
  destruct (send_to_online n now st al zl p v pid C_PLAYER_DATA_CHANGE msg Hc Hv Hid Hon Hwf Hfit') as (st' & Es & _ & Hsent & _).
  rewrite Hbytes in Hsent. exists nt1, nt2, st', msg. split; [exact Er|]. split; [exact Hmsg|]. split; [|exact Hsent].
  rewrite Hclean. cbn [send_all]. unfold send_notify. destruct (Z.eqb_spec pid 0); [contradiction|].
  cbn [Notify.send_amf_message_to sender message_sender]. now rewrite Es.
Qed.

(** A world's ordinary package goes to the client of its player. *)
Lemma gateway_passes stack_sn account_name decode respond (g : gateway M) i cfg m rest l1 c l2 cv :
  table_ok (g_clients g) (l1 ++ c :: l2) -> ct_heap (g_clients g) !! c = Some cv -> cl_playerid cv = sm_pid m ->
  g_worlds g !! i = Some cfg -> sendable m -> sm_cmd m = C_PLAYER_DATA_CHANGE ->
  cl_conn cv <> INVALID_ID -> existsb (Z.eqb (cl_conn cv)) (g_live g) = true ->
  exists g', world_process_message stack_sn account_name now decode respond g i (server_package 0 m ++ rest) = Ret (g', zlen (server_package 0 m)) /\
    g_out g' = g_out g ++ [GSend (cl_conn cv) (client_package (mk_client_message (sm_cmd m) (sm_flag m) (sm_body m)))].
Proof.
  intros Hok Hv Hpid Hw Hm Hcmd Hconn Hlive.
  destruct (world_package stack_sn now account_name decode respond g i cfg 0 m rest l1 c l2 cv Hok Hv Hpid Hw ltac:(lia) Hm) as (t' & v' & _ & _ & _ & Hs & _ & ->);
    [rewrite Hcmd; discriminate|].
  cbv zeta. assert (Hc' : cl_conn v' = cl_conn cv) by (exact (f_equal cl_conn Hs)). rewrite Hc', Hcmd.
  destruct (Z.eqb_spec (cl_conn cv) INVALID_ID); [contradiction|].
  cbn [C_PLAYER_DATA_CHANGE C_LOGIN_RESPOND C_CREATE_PLAYER_RESPOND C_LOGOUT_RESPOND Z.eqb Pos.eqb negb orb mbind outcome_bind].
  unfold agN_writev. cbn [set_clients g_live]. rewrite Hlive. eexists. split; reflexivity.
Qed.

(** C24: From the game rules to the client: whatever is posted for one online player, and for no other, while requests are
    served becomes, at the next cleaning, one message on the player's connection; the gateway takes exactly this message and sends one message on the
    connection of the player's client, and what the client reads from its payload is an array of 0, success and an element
    for each notification, in order, with the values posted last.  The notifications have at most 1024 strings together,
    the size of the reader's table, and no signed integer below -2^24, which the format loses. *)
Theorem notification_reaches_client nt l k notes pid n (st : dispatch) al zl p v
    stack_sn account_name decode respond (g : gateway M) i cfg rest l1 c l2 cv junk refs :
  (forall h, h !! malloc_note h = None /\ malloc_note h <> 0) -> (forall h, h !! malloc_player h = None /\ malloc_player h <> 0) ->
  pm_ok map_new -> pm_abs map_new = ∅ ->
  idle nt -> Forall post_ok l -> zlen l < 2 ^ 60 -> nb_rep (nt_counts nt) k -> foldl enter [] l = [(pid, notes)] ->
  0 <= pid < 2 ^ 64 -> u32 pid <> 0 ->
  cache_ok n now (d_cache st) al zl -> players (d_cache st) !! p = Some v -> pl_id v = pid -> online v = true ->
  amf_fits (-0x1000000) (notice notes) = true -> amf_strings (notice notes) <= 1024 ->
  zlen (amf_bytes (notice notes)) + sizeof_translate_header < 2 ^ 32 ->
  table_ok (g_clients g) (l1 ++ c :: l2) -> ct_heap (g_clients g) !! c = Some cv -> cl_playerid cv = pid ->
  g_worlds g !! i = Some cfg -> cl_conn cv <> INVALID_ID -> existsb (Z.eqb (cl_conn cv)) (g_live g) = true ->
  length (string_ref refs) = 1024%nat ->
  exists nt1 nt2 st' bytes g' body refs',
    run_posts map_new malloc_note malloc_player nt l = Ret nt1 /\
    notification_clean nt1 st now = Ret (nt2, st', snd (deliver (nb_bs (nt_counts nt)) (flushed false (now - NB_DELAY) k))) /\
    d_sent st' = d_sent st ++ [(pl_conn v, bytes)] /\
    world_process_message stack_sn account_name now decode respond g i (bytes ++ rest) = Ret (g', zlen bytes) /\
    g_out g' = g_out g ++ [GSend (cl_conn cv) (client_package (mk_client_message C_PLAYER_DATA_CHANGE 1 body))] /\
    amf_read junk body 0 (zlen body) refs = Ret (Some (amf_norm (notice notes)), Some (zlen body), refs').
Proof.
  intros Hfn Hfp Hm Hme Hidle Hok Hroom Hnb Hl Hpid Hlow Hc Hv Hid Hon Hfit Hstr Hlen Ht Hcv Hcp Hw Hconn Hlive Hrefs.
  assert (Hp0 : pid <> 0) by (intros ->; now apply Hlow).
  destruct (notices_sent nt l k notes pid n st al zl p v Hfn Hfp Hm Hme Hidle Hok Hroom Hnb Hl Hp0 Hc Hv Hid Hon Hfit)
    as (nt1 & nt2 & st' & msg & Er & Hmsg & Ec & Hsent).
  destruct (message_notice (-0x1000000) msg pid notes Hmsg) as (Hwf & Hb & Hno & Hs & Hf).
  set (m := mk_server_message pid C_PLAYER_DATA_CHANGE 1 (amf_bytes (notice notes))).
  assert (Hsm : sendable m).
  { unfold sendable. cbn [m sm_pid sm_cmd sm_flag sm_body]. unfold C_PLAYER_DATA_CHANGE. repeat split; lia. }
  destruct (gateway_passes stack_sn account_name decode respond g i cfg m rest l1 c l2 cv Ht Hcv Hcp Hw Hsm eq_refl Hconn Hlive) as (g' & Eg & Hout).
  rewrite <- Hf in Hfit. rewrite <- Hs in Hstr.
  destruct (amf_read_back junk msg refs Hwf Hfit Hstr Hrefs) as (refs' & Eread). rewrite Hb, Hno in Eread.
  exists nt1, nt2, st', (server_package 0 m), g', (amf_bytes (notice notes)), refs'.
  split; [exact Er|]. split; [exact Ec|]. split; [exact Hsent|]. split; [exact Eg|]. split; [exact Hout|exact Eread].
Qed.
End World.

(** ** A concrete run

    The online player of [DispatchTheorems] is the client 16 of the gateway of [GatewayTheorems]. *)

Definition sample_notices : list post :=
  [mk_post sample_id 1 None None; mk_post sample_id 39 (Some 7) (Some (amf_new_integer 12));
   mk_post sample_id 39 (Some 7) (Some (amf_new_integer 13))].
Definition sample_notes : list note := [mk_n None 1 None; mk_n (Some (rkey_of 7 39)) 39 (Some (amf_new_integer 13))].
Definition sample_conn (E : list call) : Z := 8.
Definition no_broadcast (pids : list Z) (cmd flag : Z) (msg : list Z) : option (list Z) := None.

#[local] Existing Instance no_pbc.
#[local] Hint Extern 0 (Modules (module_data _) (rq_world _)) => exact (queue_modules no_modules fresh_address) : typeclass_instances.

Lemma notification_reaches_client_witness :
  exists c nt1 nt2 st' bytes g' body refs' conn, sample_cache (mk_rw ∅ ∅ tt) = Ret c /\
    run_posts _agMap_new fresh_address fresh_address sample_idle sample_notices = Ret nt1 /\
    @notification_clean (agmap Z) _ _ (message_sender sample_conn no_broadcast 100) no_pbc nt1 (sample_state c) 100 = Ret (nt2, st', []) /\
    d_sent st' = [(conn, bytes)] /\
    world_process_message 0 no_name 100 no_request no_respond sample_gateway 0 (bytes ++ [1]) = Ret (g', zlen bytes) /\
    g_out g' = [GSend 4 (client_package (mk_client_message C_PLAYER_DATA_CHANGE 1 body))] /\
    amf_read 0 body 0 (zlen body) refs_init = Ret (Some (amf_norm (notice sample_notes)), Some (zlen body), refs').
Proof.
  destruct (sample_ready (mk_rw ∅ ∅ tt)) as (c & Hc & (al & zl & v & Hok & Hv & Hid & Hon & _) & Hw).
  destruct (notification_reaches_client (M := agmap Z) sample_conn no_broadcast _agMap_new fresh_address fresh_address 100
    sample_idle sample_notices [] sample_notes sample_id 10 (sample_state c) al zl 1 v
    0 no_name no_request no_respond sample_gateway 0 (mk_world 9811 2000 0 true 8 1) [1] [] 16 [32] sample_client 0 refs_init)
    as (nt1 & nt2 & st' & bytes & g' & body & refs' & H1 & H2 & H3 & H4 & H5 & H6).
  - intros h. apply fresh_address_spec.
  - intros h. apply fresh_address_spec.
  - split; apply agMap_new_ok.
  - apply agMap_new_ok.
  - constructor; try reflexivity. split; apply agMap_new_ok.
  - repeat constructor; try (cbn; lia); intros x [= <-]; constructor; lia.
  - vm_compute. reflexivity.
  - apply init_rep; [split|]; apply agMap_new_ok.
  - reflexivity.
  - unfold sample_id. lia.
  - vm_compute. discriminate.
  - exact Hok.
  - exact Hv.
  - exact Hid.
  - exact Hon.
  - reflexivity.
  - vm_compute. discriminate.
  - vm_compute. reflexivity.
  - exact sample_table_ok.
  - vm_compute. reflexivity.
  - reflexivity.
  - reflexivity.
  - discriminate.
  - reflexivity.
  - reflexivity.
  - exists c, nt1, nt2, st', bytes, g', body, refs', (pl_conn v). repeat (split; [assumption|]). exact H6.
Defined.
