(* ===== verification/Timeline.v ===== *)
(** * The calendar of the world: [world/timeline.c]

    Weeks, days and seconds are counted from a start that is a Monday at midnight.  The database is an
    argument: a query fails ([None]) or returns its rows, one number each. *)
From S2P Require Import Prelude.

Definition DAY_SEC : Z := 3600 * 24.
Definition WEEK_SEC : Z := 3600 * 24 * 7.
Definition time_base : Z := 1295712000.

(** [_startTime] and [_open_server_time] *)
Record timeline := mk_timeline { _startTime : Z; _open_server_time : Z }.
Definition timeline_init : timeline := mk_timeline 0 0.

(** The remainder of C rounds to zero. *)
Definition adjustTime (now : Z) : Z :=
  let start := time_base + 3600 * 24 in
  let sep := now - start in
  start + (sep - Z.rem sep WEEK_SEC).

(** [onQuery] and [initOpenServerTime] run for each row. *)
Definition on_rows (init : Z) (rows : list Z) : Z := default init (list.last rows).

(** The state, the number written to the database, and the result; [update_ok] answers the write. *)
Definition module_timeline_load (t : timeline) (query : option (list Z)) (update_ok : bool) (now : Z) : timeline * option Z * Z :=
  match query with
  | None => (mk_timeline 0 (_open_server_time t), None, -1)
  | Some rows =>
    let s := on_rows 0 rows in
    if s =? 0 then
      let s := adjustTime now in
      if update_ok then (mk_timeline (adjustTime s) (_open_server_time t), Some s, 0)
      else (mk_timeline s (_open_server_time t), Some s, -1)
    else (mk_timeline (adjustTime s) (_open_server_time t), None, 0)
  end.

(** [loop] is an unsigned int. *)
Definition timeline_get (t : timeline) (now loop : Z) : Z :=
  let loop := if loop =? 0 then 1 else loop in
  if now <? _startTime t then 0 else Z.quot (now - _startTime t) loop + 1.
Definition timeline_get_sec (t : timeline) (now : Z) : Z := timeline_get t now 1.
Definition timeline_get_day (t : timeline) (now : Z) : Z := timeline_get t now DAY_SEC.
Definition timeline_get_week (t : timeline) (now : Z) : Z := timeline_get t now WEEK_SEC.

Definition get_open_server_time (t : timeline) (query : option (list Z)) : timeline * Z :=
  if _open_server_time t =? 0 then
    let o := match query with None => 1 | Some rows => on_rows 0 rows end in
    (mk_timeline (_startTime t) o, o)
  else (t, _open_server_time t).

(** ** Properties *)

(** The Mondays at midnight. *)
Definition monday (t : Z) : Prop := (t - (time_base + DAY_SEC)) mod WEEK_SEC = 0.

Lemma adjustTime_div now : time_base + DAY_SEC <= now ->
  adjustTime now = time_base + DAY_SEC + (now - (time_base + DAY_SEC)) / WEEK_SEC * WEEK_SEC.
Proof.
  intros Hn. unfold adjustTime. change (3600 * 24) with DAY_SEC. rewrite Z.rem_mod_nonneg by (unfold WEEK_SEC; lia).
  pose proof (Z.div_mod (now - (time_base + DAY_SEC)) WEEK_SEC). unfold WEEK_SEC in *. lia.
Qed.

(** [adjustTime] goes back to the last Monday. *)
Lemma adjustTime_monday now : time_base + DAY_SEC <= now ->
  monday (adjustTime now) /\ adjustTime now <= now < adjustTime now + WEEK_SEC.
Proof.
  intros Hn. rewrite adjustTime_div by exact Hn. unfold monday. split.
  - replace (_ - _) with ((now - (time_base + DAY_SEC)) / WEEK_SEC * WEEK_SEC) by lia. apply Z.mod_mul. unfold WEEK_SEC. lia.
  - pose proof (Z.div_mod (now - (time_base + DAY_SEC)) WEEK_SEC). pose proof (Z.mod_pos_bound (now - (time_base + DAY_SEC)) WEEK_SEC).
    unfold WEEK_SEC in *. lia.
Qed.


Lemma adjustTime_fixed s : monday s -> adjustTime s = s.
Proof.
  intros Hs. unfold adjustTime, monday in *. change (3600 * 24) with DAY_SEC.
  apply Z.mod_divide in Hs; [|unfold WEEK_SEC; lia]. apply Z.rem_divide in Hs; [|unfold WEEK_SEC; lia]. lia.
Qed.

(** A loaded calendar starts on a Monday, and a restart finds the same Monday. *)
Lemma load_monday t query ok now t' w : time_base + DAY_SEC <= now ->
  (forall rows, query = Some rows -> on_rows 0 rows <> 0 -> time_base + DAY_SEC <= on_rows 0 rows) ->
  module_timeline_load t query ok now = (t', w, 0) -> monday (_startTime t') /\ (forall s, w = Some s -> s = _startTime t').
Proof.
  intros Hn Hq. unfold module_timeline_load. destruct query as [rows|]; [|discriminate].
  destruct (Z.eqb_spec (on_rows 0 rows) 0) as [E|E].
  - destruct ok; [|discriminate]. intros [= <- <-]. cbn. destruct (adjustTime_monday now Hn) as [Hm _].
    rewrite (adjustTime_fixed _ Hm). split; [exact Hm|]. now intros s [= <-].
  - intros [= <- <-]. cbn. split; [|discriminate]. now apply adjustTime_monday, (Hq rows).
Qed.

Lemma timeline_get_div t now loop : 0 < loop -> _startTime t <= now ->
  timeline_get t now loop = (now - _startTime t) / loop + 1.
Proof. intros Hl Hn. unfold timeline_get. ztests. now rewrite Z.quot_div_nonneg by lia. Qed.

(** Period [n] is the half-open interval of its seconds. *)
Lemma timeline_get_interval t now loop n : 0 < loop -> _startTime t <= now ->
  timeline_get t now loop = n <-> _startTime t + (n - 1) * loop <= now < _startTime t + n * loop.
Proof.
  intros Hl Hn. rewrite timeline_get_div by assumption. pose proof (Z.div_mod (now - _startTime t) loop).
  pose proof (Z.mod_pos_bound (now - _startTime t) loop). split; [intros <-; nia|intros Hi].
  assert ((now - _startTime t) / loop = n - 1); [|lia]. symmetry. apply (Z.div_unique _ _ _ (now - _startTime t - (n - 1) * loop)); nia.
Qed.

Lemma timeline_get_mono t now1 now2 loop : now1 <= now2 -> 0 <= loop -> timeline_get t now1 loop <= timeline_get t now2 loop.
Proof.
  intros Hn Hl. unfold timeline_get. set (k := if loop =? 0 then 1 else loop).
  assert (0 < k) by (unfold k; ztests). ztests; [pose proof (Z.quot_pos (now2 - _startTime t) k)|pose proof (Z.quot_le_mono (now1 - _startTime t) (now2 - _startTime t) k)]; lia.
Qed.

(** C22: Once the module is loaded, the calendar does not move when the server restarts: loading again, at
    any time, from what the first load wrote to the database gives the same start, a Monday at midnight;
    and for every time from that start, the day and the week agree: the days of week [w] are
    [7 * (w - 1) + 1] to [7 * w], and day [d] is the seconds from [(d - 1)] to [d] days after the start. *)
Theorem calendar_survives_restart t now1 t1 w1 now2 t2 now :
  time_base + DAY_SEC <= now1 ->
  module_timeline_load t (Some []) true now1 = (t1, Some w1, 0) ->
  fst (fst (module_timeline_load t2 (Some [w1]) true now2)) = mk_timeline (_startTime t1) (_open_server_time t2) /\
  monday (_startTime t1) /\ _startTime t1 <= now1 < _startTime t1 + WEEK_SEC /\
  (_startTime t1 <= now ->
    7 * (timeline_get_week t1 now - 1) + 1 <= timeline_get_day t1 now <= 7 * timeline_get_week t1 now /\
    _startTime t1 + (timeline_get_day t1 now - 1) * DAY_SEC <= now < _startTime t1 + timeline_get_day t1 now * DAY_SEC).
Proof.
  intros Hb Hl. pose proof (load_monday t (Some []) true now1 t1 (Some w1) Hb) as [Hm Hw]; [now intros ? [= <-]|exact Hl|].
  specialize (Hw w1 eq_refl). subst w1.
  assert (Hr : _startTime t1 <= now1 < _startTime t1 + WEEK_SEC).
  { cbn in Hl. injection Hl as <- _. cbn. destruct (adjustTime_monday now1 Hb) as [Hm1 Hr]. now rewrite (adjustTime_fixed _ Hm1). }
  split; [|split; [exact Hm|split; [exact Hr|]]].
  - assert (Hbase : time_base + DAY_SEC - WEEK_SEC < _startTime t1) by lia.
    cbn. ztests; [unfold time_base, DAY_SEC, WEEK_SEC in *; lia|]. cbn. now rewrite (adjustTime_fixed _ Hm).
  - intros Hn. unfold timeline_get_day, timeline_get_week.
    pose proof (proj1 (timeline_get_interval t1 now DAY_SEC _ ltac:(unfold DAY_SEC; lia) Hn) eq_refl) as Hd.
    pose proof (proj1 (timeline_get_interval t1 now WEEK_SEC _ ltac:(unfold WEEK_SEC; lia) Hn) eq_refl) as Hk.
    split; [|exact Hd]. unfold DAY_SEC, WEEK_SEC in *. nia.
Qed.

Lemma calendar_survives_restart_witness :
  exists t, module_timeline_load timeline_init (Some []) true 1400000000 = (t, Some (_startTime t), 0) /\
    timeline_get_day t 1400000000 = 3 /\
    fst (fst (module_timeline_load timeline_init (Some [_startTime t]) true 1500000000)) = mk_timeline (_startTime t) 0.
Proof.
  exists (mk_timeline 1399824000 0). split; [vm_compute; reflexivity|]. split; [vm_compute; reflexivity|].
  refine (proj1 (calendar_survives_restart timeline_init 1400000000 (mk_timeline 1399824000 0) 1399824000 1500000000 timeline_init 1400000000 _ _)).
  - unfold time_base, DAY_SEC. lia.
  - vm_compute. reflexivity.
Defined.
