(* ===== verification/RankReward.v ===== *)
(** * Rank lists and their daily rewards: [world/rankreward.c]

    Three lists keep the players with the most experience, stars and floors.  A list is an array of
    [RANK_COUNT] entries of which the first [n] are used; [rank_insert] keeps it sorted.  Once a day the
    players on the lists are rewarded.  Looking up the player and the reward, and sending it, is an
    argument. *)
From S2P Require Import Prelude Timeline.
From Stdlib Require Import Sorted.

Definition RANK_COUNT : Z := 100.
Definition RANK_TYPE_EXP : Z := 1.
Definition RANK_TYPE_STAR : Z := 2.
Definition RANK_TYPE_TOWER : Z := 4.
Definition RANK_PERIOD : Z := 86400.
Definition BEGIN_HOUR : Z := 0.
Definition REASON_EXP_RANK_REWARD : Z := 1018.
Definition REASON_STAR_RANK_REWARD : Z := 1019.
Definition REASON_TOWER_RANK_REWARD : Z := 1021.

Record RankValue := mk_rank { rv_pid : Z; rv_value : Z }.
Record RankList := mk_ranks { rl_type : Z; rl_n : Z; rl_top : list RankValue }.

#[global] Instance rank_value_eq_dec : EqDecision RankValue.
Proof. solve_decision. Defined.
#[global] Instance rank_list_eq_dec : EqDecision RankList.
Proof. solve_decision. Defined.

Definition rank_new (type : Z) : RankList := mk_ranks type 0 (repeat (mk_rank 0 0) (Z.to_nat RANK_COUNT)).

(** [top[i]] of an array of [RANK_COUNT] entries *)
Definition rank_at (top : list RankValue) (i : Z) : outcome RankValue := if i <? 0 then Undef else deref (top !! Z.to_nat i).
Definition rank_put (top : list RankValue) (i : Z) (v : RankValue) : outcome (list RankValue) :=
  if (0 <=? i) && (i <? zlen top) then Ret (<[Z.to_nat i := v]> top) else Undef.

(** The first loop: the index of [pid] among [nTop] entries, or [nTop]. *)
Fixpoint rank_find (top : list RankValue) (pid : Z) (i : nat) (fuel : nat) : outcome nat :=
  match fuel with
  | O => Ret i
  | S fuel' => r ← deref (top !! i); if rv_pid r =? pid then Ret i else rank_find top pid (S i) fuel'
  end.

(** The last loop: the entry at [i] moves forward over the smaller ones. *)
Fixpoint rank_forward (top : list RankValue) (i : nat) : outcome (list RankValue) :=
  match i with
  | O => Ret top
  | S j =>
    a ← deref (top !! j);
    b ← deref (top !! i);
    rank_forward (if rv_value a <? rv_value b then <[j := b]> (<[i := a]> top) else top) j
  end.

(** Between the loops: the entry of [pid] is written at [i], in the first free entry or in the last. *)
Definition rank_enter (top : list RankValue) (nTop pid value : Z) (i : nat) : outcome (list RankValue * Z * nat) :=
  if Z.of_nat i <? nTop then
    r ← rank_at top (Z.of_nat i);
    _ ← c_assert (rv_value r <=? value);
    top ← rank_put top (Z.of_nat i) (mk_rank (rv_pid r) value);
    Ret (top, nTop, i)
  else if nTop <? RANK_COUNT then
    top ← rank_put top nTop (mk_rank pid value);
    Ret (top, nTop + 1, i)
  else
    top ← rank_put top (RANK_COUNT - 1) (mk_rank pid value);
    Ret (top, nTop, Z.to_nat (RANK_COUNT - 1)).

Definition rank_insert (l : RankList) (pid value : Z) : outcome RankList :=
  let nTop := rl_n l in
  let top := rl_top l in
  last ← (if RANK_COUNT <=? nTop then r ← rank_at top (RANK_COUNT - 1); Ret (value <=? rv_value r) else Ret false);
  if (last : bool) then Ret l
  else
    i ← rank_find top pid 0 (Z.to_nat nTop);
    '(top, nTop, i) ← rank_enter top nTop pid value i;
    top ← rank_forward top i;
    Ret (mk_ranks (rl_type l) nTop top).

(** The player at a place, from 1, and its value; [None] writes nothing to [*value]. *)
Definition rank_get (l : RankList) (index : Z) : outcome (Z * option Z) :=
  if (index <? 1) || (RANK_COUNT <? index) then Ret (0, None)
  else r ← rank_at (rl_top l) (index - 1); Ret (rv_pid r, Some (u32 (rv_value r))).

(** ** The module *)

Section Module.
Context {W : Type}.

(** What rewarding uses: whether the player can be loaded, the reward of a place, and [sendReward]. *)
Context (player_get : W -> Z -> W * bool) (get_rank_reward_config : Z -> Z -> Z -> Z -> option (Z * Z * Z))
        (sendReward : W -> Z -> Z -> Z -> Z * Z * Z -> W) (database_update : W -> Z -> W).

Record rank_state := mk_rank_state {
  rs_world : W; rank_exp : RankList; rank_star : RankList; rank_tower : RankList;
  open_flag : Z; first_begin_time : Z; rank_reward_begin : Z; rank_reward_end : Z; first_begin_rank_reward : bool }.

Definition rank_init (w : W) : rank_state :=
  mk_rank_state w (rank_new RANK_TYPE_EXP) (rank_new RANK_TYPE_STAR) (rank_new RANK_TYPE_TOWER) 0 0 0 0 true.

Definition with_lists (s : rank_state) e t o :=
  mk_rank_state (rs_world s) e t o (open_flag s) (first_begin_time s) (rank_reward_begin s) (rank_reward_end s) (first_begin_rank_reward s).
Definition with_rank_world (s : rank_state) w :=
  mk_rank_state w (rank_exp s) (rank_star s) (rank_tower s) (open_flag s) (first_begin_time s) (rank_reward_begin s) (rank_reward_end s)
    (first_begin_rank_reward s).
Definition with_range (s : rank_state) b e :=
  mk_rank_state (rs_world s) (rank_exp s) (rank_star s) (rank_tower s) (open_flag s) (first_begin_time s) b e (first_begin_rank_reward s).

Definition init_rank_reward_end (s : rank_state) : rank_state := with_range s (rank_reward_begin s) (u32 (rank_reward_begin s + RANK_PERIOD)).

(** One row of [rank_flag]; the numbers are those of [atoll]. *)
Definition on_query_flag (s : rank_state) (row : Z * Z * Z) : rank_state :=
  let '(first, begin, flag) := row in
  init_rank_reward_end (mk_rank_state (rs_world s) (rank_exp s) (rank_star s) (rank_tower s) (i32 flag) (u32 first) (u32 begin)
    (rank_reward_end s) false).

(** The midnight before [x], of the zone eight hours east of Greenwich. *)
Definition GET_DAY_BEGIN_TIME (x : Z) : Z := x - Z.rem (x + 8 * 3600) 86400.

Definition init_first_rankreward_time (s : rank_state) (now : Z) : rank_state :=
  let first := u32 (if now - GET_DAY_BEGIN_TIME now <? BEGIN_HOUR then GET_DAY_BEGIN_TIME now + BEGIN_HOUR - RANK_PERIOD
                    else GET_DAY_BEGIN_TIME now + BEGIN_HOUR) in
  let s := init_rank_reward_end (mk_rank_state (rs_world s) (rank_exp s) (rank_star s) (rank_tower s) (open_flag s) first first
             (rank_reward_end s) (first_begin_rank_reward s)) in
  mk_rank_state (database_update (rs_world s) (rank_reward_begin s)) (rank_exp s) (rank_star s) (rank_tower s) 1 (first_begin_time s)
    (rank_reward_begin s) (rank_reward_end s) (first_begin_rank_reward s).

(** [on_query] for each row: the value is an [unsigned int] that becomes an [int]. *)
Fixpoint on_query (l : RankList) (rows : list (Z * Z)) : outcome RankList :=
  match rows with
  | [] => Ret l
  | (pid, value) :: rows' => l ← rank_insert l (u64 pid) (i32 (u32 value)); on_query l rows'
  end.

(** The answers of the four queries; [None] is a failed one. *)
Definition module_rankreward_load (s : rank_state) (now : Z) (flag : option (list (Z * Z * Z))) (exp star tower : option (list (Z * Z)))
    : outcome (rank_state * Z) :=
  match flag with
  | None => Ret (s, -1)
  | Some flag =>
    let s := foldl on_query_flag s flag in
    let s := if first_begin_rank_reward s then init_first_rankreward_time s now else s in
    match exp with
    | None => Ret (s, -1)
    | Some exp =>
      e ← on_query (rank_exp s) exp;
      let s := with_lists s e (rank_star s) (rank_tower s) in
      match star with
      | None => Ret (s, -1)
      | Some star =>
        t ← on_query (rank_star s) star;
        let s := with_lists s e t (rank_tower s) in
        match tower with
        | None => Ret (s, -1)
        | Some tower => o ← on_query (rank_tower s) tower; Ret (with_lists s e t o, 0)
        end
      end
    end
  end.

Definition rank_exp_get (s : rank_state) := rank_get (rank_exp s).
Definition rank_star_get (s : rank_state) := rank_get (rank_star s).
Definition rank_tower_get (s : rank_state) := rank_get (rank_tower s).

Definition rank_exp_set (s : rank_state) (pid exp : Z) : outcome rank_state :=
  e ← rank_insert (rank_exp s) pid (i32 exp); Ret (with_lists s e (rank_star s) (rank_tower s)).
Definition rank_star_set (s : rank_state) (pid total_count : Z) : outcome rank_state :=
  t ← rank_insert (rank_star s) pid (i32 total_count); Ret (with_lists s (rank_exp s) t (rank_tower s)).
Definition rank_tower_set (s : rank_state) (pid floor : Z) : outcome rank_state :=
  o ← rank_insert (rank_tower s) pid (i32 floor); Ret (with_lists s (rank_exp s) (rank_star s) o).

Definition get_flag_of_rank (s : rank_state) : Z := open_flag s.
Definition get_first_begin_time (s : rank_state) : Z := first_begin_time s.
Definition get_rank_reward_begin (s : rank_state) : Z := rank_reward_begin s.
Definition get_rank_reward_end (s : rank_state) : Z := rank_reward_end s.

(** [begin_time] of the table is written with the state. *)
Definition resetTimeRange (s : rank_state) : rank_state :=
  let b := rank_reward_end s in
  let s := with_range s b (u32 (b + RANK_PERIOD)) in
  with_rank_world s (database_update (rs_world s) b).

Definition is_weekly (s : rank_state) : Z :=
  if (u32 (rank_reward_end s - first_begin_time s) / RANK_PERIOD) mod 7 =? 0 then 1 else 0.
Definition is_first_week (s : rank_state) : Z :=
  if u32 (rank_reward_end s - first_begin_time s) / RANK_PERIOD <=? 7 then 1 else 0.

(** The body of the loop over the places. *)
Definition send_reward_of_place (s : rank_state) (rank : RankList) (reason j : Z) : outcome rank_state :=
  '(pid, _) ← rank_get rank j;
  if pid =? 0 then Ret s
  else
    let '(w, found) := player_get (rs_world s) pid in
    let s := with_rank_world s w in
    if negb found then Ret s
    else
      match get_rank_reward_config (rl_type rank) j (is_first_week s) (is_weekly s) with
      | None => Ret s
      | Some cfg => Ret (with_rank_world s (sendReward (rs_world s) pid reason j cfg))
      end.

Fixpoint send_reward_places (s : rank_state) (rank : RankList) (reason : Z) (js : list Z) : outcome rank_state :=
  match js with
  | [] => Ret s
  | j :: js' => s ← send_reward_of_place s rank reason j; send_reward_places s rank reason js'
  end.

Definition places : list Z := map Z.of_nat (List.seq 1 (Z.to_nat RANK_COUNT)).

Definition send_reward_of_rank_list (s : rank_state) (rank : RankList) (reason : Z) : outcome rank_state :=
  if open_flag s =? 0 then Ret s else send_reward_places s rank reason places.

Definition check_reward (s : rank_state) (now : Z) : outcome rank_state :=
  if now <? get_rank_reward_end s then Ret s
  else
    s ← send_reward_of_rank_list s (rank_exp s) REASON_EXP_RANK_REWARD;
    s ← send_reward_of_rank_list s (rank_star s) REASON_STAR_RANK_REWARD;
    s ← send_reward_of_rank_list s (rank_tower s) REASON_TOWER_RANK_REWARD;
    Ret (resetTimeRange s).
End Module.
Arguments rank_state W : clear implicits.

(** ** One insertion *)

(** [place es r] puts [r] behind the entries that are not smaller. *)
Definition not_below (r x : RankValue) : bool := rv_value r <=? rv_value x.
Definition place (es : list RankValue) (r : RankValue) : list RankValue :=
  List.filter (not_below r) es ++ r :: List.filter (fun x => negb (not_below r x)) es.

Definition not_above (a b : RankValue) : Prop := rv_value b <= rv_value a.
Abbreviation ranked := (StronglySorted not_above).

(** The first [n] entries are [es], the others are zero. *)
Record ranks_ok (l : RankList) (es : list RankValue) : Prop := {
  rk_top : rl_top l = es ++ repeat (mk_rank 0 0) (Z.to_nat RANK_COUNT - length es);
  rk_n : rl_n l = zlen es;
  rk_len : zlen es <= RANK_COUNT;
  rk_sorted : ranked es;
  rk_nodup : NoDup (map rv_pid es) }.

Lemma sorted_app {A} (R : A -> A -> Prop) l k :
  StronglySorted R (l ++ k) <-> StronglySorted R l /\ StronglySorted R k /\ (forall a b, a ∈ l -> b ∈ k -> R a b).
Proof.
  induction l as [|x l IH]; cbn [app].
  - split; [intros Hk; repeat split; [constructor|exact Hk|intros a b Ha; inversion Ha]|tauto].
  - split.
    + intros Hs. inversion Hs as [|? ? Hs' Hf]; subst. apply list.Forall_app in Hf as [Hf1 Hf2]. apply IH in Hs' as (H1 & H2 & H3).
      split; [now constructor|]. split; [exact H2|]. intros a b Ha Hb. apply elem_of_cons in Ha as [->|Ha]; [|auto].
      rewrite list.Forall_forall in Hf2. auto.
    + intros (H1 & H2 & H3). inversion H1 as [|? ? H1' Hf]; subst. constructor.
      * apply IH. split; [exact H1'|]. split; [exact H2|]. intros a b Ha. apply H3. now right.
      * apply list.Forall_app. split; [exact Hf|]. apply list.Forall_forall. intros b Hb. apply H3; [left|exact Hb].
Qed.

Lemma ranked_app l k : ranked (l ++ k) <-> ranked l /\ ranked k /\ (forall a b, a ∈ l -> b ∈ k -> not_above a b).
Proof. apply sorted_app. Qed.

Lemma filter_all {A} (f : A -> bool) l : (forall x, x ∈ l -> f x = true) ->
  List.filter f l = l /\ List.filter (fun x => negb (f x)) l = [].
Proof.
  induction l as [|x l IH]; [auto|]. intros Hf. destruct IH as [H1 H2]; [intros y Hy; apply Hf; now right|].
  cbn. rewrite (Hf x) by left. cbn. now rewrite H1, H2.
Qed.
Lemma filter_none {A} (f : A -> bool) l : (forall x, x ∈ l -> f x = false) ->
  List.filter f l = [] /\ List.filter (fun x => negb (f x)) l = l.
Proof.
  induction l as [|x l IH]; [auto|]. intros Hf. destruct IH as [H1 H2]; [intros y Hy; apply Hf; now right|].
  cbn. rewrite (Hf x) by left. cbn. now rewrite H1, H2.
Qed.

Lemma place_perm es r : place es r ≡ₚ r :: es.
Proof.
  unfold place. rewrite <- Permutation_middle. apply Permutation_skip.
  induction es as [|x es IH]; [reflexivity|]. cbn. destruct (not_below r x); cbn [negb]; cbn [app].
  - now apply Permutation_skip.
  - rewrite <- Permutation_middle. now apply Permutation_skip.
Qed.

Lemma filter_sub {A} (f : A -> bool) x l : x ∈ List.filter f l -> x ∈ l /\ f x = true.
Proof. rewrite !list_elem_of_In. intros Hx. now apply filter_In in Hx. Qed.

Lemma sorted_filter (R : RankValue -> RankValue -> Prop) f es : StronglySorted R es -> StronglySorted R (List.filter f es).
Proof.
  induction 1 as [|x es Hs IH Hf]; cbn; [constructor|]. destruct (f x); [|exact IH]. constructor; [exact IH|].
  rewrite list.Forall_forall in *. intros y Hy. apply filter_sub in Hy as [Hy _]. auto.
Qed.

Lemma ranked_filter f es : ranked es -> ranked (List.filter f es).
Proof. apply sorted_filter. Qed.

Lemma place_ranked es r : ranked es -> ranked (place es r).
Proof.
  intros Hs. unfold place. apply ranked_app. split; [now apply ranked_filter|]. split.
  - constructor; [now apply ranked_filter|]. apply list.Forall_forall. intros x Hx. apply filter_sub in Hx as [_ Hx].
    unfold not_below, not_above in *. zbool. lia.
  - intros a b Ha Hb. apply filter_sub in Ha as [_ Ha]. apply elem_of_cons in Hb as [->|Hb].
    + unfold not_below, not_above in *. zbool. lia.
    + apply filter_sub in Hb as [_ Hb]. unfold not_below, not_above in *. zbool. lia.
Qed.

(** The last loop puts the entry where it belongs. *)
Lemma rank_forward_spec l1 r l2 : ranked l1 ->
  rank_forward (l1 ++ r :: l2) (length l1) = Ret (place l1 r ++ l2).
Proof.
  revert r l2. induction l1 as [|a l1 IH] using rev_ind; intros r l2 Hs; [reflexivity|].
  apply ranked_app in Hs as (H1 & _ & H3). rewrite length_app, Nat.add_comm. cbn [length plus rank_forward].
  assert (Hra : forall x, (l1 ++ [a]) ++ x = l1 ++ a :: x) by (intros; now rewrite <- app_assoc). rewrite Hra.
  assert (Hj : (l1 ++ a :: r :: l2) !! length l1 = Some a) by now apply list_lookup_middle.
  assert (Hi : (l1 ++ a :: r :: l2) !! S (length l1) = Some r) by (rewrite <- Hra; apply list_lookup_middle; rewrite length_app; cbn; lia).
  rewrite Hj, Hi. cbn [deref mbind outcome_bind].
  assert (Ea : not_below r a = negb (rv_value a <? rv_value r)) by (unfold not_below; ztests; lia).
  unfold place. rewrite !List.filter_app. cbn [List.filter]. rewrite Ea, negb_involutive.
  destruct (Z.ltb_spec (rv_value a) (rv_value r)) as [Hlt|Hge]; cbn [negb]; rewrite ?app_nil_r.
  - replace (<[length l1:=r]> _) with (l1 ++ r :: a :: l2); [|symmetry; rewrite <- Hra, insert_app_r_alt by (rewrite length_app; cbn; lia);
      rewrite length_app, Nat.add_comm, Nat.sub_diag, Hra, insert_app_r_alt, Nat.sub_diag by lia; reflexivity].
    rewrite IH by exact H1. unfold place. rewrite <- !app_assoc; cbn [app]; now rewrite <- app_assoc.
  - rewrite IH by exact H1. assert (Hall : forall x, x ∈ l1 -> rv_value a <= rv_value x) by (intros x Hx; apply H3; [exact Hx|left]).
    unfold place. destruct (filter_all (not_below a) l1) as [-> ->]; [intros x Hx; unfold not_below; specialize (Hall x Hx); ztests|].
    destruct (filter_all (not_below r) l1) as [-> ->]; [intros x Hx; unfold not_below; specialize (Hall x Hx); ztests|].
    now rewrite <- !app_assoc.
Qed.

Lemma rank_find_spec pre es rest pid :
  (exists e1 x e2, es = e1 ++ x :: e2 /\ rv_pid x = pid /\ (pid ∉ map rv_pid e1) /\
     rank_find (pre ++ es ++ rest) pid (length pre) (length es) = Ret (length pre + length e1)%nat) \/
  ((pid ∉ map rv_pid es) /\ rank_find (pre ++ es ++ rest) pid (length pre) (length es) = Ret (length pre + length es)%nat).
Proof.
  revert pre. induction es as [|y es IH]; intros pre; [right; cbn; split; [apply not_elem_of_nil|f_equal; lia]|].
  cbn [length rank_find]. rewrite lookup_app_r, Nat.sub_diag by lia. cbn [app lookup list_lookup deref mbind outcome_bind].
  destruct (Z.eqb_spec (rv_pid y) pid) as [E|E].
  - left. exists [], y, es. split; [reflexivity|]. split; [exact E|]. split; [apply not_elem_of_nil|]. f_equal. cbn. lia.
  - specialize (IH (pre ++ [y])). rewrite length_app, <- app_assoc, Nat.add_comm in IH. cbn [length plus app] in IH.
    destruct IH as [(e1 & x & e2 & -> & Hx & Hn & He)|[Hn He]]; [left; exists (y :: e1), x, e2|right].
    + split; [reflexivity|]. split; [exact Hx|]. split; [cbn; rewrite elem_of_cons; intros [->|Hin]; auto|]. rewrite He. f_equal. cbn. lia.
    + split; [cbn; rewrite elem_of_cons; intros [->|Hin]; auto|]. rewrite He. f_equal. lia.
Qed.

Definition without_pid (pid : Z) (es : list RankValue) : list RankValue := List.filter (fun x => negb (rv_pid x =? pid)) es.

(** What an insertion does to the entries; [None] is the failed assertion. *)
Definition rank_step (es : list RankValue) (r : RankValue) : option (list RankValue) :=
  if (RANK_COUNT <=? zlen es) && match list.last es with Some x => rv_value r <=? rv_value x | None => false end then Some es
  else
    match List.find (fun x => rv_pid x =? rv_pid r) es with
    | Some x =>
      if rv_value r <? rv_value x then None
      else Some (if rv_value r =? rv_value x then es else place (without_pid (rv_pid r) es) r)
    | None => Some (place (take (Z.to_nat (RANK_COUNT - 1)) es) r)
    end.

Lemma rank_find_middle pid e1 x e2 : rv_pid x = pid -> pid ∉ map rv_pid e1 ->
  List.find (fun y => rv_pid y =? pid) (e1 ++ x :: e2) = Some x.
Proof.
  intros Hx. induction e1 as [|y e1 IH]; cbn; intros Hn; [now rewrite Hx, Z.eqb_refl|]. rewrite not_elem_of_cons in Hn.
  destruct (Z.eqb_spec (rv_pid y) pid); [destruct Hn; congruence|]. now apply IH.
Qed.
Lemma find_absent pid es : pid ∉ map rv_pid es -> List.find (fun y => rv_pid y =? pid) es = None.
Proof.
  induction es as [|y es IH]; cbn; [reflexivity|]. rewrite not_elem_of_cons. intros [Hn Hr].
  destruct (Z.eqb_spec (rv_pid y) pid); [congruence|]. now apply IH.
Qed.
Lemma without_absent pid es : pid ∉ map rv_pid es -> without_pid pid es = es.
Proof.
  intros Hn. apply filter_all. intros x Hx. apply negb_true_iff, Z.eqb_neq. intros <-. apply Hn. now apply list_elem_of_fmap_2.
Qed.
Lemma without_middle pid e1 x e2 : rv_pid x = pid -> NoDup (map rv_pid (e1 ++ x :: e2)) ->
  without_pid pid (e1 ++ x :: e2) = e1 ++ e2 /\ pid ∉ map rv_pid (e1 ++ e2).
Proof.
  intros Hx Hnd. rewrite map_app in Hnd. cbn [map] in Hnd. rewrite <- Permutation_middle, Hx in Hnd.
  apply list.NoDup_cons in Hnd as [Hn _]. rewrite <- map_app in Hn. split; [|exact Hn]. rewrite <- (without_absent pid (e1 ++ e2)) by exact Hn.
  unfold without_pid. rewrite !List.filter_app. cbn [List.filter]. rewrite Hx, Z.eqb_refl. reflexivity.
Qed.

Lemma place_nodup es r : NoDup (map rv_pid es) -> rv_pid r ∉ map rv_pid es -> NoDup (map rv_pid (place es r)).
Proof. intros Hnd Hn. rewrite (Permutation_map rv_pid (place_perm es r)). cbn. now apply list.NoDup_cons. Qed.

Lemma place_top_length es r : length (place es r) = S (length es).
Proof. now rewrite (place_perm es r). Qed.

(** The array with the entry in its place. *)
Lemma ranks_placed l e1 r e2 : zlen (e1 ++ e2) < RANK_COUNT -> ranked (e1 ++ e2) -> NoDup (map rv_pid (e1 ++ e2)) ->
  rv_pid r ∉ map rv_pid (e1 ++ e2) -> (forall x, x ∈ e2 -> rv_value x < rv_value r) ->
  let pad := repeat (mk_rank 0 0) (Z.to_nat RANK_COUNT - S (length (e1 ++ e2))) in
  exists top, rank_forward (e1 ++ r :: e2 ++ pad) (length e1) = Ret top /\
    ranks_ok (mk_ranks (rl_type l) (zlen (e1 ++ e2) + 1) top) (place (e1 ++ e2) r).
Proof.
  intros Hl Hs Hnd Hn He2 pad. apply ranked_app in Hs as Hs'. destruct Hs' as (H1 & H2 & H3).
  rewrite rank_forward_spec by exact H1. eexists. split; [reflexivity|].
  assert (Hp : place (e1 ++ e2) r = place e1 r ++ e2).
  { unfold place. rewrite !List.filter_app. destruct (filter_none (not_below r) e2) as [-> ->].
    - intros x Hx. specialize (He2 x Hx). unfold not_below. ztests.
    - rewrite app_nil_r, <- app_assoc. reflexivity. }
  constructor; cbn [rl_top rl_n].
  - rewrite place_top_length. fold pad. rewrite Hp, <- app_assoc. reflexivity.
  - unfold zlen. rewrite place_top_length. lia.
  - unfold zlen in *. rewrite place_top_length. lia.
  - now apply place_ranked.
  - now apply place_nodup.
Qed.

Lemma rank_at_lookup top i r : top !! i = Some r -> rank_at top (Z.of_nat i) = Ret r.
Proof. intros Hi. unfold rank_at. ztests. now rewrite Nat2Z.id, Hi. Qed.
Lemma rank_put_middle l1 x l2 r i : i = zlen l1 -> rank_put (l1 ++ x :: l2) i r = Ret (l1 ++ r :: l2).
Proof.
  intros ->. unfold rank_put. autorewrite with cserver. pose proof (zlen_nonneg l1). pose proof (zlen_nonneg l2). ztests; cbn [andb].
  rewrite to_nat_zlen, insert_app_r_alt, Nat.sub_diag by lia. reflexivity.
Qed.

Lemma last_full (es : list RankValue) : 0 < zlen es -> exists e x, es = e ++ [x] /\ list.last es = Some x.
Proof.
  intros Hz. destruct (list.last es) as [x|] eqn:E; [apply list.last_Some in E as [e ->]; eauto|].
  apply list.last_None in E as ->. exfalso. unfold zlen in Hz. cbn in Hz. lia.
Qed.

(** The early return looks at the last entry of a full list. *)
Lemma early_test l es value : ranks_ok l es ->
  (if RANK_COUNT <=? rl_n l then r ← rank_at (rl_top l) (RANK_COUNT - 1); Ret (value <=? rv_value r) else Ret false) =
  Ret ((RANK_COUNT <=? zlen es) && match list.last es with Some x => value <=? rv_value x | None => false end).
Proof.
  intros [Ht Hn Hl _ _]. rewrite Hn. destruct (Z.leb_spec RANK_COUNT (zlen es)) as [Hf|Hf]; [|reflexivity]. cbn [andb].
  destruct (last_full es) as (e & x & -> & ->); [unfold RANK_COUNT in Hf; lia|].
  autorewrite with cserver in *. replace (RANK_COUNT - 1) with (Z.of_nat (length e)) by (unfold zlen in *; lia).
  rewrite (rank_at_lookup _ _ x); [reflexivity|]. rewrite Ht, <- app_assoc. now apply list_lookup_middle.
Qed.

(** The end of [rank_insert], for an entry at [i]. *)
Definition rank_finish (l : RankList) (r : RankValue) (i : nat) : outcome RankList :=
  '(top, nTop, i) ← rank_enter (rl_top l) (rl_n l) (rv_pid r) (rv_value r) i;
  top ← rank_forward top i;
  Ret (mk_ranks (rl_type l) nTop top).

Definition entered (l : RankList) (o : outcome RankList) (es' : list RankValue) : Prop :=
  exists l', o = Ret l' /\ ranks_ok l' es' /\ rl_type l' = rl_type l.

Lemma ranked_drop e1 x e2 : ranked (e1 ++ x :: e2) ->
  ranked (e1 ++ e2) /\ (forall y, y ∈ e1 -> rv_value x <= rv_value y) /\ (forall y, y ∈ e2 -> rv_value y <= rv_value x).
Proof.
  intros Hs. apply ranked_app in Hs as (H1 & H2 & H3). inversion H2 as [|? ? H2' Hf]; subst. rewrite list.Forall_forall in Hf.
  split; [|split].
  - apply ranked_app. split; [exact H1|]. split; [exact H2'|]. intros a b Ha Hb. apply H3; [exact Ha|now right].
  - intros y Hy. apply (H3 y x Hy). left.
  - exact Hf.
Qed.

(** The player is listed. *)
Lemma finish_found l e1 x e2 r : ranks_ok l (e1 ++ x :: e2) -> rv_pid x = rv_pid r ->
  if rv_value r <? rv_value x then rank_finish l r (length e1) = Abort
  else entered l (rank_finish l r (length e1)) (if rv_value r =? rv_value x then e1 ++ x :: e2 else place (e1 ++ e2) r).
Proof.
  intros [Ht Hn Hl Hs Hnd] Hx. unfold rank_finish, rank_enter. rewrite Ht, Hn. set (pad := repeat _ _).
  pose proof (zlen_nonneg e2). autorewrite with cserver. destruct (Z.ltb_spec (Z.of_nat (length e1)) (zlen e1 + (1 + zlen e2))); [|unfold zlen in *; lia].
  rewrite <- app_assoc. cbn [app]. rewrite (rank_at_lookup _ _ x) by now apply list_lookup_middle. cbn [mbind outcome_bind].
  rewrite Z.leb_antisym. destruct (Z.ltb_spec (rv_value r) (rv_value x)) as [Hlt|Hge]; cbn [negb c_assert mbind outcome_bind]; [reflexivity|].
  rewrite rank_put_middle by reflexivity. cbn [mbind outcome_bind]. rewrite Hx.
  destruct (without_middle _ e1 x e2 Hx Hnd) as [_ Hn']. destruct (ranked_drop _ _ _ Hs) as (Hr12 & Hf1 & Hf2).
  replace (mk_rank (rv_pid r) (rv_value r)) with r by now destruct r. unfold entered. destruct (Z.eqb_spec (rv_value r) (rv_value x)) as [E|E].
  - replace r with x by (destruct r, x; cbn in *; congruence). apply ranked_app in Hs as Hs'. destruct Hs' as (H1 & _ & _).
    rewrite rank_forward_spec by exact H1. eexists. split; [reflexivity|]. split; [|reflexivity].
    assert (Hp : place e1 x = e1 ++ [x]).
    { unfold place. destruct (filter_all (not_below x) e1) as [-> ->]; [|reflexivity]. intros y Hy. apply Z.leb_le. auto. }
    rewrite Hp, <- app_assoc. cbn [app].
    constructor; cbn [rl_top rl_n]; try assumption; try (autorewrite with cserver in *; lia). now rewrite <- app_assoc.
  - destruct (ranks_placed l e1 r e2) as (top & Htop & Hok'); try assumption.
    + autorewrite with cserver in *. lia.
    + rewrite map_app in *. cbn [map] in Hnd. rewrite <- Permutation_middle in Hnd. now apply list.NoDup_cons in Hnd.
    + intros y Hy. specialize (Hf2 y Hy). lia.
    + replace (S (length (e1 ++ e2))) with (length (e1 ++ x :: e2)) in Htop by (rewrite !length_app; cbn; lia).
      fold pad in Htop. rewrite Htop. eexists. split; [reflexivity|]. split; [|reflexivity].
      replace (zlen e1 + (1 + zlen e2)) with (zlen (e1 ++ e2) + 1) by (autorewrite with cserver; lia). exact Hok'.
Qed.

(** The player is not listed: the last entry of a full list is dropped. *)
Lemma finish_new l es r : ranks_ok l es -> rv_pid r ∉ map rv_pid es ->
  entered l (rank_finish l r (length es)) (place (take (Z.to_nat (RANK_COUNT - 1)) es) r).
Proof.
  intros [Ht Hn Hl Hs Hnd] Hnot. unfold rank_finish, rank_enter. rewrite Ht, Hn. set (pad := repeat _ _).
  destruct (Z.ltb_spec (Z.of_nat (length es)) (zlen es)); [unfold zlen in *; lia|].
  replace (mk_rank (rv_pid r) (rv_value r)) with r by now destruct r. unfold entered.
  destruct (Z.ltb_spec (zlen es) RANK_COUNT) as [Hroom|Hfull].
  - assert (Hpad : pad = mk_rank 0 0 :: repeat (mk_rank 0 0) (Z.to_nat RANK_COUNT - S (length es))).
    { unfold pad. replace (Z.to_nat RANK_COUNT - length es)%nat with (S (Z.to_nat RANK_COUNT - S (length es))) by (unfold zlen in *; lia). reflexivity. }
    rewrite Hpad, rank_put_middle by reflexivity. cbn [mbind outcome_bind].
    destruct (ranks_placed l es r []) as (top & Htop & Hok'); rewrite ?app_nil_r; try assumption; [intros y Hy; inversion Hy|].
    rewrite !app_nil_r in *. cbn [app] in Htop. rewrite Htop. eexists. split; [reflexivity|]. split; [|reflexivity].
    now rewrite take_ge by (unfold zlen in *; lia).
  - destruct (last_full es) as (e & x & -> & _); [unfold RANK_COUNT in *; lia|].
    autorewrite with cserver in *. change (zlen []) with 0 in *. assert (Hle : zlen e = RANK_COUNT - 1) by lia.
    assert (Hpad : pad = []) by (unfold pad; replace (_ - _)%nat with 0%nat by (rewrite length_app; cbn; unfold zlen in *; lia); reflexivity).
    rewrite Hpad, app_nil_r, rank_put_middle by lia. cbn [mbind outcome_bind]. rewrite map_app in Hnd, Hnot.
    apply list.NoDup_app in Hnd as (Hnd & _ & _). apply ranked_app in Hs as (Hs & _ & Hx).
    destruct (ranks_placed l e r []) as (top & Htop & Hok'); rewrite ?app_nil_r; try assumption; [lia| |intros y Hy; inversion Hy|].
    + intros Hin. apply Hnot. rewrite elem_of_app. now left.
    + rewrite !app_nil_r in *. cbn [app] in Htop. replace (_ - _)%nat with 0%nat in Htop by (unfold zlen in *; lia).
      replace (Z.to_nat (RANK_COUNT - 1)) with (length e) by (unfold zlen in *; lia). cbn [repeat] in Htop. rewrite Htop.
      eexists. split; [reflexivity|]. split; [|reflexivity]. rewrite take_app_length.
      now replace (zlen e + (1 + 0)) with (zlen e + 1) by lia.
Qed.

Lemma rank_insert_spec l es r : ranks_ok l es ->
  match rank_step es r with
  | None => rank_insert l (rv_pid r) (rv_value r) = Abort
  | Some es' => entered l (rank_insert l (rv_pid r) (rv_value r)) es'
  end.
Proof.
  intros Hok. unfold rank_insert, rank_step. rewrite (early_test l es _ Hok). destruct (_ && _) eqn:Early; cbn [mbind outcome_bind].
  - exists l. auto.
  - pose proof Hok as [Ht Hn Hl Hs Hnd]. set (pad := repeat _ _) in Ht.
    assert (Hfind : rank_find (rl_top l) (rv_pid r) 0 (Z.to_nat (rl_n l)) = rank_find (es ++ pad) (rv_pid r) 0 (length es))
      by now rewrite Ht, Hn, to_nat_zlen.
    rewrite Hfind. destruct (rank_find_spec [] es pad (rv_pid r)) as [(e1 & x & e2 & He & Hx & Hnot & Hf)|[Hnot Hf]];
      cbn [app length plus] in Hf; rewrite Hf; cbn [mbind outcome_bind].
    + subst es. rewrite (rank_find_middle _ _ _ _ Hx Hnot). pose proof (finish_found l e1 x e2 r Hok Hx) as Hfin.
      rewrite (proj1 (without_middle _ e1 x e2 Hx Hnd)). destruct (rv_value r <? rv_value x); exact Hfin.
    + rewrite (find_absent _ _ Hnot). exact (finish_new l es r Hok Hnot).
Qed.

(** ** The list is the top of all reports *)

Fixpoint rank_inserts (l : RankList) (reports : list RankValue) : outcome RankList :=
  match reports with
  | [] => Ret l
  | r :: reports' => l ← rank_insert l (rv_pid r) (rv_value r); rank_inserts l reports'
  end.

(** The last value reported for each player; [improving]: no player's value decreases. *)
Definition report (g : gmap Z Z) (r : RankValue) : gmap Z Z := <[rv_pid r := rv_value r]> g.
Fixpoint improving (g : gmap Z Z) (reports : list RankValue) : Prop :=
  match reports with
  | [] => True
  | r :: reports' => (forall w, g !! rv_pid r = Some w -> w <= rv_value r) /\ improving (report g r) reports'
  end.

(** [es] are the best of [g], in order: an unlisted player is not above anyone on the list, which is full. *)
Record best_of (g : gmap Z Z) (es : list RankValue) : Prop := {
  bo_sorted : ranked es;
  bo_nodup : NoDup (map rv_pid es);
  bo_len : zlen es <= RANK_COUNT;
  bo_listed : forall r, r ∈ es -> g !! rv_pid r = Some (rv_value r);
  bo_others : forall p v, g !! p = Some v -> mk_rank p v ∈ es \/ (zlen es = RANK_COUNT /\ forall r, r ∈ es -> v <= rv_value r) }.

Lemma elem_of_place es r x : x ∈ place es r <-> x = r \/ x ∈ es.
Proof. now rewrite (place_perm es r), elem_of_cons. Qed.

Lemma find_split pid es x : List.find (fun y => rv_pid y =? pid) es = Some x ->
  exists e1 e2, es = e1 ++ x :: e2 /\ rv_pid x = pid.
Proof.
  intros Hf. apply List.find_some in Hf as [Hin Hp]. apply list_elem_of_In, list_elem_of_split in Hin as (e1 & e2 & ->).
  exists e1, e2. split; [reflexivity|]. now apply Z.eqb_eq.
Qed.

Lemma rank_find_none pid es : List.find (fun y => rv_pid y =? pid) es = None -> pid ∉ map rv_pid es.
Proof.
  intros Hf Hin. apply list_elem_of_fmap in Hin as (x & -> & Hx). apply list_elem_of_In in Hx.
  apply (List.find_none _ _ Hf) in Hx. now rewrite Z.eqb_refl in Hx.
Qed.

Lemma last_least es x y : ranked es -> list.last es = Some x -> y ∈ es -> rv_value x <= rv_value y.
Proof.
  intros Hs Hl Hy. apply list.last_Some in Hl as [e ->]. apply ranked_app in Hs as (_ & _ & H3).
  apply elem_of_app in Hy as [Hy|Hy]; [apply (H3 y x Hy); left|]. apply list_elem_of_singleton in Hy as ->. lia.
Qed.

(** An entry that is placed among entries that are known. *)
Lemma top_placed g es r : best_of g es -> forall es', ranked es' -> NoDup (map rv_pid es') -> rv_pid r ∉ map rv_pid es' -> zlen es' < RANK_COUNT ->
  (forall x, x ∈ es' -> x ∈ es) ->
  (forall p v, g !! p = Some v -> p <> rv_pid r -> mk_rank p v ∈ es' \/
     (zlen es' = RANK_COUNT - 1 /\ v <= rv_value r /\ forall x, x ∈ es' -> v <= rv_value x)) ->
  best_of (report g r) (place es' r).
Proof.
  intros Ht es' Hs Hnd Hn Hl Hsub Hoth. constructor.
  - now apply place_ranked.
  - now apply place_nodup.
  - unfold zlen in *. rewrite place_top_length. lia.
  - intros x Hx. unfold report. apply elem_of_place in Hx as [->|Hx]; [apply lookup_insert_eq|].
    rewrite lookup_insert_ne; [apply (bo_listed _ _ Ht); auto|]. intros E. apply Hn. rewrite E. now apply list_elem_of_fmap_2.
  - intros p v Hp. unfold report in Hp. apply lookup_insert_Some in Hp as [[<- <-]|[Hne Hp]].
    + left. apply elem_of_place. left. now destruct r.
    + destruct (Hoth p v Hp (not_eq_sym Hne)) as [Hin|(Hfull & Hv & Hle)]; [left; apply elem_of_place; now right|right].
      split; [unfold zlen in *; rewrite place_top_length; lia|]. intros x Hx. apply elem_of_place in Hx as [->|Hx]; auto.
Qed.

Lemma top_listed g e1 x e2 r : best_of g (e1 ++ x :: e2) -> rv_pid x = rv_pid r -> rv_value x <= rv_value r ->
  best_of (report g r) (if rv_value r =? rv_value x then e1 ++ x :: e2 else place (without_pid (rv_pid r) (e1 ++ x :: e2)) r).
Proof.
  intros Ht Hx Hle. pose proof Ht as [Hs Hnd Hl Hin Hoth]. assert (Hg : g !! rv_pid r = Some (rv_value x)).
  { rewrite <- Hx. apply Hin. apply elem_of_app. right. left. }
  destruct (Z.eqb_spec (rv_value r) (rv_value x)) as [E|E].
  - unfold report. rewrite insert_id by congruence. exact Ht.
  - destruct (without_middle _ e1 x e2 Hx Hnd) as [-> Hn]. destruct (ranked_drop _ _ _ Hs) as (Hr12 & Hf1 & Hf2).
    assert (Hsub : forall y, y ∈ e1 ++ e2 -> y ∈ e1 ++ x :: e2) by (intros y; rewrite !elem_of_app, elem_of_cons; tauto).
    apply (top_placed g (e1 ++ x :: e2)); try assumption.
    + rewrite map_app in *. cbn [map] in Hnd. rewrite <- Permutation_middle in Hnd. now apply list.NoDup_cons in Hnd.
    + autorewrite with cserver in *. lia.
    + intros p v Hp Hne. destruct (Hoth p v Hp) as [Hm|[Hfull Hv]].
      * left. rewrite elem_of_app, elem_of_cons in *. destruct Hm as [Hm|[Hm|Hm]]; [tauto| |tauto]. subst x. now destruct Hne.
      * right. autorewrite with cserver in *. split; [lia|]. split; [|auto].
        transitivity (rv_value x); [|exact Hle]. apply Hv. apply elem_of_app. right. left.
Qed.

Lemma top_new g es r : best_of g es -> rv_pid r ∉ map rv_pid es ->
  (forall x, zlen es = RANK_COUNT -> list.last es = Some x -> rv_value x < rv_value r) ->
  best_of (report g r) (place (take (Z.to_nat (RANK_COUNT - 1)) es) r).
Proof.
  intros Ht Hn Hbeat. pose proof Ht as [Hs Hnd Hl Hin Hoth]. destruct (decide (zlen es = RANK_COUNT)) as [Hfull|Hroom].
  - destruct (last_full es) as (e & y & -> & Hlast); [unfold RANK_COUNT in *; lia|]. specialize (Hbeat y Hfull Hlast).
    autorewrite with cserver in *. change (zlen []) with 0 in *. rewrite take_app_le, take_ge by (unfold zlen in *; lia).
    assert (Hdrop : forall x, x ∈ e ++ [y] -> rv_value y <= rv_value x) by (intros x; apply last_least; assumption).
    rewrite map_app in Hnd, Hn. apply list.NoDup_app in Hnd as (Hnd & _ & _).
    apply (top_placed g (e ++ [y])); try assumption.
    + now apply ranked_app in Hs as (Hs & _ & _).
    + rewrite elem_of_app in Hn. tauto.
    + lia.
    + intros x Hx. apply elem_of_app. now left.
    + intros p v Hp Hne. destruct (Hoth p v Hp) as [Hm|[_ Hv]].
      * apply elem_of_app in Hm as [Hm|Hm]; [now left|right]. apply list_elem_of_singleton in Hm. subst y. cbn in *.
        split; [lia|]. split; [lia|]. intros x Hx. apply Hdrop, elem_of_app. now left.
      * right. split; [lia|]. specialize (Hv y) as Hvy. split; [|intros x Hx; apply Hv, elem_of_app; now left].
        assert (v <= rv_value y); [apply Hvy, elem_of_app; right; left|lia].
  - rewrite take_ge by (unfold zlen in *; lia). apply (top_placed g es); try assumption; [lia|auto|].
    intros p v Hp Hne. destruct (Hoth p v Hp) as [Hm|[Hf _]]; [now left|contradiction].
Qed.

Lemma rank_step_top g es r : best_of g es -> (forall w, g !! rv_pid r = Some w -> w <= rv_value r) ->
  exists es', rank_step es r = Some es' /\ best_of (report g r) es'.
Proof.
  intros Ht Hup. unfold rank_step. destruct (_ && _) eqn:Early.
  - exists es. split; [reflexivity|]. pose proof Ht as [Hs Hnd Hl Hin Hoth]. apply andb_true_iff in Early as [Hf Hlast].
    destruct (list.last es) as [y|] eqn:El; [|discriminate]. zbool. assert (Hall : forall x, x ∈ es -> rv_value r <= rv_value x).
    { intros x Hx. pose proof (last_least es y x Hs El Hx). lia. }
    constructor; try assumption.
    + intros x Hx. unfold report. destruct (decide (rv_pid x = rv_pid r)) as [E|E]; [|rewrite lookup_insert_ne by congruence; auto].
      rewrite E, lookup_insert_eq. f_equal. pose proof (Hin x Hx) as Hg. rewrite E in Hg. specialize (Hup _ Hg). specialize (Hall x Hx). lia.
    + intros p v Hp. unfold report in Hp. apply lookup_insert_Some in Hp as [[<- <-]|[Hne Hp]]; [right; split; [lia|exact Hall]|auto].
  - destruct (List.find _ es) as [x|] eqn:Efind; [apply find_split in Efind as (e1 & e2 & -> & Hx)|apply rank_find_none in Efind].
    + assert (Hle : rv_value x <= rv_value r).
      { apply Hup. rewrite <- Hx. apply (bo_listed _ _ Ht). apply elem_of_app. right. left. }
      destruct (Z.ltb_spec (rv_value r) (rv_value x)); [lia|]. eexists. split; [reflexivity|]. exact (top_listed g e1 x e2 r Ht Hx Hle).
    + eexists. split; [reflexivity|]. apply (top_new g es r Ht Efind). intros x Hf Hlast. rewrite Hlast in Early.
      apply andb_false_iff in Early as [E|E]; zbool; lia.
Qed.

(** *** Equal values

    The place of a report among [done]; for values that do not decrease this is when the player reached
    the value. *)
Fixpoint first_at (done : list RankValue) (r : RankValue) : nat :=
  match done with
  | [] => 0%nat
  | x :: done' => if decide (x = r) then 0%nat else S (first_at done' r)
  end.

Lemma first_at_old done k x : x ∈ done -> first_at (done ++ k) x = first_at done x /\ (first_at done x < length done)%nat.
Proof.
  induction done as [|y done IH]; intros Hx; [inversion Hx|]. cbn. destruct (decide (y = x)); [lia|].
  apply elem_of_cons in Hx as [->|Hx]; [contradiction|]. destruct (IH Hx). lia.
Qed.
Lemma first_at_new done x : x ∉ done -> first_at (done ++ [x]) x = length done.
Proof.
  induction done as [|y done IH]; cbn; intros Hx; [now destruct (decide (x = x))|]. apply not_elem_of_cons in Hx as [Hne Hx].
  destruct (decide (y = x)); [congruence|]. now rewrite IH.
Qed.

Definition sooner (done : list RankValue) (a b : RankValue) : Prop :=
  rv_value a = rv_value b -> (first_at done a < first_at done b)%nat.

(** The last values of the reports [done], and the order of equal values on the list and behind it. *)
Record ties (done : list RankValue) (g : gmap Z Z) (es : list RankValue) : Prop := {
  ts_done : forall p v, g !! p = Some v -> mk_rank p v ∈ done;
  ts_last : forall x, x ∈ done -> exists w, g !! rv_pid x = Some w /\ rv_value x <= w;
  ts_sorted : StronglySorted (sooner done) es;
  ts_others : forall p v, g !! p = Some v -> mk_rank p v ∉ es -> forall x, x ∈ es -> sooner done x (mk_rank p v) }.

Lemma sorted_weaken {A} (R R' : A -> A -> Prop) l :
  (forall a b, a ∈ l -> b ∈ l -> R a b -> R' a b) -> StronglySorted R l -> StronglySorted R' l.
Proof.
  intros Hi Hs. induction Hs as [|x l Hs IH Hf]; constructor.
  - apply IH. intros a b Ha Hb. apply Hi; now right.
  - rewrite list.Forall_forall in *. intros y Hy. apply Hi; [left|now right|auto].
Qed.

Lemma sooner_more done k a b : a ∈ done -> b ∈ done -> sooner done a b -> sooner (done ++ k) a b.
Proof.
  intros Ha Hb Hs E. rewrite (proj1 (first_at_old done k a Ha)), (proj1 (first_at_old done k b Hb)). auto.
Qed.
Lemma sooner_than_new done a r : a ∈ done -> r ∉ done -> sooner (done ++ [r]) a r.
Proof.
  intros Ha Hr _. rewrite (first_at_new done r Hr). destruct (first_at_old done [r] a Ha). lia.
Qed.

Lemma report_done done g r : (forall p v, g !! p = Some v -> mk_rank p v ∈ done) ->
  forall p v, report g r !! p = Some v -> mk_rank p v ∈ done ++ [r].
Proof.
  intros Hd p v Hp. unfold report in Hp. apply lookup_insert_Some in Hp as [[<- <-]|[_ Hp]]; apply elem_of_app; [right|left; auto].
  destruct r. left.
Qed.
Lemma report_last done g r : (forall w, g !! rv_pid r = Some w -> w <= rv_value r) ->
  (forall x, x ∈ done -> exists w, g !! rv_pid x = Some w /\ rv_value x <= w) ->
  forall x, x ∈ done ++ [r] -> exists w, report g r !! rv_pid x = Some w /\ rv_value x <= w.
Proof.
  intros Hup Hl x Hx. unfold report. apply elem_of_app in Hx as [Hx|Hx].
  - destruct (Hl x Hx) as (w & Hw & Hle). destruct (decide (rv_pid r = rv_pid x)) as [E|E].
    + exists (rv_value r). rewrite E, lookup_insert_eq. split; [reflexivity|]. rewrite <- E in Hw. specialize (Hup w Hw). lia.
    + exists w. now rewrite lookup_insert_ne.
  - apply list_elem_of_singleton in Hx as ->. exists (rv_value r). rewrite lookup_insert_eq. split; [reflexivity|lia].
Qed.

(** A report that was made before is the player's last one. *)
Lemma done_is_last done g es r : ties done g es -> (forall w, g !! rv_pid r = Some w -> w <= rv_value r) -> r ∈ done ->
  g !! rv_pid r = Some (rv_value r).
Proof. intros Ht Hup Hr. destruct (ts_last _ _ _ Ht r Hr) as (w & Hw & Hle). specialize (Hup w Hw). rewrite Hw. f_equal. lia. Qed.

(** The list stays as it is: the report is no better than the last entry, or nothing new. *)
Lemma ties_kept done g es r : best_of g es -> ties done g es -> (forall w, g !! rv_pid r = Some w -> w <= rv_value r) ->
  ties (done ++ [r]) (report g r) es.
Proof.
  intros Hb Ht Hup. pose proof Ht as [Hd Hl Hs Ho].
  assert (Hin : forall x, x ∈ es -> x ∈ done).
  { intros x Hx. destruct x as [p v]. apply Hd. exact (bo_listed _ _ Hb (mk_rank p v) Hx). }
  constructor; [now apply report_done|now apply report_last| |].
  - apply (sorted_weaken (sooner done)); [|exact Hs]. intros a b Ha Hb'. apply sooner_more; auto.
  - intros p v Hp Hn x Hx. unfold report in Hp. apply lookup_insert_Some in Hp as [[<- <-]|[_ Hp]].
    + replace (mk_rank (rv_pid r) (rv_value r)) with r in * by now destruct r. destruct (decide (r ∈ done)) as [Hr|Hr].
      * apply sooner_more; auto. pose proof (Ho (rv_pid r) (rv_value r) (done_is_last _ _ _ _ Ht Hup Hr)) as Hor.
        replace (mk_rank (rv_pid r) (rv_value r)) with r in Hor by now destruct r. auto.
      * apply sooner_than_new; auto.
    + apply sooner_more; auto.
Qed.

(** A new value is entered among entries that were known: those that are not listed are below it. *)
Lemma ties_placed done g es es' r : best_of g es -> ties done g es -> (forall w, g !! rv_pid r = Some w -> w <= rv_value r) ->
  r ∉ done -> (forall x, x ∈ es' -> x ∈ es) -> StronglySorted (sooner done) es' ->
  (forall p v, g !! p = Some v -> p <> rv_pid r -> mk_rank p v ∉ es' ->
     v < rv_value r /\ forall x, x ∈ es' -> sooner done x (mk_rank p v)) ->
  ties (done ++ [r]) (report g r) (place es' r).
Proof.
  intros Hb Ht Hup Hr Hsub Hs Hoth. pose proof Ht as [Hd Hl _ _].
  assert (Hin : forall x, x ∈ es' -> x ∈ done).
  { intros x Hx. apply Hsub in Hx. destruct x as [p v]. apply Hd. exact (bo_listed _ _ Hb (mk_rank p v) Hx). }
  constructor; [now apply report_done|now apply report_last| |].
  - apply (sorted_weaken (sooner done)) with (R' := sooner (done ++ [r])) in Hs; [|intros a b Ha Hb'; apply sooner_more; auto].
    unfold place. apply sorted_app. split; [now apply sorted_filter|]. split.
    + constructor; [now apply sorted_filter|]. apply list.Forall_forall. intros x Hx E. apply filter_sub in Hx as [_ Hx].
      unfold not_below in Hx. zbool. lia.
    + intros a b Ha Hb'. apply filter_sub in Ha as [Ha Hva]. apply elem_of_cons in Hb' as [->|Hb'].
      * apply sooner_than_new; auto.
      * apply filter_sub in Hb' as [_ Hvb]. intros E. unfold not_below in *. zbool. lia.
  - intros p v Hp Hn x Hx. unfold report in Hp. apply lookup_insert_Some in Hp as [[<- <-]|[Hne Hp]].
    + destruct Hn. apply elem_of_place. left. now destruct r.
    + destruct (Hoth p v Hp (not_eq_sym Hne)) as [Hv Hso]; [intros Hm; apply Hn, elem_of_place; now right|].
      apply elem_of_place in Hx as [->|Hx]; [intros E; cbn in E; lia|]. apply sooner_more; auto.
Qed.

Lemma ties_raised done g e1 x e2 r : best_of g (e1 ++ x :: e2) -> ties done g (e1 ++ x :: e2) -> rv_pid x = rv_pid r ->
  rv_value x < rv_value r -> ties (done ++ [r]) (report g r) (place (e1 ++ e2) r).
Proof.
  intros Hb Ht Hx Hlt. assert (Hg : g !! rv_pid r = Some (rv_value x)).
  { rewrite <- Hx. apply (bo_listed _ _ Hb). apply elem_of_app. right. left. }
  assert (Hup : forall w, g !! rv_pid r = Some w -> w <= rv_value r) by (intros w Hw; rewrite Hg in Hw; injection Hw as <-; lia).
  apply (ties_placed done g (e1 ++ x :: e2)); try assumption.
  - intros Hr. apply (done_is_last _ _ _ _ Ht Hup) in Hr. rewrite Hg in Hr. injection Hr as E. lia.
  - intros y. rewrite !elem_of_app, elem_of_cons. tauto.
  - pose proof (ts_sorted _ _ _ Ht) as Hs. apply sorted_app in Hs as (H1 & H2 & H3). apply sorted_app.
    inversion H2; subst. split; [exact H1|]. split; [assumption|]. intros a b Ha Hb'. apply H3; [exact Ha|now right].
  - intros p v Hp Hne Hn. assert (Hn' : mk_rank p v ∉ e1 ++ x :: e2).
    { rewrite !elem_of_app, elem_of_cons in *. intros [Hm|[Hm|Hm]]; [tauto| |tauto]. apply Hne. rewrite <- Hx, <- Hm. reflexivity. }
    split.
    + destruct (bo_others _ _ Hb p v Hp) as [Hm|[_ Hle]]; [contradiction|].
      assert (v <= rv_value x); [apply Hle, elem_of_app; right; left|lia].
    + intros y Hy. apply (ts_others _ _ _ Ht p v Hp Hn'). rewrite elem_of_app, elem_of_cons in *. tauto.
Qed.

Lemma ties_new done g es r : best_of g es -> ties done g es -> (forall w, g !! rv_pid r = Some w -> w <= rv_value r) ->
  rv_pid r ∉ map rv_pid es -> (forall x, zlen es = RANK_COUNT -> list.last es = Some x -> rv_value x < rv_value r) ->
  ties (done ++ [r]) (report g r) (place (take (Z.to_nat (RANK_COUNT - 1)) es) r).
Proof.
  intros Hb Ht Hup Hn Hbeat.
  assert (Hrn : forall v, mk_rank (rv_pid r) v ∉ es) by (intros v Hin; apply Hn, list_elem_of_fmap; eexists; split; [|exact Hin]; reflexivity).
  assert (Hr : r ∉ done).
  { intros Hr. pose proof (done_is_last _ _ _ _ Ht Hup Hr) as Hg. destruct (bo_others _ _ Hb _ _ Hg) as [Hm|[Hf Hle]]; [now apply Hrn in Hm|].
    destruct (last_full es) as (e & y & He & Hl); [unfold RANK_COUNT in Hf; lia|]. specialize (Hbeat y Hf Hl).
    assert (rv_value r <= rv_value y); [apply Hle; rewrite He; apply elem_of_app; right; left|lia]. }
  assert (Htake : forall x, x ∈ take (Z.to_nat (RANK_COUNT - 1)) es -> x ∈ es).
  { intros x Hx. rewrite <- (take_drop (Z.to_nat (RANK_COUNT - 1)) es). apply elem_of_app. now left. }
  pose proof (ts_sorted _ _ _ Ht) as Hs. rewrite <- (take_drop (Z.to_nat (RANK_COUNT - 1)) es) in Hs.
  apply sorted_app in Hs as (Hs1 & _ & Hs3).
  apply (ties_placed done g es); try assumption.
  intros p v Hp Hne Hnot. destruct (bo_others _ _ Hb p v Hp) as [Hm|[Hf Hle]].
  - rewrite <- (take_drop (Z.to_nat (RANK_COUNT - 1)) es) in Hm. apply elem_of_app in Hm as [Hm|Hm]; [contradiction|].
    split; [|intros x Hx; exact (Hs3 x _ Hx Hm)]. pose proof (bo_len _ _ Hb) as Hlen.
    assert (Hf : zlen es = RANK_COUNT).
    { destruct (decide (zlen es = RANK_COUNT)) as [|Hroom]; [assumption|]. rewrite drop_ge in Hm by (unfold zlen in *; lia). inversion Hm. }
    destruct (last_full es) as (e & y & -> & Hl); [unfold RANK_COUNT in Hf; lia|]. specialize (Hbeat y Hf Hl).
    autorewrite with cserver in Hf. change (zlen []) with 0 in Hf.
    rewrite drop_app_ge in Hm by (unfold zlen in *; lia). replace (Z.to_nat (RANK_COUNT - 1) - length e)%nat with 0%nat in Hm by (unfold zlen in *; lia).
    apply list_elem_of_singleton in Hm as <-. exact Hbeat.
  - destruct (last_full es) as (e & y & He & Hl); [unfold RANK_COUNT in Hf; lia|]. specialize (Hbeat y Hf Hl).
    assert (Hly : v <= rv_value y) by (apply Hle; rewrite He; apply elem_of_app; right; left). split; [lia|].
    intros x Hx. destruct (decide (mk_rank p v ∈ es)) as [Hm|Hm]; [|apply (ts_others _ _ _ Ht p v Hp Hm); auto].
    rewrite <- (take_drop (Z.to_nat (RANK_COUNT - 1)) es) in Hm. apply elem_of_app in Hm as [Hm|Hm]; [contradiction|]. exact (Hs3 x _ Hx Hm).
Qed.

Lemma rank_step_ties done g es r es' : best_of g es -> ties done g es -> (forall w, g !! rv_pid r = Some w -> w <= rv_value r) ->
  rank_step es r = Some es' -> ties (done ++ [r]) (report g r) es'.
Proof.
  intros Hb Ht Hup. unfold rank_step. destruct (_ && _) eqn:Early; [intros [= <-]; now apply ties_kept|].
  destruct (List.find _ es) as [x|] eqn:Efind; [apply find_split in Efind as (e1 & e2 & -> & Hx)|apply rank_find_none in Efind].
  - destruct (Z.ltb_spec (rv_value r) (rv_value x)); [discriminate|].
    destruct (without_middle _ e1 x e2 Hx (bo_nodup _ _ Hb)) as [-> _].
    destruct (Z.eqb_spec (rv_value r) (rv_value x)); intros [= <-]; [now apply ties_kept|]. apply (ties_raised done g e1 x e2); auto. lia.
  - intros [= <-]. apply ties_new; auto. intros x Hf Hlast. rewrite Hlast in Early.
    apply andb_false_iff in Early as [E|E]; zbool; lia.
Qed.

Lemma rank_inserts_top reports : forall done g l es, ranks_ok l es -> best_of g es -> ties done g es -> improving g reports ->
  exists l' es', rank_inserts l reports = Ret l' /\ ranks_ok l' es' /\ best_of (foldl report g reports) es' /\
    ties (done ++ reports) (foldl report g reports) es' /\ rl_type l' = rl_type l.
Proof.
  induction reports as [|r reports IH]; intros done g l es Hok Ht Hti Hi; cbn; [rewrite app_nil_r; eauto 10|]. destruct Hi as [Hup Hi].
  destruct (rank_step_top g es r Ht Hup) as (es' & Hstep & Ht'). pose proof (rank_insert_spec l es r Hok) as Hins. rewrite Hstep in Hins.
  destruct Hins as (l' & -> & Hok' & Hty). cbn.
  destruct (IH (done ++ [r]) _ l' es' Hok' Ht' (rank_step_ties _ _ _ _ _ Ht Hti Hup Hstep) Hi) as (l'' & es'' & -> & H1 & H2 & H3 & H4).
  exists l'', es''. rewrite <- app_assoc in H3. rewrite H4. auto.
Qed.

(** *** The whole list *)

(** The value a player was last reported with. *)
Definition last_value (reports : list RankValue) (p : Z) : option Z := foldl report ∅ reports !! p.

(** [a] is before [b]: by the value, and for equal values by who was reported with it first. *)
Definition before (reports : list RankValue) (a b : RankValue) : Prop :=
  rv_value b < rv_value a \/ (rv_value a = rv_value b /\ (first_at reports a < first_at reports b)%nat).

(** [es] are the players before all others, in order, each with its last value; players that are not listed
    come behind everyone on the list, which is then full. *)
Record top_of (reports : list RankValue) (es : list RankValue) : Prop := {
  tp_sorted : StronglySorted (before reports) es;
  tp_nodup : NoDup (map rv_pid es);
  tp_len : zlen es <= RANK_COUNT;
  tp_listed : forall r, r ∈ es -> last_value reports (rv_pid r) = Some (rv_value r);
  tp_others : forall p v, last_value reports p = Some v ->
    mk_rank p v ∈ es \/ (zlen es = RANK_COUNT /\ forall r, r ∈ es -> before reports r (mk_rank p v)) }.

Lemma before_both reports a b : not_above a b -> sooner reports a b -> before reports a b.
Proof. unfold not_above, sooner, before. intros Hv Hs. destruct (Z.eq_dec (rv_value a) (rv_value b)); [right; auto|left; lia]. Qed.

Lemma sorted_both {A} (R Q S' : A -> A -> Prop) l : (forall a b, R a b -> Q a b -> S' a b) ->
  StronglySorted R l -> StronglySorted Q l -> StronglySorted S' l.
Proof.
  intros Hi H1 H2. induction H1 as [|x l H1 IH Hf]; constructor; inversion H2 as [|? ? H2' Hf']; subst; [auto|].
  rewrite list.Forall_forall in *. auto.
Qed.

Lemma top_of_both reports es : best_of (foldl report ∅ reports) es -> ties reports (foldl report ∅ reports) es -> top_of reports es.
Proof.
  intros [Hs Hnd Hl Hin Hoth] [_ _ Ht Hto]. constructor; try assumption.
  - eapply sorted_both; [|exact Hs|exact Ht]. apply before_both.
  - intros p v Hp. destruct (decide (mk_rank p v ∈ es)) as [|Hn]; [now left|right].
    destruct (Hoth p v Hp) as [Hm|[Hf Hv]]; [contradiction|]. split; [exact Hf|]. intros r Hr. apply before_both; [now apply Hv|eauto].
Qed.

Lemma rank_new_ok type : ranks_ok (rank_new type) [] /\ best_of ∅ [].
Proof.
  split; constructor.
  1-2: reflexivity. 1,6: unfold zlen, RANK_COUNT; cbn; lia. 1,3: constructor. 1,2: constructor.
  - intros r Hr. inversion Hr.
  - intros p v Hp. now rewrite lookup_empty in Hp.
Qed.

Lemma lookup_repeat {A} (x : A) n i : (i < n)%nat -> repeat x n !! i = Some x.
Proof. revert i. induction n as [|n IH]; intros [|i] Hi; try lia; [reflexivity|]. apply IH. lia. Qed.

Lemma rank_get_spec l es j : ranks_ok l es -> 1 <= j <= RANK_COUNT ->
  rank_get l j = Ret (match es !! Z.to_nat (j - 1) with Some r => (rv_pid r, Some (u32 (rv_value r))) | None => (0, Some 0) end).
Proof.
  intros [Ht _ Hl _ _] Hj. unfold rank_get. ztests; cbn [orb]. unfold rank_at. ztests. rewrite Ht.
  destruct (es !! Z.to_nat (j - 1)) as [r|] eqn:E; [now rewrite (lookup_app_l_Some _ _ _ _ E)|].
  apply lookup_ge_None in E. rewrite lookup_app_r by lia. unfold RANK_COUNT, zlen in *. now rewrite lookup_repeat by lia.
Qed.

Lemma no_ties : ties [] ∅ [].
Proof.
  constructor; [intros p v Hp; now rewrite lookup_empty in Hp|intros x Hx; inversion Hx|constructor|].
  intros p v Hp. now rewrite lookup_empty in Hp.
Qed.

(** C20: A rank list is the top of everything that was reported to it: for every sequence of reports in which
    no player's value decreases (otherwise the assertion of [rank_insert] can fail: [decreasing_value_aborts]),
    [rank_insert] never fails its assertion, and afterwards the list has each player at most once with the last
    value reported for it, ordered by value and, among equal values, by who was reported with it first; a player
    that is not on the list comes behind everyone on it in this order, and the list is then full.  [rank_get]
    answers the player and the value of a place, and no player for a place that is free. *)
Theorem rank_list_is_top type reports : improving ∅ reports ->
  exists l es, rank_inserts (rank_new type) reports = Ret l /\ top_of reports es /\
    forall j, 1 <= j <= RANK_COUNT ->
      rank_get l j = Ret (match es !! Z.to_nat (j - 1) with Some r => (rv_pid r, Some (u32 (rv_value r))) | None => (0, Some 0) end).
Proof.
  intros Hi. destruct (rank_new_ok type) as [Hok Ht].
  destruct (rank_inserts_top reports [] ∅ _ [] Hok Ht no_ties Hi) as (l & es & Hr & Hok' & Ht' & Hti & _).
  exists l, es. split; [exact Hr|]. split; [now apply top_of_both|]. intros j Hj. now apply rank_get_spec.
Qed.

(** A hundred and two players: 1003 gets ahead of everyone, 7 comes in behind 1050, who had as much before. *)
Definition sample_reports : list RankValue :=
  map (fun i => mk_rank (1000 + Z.of_nat i) (Z.of_nat i)) (List.seq 1 101) ++ [mk_rank 1003 200; mk_rank 7 50].

Lemma rank_list_is_top_witness :
  improving ∅ sample_reports /\
  exists l, rank_inserts (rank_new RANK_TYPE_STAR) sample_reports = Ret l /\ rank_get l 1 = Ret (1003, Some 200) /\
    rank_get l 53 = Ret (1050, Some 50) /\ rank_get l 54 = Ret (7, Some 50).
Proof.
  assert (Hi : improving ∅ sample_reports).
  { unfold sample_reports. cbn -[report]. repeat split; intros w Hw; vm_compute in Hw; try discriminate Hw; injection Hw as <-; lia. }
  split; [exact Hi|]. destruct (rank_list_is_top RANK_TYPE_STAR sample_reports Hi) as (l & es & Hr & _ & _).
  exists l. split; [exact Hr|].
  assert (E : match rank_inserts (rank_new RANK_TYPE_STAR) sample_reports with
    | Ret l => rank_get l 1 = Ret (1003, Some 200) /\ rank_get l 53 = Ret (1050, Some 50) /\ rank_get l 54 = Ret (7, Some 50)
    | _ => False end) by (vm_compute; auto).
  rewrite Hr in E. exact E.
Defined.

(** A listed player whose value decreases fails the assertion, unless the list is full and the value is not
    above its last. *)
Lemma decreasing_value_aborts l es r x : ranks_ok l es -> x ∈ es -> rv_pid x = rv_pid r -> rv_value r < rv_value x ->
  zlen es < RANK_COUNT -> rank_insert l (rv_pid r) (rv_value r) = Abort.
Proof.
  intros Hok Hx Hp Hlt Hroom. pose proof (rank_insert_spec l es r Hok) as Hs. unfold rank_step in Hs.
  destruct (Z.leb_spec RANK_COUNT (zlen es)); [lia|]. cbn [andb] in Hs. apply list_elem_of_split in Hx as (e1 & e2 & ->).
  pose proof (rk_nodup _ _ Hok) as Hnd. rewrite map_app in Hnd. cbn [map] in Hnd. apply list.NoDup_app in Hnd as (_ & Hnd & _).
  rewrite (rank_find_middle _ _ _ _ Hp) in Hs; [destruct (Z.ltb_spec (rv_value r) (rv_value x)); [exact Hs|lia]|].
  rewrite <- Hp. intros Hin. apply (Hnd _ Hin). left.
Qed.

(** ** Rewards *)

Section Rewards.
Context {W : Type} (player_get : W -> Z -> W * bool) (config : Z -> Z -> Z -> Z -> option (Z * Z * Z))
        (sendReward : W -> Z -> Z -> Z -> Z * Z * Z -> W) (database_update : W -> Z -> W).
#[local] Abbreviation places_loop := (send_reward_places player_get config sendReward).
#[local] Abbreviation check := (check_reward player_get config sendReward database_update).

(** What the player at place [j] of a list of type [type] gets in a period with the given flags. *)
Definition pay (type reason first weekly : Z) (es : list RankValue) (w : W) (j : Z) : W :=
  match es !! Z.to_nat (j - 1) with
  | Some r =>
    if rv_pid r =? 0 then w
    else
      let '(w, found) := player_get w (rv_pid r) in
      if found then match config type j first weekly with Some cfg => sendReward w (rv_pid r) reason j cfg | None => w end else w
  | None => w
  end.

Definition period (s : rank_state W) : Z * Z := (is_first_week s, is_weekly s).
Definition pay_list (type reason : Z) (p : Z * Z) (es : list RankValue) (w : W) : W := foldl (pay type reason (fst p) (snd p) es) w places.

Lemma with_rank_world_twice (s : rank_state W) w w' : with_rank_world (with_rank_world s w) w' = with_rank_world s w'.
Proof. reflexivity. Qed.
Lemma with_rank_world_id (s : rank_state W) : with_rank_world s (rs_world s) = s.
Proof. now destruct s. Qed.

Lemma period_world (s : rank_state W) w : is_first_week (with_rank_world s w) = is_first_week s /\ is_weekly (with_rank_world s w) = is_weekly s.
Proof. split; reflexivity. Qed.

Lemma send_places_spec s rank reason es js : ranks_ok rank es -> (forall j, j ∈ js -> 1 <= j <= RANK_COUNT) ->
  places_loop s rank reason js = Ret (with_rank_world s (foldl (pay (rl_type rank) reason (is_first_week s) (is_weekly s) es) (rs_world s) js)).
Proof.
  intros Hok. revert s. induction js as [|j js IH]; intros s Hj; cbn [send_reward_places foldl]; [now rewrite with_rank_world_id|].
  unfold send_reward_of_place. rewrite (rank_get_spec _ es) by (exact Hok || apply Hj; left).
  assert (Hpay : forall w, places_loop (with_rank_world s w) rank reason js =
    Ret (with_rank_world s (foldl (pay (rl_type rank) reason (is_first_week s) (is_weekly s) es) w js))).
  { intros w. rewrite IH by (intros i Hi; apply Hj; now right). reflexivity. }
  pose proof (Hpay (rs_world s)) as Hsame. rewrite with_rank_world_id in Hsame.
  unfold pay at 2. destruct (es !! Z.to_nat (j - 1)) as [r|]; cbn [mbind outcome_bind]; [|exact Hsame].
  destruct (rv_pid r =? 0); cbn [mbind outcome_bind]; [exact Hsame|].
  destruct (player_get (rs_world s) (rv_pid r)) as [w found]. destruct found; cbn [negb mbind outcome_bind]; [|apply Hpay].
  destruct (period_world s w) as [-> ->].
  destruct (config _ _ _ _) as [cfg|]; cbn [mbind outcome_bind]; rewrite ?with_rank_world_twice; apply Hpay.
Qed.

Lemma elem_of_places j : j ∈ places -> 1 <= j <= RANK_COUNT.
Proof.
  unfold places. intros Hj. apply list_elem_of_fmap in Hj as (i & -> & Hi). apply list_elem_of_In, in_seq in Hi.
  unfold RANK_COUNT in *. lia.
Qed.

(** The three lists are paid, in order, once the period is over, and the next period begins where it ended. *)
Lemma check_reward_spec s now ee es eo : ranks_ok (rank_exp s) ee -> ranks_ok (rank_star s) es -> ranks_ok (rank_tower s) eo ->
  open_flag s <> 0 ->
  check s now = Ret (if now <? rank_reward_end s then s
    else resetTimeRange database_update (with_rank_world s
      (pay_list (rl_type (rank_tower s)) REASON_TOWER_RANK_REWARD (period s) eo
        (pay_list (rl_type (rank_star s)) REASON_STAR_RANK_REWARD (period s) es
          (pay_list (rl_type (rank_exp s)) REASON_EXP_RANK_REWARD (period s) ee (rs_world s)))))).
Proof.
  intros He Hs Ho Hf. unfold check_reward, get_rank_reward_end. destruct (now <? _); [reflexivity|].
  apply Z.eqb_neq in Hf. unfold send_reward_of_rank_list. rewrite Hf.
  rewrite (send_places_spec s _ _ ee _ He elem_of_places). cbn [mbind outcome_bind open_flag with_rank_world]. rewrite Hf.
  rewrite (send_places_spec _ _ _ es _ Hs elem_of_places). cbn [mbind outcome_bind open_flag with_rank_world]. rewrite Hf.
  rewrite (send_places_spec _ _ _ eo _ Ho elem_of_places). cbn [mbind outcome_bind]. unfold pay_list, period.
  rewrite !with_rank_world_twice. repeat (rewrite (proj1 (period_world _ _)) || rewrite (proj2 (period_world _ _))).
  cbn [fst snd rs_world with_rank_world]. reflexivity.
Qed.

(** The [k]-th period is of the first week for the first seven, and every seventh is the weekly one. *)
Lemma period_flags (s : rank_state W) k : 1 <= k -> rank_reward_end s = first_begin_time s + k * RANK_PERIOD ->
  0 <= first_begin_time s -> rank_reward_end s < 2 ^ 32 ->
  period s = ((if k <=? 7 then 1 else 0), (if k mod 7 =? 0 then 1 else 0)).
Proof.
  intros Hk He Hf Hw. unfold period, is_first_week, is_weekly. rewrite u32_small by (unfold RANK_PERIOD in *; lia).
  replace ((rank_reward_end s - first_begin_time s) / RANK_PERIOD) with k; [reflexivity|].
  rewrite He. replace (_ - _) with (k * RANK_PERIOD) by lia. now rewrite Z.div_mul by (unfold RANK_PERIOD; lia).
Qed.
End Rewards.
