(* ===== verification/Matrix.v ===== *)
(** * Reading tables: [framework/matrix.c]

    [LoadMatrix] splits a file at two separators into rows of fields, through a buffer of 4096 bytes; the
    configuration of the world is read with it.  The file is its bytes; [fread] fills what it is asked for
    unless the file ends.  Allocation does not fail. *)
From S2P Require Import Prelude.

(** ** Growing arrays *)

(** [MatrixRow] is an array of fields, [Matrix] one of rows: the same code over pointers. *)
Record vector (A : Type) := mk_vector { v_count : Z; v_alloced : Z; v_slot : list (option A) }.
Arguments mk_vector {A} _ _ _.
Arguments v_count {A} _.
Arguments v_alloced {A} _.
Arguments v_slot {A} _.

Section Vector.
Context {A : Type}.

Definition vector_new : vector A := mk_vector 0 0 [].

Definition vector_resize (v : vector A) : vector A :=
  if v_count v <? v_alloced v then v
  else
    let new_alloc := if v_alloced v =? 0 then 32 else u64 (v_alloced v * 2) in
    mk_vector (v_count v) new_alloc (take (Z.to_nat (v_count v)) (v_slot v) ++ repeat None (Z.to_nat (new_alloc - v_count v))).

Definition vector_push (v : vector A) (x : A) : outcome (vector A) :=
  let v := vector_resize v in
  _ ← c_assert (v_count v <? v_alloced v);
  if (0 <=? v_count v) && (v_count v <? zlen (v_slot v)) then
    Ret (mk_vector (v_count v + 1) (v_alloced v) (<[Z.to_nat (v_count v) := Some x]> (v_slot v)))
  else Undef.

(** [None] is the null pointer. *)
Definition vector_get (v : vector A) (i : Z) : outcome (option A) :=
  if v_count v <=? i then Ret None else if i <? 0 then Undef else deref (v_slot v !! Z.to_nat i).
End Vector.

(** A field is its bytes with the terminating zero. *)
Abbreviation MatrixField := (list Z).
Abbreviation MatrixRow := (vector (list Z)).
Abbreviation Matrix := (vector (vector (list Z))).

(** [len] bytes of the buffer from [ptr] *)
Definition MatrixFieldNew (buff : mem) (ptr len : Z) : outcome MatrixField := bs ← load_bytes buff ptr len; Ret (bs ++ [0]).

Definition MatrixRowNew : MatrixRow := vector_new.
Definition MatrixRowResize (row : MatrixRow) : MatrixRow := vector_resize row.
Definition MatrixRowPush (row : MatrixRow) (field : MatrixField) : outcome MatrixRow := vector_push row field.
Definition MatrixNew : Matrix := vector_new.
Definition MatrixResize (matrix : Matrix) : Matrix := vector_resize matrix.
Definition MatrixPush (matrix : Matrix) (row : MatrixRow) : outcome Matrix := vector_push matrix row.
Definition MatrixSize (matrix : Matrix) : Z := v_count matrix.
Definition MatrixGet (matrix : Matrix) (row : Z) : outcome (option MatrixRow) := vector_get matrix row.
Definition MatrixRowSize (row : MatrixRow) : Z := v_count row.
Definition MatrixRowGet (row : MatrixRow) (field : Z) : outcome (option MatrixField) := vector_get row field.
Definition MatrixFieldValue (field : MatrixField) : MatrixField := field.

(** ** The reader *)

Definition BUFF_SIZE : Z := 4096.

(** [fread] of [n] bytes: the bytes, the rest of the file and whether its end was seen. *)
Definition fread (rest : list Z) (eof : bool) (n : Z) : list Z * list Z * bool :=
  (take (Z.to_nat n) rest, drop (Z.to_nat n) rest, eof || (zlen rest <? n)).

Section Reader.
Variables sep_field sep_row : Z.

(** [for (i = 0; i < len; i++)] *)
Fixpoint scan_loop (fuel : nat) (buff : mem) (len i ptr strlen : Z) (matrix : Matrix) (row : MatrixRow)
    : outcome (Z * Z * Matrix * MatrixRow) :=
  if i <? len then
    match fuel with
    | O => NoFuel
    | S fuel' =>
      b ← load buff i;
      if (b =? sep_field) || (b =? sep_row) then
        field ← MatrixFieldNew buff ptr strlen;
        row ← MatrixRowPush row field;
        '(matrix, row) ← (
          if (b =? sep_row) && (0 <? v_count row) then matrix ← MatrixPush matrix row; Ret (matrix, MatrixRowNew)
          else Ret (matrix, row));
        scan_loop fuel' buff len (i + 1) (i + 1) 0 matrix row
      else scan_loop fuel' buff len (i + 1) ptr (strlen + 1) matrix row
    end
  else Ret (ptr, strlen, matrix, row).

(** [while (!feof(file))]; [memmove] moves the unfinished field to the front. *)
Fixpoint load_loop (fuel : nat) (rest : list Z) (eof : bool) (buff : mem) (len ptr strlen : Z) (matrix : Matrix) (row : MatrixRow)
    : outcome (mem * Z * Z * Matrix * MatrixRow) :=
  if eof then Ret (buff, ptr, strlen, matrix, row)
  else
    match fuel with
    | O => NoFuel
    | S fuel' =>
      let '(bytes, rest, eof) := fread rest eof (zlen buff - len) in
      buff ← store_bytes buff len bytes;
      let len := len + zlen bytes in
      '(ptr, strlen, matrix, row) ← scan_loop (Z.to_nat len) buff len 0 0 0 matrix row;
      if negb (ptr =? len) then
        bs ← load_bytes buff ptr (len - ptr);
        buff ← store_bytes buff 0 bs;
        load_loop fuel' rest eof buff (len - ptr) 0 strlen matrix row
      else load_loop fuel' rest eof buff 0 ptr strlen matrix row
    end.

(** The file, or [None] when it cannot be opened. *)
Definition LoadMatrix (fuel : nat) (file : option (list Z)) : outcome (option Matrix) :=
  match file with
  | None => Ret None
  | Some bytes =>
    '(buff, ptr, strlen, matrix, row) ← load_loop fuel bytes false (repeat 0 (Z.to_nat BUFF_SIZE)) 0 0 0 MatrixNew MatrixRowNew;
    row ← (if 0 <? strlen then field ← MatrixFieldNew buff ptr strlen; MatrixRowPush row field else Ret row);
    matrix ← (if 0 <? v_count row then MatrixPush matrix row else Ret matrix);
    Ret (Some matrix)
  end.
End Reader.

(** Enough steps for any file the reader returns from. *)
Definition load_fuel (file : list Z) : nat := S (S (length file)).

(** ** Arrays *)

Section VectorTheory.
Context {A : Type}.

(** The array holds [l]. *)
Record vector_ok (v : vector A) (l : list A) : Prop := {
  vo_count : v_count v = zlen l;
  vo_slot : v_slot v = map Some l ++ repeat None (Z.to_nat (v_alloced v - zlen l));
  vo_alloc : zlen l <= v_alloced v <= 32 + 2 * zlen l }.

Lemma vector_new_ok : vector_ok vector_new [].
Proof. constructor; [reflexivity|reflexivity|unfold zlen; cbn; lia]. Qed.

Lemma vector_push_ok v l x : vector_ok v l -> zlen l < 2 ^ 61 -> exists v', vector_push v x = Ret v' /\ vector_ok v' (l ++ [x]).
Proof.
  intros [Hc Hs Ha] Hl. pose proof (zlen_nonneg l). unfold vector_push.
  assert (Hr : exists n, zlen l < n <= 32 + 2 * zlen l /\
    vector_resize v = mk_vector (zlen l) n (map Some l ++ None :: repeat None (Z.to_nat (n - zlen l - 1)))).
  { assert (Hrep : forall n, zlen l < n -> repeat (@None A) (Z.to_nat (n - zlen l)) = None :: repeat None (Z.to_nat (n - zlen l - 1))).
    { intros n Hn. replace (Z.to_nat (n - zlen l)) with (S (Z.to_nat (n - zlen l - 1))) by lia. reflexivity. }
    unfold vector_resize. rewrite Hc, Hs. destruct (Z.ltb_spec (zlen l) (v_alloced v)) as [Hlt|Hge].
    - exists (v_alloced v). split; [lia|]. destruct v; cbn in *. subst. now rewrite Hrep by exact Hlt.
    - rewrite take_app_le, take_ge by (rewrite length_map; unfold zlen in *; lia).
      exists (if v_alloced v =? 0 then 32 else u64 (v_alloced v * 2)).
      assert (Hn : zlen l < (if v_alloced v =? 0 then 32 else u64 (v_alloced v * 2)) <= 32 + 2 * zlen l)
        by (destruct (Z.eqb_spec (v_alloced v) 0); [lia|]; rewrite u64_small by lia; lia).
      split; [exact Hn|]. now rewrite Hrep by apply Hn. }
  destruct Hr as (n & Hn & ->). cbn [v_count v_alloced v_slot]. destruct (Z.ltb_spec (zlen l) n); [|lia]. cbn [c_assert mbind outcome_bind].
  assert (Hm : zlen (map (@Some A) l) = zlen l) by (unfold zlen; now rewrite length_map).
  autorewrite with cserver. rewrite Hm. pose proof (zlen_nonneg (repeat (@None A) (Z.to_nat (n - zlen l - 1)))).
  destruct (Z.leb_spec 0 (zlen l)); [|lia]. destruct (Z.ltb_spec (zlen l) (zlen l + (1 + zlen (repeat (@None A) (Z.to_nat (n - zlen l - 1)))))); [|lia].
  cbn [andb]. eexists. split; [reflexivity|]. constructor; cbn [v_count v_alloced v_slot].
  - now autorewrite with cserver.
  - rewrite to_nat_zlen, insert_app_r_alt, length_map, Nat.sub_diag by (now rewrite length_map). cbn [insert list_insert].
    rewrite map_app, <- app_assoc. cbn [map app]. autorewrite with cserver. change (zlen []) with 0.
    now replace (n - (zlen l + (1 + 0))) with (n - zlen l - 1) by lia.
  - autorewrite with cserver. change (zlen []) with 0. lia.
Qed.

Lemma vector_get_ok v l i : vector_ok v l -> 0 <= i -> vector_get v i = Ret (l !! Z.to_nat i).
Proof.
  intros [Hc Hs Ha] Hi. unfold vector_get. rewrite Hc, Hs. destruct (Z.leb_spec (zlen l) i).
  - now rewrite lookup_ge_None_2 by (unfold zlen in *; lia).
  - ztests. rewrite lookup_app_l by (rewrite length_map; unfold zlen in *; lia). rewrite lookup_map.
    destruct (l !! Z.to_nat i) eqn:E; [reflexivity|]. apply lookup_ge_None in E. unfold zlen in *. lia.
Qed.
End VectorTheory.

(** ** The reader, byte by byte *)

Section Parse.
Variables sep_field sep_row : Z.
#[local] Abbreviation is_sep b := ((b =? sep_field) || (b =? sep_row)).

(** Rows, fields of the current row and bytes of the current field, and what a byte does to them. *)
Definition parse : Type := list (list (list Z)) * list (list Z) * list Z.
Definition parse_rows (p : parse) := fst (fst p).
Definition parse_row (p : parse) := snd (fst p).
Definition parse_field (p : parse) := snd p.
Definition parse_step (p : parse) (b : Z) : parse :=
  if is_sep b then
    if b =? sep_row then (parse_rows p ++ [parse_row p ++ [parse_field p]], [], [])
    else (parse_rows p, parse_row p ++ [parse_field p], [])
  else (parse_rows p, parse_row p, parse_field p ++ [b]).

Definition weight (p : parse) : Z := zlen (parse_rows p) + zlen (parse_row p) + zlen (parse_field p).

Lemma weight_bounds p : zlen (parse_rows p) <= weight p /\ zlen (parse_row p) <= weight p.
Proof.
  unfold weight. pose proof (zlen_nonneg (parse_rows p)). pose proof (zlen_nonneg (parse_row p)). pose proof (zlen_nonneg (parse_field p)). lia.
Qed.
Lemma weight_step p b : weight (parse_step p b) <= weight p + 1.
Proof.
  destruct p as [[rows cur] fld]. unfold weight, parse_step, parse_rows, parse_row, parse_field. cbn [fst snd].
  pose proof (zlen_nonneg cur). pose proof (zlen_nonneg fld).
  destruct (is_sep b); [destruct (b =? sep_row)|]; cbn [fst snd]; autorewrite with cserver; change (zlen []) with 0; cbn; lia.
Qed.
Lemma weight_fold l p : weight (foldl parse_step p l) <= weight p + zlen l.
Proof.
  revert p. induction l as [|b l IH]; intros p; cbn [foldl]; [change (zlen []) with 0; lia|].
  autorewrite with cserver. specialize (IH (parse_step p b)). pose proof (weight_step p b). lia.
Qed.

(** Bytes that are no separators go to the current field. *)
Lemma parse_plain l p : forallb (fun b => negb (is_sep b)) l = true ->
  foldl parse_step p l = (parse_rows p, parse_row p, parse_field p ++ l).
Proof.
  revert p. induction l as [|b l IH]; intros [[rows cur] fld] Hl; cbn [foldl forallb] in *; [now rewrite app_nil_r|].
  apply andb_true_iff in Hl as [Hb Hl]. apply negb_true_iff in Hb. unfold parse_step at 2. rewrite Hb, IH by exact Hl.
  unfold parse_rows, parse_row, parse_field. cbn [fst snd]. now rewrite <- app_assoc.
Qed.

Lemma step_plain p b : forallb (fun b => negb (is_sep b)) (parse_field p) = true ->
  forallb (fun b => negb (is_sep b)) (parse_field (parse_step p b)) = true.
Proof.
  intros Hp. unfold parse_step. destruct (is_sep b) eqn:E; [now destruct (b =? sep_row)|]. unfold parse_field in *. cbn [snd].
  rewrite forallb_app, Hp. cbn. now rewrite E.
Qed.
Lemma fold_plain l p : forallb (fun b => negb (is_sep b)) (parse_field p) = true ->
  forallb (fun b => negb (is_sep b)) (parse_field (foldl parse_step p l)) = true.
Proof. revert p. induction l as [|b l IH]; intros p Hp; cbn [foldl]; [exact Hp|]. apply IH. now apply step_plain. Qed.

(** ** The arrays hold what has been parsed *)

Definition row_ok (row : MatrixRow) (fields : list (list Z)) : Prop := vector_ok row (map (fun f => f ++ [0]) fields).
Definition matrix_ok (matrix : Matrix) (rows : list (list (list Z))) : Prop :=
  exists rs, vector_ok matrix rs /\ Forall2 row_ok rs rows.

Lemma row_push row cur f : row_ok row cur -> zlen cur < 2 ^ 61 -> exists row', MatrixRowPush row (f ++ [0]) = Ret row' /\ row_ok row' (cur ++ [f]).
Proof.
  intros Hr Hl. destruct (vector_push_ok row _ (f ++ [0]) Hr) as (row' & Hp & Hok); [unfold zlen in *; now rewrite length_map|].
  exists row'. split; [exact Hp|]. unfold row_ok. now rewrite map_app.
Qed.
Lemma matrix_push matrix rows row cur : matrix_ok matrix rows -> row_ok row cur -> zlen rows < 2 ^ 61 ->
  exists matrix', MatrixPush matrix row = Ret matrix' /\ matrix_ok matrix' (rows ++ [cur]).
Proof.
  intros (rs & Hv & Hf) Hr Hl. destruct (vector_push_ok matrix rs row Hv) as (m' & Hp & Hok).
  - unfold zlen in *. now rewrite (list.Forall2_length _ _ _ Hf).
  - exists m'. split; [exact Hp|]. exists (rs ++ [row]). split; [exact Hok|]. apply Forall2_app; [exact Hf|]. constructor; [exact Hr|constructor].
Qed.

Lemma field_new buff ptr len f : load_bytes buff ptr len = Ret f -> MatrixFieldNew buff ptr len = Ret (f ++ [0]).
Proof. intros Hf. unfold MatrixFieldNew. now rewrite Hf. Qed.

(** One more byte of a field in the buffer. *)
Lemma load_bytes_snoc buff ptr n f b : load_bytes buff ptr n = Ret f -> load buff (ptr + n) = Ret b -> load_bytes buff ptr (n + 1) = Ret (f ++ [b]).
Proof.
  unfold load_bytes, load. destruct (Z.leb_spec 0 ptr), (Z.leb_spec 0 n), (Z.leb_spec (ptr + n) (zlen buff)); cbn [andb]; try discriminate.
  intros [= <-] Hb. destruct (Z.leb_spec 0 (ptr + n)); [|lia]. destruct (buff !! Z.to_nat (ptr + n)) as [x|] eqn:E; [|discriminate]. injection Hb as ->.
  apply lookup_lt_Some in E as Hlt. destruct (Z.leb_spec 0 (n + 1)); [|lia]. destruct (Z.leb_spec (ptr + (n + 1)) (zlen buff)); [|unfold zlen in *; lia].
  cbn [andb]. f_equal. unfold slice. replace (Z.to_nat (n + 1)) with (S (Z.to_nat n)) by lia.
  rewrite (take_S_r _ _ b); [reflexivity|]. rewrite lookup_drop. now replace (Z.to_nat ptr + Z.to_nat n)%nat with (Z.to_nat (ptr + n)) by lia.
Qed.

Lemma load_bytes_length buff ptr n f : load_bytes buff ptr n = Ret f -> zlen f = n /\ 0 <= ptr /\ 0 <= n /\ ptr + n <= zlen buff.
Proof.
  unfold load_bytes. destruct (Z.leb_spec 0 ptr), (Z.leb_spec 0 n), (Z.leb_spec (ptr + n) (zlen buff)); cbn [andb]; try discriminate.
  intros [= <-]. unfold slice, zlen in *. rewrite length_take, length_drop. lia.
Qed.

Lemma load_bytes_empty buff i : 0 <= i <= zlen buff -> load_bytes buff i 0 = Ret [].
Proof. intros Hi. unfold load_bytes. ztests; cbn [andb]. reflexivity. Qed.

Lemma load_middle pre b post i : i = zlen pre -> load (pre ++ b :: post) i = Ret b.
Proof. intros ->. unfold load. pose proof (zlen_nonneg pre). ztests. now rewrite to_nat_zlen, list_lookup_middle. Qed.

Lemma scan_loop_spec fuel todo : forall pre post buff len i ptr strlen matrix row p,
  buff = pre ++ todo ++ post -> i = zlen pre -> len = i + zlen todo -> (length todo <= fuel)%nat ->
  ptr + strlen = i -> load_bytes buff ptr strlen = Ret (parse_field p) ->
  matrix_ok matrix (parse_rows p) -> row_ok row (parse_row p) -> weight p + zlen todo < 2 ^ 61 ->
  exists ptr' strlen' matrix' row',
    scan_loop sep_field sep_row fuel buff len i ptr strlen matrix row = Ret (ptr', strlen', matrix', row') /\
    let p' := foldl parse_step p todo in
    ptr' + strlen' = len /\ load_bytes buff ptr' strlen' = Ret (parse_field p') /\
    matrix_ok matrix' (parse_rows p') /\ row_ok row' (parse_row p').
Proof.
  revert fuel. induction todo as [|b todo IH]; intros fuel pre post buff len i ptr strlen matrix row p Hb Hi Hlen Hfuel Hps Hfld Hm Hr Hw.
  - change (zlen []) with 0 in *. exists ptr, strlen, matrix, row. destruct fuel; cbn [scan_loop]; ztests; cbn [foldl]; (split; [reflexivity|]); (split; [lia|auto]).
  - autorewrite with cserver in *. pose proof (zlen_nonneg todo). pose proof (zlen_nonneg pre). destruct fuel as [|fuel]; [cbn in Hfuel; lia|]. cbn [length] in Hfuel.
    cbn [scan_loop]. destruct (Z.ltb_spec i len); [|lia]. assert (Hld : load buff i = Ret b) by (rewrite Hb; cbn [app]; now apply load_middle).
    rewrite Hld. cbn [mbind outcome_bind foldl].
    assert (Hb' : buff = (pre ++ [b]) ++ todo ++ post) by (rewrite Hb, <- app_assoc; reflexivity).
    assert (Hpre : i + 1 = zlen (pre ++ [b])) by (autorewrite with cserver; change (zlen []) with 0; lia).
    pose proof (weight_step p b) as Hws. 
    pose proof (weight_bounds p) as [Hwr Hwc]. destruct (is_sep b) eqn:Hsep.
    + rewrite (field_new _ _ _ _ Hfld). cbn [mbind outcome_bind].
      destruct (row_push row _ (parse_field p) Hr) as (row1 & -> & Hr1); [lia|]. cbn [mbind outcome_bind].
      assert (Hcount : 0 < v_count row1).
      { rewrite (vo_count _ _ Hr1). unfold zlen. rewrite length_map, length_app. cbn. lia. }
      destruct (Z.ltb_spec 0 (v_count row1)); [|lia].
      assert (Hempty : load_bytes buff (i + 1) 0 = Ret []).
      { apply load_bytes_empty. rewrite Hb'. autorewrite with cserver in *. pose proof (zlen_nonneg post). lia. }
      assert (Hsm : exists matrix1 row2, (if (b =? sep_row) && true then matrix' ← MatrixPush matrix row1; Ret (matrix', MatrixRowNew) else Ret (matrix, row1)) = Ret (matrix1, row2) /\
         matrix_ok matrix1 (parse_rows (parse_step p b)) /\ row_ok row2 (parse_row (parse_step p b)) /\ parse_field (parse_step p b) = []).
      { unfold parse_step. rewrite Hsep. destruct (b =? sep_row); cbn [andb].
        - destruct (matrix_push matrix (parse_rows p) row1 _ Hm Hr1) as (matrix1 & -> & Hm1); [lia|]. cbn. exists matrix1, MatrixRowNew.
          split; [reflexivity|]. split; [exact Hm1|]. split; [exact vector_new_ok|reflexivity].
        - exists matrix, row1. auto. }
      destruct Hsm as (matrix1 & row2 & -> & Hm1 & Hr2 & Hf2). cbn [mbind outcome_bind].
      destruct (IH fuel (pre ++ [b]) post buff len (i + 1) (i + 1) 0 matrix1 row2 (parse_step p b)) as (ptr' & strlen' & matrix' & row' & He & Hrest);
        try assumption; try lia; [now rewrite Hf2|]. eauto 10.
    + destruct (IH fuel (pre ++ [b]) post buff len (i + 1) ptr (strlen + 1) matrix row (parse_step p b)) as (ptr' & strlen' & matrix' & row' & He & Hrest);
        try assumption; try lia.
      * unfold parse_step. rewrite Hsep. apply load_bytes_snoc; [exact Hfld|]. now rewrite Hps.
      * unfold parse_step. now rewrite Hsep.
      * unfold parse_step. now rewrite Hsep.
      * eauto 10.
Qed.

(** ** Iterations of the reading loop *)

(** The start of the buffer is the current field, which has no separator. *)
Record at_head (buff : mem) (len ptr strlen : Z) (matrix : Matrix) (row : MatrixRow) (p : parse) : Prop := {
  ah_size : zlen buff = BUFF_SIZE;
  ah_len : len = zlen (parse_field p);
  ah_front : load_bytes buff 0 len = Ret (parse_field p);
  ah_field : load_bytes buff ptr strlen = Ret (parse_field p);
  ah_plain : forallb (fun b => negb (is_sep b)) (parse_field p) = true;
  ah_matrix : matrix_ok matrix (parse_rows p);
  ah_row : row_ok row (parse_row p) }.

Lemma load_whole f post : load_bytes (f ++ post) 0 (zlen f) = Ret f.
Proof.
  unfold load_bytes. autorewrite with cserver. pose proof (zlen_nonneg f). pose proof (zlen_nonneg post). ztests; cbn [andb].
  unfold slice. change (Z.to_nat 0) with 0%nat. rewrite drop_0. now rewrite to_nat_zlen, take_app_length.
Qed.

Lemma load_front buff len f : load_bytes buff 0 len = Ret f -> exists post, buff = f ++ post /\ len = zlen f.
Proof.
  intros Hl. pose proof (load_bytes_length _ _ _ _ Hl) as (Hlen & _ & _ & _). unfold load_bytes in Hl. destruct (_ && _); [|discriminate].
  injection Hl as Hf. exists (drop (Z.to_nat len) buff). split; [|now symmetry]. rewrite <- Hf. unfold slice. change (Z.to_nat 0) with 0%nat. rewrite drop_0.
  symmetry. apply take_drop.
Qed.

Lemma store_after f post bytes : zlen bytes <= zlen post ->
  exists post', store_bytes (f ++ post) (zlen f) bytes = Ret (f ++ bytes ++ post') /\ zlen (f ++ bytes ++ post') = zlen (f ++ post).
Proof.
  intros Hl. unfold store_bytes, splice. autorewrite with cserver. pose proof (zlen_nonneg f). ztests; cbn [andb].
  rewrite to_nat_zlen, take_app_length, drop_app_ge by lia. replace (length f + length bytes - length f)%nat with (length bytes) by lia.
  eexists. split; [reflexivity|]. autorewrite with cserver. unfold zlen in *. rewrite length_drop. lia.
Qed.

Lemma load_iteration fuel rest buff len ptr strlen matrix row p :
  at_head buff len ptr strlen matrix row p -> zlen (parse_field p) <= BUFF_SIZE -> weight p + zlen rest < 2 ^ 60 ->
  let n := BUFF_SIZE - zlen (parse_field p) in
  exists buff' len' ptr' strlen' matrix' row',
    load_loop sep_field sep_row (S fuel) rest false buff len ptr strlen matrix row =
    load_loop sep_field sep_row fuel (drop (Z.to_nat n) rest) (zlen rest <? n) buff' len' ptr' strlen' matrix' row' /\
    at_head buff' len' ptr' strlen' matrix' row' (foldl parse_step p (take (Z.to_nat n) rest)).
Proof.
  intros [Hsz Hlen Hfront Hfld Hplain Hm Hr] Hle Hw n. destruct (load_front _ _ _ Hfront) as (post & Hbuff & _).
  cbn [load_loop fread]. rewrite Hsz, Hlen. fold n. set (bytes := take (Z.to_nat n) rest). cbn [orb].
  assert (Hbl : zlen bytes <= n) by (unfold bytes, zlen in *; rewrite length_take; lia).
  assert (Hpl : zlen post = n) by (rewrite Hbuff in Hsz; autorewrite with cserver in Hsz; lia).
  destruct (store_after (parse_field p) post bytes) as (post' & Hst & Hsz'); [lia|]. rewrite Hbuff, Hst. cbn [mbind outcome_bind].
  rewrite <- Hbuff, Hsz in Hsz'. set (buff1 := parse_field p ++ bytes ++ post') in *. pose proof (weight_bounds p) as [Hb1 Hb2].
  pose (p0 := (parse_rows p, parse_row p, []) : parse).
  assert (Hfold : foldl parse_step p0 (parse_field p ++ bytes) = foldl parse_step p bytes).
  { rewrite foldl_app, (parse_plain _ p0 Hplain). unfold p0. cbn [parse_rows parse_row parse_field fst snd app]. now destruct p as [[? ?] ?]. }
  pose proof (zlen_nonneg bytes). pose proof (zlen_nonneg (parse_field p)).
  destruct (scan_loop_spec (Z.to_nat (zlen (parse_field p) + zlen bytes)) (parse_field p ++ bytes) [] post' buff1
              (zlen (parse_field p) + zlen bytes) 0 0 0 matrix row p0) as (ptr' & strlen' & matrix' & row' & He & Hsum & Hf' & Hm' & Hr').
  { unfold buff1. now rewrite <- app_assoc. } { reflexivity. } { now autorewrite with cserver. }
  { rewrite length_app. unfold zlen. lia. } { reflexivity. } { apply load_bytes_empty. rewrite Hsz'. unfold BUFF_SIZE. lia. }
  { exact Hm. } { exact Hr. }
  { pose proof (zlen_nonneg rest). unfold weight in *. unfold p0. cbn [parse_rows parse_row parse_field fst snd]. autorewrite with cserver. change (zlen []) with 0. unfold BUFF_SIZE in *. lia. }
  rewrite Hfold in Hf', Hm', Hr'. rewrite He. cbn [mbind outcome_bind].
  pose proof (fold_plain bytes p Hplain) as Hplain'. destruct (load_bytes_length _ _ _ _ Hf') as (Hl' & Hp0 & Hs0 & Hend).
  destruct (Z.eqb_spec ptr' (zlen (parse_field p) + zlen bytes)) as [E|E]; cbn [negb].
  - assert (strlen' = 0) as -> by lia. do 6 eexists. split; [reflexivity|]. constructor; try assumption; try lia.
    rewrite load_bytes_empty by (rewrite Hsz'; unfold BUFF_SIZE; lia). f_equal. destruct (parse_field (foldl parse_step p bytes)); [reflexivity|].
    autorewrite with cserver in Hl'. pose proof (zlen_nonneg l). lia.
  - replace (zlen (parse_field p) + zlen bytes - ptr') with strlen' by lia. rewrite Hf'. cbn [mbind outcome_bind].
    destruct (store_after [] buff1 (parse_field (foldl parse_step p bytes))) as (post2 & Hst2 & Hsz2); [lia|].
    cbn [app] in Hst2, Hsz2. change (zlen []) with 0 in Hst2. rewrite Hst2. cbn [mbind outcome_bind].
    do 6 eexists. split; [reflexivity|]. constructor; try assumption; try lia; rewrite <- Hl'; apply load_whole.
Qed.

(** ** Long fields *)

(** The length of the current field after some bytes; [fields_short] holds when it stays below the size of
    the buffer. *)
Definition run (n : Z) (l : list Z) : Z := foldl (fun n b => if is_sep b then 0 else n + 1) n l.
Fixpoint fields_short (n : Z) (l : list Z) : bool :=
  (n <? BUFF_SIZE) && match l with [] => true | b :: l' => fields_short (if is_sep b then 0 else n + 1) l' end.

Lemma run_field l p : zlen (parse_field (foldl parse_step p l)) = run (zlen (parse_field p)) l.
Proof.
  revert p. induction l as [|b l IH]; intros p; [reflexivity|]. cbn [foldl run]. rewrite IH. unfold run. cbn [foldl]. f_equal.
  unfold parse_step. destruct (is_sep b); [now destruct (b =? sep_row)|]. unfold parse_field. cbn [snd]. autorewrite with cserver. reflexivity.
Qed.

Lemma fields_short_app a b : forall m, 0 <= m -> m + zlen a <= BUFF_SIZE -> fields_short m (a ++ b) = fields_short (run m a) b.
Proof.
  induction a as [|x a IH]; intros m Hm Hl; [reflexivity|]. autorewrite with cserver in Hl. pose proof (zlen_nonneg a). cbn [app fields_short].
  destruct (Z.ltb_spec m BUFF_SIZE); [|lia]. cbn [andb]. unfold run. cbn [foldl]. apply IH; destruct (is_sep x); lia.
Qed.

Lemma run_bound l m : 0 <= m -> 0 <= run m l <= m + zlen l.
Proof.
  revert m. induction l as [|b l IH]; intros m Hm; [unfold run, zlen; cbn; lia|]. autorewrite with cserver. unfold run in *. cbn [foldl].
  specialize (IH (if is_sep b then 0 else m + 1)). destruct (is_sep b); lia.
Qed.

Lemma fields_short_now m l : fields_short m l = true -> m < BUFF_SIZE.
Proof. destruct l; cbn [fields_short]; rewrite andb_true_iff; intros [Hm _]; now apply Z.ltb_lt. Qed.

(** What is left in the buffer at the end is the last field. *)
Definition loaded (o : outcome (mem * Z * Z * Matrix * MatrixRow)) (p : parse) : Prop :=
  exists buff ptr strlen matrix row, o = Ret (buff, ptr, strlen, matrix, row) /\ load_bytes buff ptr strlen = Ret (parse_field p) /\
    matrix_ok matrix (parse_rows p) /\ row_ok row (parse_row p).

Lemma load_loop_ok fuel : forall rest buff len ptr strlen matrix row p,
  at_head buff len ptr strlen matrix row p -> weight p + zlen rest < 2 ^ 60 ->
  fields_short (zlen (parse_field p)) rest = true -> (length rest < fuel)%nat ->
  loaded (load_loop sep_field sep_row fuel rest false buff len ptr strlen matrix row) (foldl parse_step p rest).
Proof.
  induction fuel as [|fuel IH]; intros rest buff len ptr strlen matrix row p Hat Hw Hshort Hfuel; [lia|].
  pose proof (fields_short_now _ _ Hshort) as Hlt.
  destruct (load_iteration fuel rest _ _ _ _ _ _ p Hat ltac:(lia) Hw) as (buff' & len' & ptr' & strlen' & matrix' & row' & -> & Hat').
  set (n := BUFF_SIZE - zlen (parse_field p)) in *. destruct (Z.ltb_spec (zlen rest) n) as [Heof|Hmore].
  - rewrite take_ge in Hat' by (unfold zlen in *; lia). exists buff', ptr', strlen', matrix', row'.
    split; [destruct fuel; reflexivity|]. destruct Hat'. auto.
  - assert (Hr : rest = take (Z.to_nat n) rest ++ drop (Z.to_nat n) rest) by now rewrite take_drop.
    assert (Hlen : zlen (take (Z.to_nat n) rest) = n) by (unfold zlen in *; rewrite length_take; lia).
    rewrite Hr in Hshort at 1. rewrite fields_short_app, <- run_field in Hshort by (pose proof (zlen_nonneg (parse_field p)); lia).
    rewrite Hr at 2. rewrite foldl_app. apply IH; try assumption.
    + pose proof (weight_fold (take (Z.to_nat n) rest) p). rewrite Hr in Hw. autorewrite with cserver in Hw. lia.
    + rewrite length_drop. unfold zlen in *. lia.
Qed.

Lemma load_loop_diverges fuel : forall rest buff len ptr strlen matrix row p,
  at_head buff len ptr strlen matrix row p -> weight p + zlen rest < 2 ^ 60 -> zlen (parse_field p) <= BUFF_SIZE ->
  fields_short (zlen (parse_field p)) rest = false ->
  load_loop sep_field sep_row fuel rest false buff len ptr strlen matrix row = NoFuel.
Proof.
  induction fuel as [|fuel IH]; intros rest buff len ptr strlen matrix row p Hat Hw Hle Hshort; [reflexivity|].
  destruct (load_iteration fuel rest _ _ _ _ _ _ p Hat Hle Hw) as (buff' & len' & ptr' & strlen' & matrix' & row' & -> & Hat').
  set (n := BUFF_SIZE - zlen (parse_field p)) in *. pose proof (zlen_nonneg (parse_field p)) as Hf0.
  assert (Hr : rest = take (Z.to_nat n) rest ++ drop (Z.to_nat n) rest) by now rewrite take_drop.
  assert (Hlen : zlen (take (Z.to_nat n) rest) <= n) by (unfold zlen in *; rewrite length_take; lia).
  rewrite Hr in Hshort at 1. rewrite fields_short_app in Hshort by lia. pose proof (run_bound (take (Z.to_nat n) rest) _ Hf0) as Hrun.
  destruct (Z.ltb_spec (zlen rest) n) as [Heof|Hmore].
  - exfalso. assert (Hall : zlen (take (Z.to_nat n) rest) <= zlen rest) by (unfold zlen; rewrite length_take; lia).
    rewrite drop_ge in Hshort by (unfold zlen in *; lia). cbn [fields_short] in Hshort. rewrite andb_true_r in Hshort. zbool. lia.
  - rewrite <- run_field in Hshort, Hrun. apply (IH _ _ _ _ _ _ _ _ Hat'); [|lia|exact Hshort].
    pose proof (weight_fold (take (Z.to_nat n) rest) p). rewrite Hr in Hw. autorewrite with cserver in Hw. lia.
Qed.

(** ** The table in a file *)

(** The parts of a list between separators; there is always at least one. *)
Fixpoint split (sep : Z) (l : list Z) : list (list Z) :=
  match l with
  | [] => [[]]
  | b :: l' =>
    if b =? sep then [] :: split sep l'
    else match split sep l' with w :: ws => (b :: w) :: ws | [] => [[b]] end
  end.

(** The fields of the last line count only up to the last byte of the file. *)
Definition last_row (fields : list (list Z)) : list (list (list Z)) :=
  let fields := match list.last fields with Some [] => removelast fields | _ => fields end in
  match fields with [] => [] | _ => [fields] end.

(** The rows are the lines, and the fields their parts. *)
Definition rows_of (lines : list (list Z)) : list (list (list Z)) :=
  map (split sep_field) (removelast lines) ++ match list.last lines with Some line => last_row (split sep_field line) | None => [] end.
Definition table (file : list Z) : list (list (list Z)) := rows_of (split sep_row file).

(** What the end of [LoadMatrix] makes of the last bytes. *)
Definition parse_end (p : parse) : list (list (list Z)) :=
  let cur := match parse_field p with [] => parse_row p | f => parse_row p ++ [f] end in
  match cur with [] => parse_rows p | _ => parse_rows p ++ [cur] end.

Lemma split_cons sep l : exists w ws, split sep l = w :: ws.
Proof.
  destruct l as [|b l]; cbn [split]; [eauto|]. destruct (b =? sep); [eauto|]. destruct (split sep l); eauto.
Qed.

(** [rows_of] when the first line continues a row that has begun. *)
Definition table_from (cur : list (list Z)) (fld file : list Z) : list (list (list Z)) :=
  match split sep_row file with
  | [] => []
  | line :: lines =>
    match split sep_field line with
    | [] => []
    | f :: fs =>
      let first := cur ++ (fld ++ f) :: fs in
      match lines with [] => last_row first | _ => first :: rows_of lines end
    end
  end.

Lemma table_from_nil file : table_from [] [] file = table file.
Proof.
  unfold table_from, table. destruct (split_cons sep_row file) as (line & lines & ->).
  destruct (split_cons sep_field line) as (f & fs & Hf). rewrite Hf. cbn [app].
  destruct lines as [|line2 lines]; unfold rows_of; cbn [removelast map app list.last]; rewrite Hf; reflexivity.
Qed.

Lemma parse_end_table l rows cur fld : parse_end (foldl parse_step (rows, cur, fld) l) = rows ++ table_from cur fld l.
Proof.
  revert rows cur fld. induction l as [|b l IH]; intros rows cur fld.
  - cbn. unfold parse_end, table_from, last_row, parse_field, parse_row, parse_rows. cbn [fst snd split]. rewrite app_nil_r, last_snoc.
    destruct fld as [|x fld]; [rewrite removelast_last|].
    + destruct cur; [now rewrite app_nil_r|reflexivity].
    + now destruct cur.
  - cbn [foldl]. unfold parse_step at 2. cbn [parse_rows parse_row parse_field fst snd].
    unfold parse_rows, parse_row, parse_field. cbn [fst snd]. unfold table_from. cbn [split].
    destruct (split_cons sep_row l) as (line & lines & Hl). destruct (split_cons sep_field line) as (f & fs & Hf).
    destruct (Z.eqb_spec b sep_row) as [Er|Er]; rewrite ?orb_true_r, ?orb_false_r.
    + rewrite IH, table_from_nil, <- app_assoc. cbn [app split]. rewrite app_nil_r. f_equal. unfold table. rewrite Hl. reflexivity.
    + rewrite Hl. cbn [split]. destruct (Z.eqb_spec b sep_field) as [Ef|Ef]; rewrite IH; unfold table_from; rewrite Hl, Hf; f_equal.
      * rewrite app_nil_r, <- app_assoc. reflexivity.
      * rewrite <- app_assoc. reflexivity.
Qed.

(** ** Theorems *)

(** What a program sees of a matrix through its accessors. *)
Definition holds (matrix : Matrix) (rows : list (list (list Z))) : Prop :=
  MatrixSize matrix = zlen rows /\
  (forall i, zlen rows <= i -> MatrixGet matrix i = Ret None) /\
  forall i fields, rows !! i = Some fields ->
    exists row, MatrixGet matrix (Z.of_nat i) = Ret (Some row) /\ MatrixRowSize row = zlen fields /\
      (forall j, zlen fields <= j -> MatrixRowGet row j = Ret None) /\
      forall j f, fields !! j = Some f -> exists field, MatrixRowGet row (Z.of_nat j) = Ret (Some field) /\ MatrixFieldValue field = f ++ [0].

Lemma vector_size {A} (v : vector A) l : vector_ok v l -> v_count v = zlen l.
Proof. now intros []. Qed.

Lemma matrix_holds matrix rows : matrix_ok matrix rows -> holds matrix rows.
Proof.
  intros (rs & Hv & Hf). pose proof (list.Forall2_length _ _ _ Hf) as Hlen. assert (Hzl : zlen rs = zlen rows) by (unfold zlen; lia).
  split; [unfold MatrixSize; now rewrite (vector_size _ _ Hv)|]. split.
  - intros i Hi. unfold MatrixGet, vector_get. rewrite (vector_size _ _ Hv). ztests; reflexivity.
  - intros i fields Hi. destruct (Forall2_lookup_r _ _ _ _ _ Hf Hi) as (row & Hrow & Hr). exists row.
    split; [unfold MatrixGet; rewrite (vector_get_ok _ rs) by (exact Hv || lia); now rewrite Nat2Z.id, Hrow|].
    assert (Hsz : v_count row = zlen fields) by (rewrite (vector_size _ _ Hr); unfold zlen; now rewrite length_map).
    split; [exact Hsz|]. split.
    + intros j Hj. unfold MatrixRowGet, vector_get. ztests; reflexivity.
    + intros j f Hj. exists (f ++ [0]). split; [|reflexivity]. unfold MatrixRowGet. rewrite (vector_get_ok _ _ _ Hr) by lia.
      now rewrite Nat2Z.id, lookup_map, Hj.
Qed.
End Parse.

Lemma start_head sep_field sep_row : at_head sep_field sep_row (repeat 0 (Z.to_nat BUFF_SIZE)) 0 0 0 MatrixNew MatrixRowNew ([], [], []).
Proof.
  assert (He : load_bytes (repeat 0 (Z.to_nat BUFF_SIZE)) 0 0 = Ret []).
  { apply load_bytes_empty. split; [lia|]. apply zlen_nonneg. }
  constructor; try reflexivity; try exact He.
  - exists []. split; [apply vector_new_ok|constructor].
  - apply vector_new_ok.
Qed.

Lemma weight_start : weight ([], [], []) = 0.
Proof. reflexivity. Qed.

(** C21: [LoadMatrix] reads exactly the table in the file.  When every field is shorter than the buffer it
    returns a matrix whose accessors show, for every row and field, the parts of the file between the
    separators, wherever the blocks of 4096 bytes were cut; beyond the last row and the last field they
    answer null.  When a field fills the buffer it never returns. *)
Theorem load_matrix_table sep_field sep_row file : zlen file < 2 ^ 60 ->
  if fields_short sep_field sep_row 0 file then
    exists matrix, LoadMatrix sep_field sep_row (load_fuel file) (Some file) = Ret (Some matrix) /\ holds matrix (table sep_field sep_row file)
  else forall fuel, LoadMatrix sep_field sep_row fuel (Some file) = NoFuel.
Proof.
  intros Hl. pose proof (start_head sep_field sep_row) as Hat. destruct (fields_short sep_field sep_row 0 file) eqn:Hs.
  - assert (Hw : weight ([], [], []) + zlen file < 2 ^ 60) by (rewrite weight_start; exact Hl).
    destruct (load_loop_ok sep_field sep_row (load_fuel file) file _ _ _ _ _ _ _ Hat Hw Hs ltac:(unfold load_fuel; lia))
      as (buff & ptr & strlen & matrix & row & He & Hf & Hm & Hr).
    unfold LoadMatrix. rewrite He. cbn [mbind outcome_bind]. destruct (load_bytes_length _ _ _ _ Hf) as (Hlen & _).
    rewrite <- (table_from_nil sep_field sep_row file). pose proof (parse_end_table sep_field sep_row file [] [] []) as Hend. cbn [app] in Hend.
    rewrite <- Hend. pose proof (weight_fold sep_field sep_row file ([], [], [])) as Hwf. set (p := foldl (parse_step sep_field sep_row) ([], [], []) file) in *.
    rewrite weight_start in Hwf. pose proof (weight_bounds p) as [Hb1 Hb2].
    assert (Hrow : exists row', (if 0 <? strlen then field ← MatrixFieldNew buff ptr strlen; MatrixRowPush row field else Ret row) = Ret row' /\
      row_ok row' (match parse_field p with [] => parse_row p | f => parse_row p ++ [f] end)).
    { destruct (parse_field p) as [|x f] eqn:Ep; autorewrite with cserver in Hlen.
      - ztests. eauto.
      - pose proof (zlen_nonneg f). ztests. rewrite (field_new _ _ _ _ Hf). cbn [mbind outcome_bind]. apply row_push; [exact Hr|lia]. }
    destruct Hrow as (row' & -> & Hr'). cbn [mbind outcome_bind]. unfold parse_end.
    set (cur := match parse_field p with [] => _ | _ => _ end) in *. rewrite (vector_size _ _ Hr'). unfold zlen at 1. rewrite length_map.
    destruct cur as [|c cur]; cbn [length].
    + exists matrix. split; [reflexivity|]. now apply matrix_holds.
    + destruct (Z.ltb_spec 0 (Z.of_nat (S (length cur)))); [|lia].
      destruct (matrix_push matrix (parse_rows p) row' _ Hm Hr') as (matrix' & -> & Hm'); [lia|]. exists matrix'. split; [reflexivity|].
      now apply matrix_holds.
  - intros fuel. unfold LoadMatrix. rewrite (load_loop_diverges sep_field sep_row fuel file _ _ _ _ _ _ _ Hat); [reflexivity| | |exact Hs].
    + rewrite weight_start. exact Hl.
    + cbn. unfold zlen, BUFF_SIZE. cbn. lia.
Qed.

(** "ab,,c\n" and "d", of which the last line has no end *)
Definition sample_file : list Z := [97; 98; 44; 44; 99; 10; 100].

Lemma load_matrix_table_witness :
  zlen sample_file < 2 ^ 60 /\
  (exists matrix, LoadMatrix 44 10 (load_fuel sample_file) (Some sample_file) = Ret (Some matrix) /\ holds matrix [[[97; 98]; []; [99]]; [[100]]]) /\
  (forall fuel, LoadMatrix 44 10 fuel (Some (repeat 97 5000)) = NoFuel).
Proof.
  split; [vm_compute; reflexivity|]. split.
  - exact (load_matrix_table 44 10 sample_file ltac:(vm_compute; reflexivity)).
  - pose proof (load_matrix_table 44 10 (repeat 97 5000) ltac:(vm_compute; reflexivity)) as Hd.
    assert (E : fields_short 44 10 0 (repeat 97 5000) = false) by (vm_compute; reflexivity). rewrite E in Hd. exact Hd.
Defined.

(** ** Writing a table and reading it *)

(** The file of a table: the fields of a row between [sep_field], a [sep_row] behind every row. *)
Fixpoint join (sep : Z) (fields : list (list Z)) : list Z :=
  match fields with [] => [] | [f] => f | f :: fields' => f ++ sep :: join sep fields' end.
Definition render (sep_field sep_row : Z) (rows : list (list (list Z))) : list Z :=
  concat (map (fun fields => join sep_field fields ++ [sep_row]) rows).

Lemma split_app sep f l : sep ∉ f -> split sep (f ++ sep :: l) = f :: split sep l.
Proof.
  induction f as [|b f IH]; cbn [app split]; intros Hf; [now rewrite Z.eqb_refl|]. rewrite not_elem_of_cons in Hf.
  destruct (Z.eqb_spec b sep); [intuition congruence|]. now rewrite IH by tauto.
Qed.
Lemma split_one sep f : sep ∉ f -> split sep f = [f].
Proof.
  induction f as [|b f IH]; cbn [split]; intros Hf; [reflexivity|]. rewrite not_elem_of_cons in Hf.
  destruct (Z.eqb_spec b sep); [intuition congruence|]. now rewrite IH by tauto.
Qed.
Lemma split_join sep fields : fields <> [] -> (forall f, f ∈ fields -> sep ∉ f) -> split sep (join sep fields) = fields.
Proof.
  induction fields as [|f [|g fields] IH]; intros Hne Hf; [congruence|apply split_one, Hf; left|].
  change (join sep (f :: g :: fields)) with (f ++ sep :: join sep (g :: fields)). rewrite split_app by (apply Hf; left). f_equal.
  apply IH; [discriminate|]. intros h Hh. apply Hf. now right.
Qed.

Lemma join_clean sep x fields : x <> sep -> (forall f, f ∈ fields -> x ∉ f) -> x ∉ join sep fields.
Proof.
  intros Hx. induction fields as [|f [|g fields] IH]; intros Hf; [apply not_elem_of_nil|apply Hf; left|].
  change (join sep (f :: g :: fields)) with (f ++ sep :: join sep (g :: fields)). rewrite elem_of_app, elem_of_cons.
  intros [Hin|[Hin|Hin]]; [|congruence|].
  - revert Hin. apply Hf. left.
  - revert Hin. apply IH. intros h Hh. apply Hf. now right.
Qed.

(** Reading what was written: the table of the rendered rows is the rows. *)
Lemma table_render sep_field sep_row rows : sep_field <> sep_row -> (forall r, r ∈ rows -> r <> []) ->
  (forall r f, r ∈ rows -> f ∈ r -> (sep_field ∉ f) /\ (sep_row ∉ f)) -> table sep_field sep_row (render sep_field sep_row rows) = rows.
Proof.
  intros Hs Hne Hf. unfold table, rows_of.
  assert (E : split sep_row (render sep_field sep_row rows) = map (join sep_field) rows ++ [[]]).
  { induction rows as [|r rows IH]; [reflexivity|]. unfold render. cbn [map concat]. rewrite <- app_assoc. cbn [app]. rewrite split_app.
    - cbn [app]. f_equal. apply IH; [intros r' Hr; apply Hne; now right|intros r' f Hr; apply Hf; now right].
    - apply join_clean; [congruence|]. intros f Hin. apply (Hf r f ltac:(left) Hin). }
  rewrite E, removelast_last, last_snoc. cbn [split last_row]. unfold last_row. cbn [list.last removelast]. rewrite app_nil_r.
  clear E. induction rows as [|r rows IH]; [reflexivity|]. cbn [map]. rewrite split_join.
  - f_equal. apply IH; [intros r' Hr; apply Hne; now right|intros r' f Hr; apply Hf; now right].
  - apply Hne. left.
  - intros f Hin. apply (Hf r f ltac:(left) Hin).
Qed.
