(* ===== verification/Memory.v ===== *)
(** * The page allocator: [framework/memory.c]

    A heap hands out blocks of its current page and takes a new page when the block does not fit; nothing is
    released before the whole heap.  Addresses are numbers; [malloc] is an argument. *)
From S2P Require Import Prelude.

(** [int] addition and doubling, undefined on overflow *)
Definition int_of (z : Z) : outcome Z := if (- 2 ^ 31 <=? z) && (z <? 2 ^ 31) then Ret z else Undef.

Lemma int_of_ok z : - 2 ^ 31 <= z < 2 ^ 31 -> int_of z = Ret z.
Proof. intros Hz. unfold int_of. ztests. reflexivity. Qed.

(** [sizeof(struct heap_page)] *)
Definition sizeof_heap_page : Z := 8.

(** The pages, the current one first: address and capacity. *)
Record heap := mk_heap { hp_pages : list (Z * Z); hp_size : Z; hp_used : Z }.

(** [while (cap < pagesize) cap *= 2;] *)
Fixpoint cap_loop (fuel : nat) (cap pagesize : Z) : outcome Z :=
  match fuel with
  | O => NoFuel
  | S fuel' => if cap <? pagesize then cap ← int_of (cap * 2); cap_loop fuel' cap pagesize else Ret cap
  end.

Section Heap.
(** [malloc] given the pages in use and the number of bytes *)
Context (malloc : list (Z * Z) -> Z -> Z).

Definition _agMH_new (pages : list (Z * Z)) (pagesize : Z) : outcome heap :=
  cap ← cap_loop 32 1024 pagesize;
  let p := malloc pages (u64 (sizeof_heap_page + cap)) in
  if p =? 0 then Undef else Ret (mk_heap [(p, cap)] cap 0).

(** The pages in the order they are released. *)
Definition _agMH_delete (h : heap) : list Z := map fst (hp_pages h).

Definition _agMH_alloc (h : heap) (size : Z) : outcome (heap * Z) :=
  s ← int_of (size + 3);
  let size := Z.land s (Z.lnot 3) in
  free ← int_of (hp_size h - hp_used h);
  if free <? size then
    let cap := if size <? hp_size h then hp_size h else size in
    let p := malloc (hp_pages h) (u64 (sizeof_heap_page + cap)) in
    if p =? 0 then Undef
    else Ret (mk_heap ((p, cap) :: hp_pages h) (hp_size h) size, p + sizeof_heap_page)
  else
    '(current, _) ← deref (head (hp_pages h));
    used ← int_of (hp_used h + size);
    Ret (mk_heap (hp_pages h) (hp_size h) used, current + sizeof_heap_page + hp_used h).

(** ** Blocks *)

(** A block is its address and size. *)
Definition disjoint (a b : Z * Z) : Prop := fst a + snd a <= fst b \/ fst b + snd b <= fst a.
Fixpoint apart (l : list (Z * Z)) : Prop :=
  match l with [] => True | x :: l' => Forall (disjoint x) l' /\ apart l' end.

(** The bytes [malloc] gave for a page, and those of it that blocks are taken from. *)
Definition page_block (p : Z * Z) : Z * Z := (fst p, sizeof_heap_page + snd p).
Definition within (b : Z * Z) (p : Z * Z) (n : Z) : Prop :=
  fst p + sizeof_heap_page <= fst b /\ fst b + snd b <= fst p + sizeof_heap_page + n.

(** [malloc] answers a new block, apart from the pages in use, and aligned; it does not fail. *)
Hypothesis malloc_new : forall pages n, 0 < n ->
  0 < malloc pages n /\ malloc pages n mod 4 = 0 /\ Forall (fun p => disjoint (malloc pages n, n) (page_block p)) pages.

(** [bs] are the blocks handed out so far, the last first. *)
Record heap_ok (h : heap) (bs : list (Z * Z)) : Prop := {
  hk_size : 1024 <= hp_size h < 2 ^ 31 /\ hp_size h mod 4 = 0;
  hk_current : exists cur cap rest, hp_pages h = (cur, cap) :: rest /\ 0 <= hp_used h <= cap /\ hp_used h mod 4 = 0 /\
    forall b, b ∈ bs -> within b (cur, cap) (hp_used h) \/ exists p, p ∈ rest /\ within b p (snd p);
  hk_caps : forall p, p ∈ hp_pages h -> hp_size h <= snd p < 2 ^ 31 /\ 0 < fst p /\ fst p mod 4 = 0;
  hk_pages : apart (map page_block (hp_pages h));
  hk_blocks : apart bs;
  hk_aligned : forall b, b ∈ bs -> 0 < fst b /\ fst b mod 4 = 0 /\ 0 <= snd b }.

Lemma disjoint_sym a b : disjoint a b -> disjoint b a.
Proof. unfold disjoint. tauto. Qed.

Lemma round4 s : 0 <= s -> let r := Z.land (s + 3) (Z.lnot 3) in s <= r <= s + 3 /\ r mod 4 = 0.
Proof.
  intros Hs r. assert (Hr : r = (s + 3) / 4 * 4).
  { unfold r. rewrite <- Z.ldiff_land. change 3 with (Z.ones 2) at 2. rewrite Z.ldiff_ones_r by lia.
    now rewrite Z.shiftl_mul_pow2, Z.shiftr_div_pow2 by lia. }
  split; [|rewrite Hr; apply Z.mod_mul; lia]. pose proof (Z.div_mod (s + 3) 4). pose proof (Z.mod_pos_bound (s + 3) 4). lia.
Qed.

Lemma within_disjoint b p n c q m : within b p n -> within c q m -> disjoint (page_block p) (page_block q) ->
  n <= snd p -> m <= snd q -> disjoint b c.
Proof. unfold within, disjoint, page_block, sizeof_heap_page. cbn. lia. Qed.

Lemma within_mono b p n m : within b p n -> n <= m -> within b p m.
Proof. unfold within. lia. Qed.

Lemma apart_in l a b i j : apart l -> l !! i = Some a -> l !! j = Some b -> i <> j -> disjoint a b.
Proof.
  revert i j. induction l as [|x l IH]; intros i j; [discriminate|]. intros [Hf Ha] Hi Hj Hne. rewrite list.Forall_forall in Hf.
  destruct i as [|i], j as [|j]; cbn in Hi, Hj; [congruence| | |].
  - injection Hi as <-. apply Hf. now apply list_elem_of_lookup_2 in Hj.
  - injection Hj as <-. apply disjoint_sym, Hf. now apply list_elem_of_lookup_2 in Hi.
  - apply (IH i j); try assumption. congruence.
Qed.

Lemma apart_head x l y : apart (map page_block (x :: l)) -> y ∈ l -> disjoint (page_block x) (page_block y).
Proof. intros [Hf _] Hy. rewrite list.Forall_forall in Hf. apply Hf. now apply list_elem_of_fmap_2. Qed.

Lemma cap_loop_spec pagesize : pagesize <= 2 ^ 30 -> forall k, (k <= 20)%nat ->
  exists cap, cap_loop (k + 12) (2 ^ (30 - Z.of_nat k)) pagesize = Ret cap /\ 2 ^ (30 - Z.of_nat k) <= cap <= 2 ^ 30 /\ pagesize <= cap /\ cap mod 4 = 0.
Proof.
  intros Hp. assert (Hmod : forall k, (k <= 20)%nat -> 2 ^ (30 - Z.of_nat k) mod 4 = 0).
  { intros k Hk. replace (30 - Z.of_nat k) with (28 - Z.of_nat k + 2) by lia. rewrite Z.pow_add_r by lia. change (2 ^ 2) with 4. apply Z.mod_mul. lia. }
  induction k as [|k IH]; intros Hk.
  - exists (2 ^ 30). cbn [cap_loop plus]. change (30 - Z.of_nat 0) with 30. ztests. repeat split; try lia.
  - cbn [cap_loop plus]. destruct (Z.ltb_spec (2 ^ (30 - Z.of_nat (S k))) pagesize).
    + assert (E : 2 ^ (30 - Z.of_nat (S k)) * 2 = 2 ^ (30 - Z.of_nat k)).
      { replace (30 - Z.of_nat k) with (Z.succ (30 - Z.of_nat (S k))) by lia. rewrite Z.pow_succ_r by lia. lia. }
      assert (Hle : 2 ^ (30 - Z.of_nat k) <= 2 ^ 30) by (apply Z.pow_le_mono_r; lia).
      assert (Hpos : 0 < 2 ^ (30 - Z.of_nat (S k))) by (apply Z.pow_pos_nonneg; lia).
      rewrite E, int_of_ok by lia. cbn [mbind outcome_bind]. destruct (IH ltac:(lia)) as (cap & He & Hc1 & Hc2 & Hc3).
      exists cap. split; [exact He|]. lia.
    + eexists. split; [reflexivity|]. split; [|split; [lia|now apply Hmod]]. split; [lia|]. apply Z.pow_le_mono_r; lia.
Qed.

Lemma new_ok pages pagesize : pagesize <= 2 ^ 30 -> exists h, _agMH_new pages pagesize = Ret h /\ heap_ok h [] /\ pagesize <= hp_size h.
Proof.
  intros Hp. destruct (cap_loop_spec pagesize Hp 20 ltac:(lia)) as (cap & He & Hc & Hps & Hm).
  change (2 ^ (30 - Z.of_nat 20)) with 1024 in *. unfold _agMH_new. cbn [plus] in He. rewrite He. cbn [mbind outcome_bind].
  rewrite u64_small by (unfold sizeof_heap_page; lia).
  destruct (malloc_new pages (sizeof_heap_page + cap)) as (Hn & Ha & _); [unfold sizeof_heap_page; lia|].
  destruct (Z.eqb_spec (malloc pages (sizeof_heap_page + cap)) 0); [lia|]. eexists. split; [reflexivity|]. split; [|exact Hps]. constructor; cbn [hp_size hp_used hp_pages].
  - lia.
  - do 3 eexists. split; [reflexivity|]. split; [lia|]. split; [reflexivity|]. intros b Hb. inversion Hb.
  - intros p Hin. apply list_elem_of_singleton in Hin as ->. cbn. lia.
  - cbn. split; [constructor|exact I].
  - exact I.
  - intros b Hb. inversion Hb.
Qed.

(** A block is apart from all others, inside a page and aligned. *)
Lemma alloc_ok h bs size : heap_ok h bs -> 0 <= size < 2 ^ 31 - 3 ->
  exists h' p, _agMH_alloc h size = Ret (h', p) /\ heap_ok h' ((p, size) :: bs) /\ hp_size h' = hp_size h /\
    (exists new, hp_pages h' = new ++ hp_pages h).
Proof.
  intros [[Hsz Hszm] (cur & cap & rest & Hpg & Hused & Husedm & Hin) Hcaps Hpages Hblocks Hal] Hs.
  destruct (round4 size ltac:(lia)) as [Hr Hrm]. unfold _agMH_alloc. set (r := Z.land (size + 3) (Z.lnot 3)) in *.
  rewrite (int_of_ok (size + 3)) by lia. cbn [mbind outcome_bind]. fold r.
  assert (Hcur : hp_size h <= cap < 2 ^ 31 /\ 0 < cur /\ cur mod 4 = 0) by (apply (Hcaps (cur, cap)); rewrite Hpg; left).
  rewrite (int_of_ok (hp_size h - hp_used h)) by lia. cbn [mbind outcome_bind].
  destruct (Z.ltb_spec (hp_size h - hp_used h) r) as [Hnew|Hfit].
  - cbv zeta. set (c := if r <? hp_size h then hp_size h else r). assert (Hc : hp_size h <= c < 2 ^ 31 /\ r <= c) by (unfold c; ztests).
    rewrite u64_small by (unfold sizeof_heap_page; lia).
    destruct (malloc_new (hp_pages h) (sizeof_heap_page + c)) as (Hn & Ha & Hd); [unfold sizeof_heap_page; lia|].
    set (p := malloc _ _) in *. destruct (Z.eqb_spec p 0); [lia|]. do 2 eexists. split; [reflexivity|].
    assert (Hpd : apart (map page_block ((p, c) :: hp_pages h))).
    { split; [|exact Hpages]. apply list.Forall_forall. intros b Hb. apply list_elem_of_fmap in Hb as (q & -> & Hq).
      rewrite list.Forall_forall in Hd. exact (Hd q Hq). }
    assert (Hold : forall b, b ∈ bs -> exists q, q ∈ hp_pages h /\ within b q (snd q)).
    { intros b Hb. destruct (Hin b Hb) as [Hw|(q & Hq & Hw)]; rewrite Hpg.
      - exists (cur, cap). split; [left|]. exact (within_mono _ _ _ _ Hw (proj2 Hused)).
      - exists q. split; [now right|exact Hw]. }
    split; [|split; [reflexivity|now exists [(p, c)]]]. constructor; cbn [hp_size hp_used hp_pages].
    + lia.
    + exists p, c, (hp_pages h). split; [reflexivity|]. split; [lia|]. split; [exact Hrm|]. intros b Hb. apply elem_of_cons in Hb as [->|Hb]; [left|right; auto].
      unfold within. cbn. lia.
    + intros q Hq. apply elem_of_cons in Hq as [->|Hq]; [cbn; lia|auto].
    + exact Hpd.
    + split; [|exact Hblocks]. apply list.Forall_forall. intros b Hb. destruct (Hold b Hb) as (q & Hq & Hw).
      apply (within_disjoint _ (p, c) r _ q (snd q)); [unfold within; cbn; lia|exact Hw|exact (apart_head _ _ _ Hpd Hq)|cbn; lia|lia].
    + intros b Hb. apply elem_of_cons in Hb as [->|Hb]; [|auto]. cbn. unfold sizeof_heap_page. clear -Hn Ha Hs. split; [lia|]. split; [|lia]. Z.div_mod_to_equations. lia.
  - rewrite Hpg. cbn [head deref mbind outcome_bind]. rewrite int_of_ok by lia. cbn [mbind outcome_bind]. rewrite <- Hpg.
    do 2 eexists. split; [reflexivity|]. split; [|split; [reflexivity|now exists []]]. constructor; cbn [hp_size hp_used hp_pages]; try assumption.
    + lia.
    + exists cur, cap, rest. split; [exact Hpg|]. split; [lia|]. split; [rewrite Z.add_mod, Husedm, Hrm by lia; reflexivity|].
      intros b Hb. apply elem_of_cons in Hb as [->|Hb]; [left; unfold within; cbn; lia|].
      destruct (Hin b Hb) as [Hw|Hq]; [left; apply (within_mono _ _ _ _ Hw); lia|now right].
    + split; [|exact Hblocks]. apply list.Forall_forall. intros b Hb. destruct (Hin b Hb) as [Hw|(q & Hq & Hw)].
      * right. unfold within in Hw. cbn in *. lia.
      * apply (within_disjoint _ (cur, cap) cap _ q (snd q)); [unfold within; cbn; lia|exact Hw| |cbn; lia|lia].
        rewrite Hpg in Hpages. exact (apart_head _ _ _ Hpages Hq).
    + intros b Hb. apply elem_of_cons in Hb as [->|Hb]; [|auto]. cbn. unfold sizeof_heap_page.
      destruct Hcur as (_ & Hc0 & Hcm). clear -Hc0 Hcm Hused Husedm Hs. split; [lia|]. split; [|lia]. Z.div_mod_to_equations. lia.
Qed.

(** A sequence of allocations, and their blocks, the last first. *)
Fixpoint allocs (h : heap) (sizes : list Z) (bs : list (Z * Z)) : outcome (heap * list (Z * Z)) :=
  match sizes with
  | [] => Ret (h, bs)
  | size :: sizes' => '(h, p) ← _agMH_alloc h size; allocs h sizes' ((p, size) :: bs)
  end.

Lemma allocs_ok sizes : forall h bs, heap_ok h bs -> (forall s, s ∈ sizes -> 0 <= s < 2 ^ 31 - 3) ->
  exists h' bs', allocs h sizes bs = Ret (h', bs') /\ heap_ok h' bs' /\ map snd bs' = rev sizes ++ map snd bs.
Proof.
  induction sizes as [|size sizes IH]; intros h bs Hok Hs; cbn [allocs rev]; [eauto|].
  destruct (alloc_ok h bs size Hok) as (h1 & p & -> & Hok1 & _ & _); [apply Hs; left|]. cbn [mbind outcome_bind].
  destruct (IH h1 _ Hok1) as (h' & bs' & -> & Hok' & Hm); [intros s Hin; apply Hs; now right|]. exists h', bs'.
  split; [reflexivity|]. split; [exact Hok'|]. rewrite Hm, <- app_assoc. reflexivity.
Qed.

(** The page allocator is safe: from a heap with pages of up to 2^30 bytes, every sequence of allocations
    of up to [INT_MAX - 3] bytes succeeds; the blocks have the sizes asked for, are aligned to 4 bytes, lie
    each inside one page and never overlap, and [_agMH_delete] releases every page, each once. *)
Theorem heap_blocks_disjoint pages pagesize sizes : pagesize <= 2 ^ 30 -> (forall s, s ∈ sizes -> 0 <= s < 2 ^ 31 - 3) ->
  exists h0 h bs, _agMH_new pages pagesize = Ret h0 /\ allocs h0 sizes [] = Ret (h, bs) /\
    map snd bs = rev sizes /\ apart bs /\
    (forall b, b ∈ bs -> fst b mod 4 = 0 /\ exists p, p ∈ hp_pages h /\ within b p (snd p)) /\
    _agMH_delete h = map fst (hp_pages h) /\ apart (map page_block (hp_pages h)).
Proof.
  intros Hp Hs. destruct (new_ok pages pagesize Hp) as (h0 & Hn & Hok0 & _). destruct (allocs_ok sizes h0 [] Hok0 Hs) as (h & bs & Ha & Hok & Hm).
  exists h0, h, bs. rewrite app_nil_r in Hm. pose proof Hok as [_ (cur & cap & rest & Hpg & Hu & _ & Hin) _ Hpages Hblocks Hal].
  split; [exact Hn|]. split; [exact Ha|]. split; [exact Hm|]. split; [exact Hblocks|]. split; [|auto].
  intros b Hb. split; [now apply Hal|]. rewrite Hpg. destruct (Hin b Hb) as [Hw|(q & Hq & Hw)].
  - exists (cur, cap). split; [left|]. apply (within_mono _ _ _ _ Hw). cbn. lia.
  - exists q. split; [now right|exact Hw].
Qed.
End Heap.

(** A [malloc] that takes each block behind all others. *)
Definition bump_malloc (pages : list (Z * Z)) (n : Z) : Z :=
  4 * (1 + foldr (fun p m => Z.max m (fst p + sizeof_heap_page + Z.abs (snd p))) 0 pages).

Lemma bump_malloc_new pages n : 0 < n ->
  0 < bump_malloc pages n /\ bump_malloc pages n mod 4 = 0 /\ Forall (fun p => disjoint (bump_malloc pages n, n) (page_block p)) pages.
Proof.
  intros Hn. unfold bump_malloc. set (f := fun p m => _). assert (H0 : forall l, 0 <= foldr f 0 l).
  { induction l as [|x l IH]; [cbn; lia|]. change (foldr f 0 (x :: l)) with (Z.max (foldr f 0 l) (fst x + sizeof_heap_page + Z.abs (snd x))). lia. }
  assert (Hle : forall l p, p ∈ l -> fst p + sizeof_heap_page + Z.abs (snd p) <= foldr f 0 l).
  { induction l as [|x l IH]; intros p Hp; [inversion Hp|]. change (foldr f 0 (x :: l)) with (Z.max (foldr f 0 l) (fst x + sizeof_heap_page + Z.abs (snd x))).
    apply elem_of_cons in Hp as [->|Hp]; [lia|]. specialize (IH p Hp). lia. }
  specialize (H0 pages). split; [lia|]. split; [rewrite Z.mul_comm; apply Z.mod_mul; lia|]. apply list.Forall_forall. intros p Hp.
  specialize (Hle pages p Hp). right. unfold page_block. cbn [fst snd]. lia.
Qed.

Lemma heap_blocks_disjoint_witness :
  exists h0 h bs, _agMH_new bump_malloc [] 4096 = Ret h0 /\ allocs bump_malloc h0 [10; 5000; 4080; 6] [] = Ret (h, bs) /\
    apart bs /\ length (hp_pages h) = 3%nat.
Proof.
  destruct (heap_blocks_disjoint bump_malloc bump_malloc_new [] 4096 [10; 5000; 4080; 6]) as (h0 & h & bs & Hn & Ha & _ & Hd & _).
  - lia.
  - intros s Hs. rewrite !elem_of_cons in Hs. destruct Hs as [->|[->|[->|[->|Hs]]]]; try lia. inversion Hs.
  - exists h0, h, bs. split; [exact Hn|]. split; [exact Ha|]. split; [exact Hd|].
    vm_compute in Hn. injection Hn as <-. vm_compute in Ha. injection Ha as <- _. reflexivity.
Defined.
