(* ===== verification/StringCache.v ===== *)
(** * Interned strings: [world/stringCache.c]

    [agSC_get] answers for every string one address at which a copy of it stays for good: a string map
    over copies in a page allocator.  Memory is a map from addresses to bytes. *)
From S2P Require Import Prelude AgMap Memory.

(** Bytes written from an address on, and the string at an address. *)
Fixpoint write_bytes (m : gmap Z Z) (p : Z) (bs : list Z) : gmap Z Z :=
  match bs with [] => m | b :: bs' => write_bytes (<[p := b]> m) (p + 1) bs' end.
Fixpoint read_string (fuel : nat) (m : gmap Z Z) (p : Z) : outcome (list Z) :=
  match fuel with
  | O => NoFuel
  | S fuel' => b ← deref (m !! p); if b =? 0 then Ret [] else s ← read_string fuel' m (p + 1); Ret (b :: s)
  end.

(** The variables of the file once the cache is in use. *)
Record string_cache := mk_cache { sc_m : agmap (list Z); sc_h : heap; sc_mem : gmap Z Z }.

Section Cache.
Context (malloc : list (Z * Z) -> Z -> Z).

(** [str] is a string without its terminating zero. *)
Definition agSC_get (sc : option string_cache) (str : list Z) (len : Z) : outcome (string_cache * Z) :=
  sc ← match sc with
       | Some sc => Ret sc
       | None => h ← _agMH_new malloc [] 4096; Ret (mk_cache _agMap_new h ∅)
       end;
  ptr ← _agMap_sp_get (sc_m sc) str;
  if ptr =? 0 then
    let len := if len =? 0 then zlen str else len in
    '(h, ptr) ← _agMH_alloc malloc (sc_h sc) (i32 (len + 1));
    if zlen str + 1 <? len then Undef
    else
      let text := take (Z.to_nat len) (str ++ [0]) in
      let mem := write_bytes (sc_mem sc) ptr (text ++ [0]) in
      key ← read_string (S (length text)) mem ptr;
      '(m, _) ← _agMap_sp_set (sc_m sc) key ptr;
      Ret (mk_cache m h mem, ptr)
  else Ret (sc, ptr).

(** The pages that are released. *)
Definition agSC_release (sc : option string_cache) : option string_cache * list Z :=
  (None, match sc with Some sc => _agMH_delete (sc_h sc) | None => [] end).

(** ** Strings in memory *)

(** The string [s] with its end is at [p]. *)
Definition text_at (m : gmap Z Z) (p : Z) (s : list Z) : Prop := forall i b, (s ++ [0]) !! i = Some b -> m !! (p + Z.of_nat i) = Some b.

Lemma write_other bs : forall m p a, a < p \/ p + zlen bs <= a -> write_bytes m p bs !! a = m !! a.
Proof.
  induction bs as [|b bs IH]; intros m p a Ha; [reflexivity|]. autorewrite with cserver in Ha. pose proof (zlen_nonneg bs). cbn [write_bytes].
  rewrite IH by lia. apply lookup_insert_ne. lia.
Qed.
Lemma write_there bs : forall m p i b, bs !! i = Some b -> write_bytes m p bs !! (p + Z.of_nat i) = Some b.
Proof.
  induction bs as [|x bs IH]; intros m p i b Hi; [discriminate|]. cbn [write_bytes]. destruct i as [|i].
  - injection Hi as ->. rewrite write_other by lia. replace (p + Z.of_nat 0) with p by lia. apply lookup_insert_eq.
  - replace (p + Z.of_nat (S i)) with (p + 1 + Z.of_nat i) by lia. now apply IH.
Qed.

Lemma text_written m p s : text_at (write_bytes m p (s ++ [0])) p s.
Proof. intros i b Hi. now apply write_there. Qed.

Lemma text_kept m p s q bs : text_at m p s -> disjoint (q, zlen bs) (p, zlen s + 1) -> text_at (write_bytes m q bs) p s.
Proof.
  intros Ht Hd i b Hi. rewrite write_other; [now apply Ht|]. apply lookup_lt_Some in Hi. rewrite length_app in Hi. cbn in Hi.
  unfold disjoint in Hd. cbn [fst snd] in Hd. unfold zlen in *. lia.
Qed.

Lemma read_text s : forall m p fuel, 0 ∉ s -> text_at m p s -> (length s < fuel)%nat -> read_string fuel m p = Ret s.
Proof.
  induction s as [|x s IH]; intros m p fuel Hz Ht Hf; (destruct fuel as [|fuel]; [cbn in Hf; lia|]); cbn [read_string].
  - pose proof (Ht 0%nat 0 eq_refl) as Hp. rewrite Z.add_0_r in Hp. now rewrite Hp.
  - pose proof (Ht 0%nat x eq_refl) as Hp. rewrite Z.add_0_r in Hp. rewrite Hp. cbn [deref mbind outcome_bind].
    rewrite not_elem_of_cons in Hz. destruct (Z.eqb_spec x 0) as [E|E]; [destruct Hz; congruence|].
    rewrite (IH m (p + 1) fuel); [reflexivity|tauto| |cbn in Hf; lia]. intros i b Hi. specialize (Ht (S i) b Hi).
    now replace (p + 1 + Z.of_nat i) with (p + Z.of_nat (S i)) by lia.
Qed.

(** A string is determined by its address. *)
Lemma text_unique m p s t : 0 ∉ s -> 0 ∉ t -> text_at m p s -> text_at m p t -> s = t.
Proof.
  intros Hs Ht H1 H2. pose proof (read_text s m p (S (length s + length t)) Hs H1 ltac:(lia)) as E1.
  rewrite (read_text t m p (S (length s + length t)) Ht H2) in E1 by lia. congruence.
Qed.

(** ** The cache *)

Hypothesis malloc_new : forall pages n, 0 < n ->
  0 < malloc pages n /\ malloc pages n mod 4 = 0 /\ Forall (fun p => disjoint (malloc pages n, n) (page_block p)) pages.

Record cache_ok (sc : string_cache) (bs : list (Z * Z)) : Prop := {
  cko_map : map_ok (sc_m sc);
  cko_counted : counted (sc_m sc);
  cko_heap : heap_ok (sc_h sc) bs;
  cko_entry : forall s p, to_gmap (sc_m sc) !! s = Some p -> (0 ∉ s) /\ (p, zlen s + 1) ∈ bs /\ text_at (sc_mem sc) p s }.

(** Strings for which the cache is asked: without zero bytes and with a length an [int] holds. *)
Definition request_ok (r : list Z * Z) : Prop := (0 ∉ fst r) /\ zlen (fst r) < 2 ^ 31 - 5 /\ (snd r = 0 \/ snd r = zlen (fst r)).

Lemma start_ok : exists h, _agMH_new malloc [] 4096 = Ret h /\ cache_ok (mk_cache _agMap_new h ∅) [].
Proof.
  destruct (new_ok malloc malloc_new [] 4096 ltac:(lia)) as (h & Hn & Hok & _). exists h. split; [exact Hn|].
  destruct (agMap_new_ok (K := list Z)) as (Hm & Hc & Hg). constructor; cbn [sc_m sc_h sc_mem]; try assumption.
  intros s p Hp. rewrite Hg, lookup_empty in Hp. discriminate.
Qed.

(** The cache a call works on: a new one the first time. *)
Definition current_cache (sc : option string_cache) (cur : string_cache) : Prop :=
  match sc with Some sc => cur = sc | None => exists h, _agMH_new malloc [] 4096 = Ret h /\ cur = mk_cache _agMap_new h ∅ end.

Lemma get_spec_strings sc cur bs r : current_cache sc cur -> cache_ok cur bs -> request_ok r -> Z.of_nat (size (to_gmap (sc_m cur))) < 2 ^ 61 ->
  exists sc' bs' p, agSC_get sc (fst r) (snd r) = Ret (sc', p) /\ cache_ok sc' bs' /\
    to_gmap (sc_m sc') = <[fst r := p]> (to_gmap (sc_m cur)) /\ p <> 0 /\
    (forall q, to_gmap (sc_m cur) !! fst r = Some q -> p = q).
Proof.
  destruct r as [str len]. cbn [fst snd]. intros Hcur [Hm Hc Hh He] (Hz & Hl & Hlen) Hsize. cbn [fst snd] in *. unfold agSC_get.
  assert (Hsc : match sc with Some sc => Ret sc | None => h ← _agMH_new malloc [] 4096; Ret (mk_cache _agMap_new h ∅) end = Ret cur).
  { unfold current_cache in Hcur. destruct sc as [sc|]; [now subst|]. destruct Hcur as (h & -> & ->). reflexivity. }
  rewrite Hsc. cbn [mbind outcome_bind]. unfold _agMap_sp_get. rewrite agMap_get_spec by exact Hm. cbn [mbind outcome_bind].
  pose proof (zlen_nonneg str). destruct (to_gmap (sc_m cur) !! str) as [q|] eqn:Eq; cbn [from_option id].
  - destruct (He _ _ Eq) as (_ & Hin & _). destruct (hk_aligned _ _ Hh _ Hin) as (Hq & _). cbn in Hq. destruct (Z.eqb_spec q 0); [lia|].
    exists cur, bs, q. split; [reflexivity|]. split; [now constructor|]. split; [now rewrite insert_id|]. split; [lia|]. congruence.
  - cbn [Z.eqb]. assert (Hle : (if len =? 0 then zlen str else len) = zlen str) by (destruct Hlen as [->| ->]; [reflexivity|]; destruct (Z.eqb_spec (zlen str) 0); lia).
    rewrite Hle, i32_small by lia. destruct (alloc_ok malloc malloc_new _ _ (zlen str + 1) Hh) as (h' & p & -> & Hh' & _ & _); [lia|].
    cbn [mbind outcome_bind]. destruct (Z.ltb_spec (zlen str + 1) (zlen str)); [lia|].
    rewrite take_app_le, take_ge by (unfold zlen; lia). set (mem := write_bytes _ _ _).
    rewrite (read_text str) by (assumption || lia || apply text_written). cbn [mbind outcome_bind].
    destruct (sp_set_spec (sc_m cur) str p Hm Hc Hsize) as (m' & -> & Hm' & Hc' & Hg'). cbn [mbind outcome_bind].
    destruct (hk_aligned _ _ Hh' (p, zlen str + 1)) as (Hp & _); [left|]. cbn in Hp. destruct (Z.eqb_spec p 0); [lia|].
    exists (mk_cache m' h' mem), ((p, zlen str + 1) :: bs), p. split; [reflexivity|]. split; [|split; [exact Hg'|split; [lia|congruence]]].
    constructor; cbn [sc_m sc_h sc_mem]; try assumption. intros s q Hs. rewrite Hg' in Hs. apply lookup_insert_Some in Hs as [[<- <-]|[Hne Hs]].
    + split; [exact Hz|]. split; [left|]. apply text_written.
    + destruct (He s q Hs) as (Hzs & Hin & Ht). split; [exact Hzs|]. split; [now right|]. apply text_kept; [exact Ht|].
      destruct (hk_blocks _ _ Hh') as [Hd _]. rewrite list.Forall_forall in Hd. autorewrite with cserver. exact (Hd _ Hin).
Qed.

(** A sequence of calls, and the addresses they answer. *)
Fixpoint gets (sc : option string_cache) (reqs : list (list Z * Z)) : outcome (option string_cache * list Z) :=
  match reqs with
  | [] => Ret (sc, [])
  | r :: reqs' => '(sc, p) ← agSC_get sc (fst r) (snd r); '(sc, ps) ← gets (Some sc) reqs'; Ret (sc, p :: ps)
  end.

Lemma gets_spec reqs : forall sc cur bs, current_cache sc cur -> cache_ok cur bs -> (forall r, r ∈ reqs -> request_ok r) ->
  Z.of_nat (size (to_gmap (sc_m cur))) + zlen reqs < 2 ^ 61 ->
  exists sc' ps last bs', gets sc reqs = Ret (sc', ps) /\ current_cache sc' last /\ cache_ok last bs' /\ length ps = length reqs /\
    (forall s p, to_gmap (sc_m cur) !! s = Some p -> to_gmap (sc_m last) !! s = Some p) /\
    (forall i r p, reqs !! i = Some r -> ps !! i = Some p -> to_gmap (sc_m last) !! fst r = Some p).
Proof.
  induction reqs as [|r reqs IH]; intros sc cur bs Hcur Hok Hr Hs; cbn [gets].
  - exists sc, [], cur, bs. split; [reflexivity|]. split; [exact Hcur|]. split; [exact Hok|]. split; [reflexivity|]. split; [auto|]. intros i; discriminate.
  - autorewrite with cserver in Hs. pose proof (zlen_nonneg reqs).
    destruct (get_spec_strings sc cur bs r Hcur Hok (Hr r ltac:(left)) ltac:(lia)) as (sc' & bs' & p & -> & Hok' & Hg & Hp & Hq). cbn [mbind outcome_bind].
    destruct (IH (Some sc') sc' bs' eq_refl Hok') as (sc2 & ps & last & bs2 & -> & Hc2 & Hok2 & Hlen & Hkeep & Hans).
    + intros r' Hr'. apply Hr. now right.
    + assert (size (to_gmap (sc_m sc')) <= S (size (to_gmap (sc_m cur))))%nat; [|lia]. rewrite Hg.
      destruct (to_gmap (sc_m cur) !! fst r) as [q|] eqn:E; [rewrite map_size_insert_Some by eauto; lia|rewrite map_size_insert_None by exact E; lia].
    + exists sc2, (p :: ps), last, bs2. cbn [mbind outcome_bind length]. split; [reflexivity|]. split; [exact Hc2|]. split; [exact Hok2|]. split; [lia|]. split.
      * intros s q Hs'. apply Hkeep. rewrite Hg. destruct (decide (s = fst r)) as [->|Hne]; [rewrite lookup_insert_eq; f_equal; auto|].
        now rewrite lookup_insert_ne by congruence.
      * intros [|i] r' q Hi Hpi; cbn in Hi, Hpi; [|now apply (Hans i)]. injection Hi as <-. injection Hpi as <-. apply Hkeep. rewrite Hg. apply lookup_insert_eq.
Qed.

(** Interning works: over any sequence of requests for strings from the empty cache, the call answers the
    same address for two requests exactly when their strings are equal, no address is null, and at the end
    every address still holds its string, whatever was stored after it. *)
Theorem strings_interned reqs : (forall r, r ∈ reqs -> request_ok r) -> zlen reqs < 2 ^ 61 -> reqs <> [] ->
  exists sc ps, gets None reqs = Ret (Some sc, ps) /\ length ps = length reqs /\
    (forall i r p, reqs !! i = Some r -> ps !! i = Some p ->
      p <> 0 /\ text_at (sc_mem sc) p (fst r) /\
      forall j r' p', reqs !! j = Some r' -> ps !! j = Some p' -> p = p' <-> fst r = fst r').
Proof.
  intros Hr Hl Hne. destruct start_ok as (h & Hh & Hok). destruct (gets_spec reqs None _ [] (ex_intro _ h (conj Hh eq_refl)) Hok Hr)
    as (sc' & ps & last & bs & He & Hcur & Hok' & Hlen & _ & Hans).
  { cbn [sc_m]. rewrite (proj2 (proj2 (agMap_new_ok (K := list Z)))), map_size_empty. cbn. lia. }
  assert (Hsc : sc' = Some last).
  { destruct reqs as [|r reqs]; [congruence|]. destruct sc' as [sc'|]; [now rewrite Hcur|]. exfalso. cbn [gets] in He.
    apply bind_ret_inv in He as ([sc1 p] & _ & He). apply bind_ret_inv in He as ([sc2 ps'] & Hg & He). injection He as -> _.
    clear -Hg. revert sc1 ps' Hg. induction reqs as [|r reqs IH]; intros sc1 ps' Hg; cbn [gets] in Hg; [discriminate|].
    apply bind_ret_inv in Hg as ([sc2 p2] & _ & Hg). apply bind_ret_inv in Hg as ([sc3 ps3] & Hg & He). injection He as -> _. eauto. }
  subst sc'. exists last, ps. split; [exact He|]. split; [exact Hlen|]. intros i r p Hi Hp. pose proof (Hans i r p Hi Hp) as Hg.
  destruct (cko_entry _ _ Hok' _ _ Hg) as (Hz & Hin & Ht). split.
  { destruct (hk_aligned _ _ (cko_heap _ _ Hok') _ Hin) as (Hpos & _). cbn in Hpos. lia. }
  split; [exact Ht|]. intros j r' p' Hj Hp'. pose proof (Hans j r' p' Hj Hp') as Hg'. split; intros E; [|congruence].
  destruct (cko_entry _ _ Hok' _ _ Hg') as (Hz' & _ & Ht'). rewrite <- E in Ht'. exact (text_unique _ _ _ _ Hz Hz' Ht Ht').
Qed.
End Cache.

Definition sample_requests : list (list Z * Z) := [([97; 98], 0); ([], 0); ([97; 98], 2); ([97], 1)].

Lemma strings_interned_witness :
  (forall r, r ∈ sample_requests -> request_ok r) /\
  exists sc ps, gets bump_malloc None sample_requests = Ret (Some sc, ps) /\ ps !! 0%nat = ps !! 2%nat /\
    read_string 10 (sc_mem sc) (nth 0 ps 0) = Ret [97; 98].
Proof.
  assert (Hr : forall r, r ∈ sample_requests -> request_ok r).
  { intros r Hr. unfold sample_requests in Hr. rewrite !elem_of_cons in Hr.
    destruct Hr as [->|[->|[->|[->|Hr]]]]; [..|inversion Hr]; (split; [apply (bool_decide_unpack _); vm_compute; exact I|split; [vm_compute; reflexivity|cbn; tauto]]). }
  split; [exact Hr|]. destruct (strings_interned bump_malloc bump_malloc_new sample_requests Hr) as (sc & ps & Hg & _ & _); [vm_compute; reflexivity|discriminate|].
  exists sc, ps. split; [exact Hg|]. vm_compute in Hg. injection Hg as <- <-. split; reflexivity.
Defined.
