(* ===== verification/Array.v ===== *)
(** * Arrays of pointers and pipes: [framework/array.c], [framework/pipe.c]

    An array has a fixed number of slots and counts the pointers in them.  A pipe is a buffer under other
    names. *)
From S2P Require Import Prelude Buffer.

Record array := mk_array { ar_s : Z; ar_c : Z; ar_p : list Z }.

Definition array_new (s : Z) : array := mk_array s 0 (repeat 0 (Z.to_nat s)).
Definition array_get (a : array) (i : Z) : outcome Z :=
  if i <? ar_s a then if i <? 0 then Undef else deref (ar_p a !! Z.to_nat i) else Ret 0.

(** The old pointer, or null when it is out of range or already there. *)
Definition array_set (a : array) (i p : Z) : outcome (array * Z) :=
  if ar_s a <=? i then Ret (a, 0)
  else
    r ← (if i <? 0 then Undef else deref (ar_p a !! Z.to_nat i));
    if r =? p then Ret (a, 0)
    else
      let c := if r =? 0 then ar_c a else u64 (ar_c a - 1) in
      let c := if p =? 0 then c else u64 (c + 1) in
      Ret (mk_array (ar_s a) c (<[Z.to_nat i := p]> (ar_p a)), r).

(** The first free slot from [i] on, or [-1]. *)
Fixpoint array_push_loop (fuel : nat) (a : array) (i : Z) (p : Z) : outcome (array * Z) :=
  if i <? ar_s a then
    match fuel with
    | O => NoFuel
    | S fuel' =>
      q ← deref (ar_p a !! Z.to_nat i);
      if q =? 0 then Ret (mk_array (ar_s a) (u64 (ar_c a + 1)) (<[Z.to_nat i := p]> (ar_p a)), i) else array_push_loop fuel' a (i + 1) p
    end
  else Ret (a, SIZE_MAX).
Definition array_push (a : array) (p : Z) : outcome (array * Z) :=
  if p =? 0 then Ret (a, SIZE_MAX) else array_push_loop (Z.to_nat (ar_s a)) a 0 p.

Definition array_size (a : array) : Z := ar_s a.
Definition array_count (a : array) : Z := ar_c a.
Definition array_full (a : array) : bool := ar_s a <=? ar_c a.
Definition array_empty (a : array) : bool := ar_c a =? 0.

(** A pipe is its buffer; the arguments [junk] and [realloc_ok] are those of the buffer. *)
Record pipe := mk_pipe { pi_buf : buffer }.
Definition agP_open (junk size : Z) : pipe := mk_pipe (_agB_new junk size).
Definition agP_size (p : pipe) : outcome Z := _agB_size (pi_buf p).
Definition agP_write (junk : Z) (realloc_ok : bool) (p : pipe) (data : list Z) : outcome (pipe * Z) :=
  '(b, r) ← _agB_write junk realloc_ok (pi_buf p) data; Ret (mk_pipe b, r).
Definition agP_buffer (junk : Z) (realloc_ok : bool) (p : pipe) (len : Z) : outcome (pipe * option Z) :=
  '(b, r) ← _agB_buffer junk realloc_ok (pi_buf p) len; Ret (mk_pipe b, r).
Definition agP_peek (p : pipe) (len : Z) : outcome (option Z) := _agB_peek (pi_buf p) len.
Definition agP_read (p : pipe) (len : Z) : outcome (pipe * option Z) :=
  '(b, r) ← _agB_read (pi_buf p) len; Ret (mk_pipe b, r).

(** ** The count is the number of pointers *)

Definition used (l : list Z) : list Z := filter (fun q => q <> 0) l.

Record array_ok (a : array) : Prop := {
  ao_size : zlen (ar_p a) = ar_s a;
  ao_small : ar_s a < 2 ^ 63;
  ao_count : ar_c a = zlen (used (ar_p a)) }.

Lemma used_insert l : forall i q p, l !! i = Some q ->
  zlen (used (<[i := p]> l)) = zlen (used l) - (if q =? 0 then 0 else 1) + (if p =? 0 then 0 else 1).
Proof.
  induction l as [|x l IH]; intros [|i] q p Hi; try discriminate; unfold used in *.
  - injection Hi as ->. change (<[0%nat := p]> (q :: l)) with (p :: l). rewrite !filter_cons. destruct (Z.eqb_spec q 0), (Z.eqb_spec p 0); repeat case_decide; try tauto; autorewrite with cserver; lia.
  - change (<[S i := p]> (x :: l)) with (x :: <[i := p]> l). rewrite !filter_cons. specialize (IH i q p Hi). case_decide; autorewrite with cserver; rewrite IH; ring.
Qed.

Lemma used_le l : zlen (used l) <= zlen l.
Proof. unfold zlen, used. pose proof (length_filter (fun q => q <> 0) l). lia. Qed.

Lemma array_new_ok s : 0 <= s < 2 ^ 63 -> array_ok (array_new s).
Proof.
  intros Hs. constructor; cbn [ar_s ar_c ar_p array_new].
  - unfold zlen. rewrite repeat_length. lia.
  - lia.
  - induction (Z.to_nat s) as [|n IH]; [reflexivity|]. unfold used in *. cbn [repeat]. rewrite filter_cons. case_decide; [tauto|exact IH].
Qed.

(** A set answers the pointer it replaces, and the count follows. *)
Lemma array_set_ok a i p : array_ok a -> 0 <= i < ar_s a ->
  exists r a', array_get a i = Ret r /\ array_set a i p = Ret (a', if r =? p then 0 else r) /\ array_ok a' /\
    array_get a' i = Ret p /\ (forall j, 0 <= j < ar_s a -> j <> i -> array_get a' j = array_get a j).
Proof.
  intros [Hs Hsm Hc] Hi. unfold array_get, array_set. destruct (Z.ltb_spec i (ar_s a)), (Z.ltb_spec i 0), (Z.leb_spec (ar_s a) i); try lia. destruct (ar_p a !! Z.to_nat i) as [r|] eqn:Er; [|apply lookup_ge_None in Er; unfold zlen in *; lia].
  exists r. cbn [deref mbind outcome_bind]. destruct (Z.eqb_spec r p) as [->|Hne].
  - exists a. split; [reflexivity|]. split; [reflexivity|]. split; [now constructor|]. ztests. rewrite Er. split; [reflexivity|]. intros j Hj Hji. reflexivity.
  - eexists. split; [reflexivity|]. split; [reflexivity|]. cbn [ar_s ar_c ar_p]. split.
    + constructor; cbn [ar_s ar_c ar_p]; [unfold zlen in *; now rewrite length_insert|exact Hsm|].
      pose proof (used_insert _ _ _ p Er) as Hu. pose proof (used_le (<[Z.to_nat i:=p]> (ar_p a))) as Hle. pose proof (used_le (ar_p a)).
      pose proof (zlen_nonneg (used (ar_p a))). pose proof (zlen_nonneg (used (<[Z.to_nat i:=p]> (ar_p a)))).
      assert (Hlen : zlen (<[Z.to_nat i:=p]> (ar_p a)) = ar_s a) by (unfold zlen in *; now rewrite length_insert).
      pose proof (used_insert _ _ _ 0 Er) as Hz. pose proof (zlen_nonneg (used (<[Z.to_nat i:=0]> (ar_p a)))). cbn [Z.eqb] in Hz. rewrite Hu, Hc in *. destruct (Z.eqb_spec r 0), (Z.eqb_spec p 0); rewrite ?(u64_small (_ - _)) by lia; rewrite ?u64_small by lia; lia.
    + ztests. rewrite list_lookup_insert_eq by (unfold zlen in *; lia). split; [reflexivity|]. intros j Hj Hji. ztests. now rewrite list_lookup_insert_ne by lia.
Qed.
