(* ===== verification/Data.v ===== *)
(** * Persistent records: what [code_generate/code_generate.cpp] writes

    For every table of [player.proto] the generator writes a structure and its functions [DATA_X_new],
    [_update_*], [_delete], [_release], [_save], [_flush] and [_load_by_pid]; the modules of a player keep their
    data in such records.  A change marks its field in the mask [dirty] and puts the record on the update
    list of its table; [flush] writes the records whose changes are old enough and frees those that were
    released or deleted.  The definitions here are those functions, as the generator prints them, for a
    table of the class [Row]; the database is the class [Database]. *)
From S2P Require Import Prelude.

Definition DATA_FLAG_DELETE : Z := 1.
Definition DATA_FLAG_RELEASE : Z := 2.

(** A structure: its links, its bookkeeping and the columns of its row. *)
Record datum (V : Type) := mk_datum {
  dt_prev : Z; dt_next : Z; dt_update_next : Z;
  dt_dirty : Z; dt_dirty_time : Z; dt_last_change_time : Z; dt_data_flag : Z; dt_row : V }.
Arguments mk_datum {V} _ _ _ _ _ _ _ _.
Arguments dt_prev {V} _.
Arguments dt_next {V} _.
Arguments dt_update_next {V} _.
Arguments dt_dirty {V} _.
Arguments dt_dirty_time {V} _.
Arguments dt_last_change_time {V} _.
Arguments dt_data_flag {V} _.
Arguments dt_row {V} _.

(** The columns that have an update function, by their number in the [.proto] file. *)
Class Row (V : Type) := { row_ids : list Z; row_get : V -> Z -> Z; row_set : V -> Z -> Z -> V }.

(** What MySQL answers: each call also gives the database after it, and 0 for success.  [db_update] writes
    the columns of a mask; [db_select] answers the rows of a player in some order, or fails. *)
Class Database (V W : Type) := {
  db_insert : W -> V -> W * Z;
  db_delete : W -> V -> W * Z;
  db_update : W -> Z -> V -> W * Z;
  db_select : W -> Z -> W * option (list V) }.

(** The records of a table, the head of its update list and the database. *)
Record store (V W : Type) := mk_store { st_heap : gmap Z (datum V); st_update_list : Z; st_db : W }.
Arguments mk_store {V W} _ _ _.
Arguments st_heap {V W} _.
Arguments st_update_list {V W} _.
Arguments st_db {V W} _.

Section Operations.
Context {V W : Type} `{Row V} `{Database V W}.

(** The address of the structure [voidX] that ends the update list. *)
Context (void : Z).
#[local] Abbreviation st := (store V W).

Definition set_update_next (v : datum V) (n : Z) : datum V :=
  mk_datum (dt_prev v) (dt_next v) n (dt_dirty v) (dt_dirty_time v) (dt_last_change_time v) (dt_data_flag v) (dt_row v).
(** [dirty], [dirty_time] and [last_change_time] zero, and a flag *)
Definition set_clean (v : datum V) (flag : Z) : datum V :=
  mk_datum (dt_prev v) (dt_next v) (dt_update_next v) 0 0 0 flag (dt_row v).
Definition set_flag (v : datum V) (flag : Z) : datum V :=
  mk_datum (dt_prev v) (dt_next v) (dt_update_next v) (dt_dirty v) (dt_dirty_time v) (dt_last_change_time v) flag (dt_row v).
Definition set_row (v : datum V) (r : V) : datum V :=
  mk_datum (dt_prev v) (dt_next v) (dt_update_next v) (dt_dirty v) (dt_dirty_time v) (dt_last_change_time v) (dt_data_flag v) r.

(** A structure that [memset] cleared, with its columns. *)
Definition new_datum (r : V) : datum V := mk_datum 0 0 0 0 0 0 0 r.

Definition with_datum (s : st) (a : Z) (v : datum V) : st := mk_store (<[a := v]> (st_heap s)) (st_update_list s) (st_db s).
Definition with_db (s : st) (w : W) : st := mk_store (st_heap s) (st_update_list s) w.

Definition add_to_update_list (s : st) (a : Z) : outcome st :=
  v ← deref (st_heap s !! a);
  if dt_update_next v =? 0 then Ret (mk_store (<[a := set_update_next v (st_update_list s)]> (st_heap s)) a (st_db s)) else Ret s.

Definition DATA_new (s : st) (a : Z) : outcome (st * Z) :=
  v ← deref (st_heap s !! a);
  let '(w, ret) := db_insert (st_db s) (dt_row v) in
  let s := with_db s w in
  Ret (if ret =? 0 then with_datum s a (set_clean v 0) else s, ret).

Definition DATA_delete (s : st) (a : Z) : outcome (st * Z) :=
  v ← deref (st_heap s !! a);
  let '(w, ret) := db_delete (st_db s) (dt_row v) in
  let s := with_db s w in
  if negb (ret =? 0) then Ret (s, -1)
  else s ← add_to_update_list (with_datum s a (set_clean v DATA_FLAG_DELETE)) a; Ret (s, 0).

Definition DATA_release (s : st) (a : Z) : outcome st :=
  v ← deref (st_heap s !! a);
  add_to_update_list (with_datum s a (set_flag v DATA_FLAG_RELEASE)) a.

(** [DATA_X_update_f] of the column [id]; [now] is [agT_current()]. *)
Definition DATA_update (s : st) (now a id x : Z) : outcome st :=
  v ← deref (st_heap s !! a);
  if row_get (dt_row v) id =? x then Ret s
  else
    let dirty_time := if dt_dirty_time v =? 0 then now else dt_dirty_time v in
    let v := mk_datum (dt_prev v) (dt_next v) (dt_update_next v) (Z.lor (dt_dirty v) (u64 (Z.shiftl 1 id))) dirty_time now
               (dt_data_flag v) (row_set (dt_row v) id x) in
    add_to_update_list (with_datum s a v) a.

(** [DATA_X_save] on a structure. *)
Definition save_datum (w : W) (v : datum V) : W * datum V * Z :=
  if dt_dirty v =? 0 then (w, v, 0)
  else
    let '(w, ret) := db_update w (dt_dirty v) (dt_row v) in
    if negb (ret =? 0) then (w, v, -1) else (w, set_clean v (dt_data_flag v), 0).
Definition DATA_save (s : st) (a : Z) : outcome (st * Z) :=
  v ← deref (st_heap s !! a);
  let '(w, v, ret) := save_datum (st_db s) v in
  Ret (with_datum (with_db s w) a v, ret).

(** One record of the update list: the list of those not saved, its head. *)
Definition flush_one (s : st) (now a nosaved : Z) : outcome (st * Z) :=
  v ← deref (st_heap s !! a);
  let s := mk_store (<[a := set_update_next v 0]> (st_heap s)) (dt_update_next v) (st_db s) in
  if dt_data_flag v =? DATA_FLAG_RELEASE then
    '(s, _) ← DATA_save s a;
    Ret (mk_store (delete a (st_heap s)) (st_update_list s) (st_db s), nosaved)
  else if dt_data_flag v =? DATA_FLAG_DELETE then
    Ret (mk_store (delete a (st_heap s)) (st_update_list s) (st_db s), nosaved)
  else if (30 <=? now - dt_dirty_time v) || (5 <=? now - dt_last_change_time v) then
    '(s, _) ← DATA_save s a; Ret (s, nosaved)
  else Ret (with_datum s a (set_update_next v nosaved), a).

Fixpoint flush_loop (fuel : nat) (s : st) (now nosaved : Z) : outcome st :=
  if st_update_list s =? void then Ret (mk_store (st_heap s) nosaved (st_db s))
  else
    match fuel with
    | O => NoFuel
    | S fuel' => '(s, nosaved) ← flush_one s now (st_update_list s) nosaved; flush_loop fuel' s now nosaved
    end.

(** A record is on the list at most once. *)
Definition DATA_flush (s : st) (now : Z) : outcome st := flush_loop (size (st_heap s)) s now void.

(** The rows of a query become structures, each linked before the last by its [next]. *)
Context (malloc : gmap Z (datum V) -> Z).
Fixpoint parse_rows_loop (h : gmap Z (datum V)) (head : Z) (rows : list V) : outcome (gmap Z (datum V) * Z) :=
  match rows with
  | [] => Ret (h, head)
  | r :: rows' =>
    let a := malloc h in
    if a =? 0 then Undef else parse_rows_loop (<[a := mk_datum 0 head 0 0 0 0 0 r]> h) a rows'
  end.
(** The head of the list, or [None] when the query fails. *)
Definition DATA_load_by_pid (s : st) (pid : Z) : outcome (st * option Z) :=
  let '(w, rows) := db_select (st_db s) pid in
  match rows with
  | None => Ret (with_db s w, None)
  | Some rows => '(h, head) ← parse_rows_loop (st_heap s) 0 rows; Ret (mk_store h (st_update_list s) w, Some head)
  end.
End Operations.

(** ** Laws *)

(** Columns are independent, and a row is its key and its columns. *)
Class RowLaws (V K : Type) `{Row V} (key : V -> K) := {
  ids_range : forall i, i ∈ row_ids -> 0 <= i < 64;
  get_set : forall v i j x, i ∈ row_ids -> j ∈ row_ids -> row_get (row_set v i x) j = if decide (j = i) then x else row_get v j;
  key_set : forall v i x, i ∈ row_ids -> key (row_set v i x) = key v;
  row_ext : forall v w, key v = key w -> (forall i, i ∈ row_ids -> row_get v i = row_get w i) -> v = w }.

(** The table is a map from keys to rows; a failed call changes nothing. *)
Class DatabaseLaws (V K W : Type) `{Row V} `{Database V W} `{Countable K} (key : V -> K) (owner : K -> Z) := {
  db_rows : W -> gmap K V;
  rows_keyed : forall w k v, db_rows w !! k = Some v -> key v = k;
  insert_law : forall w v w' ret, db_insert w v = (w', ret) ->
    if ret =? 0 then db_rows w !! key v = None /\ db_rows w' = <[key v := v]> (db_rows w) else db_rows w' = db_rows w;
  delete_law : forall w v w' ret, db_delete w v = (w', ret) -> db_rows w' = if ret =? 0 then delete (key v) (db_rows w) else db_rows w;
  update_law : forall w mask v w' ret, db_update w mask v = (w', ret) ->
    if ret =? 0 then
      match db_rows w !! key v with
      | None => db_rows w' = db_rows w
      | Some r => exists r', db_rows w' = <[key v := r']> (db_rows w) /\ key r' = key r /\
          forall i, i ∈ row_ids -> row_get r' i = if Z.testbit mask i then row_get v i else row_get r i
      end
    else db_rows w' = db_rows w;
  select_law : forall w pid w' rows, db_select w pid = (w', rows) -> db_rows w' = db_rows w /\
    forall vs, rows = Some vs -> NoDup vs /\ forall v, v ∈ vs <-> db_rows w !! key v = Some v /\ owner (key v) = pid }.

Section Laws.
Context {V K W : Type} `{Row V} `{Database V W} `{Countable K} (key : V -> K) (owner : K -> Z).
Context `{!RowLaws V K key} `{!DatabaseLaws V K W key owner} (void : Z).
#[local] Abbreviation st := (store V W).
#[local] Abbreviation heap := (gmap Z (datum V)).
#[local] Abbreviation rows := (db_rows (key := key) (owner := owner)).

(** [r] agrees with [v] on the columns outside [mask]. *)
Definition synced (mask : Z) (r v : V) : Prop :=
  key r = key v /\ forall i, i ∈ row_ids -> Z.testbit mask i = false -> row_get r i = row_get v i.

Lemma synced_refl mask v : synced mask v v.
Proof. split; auto. Qed.
Lemma synced_clean r v : synced 0 r v -> r = v.
Proof. intros [Hk Hg]. apply row_ext; [exact Hk|]. intros i Hi. apply Hg; [exact Hi|]. apply Z.bits_0. Qed.

Lemma shiftl_bit i : 0 <= i < 64 -> u64 (Z.shiftl 1 i) = 2 ^ i.
Proof. intros Hi. rewrite Z.shiftl_mul_pow2, Z.mul_1_l by lia. apply u64_small. split; [apply Z.pow_nonneg; lia|]. apply Z.pow_lt_mono_r; lia. Qed.

Lemma synced_set mask r v i x : synced mask r v -> i ∈ row_ids -> synced (Z.lor mask (u64 (Z.shiftl 1 i))) r (row_set v i x).
Proof.
  intros [Hk Hg] Hi. pose proof (ids_range (key := key) i Hi). rewrite shiftl_bit by lia. split; [now rewrite (key_set (key := key)) by exact Hi|]. intros j Hj Hb.
  pose proof (ids_range (key := key) j Hj). rewrite Z.lor_spec in Hb. apply orb_false_iff in Hb as [Hb1 Hb2].
  rewrite (get_set (key := key)) by assumption. destruct (decide (j = i)) as [->|Hne]; [|auto]. rewrite Z.pow2_bits_true in Hb2 by lia. discriminate.
Qed.

(** A record that is not deleted has a row. *)
Definition live (v : datum V) : Prop := dt_data_flag v <> DATA_FLAG_DELETE.

(** The update list from [head] is [l]. *)
Fixpoint ulist (h : heap) (head : Z) (l : list Z) : Prop :=
  match l with
  | [] => head = void
  | a :: l' => head = a /\ a <> void /\ a <> 0 /\ exists v, h !! a = Some v /\ ulist h (dt_update_next v) l'
  end.

Record queued (h : heap) (head : Z) (l : list Z) : Prop := {
  qu_list : ulist h head l;
  qu_nodup : NoDup l;
  qu_others : forall a v, h !! a = Some v -> a ∉ l -> dt_update_next v = 0 }.

(** Statements that update a row succeed. *)
Definition saves_ok : Prop := forall (w : W) mask (v : V), snd (db_update w mask v) = 0.

(** An insert fails only for a key that is there. *)
Definition inserts_ok : Prop := forall (w : W) (v : V), rows w !! key v = None -> snd (db_insert w v) = 0.

(** Records and rows: what [l] contains is on the way to the database. *)
Record data_body (h : heap) (w : W) (l : list Z) : Prop := {
  dk_synced : forall a v, h !! a = Some v -> live v -> exists r, rows w !! key (dt_row v) = Some r /\ synced (dt_dirty v) r (dt_row v);
  dk_unique : forall a b v w, h !! a = Some v -> h !! b = Some w -> live v -> live w -> key (dt_row v) = key (dt_row w) -> a = b;
  dk_flagged : forall a v, h !! a = Some v -> dt_data_flag v = DATA_FLAG_DELETE \/ dt_data_flag v = DATA_FLAG_RELEASE -> a ∈ l;
  dk_pending : saves_ok -> forall a v, h !! a = Some v -> dt_dirty v <> 0 -> a ∈ l;
  dk_void : void <> 0 /\ h !! void = None /\ h !! 0 = None }.

(** What holds between two calls: [l] is on the update list. *)
Record data_ok (s : st) (l : list Z) : Prop := {
  dk_queue : queued (st_heap s) (st_update_list s) l;
  dk_body : data_body (st_heap s) (st_db s) l }.

Lemma ulist_head_nonzero h head l : void <> 0 -> ulist h head l -> head <> 0.
Proof. intros Hv. destruct l; cbn; [congruence|]. intros (-> & _ & Hz & _). exact Hz. Qed.

Lemma ulist_frame h h' head l : (forall a, a ∈ l -> dt_update_next <$> h' !! a = dt_update_next <$> h !! a) -> ulist h head l -> ulist h' head l.
Proof.
  revert head. induction l as [|a l IH]; intros head Hf; cbn; [auto|]. intros (Ha & Hv & Hz & v & Hl & Hr). split; [exact Ha|]. split; [exact Hv|]. split; [exact Hz|].
  specialize (Hf a) as Hfa. rewrite Hl in Hfa. destruct (h' !! a) as [w|]; cbn in Hfa; [|discriminate Hfa; left].
  exists w. split; [reflexivity|]. injection (Hfa ltac:(left)) as ->. apply IH; [|exact Hr]. intros b Hb. apply Hf. now right.
Qed.

Lemma ulist_in h head l a : void <> 0 -> ulist h head l -> a ∈ l -> exists v, h !! a = Some v /\ dt_update_next v <> 0.
Proof.
  intros Hv. revert head. induction l as [|b l IH]; intros head; cbn; [intros _ Hin; inversion Hin|].
  intros (_ & _ & _ & v & Hl & Hr) Ha. apply elem_of_cons in Ha as [->|Ha]; [|eauto]. exists v. split; [exact Hl|].
  now apply (ulist_head_nonzero _ _ _ Hv) in Hr.
Qed.

(** Changing a record, and queueing it if it is not queued. *)
Definition enqueue (a : Z) (l : list Z) : list Z := if decide (a ∈ l) then l else a :: l.

Lemma elem_of_enqueue a b l : b ∈ enqueue a l <-> b = a \/ b ∈ l.
Proof. unfold enqueue. case_decide; [|now rewrite elem_of_cons]. split; [auto|]. intros [->|Hb]; assumption. Qed.

Lemma queued_change h head l a v v' : queued h head l -> h !! a = Some v -> dt_update_next v' = dt_update_next v -> queued (<[a := v']> h) head l.
Proof.
  intros [Hl Hnd Ho] Ha Hu. assert (Hf : forall b, dt_update_next <$> <[a := v']> h !! b = dt_update_next <$> h !! b).
  { intros b. destruct (decide (b = a)) as [->|Hne]; [rewrite lookup_insert_eq, Ha; cbn; now rewrite Hu|now rewrite lookup_insert_ne by congruence]. }
  constructor; [apply (ulist_frame h); auto|exact Hnd|]. intros b w Hb Hn. specialize (Hf b). rewrite Hb in Hf. cbn in Hf.
  destruct (h !! b) as [x|] eqn:Hx; [|discriminate]. injection Hf as ->. eauto.
Qed.

Lemma queue_add_spec (s : st) l a v : queued (st_heap s) (st_update_list s) l -> void <> 0 -> a <> void -> a <> 0 -> st_heap s !! a = Some v ->
  exists n, add_to_update_list s a = Ret (mk_store (<[a := set_update_next v n]> (st_heap s)) (if dt_update_next v =? 0 then a else st_update_list s) (st_db s)) /\
    queued (<[a := set_update_next v n]> (st_heap s)) (if dt_update_next v =? 0 then a else st_update_list s) (enqueue a l).
Proof.
  intros [Hl Hnd Ho] Hv Hav Haz Ha. unfold add_to_update_list, enqueue. rewrite Ha. cbn [deref mbind outcome_bind]. destruct (Z.eqb_spec (dt_update_next v) 0) as [E|E].
  - exists (st_update_list s). split; [reflexivity|]. destruct (decide (a ∈ l)) as [Hin|Hin].
    + destruct (ulist_in _ _ _ a Hv Hl Hin) as (w & Hw & Hne). congruence.
    + constructor; [|now apply list.NoDup_cons|].
      * cbn. split; [reflexivity|]. split; [exact Hav|]. split; [exact Haz|]. eexists. split; [apply lookup_insert_eq|]. cbn.
        apply (ulist_frame (st_heap s)); [|exact Hl]. intros b Hb. rewrite lookup_insert_ne; [reflexivity|]. intros ->. contradiction.
      * intros b w Hb Hn. rewrite not_elem_of_cons in Hn. destruct Hn as [Hn1 Hn2]. rewrite lookup_insert_ne in Hb by congruence. eauto.
  - exists (dt_update_next v). assert (Hid : set_update_next v (dt_update_next v) = v) by now destruct v. rewrite Hid.
    assert (Hid2 : <[a := v]> (st_heap s) = st_heap s) by now apply insert_id. rewrite Hid2. split; [now destruct s|].
    destruct (decide (a ∈ l)) as [Hin|Hin]; [now constructor|]. exfalso. apply E. eauto.
Qed.

(** ** Each call *)

(** One record changes. *)
Lemma body_change (h : heap) w l a v v' w' l' : data_body h w l -> h !! a = Some v -> (forall b, b ∈ l -> b ∈ l') ->
  key (dt_row v') = key (dt_row v) -> (live v' -> live v) ->
  (dt_data_flag v' = DATA_FLAG_DELETE \/ dt_data_flag v' = DATA_FLAG_RELEASE -> a ∈ l') -> (saves_ok -> dt_dirty v' <> 0 -> a ∈ l') ->
  (live v' -> exists r, rows w' !! key (dt_row v') = Some r /\ synced (dt_dirty v') r (dt_row v')) ->
  (forall b x, b <> a -> h !! b = Some x -> live x -> rows w' !! key (dt_row x) = rows w !! key (dt_row x)) ->
  data_body (<[a := v']> h) w' l'.
Proof.
  intros [Hs Hu Hf Hp Hv] Ha Hl Hk Hlv Hfl Hpe Hsa Ho. constructor.
  - intros b x Hb Hx. apply lookup_insert_Some in Hb as [[<- <-]|[Hne Hb]]; [auto|]. rewrite (Ho b x) by (congruence || assumption). eauto.
  - intros b c x y Hb Hc Hx Hy E. apply lookup_insert_Some in Hb as [[<- <-]|[Hne Hb]]; apply lookup_insert_Some in Hc as [[<- <-]|[Hne2 Hc]]; [reflexivity| | |eauto].
    + rewrite Hk in E. exact (Hu _ _ _ _ Ha Hc (Hlv Hx) Hy E).
    + rewrite Hk in E. exact (Hu _ _ _ _ Hb Ha Hx (Hlv Hy) E).
  - intros b x Hb Hx. apply lookup_insert_Some in Hb as [[<- <-]|[Hne Hb]]; [auto|]. apply Hl. eauto.
  - intros Hsv b x Hb Hx. apply lookup_insert_Some in Hb as [[<- <-]|[Hne Hb]]; [auto|]. apply Hl. eauto.
  - destruct Hv as (Hv & Hv1 & Hv2). split; [exact Hv|]. split; (rewrite lookup_insert_ne; [assumption|congruence]).
Qed.

(** One record is freed. *)
Lemma body_free h w l a w' l' : data_body h w l -> (forall b, b ∈ l -> b <> a -> b ∈ l') ->
  (forall b x, b <> a -> h !! b = Some x -> live x -> rows w' !! key (dt_row x) = rows w !! key (dt_row x)) -> data_body (delete a h) w' l'.
Proof.
  intros [Hs Hu Hf Hp Hv] Hl Ho. constructor.
  - intros b x Hb Hx. apply lookup_delete_Some in Hb as [Hne Hb]. rewrite (Ho b x) by (congruence || assumption). eauto.
  - intros b c x y Hb Hc. apply lookup_delete_Some in Hb as [Hne Hb], Hc as [Hne2 Hc]. eauto.
  - intros b x Hb Hx. apply lookup_delete_Some in Hb as [Hne Hb]. apply Hl; eauto.
  - intros Hsv b x Hb Hx. apply lookup_delete_Some in Hb as [Hne Hb]. apply Hl; eauto.
  - destruct Hv as (Hv & Hv1 & Hv2). split; [exact Hv|]. split; apply lookup_delete_None; auto.
Qed.

Lemma address_ok s l a v : data_ok s l -> st_heap s !! a = Some v -> void <> 0 /\ a <> void /\ a <> 0.
Proof. intros [_ [_ _ _ _ (Hv & Hv1 & Hv2)]] Ha. split; [exact Hv|]. split; intros ->; congruence. Qed.

(** A change of a column keeps what is on disk and what is pending apart. *)
Lemma data_update_ok s l now a id x v : data_ok s l -> st_heap s !! a = Some v -> live v -> id ∈ row_ids ->
  exists s' l' v', DATA_update s now a id x = Ret s' /\ data_ok s' l' /\ st_heap s' = <[a := v']> (st_heap s) /\ st_db s' = st_db s /\
    dt_row v' = (if row_get (dt_row v) id =? x then dt_row v else row_set (dt_row v) id x) /\
    dt_prev v' = dt_prev v /\ dt_next v' = dt_next v /\ dt_data_flag v' = dt_data_flag v.
Proof.
  intros Hok Ha Hl Hid. destruct (address_ok _ _ _ _ Hok Ha) as (Hv & Hav & Haz). unfold DATA_update. rewrite Ha. cbn [deref mbind outcome_bind].
  destruct (row_get (dt_row v) id =? x).
  - exists s, l, v. rewrite insert_id by exact Ha. auto 10.
  - set (v1 := mk_datum _ _ _ _ _ _ _ _). destruct Hok as [Hq Hb].
    assert (Hq1 : queued (st_heap (with_datum s a v1)) (st_update_list s) l) by (apply (queued_change _ _ _ _ v); auto).
    destruct (queue_add_spec (with_datum s a v1) l a v1 Hq1 Hv Hav Haz (lookup_insert_eq _ _ _)) as (n & He & Hq2). rewrite He.
    cbn [st_heap st_update_list st_db with_datum] in *. rewrite insert_insert_eq in *. eexists _, (enqueue a l), (set_update_next v1 n).
    split; [reflexivity|]. split; [|cbn; auto 10]. constructor; cbn [st_heap st_update_list st_db]; [exact Hq2|].
    apply (body_change (st_heap s) (st_db s) l _ v); try assumption; try auto.
    + intros b Hin. apply elem_of_enqueue. now right.
    + cbn. now rewrite (key_set (key := key)).
    + intros _. apply elem_of_enqueue. now left.
    + intros _ _. apply elem_of_enqueue. now left.
    + intros _. destruct (dk_synced _ _ _ Hb a v Ha Hl) as (r & Hr & Hsy). exists r. cbn. rewrite (key_set (key := key)) by exact Hid.
      split; [exact Hr|]. now apply synced_set.
Qed.

Lemma data_release_ok s l a v : data_ok s l -> st_heap s !! a = Some v -> live v ->
  exists s' l' v', DATA_release s a = Ret s' /\ data_ok s' l' /\ st_heap s' = <[a := v']> (st_heap s) /\ st_db s' = st_db s /\
    dt_row v' = dt_row v /\ dt_prev v' = dt_prev v /\ dt_next v' = dt_next v /\ dt_data_flag v' = DATA_FLAG_RELEASE /\ dt_dirty v' = dt_dirty v.
Proof.
  intros Hok Ha Hl. destruct (address_ok _ _ _ _ Hok Ha) as (Hv & Hav & Haz). unfold DATA_release. rewrite Ha. cbn [deref mbind outcome_bind].
  set (v1 := set_flag v _). destruct Hok as [Hq Hb].
  assert (Hq1 : queued (st_heap (with_datum s a v1)) (st_update_list s) l) by (apply (queued_change _ _ _ _ v); auto).
  destruct (queue_add_spec (with_datum s a v1) l a v1 Hq1 Hv Hav Haz (lookup_insert_eq _ _ _)) as (n & He & Hq2). rewrite He.
  cbn [st_heap st_update_list st_db with_datum] in *. rewrite insert_insert_eq in *. eexists _, (enqueue a l), (set_update_next v1 n).
  split; [reflexivity|]. split; [|cbn; auto 10]. constructor; cbn [st_heap st_update_list st_db]; [exact Hq2|].
  apply (body_change (st_heap s) (st_db s) l _ v); try assumption; try auto.
  - intros b Hin. apply elem_of_enqueue. now right.
  - intros _. apply elem_of_enqueue. now left.
  - intros _ _. apply elem_of_enqueue. now left.
  - intros _. exact (dk_synced _ _ _ Hb a v Ha Hl).
Qed.

(** A deleted record loses its row at once and is freed later; when the statement fails nothing changes. *)
Lemma data_delete_ok s l a v : data_ok s l -> st_heap s !! a = Some v -> live v ->
  exists s' l' ret, DATA_delete s a = Ret (s', ret) /\ data_ok s' l' /\
    if ret =? 0 then rows (st_db s') = delete (key (dt_row v)) (rows (st_db s)) /\
      exists v', st_heap s' = <[a := v']> (st_heap s) /\ dt_row v' = dt_row v /\ dt_prev v' = dt_prev v /\ dt_next v' = dt_next v /\ ~ live v'
    else st_heap s' = st_heap s /\ rows (st_db s') = rows (st_db s).
Proof.
  intros Hok Ha Hl. destruct (address_ok _ _ _ _ Hok Ha) as (Hv & Hav & Haz). unfold DATA_delete. rewrite Ha. cbn [deref mbind outcome_bind].
  destruct (db_delete (st_db s) (dt_row v)) as [w ret] eqn:Ed. apply (delete_law (key := key) (owner := owner)) in Ed. destruct Hok as [Hq Hb].
  destruct (Z.eqb_spec ret 0) as [E|E]; cbn [negb].
  - set (v1 := set_clean v _). assert (Hq1 : queued (st_heap (with_datum (with_db s w) a v1)) (st_update_list s) l) by (apply (queued_change _ _ _ _ v); auto).
    destruct (queue_add_spec (with_datum (with_db s w) a v1) l a v1 Hq1 Hv Hav Haz (lookup_insert_eq _ _ _)) as (n & He & Hq2). rewrite He.
    cbn [st_heap st_update_list st_db with_datum with_db mbind outcome_bind] in *. rewrite insert_insert_eq in *. eexists _, (enqueue a l), 0.
    split; [reflexivity|]. split; [|cbn [Z.eqb st_db st_heap]; split; [exact Ed|]; eexists; split; [reflexivity|]; do 3 (split; [reflexivity|]); intros Hf; now apply Hf].
    constructor; cbn [st_heap st_update_list st_db]; [exact Hq2|]. apply (body_change (st_heap s) (st_db s) l _ v); try assumption; try auto.
    + intros b Hin. apply elem_of_enqueue. now right.
    + intros _. apply elem_of_enqueue. now left.
    + intros _ _. apply elem_of_enqueue. now left.
    + intros Hf. now destruct Hf.
    + intros b x Hne Hx Hlx. rewrite Ed. apply lookup_delete_ne. intros Ek. apply Hne. exact (dk_unique _ _ _ Hb _ _ _ _ Hx Ha Hlx Hl (eq_sym Ek)).
  - exists (with_db s w), l, (-1). split; [reflexivity|]. split; [|cbn; auto]. constructor; [exact Hq|]. cbn [st_heap st_db with_db].
    destruct Hb as [Hs Hu Hf Hp Hvo]. constructor; try assumption. intros b x Hx Hlx. rewrite Ed. eauto.
Qed.

(** A new structure: its row is inserted, or the statement fails and the structure can be freed. *)
Lemma data_new_ok s l a r : data_ok s l -> st_heap s !! a = None -> a <> 0 -> a <> void ->
  exists s' ret, DATA_new (with_datum s a (new_datum r)) a = Ret (s', ret) /\ st_heap s' = <[a := new_datum r]> (st_heap s) /\
    if ret =? 0 then data_ok s' l /\ rows (st_db s) !! key r = None /\ rows (st_db s') = <[key r := r]> (rows (st_db s))
    else rows (st_db s') = rows (st_db s) /\ data_ok (mk_store (delete a (st_heap s')) (st_update_list s') (st_db s')) l.
Proof.
  intros [Hq Hb] Ha Hz Hv. unfold DATA_new. cbn [st_heap with_datum st_db]. rewrite lookup_insert_eq. cbn [deref mbind outcome_bind].
  destruct (db_insert (st_db s) (dt_row (new_datum r))) as [w ret] eqn:Ei. apply (insert_law (key := key) (owner := owner)) in Ei. cbn [dt_row new_datum] in Ei.
  do 2 eexists. split; [reflexivity|]. destruct (Z.eqb_spec ret 0) as [E|E]; cbn [st_heap with_db with_datum st_db st_update_list].
  - rewrite insert_insert_eq. split; [reflexivity|]. destruct Ei as [Enone Ei]. split; [|split; [exact Enone|exact Ei]].
    assert (Hal : a ∉ l).
    { intros Hin. destruct Hq as [Hl _ _]. destruct (ulist_in _ _ _ a (proj1 (dk_void _ _ _ Hb)) Hl Hin) as (v & Hv' & _). congruence. }
    constructor; cbn [st_heap st_update_list st_db with_db with_datum]; rewrite insert_insert_eq.
    + destruct Hq as [Hl Hnd Ho]. constructor; [|exact Hnd|].
      * apply (ulist_frame (st_heap s)); [|exact Hl]. intros b Hin. rewrite lookup_insert_ne; [reflexivity|]. intros ->. contradiction.
      * intros b v Hbv Hn. apply lookup_insert_Some in Hbv as [[<- <-]|[_ Hbv]]; [reflexivity|eauto].
    + destruct Hb as [Hs Hu Hf Hp (Hvo & Hv1 & Hv2)].
      assert (Hkey : forall b v, st_heap s !! b = Some v -> live v -> key (dt_row v) <> key r).
      { intros b v Hbv Hlv Ek. destruct (Hs b v Hbv Hlv) as (r' & Hr' & _). congruence. }
      constructor.
      * intros b v Hbv Hlv. rewrite Ei. apply lookup_insert_Some in Hbv as [[<- <-]|[_ Hbv]].
        -- exists r. split; [apply lookup_insert_eq|apply synced_refl].
        -- rewrite lookup_insert_ne by (intros Ek; now apply (Hkey b v Hbv Hlv)). eauto.
      * intros b c v x Hbv Hcx Hlv Hlx Ek. apply lookup_insert_Some in Hbv as [[<- <-]|[_ Hbv]]; apply lookup_insert_Some in Hcx as [[<- <-]|[_ Hcx]].
        -- reflexivity.
        -- exfalso. apply (Hkey c x Hcx Hlx). now symmetry.
        -- exfalso. now apply (Hkey b v Hbv Hlv).
        -- eauto.
      * intros b v Hbv Hfl. apply lookup_insert_Some in Hbv as [[<- <-]|[_ Hbv]]; [destruct Hfl; discriminate|eauto].
      * intros Hsv b v Hbv Hfl. apply lookup_insert_Some in Hbv as [[<- <-]|[_ Hbv]]; [now destruct Hfl|eauto].
      * split; [exact Hvo|]. split; (rewrite lookup_insert_ne; [assumption|congruence]).
  - split; [reflexivity|]. split; [exact Ei|]. rewrite delete_insert_id by exact Ha.
    constructor; cbn [st_heap st_update_list st_db]; [exact Hq|]. destruct Hb as [Hs Hu Hf Hvo]. constructor; try assumption.
    intros b x Hx Hlx. rewrite Ei. eauto.
Qed.

(** ** Loading the rows of a player *)

Context (malloc : heap -> Z) (malloc_ok : forall h, h !! malloc h = None /\ malloc h <> 0 /\ malloc h <> void).

(** The structures made of rows: a chain through [next], outside the heap before. *)
Fixpoint chain (h : heap) (head : Z) (l : list (Z * V)) : Prop :=
  match l with
  | [] => head = 0
  | (a, r) :: l' => head = a /\ a <> 0 /\ exists n, h !! a = Some (mk_datum 0 n 0 0 0 0 0 r) /\ chain h n l'
  end.

Lemma row_chain_frame (h h' : heap) head l : (forall a, a ∈ map fst l -> h' !! a = h !! a) -> chain h head l -> chain h' head l.
Proof.
  revert head. induction l as [|[a r] l IH]; intros head Hf; cbn; [auto|]. intros (Ha & Hz & n & Hn & Hc).
  split; [exact Ha|]. split; [exact Hz|]. exists n. rewrite Hf by left. split; [exact Hn|]. apply IH; [|exact Hc]. intros b Hb. apply Hf. now right.
Qed.

Lemma chain_in (h : heap) head l : chain h head l -> forall a, a ∈ map fst l -> exists v, h !! a = Some v.
Proof.
  revert head. induction l as [|[b r] l IH]; intros head Hc a Ha; [inversion Ha|]. destruct Hc as (_ & _ & n & Hn & Hc).
  cbn in Ha. apply elem_of_cons in Ha as [->|Ha]; eauto.
Qed.

Lemma parse_rows_spec vs : forall h head l0, chain h head l0 -> NoDup (map fst l0) ->
  exists h' head' l, parse_rows_loop malloc h head vs = Ret (h', head') /\ chain h' head' (l ++ l0) /\ map snd l = rev vs /\ NoDup (map fst (l ++ l0)) /\
    (forall a, a ∈ map fst l -> h !! a = None) /\
    (forall a v, h !! a = Some v -> h' !! a = Some v) /\
    (forall a v, h' !! a = Some v -> h !! a = Some v \/ (h !! a = None /\ a <> void /\ a <> 0 /\ exists r, (a, r) ∈ l /\ dt_row v = r /\ dt_update_next v = 0 /\ dt_dirty v = 0 /\ dt_data_flag v = 0)).
Proof.
  induction vs as [|r vs IH]; intros h head l0 Hc Hnd; cbn [parse_rows_loop].
  - exists h, head, []. split; [reflexivity|]. split; [exact Hc|]. split; [reflexivity|]. split; [exact Hnd|]. split; [intros a Ha; inversion Ha|auto].
  - destruct (malloc_ok h) as (Hn & Hz & Hv). set (a := malloc h) in *. apply Z.eqb_neq in Hz as Hz'. rewrite Hz'.
    set (v := mk_datum 0 head 0 0 0 0 0 r). assert (Hal : a ∉ map fst l0).
    { intros Hin. destruct (chain_in _ _ _ Hc a Hin) as [x Hx]. congruence. }
    destruct (IH (<[a := v]> h) a ((a, r) :: l0)) as (h' & head' & l & -> & Hc' & Hm & Hnd' & Hfresh & Hold & Hnew).
    + split; [reflexivity|]. split; [exact Hz|]. exists head. split; [apply lookup_insert_eq|]. apply (row_chain_frame h); [|exact Hc].
      intros b Hb. apply lookup_insert_ne. intros ->. contradiction.
    + cbn. now apply list.NoDup_cons.
    + exists h', head', (l ++ [(a, r)]). rewrite <- app_assoc. cbn [app]. split; [reflexivity|]. split; [exact Hc'|].
      split; [rewrite map_app, Hm; reflexivity|]. split; [exact Hnd'|]. split; [|split].
      * intros b Hb. rewrite map_app, elem_of_app in Hb. destruct Hb as [Hb|Hb]; [now apply Hfresh, lookup_insert_None in Hb|].
        apply list_elem_of_singleton in Hb as ->. exact Hn.
      * intros b x Hb. apply Hold. rewrite lookup_insert_ne; [exact Hb|]. intros <-. congruence.
      * intros b x Hb. destruct (Hnew b x Hb) as [Hb'|(Hb' & Hbv & Hbz & r' & Hin & Hrest)].
        -- apply lookup_insert_Some in Hb' as [[<- <-]|[_ Hb']]; [right|now left]. split; [exact Hn|]. split; [exact Hv|]. split; [exact Hz|].
           exists r. split; [apply elem_of_app; right; left|auto].
        -- right. apply lookup_insert_None in Hb' as [Hb' _]. split; [exact Hb'|]. split; [exact Hbv|]. split; [exact Hbz|]. exists r'.
           split; [apply elem_of_app; now left|exact Hrest].
Qed.

(** The rows of a player that has no record in memory. *)
Lemma data_load_ok s l pid : data_ok s l -> (forall a v, st_heap s !! a = Some v -> live v -> owner (key (dt_row v)) <> pid) ->
  exists s' head, DATA_load_by_pid malloc s pid = Ret (s', head) /\ data_ok s' l /\ rows (st_db s') = rows (st_db s) /\
    (forall a v, st_heap s !! a = Some v -> st_heap s' !! a = Some v) /\
    match head with
    | None => st_heap s' = st_heap s
    | Some head => exists nodes, chain (st_heap s') head nodes /\ NoDup (map fst nodes) /\ NoDup (map snd nodes) /\
        (forall a, a ∈ map fst nodes -> st_heap s !! a = None) /\
        (forall r, r ∈ map snd nodes <-> rows (st_db s) !! key r = Some r /\ owner (key r) = pid)
    end.
Proof.
  intros [Hq Hb] Hown. unfold DATA_load_by_pid. destruct (db_select (st_db s) pid) as [w res] eqn:Es.
  apply (select_law (key := key) (owner := owner)) in Es as [Er Hvs]. destruct Hb as [Hs Hu Hf Hp Hvo]. destruct res as [vs|].
  - destruct (Hvs vs eq_refl) as [Hnd Hin]. destruct (parse_rows_spec vs (st_heap s) 0 [] eq_refl ltac:(constructor)) as (h' & head & l0 & -> & Hc & Hm & Hnf & Hfresh & Hold & Hnew).
    rewrite app_nil_r in *. cbn [mbind outcome_bind]. do 2 eexists. split; [reflexivity|]. cbn [st_heap st_db].
    assert (Hnds : NoDup (map snd l0)) by (rewrite Hm, <- Permutation_rev; exact Hnd).
    assert (Hrow : forall r, r ∈ map snd l0 <-> rows (st_db s) !! key r = Some r /\ owner (key r) = pid).
    { intros r. rewrite Hm, <- Permutation_rev. apply Hin. }
    assert (Hpair : forall a b r, (a, r) ∈ l0 -> (b, r) ∈ l0 -> a = b).
    { intros a b r Ha Hbb. apply list_elem_of_lookup in Ha as [i Hi], Hbb as [j Hj].
      assert (i = j); [|congruence]. apply (NoDup_lookup (map snd l0) i j r Hnds); now rewrite lookup_map, ?Hi, ?Hj. }
    split; [|split; [exact Er|split; [exact Hold|exists l0; auto]]]. constructor; cbn [st_heap st_update_list st_db].
    + destruct Hq as [Hl Hndl Ho]. assert (Hlh : forall a, a ∈ l -> h' !! a = st_heap s !! a).
      { intros a Ha. destruct (ulist_in _ _ _ a (proj1 Hvo) Hl Ha) as (v & Hv & _). rewrite Hv. now apply Hold. }
      constructor; [|exact Hndl|].
      * apply (ulist_frame (st_heap s)); [|exact Hl]. intros a Ha. now rewrite Hlh.
      * intros a v Hv Hn. destruct (Hnew a v Hv) as [Hv'|(_ & _ & _ & r & _ & _ & Hun & _)]; [eauto|exact Hun].
    + constructor.
      * intros a v Hv Hl. rewrite Er. destruct (Hnew a v Hv) as [Hv'|(_ & _ & _ & r & Hin' & <- & _ & Hd & _)]; [eauto|].
        exists (dt_row v). split; [|apply synced_refl]. apply Hrow. now apply (list_elem_of_fmap_2 snd) in Hin'.
      * intros a b v x Hv Hx Hlv Hlx Ek.
        destruct (Hnew a v Hv) as [Hv'|(_ & _ & _ & r & Hin1 & <- & _)], (Hnew b x Hx) as [Hx'|(_ & _ & _ & r' & Hin2 & <- & _)].
        -- eauto.
        -- exfalso. apply (list_elem_of_fmap_2 snd), Hrow in Hin2 as [_ Ho2]. cbn in Ho2. rewrite <- Ek in Ho2. exact (Hown a v Hv' Hlv Ho2).
        -- exfalso. apply (list_elem_of_fmap_2 snd), Hrow in Hin1 as [_ Ho1]. cbn in Ho1. rewrite Ek in Ho1. exact (Hown b x Hx' Hlx Ho1).
        -- pose proof (list_elem_of_fmap_2 snd _ _ Hin1) as H1'. pose proof (list_elem_of_fmap_2 snd _ _ Hin2) as H2'.
           apply Hrow in H1' as [R1 _], H2' as [R2 _]. cbn in R1, R2. rewrite Ek, R2 in R1. injection R1 as R1. rewrite R1 in Hin2. exact (Hpair a b _ Hin1 Hin2).
      * intros a v Hv Hfl. destruct (Hnew a v Hv) as [Hv'|(_ & _ & _ & r & _ & _ & _ & _ & Hz)]; [eauto|]. rewrite Hz in Hfl. destruct Hfl; discriminate.
      * intros Hsv a v Hv Hfl. destruct (Hnew a v Hv) as [Hv'|(_ & _ & _ & r & _ & _ & _ & Hd & _)]; [eauto|contradiction].
      * destruct Hvo as (Hvo & Hv1 & Hv2). split; [exact Hvo|]. split; apply eq_None_not_Some; intros [x Hx];
          destruct (Hnew _ x Hx) as [Hx'|(_ & Hne & Hnz & _)]; congruence.
  - exists (with_db s w), None. split; [reflexivity|]. split; [|auto]. constructor; cbn [st_heap st_update_list st_db with_db]; [exact Hq|].
    constructor; try assumption. intros a v Hv Hl. rewrite Er. eauto.
Qed.

(** ** Flushing *)

(** A save writes what is pending, or fails and leaves it pending. *)
Lemma save_spec w v r : rows w !! key (dt_row v) = Some r -> synced (dt_dirty v) r (dt_row v) ->
  exists w' v' ret r', save_datum w v = (w', v', ret) /\ (v' = v \/ v' = set_clean v (dt_data_flag v)) /\
    rows w' !! key (dt_row v) = Some r' /\ synced (dt_dirty v') r' (dt_row v) /\
    (forall k, k <> key (dt_row v) -> rows w' !! k = rows w !! k) /\ (saves_ok -> dt_dirty v' = 0).
Proof.
  intros Hr Hs. unfold save_datum. destruct (Z.eqb_spec (dt_dirty v) 0) as [E|E].
  - exists w, v, 0, r. auto 10.
  - destruct (db_update w (dt_dirty v) (dt_row v)) as [w' ret] eqn:Eu. pose proof (update_law (key := key) (owner := owner) _ _ _ _ _ Eu) as Hu. destruct (Z.eqb_spec ret 0) as [->|Er]; cbn [negb].
    + rewrite Hr in Hu. destruct Hu as (r' & Hw & Hk & Hg). exists w', (set_clean v (dt_data_flag v)), 0, r'. split; [reflexivity|]. split; [now right|].
      rewrite Hw. split; [apply lookup_insert_eq|]. split; [|split; [intros k Hk'; now apply lookup_insert_ne|reflexivity]].
      destruct Hs as [Hsk Hsg]. split; [congruence|]. intros i Hi _. rewrite Hg by exact Hi. destruct (Z.testbit _ i) eqn:Eb; [reflexivity|now apply Hsg].
    + exists w', v, (-1), r. split; [reflexivity|]. split; [now left|]. rewrite Hu. split; [exact Hr|]. split; [exact Hs|]. split; [reflexivity|].
      intros Hok. specialize (Hok w (dt_dirty v) (dt_row v)). rewrite Eu in Hok. cbn in Hok. congruence.
Qed.

(** The list that is left and the one of records that stay. *)
Record queued2 (h : heap) (head : Z) (l : list Z) (nosaved : Z) (ns : list Z) : Prop := {
  q2_list : ulist h head l;
  q2_kept : ulist h nosaved ns;
  q2_nodup : NoDup (l ++ ns);
  q2_others : forall a v, h !! a = Some v -> a ∉ l ++ ns -> dt_update_next v = 0 }.

(** Whether a flush writes a record, and what becomes of it. *)
Definition leaving (v : datum V) : bool := (dt_data_flag v =? DATA_FLAG_RELEASE) || (dt_data_flag v =? DATA_FLAG_DELETE).
Definition due (now : Z) (v : datum V) : bool := (30 <=? now - dt_dirty_time v) || (5 <=? now - dt_last_change_time v).
Definition same_record (v v' : datum V) : Prop :=
  dt_row v' = dt_row v /\ dt_prev v' = dt_prev v /\ dt_next v' = dt_next v /\ dt_data_flag v' = dt_data_flag v.
Definition flushed (now : Z) (v : datum V) (o : option (datum V)) : Prop :=
  if leaving v then o = None
  else exists v', o = Some v' /\ same_record v v' /\
    if due now v then dt_update_next v' = 0 /\ (saves_ok -> dt_dirty v' = 0) else dt_dirty v' = dt_dirty v /\ dt_update_next v' <> 0.

Lemma queued2_step h h' head n l nosaved ns a v : queued2 h head (a :: l) nosaved ns -> h !! a = Some v -> n = dt_update_next v ->
  (forall b, b <> a -> h' !! b = h !! b) -> (forall v', h' !! a = Some v' -> dt_update_next v' = 0) -> queued2 h' n l nosaved ns.
Proof.
  intros [Hl Hk Hnd Ho] Ha -> Hf Hz. cbn [app] in Hnd. apply list.NoDup_cons in Hnd as [Hn Hnd]. rewrite elem_of_app in Hn.
  destruct Hl as (_ & _ & _ & w & Hw & Hl). rewrite Ha in Hw. injection Hw as <-.
  assert (Hfr : forall b, b ∈ l \/ b ∈ ns -> dt_update_next <$> h' !! b = dt_update_next <$> h !! b) by (intros b Hb; rewrite Hf; [reflexivity|]; intros ->; contradiction).
  constructor; [apply (ulist_frame h); auto|apply (ulist_frame h); auto|exact Hnd|].
  intros b x Hb Hnot. destruct (decide (b = a)) as [->|Hne]; [auto|]. rewrite Hf in Hb by exact Hne. apply (Ho b x Hb). cbn [app]. rewrite elem_of_cons. tauto.
Qed.

Lemma queued2_keep h h' head n l nosaved ns a v v' : queued2 h head (a :: l) nosaved ns -> h !! a = Some v -> n = dt_update_next v ->
  (forall b, b <> a -> h' !! b = h !! b) -> h' !! a = Some v' -> dt_update_next v' = nosaved -> queued2 h' n l a (a :: ns).
Proof.
  intros [Hl Hk Hnd Ho] Ha -> Hf Ha' Hv'. cbn [app] in Hnd. apply list.NoDup_cons in Hnd as [Hn Hnd]. rewrite elem_of_app in Hn.
  destruct Hl as (_ & Hav & Haz & w & Hw & Hl). rewrite Ha in Hw. injection Hw as <-.
  assert (Hfr : forall b, b ∈ l \/ b ∈ ns -> dt_update_next <$> h' !! b = dt_update_next <$> h !! b) by (intros b Hb; rewrite Hf; [reflexivity|]; intros ->; contradiction).
  constructor; [apply (ulist_frame h); auto| | |].
  - cbn. split; [reflexivity|]. split; [exact Hav|]. split; [exact Haz|]. exists v'. split; [exact Ha'|]. rewrite Hv'. apply (ulist_frame h); auto.
  - rewrite <- Permutation_middle. apply list.NoDup_cons. split; [rewrite elem_of_app; tauto|exact Hnd].
  - intros b x Hb Hnot. rewrite elem_of_app, elem_of_cons in Hnot. destruct (decide (b = a)) as [->|Hne]; [tauto|]. rewrite Hf in Hb by exact Hne.
    apply (Ho b x Hb). cbn [app]. rewrite elem_of_cons, elem_of_app. tauto.
Qed.

(** One round of the loop. *)
Lemma flush_one_spec s now a l nosaved ns v : queued2 (st_heap s) (st_update_list s) (a :: l) nosaved ns ->
  data_body (st_heap s) (st_db s) ((a :: l) ++ ns) -> st_heap s !! a = Some v ->
  exists s' nosaved' ns', flush_one s now a nosaved = Ret (s', nosaved') /\ queued2 (st_heap s') (st_update_list s') l nosaved' ns' /\
    data_body (st_heap s') (st_db s') (l ++ ns') /\ (forall b, b <> a -> st_heap s' !! b = st_heap s !! b) /\
    flushed now v (st_heap s' !! a) /\ (ns' = ns \/ ns' = a :: ns) /\
    (forall k, (live v -> k <> key (dt_row v)) -> rows (st_db s') !! k = rows (st_db s) !! k) /\
    (saves_ok -> live v -> leaving v || due now v = true -> rows (st_db s') !! key (dt_row v) = Some (dt_row v)).
Proof.
  intros Hq Hb Ha. pose proof Hq as [Hl Hk Hnd _]. unfold flush_one. rewrite Ha. cbn [deref mbind outcome_bind].
  set (v0 := set_update_next v 0). set (s0 := mk_store (<[a := v0]> (st_heap s)) (dt_update_next v) (st_db s)).
  assert (Hfr : forall x b, b <> a -> <[a := x]> (st_heap s) !! b = st_heap s !! b) by (intros x b Hne; now rewrite lookup_insert_ne by congruence).
  assert (Hdel : forall b, b <> a -> delete a (st_heap s) !! b = st_heap s !! b) by (intros b Hne; now rewrite lookup_delete_ne by congruence).
  assert (Hsub : forall b, b ∈ (a :: l) ++ ns -> b <> a -> b ∈ l ++ ns) by (cbn [app]; intros b Hin Hne; now apply elem_of_cons in Hin as [?|?]).
  assert (Hsave : live v -> exists w' v' ret r', DATA_save s0 a = Ret (with_datum (with_db s0 w') a v', ret) /\ (v' = v0 \/ v' = set_clean v0 (dt_data_flag v)) /\
    rows w' !! key (dt_row v) = Some r' /\ synced (dt_dirty v') r' (dt_row v) /\ (forall k, k <> key (dt_row v) -> rows w' !! k = rows (st_db s) !! k) /\ (saves_ok -> dt_dirty v' = 0)).
  { intros Hlv. destruct (dk_synced _ _ _ Hb a v Ha Hlv) as (r & Hr & Hsy).
    destruct (save_spec (st_db s) v0 r Hr Hsy) as (w' & v' & ret & r' & Hs & Hv' & Hr' & Hsy' & Ho & Hok).
    exists w', v', ret, r'. split; [|auto 10]. unfold DATA_save, s0. cbn [st_heap st_db]. rewrite lookup_insert_eq. cbn [deref mbind outcome_bind]. now rewrite Hs. }
  unfold flushed, leaving. destruct (Z.eqb_spec (dt_data_flag v) DATA_FLAG_RELEASE) as [Erel|Erel]; [|destruct (Z.eqb_spec (dt_data_flag v) DATA_FLAG_DELETE) as [Edel|Edel]]; cbn [orb].
  - assert (Hlv : live v) by (unfold live; rewrite Erel; discriminate). destruct (Hsave Hlv) as (w' & v' & ret & r' & -> & _ & Hr' & Hsy & Ho & Hok).
    cbn [mbind outcome_bind]. unfold s0. cbn [st_heap st_update_list st_db with_datum with_db]. rewrite !delete_insert_eq. do 3 eexists. split; [reflexivity|]. cbn [st_heap st_update_list st_db].
    split; [apply (queued2_step _ _ _ _ _ _ _ _ v Hq Ha eq_refl Hdel); intros x Hx; now rewrite lookup_delete_eq in Hx|].
    split; [|split; [exact Hdel|split; [apply lookup_delete_eq|split; [now left|split; [intros k Hk'; now apply Ho, Hk'|]]]]].
    + apply (body_free _ _ _ _ _ _ Hb Hsub). intros b x Hne Hx Hlx. apply Ho. intros E. apply Hne. exact (dk_unique _ _ _ Hb _ _ _ _ Hx Ha Hlx Hlv E).
    + intros Hsv _ _. rewrite (Hok Hsv) in Hsy. now rewrite Hr', (synced_clean _ _ Hsy).
  - unfold s0. cbn [st_heap st_update_list st_db]. rewrite delete_insert_eq. do 3 eexists. split; [reflexivity|]. cbn [st_heap st_update_list st_db].
    split; [apply (queued2_step _ _ _ _ _ _ _ _ v Hq Ha eq_refl Hdel); intros x Hx; now rewrite lookup_delete_eq in Hx|].
    split; [exact (body_free _ _ _ _ _ _ Hb Hsub (fun _ _ _ _ _ => eq_refl))|]. split; [exact Hdel|]. split; [apply lookup_delete_eq|]. split; [now left|].
    split; [reflexivity|]. intros _ Hlv. now destruct Hlv.
  - fold (due now v). assert (Hlv : live v) by exact Edel. destruct (due now v) eqn:Edue.
    + destruct (Hsave Hlv) as (w' & v' & ret & r' & -> & Hv' & Hr' & Hsy & Ho & Hok).
      cbn [mbind outcome_bind]. unfold s0, with_datum, with_db. cbn [st_heap st_update_list st_db]. rewrite !insert_insert_eq. do 3 eexists. split; [reflexivity|]. cbn [st_heap st_update_list st_db].
      assert (Hn0 : dt_update_next v' = 0) by (destruct Hv' as [->| ->]; reflexivity).
      assert (Hsm : same_record v v') by (destruct Hv' as [->| ->]; repeat split).
      split; [apply (queued2_step _ _ _ _ _ _ _ _ v Hq Ha eq_refl (Hfr v')); intros x Hx; rewrite lookup_insert_eq in Hx; now injection Hx as <-|].
      split; [|split; [exact (Hfr v')|split; [|split; [now left|split; [intros k Hk'; now apply Ho, Hk'|]]]]].
      * destruct Hsm as (Hrow & _ & _ & Hfl). assert (Hkeep : forall b, b ∈ (a :: l) ++ ns -> b ∈ (a :: l) ++ ns) by auto.
        assert (Hb1 : data_body (<[a := v']> (st_heap s)) w' ((a :: l) ++ ns)).
        { apply (body_change _ _ _ _ v _ _ _ Hb Ha Hkeep); [now rewrite Hrow|unfold live; now rewrite Hfl|intros _; cbn; left|intros _ _; cbn; left| |].
          - intros _. exists r'. rewrite Hrow. auto.
          - intros b x Hne Hx Hlx. apply Ho. intros E. apply Hne. exact (dk_unique _ _ _ Hb _ _ _ _ Hx Ha Hlx Hlv E). }
        destruct Hb1 as [B1 B2 B3 B5 B4]. constructor; try assumption.
        -- intros b x Hx Hfx. apply Hsub; [eauto|]. intros ->. rewrite lookup_insert_eq in Hx. injection Hx as <-. rewrite Hfl in Hfx. destruct Hfx; contradiction.
        -- intros Hsv b x Hx Hdx. apply Hsub; [eauto|]. intros ->. rewrite lookup_insert_eq in Hx. injection Hx as <-. now apply Hdx, Hok.
      * exists v'. rewrite lookup_insert_eq. auto.
      * intros Hsv _ _. rewrite (Hok Hsv) in Hsy. now rewrite Hr', (synced_clean _ _ Hsy).
    + cbn [mbind outcome_bind]. unfold s0, with_datum. cbn [st_heap st_update_list st_db]. rewrite insert_insert_eq. do 3 eexists. split; [reflexivity|]. cbn [st_heap st_update_list st_db].
      assert (Hnz : nosaved <> 0) by exact (ulist_head_nonzero _ _ _ (proj1 (dk_void _ _ _ Hb)) Hk).
      split; [apply (queued2_keep _ _ _ _ _ _ _ _ v _ Hq Ha eq_refl (Hfr _) (lookup_insert_eq _ _ _)); reflexivity|].
      split; [|split; [exact (Hfr _)|split; [|split; [now right|split; [reflexivity|intros _ _ Hc; discriminate]]]]].
      * apply (body_change _ _ _ _ v _ _ _ Hb Ha); try reflexivity; try auto.
        -- intros b Hin. rewrite <- Permutation_middle. exact Hin.
        -- intros [?|?]; contradiction.
        -- intros Hsv Hdv. rewrite <- Permutation_middle. exact (dk_pending _ _ _ Hb Hsv a v Ha Hdv).
        -- intros _. exact (dk_synced _ _ _ Hb a v Ha Hlv).
      * exists (set_update_next v nosaved). rewrite lookup_insert_eq. cbn. split; [reflexivity|]. split; [repeat split|auto].
Qed.

Lemma flush_loop_spec now l : forall fuel s nosaved ns, queued2 (st_heap s) (st_update_list s) l nosaved ns ->
  data_body (st_heap s) (st_db s) (l ++ ns) -> (length l <= fuel)%nat ->
  exists s' l', flush_loop void fuel s now nosaved = Ret s' /\ data_ok s' l' /\
    (forall a, a ∉ l -> st_heap s' !! a = st_heap s !! a) /\
    (forall a v, a ∈ l -> st_heap s !! a = Some v -> flushed now v (st_heap s' !! a)) /\
    (forall k, (forall a v, a ∈ l -> st_heap s !! a = Some v -> live v -> k <> key (dt_row v)) -> rows (st_db s') !! k = rows (st_db s) !! k) /\
    (saves_ok -> forall a v, a ∈ l -> st_heap s !! a = Some v -> live v -> leaving v || due now v = true -> rows (st_db s') !! key (dt_row v) = Some (dt_row v)).
Proof.
  induction l as [|a l IH]; intros fuel s nosaved ns Hq Hb Hfuel.
  - destruct Hq as [Hl Hk Hnd Ho]. cbn in Hl, Hnd, Ho, Hb. exists (mk_store (st_heap s) nosaved (st_db s)), ns. split; [destruct fuel; cbn [flush_loop]; now rewrite Hl, Z.eqb_refl|].
    split; [constructor; [now constructor|exact Hb]|]. split; [reflexivity|]. split; [intros a v Ha; inversion Ha|]. split; [reflexivity|]. intros _ a v Ha; inversion Ha.
  - destruct fuel as [|fuel]; [cbn in Hfuel; lia|]. pose proof Hq as [Hl _ Hnd _]. cbn [app] in Hnd. apply list.NoDup_cons in Hnd as [Hn Hnd]. rewrite elem_of_app in Hn.
    pose proof Hl as (Hhead & Hav & _ & v & Hv & _). cbn [flush_loop]. rewrite Hhead. destruct (Z.eqb_spec a void); [congruence|].
    destruct (flush_one_spec s now a l nosaved ns v Hq Hb Hv) as (s1 & nosaved1 & ns1 & -> & Hq1 & Hb1 & Hf1 & Hfl & _ & Hr1 & Hw1). cbn [mbind outcome_bind].
    destruct (IH fuel s1 nosaved1 ns1 Hq1 Hb1 ltac:(cbn in Hfuel; lia)) as (s' & l' & -> & Hok & Hout & Hin & Hrows & Hwr). exists s', l'.
    split; [reflexivity|]. split; [exact Hok|]. split; [|split; [|split]].
    + intros b Hb'. rewrite not_elem_of_cons in Hb'. destruct Hb' as [Hne Hb']. rewrite Hout by exact Hb'. now apply Hf1.
    + intros b x Hb' Hx. apply elem_of_cons in Hb' as [->|Hb'].
      * rewrite Hout by tauto. rewrite Hv in Hx. injection Hx as <-. exact Hfl.
      * apply Hin; [exact Hb'|]. rewrite Hf1; [exact Hx|]. intros ->. tauto.
    + intros k Hk. rewrite Hrows.
      * apply Hr1. intros Hlv. apply (Hk a v); [left|exact Hv|exact Hlv].
      * intros b x Hb' Hx Hlx. apply (Hk b x); [now right| |exact Hlx]. rewrite <- Hf1; [exact Hx|]. intros ->. tauto.
    + intros Hsv b x Hb' Hx Hlx Hd. apply elem_of_cons in Hb' as [->|Hb'].
      * rewrite Hv in Hx. injection Hx as <-. rewrite Hrows; [now apply Hw1|]. intros c y Hc Hy Hly E.
        rewrite Hf1 in Hy by (intros ->; tauto). assert (a = c); [|subst; tauto]. exact (dk_unique _ _ _ Hb _ _ _ _ Hv Hy Hlx Hly E).
      * apply (Hwr Hsv b x Hb'); try assumption. rewrite Hf1; [exact Hx|]. intros ->. tauto.
Qed.

Lemma flush_spec s l now : data_ok s l ->
  exists s' l', DATA_flush void s now = Ret s' /\ data_ok s' l' /\ (forall a, a ∉ l -> st_heap s' !! a = st_heap s !! a) /\
    (forall k, (forall a v, a ∈ l -> st_heap s !! a = Some v -> live v -> k <> key (dt_row v)) -> rows (st_db s') !! k = rows (st_db s) !! k) /\
    (forall a v, st_heap s !! a = Some v -> if decide (a ∈ l) then flushed now v (st_heap s' !! a) else st_heap s' !! a = Some v) /\
    (saves_ok -> forall a v, a ∈ l -> st_heap s !! a = Some v -> live v -> leaving v || due now v = true -> rows (st_db s') !! key (dt_row v) = Some (dt_row v)).
Proof.
  intros [[Hl Hnd Ho] Hb]. pose proof (proj1 (dk_void _ _ _ Hb)) as Hv. unfold DATA_flush.
  destruct (flush_loop_spec now l (size (st_heap s)) s void []) as (s' & l' & He & Hok & Hout & Hin & Hk & Hw).
  - constructor; [exact Hl|reflexivity|now rewrite app_nil_r|]. rewrite app_nil_r. exact Ho.
  - now rewrite app_nil_r.
  - apply nodup_size; [exact Hnd|]. intros a Ha. destruct (ulist_in _ _ _ a Hv Hl Ha) as (v & Hav & _). eauto.
  - exists s', l'. split; [exact He|]. split; [exact Hok|]. split; [exact Hout|]. split; [exact Hk|]. split; [|exact Hw].
    intros a v Ha. destruct (decide (a ∈ l)) as [Hal|Hal]; [auto|]. now rewrite Hout.
Qed.

(** The keys of the table are the same after a flush. *)
Lemma flush_keys s l now s' : data_ok s l -> saves_ok -> DATA_flush void s now = Ret s' ->
  forall k, key <$> rows (st_db s') !! k = key <$> rows (st_db s) !! k.
Proof.
  intros Hok Hsv He k. destruct (flush_spec s l now Hok) as (s1 & l1 & He1 & Hok1 & _ & Hk & Hfl & Hw). rewrite He in He1. injection He1 as <-.
  set (P := fun a => match st_heap s !! a with Some v => live v /\ k = key (dt_row v) | None => False end).
  assert (Hdec : forall a, {P a} + {~ P a}) by (intros a; unfold P, live; destruct (st_heap s !! a); [|right; tauto]; apply and_dec; apply decide; exact _).
  destruct (@list.Exists_dec _ P Hdec l) as [Hex|Hex].
  - apply list.Exists_exists in Hex as (a & Ha & HP). unfold P in HP. destruct (st_heap s !! a) as [v|] eqn:Ev; [|contradiction]. destruct HP as [Hlv ->].
    destruct (dk_synced _ _ _ (dk_body _ _ Hok) a v Ev Hlv) as (r & -> & Hk1 & _). cbn [fmap option_fmap option_map]. rewrite Hk1.
    destruct (leaving v) eqn:El; [rewrite (Hw Hsv a v Ha Ev Hlv); [reflexivity|now rewrite El]|].
    specialize (Hfl a v Ev). rewrite decide_True in Hfl by exact Ha. unfold flushed in Hfl. rewrite El in Hfl. destruct Hfl as (v' & Hv' & (Hrow & _ & _ & Hf) & _).
    destruct (dk_synced _ _ _ (dk_body _ _ Hok1) a v' Hv') as (r' & Hr' & Hk2 & _); [unfold live; now rewrite Hf|]. rewrite Hrow in Hr', Hk2. rewrite Hr'. cbn. congruence.
  - rewrite Hk; [reflexivity|]. intros a v Ha Hv Hlv E. apply Hex. apply list.Exists_exists. exists a. unfold P. rewrite Hv. auto.
Qed.

(** ** Sequences of calls *)

(** What the modules of a player do with a table. *)
Inductive data_op :=
| OpNew (r : V)
| OpUpdate (now a id x : Z)
| OpDelete (a : Z)
| OpRelease (a : Z)
| OpLoad (pid : Z)
| OpFlush (now : Z).

Definition data_step (s : st) (op : data_op) : outcome st :=
  match op with
  | OpNew r =>
    let a := malloc (st_heap s) in
    '(s, ret) ← DATA_new (with_datum s a (new_datum r)) a;
    Ret (if ret =? 0 then s else mk_store (delete a (st_heap s)) (st_update_list s) (st_db s))
  | OpUpdate now a id x => DATA_update s now a id x
  | OpDelete a => '(s, _) ← DATA_delete s a; Ret s
  | OpRelease a => DATA_release s a
  | OpLoad pid => '(s, _) ← DATA_load_by_pid malloc s pid; Ret s
  | OpFlush now => DATA_flush void s now
  end.

(** A call is on a record that is not deleted, and rows are loaded only when none of the player's are in memory. *)
Definition live_at (s : st) (a : Z) : Prop := exists v, st_heap s !! a = Some v /\ live v.
Definition op_ok (s : st) (op : data_op) : Prop :=
  match op with
  | OpNew _ | OpFlush _ => True
  | OpUpdate _ a id _ => live_at s a /\ id ∈ row_ids
  | OpDelete a | OpRelease a => live_at s a
  | OpLoad pid => forall a v, st_heap s !! a = Some v -> live v -> owner (key (dt_row v)) <> pid
  end.

Lemma data_step_ok s l op : data_ok s l -> op_ok s op -> exists s' l', data_step s op = Ret s' /\ data_ok s' l'.
Proof.
  intros Hok Hop. destruct op as [r|now a id x|a|a|pid|now]; cbn [data_step op_ok] in *.
  - destruct (malloc_ok (st_heap s)) as (Hn & Hz & Hv). destruct (data_new_ok s l _ r Hok Hn Hz Hv) as (s' & ret & -> & _ & Hres). cbn [mbind outcome_bind].
    destruct (ret =? 0); [destruct Hres as [Hres _]|destruct Hres as [_ Hres]]; eauto.
  - destruct Hop as [(v & Ha & Hl) Hid]. destruct (data_update_ok s l now a id x v Hok Ha Hl Hid) as (s' & l' & v' & He & Hok' & _). eauto.
  - destruct Hop as (v & Ha & Hl). destruct (data_delete_ok s l a v Hok Ha Hl) as (s' & l' & ret & -> & Hok' & _). cbn. eauto.
  - destruct Hop as (v & Ha & Hl). destruct (data_release_ok s l a v Hok Ha Hl) as (s' & l' & v' & He & Hok' & _). eauto.
  - destruct (data_load_ok s l pid Hok Hop) as (s' & head & -> & Hok' & _). cbn. eauto.
  - destruct (flush_spec s l now Hok) as (s' & l' & He & Hok' & _). eauto.
Qed.

(** A run in which every call is allowed. *)
Inductive runs : st -> list data_op -> st -> Prop :=
| runs_nil s : runs s [] s
| runs_step s op ops s1 s2 : op_ok s op -> data_step s op = Ret s1 -> runs s1 ops s2 -> runs s (op :: ops) s2.

Lemma runs_ok s ops s' : runs s ops s' -> forall l, data_ok s l -> exists l', data_ok s' l'.
Proof.
  induction 1 as [s|s op ops s1 s2 Hop Hs Hr IH]; intros l Hok; [eauto|].
  destruct (data_step_ok s l op Hok Hop) as (s1' & l1 & He & Hok1). rewrite Hs in He. injection He as <-. eauto.
Qed.

Definition empty_store (w : W) : st := mk_store ∅ void w.
Lemma empty_ok w : void <> 0 -> data_ok (empty_store w) [].
Proof.
  intros Hv. constructor; cbn [st_heap st_update_list st_db empty_store].
  - constructor; [reflexivity|constructor|]. intros a v Ha. now rewrite lookup_empty in Ha.
  - constructor; try (intros a v Ha; now rewrite lookup_empty in Ha).
    + intros a b v w' Ha. now rewrite lookup_empty in Ha.
    + intros _ a v Ha. now rewrite lookup_empty in Ha.
    + split; [exact Hv|]. now rewrite !lookup_empty.
Qed.

Lemma settled s l a v : data_ok s l -> saves_ok -> st_heap s !! a = Some v -> live v -> dt_update_next v = 0 -> rows (st_db s) !! key (dt_row v) = Some (dt_row v).
Proof.
  intros [[Hl _ _] Hb] Hsv Ha Hlv Hn. destruct (dk_synced _ _ _ Hb a v Ha Hlv) as (r & Hr & Hs).
  assert (Hd : dt_dirty v = 0); [|rewrite Hd in Hs; now rewrite Hr, (synced_clean _ _ Hs)].
  destruct (decide (dt_dirty v = 0)) as [E|E]; [exact E|]. exfalso. pose proof (dk_pending _ _ _ Hb Hsv a v Ha E) as Hin.
  destruct (ulist_in _ _ _ a (proj1 (dk_void _ _ _ Hb)) Hl Hin) as (x & Hx & Hne). congruence.
Qed.
End Laws.

(** C17: Records and rows agree.  After any sequence of the calls a module makes, from an empty memory and any
    database: a record that is not deleted has a row with its key, and the row differs from it at most in the
    columns marked dirty; two such records never stand for the same row; when no update statement fails, a
    record that is not on the update list is equal to its row; every call that is allowed returns. *)
Theorem records_agree_with_rows {V K W : Type} `{Row V} `{Database V W} `{Countable K} (key : V -> K) (owner : K -> Z)
    `{!RowLaws V K key} `{!DatabaseLaws V K W key owner} (void : Z) (malloc : gmap Z (datum V) -> Z) (w : W) ops s :
  (forall h, h !! malloc h = None /\ malloc h <> 0 /\ malloc h <> void) -> void <> 0 ->
  runs key owner void malloc (empty_store void w) ops s ->
  (forall a v, st_heap s !! a = Some v -> live v -> exists r, db_rows (key := key) (owner := owner) (st_db s) !! key (dt_row v) = Some r /\
     key r = key (dt_row v) /\ (forall i, i ∈ row_ids -> Z.testbit (dt_dirty v) i = false -> row_get r i = row_get (dt_row v) i) /\
     (@saves_ok V W _ -> dt_update_next v = 0 -> r = dt_row v)) /\
  (forall a b v v', st_heap s !! a = Some v -> st_heap s !! b = Some v' -> live v -> live v' -> key (dt_row v) = key (dt_row v') -> a = b) /\
  (forall op, op_ok key owner s op -> returns (data_step void malloc s op)).
Proof.
  intros Hm Hv Hrun. destruct (runs_ok key owner void malloc Hm _ _ _ Hrun [] (empty_ok key owner void w Hv)) as (l & Hok).
  split; [|split].
  - intros a v Ha Hl. destruct (dk_synced _ _ _ _ _ _ (dk_body _ _ _ _ _ Hok) a v Ha Hl) as (r & Hr & Hk & Hg). exists r. split; [exact Hr|]. split; [exact Hk|].
    split; [exact Hg|]. intros Hsv Hn. pose proof (settled key owner void s l a v Hok Hsv Ha Hl Hn) as Hs. rewrite Hr in Hs. congruence.
  - intros a b v v' Ha Hb. apply (dk_unique _ _ _ _ _ _ (dk_body _ _ _ _ _ Hok)); assumption.
  - intros op Hop. destruct (data_step_ok key owner void malloc Hm s l op Hok Hop) as (s' & _ & -> & _). now exists s'.
Qed.

(** C18: A flush writes what is due.  From any state a run of calls reaches, [flush] returns; a record that is not
    on the update list is untouched; a released or deleted one is freed, a released one after its row has been
    written; a record whose first change is 30 seconds old, or its last 5 seconds, leaves the list with its row
    equal to it; any other stays as it is and on the list.  (Rows are written when the statements succeed.) *)
Theorem flush_writes_due {V K W : Type} `{Row V} `{Database V W} `{Countable K} (key : V -> K) (owner : K -> Z)
    `{!RowLaws V K key} `{!DatabaseLaws V K W key owner} (void : Z) (malloc : gmap Z (datum V) -> Z) (w : W) ops s now :
  (forall h, h !! malloc h = None /\ malloc h <> 0 /\ malloc h <> void) -> void <> 0 ->
  runs key owner void malloc (empty_store void w) ops s ->
  exists s', DATA_flush void s now = Ret s' /\ forall a v, st_heap s !! a = Some v ->
    let row_written := @saves_ok V W _ -> live v -> db_rows (key := key) (owner := owner) (st_db s') !! key (dt_row v) = Some (dt_row v) in
    if dt_update_next v =? 0 then st_heap s' !! a = Some v
    else if leaving v then st_heap s' !! a = None /\ row_written
    else exists v', st_heap s' !! a = Some v' /\ same_record v v' /\
      if due now v then dt_update_next v' = 0 /\ (@saves_ok V W _ -> dt_dirty v' = 0) /\ row_written
      else dt_dirty v' = dt_dirty v /\ dt_update_next v' <> 0.
Proof.
  intros Hm Hv Hrun. destruct (runs_ok key owner void malloc Hm _ _ _ Hrun [] (empty_ok key owner void w Hv)) as (l & Hok).
  destruct (flush_spec key owner void s l now Hok) as (s' & l' & He & _ & _ & _ & Hfl & Hw). exists s'. split; [exact He|]. intros a v Ha. cbn zeta.
  specialize (Hfl a v Ha). destruct Hok as [[Hl _ Ho] _]. destruct (decide (a ∈ l)) as [Hin|Hout].
  - destruct (ulist_in _ _ _ _ a Hv Hl Hin) as (x & Hx & Hne). assert (x = v) as -> by congruence. destruct (Z.eqb_spec (dt_update_next v) 0); [contradiction|].
    unfold flushed in Hfl. destruct (leaving v) eqn:El; [split; [exact Hfl|]; intros Hsv Hlv; apply (Hw Hsv a v Hin Ha Hlv); now rewrite El|].
    destruct Hfl as (v' & Hv' & Hsame & Hd). exists v'. split; [exact Hv'|]. split; [exact Hsame|]. destruct (due now v) eqn:Ed; [|exact Hd].
    destruct Hd as [Hn Hd]. split; [exact Hn|]. split; [exact Hd|]. intros Hsv Hlv. apply (Hw Hsv a v Hin Ha Hlv). now rewrite El, Ed.
  - rewrite (Ho a v Ha Hout), Z.eqb_refl. exact Hfl.
Qed.

(** ** A database in memory, for concrete runs *)

Section Memory.
Context {V K : Type} `{Row V} `{Countable K} (key : V -> K) (owner : K -> Z) `{!RowLaws V K key}.

Definition merge (mask : Z) (v r : V) : V := foldl (fun r i => if Z.testbit mask i then row_set r i (row_get v i) else r) r row_ids.

(** The rows that carry the key they are under. *)
Definition keyed (w : gmap K V) : gmap K V := filter (fun kv => key (snd kv) = fst kv) w.
Lemma keyed_lookup w k v : keyed w !! k = Some v <-> w !! k = Some v /\ key v = k.
Proof. unfold keyed. rewrite map_lookup_filter_Some. reflexivity. Qed.
Lemma keyed_id w : (forall k v, w !! k = Some v -> key v = k) -> keyed w = w.
Proof.
  intros Hw. apply map_eq. intros k. destruct (w !! k) as [v|] eqn:E; [apply keyed_lookup; auto|].
  apply eq_None_not_Some. intros [v Hv]. apply keyed_lookup in Hv as [Hv _]. congruence.
Qed.
Lemma keyed_idem w : keyed (keyed w) = keyed w.
Proof. apply keyed_id. intros k v Hv. now apply keyed_lookup in Hv. Qed.
Lemma keyed_insert w v : keyed (<[key v := v]> (keyed w)) = <[key v := v]> (keyed w).
Proof. apply keyed_id. intros k x Hx. apply lookup_insert_Some in Hx as [[<- <-]|[_ Hx]]; [reflexivity|now apply keyed_lookup in Hx]. Qed.
Lemma keyed_delete w k : keyed (delete k (keyed w)) = delete k (keyed w).
Proof. apply keyed_id. intros k' x Hx. apply lookup_delete_Some in Hx as [_ Hx]. now apply keyed_lookup in Hx. Qed.

#[local] Instance memory_database : Database V (gmap K V) := {
  db_insert w v := match keyed w !! key v with Some _ => (keyed w, 1) | None => (<[key v := v]> (keyed w), 0) end;
  db_delete w v := (delete (key v) (keyed w), 0);
  db_update w mask v := (match keyed w !! key v with Some r => <[key v := merge mask v r]> (keyed w) | None => keyed w end, 0);
  db_select w pid := (w, Some (map snd (List.filter (fun kv => bool_decide (owner (fst kv) = pid)) (map_to_list (keyed w))))) }.

Lemma merge_loop mask v ids : forall r, (forall i, i ∈ ids -> i ∈ row_ids) ->
  let r' := foldl (fun r i => if Z.testbit mask i then row_set r i (row_get v i) else r) r ids in
  key r' = key r /\ forall j, j ∈ row_ids -> row_get r' j = if bool_decide (j ∈ ids) && Z.testbit mask j then row_get v j else row_get r j.
Proof.
  induction ids as [|i ids IH]; intros r Hs; cbn [foldl]; [split; [reflexivity|]; intros j Hj; now rewrite bool_decide_eq_false_2 by apply not_elem_of_nil|].
  assert (Hi : i ∈ row_ids) by (apply Hs; left). destruct (IH (if Z.testbit mask i then row_set r i (row_get v i) else r)) as [Hk Hg]; [intros j Hj; apply Hs; now right|].
  split; [rewrite Hk; destruct (Z.testbit mask i); [now apply (key_set (key := key))|reflexivity]|]. intros j Hj. rewrite Hg by exact Hj.
  destruct (bool_decide_reflect (j ∈ ids)) as [Hin|Hin].
  - rewrite bool_decide_eq_true_2 by now right. cbn [andb]. destruct (Z.testbit mask j) eqn:Ej; [reflexivity|].
    destruct (Z.testbit mask i) eqn:Ei; [|reflexivity]. rewrite (get_set (key := key)) by assumption. destruct (decide (j = i)) as [->|]; [congruence|reflexivity].
  - cbn [andb]. destruct (decide (j = i)) as [->|Hne].
    + rewrite bool_decide_eq_true_2 by left. cbn [andb]. destruct (Z.testbit mask i) eqn:Ei; [|reflexivity]. rewrite (get_set (key := key)) by assumption.
      now rewrite decide_True by reflexivity.
    + rewrite bool_decide_eq_false_2 by (rewrite elem_of_cons; tauto). cbn [andb]. destruct (Z.testbit mask i); [|reflexivity].
      rewrite (get_set (key := key)) by assumption. now rewrite decide_False by congruence.
Qed.

Lemma memory_select (w : gmap K V) pid :
  let rows := map snd (List.filter (fun kv => bool_decide (owner (fst kv) = pid)) (map_to_list (keyed w))) in
  NoDup rows /\ forall v, v ∈ rows <-> keyed w !! key v = Some v /\ owner (key v) = pid.
Proof.
  cbn zeta. set (f := fun kv => _). assert (Hin : forall kv, kv ∈ List.filter f (map_to_list (keyed w)) <-> keyed w !! fst kv = Some (snd kv) /\ owner (fst kv) = pid).
  { intros [k v]. rewrite list_elem_of_In, filter_In, <- list_elem_of_In, elem_of_map_to_list. unfold f. cbn [fst snd]. now rewrite bool_decide_eq_true. }
  assert (Hk : forall k v, keyed w !! k = Some v -> key v = k) by (intros k v Hv; now apply keyed_lookup in Hv).
  split.
  - apply NoDup_fmap_2_strong.
    + intros [k v] [k' v'] H1' H2' E. cbn in E. subst v'. apply Hin in H1' as [H1' _], H2' as [H2' _]. cbn in *. apply Hk in H1', H2'. congruence.
    + apply NoDup_ListNoDup, List.NoDup_filter, NoDup_ListNoDup, NoDup_map_to_list.
  - intros v. split.
    + intros Hv. apply list_elem_of_fmap in Hv as ([k v'] & -> & Hv). apply Hin in Hv as [Hw Ho]. cbn in *. rewrite (Hk _ _ Hw). auto.
    + intros [Hw Ho]. apply list_elem_of_fmap. exists (key v, v). split; [reflexivity|]. now apply Hin.
Qed.

#[local] Instance memory_laws : DatabaseLaws V K (gmap K V) key owner.
Proof.
  refine {| db_rows := keyed |}.
  - intros w k v Hv. now apply keyed_lookup in Hv.
  - intros w v w' ret. cbn. destruct (keyed w !! key v) eqn:E; intros [= <- <-]; cbn; [apply keyed_idem|]. split; [reflexivity|apply keyed_insert].
  - intros w v w' ret. cbn. intros [= <- <-]. apply keyed_delete.
  - intros w mask v w' ret. cbn. intros [= <- <-]. cbn. destruct (keyed w !! key v) as [r|] eqn:E; [|apply keyed_idem].
    destruct (merge_loop mask v row_ids r) as [Hk Hg]; [auto|]. fold (merge mask v r) in Hk, Hg. exists (merge mask v r).
    assert (Hkv : key (merge mask v r) = key v) by (apply keyed_lookup in E as [_ E]; congruence). rewrite <- Hkv. split; [apply keyed_insert|]. split; [exact Hk|].
    intros i Hi. rewrite Hg by exact Hi. now rewrite bool_decide_eq_true_2 by exact Hi.
  - intros w pid w' rows. cbn. intros [= <- <-]. split; [reflexivity|]. intros vs [= <-]. apply memory_select.
Defined.

Lemma memory_saves_ok : @saves_ok V (gmap K V) _.
Proof. intros w mask v. reflexivity. Qed.
Lemma memory_inserts_ok : inserts_ok key owner (W := gmap K V).
Proof. intros w v Hn. cbn in *. now rewrite Hn. Qed.
End Memory.

(** The address of [void] in concrete runs. *)
Definition VOID : Z := 7.
Lemma next_address_ok {V} (h : gmap Z (datum V)) : h !! next_address h = None /\ next_address h <> 0 /\ next_address h <> VOID.
Proof. destruct (next_address_spec h). unfold VOID. split; [assumption|lia]. Qed.

(** A table with one column besides its key, whose owner is the key over a hundred. *)
#[local] Instance sample_row : Row (Z * Z) := { row_ids := [2]; row_get r _ := snd r; row_set r _ x := (fst r, x) }.
#[local] Instance sample_row_laws : RowLaws (Z * Z) Z fst.
Proof.
  constructor.
  - intros i Hi. apply list_elem_of_singleton in Hi as ->. lia.
  - intros r i j x Hi Hj. apply list_elem_of_singleton in Hi as ->, Hj as ->. reflexivity.
  - reflexivity.
  - intros [k v] [k' v'] E Hg. cbn in E. specialize (Hg 2 ltac:(left)). cbn in Hg. congruence.
Qed.
Definition sample_owner (k : Z) : Z := k / 100.
#[local] Instance sample_database : Database (Z * Z) (gmap Z (Z * Z)) := memory_database fst sample_owner.
#[local] Instance sample_database_laws : DatabaseLaws (Z * Z) Z (gmap Z (Z * Z)) fst sample_owner := memory_laws fst sample_owner.
Definition sample_table : gmap Z (Z * Z) := {[101 := (101, 5); 205 := (205, 6)]}.

(** A row is loaded, changed twice; another is made and flushed with the first not yet due. *)
Definition sample_calls : list (data_op (V := Z * Z)) :=
  [OpLoad 1; OpUpdate 1000 8 2 7; OpUpdate 1002 8 2 9; OpNew (310, 1); OpFlush 1004; OpUpdate 1004 10 2 3; OpRelease 10].
Definition sample_store : store (Z * Z) (gmap Z (Z * Z)) :=
  mk_store {[8 := mk_datum 0 0 VOID 4 1000 1002 0 (101, 9); 10 := mk_datum 0 0 8 4 1004 1004 2 (310, 3)]} 10 {[101 := (101, 5); 205 := (205, 6); 310 := (310, 1)]}.
Lemma sample_runs : runs fst sample_owner VOID next_address (empty_store VOID sample_table) sample_calls sample_store.
Proof.
  unfold sample_calls. econstructor; [intros a v Ha; discriminate|vm_compute; reflexivity|].
  do 2 (econstructor; [split; [eexists; split; [reflexivity|discriminate]|left]|vm_compute; reflexivity|]).
  do 2 (econstructor; [exact I|vm_compute; reflexivity|]).
  econstructor; [split; [eexists; split; [reflexivity|discriminate]|left]|vm_compute; reflexivity|].
  econstructor; [eexists; split; [reflexivity|discriminate]|vm_compute; reflexivity|].
  apply runs_nil.
Qed.

(** The changed row is behind its record and waits. *)
Lemma records_agree_with_rows_witness :
  (exists r, st_db sample_store !! 101 = Some r /\ fst r = 101) /\ returns (data_step VOID next_address sample_store (OpUpdate 1005 8 2 1)).
Proof.
  destruct (records_agree_with_rows fst sample_owner VOID next_address sample_table sample_calls sample_store next_address_ok ltac:(discriminate) sample_runs) as (Ha & _ & Hr).
  split; [|apply Hr; split; [eexists; split; [reflexivity|discriminate]|left]].
  destruct (Ha 8 (mk_datum 0 0 VOID 4 1000 1002 0 (101, 9)) eq_refl ltac:(discriminate)) as (r & Hl & Hk & _).
  exists r. split; [exact Hl|exact Hk].
Defined.
Lemma flush_writes_due_witness :
  exists s, DATA_flush VOID sample_store 1008 = Ret s /\ st_heap s !! 10 = None /\ (st_heap s !! 8 = None \/ exists v, st_heap s !! 8 = Some v /\ dt_update_next v = 0).
Proof.
  destruct (flush_writes_due fst sample_owner VOID next_address sample_table sample_calls sample_store 1008 next_address_ok ltac:(discriminate) sample_runs) as (s & He & Hf).
  exists s. split; [exact He|]. split; [exact (proj1 (Hf 10 _ eq_refl))|]. right.
  destruct (Hf 8 _ eq_refl) as (v & Hv & _ & Hn & _). eauto.
Defined.
