(* ===== verification/DataSet.v ===== *)
(** * The records of one player: a list and a map

    [modules/reward_flag.c], [daily.c], [quest.c] and [buff.c] keep the records of a player in the same way: in an intrusive
    list and in a map from the record's number to its address, over the table's records ([Data]).  This
    file has the two loops they share and what the list and the map promise together. *)
From S2P Require Import Prelude AgMap Dlist Keyed Data.

#[export] Instance datum_linked {V} : Linked (datum V) := {
  l_prev := dt_prev;
  l_next := dt_next;
  set_prev v p := mk_datum p (dt_next v) (dt_update_next v) (dt_dirty v) (dt_dirty_time v) (dt_last_change_time v) (dt_data_flag v) (dt_row v);
  set_next v n := mk_datum (dt_prev v) n (dt_update_next v) (dt_dirty v) (dt_dirty_time v) (dt_last_change_time v) (dt_data_flag v) (dt_row v) }.
#[export] Instance datum_linked_laws {V} : LinkedLaws (datum V).
Proof. constructor; intros; reflexivity. Qed.

(** What the index of the records has to promise: looking up and entering; removing where the module removes. *)
Class PutLaws (M : Type) `{PtrMap M} := {
  pt_ok : M -> Prop;
  pt_abs : M -> gmap Z Z;
  pt_get_spec : forall m key, pt_ok m -> pm_get m key = Ret (default 0 (pt_abs m !! key));
  pt_put_spec : forall m key p, pt_ok m -> Z.of_nat (size (pt_abs m)) < 2 ^ 61 -> p <> 0 ->
    exists m', pm_set m key p = Ret (m', default 0 (pt_abs m !! key)) /\ pt_ok m' /\ pt_abs m' = <[key := p]> (pt_abs m) }.
Class RemoveLaws (M : Type) `{PutLaws M} := {
  pt_remove_spec : forall m key, pt_ok m -> Z.of_nat (size (pt_abs m)) < 2 ^ 61 ->
    exists m', pm_set m key 0 = Ret (m', default 0 (pt_abs m !! key)) /\ pt_ok m' /\ pt_abs m' = delete key (pt_abs m) }.
#[export] Instance map_put_laws `{PtrMapLaws M} : PutLaws M.
Proof.
  refine {| pt_ok := pm_ok; pt_abs := pm_abs |}; [exact pm_get_spec|]. intros m key p Hm Hs Hp. destruct (pm_set_spec m key p Hm Hs) as (m' & He & Hm' & Ha).
  apply Z.eqb_neq in Hp. rewrite Hp in Ha. eauto.
Defined.
#[export] Instance map_remove_laws `{PtrMapLaws M} : RemoveLaws M.
Proof. constructor. intros m key Hm Hs. destruct (pm_set_spec m key 0 Hm Hs) as (m' & He & Hm' & Ha). eauto. Qed.

(** [struct RewardFlagSet], [struct DailySet], ... *)
Record data_set (M : Type) := mk_set { ds_m : M; ds_list : Z }.
Arguments mk_set {M} _ _.
Arguments ds_m {M} _.
Arguments ds_list {M} _.

Section Operations.
Context {V W M : Type} `{Row V} `{Database V W} `{PtrMap M} (id_of : V -> Z) (keep : V -> bool) (void : Z).
#[local] Abbreviation st := (store V W).

Definition with_heap (s : st) h : st := mk_store h (st_update_list s) (st_db s).

(** The loop of loading: each record is linked at the tail and entered in the map; some modules free the records
    of rows they have no use for, those without [keep]. *)
Fixpoint attach_loop (fuel : nat) (s : st) (set : data_set M) (list : Z) : outcome (st * data_set M) :=
  if list =? 0 then Ret (s, set)
  else
    match fuel with
    | O => NoFuel
    | S fuel' =>
      v ← deref (st_heap s !! list);
      if negb (keep (dt_row v)) then attach_loop fuel' (with_heap s (delete list (st_heap s))) set (dt_next v) else
      h ← dlist_init (st_heap s) list;
      '(h, q) ← dlist_insert_tail h (ds_list set) list;
      '(m, _) ← pm_set (ds_m set) (id_of (dt_row v)) list;
      attach_loop fuel' (with_heap s h) (mk_set m q) (dt_next v)
    end.

(** [X_load] of a player; [None] when the query fails.  A record is linked once. *)
Definition load_set (map_new : M) (malloc : gmap Z (datum V) -> Z) (s : st) (pid : Z) : outcome (st * option (data_set M)) :=
  '(s, head) ← DATA_load_by_pid malloc s pid;
  match head with
  | None => Ret (s, None)
  | Some head => '(s, set) ← attach_loop (size (st_heap s)) s (mk_set map_new 0) head; Ret (s, Some set)
  end.

(** [X_release]: every record leaves the list and is released. *)
Fixpoint release_loop (fuel : nat) (s : st) (q : Z) : outcome st :=
  if q =? 0 then Ret s
  else
    match fuel with
    | O => NoFuel
    | S fuel' =>
      '(h, q') ← dlist_remove (st_heap s) q q;
      s ← DATA_release (with_heap s h) q;
      release_loop fuel' s q'
    end.
Definition release_set (s : st) (set : data_set M) : outcome st := release_loop (size (st_heap s)) s (ds_list set).
End Operations.

Section Theory.
Context {V K W M : Type} `{Row V} `{Database V W} `{Countable K} (key : V -> K) (owner : K -> Z).
Context `{!RowLaws V K key} `{!DatabaseLaws V K W key owner} `{PutLaws M} (id_of : V -> Z) (keep : V -> bool) (void : Z).
#[local] Abbreviation st := (store V W).
#[local] Abbreviation heap := (gmap Z (datum V)).
#[local] Abbreviation data_ok := (data_ok key owner void).
#[local] Abbreviation rows := (db_rows (key := key) (owner := owner)).

(** ** Links and bookkeeping are independent *)

Lemma strip_lookup (h h' : heap) a v : strip h' = strip h -> h' !! a = Some v ->
  exists v0, h !! a = Some v0 /\ dt_update_next v = dt_update_next v0 /\ dt_dirty v = dt_dirty v0 /\ dt_data_flag v = dt_data_flag v0 /\ dt_row v = dt_row v0.
Proof.
  intros Hs Ha. assert (E : strip h' !! a = strip h !! a) by now rewrite Hs. unfold strip in E. rewrite !lookup_fmap, Ha in E.
  destruct (h !! a) as [v0|]; [|discriminate]. exists v0. cbn in E. injection E as E1 E2 E3 E4 E5 E6. auto.
Qed.

Lemma strip_sym_lookup (h h' : heap) a v : strip h' = strip h -> h !! a = Some v ->
  exists v1, h' !! a = Some v1 /\ dt_update_next v1 = dt_update_next v /\ dt_dirty v1 = dt_dirty v /\ dt_data_flag v1 = dt_data_flag v /\ dt_row v1 = dt_row v.
Proof. intros Hs Ha. destruct (strip_lookup h' h a v (eq_sym Hs) Ha) as (v1 & ? & ? & ? & ? & ?). exists v1. auto. Qed.

Lemma ulist_strip (h h' : heap) head l : strip h' = strip h -> ulist void h head l -> ulist void h' head l.
Proof.
  intros Hs. apply ulist_frame. intros a _. destruct (h !! a) as [v|] eqn:Ha.
  - destruct (strip_sym_lookup h h' a v Hs Ha) as (v1 & -> & Hu & _). cbn. now rewrite Hu.
  - destruct (h' !! a) as [v1|] eqn:Ha'; [|reflexivity]. destruct (strip_lookup h h' a v1 Hs Ha') as (v & Hv & _). congruence.
Qed.

Lemma data_links s h l : data_ok s l -> strip h = strip (st_heap s) -> data_ok (with_heap s h) l.
Proof.
  intros [[Hl Hnd Ho] [Hsy Hu Hf Hp (Hv & Hv1 & Hv2)]] Hs. constructor; cbn [st_heap st_update_list st_db with_heap].
  - constructor; [exact (ulist_strip _ _ _ _ Hs Hl)|exact Hnd|]. intros a v Ha Hn. destruct (strip_lookup _ _ _ _ Hs Ha) as (v0 & Ha0 & -> & _). eauto.
  - constructor.
    + intros a v Ha Hlv. destruct (strip_lookup _ _ _ _ Hs Ha) as (v0 & Ha0 & _ & -> & Hfl & ->). unfold live in Hlv. rewrite Hfl in Hlv. eauto.
    + intros a b v w Ha Hb Hlv Hlw E. destruct (strip_lookup _ _ _ _ Hs Ha) as (v0 & Ha0 & _ & _ & Hfl & Hr).
      destruct (strip_lookup _ _ _ _ Hs Hb) as (w0 & Hb0 & _ & _ & Hfl' & Hr'). unfold live in Hlv, Hlw. rewrite Hr, Hr' in E. rewrite Hfl in Hlv. rewrite Hfl' in Hlw. eauto.
    + intros a v Ha Hfl. destruct (strip_lookup _ _ _ _ Hs Ha) as (v0 & Ha0 & _ & _ & E & _). rewrite E in Hfl. eauto.
    + intros Hsv a v Ha Hd. destruct (strip_lookup _ _ _ _ Hs Ha) as (v0 & Ha0 & _ & E & _). rewrite E in Hd. eauto.
    + split; [exact Hv|]. split; apply eq_None_not_Some; intros [v Ha]; destruct (strip_lookup _ _ _ _ Hs Ha) as (v0 & Ha0 & _); congruence.
Qed.

(** ** The list and the map of a player *)

(** A record in use: neither deleted nor released. *)
Definition in_use (v : datum V) : Prop := dt_data_flag v <> DATA_FLAG_DELETE /\ dt_data_flag v <> DATA_FLAG_RELEASE.

Record set_ok (s : st) (set : data_set M) (l : list Z) : Prop := {
  so_ring : ring (st_heap s) (ds_list set) l;
  so_map : pt_ok (ds_m set);
  so_index : forall k a, pt_abs (ds_m set) !! k = Some a <-> a ∈ l /\ exists v, st_heap s !! a = Some v /\ id_of (dt_row v) = k;
  so_use : forall a, a ∈ l -> exists v, st_heap s !! a = Some v /\ in_use v;
  so_size : size (pt_abs (ds_m set)) = length l }.

(** The row with a number. *)
Definition row_of (s : st) (set : data_set M) (k : Z) : option V :=
  match pt_abs (ds_m set) !! k with Some a => dt_row <$> st_heap s !! a | None => None end.

Lemma set_get s set l k : set_ok s set l ->
  (exists a v, pm_get (ds_m set) k = Ret a /\ a <> 0 /\ a ∈ l /\ st_heap s !! a = Some v /\ in_use v /\ id_of (dt_row v) = k /\ row_of s set k = Some (dt_row v)) \/
  (pm_get (ds_m set) k = Ret 0 /\ row_of s set k = None /\ pt_abs (ds_m set) !! k = None).
Proof.
  intros [Hr Hm Hi Hu _]. rewrite pt_get_spec by exact Hm. unfold row_of. destruct (pt_abs (ds_m set) !! k) as [a|] eqn:E; [left|right; auto].
  apply Hi in E as (Ha & v & Hv & Hk). destruct (Hu a Ha) as (v' & Hv' & Huse). assert (v' = v) as -> by congruence.
  exists a, v. rewrite Hv. split; [reflexivity|]. split; [exact (ring_pos _ _ _ _ Hr Ha)|]. auto 10.
Qed.

Lemma row_at s set l a v : set_ok s set l -> a ∈ l -> st_heap s !! a = Some v -> row_of s set (id_of (dt_row v)) = Some (dt_row v).
Proof. intros Hok Hal Ha. unfold row_of. rewrite (proj2 (so_index _ _ _ Hok _ a)) by eauto. now rewrite Ha. Qed.

Lemma same_rows_length s s' set set' l l' : set_ok s set l -> set_ok s' set' l' -> (forall k, row_of s' set' k = row_of s set k) -> length l' = length l.
Proof.
  intros Hok Hok' Hr. rewrite <- (so_size _ _ _ Hok), <- (so_size _ _ _ Hok'), <- !size_dom. f_equal. apply set_eq. intros k. rewrite !elem_of_dom.
  specialize (Hr k). destruct (set_get s set l k Hok) as [(a & v & _ & _ & Ha & Hv & _ & Hk & E)|(_ & E & Em)], (set_get s' set' l' k Hok') as [(a' & v' & _ & _ & Ha' & Hv' & _ & Hk' & E')|(_ & E' & Em')]; try congruence.
  - rewrite (proj2 (so_index _ _ _ Hok k a)), (proj2 (so_index _ _ _ Hok' k a')) by eauto. split; eauto.
  - rewrite Em, Em'. tauto.
Qed.

(** A record changes its columns. *)
Lemma set_change s s' set l a v v' : set_ok s set l -> a ∈ l -> st_heap s !! a = Some v -> st_heap s' = <[a := v']> (st_heap s) ->
  dt_prev v' = dt_prev v -> dt_next v' = dt_next v -> in_use v' -> id_of (dt_row v') = id_of (dt_row v) ->
  set_ok s' set l /\ forall k, row_of s' set k = if k =? id_of (dt_row v) then Some (dt_row v') else row_of s set k.
Proof.
  intros [Hr Hm Hi Hu Hsz] Hal Ha Hs Hp Hn Huse Hid.
  assert (Hl : forall b, nx (st_heap s') b = nx (st_heap s) b /\ pv (st_heap s') b = pv (st_heap s) b).
  { intros b. rewrite Hs. unfold nx, pv. destruct (decide (b = a)) as [->|Hne]; [rewrite lookup_insert_eq, Ha; cbn; now rewrite Hp, Hn|now rewrite lookup_insert_ne by congruence]. }
  split.
  - constructor; [| exact Hm| | |exact Hsz].
    + exact (ring_same _ _ _ _ Hr (fun b _ => Hl b)).
    + intros k b. rewrite Hi, Hs. destruct (decide (b = a)) as [->|Hne]; [|now rewrite lookup_insert_ne by congruence].
      rewrite lookup_insert_eq, Ha. split; intros (Hb & x & [= <-] & <-); (split; [exact Hb|]); eexists; (split; [reflexivity|]); congruence.
    + intros b Hb. rewrite Hs. destruct (decide (b = a)) as [->|Hne]; [rewrite lookup_insert_eq; eauto|rewrite lookup_insert_ne by congruence; auto].
  - intros k. unfold row_of. destruct (pt_abs (ds_m set) !! k) as [b|] eqn:E.
    + rewrite Hs. apply Hi in E as (Hb & x & Hx & Hk). destruct (decide (b = a)) as [->|Hne].
      * rewrite lookup_insert_eq. assert (x = v) as -> by congruence. rewrite Hk, Z.eqb_refl. reflexivity.
      * rewrite lookup_insert_ne by congruence. destruct (Z.eqb_spec k (id_of (dt_row v))) as [Ek|Ek]; [|reflexivity]. exfalso. apply Hne.
        assert (Ga : pt_abs (ds_m set) !! k = Some a) by (apply Hi; eauto). assert (Gb : pt_abs (ds_m set) !! k = Some b) by (apply Hi; eauto). congruence.
    + destruct (Z.eqb_spec k (id_of (dt_row v))) as [Ek|Ek]; [|reflexivity]. exfalso.
      assert (Ga : pt_abs (ds_m set) !! k = Some a) by (apply Hi; eauto). congruence.
Qed.

Lemma same_datum (h h' : heap) b : strip h' = strip h -> nx h' b = nx h b -> pv h' b = pv h b -> h' !! b = h !! b.
Proof.
  intros Hs Hn Hp. assert (E : strip h' !! b = strip h !! b) by now rewrite Hs. unfold strip in E. rewrite !lookup_fmap in E.
  unfold nx, pv in *. destruct (h !! b) as [[? ? ? ? ? ? ? ?]|], (h' !! b) as [[? ? ? ? ? ? ? ?]|]; cbn in *; congruence.
Qed.

Lemma set_fresh s set l a : set_ok s set l -> st_heap s !! a = None -> a ∉ l.
Proof. intros Hok Ha Hin. destruct (so_use _ _ _ Hok a Hin) as (v & Hv & _). congruence. Qed.

(** The same records through another heap. *)
Lemma set_other s h set l : set_ok s set l -> (forall a, a ∈ l -> h !! a = st_heap s !! a) ->
  set_ok (with_heap s h) set l /\ forall k, row_of (with_heap s h) set k = row_of s set k.
Proof.
  intros [Hr Hm Hi Hu Hsz] Hf. assert (Hl : forall b, b ∈ l -> nx h b = nx (st_heap s) b /\ pv h b = pv (st_heap s) b) by (intros b Hb; unfold nx, pv; now rewrite Hf by exact Hb).
  split.
  - constructor; cbn [st_heap with_heap]; [|exact Hm| | |exact Hsz].
    + exact (ring_same _ _ _ _ Hr Hl).
    + intros k a. rewrite Hi. split; intros (Ha & v & Hv & Hk); (split; [exact Ha|]); exists v; rewrite Hf in * by exact Ha; auto.
    + intros a Ha. rewrite Hf by exact Ha. auto.
  - intros k. unfold row_of. cbn [st_heap with_heap]. destruct (pt_abs (ds_m set) !! k) as [a|] eqn:E; [|reflexivity].
    apply Hi in E as (Ha & _). now rewrite Hf.
Qed.

(** A record enters the list and the map. *)
Lemma set_attach s set l a v : set_ok s set l -> zlen l < 2 ^ 61 -> a ∉ l -> a <> 0 -> st_heap s !! a = Some v -> dt_prev v = 0 -> dt_next v = 0 ->
  in_use v -> row_of s set (id_of (dt_row v)) = None ->
  exists h' q' m', dlist_insert_tail (st_heap s) (ds_list set) a = Ret (h', q') /\ pm_set (ds_m set) (id_of (dt_row v)) a = Ret (m', 0) /\
    strip h' = strip (st_heap s) /\ (forall b, b ∉ a :: l -> h' !! b = st_heap s !! b) /\ set_ok (with_heap s h') (mk_set m' q') (l ++ [a]) /\
    forall k, row_of (with_heap s h') (mk_set m' q') k = if k =? id_of (dt_row v) then Some (dt_row v) else row_of s set k.
Proof.
  intros Hok Hl Hal Haz Ha Hp Hn Huse Hnone. pose proof Hok as [Hr Hm Hi Hu Hsz].
  assert (Hk : pt_abs (ds_m set) !! id_of (dt_row v) = None).
  { destruct (set_get s set l (id_of (dt_row v)) Hok) as [(b & w & _ & _ & _ & _ & _ & _ & E)|(_ & _ & E)]; [congruence|exact E]. }
  assert (Hun : unlinked (st_heap s) a) by (unfold unlinked, nx, pv; rewrite Ha; cbn; now rewrite Hp, Hn).
  destruct (insert_tail_spec (st_heap s) (ds_list set) l a Hr Hal Haz Hun) as (h' & q' & He & Hr' & Hst & Hf).
  destruct (pt_put_spec (ds_m set) (id_of (dt_row v)) a Hm) as (m' & Hs & Hm' & Habs); [rewrite Hsz; exact Hl|exact Haz|].
  rewrite Hk in Hs. cbn [from_option id] in Hs.
  exists h', q', m'. split; [exact He|]. split; [exact Hs|]. split; [exact Hst|].
  split; [intros b Hb; destruct (Hf b Hb); now apply same_datum|]. split.
  - constructor; cbn [st_heap with_heap ds_m ds_list]; [exact Hr'|exact Hm'| | |].
    + intros k b. rewrite Habs, lookup_insert_Some, Hi, elem_of_app, list_elem_of_singleton. split.
      * intros [[<- <-]|[Hne (Hb & w & Hw & Hwk)]].
        -- split; [now right|]. destruct (strip_sym_lookup _ _ _ _ Hst Ha) as (v1 & Hv1 & _ & _ & _ & Hrow). exists v1. now rewrite Hrow.
        -- split; [now left|]. destruct (strip_sym_lookup _ _ _ _ Hst Hw) as (w1 & Hw1 & _ & _ & _ & Hrow). exists w1. now rewrite Hrow.
      * intros [Hb (w & Hw & Hwk)]. destruct (strip_lookup _ _ _ _ Hst Hw) as (w0 & Hw0 & _ & _ & _ & Hrow). rewrite Hrow in Hwk.
        destruct Hb as [Hb| ->]; [|left; split; congruence]. right. split; [|eauto]. intros E.
        assert (pt_abs (ds_m set) !! id_of (dt_row v) = Some b) by (apply Hi; split; [exact Hb|]; exists w0; split; congruence). congruence.
    + intros b Hb. rewrite elem_of_app, list_elem_of_singleton in Hb. assert (Hw : exists w, st_heap s !! b = Some w /\ in_use w) by (destruct Hb as [Hb| ->]; eauto).
      destruct Hw as (w & Hw & Huw). destruct (strip_sym_lookup _ _ _ _ Hst Hw) as (w1 & Hw1 & _ & _ & Hfl & _). exists w1. unfold in_use. rewrite Hfl. auto.
    + rewrite Habs, map_size_insert_None, Hsz, length_app by exact Hk. cbn. lia.
  - intros k. unfold row_of. cbn [st_heap with_heap ds_m]. rewrite Habs. destruct (Z.eqb_spec k (id_of (dt_row v))) as [->|Hne].
    + rewrite lookup_insert_eq. destruct (strip_sym_lookup _ _ _ _ Hst Ha) as (v1 & -> & _ & _ & _ & Hrow). cbn. now rewrite Hrow.
    + rewrite lookup_insert_ne by congruence. destruct (pt_abs (ds_m set) !! k) as [b|] eqn:E; [|reflexivity].
      apply Hi in E as (_ & w & Hw & _). destruct (strip_sym_lookup _ _ _ _ Hst Hw) as (w1 & -> & _ & _ & _ & Hrow). rewrite Hw. cbn. now rewrite Hrow.
Qed.

(** A record leaves the list and the map. *)
Lemma set_detach `{!RemoveLaws M} s set l1 a l2 v : set_ok s set (l1 ++ a :: l2) -> zlen (l1 ++ a :: l2) < 2 ^ 61 -> st_heap s !! a = Some v ->
  forall h v1, h = <[a := v1]> (st_heap s) -> dt_prev v1 = dt_prev v -> dt_next v1 = dt_next v ->
  exists h' q' m', dlist_remove h (ds_list set) a = Ret (h', q') /\ pm_set (ds_m set) (id_of (dt_row v)) 0 = Ret (m', a) /\
    strip h' = strip h /\ (forall b, b ∉ l1 ++ a :: l2 -> h' !! b = st_heap s !! b) /\ set_ok (with_heap s h') (mk_set m' q') (l1 ++ l2) /\
    forall k, row_of (with_heap s h') (mk_set m' q') k = if k =? id_of (dt_row v) then None else row_of s set k.
Proof.
  intros [Hr Hm Hi Hu Hsz] Hl Ha h v1 -> Hp Hn. assert (Hin : a ∈ l1 ++ a :: l2) by (apply elem_of_app; right; left).
  assert (Hlk : forall b, nx (<[a := v1]> (st_heap s)) b = nx (st_heap s) b /\ pv (<[a := v1]> (st_heap s)) b = pv (st_heap s) b).
  { intros b. unfold nx, pv. destruct (decide (b = a)) as [->|Hne]; [rewrite lookup_insert_eq, Ha; cbn; now rewrite Hp, Hn|now rewrite lookup_insert_ne by congruence]. }
  assert (Hr1 : ring (<[a := v1]> (st_heap s)) (ds_list set) (l1 ++ a :: l2)).
  { exact (ring_same _ _ _ _ Hr (fun b _ => Hlk b)). }
  destruct (remove_spec _ _ l1 a l2 Hr1) as (h' & q' & He & Hr' & _ & Hst & Hf).
  assert (Hk : pt_abs (ds_m set) !! id_of (dt_row v) = Some a) by (apply Hi; eauto).
  destruct (pt_remove_spec (ds_m set) (id_of (dt_row v)) Hm) as (m' & Hs & Hm' & Habs); [rewrite Hsz; exact Hl|].
  rewrite Hk in Hs. cbn [from_option id] in *. pose proof (ring_nodup _ _ _ Hr) as Hnd.
  assert (Hna : a ∉ l1 ++ l2) by (rewrite <- Permutation_middle in Hnd; now apply list.NoDup_cons in Hnd as [? _]).
  assert (Hmid : forall b, b ∈ l1 ++ a :: l2 <-> b = a \/ b ∈ l1 ++ l2) by (intros b; rewrite !elem_of_app, elem_of_cons; tauto).
  assert (Hrow : forall b w, b <> a -> st_heap s !! b = Some w -> exists w1, h' !! b = Some w1 /\ dt_row w1 = dt_row w /\ dt_data_flag w1 = dt_data_flag w).
  { intros b w Hne Hw. assert (Hw' : <[a := v1]> (st_heap s) !! b = Some w) by (now rewrite lookup_insert_ne by congruence).
    destruct (strip_sym_lookup _ _ _ _ Hst Hw') as (w1 & Hw1 & _ & _ & Hfl & Hrw). eauto. }
  exists h', q', m'. split; [exact He|]. split; [exact Hs|]. split; [exact Hst|]. split.
  { intros b Hb. destruct (Hf b Hb). rewrite (same_datum _ _ b Hst) by assumption. apply lookup_insert_ne. intros ->. contradiction. }
  split.
  - constructor; cbn [st_heap with_heap ds_m ds_list]; [exact Hr'|exact Hm'| | |].
    + intros k b. rewrite Habs, lookup_delete_Some, Hi, Hmid. split.
      * intros (Hne & Hb & w & Hw & Hwk). destruct Hb as [->|Hb]; [exfalso; apply Hne; congruence|]. split; [exact Hb|].
        destruct (Hrow b w ltac:(intros ->; contradiction) Hw) as (w1 & Hw1 & Hrw & _). exists w1. now rewrite Hrw.
      * intros (Hb & w1 & Hw1 & Hwk). assert (Hba : b <> a) by (intros ->; contradiction). destruct (Hu b) as (w & Hw & _); [apply Hmid; now right|].
        destruct (Hrow b w Hba Hw) as (w2 & Hw2 & Hrw & _). assert (Hwk' : id_of (dt_row w) = k) by congruence. split; [|eauto].
        intros E. assert (pt_abs (ds_m set) !! k = Some b) by (apply Hi; split; [apply Hmid; now right|eauto]). congruence.
    + intros b Hb. destruct (Hu b) as (w & Hw & Huw); [apply Hmid; now right|]. destruct (Hrow b w ltac:(intros ->; contradiction) Hw) as (w1 & Hw1 & _ & Hfl).
      exists w1. unfold in_use. rewrite Hfl. auto.
    + rewrite Habs, map_size_delete_Some by eauto. rewrite Hsz, !length_app. cbn. lia.
  - intros k. unfold row_of. cbn [st_heap with_heap ds_m]. rewrite Habs. destruct (Z.eqb_spec k (id_of (dt_row v))) as [->|Hne]; [now rewrite lookup_delete_eq|].
    rewrite lookup_delete_ne by congruence. destruct (pt_abs (ds_m set) !! k) as [b|] eqn:E; [|reflexivity].
    apply Hi in E as (_ & w & Hw & Hwk). destruct (Hrow b w ltac:(intros ->; congruence) Hw) as (w1 & -> & Hrw & _). rewrite Hw. cbn. now rewrite Hrw.
Qed.
(** ** Loading and releasing *)

(** The first row with a number. *)
Definition row_with (k : Z) (rs : list V) : option V := find (fun r => id_of r =? k) rs.

Lemma attach_spec nodes : forall fuel s set head l, chain (st_heap s) head nodes -> NoDup (map fst nodes) -> set_ok s set l ->
  (forall a, a ∈ map fst nodes -> a ∉ l) -> NoDup (map (fun r => id_of (snd r)) nodes) -> (forall r, r ∈ nodes -> row_of s set (id_of (snd r)) = None /\ keep (snd r) = true) ->
  zlen l + zlen nodes < 2 ^ 61 -> (length nodes <= fuel)%nat ->
  exists h' set', attach_loop id_of keep fuel s set head = Ret (with_heap s h', set') /\ strip h' = strip (st_heap s) /\
    (forall b, b ∉ l ++ map fst nodes -> h' !! b = st_heap s !! b) /\ set_ok (with_heap s h') set' (l ++ map fst nodes) /\
    forall k, row_of (with_heap s h') set' k = match row_with k (map snd nodes) with Some r => Some r | None => row_of s set k end.
Proof.
  induction nodes as [|[a r] nodes IH]; intros fuel s set head l Hc Hnd Hok Hfr Hid Hnone Hlen Hfuel; cbn [chain map fst snd] in *.
  - exists (st_heap s), set. rewrite app_nil_r. destruct fuel; cbn [attach_loop]; subst head; (split; [destruct s; reflexivity|]);
      (split; [reflexivity|]); (split; [reflexivity|]); (split; [destruct s; exact Hok|]); intros k; now destruct s.
  - destruct Hc as (-> & Haz & n & Ha & Hc). destruct fuel as [|fuel]; [cbn in Hfuel; lia|]. cbn [attach_loop]. apply Z.eqb_neq in Haz as Haz'. rewrite Haz', Ha.
    cbn [deref mbind outcome_bind dt_row]. pose proof (proj2 (Hnone (a, r) ltac:(left))) as Hkeep. cbn [snd] in Hkeep. rewrite Hkeep. cbn [negb]. apply list.NoDup_cons in Hnd as [Hna Hnd], Hid as [Hna' Hid]. assert (Hal : a ∉ l) by (apply Hfr; left).
    destruct (dlist_init_spec (st_heap s) a) as (h1 & -> & Hst1 & Hnx1 & Hpv1); [unfold nx; rewrite Ha; eauto|]. cbn [mbind outcome_bind].
    destruct (strip_sym_lookup _ _ _ _ Hst1 Ha) as (v1 & Hv1 & _ & _ & Hf1 & Hr1). cbn [dt_row dt_data_flag] in Hf1, Hr1.
    assert (Hframe1 : forall b, b <> a -> h1 !! b = st_heap s !! b).
    { intros b Hb. apply same_datum; [exact Hst1|rewrite Hnx1|rewrite Hpv1]; now rewrite decide_False by exact Hb. }
    destruct (set_other s h1 set l Hok) as [Hok1 Hrow1]; [intros b Hb; apply Hframe1; intros ->; contradiction|].
    specialize (Hnx1 a) as Hnx. specialize (Hpv1 a) as Hpv. rewrite decide_True in Hnx, Hpv by reflexivity. unfold nx, pv in Hnx, Hpv. rewrite Hv1 in Hnx, Hpv.
    destruct (set_attach (with_heap s h1) set l a v1 Hok1) as (h2 & q2 & m2 & He & Hs & Hst2 & Hf2 & Hok2 & Hrow2); [| exact Hal|exact Haz|exact Hv1|now injection Hpv|now injection Hnx| | |].
    { unfold zlen in *. cbn [length] in Hlen. lia. }
    { unfold in_use. rewrite Hf1. now split. }
    { rewrite Hr1, Hrow1. now apply (Hnone (a, r)); left. }
    rewrite Hr1 in Hs, Hrow2. cbn [st_heap with_heap] in He, Hst2, Hf2. rewrite He. cbn [mbind outcome_bind dt_row]. rewrite Hs. cbn [mbind outcome_bind dt_next].
    change (with_heap (with_heap s h1) h2) with (with_heap s h2) in *.
    destruct (IH fuel (with_heap s h2) (mk_set m2 q2) n (l ++ [a])) as (h' & set' & -> & Hst & Hf & Hok' & Hrow).
    + cbn [st_heap with_heap]. apply (row_chain_frame (st_heap s)); [|exact Hc]. intros b Hb. assert (b <> a) by (intros ->; contradiction).
      rewrite Hf2; [apply Hframe1; assumption|]. rewrite elem_of_cons. intros [|Hbl]; [contradiction|]. revert Hbl. apply Hfr. now right.
    + exact Hnd.
    + exact Hok2.
    + intros b Hb. rewrite elem_of_app, list_elem_of_singleton. intros [Hbl| ->]; [|contradiction]. revert Hbl. apply Hfr. now right.
    + exact Hid.
    + intros x Hx. destruct (Hnone x ltac:(now right)) as [Hn Hkx]. split; [|exact Hkx]. rewrite Hrow2. destruct (Z.eqb_spec (id_of (snd x)) (id_of r)) as [E|E].
      * exfalso. apply Hna'. apply list_elem_of_fmap. exists x. auto.
      * now rewrite Hrow1.
    + unfold zlen in *. rewrite length_app. cbn [length] in *. lia.
    + cbn in Hfuel. lia.
    + exists h', set'. rewrite <- app_assoc in Hf, Hok'. cbn [app st_heap with_heap] in *. change (with_heap (with_heap s h2) h') with (with_heap s h') in *.
      split; [reflexivity|]. split; [congruence|]. split; [|split; [exact Hok'|]].
      * intros b Hb. rewrite Hf by exact Hb. rewrite elem_of_app, elem_of_cons in Hb. rewrite Hf2 by (rewrite elem_of_cons; tauto). apply Hframe1. tauto.
      * intros k. rewrite Hrow, Hrow2, Hrow1. unfold row_with. cbn [find]. rewrite (Z.eqb_sym (id_of r)). destruct (Z.eqb_spec k (id_of r)) as [E|E]; [|reflexivity].
        destruct (find _ (map snd nodes)) as [r'|] eqn:Ef; [|reflexivity]. exfalso. apply find_some in Ef as [Hin Er]. apply Z.eqb_eq in Er.
        apply list_elem_of_In, list_elem_of_fmap in Hin as (x & -> & Hin). apply Hna'. apply list_elem_of_fmap. exists x. split; [congruence|exact Hin].
Qed.

Lemma chain_row nodes : forall (h : heap) head a r, chain h head nodes -> (a, r) ∈ nodes -> exists v, h !! a = Some v /\ dt_row v = r /\ dt_data_flag v = 0.
Proof.
  induction nodes as [|[b x] nodes IH]; intros h head a r Hc Hin; [inversion Hin|]. destruct Hc as (_ & _ & n & Hn & Hc).
  apply elem_of_cons in Hin as [[= -> ->]|Hin]; [eexists; split; [exact Hn|auto]|eauto].
Qed.

Lemma set_new (s : st) (map_new : M) : pt_ok map_new -> pt_abs map_new = ∅ -> set_ok s (mk_set map_new 0) [].
Proof.
  intros Hm Ha. constructor; cbn [ds_m ds_list].
  - constructor; [reflexivity|exact I|constructor|apply not_elem_of_nil].
  - exact Hm.
  - intros k a. rewrite Ha, lookup_empty. split; [discriminate|intros [Hin _]; inversion Hin].
  - intros a Hin. inversion Hin.
  - rewrite Ha. apply map_size_empty.
Qed.
(** What [X_load] reads: the rows of the player. *)
Context (malloc : heap -> Z) (malloc_ok : forall h, h !! malloc h = None /\ malloc h <> 0 /\ malloc h <> void).
Context (id_key : forall r r' : V, owner (key r) = owner (key r') -> id_of r = id_of r' -> key r = key r').

(** The records of the set are those of the player in the database. *)
Definition complete (s : st) (set : data_set M) (pid : Z) : Prop :=
  forall k, owner k = pid -> (exists r, rows (st_db s) !! k = Some r /\ key r = k) <-> exists i r, row_of s set i = Some r /\ key r = k.

(** The set is the player's: all of the player's records in memory, and all of the rows. *)
Record player_set (s : st) (set : data_set M) (l : list Z) (pid : Z) : Prop := {
  ps_set : set_ok s set l;
  ps_owner : forall k r, row_of s set k = Some r -> owner (key r) = pid;
  ps_only : forall a v, st_heap s !! a = Some v -> live v -> owner (key (dt_row v)) = pid -> a ∈ l;
  ps_complete : complete s set pid }.

Lemma row_number s set l k r : set_ok s set l -> row_of s set k = Some r -> id_of r = k.
Proof.
  intros Hok Hr. destruct (set_get s set l k Hok) as [(a & v & _ & _ & _ & _ & _ & Hk & E)|(_ & E & _)]; congruence.
Qed.

Lemma rows_bound (w : W) (rs : list V) : NoDup rs -> (forall r, r ∈ rs -> rows w !! key r = Some r) -> (length rs <= size (rows w))%nat.
Proof.
  intros Hnd Hr. assert (Hk : NoDup (map key rs)).
  { apply NoDup_fmap_2_strong; [|exact Hnd]. intros x y Hx Hy E. apply Hr in Hx, Hy. congruence. }
  rewrite <- (length_map key). rewrite <- size_dom, <- (size_list_to_set (C := gset K) (map key rs)) by exact Hk.
  apply subseteq_size. intros k Hin. apply elem_of_list_to_set in Hin. apply list_elem_of_fmap in Hin as (r & -> & Hin). apply elem_of_dom. eauto.
Qed.

Lemma load_spec map_new s l pid : pt_ok map_new -> pt_abs map_new = ∅ -> (forall r, rows (st_db s) !! key r = Some r -> owner (key r) = pid -> keep r = true) -> data_ok s l -> Z.of_nat (size (rows (st_db s))) < 2 ^ 61 ->
  (forall a v, st_heap s !! a = Some v -> live v -> owner (key (dt_row v)) <> pid) ->
  exists s' res, load_set id_of keep map_new malloc s pid = Ret (s', res) /\ data_ok s' l /\ rows (st_db s') = rows (st_db s) /\
    match res with
    | None => st_heap s' = st_heap s
    | Some set => exists recs, player_set s' set recs pid /\ (forall a v, st_heap s !! a = Some v -> (a ∉ recs) /\ st_heap s' !! a = Some v) /\
        forall k r, row_of s' set k = Some r <-> rows (st_db s) !! key r = Some r /\ owner (key r) = pid /\ id_of r = k
    end.
Proof.
  intros Hm Hm0 Hkp Hok Hsz Hown. unfold load_set. destruct (data_load_ok key owner void malloc malloc_ok s l pid Hok Hown) as (s1 & head & -> & Hok1 & Hdb & Hold & Hhead).
  cbn [mbind outcome_bind]. destruct head as [head|]; [|eauto 10]. destruct Hhead as (nodes & Hc & Hnd & Hnd' & Hfresh & Hrows).
  assert (Hin : forall x, x ∈ nodes -> rows (st_db s) !! key (snd x) = Some (snd x) /\ owner (key (snd x)) = pid).
  { intros x Hx. apply Hrows. apply list_elem_of_fmap. eauto. }
  destruct (attach_spec nodes (size (st_heap s1)) s1 (mk_set map_new 0) head [] Hc Hnd (set_new s1 map_new Hm Hm0)) as (h' & set' & -> & Hst & Hf & Hok' & Hrow).
  - intros a _. apply not_elem_of_nil.
  - change (NoDup (map (fun x => id_of (snd x)) nodes)). rewrite <- (map_map snd id_of). apply NoDup_fmap_2_strong; [|exact Hnd'].
    intros x y Hx Hy E. apply Hrows in Hx as [Hx Hxo], Hy as [Hy Hyo]. assert (key x = key y) by (apply id_key; congruence). congruence.
  - intros x Hx. split; [unfold row_of; cbn [ds_m]; now rewrite Hm0, lookup_empty|]. destruct (Hin x Hx) as [Hr Ho]. now apply Hkp.
  - assert (Hb : (length (map snd nodes) <= size (rows (st_db s)))%nat) by (apply rows_bound; [exact Hnd'|intros r Hr; now apply Hrows]).
    rewrite length_map in Hb. unfold zlen. cbn [length]. lia.
  - rewrite <- (length_map fst). apply nodup_size; [exact Hnd|]. intros a Ha. exact (chain_in _ _ _ Hc a Ha).
  - cbn [mbind outcome_bind app] in *. do 2 eexists. split; [reflexivity|]. split; [now apply data_links|]. split; [exact Hdb|].
    exists (map fst nodes). set (s' := with_heap s1 h') in *.
    assert (Hkeep : forall a v, st_heap s !! a = Some v -> (a ∉ map fst nodes) /\ st_heap s' !! a = Some v).
    { intros a v Ha. assert (a ∉ map fst nodes) by (intros Hin'; apply Hfresh in Hin'; congruence). split; [assumption|]. cbn [st_heap with_heap s']. rewrite Hf by assumption. now apply Hold. }
    assert (Hrd : forall k r, row_of s' set' k = Some r <-> rows (st_db s) !! key r = Some r /\ owner (key r) = pid /\ id_of r = k).
    { intros k r. rewrite Hrow. unfold row_of at 1. cbn [ds_m]. rewrite Hm0, lookup_empty. unfold row_with. split.
      * destruct (find _ _) as [r'|] eqn:Ef; [|discriminate]. intros [= ->]. apply find_some in Ef as [Hi Ek]. apply list_elem_of_In in Hi. apply Z.eqb_eq in Ek.
        apply Hrows in Hi as [? ?]. auto.
      * intros (Hr & Ho & Hk). assert (Hi : r ∈ map snd nodes) by (now apply Hrows). destruct (find _ _) as [r'|] eqn:Ef.
        -- apply find_some in Ef as [Hi' Ek]. apply list_elem_of_In, Hrows in Hi' as [Hr' Ho']. apply Z.eqb_eq in Ek. assert (key r' = key r) by (apply id_key; congruence). congruence.
        -- exfalso. apply list_elem_of_In in Hi. pose proof (find_none _ _ Ef r Hi) as E. cbn in E. apply Z.eqb_neq in E. congruence. }
    split; [|auto]. constructor; [exact Hok'|intros k r Hr; apply Hrd in Hr; tauto| |].
    + intros a v Ha Hlv E. destruct (st_heap s !! a) as [v0|] eqn:E0.
      { destruct (Hkeep a v0 E0) as [_ Ha0]. assert (v0 = v) as -> by congruence. now destruct (Hown a v E0 Hlv). }
      destruct (decide (a ∈ map fst nodes)) as [Hal|Hal]; [exact Hal|]. exfalso. cbn [st_heap with_heap s'] in Ha. rewrite Hf in Ha by exact Hal.
      destruct (dk_synced _ _ _ _ _ _ (dk_body _ _ _ _ _ Hok1) a v Ha Hlv) as (r & Hr & Hk & _). rewrite Hdb in Hr. assert (Hkr : key r = key (dt_row v)) by congruence.
      assert (Hin' : r ∈ map snd nodes) by (apply Hrows; split; congruence). apply list_elem_of_fmap in Hin' as ([b r'] & Er & Hb). cbn in Er. subst r'.
      assert (Hbl : b ∈ map fst nodes) by (apply list_elem_of_fmap; exists (b, r); auto).
      destruct (chain_row _ _ _ _ _ Hc Hb) as (w & Hw & Hrw & Hfw). assert (Eab : b = a); [|subst b; contradiction].
      apply (dk_unique _ _ _ _ _ _ (dk_body _ _ _ _ _ Hok1) b a w v Hw Ha); [unfold live; now rewrite Hfw|exact Hlv|congruence].
    + intros k Ho. change (st_db s') with (st_db s1). rewrite Hdb. split.
      * intros (r & Hr & <-). exists (id_of r), r. split; [apply Hrd; auto|reflexivity].
      * intros (i & r & Hi & <-). apply Hrd in Hi as (Hr & _). eauto.
Qed.
Lemma release_loop_spec l : forall fuel s q ul, ring (st_heap s) q l -> (forall a, a ∈ l -> exists v, st_heap s !! a = Some v /\ live v) -> data_ok s ul ->
  (length l <= fuel)%nat ->
  exists s' ul', release_loop fuel s q = Ret s' /\ data_ok s' ul' /\ st_db s' = st_db s /\ (forall a, a ∉ l -> st_heap s' !! a = st_heap s !! a) /\
    forall a v, a ∈ l -> st_heap s !! a = Some v -> exists v', st_heap s' !! a = Some v' /\ dt_row v' = dt_row v /\ dt_data_flag v' = DATA_FLAG_RELEASE.
Proof.
  induction l as [|a l IH]; intros fuel s q ul Hr Hlv Hok Hfuel; pose proof (ring_head _ _ _ Hr) as ->; cbn [hd_error default].
  - exists s, ul. destruct fuel; cbn [release_loop Z.eqb]; (split; [reflexivity|]); (split; [exact Hok|]); (split; [reflexivity|]); (split; [reflexivity|]); intros a v Hin; inversion Hin.
  - destruct fuel as [|fuel]; [cbn in Hfuel; lia|]. cbn [release_loop from_option id]. pose proof (ring_pos _ _ _ a Hr ltac:(left)) as Haz. apply Z.eqb_neq in Haz as ->.
    destruct (Hlv a ltac:(left)) as (v & Ha & Hla). destruct (remove_spec _ _ [] a l Hr) as (h & q' & He & Hr' & _ & Hst & Hf). cbn [app] in *.
    change (default 0 (hd_error (a :: l))) with a in He. rewrite He. cbn [mbind outcome_bind].
    destruct (strip_sym_lookup _ _ _ _ Hst Ha) as (v1 & Hv1 & _ & _ & Hfl & Hrow).
    destruct (data_release_ok key owner void (with_heap s h) ul a v1 (data_links s h ul Hok Hst) Hv1) as (s2 & ul2 & v2 & -> & Hok2 & Hh2 & Hdb2 & Hrow2 & _ & _ & Hfl2 & _);
      [unfold live; now rewrite Hfl|]. cbn [mbind outcome_bind st_heap with_heap] in *. pose proof (ring_nodup _ _ _ Hr) as Hnd. apply list.NoDup_cons in Hnd as [Hal Hnd].
    assert (Hs2 : forall b, b <> a -> st_heap s2 !! b = h !! b) by (intros b Hb; rewrite Hh2; now apply lookup_insert_ne).
    destruct (IH fuel s2 q' ul2) as (s' & ul' & -> & Hok' & Hdb & Hout & Hin).
    + apply (ring_same h); [exact Hr'|]. intros b Hb. unfold nx, pv. rewrite Hs2; [auto|]. intros ->. contradiction.
    + intros b Hb. assert (b <> a) by (intros ->; contradiction). destruct (Hlv b ltac:(now right)) as (w & Hw & Hlw).
      destruct (strip_sym_lookup _ _ _ _ Hst Hw) as (w1 & Hw1 & _ & _ & Hflw & _). exists w1. rewrite Hs2 by assumption. unfold live. now rewrite Hflw.
    + exact Hok2.
    + cbn in Hfuel. lia.
    + exists s', ul'. split; [reflexivity|]. split; [exact Hok'|]. split; [rewrite Hdb; exact Hdb2|]. split.
      * intros b Hb. rewrite not_elem_of_cons in Hb. destruct Hb as [Hba Hbl]. rewrite Hout, Hs2 by assumption. destruct (Hf b) as [Hn Hp]; [rewrite elem_of_cons; tauto|].
        now apply same_datum.
      * intros b w Hb Hw. apply elem_of_cons in Hb as [->|Hb].
        -- rewrite Ha in Hw. injection Hw as <-. exists v2. rewrite Hout, Hh2, lookup_insert_eq by exact Hal. split; [reflexivity|]. now rewrite Hrow2.
        -- destruct (strip_sym_lookup _ _ _ _ Hst Hw) as (w1 & Hw1 & _ & _ & _ & Hrw). assert (b <> a) by (intros ->; contradiction).
           destruct (Hin b w1 Hb) as (w' & Hw' & Hrw' & Hfw'); [now rewrite Hs2|]. exists w'. split; [exact Hw'|]. split; [congruence|exact Hfw'].
Qed.

(** A released set and the next flush: every row is written, every record freed. *)
Lemma logout_spec s set l ul now : set_ok s set l -> data_ok s ul ->
  exists s1 s2 ul2, release_set s set = Ret s1 /\ DATA_flush void s1 now = Ret s2 /\ data_ok s2 ul2 /\
    (forall a, a ∈ l -> st_heap s2 !! a = None) /\
    (forall a v, st_heap s2 !! a = Some v -> exists v0, (a ∉ l) /\ st_heap s !! a = Some v0 /\ dt_row v = dt_row v0 /\ dt_data_flag v = dt_data_flag v0) /\
    (saves_ok -> forall k r, row_of s set k = Some r -> rows (st_db s2) !! key r = Some r) /\
    (saves_ok -> forall k, key <$> rows (st_db s2) !! k = key <$> rows (st_db s) !! k).
Proof.
  intros Hso Hok. pose proof Hso as [Hr _ Hi Hu _]. unfold release_set.
  destruct (release_loop_spec l (size (st_heap s)) s (ds_list set) ul Hr) as (s1 & ul1 & -> & Hok1 & Hdb1 & Hout1 & Hin1).
  - intros a Ha. destruct (Hu a Ha) as (v & Hv & Hd & _). eauto.
  - exact Hok.
  - apply nodup_size; [exact (ring_nodup _ _ _ Hr)|]. intros a Ha. destruct (Hu a Ha) as (v & Hv & _). eauto.
  - destruct (flush_spec key owner void s1 ul1 now Hok1) as (s2 & ul2 & He2 & Hok2 & Hout2 & _ & Hfl & Hw). exists s1, s2, ul2.
    split; [reflexivity|]. split; [exact He2|]. split; [exact Hok2|].
    assert (Hrel : forall a v, a ∈ l -> st_heap s !! a = Some v -> exists v', a ∈ ul1 /\ st_heap s1 !! a = Some v' /\ dt_row v' = dt_row v /\ live v' /\ leaving v' = true).
    { intros a v Ha Hv. destruct (Hin1 a v Ha Hv) as (v' & Hv' & Hrow & Hf). exists v'. split; [eapply (dk_flagged _ _ _ _ _ _ (dk_body _ _ _ _ _ Hok1)); eauto|].
      unfold live, leaving. rewrite Hf. split; [exact Hv'|]. split; [exact Hrow|]. split; [discriminate|reflexivity]. }
    assert (Hnone : forall a, a ∈ l -> st_heap s2 !! a = None).
    { intros a Ha. destruct (Hu a Ha) as (v & Hv & _). destruct (Hrel a v Ha Hv) as (v' & Hul & Hv' & _ & _ & El). specialize (Hfl a v' Hv').
      rewrite decide_True in Hfl by exact Hul. unfold flushed in Hfl. now rewrite El in Hfl. }
    split; [exact Hnone|]. split; [|split].
    + intros a v Ha. assert (Hal : a ∉ l) by (intros Hin; rewrite Hnone in Ha by exact Hin; discriminate). rewrite <- (Hout1 a Hal).
      destruct (decide (a ∈ ul1)) as [Hul|Hul]; [|rewrite Hout2 in Ha by exact Hul; eauto].
      destruct (ulist_in void _ _ _ a (proj1 (dk_void _ _ _ _ _ _ (dk_body _ _ _ _ _ Hok1))) (qu_list _ _ _ _ (dk_queue _ _ _ _ _ Hok1)) Hul) as (v1 & Hv1 & _).
      specialize (Hfl a v1 Hv1). rewrite decide_True in Hfl by exact Hul. unfold flushed in Hfl. destruct (leaving v1); [congruence|].
      destruct Hfl as (v' & Hv' & (Hrow & _ & _ & Hfg) & _). exists v1. split; [exact Hal|]. split; [exact Hv1|]. split; congruence.
    + intros Hsv k r Hk. destruct (set_get s set l k Hso) as [(a & v & _ & _ & Ha & Hv & _ & _ & E)|(_ & E & _)]; [|congruence].
      assert (dt_row v = r) as <- by congruence. destruct (Hrel a v Ha Hv) as (v' & Hul & Hv' & <- & Hlv & El). apply (Hw Hsv a v' Hul Hv' Hlv). now rewrite El.
    + intros Hsv k. rewrite <- Hdb1. exact (flush_keys key owner void s1 ul1 now s2 Hok1 Hsv He2 k).
Qed.
(** Leaving and coming back: what is loaded after a release and a flush is what was there. *)
Lemma relogin_spec map_new s set l ul pid now : pt_ok map_new -> pt_abs map_new = ∅ -> (forall k r, row_of s set k = Some r -> keep r = true) -> player_set s set l pid -> data_ok s ul ->
  saves_ok -> Z.of_nat (size (rows (st_db s))) < 2 ^ 61 ->
  exists s1 s2 s3 ul2 res, release_set s set = Ret s1 /\ DATA_flush void s1 now = Ret s2 /\ load_set id_of keep map_new malloc s2 pid = Ret (s3, res) /\
    data_ok s3 ul2 /\ size (rows (st_db s3)) = size (rows (st_db s)) /\
    forall set', res = Some set' -> (exists l', player_set s3 set' l' pid /\ length l' = length l) /\ forall k, row_of s3 set' k = row_of s set k.
Proof.
  intros Hm Hm0 Hkp [Hso Howner Honly Hcomp] Hok Hsv Hsz.
  destruct (logout_spec s set l ul now Hso Hok) as (s1 & s2 & ul2 & He1 & He2 & Hok2 & Hgone & Hrest & Hwr & Hkeys).
  assert (Hno : forall a v, st_heap s2 !! a = Some v -> live v -> owner (key (dt_row v)) <> pid).
  { intros a v Ha Hlv E. destruct (Hrest a v Ha) as (v0 & Hal & Hv0 & Hrow & Hf). apply Hal, (Honly a v0 Hv0); [unfold live in *; now rewrite <- Hf|congruence]. }
  assert (Hsz2 : size (rows (st_db s2)) = size (rows (st_db s))).
  { rewrite <- !size_dom. f_equal. apply set_eq. intros k. rewrite !elem_of_dom, <- !(fmap_is_Some key), (Hkeys Hsv k). tauto. }
  assert (Hkp2 : forall r, rows (st_db s2) !! key r = Some r -> owner (key r) = pid -> keep r = true).
  { intros r Hr Ho. assert (Hs : exists r0, rows (st_db s) !! key r = Some r0 /\ key r0 = key r).
    { specialize (Hkeys Hsv (key r)). rewrite Hr in Hkeys. destruct (rows (st_db s) !! key r) as [r0|]; [|discriminate]. injection Hkeys as E0. eauto. }
    apply Hcomp in Hs as (i & r' & Hi & Ek); [|exact Ho]. pose proof (Hwr Hsv i r' Hi) as Hr'. rewrite Ek in Hr'. assert (r' = r) as <- by congruence. eauto. }
  destruct (load_spec map_new s2 ul2 pid Hm Hm0 Hkp2 Hok2 ltac:(now rewrite Hsz2) Hno) as (s3 & res & He3 & Hok3 & Hdb3 & Hres).
  exists s1, s2, s3, ul2, res. split; [exact He1|]. split; [exact He2|]. split; [exact He3|]. split; [exact Hok3|]. split; [now rewrite Hdb3|]. intros set' ->.
  destruct Hres as (l' & Hps & _ & Hrows).
  assert (Hsame : forall k, row_of s3 set' k = row_of s set k); [|split; [exists l'; split; [exact Hps|exact (same_rows_length _ _ _ _ _ _ Hso (ps_set _ _ _ _ Hps) Hsame)]|exact Hsame]].
  intros k. destruct (row_of s set k) as [r|] eqn:E.
  - apply Hrows. split; [now apply (Hwr Hsv k)|]. split; [eauto|]. exact (row_number s set l k r Hso E).
  - apply eq_None_not_Some. intros [r Hr]. apply Hrows in Hr as (Hr & Ho & Hk).
    assert (Hs : exists r0, rows (st_db s) !! key r = Some r0 /\ key r0 = key r).
    { specialize (Hkeys Hsv (key r)). rewrite Hr in Hkeys. destruct (rows (st_db s) !! key r) as [r0|]; [|discriminate]. injection Hkeys as E0. eauto. }
    apply Hcomp in Hs as (i & r' & Hi & Ek); [|exact Ho].
    assert (Hi' : i = k); [|congruence]. rewrite <- (row_number s set l i r' Hso Hi), <- Hk. pose proof (Hwr Hsv i r' Hi) as Hr'. rewrite Ek in Hr'. congruence.
Qed.
(** A new player. *)
Lemma player_set_new (s : st) (map_new : M) pid : pt_ok map_new -> pt_abs map_new = ∅ -> st_heap s = ∅ -> (forall k, owner k = pid -> rows (st_db s) !! k = None) ->
  player_set s (mk_set map_new 0) [] pid.
Proof.
  intros Hm Hm0 Hh Hr. assert (Hnone : forall k, row_of s (mk_set map_new 0) k = None) by (intros k; unfold row_of; cbn [ds_m]; now rewrite Hm0, lookup_empty).
  constructor; [now apply set_new| | |].
  - intros k r Hk. rewrite Hnone in Hk. discriminate.
  - intros a v Ha. rewrite Hh, lookup_empty in Ha. discriminate.
  - intros k Hk. rewrite (Hr k Hk). split; [intros (r & Hf & _); discriminate|]. intros (i & r & Hi & _). rewrite Hnone in Hi. discriminate.
Qed.

(** ** Changes of a player's set *)

Context (key_id : forall r r' : V, key r = key r' -> id_of r = id_of r').

Lemma row_set_same (r : V) i x : i ∈ row_ids -> row_get r i = x -> row_set r i x = r.
Proof.
  intros Hi Hx. apply (row_ext (key := key)); [now apply (key_set (key := key))|]. intros j Hj. rewrite (get_set (key := key)) by assumption.
  case_decide; [now subst j|reflexivity].
Qed.

(** A column of a record of the set. *)
Lemma ps_update s set l ul pid now a id x v : player_set s set l pid -> data_ok s ul -> a ∈ l -> st_heap s !! a = Some v -> id ∈ row_ids ->
  exists s' ul' v', DATA_update s now a id x = Ret s' /\ data_ok s' ul' /\ player_set s' set l pid /\ st_db s' = st_db s /\
    st_heap s' = <[a := v']> (st_heap s) /\ dt_row v' = row_set (dt_row v) id x /\
    forall k, row_of s' set k = if k =? id_of (dt_row v) then Some (row_set (dt_row v) id x) else row_of s set k.
Proof.
  intros [Hso Ho Honly Hc] Hok Hal Ha Hid. destruct (so_use _ _ _ Hso a Hal) as (v0 & Hv0 & Huse). assert (v0 = v) as -> by congruence.
  destruct (data_update_ok key owner void s ul now a id x v Hok Ha (proj1 Huse) Hid) as (s' & ul' & v' & He & Hok' & Hh & Hdb & Hrow & Hp & Hn & Hf).
  assert (Hr : dt_row v' = row_set (dt_row v) id x).
  { rewrite Hrow. destruct (Z.eqb_spec (row_get (dt_row v) id) x) as [E|E]; [|reflexivity]. now rewrite row_set_same. }
  assert (Hk : key (dt_row v') = key (dt_row v)) by (rewrite Hr; now apply (key_set (key := key))).
  destruct (set_change s s' set l a v v' Hso Hal Ha Hh Hp Hn) as [Hso' Hro]; [unfold in_use; now rewrite Hf|now apply key_id|]. rewrite Hr in Hro.
  assert (Hat : row_of s set (id_of (dt_row v)) = Some (dt_row v)) by (apply (row_at s set l a v); assumption).
  exists s', ul', v'. split; [exact He|]. split; [exact Hok'|]. split; [|auto]. constructor; [exact Hso'| | |].
  - intros k r Hk'. rewrite Hro in Hk'. destruct (k =? id_of (dt_row v)); [|eauto]. injection Hk' as <-. rewrite <- Hr, Hk. eauto.
  - intros b w Hb Hlw Eo. rewrite Hh in Hb. apply lookup_insert_Some in Hb as [[<- <-]|[_ Hb]]; [exact Hal|eauto].
  - intros k Ek. rewrite Hdb, (Hc k Ek). split; intros (i & r & Hi & Hkr).
    + destruct (Z.eqb_spec i (id_of (dt_row v))) as [E|E].
      * exists i, (row_set (dt_row v) id x). rewrite Hro, E, Z.eqb_refl. split; [reflexivity|]. rewrite E, Hat in Hi. injection Hi as <-. congruence.
      * exists i, r. rewrite Hro. apply Z.eqb_neq in E as ->. auto.
    + rewrite Hro in Hi. destruct (Z.eqb_spec i (id_of (dt_row v))) as [E|E]; [|eauto]. injection Hi as <-. exists i, (dt_row v). subst i. split; [exact Hat|congruence].
Qed.

(** A new record: the row is inserted and the record enters the list and the map, or the structure is freed. *)
Lemma ps_insert s set l ul pid r : player_set s set l pid -> data_ok s ul -> owner (key r) = pid -> row_of s set (id_of r) = None -> zlen l < 2 ^ 61 ->
  let a := malloc (st_heap s) in
  exists s1 ret, DATA_new (with_datum s a (new_datum r)) a = Ret (s1, ret) /\ (inserts_ok key owner (W := W) -> ret = 0) /\
    if ret =? 0 then
      exists h q m, dlist_insert_tail (st_heap s1) (ds_list set) a = Ret (h, q) /\ pm_set (ds_m set) (id_of r) a = Ret (m, 0) /\
        data_ok (with_heap s1 h) ul /\ player_set (with_heap s1 h) (mk_set m q) (l ++ [a]) pid /\ (exists v, h !! a = Some v /\ dt_row v = r) /\
        (forall k, row_of (with_heap s1 h) (mk_set m q) k = if k =? id_of r then Some r else row_of s set k) /\
        Z.of_nat (size (rows (st_db s1))) = Z.of_nat (size (rows (st_db s))) + 1
    else
      let s2 := mk_store (delete a (st_heap s1)) (st_update_list s1) (st_db s1) in
      data_ok s2 ul /\ player_set s2 set l pid /\ (forall k, row_of s2 set k = row_of s set k) /\ rows (st_db s1) = rows (st_db s).
Proof.
  intros [Hso Ho Honly Hc] Hok Hor Hnone Hlen a. destruct (malloc_ok (st_heap s)) as (Hn & Hz & Hv). fold a in Hn, Hz, Hv.
  destruct (data_new_ok key owner void s ul a r Hok Hn Hz Hv) as (s1 & ret & He & Hh & Hres). exists s1, ret. split; [exact He|].
  split.
  { intros Hins. unfold DATA_new in He. cbn [st_heap with_datum st_db] in He. rewrite lookup_insert_eq in He. cbn [deref mbind outcome_bind dt_row new_datum] in He.
    specialize (Hins (st_db s) r). destruct (db_insert (st_db s) r) as [w ret']. injection He as _ <-. apply Hins. apply eq_None_not_Some. intros [x Hx].
    pose proof (rows_keyed _ _ _ Hx) as Hkx. destruct (proj1 (Hc (key r) Hor) (ex_intro _ x (conj Hx Hkx))) as (i & y & Hy & Hky).
    pose proof (row_number s set l i y Hso Hy) as Hi. rewrite (key_id _ _ Hky) in Hi. congruence. }
  assert (Hal : a ∉ l) by exact (set_fresh _ _ _ _ Hso Hn). destruct (ret =? 0).
  - destruct Hres as (Hok1 & Hnew & Hrows). destruct (set_other s (st_heap s1) set l Hso) as [Hso1 Hro1]; [intros b Hb; rewrite Hh; apply lookup_insert_ne; intros ->; contradiction|].
    assert (Ha : st_heap s1 !! a = Some (new_datum r)) by (rewrite Hh; apply lookup_insert_eq).
    destruct (set_attach (with_heap s (st_heap s1)) set l a (new_datum r) Hso1 Hlen Hal Hz Ha) as (h & q & m & Hi & Hs & Hst & _ & Hso2 & Hro2);
      [reflexivity|reflexivity|split; discriminate|now rewrite Hro1|]. cbn [dt_row new_datum st_heap with_heap] in *.
    exists h, q, m. split; [exact Hi|]. split; [exact Hs|]. split; [now apply data_links|].
    assert (Hro : forall k, row_of (with_heap s1 h) (mk_set m q) k = if k =? id_of r then Some r else row_of s set k) by (intros k; rewrite <- Hro1; apply Hro2).
    split; [|split; [|split; [exact Hro|rewrite Hrows, map_size_insert_None by exact Hnew; lia]]].
    + constructor; [destruct Hso2; now constructor| | |].
      * intros k x Hk. rewrite Hro in Hk. destruct (k =? id_of r); [congruence|eauto].
      * intros b w Hb Hlw Eo. rewrite elem_of_app, list_elem_of_singleton. destruct (strip_lookup _ _ _ _ Hst Hb) as (w0 & Hb0 & _ & _ & Hf & Hr). rewrite Hh in Hb0.
        apply lookup_insert_Some in Hb0 as [[<- <-]|[_ Hb0]]; [now right|left]. apply (Honly b w0 Hb0); [unfold live in *; now rewrite <- Hf|congruence].
      * intros k Ek. cbn [st_db with_heap]. rewrite Hrows. destruct (decide (k = key r)) as [->|Hne].
        -- split; intros _; [exists (id_of r), r; rewrite Hro, Z.eqb_refl; auto|exists r; rewrite lookup_insert_eq; auto].
        -- rewrite lookup_insert_ne by congruence. rewrite (Hc k Ek). split; intros (i & x & Hx & Hkx); exists i, x; (split; [|exact Hkx]).
           ++ rewrite Hro. destruct (Z.eqb_spec i (id_of r)) as [->|]; [congruence|exact Hx].
           ++ rewrite Hro in Hx. destruct (Z.eqb_spec i (id_of r)) as [->|]; [congruence|exact Hx].
    + destruct (strip_sym_lookup _ _ _ _ Hst Ha) as (v & Hv' & _ & _ & _ & Hr). eauto.
  - destruct Hres as (Hrows & Hok2). cbn zeta. split; [exact Hok2|].
    assert (Hback : delete a (st_heap s1) = st_heap s) by (rewrite Hh; now apply delete_insert_id). rewrite Hback.
    split; [|split; [reflexivity|exact Hrows]]. constructor; [destruct Hso; now constructor|exact Ho|exact Honly|]. intros k Ek. cbn [st_db]. rewrite Hrows. exact (Hc k Ek).
Qed.
(** A record goes: its row is deleted and the record leaves the list and the map, or nothing changes. *)
Lemma ps_remove `{!RemoveLaws M} s set l ul pid a v : player_set s set l pid -> data_ok s ul -> a ∈ l -> zlen l < 2 ^ 61 -> st_heap s !! a = Some v ->
  exists s1 ret ul1, DATA_delete s a = Ret (s1, ret) /\ data_ok s1 ul1 /\
    if ret =? 0 then
      exists h q m l' v', dlist_remove (st_heap s1) (ds_list set) a = Ret (h, q) /\ pm_set (ds_m set) (id_of (dt_row v)) 0 = Ret (m, a) /\
        data_ok (with_heap s1 h) ul1 /\ player_set (with_heap s1 h) (mk_set m q) l' pid /\ l ≡ₚ a :: l' /\
        st_heap s1 !! a = Some v' /\ dt_row v' = dt_row v /\ rows (st_db s1) = delete (key (dt_row v)) (rows (st_db s)) /\
        (forall k, row_of (with_heap s1 h) (mk_set m q) k = if k =? id_of (dt_row v) then None else row_of s set k) /\
        exists v2, h !! a = Some v2 /\ ~ live v2 /\ dt_row v2 = dt_row v
    else player_set s1 set l pid /\ (forall k, row_of s1 set k = row_of s set k) /\ rows (st_db s1) = rows (st_db s).
Proof.
  intros [Hso Ho Honly Hc] Hok Hal Hlen Ha. destruct (so_use _ _ _ Hso a Hal) as (v0 & Hv0 & Huse). assert (v0 = v) as -> by congruence.
  destruct (data_delete_ok key owner void s ul a v Hok Ha (proj1 Huse)) as (s1 & ul1 & ret & He & Hok1 & Hres). exists s1, ret, ul1. split; [exact He|]. split; [exact Hok1|].
  destruct (ret =? 0).
  - destruct Hres as (Hrows & v1 & Hh & Hrow & Hp & Hn & Hdead). apply list_elem_of_split in Hal as (l1 & l2 & ->).
    destruct (set_detach s set l1 a l2 v Hso Hlen Ha (st_heap s1) v1 Hh Hp Hn) as (h & q & m & Hd & Hs & Hst & _ & Hso2 & Hro0).
    assert (Hro : forall k, row_of (with_heap s1 h) (mk_set m q) k = if k =? id_of (dt_row v) then None else row_of s set k) by exact Hro0.
    exists h, q, m, (l1 ++ l2), v1. split; [exact Hd|]. split; [exact Hs|]. split; [now apply data_links|]. split.
    + constructor; [destruct Hso2; now constructor| | |].
      * intros k r Hk. rewrite Hro in Hk. destruct (k =? _); [discriminate|eauto].
      * intros b w Hb Hlw Eo. destruct (strip_lookup _ _ _ _ Hst Hb) as (w0 & Hb0 & _ & _ & Hf & Hr). rewrite Hh in Hb0.
        assert (Hlw0 : live w0) by (unfold live in *; now rewrite <- Hf).
        apply lookup_insert_Some in Hb0 as [[<- <-]|[Hne Hb0]]; [contradiction|]. assert (Hin : b ∈ l1 ++ a :: l2) by (apply (Honly b w0 Hb0 Hlw0); congruence).
        rewrite elem_of_app, elem_of_cons in Hin. rewrite elem_of_app. destruct Hin as [?|[?|?]]; [now left|congruence|now right].
      * assert (Hat : row_of s set (id_of (dt_row v)) = Some (dt_row v)) by (apply (row_at s set _ a v Hso); [apply elem_of_app; right; left|exact Ha]).
        intros k Ek. cbn [st_db with_heap]. rewrite Hrows. destruct (decide (k = key (dt_row v))) as [->|Hne].
        -- rewrite lookup_delete_eq. split; [intros (r & Hr & _); discriminate|]. intros (i & r & Hi & Hkr). exfalso. rewrite Hro in Hi.
           destruct (Z.eqb_spec i (id_of (dt_row v))) as [E|E]; [discriminate|]. apply E. rewrite <- (row_number s set _ i r Hso Hi). now apply key_id.
        -- rewrite lookup_delete_ne by congruence. rewrite (Hc k Ek). split; intros (i & x & Hx & Hkx); exists i, x; (split; [|exact Hkx]).
           ++ rewrite Hro. destruct (Z.eqb_spec i (id_of (dt_row v))) as [->|]; [congruence|exact Hx].
           ++ rewrite Hro in Hx. destruct (Z.eqb_spec i (id_of (dt_row v))) as [->|]; [discriminate|exact Hx].
    + split; [symmetry; apply Permutation_middle|]. split; [rewrite Hh; apply lookup_insert_eq|]. split; [exact Hrow|]. split; [exact Hrows|]. split; [exact Hro|].
      assert (Ha1 : st_heap s1 !! a = Some v1) by (rewrite Hh; apply lookup_insert_eq). destruct (strip_sym_lookup _ _ _ _ Hst Ha1) as (v2 & Hv2 & _ & _ & Hf2 & Hr2).
      exists v2. split; [exact Hv2|]. split; [unfold live; now rewrite Hf2|congruence].
  - destruct Hres as [Hh Hrows]. destruct (set_other s (st_heap s1) set l Hso) as [Hso1 Hro1]; [intros b _; now rewrite Hh|].
    assert (Hro : forall k, row_of s1 set k = row_of s set k) by (intros k; unfold row_of; now rewrite Hh). split; [|split; [exact Hro|exact Hrows]].
    constructor; [destruct Hso1; now constructor| | |].
    + intros k r Hk. rewrite Hro in Hk. eauto.
    + intros b w Hb. rewrite Hh in Hb. eauto.
    + intros k Ek. rewrite Hrows, (Hc k Ek). split; intros (i & r & Hi & Hkr); exists i, r; (split; [|exact Hkr]); [now rewrite Hro|now rewrite <- Hro].
Qed.

(** A flush changes nothing of a set. *)
Lemma ps_flush s set l ul pid now : player_set s set l pid -> data_ok s ul ->
  exists s' ul', DATA_flush void s now = Ret s' /\ data_ok s' ul' /\ (saves_ok -> player_set s' set l pid) /\ (forall k, row_of s' set k = row_of s set k) /\
    (saves_ok -> size (rows (st_db s')) = size (rows (st_db s))).
Proof.
  intros [Hso Ho Honly Hc] Hok. destruct (flush_spec key owner void s ul now Hok) as (s' & ul' & He & Hok' & Hout & _ & Hfl & _). exists s', ul'. split; [exact He|]. split; [exact Hok'|].
  assert (Hin : forall a v, st_heap s !! a = Some v -> leaving v = false -> exists v', st_heap s' !! a = Some v' /\ same_record v v').
  { intros a v Ha El. specialize (Hfl a v Ha). case_decide; [|exists v; split; [exact Hfl|repeat split]]. unfold flushed in Hfl. rewrite El in Hfl.
    destruct Hfl as (v' & Hv' & Hsm & _). eauto. }
  assert (Hback : forall a v', st_heap s' !! a = Some v' -> exists v, st_heap s !! a = Some v /\ same_record v v').
  { intros a v' Ha. destruct (decide (a ∈ ul)) as [Hul|Hul]; [|rewrite Hout in Ha by exact Hul; exists v'; split; [exact Ha|repeat split]].
    destruct (ulist_in void _ _ _ a (proj1 (dk_void _ _ _ _ _ _ (dk_body _ _ _ _ _ Hok))) (qu_list _ _ _ _ (dk_queue _ _ _ _ _ Hok)) Hul) as (v & Hv & _).
    specialize (Hfl a v Hv). rewrite decide_True in Hfl by exact Hul. unfold flushed in Hfl. destruct (leaving v); [congruence|]. destruct Hfl as (w & Hw & Hsm & _).
    exists v. split; [exact Hv|]. congruence. }
  assert (Huse : forall a v, st_heap s !! a = Some v -> in_use v -> leaving v = false).
  { intros a v _ [Hd Hr]. unfold leaving. apply orb_false_iff. now rewrite !Z.eqb_neq. }
  destruct Hso as [Hr Hm Hi Hu Hsz].
  assert (Hso' : set_ok s' set l).
  { constructor; [|exact Hm| | |exact Hsz].
    - apply (ring_same _ _ _ _ Hr). intros a Ha. destruct (Hu a Ha) as (v & Hv & Hv'). destruct (Hin a v Hv (Huse a v Hv Hv')) as (w & Hw & _ & Hp & Hn & _).
      unfold nx, pv. rewrite Hv, Hw. cbn. now rewrite Hp, Hn.
    - intros k a. rewrite Hi. split; intros (Ha & v & Hv & Hk); (split; [exact Ha|]).
      + destruct (Hu a Ha) as (v0 & Hv0 & Hus). assert (v0 = v) as -> by congruence. destruct (Hin a v Hv (Huse a v Hv Hus)) as (w & Hw & Hrow & _). exists w. now rewrite Hrow.
      + destruct (Hback a v Hv) as (w & Hw & Hrow & _). exists w. now rewrite <- Hrow.
    - intros a Ha. destruct (Hu a Ha) as (v & Hv & Hus). destruct (Hin a v Hv (Huse a v Hv Hus)) as (w & Hw & _ & _ & _ & Hf). exists w. unfold in_use. now rewrite Hf. }
  assert (Hro : forall k, row_of s' set k = row_of s set k).
  { intros k. unfold row_of. destruct (pt_abs (ds_m set) !! k) as [a|] eqn:E; [|reflexivity]. apply Hi in E as (Ha & _). destruct (Hu a Ha) as (v & Hv & Hus).
    destruct (Hin a v Hv (Huse a v Hv Hus)) as (w & Hw & Hrow & _). rewrite Hv, Hw. cbn. now rewrite Hrow. }
  split; [|split; [exact Hro|]].
  - intros Hsv. constructor; [exact Hso'|intros k r Hk; rewrite Hro in Hk; eauto| |].
    + intros a v Ha Hlv E. destruct (Hback a v Ha) as (w & Hw & Hrow & _ & _ & Hf). apply (Honly a w Hw); [unfold live in *; now rewrite <- Hf|congruence].
    + intros k Ek. pose proof (flush_keys key owner void s ul now s' Hok Hsv He k) as Hk. transitivity (exists r, rows (st_db s) !! k = Some r /\ key r = k).
      * destruct (rows (st_db s') !! k), (rows (st_db s) !! k); cbn in Hk; try discriminate; (split; intros (r & [= <-] & Hr'); eexists; (split; [reflexivity|]); congruence).
      * rewrite (Hc k Ek). split; intros (i & r & Hir & Hkr); exists i, r; (split; [|exact Hkr]); [now rewrite Hro|now rewrite <- Hro].
  - intros Hsv. rewrite <- !size_dom. f_equal. apply set_eq. intros k. rewrite !elem_of_dom, <- !(fmap_is_Some key), (flush_keys key owner void s ul now s' Hok Hsv He k). tauto.
Qed.

(** Writing to a deleted record concerns nobody. *)
Lemma ps_dead s set l ul pid a v r : player_set s set l pid -> data_ok s ul -> st_heap s !! a = Some v -> ~ live v -> key r = key (dt_row v) ->
  let s' := with_heap s (<[a := set_row v r]> (st_heap s)) in
  data_ok s' ul /\ player_set s' set l pid /\ forall k, row_of s' set k = row_of s set k.
Proof.
  intros [Hso Ho Honly Hc] [Hq Hb] Ha Hdead Hk s'.
  assert (Hal : a ∉ l) by (intros Hin; destruct (so_use _ _ _ Hso a Hin) as (w & Hw & Hl & _); apply Hdead; congruence).
  destruct (set_other s (<[a := set_row v r]> (st_heap s)) set l Hso) as [Hso' Hro]; [intros b Hbl; apply lookup_insert_ne; intros ->; contradiction|].
  split; [|split; [|exact Hro]].
  - constructor; [apply (queued_change _ _ _ _ _ v); auto|]. apply (body_change key owner void (st_heap s) (st_db s) ul a v); try assumption; try auto.
    + intros Hf. exact (dk_flagged _ _ _ _ _ _ Hb a v Ha Hf).
    + intros Hsv Hd. exact (dk_pending _ _ _ _ _ _ Hb Hsv a v Ha Hd).
    + intros Hl. contradiction.
  - constructor; [exact Hso'| | |].
    + intros k x Hx. rewrite Hro in Hx. eauto.
    + intros b w Hb' Hlw Eo. cbn [s' st_heap with_heap] in Hb'. apply lookup_insert_Some in Hb' as [[<- <-]|[_ Hb']]; [contradiction|eauto].
    + intros k Ek. change (st_db s') with (st_db s). rewrite (Hc k Ek). split; intros (i & x & Hi & Hx); exists i, x; (split; [|exact Hx]); [now rewrite Hro|now rewrite <- Hro].
Qed.

(** A new record in memory. *)
Lemma new_record_in (s s1 : st) a r ret : DATA_new (with_datum s a (new_datum r)) a = Ret (s1, ret) -> st_heap s1 !! a = Some (new_datum r).
Proof.
  unfold DATA_new. cbn [st_heap with_datum st_db]. rewrite lookup_insert_eq. cbn [deref mbind outcome_bind dt_row new_datum]. destruct (db_insert (st_db s) r) as [w ret'].
  intros [= <- _]. destruct (ret' =? 0); cbn [st_heap with_datum with_db]; apply lookup_insert_eq.
Qed.
Lemma init_new (h : heap) a r : h !! a = Some (new_datum r) -> dlist_init h a = Ret h.
Proof. intros Ha. unfold dlist_init, wr_next, wr_prev. rewrite Ha. cbn [deref mbind outcome_bind]. rewrite lookup_insert_eq. cbn [deref mbind outcome_bind]. rewrite insert_insert_eq. f_equal. now apply insert_id. Qed.

(** Queries that never fail. *)
Definition reads_ok : Prop := forall (w : W) pid, snd (db_select (V := V) w pid) <> None.
Lemma load_some map_new (s s' : st) pid res : reads_ok -> load_set id_of keep map_new malloc s pid = Ret (s', res) -> res <> None.
Proof.
  intros Hrd. unfold load_set, DATA_load_by_pid. specialize (Hrd (st_db s) pid). destruct (db_select (st_db s) pid) as [w [rs|]]; cbn [snd] in Hrd; [|congruence].
  destruct (parse_rows_loop malloc (st_heap s) 0 rs) as [[h head]| | |]; try discriminate. cbn [mbind outcome_bind]. destruct (attach_loop _ _ _ _ _ _) as [[s1 set]| | |]; try discriminate. cbn. congruence.
Qed.
End Theory.
