(* ===== verification/PlayerNotify.v ===== *)
(** * What the modules of a player need of [world/notify.c]

    The modules post the changes of a player's data.  The class [Notifier] has the two calls they use, and
    [NotifierLaws] what they promise: a call enters its notification among those that wait.  The instances
    are the calls of [Notify], by the lemmas of [NotifyTheorems]. *)
From S2P Require Import Prelude AmfWire AmfValue AmfTheorems AgMap NotifyCount Notify NotifyTheorems.

Class Notifier (N : Type) := {
  post_change : N -> Z -> Z -> option amf_value -> outcome N;
  post_change_key : N -> Z -> Z -> Z -> option amf_value -> outcome N }.

(** [nf_rep n b l]: [l] is what waits, and [b] bounds the number of notifications. *)
Class NotifierLaws (N : Type) `{Notifier N} := {
  nf_rep : N -> Z -> pending -> Prop;
  nf_more : forall n b b' l, nf_rep n b l -> b <= b' -> nf_rep n b' l;
  post_key_spec : forall n b l pid type key v, nf_rep n b l -> 0 <= b < 2 ^ 60 -> 0 <= type < 2 ^ 32 -> wf_amf v ->
    exists n', post_change_key n pid type key (Some v) = Ret n' /\ nf_rep n' (b + 1) (enter l (mk_post pid type (Some key) (Some v)));
  post_spec : forall n b l pid type v, nf_rep n b l -> 0 <= b < 2 ^ 60 -> 0 <= type < 2 ^ 32 -> wf_amf v ->
    exists n', post_change n pid type (Some v) = Ret n' /\ nf_rep n' (b + 1) (enter l (mk_post pid type None (Some v))) }.

Section Instances.
Context {M : Type} `{PtrMapLaws M} (map_new : M) (malloc_note : gmap Z Notify -> Z) (malloc_player : gmap Z (PlayerNotify M) -> Z).
Context (map_new_ok : pm_ok map_new) (map_new_empty : pm_abs map_new = ∅)
        (note_fresh : forall h, h !! malloc_note h = None /\ malloc_note h <> 0)
        (player_fresh : forall h, h !! malloc_player h = None /\ malloc_player h <> 0).

Definition notify_notifier : Notifier (notify_state M) := {|
  post_change n pid type v := notification_add map_new malloc_note malloc_player n pid type v;
  post_change_key n pid type key v := notification_set map_new malloc_note malloc_player n pid type key v |}.

Definition notify_rep (n : notify_state M) (b : Z) (l : pending) : Prop := exists A, rep n A /\ erase A = l /\ bounded b l.

#[export] Program Instance notify_laws : @NotifierLaws (notify_state M) notify_notifier := { nf_rep := notify_rep }.
Next Obligation.
  intros n b b' l (A & Hr & He & Hl & Hf) Hle. exists A. split; [exact Hr|]. split; [exact He|]. split; [lia|].
  eapply list.Forall_impl; [exact Hf|]. cbn. intros e He'. lia.
Qed.
Next Obligation.
  intros n b l pid type key v (A & Hr & <- & Hb) Hlt Ht Hv.
  destruct (set_post_spec map_new malloc_note malloc_player map_new_ok map_new_empty note_fresh player_fresh n A b (mk_post pid type (Some key) (Some v)) key Hr Hb Hlt) as (n' & A' & He & Hr' & Hen & _);
    [split; [exact Ht|intros x [= <-]; exact Hv]|reflexivity|].
  exists n'. split; [exact He|]. exists A'. split; [exact Hr'|]. split; [exact Hen|]. apply enter_bounded; [lia|exact Hb].
Qed.
Next Obligation.
  intros n b l pid type v (A & Hr & <- & Hb) Hlt Ht Hv.
  destruct (add_post_spec map_new malloc_note malloc_player map_new_ok map_new_empty note_fresh player_fresh n A b (mk_post pid type None (Some v)) Hr Hb ltac:(lia)) as (n' & A' & He & Hr' & Hen & _);
    [split; [exact Ht|intros x [= <-]; exact Hv]|reflexivity|].
  exists n'. split; [exact He|]. exists A'. split; [exact Hr'|]. split; [exact Hen|]. apply enter_bounded; [lia|exact Hb].
Qed.

(** Nothing waits at first. *)
Lemma notify_start n : idle n -> notify_rep n 0 [].
Proof. intros Hi. exists []. split; [now apply idle_rep|]. split; [reflexivity|]. split; [apply Z.le_refl|constructor]. Qed.
End Instances.
