(* ===== verification/RewardFlag.v ===== *)
(** * Flags of rewards: [modules/reward_flag.c]

    Whether a player has had a reward is one bit: flag [id] is bit [id % 50] of the [value] of the record
    with number [id / 50].  A record is made for the first of its fifty flags.  The module's functions over
    the records of a player ([DataSet]) refine a set of numbers, also through leaving and coming back. *)
From S2P Require Import Prelude AmfWire AmfValue AmfSafety AmfTheorems AgMap Dlist Keyed Data DataSet NotifyCount Notify NotifyTheorems PlayerNotify.

Definition NOTIFY_REWARDFLAG : Z := 57.

(** [struct RewardFlag]: the columns of the table *)
Record RewardFlag := mk_rf { rf_pid : Z; rf_id : Z; rf_value : Z }.

#[export] Instance reward_flag_row : Row RewardFlag := {
  row_ids := [3];
  row_get r i := if i =? 3 then rf_value r else 0;
  row_set r i x := if i =? 3 then mk_rf (rf_pid r) (rf_id r) x else r }.
Definition reward_flag_key (r : RewardFlag) : Z * Z := (rf_pid r, rf_id r).
#[export] Instance reward_flag_laws : RowLaws RewardFlag (Z * Z) reward_flag_key.
Proof.
  constructor.
  - intros i Hi. apply list_elem_of_singleton in Hi as ->. lia.
  - intros r i j x Hi Hj. apply list_elem_of_singleton in Hi as ->, Hj as ->. reflexivity.
  - intros r i x Hi. apply list_elem_of_singleton in Hi as ->. reflexivity.
  - intros [p i v] [q j w] [= -> ->] Hg. specialize (Hg 3 ltac:(left)). cbn in Hg. now subst w.
Qed.

(** The state: the table, the player's set and the notifications. *)
Record flag_state (W M N : Type) := mk_flags { fs_store : store RewardFlag W; fs_set : data_set M; fs_notify : N }.
Arguments mk_flags {W M N} _ _ _.
Arguments fs_store {W M N} _.
Arguments fs_set {W M N} _.
Arguments fs_notify {W M N} _.

Section Operations.
Context {W M N : Type} `{Database RewardFlag W} `{PtrMap M} `{Notifier N} (map_new : M).
Context (void : Z) (malloc : gmap Z (datum RewardFlag) -> Z).
#[local] Abbreviation state := (flag_state W M N).

Definition reward_flag_new : data_set M := mk_set map_new 0.
Definition reward_flag_load (s : store RewardFlag W) (pid : Z) : outcome (store RewardFlag W * option (data_set M)) :=
  load_set rf_id (fun _ => true) map_new malloc s pid.
Definition reward_flag_release (s : store RewardFlag W) (set : data_set M) : outcome (store RewardFlag W) := release_set s set.

Definition reward_flag_add_notify (n : N) (reward_flag : RewardFlag) : outcome N :=
  '(res, _) ← amf_set (amf_new_array 3) 0 (Some (amf_new_integer (rf_id reward_flag)));
  '(res, _) ← amf_set res 1
    (Some (if AMF_INTEGER_MAX <=? rf_value reward_flag then amf_new_double (double_of_Z (rf_value reward_flag))
           else amf_new_integer (rf_value reward_flag)));
  post_change_key n (rf_pid reward_flag) NOTIFY_REWARDFLAG (rf_id reward_flag) (Some res).

Definition reward_flag_get (s : state) (id : Z) : outcome Z :=
  let rid := id / 50 in let pos := id mod 50 in
  let mask := u64 (Z.shiftl 1 pos) in
  reward_flag ← pm_get (ds_m (fs_set s)) rid;
  if reward_flag =? 0 then Ret 0
  else v ← deref (st_heap (fs_store s) !! reward_flag); Ret (if 0 <? Z.land (rf_value (dt_row v)) mask then 1 else 0).

Definition reward_flag_next (s : state) (reward_flag : Z) : outcome Z :=
  dlist_next (st_heap (fs_store s)) (ds_list (fs_set s)) reward_flag.

(** [now] is [agT_current()]. *)
Definition reward_flag_set (s : state) (now pid id : Z) : outcome (state * Z) :=
  let rid := id / 50 in let pos := id mod 50 in
  let mask := u64 (Z.shiftl 1 pos) in
  let set := fs_set s in
  reward_flag ← pm_get (ds_m set) rid;
  if reward_flag =? 0 then
    let a := malloc (st_heap (fs_store s)) in
    if a =? 0 then Undef
    else
      '(st, ret) ← DATA_new (with_datum (fs_store s) a (new_datum (mk_rf pid rid mask))) a;
      if negb (ret =? 0) then Ret (mk_flags (mk_store (delete a (st_heap st)) (st_update_list st) (st_db st)) set (fs_notify s), -1)
      else
        '(m, _) ← pm_set (ds_m set) rid a;
        '(h, q) ← dlist_insert_tail (st_heap st) (ds_list set) a;
        v ← deref (h !! a);
        n ← reward_flag_add_notify (fs_notify s) (dt_row v);
        Ret (mk_flags (with_heap st h) (mk_set m q) n, 0)
  else
    v ← deref (st_heap (fs_store s) !! reward_flag);
    if negb (Z.land (rf_value (dt_row v)) mask =? 0) then Ret (s, 0)
    else
      st ← DATA_update (fs_store s) now reward_flag 3 (Z.lor (rf_value (dt_row v)) mask);
      v ← deref (st_heap st !! reward_flag);
      n ← reward_flag_add_notify (fs_notify s) (dt_row v);
      Ret (mk_flags st set n, 0).
End Operations.

Section Theorems.
Context {W M N : Type} `{Database RewardFlag W} `{!DatabaseLaws RewardFlag (Z * Z) W reward_flag_key fst} `{PutLaws M} `{NotifierLaws N}.
Context (map_new : M) (map_new_ok : pt_ok map_new) (map_new_empty : pt_abs map_new = ∅).
Context (void : Z) (malloc : gmap Z (datum RewardFlag) -> Z) (malloc_ok : forall h, h !! malloc h = None /\ malloc h <> 0 /\ malloc h <> void).
#[local] Abbreviation state := (flag_state W M N).
#[local] Abbreviation rows := (db_rows (key := reward_flag_key) (owner := fst)).

(** ** Masks *)

Lemma mask_bit pos : 0 <= pos < 64 -> u64 (Z.shiftl 1 pos) = 2 ^ pos.
Proof. apply shiftl_bit. Qed.

Lemma land_mask v i : 0 <= v -> 0 <= i -> Z.land v (2 ^ i) = if Z.testbit v i then 2 ^ i else 0.
Proof.
  intros Hv Hi. apply Z.bits_inj'. intros j Hj. rewrite Z.land_spec. destruct (decide (j = i)) as [->|Hne].
  - rewrite Z.pow2_bits_true by exact Hi. destruct (Z.testbit v i); cbn; [now rewrite Z.pow2_bits_true by exact Hi|now rewrite Z.bits_0].
  - rewrite Z.pow2_bits_false by congruence. rewrite andb_false_r. destruct (Z.testbit v i); [now rewrite Z.pow2_bits_false by congruence|now rewrite Z.bits_0].
Qed.

Lemma lor_mask_bits v i j : 0 <= i -> Z.testbit (Z.lor v (2 ^ i)) j = (j =? i) || Z.testbit v j.
Proof. intros Hi. rewrite Z.lor_spec, Z.pow2_bits_eqb by exact Hi. rewrite (Z.eqb_sym i j). destruct (j =? i), (Z.testbit v j); reflexivity. Qed.

Lemma lor_mask_range v i n : 0 <= v < 2 ^ n -> 0 <= i < n -> 0 <= Z.lor v (2 ^ i) < 2 ^ n.
Proof.
  intros Hv Hi. assert (0 < 2 ^ i) by (apply Z.pow_pos_nonneg; lia). assert (Hnn : 0 <= Z.lor v (2 ^ i)) by (apply Z.lor_nonneg; lia).
  split; [exact Hnn|]. assert (Hlt : 2 ^ i < 2 ^ n) by (apply Z.pow_lt_mono_r; lia).
  destruct (Z.eq_dec (Z.lor v (2 ^ i)) 0) as [->|Hz]; [lia|]. apply Z.log2_lt_pow2; [lia|]. rewrite Z.log2_lor by lia.
  destruct (Z.eq_dec v 0) as [->|Hv0].
  - rewrite Z.log2_pow2 by lia. cbn. lia.
  - rewrite Z.log2_pow2 by lia. apply Z.max_lub_lt; [apply Z.log2_lt_pow2; lia|lia].
Qed.

(** ** The flags of a state *)

Definition flag_of (s : state) (id : Z) : bool :=
  match row_of (fs_store s) (fs_set s) (id / 50) with Some r => Z.testbit (rf_value r) (id mod 50) | None => false end.

(** The notification of a record: its number and its value. *)
Definition flag_change (r : RewardFlag) : amf_value :=
  AV amf_array 3 (PChild [Some (amf_new_integer (rf_id r));
    Some (if AMF_INTEGER_MAX <=? rf_value r then amf_new_double (double_of_Z (rf_value r)) else amf_new_integer (rf_value r)); None]).
Definition row_ok (r : RewardFlag) : Prop := 0 <= rf_id r < 2 ^ 32 /\ 0 <= rf_value r < 2 ^ 50.

Lemma add_notify_eq n r : reward_flag_add_notify n r = post_change_key n (rf_pid r) NOTIFY_REWARDFLAG (rf_id r) (Some (flag_change r)).
Proof. reflexivity. Qed.

Lemma flag_change_wf r : row_ok r -> wf_amf (flag_change r).
Proof.
  intros [Hi Hv]. apply wf_array_intro; [vm_compute; split; discriminate| |repeat constructor]. intros c Hc.
  apply elem_of_cons in Hc as [[= ->]|Hc]; [now constructor|]. apply elem_of_cons in Hc as [[= ->]|Hc].
  - destruct (Z.leb_spec AMF_INTEGER_MAX (rf_value r)); constructor; [apply double_of_Z_range|]; unfold AMF_INTEGER_MAX in *; lia.
  - apply list_elem_of_singleton in Hc. discriminate.
Qed.

(** [l]: the records, [ul]: those on the update list, [p]: what waits to be sent; [b] bounds them. *)
Record flags_inv (s : state) (pid b : Z) (l ul : list Z) (p : pending) : Prop := {
  fi_data : data_ok reward_flag_key fst void (fs_store s) ul;
  fi_set : player_set reward_flag_key fst rf_id (fs_store s) (fs_set s) l pid;
  fi_notes : nf_rep (fs_notify s) b p;
  fi_range : forall k r, row_of (fs_store s) (fs_set s) k = Some r -> row_ok r;
  fi_bound : zlen l <= b /\ Z.of_nat (size (rows (st_db (fs_store s)))) <= b }.
Lemma pos_range id : 0 <= id mod 50 < 50.
Proof. apply Z.mod_pos_bound. lia. Qed.

Lemma get_flag_spec s pid b l ul p id : flags_inv s pid b l ul p -> 0 <= id ->
  reward_flag_get s id = Ret (if flag_of s id then 1 else 0).
Proof.
  intros [_ [Hso _ _ _] _ Hr _] Hid. unfold reward_flag_get, flag_of. rewrite mask_bit by (pose proof (pos_range id); lia).
  destruct (set_get rf_id (fs_store s) (fs_set s) l (id / 50) Hso) as [(a & v & -> & Haz & _ & Hv & _ & _ & Hro)|(-> & Hro & _)]; rewrite Hro; cbn [mbind outcome_bind Z.eqb]; [|reflexivity].
  apply Z.eqb_neq in Haz as ->. rewrite Hv. cbn [deref mbind outcome_bind]. pose proof (Hr _ _ Hro) as [_ Hval]. pose proof (pos_range id).
  rewrite land_mask by lia. destruct (Z.testbit (rf_value (dt_row v)) (id mod 50)); [|reflexivity].
  assert (0 < 2 ^ (id mod 50)) by (apply Z.pow_pos_nonneg; lia). ztests; reflexivity.
Qed.

(** Two flags are one when record and position agree. *)
Lemma same_flag j id : (j / 50 =? id / 50) && (j mod 50 =? id mod 50) = (j =? id).
Proof.
  destruct (Z.eqb_spec j id) as [->|Hne]; [now rewrite !Z.eqb_refl|]. destruct (Z.eqb_spec (j / 50) (id / 50)) as [E|]; [|reflexivity].
  destruct (Z.eqb_spec (j mod 50) (id mod 50)) as [E2|]; [|reflexivity]. exfalso. apply Hne. rewrite (Z.div_mod j 50), (Z.div_mod id 50) by lia. congruence.
Qed.

(** A record after its flag at [id] is set. *)
Definition flagged (pid id : Z) (o : option RewardFlag) : RewardFlag :=
  match o with Some r => mk_rf (rf_pid r) (rf_id r) (Z.lor (rf_value r) (2 ^ (id mod 50))) | None => mk_rf pid (id / 50) (2 ^ (id mod 50)) end.

Lemma flagged_ok pid id o : 0 <= id < 2 ^ 32 -> (forall r, o = Some r -> row_ok r) -> row_ok (flagged pid id o).
Proof.
  intros Hid Ho. pose proof (pos_range id). destruct o as [r|]; cbn.
  - destruct (Ho r eq_refl) as [H1' H2']. split; [exact H1'|]. now apply lor_mask_range.
  - split; cbn.
    + split; [apply Z.div_pos; lia|]. apply Z.div_lt_upper_bound; lia.
    + split; [apply Z.pow_nonneg; lia|]. apply Z.pow_lt_mono_r; lia.
Qed.

(** The flags after a record becomes [flagged]. *)
Lemma flag_of_flagged (s s' : state) pid id : 
  (forall k, row_of (fs_store s') (fs_set s') k = if k =? id / 50 then Some (flagged pid id (row_of (fs_store s) (fs_set s) k)) else row_of (fs_store s) (fs_set s) k) ->
  forall j, flag_of s' j = (j =? id) || flag_of s j.
Proof.
  intros Hrow j. unfold flag_of. rewrite Hrow, <- (same_flag j id). pose proof (pos_range id). destruct (Z.eqb_spec (j / 50) (id / 50)) as [->|]; [|reflexivity]. cbn [andb].
  destruct (row_of (fs_store s) (fs_set s) (id / 50)) as [r|]; cbn [flagged rf_value].
  - now rewrite lor_mask_bits by lia.
  - rewrite Z.pow2_bits_eqb by lia. rewrite orb_false_r, Z.eqb_sym. reflexivity.
Qed.

Lemma key_number (r r' : RewardFlag) : reward_flag_key r = reward_flag_key r' -> rf_id r = rf_id r'.
Proof. intros [= _ E]. exact E. Qed.
Lemma number_key (r r' : RewardFlag) : fst (reward_flag_key r) = fst (reward_flag_key r') -> rf_id r = rf_id r' -> reward_flag_key r = reward_flag_key r'.
Proof. intros E1 E2. unfold reward_flag_key in *. cbn in E1. congruence. Qed.

Lemma flags_inv_mono s pid b b' l ul p : flags_inv s pid b l ul p -> b <= b' -> flags_inv s pid b' l ul p.
Proof. intros [Hok Hps Hnt Hr [Hl Hsz]] Hb. constructor; [exact Hok|exact Hps|exact (nf_more _ _ _ _ Hnt Hb)|exact Hr|lia]. Qed.

Lemma set_flag_spec s pid b l ul p now id : flags_inv s pid b l ul p -> 0 <= b < 2 ^ 60 -> 0 <= id < 2 ^ 32 ->
  let r' := flagged pid id (row_of (fs_store s) (fs_set s) (id / 50)) in
  exists s' ret l' ul' p', reward_flag_set malloc s now pid id = Ret (s', ret) /\ flags_inv s' pid (b + 1) l' ul' p' /\
    (ret = 0 /\ (forall j, flag_of s' j = (j =? id) || flag_of s j) /\
       p' = (if flag_of s id then p else enter p (mk_post (rf_pid r') NOTIFY_REWARDFLAG (Some (rf_id r')) (Some (flag_change r')))) \/
     ret = -1 /\ (forall j, flag_of s' j = flag_of s j) /\ p' = p /\ row_of (fs_store s) (fs_set s) (id / 50) = None).
Proof.
  intros Hinv Hb Hid r'. pose proof Hinv as [Hok Hps Hnt Hr [Hl Hsz]]. pose proof (pos_range id) as Hpos. pose proof (ps_set _ _ _ _ _ _ _ Hps) as Hso.
  unfold reward_flag_set. rewrite mask_bit by lia.
  destruct (set_get rf_id (fs_store s) (fs_set s) l (id / 50) Hso) as [(a & v & -> & Haz & Hal & Hv & _ & Hk & Hro)|(-> & Hro & _)]; cbn [mbind outcome_bind Z.eqb].
  - apply Z.eqb_neq in Haz as ->. rewrite Hv. cbn [deref mbind outcome_bind]. pose proof (Hr _ _ Hro) as [_ Hval]. rewrite land_mask by lia.
    assert (Hfl : flag_of s id = Z.testbit (rf_value (dt_row v)) (id mod 50)) by (unfold flag_of; now rewrite Hro).
    subst r'. rewrite Hfl, Hro. destruct (Z.testbit (rf_value (dt_row v)) (id mod 50)) eqn:Ebit.
    + assert (Hz : 2 ^ (id mod 50) <> 0) by (apply Z.pow_nonzero; lia). apply Z.eqb_neq in Hz as ->. cbn [negb].
      exists s, 0, l, ul, p. split; [reflexivity|]. split; [apply (flags_inv_mono s pid b); [exact Hinv|lia]|]. left. split; [reflexivity|]. split; [|reflexivity].
      intros j. destruct (Z.eqb_spec j id) as [->|]; [now rewrite Hfl|reflexivity].
    + cbn [negb Z.eqb]. destruct (ps_update reward_flag_key fst rf_id void key_number (fs_store s) (fs_set s) l ul pid now a 3 (Z.lor (rf_value (dt_row v)) (2 ^ (id mod 50))) v Hps Hok Hal Hv ltac:(left))
        as (st & ul' & v' & -> & Hok' & Hps' & Hdb & Hh & Hrow & Hrows). cbn [mbind outcome_bind]. rewrite Hh, lookup_insert_eq. cbn [deref mbind outcome_bind].
      rewrite add_notify_eq, Hrow. rewrite Hk in Hrows.
      set (r' := flagged pid id (Some (dt_row v))). change (row_set (dt_row v) 3 _) with r' in *.
      assert (Hr' : row_ok r') by (apply flagged_ok; [exact Hid|]; intros x [= <-]; eauto).
      destruct (post_key_spec (fs_notify s) b p (rf_pid r') NOTIFY_REWARDFLAG (rf_id r') (flag_change r') Hnt ltac:(lia) ltac:(unfold NOTIFY_REWARDFLAG; lia) (flag_change_wf _ Hr')) as (n & -> & Hnt').
      cbn [mbind outcome_bind]. eexists _, 0, l, ul', _. split; [reflexivity|]. split.
      * constructor; cbn [fs_store fs_set fs_notify]; [exact Hok'|exact Hps'|exact Hnt'| |rewrite Hdb; lia].
        intros k r Hkr. rewrite Hrows in Hkr. destruct (k =? id / 50); [injection Hkr as <-; exact Hr'|eauto].
      * left. split; [reflexivity|]. split; [|reflexivity]. apply (flag_of_flagged _ _ pid). cbn [fs_store fs_set]. intros k. rewrite Hrows.
        destruct (Z.eqb_spec k (id / 50)) as [->|]; [now rewrite Hro|reflexivity].
  - destruct (malloc_ok (st_heap (fs_store s))) as (_ & Hz & _). apply Z.eqb_neq in Hz as Hz'. rewrite Hz'.
    set (r1 := mk_rf pid (id / 50) (2 ^ (id mod 50))). subst r'. rewrite Hro. change (flagged pid id None) with r1.
    assert (Hr1 : row_ok r1) by (apply (flagged_ok pid id None Hid); discriminate).
    assert (Hfl : flag_of s id = false) by (unfold flag_of; now rewrite Hro). rewrite Hfl.
    destruct (ps_insert reward_flag_key fst rf_id void malloc malloc_ok number_key key_number (fs_store s) (fs_set s) l ul pid r1 Hps Hok eq_refl Hro ltac:(lia)) as (st & ret & -> & _ & Hres).
    cbn [mbind outcome_bind]. destruct (Z.eqb_spec ret 0) as [E|E]; cbn [negb].
    + destruct Hres as (h & q & m & -> & Hpm & Hok' & Hps' & (v & Hv & Hrow) & Hrows & Hsize). cbn [rf_id r1] in Hpm. rewrite Hpm. cbn [mbind outcome_bind]. rewrite Hv. cbn [deref mbind outcome_bind].
      rewrite add_notify_eq, Hrow.
      destruct (post_key_spec (fs_notify s) b p (rf_pid r1) NOTIFY_REWARDFLAG (rf_id r1) (flag_change r1) Hnt ltac:(lia) ltac:(unfold NOTIFY_REWARDFLAG; lia) (flag_change_wf _ Hr1)) as (n & -> & Hnt').
      cbn [mbind outcome_bind]. eexists _, 0, _, ul, _. split; [reflexivity|]. split.
      * constructor; cbn [fs_store fs_set fs_notify]; [exact Hok'|exact Hps'|exact Hnt'| |].
        -- intros k r Hkr. rewrite Hrows in Hkr. destruct (k =? rf_id r1); [injection Hkr as <-; exact Hr1|eauto].
        -- cbn [st_db with_heap]. rewrite Hsize. autorewrite with cserver. lia.
      * left. split; [reflexivity|]. split; [|reflexivity]. apply (flag_of_flagged _ _ pid). cbn [fs_store fs_set]. intros k. rewrite Hrows.
        cbn [rf_id r1]. destruct (Z.eqb_spec k (id / 50)) as [->|]; [now rewrite Hro|reflexivity].
    + destruct Hres as (Hok' & Hps' & Hrows & Hsize). eexists _, (-1), l, ul, p. split; [reflexivity|]. split.
      * constructor; cbn [fs_store fs_set fs_notify]; [exact Hok'|exact Hps'|eapply nf_more; [exact Hnt|lia]| |cbn [st_db]; rewrite Hsize; lia].
        intros k r Hkr. rewrite Hrows in Hkr. eauto.
      * right. split; [reflexivity|]. split; [|auto]. intros j. unfold flag_of. cbn [fs_store fs_set]. now rewrite Hrows.
Qed.

(** ** Runs *)

(** What happens to the flags of a player: the calls, a flush of the table, leaving and coming back. *)
Inductive flag_op := FlagSet (now id : Z) | FlagGet (id : Z) | FlagFlush (now : Z) | FlagRelogin (now : Z).

Definition flag_step (s : state) (pid : Z) (op : flag_op) : outcome (option state * Z) :=
  match op with
  | FlagSet now id => '(s, r) ← reward_flag_set malloc s now pid id; Ret (Some s, r)
  | FlagGet id => r ← reward_flag_get s id; Ret (Some s, r)
  | FlagFlush now => st ← DATA_flush void (fs_store s) now; Ret (Some (mk_flags st (fs_set s) (fs_notify s)), 0)
  | FlagRelogin now =>
    st ← reward_flag_release (fs_store s) (fs_set s);
    st ← DATA_flush void st now;
    '(st, set) ← reward_flag_load map_new malloc st pid;
    Ret (match set with Some set => (Some (mk_flags st set (fs_notify s)), 0) | None => (None, -1) end)
  end.

(** The answers; a player that cannot be loaded makes no more calls. *)
Fixpoint flag_run (s : state) (pid : Z) (ops : list flag_op) : outcome (list Z) :=
  match ops with
  | [] => Ret []
  | op :: ops' =>
    '(s, r) ← flag_step s pid op;
    match s with Some s => rs ← flag_run s pid ops'; Ret (r :: rs) | None => Ret [r] end
  end.

(** The same on a set of numbers.  Setting fails when the row for it has to be made and cannot be. *)
Fixpoint flags_answer (F : gset Z) (ops : list flag_op) (rs : list Z) : Prop :=
  match ops, rs with
  | [], [] => True
  | FlagSet _ id :: ops', r :: rs' =>
    (r = 0 /\ flags_answer ({[id]} ∪ F) ops' rs') \/ (r = -1 /\ (forall j, j ∈ F -> j / 50 <> id / 50) /\ flags_answer F ops' rs')
  | FlagGet id :: ops', r :: rs' => r = (if bool_decide (id ∈ F) then 1 else 0) /\ flags_answer F ops' rs'
  | FlagFlush _ :: ops', r :: rs' => r = 0 /\ flags_answer F ops' rs'
  | FlagRelogin _ :: ops', r :: rs' => (r = 0 /\ flags_answer F ops' rs') \/ (r = -1 /\ rs' = [])
  | _, _ => False
  end.
Definition flag_op_ok (op : flag_op) : Prop :=
  match op with FlagSet _ id | FlagGet id => 0 <= id < 2 ^ 32 | _ => True end.

(** The flags of the state are those of [F]. *)
Definition flags_are (s : state) (F : gset Z) : Prop :=
  (forall j, 0 <= j -> flag_of s j = bool_decide (j ∈ F)) /\ forall j, j ∈ F -> 0 <= j.

Lemma flush_flags s pid b l ul p now : flags_inv s pid b l ul p -> exists st ul',
  DATA_flush void (fs_store s) now = Ret st /\ (saves_ok (V := RewardFlag) (W := W) -> flags_inv (mk_flags st (fs_set s) (fs_notify s)) pid b l ul' p) /\
  forall k, row_of st (fs_set s) k = row_of (fs_store s) (fs_set s) k.
Proof.
  intros [Hok Hps Hnt Hr [Hl Hsz]]. destruct (ps_flush reward_flag_key fst rf_id void (fs_store s) (fs_set s) l ul pid now Hps Hok) as (st & ul' & He & Hok' & Hps' & Hrows & Hsize).
  exists st, ul'. split; [exact He|]. split; [|exact Hrows]. intros Hsv. constructor; cbn [fs_store fs_set fs_notify]; [exact Hok'|exact (Hps' Hsv)|exact Hnt| |rewrite (Hsize Hsv); lia].
  intros k r Hk. rewrite Hrows in Hk. eauto.
Qed.

Lemma flag_run_spec pid ops : forall s F b l ul p, flags_inv s pid b l ul p -> flags_are s F -> saves_ok (V := RewardFlag) (W := W) -> Forall flag_op_ok ops ->
  0 <= b -> b + zlen ops < 2 ^ 60 -> exists rs, flag_run s pid ops = Ret rs /\ flags_answer F ops rs.
Proof.
  induction ops as [|op ops IH]; intros s F b l ul p Hinv [HF HF0] Hsv Hops Hb Hlen; [now exists []|]. apply list.Forall_cons in Hops as [Hop Hops].
  rewrite zlen_cons in Hlen. pose proof (zlen_nonneg ops). cbn [flag_run]. destruct op as [now id|id|now|now]; cbn [flag_step flag_op_ok] in *.
  - destruct (set_flag_spec s pid b l ul p now id Hinv ltac:(lia) Hop) as (s' & ret & l' & ul' & p' & -> & Hinv' & Hres). cbn [mbind outcome_bind].
    destruct Hres as [(-> & Hf & _)|(-> & Hf & _ & Hnone)].
    + destruct (IH s' ({[id]} ∪ F) (b + 1) l' ul' p' Hinv') as (rs & -> & Ha); [|exact Hsv|exact Hops|lia|lia|exists (0 :: rs); split; [reflexivity|]; left; now split].
      split; [|intros j Hj; apply elem_of_union in Hj as [Hj|Hj]; [apply elem_of_singleton in Hj; lia|auto]].
      intros j Hj. rewrite Hf, HF by exact Hj. destruct (Z.eqb_spec j id) as [->|Hne]; cbn; [symmetry; apply bool_decide_eq_true, elem_of_union; left; now apply elem_of_singleton|].
      apply bool_decide_ext. rewrite elem_of_union, elem_of_singleton. tauto.
    + destruct (IH s' F (b + 1) l' ul' p' Hinv') as (rs & -> & Ha); [|exact Hsv|exact Hops|lia|lia|].
      * split; [|exact HF0]. intros j Hj. now rewrite Hf, HF.
      * exists (-1 :: rs). split; [reflexivity|]. right. split; [reflexivity|]. split; [|exact Ha]. intros j Hj E. pose proof (HF j (HF0 j Hj)) as Hjf.
        unfold flag_of in Hjf. rewrite E, Hnone in Hjf. symmetry in Hjf. now apply bool_decide_eq_false in Hjf.
  - rewrite (get_flag_spec s pid b l ul p id Hinv) by lia. cbn [mbind outcome_bind]. destruct (IH s F b l ul p Hinv) as (rs & -> & Ha); [now split|exact Hsv|exact Hops|lia|lia|].
    eexists. split; [reflexivity|]. split; [|exact Ha]. now rewrite HF by lia.
  - destruct (flush_flags s pid b l ul p now Hinv) as (st & ul' & -> & Hinv' & Hrows). cbn [mbind outcome_bind].
    destruct (IH _ F b l ul' p (Hinv' Hsv)) as (rs & -> & Ha); [|exact Hsv|exact Hops|lia|lia|exists (0 :: rs); split; [reflexivity|]; now split].
    split; [|exact HF0]. intros j Hj. rewrite <- HF by exact Hj. unfold flag_of. cbn [fs_store fs_set]. now rewrite Hrows.
  - destruct Hinv as [Hok Hps Hnt Hr [Hl Hsz]].
    destruct (relogin_spec reward_flag_key fst rf_id (fun _ => true) void malloc malloc_ok number_key map_new (fs_store s) (fs_set s) l ul pid now map_new_ok map_new_empty (fun _ _ _ => eq_refl) Hps Hok Hsv ltac:(lia))
      as (s1 & s2 & s3 & ul2 & res & He1 & He2 & He3 & Hok3 & Hsz3 & Hres).
    unfold reward_flag_release, reward_flag_load. rewrite He1. cbn [mbind outcome_bind]. rewrite He2. cbn [mbind outcome_bind]. rewrite He3. cbn [mbind outcome_bind].
    destruct res as [set'|]; [|exists [-1]; split; [reflexivity|now right]]. destruct (Hres set' eq_refl) as [(l' & Hps' & Hll) Hrows].
    destruct (IH (mk_flags s3 set' (fs_notify s)) F b l' ul2 p) as (rs & -> & Ha); [| |exact Hsv|exact Hops|lia|lia|exists (0 :: rs); split; [reflexivity|]; left; now split].
    + constructor; cbn [fs_store fs_set fs_notify]; [exact Hok3|exact Hps'|exact Hnt| |unfold zlen in *; rewrite Hsz3; lia]. intros k r Hk. rewrite Hrows in Hk. eauto.
    + split; [|exact HF0]. intros j Hj. rewrite <- HF by exact Hj. unfold flag_of. cbn [fs_store fs_set]. now rewrite Hrows.
Qed.
End Theorems.

(** The flags of a player are a set.  For a player without rows, whatever sequence of setting, asking,
    flushing, and leaving and coming back follows, every call returns; asking answers 1 exactly for the flags
    that were set, also after the player left and came back; setting answers 0, or -1 without any change when no
    flag of its row is set and the row cannot be made.  (Update statements succeed; a player whose rows cannot
    be read makes no more calls.) *)
Theorem reward_flags_are_a_set {W M N : Type} `{Database RewardFlag W} `{!DatabaseLaws RewardFlag (Z * Z) W reward_flag_key fst} `{PutLaws M} `{NotifierLaws N}
    (map_new : M) (void : Z) (malloc : gmap Z (datum RewardFlag) -> Z) (w : W) (n : N) pid ops :
  pt_ok map_new -> pt_abs map_new = ∅ -> (forall h, h !! malloc h = None /\ malloc h <> 0 /\ malloc h <> void) -> void <> 0 ->
  (forall i, db_rows (key := reward_flag_key) (owner := fst) w !! (pid, i) = None) -> nf_rep n 0 [] -> saves_ok (V := RewardFlag) (W := W) -> Forall flag_op_ok ops ->
  Z.of_nat (size (db_rows (key := reward_flag_key) (owner := fst) w)) + zlen ops < 2 ^ 60 ->
  exists rs, flag_run map_new void malloc (mk_flags (empty_store void w) (reward_flag_new map_new) n) pid ops = Ret rs /\ flags_answer ∅ ops rs.
Proof.
  intros Hm Hm0 Hmal Hv Hw Hn Hsv Hops Hlen. eapply (flag_run_spec map_new Hm Hm0 void malloc Hmal pid ops _ ∅ (Z.of_nat (size (db_rows w)))); [| |exact Hsv|exact Hops|lia|exact Hlen].
  - constructor; cbn [fs_store fs_set fs_notify].
    + exact (empty_ok reward_flag_key fst void w Hv).
    + apply player_set_new; [exact Hm|exact Hm0|reflexivity|]. intros [p i] Ep. cbn in Ep. subst p. apply Hw.
    + eapply nf_more; [exact Hn|lia].
    + intros k r. unfold row_of. cbn. now rewrite Hm0, lookup_empty.
    + unfold zlen. cbn. lia.
  - split; [|intros j Hj; now apply elem_of_empty in Hj]. intros j _. unfold flag_of, row_of. cbn. rewrite Hm0, lookup_empty. symmetry. apply bool_decide_eq_false, not_elem_of_empty.
Qed.

(** A run with the structures of the program and the table in memory. *)
Lemma empty_map_ok : pm_ok (_agMap_new : agmap Z) /\ pm_abs (_agMap_new : agmap Z) = ∅.
Proof. split; [split|]; apply agMap_new_ok. Qed.
#[export] Instance sample_notifier : Notifier (notify_state (agmap Z)) := notify_notifier _agMap_new fresh_address fresh_address.
#[export] Instance sample_notifier_laws : NotifierLaws (notify_state (agmap Z)) :=
  notify_laws _agMap_new fresh_address fresh_address (proj1 empty_map_ok) (proj2 empty_map_ok) fresh_address_spec fresh_address_spec.
#[local] Instance sample_table : Database RewardFlag (gmap (Z * Z) RewardFlag) := memory_database reward_flag_key fst.
#[local] Instance sample_table_laws : DatabaseLaws RewardFlag (Z * Z) (gmap (Z * Z) RewardFlag) reward_flag_key fst := memory_laws reward_flag_key fst.
Definition sample_flags : list flag_op := [FlagSet 1 70; FlagGet 70; FlagGet 71; FlagSet 2 51; FlagRelogin 100; FlagGet 51; FlagGet 1].
Definition sample_flag_state : flag_state (gmap (Z * Z) RewardFlag) (agmap Z) (notify_state (agmap Z)) :=
  mk_flags (empty_store VOID ∅) (reward_flag_new _agMap_new) sample_idle.

Lemma reward_flags_are_a_set_witness :
  flag_run _agMap_new VOID next_address sample_flag_state 7 sample_flags = Ret [0; 1; 0; 0; 0; 1; 0] /\
  exists rs, flag_run _agMap_new VOID next_address sample_flag_state 7 sample_flags = Ret rs /\ flags_answer ∅ sample_flags rs.
Proof.
  split; [vm_compute; reflexivity|]. apply (reward_flags_are_a_set _agMap_new VOID next_address ∅ sample_idle 7 sample_flags).
  - split; apply agMap_new_ok.
  - apply agMap_new_ok.
  - apply next_address_ok.
  - discriminate.
  - intros i. reflexivity.
  - apply notify_start. constructor; try reflexivity. split; apply agMap_new_ok.
  - apply memory_saves_ok.
  - repeat constructor; cbn; lia.
  - vm_compute. reflexivity.
Defined.
