(* ===== verification/Daily.v ===== *)
(** * Counters of the day: [modules/daily.c]

    A player has counters that start again every day: the record of a counter has its value and the time of
    the last change, and a value from an earlier day reads as zero.  The day begins at five in the morning,
    for the counter of the time online at midnight.  The functions over the records of the player ([DataSet])
    refine a map from numbers to values with their times. *)
From S2P Require Import Prelude AgMap Dlist Keyed Data DataSet Timeline.

Definition DAILY_ITEM_ONLINE : Z := 1.

(** [struct DailyData]: the columns of the table *)
Record DailyData := mk_daily { dd_pid : Z; dd_id : Z; dd_update_time : Z; dd_value : Z; dd_total : Z }.

#[export] Instance daily_row : Row DailyData := {
  row_ids := [3; 4; 5];
  row_get r i := if i =? 3 then dd_update_time r else if i =? 4 then dd_value r else dd_total r;
  row_set r i x :=
    if i =? 3 then mk_daily (dd_pid r) (dd_id r) x (dd_value r) (dd_total r)
    else if i =? 4 then mk_daily (dd_pid r) (dd_id r) (dd_update_time r) x (dd_total r)
    else mk_daily (dd_pid r) (dd_id r) (dd_update_time r) (dd_value r) x }.
Definition daily_key (r : DailyData) : Z * Z := (dd_pid r, dd_id r).
#[export] Instance daily_laws : RowLaws DailyData (Z * Z) daily_key.
Proof.
  assert (Hin : forall i, i ∈ [3; 4; 5] -> i = 3 \/ i = 4 \/ i = 5) by (intros i Hi; rewrite !elem_of_cons, elem_of_nil in Hi; tauto).
  constructor; cbn [row_ids row_get row_set daily_row].
  - intros i Hi. apply Hin in Hi. lia.
  - intros r i j x Hi Hj. apply Hin in Hi as [->|[->| ->]], Hj as [->|[->| ->]]; reflexivity.
  - intros r i x Hi. apply Hin in Hi as [->|[->| ->]]; reflexivity.
  - intros [p i t v x] [q j t' v' x'] [= -> ->] Hg. pose proof (Hg 3 ltac:(left)) as H3. pose proof (Hg 4 ltac:(right; left)) as H4. pose proof (Hg 5 ltac:(right; right; left)) as H5.
    cbn in H3, H4, H5. congruence.
Qed.

(** The table and the player's set; [struct CheckData] has the times of the player's last sign of life and of
    the start of the time online that is not yet counted. *)
Record daily_state (W M : Type) := mk_ds { dl_store : store DailyData W; dl_set : data_set M }.
Arguments mk_ds {W M} _ _.
Arguments dl_store {W M} _.
Arguments dl_set {W M} _.
Record CheckData := mk_check { tick_time : Z; daily_online_record_time : Z }.

Section Operations.
Context {W M : Type} `{Database DailyData W} `{PtrMap M} (map_new : M).
Context (void : Z) (malloc : gmap Z (datum DailyData) -> Z) (t : timeline).
#[local] Abbreviation state := (daily_state W M).

Definition daily_new : data_set M := mk_set map_new 0.
Definition daily_load (s : store DailyData W) (pid : Z) : outcome (store DailyData W * option (data_set M)) :=
  load_set dd_id (fun _ => true) map_new malloc s pid.

Definition DAY (x : Z) : Z := timeline_get_day t (x - 5 * 3600).
(** Whether the record is from an earlier day. *)
Definition outdated (id now update_time : Z) : bool :=
  if id =? DAILY_ITEM_ONLINE then negb (timeline_get_day t now =? timeline_get_day t update_time) else negb (DAY now =? DAY update_time).

Definition with_store (s : state) st : state := mk_ds st (dl_set s).

(** The next record; one of an earlier day starts again, written to the structure directly. *)
Definition daily_next (s : state) (now daily : Z) : outcome (state * Z) :=
  daily ← dlist_next (st_heap (dl_store s)) (ds_list (dl_set s)) daily;
  if daily =? 0 then Ret (s, 0)
  else
    v ← deref (st_heap (dl_store s) !! daily);
    let r := dt_row v in
    if outdated (dd_id r) now (dd_update_time r) then
      Ret (with_store s (with_datum (dl_store s) daily (set_row v (mk_daily (dd_pid r) (dd_id r) now 0 (dd_total r)))), daily)
    else Ret (s, daily).

Definition daily_add (s : state) (now pid id : Z) : outcome (state * Z) :=
  daily ← pm_get (ds_m (dl_set s)) id;
  if negb (daily =? 0) then Ret (s, daily)
  else
    let a := malloc (st_heap (dl_store s)) in
    if a =? 0 then Undef
    else
      '(st, ret) ← DATA_new (with_datum (dl_store s) a (new_datum (mk_daily pid id now 0 0))) a;
      if negb (ret =? 0) then Ret (with_store s (mk_store (delete a (st_heap st)) (st_update_list st) (st_db st)), 0)
      else
        '(m, _) ← pm_set (ds_m (dl_set s)) id a;
        '(h, q) ← dlist_insert_tail (st_heap st) (ds_list (dl_set s)) a;
        Ret (mk_ds (with_heap st h) (mk_set m q), a).

Definition daily_remove (s : state) (type : Z) : outcome (state * Z) :=
  daily ← pm_get (ds_m (dl_set s)) type;
  if daily =? 0 then Ret (s, 0)
  else
    '(st, ret) ← DATA_delete (dl_store s) daily;
    if negb (ret =? 0) then Ret (with_store s st, -1)
    else
      v ← deref (st_heap st !! daily);
      '(m, _) ← pm_set (ds_m (dl_set s)) (dd_id (dt_row v)) 0;
      '(h, q) ← dlist_remove (st_heap st) (ds_list (dl_set s)) daily;
      v ← deref (h !! daily);
      let r := dt_row v in
      let h := <[daily := set_row v (mk_daily (dd_pid r) (dd_id r) 0 0 (dd_total r))]> h in
      Ret (mk_ds (with_heap st h) (mk_set m q), 0).

(** The two updates that write a value and its time. *)
Definition write_value (s : state) (now daily value : Z) : outcome state :=
  st ← DATA_update (dl_store s) now daily 4 value;
  st ← DATA_update st now daily 3 now;
  Ret (with_store s st).

(** The address of the record, or 0. *)
Definition daily_get (s : state) (now id : Z) : outcome (state * Z) :=
  daily ← pm_get (ds_m (dl_set s)) id;
  if daily =? 0 then Ret (s, 0)
  else
    v ← deref (st_heap (dl_store s) !! daily);
    if outdated id now (dd_update_time (dt_row v)) then s ← write_value s now daily 0; Ret (s, daily) else Ret (s, daily).

Definition daily_get_raw (s : state) (id : Z) : outcome Z := pm_get (ds_m (dl_set s)) id.
Definition daily_next_raw (s : state) (daily : Z) : outcome Z := dlist_next (st_heap (dl_store s)) (ds_list (dl_set s)) daily.

Definition daily_set (s : state) (now daily value : Z) : outcome state :=
  v ← deref (st_heap (dl_store s) !! daily);
  if value =? dd_value (dt_row v) then Ret s else write_value s now daily value.

(** The record, made when it is not there: how the functions below begin. *)
Definition daily_obtain (s : state) (now pid id : Z) : outcome (state * Z) :=
  '(s, daily) ← daily_get s now id;
  if daily =? 0 then daily_add s now pid id else Ret (s, daily).

(** The value of the time online; the seconds of today since [daily_online_record_time] and the value before. *)
Definition today_sec (now : Z) : Z := Z.rem (timeline_get_sec t now) (3600 * 24).
Definition online_value (value now : Z) (check : CheckData) : Z :=
  if today_sec now <? now - daily_online_record_time check then u32 (today_sec now) else u32 (value + now - daily_online_record_time check).
(** After five minutes without a sign of life the time starts again. *)
Definition renew_check (now : Z) (check : CheckData) : CheckData :=
  if (daily_online_record_time check =? 0) || (tick_time check + 5 * 60 <? now) then mk_check (tick_time check) now else check.

(** [connected]: the player has a connection. *)
Definition daily_get_online_time (s : state) (now : Z) (connected : bool) (check : CheckData) : outcome (state * CheckData * Z) :=
  '(s, daily) ← daily_get s now DAILY_ITEM_ONLINE;
  if daily =? 0 then Ret (s, check, 0)
  else
    v ← deref (st_heap (dl_store s) !! daily);
    if negb connected then Ret (s, check, dd_value (dt_row v))
    else
      let check := renew_check now check in
      Ret (s, check, if daily_online_record_time check <? now then online_value (dd_value (dt_row v)) now check else dd_value (dt_row v)).

Definition daily_update_online_time (s : state) (now pid : Z) (force : bool) (check : CheckData) : outcome (state * CheckData) :=
  '(s, daily) ← daily_obtain s now pid DAILY_ITEM_ONLINE;
  let check := renew_check now check in
  if daily_online_record_time check <? now then
    if force || (daily_online_record_time check + 60 * 5 <=? now) then
      v ← deref (st_heap (dl_store s) !! daily);
      s ← daily_set s now daily (online_value (dd_value (dt_row v)) now check);
      Ret (s, mk_check (tick_time check) now)
    else Ret (s, check)
  else Ret (s, check).

Definition daily_release (s : state) (now pid : Z) (check : CheckData) : outcome (store DailyData W * CheckData) :=
  '(s, check) ← daily_update_online_time s now pid true check;
  st ← release_set (dl_store s) (dl_set s);
  Ret (st, check).

Definition daily_get_value (s : state) (now id : Z) : outcome (state * Z) :=
  '(s, daily) ← daily_get s now id;
  if daily =? 0 then Ret (s, 0) else v ← deref (st_heap (dl_store s) !! daily); Ret (s, i32 (dd_value (dt_row v))).

Definition daily_set_value (s : state) (now pid id value : Z) : outcome state :=
  '(s, daily) ← daily_obtain s now pid id;
  write_value s now daily (u32 value).

Definition daily_add_value (s : state) (now pid id value : Z) : outcome state :=
  '(s, daily) ← daily_obtain s now pid id;
  v ← deref (st_heap (dl_store s) !! daily);
  write_value s now daily (u32 (dd_value (dt_row v) + value)).
End Operations.

(** ** Days of a counter

    The days of the calendar begin at midnight, [_startTime] and every [DAY_SEC] seconds after it; the day
    of a counter begins at five in the morning, that of the counter of the time online at midnight. *)
Definition day_begins (t : timeline) (id b : Z) : Prop :=
  exists k, 0 <= k /\ b = _startTime t + k * DAY_SEC + (if id =? DAILY_ITEM_ONLINE then 0 else 5 * 3600).
(** A day begins between the two times. *)
Definition another_day (t : timeline) (id now tm : Z) : Prop :=
  exists b, day_begins t id b /\ (tm < b <= now \/ now < b <= tm).

Lemma another_day_shift t now tm off :
  (exists b, (exists k, 0 <= k /\ b = _startTime t + k * DAY_SEC + off) /\ (tm < b <= now \/ now < b <= tm)) <->
  timeline_get_day t (now - off) <> timeline_get_day t (tm - off).
Proof.
  set (x := now - off). set (y := tm - off).
  assert (Hd : forall a b, a <= b -> timeline_get_day t a <> timeline_get_day t b <->
    exists k, 0 <= k /\ a < _startTime t + k * DAY_SEC <= b).
  { intros a b Hab. unfold timeline_get_day. destruct (Z.ltb_spec b (_startTime t)) as [Hb|Hb].
    - unfold timeline_get. ztests. split; [congruence|]. intros (k & Hk & Hr). unfold DAY_SEC in Hr. lia.
    - pose proof (proj1 (timeline_get_interval t b DAY_SEC _ ltac:(unfold DAY_SEC; lia) Hb) eq_refl) as Hib.
      destruct (Z.ltb_spec a (_startTime t)) as [Ha|Ha].
      + split.
        * intros _. exists 0. lia.
        * intros _. replace (timeline_get t a DAY_SEC) with 0 by (unfold timeline_get; ztests).
          intros E. rewrite <- E in Hib. unfold DAY_SEC in Hib. lia.
      + pose proof (proj1 (timeline_get_interval t a DAY_SEC _ ltac:(unfold DAY_SEC; lia) Ha) eq_refl) as Hia.
        pose proof (timeline_get_mono t a b DAY_SEC Hab ltac:(unfold DAY_SEC; lia)) as Hm. set (p := timeline_get t a DAY_SEC) in *.
        set (q := timeline_get t b DAY_SEC) in *. unfold DAY_SEC in *. split.
        * intros Hne. exists (q - 1). lia.
        * intros (k & Hk & Hr) E. rewrite E in *. assert (k < q /\ q - 1 < k) by nia. lia. }
  destruct (Z.le_ge_cases x y) as [Hxy|Hxy].
  - rewrite (Hd x y Hxy). split.
    + intros (b & (k & Hk & ->) & Hb). exists k. subst x y. lia.
    + intros (k & Hk & Hb). exists (_startTime t + k * DAY_SEC + off). subst x y. split; [eauto|lia].
  - transitivity (timeline_get_day t y <> timeline_get_day t x); [rewrite (Hd y x Hxy)|split; congruence]. split.
    + intros (b & (k & Hk & ->) & Hb). exists k. subst x y. lia.
    + intros (k & Hk & Hb). exists (_startTime t + k * DAY_SEC + off). subst x y. split; [eauto|lia].
Qed.

(** What the code compares says whether another day has begun. *)
Lemma outdated_another_day t id now tm : outdated t id now tm = true <-> another_day t id now tm.
Proof.
  unfold outdated, another_day, day_begins, DAY. destruct (id =? DAILY_ITEM_ONLINE); rewrite another_day_shift, negb_true_iff, Z.eqb_neq, ?Z.sub_0_r; reflexivity.
Qed.

#[global] Instance another_day_dec t id now tm : Decision (another_day t id now tm).
Proof. refine (cast_if (decide (outdated t id now tm = true))); now rewrite <- outdated_another_day. Defined.

Lemma outdated_if {A} t id now tm (x y : A) :
  (if outdated t id now tm then x else y) = if decide (another_day t id now tm) then x else y.
Proof.
  destruct (decide _) as [Hd|Hd]; [now rewrite (proj2 (outdated_another_day t id now tm) Hd)|].
  destruct (outdated t id now tm) eqn:E; [|reflexivity]. destruct Hd. now apply outdated_another_day.
Qed.

(** The midnight before [now], and the seconds counted as passed of its day: one more than there are since
    midnight, but none in the last second of the day and before the calendar starts. *)
Definition midnight (t : timeline) (now : Z) : Z := _startTime t + (now - _startTime t) / DAY_SEC * DAY_SEC.
Definition of_today (t : timeline) (now : Z) : Z :=
  if now <? _startTime t then 0 else if now =? midnight t now + DAY_SEC - 1 then 0 else now - midnight t now + 1.

(** Since when the time online is to be counted, and the value of the counter after [elapsed] more seconds. *)
Definition counted_from (now : Z) (check : CheckData) : Z :=
  if decide (daily_online_record_time check = 0 \/ tick_time check < now - 300) then now else daily_online_record_time check.
Definition more_online (t : timeline) (value now elapsed : Z) : Z :=
  if decide (elapsed <= of_today t now) then u32 (value + elapsed) else of_today t now.

Lemma today_sec_of_today t now : today_sec t now = of_today t now /\ 0 <= of_today t now < DAY_SEC.
Proof.
  unfold today_sec, timeline_get_sec, of_today, midnight. change (3600 * 24) with DAY_SEC. destruct (Z.ltb_spec now (_startTime t)) as [Hn|Hn].
  - unfold timeline_get. ztests. split; [reflexivity|unfold DAY_SEC; lia].
  - rewrite timeline_get_div, Z.div_1_r by lia. set (d := now - _startTime t) in *.
    assert (E : d = DAY_SEC * (d / DAY_SEC) + d mod DAY_SEC) by (apply Z.div_mod; unfold DAY_SEC; lia).
    pose proof (Z.mod_pos_bound d DAY_SEC ltac:(unfold DAY_SEC; lia)) as Hr. set (q := d / DAY_SEC) in *. set (m := d mod DAY_SEC) in *.
    rewrite Z.rem_mod_nonneg by (unfold DAY_SEC in *; lia).
    assert (Hnow : now - (_startTime t + q * DAY_SEC) = m) by lia.
    destruct (Z.eqb_spec now (_startTime t + q * DAY_SEC + DAY_SEC - 1)) as [El|El].
    + split; [|unfold DAY_SEC; lia]. replace (d + 1) with ((q + 1) * DAY_SEC) by lia. apply Z.mod_mul. unfold DAY_SEC. lia.
    + rewrite Hnow. split; [|lia]. symmetry. apply (Z.mod_unique _ _ q); lia.
Qed.

Lemma renew_counted_from now check : daily_online_record_time (renew_check now check) = counted_from now check.
Proof.
  unfold renew_check, counted_from. destruct (decide _) as [Hd|Hd].
  - assert ((daily_online_record_time check =? 0) || (tick_time check + 5 * 60 <? now) = true) as ->; [|reflexivity].
    apply orb_true_iff. rewrite Z.eqb_eq, Z.ltb_lt. lia.
  - assert ((daily_online_record_time check =? 0) || (tick_time check + 5 * 60 <? now) = false) as ->; [|reflexivity].
    apply orb_false_iff. rewrite Z.eqb_neq, Z.ltb_ge. lia.
Qed.

Lemma online_value_more t value now check :
  online_value t value now check = more_online t value now (now - daily_online_record_time check).
Proof.
  unfold online_value, more_online. destruct (today_sec_of_today t now) as [-> Hr]. unfold DAY_SEC in Hr.
  destruct (decide _); ztests; [do 2 f_equal; lia|apply u32_small; lia].
Qed.

Section Theorems.
Context {W M : Type} `{Database DailyData W} `{!DatabaseLaws DailyData (Z * Z) W daily_key fst} `{PutLaws M} `{!RemoveLaws M}.
Context (map_new : M) (map_new_ok : pt_ok map_new) (map_new_empty : pt_abs map_new = ∅).
Context (void : Z) (malloc : gmap Z (datum DailyData) -> Z) (malloc_ok : forall h, h !! malloc h = None /\ malloc h <> 0 /\ malloc h <> void) (t : timeline).
#[local] Abbreviation state := (daily_state W M).
#[local] Abbreviation rows := (db_rows (key := daily_key) (owner := fst)).

Lemma daily_number (r r' : DailyData) : daily_key r = daily_key r' -> dd_id r = dd_id r'.
Proof. intros [= _ E]. exact E. Qed.
Lemma daily_number_key (r r' : DailyData) : fst (daily_key r) = fst (daily_key r') -> dd_id r = dd_id r' -> daily_key r = daily_key r'.
Proof. intros E1 E2. unfold daily_key in *. cbn in E1. congruence. Qed.

(** [l]: the records, [ul]: those on the update list; [b] bounds them. *)
Record daily_inv (s : state) (pid b : Z) (l ul : list Z) : Prop := {
  di_data : data_ok daily_key fst void (dl_store s) ul;
  di_set : player_set daily_key fst dd_id (dl_store s) (dl_set s) l pid;
  di_bound : zlen l <= b /\ Z.of_nat (size (rows (st_db (dl_store s)))) <= b }.
Definition row_at_number (s : state) (k : Z) : option DailyData := row_of (dl_store s) (dl_set s) k.
Definition rewritten (now x : Z) (r : DailyData) : DailyData := mk_daily (dd_pid r) (dd_id r) now x (dd_total r).

Lemma daily_write_spec s pid b l ul now a x v : daily_inv s pid b l ul -> a ∈ l -> st_heap (dl_store s) !! a = Some v ->
  exists s' ul' v', write_value s now a x = Ret s' /\ daily_inv s' pid b l ul' /\ st_heap (dl_store s') !! a = Some v' /\ dt_row v' = rewritten now x (dt_row v) /\
    forall k, row_at_number s' k = if k =? dd_id (dt_row v) then Some (rewritten now x (dt_row v)) else row_at_number s k.
Proof.
  intros [Hok Hps Hb] Hal Ha. unfold write_value.
  destruct (ps_update daily_key fst dd_id void daily_number (dl_store s) (dl_set s) l ul pid now a 4 x v Hps Hok Hal Ha ltac:(right; left)) as (s1 & ul1 & v1 & -> & Hok1 & Hps1 & Hdb1 & Hh1 & Hr1 & Hro1).
  cbn [mbind outcome_bind]. assert (Ha1 : st_heap s1 !! a = Some v1) by (rewrite Hh1; apply lookup_insert_eq).
  destruct (ps_update daily_key fst dd_id void daily_number s1 (dl_set s) l ul1 pid now a 3 now v1 Hps1 Hok1 Hal Ha1 ltac:(left)) as (s2 & ul2 & v2 & -> & Hok2 & Hps2 & Hdb2 & Hh2 & Hr2 & Hro2).
  cbn [mbind outcome_bind]. exists (with_store s s2), ul2, v2. split; [reflexivity|]. rewrite Hr1 in *. split; [|split; [|split]].
  - constructor; cbn [dl_store dl_set with_store]; [exact Hok2|exact Hps2|]. rewrite Hdb2, Hdb1. exact Hb.
  - cbn. rewrite Hh2. apply lookup_insert_eq.
  - exact Hr2.
  - intros k. unfold row_at_number. cbn [dl_store dl_set with_store]. rewrite Hro2, Hro1. cbn. destruct (k =? dd_id (dt_row v)); reflexivity.
Qed.

(** What reading at a time makes of a record: an earlier day's value is zero from now on. *)
Definition fresh (id now : Z) (r : DailyData) : DailyData := if outdated t id now (dd_update_time r) then rewritten now 0 r else r.

Lemma get_spec s pid b l ul now id : daily_inv s pid b l ul ->
  exists s' a ul', daily_get t s now id = Ret (s', a) /\ daily_inv s' pid b l ul' /\
    match row_at_number s id with
    | None => a = 0 /\ s' = s
    | Some r => a <> 0 /\ a ∈ l /\ (exists v, st_heap (dl_store s') !! a = Some v /\ dt_row v = fresh id now r) /\ dd_id r = id
    end /\
    forall k, row_at_number s' k = if k =? id then fresh id now <$> row_at_number s k else row_at_number s k.
Proof.
  intros Hinv. pose proof Hinv as [Hok Hps Hb]. pose proof (ps_set _ _ _ _ _ _ _ Hps) as Hso. unfold daily_get, row_at_number, fresh.
  destruct (set_get dd_id (dl_store s) (dl_set s) l id Hso) as [(a & v & -> & Haz & Hal & Hv & _ & Hk & Hro)|(-> & Hro & _)]; cbn [mbind outcome_bind Z.eqb].
  - apply Z.eqb_neq in Haz as Haz'. rewrite Haz', Hv, Hro. cbn [deref mbind outcome_bind]. destruct (outdated t id now (dd_update_time (dt_row v))) eqn:Eo.
    + destruct (daily_write_spec s pid b l ul now a 0 v Hinv Hal Hv) as (s' & ul' & v' & -> & Hinv' & Hv' & Hr' & Hrows). cbn [mbind outcome_bind].
      exists s', a, ul'. split; [reflexivity|]. split; [exact Hinv'|]. split; [split; [exact Haz|]; split; [exact Hal|]; split; [eauto|exact Hk]|].
      intros k. unfold row_at_number in Hrows. rewrite Hrows, Hk. destruct (Z.eqb_spec k id) as [->|]; [rewrite Hro; cbn; now rewrite Eo|reflexivity].
    + exists s, a, ul. split; [reflexivity|]. split; [exact Hinv|]. split; [split; [exact Haz|]; split; [exact Hal|]; split; [eauto|exact Hk]|].
      intros k. destruct (Z.eqb_spec k id) as [->|]; [rewrite Hro; cbn; now rewrite Eo|reflexivity].
  - exists s, 0, ul. rewrite Hro. split; [reflexivity|]. split; [exact Hinv|]. split; [auto|]. intros k. destruct (Z.eqb_spec k id) as [->|]; [now rewrite Hro|reflexivity].
Qed.

(** A counter that is not there yet. *)
Lemma add_new_spec s pid b l ul now id : daily_inv s pid b l ul -> 0 <= b < 2 ^ 60 -> row_at_number s id = None ->
  exists s' a l', daily_add malloc s now pid id = Ret (s', a) /\ daily_inv s' pid (b + 1) l' ul /\
    if a =? 0 then ~ inserts_ok daily_key fst (W := W) /\ forall k, row_at_number s' k = row_at_number s k
    else a ∈ l' /\ (exists v, st_heap (dl_store s') !! a = Some v /\ dt_row v = mk_daily pid id now 0 0) /\
         forall k, row_at_number s' k = if k =? id then Some (mk_daily pid id now 0 0) else row_at_number s k.
Proof.
  intros Hinv Hb Hnone. pose proof Hinv as [Hok Hps [Hl Hsz]]. pose proof (ps_set _ _ _ _ _ _ _ Hps) as Hso. unfold daily_add, row_at_number in *.
  destruct (set_get dd_id (dl_store s) (dl_set s) l id Hso) as [(a & v & _ & _ & _ & _ & _ & _ & Hro)|(-> & _ & _)]; [congruence|]. cbn [mbind outcome_bind Z.eqb negb].
  destruct (malloc_ok (st_heap (dl_store s))) as (_ & Hz & _). apply Z.eqb_neq in Hz as Hz'. rewrite Hz'.
  destruct (ps_insert daily_key fst dd_id void malloc malloc_ok daily_number_key daily_number (dl_store s) (dl_set s) l ul pid (mk_daily pid id now 0 0) Hps Hok eq_refl Hnone ltac:(lia))
    as (st & ret & -> & Hins & Hres). cbn [mbind outcome_bind]. destruct (Z.eqb_spec ret 0) as [E|E]; cbn [negb].
  - destruct Hres as (h & q & m & -> & Hpm & Hok' & Hps' & Hv & Hrows & Hsize). cbn [dd_id] in Hpm. rewrite Hpm. cbn [mbind outcome_bind].
    eexists _, _, _. split; [reflexivity|]. rewrite Hz'. split; [|split; [apply elem_of_app; right; left|split; [exact Hv|exact Hrows]]].
    constructor; cbn [dl_store dl_set]; [exact Hok'|exact Hps'|]. cbn [st_db with_heap]. rewrite Hsize. autorewrite with cserver. lia.
  - destruct Hres as (Hok' & Hps' & Hrows & Hsize). eexists _, 0, l. split; [reflexivity|]. split; [|split; [now intros Hi; apply E, Hins|exact Hrows]].
    constructor; cbn [dl_store dl_set with_store]; [exact Hok'|exact Hps'|]. cbn [st_db]. rewrite Hsize. lia.
Qed.

(** ** The counters as a map *)

(** Number to value and time of the last change. *)
#[local] Abbreviation days := (gmap Z (Z * Z)).
Definition days_are (s : state) (D : days) : Prop := forall k, D !! k = (fun r => (dd_value r, dd_update_time r)) <$> row_at_number s k.

Definition day_value (D : days) (id : Z) : Z := match D !! id with Some (v, _) => v | None => 0 end.
(** Reading at [now]: a value from an earlier day is zero from now on. *)
Definition day_read (D : days) (now id : Z) : days :=
  match D !! id with Some (_, tm) => if decide (another_day t id now tm) then <[id := (0, now)]> D else D | None => D end.
Definition day_make (D : days) (now id : Z) : days := match D !! id with Some _ => D | None => <[id := (0, now)]> D end.
(** The time online is counted when some has passed, and five minutes unless it is forced. *)
Definition day_online (D : days) (now : Z) (force : bool) (check : CheckData) : days :=
  let D := day_make (day_read D now DAILY_ITEM_ONLINE) now DAILY_ITEM_ONLINE in
  let elapsed := now - counted_from now check in
  if decide (0 < elapsed /\ (force = true \/ 300 <= elapsed)) then
    let x := more_online t (day_value D DAILY_ITEM_ONLINE) now elapsed in
    if x =? day_value D DAILY_ITEM_ONLINE then D else <[DAILY_ITEM_ONLINE := (x, now)]> D
  else D.

Lemma days_value s D id : days_are s D -> day_value D id = match row_at_number s id with Some r => dd_value r | None => 0 end.
Proof. intros HD. unfold day_value. rewrite HD. destruct (row_at_number s id); reflexivity. Qed.

Lemma days_write (s s' : state) D id now x : days_are s D -> (exists r, forall k, row_at_number s' k = if k =? id then Some (rewritten now x r) else row_at_number s k) ->
  days_are s' (<[id := (x, now)]> D).
Proof.
  intros HD (r & Hr) k. rewrite Hr. destruct (Z.eqb_spec k id) as [->|Hne]; [now rewrite lookup_insert_eq|]. rewrite lookup_insert_ne by congruence. apply HD.
Qed.

Lemma days_read (s s' : state) D now id : days_are s D -> (forall k, row_at_number s' k = if k =? id then fresh id now <$> row_at_number s k else row_at_number s k) ->
  days_are s' (day_read D now id).
Proof.
  intros HD Hr k. unfold day_read. rewrite (HD id). rewrite Hr. destruct (row_at_number s id) as [r|] eqn:E; cbn.
  - unfold fresh. rewrite <- outdated_if. destruct (outdated t id now (dd_update_time r)) eqn:Eo.
    + destruct (Z.eqb_spec k id) as [->|Hne]; [rewrite lookup_insert_eq, E; cbn; now rewrite Eo|rewrite lookup_insert_ne by congruence; apply HD].
    + rewrite HD. destruct (Z.eqb_spec k id) as [->|Hne]; [rewrite E; cbn; now rewrite Eo|reflexivity].
  - rewrite HD. destruct (Z.eqb_spec k id) as [->|Hne]; [now rewrite E|reflexivity].
Qed.

(** Reading, and making the counter when it is not there. *)
Lemma obtain_spec s pid b l ul D now id : daily_inv s pid b l ul -> days_are s D -> 0 <= b < 2 ^ 60 -> inserts_ok daily_key fst (W := W) ->
  exists s' a v l' ul', daily_obtain malloc t s now pid id = Ret (s', a) /\
    daily_inv s' pid (b + 1) l' ul' /\ days_are s' (day_make (day_read D now id) now id) /\ a ∈ l' /\ st_heap (dl_store s') !! a = Some v /\ dd_id (dt_row v) = id /\
    day_value (day_make (day_read D now id) now id) id = dd_value (dt_row v).
Proof.
  intros Hinv HD Hb Hins. unfold daily_obtain. destruct (get_spec s pid b l ul now id Hinv) as (s1 & a & ul1 & -> & Hinv1 & Hcase & Hrows). cbn [mbind outcome_bind].
  pose proof (days_read s s1 D now id HD Hrows) as HD1. unfold day_make. rewrite (HD1 id), Hrows, Z.eqb_refl. destruct (row_at_number s id) as [r|] eqn:E; cbn [fmap option_fmap option_map].
  - destruct Hcase as (Haz & Hal & (v & Hv & Hvr) & Hid). apply Z.eqb_neq in Haz as ->. exists s1, a, v, l, ul1. split; [reflexivity|].
    split; [destruct Hinv1 as [? ? ?]; constructor; [assumption|assumption|lia]|]. split; [exact HD1|]. split; [exact Hal|]. split; [exact Hv|]. split.
    + rewrite Hvr. unfold fresh. destruct (outdated _ _ _ _); exact Hid.
    + rewrite (days_value s1 _ id HD1), Hrows, Z.eqb_refl, E, Hvr. reflexivity.
  - destruct Hcase as [-> ->]. cbn [Z.eqb]. destruct (add_new_spec s pid b l ul1 now id Hinv1 Hb E) as (s2 & a & l2 & -> & Hinv2 & Hres).
    destruct (Z.eqb_spec a 0) as [Ea|Ea]; [destruct Hres; contradiction|]. destruct Hres as (Hal & (v & Hv & Hvr) & Hrows2). exists s2, a, v, l2, ul1. split; [reflexivity|].
    split; [exact Hinv2|]. assert (HD2 : days_are s2 (<[id := (0, now)]> (day_read D now id))).
    { apply (days_write s s2 (day_read D now id) id now 0 HD1). exists (mk_daily pid id now 0 0). exact Hrows2. }
    split; [exact HD2|]. split; [exact Hal|]. split; [exact Hv|]. split; [now rewrite Hvr|]. unfold day_value. now rewrite lookup_insert_eq, Hvr.
Qed.

Lemma put_spec s pid b l ul D now id a x v : daily_inv s pid b l ul -> days_are s D -> a ∈ l -> st_heap (dl_store s) !! a = Some v -> dd_id (dt_row v) = id ->
  exists s' ul', write_value s now a x = Ret s' /\ daily_inv s' pid b l ul' /\ days_are s' (<[id := (x, now)]> D).
Proof.
  intros Hinv HD Hal Hv <-. destruct (daily_write_spec s pid b l ul now a x v Hinv Hal Hv) as (s' & ul' & v' & -> & Hinv' & _ & _ & Hrows). exists s', ul'.
  split; [reflexivity|]. split; [exact Hinv'|]. apply (days_write s s' D _ now x HD). eauto.
Qed.

Lemma make_write (D : days) now id p : <[id := p]> (day_make (day_read D now id) now id) = <[id := p]> D.
Proof.
  unfold day_make, day_read. destruct (D !! id) as [[v tm]|] eqn:E.
  - destruct (decide _); [rewrite lookup_insert_eq, insert_insert_eq|rewrite E]; reflexivity.
  - rewrite E. apply insert_insert_eq.
Qed.

Lemma remove_counter_spec s pid b l ul D id : daily_inv s pid b l ul -> 0 <= b < 2 ^ 60 -> days_are s D ->
  exists s' r l' ul', daily_remove s id = Ret (s', r) /\ daily_inv s' pid b l' ul' /\ (r = 0 /\ days_are s' (delete id D) \/ r = -1 /\ days_are s' D).
Proof.
  intros Hinv Hb HD. pose proof Hinv as [Hok Hps [Hl Hsz]]. pose proof (ps_set _ _ _ _ _ _ _ Hps) as Hso. unfold daily_remove.
  destruct (set_get dd_id (dl_store s) (dl_set s) l id Hso) as [(a & v & -> & Haz & Hal & Hv & _ & Hk & Hro)|(-> & Hro & _)]; cbn [mbind outcome_bind Z.eqb].
  - apply Z.eqb_neq in Haz as ->.
    destruct (ps_remove daily_key fst dd_id void daily_number (dl_store s) (dl_set s) l ul pid a v Hps Hok Hal ltac:(lia) Hv) as (s1 & ret & ul1 & -> & Hok1 & Hres). cbn [mbind outcome_bind].
    destruct (Z.eqb_spec ret 0) as [E|E]; cbn [negb].
    + destruct Hres as (h & q & m & l' & v' & Hd & Hpm & Hok2 & Hps2 & Hperm & Hv' & Hr' & Hrows & Hro2 & (v2 & Hv2 & Hdead & Hr2)). rewrite Hv'. cbn [deref mbind outcome_bind]. rewrite Hr', Hpm.
      cbn [mbind outcome_bind]. rewrite Hd. cbn [mbind outcome_bind]. rewrite Hv2. cbn [deref mbind outcome_bind].
      destruct (ps_dead daily_key fst dd_id void (with_heap s1 h) (mk_set m q) l' ul1 pid a v2 (mk_daily (dd_pid (dt_row v2)) (dd_id (dt_row v2)) 0 0 (dd_total (dt_row v2))) Hps2 Hok2 Hv2 Hdead eq_refl) as (Hok3 & Hps3 & Hro3).
      eexists _, 0, l', ul1. split; [reflexivity|]. split.
      * constructor; cbn [dl_store dl_set]; [exact Hok3|exact Hps3|]. cbn [st_db with_heap]. rewrite Hrows.
        apply Permutation_length in Hperm. rewrite map_size_delete. unfold zlen in *. cbn [length] in Hperm. destruct (rows (st_db (dl_store s)) !! _); unfold Datatypes.id; lia.
      * left. split; [reflexivity|]. intros k. pose proof (eq_trans (Hro3 k) (Hro2 k)) as E'. rewrite Hk in E'.
        refine (eq_trans _ (eq_sym (f_equal (fun o => (fun r => (dd_value r, dd_update_time r)) <$> o) E'))). clear E'.
        destruct (Z.eqb_spec k id) as [->|Hne]; [now rewrite lookup_delete_eq|rewrite lookup_delete_ne by congruence; apply HD].
    + destruct Hres as (Hps1 & Hro1 & Hrows). eexists _, (-1), l, ul1. split; [reflexivity|]. split.
      * constructor; cbn [dl_store dl_set with_store]; [exact Hok1|exact Hps1|]. rewrite Hrows. lia.
      * right. split; [reflexivity|]. intros k. unfold row_at_number. cbn [dl_store dl_set with_store]. rewrite Hro1. apply HD.
  - exists s, 0, l, ul. split; [reflexivity|]. split; [exact Hinv|]. left. split; [reflexivity|]. intros k. destruct (decide (k = id)) as [->|Hne].
    + rewrite lookup_delete_eq. unfold row_at_number. now rewrite Hro.
    + rewrite lookup_delete_ne by congruence. apply HD.
Qed.

Lemma online_spec s pid b l ul D now force check : daily_inv s pid b l ul -> days_are s D -> 0 <= b < 2 ^ 60 -> inserts_ok daily_key fst (W := W) ->
  exists s' c l' ul', daily_update_online_time malloc t s now pid force check = Ret (s', c) /\ daily_inv s' pid (b + 1) l' ul' /\ days_are s' (day_online D now force check).
Proof.
  intros Hinv HD Hb Hins. destruct (obtain_spec s pid b l ul D now DAILY_ITEM_ONLINE Hinv HD Hb Hins) as (s1 & a & v & l1 & ul1 & He & Hinv1 & HD1 & Hal & Hv & Hid & Hval).
  unfold daily_update_online_time, day_online. rewrite He. cbn [mbind outcome_bind]. rewrite Hval.
  rewrite <- renew_counted_from. set (c := renew_check now check). rewrite <- online_value_more.
  destruct (decide _) as [[Hd1 Hd2]|Hd].
  2:{ destruct (Z.ltb_spec (daily_online_record_time c) now); [|eauto 10].
      destruct force; [lia|]. cbn [orb]. ztests; eauto 10. }
  assert (force || (daily_online_record_time c + 60 * 5 <=? now) = true) as ->.
  { destruct force; [reflexivity|]. cbn [orb]. destruct Hd2; [discriminate|]. apply Z.leb_le. lia. }
  destruct (Z.ltb_spec (daily_online_record_time c) now) as [_|]; [|lia].
  rewrite Hv. cbn [deref mbind outcome_bind]. unfold daily_set. rewrite Hv. cbn [deref mbind outcome_bind].
  destruct (online_value t (dd_value (dt_row v)) now c =? dd_value (dt_row v)); [cbn; eauto 10|].
  destruct (put_spec s1 pid (b + 1) l1 ul1 _ now DAILY_ITEM_ONLINE a (online_value t (dd_value (dt_row v)) now c) v Hinv1 HD1 Hal Hv Hid) as (s2 & ul2 & -> & Hinv2 & HD2). cbn [mbind outcome_bind]. eauto 10.
Qed.

(** ** Runs *)

(** The calls on the counters of a player with their times, a flush of the table, leaving and coming back. *)
Inductive daily_op :=
| DGet (now id : Z) | DSet (now id value : Z) | DAdd (now id value : Z) | DRemove (id : Z)
| DOnline (now : Z) (force : bool) (check : CheckData) | DFlush (now : Z) | DRelogin (now : Z) (check : CheckData).

Definition daily_step (s : state) (pid : Z) (op : daily_op) : outcome (option state * Z) :=
  match op with
  | DGet now id => '(s, v) ← daily_get_value t s now id; Ret (Some s, v)
  | DSet now id v => s ← daily_set_value malloc t s now pid id v; Ret (Some s, 0)
  | DAdd now id v => s ← daily_add_value malloc t s now pid id v; Ret (Some s, 0)
  | DRemove id => '(s, r) ← daily_remove s id; Ret (Some s, r)
  | DOnline now force check => '(s, _) ← daily_update_online_time malloc t s now pid force check; Ret (Some s, 0)
  | DFlush now => st ← DATA_flush void (dl_store s) now; Ret (Some (with_store s st), 0)
  | DRelogin now check =>
    '(st, _) ← daily_release malloc t s now pid check;
    st ← DATA_flush void st now;
    '(st, set) ← daily_load map_new malloc st pid;
    Ret (match set with Some set => (Some (mk_ds st set), 0) | None => (None, -1) end)
  end.

Fixpoint daily_run (s : state) (pid : Z) (ops : list daily_op) : outcome (list Z) :=
  match ops with
  | [] => Ret []
  | op :: ops' =>
    '(s, r) ← daily_step s pid op;
    match s with Some s => rs ← daily_run s pid ops'; Ret (r :: rs) | None => Ret [r] end
  end.

(** The same on a map.  Removing can fail, and so can loading, which ends the run. *)
Fixpoint days_answer (D : days) (ops : list daily_op) (rs : list Z) : Prop :=
  match ops, rs with
  | [], [] => True
  | DGet now id :: ops', r :: rs' => r = i32 (day_value (day_read D now id) id) /\ days_answer (day_read D now id) ops' rs'
  | DSet now id v :: ops', r :: rs' => r = 0 /\ days_answer (<[id := (u32 v, now)]> D) ops' rs'
  | DAdd now id v :: ops', r :: rs' => r = 0 /\ days_answer (<[id := (u32 (day_value (day_read D now id) id + v), now)]> D) ops' rs'
  | DRemove id :: ops', r :: rs' => (r = 0 /\ days_answer (delete id D) ops' rs') \/ (r = -1 /\ days_answer D ops' rs')
  | DOnline now force check :: ops', r :: rs' => r = 0 /\ days_answer (day_online D now force check) ops' rs'
  | DFlush _ :: ops', r :: rs' => r = 0 /\ days_answer D ops' rs'
  | DRelogin now check :: ops', r :: rs' => (r = 0 /\ days_answer (day_online D now true check) ops' rs') \/ (r = -1 /\ rs' = [])
  | _, _ => False
  end.

Lemma make_value (D : days) now id : day_value (day_make (day_read D now id) now id) id = day_value (day_read D now id) id.
Proof. unfold day_make, day_value. destruct (day_read D now id !! id) eqn:E; [now rewrite E|now rewrite lookup_insert_eq]. Qed.

Lemma daily_relogin_spec s pid b l ul D now check : daily_inv s pid b l ul -> days_are s D -> 0 <= b < 2 ^ 60 -> inserts_ok daily_key fst (W := W) -> saves_ok (V := DailyData) (W := W) ->
  exists os r, daily_step s pid (DRelogin now check) = Ret (os, r) /\
    match os with
    | None => r = -1
    | Some s' => r = 0 /\ exists l' ul', daily_inv s' pid (b + 1) l' ul' /\ days_are s' (day_online D now true check)
    end.
Proof.
  intros Hinv HD Hb Hins Hsv. cbn [daily_step]. unfold daily_release.
  destruct (online_spec s pid b l ul D now true check Hinv HD Hb Hins) as (s1 & c & l1 & ul1 & -> & [Hok Hps [Hl Hsz]] & HD1). cbn [mbind outcome_bind].
  destruct (relogin_spec daily_key fst dd_id (fun _ => true) void malloc malloc_ok daily_number_key map_new (dl_store s1) (dl_set s1) l1 ul1 pid now map_new_ok map_new_empty (fun _ _ _ => eq_refl) Hps Hok Hsv ltac:(lia))
    as (s2 & s3 & s4 & ul4 & res & -> & He3 & He4 & Hok4 & Hsz4 & Hres). cbn [mbind outcome_bind]. rewrite He3. cbn [mbind outcome_bind]. unfold daily_load. rewrite He4. cbn [mbind outcome_bind].
  destruct res as [set'|]; [|eexists None, (-1); split; reflexivity]. destruct (Hres set' eq_refl) as [(l' & Hps' & Hll) Hrows]. eexists (Some (mk_ds s4 set')), 0.
  split; [reflexivity|]. split; [reflexivity|]. exists l', ul4. split.
  - constructor; cbn [dl_store dl_set]; [exact Hok4|exact Hps'|]. unfold zlen in *. rewrite Hsz4. lia.
  - intros k. rewrite HD1. unfold row_at_number. cbn [dl_store dl_set]. now rewrite Hrows.
Qed.

Lemma daily_flush_spec s pid b l ul D now : daily_inv s pid b l ul -> days_are s D -> saves_ok (V := DailyData) (W := W) ->
  exists st ul', DATA_flush void (dl_store s) now = Ret st /\ daily_inv (with_store s st) pid b l ul' /\ days_are (with_store s st) D.
Proof.
  intros [Hok Hps [Hl Hsz]] HD Hsv. destruct (ps_flush daily_key fst dd_id void (dl_store s) (dl_set s) l ul pid now Hps Hok) as (st & ul' & He & Hok' & Hps' & Hrows & Hsize).
  exists st, ul'. split; [exact He|]. split; [constructor; cbn [dl_store dl_set with_store]; [exact Hok'|exact (Hps' Hsv)|rewrite (Hsize Hsv); lia]|].
  intros k. rewrite HD. unfold row_at_number. cbn [dl_store dl_set with_store]. now rewrite Hrows.
Qed.

Lemma daily_run_spec pid ops : forall s D b l ul, daily_inv s pid b l ul -> days_are s D -> inserts_ok daily_key fst (W := W) -> saves_ok (V := DailyData) (W := W) ->
  0 <= b -> b + zlen ops < 2 ^ 60 -> exists rs, daily_run s pid ops = Ret rs /\ days_answer D ops rs.
Proof.
  induction ops as [|op ops IH]; intros s D b l ul Hinv HD Hins Hsv Hb Hlen; [now exists []|]. rewrite zlen_cons in Hlen. pose proof (zlen_nonneg ops).
  assert (Hnext : forall s' D' r l' ul', daily_inv s' pid (b + 1) l' ul' -> days_are s' D' -> daily_step s pid op = Ret (Some s', r) ->
    exists rs, daily_run s pid (op :: ops) = Ret (r :: rs) /\ days_answer D' ops rs).
  { intros s' D' r l' ul' Hinv' HD' He. destruct (IH s' D' (b + 1) l' ul' Hinv' HD' Hins Hsv ltac:(lia) ltac:(lia)) as (rs & Hrun & Ha). exists rs. split; [|exact Ha].
    cbn [daily_run]. rewrite He. cbn [mbind outcome_bind]. now rewrite Hrun. }
  assert (Hmore : forall s' l' ul', daily_inv s' pid b l' ul' -> daily_inv s' pid (b + 1) l' ul') by (intros s' l' ul' [? ? ?]; constructor; [assumption|assumption|lia]).
  destruct op as [now id|now id v|now id v|id|now force check|now|now check].
  - destruct (get_spec s pid b l ul now id Hinv) as (s1 & a & ul1 & He & Hinv1 & Hcase & Hrows). pose proof (days_read s s1 D now id HD Hrows) as HD1.
    destruct (Hnext s1 _ (i32 (day_value (day_read D now id) id)) l ul1 (Hmore _ _ _ Hinv1) HD1) as (rs & Hrun & Ha); [|eexists; split; [exact Hrun|]; split; [reflexivity|exact Ha]]. cbn [daily_step]. unfold daily_get_value. rewrite He. cbn [mbind outcome_bind].
    rewrite (days_value s1 _ id HD1), Hrows, Z.eqb_refl. destruct (row_at_number s id) as [r|]; cbn [fmap option_fmap option_map].
    + destruct Hcase as (Haz & _ & (v & Hv & Hvr) & _). apply Z.eqb_neq in Haz as ->. rewrite Hv. cbn [deref mbind outcome_bind]. now rewrite Hvr.
    + destruct Hcase as [-> _]. reflexivity.
  - destruct (obtain_spec s pid b l ul D now id Hinv HD ltac:(lia) Hins) as (s1 & a & x & l1 & ul1 & He & Hinv1 & HD1 & Hal & Hx & Hid & _).
    destruct (put_spec s1 pid (b + 1) l1 ul1 _ now id a (u32 v) x Hinv1 HD1 Hal Hx Hid) as (s2 & ul2 & He2 & Hinv2 & HD2). rewrite make_write in HD2.
    destruct (Hnext s2 _ 0 l1 ul2 Hinv2 HD2) as (rs & Hrun & Ha); [|eexists; split; [exact Hrun|]; split; [reflexivity|exact Ha]]. cbn [daily_step]. unfold daily_set_value. rewrite He. cbn [mbind outcome_bind]. now rewrite He2.
  - destruct (obtain_spec s pid b l ul D now id Hinv HD ltac:(lia) Hins) as (s1 & a & x & l1 & ul1 & He & Hinv1 & HD1 & Hal & Hx & Hid & Hval). rewrite make_value in Hval.
    destruct (put_spec s1 pid (b + 1) l1 ul1 _ now id a (u32 (dd_value (dt_row x) + v)) x Hinv1 HD1 Hal Hx Hid) as (s2 & ul2 & He2 & Hinv2 & HD2). rewrite make_write, <- Hval in HD2.
    destruct (Hnext s2 _ 0 l1 ul2 Hinv2 HD2) as (rs & Hrun & Ha); [|eexists; split; [exact Hrun|]; split; [reflexivity|exact Ha]]. cbn [daily_step]. unfold daily_add_value. rewrite He. cbn [mbind outcome_bind]. rewrite Hx. cbn [deref mbind outcome_bind]. now rewrite He2.
  - destruct (remove_counter_spec s pid b l ul D id Hinv ltac:(lia) HD) as (s1 & r & l1 & ul1 & He & Hinv1 & Hres).
    assert (Hstep : daily_step s pid (DRemove id) = Ret (Some s1, r)) by (cbn [daily_step]; now rewrite He).
    destruct Hres as [[-> HD1]|[-> HD1]]; destruct (Hnext s1 _ _ l1 ul1 (Hmore _ _ _ Hinv1) HD1 Hstep) as (rs & Hrun & Ha); eexists; (split; [exact Hrun|]); cbn [days_answer]; auto.
  - destruct (online_spec s pid b l ul D now force check Hinv HD ltac:(lia) Hins) as (s1 & c & l1 & ul1 & He & Hinv1 & HD1).
    destruct (Hnext s1 _ 0 l1 ul1 Hinv1 HD1) as (rs & Hrun & Ha); [|eexists; split; [exact Hrun|]; split; [reflexivity|exact Ha]]. cbn [daily_step]. now rewrite He.
  - destruct (daily_flush_spec s pid b l ul D now Hinv HD Hsv) as (st & ul1 & He & Hinv1 & HD1).
    destruct (Hnext _ _ 0 l ul1 (Hmore _ _ _ Hinv1) HD1) as (rs & Hrun & Ha); [|eexists; split; [exact Hrun|]; split; [reflexivity|exact Ha]]. cbn [daily_step]. now rewrite He.
  - destruct (daily_relogin_spec s pid b l ul D now check Hinv HD ltac:(lia) Hins Hsv) as (os & r & He & Hres). destruct os as [s'|].
    + destruct Hres as (-> & l' & ul' & Hinv' & HD'). destruct (Hnext s' _ 0 l' ul' Hinv' HD' He) as (rs & Hrun & Ha). eexists. split; [exact Hrun|]. cbn [days_answer]. auto.
    + subst r. exists [-1]. split; [|now right]. cbn [daily_run]. rewrite He. reflexivity.
Qed.

(** When the row of a new counter cannot be made, [daily_set_value] and [daily_add_value] write through a null pointer. *)
Lemma failed_add_crashes s pid b l ul now id v : daily_inv s pid b l ul -> 0 <= b < 2 ^ 60 -> row_at_number s id = None ->
  (forall w r, snd (db_insert (V := DailyData) (W := W) w r) <> 0) -> daily_set_value malloc t s now pid id v = Undef /\ daily_add_value malloc t s now pid id v = Undef.
Proof.
  intros Hinv Hb Hnone Hfail. unfold daily_set_value, daily_add_value, daily_obtain. destruct (get_spec s pid b l ul now id Hinv) as (s1 & a & ul1 & -> & Hinv1 & Hcase & _). cbn [mbind outcome_bind].
  rewrite Hnone in Hcase. destruct Hcase as [-> ->]. cbn [Z.eqb].
  destruct (add_new_spec s pid b l ul1 now id Hinv1 Hb Hnone) as (s2 & a & l2 & He & Hinv2 & Hres). rewrite He. cbn [mbind outcome_bind].
  assert (Ha : a = 0).
  { unfold daily_add in He. unfold row_at_number in Hnone. destruct (set_get dd_id (dl_store s) (dl_set s) l id (ps_set _ _ _ _ _ _ _ (di_set _ _ _ _ _ Hinv))) as [(? & ? & _ & _ & _ & _ & _ & _ & E)|(Hg & _ & _)]; [congruence|].
    rewrite Hg in He. cbn [mbind outcome_bind Z.eqb negb] in He. destruct (malloc_ok (st_heap (dl_store s))) as (_ & Hz & _). apply Z.eqb_neq in Hz as Hz'. rewrite Hz' in He.
    unfold DATA_new in He. cbn [st_heap with_datum st_db] in He. rewrite lookup_insert_eq in He. cbn [deref mbind outcome_bind dt_row new_datum] in He.
    specialize (Hfail (st_db (dl_store s)) (mk_daily pid id now 0 0)). destruct (db_insert (st_db (dl_store s)) _) as [w ret]. cbn [snd mbind outcome_bind] in *.
    apply Z.eqb_neq in Hfail. rewrite Hfail in He. cbn [negb] in He. injection He as _ <-. reflexivity. }
  subst a. assert (Hnull : st_heap (dl_store s2) !! 0 = None) by (exact (proj2 (proj2 (dk_void _ _ _ _ _ _ (dk_body _ _ _ _ _ (di_data _ _ _ _ _ Hinv2)))))).
  unfold write_value, DATA_update. rewrite Hnull. split; reflexivity.
Qed.
End Theorems.

(** C12: Counters start again every day.  For a player without rows, whatever sequence of reading, setting, adding,
    removing, counting the time online, flushing, and leaving and coming back follows, every call returns, and
    the answers are those of a map from numbers to values with the time of their last change, in which a value
    reads as zero once a day has begun since its change: at five in the morning, for the time online at midnight
    ([another_day]; also when the clock was set back over such a time).  The time online grows by the seconds
    since it was last counted, if at most as many have passed of today, and is what has passed of today
    otherwise, where the last second of a day counts as none ([of_today]).  (Statements that
    insert and update succeed; a player whose rows cannot be read makes no more calls.) *)
Theorem daily_counters_by_day {W M : Type} `{Database DailyData W} `{!DatabaseLaws DailyData (Z * Z) W daily_key fst} `{PutLaws M} `{!RemoveLaws M}
    (map_new : M) (void : Z) (malloc : gmap Z (datum DailyData) -> Z) (t : timeline) (w : W) pid ops :
  pt_ok map_new -> pt_abs map_new = ∅ -> (forall h, h !! malloc h = None /\ malloc h <> 0 /\ malloc h <> void) -> void <> 0 ->
  (forall i, db_rows (key := daily_key) (owner := fst) w !! (pid, i) = None) -> inserts_ok daily_key fst (W := W) -> saves_ok (V := DailyData) (W := W) ->
  Z.of_nat (size (db_rows (key := daily_key) (owner := fst) w)) + zlen ops < 2 ^ 60 ->
  exists rs, daily_run map_new void malloc t (mk_ds (empty_store void w) (daily_new map_new)) pid ops = Ret rs /\ days_answer t ∅ ops rs.
Proof.
  intros Hm Hm0 Hmal Hv Hw Hins Hsv Hlen. apply (daily_run_spec map_new Hm Hm0 void malloc Hmal t pid ops _ ∅ (Z.of_nat (size (db_rows w))) [] []); [| |exact Hins|exact Hsv|lia|exact Hlen].
  - constructor; cbn [dl_store dl_set].
    + exact (empty_ok daily_key fst void w Hv).
    + apply player_set_new; [exact Hm|exact Hm0|reflexivity|]. intros [p i] Ep. cbn in Ep. subst p. apply Hw.
    + unfold zlen. cbn. lia.
  - intros k. unfold row_at_number, row_of. cbn. now rewrite Hm0, !lookup_empty.
Qed.

(** A run with the structures of the program and the table in memory. *)
#[local] Instance sample_daily_table : Database DailyData (gmap (Z * Z) DailyData) := memory_database daily_key fst.
#[local] Instance sample_daily_laws : DatabaseLaws DailyData (Z * Z) (gmap (Z * Z) DailyData) daily_key fst := memory_laws daily_key fst.
Definition sample_monday : timeline := mk_timeline (time_base + DAY_SEC) 0.
Definition at_hour (h : Z) : Z := time_base + DAY_SEC + h * 3600.
Definition sample_days : list daily_op :=
  [DAdd (at_hour 6) 9 3; DAdd (at_hour 20) 9 2; DRelogin (at_hour 21) (mk_check 0 0); DGet (at_hour 28) 9; DGet (at_hour 29) 9; DAdd (at_hour 29) 9 1; DGet (at_hour 30) 9].
Lemma daily_counters_by_day_witness :
  daily_run _agMap_new VOID next_address sample_monday (mk_ds (empty_store VOID ∅) (daily_new _agMap_new)) 7 sample_days = Ret [0; 0; 0; 5; 0; 0; 1] /\
  exists rs, daily_run _agMap_new VOID next_address sample_monday (mk_ds (empty_store VOID ∅) (daily_new (_agMap_new : agmap Z))) 7 sample_days = Ret rs /\ days_answer sample_monday ∅ sample_days rs.
Proof.
  split; [vm_compute; reflexivity|]. apply (daily_counters_by_day _agMap_new VOID next_address sample_monday ∅ 7 sample_days).
  - split; apply agMap_new_ok.
  - apply agMap_new_ok.
  - apply next_address_ok.
  - discriminate.
  - intros i. reflexivity.
  - apply memory_inserts_ok.
  - apply memory_saves_ok.
  - vm_compute. reflexivity.
Defined.

(** [daily_next] starts a record again without marking its columns: when the counter is then written in the same
    second, the row keeps the time of the earlier day, and the value is gone once the player comes back. *)
Definition lost_value : outcome Z :=
  let w : gmap (Z * Z) DailyData := {[(7, 9) := mk_daily 7 9 (at_hour 6) 8 0]} in
  '(st, set) ← daily_load (_agMap_new : agmap Z) next_address (empty_store VOID w) 7;
  set ← deref set;
  '(s, _) ← daily_next sample_monday (mk_ds st set) (at_hour 30) 0;
  s ← daily_set_value next_address sample_monday s (at_hour 30) 7 9 4;
  '(st, _) ← daily_release next_address sample_monday s (at_hour 30) 7 (mk_check 0 0);
  st ← DATA_flush VOID st (at_hour 31);
  '(st, set) ← daily_load _agMap_new next_address st 7;
  set ← deref set;
  '(_, v) ← daily_get_value sample_monday (mk_ds st set) (at_hour 31) 9;
  Ret v.
Example daily_next_loses_value : lost_value = Ret 0.
Proof. vm_compute. reflexivity. Qed.

(** In the last second of a day no time of the day counts as passed: what was counted before is gone. *)
Example last_second_resets : online_value sample_monday 3000 (at_hour 24 - 1) (mk_check (at_hour 24 - 2) (at_hour 24 - 301)) = 0.
Proof. vm_compute. reflexivity. Qed.
Example second_before_counts : online_value sample_monday 3000 (at_hour 24 - 2) (mk_check (at_hour 24 - 2) (at_hour 24 - 302)) = 3300.
Proof. vm_compute. reflexivity. Qed.
