(* ===== verification/HeroMaps.v ===== *)
(** * A map of maps

    [modules/hero_item.c] finds a record by two numbers: a map from the hero's number leads to a map from the
    item's.  Together they are an index of the class [PutLaws] whose key has the item's number in its low 32
    bits, so that the records are a set of [DataSet]. *)
From S2P Require Import Prelude AgMap Dlist Data DataSet.

Definition two32 : Z := 2 ^ 32.
Definition number (uid id : Z) : Z := uid * two32 + id.

Lemma number_div uid id : 0 <= id < two32 -> number uid id / two32 = uid.
Proof. intros Hi. unfold number. rewrite Z.div_add_l by (unfold two32; lia). rewrite Z.div_small by exact Hi. lia. Qed.
Lemma number_mod uid id : 0 <= id < two32 -> number uid id mod two32 = id.
Proof. intros Hi. unfold number. rewrite Z.add_comm, Z.mod_add by (unfold two32; lia). now apply Z.mod_small. Qed.
Lemma number_split k : number (k / two32) (k mod two32) = k.
Proof. unfold number. rewrite Z.mul_comm. symmetry. apply Z.div_mod. unfold two32. lia. Qed.
Lemma low_range k : 0 <= k mod two32 < two32.
Proof. apply Z.mod_pos_bound. unfold two32. lia. Qed.

(** [set->uuid] and the maps it points to *)
Record hero_maps (M : Type) := mk_maps { hm_uuid : M; hm_maps : gmap Z M }.
Arguments mk_maps {M} _ _.
Arguments hm_uuid {M} _.
Arguments hm_maps {M} _.

Section Operations.
Context {M : Type} `{PtrMap M} (map_new : M) (malloc_map : gmap Z M -> Z).

Definition maps_new : hero_maps M := mk_maps map_new ∅.

(** The record of a hero and an item, or 0. *)
Definition maps_get (m : hero_maps M) (uuid id : Z) : outcome Z :=
  arr ← pm_get (hm_uuid m) uuid;
  if arr =? 0 then Ret 0 else i ← deref (hm_maps m !! arr); pm_get i id.

(** The map of a hero, made when it is not there. *)
Definition maps_make (m : hero_maps M) (uuid : Z) : outcome (hero_maps M * Z) :=
  arr ← pm_get (hm_uuid m) uuid;
  if arr =? 0 then
    let a := malloc_map (hm_maps m) in
    if a =? 0 then Undef
    else '(u, _) ← pm_set (hm_uuid m) uuid a; Ret (mk_maps u (<[a := map_new]> (hm_maps m)), a)
  else Ret (m, arr).

Definition maps_put (m : hero_maps M) (arr id item : Z) : outcome (hero_maps M * Z) :=
  i ← deref (hm_maps m !! arr);
  '(i, old) ← pm_set i id item;
  Ret (mk_maps (hm_uuid m) (<[arr := i]> (hm_maps m)), old).

Definition maps_index : PtrMap (hero_maps M) := {|
  pm_get m k := maps_get m (k / two32) (k mod two32);
  pm_set m k p := '(m, arr) ← maps_make m (k / two32); maps_put m arr (k mod two32) p |}.
End Operations.

Section Theory.
Context {M : Type} `{PtrMapLaws M} (map_new : M) (map_new_ok : pm_ok map_new) (map_new_empty : pm_abs map_new = ∅).
Context (malloc_map : gmap Z M -> Z) (malloc_map_ok : forall h, h !! malloc_map h = None /\ malloc_map h <> 0).

Definition look (m : hero_maps M) (k : Z) : option Z :=
  a ← pm_abs (hm_uuid m) !! (k / two32); i ← hm_maps m !! a; pm_abs i !! (k mod two32).

Record maps_ok (m : hero_maps M) : Prop := {
  mo_outer : pm_ok (hm_uuid m);
  mo_inner : forall u a, pm_abs (hm_uuid m) !! u = Some a ->
    a <> 0 /\ exists i, hm_maps m !! a = Some i /\ pm_ok i /\ (forall id, is_Some (pm_abs i !! id) -> 0 <= id < two32) /\ exists id, is_Some (pm_abs i !! id);
  mo_inj : forall u u' a, pm_abs (hm_uuid m) !! u = Some a -> pm_abs (hm_uuid m) !! u' = Some a -> u = u' }.

(** The records by their number. *)
Definition candidates (m : hero_maps M) : list Z :=
  concat (map (fun ua => match hm_maps m !! snd ua with Some i => map (fun kv => number (fst ua) (fst kv)) (map_to_list (pm_abs i)) | None => [] end) (map_to_list (pm_abs (hm_uuid m)))).
Definition maps_abs (m : hero_maps M) : gmap Z Z := list_to_map (omap (fun k => pair k <$> look m k) (candidates m)).

Lemma candidates_in m k x : look m k = Some x -> k ∈ candidates m.
Proof.
  unfold look. destruct (pm_abs (hm_uuid m) !! (k / two32)) as [a|] eqn:Ea; [|discriminate]. cbn. destruct (hm_maps m !! a) as [i|] eqn:Ei; [|discriminate]. cbn. intros Hx.
  unfold candidates. rewrite list_elem_of_In, in_concat. exists (map (fun kv => number (k / two32) (fst kv)) (map_to_list (pm_abs i))). split.
  - apply in_map_iff. exists (k / two32, a). cbn [fst snd]. rewrite Ei. split; [reflexivity|]. apply list_elem_of_In. now apply elem_of_map_to_list.
  - apply in_map_iff. exists (k mod two32, x). cbn [fst]. split; [apply number_split|]. apply list_elem_of_In. now apply elem_of_map_to_list.
Qed.

Lemma maps_abs_lookup m k : maps_abs m !! k = look m k.
Proof.
  unfold maps_abs. destruct (look m k) as [x|] eqn:E.
  - pose proof (candidates_in m k x E) as Hin. induction (candidates m) as [|c l IH]; [inversion Hin|]. cbn [omap list_omap].
    destruct (decide (c = k)) as [->|Hne]; [rewrite E; cbn; apply lookup_insert_eq|]. apply elem_of_cons in Hin as [->|Hin]; [contradiction|].
    destruct (look m c); cbn; [rewrite lookup_insert_ne by congruence|]; auto.
  - induction (candidates m) as [|c l IH]; [reflexivity|]. cbn [omap list_omap]. destruct (look m c) as [y|] eqn:Ec; cbn; [|exact IH].
    rewrite lookup_insert_ne; [exact IH|]. intros ->. congruence.
Qed.

Lemma size_through {V} (g : gmap Z V) (h : gmap Z Z) (f : Z -> Z) : (forall k, is_Some (g !! k) -> exists c, is_Some (h !! c) /\ f c = k) -> (size g <= size h)%nat.
Proof.
  intros Hg. enough (size g <= length (map (fun kv => f (fst kv)) (map_to_list h)))%nat by (rewrite length_map, length_map_to_list in *; lia). apply size_keys. intros k v Hk. destruct (Hg k (mk_is_Some _ _ Hk)) as (c & [x Hx] & <-).
  apply list_elem_of_fmap. exists (c, x). split; [reflexivity|]. now apply elem_of_map_to_list.
Qed.

Lemma look_number m u a i id : 0 <= id < two32 -> pm_abs (hm_uuid m) !! u = Some a -> hm_maps m !! a = Some i -> maps_abs m !! number u id = pm_abs i !! id.
Proof. intros Hid Ha Hi. rewrite maps_abs_lookup. unfold look. rewrite number_div, number_mod, Ha by exact Hid. cbn. now rewrite Hi. Qed.

Lemma outer_size m : maps_ok m -> (size (pm_abs (hm_uuid m)) <= size (maps_abs m))%nat.
Proof.
  intros [_ Hi _]. apply (size_through _ _ (fun k => k / two32)). intros u [a Ha]. destruct (Hi u a Ha) as (_ & i & Hia & _ & Hr & id & Hx). pose proof (Hr id Hx) as Hid.
  exists (number u id). rewrite number_div, (look_number m u a i id Hid Ha Hia) by exact Hid. auto.
Qed.

Lemma inner_size m u a i : maps_ok m -> pm_abs (hm_uuid m) !! u = Some a -> hm_maps m !! a = Some i -> (size (pm_abs i) <= size (maps_abs m))%nat.
Proof.
  intros [_ Hin _] Ha Hi. destruct (Hin u a Ha) as (_ & i' & Hi' & _ & Hr & _). assert (i' = i) as -> by congruence.
  apply (size_through _ _ (fun k => k mod two32)). intros id Hid. pose proof (Hr id Hid). exists (number u id). rewrite number_mod, (look_number m u a i id) by assumption. auto.
Qed.

Lemma maps_get_spec m k : maps_ok m -> maps_get m (k / two32) (k mod two32) = Ret (default 0 (maps_abs m !! k)).
Proof.
  intros Hok. rewrite maps_abs_lookup. unfold maps_get, look. rewrite (pm_get_spec _ _ (mo_outer _ Hok)). cbn [mbind outcome_bind].
  destruct (pm_abs (hm_uuid m) !! (k / two32)) as [a|] eqn:Ea; cbn; [|reflexivity]. destruct (mo_inner _ Hok _ _ Ea) as (Ha & i & Hi & Hio & _). apply Z.eqb_neq in Ha as ->.
  rewrite Hi. cbn. now rewrite pm_get_spec.
Qed.

(** Making the map of a hero; until it gets its record it is empty. *)
Lemma maps_make_spec m u : maps_ok m -> Z.of_nat (size (maps_abs m)) < 2 ^ 61 ->
  exists m1 a i, maps_make map_new malloc_map m u = Ret (m1, a) /\ a <> 0 /\ pm_ok (hm_uuid m1) /\ pm_abs (hm_uuid m1) = <[u := a]> (pm_abs (hm_uuid m)) /\
    hm_maps m1 = <[a := i]> (hm_maps m) /\ pm_ok i /\ (forall id, is_Some (pm_abs i !! id) -> 0 <= id < two32) /\ (size (pm_abs i) <= size (maps_abs m))%nat /\
    (forall id, 0 <= id < two32 -> pm_abs i !! id = maps_abs m !! number u id) /\ forall u', pm_abs (hm_uuid m) !! u' = Some a -> u' = u.
Proof.
  intros Hok Hsz. pose proof Hok as [Ho Hin Hinj]. unfold maps_make. rewrite (pm_get_spec _ _ Ho). cbn [mbind outcome_bind].
  destruct (pm_abs (hm_uuid m) !! u) as [a|] eqn:Ea; cbn [default from_option id].
  - destruct (Hin u a Ea) as (Ha & i & Hi & Hio & Hr & _). apply Z.eqb_neq in Ha as Ha'. rewrite Ha'. exists m, a, i. rewrite !insert_id by assumption.
    split; [reflexivity|]. split; [exact Ha|]. split; [exact Ho|]. split; [reflexivity|]. split; [reflexivity|]. split; [exact Hio|]. split; [exact Hr|].
    split; [exact (inner_size m u a i Hok Ea Hi)|]. split; [|intros u' Hu'; exact (Hinj _ _ _ Hu' Ea)]. intros id Hid. symmetry. now apply look_number with a.
  - cbn [Z.eqb]. destruct (malloc_map_ok (hm_maps m)) as [Hn Hz]. set (a := malloc_map (hm_maps m)) in *. apply Z.eqb_neq in Hz as Hz'. rewrite Hz'.
    destruct (pm_set_spec (hm_uuid m) u a Ho) as (o' & -> & Ho' & Ha); [pose proof (outer_size m Hok); lia|]. rewrite Hz' in Ha. cbn [mbind outcome_bind].
    exists (mk_maps o' (<[a := map_new]> (hm_maps m))), a, map_new. split; [reflexivity|]. split; [exact Hz|]. split; [exact Ho'|]. split; [exact Ha|]. split; [reflexivity|].
    split; [exact map_new_ok|]. rewrite map_new_empty. split; [intros id [x Hx]; now rewrite lookup_empty in Hx|]. split; [rewrite map_size_empty; lia|]. split.
    + intros id Hid. rewrite lookup_empty, maps_abs_lookup. unfold look. rewrite number_div, Ea by exact Hid. reflexivity.
    + intros u' Hu'. destruct (Hin u' a Hu') as (_ & i & Hi & _). congruence.
Qed.

Lemma maps_set_spec m k p : maps_ok m -> Z.of_nat (size (maps_abs m)) < 2 ^ 61 -> p <> 0 ->
  exists m', pm_set (PtrMap := maps_index map_new malloc_map) m k p = Ret (m', default 0 (maps_abs m !! k)) /\ maps_ok m' /\ maps_abs m' = <[k := p]> (maps_abs m).
Proof.
  intros Hok Hsz Hp. pose proof (low_range k) as Hlow. cbn [pm_set maps_index].
  destruct (maps_make_spec m (k / two32) Hok Hsz) as (m1 & a & i & -> & Ha & Ho1 & Hou & Hma & Hi & Hr & His & Hia & Huniq). cbn [mbind outcome_bind]. unfold maps_put. rewrite Hma, lookup_insert_eq.
  cbn [deref mbind outcome_bind]. destruct (pm_set_spec i (k mod two32) p Hi ltac:(lia)) as (i' & -> & Hi' & Hai). apply Z.eqb_neq in Hp as Hp'. rewrite Hp' in Hai. cbn [mbind outcome_bind].
  rewrite (Hia _ Hlow), number_split. eexists. split; [reflexivity|]. rewrite insert_insert_eq. split.
  - constructor; cbn [hm_uuid hm_maps]; rewrite ?Hou; [exact Ho1| |].
    + intros u b Hb. destruct (decide (u = k / two32)) as [->|Hne].
      * rewrite lookup_insert_eq in Hb. injection Hb as <-. split; [exact Ha|]. exists i'. rewrite lookup_insert_eq. split; [reflexivity|]. split; [exact Hi'|]. rewrite Hai. split.
        -- intros id Hid. destruct (decide (id = k mod two32)) as [->|Hid']; [exact Hlow|]. rewrite lookup_insert_ne in Hid by congruence. auto.
        -- exists (k mod two32). rewrite lookup_insert_eq. eauto.
      * rewrite lookup_insert_ne in Hb by congruence. destruct (mo_inner _ Hok u b Hb) as (Hb0 & j & Hj & Hrest). split; [exact Hb0|]. exists j.
        rewrite lookup_insert_ne; [auto|]. intros <-. now apply Hne, Huniq.
    + intros u u' b Hb Hb'. apply lookup_insert_Some in Hb as [[<- <-]|[Hne Hb]]; apply lookup_insert_Some in Hb' as [[<- E]|[Hne' Hb']]; try congruence.
      * symmetry. now apply Huniq.
      * subst b. now apply Huniq.
      * exact (mo_inj _ Hok _ _ _ Hb Hb').
  - apply map_eq. intros c. rewrite maps_abs_lookup. unfold look. cbn [hm_uuid hm_maps]. rewrite Hou. destruct (decide (c / two32 = k / two32)) as [E|E].
    + rewrite E, lookup_insert_eq. cbn. rewrite lookup_insert_eq. cbn. rewrite Hai. destruct (decide (c = k)) as [->|Hne]; [now rewrite !lookup_insert_eq|].
      assert (c mod two32 <> k mod two32) by (intros E2; apply Hne; rewrite <- (number_split c), <- (number_split k); congruence).
      rewrite !lookup_insert_ne by congruence. rewrite (Hia _ (low_range c)), <- E, number_split. reflexivity.
    + rewrite lookup_insert_ne by congruence. rewrite lookup_insert_ne by congruence. rewrite maps_abs_lookup. unfold look.
      destruct (pm_abs (hm_uuid m) !! (c / two32)) as [b|] eqn:Eb; [|reflexivity]. cbn. rewrite lookup_insert_ne; [reflexivity|]. intros <-. now apply E, Huniq.
Qed.

Lemma maps_new_ok : maps_ok (maps_new map_new) /\ maps_abs (maps_new map_new) = ∅.
Proof.
  split; [constructor; cbn; [exact map_new_ok| |]; rewrite ?map_new_empty; intros *; rewrite lookup_empty; discriminate|].
  apply map_eq. intros k. rewrite maps_abs_lookup, lookup_empty. unfold look. cbn. now rewrite map_new_empty, lookup_empty.
Qed.

#[local] Existing Instance maps_index.
Definition maps_laws : @PutLaws (hero_maps M) (maps_index map_new malloc_map).
Proof.
  refine (Build_PutLaws (hero_maps M) (maps_index map_new malloc_map) maps_ok maps_abs _ _).
  - intros m k Hm. exact (maps_get_spec m k Hm).
  - exact maps_set_spec.
Defined.

(** A hero with a record has a map already, and the record is in it. *)
Lemma maps_make_found m u id a : maps_get m u id = Ret a -> a <> 0 ->
  exists arr i, maps_make map_new malloc_map m u = Ret (m, arr) /\ hm_maps m !! arr = Some i /\ pm_get i id = Ret a.
Proof.
  unfold maps_get, maps_make. intros He Ha. destruct (pm_get (hm_uuid m) u) as [arr| | |]; try discriminate. cbn [mbind outcome_bind] in *.
  destruct (arr =? 0); [congruence|]. destruct (hm_maps m !! arr) as [i|] eqn:Ei; [|discriminate]. exists arr, i. auto.
Qed.

(** The map of a hero without the record. *)
Lemma maps_make_missing m u id : maps_ok m -> Z.of_nat (size (maps_abs m)) < 2 ^ 61 -> 0 <= id < two32 -> maps_abs m !! number u id = None ->
  exists m1 arr i, maps_make map_new malloc_map m u = Ret (m1, arr) /\ hm_maps m1 !! arr = Some i /\ pm_get i id = Ret 0.
Proof.
  intros Hok Hsz Hid Hn. destruct (maps_make_spec m u Hok Hsz) as (m1 & a & i & He & _ & _ & _ & Hma & Hi & _ & _ & Hia & _). exists m1, a, i. split; [exact He|].
  split; [rewrite Hma; apply lookup_insert_eq|]. rewrite (pm_get_spec _ _ Hi), Hia, Hn by exact Hid. reflexivity.
Qed.
End Theory.
