(* ===== verification/HeroItem.v ===== *)
(** * Items of heroes: [modules/hero_item.c]

    A hero of a player has items of its own: the record of a hero and an item has how many there are and a
    status.  The records are found through two maps ([HeroMaps]).  Over the records of the player ([DataSet])
    the module's functions refine a map from a hero and an item to amount and status, and every change is posted
    to the player. *)
From S2P Require Import Prelude AmfWire AmfValue AmfSafety AmfTheorems AgMap Dlist Keyed Data DataSet NotifyCount Notify NotifyTheorems PlayerNotify HeroMaps.

Definition NOTIFY_HERO_ITEM : Z := 55.

(** [struct HeroItem]: the columns of the table.  The rest of the key, [uid] and [id], is one number with [id],
    32 bits wide, as its low half. *)
Record HeroItem := mk_hi { hi_pid : Z; hi_number : Z; hi_value : Z; hi_status : Z }.
Definition hi_uid (r : HeroItem) : Z := hi_number r / two32.
Definition hi_id (r : HeroItem) : Z := hi_number r mod two32.

#[export] Instance hero_item_row : Row HeroItem := {
  row_ids := [4; 5];
  row_get r i := if i =? 4 then hi_value r else hi_status r;
  row_set r i x := if i =? 4 then mk_hi (hi_pid r) (hi_number r) x (hi_status r) else mk_hi (hi_pid r) (hi_number r) (hi_value r) x }.
Definition hero_item_key (r : HeroItem) : Z * Z := (hi_pid r, hi_number r).
#[export] Instance hero_item_laws : RowLaws HeroItem (Z * Z) hero_item_key.
Proof.
  assert (Hin : forall i, i ∈ [4; 5] -> i = 4 \/ i = 5) by (intros i Hi; rewrite !elem_of_cons, elem_of_nil in Hi; tauto).
  constructor; cbn [row_ids row_get row_set hero_item_row].
  - intros i Hi. apply Hin in Hi. lia.
  - intros r i j x Hi Hj. apply Hin in Hi as [->| ->], Hj as [->| ->]; reflexivity.
  - intros r i x Hi. apply Hin in Hi as [->| ->]; reflexivity.
  - intros [p n v x] [q m w y] [= -> ->] Hg. pose proof (Hg 4 ltac:(left)) as Hv. pose proof (Hg 5 ltac:(right; left)) as Hx. cbn in Hv, Hx. congruence.
Qed.

(** The table, the player's set ([struct HeroItemSet]) and the notifications. *)
Record hero_state (W M N : Type) := mk_hs { hs_store : store HeroItem W; hs_set : data_set (hero_maps M); hs_notify : N }.
Arguments mk_hs {W M N} _ _ _.
Arguments hs_store {W M N} _.
Arguments hs_set {W M N} _.
Arguments hs_notify {W M N} _.

Section Operations.
Context {W M N : Type} `{Database HeroItem W} `{PtrMap M} `{Notifier N} (map_new : M) (malloc_map : gmap Z M -> Z).
Context (void : Z) (malloc : gmap Z (datum HeroItem) -> Z).
#[local] Abbreviation state := (hero_state W M N).
#[local] Instance hero_index : PtrMap (hero_maps M) := maps_index map_new malloc_map.

Definition hero_item_new : data_set (hero_maps M) := mk_set (maps_new map_new) 0.
(** Rows whose item is not positive are skipped. *)
Definition usable (r : HeroItem) : bool := negb (hi_id r =? 0).
Definition hero_item_load (s : store HeroItem W) (pid : Z) : outcome (store HeroItem W * option (data_set (hero_maps M))) :=
  load_set hi_number usable (maps_new map_new) malloc s pid.
Definition hero_item_release (s : store HeroItem W) (set : data_set (hero_maps M)) : outcome (store HeroItem W) := release_set s set.

Definition hero_item_get (s : state) (uuid id : Z) : outcome Z :=
  if id <=? 0 then Ret 0 else maps_get (ds_m (hs_set s)) uuid id.

Definition hero_item_count (s : state) (uuid id : Z) : outcome Z :=
  item ← hero_item_get s uuid id;
  if item =? 0 then Ret 0 else v ← deref (st_heap (hs_store s) !! item); Ret (i32 (hi_value (dt_row v))).

Definition hero_item_add_notify (n : N) (item : HeroItem) : outcome N :=
  '(c, _) ← amf_set (amf_new_array 4) 0 (Some (amf_new_integer (u32 (hi_uid item))));
  '(c, _) ← amf_set c 1 (Some (amf_new_integer (hi_id item)));
  '(c, _) ← amf_set c 2 (Some (amf_new_integer (hi_value item)));
  '(c, _) ← amf_set c 3 (Some (amf_new_integer (hi_status item)));
  post_change n (hi_pid item) NOTIFY_HERO_ITEM (Some c).

(** How [hero_item_set] and [hero_item_add] go on: a new record with the row [r], its insertion unchecked, or [change] of the record
    that is there. *)
Definition hero_item_put (s : state) (uuid id : Z) (r : HeroItem) (change : Z -> datum HeroItem -> outcome (store HeroItem W)) : outcome (state * Z) :=
  '(m, arr) ← maps_make map_new malloc_map (ds_m (hs_set s)) uuid;
  i ← deref (hm_maps m !! arr);
  item ← pm_get i id;
  if item =? 0 then
    let a := malloc (st_heap (hs_store s)) in
    if a =? 0 then Undef
    else
      '(st, _) ← DATA_new (with_datum (hs_store s) a (new_datum r)) a;
      h ← dlist_init (st_heap st) a;
      '(h, q) ← dlist_insert_tail h (ds_list (hs_set s)) a;
      '(m, _) ← maps_put m arr id a;
      v ← deref (h !! a);
      n ← hero_item_add_notify (hs_notify s) (dt_row v);
      Ret (mk_hs (with_heap st h) (mk_set m q) n, 0)
  else
    v ← deref (st_heap (hs_store s) !! item);
    st ← change item v;
    v ← deref (st_heap st !! item);
    n ← hero_item_add_notify (hs_notify s) (dt_row v);
    Ret (mk_hs st (mk_set m (ds_list (hs_set s))) n, 0).

(** [now] is [agT_current()]. *)
Definition hero_item_set (s : state) (now pid uuid id value status : Z) : outcome (state * Z) :=
  if id <=? 0 then Ret (s, -1)
  else
    hero_item_put s uuid id (mk_hi pid (number uuid id) (u32 value) (u32 status)) (fun item _ =>
      st ← DATA_update (hs_store s) now item 4 (u32 value);
      DATA_update st now item 5 (u32 status)).

Definition hero_item_add (s : state) (now pid uuid id value status : Z) : outcome (state * Z) :=
  if value <? 0 then Ret (s, -1)
  else if value =? 0 then Ret (s, 0)
  else if id <=? 0 then Ret (s, -1)
  else
    hero_item_put s uuid id (mk_hi pid (number uuid id) (u32 value) (u32 status)) (fun item v =>
      DATA_update (hs_store s) now item 4 (u32 (hi_value (dt_row v) + value))).

Definition hero_item_remove (s : state) (now uuid id value : Z) : outcome (state * Z) :=
  if value <? 0 then Ret (s, -1)
  else if value =? 0 then Ret (s, 0)
  else
    item ← hero_item_get s uuid id;
    if item =? 0 then Ret (s, -1)
    else
      v ← deref (st_heap (hs_store s) !! item);
      if hi_value (dt_row v) <? u32 value then Ret (s, -1)
      else
        st ← DATA_update (hs_store s) now item 4 (u32 (hi_value (dt_row v) - value));
        v ← deref (st_heap st !! item);
        n ← hero_item_add_notify (hs_notify s) (dt_row v);
        Ret (mk_hs st (hs_set s) n, 0).

Definition hero_item_next (s : state) (item : Z) : outcome Z :=
  dlist_next (st_heap (hs_store s)) (ds_list (hs_set s)) item.
End Operations.

Section Theorems.
Context {W M N : Type} `{Database HeroItem W} `{!DatabaseLaws HeroItem (Z * Z) W hero_item_key fst} `{PtrMapLaws M} `{NotifierLaws N}.
Context (map_new : M) (map_new_ok : pm_ok map_new) (map_new_empty : pm_abs map_new = ∅).
Context (malloc_map : gmap Z M -> Z) (malloc_map_ok : forall h, h !! malloc_map h = None /\ malloc_map h <> 0).
Context (void : Z) (malloc : gmap Z (datum HeroItem) -> Z) (malloc_ok : forall h, h !! malloc h = None /\ malloc h <> 0 /\ malloc h <> void).
#[local] Abbreviation state := (hero_state W M N).
#[local] Abbreviation rows := (db_rows (key := hero_item_key) (owner := fst)).
#[local] Instance index : PtrMap (hero_maps M) := hero_index map_new malloc_map.
#[local] Instance hero_put : PutLaws (hero_maps M) := maps_laws map_new map_new_ok map_new_empty malloc_map malloc_map_ok.

Lemma item_number (r r' : HeroItem) : hero_item_key r = hero_item_key r' -> hi_number r = hi_number r'.
Proof. intros [= _ E]. exact E. Qed.
Lemma item_number_key (r r' : HeroItem) : fst (hero_item_key r) = fst (hero_item_key r') -> hi_number r = hi_number r' -> hero_item_key r = hero_item_key r'.
Proof. intros E1 E2. unfold hero_item_key in *. cbn in E1. congruence. Qed.

(** The record posted for a row. *)
Definition item_change (r : HeroItem) : amf_value :=
  AV amf_array 4 (PChild [Some (amf_new_integer (u32 (hi_uid r))); Some (amf_new_integer (hi_id r));
    Some (amf_new_integer (hi_value r)); Some (amf_new_integer (hi_status r))]).
Definition item_post (r : HeroItem) : post := mk_post (hi_pid r) NOTIFY_HERO_ITEM None (Some (item_change r)).
Definition row_ok (r : HeroItem) : Prop := 0 < hi_id r /\ 0 <= hi_value r < 2 ^ 32 /\ 0 <= hi_status r < 2 ^ 32.

Lemma item_notify_eq n r : hero_item_add_notify n r = post_change n (hi_pid r) NOTIFY_HERO_ITEM (Some (item_change r)).
Proof. reflexivity. Qed.
Lemma item_change_wf r : row_ok r -> wf_amf (item_change r).
Proof.
  intros (_ & Hv & Hs). pose proof (low_range (hi_number r)) as Hi. apply wf_array_intro; [vm_compute; split; discriminate| |repeat constructor]. intros c Hc.
  repeat (apply elem_of_cons in Hc as [[= ->]|Hc]; [constructor; try assumption|]); [apply Z.mod_pos_bound; lia|inversion Hc].
Qed.

(** [l]: the records, [ul]: those on the update list, [p]: what waits to be sent; [b] bounds them. *)
Record hero_inv (s : state) (pid b : Z) (l ul : list Z) (p : pending) : Prop := {
  hv_data : data_ok hero_item_key fst void (hs_store s) ul;
  hv_set : player_set hero_item_key fst hi_number (hs_store s) (hs_set s) l pid;
  hv_notes : nf_rep (hs_notify s) b p;
  hv_range : forall k r, row_of (hs_store s) (hs_set s) k = Some r -> row_ok r;
  hv_bound : zlen l <= b /\ Z.of_nat (size (rows (st_db (hs_store s)))) <= b }.
Definition item_at (s : state) (k : Z) : option HeroItem := row_of (hs_store s) (hs_set s) k.

Lemma get_item_spec s pid b l ul p uuid id : hero_inv s pid b l ul p -> 0 < id < two32 ->
  (exists a v, hero_item_get s uuid id = Ret a /\ a <> 0 /\ a ∈ l /\ st_heap (hs_store s) !! a = Some v /\ hi_number (dt_row v) = number uuid id /\ item_at s (number uuid id) = Some (dt_row v)) \/
  (hero_item_get s uuid id = Ret 0 /\ item_at s (number uuid id) = None).
Proof.
  intros Hinv Hid. pose proof (ps_set _ _ _ _ _ _ _ (hv_set _ _ _ _ _ _ Hinv)) as Hso. unfold hero_item_get, item_at. ztests.
  pose proof (maps_get_spec (ds_m (hs_set s)) (number uuid id) (so_map _ _ _ _ Hso)) as He. rewrite number_div, number_mod in He by lia.
  destruct (set_get hi_number (hs_store s) (hs_set s) l (number uuid id) Hso) as [(a & v & Hg & Haz & Hal & Hv & _ & Hk & Hro)|(Hg & Hro & Hn)].
  - left. exists a, v. cbn [pm_get index hero_index maps_index] in Hg. rewrite number_div, number_mod in Hg by lia. auto 10.
  - right. cbn [pm_get index hero_index maps_index] in Hg. rewrite number_div, number_mod in Hg by lia. auto.
Qed.

Lemma hero_inv_mono s pid b b' l ul p : hero_inv s pid b l ul p -> b <= b' -> hero_inv s pid b' l ul p.
Proof. intros [Hok Hps Hnt Hr [Hl Hsz]] Hb. constructor; [exact Hok|exact Hps|exact (nf_more _ _ _ _ Hnt Hb)|exact Hr|lia]. Qed.

Lemma post_item n b p r : nf_rep n b p -> 0 <= b < 2 ^ 60 -> row_ok r ->
  exists n', hero_item_add_notify n r = Ret n' /\ nf_rep n' (b + 1) (enter p (item_post r)).
Proof. intros Hn Hb Hr. rewrite item_notify_eq. apply post_spec; [exact Hn|exact Hb|vm_compute; split; [discriminate|reflexivity]|now apply item_change_wf]. Qed.

(** A change of one record. *)
Definition changed (s : store HeroItem W) (set : data_set (hero_maps M)) pid (l : list Z) a (r : HeroItem) (o : outcome (store HeroItem W)) : Prop :=
  exists st ul v, o = Ret st /\ data_ok hero_item_key fst void st ul /\ player_set hero_item_key fst hi_number st set l pid /\ st_db st = st_db s /\
    st_heap st !! a = Some v /\ dt_row v = r /\ forall k, row_of st set k = if k =? hi_number r then Some r else row_of s set k.

Lemma update_changed s set pid l ul now a v id x : player_set hero_item_key fst hi_number s set l pid -> data_ok hero_item_key fst void s ul -> a ∈ l ->
  st_heap s !! a = Some v -> id ∈ [4; 5] -> changed s set pid l a (row_set (dt_row v) id x) (DATA_update s now a id x).
Proof.
  intros Hps Hok Hal Ha Hid. destruct (ps_update hero_item_key fst hi_number void item_number s set l ul pid now a id x v Hps Hok Hal Ha Hid) as (st & ul' & v' & He & Hok' & Hps' & Hdb & Hh & Hr & Hrows).
  exists st, ul', v'. split; [exact He|]. split; [exact Hok'|]. split; [exact Hps'|]. split; [exact Hdb|]. split; [rewrite Hh; apply lookup_insert_eq|]. split; [exact Hr|].
  intros k. rewrite Hrows. replace (hi_number (row_set (dt_row v) id x)) with (hi_number (dt_row v)); [reflexivity|]. cbn. destruct (id =? 4); reflexivity.
Qed.

Lemma changed_again s set pid l a r o r' f : changed s set pid l a r o -> hi_number r' = hi_number r ->
  (forall st ul v, data_ok hero_item_key fst void st ul -> player_set hero_item_key fst hi_number st set l pid -> st_heap st !! a = Some v -> dt_row v = r -> changed st set pid l a r' (f st)) ->
  changed s set pid l a r' (o ≫= f).
Proof.
  intros (st & ul & v & -> & Hok & Hps & Hdb & Ha & Hr & Hrows) Hn Hf. destruct (Hf st ul v Hok Hps Ha Hr) as (st2 & ul2 & v2 & He & Hok2 & Hps2 & Hdb2 & Ha2 & Hr2 & Hrows2).
  exists st2, ul2, v2. split; [exact He|]. split; [exact Hok2|]. split; [exact Hps2|]. split; [congruence|]. split; [exact Ha2|]. split; [exact Hr2|].
  intros k. rewrite Hrows2, Hrows, Hn. destruct (k =? hi_number r); reflexivity.
Qed.

(** A changed record is posted. *)
Lemma post_changed s pid b l ul p a r o : hero_inv s pid b l ul p -> 0 <= b < 2 ^ 60 -> row_ok r -> changed (hs_store s) (hs_set s) pid l a r o ->
  exists s' ul', (st ← o; v ← deref (st_heap st !! a); n ← hero_item_add_notify (hs_notify s) (dt_row v); Ret (mk_hs st (hs_set s) n, 0)) = Ret (s', 0) /\
    hero_inv s' pid (b + 1) l ul' (enter p (item_post r)) /\ forall k, item_at s' k = if k =? hi_number r then Some r else item_at s k.
Proof.
  intros [_ _ Hnt Hr [Hl Hsz]] Hb Hok (st & ul' & v & -> & Hd & Hps & Hdb & Ha & <- & Hrows). cbn [mbind outcome_bind]. rewrite Ha. cbn [deref mbind outcome_bind].
  destruct (post_item (hs_notify s) b p (dt_row v) Hnt Hb Hok) as (n & -> & Hnt'). cbn [mbind outcome_bind]. exists (mk_hs st (hs_set s) n), ul'. split; [reflexivity|]. split; [|exact Hrows].
  constructor; cbn [hs_store hs_set hs_notify]; [exact Hd|exact Hps|exact Hnt'| |rewrite Hdb; lia]. intros k r Hk. rewrite Hrows in Hk. destruct (k =? _); [injection Hk as <-; exact Hok|eauto].
Qed.

(** ** The items as a map *)

(** From a hero and an item to amount and status. *)
#[local] Abbreviation items := (gmap Z (Z * Z)).
Definition item_row (pid k : Z) (e : Z * Z) : HeroItem := mk_hi pid k (fst e) (snd e).
Definition items_are (s : state) (pid : Z) (D : items) : Prop := forall k, item_at s k = item_row pid k <$> D !! k.

Lemma items_change s s' pid D k e : items_are s pid D -> (forall j, item_at s' j = if j =? k then Some (item_row pid k e) else item_at s j) -> items_are s' pid (<[k := e]> D).
Proof.
  intros HD Hk j. rewrite Hk. destruct (Z.eqb_spec j k) as [->|Hne]; [now rewrite lookup_insert_eq|]. rewrite lookup_insert_ne by congruence. apply HD.
Qed.

Lemma put_item_spec s pid b l ul p D uuid id e change f : hero_inv s pid b l ul p -> items_are s pid D -> 0 <= b < 2 ^ 60 -> 0 < id < two32 -> inserts_ok hero_item_key fst (W := W) ->
  let k := number uuid id in
  let e' := match D !! k with Some e0 => f e0 | None => e end in
  row_ok (item_row pid k e') ->
  (forall a v e0, a ∈ l -> st_heap (hs_store s) !! a = Some v -> dt_row v = item_row pid k e0 -> changed (hs_store s) (hs_set s) pid l a (item_row pid k (f e0)) (change a v)) ->
  exists s' l' ul', hero_item_put map_new malloc_map malloc s uuid id (item_row pid k e) change = Ret (s', 0) /\
    hero_inv s' pid (b + 1) l' ul' (enter p (item_post (item_row pid k e'))) /\ items_are s' pid (<[k := e']> D).
Proof.
  intros Hinv HD Hb Hid Hins k e' He' Hf. pose proof Hinv as [Hok Hps Hnt Hr [Hl Hsz]]. pose proof (ps_set _ _ _ _ _ _ _ Hps) as Hso. pose proof (so_map _ _ _ _ Hso) as Hm.
  unfold hero_item_put. destruct (get_item_spec s pid b l ul p uuid id Hinv Hid) as [(a & v & Hg & Haz & Hal & Hv & Hk & Hro)|(Hg & Hro)]; unfold hero_item_get in Hg; rewrite (proj2 (Z.leb_gt _ _)) in Hg by lia.
  - destruct (maps_make_found map_new malloc_map (ds_m (hs_set s)) uuid id a Hg Haz) as (arr & i & -> & Hi & Hgi). cbn [mbind outcome_bind]. rewrite Hi. cbn [deref mbind outcome_bind].
    rewrite Hgi. cbn [mbind outcome_bind]. apply Z.eqb_neq in Haz as ->. rewrite Hv. cbn [deref mbind outcome_bind].
    assert (Hset : mk_set (ds_m (hs_set s)) (ds_list (hs_set s)) = hs_set s) by (destruct (hs_set s); reflexivity). rewrite Hset.
    fold k in Hro. rewrite HD in Hro. subst e'. destruct (D !! k) as [e0|] eqn:E0; [|discriminate]. injection Hro as Hro.
    destruct (post_changed s pid b l ul p a (item_row pid k (f e0)) (change a v) Hinv Hb He' (Hf a v e0 Hal Hv (eq_sym Hro))) as (s' & ul' & He & Hinv' & Hrows).
    exists s', l, ul'. split; [exact He|]. split; [exact Hinv'|]. now apply (items_change s).
  - assert (Hnone : D !! k = None) by (fold k in Hro; rewrite HD in Hro; now destruct (D !! k)). subst e'. rewrite Hnone in *.
    destruct (maps_make_missing map_new map_new_ok map_new_empty malloc_map malloc_map_ok (ds_m (hs_set s)) uuid id Hm) as (m1 & arr & i & Hmake & Hi & Hgi).
    { change (maps_abs (ds_m (hs_set s))) with (pt_abs (ds_m (hs_set s))). rewrite (so_size _ _ _ _ Hso). unfold zlen in Hl. lia. }
    { lia. }
    { fold k. destruct (set_get hi_number (hs_store s) (hs_set s) l k Hso) as [(a & v & _ & _ & _ & _ & _ & _ & E)|(_ & _ & E)]; [unfold item_at in Hro; fold k in Hro; congruence|exact E]. }
    destruct (ps_insert hero_item_key fst hi_number void malloc malloc_ok item_number_key item_number (hs_store s) (hs_set s) l ul pid (item_row pid k e) Hps Hok eq_refl Hro ltac:(lia))
      as (st & ret & Hnew & Hret & Hres). rewrite (Hret Hins) in Hres, Hnew. cbn [Z.eqb] in Hres. destruct Hres as (h & q & m & Hins2 & Hpm & Hok' & Hps' & (v & Hv & Hvr) & Hrows & Hsize).
    cbn [pm_set index hero_index maps_index hi_number item_row] in Hpm. unfold k in Hpm. rewrite number_div, number_mod in Hpm by lia. rewrite Hmake in *. cbn [mbind outcome_bind] in *. rewrite Hi. cbn [deref mbind outcome_bind].
    rewrite Hgi. cbn [mbind outcome_bind Z.eqb]. destruct (malloc_ok (st_heap (hs_store s))) as (_ & Hz & _). apply Z.eqb_neq in Hz as ->.
    rewrite Hnew. cbn [mbind outcome_bind]. rewrite (init_new _ _ _ (new_record_in _ _ _ _ _ Hnew)). cbn [mbind outcome_bind]. rewrite Hins2. cbn [mbind outcome_bind]. rewrite Hpm. cbn [mbind outcome_bind].
    rewrite Hv. cbn [deref mbind outcome_bind]. rewrite Hvr. destruct (post_item (hs_notify s) b p _ Hnt Hb He') as (n & -> & Hnt'). cbn [mbind outcome_bind].
    eexists _, _, ul. split; [reflexivity|]. split; [|now apply (items_change s)].
    constructor; cbn [hs_store hs_set hs_notify]; [exact Hok'|exact Hps'|exact Hnt'| |cbn [st_db with_heap]; rewrite Hsize; autorewrite with cserver; lia].
    intros j r Hj. rewrite Hrows in Hj. destruct (j =? _); [injection Hj as <-; exact He'|eauto].
Qed.

Lemma item_ok s pid b l ul p D k e : hero_inv s pid b l ul p -> items_are s pid D -> D !! k = Some e -> row_ok (item_row pid k e).
Proof. intros Hinv HD Hk. apply (hv_range _ _ _ _ _ _ Hinv k). change (item_at s k = Some (item_row pid k e)). now rewrite HD, Hk. Qed.
Lemma new_item_ok pid uuid id v st : 0 < id < two32 -> row_ok (item_row pid (number uuid id) (u32 v, u32 st)).
Proof. intros Hid. split; [unfold hi_id; cbn; rewrite number_mod; lia|]. split; apply Z.mod_pos_bound; lia. Qed.
Lemma item_add_ok pid k e v : row_ok (item_row pid k e) -> row_ok (item_row pid k (u32 v, snd e)).
Proof. intros (Hk & _ & Hs). split; [exact Hk|]. split; [apply Z.mod_pos_bound; lia|exact Hs]. Qed.

(** ** Runs *)

(** The calls on the items of a player's heroes with their times, a flush of the table, leaving and coming back. *)
Inductive item_op :=
| HCount (uuid id : Z) | HSet (now uuid id value status : Z) | HAdd (now uuid id value status : Z) | HRemove (now uuid id value : Z)
| HFlush (now : Z) | HRelogin (now : Z).

Definition item_step (s : state) (pid : Z) (op : item_op) : outcome (option state * Z) :=
  match op with
  | HCount uuid id => r ← hero_item_count s uuid id; Ret (Some s, r)
  | HSet now uuid id v st => '(s, r) ← hero_item_set map_new malloc_map malloc s now pid uuid id v st; Ret (Some s, r)
  | HAdd now uuid id v st => '(s, r) ← hero_item_add map_new malloc_map malloc s now pid uuid id v st; Ret (Some s, r)
  | HRemove now uuid id v => '(s, r) ← hero_item_remove s now uuid id v; Ret (Some s, r)
  | HFlush now => st ← DATA_flush void (hs_store s) now; Ret (Some (mk_hs st (hs_set s) (hs_notify s)), 0)
  | HRelogin now =>
    st ← hero_item_release (hs_store s) (hs_set s);
    st ← DATA_flush void st now;
    '(st, set) ← hero_item_load map_new malloc_map malloc st pid;
    Ret (match set with Some set => (Some (mk_hs st set (hs_notify s)), 0) | None => (None, -1) end)
  end.

(** The answers and the notifications at the end; a player that cannot be loaded makes no more calls. *)
Fixpoint item_run (s : state) (pid : Z) (ops : list item_op) : outcome (list Z * N) :=
  match ops with
  | [] => Ret ([], hs_notify s)
  | op :: ops' =>
    '(s1, r) ← item_step s pid op;
    match s1 with Some s1 => '(rs, n) ← item_run s1 pid ops'; Ret (r :: rs, n) | None => Ret ([r], hs_notify s) end
  end.

(** The same on a map and the list of what waits. *)
Definition items_apply (pid : Z) (D : items) (p : pending) (op : item_op) : Z * items * pending :=
  let write k e := (0, <[k := e]> D, enter p (item_post (item_row pid k e))) in
  match op with
  | HCount uuid id => (if id <=? 0 then 0 else match D !! number uuid id with Some (v, _) => i32 v | None => 0 end, D, p)
  | HSet _ uuid id v st => if id <=? 0 then (-1, D, p) else write (number uuid id) (u32 v, u32 st)
  | HAdd _ uuid id v st =>
    if v <? 0 then (-1, D, p) else if v =? 0 then (0, D, p) else if id <=? 0 then (-1, D, p)
    else write (number uuid id) match D !! number uuid id with Some (v0, st0) => (u32 (v0 + v), st0) | None => (v, u32 st) end
  | HRemove _ uuid id v =>
    if v <? 0 then (-1, D, p) else if v =? 0 then (0, D, p) else if id <=? 0 then (-1, D, p)
    else match D !! number uuid id with
         | Some (v0, st0) => if v0 <? v then (-1, D, p) else write (number uuid id) (v0 - v, st0)
         | None => (-1, D, p)
         end
  | HFlush _ | HRelogin _ => (0, D, p)
  end.
Definition item_op_ok (op : item_op) : Prop :=
  match op with
  | HCount _ id => id < 2 ^ 31
  | HSet _ _ id v _ | HAdd _ _ id v _ | HRemove _ _ id v => id < 2 ^ 31 /\ v < 2 ^ 31
  | _ => True
  end.
Definition may_end (op : item_op) : bool := match op with HRelogin _ => true | _ => false end.
Fixpoint items_answer (pid : Z) (D : items) (p : pending) (ops : list item_op) (rs : list Z) (p' : pending) : Prop :=
  match ops, rs with
  | [], [] => p' = p
  | op :: ops', r :: rs' =>
    (let '(r1, D1, p1) := items_apply pid D p op in r = r1 /\ items_answer pid D1 p1 ops' rs' p') \/ (may_end op = true /\ r = -1 /\ rs' = [] /\ p' = p)
  | _, _ => False
  end.

(** A call does to the state what [items_apply] does to the map. *)
Definition item_called (s : state) pid b D p op (o : outcome (option state * Z)) : Prop :=
  let '(r, D', p') := items_apply pid D p op in exists s' l ul, o = Ret (Some s', r) /\ hero_inv s' pid (b + 1) l ul p' /\ items_are s' pid D'.

Lemma same_called s pid b l ul p D r : hero_inv s pid b l ul p -> items_are s pid D ->
  exists s' l' ul', Ret (Some s, r : Z) = Ret (Some s', r) /\ hero_inv s' pid (b + 1) l' ul' p /\ items_are s' pid D.
Proof. intros Hinv HD. exists s, l, ul. split; [reflexivity|]. split; [apply (hero_inv_mono s pid b); [exact Hinv|lia]|exact HD]. Qed.

Lemma set_called s pid b l ul p D now uuid id v st : hero_inv s pid b l ul p -> items_are s pid D -> 0 <= b < 2 ^ 60 -> inserts_ok hero_item_key fst (W := W) -> id < 2 ^ 31 ->
  item_called s pid b D p (HSet now uuid id v st) (item_step s pid (HSet now uuid id v st)).
Proof.
  intros Hinv HD Hb Hins Hid. unfold item_called. cbn [items_apply item_step]. unfold hero_item_set. destruct (Z.leb_spec id 0); [now apply (same_called s pid b l ul)|].
  assert (Hr : 0 < id < two32) by (unfold two32; lia). set (e := (u32 v, u32 st)).
  assert (Hmatch : match D !! number uuid id with Some _ => e | None => e end = e) by (destruct (D !! _); reflexivity).
  destruct (put_item_spec s pid b l ul p D uuid id e (fun item _ => st0 ← DATA_update (hs_store s) now item 4 (u32 v); DATA_update st0 now item 5 (u32 st)) (fun _ => e) Hinv HD Hb Hr Hins)
    as (s' & l' & ul' & He & Hinv' & HD').
  - rewrite Hmatch. now apply new_item_ok.
  - intros a x e0 Hal Hx Hrow. eapply changed_again; [eapply update_changed; [exact (hv_set _ _ _ _ _ _ Hinv)|exact (hv_data _ _ _ _ _ _ Hinv)|exact Hal|exact Hx|left]| |]; rewrite Hrow; [reflexivity|].
    intros st1 ul1 x1 Hok1 Hps1 Hx1 Hr1. replace (item_row pid (number uuid id) e) with (row_set (dt_row x1) 5 (u32 st)) by (rewrite Hr1; reflexivity).
    eapply update_changed; [exact Hps1|exact Hok1|exact Hal|exact Hx1|right; left].
  - rewrite Hmatch in *. exists s', l', ul'. split; [|now split]. unfold item_row in He. cbn [fst snd e] in He. cbn [fst snd e]. now rewrite He.
Qed.

Lemma add_called s pid b l ul p D now uuid id v st : hero_inv s pid b l ul p -> items_are s pid D -> 0 <= b < 2 ^ 60 -> inserts_ok hero_item_key fst (W := W) -> id < 2 ^ 31 -> v < 2 ^ 31 ->
  item_called s pid b D p (HAdd now uuid id v st) (item_step s pid (HAdd now uuid id v st)).
Proof.
  intros Hinv HD Hb Hins Hid Hv. unfold item_called. cbn [items_apply item_step]. unfold hero_item_add.
  destruct (Z.ltb_spec v 0); [now apply (same_called s pid b l ul)|]. destruct (Z.eqb_spec v 0); [now apply (same_called s pid b l ul)|]. destruct (Z.leb_spec id 0); [now apply (same_called s pid b l ul)|].
  assert (Hr : 0 < id < two32) by (unfold two32; lia). assert (Huv : u32 v = v) by (apply Z.mod_small; lia). rewrite Huv. set (k := number uuid id).
  destruct (put_item_spec s pid b l ul p D uuid id (v, u32 st) (fun item x => DATA_update (hs_store s) now item 4 (u32 (hi_value (dt_row x) + v))) (fun e => (u32 (fst e + v), snd e)) Hinv HD Hb Hr Hins)
    as (s' & l' & ul' & He & Hinv' & HD').
  - fold k. destruct (D !! k) as [e|] eqn:E; [exact (item_add_ok pid k e (fst e + v) (item_ok s pid b l ul p D k e Hinv HD E))|rewrite <- Huv; now apply new_item_ok].
  - intros a x e Hal Hx Hrow. fold k in Hrow |- *. replace (item_row pid k (u32 (fst e + v), snd e)) with (row_set (dt_row x) 4 (u32 (hi_value (dt_row x) + v))) by (rewrite Hrow; reflexivity).
    eapply update_changed; [exact (hv_set _ _ _ _ _ _ Hinv)|exact (hv_data _ _ _ _ _ _ Hinv)|exact Hal|exact Hx|left].
  - fold k in He, Hinv', HD'. unfold item_row in He. cbn [fst snd] in He. rewrite He. cbn [mbind outcome_bind].
    destruct (D !! k) as [[v0 st0]|]; (exists s', l', ul'; split; [reflexivity|now split]).
Qed.

Lemma remove_called s pid b l ul p D now uuid id v : hero_inv s pid b l ul p -> items_are s pid D -> 0 <= b < 2 ^ 60 -> id < 2 ^ 31 -> v < 2 ^ 31 ->
  item_called s pid b D p (HRemove now uuid id v) (item_step s pid (HRemove now uuid id v)).
Proof.
  intros Hinv HD Hb Hid Hv. unfold item_called. cbn [items_apply item_step]. unfold hero_item_remove.
  destruct (Z.ltb_spec v 0); [now apply (same_called s pid b l ul)|]. destruct (Z.eqb_spec v 0); [now apply (same_called s pid b l ul)|]. destruct (Z.leb_spec id 0) as [Hz|Hz].
  { unfold hero_item_get. rewrite (proj2 (Z.leb_le _ _) Hz). cbn [mbind outcome_bind Z.eqb]. now apply (same_called s pid b l ul). }
  assert (Hr : 0 < id < two32) by (unfold two32; lia). set (k := number uuid id). assert (Huv : u32 v = v) by (apply Z.mod_small; lia).
  destruct (get_item_spec s pid b l ul p uuid id Hinv Hr) as [(a & x & -> & Haz & Hal & Hx & Hk & Hro)|(-> & Hro)]; cbn [mbind outcome_bind Z.eqb]; rewrite HD in Hro; fold k in Hro.
  - apply Z.eqb_neq in Haz as ->. rewrite Hx. cbn [deref mbind outcome_bind]. destruct (D !! k) as [[v0 st0]|] eqn:E; [|discriminate]. injection Hro as Hro.
    pose proof (item_ok s pid b l ul p D k _ Hinv HD E) as (Hk0 & Hv0 & Hs0). cbn [hi_value hi_status item_row fst snd] in Hv0, Hs0. rewrite <- Hro, Huv. cbn [hi_value item_row fst].
    destruct (Z.ltb_spec v0 v); [now apply (same_called s pid b l ul)|]. assert (Hu : u32 (v0 - v) = v0 - v) by (apply Z.mod_small; lia). rewrite Hu.
    assert (Hch : changed (hs_store s) (hs_set s) pid l a (item_row pid k (v0 - v, st0)) (DATA_update (hs_store s) now a 4 (v0 - v))).
    { replace (item_row pid k (v0 - v, st0)) with (row_set (dt_row x) 4 (v0 - v)) by (rewrite <- Hro; reflexivity).
      eapply update_changed; [exact (hv_set _ _ _ _ _ _ Hinv)|exact (hv_data _ _ _ _ _ _ Hinv)|exact Hal|exact Hx|left]. }
    destruct (post_changed s pid b l ul p a (item_row pid k (v0 - v, st0)) _ Hinv Hb ltac:(split; [exact Hk0|split; [cbn; lia|exact Hs0]]) Hch) as (s' & ul' & He & Hinv' & Hrows).
    exists s', l, ul'. rewrite He. split; [reflexivity|]. split; [exact Hinv'|]. now apply (items_change s).
  - destruct (D !! k); [discriminate|]. now apply (same_called s pid b l ul).
Qed.

Lemma count_called s pid b l ul p D uuid id : hero_inv s pid b l ul p -> items_are s pid D -> id < 2 ^ 31 -> item_called s pid b D p (HCount uuid id) (item_step s pid (HCount uuid id)).
Proof.
  intros Hinv HD Hid. unfold item_called. cbn [items_apply item_step]. unfold hero_item_count. destruct (Z.leb_spec id 0) as [Hz|Hz].
  { unfold hero_item_get. rewrite (proj2 (Z.leb_le _ _) Hz). cbn [mbind outcome_bind Z.eqb]. now apply (same_called s pid b l ul). }
  destruct (get_item_spec s pid b l ul p uuid id Hinv ltac:(unfold two32; lia)) as [(a & x & -> & Haz & Hal & Hx & Hk & Hro)|(-> & Hro)]; cbn [mbind outcome_bind Z.eqb]; rewrite HD in Hro.
  - apply Z.eqb_neq in Haz as ->. rewrite Hx. cbn [deref mbind outcome_bind]. destruct (D !! number uuid id) as [[v0 st0]|]; [|discriminate]. injection Hro as <-. now apply (same_called s pid b l ul).
  - destruct (D !! number uuid id); [discriminate|]. now apply (same_called s pid b l ul).
Qed.

Lemma flush_called s pid b l ul p D now : hero_inv s pid b l ul p -> items_are s pid D -> saves_ok (V := HeroItem) (W := W) -> item_called s pid b D p (HFlush now) (item_step s pid (HFlush now)).
Proof.
  intros [Hok Hps Hnt Hr [Hl Hsz]] HD Hsv. unfold item_called. cbn [items_apply item_step].
  destruct (ps_flush hero_item_key fst hi_number void (hs_store s) (hs_set s) l ul pid now Hps Hok) as (st & ul' & -> & Hok' & Hps' & Hrows & Hsize). cbn [mbind outcome_bind].
  exists (mk_hs st (hs_set s) (hs_notify s)), l, ul'. split; [reflexivity|]. split; [|intros k; unfold item_at; cbn [hs_store hs_set]; rewrite Hrows; apply HD].
  constructor; cbn [hs_store hs_set hs_notify]; [exact Hok'|exact (Hps' Hsv)|exact (nf_more _ b (b + 1) _ Hnt ltac:(lia))| |rewrite (Hsize Hsv); lia]. intros k r Hk. rewrite Hrows in Hk. eauto.
Qed.

Lemma relogin_called s pid b l ul p D now : hero_inv s pid b l ul p -> items_are s pid D -> 0 <= b < 2 ^ 60 -> saves_ok (V := HeroItem) (W := W) ->
  item_called s pid b D p (HRelogin now) (item_step s pid (HRelogin now)) \/ item_step s pid (HRelogin now) = Ret (None, -1).
Proof.
  intros [Hok Hps Hnt Hr [Hl Hsz]] HD Hb Hsv. unfold item_called. cbn [items_apply item_step]. assert (pt_ok (maps_new map_new) /\ pt_abs (maps_new map_new) = ∅) as [Hm Hm0] by exact (maps_new_ok map_new map_new_ok map_new_empty).
  assert (Huse : forall k r, row_of (hs_store s) (hs_set s) k = Some r -> usable r = true) by (intros k r Hk; destruct (Hr k r Hk) as [Hp _]; unfold usable; now ztests).
  destruct (relogin_spec hero_item_key fst hi_number usable void malloc malloc_ok item_number_key (maps_new map_new) (hs_store s) (hs_set s) l ul pid now Hm Hm0 Huse Hps Hok Hsv ltac:(lia))
    as (s1 & s2 & s3 & ul2 & res & He1 & He2 & He3 & Hok3 & Hsz3 & Hres).
  unfold hero_item_release, hero_item_load. rewrite He1. cbn [mbind outcome_bind]. rewrite He2. cbn [mbind outcome_bind]. change (hero_index map_new malloc_map) with index. rewrite He3. cbn [mbind outcome_bind].
  destruct res as [set'|]; [left|now right]. destruct (Hres set' eq_refl) as [(l' & Hps' & Hll) Hrows]. exists (mk_hs s3 set' (hs_notify s)), l', ul2. split; [reflexivity|].
  split; [|intros k; unfold item_at; cbn [hs_store hs_set]; rewrite Hrows; apply HD].
  constructor; cbn [hs_store hs_set hs_notify]; [exact Hok3|exact Hps'|exact (nf_more _ b (b + 1) _ Hnt ltac:(lia))| |unfold zlen in *; rewrite Hsz3; lia]. intros k r Hk. rewrite Hrows in Hk. eauto.
Qed.

Lemma item_run_spec pid ops : forall s D b l ul p, hero_inv s pid b l ul p -> items_are s pid D -> inserts_ok hero_item_key fst (W := W) -> saves_ok (V := HeroItem) (W := W) ->
  Forall item_op_ok ops -> 0 <= b -> b + zlen ops < 2 ^ 60 ->
  exists rs n p', item_run s pid ops = Ret (rs, n) /\ nf_rep n (b + zlen ops) p' /\ items_answer pid D p ops rs p'.
Proof.
  induction ops as [|op ops IH]; intros s D b l ul p Hinv HD Hins Hsv Hops Hb Hlen; [exists [], (hs_notify s), p; split; [reflexivity|]; split; [eapply nf_more; [exact (hv_notes _ _ _ _ _ _ Hinv)|unfold zlen; cbn; lia]|reflexivity]|].
  apply list.Forall_cons in Hops as [Hop Hops]. rewrite zlen_cons in *. pose proof (zlen_nonneg ops). cbn [item_run].
  assert (Hcase : item_called s pid b D p op (item_step s pid op) \/ (may_end op = true /\ item_step s pid op = Ret (None, -1))).
  { destruct op; cbn [item_op_ok may_end] in *; [left; eapply count_called; eauto|left; eapply set_called; eauto; [lia|tauto]|left; eapply add_called; eauto; [lia|tauto|tauto]|left; eapply remove_called; eauto; [lia|tauto|tauto]|left; eapply flush_called; eauto|].
    destruct (relogin_called s pid b l ul p D now Hinv HD ltac:(lia) Hsv) as [Hc|Hc]; [now left|now right]. }
  destruct Hcase as [Hc|[Hend He]].
  - unfold item_called in Hc. destruct (items_apply pid D p op) as [[r D1] p1] eqn:Ea. destruct Hc as (s' & l' & ul' & -> & Hinv' & HD'). cbn [mbind outcome_bind].
    destruct (IH s' D1 (b + 1) l' ul' p1 Hinv' HD' Hins Hsv Hops ltac:(lia) ltac:(lia)) as (rs & n & p' & -> & Hn & Ha). cbn [mbind outcome_bind]. exists (r :: rs), n, p'.
    split; [reflexivity|]. split; [eapply nf_more; [exact Hn|lia]|]. cbn [items_answer]. left. rewrite Ea. now split.
  - rewrite He. cbn [mbind outcome_bind]. exists [-1], (hs_notify s), p. split; [reflexivity|]. split; [eapply nf_more; [exact (hv_notes _ _ _ _ _ _ Hinv)|lia]|]. now right.
Qed.

(** A player without rows. *)
Lemma start_heroes (w : W) (n : N) pid : void <> 0 -> (forall i, rows w !! (pid, i) = None) -> nf_rep n 0 [] ->
  let s := mk_hs (empty_store void w) (hero_item_new map_new) n in hero_inv s pid (Z.of_nat (size (rows w))) [] [] [] /\ items_are s pid ∅.
Proof.
  intros Hv Hw Hn s. destruct (maps_new_ok map_new map_new_ok map_new_empty) as [Hmo Hmo0]. assert (Hno : forall k, row_of (hs_store s) (hs_set s) k = None).
  { intros k. unfold row_of. change (pt_abs (ds_m (hs_set s))) with (maps_abs (maps_new map_new)). now rewrite Hmo0, lookup_empty. }
  split; [|intros k; unfold item_at; rewrite Hno; now rewrite lookup_empty]. constructor; cbn [hs_store hs_set hs_notify s].
  - exact (empty_ok hero_item_key fst void w Hv).
  - apply player_set_new; [exact Hmo|exact Hmo0|reflexivity|]. intros [p i] Ep. cbn in Ep. subst p. apply Hw.
  - eapply nf_more; [exact Hn|lia].
  - intros k r Hk. rewrite Hno in Hk. discriminate.
  - unfold zlen. cbn. lia.
Qed.
End Theorems.

(** C15: The items of a player's heroes are a map.  For a player without rows, whatever sequence of counting, setting,
    adding, removing, flushing, and leaving and coming back follows, every call returns; the answers are those of
    a map from a hero and an item to amount and status, in which removing more than there is fails without any
    change; and what waits to be sent at the end is what the calls that succeeded posted, in order.  (Statements
    that insert and update succeed; a player whose rows cannot be read makes no more calls.) *)
Theorem hero_items_are_a_map {W M N : Type} `{Database HeroItem W} `{!DatabaseLaws HeroItem (Z * Z) W hero_item_key fst} `{PtrMapLaws M} `{NotifierLaws N}
    (map_new : M) (malloc_map : gmap Z M -> Z) (void : Z) (malloc : gmap Z (datum HeroItem) -> Z) (w : W) (n : N) pid ops :
  pm_ok map_new -> pm_abs map_new = ∅ -> (forall h, h !! malloc_map h = None /\ malloc_map h <> 0) ->
  (forall h, h !! malloc h = None /\ malloc h <> 0 /\ malloc h <> void) -> void <> 0 ->
  (forall i, db_rows (key := hero_item_key) (owner := fst) w !! (pid, i) = None) -> nf_rep n 0 [] -> inserts_ok hero_item_key fst (W := W) -> saves_ok (V := HeroItem) (W := W) ->
  Forall item_op_ok ops -> Z.of_nat (size (db_rows (key := hero_item_key) (owner := fst) w)) + zlen ops < 2 ^ 60 ->
  exists rs n' b p', item_run map_new malloc_map void malloc (mk_hs (empty_store void w) (hero_item_new map_new) n) pid ops = Ret (rs, n') /\
    nf_rep n' b p' /\ items_answer pid ∅ [] ops rs p'.
Proof.
  intros Hm Hm0 Hmm Hmal Hv Hw Hn Hins Hsv Hops Hlen.
  destruct (item_run_spec map_new Hm Hm0 malloc_map Hmm void malloc Hmal pid ops (mk_hs (empty_store void w) (hero_item_new map_new) n) ∅ (Z.of_nat (size (db_rows w))) [] [] []) as (rs & n' & p' & He & Hn' & Ha);
    [apply (start_heroes map_new Hm Hm0 malloc_map Hmm void w n pid Hv Hw Hn)..|exact Hins|exact Hsv|exact Hops|lia|exact Hlen|].
  exists rs, n', (Z.of_nat (size (db_rows w)) + zlen ops), p'; auto.
Qed.

(** A run with the structures of the program and the table in memory. *)
#[local] Instance sample_item_table : Database HeroItem (gmap (Z * Z) HeroItem) := memory_database hero_item_key fst.
#[local] Instance sample_item_laws : DatabaseLaws HeroItem (Z * Z) (gmap (Z * Z) HeroItem) hero_item_key fst := memory_laws hero_item_key fst.
#[local] Instance item_notifier : Notifier (notify_state (agmap Z)) := notify_notifier _agMap_new fresh_address fresh_address.
#[local] Instance item_notifier_laws : NotifierLaws (notify_state (agmap Z)).
Proof. apply notify_laws; [split; apply agMap_new_ok|apply agMap_new_ok|apply fresh_address_spec|apply fresh_address_spec]. Defined.
Definition sample_items : list item_op :=
  [HAdd 1 11 5 3 0; HAdd 2 12 5 4 0; HRemove 3 11 5 4; HRemove 4 11 5 2; HRelogin 9; HCount 11 5; HSet 10 12 5 40 1; HCount 12 5; HCount 12 6].
Definition sample_item_state : hero_state (gmap (Z * Z) HeroItem) (agmap Z) (notify_state (agmap Z)) :=
  mk_hs (empty_store VOID ∅) (hero_item_new _agMap_new) sample_idle.
Lemma hero_items_are_a_map_witness :
  ('(rs, _) ← item_run _agMap_new fresh_address VOID next_address sample_item_state 7 sample_items; Ret rs) = Ret [0; 0; -1; 0; 0; 1; 0; 40; 0] /\
  exists rs n' b p', item_run _agMap_new fresh_address VOID next_address sample_item_state 7 sample_items = Ret (rs, n') /\ nf_rep n' b p' /\ items_answer 7 ∅ [] sample_items rs p'.
Proof.
  split; [vm_compute; reflexivity|]. apply (hero_items_are_a_map _agMap_new fresh_address VOID next_address ∅ sample_idle 7 sample_items).
  - split; apply agMap_new_ok.
  - apply agMap_new_ok.
  - apply fresh_address_spec.
  - apply next_address_ok.
  - discriminate.
  - intros i. reflexivity.
  - apply notify_start. constructor; try reflexivity. split; apply agMap_new_ok.
  - apply memory_inserts_ok.
  - apply memory_saves_ok.
  - repeat constructor; cbn; lia.
  - vm_compute. reflexivity.
Defined.
