(* ===== verification/Addicted.v ===== *)
(** * The play time of minors: [world/addicted.c]

    A minor that is online is checked by a timer of its own ([Timer]): it is told from time to time how long it
    has played, and when the allowed time is over it is told to leave and logged out.  This file models the
    module over the wheel and the interface [Host] of the rest of the program: who is online, the three columns
    of [struct Property] the module reads, the notifications, and what [kickPlayer] does besides calling
    [addicted_logout]. *)
From S2P Require Import Prelude AmfWire AmfValue AmfSafety AmfTheorems AgMap Buckets Timer.

Definition LOGOUT_ADDICTED : Z := 2.
Definition NOTIFY_ADDICTED_CHANGE : Z := 51.

(** [struct AddictedConfig] *)
Record AddictedConfig := mk_config { enable : Z; kickTime : Z; notifyTime : Z; restTime : Z }.
(** Of [struct Property]. *)
Record play_times := mk_times { pt_login : Z; pt_logout : Z; pt_played : Z }.

(** The program around the module: [player_get_online] and [player_get] answer whether there is a player,
    [logout_respond] and [leave] are the message of [kickPlayer] and what [aL_logout] does after
    [addicted_logout], and [told] records these messages with their reasons. *)
Class Host (E : Type) := {
  player_get_online : E -> Z -> bool;
  player_get : E -> Z -> E * bool;
  property_times : E -> Z -> play_times;
  update_played : E -> Z -> Z -> E;
  notification_set : E -> Z -> Z -> Z -> option amf_value -> outcome E;
  logout_respond : E -> Z -> Z -> E;
  leave : E -> Z -> Z -> E;
  told : E -> list (Z * Z) }.

(** [struct PlayerAddictedInfo]; [pi_timer] is the timer the pointer leads to. *)
Record PlayerAddictedInfo := mk_info { pi_pid : Z; pi_timer : option timer; pi_sended : Z }.

(** [players], [force_young_player], the allocated structures and the rest of the program. *)
Record addicted (M E : Type) := mk_addicted { ad_players : M; ad_young : M; ad_infos : gmap Z PlayerAddictedInfo; ad_host : E }.
Arguments mk_addicted {M E} _ _ _ _.
Arguments ad_players {M E} _.
Arguments ad_young {M E} _.
Arguments ad_infos {M E} _.
Arguments ad_host {M E} _.

Section Operations.
Context {M E : Type} `{PtrMap M} `{Host E} (cfg : AddictedConfig) (adultPlayer : Z) (malloc : gmap Z PlayerAddictedInfo -> Z).
#[local] Abbreviation state := (addicted M E).

Definition with_host (s : state) e : state := mk_addicted (ad_players s) (ad_young s) (ad_infos s) e.
Definition with_infos (s : state) h : state := mk_addicted (ad_players s) (ad_young s) h (ad_host s).
Definition with_players (s : state) p : state := mk_addicted p (ad_young s) (ad_infos s) (ad_host s).

(** [module_addicted_load] on the rows of [adult_player]. *)
Fixpoint parse_adult (m : M) (rows : list Z) : outcome M :=
  match rows with [] => Ret m | pid :: rows' => '(m, _) ← pm_set m pid 1; parse_adult m rows' end.
Definition module_addicted_load (map_new : M) (rows : list Z) (e : E) : outcome state :=
  young ← parse_adult map_new rows;
  Ret (mk_addicted map_new young ∅ e).

Definition PLAYED (t : play_times) (now : Z) : Z := pt_played t + now - pt_login t.

Definition remove_timer (m : manager) (t : option timer) : outcome manager := match t with Some t => timer_remove m t | None => Ret m end.

(** [cur] is [agT_current()]. *)
Definition addicted_logout (s : state) (m : manager) (cur id : Z) : outcome (state * manager) :=
  if enable cfg =? 0 then Ret (s, m)
  else
    info ← pm_get (ad_players s) id;
    if (info =? 0) || (info =? adultPlayer) then Ret (s, m)
    else
      i ← deref (ad_infos s !! info);
      m ← remove_timer m (pi_timer i);
      '(p, _) ← pm_set (ad_players s) id 0;
      let pid := pi_pid i in
      let s := with_infos (with_players s p) (delete info (ad_infos s)) in
      if negb (player_get_online (ad_host s) pid) then Ret (s, m)
      else
        let t := property_times (ad_host s) pid in
        if pt_logout t <? pt_login t then
          let played := i32 (cur - pt_login t) in
          Ret (with_host s (update_played (ad_host s) pid (u32 (pt_played t + played))), m)
        else Ret (s, m).

(** [kickPlayer]: the message, then [aL_logout], which begins with [addicted_logout]. *)
Definition kickPlayer (s : state) (m : manager) (cur playerid reason : Z) : outcome (state * manager) :=
  let s := with_host s (logout_respond (ad_host s) playerid reason) in
  '(s, m) ← addicted_logout s m cur playerid;
  Ret (with_host s (leave (ad_host s) playerid cur), m).

Definition addicted_message (type x : Z) : outcome amf_value :=
  '(v, _) ← amf_set (amf_new_array 2) 0 (Some (amf_new_integer (u32 type)));
  '(v, _) ← amf_set v 1 (Some (amf_new_integer (u32 x)));
  Ret v.

(** The seconds to the next check. *)
Definition next_check (played now login sended : Z) : Z :=
  let secKick := i32 (kickTime cfg - played + 5) in
  let secNotify := i32 (notifyTime cfg - Z.rem played (notifyTime cfg)) in
  let secNotify := if sended =? 0 then let t := i32 (60 - (now - login)) in if t <? secNotify then t else secNotify else secNotify in
  let step := if secNotify <? secKick then secNotify else secKick in
  if timer_max_sec <=? step then timer_max_sec else step.

(** The callback of a check: [now] is the time of the timer, [data] the structure. *)
Definition checkPlayer (cur : Z) : callback state := fun now data s m =>
  info ← deref (ad_infos s !! data);
  if negb (player_get_online (ad_host s) (pi_pid info)) then
    '(p, _) ← pm_set (ad_players s) (pi_pid info) 0;
    Ret (with_infos (with_players s p) (delete data (ad_infos s)), m)
  else
    let t := property_times (ad_host s) (pi_pid info) in
    let s := with_infos s (<[data := mk_info (pi_pid info) None (pi_sended info)]> (ad_infos s)) in
    let played := PLAYED t now in
    if u32 (kickTime cfg + 3) <=? played then
      if 0 <? pt_login t then kickPlayer s m cur (pi_pid info) LOGOUT_ADDICTED else Ret (s, m)
    else if notifyTime cfg =? 0 then Undef
    else
      let type := if kickTime cfg <=? played then 2 else if Z.rem played (notifyTime cfg) =? 0 then 1 else 0 in
      let dosend := negb ((type =? 0) && (pi_sended info =? 0) && (now - pt_login t <? 60)) in
      '(e, sended) ←
        (if dosend then
           v ← addicted_message type played;
           e ← notification_set (ad_host s) (pi_pid info) NOTIFY_ADDICTED_CHANGE 0 (Some v);
           Ret (e, i32 (pi_sended info + 1))
         else Ret (ad_host s, pi_sended info));
      let step := next_check played now (pt_login t) sended in
      '(m, x) ← timer_add m (now + step) data;
      Ret (with_host (with_infos s (<[data := mk_info (pi_pid info) x sended]> (ad_infos s))) e, m).

Definition addicted_notify (s : state) (cur pid : Z) : outcome state :=
  info ← pm_get (ad_players s) pid;
  if (info =? adultPlayer) || (info =? 0) then Ret s
  else
    i ← deref (ad_infos s !! info);
    if 0 <? pi_sended i then Ret s
    else
      let played := PLAYED (property_times (ad_host s) pid) cur in
      v ← addicted_message 0 (Z.quot played 3600);
      e ← notification_set (ad_host s) (pi_pid i) NOTIFY_ADDICTED_CHANGE 0 (Some v);
      Ret (with_host (with_infos s (<[info := mk_info (pi_pid i) (pi_timer i) (i32 (pi_sended i + 1))]> (ad_infos s))) e).

Definition addicted_login (s : state) (m : manager) (cur id : Z) : outcome (state * manager) :=
  if enable cfg =? 0 then Ret (s, m)
  else
    info ← pm_get (ad_players s) id;
    if info =? adultPlayer then Ret (s, m)
    else if info =? 0 then
      let a := malloc (ad_infos s) in
      if a =? 0 then Undef
      else
        '(p, _) ← pm_set (ad_players s) id a;
        '(m, x) ← timer_add m (cur + 5) a;
        Ret (with_infos (with_players s p) (<[a := mk_info id x 0]> (ad_infos s)), m)
    else Ret (s, m).

Definition addicted_can_login (s : state) (cur id : Z) : outcome (state * Z) :=
  if enable cfg =? 0 then Ret (s, 1)
  else
    info ← pm_get (ad_players s) id;
    if info =? adultPlayer then Ret (s, 1)
    else
      let '(e, player) := player_get (ad_host s) id in
      let s := with_host s e in
      if negb player then Ret (s, 1)
      else
        let t := property_times e id in
        let rest := u32 (cur - pt_logout t) in
        let e := if negb (pt_played t =? 0) && (restTime cfg <=? rest) then update_played e id 0 else e in
        Ret (with_host s e, if kickTime cfg <=? pt_played (property_times e id) then 0 else 1).

Definition addicted_is_young_player (s : state) (id : Z) : outcome Z := p ← pm_get (ad_young s) id; Ret (i32 p).

Definition addicted_set_adult (s : state) (m : manager) (id : Z) : outcome (state * manager) :=
  info ← pm_get (ad_players s) id;
  if info =? adultPlayer then Ret (s, m)
  else
    '(p, _) ← pm_set (ad_players s) id adultPlayer;
    let s := with_players s p in
    if info =? 0 then Ret (s, m)
    else
      i ← deref (ad_infos s !! info);
      m ← remove_timer m (pi_timer i);
      Ret (with_infos s (delete info (ad_infos s)), m).

Definition addicted_set_minority (s : state) (m : manager) (cur id : Z) : outcome (state * manager) :=
  info ← pm_get (ad_players s) id;
  if negb (info =? 0) && negb (info =? adultPlayer) then Ret (s, m)
  else
    '(p, _) ← pm_set (ad_players s) id 0;
    addicted_login (with_players s p) m cur id.
End Operations.

(** ** What the module needs of the rest *)

(** A player keeps its connection state, and online its times. *)
Definition unchanged {E} `{Host E} (e e' : E) (x : Z) : Prop :=
  player_get_online e' x = player_get_online e x /\ (player_get_online e x = true -> property_times e' x = property_times e x).

Class HostLaws (E : Type) `{Host E} := {
  get_law : forall (e : E) id, (forall x, unchanged e (fst (player_get e id)) x) /\ told (fst (player_get e id)) = told e;
  played_law : forall (e : E) id v, told (update_played e id v) = told e /\ forall x, player_get_online (update_played e id v) x = player_get_online e x /\
    (player_get_online e x = true -> property_times (update_played e id v) x =
       if x =? id then mk_times (pt_login (property_times e x)) (pt_logout (property_times e x)) v else property_times e x);
  notify_law : forall (e : E) id type key v, wf_amf v -> exists e', notification_set e id type key (Some v) = Ret e' /\ told e' = told e /\ forall x, unchanged e e' x;
  respond_law : forall (e : E) id r, told (logout_respond e id r) = told e ++ [(id, r)] /\ forall x, unchanged e (logout_respond e id r) x;
  leave_law : forall (e : E) id cur, told (leave e id cur) = told e /\ (forall x, x <> id -> unchanged e (leave e id cur) x) /\
    (player_get_online (leave e id cur) id = true -> player_get_online e id = true /\
       pt_login (property_times (leave e id cur) id) = pt_login (property_times e id) /\ pt_played (property_times (leave e id cur) id) = pt_played (property_times e id)) }.

(** The times of players that are online, when the wheel is at [n]. *)
Definition times_ok (n : Z) (t : play_times) : Prop := 0 < pt_login t <= n + 3600 /\ 0 <= pt_played t.
Definition host_ok {E} `{Host E} (e : E) (n : Z) : Prop := forall x, player_get_online e x = true -> times_ok n (property_times e x).

Lemma host_ok_unchanged {E} `{Host E} (e e' : E) n : host_ok e n -> (forall x, unchanged e e' x) -> host_ok e' n.
Proof. intros Hok Hu x Hx. destruct (Hu x) as [Ho Ht]. rewrite Ho in Hx. rewrite Ht by exact Hx. now apply Hok. Qed.
Lemma host_ok_later {E} `{Host E} (e : E) n n' : host_ok e n -> n <= n' -> host_ok e n'.
Proof. intros Hok Hn x Hx. destruct (Hok x Hx) as [Hl Hp]. split; [lia|exact Hp]. Qed.
Lemma host_ok_played {E} `{HostLaws E} (e : E) n id v : host_ok e n -> 0 <= v -> host_ok (update_played e id v) n.
Proof.
  intros Hok Hv x Hx. destruct (played_law e id v) as [_ Hl]. destruct (Hl x) as [Ho Ht]. rewrite Ho in Hx. rewrite Ht by exact Hx. destruct (Hok x Hx) as [Hlg Hp].
  destruct (x =? id); [|now split]. now split.
Qed.
Lemma host_ok_leave {E} `{HostLaws E} (e : E) n id cur : host_ok e n -> host_ok (leave e id cur) n.
Proof.
  intros Hok x Hx. destruct (leave_law e id cur) as (_ & Hl & Hid). destruct (decide (x = id)) as [->|Hne].
  - destruct (Hid Hx) as (Ho & El & Ep). unfold times_ok. rewrite El, Ep. now apply Hok.
  - destruct (Hl x Hne) as [Ho Ht]. rewrite Ho in Hx. rewrite Ht by exact Hx. now apply Hok.
Qed.

Section Theory.
Context {M E : Type} `{PtrMapLaws M} `{HostLaws E} (cfg : AddictedConfig) (adultPlayer : Z) (malloc : gmap Z PlayerAddictedInfo -> Z).
Context (adult_not_null : adultPlayer <> 0) (malloc_ok : forall h, h !! malloc h = None /\ malloc h <> 0 /\ malloc h <> adultPlayer).
Context (cfg_ok : enable cfg <> 0 /\ 0 <= kickTime cfg < 2 ^ 30 /\ 0 < notifyTime cfg < 2 ^ 30).
#[local] Abbreviation state := (addicted M E).

(** ** The checks *)

(** A check sends one message at most. *)
Definition sends (sended : Z) (x : timer) : Prop := 0 <= sended < t_at x /\ 1 < t_at x.

(** [l]: the timers that are being fired, [b] bounds the players. *)
Record checks_ok (s : state) (m : manager) (l : list timer) (b : Z) : Prop := {
  ck_map : pm_ok (ad_players s);
  ck_size : Z.of_nat (size (pm_abs (ad_players s))) <= b;
  ck_players : forall id a, pm_abs (ad_players s) !! id = Some a -> a = adultPlayer \/ exists i, ad_infos s !! a = Some i /\ pi_pid i = id;
  ck_infos : forall a i, ad_infos s !! a = Some i -> a <> 0 /\ a <> adultPlayer /\ pm_abs (ad_players s) !! pi_pid i = Some a /\
    exists x, pi_timer i = Some x /\ x ∈ l ++ pending m /\ t_data x = a /\ sends (pi_sended i) x;
  ck_timers : forall x, x ∈ l ++ pending m -> exists i, ad_infos s !! t_data x = Some i /\ pi_timer i = Some x;
  ck_nodup : NoDup (l ++ pending m);
  ck_fresh : forall x, x ∈ l ++ pending m -> t_ptr x < t_fresh m;
  ck_host : host_ok (ad_host s) (t_next m) }.

Lemma checks_move s m l b m' l' b' : checks_ok s m l b -> t_next m <= t_next m' -> t_fresh m <= t_fresh m' -> l ++ pending m ≡ₚ l' ++ pending m' -> b <= b' ->
  checks_ok s m' l' b'.
Proof.
  intros [Hm Hs Hp Hi Ht Hn Hf Hh] Hnext Hfr Hperm Hb. constructor; [exact Hm|lia|exact Hp| | | | |eapply host_ok_later; eassumption].
  - intros a i Ha. destruct (Hi a i Ha) as (Hz & Had & Hq & x & Hx & Hin & Hr). split; [exact Hz|]. split; [exact Had|]. split; [exact Hq|]. exists x. rewrite <- Hperm. auto.
  - intros x Hx. rewrite <- Hperm in Hx. auto.
  - now rewrite <- Hperm.
  - intros x Hx. rewrite <- Hperm in Hx. specialize (Hf x Hx). lia.
Qed.

Lemma checks_host s m l b e : checks_ok s m l b -> host_ok e (t_next m) -> checks_ok (with_host s e) m l b.
Proof. intros [Hm Hs Hp Hi Ht Hn Hf Hh] He. now constructor. Qed.

(** The structure of the first timer goes; the player goes too or is an adult from now on. *)
Lemma checks_out s m t l b i p : checks_ok s m (t :: l) b -> ad_infos s !! t_data t = Some i -> pm_ok p -> Z.of_nat (size (pm_abs p)) <= b ->
  (forall x, x <> pi_pid i -> pm_abs p !! x = pm_abs (ad_players s) !! x) -> (forall a, pm_abs p !! pi_pid i = Some a -> a = adultPlayer) ->
  checks_ok (with_infos (with_players s p) (delete (t_data t) (ad_infos s))) m l b.
Proof.
  intros [Hm Hs Hp Hi Ht Hn Hf Hh] Ha Hpm Hsz Hother Hpid. destruct (Hi _ _ Ha) as (Hz & Had & Hq & _). apply list.NoDup_cons in Hn as [Htn Hn].
  constructor; cbn [ad_players ad_infos ad_host with_infos with_players]; [exact Hpm|exact Hsz| | | |exact Hn| |exact Hh].
  - intros id a Hid. destruct (decide (id = pi_pid i)) as [->|Hne]; [left; auto|]. rewrite Hother in Hid by exact Hne.
    destruct (Hp id a Hid) as [->|(j & Hj & Hjp)]; [now left|right]. exists j. rewrite lookup_delete_ne; [auto|]. intros <-. congruence.
  - intros a j Hj. apply lookup_delete_Some in Hj as [Hne Hj]. destruct (Hi a j Hj) as (Hz' & Had' & Hq' & x & Hx & Hin & Hd & Hsd). split; [exact Hz'|]. split; [exact Had'|]. split.
    + rewrite Hother; [exact Hq'|]. intros Heq. congruence.
    + exists x. split; [exact Hx|]. split; [|auto]. apply elem_of_cons in Hin as [->|Hin]; [congruence|exact Hin].
  - intros x Hx. destruct (Ht x ltac:(now right)) as (j & Hj & Hxj). exists j. rewrite lookup_delete_ne; [auto|]. intros Heq. rewrite <- Heq in Hj.
    destruct (Ht t ltac:(left)) as (j' & Hj' & Htj). assert (x = t) by congruence. subst x. contradiction.
  - intros x Hx. apply Hf. now right.
Qed.
Lemma checks_drop s m t l b i p : checks_ok s m (t :: l) b -> ad_infos s !! t_data t = Some i -> pm_ok p ->
  pm_abs p = delete (pi_pid i) (pm_abs (ad_players s)) -> checks_ok (with_infos (with_players s p) (delete (t_data t) (ad_infos s))) m l b.
Proof.
  intros Hck Hi Hp Habs. apply (checks_out s m t l b i p Hck Hi Hp); rewrite Habs.
  - pose proof (ck_size _ _ _ _ Hck). rewrite map_size_delete. destruct (pm_abs (ad_players s) !! pi_pid i); unfold Datatypes.id; lia.
  - intros x Hx. now apply lookup_delete_ne.
  - intros a Ha. now rewrite lookup_delete_eq in Ha.
Qed.

(** A structure gets another timer in place of the one that fired. *)
Lemma checks_renew s m m' t l b i x sended : checks_ok s m (t :: l) b -> ad_infos s !! t_data t = Some i ->
  t_data x = t_data t -> t_ptr x = t_fresh m -> t_next m' = t_next m -> t_fresh m' = t_fresh m + 1 -> pending m' ≡ₚ x :: pending m -> sends sended x ->
  checks_ok (with_infos s (<[t_data t := mk_info (pi_pid i) (Some x) sended]> (ad_infos s))) m' l b.
Proof.
  intros [Hm Hs Hp Hi Ht Hn Hf Hh] Ha Hxd Hxp Hnext Hfr Hpend Hsd. pose proof Hn as Hn0. apply list.NoDup_cons in Hn as [Htn Hn].
  assert (Hperm : l ++ pending m' ≡ₚ x :: l ++ pending m) by (rewrite Hpend; symmetry; apply Permutation_middle).
  assert (Hxin : x ∉ l ++ pending m) by (intros Hin; specialize (Hf x ltac:(now right)); lia).
  destruct (Hi _ _ Ha) as (Hz & Had & Hq & _).
  constructor; cbn [ad_players ad_infos ad_host with_infos]; [exact Hm|exact Hs| | | | | |rewrite Hnext; exact Hh].
  - intros id a Hid. destruct (Hp id a Hid) as [->|(j & Hj & Hpid)]; [now left|right]. destruct (decide (a = t_data t)) as [->|Hne].
    + rewrite lookup_insert_eq. eexists. split; [reflexivity|]. cbn. congruence.
    + rewrite lookup_insert_ne by congruence. eauto.
  - intros a j Hj. apply lookup_insert_Some in Hj as [[<- <-]|[Hne Hj]]; cbn [pi_pid pi_timer pi_sended].
    + split; [exact Hz|]. split; [exact Had|]. split; [exact Hq|]. exists x. split; [reflexivity|]. split; [rewrite Hperm; left|auto].
    + destruct (Hi a j Hj) as (Hz' & Had' & Hq' & y & Hy & Hin & Hd & Hsd'). split; [exact Hz'|]. split; [exact Had'|]. split; [exact Hq'|]. exists y. split; [exact Hy|].
      split; [|auto]. rewrite Hperm. right. apply elem_of_cons in Hin as [->|Hin]; [congruence|exact Hin].
  - intros y Hy. rewrite Hperm in Hy. apply elem_of_cons in Hy as [->|Hy]; [rewrite Hxd, lookup_insert_eq; eauto|].
    destruct (Ht y ltac:(now right)) as (j & Hj & Hyj). exists j. rewrite lookup_insert_ne; [auto|]. intros Heq. rewrite <- Heq in Hj.
    destruct (Ht t ltac:(left)) as (j' & Hj' & Htj). assert (y = t) by congruence. subst y. contradiction.
  - rewrite Hperm. apply list.NoDup_cons. now split.
  - intros y Hy. rewrite Hperm in Hy. apply elem_of_cons in Hy as [->|Hy]; [lia|]. specialize (Hf y ltac:(now right)). lia.
Qed.

Lemma checks_players s m l b p b' : checks_ok s m l b -> pm_ok p -> Z.of_nat (size (pm_abs p)) <= b' ->
  (forall a i, ad_infos s !! a = Some i -> pm_abs p !! pi_pid i = Some a) ->
  (forall id a, pm_abs p !! id = Some a -> a = adultPlayer \/ exists i, ad_infos s !! a = Some i /\ pi_pid i = id) -> checks_ok (with_players s p) m l b'.
Proof.
  intros [Hm Hs Hp Hi Ht Hn Hf Hh] Hpm Hsz Hinfo Hpl. constructor; try assumption. intros a i Ha. destruct (Hi a i Ha) as (Hz & Had & _ & Hx).
  split; [exact Hz|]. split; [exact Had|]. split; [exact (Hinfo a i Ha)|exact Hx].
Qed.

(** A player begins to be checked. *)
Lemma checks_enter s m m' l b id a x p : checks_ok s m l b -> ad_infos s !! a = None -> a <> 0 -> a <> adultPlayer -> pm_abs (ad_players s) !! id = None ->
  pm_ok p -> pm_abs p = <[id := a]> (pm_abs (ad_players s)) -> t_data x = a -> t_ptr x = t_fresh m -> t_next m' = t_next m -> t_fresh m' = t_fresh m + 1 ->
  pending m' ≡ₚ x :: pending m -> 1 < t_at x -> checks_ok (with_infos (with_players s p) (<[a := mk_info id (Some x) 0]> (ad_infos s))) m' l (b + 1).
Proof.
  intros [Hm Hs Hp Hi Ht Hn Hf Hh] Ha Hz Had Hid Hpm Habs Hxd Hxp Hnext Hfr Hpend Hat.
  assert (Hperm : l ++ pending m' ≡ₚ x :: l ++ pending m) by (rewrite Hpend; symmetry; apply Permutation_middle).
  constructor; cbn [ad_players ad_infos ad_host with_infos with_players]; [exact Hpm| | | | | | |rewrite Hnext; exact Hh].
  - rewrite Habs, map_size_insert_None by exact Hid. lia.
  - intros id' a' Hid'. rewrite Habs in Hid'. apply lookup_insert_Some in Hid' as [[<- <-]|[Hne Hid']].
    + right. eexists. rewrite lookup_insert_eq. split; reflexivity.
    + destruct (Hp id' a' Hid') as [->|(j & Hj & Hpid)]; [now left|right]. exists j. rewrite lookup_insert_ne; [auto|]. intros Heq. congruence.
  - intros a' j Hj. apply lookup_insert_Some in Hj as [[<- <-]|[Hne Hj]]; cbn [pi_pid pi_timer pi_sended].
    + split; [exact Hz|]. split; [exact Had|]. rewrite Habs, lookup_insert_eq. split; [reflexivity|]. exists x. split; [reflexivity|]. split; [rewrite Hperm; left|]. split; [exact Hxd|split; cbn; lia].
    + destruct (Hi a' j Hj) as (Hz' & Had' & Hq' & y & Hy & Hin & Hr). split; [exact Hz'|]. split; [exact Had'|]. split; [rewrite Habs, lookup_insert_ne; [exact Hq'|congruence]|].
      exists y. split; [exact Hy|]. split; [rewrite Hperm; now right|exact Hr].
  - intros y Hy. rewrite Hperm in Hy. apply elem_of_cons in Hy as [->|Hy]; [rewrite Hxd, lookup_insert_eq; eauto|].
    destruct (Ht y Hy) as (j & Hj & Hyj). exists j. rewrite lookup_insert_ne; [auto|]. intros Heq. congruence.
  - rewrite Hperm. apply list.NoDup_cons. split; [|exact Hn]. intros Hin. specialize (Hf x Hin). lia.
  - intros y Hy. rewrite Hperm in Hy. apply elem_of_cons in Hy as [->|Hy]; [lia|]. specialize (Hf y Hy). lia.
Qed.

(** ** What happens to one player *)

(** The player's next check is at [d] at the latest. *)
Definition watched (s : state) (id d : Z) : Prop :=
  exists a i x, pm_abs (ad_players s) !! id = Some a /\ ad_infos s !! a = Some i /\ pi_timer i = Some x /\ t_at x <= d.

(** Nothing of a player changes but what it has played, and messages are not taken back. *)
Definition kept (x : Z) (s s' : state) : Prop :=
  (forall d, watched s x d -> watched s' x d) /\ player_get_online (ad_host s') x = player_get_online (ad_host s) x /\
  (player_get_online (ad_host s) x = true -> pt_login (property_times (ad_host s') x) = pt_login (property_times (ad_host s) x)).
Definition told_more (s s' : state) : Prop := exists new, told (ad_host s') = told (ad_host s) ++ new.

Lemma kept_host x s e : unchanged (ad_host s) e x -> kept x s (with_host s e).
Proof. intros [Ho Ht]. split; [auto|]. split; [exact Ho|]. intros Hx. cbn [ad_host with_host]. now rewrite Ht. Qed.
Lemma kept_refl x s : kept x s s.
Proof. split; [auto|]. split; [reflexivity|auto]. Qed.
Lemma kept_trans x s s1 s2 : kept x s s1 -> kept x s1 s2 -> kept x s s2.
Proof. intros (Hw & Ho & Hl) (Hw' & Ho' & Hl'). split; [auto|]. split; [congruence|]. intros Hx. rewrite Hl' by congruence. auto. Qed.
Lemma told_refl s : told_more s s.
Proof. exists []. now rewrite app_nil_r. Qed.
Lemma told_same s s' : told (ad_host s') = told (ad_host s) -> told_more s s'.
Proof. intros Heq. exists []. now rewrite app_nil_r. Qed.
Lemma told_trans s s1 s2 : told_more s s1 -> told_more s1 s2 -> told_more s s2.
Proof. intros (n1 & E1) (n2 & E2). exists (n1 ++ n2). now rewrite E2, E1, app_assoc. Qed.

(** A player other than the one whose structure changes. *)
Lemma kept_change x s s' : (pm_abs (ad_players s') !! x = pm_abs (ad_players s) !! x) ->
  (forall a i, pm_abs (ad_players s) !! x = Some a -> ad_infos s !! a = Some i -> ad_infos s' !! a = Some i) -> unchanged (ad_host s) (ad_host s') x -> kept x s s'.
Proof.
  intros Hp Hi [Ho Ht]. split; [|split; [exact Ho|intros Hx; now rewrite Ht]]. intros d (a & i & y & Ha & Hai & Hy & Hd). exists a, i, y. rewrite Hp. eauto.
Qed.

(** ** The operations *)

(** The module's part of a logout, once the structure is found. *)
Lemma logout_found s m cur id a i m1 n : pm_ok (ad_players s) -> Z.of_nat (size (pm_abs (ad_players s))) < 2 ^ 61 -> pm_abs (ad_players s) !! id = Some a ->
  a <> 0 -> a <> adultPlayer -> ad_infos s !! a = Some i -> pi_pid i = id -> remove_timer m (pi_timer i) = Ret m1 -> host_ok (ad_host s) n ->
  exists p e, addicted_logout cfg adultPlayer s m cur id = Ret (with_host (with_infos (with_players s p) (delete a (ad_infos s))) e, m1) /\
    pm_ok p /\ pm_abs p = delete id (pm_abs (ad_players s)) /\ host_ok e n /\ told e = told (ad_host s) /\ forall x, x <> id -> unchanged (ad_host s) e x.
Proof.
  intros Hm Hsz Ha Hz Had Hi Hpid Hrm Hh. unfold addicted_logout.
  destruct (Z.eqb_spec (enable cfg) 0) as [Hen|_]; [now destruct (proj1 cfg_ok)|]. rewrite (pm_get_spec _ _ Hm), Ha. cbn [default from_option Datatypes.id mbind outcome_bind].
  rewrite (proj2 (Z.eqb_neq a 0) Hz), (proj2 (Z.eqb_neq a adultPlayer) Had). cbn [orb]. rewrite Hi. cbn [deref mbind outcome_bind]. rewrite Hrm. cbn [mbind outcome_bind].
  destruct (pm_set_spec (ad_players s) id 0 Hm Hsz) as (p & -> & Hp & Habs). cbn [Z.eqb mbind outcome_bind] in *. rewrite Hpid. cbn [ad_host with_infos with_players].
  destruct (player_get_online (ad_host s) id) eqn:Eo; cbn [negb].
  - destruct (pt_logout _ <? pt_login _).
    + exists p, (update_played (ad_host s) id (u32 (pt_played (property_times (ad_host s) id) + i32 (cur - pt_login (property_times (ad_host s) id))))). split; [reflexivity|].
      split; [exact Hp|]. split; [exact Habs|]. split; [apply host_ok_played; [exact Hh|apply Z.mod_pos_bound; lia]|].
      destruct (played_law (ad_host s) id (u32 (pt_played (property_times (ad_host s) id) + i32 (cur - pt_login (property_times (ad_host s) id))))) as [Htold Hl].
      split; [exact Htold|]. intros x Hx. destruct (Hl x) as [Ho Ht]. split; [exact Ho|]. intros Hxo. rewrite Ht by exact Hxo. now rewrite (proj2 (Z.eqb_neq x id) Hx).
    + exists p, (ad_host s). split; [reflexivity|]. repeat (split; [assumption|]). split; [reflexivity|]. intros x _. split; auto.
  - exists p, (ad_host s). split; [reflexivity|]. repeat (split; [assumption|]). split; [reflexivity|]. intros x _. split; auto.
Qed.

Lemma next_check_spec t now sended : times_ok now t -> 0 <= now < 2 ^ 31 -> PLAYED t now < kickTime cfg + 3 -> (sended = 0 -> now - pt_login t < 60) ->
  0 < next_check cfg (PLAYED t now) now (pt_login t) sended <= timer_max_sec /\ next_check cfg (PLAYED t now) now (pt_login t) sended <= kickTime cfg - PLAYED t now + 5.
Proof.
  intros [Hl Hp] Hnow Hk Hs. destruct cfg_ok as (_ & Hkt & Hnt). unfold next_check. unfold PLAYED in *. set (played := pt_played t + now - pt_login t) in *.
  pose proof (Z.rem_bound_abs played (notifyTime cfg) ltac:(lia)) as Hrem. rewrite (i32_small (kickTime cfg - played + 5)), (i32_small (notifyTime cfg - _)), (i32_small (60 - _)) by lia.
  unfold timer_max_sec, MAX_TIMER. destruct (Z.eqb_spec sended 0) as [Hz|Hz]; [specialize (Hs Hz)|]; ztests; lia.
Qed.

Lemma addicted_message_spec type x : exists v, addicted_message type x = Ret v /\ wf_amf v.
Proof.
  exists (AV amf_array 2 (PChild [Some (amf_new_integer (u32 type)); Some (amf_new_integer (u32 x))])). split; [reflexivity|].
  apply wf_array_intro; [vm_compute; split; discriminate| |repeat constructor]. intros c Hc.
  repeat (apply elem_of_cons in Hc as [[= ->]|Hc]; [constructor; apply Z.mod_pos_bound; lia|]). inversion Hc.
Qed.

Definition kicked (id : Z) (s s' : state) : Prop := exists new, told (ad_host s') = told (ad_host s) ++ new /\ (id, LOGOUT_ADDICTED) ∈ new.

Lemma info_of s m l b x a i : checks_ok s m l b -> pm_abs (ad_players s) !! x = Some a -> ad_infos s !! a = Some i -> pi_pid i = x.
Proof. intros Hck Ha Hi. destruct (ck_players _ _ _ _ Hck x a Ha) as [->|(j & Hj & Hp)]; [|congruence]. now destruct (ck_infos _ _ _ _ Hck _ _ Hi) as (_ & Hf & _). Qed.

(** Changes at one player's structure leave the others alone. *)
Lemma kept_others s m l b a i p h e : checks_ok s m l b -> ad_infos s !! a = Some i -> (forall x, x <> pi_pid i -> pm_abs p !! x = pm_abs (ad_players s) !! x) ->
  (forall a', a' <> a -> h !! a' = ad_infos s !! a') -> (forall x, x <> pi_pid i -> unchanged (ad_host s) e x) ->
  forall x, x <> pi_pid i -> kept x s (with_host (with_infos (with_players s p) h) e).
Proof.
  intros Hck Hi Hp Hh He x Hx. apply kept_change; cbn [ad_players ad_infos ad_host with_infos with_players with_host]; [auto| |auto].
  intros a' j Ha' Hj. rewrite Hh; [exact Hj|]. intros ->. apply Hx. rewrite <- (info_of s m l b x a j Hck Ha' Hj). congruence.
Qed.

Lemma checkPlayer_kick now s m t l b i p0 : wheel_ok m -> checks_ok s m (t :: l) b -> b < 2 ^ 61 -> ad_infos s !! t_data t = Some i ->
  let s0 := with_infos s (<[t_data t := mk_info (pi_pid i) None p0]> (ad_infos s)) in
  exists s', kickPlayer cfg adultPlayer s0 m now (pi_pid i) LOGOUT_ADDICTED = Ret (s', m) /\ checks_ok s' m l b /\ kicked (pi_pid i) s s' /\ (forall x, x <> pi_pid i -> kept x s s').
Proof.
  intros Hok Hck Hb Hi s0. destruct (ck_infos _ _ _ _ Hck _ _ Hi) as (Hz & Had & Hq & _). unfold kickPlayer.
  set (e0 := logout_respond (ad_host s0) (pi_pid i) LOGOUT_ADDICTED). destruct (respond_law (ad_host s0) (pi_pid i) LOGOUT_ADDICTED) as [Ht0 Hu0]. fold e0 in Ht0, Hu0.
  destruct (logout_found (with_host s0 e0) m now (pi_pid i) (t_data t) (mk_info (pi_pid i) None p0) m (t_next m) (ck_map _ _ _ _ Hck) ltac:(pose proof (ck_size _ _ _ _ Hck); cbn; lia) Hq Hz Had)
    as (p & e & -> & Hp & Habs & He & Hte & Hue); [apply lookup_insert_eq|reflexivity|reflexivity|eapply host_ok_unchanged; [exact (ck_host _ _ _ _ Hck)|exact Hu0]|].
  cbn [mbind outcome_bind ad_host with_host with_infos ad_infos s0]. rewrite delete_insert_eq.
  destruct (leave_law e (pi_pid i) now) as (Htl & Hul & _). eexists. split; [reflexivity|]. split; [|split].
  - apply (checks_host (with_infos (with_players s p) (delete (t_data t) (ad_infos s)))); [|now apply host_ok_leave]. now apply (checks_drop s m t l b i).
  - exists [(pi_pid i, LOGOUT_ADDICTED)]. split; [|left]. cbn [ad_host with_host] in *. rewrite Htl, Hte, Ht0. reflexivity.
  - apply (kept_others s m (t :: l) b (t_data t) i p (delete (t_data t) (ad_infos s)) (leave e (pi_pid i) now) Hck Hi).
    + intros x Hx. rewrite Habs. now apply lookup_delete_ne.
    + intros a Ha. now apply lookup_delete_ne.
    + intros x Hx. destruct (Hu0 x) as [Ho0 Hx0], (Hue x Hx) as [Ho1 Hx1], (Hul x Hx) as [Ho2 Hx2]. cbn [ad_host with_host with_infos s0] in *. split; [congruence|].
      intros Hon. rewrite Hx2, Hx1, Hx0; congruence.
Qed.

(** The message of a check, when there is one. *)
Lemma post_message (s : state) i type played now login : 0 <= pi_sended i < now -> now < 2 ^ 31 - 1 ->
  exists e sended,
    (if negb ((type =? 0) && (pi_sended i =? 0) && (now - login <? 60))
     then v ← addicted_message type played; e ← notification_set (ad_host s) (pi_pid i) NOTIFY_ADDICTED_CHANGE 0 (Some v); Ret (e, i32 (pi_sended i + 1))
     else Ret (ad_host s, pi_sended i)) = Ret (e, sended) /\
    told e = told (ad_host s) /\ (forall x, unchanged (ad_host s) e x) /\ 0 <= sended <= now /\ (sended = 0 -> now - login < 60).
Proof.
  intros Hs Hnow. destruct ((type =? 0) && (pi_sended i =? 0) && (now - login <? 60)) eqn:Ed; cbn [negb].
  - exists (ad_host s), (pi_sended i). split; [reflexivity|]. split; [reflexivity|]. split; [intros x; split; auto|]. split; [lia|]. intros _. apply andb_prop in Ed as [_ Ed]. now apply Z.ltb_lt.
  - destruct (addicted_message_spec type played) as (v & -> & Hv). cbn [mbind outcome_bind].
    destruct (notify_law (ad_host s) (pi_pid i) NOTIFY_ADDICTED_CHANGE 0 v Hv) as (e & -> & Hte & Hue). cbn [mbind outcome_bind]. exists e, (i32 (pi_sended i + 1)). split; [reflexivity|].
    split; [exact Hte|]. split; [exact Hue|]. rewrite i32_small by lia. split; lia.
Qed.

Lemma checkPlayer_spec now s m t l b : wheel_ok m -> t_at t = t_next m -> t_next m <= now < 2 ^ 31 - 1 -> checks_ok s m (t :: l) b -> b < 2 ^ 61 ->
  exists s' m' added i, ad_infos s !! t_data t = Some i /\ checkPlayer cfg adultPlayer now (t_at t) (t_data t) s m = Ret (s', m') /\ wheel_ok m' /\ t_next m' = t_next m /\
    pending m' ≡ₚ added ++ pending m /\ (forall x, x ∈ added -> t_next m < t_at x) /\ checks_ok s' m' l b /\ told_more s s' /\ (forall x, x <> pi_pid i -> kept x s s') /\
    (player_get_online (ad_host s) (pi_pid i) = true -> kicked (pi_pid i) s s' \/
       (unchanged (ad_host s) (ad_host s') (pi_pid i) /\
        let t := property_times (ad_host s) (pi_pid i) in watched s' (pi_pid i) (pt_login t + kickTime cfg + 5 - pt_played t))).
Proof.
  intros Hok Hat Hnow Hck Hb. pose proof (w_next _ Hok) as Hn0. destruct (ck_timers _ _ _ _ Hck t ltac:(left)) as (i & Hi & Hti).
  destruct (ck_infos _ _ _ _ Hck _ _ Hi) as (Hz & Had & Hq & x0 & Hx0 & _ & Hd0 & [Hsd Hat1]). assert (x0 = t) by congruence. subst x0. clear Hx0.
  pose proof (ck_map _ _ _ _ Hck) as Hm. pose proof (ck_size _ _ _ _ Hck) as Hsz. unfold checkPlayer. rewrite Hi. cbn [deref mbind outcome_bind].
  destruct (player_get_online (ad_host s) (pi_pid i)) eqn:Eo; cbn [negb].
  2:{ destruct (pm_set_spec (ad_players s) (pi_pid i) 0 Hm ltac:(lia)) as (p & -> & Hp & Habs). cbn [Z.eqb mbind outcome_bind] in *.
      exists (with_infos (with_players s p) (delete (t_data t) (ad_infos s))), m, [], i. split; [reflexivity|]. split; [reflexivity|]. split; [exact Hok|]. split; [reflexivity|]. split; [reflexivity|].
      split; [intros x Hx; inversion Hx|]. split; [now apply (checks_drop s m t l b i)|]. split; [now apply told_same|]. split; [|intros Heq; congruence].
      apply (kept_others s m (t :: l) b (t_data t) i p (delete (t_data t) (ad_infos s)) (ad_host s) Hck Hi); [|intros; now apply lookup_delete_ne|intros; split; auto].
      intros x Hx. rewrite Habs. now apply lookup_delete_ne. }
  destruct (ck_host _ _ _ _ Hck _ Eo) as [Hlog Hpl]. set (pt := property_times (ad_host s) (pi_pid i)) in *. destruct cfg_ok as (_ & Hkt & Hnt).
  replace (u32 (kickTime cfg + 3)) with (kickTime cfg + 3) by (symmetry; apply Z.mod_small; lia). destruct (Z.leb_spec (kickTime cfg + 3) (PLAYED pt (t_at t))).
  { rewrite (proj2 (Z.ltb_lt 0 _)) by lia. destruct (checkPlayer_kick now s m t l b i (pi_sended i) Hok Hck Hb Hi) as (s' & -> & Hck' & Hk & Hkp).
    exists s', m, [], i. split; [reflexivity|]. split; [reflexivity|]. split; [exact Hok|]. split; [reflexivity|]. split; [reflexivity|]. split; [intros x Hx; inversion Hx|]. split; [exact Hck'|].
    split; [destruct Hk as (new & Hn & _); now exists new|]. split; [exact Hkp|]. now left. }
  rewrite (proj2 (Z.eqb_neq (notifyTime cfg) 0)) by lia.
  set (type := if kickTime cfg <=? PLAYED pt (t_at t) then 2 else _).
  destruct (post_message s i type (PLAYED pt (t_at t)) (t_at t) (pt_login pt) ltac:(lia) ltac:(lia)) as (e & sended & He & Hte & Hue & Hsd' & Hz'). cbn [ad_host with_infos] in *.
  rewrite He. cbn [mbind outcome_bind]. clear He.
  destruct (next_check_spec pt (t_at t) sended ltac:(split; lia) ltac:(lia) ltac:(lia) Hz') as [Hstep Hkick]. set (step := next_check _ _ _ _ _) in *. unfold timer_max_sec, MAX_TIMER in Hstep.
  pose proof (timer_add_spec m (t_at t + step) (t_data t) Hok) as Hadd. rewrite (proj2 (Z.leb_le _ _)), (proj2 (Z.ltb_lt _ _)) in Hadd by (unfold MAX_TIMER; lia).
  cbn [andb] in Hadd. destruct Hadd as (m' & Hadd & Hok' & Hnext & Hpend). set (x := mk_timer (t_fresh m) (t_at t + step) (t_data t)) in *. destruct (timer_add_fresh _ _ _ _ _ Hadd) as [_ Hfr].
  rewrite Hadd. cbn [mbind outcome_bind ad_infos with_infos]. rewrite insert_insert_eq.
  exists (with_host (with_infos s (<[t_data t := mk_info (pi_pid i) (Some x) sended]> (ad_infos s))) e), m', [x], i. split; [reflexivity|]. split; [reflexivity|]. split; [exact Hok'|].
  split; [exact Hnext|]. split; [exact Hpend|]. split; [intros y Hy; apply list_elem_of_singleton in Hy as ->; cbn; lia|]. split; [|split; [|split]].
  - apply checks_host; [|rewrite Hnext; eapply host_ok_unchanged; [exact (ck_host _ _ _ _ Hck)|exact Hue]].
    apply (checks_renew s m m' t l b i x sended Hck Hi eq_refl eq_refl Hnext Hfr Hpend). split; cbn; lia.
  - now apply told_same.
  - apply (kept_others s m (t :: l) b (t_data t) i (ad_players s) _ e Hck Hi); [reflexivity|intros; now apply lookup_insert_ne|auto].
  - intros _. right. split; [apply Hue|]. exists (t_data t), (mk_info (pi_pid i) (Some x) sended), x. cbn [ad_players ad_infos with_host with_infos]. split; [exact Hq|].
    rewrite lookup_insert_eq. split; [reflexivity|]. split; [reflexivity|]. subst x. cbn [t_at]. unfold PLAYED in Hkick. fold pt. lia.
Qed.

(** A structure's timer leaves the wheel. *)
Lemma stop_timer s m b a i : wheel_ok m -> checks_ok s m [] b -> ad_infos s !! a = Some i ->
  exists x m1, t_data x = a /\ remove_timer m (pi_timer i) = Ret m1 /\ wheel_ok m1 /\ t_next m1 = t_next m /\ checks_ok s m1 [x] b.
Proof.
  intros Hok Hck Hi. destruct (ck_infos _ _ _ _ Hck _ _ Hi) as (_ & _ & _ & x & Hx & Hin & Hd & _). cbn [app] in Hin.
  destruct (timer_remove_spec m x Hok Hin (ck_nodup _ _ _ _ Hck)) as (m1 & He & Hok1 & Hn1 & Hf1 & Hp1). exists x, m1. split; [exact Hd|]. rewrite Hx. split; [exact He|]. split; [exact Hok1|].
  split; [exact Hn1|]. apply (checks_move s m [] b m1 [x] b Hck); [lia|lia|exact Hp1|lia].
Qed.

(** What the checked calls have in common: they return, and only the player they are about changes. *)
Definition fine (s : state) (m : manager) (b : Z) (except : Z -> Prop) (s' : state) (m' : manager) : Prop :=
  wheel_ok m' /\ t_next m' = t_next m /\ checks_ok s' m' [] (b + 1) /\ told_more s s' /\ forall x, ~ except x -> kept x s s'.

Lemma fine_refl s m b except : wheel_ok m -> checks_ok s m [] b -> fine s m b except s m.
Proof.
  intros Hok Hck. split; [exact Hok|]. split; [reflexivity|]. split; [apply (checks_move s m [] b m [] (b + 1) Hck); [lia|lia|reflexivity|lia]|]. split; [apply told_refl|]. intros x _. apply kept_refl.
Qed.

Lemma players_get s m l b id : checks_ok s m l b -> exists a, pm_get (ad_players s) id = Ret a /\
  (a = 0 /\ pm_abs (ad_players s) !! id = None \/ a = adultPlayer /\ pm_abs (ad_players s) !! id = Some a \/
   exists i, a <> 0 /\ a <> adultPlayer /\ pm_abs (ad_players s) !! id = Some a /\ ad_infos s !! a = Some i /\ pi_pid i = id).
Proof.
  intros Hck. rewrite (pm_get_spec _ _ (ck_map _ _ _ _ Hck)). destruct (pm_abs (ad_players s) !! id) as [a|] eqn:Ha; cbn; eexists; (split; [reflexivity|]); [|auto].
  destruct (ck_players _ _ _ _ Hck id a Ha) as [->|(i & Hi & Hp)]; [auto|]. right. right. exists i. destruct (ck_infos _ _ _ _ Hck _ _ Hi) as (Hz & Had & _). auto.
Qed.

Lemma logout_fine s m b cur id : wheel_ok m -> checks_ok s m [] b -> b < 2 ^ 60 ->
  exists s' m', addicted_logout cfg adultPlayer s m cur id = Ret (s', m') /\ fine s m b (eq id) s' m'.
Proof.
  intros Hok Hck Hb. destruct (players_get s m [] b id Hck) as (a & Hg & Hcase). destruct cfg_ok as [Hen _].
  destruct Hcase as [[-> Hn]|[[-> Ha]|(i & Hz & Had & Ha & Hi & Hp)]].
  1,2: exists s, m; split; [|now apply fine_refl]; unfold addicted_logout; apply Z.eqb_neq in Hen as ->; rewrite Hg; cbn [mbind outcome_bind]; rewrite ?Z.eqb_refl, ?orb_true_r; reflexivity.
  destruct (stop_timer s m b a i Hok Hck Hi) as (x & m1 & Hd & Hrm & Hok1 & Hn1 & Hck1).
  destruct (logout_found s m cur id a i m1 (t_next m) (ck_map _ _ _ _ Hck) ltac:(pose proof (ck_size _ _ _ _ Hck); lia) Ha Hz Had Hi Hp Hrm (ck_host _ _ _ _ Hck)) as (p & e & -> & Hpm & Habs & He & Hte & Hue).
  eexists _, m1. split; [reflexivity|]. split; [exact Hok1|]. split; [exact Hn1|]. subst a id. split; [|split].
  - apply checks_host; [|now rewrite Hn1]. apply (checks_move _ m1 [] b m1 [] (b + 1)); [|lia|lia|reflexivity|lia]. now apply (checks_drop s m1 x [] b i).
  - now apply told_same.
  - intros x' Hx'. apply (kept_others s m [] b (t_data x) i p _ e Hck Hi); [| |auto|congruence].
    + intros y Hy. rewrite Habs. now apply lookup_delete_ne.
    + intros y Hy. now apply lookup_delete_ne.
Qed.

Lemma login_fine s m b cur id : wheel_ok m -> checks_ok s m [] b -> b < 2 ^ 60 -> t_next m <= cur + 5 < t_next m + MAX_TIMER -> 0 <= cur ->
  exists s' m', addicted_login cfg adultPlayer malloc s m cur id = Ret (s', m') /\ fine s m b (fun _ => False) s' m' /\
    (pm_abs (ad_players s) !! id = None -> watched s' id (cur + 5)).
Proof.
  intros Hok Hck Hb Hcur Hc0. destruct (players_get s m [] b id Hck) as (a & Hg & Hcase). destruct cfg_ok as [Hen _]. unfold addicted_login. apply Z.eqb_neq in Hen as ->.
  rewrite Hg. cbn [mbind outcome_bind]. destruct Hcase as [[-> Hn]|[[-> Ha]|(i & Hz & Had & Ha & Hi & Hp)]].
  - rewrite (proj2 (Z.eqb_neq 0 adultPlayer)) by congruence. cbn [Z.eqb]. destruct (malloc_ok (ad_infos s)) as (Hfresh & Haz & Had). set (a := malloc (ad_infos s)) in *. apply Z.eqb_neq in Haz as Haz'. rewrite Haz'.
    destruct (pm_set_spec (ad_players s) id a (ck_map _ _ _ _ Hck) ltac:(pose proof (ck_size _ _ _ _ Hck); lia)) as (p & -> & Hpm & Habs). rewrite Haz' in Habs. cbn [mbind outcome_bind].
    pose proof (timer_add_spec m (cur + 5) a Hok) as Hadd. rewrite (proj2 (Z.leb_le _ _)), (proj2 (Z.ltb_lt _ _)) in Hadd by lia. cbn [andb] in Hadd.
    destruct Hadd as (m' & Hadd & Hok' & Hnext & Hpend). destruct (timer_add_fresh _ _ _ _ _ Hadd) as [_ Hfr]. rewrite Hadd. cbn [mbind outcome_bind].
    set (x := mk_timer (t_fresh m) (cur + 5) a) in *. eexists _, m'. split; [reflexivity|]. split.
    + split; [exact Hok'|]. split; [exact Hnext|]. split; [apply (checks_enter s m m' [] b id a x p Hck Hfresh Haz Had Hn Hpm Habs eq_refl eq_refl Hnext Hfr Hpend); cbn; lia|].
      split; [now apply told_same|]. intros y _. destruct (decide (y = id)) as [->|Hne].
      * split; [|split; [reflexivity|auto]]. intros d (a' & i & z & Ha' & _). congruence.
      * apply kept_change; cbn [ad_players ad_infos ad_host with_infos with_players]; [rewrite Habs; now apply lookup_insert_ne| |split; auto].
        intros a' j _ Hj. rewrite lookup_insert_ne; [exact Hj|congruence].
    + intros _. exists a, (mk_info id (Some x) 0), x. cbn [ad_players ad_infos with_infos with_players]. rewrite Habs, !lookup_insert_eq. repeat (split; [reflexivity|]). cbn. lia.
  - rewrite Z.eqb_refl. exists s, m. split; [reflexivity|]. split; [now apply fine_refl|congruence].
  - rewrite (proj2 (Z.eqb_neq a adultPlayer) Had), (proj2 (Z.eqb_neq a 0) Hz). exists s, m. split; [reflexivity|]. split; [now apply fine_refl|congruence].
Qed.

Lemma adult_fine s m b id : wheel_ok m -> checks_ok s m [] b -> b < 2 ^ 60 ->
  exists s' m', addicted_set_adult adultPlayer s m id = Ret (s', m') /\ fine s m b (eq id) s' m'.
Proof.
  intros Hok Hck Hb. destruct (players_get s m [] b id Hck) as (a & Hg & Hcase). unfold addicted_set_adult. rewrite Hg. cbn [mbind outcome_bind].
  pose proof (ck_size _ _ _ _ Hck) as Hsz. destruct (pm_set_spec (ad_players s) id adultPlayer (ck_map _ _ _ _ Hck) ltac:(lia)) as (p & Hset & Hpm & Habs).
  rewrite (proj2 (Z.eqb_neq adultPlayer 0) adult_not_null) in Habs.
  destruct Hcase as [[-> Hn]|[[-> Ha]|(i & Hz & Had & Ha & Hi & Hp)]].
  - rewrite (proj2 (Z.eqb_neq 0 adultPlayer)) by congruence. rewrite Hset. cbn [mbind outcome_bind Z.eqb]. eexists _, m. split; [reflexivity|]. split; [exact Hok|]. split; [reflexivity|]. split; [|split].
    + apply (checks_players s m [] b p (b + 1) Hck Hpm); rewrite Habs; [rewrite map_size_insert_None by exact Hn; lia| |].
      * intros a i Hi. destruct (ck_infos _ _ _ _ Hck _ _ Hi) as (_ & _ & Hq & _). rewrite lookup_insert_ne; [exact Hq|congruence].
      * intros x a Hx. apply lookup_insert_Some in Hx as [[_ <-]|[_ Hx]]; [now left|]. exact (ck_players _ _ _ _ Hck x a Hx).
    + now apply told_same.
    + intros x Hx. apply kept_change; cbn [ad_players ad_infos ad_host with_players]; [rewrite Habs; apply lookup_insert_ne; congruence|auto|split; auto].
  - rewrite Z.eqb_refl. exists s, m. split; [reflexivity|]. now apply fine_refl.
  - rewrite (proj2 (Z.eqb_neq a adultPlayer) Had), Hset. cbn [mbind outcome_bind]. rewrite (proj2 (Z.eqb_neq a 0) Hz). cbn [ad_infos with_players]. rewrite Hi. cbn [deref mbind outcome_bind].
    destruct (stop_timer s m b a i Hok Hck Hi) as (x & m1 & Hd & -> & Hok1 & Hn1 & Hck1). cbn [mbind outcome_bind]. eexists _, m1. split; [reflexivity|]. split; [exact Hok1|]. split; [exact Hn1|]. subst a id. split; [|split].
    + apply (checks_move _ m1 [] b m1 [] (b + 1)); [|lia|lia|reflexivity|lia]. apply (checks_out s m1 x [] b i p Hck1 Hi Hpm); rewrite Habs.
      * rewrite map_size_insert, Ha. unfold Datatypes.id. lia.
      * intros y Hy. apply lookup_insert_ne. congruence.
      * intros y Hy. rewrite lookup_insert_eq in Hy. congruence.
    + now apply told_same.
    + intros y Hy. apply (kept_others s m [] b (t_data x) i p (delete (t_data x) (ad_infos s)) (ad_host s) Hck Hi); [| |intros; split; auto|congruence].
      * intros z Hz'. rewrite Habs. apply lookup_insert_ne. congruence.
      * intros z Hz'. now apply lookup_delete_ne.
Qed.

Lemma minority_fine s m b cur id : wheel_ok m -> checks_ok s m [] b -> b < 2 ^ 60 -> t_next m <= cur + 5 < t_next m + MAX_TIMER -> 0 <= cur ->
  exists s' m', addicted_set_minority cfg adultPlayer malloc s m cur id = Ret (s', m') /\ fine s m b (fun _ => False) s' m'.
Proof.
  intros Hok Hck Hb Hcur Hc0. destruct (players_get s m [] b id Hck) as (a & Hg & Hcase). unfold addicted_set_minority. rewrite Hg. cbn [mbind outcome_bind].
  assert (Hno : (a = 0 \/ a = adultPlayer) -> (forall i a', ad_infos s !! a' = Some i -> pi_pid i <> id) -> exists s' m',
    ('(p, _) ← pm_set (ad_players s) id 0; addicted_login cfg adultPlayer malloc (with_players s p) m cur id) = Ret (s', m') /\ fine s m b (fun _ => False) s' m').
  { intros _ Hpid. pose proof (ck_size _ _ _ _ Hck) as Hsz. destruct (pm_set_spec (ad_players s) id 0 (ck_map _ _ _ _ Hck) ltac:(lia)) as (p & -> & Hpm & Habs). cbn [Z.eqb mbind outcome_bind] in *.
    assert (Hck1 : checks_ok (with_players s p) m [] b).
    { apply (checks_players s m [] b p b Hck Hpm); rewrite Habs.
      - rewrite map_size_delete. destruct (pm_abs (ad_players s) !! id); unfold Datatypes.id; lia.
      - intros a' i Hi. destruct (ck_infos _ _ _ _ Hck _ _ Hi) as (_ & _ & Hq & _). rewrite lookup_delete_ne; [exact Hq|]. intros Heq. exact (Hpid i a' Hi (eq_sym Heq)).
      - intros x a' Hx. apply lookup_delete_Some in Hx as [_ Hx]. exact (ck_players _ _ _ _ Hck x a' Hx). }
    destruct (login_fine (with_players s p) m b cur id Hok Hck1 Hb Hcur Hc0) as (s' & m' & -> & (Hok' & Hn' & Hck' & Ht' & Hk') & _). exists s', m'. split; [reflexivity|].
    split; [exact Hok'|]. split; [exact Hn'|]. split; [exact Hck'|]. split; [exact Ht'|]. intros x _. apply (kept_trans x s (with_players s p)); [|now apply Hk'].
    destruct (decide (x = id)) as [->|Hne].
    - split; [|split; [reflexivity|auto]]. intros d (a' & i & y & Ha' & Hi & _). destruct (Hpid i a' Hi). exact (info_of s m [] b id a' i Hck Ha' Hi).
    - apply kept_change; cbn [ad_players ad_infos ad_host with_players]; [rewrite Habs; now apply lookup_delete_ne|auto|split; auto]. }
  destruct Hcase as [[-> Hn]|[[-> Ha]|(i & Hz & Had & Ha & Hi & Hp)]].
  - cbn [Z.eqb negb andb]. apply Hno; [now left|]. intros i a' Hi <-. destruct (ck_infos _ _ _ _ Hck _ _ Hi) as (_ & _ & Hq & _). congruence.
  - rewrite Z.eqb_refl, andb_false_r. apply Hno; [now right|]. intros i a' Hi <-. destruct (ck_infos _ _ _ _ Hck _ _ Hi) as (_ & Hf & Hq & _). congruence.
  - rewrite (proj2 (Z.eqb_neq a adultPlayer) Had), (proj2 (Z.eqb_neq a 0) Hz). exists s, m. split; [reflexivity|]. now apply fine_refl.
Qed.

Lemma host_fine s m b e : wheel_ok m -> checks_ok s m [] b -> host_ok e (t_next m) -> (exists new, told e = told (ad_host s) ++ new) -> (forall x, kept x s (with_host s e)) ->
  fine s m b (fun _ => False) (with_host s e) m.
Proof.
  intros Hok Hck He Ht Hk. split; [exact Hok|]. split; [reflexivity|]. split; [|split; [exact Ht|intros x _; apply Hk]].
  apply checks_host; [|exact He]. apply (checks_move s m [] b m [] (b + 1) Hck); [lia|lia|reflexivity|lia].
Qed.

Lemma can_login_fine s m b cur id : wheel_ok m -> checks_ok s m [] b ->
  exists s' r, addicted_can_login cfg adultPlayer s cur id = Ret (s', r) /\ fine s m b (fun _ => False) s' m.
Proof.
  intros Hok Hck. destruct (players_get s m [] b id Hck) as (a & Hg & _). destruct cfg_ok as [Hen _]. unfold addicted_can_login. apply Z.eqb_neq in Hen as ->. rewrite Hg. cbn [mbind outcome_bind].
  destruct (a =? adultPlayer); [exists s, 1; split; [reflexivity|now apply fine_refl]|].
  destruct (get_law (ad_host s) id) as [Hu Ht]. destruct (player_get (ad_host s) id) as [e found]. cbn [fst] in *.
  assert (He : host_ok e (t_next m)) by (eapply host_ok_unchanged; [exact (ck_host _ _ _ _ Hck)|exact Hu]).
  assert (Hk : forall x, kept x s (with_host s e)) by (intros x; now apply kept_host).
  destruct found; cbn [negb]; [|exists (with_host s e), 1; split; [reflexivity|]; apply host_fine; auto; exists []; now rewrite app_nil_r].
  destruct (negb _ && _).
  - destruct (played_law e id 0) as [Htp Hp]. eexists (with_host s (update_played e id 0)), _. split; [reflexivity|]. apply host_fine; [exact Hok|exact Hck|apply host_ok_played; [exact He|lia]|exists []; rewrite app_nil_r; congruence|].
    intros x. apply (kept_trans x s (with_host s e)); [apply Hk|]. destruct (Hp x) as [Ho Hx]. split; [auto|]. split; [exact Ho|]. intros Hon. cbn [ad_host with_host] in *. rewrite Hx by exact Hon. destruct (x =? id); reflexivity.
  - eexists (with_host s e), _. split; [reflexivity|]. apply host_fine; auto. exists []. now rewrite app_nil_r.
Qed.

Lemma notify_fine s m b cur id : wheel_ok m -> checks_ok s m [] b ->
  exists s', addicted_notify adultPlayer s cur id = Ret s' /\ fine s m b (fun _ => False) s' m.
Proof.
  intros Hok Hck. destruct (players_get s m [] b id Hck) as (a & Hg & Hcase). unfold addicted_notify. rewrite Hg. cbn [mbind outcome_bind].
  destruct Hcase as [[-> Hn]|[[-> Ha]|(i & Hz & Had & Ha & Hi & Hp)]].
  1,2: exists s; split; [rewrite ?Z.eqb_refl, ?orb_true_r; reflexivity|now apply fine_refl].
  rewrite (proj2 (Z.eqb_neq a adultPlayer) Had), (proj2 (Z.eqb_neq a 0) Hz). cbn [orb]. rewrite Hi. cbn [deref mbind outcome_bind]. destruct (Z.ltb_spec 0 (pi_sended i)); [exists s; split; [reflexivity|now apply fine_refl]|].
  destruct (ck_infos _ _ _ _ Hck _ _ Hi) as (_ & _ & Hq & x & Hx & Hin & Hd & [Hs Hat]). replace (pi_sended i) with 0 by lia.
  set (played := Z.quot _ 3600). destruct (addicted_message_spec 0 played) as (v & -> & Hv). cbn [mbind outcome_bind].
  destruct (notify_law (ad_host s) (pi_pid i) NOTIFY_ADDICTED_CHANGE 0 v Hv) as (e & -> & Hte & Hue). cbn [mbind outcome_bind].
  change (i32 (0 + 1)) with 1. eexists. split; [reflexivity|]. split; [exact Hok|]. split; [reflexivity|]. split; [|split].
  - apply checks_host; [|eapply host_ok_unchanged; [exact (ck_host _ _ _ _ Hck)|exact Hue]]. destruct Hck as [Hm Hsz Hpl Hif Hti Hnd Hfr Hh].
    constructor; cbn [ad_players ad_infos ad_host with_infos]; [exact Hm|lia| | | |exact Hnd|exact Hfr|exact Hh].
    + intros y a' Hy. destruct (Hpl y a' Hy) as [->|(j & Hj & Hjp)]; [now left|right]. destruct (decide (a' = a)) as [->|Hne].
      * rewrite lookup_insert_eq. eexists. split; [reflexivity|]. cbn. congruence.
      * rewrite lookup_insert_ne by congruence. eauto.
    + intros a' j Hj. apply lookup_insert_Some in Hj as [[<- <-]|[_ Hj]]; [|now apply Hif]. cbn [pi_pid pi_timer pi_sended].
      split; [exact Hz|]. split; [exact Had|]. split; [exact Hq|]. exists x. split; [exact Hx|]. split; [exact Hin|]. split; [exact Hd|]. split; lia.
    + intros y Hy. destruct (Hti y Hy) as (j & Hj & Hyj). destruct (decide (t_data y = a)) as [Heq|Hne].
      * rewrite Heq, lookup_insert_eq. eexists. split; [reflexivity|]. cbn. congruence.
      * rewrite lookup_insert_ne by congruence. eauto.
  - now apply told_same.
  - intros y _. destruct (Hue y) as [Ho Ht]. split; [|split; [exact Ho|intros Hon; cbn [ad_host with_host]; now rewrite Ht]].
    intros d (a' & j & z & Ha' & Hj & Hz' & Hle). cbn [ad_players ad_infos with_host with_infos]. unfold watched. cbn [ad_players ad_infos with_host with_infos]. destruct (decide (a' = a)) as [->|Hne].
    + exists a, (mk_info (pi_pid i) (pi_timer i) 1), z. rewrite lookup_insert_eq. split; [exact Ha'|]. split; [reflexivity|]. cbn. split; [congruence|exact Hle].
    + exists a', j, z. rewrite lookup_insert_ne by congruence. auto.
Qed.

(** ** The clock *)

(** Player [id], whose login was not after [L], is checked by [d] at the latest or has been told to leave since [base]. *)
Definition fate (id d L : Z) (base : list (Z * Z)) (s : state) : Prop :=
  exists new, told (ad_host s) = base ++ new /\
    ((id, LOGOUT_ADDICTED) ∈ new \/
     watched s id d /\ player_get_online (ad_host s) id = true /\ pt_login (property_times (ad_host s) id) <= L).

Lemma fate_kept id d L base s s' : kept id s s' -> told_more s s' -> fate id d L base s -> fate id d L base s'.
Proof.
  intros (Hw & Ho & Hl) (n2 & E2) (n1 & E1 & Hc). exists (n1 ++ n2). rewrite E2, E1, app_assoc. split; [reflexivity|]. destruct Hc as [Hc|(Hwd & Hon & Hlg)]; [left; apply elem_of_app; now left|right].
  rewrite Ho, Hl by exact Hon. auto.
Qed.

Lemma checks_tame now b (F : Prop) id d L base : now < 2 ^ 31 - 1 -> b < 2 ^ 61 -> L + kickTime cfg + 5 <= d ->
  tame (checkPlayer cfg adultPlayer now) now
    (fun s m l => checks_ok s m l b /\ (exists new, told (ad_host s) = base ++ new) /\ (F -> fate id d L base s)).
Proof.
  intros Hnow Hb Hd. constructor.
  - intros s m m' l l' [Hck Hf] Hn Hfr Hp. split; [|exact Hf]. apply (checks_move s m l b m' l' b Hck); [exact Hn|lia|exact Hp|lia].
  - intros s m t l Hok Hat Hle (Hck & [n0 E0] & Hf). destruct (checkPlayer_spec now s m t l b Hok Hat ltac:(lia) Hck Hb) as (s' & m' & added & i & Hi & He & Hok' & Hn' & Hp' & Hadd & Hck' & [n2 E2] & Hother & Hself).
    exists s', m', added, []. rewrite app_nil_r. split; [exact He|]. split; [exact Hok'|]. split; [exact Hn'|]. split; [exact Hp'|]. split; [exact Hadd|]. split; [exact Hck'|].
    split; [exists (n0 ++ n2); now rewrite E2, E0, app_assoc|]. intros HF. specialize (Hf HF).
    destruct (decide (id = pi_pid i)) as [->|Hne]; [|apply (fate_kept id d L base s); [now apply Hother|now exists n2|exact Hf]].
    destruct Hf as (n1 & E1 & Hc). exists (n1 ++ n2). rewrite E2, E1, app_assoc. split; [reflexivity|]. destruct Hc as [Hc|(Hwd & Hon & Hlg)]; [left; apply elem_of_app; now left|].
    destruct (Hself Hon) as [(n3 & E3 & Hin)|([Ho Ht] & a & j & x & Ha & Hj & Hx & Hxd)].
    + left. apply elem_of_app. right. rewrite E2 in E3. apply app_inv_head in E3. now subst.
    + right. rewrite Ho, Ht by exact Hon. split; [|auto]. exists a, j, x. split; [exact Ha|]. split; [exact Hj|]. split; [exact Hx|]. destruct (ck_host _ _ _ _ Hck _ Hon) as [_ Hpl]. lia.
Qed.

(** ** Runs *)

(** The calls on the module with their times; between them the rest of the program does its own work. *)
Inductive call :=
| Login (cur id : Z) | Logout (cur id : Z) | SetAdult (id : Z) | SetMinority (cur id : Z) | CanLogin (cur id : Z) | Notice (cur id : Z)
| Update (now : Z) | Outside (f : E -> E).

Definition call_step (s : state) (m : manager) (c : call) : outcome (state * manager) :=
  match c with
  | Login cur id => addicted_login cfg adultPlayer malloc s m cur id
  | Logout cur id => addicted_logout cfg adultPlayer s m cur id
  | SetAdult id => addicted_set_adult adultPlayer s m id
  | SetMinority cur id => addicted_set_minority cfg adultPlayer malloc s m cur id
  | CanLogin cur id => '(s, _) ← addicted_can_login cfg adultPlayer s cur id; Ret (s, m)
  | Notice cur id => s ← addicted_notify adultPlayer s cur id; Ret (s, m)
  | Update now => '(s, m, _) ← module_timer_update (checkPlayer cfg adultPlayer now) s m now; Ret (s, m)
  | Outside f => Ret (with_host s (f (ad_host s)), m)
  end.
Fixpoint calls_run (s : state) (m : manager) (cs : list call) : outcome (state * manager) :=
  match cs with [] => Ret (s, m) | c :: cs' => '(s, m) ← call_step s m c; calls_run s m cs' end.

(** The wheel is at [n], and the current time is near it: a timer in five seconds is within its hour. *)
Definition call_ok (n : Z) (c : call) : Prop :=
  match c with
  | Login cur _ | SetMinority cur _ => n <= cur + 5 < n + MAX_TIMER /\ 0 <= cur
  | Update now => now < 2 ^ 31 - 1
  | Outside f => forall e, host_ok e n -> host_ok (f e) n /\ told (f e) = told e
  | _ => True
  end.
Definition wheel_after (n : Z) (c : call) : Z := match c with Update now => Z.max n (now + 1) | _ => n end.
Fixpoint calls_ok (n : Z) (cs : list call) : Prop := match cs with [] => True | c :: cs' => call_ok n c /\ calls_ok (wheel_after n c) cs' end.

(** The player [id] stays online with a login not after [L]; nobody logs it out or makes it an adult. *)
Definition stays (id L : Z) (c : call) : Prop :=
  match c with
  | Logout _ x | SetAdult x => x <> id
  | Outside f => forall e, player_get_online e id = true -> pt_login (property_times e id) <= L ->
      player_get_online (f e) id = true /\ pt_login (property_times (f e) id) <= L
  | _ => True
  end.

Lemma outside_fate f id d L base s : stays id L (Outside f) -> told (f (ad_host s)) = told (ad_host s) -> fate id d L base s ->
  fate id d L base (with_host s (f (ad_host s))).
Proof.
  intros Hst E2 (n1 & E1 & Hc). exists n1. cbn [ad_host with_host]. rewrite E2. split; [exact E1|].
  destruct Hc as [Hc|(Hw & Hon & Hl)]; [now left|right]. destruct (Hst _ Hon Hl). auto.
Qed.

(** What a call promises. *)
Definition called (s : state) m b c s' m' : Prop :=
  wheel_ok m' /\ t_next m' = wheel_after (t_next m) c /\ checks_ok s' m' [] (b + 1) /\ told_more s s' /\
  (forall now, c = Update now -> forall x, x ∈ pending m' -> now < t_at x) /\
  forall id d L base, L + kickTime cfg + 5 <= d -> stays id L c -> fate id d L base s -> fate id d L base s'.

Lemma fine_called s m b c except s' m' : fine s m b except s' m' -> wheel_after (t_next m) c = t_next m -> (forall now, c <> Update now) ->
  (forall id L, stays id L c -> ~ except id) -> called s m b c s' m'.
Proof.
  intros (Hok' & Hn' & Hck' & Ht & Hk) Hw Hu Hex. unfold called. rewrite Hw. split; [exact Hok'|]. split; [exact Hn'|]. split; [exact Hck'|]. split; [exact Ht|].
  split; [intros now Heq; now destruct (Hu now)|]. intros id d L base _ Hst Hf. apply (fate_kept id d L base s); [|exact Ht|exact Hf]. apply Hk. now apply (Hex id L).
Qed.

Lemma update_called s m b now : wheel_ok m -> checks_ok s m [] b -> b < 2 ^ 60 -> now < 2 ^ 31 - 1 ->
  exists s' m', call_step s m (Update now) = Ret (s', m') /\ called s m b (Update now) s' m'.
Proof.
  intros Hok Hck Hb Hnow. cbn [call_step].
  assert (Hrun : forall (F : Prop) id d L base, L + kickTime cfg + 5 <= d -> (exists new, told (ad_host s) = base ++ new) -> (F -> fate id d L base s) ->
    exists s' m' log, module_timer_update (checkPlayer cfg adultPlayer now) s m now = Ret (s', m', log) /\ wheel_ok m' /\ checks_ok s' m' [] b /\
      (exists new, told (ad_host s') = base ++ new) /\ (F -> fate id d L base s') /\ t_next m' = Z.max (t_next m) (now + 1) /\ forall x, x ∈ pending m' -> now < t_at x).
  { intros F id d L base Hd Hbase HF. destruct (update_spec _ _ s m now Hok (checks_tame now b F id d L base Hnow ltac:(lia) Hd) (conj Hck (conj Hbase HF)))
      as (s' & m' & log & added & removed & He & Hok' & (Hck' & Hb' & HF') & Hn' & _ & _ & Hlate). exists s', m', log. auto 10. }
  destruct (Hrun False 0 (kickTime cfg + 5) 0 (told (ad_host s)) ltac:(lia)) as (s' & m' & log & He & Hok' & Hck' & Ht & _ & Hn' & Hlate); [exists []; now rewrite app_nil_r|contradiction|].
  exists s', m'. rewrite He. cbn [mbind outcome_bind]. split; [reflexivity|]. split; [exact Hok'|]. split; [exact Hn'|].
  split; [apply (checks_move s' m' [] b m' [] (b + 1) Hck'); [lia|lia|reflexivity|lia]|]. split; [exact Ht|]. split; [intros n0 [= <-]; exact Hlate|].
  intros id d L base Hd _ Hf. destruct (Hrun True id d L base Hd) as (s2 & m2 & log2 & He2 & _ & _ & _ & Hf2 & _); [destruct Hf as (n1 & E1 & _); eauto|auto|].
  rewrite He in He2. injection He2 as <- <- <-. auto.
Qed.

Lemma call_spec s m b c : wheel_ok m -> checks_ok s m [] b -> b < 2 ^ 60 -> call_ok (t_next m) c -> exists s' m', call_step s m c = Ret (s', m') /\ called s m b c s' m'.
Proof.
  intros Hok Hck Hb Hc. destruct c as [cur id|cur id|id|cur id|cur id|cur id|now|f]; cbn [call_ok] in Hc; [| | | | | |now apply update_called|].
  - destruct (login_fine s m b cur id Hok Hck Hb (proj1 Hc) (proj2 Hc)) as (s' & m' & He & Hf & _). exists s', m'. split; [exact He|]. eapply fine_called; [exact Hf|reflexivity|discriminate|auto].
  - destruct (logout_fine s m b cur id Hok Hck Hb) as (s' & m' & He & Hf). exists s', m'. split; [exact He|]. eapply fine_called; [exact Hf|reflexivity|discriminate|exact (fun _ _ Hs => Hs)].
  - destruct (adult_fine s m b id Hok Hck Hb) as (s' & m' & He & Hf). exists s', m'. split; [exact He|]. eapply fine_called; [exact Hf|reflexivity|discriminate|exact (fun _ _ Hs => Hs)].
  - destruct (minority_fine s m b cur id Hok Hck Hb (proj1 Hc) (proj2 Hc)) as (s' & m' & He & Hf). exists s', m'. split; [exact He|]. eapply fine_called; [exact Hf|reflexivity|discriminate|auto].
  - destruct (can_login_fine s m b cur id Hok Hck) as (s' & r & He & Hf). exists s', m. split; [cbn [call_step]; now rewrite He|]. eapply fine_called; [exact Hf|reflexivity|discriminate|auto].
  - destruct (notify_fine s m b cur id Hok Hck) as (s' & He & Hf). exists s', m. split; [cbn [call_step]; now rewrite He|]. eapply fine_called; [exact Hf|reflexivity|discriminate|auto].
  - destruct (Hc _ (ck_host _ _ _ _ Hck)) as [Hh Ht]. exists (with_host s (f (ad_host s))), m. split; [reflexivity|]. split; [exact Hok|]. split; [reflexivity|].
    split; [apply checks_host; [|exact Hh]; apply (checks_move s m [] b m [] (b + 1) Hck); [lia|lia|reflexivity|lia]|]. split; [now apply told_same|]. split; [discriminate|].
    intros id d L base _ Hst Hf. now apply outside_fate.
Qed.

Lemma calls_spec cs : forall s m b, wheel_ok m -> checks_ok s m [] b -> b + zlen cs < 2 ^ 60 -> calls_ok (t_next m) cs ->
  exists s' m', calls_run s m cs = Ret (s', m') /\ wheel_ok m' /\ checks_ok s' m' [] (b + zlen cs) /\ t_next m' = fold_left wheel_after cs (t_next m) /\ told_more s s' /\
    forall id d L base, L + kickTime cfg + 5 <= d -> Forall (stays id L) cs -> fate id d L base s -> fate id d L base s'.
Proof.
  induction cs as [|c cs IH]; intros s m b Hok Hck Hb Hc; cbn [calls_run calls_ok fold_left] in *.
  - exists s, m. split; [reflexivity|]. split; [exact Hok|]. split; [apply (checks_move s m [] b m [] _ Hck); [lia|lia|reflexivity|unfold zlen; cbn; lia]|]. split; [reflexivity|]. split; [apply told_refl|auto].
  - rewrite zlen_cons in *. pose proof (zlen_nonneg cs). destruct Hc as [Hc Hcs]. destruct (call_spec s m b c Hok Hck ltac:(lia) Hc) as (s1 & m1 & -> & Hok1 & Hn1 & Hck1 & Ht1 & _ & Hf1). cbn [mbind outcome_bind].
    destruct (IH s1 m1 (b + 1) Hok1 Hck1 ltac:(lia) ltac:(now rewrite Hn1)) as (s2 & m2 & -> & Hok2 & Hck2 & Hn2 & Ht2 & Hf2). exists s2, m2. split; [reflexivity|]. split; [exact Hok2|].
    split; [apply (checks_move s2 m2 [] _ m2 [] _ Hck2); [lia|lia|reflexivity|lia]|]. split; [now rewrite Hn2, Hn1|]. split; [now apply (told_trans s s1 s2)|].
    intros id d L base Hd Hst Hf. apply list.Forall_cons in Hst as [Hst Hsts]. eauto.
Qed.

Lemma parse_adult_spec rows : forall (p : M) b, pm_ok p -> Z.of_nat (size (pm_abs p)) <= b -> b + zlen rows < 2 ^ 61 -> exists p', parse_adult p rows = Ret p' /\ pm_ok p'.
Proof.
  induction rows as [|x rows IH]; intros p b Hp Hs Hb; cbn [parse_adult]; [eauto|]. rewrite zlen_cons in Hb. pose proof (zlen_nonneg rows).
  destruct (pm_set_spec p x 1 Hp ltac:(lia)) as (p' & -> & Hp' & Habs). cbn [mbind outcome_bind Z.eqb] in *. apply (IH p' (b + 1) Hp'); [|lia].
  rewrite Habs, map_size_insert. destruct (pm_abs p !! x); unfold Datatypes.id; lia.
Qed.

Lemma addicted_load_spec map_new rows e n : pm_ok map_new -> pm_abs map_new = ∅ -> host_ok e n -> 0 <= n -> zlen rows < 2 ^ 60 ->
  exists s, module_addicted_load map_new rows e = Ret s /\ checks_ok s (module_timer_load n 0) [] 0 /\ ad_host s = e /\ ad_players s = map_new.
Proof.
  intros Hm Hm0 He Hn Hr. destruct (parse_adult_spec rows map_new 0 Hm) as (y & Hy & _); [rewrite Hm0, map_size_empty; reflexivity|lia|]. unfold module_addicted_load. rewrite Hy. cbn [mbind outcome_bind].
  eexists. split; [reflexivity|]. split; [|split; reflexivity]. destruct (module_timer_load_ok n 0 Hn) as [_ Hp]. constructor; cbn [ad_players ad_infos ad_host app]; rewrite ?Hp, ?Hm0.
  - exact Hm.
  - rewrite map_size_empty. reflexivity.
  - intros id a Ha. now rewrite lookup_empty in Ha.
  - intros a i Ha. now rewrite lookup_empty in Ha.
  - intros x Hx. inversion Hx.
  - constructor.
  - intros x Hx. inversion Hx.
  - exact He.
Qed.

Lemma minor_told s m b cur id L cs now : wheel_ok m -> checks_ok s m [] b -> pm_get (ad_players s) id = Ret 0 -> player_get_online (ad_host s) id = true -> pt_login (property_times (ad_host s) id) <= L ->
  calls_ok (t_next m) (Login cur id :: cs ++ [Update now]) -> Forall (stays id L) cs -> cur + 5 <= now -> L + kickTime cfg + 5 <= now -> b + zlen cs < 2 ^ 59 ->
  exists s' m', calls_run s m (Login cur id :: cs ++ [Update now]) = Ret (s', m') /\ exists new, told (ad_host s') = told (ad_host s) ++ new /\ (id, LOGOUT_ADDICTED) ∈ new.
Proof.
  intros Hok Hck Hg Hon Hl [[Hcur Hc0] Hcs] Hst Hnow Hkt Hb. pose proof (zlen_nonneg cs). cbn [calls_run call_step wheel_after] in *.
  assert (Hb0 : b < 2 ^ 60) by lia. assert (Hnone : pm_abs (ad_players s) !! id = None).
  { rewrite (pm_get_spec _ _ (ck_map _ _ _ _ Hck)) in Hg. injection Hg as Hg. destruct (pm_abs (ad_players s) !! id) as [a|] eqn:Ha; [|reflexivity]. cbn in Hg. subst a.
    destruct (ck_players _ _ _ _ Hck id 0 Ha) as [Hz|(i & Hi & _)]; [congruence|]. now destruct (ck_infos _ _ _ _ Hck _ _ Hi). }
  destruct (login_fine s m b cur id Hok Hck Hb0 Hcur Hc0) as (s1 & m1 & -> & (Hok1 & Hn1 & Hck1 & [n1 E1] & Hk1) & Hw1). cbn [mbind outcome_bind]. specialize (Hw1 Hnone).
  set (d := Z.max (cur + 5) (L + kickTime cfg + 5)). destruct (Hk1 id ltac:(auto)) as (_ & Ho1 & Hl1).
  assert (Hf1 : fate id d L (told (ad_host s)) s1).
  { exists n1. split; [exact E1|]. right. rewrite Ho1, Hl1 by exact Hon. split; [|auto]. destruct Hw1 as (a & i & x & Ha & Hi & Hx & Hxd). exists a, i, x. repeat (split; [assumption|]). lia. }
  assert (Hsplit : forall cs n, calls_ok n (cs ++ [Update now]) -> calls_ok n cs /\ now < 2 ^ 31 - 1).
  { induction cs0 as [|c cs0 IH]; intros n Hc; [split; [exact I|exact (proj1 Hc)]|]. destruct Hc as [Hc Hc']. destruct (IH _ Hc'). now split. }
  assert (Hrun : forall cs s m s' m', calls_run s m cs = Ret (s', m') -> calls_run s m (cs ++ [Update now]) = ('(s, m) ← call_step s' m' (Update now); Ret (s, m))).
  { induction cs0 as [|c cs0 IH]; intros s0 m0 s0' m0' Hr; [injection Hr as <- <-; reflexivity|]. cbn [calls_run app] in *. destruct (call_step s0 m0 c) as [[s9 m9]| | |]; try discriminate. exact (IH _ _ _ _ Hr). }
  destruct (Hsplit cs _ Hcs) as [Hcs' Hnow31]. rewrite <- Hn1 in Hcs'.
  destruct (calls_spec cs s1 m1 (b + 1) Hok1 Hck1 ltac:(lia) Hcs') as (s2 & m2 & He2 & Hok2 & Hck2 & _ & _ & Hf2). rewrite (Hrun _ _ _ _ _ He2).
  destruct (update_called s2 m2 (b + 1 + zlen cs) now Hok2 Hck2 ltac:(lia) Hnow31) as (s3 & m3 & -> & Hok3 & _ & Hck3 & _ & Hlate & Hf3). cbn [mbind outcome_bind]. exists s3, m3. split; [reflexivity|].
  destruct (Hf3 id d L (told (ad_host s)) ltac:(lia) I (Hf2 id d L _ ltac:(lia) Hst Hf1)) as (new & En & [Hin|(Hw & _)]); [eauto|exfalso].
  destruct Hw as (a & i & x & Ha & Hi & Hx & Hxd). destruct (ck_infos _ _ _ _ Hck3 _ _ Hi) as (_ & _ & _ & y & Hy & Hpend & _). assert (y = x) as -> by congruence. specialize (Hlate now eq_refl x Hpend). lia.
Qed.
End Theory.

(** C23: Minors are told to leave.  From the loading of the module on, every sequence of logins, logouts, adults and
    minors declared, checks and ticks of the clock returns - no structure is used after it was freed, no timer
    outlives its structure - whatever the rest of the program does in between.  A player that is online when it
    begins to be checked, stays online with a login not after [L], and is neither logged out nor declared an adult has been
    told to leave at the latest by the first tick that is five seconds after the beginning of the checks and
    [kickTime] and five seconds after [L]. *)
Theorem minors_told_to_leave {M E : Type} `{PtrMapLaws M} `{HostLaws E} (cfg : AddictedConfig) (adultPlayer : Z) (malloc : gmap Z PlayerAddictedInfo -> Z) (map_new : M) rows (e : E) start cs :
  adultPlayer <> 0 -> (forall h, h !! malloc h = None /\ malloc h <> 0 /\ malloc h <> adultPlayer) ->
  enable cfg <> 0 /\ 0 <= kickTime cfg < 2 ^ 30 /\ 0 < notifyTime cfg < 2 ^ 30 ->
  pm_ok map_new -> pm_abs map_new = ∅ -> host_ok e start -> 0 <= start -> zlen rows < 2 ^ 60 -> zlen cs < 2 ^ 58 -> calls_ok start cs ->
  exists s0 s m, module_addicted_load map_new rows e = Ret s0 /\ calls_run cfg adultPlayer malloc s0 (module_timer_load start 0) cs = Ret (s, m) /\
    forall cur id L cs2 now, pm_get (ad_players s) id = Ret 0 -> player_get_online (ad_host s) id = true -> pt_login (property_times (ad_host s) id) <= L ->
      calls_ok (t_next m) (Login cur id :: cs2 ++ [Update now]) -> Forall (stays id L) cs2 -> cur + 5 <= now -> L + kickTime cfg + 5 <= now -> zlen cs2 < 2 ^ 58 ->
      exists s' m', calls_run cfg adultPlayer malloc s m (Login cur id :: cs2 ++ [Update now]) = Ret (s', m') /\
        exists new, told (ad_host s') = told (ad_host s) ++ new /\ (id, LOGOUT_ADDICTED) ∈ new.
Proof.
  intros Had Hmal Hcfg Hm Hm0 He Hst Hrows Hcs Hok. destruct (addicted_load_spec cfg adultPlayer Hcfg map_new rows e start Hm Hm0 He Hst Hrows) as (s0 & Hl & Hck & _ & _).
  destruct (module_timer_load_ok start 0 Hst) as [Hw _].
  destruct (calls_spec cfg adultPlayer malloc Had Hmal Hcfg cs s0 (module_timer_load start 0) 0 Hw Hck ltac:(lia) Hok) as (s & m & Hr & Hw' & Hck' & _). exists s0, s, m. split; [exact Hl|]. split; [exact Hr|].
  intros cur id L cs2 now Hg Hon Hlg Hcs2 Hstay Hcur Hkt Hlen. apply (minor_told cfg adultPlayer malloc Had Hmal Hcfg s m (0 + zlen cs) cur id L cs2 now Hw' Hck' Hg Hon Hlg Hcs2 Hstay Hcur Hkt). lia.
Qed.

(** The rest of the program as tables of the players that are online and of their times. *)
Record sample_host := mk_sample { sh_online : list Z; sh_times : gmap Z play_times; sh_told : list (Z * Z) }.
Definition sample_times (e : sample_host) (x : Z) : play_times := default (mk_times 0 0 0) (sh_times e !! x).
Definition sample_set (e : sample_host) (x : Z) (t : play_times) : sample_host := mk_sample (sh_online e) (<[x := t]> (sh_times e)) (sh_told e).
#[local] Instance sample_is_host : Host sample_host := {
  player_get_online e x := bool_decide (x ∈ sh_online e);
  player_get e x := (e, match sh_times e !! x with Some _ => true | None => false end);
  property_times := sample_times;
  update_played e x v := sample_set e x (mk_times (pt_login (sample_times e x)) (pt_logout (sample_times e x)) v);
  notification_set e _ _ _ _ := Ret e;
  logout_respond e x r := mk_sample (sh_online e) (sh_times e) (sh_told e ++ [(x, r)]);
  leave e x cur := mk_sample (filter (fun y => y <> x) (sh_online e)) (<[x := mk_times (pt_login (sample_times e x)) cur (pt_played (sample_times e x))]> (sh_times e)) (sh_told e);
  told := sh_told }.
#[local] Instance sample_host_laws : HostLaws sample_host.
Proof.
  constructor; unfold unchanged; cbn [player_get_online player_get property_times update_played notification_set logout_respond leave told sample_is_host fst].
  - auto.
  - intros e id v. split; [reflexivity|]. intros x. split; [reflexivity|]. intros _. unfold sample_times, sample_set. cbn [sh_times].
    destruct (Z.eqb_spec x id) as [->|Hne]; [now rewrite lookup_insert_eq|now rewrite lookup_insert_ne by congruence].
  - intros e id type key v _. exists e. auto.
  - auto.
  - intros e id cur. split; [reflexivity|]. split.
    + intros x Hx. split; [apply bool_decide_ext; cbn; rewrite list_elem_of_filter; tauto|]. intros _. unfold sample_times. cbn [sh_times]. now rewrite lookup_insert_ne by congruence.
    + intros Hx. apply bool_decide_eq_true in Hx. cbn in Hx. apply list_elem_of_filter in Hx as [Hx _]. contradiction.
Qed.

Definition sample_config : AddictedConfig := mk_config 1 3 2 5.
Definition sample_start : sample_host := mk_sample [7; 8] {[7 := mk_times 100 90 0; 8 := mk_times 99 90 0]} [].

(** Player 7 is told to leave at 108. *)
Lemma minors_told_to_leave_witness :
  exists s0 s m, module_addicted_load _agMap_new [] sample_start = Ret s0 /\
    calls_run sample_config 4 next_address s0 (module_timer_load 100 0) [] = Ret (s, m) /\
    exists s' m', calls_run sample_config 4 next_address s m (Login 100 7 :: [CanLogin 101 7; Logout 102 8] ++ [Update 108]) = Ret (s', m') /\
      exists new, told (ad_host s') = told (ad_host s) ++ new /\ (7, LOGOUT_ADDICTED) ∈ new.
Proof.
  destruct (minors_told_to_leave sample_config 4 next_address (_agMap_new : agmap Z) [] sample_start 100 []) as (s0 & s & m & Hl & Hr & Hk).
  - discriminate.
  - intros h. destruct (next_address_spec h). split; [assumption|lia].
  - cbn. lia.
  - split; apply agMap_new_ok.
  - apply agMap_new_ok.
  - intros x Hx. apply bool_decide_eq_true in Hx. cbn in Hx. repeat (apply elem_of_cons in Hx as [->|Hx]; [repeat split; vm_compute; congruence|]). inversion Hx.
  - lia.
  - reflexivity.
  - reflexivity.
  - exact I.
  - exists s0, s, m. split; [exact Hl|]. split; [exact Hr|]. injection Hr as <- <-. injection Hl as <-. apply (Hk 100 7 100 [CanLogin 101 7; Logout 102 8] 108).
    + reflexivity.
    + reflexivity.
    + vm_compute. discriminate.
    + cbn [calls_ok call_ok wheel_after app t_next module_timer_load]. unfold MAX_TIMER. repeat split; lia.
    + repeat constructor. cbn. lia.
    + lia.
    + cbn. lia.
    + reflexivity.
Defined.
