(* ===== verification/ItemGrow.v ===== *)
(** * Items that grow with time: [world/config/item.c] and [calc_item_grow_count] of [world/calc/calc.c]

    Some items of a player grow: an amount of them is added at the start of every period while the time is in
    one of the item's growing times.  [config/item.c] keeps the configurations of items in a map and the growing
    times of an item in a list, which [calc_item_grow_count] searches when somebody asks for the item.  Memory of
    the configuration is never freed but all at once, so a growing time is a value and a list of them is a list. *)
From S2P Require Import Prelude AgMap.

(** [struct ItemGrowInfo]; the list is its field [next]. *)
Record ItemGrowInfo := mk_grow { begin_time : Z; end_time : Z; period : Z; amount : Z; grow_limit : Z; is_reset : Z }.
(** [struct ItemConfig] *)
Record ItemConfig := mk_config { ic_id : Z; ic_type : Z; ic_compose_num : Z; ic_grow : list ItemGrowInfo }.

(** The rows of the tables [config_item] and [item_generate]. *)
Record config_item := mk_item_row { ri_id : Z; ri_type : Z; ri_compose_num : Z }.
Record item_generate := mk_grow_row { rg_id : Z; rg_type : Z; rg_item_id : Z; rg_grow : ItemGrowInfo }.
Definition REWARD_TYPE_ITEM : Z := 41.

(** [item_base_map], the configurations in memory, and the chain from [grow_item_list]. *)
Record item_configs (M : Type) := mk_items { im_map : M; im_heap : gmap Z ItemConfig; im_growing : list Z }.
Arguments mk_items {M} _ _ _.
Arguments im_map {M} _.
Arguments im_heap {M} _.
Arguments im_growing {M} _.

(** The place of a growing time in the list of an item: [None] when it meets another one. *)
Fixpoint grow_link (info : ItemGrowInfo) (l : list ItemGrowInfo) : option (list ItemGrowInfo) :=
  match l with
  | [] => Some []
  | ite :: rest =>
    if match rest with [] => true | next :: _ => end_time info <? begin_time next end then
      if begin_time info <=? end_time ite then None else Some (ite :: info :: rest)
    else cons ite <$> grow_link info rest
  end.
Definition grow_insert (info : ItemGrowInfo) (l : list ItemGrowInfo) : option (list ItemGrowInfo) :=
  match l with
  | [] => Some [info]
  | ite :: _ => if end_time info <? begin_time ite then Some (info :: l) else grow_link info l
  end.

(** The growing times that have not ended. *)
Fixpoint skip_ended (now : Z) (l : list ItemGrowInfo) : list ItemGrowInfo :=
  match l with [] => [] | grow :: l' => if now <? end_time grow then l else skip_ended now l' end.

(** What [calc_item_grow_count] computes from the growing time it has found. *)
Definition grow_count (grow : ItemGrowInfo) (create now count update_time : Z) : Z * Z * option Z :=
  let start_time := i32 update_time in
  let begin := if begin_time grow <? create then begin_time grow + Z.quot (create - begin_time grow) (period grow) * period grow else begin_time grow in
  let '(count, modified) :=
    if negb (is_reset grow =? 0) then
      let p2 := i32 (Z.quot (now - (begin - is_reset grow)) (is_reset grow)) in
      let p3 := i32 (Z.quot (start_time - (begin - is_reset grow)) (is_reset grow)) in
      if negb (p2 =? p3) then (0, 1) else (count, 0)
    else (count, 0) in
  if Z.quot (now - begin_time grow) (period grow) <=? Z.quot (update_time - begin_time grow) (period grow) then (count, modified, None)
  else
    let old_count := count in
    let start_time := if start_time <=? begin then i32 (begin - 1) else start_time in
    let p1 := i32 (Z.quot (now - (begin - period grow)) (period grow)) in
    let p2 := i32 (Z.quot (start_time - (begin - period grow)) (period grow)) in
    let count := i32 (count + i32 (i32 (p1 - p2) * amount grow)) in
    if grow_limit grow <? count then
      let new_count := if grow_limit grow <? old_count then old_count else grow_limit grow in
      (new_count, 1, Some (i32 (count - new_count)))
    else (count, 1, None).

(** [foreach_row_of_...]: the rows up to the first that is refused. *)
Fixpoint foreach_row {T R : Type} (cb : T -> R -> outcome (T * Z)) (s : T) (rows : list R) : outcome (T * Z) :=
  match rows with
  | [] => Ret (s, 0)
  | row :: rows' => '(s, r) ← cb s row; if negb (r =? 0) then Ret (s, -1) else foreach_row cb s rows'
  end.

Section Operations.
Context {M : Type} `{PtrMap M} (map_new : M) (malloc : gmap Z ItemConfig -> Z).
#[local] Abbreviation state := (item_configs M).

Definition put_config (s : state) (a : Z) (c : ItemConfig) : state := mk_items (im_map s) (<[a := c]> (im_heap s)) (im_growing s).

Definition parse_item_config (s : state) (row : config_item) : outcome (state * Z) :=
  let a := malloc (im_heap s) in
  if a =? 0 then Undef
  else
    '(m, old) ← pm_set (im_map s) (u64 (ri_id row)) a;
    let s := mk_items m (<[a := mk_config (ri_id row) (ri_type row) (ri_compose_num row) []]> (im_heap s)) (im_growing s) in
    Ret (s, if old =? 0 then 0 else -1).

Definition add_fake_item_config (s : state) (id : Z) : outcome (state * Z) :=
  let a := malloc (im_heap s) in
  if a =? 0 then Undef
  else
    '(m, p) ← pm_set (im_map s) (u64 id) a;
    _ ← c_assert (p =? 0);
    Ret (mk_items m (<[a := mk_config id 0 0 []]> (im_heap s)) (im_growing s), a).

Definition get_item_base_config (s : state) (id : Z) : outcome (state * Z) :=
  item ← pm_get (im_map s) (u64 id);
  if item =? 0 then add_fake_item_config s id else Ret (s, item).

Definition load_item_base_config (s : state) (rows : list config_item) : outcome (state * Z) :=
  foreach_row parse_item_config (mk_items map_new (im_heap s) (im_growing s)) rows.

(** [now] is [agT_current()]. *)
Definition parse_item_grow_config (now : Z) (s : state) (row : item_generate) : outcome (state * Z) :=
  let info := rg_grow row in
  if end_time info <=? now then Ret (s, 0)
  else if negb (rg_type row =? REWARD_TYPE_ITEM) then Ret (s, -1)
  else if end_time info <=? begin_time info then Ret (s, -1)
  else
    '(s, item) ← get_item_base_config s (rg_item_id row);
    c ← deref (im_heap s !! item);
    let s := match ic_grow c with [] => mk_items (im_map s) (im_heap s) (item :: im_growing s) | _ => s end in
    match grow_insert info (ic_grow c) with
    | None => Ret (s, -1)
    | Some l => Ret (put_config s item (mk_config (ic_id c) (ic_type c) (ic_compose_num c) l), 0)
    end.
Definition load_item_grow_config (now : Z) (s : state) (rows : list item_generate) : outcome (state * Z) := foreach_row (parse_item_grow_config now) s rows.

(** The reloading of the configuration frees what was loaded before. *)
Definition reload_items (now : Z) (s : state) (rows : list config_item) (grow_rows : list item_generate) : outcome (state * Z) :=
  '(s, r) ← load_item_base_config (mk_items (im_map s) ∅ (im_growing s)) rows;
  if negb (r =? 0) then Ret (s, -1) else load_item_grow_config now s grow_rows.

(** [calc_item_grow_count] of a player created at [create]; the result is the count, [*modified] and [*over_flow]
    (when it is written). *)
Definition calc_item_grow_count (s : state) (create now id count update_time : Z) : outcome (state * (Z * Z * option Z)) :=
  '(s, a) ← get_item_base_config s id;
  if a =? 0 then Ret (s, (count, 0, None))
  else
    cfg ← deref (im_heap s !! a);
    let grows := skip_ended now (ic_grow cfg) in
    let s := put_config s a (mk_config (ic_id cfg) (ic_type cfg) (ic_compose_num cfg) grows) in
    match grows with
    | [] => Ret (s, (count, 0, None))
    | grow :: _ =>
      if now <? begin_time grow then Ret (s, (count, 0, None))
      else if period grow =? 0 then Undef
      else Ret (s, grow_count grow create now count update_time)
    end.
End Operations.

(** ** Growing times *)

(** Two growing times meet. *)
Definition meet (g h : ItemGrowInfo) : Prop := begin_time g <= end_time h /\ begin_time h <= end_time g.
Definition proper (g : ItemGrowInfo) : Prop := begin_time g < end_time g.

(** Growing times in order that do not meet. *)
Inductive in_order : list ItemGrowInfo -> Prop :=
| in_order_nil : in_order []
| in_order_cons g l : proper g -> Forall (fun h => end_time g < begin_time h) l -> in_order l -> in_order (g :: l).

Lemma grow_link_spec info l : proper info -> in_order l -> (forall g l', l = g :: l' -> begin_time g <= end_time info) -> l <> [] ->
  match grow_link info l with
  | Some l' => in_order l' /\ l' ≡ₚ info :: l /\ Forall (fun g => ~ meet info g) l
  | None => Exists (meet info) l
  end.
Proof.
  intros Hp Ho. induction Ho as [|ite rest Hi Hr Ho IH]; intros Hb Hne; [congruence|]. cbn [grow_link]. specialize (Hb ite rest eq_refl).
  assert (Hnext : match rest with [] => true | next :: _ => end_time info <? begin_time next end = true ->
                  Forall (fun h => end_time info < begin_time h) rest).
  { destruct rest as [|next rest']; [constructor|]. intros Hlt%Z.ltb_lt. inversion Ho; subst. constructor; [exact Hlt|].
    eapply list.Forall_impl; [eassumption|]. cbn. unfold proper in *. intros h Hh. lia. }
  destruct (match rest with [] => true | next :: _ => _ end) eqn:Et.
  - specialize (Hnext eq_refl). destruct (Z.leb_spec (begin_time info) (end_time ite)) as [Hle|Hgt].
    + left. unfold meet. lia.
    + split; [|split; [constructor|]].
      * constructor; [exact Hi| |constructor; [exact Hp|exact Hnext|exact Ho]]. constructor; [exact Hgt|exact Hr].
      * constructor; [unfold meet; lia|]. eapply list.Forall_impl; [exact Hnext|]. cbn. unfold meet. intros h Hh. lia.
  - destruct rest as [|next rest']; [discriminate|]. apply Z.ltb_ge in Et.
    assert (Hbn : forall g l', next :: rest' = g :: l' -> begin_time g <= end_time info) by (intros g l' [= <- <-]; exact Et).
    specialize (IH Hbn ltac:(discriminate)). destruct (grow_link info (next :: rest')) as [l'|]; cbn [fmap option_fmap option_map].
    + destruct IH as (Ho' & Hperm & Hm). assert (Hpn : proper next) by (now inversion Ho). apply list.Forall_cons in Hr as [Hn Hr]. split; [|split].
      * constructor; [exact Hi| |exact Ho']. rewrite Hperm. constructor; [|constructor; assumption].
        apply list.Forall_cons in Hm as [Hm _]. unfold meet, proper in *. lia.
      * rewrite Hperm. apply perm_swap.
      * constructor; [|exact Hm]. apply list.Forall_cons in Hm as [Hm _]. unfold meet, proper in *. lia.
    + now right.
Qed.

(** A growing time is entered exactly when it meets no other, and the list stays in order. *)
Lemma grow_insert_spec info l : proper info -> in_order l ->
  match grow_insert info l with
  | Some l' => in_order l' /\ l' ≡ₚ info :: l /\ Forall (fun g => ~ meet info g) l
  | None => Exists (meet info) l
  end.
Proof.
  intros Hp Ho. destruct l as [|ite rest]; cbn [grow_insert]; [repeat constructor; assumption|].
  destruct (Z.ltb_spec (end_time info) (begin_time ite)) as [Hlt|Hge].
  - assert (Hall : Forall (fun h => end_time info < begin_time h) (ite :: rest)).
    { inversion Ho; subst. constructor; [exact Hlt|]. eapply list.Forall_impl; [eassumption|]. cbn. unfold proper in *. intros h Hh. lia. }
    split; [now constructor|]. split; [reflexivity|]. eapply list.Forall_impl; [exact Hall|]. cbn. unfold meet. intros h Hh. lia.
  - apply grow_link_spec; [exact Hp|exact Ho| |discriminate]. intros g l' [= <- <-]. exact Hge.
Qed.

Lemma skip_ended_spec now l : in_order l -> in_order (skip_ended now l) /\ forall g, g ∈ skip_ended now l <-> g ∈ l /\ now < end_time g.
Proof.
  induction 1 as [|g l Hg Hl Ho IH]; cbn [skip_ended]; [split; [constructor|]; intros g; rewrite elem_of_nil; tauto|].
  destruct (Z.ltb_spec now (end_time g)) as [Hlt|Hge].
  - split; [now constructor|]. intros h. split; [|tauto]. intros Hh. split; [exact Hh|]. apply elem_of_cons in Hh as [->|Hh]; [exact Hlt|].
    assert (Hp : proper h). { clear -Ho Hh. induction Ho; [inversion Hh|]. apply elem_of_cons in Hh as [->|Hh]; auto. }
    rewrite list.Forall_forall in Hl. specialize (Hl h Hh). unfold proper in *. lia.
  - destruct IH as [Ho' Hin]. split; [exact Ho'|]. intros h. rewrite Hin, elem_of_cons. split; [tauto|]. intros [[->|Hh] Hn]; [lia|tauto].
Qed.

(** ** The reference: one amount for every second at which a period starts *)

(** A period starts at [t], the first at [B]. *)
Definition period_start (B p t : Z) : Prop := B <= t /\ (t - B) mod p = 0.
#[global] Instance period_start_dec B p t : Decision (period_start B p t).
Proof. unfold period_start. apply _. Defined.
(** The number of starts after [u], up to [n]. *)
Definition starts (B p u n : Z) : Z := zlen (filter (period_start B p) (seqZ (u + 1) (n - u))).

(** The number of starts up to [t]. *)
Definition index (B p t : Z) : Z := if t <? B then 0 else (t - B) / p + 1.

Lemma index_succ B p t : 0 < p -> index B p (t + 1) = index B p t + if decide (period_start B p (t + 1)) then 1 else 0.
Proof.
  intros Hp. unfold index. case_decide as Hs; unfold period_start in Hs.
  - destruct Hs as [Hb Hm]. apply Z.mod_divide in Hm as [q Hq]; [|lia]. destruct (Z.ltb_spec (t + 1) B); [lia|]. rewrite Hq, Z.div_mul by lia.
    destruct (Z.ltb_spec t B); [nia|]. replace (t - B) with ((p - 1) + (q - 1) * p) by lia. rewrite Z.div_add, Z.div_small by lia. lia.
  - destruct (Z.ltb_spec (t + 1) B), (Z.ltb_spec t B); try lia.
    + exfalso. apply Hs. replace (t + 1 - B) with 0 by lia. now rewrite Z.mod_0_l by lia.
    + assert (Hm : (t + 1 - B) mod p <> 0) by (intros E; apply Hs; split; [lia|exact E]).
      pose proof (Z.div_mod (t + 1 - B) p ltac:(lia)). pose proof (Z.mod_pos_bound (t + 1 - B) p ltac:(lia)).
      assert (E : (t - B) / p = (t + 1 - B) / p); [|lia]. symmetry. apply (Z.div_unique_pos _ _ _ ((t + 1 - B) mod p - 1)); [|lia]. lia.
Qed.

Lemma starts_index B p u n : 0 < p -> u <= n -> starts B p u n = index B p n - index B p u.
Proof.
  intros Hp Hn. unfold starts. replace n with (u + (n - u)) at 2 by lia. assert (Hk : 0 <= n - u) by lia. generalize (n - u) Hk. clear n Hn Hk. apply natlike_ind.
  - rewrite Z.add_0_r, Z.sub_diag. reflexivity.
  - intros k Hk IH. rewrite <- Z.add_1_r, seqZ_app by lia. rewrite list.filter_app, zlen_app, IH. replace (u + (k + 1)) with ((u + k) + 1) by lia. rewrite index_succ by exact Hp.
    change (seqZ (u + 1 + k) 1) with [u + 1 + k]. replace (u + 1 + k) with (u + k + 1) by lia. rewrite list.filter_cons. case_decide; unfold zlen; cbn; lia.
Qed.

Lemma starts_split B p u n k : u <= n -> n <= k -> starts B p u k = starts B p u n + starts B p n k.
Proof.
  intros Hn Hk. unfold starts. replace (k - u) with ((n - u) + (k - n)) by lia. rewrite seqZ_app by lia. rewrite list.filter_app, zlen_app. do 4 f_equal. lia.
Qed.

Lemma starts_nonneg B p u n : 0 <= starts B p u n.
Proof. apply zlen_nonneg. Qed.

(** The grid the player's periods start on: the last start of the configured grid that is not after its creation. *)
Definition first_start (g : ItemGrowInfo) (create : Z) : Z :=
  if begin_time g <? create then begin_time g + (create - begin_time g) / period g * period g else begin_time g.

(** The starts that are counted: those after the last update, but for two cases.  An item updated in the second of
    the player's first start is given this start again with the next one ([growth_first_twice]); and one updated
    less than a period before the configured first start is given that one only with the next ([growth_misses_first]). *)
Definition counted_starts (g : ItemGrowInfo) (create update_time now : Z) : Z :=
  let B := first_start g create in
  let n := starts B (period g) update_time now in
  if update_time =? B then if n =? 0 then 0 else n + 1
  else if (begin_time g - period g <? update_time) && (update_time <? begin_time g) && (now <? begin_time g + period g) then 0
  else n.

(** Count, [*modified] and [*over_flow] (0 when nothing is too much). *)
Definition grown (g : ItemGrowInfo) (create now count update_time : Z) : Z * bool * Z :=
  let B := first_start g create in
  let n := counted_starts g create update_time now in
  let reset := negb (is_reset g =? 0) && (0 <? starts B (is_reset g) update_time now) in
  let old := if reset then 0 else count in
  let total := old + n * amount g in
  if n =? 0 then (old, reset, 0)
  else if grow_limit g <? total then (Z.max old (grow_limit g), true, total - Z.max old (grow_limit g))
  else (total, true, 0).

(** What the times and the configuration have to be: times in order, and amounts within the width of an [int]. *)
Record growable (g : ItemGrowInfo) (create now count update_time : Z) : Prop := {
  ga_period : 0 < period g < 2 ^ 31;
  ga_reset : 0 <= is_reset g < 2 ^ 31;
  ga_now : 0 <= begin_time g /\ begin_time g <= now < 2 ^ 31 - 1;
  ga_create : 0 <= create <= now;
  ga_update : 0 <= update_time <= now;
  ga_count : 0 <= count < 2 ^ 31;
  ga_amount : 0 <= amount g;
  ga_limit : 0 <= grow_limit g < 2 ^ 31;
  ga_total : count + counted_starts g create update_time now * amount g < 2 ^ 31 }.

Lemma quot_floor a b : 0 <= a -> 0 < b -> Z.quot a b = a / b.
Proof. intros. now apply Z.quot_div_nonneg. Qed.

Lemma first_start_grid g create : 0 < period g -> exists k, 0 <= k /\ first_start g create = begin_time g + k * period g /\ (first_start g create <= create \/ k = 0).
Proof.
  intros Hp. unfold first_start. destruct (Z.ltb_spec (begin_time g) create) as [Hlt|Hge]; [|exists 0; lia].
  exists ((create - begin_time g) / period g). split; [apply Z.div_pos; lia|]. split; [reflexivity|]. left.
  pose proof (Z.mul_div_le (create - begin_time g) (period g) Hp). lia.
Qed.

(** The two indices the code compares and subtracts. *)
Lemma code_index_now B p now : 0 < p -> B <= now -> Z.quot (now - (B - p)) p = index B p now.
Proof.
  intros Hp Hn. rewrite quot_floor by lia. unfold index. destruct (Z.ltb_spec now B); [lia|]. replace (now - (B - p)) with (now - B + 1 * p) by lia. rewrite Z.div_add by lia. reflexivity.
Qed.
Lemma code_index_start B p u : 0 < p -> Z.quot ((if u <=? B then B - 1 else u) - (B - p)) p = if u =? B then 0 else index B p u.
Proof.
  intros Hp. unfold index. destruct (Z.leb_spec u B), (Z.eqb_spec u B), (Z.ltb_spec u B); try lia.
  - rewrite quot_floor by lia. apply Z.div_small. lia.
  - rewrite quot_floor by lia. apply Z.div_small. lia.
  - rewrite quot_floor by lia. replace (u - (B - p)) with (u - B + 1 * p) by lia. now rewrite Z.div_add by lia.
Qed.

Lemma index_range B p t : 0 < p -> 0 <= index B p t /\ (B <= t -> index B p t <= t - B + 1).
Proof.
  intros Hp. unfold index. destruct (Z.ltb_spec t B); [lia|]. pose proof (Z.div_pos (t - B) p ltac:(lia) Hp). pose proof (Z.div_le_upper_bound (t - B) p (t - B) Hp ltac:(nia)). lia.
Qed.
Lemma index_mono B p u n : 0 < p -> u <= n -> index B p u <= index B p n.
Proof. intros Hp Hn. pose proof (starts_nonneg B p u n). rewrite starts_index in * by lia. lia. Qed.

(** The first test of the code: whether no period starts in between. *)
Lemma same_period_seen g create now count u : growable g create now count u ->
  begin_time g <= u \/ u <= begin_time g - period g \/ begin_time g + period g <= now ->
  (Z.quot (now - begin_time g) (period g) <=? Z.quot (u - begin_time g) (period g)) = (starts (first_start g create) (period g) u now =? 0).
Proof.
  intros [] ga_first0. destruct (first_start_grid g create ltac:(lia)) as (k & Hk & HB & Hc). set (B := first_start g create) in *. set (p := period g) in *. set (b := begin_time g) in *.
  rewrite starts_index by lia. assert (HBn : B <= now) by lia. rewrite (quot_floor (now - b)) by lia. unfold index. destruct (Z.ltb_spec now B); [lia|].
  assert (En : (now - b) / p = (now - B) / p + k) by (rewrite HB; replace (now - b) with (now - (b + k * p) + k * p) by lia; rewrite Z.div_add by lia; reflexivity).
  pose proof (Z.div_pos (now - B) p ltac:(lia) ltac:(lia)) as Hpos.
  destruct (Z.ltb_spec u B) as [Hu|Hu].
  - destruct (Z.eqb_spec ((now - B) / p + 1 - 0) 0); [lia|]. apply Z.leb_gt. destruct ga_first0 as [Hf|Hf].
    + rewrite quot_floor by lia. enough ((u - b) / p < k) by lia. apply Z.div_lt_upper_bound; lia.
    + destruct (Z.leb_spec b u) as [Hbu|Hbu]; [rewrite quot_floor by lia; enough ((u - b) / p < k) by lia; apply Z.div_lt_upper_bound; lia|].
      replace (u - b) with (- (b - u)) by lia. rewrite Z.quot_opp_l by lia. rewrite quot_floor by lia. destruct Hf as [Hf|Hf].
      * pose proof (Z.div_le_lower_bound (b - u) p 1 ltac:(lia) ltac:(lia)). lia.
      * pose proof (Z.div_pos (b - u) p ltac:(lia) ltac:(lia)). pose proof (Z.div_le_lower_bound (now - b) p 1 ltac:(lia) ltac:(lia)). lia.
  - rewrite quot_floor by lia. assert (Eu : (u - b) / p = (u - B) / p + k) by (rewrite HB; replace (u - b) with (u - (b + k * p) + k * p) by lia; rewrite Z.div_add by lia; reflexivity).
    pose proof (Z.div_le_mono (u - B) (now - B) p ltac:(lia) ltac:(lia)). ztests.
Qed.

Lemma same_period g create now count u : growable g create now count u ->
  (Z.quot (now - begin_time g) (period g) <=? Z.quot (u - begin_time g) (period g)) = (counted_starts g create u now =? 0).
Proof.
  intros Hga. pose proof (same_period_seen g create now count u Hga) as Hseen. pose proof Hga as []. unfold counted_starts.
  destruct (first_start_grid g create ltac:(lia)) as (k & Hk & HB & Hc). pose proof (starts_nonneg (first_start g create) (period g) u now) as Hn.
  destruct (Z.eqb_spec u (first_start g create)) as [Eu|Eu].
  - rewrite Hseen by (left; nia). destruct (Z.eqb_spec (starts (first_start g create) (period g) u now) 0) as [E0|E0]; [reflexivity|]. ztests.
  - destruct (_ && _ && _) eqn:E.
    + apply andb_true_iff in E as [E E3]. apply andb_true_iff in E as [E1 E2]. apply Z.ltb_lt in E1, E2, E3. cbn [Z.eqb]. apply Z.leb_le.
      replace (u - begin_time g) with (- (begin_time g - u)) by lia. rewrite Z.quot_opp_l, !quot_floor by lia. rewrite !Z.div_small by lia. lia.
    + apply Hseen. apply andb_false_iff in E as [E|E]; [apply andb_false_iff in E as [E|E]|]; apply Z.ltb_ge in E; lia.
Qed.

(** The test for a reset. *)
Lemma reset_test g create now count u : growable g create now count u -> is_reset g <> 0 ->
  (i32 (Z.quot (now - (first_start g create - is_reset g)) (is_reset g)) =? i32 (Z.quot (u - (first_start g create - is_reset g)) (is_reset g))) =
  negb (0 <? starts (first_start g create) (is_reset g) u now).
Proof.
  intros [] Hr. destruct (first_start_grid g create ltac:(lia)) as (k & Hk & HB & Hc). set (B := first_start g create) in *. set (r := is_reset g) in *.
  assert (HBn : B <= now) by lia. assert (HB0 : 0 <= B) by nia. rewrite starts_index by lia. rewrite code_index_now by lia.
  pose proof (index_range B r now ltac:(lia)) as [Hn0 Hn1]. specialize (Hn1 HBn).
  rewrite (i32_small (index B r now)) by lia. destruct (Z.leb_spec B u) as [Hu|Hu].
  - rewrite code_index_now by lia. pose proof (index_range B r u ltac:(lia)) as [Hu0 Hu1]. specialize (Hu1 Hu). rewrite i32_small by lia.
    pose proof (index_mono B r u now ltac:(lia) ltac:(lia)). ztests; cbn; lia.
  - assert (Hq : - 2 ^ 31 <= Z.quot (u - (B - r)) r <= 0).
    { destruct (Z.leb_spec (B - r) u).
      - rewrite quot_floor by lia. rewrite Z.div_small by lia. lia.
      - replace (u - (B - r)) with (- (B - r - u)) by lia. rewrite Z.quot_opp_l, quot_floor by lia. pose proof (Z.div_pos (B - r - u) r ltac:(lia) ltac:(lia)).
        pose proof (Z.div_le_upper_bound (B - r - u) r (B - r - u) ltac:(lia) ltac:(nia)). lia. }
    rewrite (i32_small (Z.quot _ _)) by lia. assert (E : index B r u = 0) by (unfold index; ztests). rewrite E.
    assert (1 <= index B r now) by (unfold index; destruct (Z.ltb_spec now B); [lia|]; pose proof (Z.div_pos (now - B) r ltac:(lia) ltac:(lia)); lia). ztests; cbn; lia.
Qed.

(** ** The configurations *)

Section Theory.
Context {M : Type} `{PtrMapLaws M} (map_new : M) (map_new_ok : pm_ok map_new) (map_new_empty : pm_abs map_new = ∅).
Context (malloc : gmap Z ItemConfig -> Z) (malloc_ok : forall h, h !! malloc h = None /\ malloc h <> 0).
#[local] Abbreviation state := (item_configs M).

Record configs_ok (s : state) (b : Z) : Prop := {
  cf_map : pm_ok (im_map s);
  cf_entry : forall k a, pm_abs (im_map s) !! k = Some a -> a <> 0 /\ exists c, im_heap s !! a = Some c /\ u64 (ic_id c) = k /\ in_order (ic_grow c);
  cf_size : Z.of_nat (size (pm_abs (im_map s))) <= b }.

(** The growing times of an item. *)
Definition grows_of (s : state) (id : Z) : list ItemGrowInfo :=
  match pm_abs (im_map s) !! u64 id with Some a => match im_heap s !! a with Some c => ic_grow c | None => [] end | None => [] end.

Lemma grows_in_order s b id : configs_ok s b -> in_order (grows_of s id).
Proof.
  intros [Hm He Hs]. unfold grows_of. destruct (pm_abs (im_map s) !! u64 id) as [a|] eqn:Ha; [|constructor]. destruct (He _ _ Ha) as (_ & c & Hc & _ & Ho). now rewrite Hc.
Qed.

(** A new entry in the map. *)
Lemma configs_new s b k c m o : configs_ok s b -> b < 2 ^ 61 -> u64 (ic_id c) = k -> in_order (ic_grow c) -> pm_set (im_map s) k (malloc (im_heap s)) = Ret (m, o) ->
  let s' := mk_items m (<[malloc (im_heap s) := c]> (im_heap s)) (im_growing s) in
  o = default 0 (pm_abs (im_map s) !! k) /\ configs_ok s' (b + 1) /\ pm_abs m !! k = Some (malloc (im_heap s)) /\
  forall id, grows_of s' id = if u64 id =? k then ic_grow c else grows_of s id.
Proof.
  intros [Hm He Hs] Hb Hk Ho Hset s'. destruct (malloc_ok (im_heap s)) as [Hf Hz]. set (a := malloc (im_heap s)) in *.
  destruct (pm_set_spec (im_map s) k a Hm ltac:(lia)) as (m' & E & Hm' & Habs). rewrite E in Hset. injection Hset as <- <-. apply Z.eqb_neq in Hz as Hz'. rewrite Hz' in Habs.
  split; [reflexivity|]. split; [constructor|split].
  - exact Hm'.
  - cbn [im_map im_heap s']. intros k' a' Hka. rewrite Habs in Hka. apply lookup_insert_Some in Hka as [[<- <-]|[Hne Hka]].
    + split; [exact Hz|]. exists c. now rewrite lookup_insert_eq.
    + destruct (He _ _ Hka) as (Hz2 & c' & Hc' & Hi & Ho'). split; [exact Hz2|]. exists c'. rewrite lookup_insert_ne by (intros <-; congruence). auto.
  - cbn [im_map s']. rewrite Habs, map_size_insert. destruct (pm_abs (im_map s) !! k); unfold Datatypes.id; lia.
  - rewrite Habs. apply lookup_insert_eq.
  - intros id. unfold grows_of. cbn [im_map im_heap s']. rewrite Habs. destruct (Z.eqb_spec (u64 id) k) as [->|Hne].
    + now rewrite !lookup_insert_eq.
    + rewrite lookup_insert_ne by congruence. destruct (pm_abs (im_map s) !! u64 id) as [a'|] eqn:Ha; [|reflexivity]. destruct (He _ _ Ha) as (_ & c' & Hc' & _).
      now rewrite lookup_insert_ne by (intros <-; congruence).
Qed.

Lemma get_config_spec s b id : configs_ok s b -> b < 2 ^ 61 ->
  exists s' a c, get_item_base_config malloc s id = Ret (s', a) /\ configs_ok s' (b + 1) /\ pm_abs (im_map s') !! u64 id = Some a /\ a <> 0 /\ im_heap s' !! a = Some c /\
    ic_grow c = grows_of s id /\ forall id', grows_of s' id' = grows_of s id'.
Proof.
  intros Hok Hb. unfold get_item_base_config. rewrite (pm_get_spec _ _ (cf_map _ _ Hok)). cbn [mbind outcome_bind].
  destruct (pm_abs (im_map s) !! u64 id) as [a|] eqn:Ha; cbn [from_option].
  - destruct (cf_entry _ _ Hok _ _ Ha) as (Hz & c & Hc & Hi & Ho). apply Z.eqb_neq in Hz as Hz'. unfold Datatypes.id. rewrite Hz'. exists s, a, c. split; [reflexivity|].
    split; [destruct Hok; constructor; auto; lia|]. split; [exact Ha|]. split; [exact Hz|]. split; [exact Hc|]. split; [unfold grows_of; now rewrite Ha, Hc|auto].
  - cbn [Z.eqb]. unfold add_fake_item_config. destruct (malloc_ok (im_heap s)) as [Hf Hz]. apply Z.eqb_neq in Hz as Hz'. rewrite Hz'.
    destruct (pm_set_spec (im_map s) (u64 id) (malloc (im_heap s)) (cf_map _ _ Hok)) as (m & E & _); [pose proof (cf_size _ _ Hok); lia|]. rewrite E. cbn [mbind outcome_bind].
    destruct (configs_new s b (u64 id) (mk_config id 0 0 []) m _ Hok Hb eq_refl in_order_nil E) as (_ & Hok' & Hm' & Hg). rewrite Ha. cbn [default from_option Z.eqb c_assert mbind outcome_bind].
    eexists _, _, (mk_config id 0 0 []). split; [reflexivity|]. split; [exact Hok'|]. split; [exact Hm'|]. split; [exact Hz|]. cbn [im_heap]. split; [apply lookup_insert_eq|].
    assert (E0 : grows_of s id = []) by (unfold grows_of; now rewrite Ha). split; [now rewrite E0|]. intros id'. rewrite Hg. destruct (Z.eqb_spec (u64 id') (u64 id)) as [Ei|]; [|reflexivity].
    unfold grows_of. now rewrite Ei, Ha.
Qed.

(** The growing times of one item change. *)
Lemma configs_change s b id a c l : configs_ok s b -> pm_abs (im_map s) !! u64 id = Some a -> im_heap s !! a = Some c -> in_order l ->
  let s' := put_config s a (mk_config (ic_id c) (ic_type c) (ic_compose_num c) l) in
  configs_ok s' b /\ forall id', grows_of s' id' = if u64 id' =? u64 id then l else grows_of s id'.
Proof.
  intros [Hm He Hs] Ha Hc Ho s'. destruct (He _ _ Ha) as (Hz & c0 & Hc0 & Hi & _). assert (c0 = c) as -> by congruence.
  assert (Hinj : forall k, pm_abs (im_map s) !! k = Some a -> k = u64 id) by (intros k Hk; destruct (He _ _ Hk) as (_ & c1 & Hc1 & <- & _); congruence).
  split; [constructor; [exact Hm| |exact Hs]|].
  - cbn [im_map im_heap put_config s']. intros k a' Hk. destruct (He _ _ Hk) as (Hz' & c' & Hc' & Hi' & Ho'). split; [exact Hz'|]. destruct (decide (a' = a)) as [->|Hne].
    + exists (mk_config (ic_id c) (ic_type c) (ic_compose_num c) l). rewrite lookup_insert_eq. split; [reflexivity|]. split; [|exact Ho]. cbn. rewrite Hi. symmetry. now apply Hinj.
    + exists c'. rewrite lookup_insert_ne by congruence. auto.
  - intros id'. unfold grows_of. cbn [im_map im_heap put_config s']. destruct (Z.eqb_spec (u64 id') (u64 id)) as [->|Hne].
    + now rewrite Ha, lookup_insert_eq.
    + destruct (pm_abs (im_map s) !! u64 id') as [a'|] eqn:Ha'; [|reflexivity]. rewrite lookup_insert_ne by (intros <-; apply Hne, Hinj, Ha'). reflexivity.
Qed.

(** ** Growing *)

Definition active (now : Z) (g : ItemGrowInfo) : Prop := begin_time g <= now < end_time g.

Lemma skip_active now l g : in_order l -> g ∈ l -> active now g -> exists rest, skip_ended now l = g :: rest.
Proof.
  induction 1 as [|h l Hh Hl Ho IH]; intros Hg Ha; [inversion Hg|]. cbn [skip_ended]. destruct (Z.ltb_spec now (end_time h)) as [Hlt|Hge].
  - apply elem_of_cons in Hg as [->|Hg]; [eauto|]. rewrite list.Forall_forall in Hl. specialize (Hl g Hg). unfold active in Ha. lia.
  - apply elem_of_cons in Hg as [->|Hg]; [unfold active in Ha; lia|auto].
Qed.
Lemma skip_inactive now l : in_order l -> (forall g, g ∈ l -> ~ active now g) -> match skip_ended now l with [] => True | g :: _ => now < begin_time g end.
Proof.
  intros Ho Hn. destruct (skip_ended_spec now l Ho) as [_ Hin]. destruct (skip_ended now l) as [|g rest] eqn:E; [exact I|].
  destruct (proj1 (Hin g) ltac:(left)) as [Hg Hlt]. specialize (Hn g Hg). unfold active in Hn. lia.
Qed.

(** What [calc_item_grow_count] does around the arithmetic. *)
Lemma calc_unfold s b now id : configs_ok s b -> b < 2 ^ 61 ->
  exists s1 a c, configs_ok s1 (b + 1) /\ ic_grow c = grows_of s id /\
    let s' := put_config s1 a (mk_config (ic_id c) (ic_type c) (ic_compose_num c) (skip_ended now (grows_of s id))) in
    configs_ok s' (b + 1) /\ (forall id', grows_of s' id' = if u64 id' =? u64 id then skip_ended now (grows_of s id) else grows_of s id') /\
    get_item_base_config malloc s id = Ret (s1, a) /\ a <> 0 /\ im_heap s1 !! a = Some c.
Proof.
  intros Hok Hb. destruct (get_config_spec s b id Hok Hb) as (s1 & a & c & He & Hok1 & Ha & Hz & Hc & Hg & Hsame). exists s1, a, c. split; [exact Hok1|]. split; [exact Hg|].
  destruct (skip_ended_spec now _ (grows_in_order s b id Hok)) as [Ho _].
  destruct (configs_change s1 (b + 1) id a c _ Hok1 Ha Hc Ho) as [Hok' Hg']. split; [exact Hok'|]. split; [|auto]. intros id'. rewrite Hg'. destruct (u64 id' =? u64 id); [reflexivity|apply Hsame].
Qed.

(** The item grows by the growing time it is in. *)
Lemma calc_found s b create now id count u g : configs_ok s b -> b < 2 ^ 61 -> g ∈ grows_of s id -> active now g -> period g <> 0 ->
  exists s', calc_item_grow_count malloc s create now id count u = Ret (s', grow_count g create now count u) /\ configs_ok s' (b + 1) /\
    forall id', grows_of s' id' = if u64 id' =? u64 id then skip_ended now (grows_of s id) else grows_of s id'.
Proof.
  intros Hok Hb Hg Hact Hp. destruct (calc_unfold s b now id Hok Hb) as (s1 & a & c & Hok1 & Hgr & Hok' & Hgs & He & Hz & Hc).
  destruct (skip_active now _ g (grows_in_order s b id Hok) Hg Hact) as [rest Hrest].
  unfold calc_item_grow_count. rewrite He. cbn [mbind outcome_bind]. apply Z.eqb_neq in Hz. rewrite Hz, Hc. cbn [deref mbind outcome_bind]. rewrite Hgr, Hrest. rewrite Hrest in Hok', Hgs.
  unfold active in Hact. destruct (Z.ltb_spec now (begin_time g)) as [|_]; [lia|]. apply Z.eqb_neq in Hp as ->. eauto.
Qed.

(** What is counted, when it is not nothing, as a difference of indices. *)
Lemma counted_index g create now u : 0 < period g -> u <= now -> counted_starts g create u now <> 0 ->
  counted_starts g create u now = index (first_start g create) (period g) now - if u =? first_start g create then 0 else index (first_start g create) (period g) u.
Proof.
  intros Hp Hu. unfold counted_starts. rewrite !starts_index by lia. destruct (Z.eqb_spec u (first_start g create)) as [Eu|]; [|destruct (_ && _ && _); [contradiction|reflexivity]].
  assert (index (first_start g create) (period g) u = 1) by (unfold index; rewrite Eu, Z.ltb_irrefl, Z.sub_diag, Z.div_0_l by lia; reflexivity).
  destruct (_ =? 0); [contradiction|lia].
Qed.

(** The arithmetic of the code is the reference. *)
Definition answer (r : Z * Z * option Z) : Z * bool * Z := (fst (fst r), negb (snd (fst r) =? 0), default 0 (snd r)).
Lemma grow_count_grown g create now count u : growable g create now count u -> answer (grow_count g create now count u) = grown g create now count u.
Proof.
  intros Hga. pose proof Hga as []. unfold answer, grow_count.
  assert (EB : (if begin_time g <? create then begin_time g + Z.quot (create - begin_time g) (period g) * period g else begin_time g) = first_start g create).
  { unfold first_start. destruct (Z.ltb_spec (begin_time g) create); [rewrite quot_floor by lia|]; reflexivity. }
  cbv zeta. rewrite EB, (i32_small u) by lia.
  assert (Ereset : (if negb (is_reset g =? 0)
      then if negb (i32 (Z.quot (now - (first_start g create - is_reset g)) (is_reset g)) =? i32 (Z.quot (u - (first_start g create - is_reset g)) (is_reset g))) then (0, 1) else (count, 0)
      else (count, 0)) = let reset := negb (is_reset g =? 0) && (0 <? starts (first_start g create) (is_reset g) u now) in (if reset then 0 else count, if reset then 1 else 0)).
  { destruct (Z.eqb_spec (is_reset g) 0) as [E0|E0]; [reflexivity|]. cbn [negb andb]. rewrite (reset_test g create now count u Hga E0), negb_involutive. destruct (0 <? _); reflexivity. }
  rewrite Ereset, (same_period g create now count u Hga). unfold grown. set (reset := negb (is_reset g =? 0) && _). clearbody reset. cbv zeta.
  set (n := counted_starts g create u now) in *. set (old := if reset then 0 else count).
  assert (Hold : 0 <= old <= count) by (unfold old; destruct reset; lia).
  destruct (Z.eqb_spec n 0) as [En|En].
  - cbn. destruct reset; reflexivity.
  - assert (En' : i32 (i32 (Z.quot (now - (first_start g create - period g)) (period g)) -
        i32 (Z.quot ((if u <=? first_start g create then i32 (first_start g create - 1) else u) - (first_start g create - period g)) (period g))) = n).
    { destruct (first_start_grid g create ltac:(lia)) as (k & Hk & HB & Hc'). assert (0 <= first_start g create <= now) by nia.
      rewrite (i32_small (first_start g create - 1)) by lia. rewrite code_index_now, code_index_start by lia.
      pose proof (index_range (first_start g create) (period g) now ltac:(lia)) as [Hi1 Hi2]. pose proof (index_range (first_start g create) (period g) u ltac:(lia)) as [Hi3 _].
      pose proof (index_mono (first_start g create) (period g) u now ltac:(lia) ltac:(lia)).
      assert (Hn : n = index (first_start g create) (period g) now - if u =? first_start g create then 0 else index (first_start g create) (period g) u).
      { apply counted_index; [lia..|exact En]. }
      specialize (Hi2 ltac:(lia)). destruct (u =? first_start g create).
      - rewrite (i32_small (index _ _ now)), (i32_small 0) by lia. rewrite i32_small by lia. lia.
      - rewrite (i32_small (index _ _ now)), (i32_small (index _ _ u)) by lia. rewrite i32_small by lia. lia. }
    rewrite En'. assert (Hn0 : 0 <= n).
    { unfold n, counted_starts. pose proof (starts_nonneg (first_start g create) (period g) u now). destruct (u =? _); [|destruct (_ && _ && _); lia]. destruct (Z.eqb_spec (starts (first_start g create) (period g) u now) 0); lia. }
    assert (Hm : 0 <= n * amount g) by nia. rewrite (i32_small (n * amount g)), (i32_small (old + n * amount g)) by lia.
    destruct (Z.ltb_spec (grow_limit g) (old + n * amount g)) as [Hlim|Hlim]; [|reflexivity].
    cbn [fst snd default from_option negb Z.eqb].
    assert (Emax : (if grow_limit g <? old then old else grow_limit g) = Z.max old (grow_limit g)) by ztests. rewrite Emax. unfold Datatypes.id. rewrite i32_small by lia. reflexivity.
Qed.

Lemma calc_active s b create now id count u g : configs_ok s b -> b < 2 ^ 61 -> g ∈ grows_of s id -> active now g -> growable g create now count u ->
  exists s' r, calc_item_grow_count malloc s create now id count u = Ret (s', r) /\ configs_ok s' (b + 1) /\
    (forall id', grows_of s' id' = if u64 id' =? u64 id then skip_ended now (grows_of s id) else grows_of s id') /\ answer r = grown g create now count u.
Proof.
  intros Hok Hb Hg Hact Hga. destruct (calc_found s b create now id count u g Hok Hb Hg Hact) as (s' & He & Hok' & Hgs); [pose proof (ga_period _ _ _ _ _ Hga); lia|].
  eexists s', _. split; [exact He|]. split; [exact Hok'|]. split; [exact Hgs|]. now apply grow_count_grown.
Qed.

Lemma calc_inactive s b create now id count u : configs_ok s b -> b < 2 ^ 61 -> (forall g, g ∈ grows_of s id -> ~ active now g) ->
  exists s', calc_item_grow_count malloc s create now id count u = Ret (s', (count, 0, None)) /\ configs_ok s' (b + 1) /\
    (forall id', grows_of s' id' = if u64 id' =? u64 id then skip_ended now (grows_of s id) else grows_of s id').
Proof.
  intros Hok Hb Hn. destruct (calc_unfold s b now id Hok Hb) as (s1 & a & c & Hok1 & Hgr & Hok' & Hgs & He & Hz & Hc).
  pose proof (skip_inactive now _ (grows_in_order s b id Hok) Hn) as Hs.
  unfold calc_item_grow_count. rewrite He. cbn [mbind outcome_bind]. apply Z.eqb_neq in Hz. rewrite Hz, Hc. cbn [deref mbind outcome_bind]. rewrite Hgr. destruct (skip_ended now (grows_of s id)) as [|g rest]; [eauto|].
  destruct (Z.ltb_spec now (begin_time g)); [eauto|lia].
Qed.

(** ** Loading *)

(** A row that grows an item from [now] on, and one that is refused whatever else there is. *)
Definition grows_later (now : Z) (row : item_generate) : Prop := now < end_time (rg_grow row).
#[global] Instance grows_later_dec now row : Decision (grows_later now row).
Proof. unfold grows_later. apply _. Defined.
Definition row_fine (row : item_generate) : Prop := rg_type row = REWARD_TYPE_ITEM /\ proper (rg_grow row).
(** The growing times the rows give an item. *)
Definition rows_for (now id : Z) (rows : list item_generate) : list ItemGrowInfo :=
  map rg_grow (filter (fun row => grows_later now row /\ u64 (rg_item_id row) = u64 id) rows).

Lemma parse_grow_spec s b now row : configs_ok s b -> b < 2 ^ 61 ->
  exists s' r, parse_item_grow_config malloc now s row = Ret (s', r) /\ configs_ok s' (b + 1) /\
    if r =? 0 then (forall id, grows_of s' id ≡ₚ rows_for now id [row] ++ grows_of s id) /\
      (grows_later now row -> row_fine row /\ Forall (fun g => ~ meet (rg_grow row) g) (grows_of s (rg_item_id row)))
    else grows_later now row /\ (row_fine row -> Exists (meet (rg_grow row)) (grows_of s (rg_item_id row))).
Proof.
  intros Hok Hb. assert (Hok1 : configs_ok s (b + 1)) by (destruct Hok; constructor; auto; lia). unfold parse_item_grow_config, row_fine, proper, rows_for, grows_later.
  destruct (Z.leb_spec (end_time (rg_grow row)) now).
  { eexists s, 0. split; [reflexivity|]. split; [exact Hok1|]. cbn [Z.eqb]. split; [|lia]. intros id. rewrite list.filter_cons, decide_False by (intros [? _]; lia). reflexivity. }
  destruct (Z.eqb_spec (rg_type row) REWARD_TYPE_ITEM); cbn [negb]; [|eexists s, (-1); split; [reflexivity|]; split; [exact Hok1|]; cbn; tauto].
  destruct (Z.leb_spec (end_time (rg_grow row)) (begin_time (rg_grow row))); [eexists s, (-1); split; [reflexivity|]; split; [exact Hok1|]; cbn; lia|].
  destruct (get_config_spec s b (rg_item_id row) Hok Hb) as (s1 & a & c & -> & Hokc & Ha & Hz & Hc & Hg & Hsame). cbn [mbind outcome_bind]. rewrite Hc. cbn [deref mbind outcome_bind].
  set (s2 := match ic_grow c with [] => _ | _ => _ end). assert (Hs2 : im_map s2 = im_map s1 /\ im_heap s2 = im_heap s1) by (unfold s2; destruct (ic_grow c); auto). destruct Hs2 as [Em Eh].
  assert (Hok2 : configs_ok s2 (b + 1)) by (destruct Hokc; constructor; rewrite ?Em, ?Eh; auto).
  assert (Hsame2 : forall id, grows_of s2 id = grows_of s id) by (intros id; rewrite <- Hsame; unfold grows_of; now rewrite Em, Eh). clearbody s2.
  pose proof (grow_insert_spec (rg_grow row) (grows_of s (rg_item_id row)) ltac:(unfold proper; lia) (grows_in_order s b _ Hok)) as Hins. rewrite <- Hg in Hins. destruct (grow_insert (rg_grow row) (ic_grow c)) as [l|].
  - destruct Hins as (Ho & Hperm & Hm). eexists _, 0. split; [reflexivity|]. cbn [Z.eqb]. rewrite <- Eh in Hc. rewrite <- Em in Ha.
    destruct (configs_change s2 (b + 1) (rg_item_id row) a c l Hok2 Ha Hc Ho) as [Hok' Hg']. split; [exact Hok'|]. split; [|rewrite <- Hg; auto].
    intros id. rewrite Hg', list.filter_cons. destruct (Z.eqb_spec (u64 id) (u64 (rg_item_id row))) as [Ei|Hne].
    + rewrite decide_True by (split; [lia|congruence]). cbn [map filter list.list_filter app]. rewrite Hperm, Hg. unfold grows_of. now rewrite Ei.
    + rewrite decide_False by (intros [_ ?]; congruence). now rewrite Hsame2.
  - eexists s2, (-1). split; [reflexivity|]. split; [exact Hok2|]. cbn [Z.eqb]. rewrite <- Hg. auto.
Qed.

Lemma foreach_grow_spec now rows : forall s b, configs_ok s b -> b + zlen rows < 2 ^ 61 ->
  exists s' r, load_item_grow_config malloc now s rows = Ret (s', r) /\ configs_ok s' (b + zlen rows) /\
    if r =? 0 then (forall id, grows_of s' id ≡ₚ rows_for now id rows ++ grows_of s id) /\ Forall (fun row => grows_later now row -> row_fine row) rows
    else exists before row after, rows = before ++ row :: after /\ grows_later now row /\
      (row_fine row -> Exists (meet (rg_grow row)) (rows_for now (rg_item_id row) before ++ grows_of s (rg_item_id row))).
Proof.
  unfold load_item_grow_config. induction rows as [|row rows IH]; intros s b Hok Hb; cbn [foreach_row].
  - exists s, 0. split; [reflexivity|]. unfold zlen. cbn. rewrite Z.add_0_r. auto.
  - rewrite zlen_cons in *. pose proof (zlen_nonneg rows). destruct (parse_grow_spec s b now row Hok ltac:(lia)) as (s1 & r & -> & Hok1 & Hr). cbn [mbind outcome_bind].
    destruct (Z.eqb_spec r 0) as [->|Hne]; cbn [negb].
    + destruct Hr as [Hperm Hfine]. destruct (IH s1 (b + 1) Hok1 ltac:(lia)) as (s' & r & -> & Hok' & Hr'). exists s', r. split; [reflexivity|].
      replace (b + (1 + zlen rows)) with (b + 1 + zlen rows) by lia. split; [exact Hok'|].
      assert (Hcons : forall id l, rows_for now id (row :: l) = rows_for now id [row] ++ rows_for now id l).
      { intros id l. unfold rows_for. rewrite <- map_app, <- list.filter_app. reflexivity. }
      destruct (Z.eqb_spec r 0) as [->|Hne].
      * destruct Hr' as [Hp' Hf']. split; [|constructor; [tauto|exact Hf']]. intros id. rewrite Hp', Hperm, (Hcons id rows), !app_assoc. apply Permutation_app_tail, Permutation_app_comm.
      * destruct Hr' as (before & row' & after & -> & Hlater & Hex). exists (row :: before), row', after. split; [reflexivity|]. split; [exact Hlater|]. intros Hf. specialize (Hex Hf).
        rewrite list.Exists_exists in Hex |- *. destruct Hex as (g & Hg & Hm). exists g. split; [|exact Hm]. rewrite (Hcons _ before). rewrite !elem_of_app in *. destruct Hg as [Hg|Hg]; [tauto|]. rewrite (Hperm (rg_item_id row')), elem_of_app in Hg. tauto.
    + eexists s1, (-1). split; [reflexivity|]. split; [destruct Hok1; constructor; auto; lia|]. cbn [Z.eqb]. exists [], row, rows. destruct Hr as [Hl Hr]. auto.
Qed.

Lemma parse_item_spec s b row : configs_ok s b -> b < 2 ^ 61 ->
  exists s' r, parse_item_config malloc s row = Ret (s', r) /\ configs_ok s' (b + 1) /\ (r = 0 -> forall id, grows_of s' id = grows_of s id).
Proof.
  intros Hok Hb. unfold parse_item_config. destruct (malloc_ok (im_heap s)) as [Hf Hz]. apply Z.eqb_neq in Hz as Hz'. rewrite Hz'.
  destruct (pm_set_spec (im_map s) (u64 (ri_id row)) (malloc (im_heap s)) (cf_map _ _ Hok)) as (m & E & _); [pose proof (cf_size _ _ Hok); lia|]. rewrite E. cbn [mbind outcome_bind].
  destruct (configs_new s b (u64 (ri_id row)) (mk_config (ri_id row) (ri_type row) (ri_compose_num row) []) m _ Hok Hb eq_refl in_order_nil E) as (_ & Hok' & Hm' & Hg).
  eexists _, _. split; [reflexivity|]. split; [exact Hok'|]. intros Hr id. rewrite Hg. destruct (Z.eqb_spec (u64 id) (u64 (ri_id row))) as [Ei|]; [|reflexivity]. cbn [ic_grow].
  unfold grows_of. rewrite Ei. destruct (pm_abs (im_map s) !! u64 (ri_id row)) as [a|] eqn:Ha; [|reflexivity]. exfalso.
  destruct (cf_entry _ _ Hok _ _ Ha) as (Hza & _). cbn in Hr. unfold Datatypes.id in Hr. apply Z.eqb_neq in Hza. rewrite Hza in Hr. discriminate.
Qed.

Lemma foreach_item_spec rows : forall s b, configs_ok s b -> b + zlen rows < 2 ^ 61 ->
  exists s' r, foreach_row (parse_item_config malloc) s rows = Ret (s', r) /\ configs_ok s' (b + zlen rows) /\ (r = 0 -> forall id, grows_of s' id = grows_of s id).
Proof.
  induction rows as [|row rows IH]; intros s b Hok Hb; cbn [foreach_row].
  - exists s, 0. unfold zlen. cbn. rewrite Z.add_0_r. auto.
  - rewrite zlen_cons in *. pose proof (zlen_nonneg rows). destruct (parse_item_spec s b row Hok ltac:(lia)) as (s1 & r & -> & Hok1 & Hr). cbn [mbind outcome_bind].
    destruct (Z.eqb_spec r 0) as [->|Hne]; cbn [negb]; [|eexists s1, (-1); split; [reflexivity|]; split; [destruct Hok1; constructor; auto; lia|discriminate]].
    destruct (IH s1 (b + 1) Hok1 ltac:(lia)) as (s' & r & -> & Hok' & Hr'). exists s', r. split; [reflexivity|]. replace (b + (1 + zlen rows)) with (b + 1 + zlen rows) by lia. split; [exact Hok'|].
    intros Er id. rewrite Hr' by exact Er. now apply Hr.
Qed.

Lemma reload_spec s now rows grow_rows : zlen rows + zlen grow_rows < 2 ^ 61 ->
  exists s' r, reload_items map_new malloc now s rows grow_rows = Ret (s', r) /\ configs_ok s' (zlen rows + zlen grow_rows) /\
    (r = 0 -> (forall id, grows_of s' id ≡ₚ rows_for now id grow_rows) /\ Forall (fun row => grows_later now row -> row_fine row) grow_rows).
Proof.
  intros Hb. pose proof (zlen_nonneg rows). pose proof (zlen_nonneg grow_rows). unfold reload_items, load_item_base_config. set (s0 := mk_items map_new _ _).
  assert (Hok0 : configs_ok s0 0) by (constructor; cbn [s0 im_map]; rewrite ?map_new_empty; [exact map_new_ok|intros k a Hk; now rewrite lookup_empty in Hk|rewrite map_size_empty; reflexivity]).
  assert (Hg0 : forall id, grows_of s0 id = []) by (intros id; unfold grows_of; cbn [s0 im_map]; now rewrite map_new_empty, lookup_empty).
  destruct (foreach_item_spec rows s0 0 Hok0 ltac:(lia)) as (s1 & r & He & Hok1 & Hr). cbn [im_heap im_growing s0] in *. rewrite He. cbn [mbind outcome_bind].
  destruct (Z.eqb_spec r 0) as [->|Hne]; cbn [negb]; [|eexists s1, (-1); split; [reflexivity|]; split; [destruct Hok1; constructor; auto; lia|discriminate]].
  destruct (foreach_grow_spec now grow_rows s1 _ Hok1 ltac:(lia)) as (s' & r & -> & Hok' & Hr'). exists s', r. split; [reflexivity|]. split; [exact Hok'|]. intros ->. cbn [Z.eqb] in Hr'.
  destruct Hr' as [Hp Hf]. split; [|exact Hf]. intros id. rewrite Hp, (Hr eq_refl), Hg0, app_nil_r. reflexivity.
Qed.

(** ** Asking for items one after the other *)

(** The growing times that matter from [now] on are those of the rows. *)
Definition loaded (now0 : Z) (grow_rows : list item_generate) (s : state) (now : Z) : Prop :=
  forall id g t, now <= t -> active t g -> g ∈ grows_of s id <-> g ∈ rows_for now0 id grow_rows.

Lemma loaded_later now0 grow_rows s s' b id0 now : configs_ok s b -> loaded now0 grow_rows s now ->
  (forall id, grows_of s' id = if u64 id =? u64 id0 then skip_ended now (grows_of s id0) else grows_of s id) -> loaded now0 grow_rows s' now.
Proof.
  intros Hok Hl Hg id g t Ht Hact. rewrite Hg. destruct (Z.eqb_spec (u64 id) (u64 id0)) as [Ei|]; [|now apply (Hl id g t)].
  rewrite (proj2 (skip_ended_spec now _ (grows_in_order s b id0 Hok))). assert (E : grows_of s id = grows_of s id0) by (unfold grows_of; now rewrite Ei).
  rewrite <- (Hl id g t Ht Hact), E. unfold active in Hact. split; [tauto|]. intros Hin. split; [exact Hin|lia].
Qed.

Lemma loaded_mono now0 grow_rows s now now' : loaded now0 grow_rows s now -> now <= now' -> loaded now0 grow_rows s now'.
Proof. intros Hl Hn id g t Ht. apply Hl. lia. Qed.
End Theory.

(** A call of [calc_item_grow_count], for a player created at [gc_create]. *)
Record growth_call := mk_call { gc_create : Z; gc_now : Z; gc_id : Z; gc_count : Z; gc_update : Z }.
Fixpoint calc_run {M} `{PtrMap M} (malloc : gmap Z ItemConfig -> Z) (s : item_configs M) (calls : list growth_call) : outcome (item_configs M * list (Z * Z * option Z)) :=
  match calls with
  | [] => Ret (s, [])
  | c :: calls' =>
    '(s, r) ← calc_item_grow_count malloc s (gc_create c) (gc_now c) (gc_id c) (gc_count c) (gc_update c);
    '(s, rs) ← calc_run malloc s calls'; Ret (s, r :: rs)
  end.

(** The row that grows the item of a call. *)
Definition grows_call (now0 : Z) (c : growth_call) (row : item_generate) : Prop :=
  grows_later now0 row /\ u64 (rg_item_id row) = u64 (gc_id c) /\ active (gc_now c) (rg_grow row).
#[global] Instance grows_call_dec now0 c row : Decision (grows_call now0 c row).
Proof. unfold grows_call, grows_later, active. apply _. Defined.
Definition call_fine (now0 : Z) (grow_rows : list item_generate) (c : growth_call) : Prop :=
  forall row, row ∈ grow_rows -> grows_call now0 c row -> growable (rg_grow row) (gc_create c) (gc_now c) (gc_count c) (gc_update c).
(** The answer to a call: what the row says, and nothing without a row. *)
Definition answered (now0 : Z) (grow_rows : list item_generate) (c : growth_call) (r : Z * Z * option Z) : Prop :=
  (forall row, row ∈ grow_rows -> grows_call now0 c row ->
     answer r = grown (rg_grow row) (gc_create c) (gc_now c) (gc_count c) (gc_update c)) /\
  ((forall row, row ∈ grow_rows -> ~ grows_call now0 c row) -> r = (gc_count c, 0, None)).
(** Time does not run backwards. *)
Fixpoint in_time (now : Z) (calls : list growth_call) : Prop :=
  match calls with [] => True | c :: calls' => now <= gc_now c /\ in_time (gc_now c) calls' end.

Lemma rows_for_in now0 c grow_rows g : g ∈ rows_for now0 (gc_id c) grow_rows /\ active (gc_now c) g <-> exists row, row ∈ grow_rows /\ grows_call now0 c row /\ rg_grow row = g.
Proof.
  unfold rows_for, grows_call. rewrite list_elem_of_fmap. split.
  - intros [(row & -> & Hr) Ha]. apply list_elem_of_filter in Hr as [[Hl Hi] Hr]. eauto 10.
  - intros (row & Hr & (Hl & Hi & Ha) & <-). split; [|exact Ha]. exists row. split; [reflexivity|]. apply list_elem_of_filter. auto.
Qed.

Lemma calc_run_spec {M} `{PtrMapLaws M} malloc now0 grow_rows : (forall h, h !! malloc h = None /\ malloc h <> 0) -> forall calls (s : item_configs M) b now,
  configs_ok s b -> loaded now0 grow_rows s now -> in_time now calls -> b + zlen calls < 2 ^ 61 -> Forall (call_fine now0 grow_rows) calls ->
  exists s' rs, calc_run malloc s calls = Ret (s', rs) /\ Forall2 (answered now0 grow_rows) calls rs.
Proof.
  intros Hmal. induction calls as [|c calls IH]; intros s b now Hok Hl Ht Hb Hf; cbn [calc_run]; [eauto|].
  rewrite zlen_cons in Hb. pose proof (zlen_nonneg calls). apply list.Forall_cons in Hf as [Hc Hf]. destruct Ht as [Hn Ht]. pose proof (loaded_mono now0 grow_rows s now (gc_now c) Hl Hn) as Hl'.
  assert (Hin : forall g, g ∈ grows_of s (gc_id c) /\ active (gc_now c) g <-> exists row, row ∈ grow_rows /\ grows_call now0 c row /\ rg_grow row = g).
  { intros g. rewrite <- rows_for_in. split; intros [Hg Ha]; (split; [|exact Ha]); now apply (Hl' (gc_id c) g (gc_now c) ltac:(lia) Ha). }
  assert (Hstep : exists s1 r, calc_item_grow_count malloc s (gc_create c) (gc_now c) (gc_id c) (gc_count c) (gc_update c) = Ret (s1, r) /\ configs_ok s1 (b + 1) /\
    (forall id, grows_of s1 id = if u64 id =? u64 (gc_id c) then skip_ended (gc_now c) (grows_of s (gc_id c)) else grows_of s id) /\ answered now0 grow_rows c r).
  { destruct (decide (Exists (fun row => grows_call now0 c row) grow_rows)) as [He|He].
    - apply list.Exists_exists in He as (row & Hr & Hrc). destruct (proj2 (Hin (rg_grow row)) ltac:(eauto)) as [Hg Ha].
      destruct (calc_active malloc Hmal s b (gc_create c) (gc_now c) (gc_id c) (gc_count c) (gc_update c) (rg_grow row) Hok ltac:(lia) Hg Ha (Hc row Hr Hrc)) as (s1 & r & -> & Hok1 & Hg1 & Er).
      exists s1, r. split; [reflexivity|]. split; [exact Hok1|]. split; [exact Hg1|]. split; [|intros Hno; exfalso; exact (Hno row Hr Hrc)].
      intros row' Hr' Hrc'. destruct (proj2 (Hin (rg_grow row')) ltac:(eauto)) as [Hg' Ha'].
      destruct (skip_active (gc_now c) _ _ (grows_in_order s b (gc_id c) Hok) Hg Ha) as [l E]. destruct (skip_active (gc_now c) _ _ (grows_in_order s b (gc_id c) Hok) Hg' Ha') as [l' E'].
      rewrite E in E'. injection E' as <- _. exact Er.
    - destruct (calc_inactive malloc Hmal s b (gc_create c) (gc_now c) (gc_id c) (gc_count c) (gc_update c) Hok ltac:(lia)) as (s1 & -> & Hok1 & Hg1).
      { intros g Hg Ha. apply He. destruct (proj1 (Hin g) (conj Hg Ha)) as (row & Hr & Hrc & _). apply list.Exists_exists. eauto. }
      eexists s1, _. split; [reflexivity|]. split; [exact Hok1|]. split; [exact Hg1|]. split; [|auto]. intros row Hr Hrc. exfalso. apply He, list.Exists_exists. eauto. }
  destruct Hstep as (s1 & r & -> & Hok1 & Hg1 & Ha). cbn [mbind outcome_bind].
  destruct (IH s1 (b + 1) (gc_now c) Hok1 (loaded_later now0 grow_rows s s1 b (gc_id c) (gc_now c) Hok Hl' Hg1) Ht ltac:(lia) Hf) as (s' & rs & -> & Hrs). cbn [mbind outcome_bind]. eauto.
Qed.

(** C31: Items grow as they are configured.  A configuration that is loaded without an error gives every item the
    growing times of its rows, in order and apart from each other; and every sequence of calls of
    [calc_item_grow_count] whose times do not run backwards, where the player was created and the item updated no
    later than the call and times, counts and what is grown stay within an [int] ([call_fine]),
    returns and answers each call as the reference does: one amount for every second since the last update at which a
    period of the row starts, up to the limit but never below what there was, and from zero when a reset period of
    the row has started since the last update.  The starts are those from the last one on that is not after the
    creation of the player, so that the period in which the player was created counts.  Two starts are counted
    otherwise than they should be, as [counted_starts] says: an update in the second of the first start lets it
    count again, and an update less than a period before the configured first start delays it to the next.  What a
    call answers after a reset depends on when the item was asked for before ([growth_reset_depends]). *)
Theorem items_grow_as_configured {M} `{PtrMapLaws M} (map_new : M) (malloc : gmap Z ItemConfig -> Z) (s : item_configs M) now0 rows grow_rows :
  pm_ok map_new -> pm_abs map_new = ∅ -> (forall h, h !! malloc h = None /\ malloc h <> 0) -> zlen rows + zlen grow_rows < 2 ^ 60 ->
  exists s' r, reload_items map_new malloc now0 s rows grow_rows = Ret (s', r) /\
    (r = 0 -> (forall id, in_order (grows_of s' id) /\ grows_of s' id ≡ₚ rows_for now0 id grow_rows) /\
      forall calls, in_time now0 calls -> zlen calls < 2 ^ 60 -> Forall (call_fine now0 grow_rows) calls ->
        exists s2 rs, calc_run malloc s' calls = Ret (s2, rs) /\ Forall2 (answered now0 grow_rows) calls rs).
Proof.
  intros Hm Hm0 Hmal Hb. destruct (reload_spec map_new Hm Hm0 malloc Hmal s now0 rows grow_rows ltac:(lia)) as (s' & r & He & Hok & Hr). exists s', r. split; [exact He|]. intros ->.
  destruct (Hr eq_refl) as [Hp _]. split; [intros id; split; [exact (grows_in_order _ _ _ Hok)|apply Hp]|].
  intros calls Ht Hl Hf. apply (calc_run_spec malloc now0 grow_rows Hmal calls s' _ now0 Hok); [|exact Ht|lia|exact Hf]. intros id g t _ _. now rewrite Hp.
Qed.

Definition sample_rows : list item_generate :=
  [mk_grow_row 1 41 90010 (mk_grow 1000 9000 60 5 100 0); mk_grow_row 2 41 90011 (mk_grow 5000 9000 100 1 10 0); mk_grow_row 3 41 90011 (mk_grow 1000 4000 10 2 50 600)].
(** Player created at 1100: five for each minute that starts, and at most a hundred. *)
Definition sample_calls : list growth_call :=
  [mk_call 1100 1200 90010 0 0; mk_call 1100 1205 90010 15 1200; mk_call 1100 3000 90010 15 1200; mk_call 1100 3010 90011 7 1150; mk_call 1100 6000 90011 60 3010].
Lemma items_grow_as_configured_witness :
  exists s', reload_items (_agMap_new : agmap Z) next_address 500 (mk_items _agMap_new ∅ []) [mk_item_row 90010 0 0] sample_rows = Ret (s', 0) /\
    exists s2 rs, calc_run next_address s' sample_calls = Ret (s2, rs) /\ Forall2 (answered 500 sample_rows) sample_calls rs.
Proof.
  destruct (items_grow_as_configured (_agMap_new : agmap Z) next_address (mk_items _agMap_new ∅ []) 500 [mk_item_row 90010 0 0] sample_rows) as (s' & r & He & Hr).
  - split; apply agMap_new_ok.
  - apply agMap_new_ok.
  - intros h. destruct (next_address_spec h). split; [assumption|lia].
  - reflexivity.
  - assert (r = 0) as -> by (vm_compute in He; now injection He). exists s'. split; [exact He|]. destruct (Hr eq_refl) as [_ Hrun]. apply Hrun.
    + cbn. lia.
    + reflexivity.
    + repeat (apply list.Forall_cons; split); [..|now apply list.Forall_nil]; intros row Hrow (Hl & Hi & Ha);
        repeat (apply elem_of_cons in Hrow as [->|Hrow]; [first [discriminate (Hi : _ = _)|exfalso; vm_compute in Ha; destruct Ha; congruence|constructor; vm_compute; intuition congruence]|]); inversion Hrow.
Defined.

(** ** Where the code does not do what it means to *)

Definition sample_grow : ItemGrowInfo := mk_grow 1000 9000 60 5 100 0.
Definition sample_state : item_configs (agmap Z) :=
  match reload_items _agMap_new next_address 500 (mk_items _agMap_new ∅ []) [] sample_rows with Ret (s, _) => s | _ => mk_items _agMap_new ∅ [] end.
Definition sample_result (create now count u : Z) : outcome (Z * Z * option Z) := '(_, r) ← calc_item_grow_count next_address sample_state create now 90010 count u; Ret r.

(** An item updated less than a period before the first start misses it: the division rounds towards zero. *)
Lemma growth_misses_first : sample_result 0 1030 0 990 = Ret (0, 0, None) /\ starts (first_start sample_grow 0) 60 990 1030 = 1.
Proof. split; vm_compute; reflexivity. Qed.

(** An item updated in the second of the first start is given that start again. *)
Lemma growth_first_twice : sample_result 0 1000 0 0 = Ret (5, 1, None) /\ sample_result 0 1060 5 1000 = Ret (15, 1, None) /\ starts (first_start sample_grow 0) 60 1000 1060 = 1.
Proof. repeat split; vm_compute; reflexivity. Qed.

(** The chain of growing items is not reset when the configuration is loaded again: it leads into freed memory. *)
Lemma reload_dangles : exists s a, reload_items _agMap_new next_address 500 sample_state [] [] = Ret (s, 0) /\ a ∈ im_growing s /\ im_heap s !! a = None.
Proof.
  eexists _, 8. split; [reflexivity|]. split; [|reflexivity]. apply (bool_decide_unpack _). vm_compute. exact I.
Qed.

(** What an item with a reset has depends on when it is asked for: starts before the reset are counted after it. *)
Lemma growth_reset_depends : let g := mk_grow 1000 4000 10 2 50 600 in
  grown g 0 1590 7 1150 = (50, true, 45) /\ grown g 0 1610 50 1590 = (4, true, 0) /\ grown g 0 1610 7 1150 = (50, true, 42).
Proof. repeat split; vm_compute; reflexivity. Qed.
