(* ===== verification/Growth.v ===== *)
(** * What the items of a player need of others

    [modules/item.c] asks the configuration for the type of an item, for the growing time it is in, and for what
    has grown; and it compensates the player for what grows above the limit of an item ([Compensator]).  The class [Growth] has these calls, and [GrowthLaws] what they promise: the answers are those of
    a [growth_spec], which does not change with the calls, although the calls change the configuration.  The
    instance is the configuration of [ItemGrow]. *)
From S2P Require Import Prelude AgMap ItemGrow.

Class Growth (G : Type) := {
  item_type : G -> Z -> outcome (G * Z);
  item_active : G -> Z -> Z -> outcome (G * option ItemGrowInfo);
  item_growth : G -> Z -> Z -> Z -> Z -> Z -> outcome (G * (Z * Z * option Z)) }.

(** The types of items, and the growing time of an item at a time. *)
Record growth_spec := mk_growth_spec { sp_type : Z -> Z; sp_active : Z -> Z -> option ItemGrowInfo }.
(** Count, whether it has changed, and what is too much. *)
Definition sp_growth (sp : growth_spec) (create now id count update_time : Z) : Z * bool * Z :=
  match sp_active sp now id with Some g => answer (grow_count g create now count update_time) | None => (count, false, 0) end.

(** [gr_rep g t b sp]: from time [t] on the configuration answers as [sp]; [b] bounds its size. *)
Class GrowthLaws (G : Type) `{Growth G} := {
  gr_rep : G -> Z -> Z -> growth_spec -> Prop;
  gr_later : forall g t b sp t' b', gr_rep g t b sp -> t <= t' -> b <= b' -> gr_rep g t' b' sp;
  gr_type_spec : forall g t b sp id, gr_rep g t b sp -> b < 2 ^ 61 ->
    exists g', item_type g id = Ret (g', sp_type sp id) /\ gr_rep g' t (b + 1) sp;
  gr_active_spec : forall g t b sp now id, gr_rep g t b sp -> b < 2 ^ 61 -> t <= now ->
    exists g', item_active g now id = Ret (g', sp_active sp now id) /\ gr_rep g' t (b + 1) sp;
  gr_growth_spec : forall g t b sp create now id count update_time, gr_rep g t b sp -> b < 2 ^ 61 -> t <= now ->
    exists g' r, item_growth g create now id count update_time = Ret (g', r) /\ answer r = sp_growth sp create now id count update_time /\ gr_rep g' now (b + 1) sp }.

(** The compensation for what is too much, with its own table; [flush] is that of the table. *)
Class Compensator (C G : Type) := {
  compensate_item : C -> G -> Z -> Z -> Z -> Z -> outcome (C * G);
  compensate_load : C -> outcome C;
  compensate_release : C -> outcome C;
  compensate_flush : C -> Z -> outcome C }.

(** Its calls return, and leave the configuration of items as it is. *)
Class CompensatorLaws (C G : Type) `{GrowthLaws G} `{!Compensator C G} := {
  cp_rep : C -> Z -> growth_spec -> Prop;
  cp_later : forall c b b' sp, cp_rep c b sp -> b <= b' -> cp_rep c b' sp;
  cp_item_spec : forall c g t b b' sp now id count update_time, cp_rep c b sp -> gr_rep g t b' sp -> 0 <= b < 2 ^ 30 -> b' < 2 ^ 61 -> t <= now -> 0 <= update_time <= now -> now < 2 ^ 31 ->
    exists c' g', compensate_item c g now id count update_time = Ret (c', g') /\ cp_rep c' (b + 1) sp /\ gr_rep g' t (b' + 1) sp;
  cp_flush_spec : forall c b sp now, cp_rep c b sp -> exists c', compensate_flush c now = Ret c' /\ cp_rep c' b sp;
  cp_relogin_spec : forall c b sp now, cp_rep c b sp -> b < 2 ^ 30 ->
    exists c1 c2 c3, compensate_release c = Ret c1 /\ compensate_flush c1 now = Ret c2 /\ compensate_load c2 = Ret c3 /\ cp_rep c3 b sp }.

Section Instances.
Context {M : Type} `{PtrMapLaws M} (malloc : gmap Z ItemConfig -> Z) (malloc_ok : forall h, h !! malloc h = None /\ malloc h <> 0).

Definition config_growth : Growth (item_configs M) := {|
  item_type s id := '(s, a) ← get_item_base_config malloc s id; c ← deref (im_heap s !! a); Ret (s, ic_type c);
  item_active s now id :=
    '(s, a) ← get_item_base_config malloc s id;
    c ← deref (im_heap s !! a);
    Ret (s, find (fun grow => (now <? end_time grow) && (begin_time grow <=? now)) (ic_grow c));
  item_growth s create now id count update_time := calc_item_grow_count malloc s create now id count update_time |}.

Definition type_of (s : item_configs M) (id : Z) : Z :=
  match pm_abs (im_map s) !! u64 id with Some a => match im_heap s !! a with Some c => ic_type c | None => 0 end | None => 0 end.
Definition is_active (now : Z) (g : ItemGrowInfo) : bool := (now <? end_time g) && (begin_time g <=? now).
Definition config_spec (s : item_configs M) : growth_spec := mk_growth_spec (type_of s) (fun now id => find (is_active now) (grows_of s id)).

Record config_rep (s : item_configs M) (t b : Z) (sp : growth_spec) : Prop := {
  cr_ok : configs_ok s b;
  cr_type : forall id, sp_type sp id = type_of s id;
  cr_active : forall now id g, t <= now -> sp_active sp now id = Some g <-> g ∈ grows_of s id /\ active now g;
  cr_period : forall now id g, sp_active sp now id = Some g -> period g <> 0 }.

Lemma is_active_spec now g : is_active now g = true <-> active now g.
Proof. unfold is_active, active. rewrite andb_true_iff, Z.ltb_lt, Z.leb_le. lia. Qed.

(** Growing times do not meet: there is at most one at a time. *)
Lemma active_one now l g g' : in_order l -> g ∈ l -> g' ∈ l -> active now g -> active now g' -> g = g'.
Proof.
  intros Ho Hg Hg' Ha Ha'. destruct (skip_active now l g Ho Hg Ha) as [r E]. destruct (skip_active now l g' Ho Hg' Ha') as [r' E']. congruence.
Qed.
Lemma find_active now l g : in_order l -> find (is_active now) l = Some g <-> g ∈ l /\ active now g.
Proof.
  intros Ho. split.
  - intros Hf. apply find_some in Hf as [Hg Ha]. apply list_elem_of_In in Hg. apply is_active_spec in Ha. auto.
  - intros [Hg Ha]. destruct (find (is_active now) l) as [g'|] eqn:Hf.
    + apply find_some in Hf as [Hg' Ha']. apply list_elem_of_In in Hg'. apply is_active_spec in Ha'. f_equal. now apply (active_one now l).
    + apply list_elem_of_In in Hg. pose proof (find_none _ _ Hf g Hg) as E. apply is_active_spec in Ha. congruence.
Qed.

Lemma config_spec_rep s t b : configs_ok s b -> (forall id g, g ∈ grows_of s id -> period g <> 0) -> config_rep s t b (config_spec s).
Proof.
  intros Hok Hp. constructor; cbn; [exact Hok|reflexivity| |].
  - intros now id g _. apply find_active. exact (grows_in_order s b id Hok).
  - intros now id g Hf. apply find_active in Hf as [Hg _]; [eauto|exact (grows_in_order s b id Hok)].
Qed.

(** Asking for an item makes its configuration, and changes no other. *)
Lemma get_config_rep s t b sp id : config_rep s t b sp -> b < 2 ^ 61 ->
  exists s' a c, get_item_base_config malloc s id = Ret (s', a) /\ config_rep s' t (b + 1) sp /\ im_heap s' !! a = Some c /\ ic_grow c = grows_of s' id /\ ic_type c = sp_type sp id.
Proof.
  intros [Hok Ht Ha Hp] Hb. destruct (get_config_spec malloc malloc_ok s b id Hok Hb) as (s' & a & c & He & Hok' & Hm & Hz & Hc & Hg & Hsame).
  assert (Htypes : forall id', type_of s' id' = type_of s id').
  { unfold get_item_base_config in He. rewrite (pm_get_spec _ _ (cf_map _ _ Hok)) in He. cbn [mbind outcome_bind] in He.
    destruct (pm_abs (im_map s) !! u64 id) as [a0|] eqn:Ea; cbn [from_option] in He.
    - destruct (cf_entry _ _ Hok _ _ Ea) as (Hz0 & _). apply Z.eqb_neq in Hz0. unfold Datatypes.id in He. rewrite Hz0 in He. now injection He as <- <-.
    - cbn [Z.eqb] in He. unfold add_fake_item_config in He. destruct (malloc_ok (im_heap s)) as [Hf Hz0]. apply Z.eqb_neq in Hz0 as Hz1. rewrite Hz1 in He.
      destruct (pm_set_spec (im_map s) (u64 id) (malloc (im_heap s)) (cf_map _ _ Hok)) as (m & Hs & _ & Habs); [pose proof (cf_size _ _ Hok); lia|]. rewrite Hs, Hz1 in *. cbn [mbind outcome_bind] in He.
      rewrite Ea in He. cbn in He. injection He as <- _. intros id'. unfold type_of. cbn [im_map im_heap]. rewrite Habs. destruct (Z.eqb_spec (u64 id') (u64 id)) as [Ei|Ei].
      + rewrite Ei, lookup_insert_eq, lookup_insert_eq, Ea. reflexivity.
      + rewrite lookup_insert_ne by congruence. destruct (pm_abs (im_map s) !! u64 id') as [a'|] eqn:Ea'; [|reflexivity].
        destruct (cf_entry _ _ Hok _ _ Ea') as (_ & c' & Hc' & _). rewrite lookup_insert_ne; [reflexivity|]. intros E. rewrite <- E in Hc'. congruence. }
  exists s', a, c. split; [exact He|]. split; [|split; [exact Hc|]; split; [now rewrite Hsame|]].
  - constructor; [exact Hok'|intros id'; now rewrite Htypes|intros now id' g Hn; rewrite Hsame; now apply Ha|exact Hp].
  - rewrite Ht, <- Htypes. unfold type_of. now rewrite Hm, Hc.
Qed.

Lemma calc_types s create now id count u s' r b : configs_ok s b -> b < 2 ^ 61 -> calc_item_grow_count malloc s create now id count u = Ret (s', r) ->
  forall s1 a, get_item_base_config malloc s id = Ret (s1, a) -> forall id', type_of s' id' = type_of s1 id'.
Proof.
  intros Hok Hb He s1 a Hg. unfold calc_item_grow_count in He. rewrite Hg in He. cbn [mbind outcome_bind] in He. destruct (a =? 0); [now injection He as <- _|].
  destruct (im_heap s1 !! a) as [c|] eqn:Hc; [|discriminate]. cbn [deref mbind outcome_bind] in He.
  assert (Hput : forall l id', type_of (put_config s1 a (mk_config (ic_id c) (ic_type c) (ic_compose_num c) l)) id' = type_of s1 id').
  { intros l id'. unfold type_of. cbn [im_map im_heap put_config]. destruct (pm_abs (im_map s1) !! u64 id') as [a'|]; [|reflexivity].
    destruct (decide (a' = a)) as [->|Hne]; [now rewrite lookup_insert_eq, Hc|now rewrite lookup_insert_ne by congruence]. }
  destruct (skip_ended now (ic_grow c)) as [|g rest]; [injection He as <- _; apply Hput|]. destruct (now <? begin_time g); [injection He as <- _; apply Hput|].
  destruct (period g =? 0); [discriminate|]. injection He as <- _. apply Hput.
Qed.

#[export] Program Instance config_growth_laws : @GrowthLaws (item_configs M) config_growth := { gr_rep := config_rep }.
Next Obligation.
  intros s t b sp t' b' [[Hm He Hs] Ht Ha Hp] Hle Hb. constructor; [constructor; [exact Hm|exact He|lia]|exact Ht|intros; apply Ha; lia|exact Hp].
Qed.
Next Obligation.
  intros s t b sp id Hr Hb. destruct (get_config_rep s t b sp id Hr Hb) as (s' & a & c & He & Hr' & Hc & _ & Ht). exists s'. cbn. rewrite He. cbn [mbind outcome_bind]. rewrite Hc. cbn. now rewrite Ht.
Qed.
Next Obligation.
  intros s t b sp now id Hr Hb Hn. destruct (get_config_rep s t b sp id Hr Hb) as (s' & a & c & He & Hr' & Hc & Hg & _). exists s'. cbn. rewrite He. cbn [mbind outcome_bind]. rewrite Hc. cbn [deref mbind outcome_bind].
  split; [|exact Hr']. do 2 f_equal. rewrite Hg. change (fun grow => _) with (is_active now). pose proof (grows_in_order s' (b + 1) id (cr_ok _ _ _ _ Hr')) as Ho.
  destruct (find (is_active now) (grows_of s' id)) as [g|] eqn:Ef.
  - apply find_active in Ef; [|exact Ho]. symmetry. now apply (cr_active _ _ _ _ Hr').
  - symmetry. apply eq_None_not_Some. intros [g Hg']. apply (cr_active _ _ _ _ Hr') in Hg'; [|exact Hn]. apply find_active in Hg'; [congruence|exact Ho].
Qed.
Next Obligation.
  intros s t b sp create now id count u Hr Hb Hn. destruct (get_config_rep s t b sp id Hr Hb) as (s1 & a & c & He & Hr1 & _). pose proof Hr as [Hok Ht Ha Hp].
  assert (Hcase : exists s' r, calc_item_grow_count malloc s create now id count u = Ret (s', r) /\ answer r = sp_growth sp create now id count u /\ configs_ok s' (b + 1) /\
    forall id', grows_of s' id' = if u64 id' =? u64 id then skip_ended now (grows_of s id) else grows_of s id').
  { unfold sp_growth. destruct (sp_active sp now id) as [g|] eqn:Eg.
    - destruct (proj1 (Ha now id g Hn) Eg) as [Hg Hact]. destruct (calc_found malloc malloc_ok s b create now id count u g Hok Hb Hg Hact (Hp now id g Eg)) as (s' & Hc & Hok' & Hgs). eauto 10.
    - destruct (calc_inactive malloc malloc_ok s b create now id count u Hok Hb) as (s' & Hc & Hok' & Hgs); [intros g Hg Hact; pose proof (proj2 (Ha now id g Hn) (conj Hg Hact)); congruence|].
      eexists s', _. split; [exact Hc|]. auto. }
  destruct Hcase as (s' & r & Hc & Hans & Hok' & Hgs). exists s', r. split; [exact Hc|]. split; [exact Hans|]. constructor; [exact Hok'| | |exact Hp].
  - intros id'. rewrite (calc_types s create now id count u s' r b Hok Hb Hc s1 a He). exact (cr_type _ _ _ _ Hr1 id').
  - intros now' id' g Hn'. rewrite Hgs, (Ha now' id' g) by lia. destruct (Z.eqb_spec (u64 id') (u64 id)) as [Ei|]; [|reflexivity].
    assert (E : grows_of s id' = grows_of s id) by (unfold grows_of; now rewrite Ei). rewrite E, (proj2 (skip_ended_spec now _ (grows_in_order s b id Hok)) g). unfold active. intuition lia.
Qed.
End Instances.
