(* ===== verification/Compensate.v ===== *)
(** * Compensation: [config/compensate.c] and the compensation of [modules/item.c]

    What grows above the limit of an item is not lost: for each period a record says what the player may draw, of
    which [struct Compensate] keeps the count for each drop and each time.  The records are found through two maps
    ([HeroMaps]).  What is given for which item and level is configured ([config_delay_exp]). *)
From S2P Require Import Prelude AgMap Array Dlist Data DataSet HeroMaps ItemGrow Growth.

(** ** The configuration *)

(** [struct CompensateCfg] *)
Record CompensateCfg := mk_ccfg { cg_id : Z; cg_num : Z; cg_min_level : Z; cg_max_level : Z; cg_drop1 : Z; cg_drop2 : Z; cg_drop3 : Z; cg_next : Z }.
(** The rows of the table [config_delay_exp]. *)
Record config_delay_exp := mk_delay { rd_count_id : Z; rd_reduce_num : Z; rd_minlevel : Z; rd_maxlevel : Z; rd_drop1 : Z; rd_drop2 : Z; rd_drop3 : Z }.

(** [_map], the arrays it leads to, the configurations in memory, and [cfg_list]. *)
Record compen_configs (M : Type) := mk_cc { cc_map : M; cc_arrays : gmap Z array; cc_cfgs : gmap Z CompensateCfg; cc_list : Z }.
Arguments mk_cc {M} _ _ _ _.
Arguments cc_map {M} _.
Arguments cc_arrays {M} _.
Arguments cc_cfgs {M} _.
Arguments cc_list {M} _.

Section Config.
Context {M : Type} `{PtrMap M} (map_new : M) (malloc_array : gmap Z array -> Z) (malloc_cfg : gmap Z CompensateCfg -> Z).
#[local] Abbreviation configs := (compen_configs M).

(** The array of an item, made when it is not there. *)
Definition cfg_array (s : configs) (count_id : Z) : outcome (configs * Z) :=
  arr ← pm_get (cc_map s) (u64 count_id);
  if arr =? 0 then
    let a := malloc_array (cc_arrays s) in
    if a =? 0 then Undef
    else '(m, _) ← pm_set (cc_map s) (u64 count_id) a; Ret (mk_cc m (<[a := array_new 256]> (cc_arrays s)) (cc_cfgs s) (cc_list s), a)
  else Ret (s, arr).

Definition parse_compensate_cfg (s : configs) (row : config_delay_exp) : outcome (configs * Z) :=
  '(s, arr) ← cfg_array s (rd_count_id row);
  let p := malloc_cfg (cc_cfgs s) in
  if p =? 0 then Undef
  else
    a ← deref (cc_arrays s !! arr);
    '(a, _) ← array_push a p;
    let cfg := mk_ccfg (rd_count_id row) (rd_reduce_num row) (rd_minlevel row) (rd_maxlevel row) (rd_drop1 row) (rd_drop2 row) (rd_drop3 row) (cc_list s) in
    Ret (mk_cc (cc_map s) (<[arr := a]> (cc_arrays s)) (<[p := cfg]> (cc_cfgs s)) p, 0).

Definition load_compensate_config (s : configs) (rows : list config_delay_exp) : outcome (configs * Z) :=
  foreach_row parse_compensate_cfg (mk_cc map_new (cc_arrays s) (cc_cfgs s) (cc_list s)) rows.
(** The reloading of the configuration frees what was loaded before, but the arrays. *)
Definition reload_compensate (s : configs) (rows : list config_delay_exp) : outcome (configs * Z) :=
  load_compensate_config (mk_cc (cc_map s) (cc_arrays s) ∅ (cc_list s)) rows.

(** The first configuration of an array for a level, or 0. *)
Fixpoint cfg_loop (fuel : nat) (s : configs) (a : array) (i level : Z) : outcome Z :=
  if i <? array_count a then
    match fuel with
    | O => NoFuel
    | S fuel' =>
      p ← array_get a i;
      if p =? 0 then cfg_loop fuel' s a (i + 1) level
      else
        cfg ← deref (cc_cfgs s !! p);
        if (cg_min_level cfg <=? level) && (level <=? cg_max_level cfg) then Ret p else cfg_loop fuel' s a (i + 1) level
    end
  else Ret 0.
Definition get_compensate_cfg (s : configs) (id level : Z) : outcome Z :=
  arr ← pm_get (cc_map s) (u64 id);
  if arr =? 0 then Ret 0 else a ← deref (cc_arrays s !! arr); cfg_loop (Z.to_nat (array_count a)) s a 0 level.

Definition compensate_next (s : configs) (cfg : Z) : outcome Z :=
  if cfg =? 0 then Ret (cc_list s) else c ← deref (cc_cfgs s !! cfg); Ret (cg_next c).
End Config.

(** ** The records *)

(** [struct Compensate]: the columns of the table.  The rest of the key, [drop_id] and [time], is one number with
    [time], 32 bits wide in the table, as its low half. *)
Record Compensate := mk_comp { cm_pid : Z; cm_number : Z; cm_count : Z; cm_level : Z }.
Definition cm_drop_id (r : Compensate) : Z := cm_number r / two32.
Definition cm_time (r : Compensate) : Z := cm_number r mod two32.
#[export] Instance compensate_row : Row Compensate := {
  row_ids := [4; 5];
  row_get r i := if i =? 4 then cm_count r else cm_level r;
  row_set r i x := if i =? 4 then mk_comp (cm_pid r) (cm_number r) x (cm_level r) else mk_comp (cm_pid r) (cm_number r) (cm_count r) x }.
Definition compensate_key (r : Compensate) : Z * Z := (cm_pid r, cm_number r).
#[export] Instance compensate_row_laws : RowLaws Compensate (Z * Z) compensate_key.
Proof.
  assert (Hin : forall i, i ∈ [4; 5] -> i = 4 \/ i = 5) by (intros i Hi; rewrite !elem_of_cons, elem_of_nil in Hi; tauto).
  constructor; cbn [row_ids row_get row_set compensate_row].
  - intros i Hi. apply Hin in Hi. lia.
  - intros r i j x Hi Hj. apply Hin in Hi as [->| ->], Hj as [->| ->]; reflexivity.
  - intros r i x Hi. apply Hin in Hi as [->| ->]; reflexivity.
  - intros [p n c l] [q m d k] [= -> ->] Hg. pose proof (Hg 4 ltac:(left)) as Hc. pose proof (Hg 5 ltac:(right; left)) as Hl. cbn in Hc, Hl. congruence.
Qed.

(** The table, the list [set->list2] with its maps [set->m2], and the configuration. *)
Record comp_state (W M : Type) := mk_cs { cs_store : store Compensate W; cs_set : data_set (hero_maps M); cs_configs : compen_configs M }.
Arguments mk_cs {W M} _ _ _.
Arguments cs_store {W M} _.
Arguments cs_set {W M} _.
Arguments cs_configs {W M} _.

(** [COMPEN_TIME]: the last second of the period of a time. *)
Definition COMPEN_TIME (t ref period : Z) : Z := ref + (Z.quot (t - ref) period + 1) * period - 1.

Section Operations.
Context {W M G : Type} `{Database Compensate W} `{PtrMap M} `{Growth G} (map_new : M) (malloc_map : gmap Z M -> Z).
Context (void : Z) (malloc : gmap Z (datum Compensate) -> Z).
(** The player, and the level of the player's leading role. *)
Context (pid level : Z).
#[local] Abbreviation state := (comp_state W M).
#[local] Instance comp_index : PtrMap (hero_maps M) := maps_index map_new malloc_map.

Definition with_records (s : state) st : state := mk_cs st (cs_set s) (cs_configs s).

(** The record of a drop and a time, or 0. *)
Definition compensate_get (s : state) (id time : Z) : outcome Z := maps_get (ds_m (cs_set s)) id time.

Definition compensate_set (s : state) (c : Z) : outcome state :=
  v ← deref (st_heap (cs_store s) !! c);
  '(m, tmap) ← maps_make map_new malloc_map (ds_m (cs_set s)) (cm_drop_id (dt_row v));
  i ← deref (hm_maps m !! tmap);
  old ← pm_get i (cm_time (dt_row v));
  m ← (if old =? 0 then '(m, _) ← maps_put m tmap (cm_time (dt_row v)) c; Ret m else Ret m);
  h ← dlist_init (st_heap (cs_store s)) c;
  '(h, q) ← dlist_insert_tail h (ds_list (cs_set s)) c;
  Ret (mk_cs (with_heap (cs_store s) h) (mk_set m q) (cs_configs s)).

(** A count is entered; the structure of a row that cannot be inserted stays behind. *)
Definition compensate_enter (s : state) (now drop time n : Z) : outcome state :=
  c ← compensate_get s drop time;
  if c =? 0 then
    let a := malloc (st_heap (cs_store s)) in
    if a =? 0 then Undef
    else
      '(st, ret) ← DATA_new (with_datum (cs_store s) a (new_datum (mk_comp pid (number drop time) (u32 n) (u32 level)))) a;
      if ret =? 0 then compensate_set (with_records s st) a else Ret (with_records s st)
  else
    v ← deref (st_heap (cs_store s) !! c);
    st ← DATA_update (cs_store s) now c 4 (u32 (cm_count (dt_row v) + n));
    Ret (with_records s st).

(** The time of the [i]-th period. *)
Definition compensate_time (grow : ItemGrowInfo) (update_time i : Z) : Z :=
  COMPEN_TIME (update_time + i32 (period grow * i)) (begin_time grow) (if period grow <? 86400 then 86400 else period grow).

(** The periods from [i] on. *)
Fixpoint compensate_loop (fuel : nat) (s : state) (now : Z) (grow : ItemGrowInfo) (cfg : CompensateCfg) (remain update_time i nperiod : Z) : outcome state :=
  if i <? nperiod then
    match fuel with
    | O => NoFuel
    | S fuel' =>
      let n := if (i =? 0) && negb (remain =? 0) then remain else amount grow in
      if cg_num cfg =? 0 then Undef
      else if Z.quot n (cg_num cfg) =? 0 then Ret s
      else
        s ← compensate_enter s now (u32 (cg_drop1 cfg)) (compensate_time grow update_time i) (Z.quot n (cg_num cfg));
        compensate_loop fuel' s now grow cfg remain update_time (i + 1) nperiod
    end
  else Ret s.

(** [compensate_item]; its result is not looked at. *)
Definition compensate_count (s : state) (g : G) (now id count update_time : Z) : outcome (state * G) :=
  if (count <=? 0) || (update_time <=? 0) then Ret (s, g)
  else
    '(g, grow) ← item_active g now id;
    match grow with
    | None => Ret (s, g)
    | Some grow =>
      cfg ← get_compensate_cfg (cs_configs s) id level;
      if cfg =? 0 then Ret (s, g)
      else
        cfg ← deref (cc_cfgs (cs_configs s) !! cfg);
        if (amount grow =? 0) || (period grow =? 0) then Undef
        else
          let remain := Z.rem count (amount grow) in
          let nperiod := i32 (Z.quot (COMPEN_TIME now (begin_time grow) (period grow) - COMPEN_TIME update_time (begin_time grow) (period grow)) (period grow)) in
          let most := i32 (30 * Z.quot 86400 (period grow)) in
          let i := if most <? nperiod then nperiod - most else 0 in
          s ← compensate_loop (Z.to_nat (nperiod - i)) s now grow cfg remain update_time i nperiod;
          Ret (s, g)
    end.

(** When the query fails there are no records. *)
Definition load_records (s : state) : outcome state :=
  '(st, set) ← load_set cm_number (fun _ => true) (maps_new map_new) malloc (cs_store s) pid;
  Ret (mk_cs st (match set with Some set => set | None => mk_set (maps_new map_new) 0 end) (cs_configs s)).
(** The records leave the list; the maps are freed with them. *)
Definition release_records (s : state) : outcome state := st ← release_set (cs_store s) (cs_set s); Ret (with_records s st).

#[export] Instance item_compensator : Compensator state G := {
  compensate_item := compensate_count;
  compensate_load := load_records;
  compensate_release := release_records;
  compensate_flush s now := st ← DATA_flush void (cs_store s) now; Ret (with_records s st) }.

(** The records of a time are drawn: [(drop_id, level)] for each of their counts, [room] at most ([size]), and they are deleted. *)
Fixpoint draw_loop (fuel : nat) (s : state) (cur time room : Z) (drops : list (Z * Z)) (ret : Z) : outcome (state * list (Z * Z) * Z) :=
  if cur =? 0 then Ret (s, drops, ret)
  else
    match fuel with
    | O => NoFuel
    | S fuel' =>
      next ← dlist_next (st_heap (cs_store s)) (ds_list (cs_set s)) cur;
      v ← deref (st_heap (cs_store s) !! cur);
      let p := dt_row v in
      if cm_time p =? time then
        tmap ← pm_get (hm_uuid (ds_m (cs_set s))) (cm_drop_id p);
        m ← (if tmap =? 0 then Ret (ds_m (cs_set s)) else '(m, _) ← maps_put (ds_m (cs_set s)) tmap (cm_time p) 0; Ret m);
        let drops := drops ++ repeat (cm_drop_id p, cm_level p) (Z.to_nat (Z.min (cm_count p) (room - zlen drops))) in
        '(h, q) ← dlist_remove (st_heap (cs_store s)) (ds_list (cs_set s)) cur;
        '(st, _) ← DATA_delete (with_heap (cs_store s) h) cur;
        draw_loop fuel' (mk_cs st (mk_set m q) (cs_configs s)) next time room drops 0
      else draw_loop fuel' s next time room drops ret
    end.
Definition draw_item (s : state) (time room : Z) : outcome (state * list (Z * Z) * Z) :=
  if ds_list (cs_set s) =? 0 then Ret (s, [], -1) else draw_loop (size (st_heap (cs_store s))) s (ds_list (cs_set s)) time room [] (-1).

Definition compen_item_next (s : state) (cur : Z) : outcome Z :=
  if ds_list (cs_set s) =? 0 then Ret 0 else dlist_next (st_heap (cs_store s)) (ds_list (cs_set s)) cur.
End Operations.

(** ** The configuration that is found *)

(** An array filled from its first slot on. *)
Record array_filled (a : array) (l : list Z) : Prop := {
  fl_slots : ar_s a = 256;
  fl_count : ar_c a = zlen l;
  fl_pointers : exists z, ar_p a = l ++ repeat 0 z /\ zlen l + Z.of_nat z = 256;
  fl_used : 0 ∉ l }.

Lemma filled_new : array_filled (array_new 256) [].
Proof. constructor; [reflexivity|reflexivity|exists 256%nat; auto|inversion 1]. Qed.

Lemma filled_used a l i p : array_filled a l -> l !! i = Some p -> ar_p a !! i = Some p /\ p <> 0.
Proof.
  intros [_ _ (z & -> & _) Hu] Hi. split; [|intros ->; apply Hu; eapply list_elem_of_lookup_2; exact Hi]. rewrite lookup_app_l; [exact Hi|]. exact (lookup_lt_Some _ _ _ Hi).
Qed.
Lemma filled_at a l i p : array_filled a l -> l !! i = Some p -> zlen l <= 256 -> array_get a (Z.of_nat i) = Ret p.
Proof.
  intros Hf Hi Hl. pose proof (lookup_lt_Some _ _ _ Hi). unfold zlen in Hl. unfold array_get. rewrite (fl_slots _ _ Hf). ztests. rewrite Nat2Z.id, (proj1 (filled_used a l i p Hf Hi)). reflexivity.
Qed.
Lemma filled_room a l : array_filled a l -> zlen l <= 256.
Proof. intros [_ _ (z & _ & Hz) _]. lia. Qed.
Lemma filled_free a l : array_filled a l -> zlen l < 256 -> ar_p a !! length l = Some 0.
Proof. intros [_ _ (z & -> & Hz) _] Hl. rewrite lookup_app_r, Nat.sub_diag by lia. destruct z; [lia|reflexivity]. Qed.

Lemma push_from a l p : array_filled a l -> zlen l < 256 -> forall fuel i, (length l < i + fuel)%nat -> (i <= length l)%nat ->
  array_push_loop fuel a (Z.of_nat i) p = Ret (mk_array (ar_s a) (u64 (ar_c a + 1)) (<[length l := p]> (ar_p a)), zlen l).
Proof.
  intros Hf Hl. induction fuel as [|fuel IH]; intros i Hn Hi; cbn [array_push_loop]; pose proof (fl_slots _ _ Hf) as Hs; rewrite (proj2 (Z.ltb_lt _ _)) by (unfold zlen in *; lia); [lia|]. rewrite Nat2Z.id.
  destruct (decide (i = length l)) as [->|Hne]; [rewrite (filled_free a l Hf Hl); reflexivity|].
  destruct (l !! i) as [x|] eqn:Ei; [|apply lookup_ge_None in Ei; lia]. destruct (filled_used a l i x Hf Ei) as [-> Hx]. apply Z.eqb_neq in Hx. cbn [deref mbind outcome_bind]. rewrite Hx.
  rewrite <- (IH (Datatypes.S i)) by lia. f_equal. lia.
Qed.
Lemma push_full a l p : array_filled a l -> zlen l = 256 -> forall fuel i, (length l <= i + fuel)%nat -> array_push_loop fuel a (Z.of_nat i) p = Ret (a, SIZE_MAX).
Proof.
  intros Hf Hl. induction fuel as [|fuel IH]; intros i Hn; cbn [array_push_loop]; pose proof (fl_slots _ _ Hf) as Hs; rewrite Hs; unfold zlen in Hl; destruct (Z.ltb_spec (Z.of_nat i) 256); try lia; try reflexivity. rewrite Nat2Z.id.
  destruct (l !! i) as [x|] eqn:Ei; [|apply lookup_ge_None in Ei; lia]. destruct (filled_used a l i x Hf Ei) as [-> Hx]. apply Z.eqb_neq in Hx. cbn [deref mbind outcome_bind]. rewrite Hx.
  rewrite <- (IH (Datatypes.S i)) by lia. f_equal. lia.
Qed.
(** What does not fit is not kept. *)
Lemma push_filled a l p : array_filled a l -> zlen l <= 256 -> p <> 0 -> exists a' i, array_push a p = Ret (a', i) /\ array_filled a' (if zlen l <? 256 then l ++ [p] else l).
Proof.
  intros Hf Hl Hp. unfold array_push. apply Z.eqb_neq in Hp as Hp'. rewrite Hp', (fl_slots _ _ Hf). change (Z.to_nat 256) with 256%nat. destruct (Z.ltb_spec (zlen l) 256) as [Hlt|Hge].
  - pose proof (push_from a l p Hf Hlt 256 0 ltac:(unfold zlen in *; lia) ltac:(lia)) as He. change (Z.of_nat 0) with 0 in He. rewrite He. eexists _, _. split; [reflexivity|]. destruct Hf as [Hs Hc (z & Hz & Hzl) Hu]. constructor; cbn [ar_s ar_c ar_p].
    + exact Hs.
    + rewrite Hc, u64_small by (pose proof (zlen_nonneg l); lia). autorewrite with cserver. reflexivity.
    + destruct z as [|z]; [unfold zlen in *; lia|]. exists z. rewrite Hz, insert_app_r_alt, Nat.sub_diag by lia. cbn. split; [now rewrite <- app_assoc|autorewrite with cserver; lia].
    + rewrite elem_of_app, list_elem_of_singleton. intros [?|?]; [now apply Hu|congruence].
  - pose proof (push_full a l p Hf ltac:(lia) 256 0 ltac:(unfold zlen in *; lia)) as He. change (Z.of_nat 0) with 0 in He. rewrite He. eauto.
Qed.

Definition same_cfg (c : CompensateCfg) (r : config_delay_exp) : Prop :=
  cg_id c = rd_count_id r /\ cg_num c = rd_reduce_num r /\ cg_min_level c = rd_minlevel r /\ cg_max_level c = rd_maxlevel r /\ cg_drop1 c = rd_drop1 r /\ cg_drop2 c = rd_drop2 r /\ cg_drop3 c = rd_drop3 r.
(** The rows of an item; its array has room for 256. *)
Definition delays_for (k : Z) (rows : list config_delay_exp) : list config_delay_exp := filter (fun r => u64 (rd_count_id r) = k) rows.
Definition delays_kept (k : Z) (rows : list config_delay_exp) : list config_delay_exp := take 256 (delays_for k rows).
Definition delay_found (rows : list config_delay_exp) (id level : Z) : option config_delay_exp :=
  find (fun r => (rd_minlevel r <=? level) && (level <=? rd_maxlevel r)) (delays_kept (u64 id) rows).

Section ConfigTheorems.
Context {M : Type} `{PtrMapLaws M} (map_new : M) (map_new_ok : pm_ok map_new) (map_new_empty : pm_abs map_new = ∅).
Context (malloc_array : gmap Z array -> Z) (malloc_array_ok : forall h, h !! malloc_array h = None /\ malloc_array h <> 0).
Context (malloc_cfg : gmap Z CompensateCfg -> Z) (malloc_cfg_ok : forall h, h !! malloc_cfg h = None /\ malloc_cfg h <> 0).
#[local] Abbreviation configs := (compen_configs M).

Definition leads_to (s : configs) (l : list Z) (rs : list config_delay_exp) : Prop := Forall2 (fun p r => exists c, cc_cfgs s !! p = Some c /\ same_cfg c r) l rs.
(** The configurations are those of the rows; [b] bounds the map. *)
Record delays_rep (s : configs) (rows : list config_delay_exp) (b : Z) : Prop := {
  dy_map : pm_ok (cc_map s);
  dy_size : Z.of_nat (size (pm_abs (cc_map s))) <= b;
  dy_none : forall k, pm_abs (cc_map s) !! k = None -> delays_for k rows = [];
  dy_array : forall k arr, pm_abs (cc_map s) !! k = Some arr -> arr <> 0 /\ exists a l, cc_arrays s !! arr = Some a /\ array_filled a l /\ leads_to s l (delays_kept k rows);
  dy_inj : forall k k' arr, pm_abs (cc_map s) !! k = Some arr -> pm_abs (cc_map s) !! k' = Some arr -> k = k' }.

Lemma cfg_array_spec s rows b id : delays_rep s rows b -> b < 2 ^ 61 ->
  exists s1 arr, cfg_array malloc_array s id = Ret (s1, arr) /\ delays_rep s1 rows (b + 1) /\ pm_abs (cc_map s1) !! u64 id = Some arr.
Proof.
  intros [Hm Hs Hn Ha Hi] Hb. unfold cfg_array. rewrite (pm_get_spec _ _ Hm). cbn [mbind outcome_bind]. destruct (pm_abs (cc_map s) !! u64 id) as [arr|] eqn:E; cbn [from_option Datatypes.id].
  - destruct (Ha _ _ E) as [Hz _]. apply Z.eqb_neq in Hz. rewrite Hz. exists s, arr. split; [reflexivity|]. split; [constructor; auto; lia|exact E].
  - cbn [Z.eqb]. destruct (malloc_array_ok (cc_arrays s)) as [Hf Hz]. set (arr := malloc_array (cc_arrays s)) in *. apply Z.eqb_neq in Hz as Hz'. rewrite Hz'.
    destruct (pm_set_spec (cc_map s) (u64 id) arr Hm ltac:(lia)) as (m & -> & Hm' & Habs). rewrite Hz' in Habs. cbn [mbind outcome_bind].
    assert (Hold : forall k a, pm_abs (cc_map s) !! k = Some a -> a <> arr) by (intros k a Hk ->; destruct (Ha _ _ Hk) as (_ & x & l & Hx & _); congruence).
    eexists _, arr. split; [reflexivity|]. split; [|cbn [cc_map]; rewrite Habs; apply lookup_insert_eq]. constructor; cbn [cc_map cc_arrays cc_cfgs cc_list].
    + exact Hm'.
    + rewrite Habs, map_size_insert_None by exact E. lia.
    + intros k Hk. rewrite Habs in Hk. apply lookup_insert_None in Hk as [Hk _]. auto.
    + intros k a Hk. rewrite Habs in Hk. apply lookup_insert_Some in Hk as [[<- <-]|[_ Hk]].
      * split; [exact Hz|]. exists (array_new 256), []. rewrite lookup_insert_eq. split; [reflexivity|]. split; [exact filled_new|]. unfold delays_kept. rewrite Hn by exact E. constructor.
      * destruct (Ha _ _ Hk) as (Hz1 & x & l & Hx & Hrest). split; [exact Hz1|]. exists x, l. rewrite lookup_insert_ne by (intros ->; now apply (Hold k a)). auto.
    + intros k k' a Hk Hk'. rewrite Habs in Hk, Hk'. apply lookup_insert_Some in Hk as [[<- <-]|[_ Hk]], Hk' as [[<- E']|[_ Hk']] || apply lookup_insert_Some in Hk' as [[<- E']|[_ Hk']]; [reflexivity|..]; try (exfalso; now apply (Hold _ _ Hk')); try (exfalso; subst a; now apply (Hold _ _ Hk)). eauto.
Qed.

Lemma delays_for_app k rows row : delays_for k (rows ++ [row]) = delays_for k rows ++ (if u64 (rd_count_id row) =? k then [row] else []).
Proof. unfold delays_for. rewrite list.filter_app, filter_cons. destruct (Z.eqb_spec (u64 (rd_count_id row)) k); [rewrite decide_True by assumption|rewrite decide_False by assumption]; reflexivity. Qed.

Lemma parse_delay_spec s rows b row : delays_rep s rows b -> b < 2 ^ 61 ->
  exists s', parse_compensate_cfg malloc_array malloc_cfg s row = Ret (s', 0) /\ delays_rep s' (rows ++ [row]) (b + 1).
Proof.
  intros Hr Hb. unfold parse_compensate_cfg. destruct (cfg_array_spec s rows b (rd_count_id row) Hr Hb) as (s1 & arr & -> & [Hm Hs Hn Ha Hi] & Harr). cbn [mbind outcome_bind]. clear s Hr.
  destruct (malloc_cfg_ok (cc_cfgs s1)) as [Hf Hz]. set (p := malloc_cfg (cc_cfgs s1)) in *. apply Z.eqb_neq in Hz as Hz'. rewrite Hz'. destruct (Ha _ _ Harr) as (Haz & a & l & Hx & Hfl & Hl). rewrite Hx. cbn [deref mbind outcome_bind].
  assert (Hlen : length l = length (delays_kept (u64 (rd_count_id row)) rows)) by exact (list.Forall2_length _ _ _ Hl). unfold delays_kept in Hlen. rewrite length_take in Hlen.
  destruct (push_filled a l p Hfl ltac:(unfold zlen; lia) Hz) as (a' & i & -> & Hfl'). cbn [mbind outcome_bind]. set (cfg := mk_ccfg _ _ _ _ _ _ _ _). eexists. split; [reflexivity|].
  assert (Hkeep : forall l rs, leads_to s1 l rs -> leads_to (mk_cc (cc_map s1) (<[arr := a']> (cc_arrays s1)) (<[p := cfg]> (cc_cfgs s1)) p) l rs).
  { intros l' rs. apply Forall2_impl. intros q r (c & Hc & Hsame). exists c. cbn [cc_cfgs]. rewrite lookup_insert_ne by congruence. auto. }
  constructor; cbn [cc_map cc_arrays]; [exact Hm|exact Hs| | |exact Hi].
  - intros k Hk. rewrite delays_for_app, (Hn k Hk). destruct (Z.eqb_spec (u64 (rd_count_id row)) k); [congruence|reflexivity].
  - intros k arr' Hk. destruct (Z.eqb_spec (u64 (rd_count_id row)) k) as [<-|Hne].
    + assert (arr' = arr) as -> by congruence. split; [exact Haz|]. exists a'. eexists. rewrite lookup_insert_eq. split; [reflexivity|]. split; [exact Hfl'|]. unfold delays_kept. rewrite delays_for_app, Z.eqb_refl.
      destruct (Z.ltb_spec (zlen l) 256) as [Hlt|Hge]; unfold zlen in *.
      * rewrite take_ge by (rewrite length_app; cbn; lia). apply Forall2_app; [apply Hkeep; unfold delays_kept in Hl; now rewrite take_ge in Hl by lia|]. constructor; [|constructor].
        exists cfg. cbn [cc_cfgs]. rewrite lookup_insert_eq. repeat split.
      * rewrite take_app_le by lia. now apply Hkeep.
    + destruct (Ha _ _ Hk) as (Hz1 & x & l' & Hx' & Hfl1 & Hl1). split; [exact Hz1|]. exists x, l'. rewrite lookup_insert_ne; [|intros ->; apply Hne; eapply Hi; eauto]. split; [exact Hx'|]. split; [exact Hfl1|].
      unfold delays_kept. rewrite delays_for_app. apply Z.eqb_neq in Hne as ->. rewrite app_nil_r. now apply Hkeep.
Qed.

Lemma foreach_delay rows : forall s before b, delays_rep s before b -> b + zlen rows < 2 ^ 61 ->
  exists s', foreach_row (parse_compensate_cfg malloc_array malloc_cfg) s rows = Ret (s', 0) /\ delays_rep s' (before ++ rows) (b + zlen rows).
Proof.
  induction rows as [|row rows IH]; intros s before b Hr Hb; cbn [foreach_row].
  - exists s. rewrite app_nil_r. unfold zlen. cbn. rewrite Z.add_0_r. auto.
  - rewrite zlen_cons in *. pose proof (zlen_nonneg rows). destruct (parse_delay_spec s before b row Hr ltac:(lia)) as (s1 & -> & Hr1). cbn [mbind outcome_bind Z.eqb negb].
    destruct (IH s1 (before ++ [row]) (b + 1) Hr1 ltac:(lia)) as (s' & -> & Hr'). exists s'. split; [reflexivity|]. rewrite <- app_assoc in Hr'. replace (b + (1 + zlen rows)) with (b + 1 + zlen rows) by lia. exact Hr'.
Qed.

(** Loading gives the configurations of the rows. *)
Lemma reload_delays s rows : zlen rows < 2 ^ 61 -> exists s', reload_compensate map_new malloc_array malloc_cfg s rows = Ret (s', 0) /\ delays_rep s' rows (zlen rows).
Proof.
  intros Hb. unfold reload_compensate, load_compensate_config. apply (foreach_delay rows _ [] 0); [|lia]. constructor; cbn [cc_map]; rewrite ?map_new_empty, ?map_size_empty; [exact map_new_ok|lia|reflexivity|..]; intros *; rewrite lookup_empty; discriminate.
Qed.

Lemma cfg_loop_spec s a level l rs : array_filled a l -> leads_to s l rs -> forall l2 rs2 l1, l = l1 ++ l2 -> leads_to s l2 rs2 ->
  forall fuel, (length l2 <= fuel)%nat -> exists p, cfg_loop fuel s a (zlen l1) level = Ret p /\
    match find (fun r => (rd_minlevel r <=? level) && (level <=? rd_maxlevel r)) rs2 with
    | Some r => p <> 0 /\ exists c, cc_cfgs s !! p = Some c /\ same_cfg c r
    | None => p = 0
    end.
Proof.
  intros Hf _. induction l2 as [|p l2 IH]; intros rs2 l1 El Hl fuel Hfuel; destruct rs2 as [|r rs2]; try (inversion Hl; fail).
  - exists 0. split; [|reflexivity]. rewrite app_nil_r in El. subst l1. destruct fuel; cbn [cfg_loop]; unfold array_count; rewrite (fl_count _ _ Hf), Z.ltb_irrefl; reflexivity.
  - apply list.Forall2_cons in Hl as [(c & Hc & Hsame) Hl]. destruct fuel as [|fuel]; [cbn in Hfuel; lia|]. assert (Hi : l !! length l1 = Some p) by (rewrite El, lookup_app_r, Nat.sub_diag by lia; reflexivity).
    cbn [cfg_loop find]. unfold array_count. rewrite (fl_count _ _ Hf). rewrite (proj2 (Z.ltb_lt (zlen l1) (zlen l))) by (rewrite El; unfold zlen; rewrite length_app; cbn; lia).
    change (array_get a (zlen l1)) with (array_get a (Z.of_nat (length l1))). rewrite (filled_at a l _ p Hf Hi (filled_room _ _ Hf)). cbn [mbind outcome_bind]. destruct (filled_used a l _ p Hf Hi) as [_ Hz]. apply Z.eqb_neq in Hz as Hz'. rewrite Hz', Hc. cbn [deref mbind outcome_bind].
    pose proof Hsame as (_ & _ & -> & -> & _). destruct ((rd_minlevel r <=? level) && (level <=? rd_maxlevel r)); [exists p; eauto|].
    replace (zlen l1 + 1) with (zlen (l1 ++ [p])) by (autorewrite with cserver; reflexivity). apply (IH rs2 (l1 ++ [p])); [now rewrite <- app_assoc|exact Hl|cbn in Hfuel; lia].
Qed.

(** The configuration of an item for a level is that of the first row that fits. *)
Lemma get_cfg_spec s rows b id level : delays_rep s rows b -> exists p, get_compensate_cfg s id level = Ret p /\
  match delay_found rows id level with Some r => p <> 0 /\ exists c, cc_cfgs s !! p = Some c /\ same_cfg c r | None => p = 0 end.
Proof.
  intros [Hm Hs Hn Ha Hi]. unfold get_compensate_cfg, delay_found. rewrite (pm_get_spec _ _ Hm). cbn [mbind outcome_bind]. destruct (pm_abs (cc_map s) !! u64 id) as [arr|] eqn:E; cbn [from_option Datatypes.id].
  - destruct (Ha _ _ E) as (Hz & a & l & Hx & Hf & Hl). apply Z.eqb_neq in Hz as ->. rewrite Hx. cbn [deref mbind outcome_bind].
    apply (cfg_loop_spec s a level l _ Hf Hl l _ [] eq_refl Hl). unfold array_count. rewrite (fl_count _ _ Hf). unfold zlen. lia.
  - exists 0. split; [reflexivity|]. unfold delays_kept. rewrite Hn by exact E. reflexivity.
Qed.
End ConfigTheorems.

(** ** The periods *)

(** A growing time that can be compensated. *)
Record grow_fine (now : Z) (g : ItemGrowInfo) : Prop := {
  gf_begin : 0 <= begin_time g <= now;
  gf_period : 0 < period g < 2 ^ 31;
  gf_amount : 0 < amount g < 2 ^ 31 }.

Lemma quot_rem_pos x p : 0 < p -> x = p * Z.quot x p + Z.rem x p /\ (0 <= x -> 0 <= Z.rem x p < p) /\ (x <= 0 -> - p < Z.rem x p <= 0).
Proof.
  intros Hp. split; [apply Z.quot_rem'|]. split; intros Hx; [apply Z.rem_bound_pos; lia|]. pose proof (Z.rem_bound_pos (- x) p ltac:(lia) Hp) as Hb. rewrite Z.rem_opp_l in Hb by lia. lia.
Qed.

(** The last second of a period is not before the time, and less than a period after it or the first. *)
Lemma compen_time_range t ref p : 0 <= t < 2 ^ 31 -> 0 <= ref < 2 ^ 31 -> 0 < p < 2 ^ 31 -> t <= COMPEN_TIME t ref p < two32.
Proof.
  intros Ht Hr Hp. unfold COMPEN_TIME, two32. destruct (quot_rem_pos (t - ref) p ltac:(lia)) as (E & Hpos & Hneg). set (q := Z.quot (t - ref) p) in *. set (r := Z.rem (t - ref) p) in *.
  assert (E2 : (q + 1) * p = t - ref - r + p) by nia. rewrite E2. destruct (Z.le_ge_cases ref t); [specialize (Hpos ltac:(lia)); lia|]. specialize (Hneg ltac:(lia)). split; [lia|].
  assert (q <= 0) by nia. nia.
Qed.

(** How many periods there are from the update to now. *)
Definition periods_between (g : ItemGrowInfo) (now update_time : Z) : Z := Z.quot (now - begin_time g) (period g) - Z.quot (update_time - begin_time g) (period g).
Lemma periods_spec now g u : grow_fine now g -> 0 <= u <= now -> now < 2 ^ 31 ->
  i32 (Z.quot (COMPEN_TIME now (begin_time g) (period g) - COMPEN_TIME u (begin_time g) (period g)) (period g)) = periods_between g now u /\
  forall i, 0 <= i < periods_between g now u -> 0 <= period g * i <= now - u.
Proof.
  intros [Hb Hp _] Hu Hn. unfold COMPEN_TIME, periods_between. destruct (quot_rem_pos (now - begin_time g) (period g) ltac:(lia)) as (E1 & Hr1 & _). destruct (quot_rem_pos (u - begin_time g) (period g) ltac:(lia)) as (E2 & Hr2 & Hr3).
  set (A := Z.quot (now - begin_time g) (period g)) in *. set (B := Z.quot (u - begin_time g) (period g)) in *. set (p := period g) in *. specialize (Hr1 ltac:(lia)).
  replace (begin_time g + (A + 1) * p - 1 - (begin_time g + (B + 1) * p - 1)) with ((A - B) * p) by lia. rewrite Z.quot_mul by lia. assert (Hr : - p < Z.rem (u - begin_time g) p < p) by (destruct (Z.le_ge_cases (begin_time g) u); lia).
  split.
  - apply i32_small. assert (0 <= A <= now - begin_time g) by nia. destruct (Z.le_ge_cases (begin_time g) u); [assert (0 <= B <= u - begin_time g) by nia; lia|]. assert (u - begin_time g <= B <= 0) by nia. lia.
  - intros i Hi. split; [nia|]. destruct (Z.le_ge_cases (begin_time g) u); [specialize (Hr2 ltac:(lia))|specialize (Hr3 ltac:(lia))]; nia.
Qed.

Lemma compensate_time_range now g u i : grow_fine now g -> 0 <= u <= now -> now < 2 ^ 31 -> 0 <= i < periods_between g now u -> 0 <= compensate_time g u i < two32.
Proof.
  intros Hg Hu Hn Hi. destruct (periods_spec now g u Hg Hu Hn) as [_ Hp]. specialize (Hp i Hi). unfold compensate_time. rewrite i32_small by lia. destruct Hg as [Hb Hpd _].
  pose proof (compen_time_range (u + period g * i) (begin_time g) (if period g <? 86400 then 86400 else period g) ltac:(lia) ltac:(lia) ltac:(destruct (period g <? 86400); lia)). lia.
Qed.

(** ** The records refine a map *)

Section Spec.
Context (pid level : Z).
#[local] Abbreviation records := (gmap Z Compensate).

(** A count that is entered for a drop and a time. *)
Definition count_more (drop : Z) (D : records) (e : Z * Z) : records :=
  let k := number drop (fst e) in
  <[k := match D !! k with Some r => row_set r 4 (u32 (cm_count r + snd e)) | None => mk_comp pid k (u32 (snd e)) (u32 level) end]> D.
(** What is entered from the [i]-th period on: the times and the counts, up to the first that is zero. *)
Fixpoint compen_entries (fuel : nat) (g : ItemGrowInfo) (num remain update_time i nperiod : Z) : list (Z * Z) :=
  match fuel with
  | O => []
  | S fuel' =>
    let n := Z.quot (if (i =? 0) && negb (remain =? 0) then remain else amount g) num in
    if (i <? nperiod) && negb (n =? 0) then (compensate_time g update_time i, n) :: compen_entries fuel' g num remain update_time (i + 1) nperiod else []
  end.
(** At most those of the last thirty days. *)
Definition first_period (g : ItemGrowInfo) (nperiod : Z) : Z := Z.max 0 (nperiod - 30 * Z.quot 86400 (period g)).
Definition spec_compensate (sp : growth_spec) (delays : list config_delay_exp) (D : records) (now id count update_time : Z) : records :=
  if (count <=? 0) || (update_time <=? 0) then D
  else
    match sp_active sp now id, delay_found delays id level with
    | Some g, Some r =>
      let nperiod := periods_between g now update_time in
      let i := first_period g nperiod in
      foldl (count_more (u32 (rd_drop1 r))) D (compen_entries (Z.to_nat (nperiod - i)) g (rd_reduce_num r) (Z.rem count (amount g)) update_time i nperiod)
    | _, _ => D
    end.
End Spec.

Section RecordTheorems.
Context {W M G : Type} `{Database Compensate W} `{!DatabaseLaws Compensate (Z * Z) W compensate_key fst} `{PtrMapLaws M} `{GL : GrowthLaws G}.
Context (map_new : M) (map_new_ok : pm_ok map_new) (map_new_empty : pm_abs map_new = ∅).
Context (malloc_map : gmap Z M -> Z) (malloc_map_ok : forall h, h !! malloc_map h = None /\ malloc_map h <> 0).
Context (void : Z) (malloc : gmap Z (datum Compensate) -> Z) (malloc_ok : forall h, h !! malloc h = None /\ malloc h <> 0 /\ malloc h <> void).
Context (pid level : Z) (delays : list config_delay_exp) (divides : Forall (fun r => rd_reduce_num r <> 0) delays).
#[local] Abbreviation state := (comp_state W M).
#[local] Abbreviation rows := (db_rows (key := compensate_key) (owner := fst)).
#[local] Abbreviation records := (gmap Z Compensate).
#[local] Instance index : PtrMap (hero_maps M) := comp_index map_new malloc_map.
#[local] Instance record_put : PutLaws (hero_maps M) := maps_laws map_new map_new_ok map_new_empty malloc_map malloc_map_ok.

Lemma record_number (r r' : Compensate) : compensate_key r = compensate_key r' -> cm_number r = cm_number r'.
Proof. intros [= _ E]. exact E. Qed.
Lemma record_number_key (r r' : Compensate) : fst (compensate_key r) = fst (compensate_key r') -> cm_number r = cm_number r' -> compensate_key r = compensate_key r'.
Proof. intros E1 E2. unfold compensate_key in *. cbn in E1. congruence. Qed.

(** The records are [D]; [b] bounds them and the table. *)
Record comp_inv (s : state) (D : records) (b : Z) (l ul : list Z) : Prop := {
  ci_data : data_ok compensate_key fst void (cs_store s) ul;
  ci_set : player_set compensate_key fst cm_number (cs_store s) (cs_set s) l pid;
  ci_rows : forall k, row_of (cs_store s) (cs_set s) k = D !! k;
  ci_bound : zlen l <= b /\ Z.of_nat (size (rows (st_db (cs_store s)))) <= b }.
Definition comp_is (s : state) (D : records) (b : Z) : Prop := exists l ul, comp_inv s D b l ul.

Lemma comp_is_mono s D b b' : comp_is s D b -> b <= b' -> comp_is s D b'.
Proof. intros (l & ul & [Hok Hps Hr [Hl Hs]]) Hb. exists l, ul. constructor; [exact Hok|exact Hps|exact Hr|lia]. Qed.

Lemma get_record_spec s D b l ul drop time : comp_inv s D b l ul -> 0 <= time < two32 ->
  (exists a v, compensate_get s drop time = Ret a /\ a <> 0 /\ a ∈ l /\ st_heap (cs_store s) !! a = Some v /\ cm_number (dt_row v) = number drop time /\ D !! number drop time = Some (dt_row v)) \/
  (compensate_get s drop time = Ret 0 /\ D !! number drop time = None /\ pt_abs (ds_m (cs_set s)) !! number drop time = None).
Proof.
  intros [Hok Hps Hr _] Ht. pose proof (ps_set _ _ _ _ _ _ _ Hps) as Hso. unfold compensate_get. rewrite <- Hr.
  destruct (set_get cm_number (cs_store s) (cs_set s) l (number drop time) Hso) as [(a & v & Hg & Haz & Hal & Hv & _ & Hk & Hro)|(Hg & Hro & Hn)];
    cbn [pm_get index comp_index maps_index] in Hg; rewrite number_div, number_mod in Hg by lia; [left; exists a, v; auto 10|right; auto].
Qed.

Lemma enter_count s D b now drop e : comp_is s D b -> inserts_ok compensate_key fst (W := W) -> 0 <= b < 2 ^ 60 -> 0 <= fst e < two32 ->
  exists s', compensate_enter map_new malloc_map malloc pid level s now drop (fst e) (snd e) = Ret s' /\ comp_is s' (count_more pid level drop D e) (b + 1) /\ cs_configs s' = cs_configs s.
Proof.
  intros (l & ul & Hinv) Hins Hb Ht. set (k := number drop (fst e)). pose proof Hinv as [Hok Hps Hr [Hl Hs]]. pose proof (ps_set _ _ _ _ _ _ _ Hps) as Hso. unfold compensate_enter, count_more. fold k.
  destruct (get_record_spec s D b l ul drop (fst e) Hinv Ht) as [(a & v & -> & Haz & Hal & Hv & Hk & HD)|(-> & HD & Hab)]; cbn [mbind outcome_bind]; fold k in HD; rewrite HD.
  - apply Z.eqb_neq in Haz as ->. rewrite Hv. cbn [deref mbind outcome_bind]. set (x := u32 (cm_count (dt_row v) + snd e)).
    destruct (ps_update compensate_key fst cm_number void record_number (cs_store s) (cs_set s) l ul pid now a 4 x v Hps Hok Hal Hv ltac:(left)) as (st & ul' & v' & -> & Hok' & Hps' & Hdb & _ & _ & Hrows).
    cbn [mbind outcome_bind]. eexists. split; [reflexivity|]. split; [|reflexivity]. exists l, ul'. constructor; cbn [cs_store cs_set with_records]; [exact Hok'|exact Hps'| |rewrite Hdb; lia].
    intros j. rewrite Hrows, Hk. fold k. destruct (Z.eqb_spec j k) as [->|Hne]; [now rewrite lookup_insert_eq|rewrite lookup_insert_ne by congruence; apply Hr].
  - cbn [Z.eqb]. destruct (malloc_ok (st_heap (cs_store s))) as (_ & Hz & _). apply Z.eqb_neq in Hz as ->. set (r := mk_comp pid k (u32 (snd e)) (u32 level)).
    destruct (ps_insert compensate_key fst cm_number void malloc malloc_ok record_number_key record_number (cs_store s) (cs_set s) l ul pid r Hps Hok eq_refl ltac:(cbn; now rewrite Hr) ltac:(lia)) as (st & ret & Hnew & Hret & Hres).
    rewrite (Hret Hins) in Hres, Hnew. cbn [Z.eqb] in Hres. destruct Hres as (h & q & m & Hins2 & Hpm & Hok' & Hps' & _ & Hrows & Hsize). rewrite Hnew. cbn [mbind outcome_bind Z.eqb].
    pose proof (new_record_in _ _ _ _ _ Hnew) as Hin. unfold compensate_set. cbn [cs_store cs_set cs_configs with_records]. rewrite Hin. cbn [deref mbind outcome_bind dt_row new_datum].
    unfold cm_drop_id, cm_time. cbn [cm_number r]. unfold k at 1 2 3. rewrite number_div, number_mod by lia.
    destruct (maps_make_missing map_new map_new_ok map_new_empty malloc_map malloc_map_ok (ds_m (cs_set s)) drop (fst e) (so_map _ _ _ _ Hso)) as (m1 & arr & i & Hmake & Hi & Hgi).
    { change (maps_abs (ds_m (cs_set s))) with (pt_abs (ds_m (cs_set s))). rewrite (so_size _ _ _ _ Hso). unfold zlen in Hl. lia. }
    { lia. }
    { exact Hab. }
    cbn [pm_set index comp_index maps_index cm_number r] in Hpm. unfold k in Hpm. rewrite number_div, number_mod in Hpm by lia. rewrite Hmake in *. cbn [mbind outcome_bind] in *. rewrite Hi. cbn [deref mbind outcome_bind].
    rewrite Hgi. cbn [mbind outcome_bind Z.eqb]. rewrite Hpm. cbn [mbind outcome_bind]. rewrite (init_new _ _ _ Hin). cbn [mbind outcome_bind]. rewrite Hins2. cbn [mbind outcome_bind].
    eexists. split; [reflexivity|]. split; [|reflexivity]. eexists _, ul. constructor; cbn [cs_store cs_set]; [exact Hok'|exact Hps'| |cbn [st_db with_heap]; rewrite Hsize; autorewrite with cserver; lia].
    intros j. rewrite Hrows. cbn [cm_number r]. destruct (Z.eqb_spec j k) as [->|Hne]; [now rewrite lookup_insert_eq|rewrite lookup_insert_ne by congruence; apply Hr].
Qed.

Lemma loop_spec now g cfg drop remain u nperiod : grow_fine now g -> 0 <= u <= now -> now < 2 ^ 31 -> nperiod = periods_between g now u -> cg_num cfg <> 0 -> u32 (cg_drop1 cfg) = drop -> inserts_ok compensate_key fst (W := W) ->
  forall fuel s D b i, comp_is s D b -> 0 <= b -> b + Z.of_nat fuel < 2 ^ 60 -> 0 <= i -> nperiod - i <= Z.of_nat fuel ->
  exists s', compensate_loop map_new malloc_map malloc pid level fuel s now g cfg remain u i nperiod = Ret s' /\
    comp_is s' (foldl (count_more pid level drop) D (compen_entries fuel g (cg_num cfg) remain u i nperiod)) (b + Z.of_nat fuel) /\ cs_configs s' = cs_configs s.
Proof.
  intros Hg Hu Hn Hnp Hnum Hdrop Hins. apply Z.eqb_neq in Hnum as Hnum'. induction fuel as [|fuel IH]; intros s D b i Hr Hb Hbf Hi Hf; cbn [compensate_loop compen_entries].
  - rewrite (proj2 (Z.ltb_ge _ _)) by lia. exists s. split; [reflexivity|]. split; [eapply comp_is_mono; [exact Hr|lia]|reflexivity].
  - destruct (Z.ltb_spec i nperiod) as [Hlt|Hge]; cbn [andb]; [|exists s; split; [reflexivity|]; split; [eapply comp_is_mono; [exact Hr|lia]|reflexivity]].
    cbv zeta. rewrite Hnum'. set (n := Z.quot _ (cg_num cfg)). destruct (n =? 0); cbn [negb foldl]; [exists s; split; [reflexivity|]; split; [eapply comp_is_mono; [exact Hr|lia]|reflexivity]|].
    destruct (enter_count s D b now drop (compensate_time g u i, n) Hr Hins ltac:(lia)) as (s1 & He & Hr1 & Hc1); [cbn [fst]; apply (compensate_time_range now); [exact Hg|exact Hu|exact Hn|lia]|].
    cbn [fst snd] in He. rewrite Hdrop, He. cbn [mbind outcome_bind]. destruct (IH s1 _ (b + 1) (i + 1) Hr1 ltac:(lia) ltac:(lia) ltac:(lia) ltac:(lia)) as (s' & -> & Hr' & Hc').
    exists s'. split; [reflexivity|]. split; [eapply comp_is_mono; [exact Hr'|lia]|congruence].
Qed.

(** At most this many periods are entered at once. *)
Definition MOST : Z := 30 * 86400.
Lemma first_period_spec g nperiod : 0 < period g -> 0 <= first_period g nperiod /\ nperiod - first_period g nperiod <= MOST /\
  first_period g nperiod = (if i32 (30 * Z.quot 86400 (period g)) <? nperiod then nperiod - i32 (30 * Z.quot 86400 (period g)) else 0).
Proof.
  intros Hp. assert (Hq : 0 <= Z.quot 86400 (period g) <= 86400) by (split; [apply Z.quot_pos; lia|rewrite Z.quot_div_nonneg by lia; apply Z.div_le_upper_bound; nia]).
  rewrite i32_small by lia. unfold first_period, MOST. split; [lia|]. split; [lia|]. destruct (Z.ltb_spec (30 * Z.quot 86400 (period g)) nperiod); lia.
Qed.

Lemma delay_in id r : delay_found delays id level = Some r -> rd_reduce_num r <> 0.
Proof.
  intros Hf. apply find_some in Hf as [Hin _]. apply list_elem_of_In in Hin. unfold delays_kept, delays_for in Hin. rewrite list.Forall_forall in divides. apply divides.
  apply (elem_of_take _ 256) in Hin as (i & Hi & _). apply list_elem_of_lookup_2 in Hi. now apply list.list_elem_of_filter in Hi.
Qed.

(** Compensating enters the counts of the periods. *)
Lemma compensate_spec s D b g t bg sp now id count u bc : comp_is s D b -> delays_rep (cs_configs s) delays bc -> gr_rep g t bg sp -> inserts_ok compensate_key fst (W := W) ->
  (forall now id g, sp_active sp now id = Some g -> grow_fine now g) -> 0 <= b -> b + MOST < 2 ^ 60 -> bg < 2 ^ 61 -> t <= now -> 0 <= u <= now -> now < 2 ^ 31 ->
  exists s' g', compensate_count map_new malloc_map malloc pid level s g now id count u = Ret (s', g') /\ comp_is s' (spec_compensate pid level sp delays D now id count u) (b + MOST) /\
    cs_configs s' = cs_configs s /\ gr_rep g' t (bg + 1) sp.
Proof.
  intros Hr Hdy Hg Hins Hfine Hb Hbm Hbg Htn Hu Hn. unfold compensate_count, spec_compensate.
  assert (Hsame : forall g', gr_rep g' t (bg + 1) sp -> exists s' g2, Ret (s, g') = Ret (s', g2) /\ comp_is s' D (b + MOST) /\ cs_configs s' = cs_configs s /\ gr_rep g2 t (bg + 1) sp).
  { intros g' Hg'. exists s, g'. split; [reflexivity|]. split; [eapply comp_is_mono; [exact Hr|unfold MOST; lia]|auto]. }
  destruct ((count <=? 0) || (u <=? 0)); [apply Hsame; eapply gr_later; [exact Hg|lia|lia]|]. destruct (gr_active_spec g t bg sp now id Hg Hbg Htn) as (g' & -> & Hg'). cbn [mbind outcome_bind].
  destruct (sp_active sp now id) as [gi|] eqn:Ea; [|now apply Hsame]. pose proof (Hfine _ _ _ Ea) as Hgf. destruct (get_cfg_spec (cs_configs s) delays bc id level Hdy) as (p & -> & Hp). cbn [mbind outcome_bind].
  destruct (delay_found delays id level) as [r|] eqn:Ef; [|subst p; now apply Hsame]. destruct Hp as (Hz & c & Hc & Hsc). apply Z.eqb_neq in Hz as ->. rewrite Hc. cbn [deref mbind outcome_bind].
  pose proof Hgf as [_ Hpd Ham]. rewrite (proj2 (Z.eqb_neq (amount gi) 0)), (proj2 (Z.eqb_neq (period gi) 0)) by lia. cbn [orb]. cbv zeta. destruct (periods_spec now gi u Hgf Hu Hn) as [-> _]. set (np := periods_between gi now u).
  destruct (first_period_spec gi np ltac:(lia)) as (Hf0 & Hf1 & Hf2). rewrite <- Hf2. assert (HM : 0 <= MOST) by (unfold MOST; lia). pose proof Hsc as (_ & Enum & _ & _ & Edrop & _).
  destruct (loop_spec now gi c (u32 (rd_drop1 r)) (Z.rem count (amount gi)) u np Hgf Hu Hn eq_refl ltac:(rewrite Enum; eapply delay_in; eassumption) ltac:(now rewrite Edrop) Hins (Z.to_nat (np - first_period gi np)) s D b (first_period gi np) Hr Hb) as (s' & -> & Hr' & Hc'); [lia..|].
  cbn [mbind outcome_bind]. exists s', g'. split; [reflexivity|]. rewrite <- Enum. split; [eapply comp_is_mono; [exact Hr'|lia]|auto].
Qed.

Lemma flush_records s D b now : comp_is s D b -> saves_ok (V := Compensate) (W := W) -> exists st, DATA_flush void (cs_store s) now = Ret st /\ comp_is (with_records s st) D b.
Proof.
  intros (l & ul & [Hok Hps Hr [Hl Hs]]) Hsv. destruct (ps_flush compensate_key fst cm_number void (cs_store s) (cs_set s) l ul pid now Hps Hok) as (st & ul' & -> & Hok' & Hps' & Hrows & Hsize).
  exists st. split; [reflexivity|]. exists l, ul'. constructor; cbn [cs_store cs_set with_records]; [exact Hok'|exact (Hps' Hsv)|intros k; rewrite Hrows; apply Hr|rewrite (Hsize Hsv); lia].
Qed.

(** Leaving and coming back finds the same records. *)
Lemma relogin_records s D b now : comp_is s D b -> b < 2 ^ 60 -> saves_ok (V := Compensate) (W := W) -> reads_ok (V := Compensate) (W := W) ->
  exists s1 st s3, release_records s = Ret s1 /\ DATA_flush void (cs_store s1) now = Ret st /\ load_records map_new malloc_map malloc pid (with_records s1 st) = Ret s3 /\
    comp_is s3 D b /\ cs_configs s3 = cs_configs s.
Proof.
  intros (l & ul & [Hok Hps Hr [Hl Hs]]) Hb Hsv Hrd. assert (pt_ok (maps_new map_new) /\ pt_abs (maps_new map_new) = ∅) as [Hm Hm0] by exact (maps_new_ok map_new map_new_ok map_new_empty).
  destruct (relogin_spec compensate_key fst cm_number (fun _ => true) void malloc malloc_ok record_number_key (maps_new map_new) (cs_store s) (cs_set s) l ul pid now Hm Hm0 (fun _ _ _ => eq_refl) Hps Hok Hsv ltac:(lia))
    as (s1 & s2 & s3 & ul2 & res & He1 & He2 & He3 & Hok3 & Hsz3 & Hres).
  unfold release_records, load_records. rewrite He1. cbn [mbind outcome_bind]. eexists _, s2, _. split; [reflexivity|]. cbn [cs_store with_records]. split; [exact He2|]. change (comp_index map_new malloc_map) with index. rewrite He3. cbn [mbind outcome_bind].
  split; [reflexivity|]. destruct res as [set'|]; [|exfalso; exact (load_some cm_number (fun _ => true) malloc (maps_new map_new) s2 s3 pid None Hrd He3 eq_refl)].
  destruct (Hres set' eq_refl) as [(l' & Hps' & Hll) Hrows]. split; [|reflexivity]. exists l', ul2. constructor; cbn [cs_store cs_set]; [exact Hok3|exact Hps'|intros k; rewrite Hrows; apply Hr|unfold zlen in *; lia].
Qed.

(** So it is a compensator; each call may enter [MOST] records. *)
Definition comp_rep (s : state) (b : Z) (sp : growth_spec) : Prop :=
  (exists D, comp_is s D (2 ^ 50 + b * MOST)) /\ (exists bc, delays_rep (cs_configs s) delays bc) /\ (forall now id g, sp_active sp now id = Some g -> grow_fine now g).
Definition compensator_laws (inserts : inserts_ok compensate_key fst (W := W)) (saves : saves_ok (V := Compensate) (W := W)) (reads : reads_ok (V := Compensate) (W := W)) :
  CompensatorLaws state G (Compensator0 := item_compensator map_new malloc_map void malloc pid level).
Proof.
  refine {| cp_rep := comp_rep |}.
  - intros s b b' sp ((D & HD) & Hd & Hf) Hb. split; [exists D; eapply comp_is_mono; [exact HD|unfold MOST; lia]|auto].
  - intros s g t b b' sp now id count u ((D & HD) & (bc & Hd) & Hf) Hg Hb Hb' Ht Hu Hn.
    destruct (compensate_spec s D _ g t b' sp now id count u bc HD Hd Hg inserts Hf ltac:(unfold MOST; lia) ltac:(unfold MOST; lia) Hb' Ht Hu Hn) as (s' & g' & He & HD' & Hc & Hg').
    exists s', g'. split; [exact He|]. split; [|exact Hg']. split; [eexists; eapply comp_is_mono; [exact HD'|lia]|]. rewrite Hc. eauto.
  - intros s b sp now ((D & HD) & Hd & Hf). destruct (flush_records s D _ now HD saves) as (st & He & HD'). exists (with_records s st). cbn. rewrite He. split; [reflexivity|]. split; [eauto|]. auto.
  - intros s b sp now ((D & HD) & Hd & Hf) Hb. destruct (relogin_records s D _ now HD ltac:(unfold MOST; lia) saves reads) as (s1 & st & s3 & He1 & He2 & He3 & HD3 & Hc).
    exists s1, (with_records s1 st), s3. cbn. rewrite He1, He2. split; [reflexivity|]. split; [reflexivity|]. split; [exact He3|]. split; [eauto|]. rewrite Hc. auto.
Defined.
End RecordTheorems.

(** ** Where the code does not do what it means to *)

(** The periods compensated are all since the last update, also those that grew up to the limit: 25 are too much at
    4000, and 85 are given. *)
Lemma compensates_too_much : grow_count sample_grow 1000 4000 40 3000 = (100, 1, Some 25) /\
  list_sum (map (fun e => Z.to_nat (snd e)) (compen_entries 17 sample_grow 1 (Z.rem 25 (amount sample_grow)) 3000 0 (periods_between sample_grow 4000 3000))) = 85%nat.
Proof. split; vm_compute; reflexivity. Qed.
(** When the rest of the first period is too small for one, the other periods are lost. *)
Lemma remainder_stops : compen_entries 17 sample_grow 2 (Z.rem 26 (amount sample_grow)) 3000 0 17 = [].
Proof. vm_compute. reflexivity. Qed.
(** Periods of more than a day are never compensated. *)
Lemma long_periods_lost g nperiod : 86400 < period g -> 0 <= nperiod -> first_period g nperiod = nperiod.
Proof. intros Hp Hn. unfold first_period. rewrite Z.quot_small by lia. lia. Qed.

#[local] Instance sample_table : Database Compensate (gmap (Z * Z) Compensate) := memory_database compensate_key fst.
Definition sample_comp : outcome (comp_state (gmap (Z * Z) Compensate) (agmap Z)) :=
  compensate_enter _agMap_new fresh_address next_address 7 30 (mk_cs (empty_store VOID ∅) (mk_set (maps_new _agMap_new) 0) (mk_cc _agMap_new ∅ ∅ 0)) 100 500 86399 5.
(** What there is no room for when a record is drawn is deleted with it. *)
Lemma draw_loses : ('(s, drops, r) ← (s ← sample_comp; draw_item s 86399 3); Ret (drops, r, st_db (cs_store s))) = Ret ([(500, 30); (500, 30); (500, 30)], 0, ∅).
Proof. vm_compute. reflexivity. Qed.

(** The chain of configurations is not reset when they are loaded again: it leads into freed memory. *)
Lemma reload_compensate_dangles :
  ('(s, _) ← reload_compensate _agMap_new next_address next_address (mk_cc _agMap_new ∅ ∅ 0 : compen_configs (agmap Z)) [mk_delay 90010 2 1 99 500 0 0];
   '(s, _) ← reload_compensate _agMap_new next_address next_address s []; p ← compensate_next s 0; compensate_next s p) = Undef.
Proof. vm_compute. reflexivity. Qed.
