(* ===== verification/Item.v ===== *)
(** * Items: [modules/item.c]

    A player has an amount of each item.  The records are found by the number of the item ([DataSet]); some items
    grow while time passes, which is looked up whenever the item is asked for ([Growth]), and for what does not fit
    under its limit the player is compensated ([Compensator], with the instance of [Compensate]).  A third map counts how many
    items there are of each type.  Every change is posted to the player and reported to the quests.  Over all that
    the functions refine a map from numbers to items. *)
From S2P Require Import Prelude AmfWire AmfValue AmfSafety AmfTheorems AgMap Dlist Keyed Data DataSet NotifyCount Notify NotifyTheorems PlayerNotify ItemGrow Growth.

Definition NOTIFY_ITEM_COUNT : Z := 39.
Definition REASON_ITEM_AUTO_GROW : Z := 1009.
Definition QuestEventType_ITEM_CONSUME : Z := 46.
Definition QuestEventType_LINGHUN : Z := 70.
(** The item that counts how often others have grown. *)
Definition GROW_ITEM : Z := 100000.

(** [struct Item]: the columns of the table *)
Record Item := mk_item { it_pid : Z; it_id : Z; it_limit : Z; it_pos : Z; it_update_time : Z }.
#[export] Instance player_item_row : Row Item := {
  row_ids := [3; 4; 5];
  row_get r i := if i =? 3 then it_limit r else if i =? 4 then it_pos r else it_update_time r;
  row_set r i x :=
    if i =? 3 then mk_item (it_pid r) (it_id r) x (it_pos r) (it_update_time r)
    else if i =? 4 then mk_item (it_pid r) (it_id r) (it_limit r) x (it_update_time r)
    else mk_item (it_pid r) (it_id r) (it_limit r) (it_pos r) x }.
Definition player_item_key (r : Item) : Z * Z := (it_pid r, it_id r).
#[export] Instance player_item_laws : RowLaws Item (Z * Z) player_item_key.
Proof.
  assert (Hin : forall i, i ∈ [3; 4; 5] -> i = 3 \/ i = 4 \/ i = 5) by (intros i Hi; rewrite !elem_of_cons, elem_of_nil in Hi; tauto).
  constructor; cbn [row_ids row_get row_set player_item_row].
  - intros i Hi. apply Hin in Hi. lia.
  - intros r i j x Hi Hj. apply Hin in Hi as [->|[->| ->]], Hj as [->|[->| ->]]; reflexivity.
  - intros r i x Hi. apply Hin in Hi as [->|[->| ->]]; reflexivity.
  - intros [p i l o t] [q j l' o' t'] [= -> ->] Hg. pose proof (Hg 3 ltac:(left)) as H3. pose proof (Hg 4 ltac:(right; left)) as H4. pose proof (Hg 5 ltac:(right; right; left)) as H5.
    cbn in H3, H4, H5. congruence.
Qed.

(** What the functions tell others: [notification_record_count], [aL_quest_on_event], [broadcast_to_client]. *)
Inductive event :=
| record_count (type count : Z)
| quest_event (type id count : Z)
| broadcast (type id : Z).

(** The table, [struct ItemSet], and what the functions work with. *)
Record item_state (W M G C N : Type) := mk_is { is_store : store Item W; is_set : data_set M; is_m3 : M; is_growth : G; is_comp : C; is_notify : N; is_events : list event }.
Arguments mk_is {W M G C N} _ _ _ _ _ _ _.
Arguments is_store {W M G C N} _.
Arguments is_set {W M G C N} _.
Arguments is_m3 {W M G C N} _.
Arguments is_growth {W M G C N} _.
Arguments is_comp {W M G C N} _.
Arguments is_notify {W M G C N} _.
Arguments is_events {W M G C N} _.

(** [on_item_change] and the reports to the quests. *)
Definition on_item_change (id change_count reason : Z) : list event :=
  if (change_count <? 0) && negb (13016 =? reason) then
    if id =? 410010 then [record_count 5 (- change_count)] else if id =? 410007 then [record_count 6 (- change_count)]
    else if id =? 410012 then [record_count 7 (- change_count)] else if id =? 410009 then [record_count 8 (- change_count)] else []
  else [].
Definition on_item_consume (id change_count : Z) : list event :=
  if change_count <? 0 then
    quest_event QuestEventType_ITEM_CONSUME id (- change_count) :: (if (55001 <=? id) && (id <=? 55999) then [quest_event QuestEventType_LINGHUN 1 (- change_count)] else [])
  else [].

Section Operations.
Context {W M G C N : Type} `{Database Item W} `{PtrMap M} `{Growth G} `{!Compensator C G} `{Notifier N} (map_new : M).
Context (void : Z) (malloc : gmap Z (datum Item) -> Z).
(** The player: its id and when it was created; the favor of items (number of the character and degrees). *)
Context (pid create : Z) (get_favor_item_config : Z -> option (Z * list Z)).
#[local] Abbreviation state := (item_state W M G C N).

Definition with_store (s : state) st : state := mk_is st (is_set s) (is_m3 s) (is_growth s) (is_comp s) (is_notify s) (is_events s).
Definition with_growth (s : state) g : state := mk_is (is_store s) (is_set s) (is_m3 s) g (is_comp s) (is_notify s) (is_events s).
Definition with_events (s : state) l : state := mk_is (is_store s) (is_set s) (is_m3 s) (is_growth s) (is_comp s) (is_notify s) (is_events s ++ l).

Definition increase_item_total_by_sub_type (m3 : M) (sub_type value : Z) : outcome M :=
  count ← pm_get m3 (u32 sub_type);
  '(m3, _) ← pm_set m3 (u32 sub_type) (u64 (i64 count + value)); Ret m3.
Definition decrease_item_total_by_sub_type (m3 : M) (sub_type value : Z) : outcome M :=
  count ← pm_get m3 (u32 sub_type);
  '(m3, _) ← pm_set m3 (u32 sub_type) (u64 (if 0 <? i64 count - value then i64 count - value else 0)); Ret m3.

(** [change] is the parameter of each of the three event types with which it is called. *)
Definition add_notify (s : state) (item : Item) (change : Z) : outcome state :=
  '(g, type) ← item_type (is_growth s) (i32 (it_id item));
  m3 ← (if type =? 0 then Ret (is_m3 s)
        else if 0 <? change then increase_item_total_by_sub_type (is_m3 s) type (u32 change)
        else decrease_item_total_by_sub_type (is_m3 s) type (u32 (- change)));
  '(res, _) ← amf_set (amf_new_array 3) 0 (Some (amf_new_integer (it_id item)));
  '(res, _) ← amf_set res 1 (Some (amf_new_integer (it_limit item)));
  n ← post_change_key (is_notify s) (it_pid item) NOTIFY_ITEM_COUNT (it_id item) (Some res);
  Ret (mk_is (is_store s) (is_set s) m3 g (is_comp s) n (is_events s)).

(** The announcement for a favor that is reached. *)
Definition favor_notice (s : state) (id limit : Z) : outcome state :=
  match get_favor_item_config (i32 id) with
  | None => Ret s
  | Some (npc_id, degree) => d ← deref (degree !! 6%nat); Ret (if u32 d <? limit then with_events s [broadcast 7 npc_id] else s)
  end.

(** A change of the amount of a record, as [item_set] and [item_set_limit] go on after it. *)
Definition limit_changed (s : state) (item change_count reason : Z) : outcome state :=
  v ← deref (st_heap (is_store s) !! item);
  let r := dt_row v in
  s ← add_notify s r change_count;
  Ret (with_events s (on_item_change (it_id r) change_count reason ++ on_item_consume (it_id r) change_count)).

Definition item_set_limit (s : state) (now item limit reason : Z) : outcome state :=
  v ← deref (st_heap (is_store s) !! item);
  if it_limit (dt_row v) =? limit then Ret s
  else
    st ← DATA_update (is_store s) now item 3 limit;
    limit_changed (with_store s st) item (i32 (limit - it_limit (dt_row v))) reason.

(** The structure of a new item and its row; 0 when it cannot be inserted. *)
Definition item_store (s : state) (r : Item) : outcome (state * Z) :=
  let a := malloc (st_heap (is_store s)) in
  if a =? 0 then Undef
  else
    '(st, ret) ← DATA_new (with_datum (is_store s) a (new_datum r)) a;
    if negb (ret =? 0) then Ret (with_store s (mk_store (delete a (st_heap st)) (st_update_list st) (st_db st)), 0)
    else Ret (with_store s st, a).
(** It enters the map and the list.  ([bag_push] follows: it has [BAG_SLOT_MAX], that is no slots to put it in.) *)
Definition item_link (s : state) (a id : Z) : outcome state :=
  '(m, _) ← pm_set (ds_m (is_set s)) id a;
  '(h, q) ← dlist_insert_tail (st_heap (is_store s)) (ds_list (is_set s)) a;
  Ret (mk_is (with_heap (is_store s) h) (mk_set m q) (is_m3 s) (is_growth s) (is_comp s) (is_notify s) (is_events s)).

(** [item_add] over the [item_get] it calls. *)
Definition item_add_by (get : state -> Z -> Z -> outcome (state * Z)) (s : state) (now id limit reason : Z) : outcome (state * Z) :=
  '(s, item) ← get s now id;
  if item =? 0 then
    '(g, r) ← item_growth (is_growth s) create now (i32 id) 0 0;
    '(s, a) ← item_store (with_growth s g) (mk_item pid id (u32 (limit + fst (fst r))) 0 now);
    if a =? 0 then Ret (s, 0)
    else
      s ← favor_notice s id limit;
      '(g, type) ← item_type (is_growth s) (i32 id);
      let s := with_growth s g in
      let s := if type =? 110 then with_events s [broadcast 6 id] else s in
      s ← item_link s a id;
      v ← deref (st_heap (is_store s) !! a);
      s ← add_notify s (dt_row v) (i32 limit);
      Ret (with_events s (on_item_change id (i32 limit) reason), a)
  else if 0 <? limit then
    v ← deref (st_heap (is_store s) !! item);
    let total := u32 (it_limit (dt_row v) + limit) in
    st ← DATA_update (is_store s) now item 3 total;
    s ← favor_notice (with_store s st) id (u32 (total + limit));
    v ← deref (st_heap (is_store s) !! item);
    s ← add_notify s (dt_row v) (i32 limit);
    Ret (with_events s (on_item_change (it_id (dt_row v)) (i32 limit) reason), item)
  else Ret (s, item).

(** An item that has grown: what is too much is compensated, another growth is counted when [counted], and the
    amount and its time are written. *)
Definition item_grown (add : state -> Z -> Z -> Z -> Z -> outcome (state * Z)) (counted : bool) (s : state) (now id item count over_flow update_time : Z) : outcome state :=
  '(c, g) ← (if over_flow =? 0 then Ret (is_comp s, is_growth s) else compensate_item (is_comp s) (is_growth s) now (i32 id) over_flow update_time);
  let s := mk_is (is_store s) (is_set s) (is_m3 s) g c (is_notify s) (is_events s) in
  s ← (if counted then '(s, _) ← add s now GROW_ITEM 1 REASON_ITEM_AUTO_GROW; Ret s else Ret s);
  s ← item_set_limit s now item (u32 count) REASON_ITEM_AUTO_GROW;
  st ← DATA_update (is_store s) now item 5 now;
  Ret (with_store s st).

(** The fuel is the depth of the calls: the item that counts growth does not count its own. *)
Fixpoint item_get_loop (fuel : nat) (s : state) (now id : Z) : outcome (state * Z) :=
  match fuel with
  | O => NoFuel
  | S fuel' =>
    item ← pm_get (ds_m (is_set s)) id;
    if negb (item =? 0) then
      v ← deref (st_heap (is_store s) !! item);
      '(g, r) ← item_growth (is_growth s) create now (i32 id) (i32 (it_limit (dt_row v))) (it_update_time (dt_row v));
      let s := with_growth s g in
      if negb (snd (fst r) =? 0) then
        s ← item_grown (item_add_by (item_get_loop fuel')) (negb (it_id (dt_row v) =? GROW_ITEM)) s now id item (fst (fst r)) (default 0 (snd r)) (it_update_time (dt_row v));
        Ret (s, item)
      else Ret (s, item)
    else
      '(g, r) ← item_growth (is_growth s) create now (i32 id) 0 0;
      let s := with_growth s g in
      if 0 <? fst (fst r) then
        '(s, a) ← item_store s (mk_item pid id (u32 (fst (fst r))) 0 now);
        if a =? 0 then Ret (s, 0) else s ← item_link s a id; Ret (s, a)
      else Ret (s, 0)
  end.
Definition item_get (s : state) (now id : Z) : outcome (state * Z) := item_get_loop 2 s now id.
Definition item_add : state -> Z -> Z -> Z -> Z -> outcome (state * Z) := item_add_by item_get.

Definition item_next (s : state) (now item : Z) : outcome (state * Z) :=
  item ← dlist_next (st_heap (is_store s)) (ds_list (is_set s)) item;
  if item =? 0 then Ret (s, 0)
  else
    v ← deref (st_heap (is_store s) !! item);
    let id := it_id (dt_row v) in
    '(g, r) ← item_growth (is_growth s) create now (i32 id) (i32 (it_limit (dt_row v))) (it_update_time (dt_row v));
    let s := with_growth s g in
    if negb (snd (fst r) =? 0) then
      s ← item_grown item_add false s now id item (fst (fst r)) (default 0 (snd r)) (it_update_time (dt_row v));
      Ret (s, item)
    else Ret (s, item).

Definition item_set (s : state) (now id limit reason : Z) : outcome (state * Z) :=
  '(s, item) ← item_get s now id;
  if negb (item =? 0) then
    v ← deref (st_heap (is_store s) !! item);
    st ← DATA_update (is_store s) now item 3 limit;
    s ← favor_notice (with_store s st) id limit;
    s ← limit_changed s item (i32 (limit - it_limit (dt_row v))) reason;
    Ret (s, 0)
  else if 0 <? limit then '(s, a) ← item_add s now id limit reason; Ret (s, if a =? 0 then -1 else 0)
  else Ret (s, 0).

Definition item_remove (s : state) (now item limit reason : Z) : outcome (state * Z) :=
  if limit =? 0 then Ret (s, 0)
  else
    v ← deref (st_heap (is_store s) !! item);
    if it_limit (dt_row v) <? limit then Ret (s, -1)
    else s ← item_set_limit s now item (u32 (it_limit (dt_row v) - limit)) reason; Ret (s, 0).
Definition item_use (s : state) (now item count reason : Z) : outcome (state * Z) :=
  v ← deref (st_heap (is_store s) !! item);
  if it_limit (dt_row v) <? count then Ret (s, -1) else item_remove s now item count reason.

Definition item_set_pos (s : state) (now item pos : Z) : outcome state :=
  v ← deref (st_heap (is_store s) !! item);
  if it_pos (dt_row v) =? pos then Ret s else st ← DATA_update (is_store s) now item 4 pos; Ret (with_store s st).

Definition get_item_count_by_sub_type (s : state) (sub_type : Z) : outcome Z :=
  count ← pm_get (is_m3 s) (u32 sub_type); Ret (i32 (i64 count)).

(** [ids]: the items of [compensate_next]. *)
Definition compensate_all_item (s : state) (now : Z) (ids : list Z) : outcome state := fold_outcome (fun s id => '(s, _) ← item_get s now (u32 id); Ret s) s ids.

(** ** Loading and releasing *)

Definition item_new : data_set M * M := (mk_set map_new 0, map_new).

(** Each record that is loaded is counted for the type of its item. *)
Definition count_item (mg : M * G) (r : Item) : outcome (M * G) :=
  let '(m3, g) := mg in
  '(g, type) ← item_type g (i32 (it_id r));
  if type =? 0 then Ret (m3, g)
  else
    count ← pm_get m3 (u64 type);
    '(m3, _) ← pm_set m3 (u64 type) (u64 (i64 count + it_limit r)); Ret (m3, g).
Fixpoint count_loop (fuel : nat) (st : store Item W) (set : data_set M) (mg : M * G) (item : Z) : outcome (M * G) :=
  item ← dlist_next (st_heap st) (ds_list set) item;
  if item =? 0 then Ret mg
  else
    match fuel with
    | O => NoFuel
    | S fuel' => v ← deref (st_heap st !! item); mg ← count_item mg (dt_row v); count_loop fuel' st set mg item
    end.

(** [None]: the rows cannot be read. *)
Definition item_load (s : state) : outcome (option state) :=
  '(st, set) ← load_set it_id (fun _ => true) map_new malloc (is_store s) pid;
  match set with
  | None => Ret None
  | Some set =>
    '(m3, g) ← count_loop (size (st_heap st)) st set (map_new, is_growth s) 0;
    c ← compensate_load (is_comp s);
    Ret (Some (mk_is st set m3 g c (is_notify s) (is_events s)))
  end.
Definition item_release (s : state) : outcome state :=
  st ← release_set (is_store s) (is_set s);
  c ← compensate_release (is_comp s);
  Ret (mk_is st (is_set s) (is_m3 s) (is_growth s) c (is_notify s) (is_events s)).
End Operations.
