(* ===== verification/ItemTheorems.v ===== *)
(** * The items of a player refine a map

    The specification of [Item]: a map from numbers to items, the counts of the types, what waits to be sent and
    what was reported.  Each function of the module does to its state what the specification does to this map. *)
From S2P Require Import Prelude AmfWire AmfValue AmfSafety AmfTheorems AgMap Dlist Keyed Data DataSet NotifyCount Notify NotifyTheorems PlayerNotify HeroMaps ItemGrow Growth Compensate Item.

(** ** The specification *)

Record item_spec := mk_sp { sp_items : gmap Z Item; sp_totals : Z -> Z; sp_posts : pending; sp_events : list event }.

(** The change that is posted for an item. *)
Definition item_count_change (r : Item) : amf_value := AV amf_array 3 (PChild [Some (amf_new_integer (it_id r)); Some (amf_new_integer (it_limit r)); None]).
Definition item_count_post (r : Item) : post := mk_post (it_pid r) NOTIFY_ITEM_COUNT (Some (it_id r)) (Some (item_count_change r)).

Section Spec.
Context (pid create : Z) (sp : growth_spec).

Definition spec_put (S : item_spec) (r : Item) : item_spec := mk_sp (<[it_id r := r]> (sp_items S)) (sp_totals S) (sp_posts S) (sp_events S).
Definition spec_report (S : item_spec) (l : list event) : item_spec := mk_sp (sp_items S) (sp_totals S) (sp_posts S) (sp_events S ++ l).
(** The count of a type after a change of one of its items; it does not fall below zero. *)
Definition total_after (T : Z -> Z) (type change : Z) : Z -> Z := fun k =>
  if (type =? 0) || negb (k =? type) then T k else if 0 <? change then T k + change else Z.max 0 (T k - u32 (- change)).
Definition spec_notify (S : item_spec) (r : Item) (change : Z) : item_spec :=
  mk_sp (sp_items S) (total_after (sp_totals S) (sp_type sp (i32 (it_id r))) change) (enter (sp_posts S) (item_count_post r)) (sp_events S).

(** How many items of a type there are. *)
Definition sum_of {A} (f : A -> Z) (l : list A) : Z := fold_right (fun a n => f a + n) 0 l.
Definition counts_for (k : Z) (r : Item) : Z := if sp_type sp (i32 (it_id r)) =? k then it_limit r else 0.
Definition item_total (D : gmap Z Item) (k : Z) : Z := if k =? 0 then 0 else sum_of (counts_for k) (map snd (map_to_list D)).

Definition spec_changed (S : item_spec) (r : Item) (change reason : Z) : item_spec :=
  spec_report (spec_notify S r change) (on_item_change (it_id r) change reason ++ on_item_consume (it_id r) change).
Definition spec_set_limit (S : item_spec) (id limit reason : Z) : item_spec :=
  match sp_items S !! id with
  | Some r => if it_limit r =? limit then S else spec_changed (spec_put S (row_set r 3 limit)) (row_set r 3 limit) (i32 (limit - it_limit r)) reason
  | None => S
  end.

Definition spec_add_by (get : item_spec -> Z -> Z -> item_spec) (S : item_spec) (now id limit reason : Z) : item_spec :=
  let S := get S now id in
  match sp_items S !! id with
  | None =>
    let r := mk_item pid id (u32 (limit + fst (fst (sp_growth sp create now (i32 id) 0 0)))) 0 now in
    let S := if sp_type sp (i32 id) =? 110 then spec_report S [broadcast 6 id] else S in
    spec_report (spec_notify (spec_put S r) r (i32 limit)) (on_item_change id (i32 limit) reason)
  | Some r =>
    if 0 <? limit then
      let r := row_set r 3 (u32 (it_limit r + limit)) in
      spec_report (spec_notify (spec_put S r) r (i32 limit)) (on_item_change id (i32 limit) reason)
    else S
  end.

Definition spec_grown (add : item_spec -> Z -> Z -> Z -> Z -> item_spec) (counted : bool) (S : item_spec) (now id count : Z) : item_spec :=
  let S := if counted then add S now GROW_ITEM 1 REASON_ITEM_AUTO_GROW else S in
  let S := spec_set_limit S id (u32 count) REASON_ITEM_AUTO_GROW in
  match sp_items S !! id with Some r => spec_put S (row_set r 5 now) | None => S end.

Fixpoint spec_get_loop (fuel : nat) (S : item_spec) (now id : Z) : item_spec :=
  match fuel with
  | O => S
  | Datatypes.S fuel' =>
    match sp_items S !! id with
    | Some r =>
      let '(count, modified, _) := sp_growth sp create now (i32 id) (i32 (it_limit r)) (it_update_time r) in
      if modified then spec_grown (spec_add_by (spec_get_loop fuel')) (negb (id =? GROW_ITEM)) S now id count else S
    | None =>
      let count := fst (fst (sp_growth sp create now (i32 id) 0 0)) in
      if 0 <? count then spec_put S (mk_item pid id (u32 count) 0 now) else S
    end
  end.
Definition spec_get := spec_get_loop 2.
Definition spec_add := spec_add_by spec_get.

Definition spec_set (S : item_spec) (now id limit reason : Z) : item_spec :=
  let S := spec_get S now id in
  match sp_items S !! id with
  | Some r => spec_changed (spec_put S (row_set r 3 limit)) (row_set r 3 limit) (i32 (limit - it_limit r)) reason
  | None => if 0 <? limit then spec_add S now id limit reason else S
  end.
Definition spec_remove (S : item_spec) (id limit reason : Z) : item_spec * Z :=
  match sp_items S !! id with
  | Some r => if limit =? 0 then (S, 0) else if it_limit r <? limit then (S, -1) else (spec_set_limit S id (u32 (it_limit r - limit)) reason, 0)
  | None => (S, -1)
  end.
End Spec.

(** ** The records *)

Section Theorems.
Context {W M G C N : Type} `{Database Item W} `{!DatabaseLaws Item (Z * Z) W player_item_key fst} `{PtrMapLaws M} `{GL : GrowthLaws G} `{CM : !Compensator C G} `{CL : !CompensatorLaws C G} `{NotifierLaws N}.
Context (map_new : M) (map_new_ok : pm_ok map_new) (map_new_empty : pm_abs map_new = ∅).
Context (void : Z) (malloc : gmap Z (datum Item) -> Z) (malloc_ok : forall h, h !! malloc h = None /\ malloc h <> 0 /\ malloc h <> void).
Context (pid create : Z) (sp : growth_spec) (types_ok : forall id, 0 <= sp_type sp id < 2 ^ 31).
#[local] Abbreviation state := (item_state W M G C N).
#[local] Abbreviation rows := (db_rows (key := player_item_key) (owner := fst)).
#[local] Abbreviation items := (gmap Z Item).

Lemma player_item_number (r r' : Item) : player_item_key r = player_item_key r' -> it_id r = it_id r'.
Proof. intros [= _ E]. exact E. Qed.
Lemma player_item_number_key (r r' : Item) : fst (player_item_key r) = fst (player_item_key r') -> it_id r = it_id r' -> player_item_key r = player_item_key r'.
Proof. intros E1 E2. unfold player_item_key in *. cbn in E1. congruence. Qed.

(** A record at time [t]. *)
Record item_fine (t : Z) (r : Item) : Prop := {
  if_pid : it_pid r = pid;
  if_id : 0 <= it_id r < 2 ^ 32;
  if_limit : 0 <= it_limit r < 2 ^ 32;
  if_time : 0 <= it_update_time r <= t }.

(** The table and the set hold the items [D]; [b] bounds them. *)
Record store_rep (st : store Item W) (set : data_set M) (D : items) (t b : Z) (l ul : list Z) : Prop := {
  sr_data : data_ok player_item_key fst void st ul;
  sr_set : player_set player_item_key fst it_id st set l pid;
  sr_items : forall k, row_of st set k = D !! k;
  sr_fine : forall k r, D !! k = Some r -> item_fine t r;
  sr_bound : zlen l <= b /\ Z.of_nat (size (rows (st_db st))) <= b }.

(** The address of a record. *)
Definition addr (set : data_set M) (k : Z) : option Z := pm_abs (ds_m set) !! k.
Definition addr_kept (set set' : data_set M) : Prop := forall k a, addr set k = Some a -> addr set' k = Some a.
Lemma addr_kept_refl set : addr_kept set set.
Proof. intros k a Ha. exact Ha. Qed.
Lemma addr_kept_trans set set1 set2 : addr_kept set set1 -> addr_kept set1 set2 -> addr_kept set set2.
Proof. intros H1' H2' k a Ha. auto. Qed.

Lemma item_fine_later t t' r : item_fine t r -> t <= t' -> item_fine t' r.
Proof. intros [] Ht. constructor; [assumption..|lia]. Qed.
Lemma store_rep_mono st set D t b t' b' l ul : store_rep st set D t b l ul -> t <= t' -> b <= b' -> store_rep st set D t' b' l ul.
Proof. intros [Hok Hps Hi Hf [Hl Hs]] Ht Hb. constructor; [exact Hok|exact Hps|exact Hi|intros k r Hk; eapply item_fine_later; eauto|lia]. Qed.

Lemma record_at st set D t b l ul k r : store_rep st set D t b l ul -> D !! k = Some r ->
  exists a v, pm_get (ds_m set) k = Ret a /\ addr set k = Some a /\ a <> 0 /\ a ∈ l /\ st_heap st !! a = Some v /\ dt_row v = r /\ it_id r = k.
Proof.
  intros Hr Hk. pose proof (ps_set _ _ _ _ _ _ _ (sr_set _ _ _ _ _ _ _ Hr)) as Hso. rewrite <- (sr_items _ _ _ _ _ _ _ Hr) in Hk.
  destruct (set_get it_id st set l k Hso) as [(a & v & Hg & Haz & Hal & Hv & _ & Hn & Hro)|(_ & Hro & _)]; [|congruence].
  exists a, v. assert (dt_row v = r) as Hrow by congruence. split; [exact Hg|]. split; [|subst r; auto 10].
  unfold addr. apply (so_index _ _ _ _ Hso). eauto.
Qed.
Lemma record_absent st set D t b l ul k : store_rep st set D t b l ul -> D !! k = None -> pm_get (ds_m set) k = Ret 0.
Proof.
  intros Hr Hk. pose proof (ps_set _ _ _ _ _ _ _ (sr_set _ _ _ _ _ _ _ Hr)) as Hso. rewrite <- (sr_items _ _ _ _ _ _ _ Hr) in Hk.
  destruct (set_get it_id st set l k Hso) as [(a & v & _ & _ & _ & _ & _ & _ & Hro)|(Hg & _ & _)]; congruence.
Qed.
(** An address leads to the record of its number. *)
Lemma record_of_addr st set D t b l ul k r a : store_rep st set D t b l ul -> D !! k = Some r -> addr set k = Some a ->
  a <> 0 /\ a ∈ l /\ it_id r = k /\ exists v, st_heap st !! a = Some v /\ dt_row v = r.
Proof. intros Hr Hk Ha. destruct (record_at st set D t b l ul k r Hr Hk) as (a' & v & _ & Ha' & Hz & Hl & Hv & Hrow & Hid). assert (a' = a) as -> by congruence. eauto 10. Qed.

(** A column of a record is written. *)
Lemma store_update st set D t b l ul k r a now col x : store_rep st set D t b l ul -> D !! k = Some r -> addr set k = Some a -> col ∈ [3; 4; 5] ->
  item_fine t (row_set r col x) ->
  exists st' ul', DATA_update st now a col x = Ret st' /\ store_rep st' set (<[k := row_set r col x]> D) t b l ul'.
Proof.
  intros Hr Hk Ha Hcol Hf. pose proof Hr as [Hok Hps Hi Hfine [Hl Hs]]. destruct (record_of_addr st set D t b l ul k r a Hr Hk Ha) as (_ & Hal & Hid & v & Hv & Hrow).
  destruct (ps_update player_item_key fst it_id void player_item_number st set l ul pid now a col x v Hps Hok Hal Hv Hcol) as (st' & ul' & v' & He & Hok' & Hps' & Hdb & Hh & Hr' & Hrows).
  exists st', ul'. split; [exact He|]. constructor; [exact Hok'|exact Hps'| | |rewrite Hdb; auto].
  - intros j. rewrite Hrows, Hrow, Hid. destruct (Z.eqb_spec j k) as [->|Hne]; [now rewrite lookup_insert_eq|rewrite lookup_insert_ne by congruence; apply Hi].
  - intros j r' Hj. apply lookup_insert_Some in Hj as [[_ <-]|[_ Hj]]; [exact Hf|eauto].
Qed.

(** A new record: its row is inserted, and it enters the map and the list. *)
Lemma store_insert st set D t b l ul r : store_rep st set D t b l ul -> inserts_ok player_item_key fst (W := W) -> 0 <= b < 2 ^ 60 -> D !! it_id r = None -> item_fine t r ->
  let a := malloc (st_heap st) in
  exists st1 h q m l', a <> 0 /\ DATA_new (with_datum st a (new_datum r)) a = Ret (st1, 0) /\ pm_set (ds_m set) (it_id r) a = Ret (m, 0) /\
    dlist_insert_tail (st_heap st1) (ds_list set) a = Ret (h, q) /\ (exists v, h !! a = Some v /\ dt_row v = r) /\
    store_rep (with_heap st1 h) (mk_set m q) (<[it_id r := r]> D) t (b + 1) l' ul /\ addr_kept set (mk_set m q) /\ addr (mk_set m q) (it_id r) = Some a.
Proof.
  intros Hr Hins Hb Hk Hf a. pose proof Hr as [Hok Hps Hi Hfine [Hl Hs]]. pose proof (ps_set _ _ _ _ _ _ _ Hps) as Hso.
  assert (Hnone : row_of st set (it_id r) = None) by now rewrite Hi.
  destruct (ps_insert player_item_key fst it_id void malloc malloc_ok player_item_number_key player_item_number st set l ul pid r Hps Hok (if_pid _ _ Hf) Hnone ltac:(lia))
    as (st1 & ret & Hnew & Hret & Hres). fold a in Hnew, Hres. rewrite (Hret Hins) in Hres, Hnew. cbn [Z.eqb] in Hres. destruct Hres as (h & q & m & Hins2 & Hpm & Hok' & Hps' & Hv & Hrows & Hsize).
  destruct (malloc_ok (st_heap st)) as (_ & Hz & _). fold a in Hz.
  assert (Hkn : pm_abs (ds_m set) !! it_id r = None) by (destruct (set_get it_id st set l (it_id r) Hso) as [(a0 & v0 & _ & _ & _ & _ & _ & _ & E)|(_ & _ & E)]; [congruence|exact E]).
  assert (Habs : pm_abs m = <[it_id r := a]> (pm_abs (ds_m set))).
  { destruct (pm_set_spec (ds_m set) (it_id r) a (so_map _ _ _ _ Hso)) as (m' & E & _ & Em); [pose proof (so_size _ _ _ _ Hso) as E; cbn in E; rewrite E; unfold zlen in Hl; lia|].
    apply Z.eqb_neq in Hz as Hz'. rewrite Hz' in Em. congruence. }
  exists st1, h, q, m, (l ++ [a]). split; [exact Hz|]. split; [exact Hnew|]. split; [exact Hpm|]. split; [exact Hins2|]. split; [exact Hv|]. split; [|split].
  - constructor; [exact Hok'|exact Hps'| | |cbn [st_db with_heap]; rewrite Hsize; autorewrite with cserver; lia].
    + intros k. rewrite Hrows. destruct (Z.eqb_spec k (it_id r)) as [->|Hne]; [now rewrite lookup_insert_eq|rewrite lookup_insert_ne by congruence; apply Hi].
    + intros k r' Hk'. apply lookup_insert_Some in Hk' as [[_ <-]|[_ Hk']]; [exact Hf|eauto].
  - intros k a0 Ha0. unfold addr in *. cbn [ds_m]. rewrite Habs. rewrite lookup_insert_ne; [exact Ha0|congruence].
  - unfold addr. cbn [ds_m]. rewrite Habs. apply lookup_insert_eq.
Qed.

(** ** The whole state *)

(** The map that counts the types. *)
Record totals_rep (m : M) (T : Z -> Z) (b : Z) : Prop := {
  tr_ok : pm_ok m;
  tr_size : Z.of_nat (size (pm_abs m)) <= b;
  tr_value : forall k, default 0 (pm_abs m !! k) = T k /\ 0 <= T k <= b * 2 ^ 32 }.

(** At time [t] the state is that of the specification; [b] bounds everything.  (Loading asks for the type of every
    item, so the configuration may grow by [b].) *)
Record rep (s : state) (S : item_spec) (t b : Z) (l ul : list Z) : Prop := {
  rp_store : store_rep (is_store s) (is_set s) (sp_items S) t b l ul;
  rp_growth : gr_rep (is_growth s) t ((b + 1) * 2 ^ 30) sp;
  rp_comp : cp_rep (is_comp s) b sp;
  rp_notes : nf_rep (is_notify s) b (sp_posts S);
  rp_totals : totals_rep (is_m3 s) (sp_totals S) b;
  rp_events : is_events s = sp_events S }.
Definition is_rep (s : state) (S : item_spec) (t b : Z) : Prop := exists l ul, rep s S t b l ul.

Lemma totals_mono m T b b' : totals_rep m T b -> b <= b' -> totals_rep m T b'.
Proof. intros [Hm Hs Hv] Hb. constructor; [exact Hm|lia|]. intros k. destruct (Hv k). split; [assumption|lia]. Qed.
Lemma is_rep_mono s S t b t' b' : is_rep s S t b -> t <= t' -> b <= b' -> is_rep s S t' b'.
Proof.
  intros (l & ul & [Hs Hg Hc Hn Ht He]) Htt Hb. exists l, ul. constructor; [eapply store_rep_mono; eauto|eapply gr_later; [exact Hg|exact Htt|lia]|eapply cp_later; eauto|eapply nf_more; eauto|eapply totals_mono; eauto|exact He].
Qed.
Lemma is_rep_record s S t b k r : is_rep s S t b -> sp_items S !! k = Some r -> item_fine t r /\ it_id r = k.
Proof. intros (l & ul & Hr) Hk. split; [eapply sr_fine; [apply Hr|exact Hk]|]. destruct (record_at _ _ _ _ _ _ _ _ _ (rp_store _ _ _ _ _ _ Hr) Hk) as (? & ? & _ & _ & _ & _ & _ & _ & E). exact E. Qed.
Lemma is_rep_report s S t b e : is_rep s S t b -> is_rep (with_events s e) (spec_report S e) t b.
Proof. intros (l & ul & [Hs Hg Hc Hn Ht He]). exists l, ul. constructor; cbn; [assumption..|now rewrite He]. Qed.
Lemma is_rep_growth s S t b g t' b' : is_rep s S t b -> gr_rep g t' ((b' + 1) * 2 ^ 30) sp -> t <= t' -> b <= b' -> is_rep (with_growth s g) S t' b'.
Proof.
  intros Hr Hg' Ht Hb. destruct (is_rep_mono _ _ _ _ t' b' Hr Ht Hb) as (l & ul & []). exists l, ul. now constructor.
Qed.

Lemma i64_fits z : 0 <= z < 2 ^ 63 -> i64 z = z.
Proof. intros Hz. unfold i64, signed. rewrite Z.mod_small by lia. change (2 ^ (64 - 1)) with (2 ^ 63). ztests. Qed.

(** Writing a count. *)
Lemma totals_write m T b k x : totals_rep m T b -> 0 <= b < 2 ^ 30 -> 0 <= x <= (b + 1) * 2 ^ 32 ->
  exists m' old, pm_set m k (u64 x) = Ret (m', old) /\ totals_rep m' (fun j => if j =? k then x else T j) (b + 1).
Proof.
  intros [Hm Hs Hv] Hb Hx. rewrite u64_small by lia. destruct (pm_set_spec m k x Hm ltac:(lia)) as (m' & -> & Hm' & Ha). exists m', (default 0 (pm_abs m !! k)). split; [reflexivity|].
  constructor; [exact Hm'| |].
  - rewrite Ha. destruct (x =? 0); [rewrite map_size_delete|rewrite map_size_insert]; destruct (pm_abs m !! k); unfold Datatypes.id; lia.
  - intros j. rewrite Ha. destruct (Hv j) as [Hj Hr]. destruct (Z.eqb_spec j k) as [->|Hne].
    + split; [|lia]. destruct (Z.eqb_spec x 0) as [->|]; [now rewrite lookup_delete_eq|now rewrite lookup_insert_eq].
    + split; [|lia]. destruct (x =? 0); [now rewrite lookup_delete_ne by congruence|now rewrite lookup_insert_ne by congruence].
Qed.

Lemma totals_step m T b type change : totals_rep m T b -> 0 <= b < 2 ^ 30 -> 0 <= type < 2 ^ 31 -> - 2 ^ 31 <= change < 2 ^ 31 ->
  exists m', (if type =? 0 then Ret m else if 0 <? change then increase_item_total_by_sub_type m type (u32 change) else decrease_item_total_by_sub_type m type (u32 (- change))) = Ret m' /\
    totals_rep m' (total_after T type change) (b + 1).
Proof.
  intros Ht Hb Hty Hc. assert (Hsame : forall T', (forall k, T' k = total_after T type change k) -> forall m', totals_rep m' T' (b + 1) -> totals_rep m' (total_after T type change) (b + 1)).
  { intros T' E m' [Hm Hs Hv]. constructor; [exact Hm|exact Hs|]. intros k. rewrite <- E. apply Hv. }
  destruct (Z.eqb_spec type 0) as [E0|E0].
  - exists m. split; [reflexivity|]. eapply (Hsame T); [|eapply totals_mono; [exact Ht|lia]]. intros k. unfold total_after. subst type. reflexivity.
  - pose proof (tr_value _ _ _ Ht type) as [Hv Hr]. unfold increase_item_total_by_sub_type, decrease_item_total_by_sub_type. rewrite (u32_small type) by lia. rewrite pm_get_spec by exact (tr_ok _ _ _ Ht). rewrite Hv.
    cbn [mbind outcome_bind]. rewrite i64_fits by lia. pose proof (u32_range (- change)). destruct (Z.ltb_spec 0 change) as [Hp|Hp].
    + rewrite u32_small by lia. destruct (totals_write m T b type (T type + change) Ht Hb ltac:(lia)) as (m' & old & -> & Ht'). cbn [mbind outcome_bind]. exists m'. split; [reflexivity|].
      refine (Hsame _ _ _ Ht'). clear Hsame. intros k. unfold total_after. apply Z.eqb_neq in E0. rewrite E0. cbn [orb]. destruct (Z.eqb_spec k type) as [->|]; cbn [negb]; [|reflexivity]. ztests; lia.
    + destruct (totals_write m T b type (if 0 <? T type - u32 (- change) then T type - u32 (- change) else 0) Ht Hb) as (m' & old & -> & Ht'); [ztests|]. cbn [mbind outcome_bind]. exists m'. split; [reflexivity|].
      refine (Hsame _ _ _ Ht'). clear Hsame. intros k. unfold total_after. apply Z.eqb_neq in E0. rewrite E0. cbn [orb]. destruct (Z.eqb_spec k type) as [->|]; cbn [negb]; [|reflexivity]. ztests; lia.
Qed.

Lemma count_change_wf t r : item_fine t r -> wf_amf (item_count_change r).
Proof.
  intros Hf. destruct Hf. apply wf_array_intro; [vm_compute; split; discriminate| |repeat constructor]. intros c Hc.
  repeat (apply elem_of_cons in Hc as [[= ->]|Hc]; [constructor; assumption|]). apply elem_of_cons in Hc as [Hc|Hc]; [discriminate|inversion Hc].
Qed.

Lemma notify_spec s S t b r change : is_rep s S t b -> 0 <= b < 2 ^ 30 -> item_fine t r -> - 2 ^ 31 <= change < 2 ^ 31 ->
  exists s', add_notify s r change = Ret s' /\ is_rep s' (spec_notify sp S r change) t (b + 1) /\ is_set s' = is_set s /\ is_store s' = is_store s.
Proof.
  intros (l & ul & [Hs Hg Hc Hn Ht He]) Hb Hf Hch. unfold add_notify. destruct (gr_type_spec (is_growth s) t ((b + 1) * 2 ^ 30) sp (i32 (it_id r)) Hg ltac:(lia)) as (g & -> & Hg'). cbn [mbind outcome_bind].
  destruct (totals_step (is_m3 s) (sp_totals S) b (sp_type sp (i32 (it_id r))) change Ht Hb (types_ok _) Hch) as (m3 & -> & Ht'). cbn [mbind outcome_bind].
  change (amf_set (amf_new_array 3) 0 (Some (amf_new_integer (it_id r)))) with (Ret (AV amf_array 3 (PChild [Some (amf_new_integer (it_id r)); None; None]), @None amf_value)). cbn [mbind outcome_bind].
  change (amf_set (AV amf_array 3 (PChild [Some (amf_new_integer (it_id r)); None; None])) 1 (Some (amf_new_integer (it_limit r)))) with (Ret (item_count_change r, @None amf_value)). cbn [mbind outcome_bind].
  destruct (post_key_spec (is_notify s) b (sp_posts S) (it_pid r) NOTIFY_ITEM_COUNT (it_id r) (item_count_change r) Hn ltac:(lia) ltac:(vm_compute; split; [discriminate|reflexivity]) (count_change_wf t r Hf)) as (n & -> & Hn').
  cbn [mbind outcome_bind]. eexists. split; [reflexivity|]. split; [|split; reflexivity]. exists l, ul. constructor; cbn; [eapply store_rep_mono; [exact Hs|lia|lia]|eapply gr_later; [exact Hg'|lia|lia]|eapply cp_later; [exact Hc|lia]|exact Hn'|exact Ht'|exact He].
Qed.

(** ** Changes *)

Lemma row_set_number (r : Item) col x : it_id (row_set r col x) = it_id r /\ it_pid (row_set r col x) = it_pid r.
Proof. cbn. destruct (col =? 3), (col =? 4); split; reflexivity. Qed.
Lemma limit_fine t r x : item_fine t r -> 0 <= x < 2 ^ 32 -> item_fine t (row_set r 3 x).
Proof. intros [] Hx. constructor; cbn; assumption. Qed.
Lemma pos_fine t r x : item_fine t r -> item_fine t (row_set r 4 x).
Proof. intros []. constructor; cbn; assumption. Qed.
Lemma time_fine t r x : item_fine t r -> 0 <= x <= t -> item_fine t (row_set r 5 x).
Proof. intros [] Hx. constructor; cbn; assumption. Qed.

Lemma addr_some s S t b k a : is_rep s S t b -> addr (is_set s) k = Some a -> exists r, sp_items S !! k = Some r.
Proof.
  intros (l & ul & Hr) Ha. pose proof (rp_store _ _ _ _ _ _ Hr) as Hs. pose proof (ps_set _ _ _ _ _ _ _ (sr_set _ _ _ _ _ _ _ Hs)) as Hso.
  destruct (proj1 (so_index _ _ _ _ Hso k a) Ha) as (_ & v & Hv & _). pose proof (sr_items _ _ _ _ _ _ _ Hs k) as Hi. unfold row_of in Hi. unfold addr in Ha. cbn in Ha, Hi. rewrite Ha, Hv in Hi. eauto.
Qed.

Lemma item_updated s S t b k r a now col x : is_rep s S t b -> sp_items S !! k = Some r -> addr (is_set s) k = Some a -> col ∈ [3; 4; 5] -> item_fine t (row_set r col x) ->
  exists st, DATA_update (is_store s) now a col x = Ret st /\ is_rep (with_store s st) (spec_put S (row_set r col x)) t b /\ exists v, st_heap st !! a = Some v /\ dt_row v = row_set r col x.
Proof.
  intros Hr Hk Ha Hcol Hf. destruct (is_rep_record _ _ _ _ _ _ Hr Hk) as [_ Hid]. destruct Hr as (l & ul & [Hs Hg Hc Hn Ht He]).
  destruct (store_update (is_store s) (is_set s) (sp_items S) t b l ul k r a now col x Hs Hk Ha Hcol Hf) as (st & ul' & Hu & Hs'). exists st. split; [exact Hu|]. split.
  - exists l, ul'. constructor; cbn [is_store is_set is_m3 is_growth is_comp is_notify is_events with_store spec_put sp_items sp_totals sp_posts sp_events]; try assumption. rewrite (proj1 (row_set_number r col x)), Hid. exact Hs'.
  - destruct (record_of_addr _ _ _ _ _ _ _ k (row_set r col x) a Hs' ltac:(apply lookup_insert_eq) Ha) as (_ & _ & _ & Hv). exact Hv.
Qed.

Lemma changed_spec s S t b k r a change reason : is_rep s S t b -> 0 <= b < 2 ^ 30 -> sp_items S !! k = Some r -> addr (is_set s) k = Some a -> - 2 ^ 31 <= change < 2 ^ 31 ->
  exists s', limit_changed s a change reason = Ret s' /\ is_rep s' (spec_changed sp S r change reason) t (b + 1) /\ is_set s' = is_set s.
Proof.
  intros Hr Hb Hk Ha Hch. destruct (is_rep_record _ _ _ _ _ _ Hr Hk) as [Hf Hid]. unfold limit_changed.
  assert (Hv : exists v, st_heap (is_store s) !! a = Some v /\ dt_row v = r) by (destruct Hr as (l & ul & Hr); apply (record_of_addr _ _ _ _ _ _ _ k r a (rp_store _ _ _ _ _ _ Hr) Hk Ha)).
  destruct Hv as (v & -> & Hv). cbn [deref mbind outcome_bind]. cbv zeta. rewrite Hv. destruct (notify_spec s S t b r change Hr Hb Hf Hch) as (s' & -> & Hr' & Hset & _). cbn [mbind outcome_bind].
  eexists. split; [reflexivity|]. split; [now apply is_rep_report|exact Hset].
Qed.

Lemma set_limit_spec s S t b k r a now limit reason : is_rep s S t b -> 0 <= b < 2 ^ 30 -> sp_items S !! k = Some r -> addr (is_set s) k = Some a -> 0 <= limit < 2 ^ 32 ->
  exists s', item_set_limit s now a limit reason = Ret s' /\ is_rep s' (spec_set_limit sp S k limit reason) t (b + 1) /\ is_set s' = is_set s.
Proof.
  intros Hr Hb Hk Ha Hlim. destruct (is_rep_record _ _ _ _ _ _ Hr Hk) as [Hf Hid]. unfold item_set_limit, spec_set_limit. rewrite Hk.
  assert (Hv : exists v, st_heap (is_store s) !! a = Some v /\ dt_row v = r) by (destruct Hr as (l & ul & Hr); apply (record_of_addr _ _ _ _ _ _ _ k r a (rp_store _ _ _ _ _ _ Hr) Hk Ha)).
  destruct Hv as (v & -> & Hv). cbn [deref mbind outcome_bind]. rewrite Hv. destruct (it_limit r =? limit) eqn:El.
  - exists s. split; [reflexivity|]. split; [|reflexivity]. eapply is_rep_mono; [exact Hr|lia|lia].
  - destruct (item_updated s S t b k r a now 3 limit Hr Hk Ha ltac:(left) (limit_fine t r limit Hf Hlim)) as (st & -> & Hr' & _). cbn [mbind outcome_bind].
    destruct (changed_spec (with_store s st) (spec_put S (row_set r 3 limit)) t b k (row_set r 3 limit) a (i32 (limit - it_limit r)) reason Hr' Hb) as (s' & He & Hr2 & Hset);
      [cbn; rewrite Hid; apply lookup_insert_eq|exact Ha|apply i32_range|]. eauto.
Qed.

(** A new item: the row, then the map and the list; what happens in between leaves the table and the set alone. *)
Lemma item_enters s S t b r : is_rep s S t b -> inserts_ok player_item_key fst (W := W) -> 0 <= b < 2 ^ 30 -> sp_items S !! it_id r = None -> item_fine t r ->
  exists st a st' set', item_store malloc s r = Ret (with_store s st, a) /\ a <> 0 /\
    (forall s2 : state, is_store s2 = st -> is_set s2 = is_set s -> item_link s2 a (it_id r) = Ret (mk_is st' set' (is_m3 s2) (is_growth s2) (is_comp s2) (is_notify s2) (is_events s2))) /\
    (forall (s2 : state) S2 t2 b2, is_rep (mk_is (is_store s) (is_set s) (is_m3 s2) (is_growth s2) (is_comp s2) (is_notify s2) (is_events s2)) S2 t2 b2 -> sp_items S2 = sp_items S -> t <= t2 -> b <= b2 < 2 ^ 60 ->
      is_rep (mk_is st' set' (is_m3 s2) (is_growth s2) (is_comp s2) (is_notify s2) (is_events s2)) (spec_put S2 r) t2 (b2 + 1)) /\
    addr_kept (is_set s) set' /\ addr set' (it_id r) = Some a /\ (exists v, st_heap st' !! a = Some v /\ dt_row v = r).
Proof.
  intros (l & ul & [Hs Hg Hc Hn Ht He]) Hins Hb Hk Hf. destruct (store_insert (is_store s) (is_set s) (sp_items S) t b l ul r Hs Hins ltac:(lia) Hk Hf) as (st1 & h & q & m & l' & Hz & Hnew & Hpm & Hl & Hv & Hs' & Hkept & Haddr).
  set (a := malloc (st_heap (is_store s))) in *. exists st1, a, (with_heap st1 h), (mk_set m q). split; [|split; [exact Hz|]; split; [|split; [|auto]]].
  - unfold item_store. fold a. apply Z.eqb_neq in Hz as ->. rewrite Hnew. reflexivity.
  - intros s2 <- Hset. unfold item_link. rewrite Hset, Hpm. cbn [mbind outcome_bind]. rewrite Hl. reflexivity.
  - intros s2 S2 t2 b2 (l2 & ul2 & [Hs2 Hg2 Hc2 Hn2 Ht2 He2]) Hit Hle Hb2. cbn in *. exists l', ul. constructor; cbn.
    + rewrite Hit. eapply store_rep_mono; [exact Hs'|exact Hle|lia].
    + eapply gr_later; [exact Hg2|lia|lia].
    + eapply cp_later; [exact Hc2|lia].
    + eapply nf_more; [exact Hn2|lia].
    + eapply totals_mono; [exact Ht2|lia].
    + exact He2.
Qed.

(** ** Asking and adding *)

Context (inserts : inserts_ok player_item_key fst (W := W)).
Context (get_favor_item_config : Z -> option (Z * list Z)) (no_favor : forall id, get_favor_item_config id = None).

Lemma growth_spec_ok s S t b now id count u : is_rep s S t b -> 0 <= b < 2 ^ 30 -> t <= now ->
  exists g r, item_growth (is_growth s) create now id count u = Ret (g, r) /\ answer r = sp_growth sp create now id count u /\ is_rep (with_growth s g) S now (b + 1).
Proof.
  intros Hr Hb Ht. pose proof Hr as (l & ul & [Hs Hg Hc Hn Htt He]). destruct (gr_growth_spec (is_growth s) t ((b + 1) * 2 ^ 30) sp create now id count u Hg ltac:(lia) Ht) as (g & r & Hgr & Ha & Hg'). exists g, r.
  split; [exact Hgr|]. split; [exact Ha|]. eapply is_rep_growth; [exact Hr|eapply gr_later; [exact Hg'|lia|lia]|exact Ht|lia].
Qed.

(** The address that is returned: that of the item, or 0. *)
Definition found (s : state) (S : item_spec) (id a : Z) : Prop := match sp_items S !! id with Some _ => a <> 0 /\ addr (is_set s) id = Some a | None => a = 0 end.

(** An [item_get] that does what [sget] says for the items [P]; [K] bounds what it adds. *)
Definition get_ok (P : Z -> Prop) (get : state -> Z -> Z -> outcome (state * Z)) (sget : item_spec -> Z -> Z -> item_spec) (K : Z) : Prop :=
  forall s S t b now id, is_rep s S t b -> 0 <= b -> b + K < 2 ^ 30 -> 0 <= t <= now -> now < 2 ^ 31 -> 0 <= id < 2 ^ 32 -> P id ->
  exists s' a, get s now id = Ret (s', a) /\ is_rep s' (sget S now id) now (b + K) /\ addr_kept (is_set s) (is_set s') /\ found s' (sget S now id) id a.

Lemma add_by_spec P get sget K : 0 <= K -> get_ok P get sget K -> forall s S t b now id limit reason,
  is_rep s S t b -> 0 <= b -> b + K + 4 < 2 ^ 30 -> 0 <= t <= now -> now < 2 ^ 31 -> 0 <= id < 2 ^ 32 -> P id -> 0 <= limit < 2 ^ 32 ->
  exists s' a, item_add_by malloc pid create get_favor_item_config get s now id limit reason = Ret (s', a) /\
    is_rep s' (spec_add_by pid create sp sget S now id limit reason) now (b + K + 4) /\ addr_kept (is_set s) (is_set s') /\ a <> 0 /\ addr (is_set s') id = Some a.
Proof.
  intros HK Hget s S t b now id limit reason Hr Hb HbK Ht Hnow Hid HP Hlim. unfold item_add_by, spec_add_by.
  destruct (Hget s S t b now id Hr Hb ltac:(lia) Ht Hnow Hid HP) as (s1 & a & -> & Hr1 & Hk1 & Hf). cbn [mbind outcome_bind]. set (S1 := sget S now id) in *. unfold found in Hf.
  destruct (sp_items S1 !! id) as [r|] eqn:Hi.
  - destruct Hf as [Hz Ha]. apply Z.eqb_neq in Hz as Hz'. rewrite Hz'. destruct (Z.ltb_spec 0 limit) as [Hl|Hl]; [|exists s1, a; split; [reflexivity|]; split; [eapply is_rep_mono; [exact Hr1|lia|lia]|auto]].
    destruct (is_rep_record _ _ _ _ _ _ Hr1 Hi) as [Hfine Hrid].
    assert (Hv : exists v, st_heap (is_store s1) !! a = Some v /\ dt_row v = r) by (destruct Hr1 as (l & ul & Hr1); apply (record_of_addr _ _ _ _ _ _ _ id r a (rp_store _ _ _ _ _ _ Hr1) Hi Ha)).
    destruct Hv as (v & -> & Hv). cbn [deref mbind outcome_bind]. cbv zeta. rewrite Hv. set (total := u32 (it_limit r + limit)). pose proof (u32_range (it_limit r + limit)) as Htot. fold total in Htot.
    destruct (item_updated s1 S1 now (b + K) id r a now 3 total Hr1 Hi Ha ltac:(left) (limit_fine _ _ _ Hfine Htot)) as (st & -> & Hr2 & w & Hw & Hwr). cbn [mbind outcome_bind].
    unfold favor_notice. rewrite no_favor. cbn [mbind outcome_bind is_store with_store]. rewrite Hw. cbn [deref mbind outcome_bind]. rewrite Hwr.
    destruct (notify_spec (with_store s1 st) (spec_put S1 (row_set r 3 total)) now (b + K) (row_set r 3 total) (i32 limit) Hr2 ltac:(lia) (limit_fine _ _ _ Hfine Htot) (i32_range _)) as (s3 & -> & Hr3 & Hset & _).
    cbn [mbind outcome_bind]. eexists _, a. split; [reflexivity|]. split; [|cbn [is_set with_events]; rewrite Hset; cbn [is_set with_store]; auto].
    rewrite (proj1 (row_set_number r 3 total)), Hrid. eapply is_rep_mono; [apply is_rep_report; exact Hr3|lia|lia].
  - subst a. cbn [Z.eqb]. destruct (growth_spec_ok s1 S1 now (b + K) now (i32 id) 0 0 Hr1 ltac:(lia) ltac:(lia)) as (g & gr & -> & Hans & Hr2). cbn [mbind outcome_bind].
    assert (Ec : fst (fst (sp_growth sp create now (i32 id) 0 0)) = fst (fst gr)) by (rewrite <- Hans; reflexivity). rewrite Ec. set (r := mk_item pid id (u32 (limit + fst (fst gr))) 0 now).
    assert (Hfine : item_fine now r) by (constructor; cbn; [reflexivity|exact Hid|apply u32_range|lia]).
    destruct (item_enters (with_growth s1 g) S1 now (b + K + 1) r Hr2 inserts ltac:(lia) Hi Hfine) as (st & a & st' & set' & -> & Hz & Hlink & Hrep & Hkept & Haddr & v & Hv & Hvr). cbn [mbind outcome_bind].
    apply Z.eqb_neq in Hz as Hz'. rewrite Hz'. unfold favor_notice. rewrite no_favor. cbn [mbind outcome_bind is_growth with_store with_growth].
    destruct Hr2 as (l & ul & Hr2). destruct (gr_type_spec g now ((b + K + 1 + 1) * 2 ^ 30) sp (i32 id) (rp_growth _ _ _ _ _ _ Hr2) ltac:(lia)) as (g2 & -> & Hg2). cbn [mbind outcome_bind]. cbv zeta.
    set (ev := if sp_type sp (i32 id) =? 110 then [broadcast 6 id] else []).
    set (s3 := if sp_type sp (i32 id) =? 110 then with_events (with_growth (with_store (with_growth s1 g) st) g2) [broadcast 6 id] else with_growth (with_store (with_growth s1 g) st) g2).
    assert (E3 : s3 = mk_is st (is_set s1) (is_m3 s1) g2 (is_comp s1) (is_notify s1) (is_events s3)) by (subst s3; destruct (_ =? 110); reflexivity).
    set (S3 := if sp_type sp (i32 id) =? 110 then spec_report S1 [broadcast 6 id] else S1).
    rewrite E3. pose proof (Hlink (mk_is st (is_set s1) (is_m3 s1) g2 (is_comp s1) (is_notify s1) (is_events s3)) eq_refl eq_refl) as Hl. cbn [it_id r is_m3 is_growth is_comp is_notify is_events] in Hl. rewrite Hl. cbn [mbind outcome_bind is_store]. rewrite Hv. cbn [deref mbind outcome_bind]. rewrite Hvr.
    assert (Hr3 : is_rep (mk_is st' set' (is_m3 s1) g2 (is_comp s1) (is_notify s1) (is_events s3)) (spec_put S3 r) now (b + K + 2 + 1)).
    { refine (Hrep (mk_is (is_store s1) (is_set s1) (is_m3 s1) g2 (is_comp s1) (is_notify s1) (is_events s3)) S3 now (b + K + 2) _ _ _ _); [|subst S3; destruct (_ =? 110); reflexivity|lia|lia].
      cbn [is_store is_set with_growth is_m3 is_growth is_comp is_notify is_events]. destruct Hr2 as [Hs Hg Hc Hn Htt He]. cbn in Hs, Hg, Hc, Hn, Htt, He.
      exists l, ul. constructor; cbn [is_store is_set is_m3 is_growth is_comp is_notify is_events].
      - subst S3. eapply store_rep_mono; [destruct (_ =? 110); exact Hs|lia|lia].
      - eapply gr_later; [exact Hg2|lia|lia].
      - eapply cp_later; [exact Hc|lia].
      - eapply nf_more; [subst S3; destruct (_ =? 110); exact Hn|lia].
      - eapply totals_mono; [subst S3; destruct (_ =? 110); exact Htt|lia].
      - subst s3 S3. destruct (_ =? 110); cbn; now rewrite He. }
    destruct (notify_spec _ _ now (b + K + 3) r (i32 limit) ltac:(eapply is_rep_mono; [exact Hr3|lia|lia]) ltac:(lia) Hfine (i32_range _)) as (s4 & -> & Hr4 & Hset & _). cbn [mbind outcome_bind].
    eexists _, a. split; [reflexivity|]. cbn [is_set with_events]. rewrite Hset. cbn [is_set]. split; [|split; [eapply addr_kept_trans; [exact Hk1|exact Hkept]|split; [exact Hz|exact Haddr]]].
    eapply is_rep_mono; [apply is_rep_report; exact Hr4|lia|lia].
Qed.

(** Counting another growth. *)
Definition count_ok (add : state -> Z -> Z -> Z -> Z -> outcome (state * Z)) (sadd : item_spec -> Z -> Z -> Z -> Z -> item_spec) (K : Z) : Prop :=
  forall s S t b now, is_rep s S t b -> 0 <= b -> b + K < 2 ^ 30 -> 0 <= t <= now -> now < 2 ^ 31 ->
  exists s' a, add s now GROW_ITEM 1 REASON_ITEM_AUTO_GROW = Ret (s', a) /\ is_rep s' (sadd S now GROW_ITEM 1 REASON_ITEM_AUTO_GROW) now (b + K) /\ addr_kept (is_set s) (is_set s').

Lemma grown_spec add sadd counted K : 0 <= K -> (counted = true -> count_ok add sadd K) -> forall s S b now id r a count over u,
  is_rep s S now b -> 0 <= b -> b + K + 2 < 2 ^ 30 -> 0 <= now < 2 ^ 31 -> sp_items S !! id = Some r -> addr (is_set s) id = Some a -> 0 <= u <= now ->
  exists s', item_grown add counted s now id a count over u = Ret s' /\ is_rep s' (spec_grown sp sadd counted S now id count) now (b + K + 2) /\ addr_kept (is_set s) (is_set s').
Proof.
  intros HK Hadd s S b now id r a count over u Hr Hb HbK Hnow Hi Ha Hu. unfold item_grown, spec_grown.
  assert (Hcomp : exists c g, (if over =? 0 then Ret (is_comp s, is_growth s) else compensate_item (is_comp s) (is_growth s) now (i32 id) over u) = Ret (c, g) /\
    is_rep (mk_is (is_store s) (is_set s) (is_m3 s) g c (is_notify s) (is_events s)) S now (b + 1)).
  { pose proof (is_rep_mono _ _ _ _ now (b + 1) Hr ltac:(lia) ltac:(lia)) as (l & ul & Hr1). destruct Hr as (l0 & ul0 & Hr). destruct (over =? 0).
    - exists (is_comp s), (is_growth s). split; [reflexivity|]. exists l, ul. destruct s, Hr1. now constructor.
    - destruct (cp_item_spec (is_comp s) (is_growth s) now b ((b + 1) * 2 ^ 30) sp now (i32 id) over u (rp_comp _ _ _ _ _ _ Hr) (rp_growth _ _ _ _ _ _ Hr) ltac:(lia) ltac:(lia) ltac:(lia) Hu ltac:(lia)) as (c & g & -> & Hc & Hg).
      exists c, g. split; [reflexivity|]. exists l, ul. destruct Hr1. constructor; cbn; try assumption. eapply gr_later; [exact Hg|lia|lia]. }
  destruct Hcomp as (c & g & -> & Hr1). cbn [mbind outcome_bind]. cbv zeta. set (s1 := mk_is _ _ _ g c _ _) in *.
  set (S1 := if counted then sadd S now GROW_ITEM 1 REASON_ITEM_AUTO_GROW else S).
  assert (Hcnt : exists s2, (if counted then '(s0, _) ← add s1 now GROW_ITEM 1 REASON_ITEM_AUTO_GROW; Ret s0 else Ret s1) = Ret s2 /\ is_rep s2 S1 now (b + K + 1) /\ addr_kept (is_set s) (is_set s2)).
  { subst S1. destruct counted.
    - destruct (Hadd eq_refl s1 S now (b + 1) now Hr1 ltac:(lia) ltac:(lia) ltac:(lia) ltac:(lia)) as (s2 & x & -> & Hr2 & Hk). cbn [mbind outcome_bind]. exists s2. split; [reflexivity|]. split; [|exact Hk].
      eapply is_rep_mono; [exact Hr2|lia|lia].
    - exists s1. split; [reflexivity|]. split; [eapply is_rep_mono; [exact Hr1|lia|lia]|apply addr_kept_refl]. }
  destruct Hcnt as (s2 & -> & Hr2 & Hk2). cbn [mbind outcome_bind]. clearbody S1. pose proof (Hk2 _ _ Ha) as Ha2. destruct (addr_some _ _ _ _ _ _ Hr2 Ha2) as [r2 Hi2].
  destruct (set_limit_spec s2 S1 now (b + K + 1) id r2 a now (u32 count) REASON_ITEM_AUTO_GROW Hr2 ltac:(lia) Hi2 Ha2 (u32_range _)) as (s3 & -> & Hr3 & Hset). cbn [mbind outcome_bind].
  rewrite <- Hset in Ha2. destruct (addr_some _ _ _ _ _ _ Hr3 Ha2) as [r3 Hi3]. rewrite Hi3. destruct (is_rep_record _ _ _ _ _ _ Hr3 Hi3) as [Hf3 _].
  destruct (item_updated s3 _ now _ id r3 a now 5 now Hr3 Hi3 Ha2 ltac:(right; right; left) (time_fine now r3 now Hf3 ltac:(lia))) as (st & -> & Hr4 & _). cbn [mbind outcome_bind].
  eexists. split; [reflexivity|]. split; [eapply is_rep_mono; [exact Hr4|lia|lia]|]. cbn [is_set with_store]. rewrite Hset. exact Hk2.
Qed.

(** What the specification changes stays in the map. *)
Lemma spec_set_limit_found S id j limit reason : is_Some (sp_items S !! j) -> is_Some (sp_items (spec_set_limit sp S id limit reason) !! j).
Proof.
  intros Hs. unfold spec_set_limit. destruct (sp_items S !! id) as [r|]; [|exact Hs]. destruct (it_limit r =? limit); [exact Hs|]. cbn. apply lookup_insert_is_Some. destruct (decide (it_id r = j)); auto.
Qed.

Lemma get_step P fuel K : 0 <= K -> (forall id, P id -> id <> GROW_ITEM ->
    count_ok (item_add_by malloc pid create get_favor_item_config (item_get_loop malloc pid create get_favor_item_config fuel)) (spec_add_by pid create sp (spec_get_loop pid create sp fuel)) K) ->
  get_ok P (item_get_loop malloc pid create get_favor_item_config (Datatypes.S fuel)) (spec_get_loop pid create sp (Datatypes.S fuel)) (K + 4).
Proof.
  intros HK Hadd s S t b now id Hr Hb HbK Ht Hnow Hid HP. cbn [item_get_loop spec_get_loop]. destruct (sp_items S !! id) as [r|] eqn:Hi.
  - destruct (is_rep_record _ _ _ _ _ _ Hr Hi) as [Hf Hrid]. pose proof Hr as (l & ul & Hrr). destruct (record_at _ _ _ _ _ _ _ _ _ (rp_store _ _ _ _ _ _ Hrr) Hi) as (a & v & -> & Ha & Hz & _ & Hv & Hrow & _).
    cbn [mbind outcome_bind]. apply Z.eqb_neq in Hz as Hz'. rewrite Hz'. cbn [negb]. rewrite Hv. cbn [deref mbind outcome_bind]. rewrite Hrow, Hrid.
    destruct (growth_spec_ok s S t b now (i32 id) (i32 (it_limit r)) (it_update_time r) Hr ltac:(lia) ltac:(lia)) as (g & gr & -> & Hans & Hr1). cbn [mbind outcome_bind]. rewrite <- Hans. unfold answer.
    destruct (negb (snd (fst gr) =? 0)).
    + destruct (grown_spec (item_add_by malloc pid create get_favor_item_config (item_get_loop malloc pid create get_favor_item_config fuel)) (spec_add_by pid create sp (spec_get_loop pid create sp fuel)) (negb (id =? GROW_ITEM)) K HK) with
        (s := with_growth s g) (S := S) (b := b + 1) (now := now) (id := id) (r := r) (a := a) (count := fst (fst gr)) (over := default 0 (snd gr)) (u := it_update_time r) as (s2 & -> & Hr2 & Hk2);
        [intros Hc; apply (Hadd id HP); intros ->; discriminate|exact Hr1|lia|lia|lia|exact Hi|exact Ha|destruct Hf; lia|]. cbn [mbind outcome_bind].
      exists s2, a. split; [reflexivity|]. split; [eapply is_rep_mono; [exact Hr2|lia|lia]|]. split; [exact Hk2|]. unfold found. pose proof (Hk2 _ _ Ha) as Ha2. cbn [is_set with_growth] in Ha2.
      destruct (addr_some _ _ _ _ _ _ Hr2 Ha2) as [r2 ->]. auto.
    + exists (with_growth s g), a. split; [reflexivity|]. split; [eapply is_rep_mono; [exact Hr1|lia|lia]|]. split; [apply addr_kept_refl|]. unfold found. rewrite Hi. auto.
  - pose proof Hr as (l & ul & Hrr). rewrite (record_absent _ _ _ _ _ _ _ _ (rp_store _ _ _ _ _ _ Hrr) Hi). cbn [mbind outcome_bind Z.eqb negb].
    destruct (growth_spec_ok s S t b now (i32 id) 0 0 Hr ltac:(lia) ltac:(lia)) as (g & gr & -> & Hans & Hr1). cbn [mbind outcome_bind]. cbv zeta. rewrite <- Hans. cbn [answer fst].
    destruct (0 <? fst (fst gr)).
    + set (r := mk_item pid id (u32 (fst (fst gr))) 0 now). assert (Hfine : item_fine now r) by (constructor; cbn; [reflexivity|exact Hid|apply u32_range|lia]).
      destruct (item_enters (with_growth s g) S now (b + 1) r Hr1 inserts ltac:(lia) Hi Hfine) as (st & a & st' & set' & -> & Hz & Hlink & Hrep & Hkept & Haddr & _). cbn [mbind outcome_bind].
      apply Z.eqb_neq in Hz as Hz'. rewrite Hz'. pose proof (Hlink (with_store (with_growth s g) st) eq_refl eq_refl) as Hl. cbn [it_id r] in Hl. rewrite Hl. cbn [mbind outcome_bind].
      eexists _, a. split; [reflexivity|]. cbn [is_set is_m3 is_growth is_comp is_notify is_events with_store with_growth]. split; [|split; [exact Hkept|]].
      * eapply is_rep_mono; [refine (Hrep (with_growth s g) S now (b + 1) _ eq_refl ltac:(lia) ltac:(lia))|lia|lia]. destruct s. exact Hr1.
      * unfold found. cbn [sp_items spec_put it_id r]. rewrite lookup_insert_eq. auto.
    + exists (with_growth s g), 0. split; [reflexivity|]. split; [eapply is_rep_mono; [exact Hr1|lia|lia]|]. split; [apply addr_kept_refl|]. unfold found. now rewrite Hi.
Qed.

Lemma count_by_get P fuel K : 0 <= K -> P GROW_ITEM -> get_ok P (item_get_loop malloc pid create get_favor_item_config fuel) (spec_get_loop pid create sp fuel) K ->
  count_ok (item_add_by malloc pid create get_favor_item_config (item_get_loop malloc pid create get_favor_item_config fuel)) (spec_add_by pid create sp (spec_get_loop pid create sp fuel)) (K + 4).
Proof.
  intros HK HP Hget s S t b now Hr Hb HbK Ht Hnow. destruct (add_by_spec P _ _ K HK Hget s S t b now GROW_ITEM 1 REASON_ITEM_AUTO_GROW Hr Hb ltac:(lia) Ht Hnow ltac:(unfold GROW_ITEM; lia) HP ltac:(lia)) as (s' & a & He & Hr' & Hk & _).
  exists s', a. split; [exact He|]. split; [eapply is_rep_mono; [exact Hr'|lia|lia]|exact Hk].
Qed.

(** Asking for an item nests twice at most. *)
Lemma get_spec_ok : get_ok (fun _ => True) (item_get malloc pid create get_favor_item_config) (spec_get pid create sp) 12.
Proof.
  assert (H1' : get_ok (fun id => id = GROW_ITEM) (item_get_loop malloc pid create get_favor_item_config 1) (spec_get_loop pid create sp 1) 4) by (apply (get_step _ 0 0); [lia|contradiction]).
  apply (get_step (fun _ => True) 1 8); [lia|]. intros id _ _. exact (count_by_get _ 1 4 ltac:(lia) eq_refl H1').
Qed.
Lemma add_spec_ok s S t b now id limit reason : is_rep s S t b -> 0 <= b -> b + 16 < 2 ^ 30 -> 0 <= t <= now -> now < 2 ^ 31 -> 0 <= id < 2 ^ 32 -> 0 <= limit < 2 ^ 32 ->
  exists s' a, item_add malloc pid create get_favor_item_config s now id limit reason = Ret (s', a) /\ is_rep s' (spec_add pid create sp S now id limit reason) now (b + 16) /\ a <> 0.
Proof.
  intros Hr Hb HbK Ht Hnow Hid Hl. destruct (add_by_spec (fun _ => True) _ _ 12 ltac:(lia) get_spec_ok s S t b now id limit reason Hr Hb ltac:(lia) Ht Hnow Hid I Hl) as (s' & a & He & Hr' & _ & Hz & _).
  exists s', a. split; [exact He|]. split; [eapply is_rep_mono; [exact Hr'|lia|lia]|exact Hz].
Qed.

(** ** Setting and removing *)

Lemma set_spec_ok s S t b now id limit reason : is_rep s S t b -> 0 <= b -> b + 40 < 2 ^ 30 -> 0 <= t <= now -> now < 2 ^ 31 -> 0 <= id < 2 ^ 32 -> 0 <= limit < 2 ^ 32 ->
  exists s', item_set malloc pid create get_favor_item_config s now id limit reason = Ret (s', 0) /\ is_rep s' (spec_set pid create sp S now id limit reason) now (b + 40).
Proof.
  intros Hr Hb HbK Ht Hnow Hid Hl. unfold item_set, spec_set. destruct (get_spec_ok s S t b now id Hr Hb ltac:(lia) Ht Hnow Hid I) as (s1 & a & -> & Hr1 & _ & Hf). cbn [mbind outcome_bind].
  set (S1 := spec_get pid create sp S now id) in *. unfold found in Hf. destruct (sp_items S1 !! id) as [r|] eqn:Hi.
  - destruct Hf as [Hz Ha]. apply Z.eqb_neq in Hz as ->. cbn [negb]. destruct (is_rep_record _ _ _ _ _ _ Hr1 Hi) as [Hfine Hrid].
    assert (Hv : exists v, st_heap (is_store s1) !! a = Some v /\ dt_row v = r) by (destruct Hr1 as (l & ul & Hr1); apply (record_of_addr _ _ _ _ _ _ _ id r a (rp_store _ _ _ _ _ _ Hr1) Hi Ha)).
    destruct Hv as (v & -> & Hv). cbn [deref mbind outcome_bind]. destruct (item_updated s1 S1 now (b + 12) id r a now 3 limit Hr1 Hi Ha ltac:(left) (limit_fine _ _ _ Hfine Hl)) as (st & -> & Hr2 & _). cbn [mbind outcome_bind].
    unfold favor_notice. rewrite no_favor. cbn [mbind outcome_bind]. rewrite Hv.
    destruct (changed_spec (with_store s1 st) (spec_put S1 (row_set r 3 limit)) now (b + 12) id (row_set r 3 limit) a (i32 (limit - it_limit r)) reason Hr2 ltac:(lia)) as (s3 & -> & Hr3 & _);
      [cbn; rewrite Hrid; apply lookup_insert_eq|exact Ha|apply i32_range|]. cbn [mbind outcome_bind]. exists s3. split; [reflexivity|]. eapply is_rep_mono; [exact Hr3|lia|lia].
  - subst a. cbn [Z.eqb negb]. destruct (0 <? limit); [|exists s1; split; [reflexivity|]; eapply is_rep_mono; [exact Hr1|lia|lia]].
    destruct (add_spec_ok s1 S1 now (b + 12) now id limit reason Hr1 ltac:(lia) ltac:(lia) ltac:(lia) Hnow Hid Hl) as (s2 & a & -> & Hr2 & Hz). cbn [mbind outcome_bind]. apply Z.eqb_neq in Hz as ->.
    exists s2. split; [reflexivity|]. eapply is_rep_mono; [exact Hr2|lia|lia].
Qed.

Lemma remove_spec_ok s S t b now id a limit reason : is_rep s S t b -> 0 <= b < 2 ^ 30 -> is_Some (sp_items S !! id) -> addr (is_set s) id = Some a -> 0 <= limit < 2 ^ 32 ->
  exists s', item_remove s now a limit reason = Ret (s', snd (spec_remove sp S id limit reason)) /\ is_rep s' (fst (spec_remove sp S id limit reason)) t (b + 1).
Proof.
  intros Hr Hb [r Hi] Ha Hl. unfold item_remove, spec_remove. rewrite Hi. destruct (limit =? 0); [exists s; split; [reflexivity|]; eapply is_rep_mono; [exact Hr|lia|lia]|].
  assert (Hv : exists v, st_heap (is_store s) !! a = Some v /\ dt_row v = r) by (destruct Hr as (l & ul & Hr1); apply (record_of_addr _ _ _ _ _ _ _ id r a (rp_store _ _ _ _ _ _ Hr1) Hi Ha)).
  destruct Hv as (v & -> & Hv). cbn [deref mbind outcome_bind]. rewrite Hv. destruct (it_limit r <? limit); [exists s; split; [reflexivity|]; eapply is_rep_mono; [exact Hr|lia|lia]|].
  destruct (set_limit_spec s S t b id r a now (u32 (it_limit r - limit)) reason Hr Hb Hi Ha (u32_range _)) as (s' & -> & Hr' & _). cbn [mbind outcome_bind]. exists s'. auto.
Qed.

(** The count of a type. *)
Lemma sub_type_spec s S t b type : is_rep s S t b -> 0 <= b < 2 ^ 30 -> 0 <= type < 2 ^ 32 -> get_item_count_by_sub_type s type = Ret (i32 (sp_totals S type)).
Proof.
  intros (l & ul & Hr) Hb Hty. pose proof (rp_totals _ _ _ _ _ _ Hr) as Ht. destruct (tr_value _ _ _ Ht type) as [Hv Hrg]. unfold get_item_count_by_sub_type. rewrite u32_small by exact Hty.
  rewrite pm_get_spec by exact (tr_ok _ _ _ Ht). rewrite Hv. cbn [mbind outcome_bind]. now rewrite i64_fits by lia.
Qed.

(** ** Leaving and coming back *)

Lemma sum_of_perm {A} (f : A -> Z) l k : l ≡ₚ k -> sum_of f l = sum_of f k.
Proof. unfold sum_of. induction 1; cbn; lia. Qed.
Lemma sum_of_app {A} (f : A -> Z) l k : sum_of f (l ++ k) = sum_of f l + sum_of f k.
Proof. unfold sum_of. induction l as [|a l IH]; cbn; lia. Qed.

(** Counting one record. *)
Lemma count_item_spec m g T b t bg r : totals_rep m T b -> gr_rep g t bg sp -> 0 <= b < 2 ^ 30 -> bg < 2 ^ 61 -> 0 <= it_limit r < 2 ^ 32 ->
  exists m' g', count_item (m, g) r = Ret (m', g') /\ totals_rep m' (fun k => T k + (if k =? 0 then 0 else counts_for sp k r)) (b + 1) /\ gr_rep g' t (bg + 1) sp.
Proof.
  intros Ht Hg Hb Hbg Hr. unfold count_item. destruct (gr_type_spec g t bg sp (i32 (it_id r)) Hg Hbg) as (g' & -> & Hg'). cbn [mbind outcome_bind]. pose proof (types_ok (i32 (it_id r))) as Hty. set (type := sp_type sp (i32 (it_id r))) in *.
  assert (Hsame : forall m' T' b', totals_rep m' T' b' -> (forall k, T' k = T k + (if k =? 0 then 0 else counts_for sp k r)) -> totals_rep m' (fun k => T k + (if k =? 0 then 0 else counts_for sp k r)) b').
  { intros m' T' b' [Hm Hs Hv] E. constructor; [exact Hm|exact Hs|]. intros k. rewrite <- E. apply Hv. }
  destruct (Z.eqb_spec type 0) as [E0|E0].
  - exists m, g'. split; [reflexivity|]. split; [|exact Hg']. apply (Hsame m T (b + 1)); [eapply totals_mono; [exact Ht|lia]|]. intros k. unfold counts_for. fold type. rewrite E0. destruct (Z.eqb_spec k 0) as [->|Hk]; [lia|].
    destruct (Z.eqb_spec 0 k); [congruence|lia].
  - destruct (tr_value _ _ _ Ht type) as [Hv Hrg]. rewrite (u64_small type), pm_get_spec by (lia || exact (tr_ok _ _ _ Ht)). rewrite Hv. cbn [mbind outcome_bind]. rewrite i64_fits by lia.
    destruct (totals_write m T b type (T type + it_limit r) Ht Hb ltac:(lia)) as (m' & old & -> & Ht'). cbn [mbind outcome_bind]. exists m', g'. split; [reflexivity|]. split; [|exact Hg'].
    refine (Hsame _ _ _ Ht' _). intros k. cbn beta. unfold counts_for. fold type. destruct (Z.eqb_spec k type) as [->|Hk].
    + apply Z.eqb_neq in E0 as ->. rewrite Z.eqb_refl. lia.
    + destruct (Z.eqb_spec type k); [congruence|]. destruct (k =? 0); lia.
Qed.

Lemma count_loop_spec (st : store Item W) set t l2 : forall l1 item fuel m g T b bg, ring (st_heap st) (ds_list set) (l1 ++ l2) -> (l1 = [] /\ item = 0 \/ exists l0, l1 = l0 ++ [item]) -> (length l2 <= fuel)%nat ->
  (forall a, a ∈ l2 -> exists v, st_heap st !! a = Some v /\ 0 <= it_limit (dt_row v) < 2 ^ 32) -> totals_rep m T b -> gr_rep g t bg sp -> 0 <= b -> b + zlen l2 < 2 ^ 30 -> bg + zlen l2 < 2 ^ 61 ->
  exists m' g' rs, count_loop fuel st set (m, g) item = Ret (m', g') /\ Forall2 (fun a r => exists v, st_heap st !! a = Some v /\ dt_row v = r) l2 rs /\
    totals_rep m' (fun k => T k + (if k =? 0 then 0 else sum_of (counts_for sp k) rs)) (b + zlen l2) /\ gr_rep g' t (bg + zlen l2) sp.
Proof.
  induction l2 as [|x l2 IH]; intros l1 item fuel m g T b bg Hr Hprev Hfuel Hl Ht Hg Hb Hbl Hbg.
  - exists m, g, []. assert (Hn : dlist_next (st_heap st) (ds_list set) item = Ret 0).
    { rewrite app_nil_r in Hr. destruct Hprev as [[-> ->]|[l0 ->]]; [pose proof (ring_head _ _ _ Hr) as E; cbn in E; unfold dlist_next; rewrite E; reflexivity|].
      exact (ring_next _ _ _ _ _ Hr). }
    split; [destruct fuel; cbn [count_loop]; rewrite Hn; reflexivity|]. split; [constructor|]. unfold zlen. cbn [length Z.of_nat sum_of fold_right]. rewrite !Z.add_0_r. split; [|exact Hg].
    destruct Ht as [Hm Hs Hv]. constructor; [exact Hm|exact Hs|]. intros k. replace (T k + (if k =? 0 then 0 else 0)) with (T k) by (destruct (k =? 0); lia). apply Hv.
  - rewrite zlen_cons in *. pose proof (zlen_nonneg l2). destruct fuel as [|fuel]; [cbn in Hfuel; lia|]. cbn [length] in Hfuel.
    assert (Hn : dlist_next (st_heap st) (ds_list set) item = Ret x).
    { destruct Hprev as [[-> ->]|[l0 ->]]; [pose proof (ring_head _ _ _ Hr) as E; cbn in E; unfold Datatypes.id in E; unfold dlist_next; rewrite E, orb_true_r; reflexivity|].
      rewrite <- (assoc_L (++)) in Hr. exact (ring_next _ _ _ _ _ Hr). }
    cbn [count_loop]. rewrite Hn. cbn [mbind outcome_bind]. pose proof (ring_pos _ _ _ x Hr ltac:(apply elem_of_app; right; left)) as Hx. apply Z.eqb_neq in Hx as ->.
    destruct (Hl x ltac:(left)) as (v & Hv & Hlim). rewrite Hv. cbn [deref mbind outcome_bind]. destruct (count_item_spec m g T b t bg (dt_row v) Ht Hg ltac:(lia) ltac:(lia) Hlim) as (m1 & g1 & -> & Ht1 & Hg1). cbn [mbind outcome_bind].
    destruct (IH (l1 ++ [x]) x fuel m1 g1 (fun k => T k + (if k =? 0 then 0 else counts_for sp k (dt_row v))) (b + 1) (bg + 1)) as (m' & g' & rs & He & Hrs & Ht' & Hg'); [rewrite <- (assoc_L (++)); exact Hr|eauto|lia|intros a Ha; apply Hl; now right|exact Ht1|exact Hg1|lia|lia|lia|].
    exists m', g', (dt_row v :: rs). split; [exact He|]. split; [constructor; [eauto|exact Hrs]|].
    replace (bg + (1 + zlen l2)) with (bg + 1 + zlen l2) by lia. split; [|exact Hg']. replace (b + (1 + zlen l2)) with (b + 1 + zlen l2) by lia. destruct Ht' as [Hm Hs Hv']. constructor; [exact Hm|exact Hs|].
    intros k. cbn [sum_of fold_right]. specialize (Hv' k). replace (T k + (if k =? 0 then 0 else counts_for sp k (dt_row v) + fold_right (fun a n => counts_for sp k a + n) 0 rs))
      with (T k + (if k =? 0 then 0 else counts_for sp k (dt_row v)) + (if k =? 0 then 0 else sum_of (counts_for sp k) rs)) by (unfold sum_of; destruct (k =? 0); lia). exact Hv'.
Qed.

(** The records of the set are the items of the map. *)
Lemma records_items st set D t b l ul rs : store_rep st set D t b l ul -> Forall2 (fun a r => exists v, st_heap st !! a = Some v /\ dt_row v = r) l rs -> rs ≡ₚ map snd (map_to_list D).
Proof.
  intros Hr Hf. pose proof (ps_set _ _ _ _ _ _ _ (sr_set _ _ _ _ _ _ _ Hr)) as Hso.
  assert (Hin : forall r, r ∈ rs <-> D !! it_id r = Some r).
  { intros r. split.
    - intros Hrr. apply list_elem_of_lookup in Hrr as [i Hi]. destruct (Forall2_lookup_r _ _ _ _ _ Hf Hi) as (a & Ha & v & Hv & Hrow). apply list_elem_of_lookup_2 in Ha.
      rewrite <- (sr_items _ _ _ _ _ _ _ Hr), <- Hrow. exact (row_at it_id st set l a v Hso Ha Hv).
    - intros Hk. destruct (record_at _ _ _ _ _ _ _ _ _ Hr Hk) as (a & v & _ & _ & _ & Ha & Hv & Hrow & _). apply list_elem_of_lookup in Ha as [i Hi]. destruct (Forall2_lookup_l _ _ _ _ _ Hf Hi) as (r' & Hr' & v' & Hv' & Hrow').
      apply list_elem_of_lookup_2 in Hr'. assert (r' = r) as -> by congruence. exact Hr'. }
  assert (Hid : forall k r, D !! k = Some r -> it_id r = k) by (intros k r Hk; now destruct (record_at _ _ _ _ _ _ _ _ _ Hr Hk) as (? & ? & _ & _ & _ & _ & _ & _ & E)).
  apply list.NoDup_Permutation.
  - apply NoDup_alt. intros i j r Hi Hj. destruct (Forall2_lookup_r _ _ _ _ _ Hf Hi) as (a & Ha & v & Hv & Hrow), (Forall2_lookup_r _ _ _ _ _ Hf Hj) as (a' & Ha' & v' & Hv' & Hrow').
    assert (E : a = a').
    { assert (G1 : pm_abs (ds_m set) !! it_id r = Some a) by (apply (so_index _ _ _ _ Hso); split; [exact (list_elem_of_lookup_2 _ _ _ Ha)|]; exists v; split; congruence).
      assert (G2 : pm_abs (ds_m set) !! it_id r = Some a') by (apply (so_index _ _ _ _ Hso); split; [exact (list_elem_of_lookup_2 _ _ _ Ha')|]; exists v'; split; congruence). congruence. }
    subst a'. exact (NoDup_lookup _ _ _ _ (ring_nodup _ _ _ (so_ring _ _ _ _ Hso)) Ha Ha').
  - apply NoDup_fmap_2_strong; [|apply NoDup_map_to_list]. intros [k r] [k' r'] Hk Hk' E. cbn in E. subst r'. apply elem_of_map_to_list in Hk, Hk'. apply Hid in Hk, Hk'. congruence.
  - intros r. rewrite Hin, list_elem_of_fmap. split.
    + intros Hk. exists (it_id r, r). split; [reflexivity|]. now apply elem_of_map_to_list.
    + intros ([k r'] & -> & Hk). cbn. apply elem_of_map_to_list in Hk. now rewrite (Hid _ _ Hk).
Qed.

(** ** Runs *)

(** The calls on a player's items with their times, a flush of the table, leaving and coming back. *)
Inductive item_call :=
| CGet (now id : Z) | CAdd (now id limit reason : Z) | CSet (now id limit reason : Z) | CRemove (now id limit reason : Z) | CCount (type : Z)
| CFlush (now : Z) | CRelogin (now : Z).

(** The flushes of the two tables. *)
Definition flush_tables (s : state) (now : Z) : outcome state :=
  st ← DATA_flush void (is_store s) now;
  c ← compensate_flush (is_comp s) now;
  Ret (mk_is st (is_set s) (is_m3 s) (is_growth s) c (is_notify s) (is_events s)).

Definition call_step (s : state) (c : item_call) : outcome (option state * Z) :=
  match c with
  | CGet now id =>
    '(s, a) ← item_get malloc pid create get_favor_item_config s now id;
    if a =? 0 then Ret (Some s, 0) else v ← deref (st_heap (is_store s) !! a); Ret (Some s, it_limit (dt_row v))
  | CAdd now id limit reason => '(s, a) ← item_add malloc pid create get_favor_item_config s now id limit reason; Ret (Some s, if a =? 0 then -1 else 0)
  | CSet now id limit reason => '(s, r) ← item_set malloc pid create get_favor_item_config s now id limit reason; Ret (Some s, r)
  | CRemove now id limit reason =>
    '(s, a) ← item_get malloc pid create get_favor_item_config s now id;
    if a =? 0 then Ret (Some s, -1) else '(s, r) ← item_remove s now a limit reason; Ret (Some s, r)
  | CCount type => r ← get_item_count_by_sub_type s type; Ret (Some s, r)
  | CFlush now => s ← flush_tables s now; Ret (Some s, 0)
  | CRelogin now =>
    s ← item_release s;
    s ← flush_tables s now;
    s ← item_load map_new malloc pid s;
    Ret (s, match s with Some _ => 0 | None => -1 end)
  end.

(** The answers and the last state; a player that cannot be loaded makes no more calls. *)
Fixpoint call_run (s : state) (calls : list item_call) : outcome (list Z * state) :=
  match calls with
  | [] => Ret ([], s)
  | c :: calls' =>
    '(s1, r) ← call_step s c;
    match s1 with Some s1 => '(rs, s2) ← call_run s1 calls'; Ret (r :: rs, s2) | None => Ret ([r], s) end
  end.

Definition call_spec (S : item_spec) (c : item_call) : item_spec * Z :=
  match c with
  | CGet now id => let S := spec_get pid create sp S now id in (S, match sp_items S !! id with Some r => it_limit r | None => 0 end)
  | CAdd now id limit reason => (spec_add pid create sp S now id limit reason, 0)
  | CSet now id limit reason => (spec_set pid create sp S now id limit reason, 0)
  | CRemove now id limit reason => spec_remove sp (spec_get pid create sp S now id) id limit reason
  | CCount type => (S, i32 (sp_totals S type))
  | CFlush _ => (S, 0)
  | CRelogin _ => (mk_sp (sp_items S) (item_total sp (sp_items S)) (sp_posts S) (sp_events S), 0)
  end.
Fixpoint calls_answer (S : item_spec) (calls : list item_call) (rs : list Z) (S' : item_spec) : Prop :=
  match calls, rs with
  | [], [] => S' = S
  | c :: calls', r :: rs' =>
    (r = snd (call_spec S c) /\ calls_answer (fst (call_spec S c)) calls' rs' S') \/ (match c with CRelogin _ => True | _ => False end /\ r = -1 /\ rs' = [] /\ S' = S)
  | _, _ => False
  end.

(** Times do not go back, and the numbers have 32 bits. *)
Definition call_time (t : Z) (c : item_call) : Z := match c with CGet now _ | CAdd now _ _ _ | CSet now _ _ _ | CRemove now _ _ _ | CFlush now | CRelogin now => now | CCount _ => t end.
Definition call_ok (t : Z) (c : item_call) : Prop :=
  t <= call_time t c < 2 ^ 31 /\
  match c with
  | CGet _ id => 0 <= id < 2 ^ 32
  | CAdd _ id limit _ | CSet _ id limit _ | CRemove _ id limit _ => 0 <= id < 2 ^ 32 /\ 0 <= limit < 2 ^ 32
  | CCount type => 0 <= type < 2 ^ 32
  | CFlush _ | CRelogin _ => True
  end.
Fixpoint calls_ok (t : Z) (calls : list item_call) : Prop := match calls with [] => True | c :: calls' => call_ok t c /\ calls_ok (call_time t c) calls' end.

Lemma found_record s S t b id a : is_rep s S t b -> found s S id a ->
  match sp_items S !! id with Some r => a <> 0 /\ addr (is_set s) id = Some a /\ exists v, st_heap (is_store s) !! a = Some v /\ dt_row v = r | None => a = 0 end.
Proof.
  intros (l & ul & Hr) Hf. unfold found in Hf. destruct (sp_items S !! id) as [r|] eqn:Hi; [|exact Hf]. destruct Hf as [Hz Ha]. split; [exact Hz|]. split; [exact Ha|].
  apply (record_of_addr _ _ _ _ _ _ _ id r a (rp_store _ _ _ _ _ _ Hr) Hi Ha).
Qed.

Lemma items_flushed s S t b now : is_rep s S t b -> saves_ok (V := Item) (W := W) -> exists s', flush_tables s now = Ret s' /\ is_rep s' S t b.
Proof.
  intros (l & ul & [[Hok Hps Hi Hf [Hl Hsz]] Hg Hc Hn Ht He]) Hsv. destruct (ps_flush player_item_key fst it_id void (is_store s) (is_set s) l ul pid now Hps Hok) as (st & ul' & Hfl & Hok' & Hps' & Hrows & Hsize).
  destruct (cp_flush_spec (is_comp s) b sp now Hc) as (c & Hfc & Hc'). unfold flush_tables. rewrite Hfl. cbn [mbind outcome_bind]. rewrite Hfc. cbn [mbind outcome_bind]. eexists. split; [reflexivity|].
  exists l, ul'. constructor; cbn; try assumption. constructor; [exact Hok'|exact (Hps' Hsv)|intros k; rewrite Hrows; apply Hi|exact Hf|rewrite (Hsize Hsv); lia].
Qed.

Lemma items_reloaded s S t b now : is_rep s S t b -> 0 <= b -> b + 1 < 2 ^ 30 -> t <= now -> saves_ok (V := Item) (W := W) ->
  exists s1 s2 res, item_release s = Ret s1 /\ flush_tables s1 now = Ret s2 /\ item_load map_new malloc pid s2 = Ret res /\
    match res with Some s' => is_rep s' (mk_sp (sp_items S) (item_total sp (sp_items S)) (sp_posts S) (sp_events S)) now (b + 1) | None => True end.
Proof.
  intros (l & ul & [[Hok Hps Hi Hf [Hl Hsz]] Hg Hc Hn Ht He]) Hb Hb1 Htn Hsv. assert (Hm : pt_ok map_new) by exact map_new_ok. assert (Hm0 : pt_abs map_new = ∅) by exact map_new_empty.
  destruct (relogin_spec player_item_key fst it_id (fun _ => true) void malloc malloc_ok player_item_number_key map_new (is_store s) (is_set s) l ul pid now Hm Hm0 (fun _ _ _ => eq_refl) Hps Hok Hsv ltac:(lia))
    as (st1 & st2 & st3 & ul2 & res & He1 & He2 & He3 & Hok3 & Hsz3 & Hres).
  unfold item_release, item_load. rewrite He1. cbn [mbind outcome_bind]. destruct (cp_relogin_spec (is_comp s) b sp now Hc ltac:(lia)) as (c1 & c2 & c3 & -> & Hcf & Hcl2 & Hc3). cbn [mbind outcome_bind].
  unfold flush_tables. cbn [is_store is_comp is_set is_m3 is_growth is_notify is_events].
  destruct res as [set'|].
  - destruct (Hres set' eq_refl) as [(l' & Hps' & Hll) Hrows]. assert (Hsr : store_rep st3 set' (sp_items S) now b l' ul2).
    { constructor; [exact Hok3|exact Hps'|intros k; rewrite Hrows; apply Hi|intros k r Hk; eapply item_fine_later; eauto|unfold zlen in *; lia]. }
    pose proof (ps_set _ _ _ _ _ _ _ Hps') as Hso. assert (Hlb : zlen l' <= b) by (unfold zlen in *; lia). pose proof (zlen_nonneg l').
    destruct (count_loop_spec st3 set' t l' [] 0 (size (st_heap st3)) map_new (is_growth s) (fun _ => 0) 0 ((b + 1) * 2 ^ 30)) as (m3 & g & rs & Hcl & Hrs & Htot & Hg').
    + exact (so_ring _ _ _ _ Hso).
    + now left.
    + apply nodup_size; [exact (ring_nodup _ _ _ (so_ring _ _ _ _ Hso))|]. intros a Ha. destruct (so_use _ _ _ _ Hso a Ha) as (v & Hv & _). eauto.
    + intros a Ha. destruct (so_use _ _ _ _ Hso a Ha) as (v & Hv & _). exists v. split; [exact Hv|]. pose proof (row_at it_id st3 set' l' a v Hso Ha Hv) as E. rewrite Hrows, Hi in E. destruct (Hf _ _ E). assumption.
    + constructor; [exact map_new_ok|rewrite map_new_empty; reflexivity|]. intros k. rewrite map_new_empty, lookup_empty. split; [reflexivity|lia].
    + exact Hg.
    + lia.
    + lia.
    + lia.
    + eexists _, _, (Some (mk_is st3 set' m3 g c3 (is_notify s) (is_events s))). split; [reflexivity|]. cbn [is_store is_growth is_comp is_notify is_events is_set is_m3].
      rewrite He2. cbn [mbind outcome_bind]. rewrite Hcf. cbn [mbind outcome_bind]. split; [reflexivity|]. cbn [is_store is_growth is_comp is_notify is_events is_set is_m3].
      rewrite He3. cbn [mbind outcome_bind]. rewrite Hcl. cbn [mbind outcome_bind]. rewrite Hcl2. cbn [mbind outcome_bind]. split; [reflexivity|].
      exists l', ul2. constructor; cbn [is_store is_set is_m3 is_growth is_comp is_notify is_events sp_items sp_totals sp_posts sp_events].
      * eapply store_rep_mono; [exact Hsr|lia|lia].
      * eapply gr_later; [exact Hg'|lia|lia].
      * eapply cp_later; [exact Hc3|lia].
      * eapply nf_more; [exact Hn|lia].
      * destruct Htot as [Hmo Hs Hv]. constructor; [exact Hmo|lia|]. intros k. destruct (Hv k) as [Hk Hkr]. cbn beta in Hk, Hkr.
        assert (E : item_total sp (sp_items S) k = 0 + (if k =? 0 then 0 else sum_of (counts_for sp k) rs)).
        { unfold item_total. destruct (k =? 0); [reflexivity|]. rewrite Z.add_0_l. apply sum_of_perm. symmetry. exact (records_items _ _ _ _ _ _ _ _ Hsr Hrs). }
        rewrite E. split; [exact Hk|lia].
      * exact He.
  - eexists _, _, None. split; [reflexivity|]. cbn [is_store is_growth is_comp is_notify is_events is_set is_m3]. rewrite He2. cbn [mbind outcome_bind]. rewrite Hcf. cbn [mbind outcome_bind].
    split; [reflexivity|]. cbn [is_store]. rewrite He3. cbn [mbind outcome_bind]. auto.
Qed.

(** A call does what the specification says. *)
Lemma call_step_spec s S t b c : is_rep s S t b -> 0 <= t -> 0 <= b -> b + 64 < 2 ^ 30 -> call_ok t c -> saves_ok (V := Item) (W := W) ->
  (exists s', call_step s c = Ret (Some s', snd (call_spec S c)) /\ is_rep s' (fst (call_spec S c)) (call_time t c) (b + 64)) \/
  (match c with CRelogin _ => True | _ => False end /\ call_step s c = Ret (None, -1)).
Proof.
  intros Hr Ht0 Hb HbK [Hnow Hok] Hsv. destruct c as [now id|now id limit reason|now id limit reason|now id limit reason|type|now|now]; cbn [call_step call_spec call_time fst snd] in *.
  - left. destruct (get_spec_ok s S t b now id Hr Hb ltac:(lia) ltac:(lia) ltac:(lia) Hok I) as (s1 & a & -> & Hr1 & _ & Hf). cbn [mbind outcome_bind]. apply (found_record _ _ _ _ _ _ Hr1) in Hf.
    assert (Hm : is_rep s1 (spec_get pid create sp S now id) now (b + 64)) by (eapply is_rep_mono; [exact Hr1|lia|lia]).
    destruct (sp_items (spec_get pid create sp S now id) !! id) as [r|]; [|subst a; eauto]. destruct Hf as (Hz & _ & v & Hv & Hrow). apply Z.eqb_neq in Hz as ->. rewrite Hv. cbn [deref mbind outcome_bind]. rewrite Hrow. eauto.
  - left. destruct Hok as [Hid Hl]. destruct (add_spec_ok s S t b now id limit reason Hr Hb ltac:(lia) ltac:(lia) ltac:(lia) Hid Hl) as (s1 & a & -> & Hr1 & Hz). cbn [mbind outcome_bind]. apply Z.eqb_neq in Hz as ->.
    exists s1. split; [reflexivity|]. eapply is_rep_mono; [exact Hr1|lia|lia].
  - left. destruct Hok as [Hid Hl]. destruct (set_spec_ok s S t b now id limit reason Hr Hb ltac:(lia) ltac:(lia) ltac:(lia) Hid Hl) as (s1 & -> & Hr1). cbn [mbind outcome_bind]. exists s1. split; [reflexivity|]. eapply is_rep_mono; [exact Hr1|lia|lia].
  - left. destruct Hok as [Hid Hl]. destruct (get_spec_ok s S t b now id Hr Hb ltac:(lia) ltac:(lia) ltac:(lia) Hid I) as (s1 & a & -> & Hr1 & _ & Hf). cbn [mbind outcome_bind]. unfold found in Hf.
    destruct (sp_items (spec_get pid create sp S now id) !! id) as [r|] eqn:Hi.
    + destruct Hf as [Hz Ha]. apply Z.eqb_neq in Hz as ->. destruct (remove_spec_ok s1 _ now (b + 12) now id a limit reason Hr1 ltac:(lia) ltac:(eauto) Ha Hl) as (s2 & -> & Hr2). cbn [mbind outcome_bind]. exists s2.
      split; [reflexivity|]. eapply is_rep_mono; [exact Hr2|lia|lia].
    + subst a. cbn [Z.eqb]. exists s1. unfold spec_remove. rewrite Hi. split; [reflexivity|]. eapply is_rep_mono; [exact Hr1|lia|lia].
  - left. rewrite (sub_type_spec s S t b type Hr ltac:(lia) Hok). cbn [mbind outcome_bind]. exists s. split; [reflexivity|]. eapply is_rep_mono; [exact Hr|lia|lia].
  - left. destruct (items_flushed s S t b now Hr Hsv) as (s1 & -> & Hr1). cbn [mbind outcome_bind]. exists s1. split; [reflexivity|]. eapply is_rep_mono; [exact Hr1|lia|lia].
  - destruct (items_reloaded s S t b now Hr Hb ltac:(lia) ltac:(lia) Hsv) as (s1 & st & res & -> & He2 & He3 & Hres). cbn [mbind outcome_bind]. rewrite He2. cbn [mbind outcome_bind]. rewrite He3. cbn [mbind outcome_bind].
    destruct res as [s'|]; [left|right; auto]. exists s'. split; [reflexivity|]. eapply is_rep_mono; [exact Hres|lia|lia].
Qed.

Lemma call_run_spec calls : forall s S t b, is_rep s S t b -> 0 <= t -> 0 <= b -> b + 64 * zlen calls < 2 ^ 30 -> calls_ok t calls -> saves_ok (V := Item) (W := W) ->
  exists rs s' S' t', call_run s calls = Ret (rs, s') /\ calls_answer S calls rs S' /\ is_rep s' S' t' (b + 64 * zlen calls).
Proof.
  induction calls as [|c calls IH]; intros s S t b Hr Ht Hb Hlen Hok Hsv; cbn [call_run].
  - exists [], s, S, t. split; [reflexivity|]. split; [reflexivity|]. eapply is_rep_mono; [exact Hr|lia|unfold zlen; cbn; lia].
  - rewrite zlen_cons in *. pose proof (zlen_nonneg calls). destruct Hok as [Hc Hok]. destruct (call_step_spec s S t b c Hr Ht Hb ltac:(lia) Hc Hsv) as [(s1 & -> & Hr1)|[Hend ->]]; cbn [mbind outcome_bind].
    + destruct (IH s1 _ _ (b + 64) Hr1 ltac:(destruct Hc; lia) ltac:(lia) ltac:(lia) Hok Hsv) as (rs & s' & S' & t' & -> & Ha & Hr'). cbn [mbind outcome_bind]. eexists _, s', S', t'. split; [reflexivity|].
      split; [left; split; [reflexivity|exact Ha]|]. eapply is_rep_mono; [exact Hr'|lia|lia].
    + exists [-1], s, S, t. split; [reflexivity|]. split; [right; auto|]. eapply is_rep_mono; [exact Hr|lia|lia].
Qed.
End Theorems.

(** ** The counts of the types *)

Section Totals.
Context (pid create : Z) (sp : growth_spec).
(** Items with a type do not grow, and neither does the item that counts growth have one. *)
Context (still : forall now id, sp_type sp (i32 id) <> 0 -> sp_active sp now (i32 id) = None) (untyped : sp_type sp (i32 GROW_ITEM) = 0).

(** The counts are the sums, and [m] bounds the amounts. *)
Record counted (S : item_spec) (m : Z) : Prop := {
  ct_id : forall k r, sp_items S !! k = Some r -> it_id r = k;
  ct_total : forall k, sp_totals S k = item_total sp (sp_items S) k;
  ct_bound : forall k r, sp_items S !! k = Some r -> sp_type sp (i32 k) <> 0 -> 0 <= it_limit r <= m }.
(** The amount of an item for its type. *)
Definition amount_of (S : item_spec) (k id : Z) : Z := match sp_items S !! id with Some r => counts_for sp k r | None => 0 end.

Lemma sum_insert (f : Item -> Z) (D : gmap Z Item) i x : D !! i = None -> sum_of f (map snd (map_to_list (<[i := x]> D))) = f x + sum_of f (map snd (map_to_list D)).
Proof. intros Hi. exact (sum_of_perm f _ _ (fmap_Permutation snd _ _ (map_to_list_insert D i x Hi))). Qed.
Lemma total_put S r k : item_total sp (<[it_id r := r]> (sp_items S)) k = item_total sp (sp_items S) k + (if k =? 0 then 0 else counts_for sp k r - amount_of S k (it_id r)).
Proof.
  unfold item_total, amount_of. destruct (k =? 0); [lia|]. set (D := sp_items S) in *. destruct (D !! it_id r) as [r0|] eqn:E; [|rewrite sum_insert by exact E; lia].
  pose proof (sum_insert (counts_for sp k) (delete (it_id r) D) (it_id r) r (lookup_delete_eq D _)) as E1. pose proof (sum_insert (counts_for sp k) (delete (it_id r) D) (it_id r) r0 (lookup_delete_eq D _)) as E2.
  rewrite insert_delete_eq in E1, E2. rewrite (insert_id D _ _ E) in E2. lia.
Qed.

Lemma sum_of_nonneg {A} (f : A -> Z) l : (forall x, x ∈ l -> 0 <= f x) -> 0 <= sum_of f l.
Proof.
  induction l as [|y l IH]; intros Hf; cbn; [lia|]. pose proof (Hf y ltac:(left)). specialize (IH (fun x Hx => Hf x (list_elem_of_further x y l Hx))). unfold sum_of in IH. lia.
Qed.
(** A sum is at least any of its parts. *)
Lemma sum_of_part {A} (f : A -> Z) l x : (forall y, y ∈ l -> 0 <= f y) -> x ∈ l -> f x <= sum_of f l.
Proof.
  intros Hf Hx. apply list_elem_of_split in Hx as (l1 & l2 & ->). rewrite sum_of_app. cbn. pose proof (sum_of_nonneg f l1 (fun y Hy => Hf y ltac:(apply elem_of_app; now left))).
  pose proof (sum_of_nonneg f l2 (fun y Hy => Hf y ltac:(apply elem_of_app; right; now right))) as H2. unfold sum_of in *. lia.
Qed.

Lemma counts_nonneg S m k x : counted S m -> k <> 0 -> x ∈ map snd (map_to_list (sp_items S)) -> 0 <= counts_for sp k x.
Proof.
  intros [Hid _ Hb] Hk Hx. apply list_elem_of_fmap in Hx as ([j y] & -> & Hy). apply elem_of_map_to_list in Hy. cbn. unfold counts_for. rewrite (Hid _ _ Hy).
  destruct (Z.eqb_spec (sp_type sp (i32 j)) k); [|lia]. apply (Hb j y Hy). congruence.
Qed.
Lemma total_part S m k id r : counted S m -> sp_items S !! id = Some r -> k <> 0 -> counts_for sp k r <= item_total sp (sp_items S) k.
Proof.
  intros Hc Hi Hk. unfold item_total. apply Z.eqb_neq in Hk as Hk'. rewrite Hk'. apply sum_of_part; [intros y Hy; eapply counts_nonneg; eauto|].
  apply list_elem_of_fmap. exists (id, r). split; [reflexivity|now apply elem_of_map_to_list].
Qed.
Lemma total_nonneg S m k : counted S m -> 0 <= item_total sp (sp_items S) k.
Proof. intros Hc. unfold item_total. destruct (Z.eqb_spec k 0) as [|Hk]; [lia|]. apply sum_of_nonneg. intros y Hy. eapply counts_nonneg; eauto. Qed.

Lemma counted_mono S m m' : counted S m -> m <= m' -> counted S m'.
Proof. intros [Hid Ht Hb] Hm. constructor; [exact Hid|exact Ht|]. intros k r Hk Hty. specialize (Hb k r Hk Hty). lia. Qed.
Lemma counted_report S m l : counted S m -> counted (spec_report S l) m.
Proof. intros []. now constructor. Qed.

(** A change of an item without a type counts nowhere. *)
Lemma counted_untyped_put S m r : counted S m -> sp_type sp (i32 (it_id r)) = 0 -> counted (spec_put S r) m.
Proof.
  intros Hc Hu. pose proof Hc as [Hid Ht Hb]. constructor; cbn [spec_put sp_items sp_totals].
  - intros k x Hk. apply lookup_insert_Some in Hk as [[E Ex]|[_ Hk]]; [congruence|auto].
  - intros k. rewrite (total_put S r k), Ht. destruct (Z.eqb_spec k 0) as [->|Hk]; [lia|]. unfold counts_for, amount_of. rewrite Hu. destruct (Z.eqb_spec 0 k); [congruence|].
    destruct (sp_items S !! it_id r) as [r0|] eqn:E; [|lia]. unfold counts_for. rewrite (Hid _ _ E), Hu. destruct (Z.eqb_spec 0 k); [congruence|lia].
  - intros k x Hk Hty. apply lookup_insert_Some in Hk as [[E Ex]|[_ Hk]]; [congruence|eauto].
Qed.
Lemma counted_untyped S m r change : counted S m -> sp_type sp (i32 (it_id r)) = 0 -> counted (spec_notify sp (spec_put S r) r change) m.
Proof.
  intros Hc Hu. pose proof (counted_untyped_put S m r Hc Hu) as [Hid Ht Hb]. constructor; [exact Hid| |exact Hb]. intros k. cbn [spec_notify sp_totals sp_items]. unfold total_after. rewrite Hu. apply Ht.
Qed.

(** A change of an item with a type is counted when the difference is reported. *)
Lemma counted_typed S m m' r old change : counted S m -> m <= m' < 2 ^ 31 -> 0 <= it_limit r <= m' -> sp_type sp (i32 (it_id r)) <> 0 -> change = it_limit r - old ->
  match sp_items S !! it_id r with Some r0 => old = it_limit r0 | None => old = 0 end -> counted (spec_notify sp (spec_put S r) r change) m'.
Proof.
  intros Hc Hm Hr Hty Hch Hold. pose proof Hc as [Hid Ht Hb]. set (type := sp_type sp (i32 (it_id r))) in *. constructor; cbn [spec_notify spec_put sp_items sp_totals].
  - intros k x Hk. apply lookup_insert_Some in Hk as [[E Ex]|[_ Hk]]; [congruence|auto].
  - intros k. rewrite (total_put S r k). fold type. unfold total_after. apply Z.eqb_neq in Hty as Hty'. rewrite Hty', Ht. cbn [orb].
    assert (Ho : forall j, j <> type -> (if j =? 0 then 0 else counts_for sp j r - amount_of S j (it_id r)) = 0).
    { intros j Hj. destruct (j =? 0); [reflexivity|]. unfold counts_for, amount_of. fold type. destruct (Z.eqb_spec type j); [congruence|]. destruct (sp_items S !! it_id r) as [r0|] eqn:E; [|lia].
      unfold counts_for. rewrite (Hid _ _ E). fold type. destruct (Z.eqb_spec type j); [congruence|lia]. }
    destruct (Z.eqb_spec k type) as [->|Hk]; cbn [negb]; [|rewrite Ho by exact Hk; lia]. rewrite Hty'.
    assert (Ea : amount_of S type (it_id r) = old /\ 0 <= old <= item_total sp (sp_items S) type).
    { unfold amount_of. destruct (sp_items S !! it_id r) as [r0|] eqn:E.
      - pose proof (total_part S m type _ r0 Hc E Hty) as Hp. unfold counts_for in *. rewrite (Hid _ _ E) in *. fold type in Hp |- *. rewrite Z.eqb_refl in *. pose proof (Hb _ _ E Hty). lia.
      - pose proof (total_nonneg S m type Hc). lia. }
    destruct Ea as [-> Ho2]. unfold counts_for. fold type. rewrite Z.eqb_refl. assert (Holdm : old <= m' \/ old = 0).
    { destruct (sp_items S !! it_id r) as [r0|] eqn:E; [left; pose proof (Hb _ _ E Hty); lia|now right]. }
    destruct (Z.ltb_spec 0 change); [lia|]. rewrite u32_small by lia. lia.
  - intros k x Hk Hty2. apply lookup_insert_Some in Hk as [[E Ex]|[_ Hk]]; [subst x; exact Hr|]. specialize (Hb k x Hk Hty2). lia.
Qed.

(** ** What the calls do to the counts *)

Lemma still_growth now id count u : sp_type sp (i32 id) <> 0 -> sp_growth sp create now (i32 id) count u = (count, false, 0).
Proof. intros Hty. unfold sp_growth. now rewrite still. Qed.

Lemma counted_changed S m r change reason : counted (spec_notify sp S r change) m -> counted (spec_changed sp S r change reason) m.
Proof. intros Hc. unfold spec_changed. now apply counted_report. Qed.

Lemma counted_untyped_limit S m id limit reason : counted S m -> sp_type sp (i32 id) = 0 -> counted (spec_set_limit sp S id limit reason) m.
Proof.
  intros Hc Hu. unfold spec_set_limit. destruct (sp_items S !! id) as [r|] eqn:Hi; [|exact Hc]. destruct (it_limit r =? limit); [exact Hc|]. apply counted_changed, counted_untyped; [exact Hc|].
  rewrite (proj1 (row_set_number r 3 limit)), (ct_id _ _ Hc _ _ Hi). exact Hu.
Qed.

(** Adding to an item without a type. *)
Lemma counted_untyped_add get S m now id limit reason : sp_type sp (i32 id) = 0 -> counted (get S now id) m -> counted (spec_add_by pid create sp get S now id limit reason) m.
Proof.
  intros Hu Hc. unfold spec_add_by. destruct (sp_items (get S now id) !! id) as [r|] eqn:Hi.
  - destruct (0 <? limit); [|exact Hc]. apply counted_report, counted_untyped; [exact Hc|]. rewrite (proj1 (row_set_number r 3 _)), (ct_id _ _ Hc _ _ Hi). exact Hu.
  - apply counted_report, counted_untyped; [|exact Hu]. destruct (_ =? 110); [now apply counted_report|exact Hc].
Qed.

Lemma counted_untyped_grown add counted_by S m now id count : sp_type sp (i32 id) = 0 -> counted S m -> (forall S', counted S' m -> counted (add S' now GROW_ITEM 1 REASON_ITEM_AUTO_GROW) m) ->
  counted (spec_grown sp add counted_by S now id count) m.
Proof.
  intros Hu Hc Hadd. unfold spec_grown. set (S1 := if counted_by then _ else S). assert (Hc1 : counted S1 m) by (subst S1; destruct counted_by; auto).
  pose proof (counted_untyped_limit S1 m id (u32 count) REASON_ITEM_AUTO_GROW Hc1 Hu) as Hc2. destruct (sp_items (spec_set_limit sp S1 id (u32 count) REASON_ITEM_AUTO_GROW) !! id) as [r|] eqn:Hi; [|exact Hc2].
  apply counted_untyped_put; [exact Hc2|]. rewrite (proj1 (row_set_number r 5 now)), (ct_id _ _ Hc2 _ _ Hi). exact Hu.
Qed.

(** Asking changes items without a type only. *)
Lemma get_typed fuel S now id : sp_type sp (i32 id) <> 0 -> spec_get_loop pid create sp fuel S now id = S.
Proof.
  intros Hty. destruct fuel; [reflexivity|]. cbn [spec_get_loop]. destruct (sp_items S !! id) as [r|]; rewrite still_growth by exact Hty; reflexivity.
Qed.
Lemma counted_get fuel : forall S m now id, counted S m -> counted (spec_get_loop pid create sp fuel S now id) m.
Proof.
  induction fuel as [|fuel IH]; intros S m now id Hc; [exact Hc|]. destruct (decide (sp_type sp (i32 id) = 0)) as [Hu|Hty]; [|now rewrite get_typed]. cbn [spec_get_loop].
  destruct (sp_items S !! id) as [r|] eqn:Hi.
  - destruct (sp_growth sp create now (i32 id) (i32 (it_limit r)) (it_update_time r)) as [[count modified] over]. destruct modified; [|exact Hc].
    apply counted_untyped_grown; [exact Hu|exact Hc|]. intros S' Hc'. apply counted_untyped_add; [exact untyped|]. now apply IH.
  - cbv zeta. destruct (0 <? _); [|exact Hc]. now apply counted_untyped_put.
Qed.

Lemma counted_add S m now id limit reason : counted S m -> 0 <= m -> 0 <= limit -> m + limit < 2 ^ 31 -> counted (spec_add pid create sp S now id limit reason) (m + limit).
Proof.
  intros Hc Hm Hl Hml. assert (Hc' : counted S (m + limit)) by (eapply counted_mono; [exact Hc|lia]). destruct (decide (sp_type sp (i32 id) = 0)) as [Hu|Hty].
  - apply counted_untyped_add; [exact Hu|]. now apply counted_get.
  - unfold spec_add, spec_add_by, spec_get. rewrite get_typed by exact Hty. destruct (sp_items S !! id) as [r|] eqn:Hi.
    + destruct (Z.ltb_spec 0 limit); [|exact Hc']. apply counted_report. pose proof (ct_bound _ _ Hc _ _ Hi Hty) as Hr. pose proof (ct_id _ _ Hc _ _ Hi) as Hid.
      rewrite u32_small, (i32_small limit) by lia. apply (counted_typed S m _ _ (it_limit r)); [exact Hc|lia|cbn; lia|cbn; now rewrite Hid|cbn; lia|cbn; now rewrite Hid, Hi].
    + apply counted_report. rewrite still_growth by exact Hty. cbn [fst]. rewrite Z.add_0_r, u32_small, (i32_small limit) by lia. set (S1 := if _ =? 110 then _ else S).
      assert (Hc1 : counted S1 m) by (subst S1; destruct (_ =? 110); [now apply counted_report|exact Hc]). assert (Hi1 : sp_items S1 !! id = None) by (subst S1; destruct (_ =? 110); exact Hi).
      apply (counted_typed S1 m _ _ 0); [exact Hc1|lia|cbn; lia|exact Hty|cbn; lia|cbn; now rewrite Hi1].
Qed.

Lemma counted_limit S m id limit reason r : counted S m -> sp_items S !! id = Some r -> sp_type sp (i32 id) <> 0 -> 0 <= limit <= m -> m < 2 ^ 31 ->
  counted (spec_changed sp (spec_put S (row_set r 3 limit)) (row_set r 3 limit) (i32 (limit - it_limit r)) reason) m.
Proof.
  intros Hc Hi Hty Hl Hm. apply counted_changed. pose proof (ct_bound _ _ Hc _ _ Hi Hty) as Hr. pose proof (ct_id _ _ Hc _ _ Hi) as Hid. rewrite i32_small by lia.
  apply (counted_typed S m _ _ (it_limit r)); [exact Hc|lia|cbn; lia|cbn; now rewrite Hid|cbn; lia|cbn; now rewrite Hid, Hi].
Qed.

Lemma counted_set S m now id limit reason : counted S m -> 0 <= m -> 0 <= limit -> m + limit < 2 ^ 31 -> counted (spec_set pid create sp S now id limit reason) (m + limit).
Proof.
  intros Hc Hm Hl Hml. assert (Hc' : counted S (m + limit)) by (eapply counted_mono; [exact Hc|lia]). unfold spec_set. destruct (decide (sp_type sp (i32 id) = 0)) as [Hu|Hty].
  - pose proof (counted_get 2 S (m + limit) now id Hc') as Hg. change (spec_get_loop pid create sp 2) with (spec_get pid create sp) in Hg. destruct (sp_items (spec_get pid create sp S now id) !! id) as [r|] eqn:Hi.
    + apply counted_changed, counted_untyped; [exact Hg|]. rewrite (proj1 (row_set_number r 3 limit)), (ct_id _ _ Hg _ _ Hi). exact Hu.
    + destruct (0 <? limit); [|exact Hg]. apply counted_untyped_add; [exact Hu|]. now apply counted_get.
  - unfold spec_get. rewrite get_typed by exact Hty. destruct (sp_items S !! id) as [r|] eqn:Hi; [apply (counted_limit S _ id limit reason r Hc' Hi Hty); lia|].
    destruct (0 <? limit); [now apply counted_add|exact Hc'].
Qed.

Lemma counted_remove S m id limit reason : counted S m -> m < 2 ^ 31 -> 0 <= limit -> counted (fst (spec_remove sp S id limit reason)) m.
Proof.
  intros Hc Hm Hl. unfold spec_remove. destruct (sp_items S !! id) as [r|] eqn:Hi; [|exact Hc]. destruct (limit =? 0); [exact Hc|]. destruct (Z.ltb_spec (it_limit r) limit); [exact Hc|]. cbn [fst].
  destruct (decide (sp_type sp (i32 id) = 0)) as [Hu|Hty]; [now apply counted_untyped_limit|]. unfold spec_set_limit. rewrite Hi. pose proof (ct_bound _ _ Hc _ _ Hi Hty) as Hr. rewrite u32_small by lia.
  destruct (it_limit r =? it_limit r - limit); [exact Hc|]. apply (counted_limit S m id _ reason r Hc Hi Hty); lia.
Qed.

(** What a call may add. *)
Definition call_amount (c : item_call) : Z := match c with CAdd _ _ limit _ | CSet _ _ limit _ => limit | _ => 0 end.
Lemma counted_call S m t c : counted S m -> 0 <= m -> m + call_amount c < 2 ^ 31 -> call_ok t c -> counted (fst (call_spec pid create sp S c)) (m + call_amount c).
Proof.
  intros Hc Hm Hl [_ Hok]. destruct c; cbn [call_spec call_amount fst] in *; rewrite ?Z.add_0_r in *; try (now apply counted_get).
  - apply counted_add; [exact Hc|lia..].
  - apply counted_set; [exact Hc|lia..].
  - apply counted_remove; [now apply counted_get|lia|lia].
  - exact Hc.
  - exact Hc.
  - destruct Hc as [Hid Ht Hb]. now constructor.
Qed.

Lemma counted_run calls : forall S m t rs S', counted S m -> 0 <= m -> calls_ok t calls -> m + sum_of call_amount calls < 2 ^ 31 -> calls_answer pid create sp S calls rs S' ->
  counted S' (m + sum_of call_amount calls).
Proof.
  induction calls as [|c calls IH]; intros S m t rs S' Hc Hm Hok Hl Ha; destruct rs as [|r rs]; cbn [calls_answer] in Ha; try contradiction.
  - subst S'. cbn. now rewrite Z.add_0_r.
  - destruct Hok as [Hco Hok]. cbn [sum_of fold_right] in *. assert (Hca : 0 <= call_amount c) by (destruct Hco as [_ Hco]; destruct c; cbn in *; lia).
    assert (Hsn : forall t l, calls_ok t l -> 0 <= sum_of call_amount l).
    { clear. intros t l. revert t. induction l as [|c l IH]; intros t Hok; [cbn; lia|]. destruct Hok as [[_ Hco] Hok]. specialize (IH _ Hok). cbn. unfold sum_of in IH. destruct c; cbn in *; lia. }
    pose proof (Hsn _ _ Hok) as Hs. change (fold_right (fun a n => call_amount a + n) 0 calls) with (sum_of call_amount calls) in *. rewrite Z.add_assoc. destruct Ha as [[_ Ha]|(_ & _ & _ & ->)].
    + apply (IH (fst (call_spec pid create sp S c)) _ (call_time t c) rs S'); [apply (counted_call S m t); [exact Hc|lia|lia|exact Hco]|lia|exact Hok|lia|exact Ha].
    + eapply counted_mono; [exact Hc|lia].
Qed.
End Totals.

(** A new player with nothing. *)
Definition no_items : item_spec := mk_sp ∅ (fun _ => 0) [] [].

Section Start.
Context {W M G C N : Type} `{Database Item W} `{!DatabaseLaws Item (Z * Z) W player_item_key fst} `{PtrMapLaws M} `{GL : GrowthLaws G} `{CM : !Compensator C G} `{CL : !CompensatorLaws C G} `{NotifierLaws N}.

Lemma start_rep (map_new : M) (void : Z) (w : W) (g : G) (c : C) (n : N) pid sp t :
  pm_ok map_new -> pm_abs map_new = ∅ -> void <> 0 -> (forall i, db_rows (key := player_item_key) (owner := fst) w !! (pid, i) = None) ->
  gr_rep g t (2 ^ 30) sp -> cp_rep c 0 sp -> nf_rep n 0 [] ->
  is_rep void pid sp (mk_is (empty_store void w) (fst (item_new map_new)) (snd (item_new map_new)) g c n []) no_items t (Z.of_nat (size (db_rows (key := player_item_key) (owner := fst) w))).
Proof.
  intros Hm Hm0 Hv Hw Hg Hc Hn. exists [], []. constructor; cbn [is_store is_set is_m3 is_growth is_comp is_notify is_events sp_items sp_totals sp_posts sp_events no_items fst snd item_new].
  - constructor.
    + exact (empty_ok player_item_key fst void w Hv).
    + apply player_set_new; [exact Hm|exact Hm0|reflexivity|]. intros [p i] Ep. cbn in Ep. subst p. apply Hw.
    + intros k. unfold row_of. cbn [ds_m]. change (pt_abs map_new) with (pm_abs map_new). now rewrite Hm0, !lookup_empty.
    + intros k r Hk. now rewrite lookup_empty in Hk.
    + unfold zlen. cbn. lia.
  - eapply gr_later; [exact Hg|lia|lia].
  - eapply cp_later; [exact Hc|lia].
  - eapply nf_more; [exact Hn|lia].
  - constructor; [exact Hm|rewrite Hm0, map_size_empty; lia|]. intros k. rewrite Hm0, lookup_empty. split; [reflexivity|lia].
  - reflexivity.
Qed.
End Start.

(** C13: A player's items are a map.  For a player without rows, whatever sequence of asking, adding, setting,
    removing, counting by type, flushing, and leaving and coming back follows, every call returns, and its
    answer is the specification's: items grow when they are asked for, as the configuration says, an amount is
    removed only when it is there, every change is posted and reported in order, and each growth of another item
    is counted.  (Statements that insert and update items succeed; no item has a favor, whose reading is out of bounds;
    a player whose rows cannot be read makes no more calls.) *)
Theorem player_items_are_a_map {W M G C N : Type} `{Database Item W} `{!DatabaseLaws Item (Z * Z) W player_item_key fst} `{PtrMapLaws M} `{GL : GrowthLaws G} `{CM : !Compensator C G} `{CL : !CompensatorLaws C G} `{NotifierLaws N}
    (map_new : M) (void : Z) (malloc : gmap Z (datum Item) -> Z) (w : W) (g : G) (c : C) (n : N) (favor : Z -> option (Z * list Z)) pid create sp t calls :
  pm_ok map_new -> pm_abs map_new = ∅ -> (forall h, h !! malloc h = None /\ malloc h <> 0 /\ malloc h <> void) -> void <> 0 ->
  (forall i, db_rows (key := player_item_key) (owner := fst) w !! (pid, i) = None) -> inserts_ok player_item_key fst (W := W) -> saves_ok (V := Item) (W := W) ->
  gr_rep g t (2 ^ 30) sp -> (forall id, 0 <= sp_type sp id < 2 ^ 31) -> cp_rep c 0 sp -> nf_rep n 0 [] -> (forall id, favor id = None) ->
  0 <= t -> calls_ok t calls -> Z.of_nat (size (db_rows (key := player_item_key) (owner := fst) w)) + 64 * zlen calls < 2 ^ 30 ->
  exists rs s' S' b, call_run map_new void malloc pid create favor (mk_is (empty_store void w) (fst (item_new map_new)) (snd (item_new map_new)) g c n []) calls = Ret (rs, s') /\
    calls_answer pid create sp no_items calls rs S' /\ is_events s' = sp_events S' /\ nf_rep (is_notify s') b (sp_posts S').
Proof.
  intros Hm Hm0 Hmal Hv Hw Hins Hsv Hg Hty Hc Hn Hfav Ht Hok Hlen.
  destruct (call_run_spec map_new Hm Hm0 void malloc Hmal pid create sp Hty Hins favor Hfav calls _ no_items t _ (start_rep map_new void w g c n pid sp t Hm Hm0 Hv Hw Hg Hc Hn) Ht ltac:(lia) Hlen Hok Hsv)
    as (rs & s' & S' & t' & He & Ha & l & ul & Hr). exists rs, s', S', (Z.of_nat (size (db_rows w)) + 64 * zlen calls). split; [exact He|]. split; [exact Ha|]. split; [exact (rp_events _ _ _ _ _ _ _ _ _ Hr)|exact (rp_notes _ _ _ _ _ _ _ _ _ Hr)].
Qed.

(** C14: The counts of the types are sums.  After any such calls, as long as items with a type do not grow by
    themselves and less than 2^31 is added in all, [get_item_count_by_sub_type] answers how much the player has of
    all the items of the type, also after leaving and coming back. *)
Theorem type_counts_are_sums {W M G C N : Type} `{Database Item W} `{!DatabaseLaws Item (Z * Z) W player_item_key fst} `{PtrMapLaws M} `{GL : GrowthLaws G} `{CM : !Compensator C G} `{CL : !CompensatorLaws C G} `{NotifierLaws N}
    (map_new : M) (void : Z) (malloc : gmap Z (datum Item) -> Z) (w : W) (g : G) (c : C) (n : N) (favor : Z -> option (Z * list Z)) pid create sp t calls :
  pm_ok map_new -> pm_abs map_new = ∅ -> (forall h, h !! malloc h = None /\ malloc h <> 0 /\ malloc h <> void) -> void <> 0 ->
  (forall i, db_rows (key := player_item_key) (owner := fst) w !! (pid, i) = None) -> inserts_ok player_item_key fst (W := W) -> saves_ok (V := Item) (W := W) ->
  gr_rep g t (2 ^ 30) sp -> (forall id, 0 <= sp_type sp id < 2 ^ 31) -> cp_rep c 0 sp -> nf_rep n 0 [] -> (forall id, favor id = None) ->
  0 <= t -> calls_ok t calls -> Z.of_nat (size (db_rows (key := player_item_key) (owner := fst) w)) + 64 * zlen calls < 2 ^ 30 ->
  (forall now id, sp_type sp (i32 id) <> 0 -> sp_active sp now (i32 id) = None) -> sp_type sp (i32 GROW_ITEM) = 0 -> sum_of call_amount calls < 2 ^ 31 ->
  exists rs s' S', call_run map_new void malloc pid create favor (mk_is (empty_store void w) (fst (item_new map_new)) (snd (item_new map_new)) g c n []) calls = Ret (rs, s') /\
    calls_answer pid create sp no_items calls rs S' /\ forall type, 0 <= type < 2 ^ 32 -> get_item_count_by_sub_type s' type = Ret (i32 (item_total sp (sp_items S') type)).
Proof.
  intros Hm Hm0 Hmal Hv Hw Hins Hsv Hg Hty Hc Hn Hfav Ht Hok Hlen Hst Hgi Hsum.
  destruct (call_run_spec map_new Hm Hm0 void malloc Hmal pid create sp Hty Hins favor Hfav calls _ no_items t _ (start_rep map_new void w g c n pid sp t Hm Hm0 Hv Hw Hg Hc Hn) Ht ltac:(lia) Hlen Hok Hsv)
    as (rs & s' & S' & t' & He & Ha & Hr). exists rs, s', S'. split; [exact He|]. split; [exact Ha|]. intros type Htype. rewrite (sub_type_spec void pid sp s' S' t' _ type Hr ltac:(pose proof (zlen_nonneg calls); lia) Htype).
  assert (Hc0 : counted sp no_items 0) by (constructor; cbn [no_items sp_items sp_totals]; [intros k r Hk; now rewrite lookup_empty in Hk|intros k; unfold item_total; rewrite map_to_list_empty; destruct (k =? 0); reflexivity|intros k r Hk; now rewrite lookup_empty in Hk]).
  now rewrite (ct_total _ _ _ (counted_run pid create sp Hst Hgi calls no_items 0 t rs S' Hc0 ltac:(lia) Hok ltac:(lia) Ha) type).
Qed.

(** ** A run with the structures of the program and the tables in memory *)

(** Two items of type 5, and two that grow; what grows above the limit of the first is compensated. *)
Definition sample_pid : Z := 100007.
Definition sample_configs : item_configs (agmap Z) :=
  match reload_items _agMap_new next_address 500 (mk_items _agMap_new ∅ []) [mk_item_row 70001 5 0; mk_item_row 70002 5 0] sample_rows with Ret (s, _) => s | _ => mk_items _agMap_new ∅ [] end.
Definition sample_delays : list config_delay_exp := [mk_delay 90010 2 1 99 500 0 0].
Definition sample_delay_configs : compen_configs (agmap Z) :=
  match reload_compensate _agMap_new next_address next_address (mk_cc _agMap_new ∅ ∅ 0) sample_delays with Ret (s, _) => s | _ => mk_cc _agMap_new ∅ ∅ 0 end.

Lemma next_address_nonzero {A} (h : gmap Z A) : h !! next_address h = None /\ next_address h <> 0.
Proof. destruct (next_address_spec h). split; [assumption|lia]. Qed.
Lemma agMap_empty : pm_ok (_agMap_new : agmap Z) /\ pm_abs (_agMap_new : agmap Z) = ∅.
Proof. split; [split; apply agMap_new_ok|apply agMap_new_ok]. Qed.

#[local] Instance sample_growth : Growth (item_configs (agmap Z)) := config_growth next_address.
#[local] Instance sample_growth_laws : GrowthLaws (item_configs (agmap Z)) := config_growth_laws next_address next_address_nonzero.

(** All configurations in memory. *)
Definition sample_config_fine (c : ItemConfig) : bool :=
  (0 <=? ic_type c) && (ic_type c <? 2 ^ 31) && ((ic_type c =? 0) || bool_decide (ic_grow c = [])) &&
  forallb (fun g => (0 <=? begin_time g) && (0 <? period g) && (period g <? 2 ^ 31) && (0 <? amount g) && (amount g <? 2 ^ 31)) (ic_grow c).
Lemma sample_configs_fine a c : im_heap sample_configs !! a = Some c -> sample_config_fine c = true.
Proof.
  assert (Hall : forallb (fun kc => sample_config_fine (snd kc)) (map_to_list (im_heap sample_configs)) = true) by (vm_compute; reflexivity).
  intros Ha. rewrite forallb_forall in Hall. apply (Hall (a, c)). apply list_elem_of_In. now apply elem_of_map_to_list.
Qed.
Definition sample_spec : growth_spec := config_spec sample_configs.

Lemma sample_type id : 0 <= sp_type sample_spec id < 2 ^ 31.
Proof.
  cbn. unfold type_of. destruct (pm_abs (im_map sample_configs) !! u64 id) as [a|]; [|lia]. destruct (im_heap sample_configs !! a) as [c|] eqn:Hc; [|lia].
  pose proof (sample_configs_fine a c Hc) as Hf. unfold sample_config_fine in Hf. zbool. lia.
Qed.
Lemma sample_growing now id g : sp_active sample_spec now id = Some g -> grow_fine now g /\ sp_type sample_spec id = 0.
Proof.
  cbn. intros Hf. apply find_some in Hf as [Hg Ha]. apply is_active_spec in Ha. unfold grows_of, type_of in *. destruct (pm_abs (im_map sample_configs) !! u64 id) as [a|]; [|destruct Hg].
  destruct (im_heap sample_configs !! a) as [c|] eqn:Hc; [|destruct Hg]. pose proof (sample_configs_fine a c Hc) as Hfine. unfold sample_config_fine in Hfine. repeat (apply andb_true_iff in Hfine as [Hfine ?]).
  assert (Hall : forallb (fun g => (0 <=? begin_time g) && (0 <? period g) && (period g <? 2 ^ 31) && (0 <? amount g) && (amount g <? 2 ^ 31)) (ic_grow c) = true) by assumption.
  rewrite forallb_forall in Hall. pose proof (Hall g Hg) as Hgf. unfold active in Ha. zbool. split; [constructor; lia|]. assert (Hz : (ic_type c =? 0) || bool_decide (ic_grow c = []) = true) by assumption.
  apply orb_true_iff in Hz as [Hz|Hz]; [now apply Z.eqb_eq|]. apply bool_decide_eq_true in Hz. rewrite Hz in Hg. destruct Hg.
Qed.
Lemma sample_rep : gr_rep sample_configs 500 (2 ^ 30) sample_spec.
Proof.
  apply config_spec_rep.
  - destruct (reload_spec _agMap_new (proj1 agMap_empty) (proj2 agMap_empty) next_address next_address_nonzero (mk_items _agMap_new ∅ []) 500 [mk_item_row 70001 5 0; mk_item_row 70002 5 0] sample_rows eq_refl) as (s' & r & He & Hok & _).
    unfold sample_configs. rewrite He. destruct Hok as [Hm Hc Hs]. constructor; [exact Hm|exact Hc|]. change (zlen [mk_item_row 70001 5 0; mk_item_row 70002 5 0] + zlen sample_rows) with 5 in Hs. lia.
  - intros id g Hg. unfold grows_of in Hg. destruct (pm_abs (im_map sample_configs) !! u64 id) as [a|]; [|inversion Hg]. destruct (im_heap sample_configs !! a) as [c|] eqn:Hc; [|inversion Hg].
    pose proof (sample_configs_fine a c Hc) as Hfine. unfold sample_config_fine in Hfine. apply andb_true_iff in Hfine as [_ Hfine]. rewrite forallb_forall in Hfine. apply list_elem_of_In in Hg. specialize (Hfine g Hg). zbool. lia.
Qed.

#[local] Instance sample_item_table : Database Item (gmap (Z * Z) Item) := memory_database player_item_key fst.
#[local] Instance sample_item_table_laws : DatabaseLaws Item (Z * Z) (gmap (Z * Z) Item) player_item_key fst := memory_laws player_item_key fst.
#[local] Instance sample_compensate_table : Database Compensate (gmap (Z * Z) Compensate) := memory_database compensate_key fst.
#[local] Instance sample_compensate_table_laws : DatabaseLaws Compensate (Z * Z) (gmap (Z * Z) Compensate) compensate_key fst := memory_laws compensate_key fst.
#[local] Instance sample_notifier : Notifier (notify_state (agmap Z)) := notify_notifier _agMap_new fresh_address fresh_address.
#[local] Instance sample_notifier_laws : NotifierLaws (notify_state (agmap Z)).
Proof. apply notify_laws; [exact (proj1 agMap_empty)|exact (proj2 agMap_empty)|apply fresh_address_spec|apply fresh_address_spec]. Defined.
#[local] Instance sample_compensator : Compensator (comp_state (gmap (Z * Z) Compensate) (agmap Z)) (item_configs (agmap Z)) :=
  item_compensator _agMap_new fresh_address VOID next_address sample_pid 30.
#[local] Instance sample_compensator_laws : CompensatorLaws (comp_state (gmap (Z * Z) Compensate) (agmap Z)) (item_configs (agmap Z)).
Proof.
  apply (compensator_laws _agMap_new (proj1 agMap_empty) (proj2 agMap_empty) fresh_address fresh_address_spec VOID next_address next_address_ok sample_pid 30 sample_delays);
    [repeat constructor; discriminate|apply memory_inserts_ok|apply memory_saves_ok|intros w pid; discriminate].
Defined.
Definition sample_compensation : comp_state (gmap (Z * Z) Compensate) (agmap Z) := mk_cs (empty_store VOID ∅) (mk_set (maps_new _agMap_new) 0) sample_delay_configs.
Lemma sample_comp_rep : cp_rep sample_compensation 0 sample_spec.
Proof.
  split; [exists ∅, [], []; constructor; cbn [cs_store cs_set sample_compensation]|split].
  - exact (empty_ok compensate_key fst VOID ∅ ltac:(discriminate)).
  - destruct (maps_new_ok _agMap_new (proj1 agMap_empty) (proj2 agMap_empty)) as [Hm Hm0]. apply player_set_new; [exact Hm|exact Hm0|reflexivity|]. reflexivity.
  - intros k. destruct (maps_new_ok _agMap_new (proj1 agMap_empty) (proj2 agMap_empty)) as [_ Hm0]. unfold row_of. cbn [ds_m]. change (pt_abs (maps_new _agMap_new)) with (maps_abs (maps_new _agMap_new)). now rewrite Hm0.
  - split; vm_compute; discriminate.
  - exists 1. destruct (reload_delays _agMap_new (proj1 agMap_empty) (proj2 agMap_empty) next_address next_address_nonzero next_address next_address_nonzero (mk_cc _agMap_new ∅ ∅ 0) sample_delays eq_refl) as (s' & He & Hd).
    cbn [cs_configs sample_compensation]. unfold sample_delay_configs. rewrite He. exact Hd.
  - intros now id g Hg. exact (proj1 (sample_growing now id g Hg)).
Qed.

(** The player is created at 1100.  The first growing item has reached its limit at 3000, and again after some of it is spent. *)
Definition sample_items : list item_call :=
  [CAdd 1100 70001 3 0; CAdd 1150 70002 4 0; CCount 5; CGet 1200 90010; CGet 3000 90010; CRemove 3010 90010 60 0; CGet 4000 90010; CGet 4010 90011;
   CRemove 4010 70002 5 0; CSet 4020 70002 9 0; CFlush 4030; CGet 4040 100000; CRelogin 5000; CCount 5; CGet 5010 70001].
Definition sample_state : item_state (gmap (Z * Z) Item) (agmap Z) (item_configs (agmap Z)) (comp_state (gmap (Z * Z) Compensate) (agmap Z)) (notify_state (agmap Z)) :=
  mk_is (empty_store VOID ∅) (fst (item_new _agMap_new)) (snd (item_new _agMap_new)) sample_configs sample_compensation sample_idle [].
Definition sample_run : outcome (list Z * item_state (gmap (Z * Z) Item) (agmap Z) (item_configs (agmap Z)) (comp_state (gmap (Z * Z) Compensate) (agmap Z)) (notify_state (agmap Z))) :=
  call_run _agMap_new VOID next_address sample_pid 1100 (fun _ => None) sample_state sample_items.

Lemma player_items_are_a_map_witness :
  ('(rs, s) ← sample_run; Ret (rs, is_events s)) = Ret ([0; 0; 7; 15; 100; 0; 100; 0; -1; 0; 0; 2; 0; 12; 3], [quest_event QuestEventType_ITEM_CONSUME 90010 60]) /\
  exists rs s' S' b, sample_run = Ret (rs, s') /\ calls_answer sample_pid 1100 sample_spec no_items sample_items rs S' /\ is_events s' = sp_events S' /\ nf_rep (is_notify s') b (sp_posts S').
Proof.
  split; [vm_compute; reflexivity|].
  apply (player_items_are_a_map _agMap_new VOID next_address ∅ sample_configs sample_compensation sample_idle (fun _ => None) sample_pid 1100 sample_spec 500 sample_items).
  - apply agMap_empty.
  - apply agMap_empty.
  - apply next_address_ok.
  - discriminate.
  - intros i. reflexivity.
  - apply memory_inserts_ok.
  - apply memory_saves_ok.
  - exact sample_rep.
  - exact sample_type.
  - exact sample_comp_rep.
  - apply notify_start. constructor; try reflexivity. exact (proj1 agMap_empty).
  - reflexivity.
  - discriminate.
  - cbv beta iota delta [calls_ok sample_items call_ok call_time]. repeat split; try lia; exact I.
  - vm_compute. reflexivity.
Defined.

Lemma type_counts_are_sums_witness :
  (exists s, ('(_, s) ← sample_run; Ret s) = Ret s /\ get_item_count_by_sub_type s 5 = Ret 12) /\
  exists rs s' S', sample_run = Ret (rs, s') /\ calls_answer sample_pid 1100 sample_spec no_items sample_items rs S' /\
    forall type, 0 <= type < 2 ^ 32 -> get_item_count_by_sub_type s' type = Ret (i32 (item_total sample_spec (sp_items S') type)).
Proof.
  split; [eexists; split; [vm_compute; reflexivity|vm_compute; reflexivity]|].
  apply (type_counts_are_sums _agMap_new VOID next_address ∅ sample_configs sample_compensation sample_idle (fun _ => None) sample_pid 1100 sample_spec 500 sample_items).
  - apply agMap_empty.
  - apply agMap_empty.
  - apply next_address_ok.
  - discriminate.
  - intros i. reflexivity.
  - apply memory_inserts_ok.
  - apply memory_saves_ok.
  - exact sample_rep.
  - exact sample_type.
  - exact sample_comp_rep.
  - apply notify_start. constructor; try reflexivity. exact (proj1 agMap_empty).
  - reflexivity.
  - discriminate.
  - cbv beta iota delta [calls_ok sample_items call_ok call_time]. repeat split; try lia; exact I.
  - vm_compute. reflexivity.
  - intros now id Hty. destruct (sp_active sample_spec now (i32 id)) as [g|] eqn:Hg; [|reflexivity]. destruct (Hty (proj2 (sample_growing now (i32 id) g Hg))).
  - vm_compute. reflexivity.
  - vm_compute. reflexivity.
Defined.

(** ** Where the code does not do what it means to *)

(** The configuration of an item's favor has six degrees, and the announcement reads a seventh. *)
Lemma favor_beyond {W M G C N} (favor : Z -> option (Z * list Z)) (s : item_state W M G C N) id npc degree limit :
  favor (i32 id) = Some (npc, degree) -> length degree = 6%nat -> favor_notice favor s id limit = Undef.
Proof. intros Hf Hl. unfold favor_notice. rewrite Hf, lookup_ge_None_2 by lia. reflexivity. Qed.

(** An item that comes to be by growing is not counted for its type. *)
Definition grown_configs : item_configs (agmap Z) :=
  match reload_items _agMap_new next_address 500 (mk_items _agMap_new ∅ []) [mk_item_row 90010 5 0] sample_rows with Ret (s, _) => s | _ => mk_items _agMap_new ∅ [] end.
Lemma grown_not_counted :
  ('(rs, _) ← call_run _agMap_new VOID next_address sample_pid 1100 (fun _ => None)
     (mk_is (empty_store VOID ∅) (fst (item_new _agMap_new)) (snd (item_new _agMap_new)) grown_configs sample_compensation sample_idle []) [CGet 1200 90010; CCount 5; CRelogin 1210; CCount 5];
   Ret rs) = Ret [15; 0; 0; 15].
Proof. vm_compute. reflexivity. Qed.
