(* ===== verification/ItemPackage.v ===== *)
(** * Packages to pay with: [config/item_package.c]

    The part of the file that loads the table [consume_package]: a package is a list of items in the order of their
    priorities, and paying with it ([Consume]) takes the first of which there is enough.  The packages that are
    given as rewards are not modelled. *)
From Stdlib Require Import Sorted.
From S2P Require Import Prelude AgMap ItemGrow.

(** [struct tagCITEM]; a package is the list of its items. *)
Record CITEM := mk_citem { ci_type : Z; ci_id : Z; ci_value : Z; ci_priority : Z }.
(** The rows of the table [consume_package]. *)
Record consume_package := mk_package_row { cp_package_id : Z; cp_item : CITEM }.
(** [consume_item_package_map] and the packages it leads to. *)
Record packages (M : Type) := mk_packages { pk_map : M; pk_heap : gmap Z (list CITEM) }.
Arguments mk_packages {M} _ _.
Arguments pk_map {M} _.
Arguments pk_heap {M} _.

(** The place of an item after the head of the list. *)
Fixpoint package_link (item : CITEM) (l : list CITEM) : list CITEM :=
  match l with
  | [] => [item]
  | next :: l' => if ci_priority next <=? ci_priority item then next :: package_link item l' else item :: l
  end.
Definition package_insert (item : CITEM) (l : list CITEM) : list CITEM :=
  match l with
  | [] => [item]
  | head :: l' => if ci_priority item <=? ci_priority head then item :: l else head :: package_link item l'
  end.

Section Packages.
Context {M : Type} `{PtrMap M} (map_new : M) (malloc : gmap Z (list CITEM) -> Z).

Definition _add_item_to_consume_package (p : packages M) (package_id : Z) (item : CITEM) : outcome (packages M * Z) :=
  cfg ← pm_get (pk_map p) (u64 package_id);
  '(p, cfg) ← (if cfg =? 0 then
      let a := malloc (pk_heap p) in
      if a =? 0 then Undef else '(m, _) ← pm_set (pk_map p) (u64 package_id) a; Ret (mk_packages m (<[a := []]> (pk_heap p)), a)
    else Ret (p, cfg));
  l ← deref (pk_heap p !! cfg);
  Ret (mk_packages (pk_map p) (<[cfg := package_insert item l]> (pk_heap p)), 0).
Definition _parse_consume_item_package (p : packages M) (row : consume_package) : outcome (packages M * Z) :=
  _add_item_to_consume_package p (cp_package_id row) (cp_item row).
Definition load_consume_item_package_config (p : packages M) (rows : list consume_package) : outcome (packages M * Z) :=
  foreach_row _parse_consume_item_package (mk_packages map_new (pk_heap p)) rows.

(** The items of a package, after the loading. *)
Definition get_consume_item_package_config (p : packages M) (package_id : Z) : outcome (option (list CITEM)) :=
  if package_id =? 0 then Ret None
  else cfg ← pm_get (pk_map p) (u64 package_id); if cfg =? 0 then Ret None else l ← deref (pk_heap p !! cfg); Ret (Some l).
End Packages.

(** ** The order in packages *)

Definition priority_le (a b : CITEM) : Prop := ci_priority a <= ci_priority b.
#[export] Instance priority_le_trans : Transitive priority_le.
Proof. intros a b c. unfold priority_le. lia. Qed.

Lemma package_link_perm item l : package_link item l ≡ₚ item :: l.
Proof. induction l as [|next l IH]; cbn; [reflexivity|]. destruct (_ <=? _); [rewrite IH; apply Permutation_swap|reflexivity]. Qed.
Lemma package_insert_perm item l : package_insert item l ≡ₚ item :: l.
Proof. destruct l as [|head l]; [reflexivity|]. cbn. destruct (_ <=? _); [reflexivity|]. rewrite package_link_perm. apply Permutation_swap. Qed.

Lemma package_link_sorted item l : StronglySorted priority_le l -> StronglySorted priority_le (package_link item l).
Proof.
  induction 1 as [|next l Hl IH Hn]; cbn; [repeat constructor|]. destruct (Z.leb_spec (ci_priority next) (ci_priority item)) as [Hle|Hgt].
  - constructor; [exact IH|]. rewrite package_link_perm. now constructor.
  - assert (Hb : priority_le item next) by (unfold priority_le; lia). constructor; [now constructor|]. constructor; [exact Hb|]. eapply list.Forall_impl; [exact Hn|]. intros x Hx. now transitivity next.
Qed.
Lemma package_insert_sorted item l : StronglySorted priority_le l -> StronglySorted priority_le (package_insert item l).
Proof.
  intros Hs. destruct Hs as [|head l Hl Hh]; cbn; [repeat constructor|]. destruct (Z.leb_spec (ci_priority item) (ci_priority head)) as [Hle|Hgt].
  - constructor; [now constructor|]. constructor; [exact Hle|]. eapply list.Forall_impl; [exact Hh|]. intros x Hx. now transitivity head.
  - constructor; [now apply package_link_sorted|]. rewrite package_link_perm. constructor; [unfold priority_le; lia|exact Hh].
Qed.

(** The rows of a package. *)
Definition package_add (k : Z) (l : list CITEM) (row : consume_package) : list CITEM := if u64 (cp_package_id row) =? k then package_insert (cp_item row) l else l.
Definition package_of (rows : list consume_package) (k : Z) : list CITEM := fold_left (package_add k) rows [].
Definition has_package (rows : list consume_package) (k : Z) : bool := existsb (fun row => u64 (cp_package_id row) =? k) rows.

Lemma package_of_app rows row k : package_of (rows ++ [row]) k = package_add k (package_of rows k) row.
Proof. unfold package_of. now rewrite fold_left_app. Qed.
Lemma has_package_app rows row k : has_package (rows ++ [row]) k = has_package rows k || (u64 (cp_package_id row) =? k).
Proof. unfold has_package. rewrite existsb_app. cbn. now rewrite orb_false_r. Qed.
Lemma package_of_none rows k : has_package rows k = false -> package_of rows k = [].
Proof.
  induction rows as [|row rows IH] using rev_ind; [reflexivity|]. rewrite has_package_app, package_of_app. intros E. apply orb_false_iff in E as [E1 E2]. unfold package_add. rewrite E2. auto.
Qed.
(** A package is in the order of the priorities, and has the items of its rows. *)
Lemma package_of_sorted rows k : StronglySorted priority_le (package_of rows k).
Proof. induction rows as [|row rows IH] using rev_ind; [constructor|]. rewrite package_of_app. unfold package_add. destruct (_ =? k); [now apply package_insert_sorted|exact IH]. Qed.
Lemma package_of_perm rows k : package_of rows k ≡ₚ map cp_item (List.filter (fun row => u64 (cp_package_id row) =? k) rows).
Proof.
  induction rows as [|row rows IH] using rev_ind; [reflexivity|]. rewrite package_of_app, filter_app, map_app. unfold package_add. cbn [List.filter]. destruct (_ =? k); cbn [map]; [|now rewrite app_nil_r].
  rewrite package_insert_perm, IH. apply Permutation_cons_append.
Qed.

Section Packages.
Context {M : Type} `{PtrMapLaws M} (map_new : M) (map_new_ok : pm_ok map_new) (map_new_empty : pm_abs map_new = ∅).
Context (malloc : gmap Z (list CITEM) -> Z) (malloc_ok : forall h, h !! malloc h = None /\ malloc h <> 0).

Record packages_rep (p : packages M) (rows : list consume_package) (b : Z) : Prop := {
  pr_map : pm_ok (pk_map p);
  pr_size : Z.of_nat (size (pm_abs (pk_map p))) <= b;
  pr_entry : forall k a, pm_abs (pk_map p) !! k = Some a -> a <> 0 /\ pk_heap p !! a = Some (package_of rows k);
  pr_inj : forall k k' a, pm_abs (pk_map p) !! k = Some a -> pm_abs (pk_map p) !! k' = Some a -> k = k';
  pr_has : forall k, is_Some (pm_abs (pk_map p) !! k) <-> has_package rows k = true }.

(** A package that is there gets another item. *)
Lemma package_extended p rows b row a : packages_rep p rows b -> pm_abs (pk_map p) !! u64 (cp_package_id row) = Some a ->
  packages_rep (mk_packages (pk_map p) (<[a := package_insert (cp_item row) (package_of rows (u64 (cp_package_id row)))]> (pk_heap p))) (rows ++ [row]) b.
Proof.
  intros [Hm Hs He Hi Hh] Ha. constructor; cbn [pk_map pk_heap]; [exact Hm|exact Hs| |exact Hi|].
  - intros k a' Hk. destruct (He k a' Hk) as [Hz Hl]. split; [exact Hz|]. rewrite package_of_app. unfold package_add. destruct (Z.eqb_spec (u64 (cp_package_id row)) k) as [<-|Hne].
    + assert (a' = a) as -> by congruence. apply lookup_insert_eq.
    + rewrite lookup_insert_ne; [exact Hl|]. intros ->. exact (Hne (Hi _ _ _ Ha Hk)).
  - intros k. rewrite has_package_app, orb_true_iff, <- Hh, Z.eqb_eq. split; [auto|]. intros [Hk|<-]; [exact Hk|eauto].
Qed.

Lemma row_spec p rows b row : packages_rep p rows b -> 0 <= b < 2 ^ 61 -> exists p', _parse_consume_item_package malloc p row = Ret (p', 0) /\ packages_rep p' (rows ++ [row]) (b + 1).
Proof.
  intros Hp Hb. pose proof Hp as [Hm Hs He Hi Hh]. unfold _parse_consume_item_package, _add_item_to_consume_package. set (k := u64 (cp_package_id row)). rewrite (pm_get_spec _ _ Hm). cbn [mbind outcome_bind].
  destruct (pm_abs (pk_map p) !! k) as [a|] eqn:Ek; cbn [from_option].
  - destruct (He k a Ek) as [Hz Hl]. unfold Datatypes.id. apply Z.eqb_neq in Hz as ->. cbn [mbind outcome_bind]. rewrite Hl. cbn [deref mbind outcome_bind]. eexists. split; [reflexivity|].
    destruct (package_extended p rows b row a Hp Ek) as [Hm' Hs' He' Hi' Hh']. constructor; [exact Hm'|eapply Z.le_trans; [exact Hs'|lia]|exact He'|exact Hi'|exact Hh'].
  - cbn [Z.eqb]. destruct (malloc_ok (pk_heap p)) as [Hf Hz]. set (a := malloc (pk_heap p)) in *. apply Z.eqb_neq in Hz as Hz'. rewrite Hz'.
    destruct (pm_set_spec (pk_map p) k a Hm ltac:(lia)) as (m & -> & Hm' & Habs). rewrite Hz' in Habs. cbn [mbind outcome_bind pk_heap pk_map]. rewrite lookup_insert_eq. cbn [deref mbind outcome_bind]. eexists. split; [reflexivity|].
    assert (Hnone : has_package rows k = false) by (destruct (has_package rows k) eqn:E; [|reflexivity]; apply Hh in E as [x Hx]; congruence). pose proof (package_of_none rows k Hnone) as Hno.
    assert (Hne : forall j a', pm_abs (pk_map p) !! j = Some a' -> a' <> a) by (intros j a' Hj ->; destruct (He _ _ Hj) as [_ Hx]; congruence). constructor; cbn [pk_map pk_heap]; rewrite ?Habs.
    + exact Hm'.
    + rewrite map_size_insert, Ek. lia.
    + intros j a' Hj. rewrite package_of_app. unfold package_add. fold k. rewrite insert_insert_eq. apply lookup_insert_Some in Hj as [[<- <-]|[Hjk Hj]].
      * rewrite Z.eqb_refl, Hno, lookup_insert_eq. auto.
      * destruct (Z.eqb_spec k j); [congruence|]. rewrite lookup_insert_ne by (intros E; exact (Hne _ _ Hj (eq_sym E))). exact (He _ _ Hj).
    + intros j j' a' Hj Hj'. apply lookup_insert_Some in Hj as [[<- <-]|[_ Hj]], Hj' as [[<- E]|[_ Hj']]; [reflexivity|destruct (Hne _ _ Hj' eq_refl)|subst a'; destruct (Hne _ _ Hj eq_refl)|eauto].
    + intros j. rewrite has_package_app, orb_true_iff, <- Hh, lookup_insert_is_Some, Z.eqb_eq. fold k. destruct (decide (k = j)); tauto.
Qed.

Lemma rows_spec rows : forall p before b, packages_rep p before b -> 0 <= b -> b + zlen rows < 2 ^ 61 ->
  exists p', foreach_row (_parse_consume_item_package malloc) p rows = Ret (p', 0) /\ packages_rep p' (before ++ rows) (b + zlen rows).
Proof.
  induction rows as [|row rows IH]; intros p before b Hp Hb HbK; cbn [foreach_row].
  - exists p. rewrite app_nil_r. unfold zlen. cbn. rewrite Z.add_0_r. auto.
  - rewrite zlen_cons in *. pose proof (zlen_nonneg rows). destruct (row_spec p before b row Hp ltac:(lia)) as (p1 & -> & Hp1). cbn [mbind outcome_bind Z.eqb negb].
    destruct (IH p1 (before ++ [row]) (b + 1) Hp1 ltac:(lia) ltac:(lia)) as (p2 & -> & Hp2). exists p2. split; [reflexivity|]. rewrite <- (assoc_L (++)) in Hp2. replace (b + (1 + zlen rows)) with (b + 1 + zlen rows) by lia. exact Hp2.
Qed.

(** Loading finds every package, with the items of its rows in the order of the priorities. *)
Lemma packages_loaded p rows : zlen rows < 2 ^ 61 ->
  exists p', load_consume_item_package_config map_new malloc p rows = Ret (p', 0) /\
    forall id, id <> 0 -> get_consume_item_package_config p' id = Ret (if has_package rows (u64 id) then Some (package_of rows (u64 id)) else None).
Proof.
  intros Hl. destruct (rows_spec rows (mk_packages map_new (pk_heap p)) [] 0) as (p' & He & Hp').
  - constructor; cbn [pk_map pk_heap]; rewrite ?map_new_empty; [exact map_new_ok|reflexivity|intros k a Hk; now rewrite lookup_empty in Hk|intros k k' a Hk; now rewrite lookup_empty in Hk|].
    intros k. rewrite lookup_empty. cbn. split; [intros [? ?]; discriminate|discriminate].
  - lia.
  - lia.
  - exists p'. split; [exact He|]. intros id Hid. unfold get_consume_item_package_config. apply Z.eqb_neq in Hid as ->. destruct Hp' as [Hm _ Hent _ Hh]. rewrite (pm_get_spec _ _ Hm). cbn [mbind outcome_bind]. cbn [app] in *.
    specialize (Hh (u64 id)). destruct (pm_abs (pk_map p') !! u64 id) as [a|] eqn:Ea; cbn [from_option].
    + destruct (Hent _ _ Ea) as [Hz Hlk]. unfold Datatypes.id. apply Z.eqb_neq in Hz as ->. rewrite Hlk. cbn [deref mbind outcome_bind]. rewrite (proj1 Hh) by eauto. reflexivity.
    + cbn [Z.eqb]. destruct (has_package rows (u64 id)); [|reflexivity]. destruct (proj2 Hh eq_refl) as [? ?]. discriminate.
Qed.
End Packages.
