(* ===== verification/Consume.v ===== *)
(** * Paying: the consumption of [logic/aL.c]

    What a player does costs items, or items of a hero, or one of the items of a package.  [CheckForConsume] looks
    whether there is enough, [CheckAndConsume] takes it; the functions that have several costs look first whether
    all can be paid.  Both go to the items of the player ([Item]) and of the heroes ([HeroItem]), which share the
    notifications. *)
From S2P Require Import Prelude AgMap Dlist Data DataSet PlayerNotify HeroMaps HeroItem ItemGrow Growth Item ItemPackage.

Definition REWARD_TYPE_HERO : Z := 42.
Definition CONSUME_ITEM_PACKAGE : Z := 46.
Definition REWARD_TYPE_HEROITEM : Z := 90.
Definition RET_ERROR : Z := 1.
Definition RET_NOT_ENOUGH : Z := 10.
Definition RET_ITEM_NOT_ENOUGH : Z := 280.
Definition AI_MAX_ID : Z := 99999.
Definition REASON_EQUIP_CHANGE_POSITION : Z := 1014.

(** ** Costs *)

(** The items of a player and of the player's heroes; the notifications are in the first. *)
Record wallet (W M G C N W2 : Type) := mk_wallet { wl_items : item_state W M G C N; wl_heroes : store HeroItem W2; wl_hset : data_set (hero_maps M) }.
Arguments mk_wallet {W M G C N W2} _ _ _.
Arguments wl_items {W M G C N W2} _.
Arguments wl_heroes {W M G C N W2} _.
Arguments wl_hset {W M G C N W2} _.

(** A cost, as [struct ConsumeCfg] and its like. *)
Record cost := mk_cost { ct_type : Z; ct_id : Z; ct_value : Z }.

Section Operations.
Context {W M G C N W2 : Type} `{Database Item W} `{PtrMap M} `{Growth G} `{!Compensator C G} `{Notifier N} `{Database HeroItem W2}.
Context (malloc : gmap Z (datum Item) -> Z) (pid create : Z) (get_favor_item_config : Z -> option (Z * list Z)).
(** The packages, and whether the player has a hero. *)
Context (package : Z -> outcome (option (list CITEM))) (has_hero : Z -> bool).
#[local] Abbreviation state := (wallet W M G C N W2).

Definition with_items (w : state) s : state := mk_wallet s (wl_heroes w) (wl_hset w).
Definition hero_items (w : state) : hero_state W2 M N := mk_hs (wl_heroes w) (wl_hset w) (is_notify (wl_items w)).
Definition with_hero_items (w : state) (s : hero_state W2 M N) : state :=
  let i := wl_items w in mk_wallet (mk_is (is_store i) (is_set i) (is_m3 i) (is_growth i) (is_comp i) (hs_notify s) (is_events i)) (hs_store s) (hs_set s).
Definition ask (w : state) (now id : Z) : outcome (state * Z) := '(s, item) ← item_get malloc pid create get_favor_item_config (wl_items w) now id; Ret (with_items w s, item).

Definition CheckForConsume (w : state) (now type id uuid value : Z) : outcome (state * Z) :=
  if (type =? 0) || (id =? 0) then Ret (w, 0)
  else if type =? REWARD_TYPE_ITEM then
    '(w, item) ← ask w now id;
    if item =? 0 then Ret (w, RET_ITEM_NOT_ENOUGH)
    else
      v ← deref (st_heap (is_store (wl_items w)) !! item);
      Ret (w, if (it_limit (dt_row v) <? value) || (it_limit (dt_row v) =? 0) then RET_ITEM_NOT_ENOUGH else 0)
  else if (type =? REWARD_TYPE_HEROITEM) && (0 <? value) then
    have ← hero_item_count (hero_items w) uuid (i32 id);
    Ret (w, if u32 have <? value then RET_ITEM_NOT_ENOUGH else 0)
  else if (type =? REWARD_TYPE_HERO) && (0 <? value) then Ret (w, if has_hero id then 0 else RET_NOT_ENOUGH)
  else Ret (w, RET_ERROR).

(** The first item of a package of which there is enough: it is looked for, and taken. *)
Fixpoint package_loop (take : state -> Z -> Z -> outcome state) (w : state) (now : Z) (l : list CITEM) (value : Z) : outcome (state * Z) :=
  match l with
  | [] => Ret (w, -1)
  | item :: l' =>
    if i32 (ci_type item) =? REWARD_TYPE_ITEM then
      '(w, ite) ← ask w now (u32 (i32 (ci_id item)));
      let need := u32 (i32 (i32 (ci_value item) * value)) in
      if ite =? 0 then package_loop take w now l' value
      else
        v ← deref (st_heap (is_store (wl_items w)) !! ite);
        if (it_limit (dt_row v) <? need) || (it_limit (dt_row v) =? 0) then package_loop take w now l' value
        else w ← take w ite need; Ret (w, 1)
    else package_loop take w now l' value
  end.
Definition check_for_consume_item_package (w : state) (now package_id value : Z) : outcome (state * Z) :=
  l ← package package_id;
  match l with None => Ret (w, -1) | Some l => package_loop (fun w _ _ => Ret w) w now l value end.
Definition consume_for_consume_item_package (w : state) (now package_id value reason : Z) : outcome (state * Z) :=
  l ← package package_id;
  match l with
  | None => Ret (w, -1)
  | Some l => package_loop (fun w item need => '(s, _) ← item_remove (wl_items w) now item need reason; Ret (with_items w s)) w now l value
  end.

Definition CheckAndConsume (w : state) (now type id uuid value reason : Z) : outcome (state * Z) :=
  if (type =? 0) || (id =? 0) then Ret (w, 0)
  else if pid <=? AI_MAX_ID then Ret (w, 0)
  else if type =? REWARD_TYPE_ITEM then
    '(w, item) ← ask w now id;
    if item =? 0 then Ret (w, RET_ITEM_NOT_ENOUGH)
    else
      v ← deref (st_heap (is_store (wl_items w)) !! item);
      if (it_limit (dt_row v) <? value) || (it_limit (dt_row v) =? 0) then Ret (w, RET_ITEM_NOT_ENOUGH)
      else '(s, r) ← item_remove (wl_items w) now item value reason; Ret (with_items w s, if negb (r =? 0) then RET_ERROR else 0)
  else if (type =? REWARD_TYPE_HEROITEM) && (0 <? value) then
    '(h, r) ← hero_item_remove (hero_items w) now uuid (i32 id) (i32 value);
    Ret (with_hero_items w h, if negb (r =? 0) then RET_ERROR else 0)
  else if (type =? CONSUME_ITEM_PACKAGE) && (0 <? value) then
    '(w, r) ← check_for_consume_item_package w now (i32 id) (i32 value);
    if r <? 0 then Ret (w, RET_ERROR)
    else
      '(w, r) ← consume_for_consume_item_package w now (i32 id) (i32 value) reason;
      Ret (w, if r =? 0 then RET_ERROR else 0)
  else Ret (w, 0).

Definition TryConsumeAll (w : state) (now type id uuid reason : Z) : outcome (state * Z) :=
  if type =? REWARD_TYPE_ITEM then
    '(w, item) ← ask w now id;
    if item =? 0 then Ret (w, 0)
    else
      v ← deref (st_heap (is_store (wl_items w)) !! item);
      '(s, _) ← item_remove (wl_items w) now item (it_limit (dt_row v)) reason; Ret (with_items w s, 0)
  else if type =? REWARD_TYPE_HEROITEM then
    n ← hero_item_count (hero_items w) uuid (i32 id);
    '(h, _) ← hero_item_remove (hero_items w) now uuid (i32 id) n; Ret (with_hero_items w h, 0)
  else Ret (w, 0).

(** ** Several costs *)

(** The loops of [aL_hero_star_up], [aL_equip_stage_up] and [aL_equip_affix_grow]: the result is that of the first
    cost that fails. *)
Fixpoint check_costs (w : state) (now uuid : Z) (costs : list cost) : outcome (state * Z) :=
  match costs with
  | [] => Ret (w, 0)
  | c :: costs' =>
    '(w, r) ← CheckForConsume w now (u32 (ct_type c)) (u32 (ct_id c)) uuid (u32 (ct_value c));
    if negb (r =? 0) then Ret (w, r) else check_costs w now uuid costs'
  end.
Fixpoint consume_costs (w : state) (now uuid : Z) (costs : list cost) (reason : Z) : outcome (state * Z) :=
  match costs with
  | [] => Ret (w, 0)
  | c :: costs' =>
    '(w, r) ← CheckAndConsume w now (u32 (ct_type c)) (u32 (ct_id c)) uuid (u32 (ct_value c)) reason;
    if negb (r =? 0) then Ret (w, r) else consume_costs w now uuid costs' reason
  end.
(** [failed] is what the function returns when a cost that was checked cannot be taken. *)
Definition pay_costs (w : state) (now uuid : Z) (costs : list cost) (reason failed : Z) : outcome (state * Z) :=
  '(w, r) ← check_costs w now uuid costs;
  if negb (r =? 0) then Ret (w, RET_NOT_ENOUGH)
  else '(w, r) ← consume_costs w now uuid costs reason; Ret (w, if negb (r =? 0) then failed else 0).

(** The costs of another property in [aL_equip_affix_grow] are added to those there are, in an array of twelve. *)
Fixpoint add_cost (costs : list cost) (c : cost) (count : Z) : list cost :=
  match costs with
  | [] => []
  | d :: costs' =>
    if ((ct_type d =? ct_type c) && (ct_id d =? ct_id c)) || (ct_type d =? 0) then mk_cost (ct_type c) (ct_id c) (i32 (ct_value d + i32 (ct_value c * count))) :: costs'
    else d :: add_cost costs' c count
  end.

(** [EquipChangeCost2] with the costs of the two equipments. *)
Definition EquipChangeCost2 (w : state) (now : Z) (cost1 cost2 : option cost) : outcome (state * Z) :=
  let consume w type id value := CheckAndConsume w now (u32 type) (u32 id) 0 (u32 value) REASON_EQUIP_CHANGE_POSITION in
  match cost1, cost2 with
  | None, None => Ret (w, 0)
  | Some c, None | None, Some c => consume w (ct_type c) (ct_id c) (ct_value c)
  | Some c1, Some c2 =>
    if (ct_type c1 =? ct_type c2) || (ct_id c1 =? ct_id c2) then consume w (ct_type c1) (ct_id c1) (i32 (ct_value c1 + ct_value c2))
    else
      '(w, r) ← CheckForConsume w now (u32 (ct_type c1)) (u32 (ct_id c1)) 0 (u32 (ct_value c1));
      if negb (r =? 0) then Ret (w, -1)
      else
        '(w, r) ← CheckForConsume w now (u32 (ct_type c2)) (u32 (ct_id c2)) 0 (u32 (ct_value c2));
        if negb (r =? 0) then Ret (w, -1)
        else
          '(w, _) ← consume w (ct_type c2) (ct_id c2) (ct_value c2);
          '(w, _) ← consume w (ct_type c2) (ct_id c2) (ct_value c2);
          Ret (w, 0)
  end.

(** The costs of a fight: of its battle, to be had only, and its own. *)
Definition pve_fight_consume (w : state) (now : Z) (battle : option cost) (check own : cost) (consume : bool) (reason : Z) : outcome (state * Z) :=
  let may (w : state) (c : cost) := if negb (ct_type c =? 0) then CheckForConsume w now (u32 (ct_type c)) (u32 (ct_id c)) 0 (u32 (ct_value c)) else Ret (w, 0) in
  let take (w : state) (c : cost) := if negb (ct_type c =? 0) then CheckAndConsume w now (u32 (ct_type c)) (u32 (ct_id c)) 0 (u32 (ct_value c)) reason else Ret (w, 0) in
  '(w, r) ← match battle with Some c => may w c | None => Ret (w, 0) end;
  if negb (r =? 0) then Ret (w, RET_NOT_ENOUGH)
  else
    '(w, r) ← may w check;
    if negb (r =? 0) then Ret (w, RET_NOT_ENOUGH)
    else
      '(w, r) ← may w own;
      if negb (r =? 0) then Ret (w, RET_NOT_ENOUGH)
      else if negb consume then Ret (w, 0)
      else
        '(w, r) ← match battle with Some c => take w c | None => Ret (w, 0) end;
        if negb (r =? 0) then Ret (w, RET_NOT_ENOUGH)
        else
          '(w, r) ← take w own;
          Ret (w, if negb (r =? 0) then RET_NOT_ENOUGH else 0).
End Operations.
