(* ===== verification/ConsumeTheorems.v ===== *)
(** * Payments

    The functions of [Consume] that have several costs look first whether each can be paid, and then take one
    after the other.  Asking for an item a second time changes nothing; what was looked for can be taken, as long
    as the costs before it have left enough: all are taken when no two of them are the same, or when there is
    enough for all together. *)
From S2P Require Import Prelude AmfWire AmfValue AmfSafety AmfTheorems AgMap Dlist Keyed Data DataSet NotifyCount Notify NotifyTheorems PlayerNotify HeroMaps HeroItem ItemGrow Growth Compensate Item ItemTheorems ItemPackage Consume.

(** ** Asking for an item *)

Lemma u32_i32 z : u32 (i32 z) = u32 z.
Proof. destruct (i32_shift z) as [k ->]. unfold u32. now rewrite Z.mod_add by discriminate. Qed.

(** The second time there is nothing to grow, and whether there is does not depend on the amount. *)
Lemma grow_settled g create now count : 0 <= now < 2 ^ 31 -> answer (grow_count g create now count now) = (count, false, 0).
Proof.
  intros Hn. unfold answer, grow_count. rewrite (i32_small now) by lia. rewrite Z.leb_refl, Z.eqb_refl. cbn [negb]. destruct (negb (is_reset g =? 0)); reflexivity.
Qed.
Lemma grow_flag g create now c c' u : snd (fst (answer (grow_count g create now c u))) = snd (fst (answer (grow_count g create now c' u))).
Proof.
  unfold answer, grow_count. set (reset := negb (is_reset g =? 0)). set (moved := negb (_ =? i32 (Z.quot (i32 u - _) _))).
  destruct reset, moved; cbv beta iota zeta; destruct (_ <=? _); try reflexivity; repeat (destruct (grow_limit g <? _)); reflexivity.
Qed.

Section Asking.
Context (pid create : Z) (sp : growth_spec).

Definition keyed (D : gmap Z Item) : Prop := forall k r, D !! k = Some r -> it_id r = k.
Lemma keyed_put D r : keyed D -> keyed (<[it_id r := r]> D).
Proof. intros Hk k x Hx. apply lookup_insert_Some in Hx as [[<- <-]|[_ Hx]]; [reflexivity|auto]. Qed.

(** What becomes of a record when somebody asks for it. *)
Definition grown_row (now id : Z) (o : option Item) : option Item :=
  match o with
  | Some r =>
    let '(count, modified, _) := sp_growth sp create now (i32 id) (i32 (it_limit r)) (it_update_time r) in
    Some (if modified then row_set (row_set r 3 (u32 count)) 5 now else r)
  | None =>
    let count := fst (fst (sp_growth sp create now (i32 id) 0 0)) in
    if 0 <? count then Some (mk_item pid id (u32 count) 0 now) else None
  end.

Lemma growth_flag now id c c' u : snd (fst (sp_growth sp create now id c u)) = snd (fst (sp_growth sp create now id c' u)).
Proof. unfold sp_growth. destruct (sp_active sp now id); [apply grow_flag|reflexivity]. Qed.
Lemma growth_settled now id c : 0 <= now < 2 ^ 31 -> sp_growth sp create now id c now = (c, false, 0).
Proof. intros Hn. unfold sp_growth. destruct (sp_active sp now id); [now apply grow_settled|reflexivity]. Qed.

(** A record that was asked for stays as it is, and also with another amount. *)
Lemma grown_again now id o r x : 0 <= now < 2 ^ 31 -> grown_row now id o = Some r -> grown_row now id (Some (row_set r 3 x)) = Some (row_set r 3 x).
Proof.
  intros Hn Ho. cbn [grown_row]. pose proof (growth_flag now (i32 id) (i32 (it_limit (row_set r 3 x))) (i32 (it_limit r)) (it_update_time r)) as Hf.
  change (it_update_time (row_set r 3 x)) with (it_update_time r). destruct (sp_growth sp create now (i32 id) (i32 (it_limit (row_set r 3 x))) (it_update_time r)) as [[c m] ov]. cbn [fst snd] in Hf.
  assert (Hm : m = false).
  { rewrite Hf. destruct o as [r0|]; cbn [grown_row] in Ho.
    - destruct (sp_growth sp create now (i32 id) (i32 (it_limit r0)) (it_update_time r0)) as [[c0 m0] ov0] eqn:E0. injection Ho as <-. destruct m0; [cbn; now rewrite growth_settled|now rewrite E0].
    - destruct (0 <? _); [|discriminate]. injection Ho as <-. cbn. now rewrite growth_settled. }
  now rewrite Hm.
Qed.
Lemma row_set_limit_same (r : Item) : row_set r 3 (it_limit r) = r.
Proof. destruct r; reflexivity. Qed.
Lemma grown_twice now id o : 0 <= now < 2 ^ 31 -> grown_row now id (grown_row now id o) = grown_row now id o.
Proof.
  intros Hn. destruct (grown_row now id o) as [r|] eqn:E.
  - rewrite <- (row_set_limit_same r) at 1. now rewrite (grown_again now id o r _ Hn E), row_set_limit_same.
  - destruct o as [r|]; cbn [grown_row] in E; [|cbn [grown_row]; destruct (0 <? _); [discriminate|reflexivity]].
    destruct (sp_growth _ _ _ _ _ _) as [[c m] ov]; discriminate.
Qed.

(** Changing one amount. *)
Lemma set_limit_row S id limit reason : keyed (sp_items S) ->
  sp_items (spec_set_limit sp S id limit reason) = match sp_items S !! id with Some r => <[id := row_set r 3 limit]> (sp_items S) | None => sp_items S end.
Proof.
  intros Hk. unfold spec_set_limit. destruct (sp_items S !! id) as [r|] eqn:E; [|reflexivity]. destruct (Z.eqb_spec (it_limit r) limit) as [<-|Hne].
  - rewrite row_set_limit_same. now rewrite insert_id.
  - cbn. now rewrite (Hk _ _ E).
Qed.
Lemma set_limit_keyed S id limit reason : keyed (sp_items S) -> keyed (sp_items (spec_set_limit sp S id limit reason)).
Proof.
  intros Hk. rewrite set_limit_row by exact Hk. destruct (sp_items S !! id) as [r|] eqn:E; [|exact Hk]. rewrite <- (Hk _ _ E) at 1. change (it_id r) with (it_id (row_set r 3 limit)). now apply keyed_put.
Qed.

(** A function that changes the record of one item only. *)
Definition changes_only (k : Z) (f : item_spec -> item_spec) : Prop :=
  forall S, keyed (sp_items S) -> keyed (sp_items (f S)) /\ forall j, j <> k -> sp_items (f S) !! j = sp_items S !! j.

Lemma add_changes get now id limit reason : changes_only id (fun S => get S now id) -> changes_only id (fun S => spec_add_by pid create sp get S now id limit reason).
Proof.
  intros Hg S Hk. destruct (Hg S Hk) as [Hk1 Ho1]. unfold spec_add_by. set (S1 := get S now id) in *. destruct (sp_items S1 !! id) as [r|] eqn:E.
  - destruct (0 <? limit); [|auto]. cbn. rewrite (Hk1 _ _ E). split; [|intros j Hj; rewrite lookup_insert_ne by congruence; auto].
    set (r' := mk_item _ _ _ _ _). replace id with (it_id r') by reflexivity. now apply keyed_put.
  - set (S2 := if _ =? 110 then _ else S1). assert (E2 : sp_items S2 = sp_items S1) by (subst S2; destruct (_ =? 110); reflexivity). cbn. rewrite E2. split.
    + set (r' := mk_item _ _ _ _ _). replace id with (it_id r') by reflexivity. now apply keyed_put.
    + intros j Hj. rewrite lookup_insert_ne by congruence. auto.
Qed.

(** An item that has grown. *)
Lemma grown_rows add (counted : bool) S now id r count : keyed (sp_items S) -> sp_items S !! id = Some r ->
  (counted = true -> id <> GROW_ITEM /\ changes_only GROW_ITEM (fun S => add S now GROW_ITEM 1 REASON_ITEM_AUTO_GROW)) ->
  let S' := spec_grown sp add counted S now id count in
  keyed (sp_items S') /\ sp_items S' !! id = Some (row_set (row_set r 3 (u32 count)) 5 now) /\ forall j, j <> id -> (counted = true -> j <> GROW_ITEM) -> sp_items S' !! j = sp_items S !! j.
Proof.
  intros Hk Hi Hadd. unfold spec_grown. set (S1 := if counted then _ else S). cbv zeta.
  assert (Hs1 : keyed (sp_items S1) /\ sp_items S1 !! id = Some r /\ forall j, (counted = true -> j <> GROW_ITEM) -> sp_items S1 !! j = sp_items S !! j).
  { subst S1. destruct counted; [|auto]. destruct (Hadd eq_refl) as [Hid Hch]. destruct (Hch S Hk) as [Hk1 Ho1]. split; [exact Hk1|]. split; [now rewrite Ho1|auto]. }
  destruct Hs1 as (Hk1 & Hi1 & Ho1). clearbody S1. pose proof (set_limit_keyed S1 id (u32 count) REASON_ITEM_AUTO_GROW Hk1) as Hk2. pose proof (set_limit_row S1 id (u32 count) REASON_ITEM_AUTO_GROW Hk1) as E2.
  rewrite Hi1 in E2. set (S2 := spec_set_limit _ _ _ _ _) in *. assert (Hi2 : sp_items S2 !! id = Some (row_set r 3 (u32 count))) by (rewrite E2; apply lookup_insert_eq). rewrite Hi2. cbn [sp_items spec_put].
  pose proof (Hk _ _ Hi) as Hid. set (r' := row_set (row_set r 3 (u32 count)) 5 now). assert (Hid' : it_id r' = id) by exact Hid. rewrite <- Hid' at 1. split; [now apply keyed_put|]. rewrite Hid'. split; [apply lookup_insert_eq|].
  intros j Hj Hg. rewrite lookup_insert_ne by congruence. rewrite E2, lookup_insert_ne by congruence. auto.
Qed.

Lemma get_loop_rows fuel : forall S now id, keyed (sp_items S) ->
  let S' := spec_get_loop pid create sp fuel S now id in
  keyed (sp_items S') /\ (forall j, j <> id -> j <> GROW_ITEM -> sp_items S' !! j = sp_items S !! j) /\ (fuel <> 0%nat -> sp_items S' !! id = grown_row now id (sp_items S !! id)).
Proof.
  induction fuel as [|fuel IH]; intros S now id Hk; [cbn; split; [exact Hk|]; split; [reflexivity|now intros []]|]. cbn [spec_get_loop grown_row]. cbv zeta.
  destruct (sp_items S !! id) as [r|] eqn:Hi; cbn [grown_row].
  - destruct (sp_growth sp create now (i32 id) (i32 (it_limit r)) (it_update_time r)) as [[count modified] ov] eqn:Eg. destruct modified; [|rewrite Hi; auto].
    destruct (grown_rows (spec_add_by pid create sp (spec_get_loop pid create sp fuel)) (negb (id =? GROW_ITEM)) S now id r count Hk Hi) as (Hk' & Hid & Ho).
    + intros Hn. split; [now intros ->|]. apply add_changes. intros S0 Hk0. destruct (IH S0 now GROW_ITEM Hk0) as (Hk1 & Ho1 & _). split; [exact Hk1|]. intros j Hj. now apply Ho1.
    + split; [exact Hk'|]. split; [|intros _; exact Hid]. intros j Hj Hg. apply Ho; auto.
  - destruct (0 <? fst (fst (sp_growth sp create now (i32 id) 0 0))) eqn:Ec; cbn [sp_items spec_put it_id]; [|rewrite Hi; auto].
    set (r := mk_item pid id _ 0 now). split; [now apply (keyed_put (sp_items S) r)|]. split; [intros j Hj _; now rewrite lookup_insert_ne by congruence|intros _; apply lookup_insert_eq].
Qed.

(** Asking changes the item that is asked for, and the one that counts growth. *)
Lemma get_rows S now id : keyed (sp_items S) ->
  let S' := spec_get pid create sp S now id in
  keyed (sp_items S') /\ sp_items S' !! id = grown_row now id (sp_items S !! id) /\ forall j, j <> id -> j <> GROW_ITEM -> sp_items S' !! j = sp_items S !! j.
Proof. intros Hk. destruct (get_loop_rows 2 S now id Hk) as (Hk' & Ho & Hi). split; [exact Hk'|]. split; [now apply Hi|exact Ho]. Qed.

Lemma remove_rows S id limit reason : keyed (sp_items S) ->
  let S' := fst (spec_remove sp S id limit reason) in
  keyed (sp_items S') /\ (forall j, j <> id -> sp_items S' !! j = sp_items S !! j) /\
  forall r, sp_items S !! id = Some r -> 0 <= limit <= it_limit r -> it_limit r < 2 ^ 32 -> snd (spec_remove sp S id limit reason) = 0 /\ sp_items S' !! id = Some (row_set r 3 (it_limit r - limit)).
Proof.
  intros Hk. unfold spec_remove. destruct (sp_items S !! id) as [r|] eqn:E; [|split; [exact Hk|]; split; [reflexivity|discriminate]].
  destruct (Z.eqb_spec limit 0) as [->|Hz]; [cbn [fst snd]; rewrite E; split; [exact Hk|]; split; [reflexivity|intros ? [= <-] _ _; rewrite Z.sub_0_r, row_set_limit_same; auto]|].
  destruct (Z.ltb_spec (it_limit r) limit); cbn [fst snd]; [rewrite E; split; [exact Hk|]; split; [reflexivity|intros ? [= <-] ? _; lia]|].
  split; [now apply set_limit_keyed|]. rewrite set_limit_row by exact Hk. rewrite E. split; [intros j Hj; now rewrite lookup_insert_ne by congruence|]. intros ? [= <-] Hl Hr. split; [reflexivity|]. rewrite lookup_insert_eq, u32_small by lia. reflexivity.
Qed.
End Asking.

(** ** Balances *)

(** What a player can have: an item, or an item of a hero. *)
Inductive holding := KItem (id : Z) | KHero (uuid id : Z).
#[export] Instance holding_eq : EqDecision holding.
Proof. solve_decision. Defined.
(** The item that counts growth changes with the asking. *)
Definition settled (k : holding) : Prop := match k with KItem id => id <> GROW_ITEM | KHero _ id => 0 <= id < two32 end.

Section Balances.
Context (pid create : Z) (sp : growth_spec) (has_hero : Z -> bool).

(** What the player has of it when somebody asks at [now]; [D] is what the heroes have. *)
Definition balance (S : item_spec) (D : gmap Z (Z * Z)) (now : Z) (k : holding) : Z :=
  match k with KItem id => snd (call_spec pid create sp S (CGet now id)) | KHero uuid id => default 0 (fst <$> D !! number uuid id) end.

(** What a cost takes, if anything, and whether it can be paid. *)
Definition cost_key (uuid : Z) (c : cost) : option holding :=
  if (ct_type c =? 0) || (ct_id c =? 0) then None
  else if ct_type c =? REWARD_TYPE_ITEM then Some (KItem (ct_id c)) else if ct_type c =? REWARD_TYPE_HEROITEM then Some (KHero uuid (ct_id c)) else None.
Definition taken (uuid : Z) (c : cost) (k : holding) : Z := if bool_decide (cost_key uuid c = Some k) then ct_value c else 0.
Definition taken_by_all (uuid : Z) (costs : list cost) (k : holding) : Z := sum_of (fun c => taken uuid c k) costs.
Definition covers (B : holding -> Z) (uuid : Z) (c : cost) : bool :=
  if (ct_type c =? 0) || (ct_id c =? 0) then true
  else if ct_type c =? REWARD_TYPE_ITEM then (ct_value c <=? B (KItem (ct_id c))) && (0 <? B (KItem (ct_id c)))
  else if ct_type c =? REWARD_TYPE_HEROITEM then (ct_value c <=? B (KHero uuid (ct_id c))) && (0 <? ct_value c)
  else (ct_type c =? REWARD_TYPE_HERO) && (0 <? ct_value c) && has_hero (ct_id c).
Definition covered (S : item_spec) (D : gmap Z (Z * Z)) (now uuid : Z) (c : cost) : bool := covers (balance S D now) uuid c.

(** The costs that can be paid one after the other, up to the first that cannot. *)
Fixpoint paid_prefix (B : holding -> Z) (uuid : Z) (costs : list cost) : list cost :=
  match costs with
  | [] => []
  | c :: costs' => if covers B uuid c then c :: paid_prefix (fun k => B k - taken uuid c k) uuid costs' else []
  end.
(** There is enough of everything for all the costs together. *)
Definition enough (B : holding -> Z) (uuid : Z) (costs : list cost) : Prop :=
  forall c k, c ∈ costs -> cost_key uuid c = Some k -> 0 < ct_value c /\ taken_by_all uuid costs k <= B k.
(** The numbers of a configuration. *)
Definition cost_fine (c : cost) : Prop :=
  0 <= ct_type c < 2 ^ 31 /\ 0 <= ct_id c < 2 ^ 31 /\ 0 <= ct_value c < 2 ^ 31 /\ (ct_type c = REWARD_TYPE_ITEM -> ct_id c <> GROW_ITEM).

Lemma balance_row S D now id : keyed (sp_items S) -> balance S D now (KItem id) = match grown_row pid create sp now id (sp_items S !! id) with Some r => it_limit r | None => 0 end.
Proof. intros Hk. cbn [balance call_spec snd]. destruct (get_rows pid create sp S now id Hk) as (_ & -> & _). reflexivity. Qed.
Lemma key_settled uuid c k : cost_fine c -> cost_key uuid c = Some k -> settled k.
Proof.
  intros (_ & Hid & _ & Hg) E. unfold cost_key in E. destruct (_ || _); [discriminate|]. destruct (Z.eqb_spec (ct_type c) REWARD_TYPE_ITEM) as [Ht|_]; [injection E as <-; exact (Hg Ht)|].
  destruct (ct_type c =? REWARD_TYPE_HEROITEM); [injection E as <-; cbn; unfold two32; lia|discriminate].
Qed.

(** Nothing but the balances matters. *)
Definition same_balances (S S' : item_spec) (D D' : gmap Z (Z * Z)) (now : Z) : Prop := forall k, settled k -> balance S' D' now k = balance S D now k.
Lemma covered_same S S' D D' now uuid c : cost_fine c -> (forall k, cost_key uuid c = Some k -> balance S' D' now k = balance S D now k) -> covered S' D' now uuid c = covered S D now uuid c.
Proof.
  intros Hc Hb. unfold covered, covers, cost_key in *. destruct (_ || _); [reflexivity|]. destruct (ct_type c =? REWARD_TYPE_ITEM); [now rewrite (Hb _ eq_refl)|]. destruct (ct_type c =? REWARD_TYPE_HEROITEM); [now rewrite (Hb _ eq_refl)|reflexivity].
Qed.

Lemma covers_ext B B' uuid c : (forall k, cost_key uuid c = Some k -> B k = B' k) -> covers B uuid c = covers B' uuid c.
Proof.
  intros Hb. unfold covers, cost_key in *. destruct (_ || _); [reflexivity|]. destruct (ct_type c =? REWARD_TYPE_ITEM); [now rewrite (Hb _ eq_refl)|].
  destruct (ct_type c =? REWARD_TYPE_HEROITEM); [now rewrite (Hb _ eq_refl)|reflexivity].
Qed.
Lemma paid_prefix_ext uuid costs : forall B B', (forall c k, c ∈ costs -> cost_key uuid c = Some k -> B k = B' k) -> paid_prefix B uuid costs = paid_prefix B' uuid costs.
Proof.
  induction costs as [|c costs IH]; intros B B' Hb; [reflexivity|]. cbn [paid_prefix]. rewrite (covers_ext B B' uuid c) by (intros k; apply Hb; left).
  destruct (covers B' uuid c); [|reflexivity]. f_equal. apply IH. intros c' k Hc' Hk. now rewrite (Hb c' k) by (now right || exact Hk).
Qed.
Lemma taken_other uuid c k : cost_key uuid c <> Some k -> taken uuid c k = 0.
Proof. intros Hn. unfold taken. now rewrite bool_decide_false. Qed.

(** All are paid when no two are the same. *)
Lemma prefix_distinct uuid costs : forall B, NoDup (omap (cost_key uuid) costs) -> forallb (covers B uuid) costs = true -> paid_prefix B uuid costs = costs.
Proof.
  induction costs as [|c costs IH]; intros B Hnd Hcov; [reflexivity|]. cbn [forallb paid_prefix] in *. apply andb_true_iff in Hcov as [Hc Hcs]. rewrite Hc. f_equal.
  assert (Hnd' : NoDup (omap (cost_key uuid) costs) /\ forall c' k, c' ∈ costs -> cost_key uuid c' = Some k -> cost_key uuid c <> Some k).
  { cbn [omap list_omap] in Hnd. destruct (cost_key uuid c) as [k0|]; [apply list.NoDup_cons in Hnd as [Hni Hnd]|]; (split; [exact Hnd|]); [|discriminate].
    intros c' k Hc' Ek [= ->]. apply Hni, list_elem_of_omap. eauto. }
  destruct Hnd' as [Hnd' Hdis]. apply IH; [exact Hnd'|]. rewrite forallb_forall in Hcs |- *. intros c' Hc'. rewrite <- (Hcs c' Hc'). apply covers_ext. intros k Hk.
  rewrite (taken_other uuid c k); [lia|]. exact (Hdis c' k (proj2 (list_elem_of_In _ _) Hc') Hk).
Qed.

(** All are paid when there is enough for all. *)
Lemma taken_nonneg uuid costs k : Forall cost_fine costs -> 0 <= taken_by_all uuid costs k.
Proof.
  induction 1 as [|c costs (_ & _ & Hv & _) Hf IH]; unfold taken_by_all in *; cbn [sum_of fold_right]; [lia|]. unfold sum_of in *. unfold taken at 1. destruct (bool_decide _); lia.
Qed.
Lemma taken_cons uuid c costs k : taken_by_all uuid (c :: costs) k = taken uuid c k + taken_by_all uuid costs k.
Proof. reflexivity. Qed.
Lemma enough_covers B B0 uuid c costs : Forall cost_fine (c :: costs) -> enough B uuid (c :: costs) -> covers B0 uuid c = true -> covers B uuid c = true.
Proof.
  intros Hf He Hc. apply list.Forall_cons in Hf as [Hfc Hf]. assert (Hk : forall k, cost_key uuid c = Some k -> ct_value c <= B k /\ 0 < ct_value c).
  { intros k Hk. destruct (He c k ltac:(left) Hk) as [Hp Hl]. rewrite taken_cons in Hl. pose proof (taken_nonneg uuid costs k Hf). unfold taken in Hl at 1. rewrite bool_decide_true in Hl by exact Hk. lia. }
  unfold covers, cost_key in *. destruct (_ || _); [reflexivity|]. destruct (ct_type c =? REWARD_TYPE_ITEM); [destruct (Hk _ eq_refl)|destruct (ct_type c =? REWARD_TYPE_HEROITEM); [destruct (Hk _ eq_refl)|exact Hc]].
  all: apply andb_true_iff; split; [apply Z.leb_le|apply Z.ltb_lt]; lia.
Qed.
Lemma prefix_enough uuid costs : forall B, Forall cost_fine costs -> (forall c, c ∈ costs -> exists B0, covers B0 uuid c = true) -> enough B uuid costs -> paid_prefix B uuid costs = costs.
Proof.
  induction costs as [|c costs IH]; intros B Hf Hk He; [reflexivity|]. cbn [paid_prefix]. destruct (Hk c ltac:(left)) as [B0 Hc]. rewrite (enough_covers B B0 uuid c costs Hf He Hc). f_equal.
  apply list.Forall_cons in Hf as [_ Hf]. apply IH; [exact Hf|intros c' Hc'; apply Hk; now right|]. intros c' k Hc' Ek. destruct (He c' k ltac:(now right) Ek) as [Hp Hl]. rewrite taken_cons in Hl. split; [exact Hp|lia].
Qed.

(** Asking changes no balance. *)
Lemma balance_get S D now id : keyed (sp_items S) -> 0 <= now < 2 ^ 31 -> same_balances S (spec_get pid create sp S now id) D D now.
Proof.
  intros Hk Hn [j|uuid j] Hj; [|reflexivity]. destruct (get_rows pid create sp S now id Hk) as (Hk' & Hi & Ho). rewrite !balance_row by assumption. destruct (decide (j = id)) as [->|Hne]; [now rewrite Hi, grown_twice|now rewrite Ho].
Qed.
(** Neither do the notifications. *)
Lemma balance_items S S' D now k : sp_items S' = sp_items S -> keyed (sp_items S) -> balance S' D now k = balance S D now k.
Proof. intros E Hk. destruct k as [id|uuid id]; [|reflexivity]. rewrite !balance_row by (rewrite ?E; exact Hk). now rewrite E. Qed.

(** Taking an item that was asked for. *)
Lemma balance_remove S D now id limit reason : keyed (sp_items S) -> 0 <= now < 2 ^ 31 -> (forall r, sp_items (spec_get pid create sp S now id) !! id = Some r -> it_limit r < 2 ^ 32) ->
  0 <= limit <= balance S D now (KItem id) -> 0 < balance S D now (KItem id) ->
  let S1 := spec_get pid create sp S now id in
  let S2 := fst (spec_remove sp S1 id limit reason) in
  snd (spec_remove sp S1 id limit reason) = 0 /\ keyed (sp_items S2) /\ forall k, settled k -> balance S2 D now k = balance S D now k - (if bool_decide (KItem id = k) then limit else 0).
Proof.
  intros Hk Hn Hlim Hl Hp S1 S2. destruct (get_rows pid create sp S now id Hk) as (Hk1 & Hi1 & Ho1). fold S1 in Hk1, Hi1, Ho1, Hlim. rewrite balance_row in Hl, Hp by exact Hk.
  destruct (grown_row pid create sp now id (sp_items S !! id)) as [r|] eqn:Er; [|lia]. destruct (remove_rows sp S1 id limit reason Hk1) as (Hk2 & Ho2 & Hr2). fold S2 in Hk2, Ho2, Hr2.
  destruct (Hr2 r Hi1 Hl (Hlim r Hi1)) as [Hret Hi2]. split; [exact Hret|]. split; [exact Hk2|]. intros [j|uuid j] Hj; cbn [settled] in Hj.
  - rewrite !balance_row by assumption. destruct (decide (j = id)) as [->|Hne].
    + rewrite bool_decide_true by reflexivity. rewrite Hi2, Er. rewrite (grown_again pid create sp now id _ r _ Hn Er). reflexivity.
    + rewrite bool_decide_false by congruence. rewrite Ho2 by exact Hne. rewrite Ho1 by assumption. lia.
  - rewrite bool_decide_false by discriminate. cbn [balance]. lia.
Qed.

(** Taking an item of a hero. *)
Lemma balance_hero S D now uuid id v v0 st : 0 <= id < two32 -> D !! number uuid id = Some (v0, st) ->
  forall k, settled k -> balance S (<[number uuid id := (v0 - v, st)]> D) now k = balance S D now k - (if bool_decide (KHero uuid id = k) then v else 0).
Proof.
  intros Hid E [j|u j] Hj; cbn [settled balance] in *; [rewrite bool_decide_false by discriminate; lia|]. destruct (decide (KHero uuid id = KHero u j)) as [[= -> ->]|Hne].
  - rewrite bool_decide_true by reflexivity. rewrite lookup_insert_eq, E. reflexivity.
  - rewrite bool_decide_false by exact Hne. rewrite lookup_insert_ne; [lia|]. intros En. apply Hne. pose proof (number_div uuid id Hid). pose proof (number_div u j Hj). pose proof (number_mod uuid id Hid). pose proof (number_mod u j Hj). congruence.
Qed.
End Balances.

(** ** Paying *)

Section Theorems.
Context {W M G C N W2 : Type} `{Database Item W} `{!DatabaseLaws Item (Z * Z) W player_item_key fst} `{PtrMapLaws M} `{GL : GrowthLaws G} `{CM : !Compensator C G} `{CL : !CompensatorLaws C G} `{NotifierLaws N}
  `{Database HeroItem W2} `{!DatabaseLaws HeroItem (Z * Z) W2 hero_item_key fst}.
Context (map_new : M) (map_new_ok : pm_ok map_new) (map_new_empty : pm_abs map_new = ∅) (malloc_map : gmap Z M -> Z) (malloc_map_ok : forall h, h !! malloc_map h = None /\ malloc_map h <> 0).
Context (void : Z) (malloc : gmap Z (datum Item) -> Z) (malloc_ok : forall h, h !! malloc h = None /\ malloc h <> 0 /\ malloc h <> void) (malloc_hero : gmap Z (datum HeroItem) -> Z).
Context (pid create : Z) (sp : growth_spec) (types_ok : forall id, 0 <= sp_type sp id < 2 ^ 31) (inserts : inserts_ok player_item_key fst (W := W)).
Context (favor : Z -> option (Z * list Z)) (no_favor : forall id, favor id = None) (package : Z -> outcome (option (list CITEM))) (has_hero : Z -> bool) (player : AI_MAX_ID < pid).
#[local] Abbreviation state := (wallet W M G C N W2).
#[local] Abbreviation hero_rep := (hero_inv map_new map_new_ok map_new_empty malloc_map malloc_map_ok void).
#[local] Abbreviation hero_map := (items_are map_new map_new_ok map_new_empty malloc_map malloc_map_ok).

(** The items are those of [S] and the items of heroes those of [D]. *)
Record wallet_rep (w : state) (S : item_spec) (D : gmap Z (Z * Z)) (t b : Z) : Prop := {
  wr_items : is_rep void pid sp (wl_items w) S t b;
  wr_heroes : exists l ul, hero_rep (hero_items w) pid b l ul (sp_posts S);
  wr_map : hero_map (hero_items w) pid D }.

Lemma wallet_keyed w S D t b : wallet_rep w S D t b -> keyed (sp_items S).
Proof. intros [Hi _ _] k r Hk. exact (proj2 (is_rep_record _ _ _ _ _ _ _ _ _ Hi Hk)). Qed.
Lemma wallet_mono w S D t b t' b' : wallet_rep w S D t b -> t <= t' -> b <= b' -> wallet_rep w S D t' b'.
Proof.
  intros [Hi (l & ul & Hh) Hm] Ht Hb. constructor; [eapply is_rep_mono; eauto|exists l, ul; eapply hero_inv_mono; eauto|exact Hm].
Qed.
(** A change on one side takes the notifications along. *)
Lemma wallet_items (w : state) S D t b s' S' t' b' : wallet_rep w S D t b -> is_rep void pid sp s' S' t' b' -> b <= b' -> wallet_rep (with_items w s') S' D t' b'.
Proof.
  intros [_ (l & ul & Hh) Hm] Hr Hb. constructor; [exact Hr| |exact Hm]. exists l, ul. destruct (hero_inv_mono _ _ _ _ _ _ _ _ _ b' _ _ _ Hh Hb) as [Hd Hs _ Hrg Hbd]. destruct Hr as (l' & ul' & Hr).
  constructor; [exact Hd|exact Hs|exact (rp_notes _ _ _ _ _ _ _ _ _ Hr)|exact Hrg|exact Hbd].
Qed.
Lemma wallet_heroes (w : state) S D t b h D' l ul p b' : wallet_rep w S D t b -> hero_rep h pid b' l ul p -> hero_map h pid D' -> b <= b' ->
  wallet_rep (with_hero_items w h) (mk_sp (sp_items S) (sp_totals S) p (sp_events S)) D' t b'.
Proof.
  intros [Hi _ _] Hh Hm Hb. constructor; [|exists l, ul; destruct h; exact Hh|destruct h; exact Hm]. destruct (is_rep_mono _ _ _ _ _ _ _ t b' Hi ltac:(lia) Hb) as (l' & ul' & []). exists l', ul'.
  constructor; try assumption. exact (hv_notes _ _ _ _ _ _ _ _ _ _ _ _ Hh).
Qed.

Lemma ask_spec w S D t b now id : wallet_rep w S D t b -> 0 <= b -> b + 12 < 2 ^ 30 -> 0 <= t <= now -> now < 2 ^ 31 -> 0 <= id < 2 ^ 32 ->
  exists w' a, ask malloc pid create favor w now id = Ret (w', a) /\ wallet_rep w' (spec_get pid create sp S now id) D now (b + 12) /\
    match sp_items (spec_get pid create sp S now id) !! id with
    | Some r => a <> 0 /\ addr (is_set (wl_items w')) id = Some a /\ it_limit r < 2 ^ 32 /\ exists v, st_heap (is_store (wl_items w')) !! a = Some v /\ dt_row v = r
    | None => a = 0
    end.
Proof.
  intros Hw Hb HbK Ht Hn Hid. destruct (get_spec_ok void malloc malloc_ok pid create sp types_ok inserts favor no_favor _ _ _ _ now id (wr_items _ _ _ _ _ Hw) Hb HbK Ht Hn Hid I) as (s & a & He & Hr & _ & Hf).
  unfold ask. rewrite He. cbn [mbind outcome_bind]. exists (with_items w s), a. split; [reflexivity|]. split; [eapply wallet_items; [exact Hw|exact Hr|lia]|]. apply (found_record _ _ _ _ _ _ _ _ _ Hr) in Hf. cbn [wl_items with_items].
  destruct (sp_items _ !! id) as [r|] eqn:E; [|exact Hf]. destruct Hf as (Hz & Ha & Hv). destruct (is_rep_record _ _ _ _ _ _ _ _ _ Hr E) as [[] _]. auto with lia.
Qed.

(** The amount a hero has of an item. *)
Lemma count_spec w S D t b uuid id : wallet_rep w S D t b -> 0 < id < 2 ^ 31 ->
  exists n, hero_item_count (hero_items w) uuid id = Ret n /\ u32 n = default 0 (fst <$> D !! number uuid id).
Proof.
  intros [_ (l & ul & Hh) Hm] Hid. pose proof (count_called map_new map_new_ok map_new_empty malloc_map malloc_map_ok void malloc_hero _ _ _ _ _ _ _ uuid id Hh Hm ltac:(lia)) as Hc.
  unfold item_called in Hc. cbn [items_apply item_step] in Hc. destruct Hc as (h & l' & ul' & He & _). destruct (hero_item_count (hero_items w) uuid id) as [n| | |]; try discriminate He. injection He as _ En.
  exists n. split; [reflexivity|]. destruct (Z.leb_spec id 0); [lia|]. destruct (D !! number uuid id) as [[v st]|] eqn:E; subst n; [|reflexivity]. cbn.
  destruct (item_ok map_new map_new_ok map_new_empty malloc_map malloc_map_ok void _ _ _ _ _ _ _ _ _ Hh Hm E) as (_ & Hv & _). cbn in Hv. rewrite u32_i32. now apply u32_small.
Qed.

Lemma same_refl S D now : same_balances pid create sp S S D D now.
Proof. intros k _. reflexivity. Qed.

(** Looking for one cost. *)
Lemma check_spec w S D t b now uuid c : wallet_rep w S D t b -> 0 <= b -> b + 12 < 2 ^ 30 -> 0 <= t <= now -> now < 2 ^ 31 -> cost_fine c ->
  exists w' r S', CheckForConsume malloc pid create favor has_hero w now (u32 (ct_type c)) (u32 (ct_id c)) uuid (u32 (ct_value c)) = Ret (w', r) /\
    (r =? 0) = covered pid create sp has_hero S D now uuid c /\ wallet_rep w' S' D now (b + 12) /\ same_balances pid create sp S S' D D now.
Proof.
  intros Hw Hb HbK Ht Hn Hc. pose proof (wallet_keyed _ _ _ _ _ Hw) as Hk. destruct Hc as (Hty & Hid & Hv & Hg). rewrite !u32_small by lia. pose proof (wallet_mono _ _ _ _ _ now (b + 12) Hw ltac:(lia) ltac:(lia)) as Hw'.
  assert (Hstay : forall r : Z, (r =? 0) = covered pid create sp has_hero S D now uuid c -> exists w' r' S', Ret (w, r) = Ret (w', r') /\ (r' =? 0) = covered pid create sp has_hero S D now uuid c /\
    wallet_rep w' S' D now (b + 12) /\ same_balances pid create sp S S' D D now) by (intros r Hr; exists w, r, S; auto using same_refl).
  unfold CheckForConsume, covered, covers in *. destruct ((ct_type c =? 0) || (ct_id c =? 0)) eqn:E0; [now apply Hstay|]. apply orb_false_iff in E0 as [_ E0]. apply Z.eqb_neq in E0. destruct (ct_type c =? REWARD_TYPE_ITEM).
  - destruct (ask_spec w S D t b now (ct_id c) Hw Hb HbK Ht Hn ltac:(lia)) as (w1 & a & -> & Hw1 & Ha). cbn [mbind outcome_bind]. cbn [balance call_spec snd].
    pose proof (balance_get pid create sp S D now (ct_id c) Hk ltac:(lia)) as Hs. destruct (sp_items _ !! ct_id c) as [r|].
    + destruct Ha as (Hz & _ & _ & v & Hv' & Hrow). apply Z.eqb_neq in Hz as ->. rewrite Hv'. cbn [deref mbind outcome_bind]. rewrite Hrow. eexists w1, _, _. split; [reflexivity|]. split; [|split; [exact Hw1|exact Hs]].
      destruct (Z.ltb_spec (it_limit r) (ct_value c)), (Z.eqb_spec (it_limit r) 0), (Z.leb_spec (ct_value c) (it_limit r)), (Z.ltb_spec 0 (it_limit r)); cbn; lia || reflexivity.
    + subst a. cbn [Z.eqb]. exists w1, RET_ITEM_NOT_ENOUGH, (spec_get pid create sp S now (ct_id c)). split; [reflexivity|]. split; [|auto]. cbn. now rewrite andb_false_r.
  - destruct (ct_type c =? REWARD_TYPE_HEROITEM) eqn:Eh; cbn [andb].
    + destruct (Z.ltb_spec 0 (ct_value c)) as [Hp|Hp].
      * rewrite i32_small by lia. destruct (count_spec w S D t b uuid (ct_id c) Hw ltac:(lia)) as (n & -> & En). cbn [mbind outcome_bind]. apply Hstay. cbn [balance]. rewrite <- En, andb_true_r.
        destruct (Z.ltb_spec (u32 n) (ct_value c)), (Z.leb_spec (ct_value c) (u32 n)); lia || reflexivity.
      * apply Z.eqb_eq in Eh. rewrite Eh. apply Hstay. now rewrite andb_false_r.
    + destruct ((ct_type c =? REWARD_TYPE_HERO) && (0 <? ct_value c)); apply Hstay; [destruct (has_hero (ct_id c)); reflexivity|reflexivity].
Qed.

(** Taking one cost that can be paid. *)
Lemma consume_spec w S D t b now uuid c reason : wallet_rep w S D t b -> 0 <= b -> b + 13 < 2 ^ 30 -> 0 <= t <= now -> now < 2 ^ 31 -> cost_fine c -> covered pid create sp has_hero S D now uuid c = true ->
  exists w' S' D', CheckAndConsume malloc pid create favor package w now (u32 (ct_type c)) (u32 (ct_id c)) uuid (u32 (ct_value c)) reason = Ret (w', 0) /\ wallet_rep w' S' D' now (b + 13) /\
    forall k, settled k -> balance pid create sp S' D' now k = balance pid create sp S D now k - taken uuid c k.
Proof.
  intros Hw Hb HbK Ht Hn Hc Hcov. pose proof (wallet_keyed _ _ _ _ _ Hw) as Hk. destruct Hc as (Hty & Hid & Hv & Hg). rewrite !u32_small by lia. pose proof (wallet_mono _ _ _ _ _ now (b + 13) Hw ltac:(lia) ltac:(lia)) as Hw'.
  assert (Hstay : (forall k, taken uuid c k = 0) -> exists w' S' D', Ret (w, 0) = Ret (w', 0) /\ wallet_rep w' S' D' now (b + 13) /\ forall k, settled k -> balance pid create sp S' D' now k = balance pid create sp S D now k - taken uuid c k).
  { intros Hz. exists w, S, D. split; [reflexivity|]. split; [exact Hw'|]. intros k _. rewrite Hz. lia. }
  unfold CheckAndConsume, covered, covers, taken, cost_key in *. destruct ((ct_type c =? 0) || (ct_id c =? 0)) eqn:E0; [now apply Hstay|]. apply orb_false_iff in E0 as [_ E0]. apply Z.eqb_neq in E0.
  rewrite (proj2 (Z.leb_gt _ _)) by exact player. destruct (ct_type c =? REWARD_TYPE_ITEM).
  - apply andb_true_iff in Hcov as [Hle Hpos]. apply Z.leb_le in Hle. apply Z.ltb_lt in Hpos. destruct (ask_spec w S D t b now (ct_id c) Hw Hb ltac:(lia) Ht Hn ltac:(lia)) as (w1 & a & -> & Hw1 & Ha). cbn [mbind outcome_bind].
    destruct (balance_remove pid create sp S D now (ct_id c) (ct_value c) reason Hk ltac:(lia)) as (Hret & _ & Hbal); [intros r Hr; rewrite Hr in Ha; tauto|lia|exact Hpos|].
    cbn [balance call_spec snd] in Hle, Hpos. destruct (sp_items _ !! ct_id c) as [r|] eqn:Hi; [|lia]. destruct Ha as (Hz & Had & Hlim & v & Hv' & Hrow). apply Z.eqb_neq in Hz as ->. rewrite Hv'. cbn [deref mbind outcome_bind]. rewrite Hrow.
    rewrite (proj2 (Z.ltb_ge _ _)), (proj2 (Z.eqb_neq _ _)) by lia. cbn [orb].
    destruct (remove_spec_ok void pid sp types_ok _ _ _ _ now (ct_id c) a (ct_value c) reason (wr_items _ _ _ _ _ Hw1) ltac:(lia) ltac:(eauto) Had ltac:(lia)) as (s2 & -> & Hr2). cbn [mbind outcome_bind]. rewrite Hret. cbn [Z.eqb negb].
    eexists _, _, D. split; [reflexivity|]. split; [eapply wallet_items; [exact Hw1|eapply is_rep_mono; [exact Hr2|lia|lia]|lia]|]. intros k Hks. rewrite (Hbal k Hks). destruct (decide (KItem (ct_id c) = k)) as [<-|Hne].
    + now rewrite !bool_decide_true by reflexivity.
    + rewrite !bool_decide_false by congruence. reflexivity.
  - destruct (ct_type c =? REWARD_TYPE_HEROITEM) eqn:Eh; cbn [andb].
    + apply andb_true_iff in Hcov as [Hle Hpos]. rewrite Hpos. apply Z.leb_le in Hle. apply Z.ltb_lt in Hpos. cbn [balance] in Hle. rewrite !i32_small by lia. pose proof Hw as [_ (l & ul & Hh) Hm].
      pose proof (remove_called map_new map_new_ok map_new_empty malloc_map malloc_map_ok void malloc_hero _ _ _ _ _ _ _ now uuid (ct_id c) (ct_value c) Hh Hm ltac:(lia) ltac:(lia) ltac:(lia)) as Hcall.
      unfold item_called in Hcall. cbn [items_apply item_step] in Hcall. rewrite (proj2 (Z.ltb_ge _ _)), (proj2 (Z.eqb_neq _ _)), (proj2 (Z.leb_gt _ _)) in Hcall by lia.
      destruct (D !! number uuid (ct_id c)) as [[v0 st]|] eqn:E; [|cbn in Hle; lia]. cbn in Hle. rewrite (proj2 (Z.ltb_ge _ _)) in Hcall by lia. destruct Hcall as (h & l' & ul' & He & Hh' & Hm').
      destruct (hero_item_remove (hero_items w) now uuid (ct_id c) (ct_value c)) as [[h' r']| | |]; try discriminate He. injection He as -> ->. cbn [mbind outcome_bind Z.eqb negb].
      eexists _, _, _. split; [reflexivity|]. split; [eapply wallet_mono; [exact (wallet_heroes _ _ _ _ _ _ _ _ _ _ _ Hw Hh' Hm' ltac:(lia))|lia|lia]|]. intros k Hks.
      rewrite (balance_items pid create sp S) by (reflexivity || exact Hk). rewrite (balance_hero pid create sp S D now uuid (ct_id c) (ct_value c) v0 st ltac:(unfold two32; lia) E k Hks).
      destruct (decide (KHero uuid (ct_id c) = k)) as [<-|Hne]; [now rewrite !bool_decide_true by reflexivity|now rewrite !bool_decide_false by congruence].
    + apply andb_true_iff in Hcov as [Hcov _]. apply andb_true_iff in Hcov as [Hcov _]. apply Z.eqb_eq in Hcov. rewrite Hcov. apply Hstay. intros k. now rewrite bool_decide_false by discriminate.
Qed.

(** A cost that was looked for and is not there any more is refused, and nothing is taken. *)
Lemma consume_refused w S D t b now uuid c reason B0 : wallet_rep w S D t b -> 0 <= b -> b + 13 < 2 ^ 30 -> 0 <= t <= now -> now < 2 ^ 31 -> cost_fine c ->
  covers has_hero B0 uuid c = true -> covered pid create sp has_hero S D now uuid c = false ->
  exists w' r S', CheckAndConsume malloc pid create favor package w now (u32 (ct_type c)) (u32 (ct_id c)) uuid (u32 (ct_value c)) reason = Ret (w', r) /\ r <> 0 /\
    wallet_rep w' S' D now (b + 13) /\ same_balances pid create sp S S' D D now.
Proof.
  intros Hw Hb HbK Ht Hn Hc Hcov0 Hcov. pose proof (wallet_keyed _ _ _ _ _ Hw) as Hk. destruct Hc as (Hty & Hid & Hv & Hg). rewrite !u32_small by lia.
  unfold CheckAndConsume, covered, covers in *. destruct ((ct_type c =? 0) || (ct_id c =? 0)) eqn:E0; [discriminate|]. apply orb_false_iff in E0 as [_ E0]. apply Z.eqb_neq in E0.
  rewrite (proj2 (Z.leb_gt _ _)) by exact player. destruct (ct_type c =? REWARD_TYPE_ITEM).
  - destruct (ask_spec w S D t b now (ct_id c) Hw Hb ltac:(lia) Ht Hn ltac:(lia)) as (w1 & a & -> & Hw1 & Ha). cbn [mbind outcome_bind].
    pose proof (balance_get pid create sp S D now (ct_id c) Hk ltac:(lia)) as Hs. assert (Hw1' : wallet_rep w1 (spec_get pid create sp S now (ct_id c)) D now (b + 13)) by (eapply wallet_mono; [exact Hw1|lia|lia]).
    cbn [balance call_spec snd] in Hcov. destruct (sp_items (spec_get pid create sp S now (ct_id c)) !! ct_id c) as [r|] eqn:Hi.
    + destruct Ha as (Hz & _ & _ & v & Hv' & Hrow). apply Z.eqb_neq in Hz as ->. rewrite Hv'. cbn [deref mbind outcome_bind]. rewrite Hrow.
      assert ((it_limit r <? ct_value c) || (it_limit r =? 0) = true) as ->.
      { apply orb_true_iff. rewrite Z.ltb_lt, Z.eqb_eq. apply andb_false_iff in Hcov as [Hx|Hx]; [apply Z.leb_gt in Hx|apply Z.ltb_ge in Hx]; lia. }
      exists w1, RET_ITEM_NOT_ENOUGH, (spec_get pid create sp S now (ct_id c)). split; [reflexivity|]. split; [discriminate|]. split; [exact Hw1'|exact Hs].
    + subst a. cbn [Z.eqb]. exists w1, RET_ITEM_NOT_ENOUGH, (spec_get pid create sp S now (ct_id c)). split; [reflexivity|]. split; [discriminate|]. split; [exact Hw1'|exact Hs].
  - destruct (ct_type c =? REWARD_TYPE_HEROITEM) eqn:Eh; [|congruence]. cbn [andb]. apply andb_true_iff in Hcov0 as [_ Hpos]. rewrite Hpos in Hcov |- *. rewrite andb_true_r in Hcov. apply Z.leb_gt in Hcov. apply Z.ltb_lt in Hpos.
    rewrite !i32_small by lia. pose proof Hw as [_ (l & ul & Hh) Hm].
    pose proof (remove_called map_new map_new_ok map_new_empty malloc_map malloc_map_ok void malloc_hero _ _ _ _ _ _ _ now uuid (ct_id c) (ct_value c) Hh Hm ltac:(lia) ltac:(lia) ltac:(lia)) as Hcall.
    unfold item_called in Hcall. cbn [items_apply item_step] in Hcall. rewrite (proj2 (Z.ltb_ge _ _)), (proj2 (Z.eqb_neq _ _)), (proj2 (Z.leb_gt _ _)) in Hcall by lia. cbn [balance] in Hcov.
    assert (Hrefused : exists h l' ul', hero_item_remove (hero_items w) now uuid (ct_id c) (ct_value c) = Ret (h, -1) /\ hero_rep h pid (b + 1) l' ul' (sp_posts S) /\ hero_map h pid D).
    { destruct (D !! number uuid (ct_id c)) as [[v0 st]|]; [cbn in Hcov; rewrite (proj2 (Z.ltb_lt _ _)) in Hcall by lia|]; destruct Hcall as (h & l' & ul' & He & Hh' & Hm');
        (destruct (hero_item_remove (hero_items w) now uuid (ct_id c) (ct_value c)) as [[h' r']| | |]; try discriminate He); injection He as -> ->; eauto 8. }
    destruct Hrefused as (h & l' & ul' & -> & Hh' & Hm'). cbn [mbind outcome_bind Z.eqb negb].
    eexists _, RET_ERROR, _. split; [reflexivity|]. split; [discriminate|]. split; [eapply wallet_mono; [exact (wallet_heroes _ _ _ _ _ _ _ _ _ _ _ Hw Hh' Hm' ltac:(lia))|lia|lia]|]. intros k Hks.
    apply (balance_items pid create sp S); [reflexivity|exact Hk].
Qed.

Lemma covered_all S S' D D' now uuid costs : Forall cost_fine costs -> (forall c k, c ∈ costs -> cost_key uuid c = Some k -> balance pid create sp S' D' now k = balance pid create sp S D now k) ->
  forallb (covered pid create sp has_hero S' D' now uuid) costs = forallb (covered pid create sp has_hero S D now uuid) costs.
Proof.
  intros Hf Hs. induction Hf as [|c costs Hc Hf IH]; [reflexivity|]. cbn [forallb]. rewrite IH by (intros c' k Hc'; apply Hs; now right). f_equal. apply covered_same; [exact Hc|]. intros k. apply Hs. left.
Qed.
Lemma covered_asked S S' D now uuid costs : Forall cost_fine costs -> same_balances pid create sp S S' D D now ->
  forallb (covered pid create sp has_hero S' D now uuid) costs = forallb (covered pid create sp has_hero S D now uuid) costs.
Proof. intros Hf Hs. apply covered_all; [exact Hf|]. intros c k Hc Hk. apply Hs. exact (key_settled uuid c k (proj1 (list.Forall_forall _ _) Hf c Hc) Hk). Qed.

Lemma check_costs_spec costs : forall w S D t b now uuid, wallet_rep w S D t b -> 0 <= b -> b + 12 * zlen costs < 2 ^ 30 -> 0 <= t <= now -> now < 2 ^ 31 -> Forall cost_fine costs ->
  exists w' r S', check_costs malloc pid create favor has_hero w now uuid costs = Ret (w', r) /\ (r =? 0) = forallb (covered pid create sp has_hero S D now uuid) costs /\
    wallet_rep w' S' D now (b + 12 * zlen costs) /\ same_balances pid create sp S S' D D now.
Proof.
  induction costs as [|c costs IH]; intros w S D t b now uuid Hw Hb HbK Ht Hn Hf; cbn [check_costs forallb].
  - exists w, 0, S. split; [reflexivity|]. split; [reflexivity|]. split; [eapply wallet_mono; [exact Hw|lia|unfold zlen; cbn; lia]|apply same_refl].
  - apply list.Forall_cons in Hf as [Hc Hf]. rewrite zlen_cons in *. pose proof (zlen_nonneg costs). destruct (check_spec w S D t b now uuid c Hw Hb ltac:(lia) Ht Hn Hc) as (w1 & r & S1 & -> & Hr & Hw1 & Hs1). cbn [mbind outcome_bind].
    rewrite <- Hr. destruct (r =? 0) eqn:Er; cbn [negb andb].
    + destruct (IH w1 S1 D now (b + 12) now uuid Hw1 ltac:(lia) ltac:(lia) ltac:(lia) Hn Hf) as (w2 & r2 & S2 & -> & Hr2 & Hw2 & Hs2). exists w2, r2, S2. split; [reflexivity|]. split; [rewrite Hr2; now apply covered_asked|].
      split; [eapply wallet_mono; [exact Hw2|lia|lia]|]. intros k Hk. rewrite Hs2 by exact Hk. now apply Hs1.
    + exists w1, r, S1. split; [reflexivity|]. split; [exact Er|]. split; [eapply wallet_mono; [exact Hw1|lia|lia]|exact Hs1].
Qed.

Lemma consume_costs_spec costs : forall w S D t b now uuid reason, wallet_rep w S D t b -> 0 <= b -> b + 13 * zlen costs < 2 ^ 30 -> 0 <= t <= now -> now < 2 ^ 31 -> Forall cost_fine costs ->
  NoDup (omap (cost_key uuid) costs) -> forallb (covered pid create sp has_hero S D now uuid) costs = true ->
  exists w' S' D', consume_costs malloc pid create favor package w now uuid costs reason = Ret (w', 0) /\ wallet_rep w' S' D' now (b + 13 * zlen costs) /\
    forall k, settled k -> balance pid create sp S' D' now k = balance pid create sp S D now k - taken_by_all uuid costs k.
Proof.
  induction costs as [|c costs IH]; intros w S D t b now uuid reason Hw Hb HbK Ht Hn Hf Hnd Hcov; cbn [consume_costs forallb] in *.
  - exists w, S, D. split; [reflexivity|]. split; [eapply wallet_mono; [exact Hw|lia|unfold zlen; cbn; lia]|]. intros k _. cbn. lia.
  - apply list.Forall_cons in Hf as [Hc Hf]. rewrite zlen_cons in *. pose proof (zlen_nonneg costs). apply andb_true_iff in Hcov as [Hcov Hcovs].
    destruct (consume_spec w S D t b now uuid c reason Hw Hb ltac:(lia) Ht Hn Hc Hcov) as (w1 & S1 & D1 & -> & Hw1 & Hb1). cbn [mbind outcome_bind Z.eqb negb].
    assert (Hnd' : NoDup (omap (cost_key uuid) costs) /\ forall c', c' ∈ costs -> forall k, cost_key uuid c' = Some k -> taken uuid c k = 0).
    { cbn [omap list_omap] in Hnd. unfold taken. destruct (cost_key uuid c) as [k0|] eqn:E; [apply list.NoDup_cons in Hnd as [Hni Hnd]|]; (split; [exact Hnd|]; intros c' Hc' k Ek); rewrite bool_decide_false; try congruence.
      intros [= ->]. apply Hni. apply list_elem_of_omap. eauto. }
    destruct Hnd' as [Hnd' Hdis]. assert (Hcovs1 : forallb (covered pid create sp has_hero S1 D1 now uuid) costs = true).
    { rewrite <- Hcovs. apply covered_all; [exact Hf|]. intros c' k Hc' Hk. rewrite Hb1, (Hdis c' Hc' k Hk) by exact (key_settled uuid c' k (proj1 (list.Forall_forall _ _) Hf c' Hc') Hk). lia. }
    destruct (IH w1 S1 D1 now (b + 13) now uuid reason Hw1 ltac:(lia) ltac:(lia) ltac:(lia) Hn Hf Hnd' Hcovs1) as (w2 & S2 & D2 & -> & Hw2 & Hb2). exists w2, S2, D2. split; [reflexivity|].
    split; [eapply wallet_mono; [exact Hw2|lia|lia]|]. intros k Hk. rewrite Hb2, Hb1 by exact Hk. unfold taken_by_all. cbn [sum_of fold_right]. unfold sum_of. lia.
Qed.

(** What was looked for is taken as far as there is enough. *)
Lemma consume_prefix_spec costs : forall w S D t b now uuid reason B, wallet_rep w S D t b -> 0 <= b -> b + 13 * zlen costs < 2 ^ 30 -> 0 <= t <= now -> now < 2 ^ 31 -> Forall cost_fine costs ->
  (forall c, c ∈ costs -> exists B0, covers has_hero B0 uuid c = true) -> (forall k, settled k -> balance pid create sp S D now k = B k) ->
  let p := paid_prefix has_hero B uuid costs in
  exists w' r S' D', consume_costs malloc pid create favor package w now uuid costs reason = Ret (w', r) /\ (r =? 0) = (length p =? length costs)%nat /\ wallet_rep w' S' D' now (b + 13 * zlen costs) /\
    forall k, settled k -> balance pid create sp S' D' now k = B k - taken_by_all uuid p k.
Proof.
  induction costs as [|c costs IH]; intros w S D t b now uuid reason B Hw Hb HbK Ht Hn Hf Hk HB; cbn [consume_costs paid_prefix].
  - exists w, 0, S, D. split; [reflexivity|]. split; [reflexivity|]. split; [eapply wallet_mono; [exact Hw|lia|unfold zlen; cbn; lia]|]. intros k Hks. rewrite (HB k Hks). cbn. lia.
  - apply list.Forall_cons in Hf as [Hc Hf]. rewrite zlen_cons in *. pose proof (zlen_nonneg costs). destruct (Hk c ltac:(left)) as [B0 Hc0].
    assert (Hcb : covered pid create sp has_hero S D now uuid c = covers has_hero B uuid c) by (apply covers_ext; intros k Ek; apply HB, (key_settled uuid c k Hc Ek)).
    destruct (covers has_hero B uuid c) eqn:Ec.
    + destruct (consume_spec w S D t b now uuid c reason Hw Hb ltac:(lia) Ht Hn Hc Hcb) as (w1 & S1 & D1 & -> & Hw1 & Hb1). cbn [mbind outcome_bind Z.eqb negb].
      destruct (IH w1 S1 D1 now (b + 13) now uuid reason (fun k => B k - taken uuid c k) Hw1 ltac:(lia) ltac:(lia) ltac:(lia) Hn Hf) as (w2 & r & S2 & D2 & -> & Hr & Hw2 & Hb2).
      * intros c' Hc'. apply Hk. now right.
      * intros k Hks. rewrite Hb1, HB by exact Hks. reflexivity.
      * exists w2, r, S2, D2. split; [reflexivity|]. split; [exact Hr|]. split; [eapply wallet_mono; [exact Hw2|lia|lia]|]. intros k Hks. rewrite Hb2, taken_cons by exact Hks. lia.
    + destruct (consume_refused w S D t b now uuid c reason B0 Hw Hb ltac:(lia) Ht Hn Hc Hc0 Hcb) as (w1 & r & S1 & -> & Hr & Hw1 & Hs1). cbn [mbind outcome_bind]. apply Z.eqb_neq in Hr. rewrite Hr. cbn [negb].
      exists w1, r, S1, D. split; [reflexivity|]. split; [exact Hr|]. split; [eapply wallet_mono; [exact Hw1|lia|lia]|]. intros k Hks. rewrite Hs1, HB by exact Hks. cbn. lia.
Qed.

(** Some costs are looked for, and some of them taken. *)
Lemma costs_paid w S D t b now uuid checked costs reason : wallet_rep w S D t b -> 0 <= b -> b + 12 * zlen checked + 13 * zlen costs < 2 ^ 30 -> 0 <= t <= now -> now < 2 ^ 31 ->
  Forall cost_fine checked -> incl costs checked -> NoDup (omap (cost_key uuid) costs) ->
  let paid := forallb (covered pid create sp has_hero S D now uuid) checked in
  exists w1 r, check_costs malloc pid create favor has_hero w now uuid checked = Ret (w1, r) /\ (r =? 0) = paid /\
    (exists S1, wallet_rep w1 S1 D now (b + 12 * zlen checked) /\ same_balances pid create sp S S1 D D now) /\
    (paid = true -> exists w2 S2 D2, consume_costs malloc pid create favor package w1 now uuid costs reason = Ret (w2, 0) /\ wallet_rep w2 S2 D2 now (b + 12 * zlen checked + 13 * zlen costs) /\
      forall k, settled k -> balance pid create sp S2 D2 now k = balance pid create sp S D now k - taken_by_all uuid costs k).
Proof.
  intros Hw Hb HbK Ht Hn Hf Hi Hnd paid. pose proof (zlen_nonneg checked). pose proof (zlen_nonneg costs). destruct (check_costs_spec checked w S D t b now uuid Hw Hb ltac:(lia) Ht Hn Hf) as (w1 & r & S1 & He & Hr & Hw1 & Hs1).
  exists w1, r. split; [exact He|]. split; [exact Hr|]. split; [eauto|]. intros Hp. assert (Hf' : Forall cost_fine costs) by (apply list.Forall_forall; intros c Hc; apply (proj1 (list.Forall_forall _ _) Hf), list_elem_of_In, Hi, list_elem_of_In, Hc).
  assert (Hcov : forallb (covered pid create sp has_hero S1 D now uuid) costs = true).
  { rewrite (covered_asked S S1) by assumption. unfold paid in Hp. rewrite forallb_forall in Hp |- *. intros c Hc. apply Hp, Hi, Hc. }
  destruct (consume_costs_spec costs w1 S1 D now _ now uuid reason Hw1 ltac:(lia) HbK ltac:(lia) Hn Hf' Hnd Hcov) as (w2 & S2 & D2 & He2 & Hw2 & Hb2). exists w2, S2, D2. split; [exact He2|]. split; [exact Hw2|].
  intros k Hk. rewrite Hb2, Hs1 by exact Hk. reflexivity.
Qed.

Lemma no_check (w : state) now c : (if negb (ct_type c =? 0) then CheckForConsume malloc pid create favor has_hero w now (u32 (ct_type c)) (u32 (ct_id c)) 0 (u32 (ct_value c)) else Ret (w, 0)) =
  CheckForConsume malloc pid create favor has_hero w now (u32 (ct_type c)) (u32 (ct_id c)) 0 (u32 (ct_value c)).
Proof. destruct (Z.eqb_spec (ct_type c) 0) as [->|]; reflexivity. Qed.
Lemma no_consume (w : state) now c reason : (if negb (ct_type c =? 0) then CheckAndConsume malloc pid create favor package w now (u32 (ct_type c)) (u32 (ct_id c)) 0 (u32 (ct_value c)) reason else Ret (w, 0)) =
  CheckAndConsume malloc pid create favor package w now (u32 (ct_type c)) (u32 (ct_id c)) 0 (u32 (ct_value c)) reason.
Proof. destruct (Z.eqb_spec (ct_type c) 0) as [->|]; reflexivity. Qed.

(** The costs of a fight: three are looked for, and two of them taken when the fight is one to pay for. *)
Definition battle_costs (battle : option cost) : list cost := match battle with Some c => [c] | None => [] end.
Lemma fight_costs (w : state) now battle check own consume reason :
  pve_fight_consume malloc pid create favor package has_hero w now battle check own consume reason =
  '(w, r) ← check_costs malloc pid create favor has_hero w now 0 (battle_costs battle ++ [check; own]);
  if negb (r =? 0) then Ret (w, RET_NOT_ENOUGH)
  else if negb consume then Ret (w, 0)
  else '(w, r) ← consume_costs malloc pid create favor package w now 0 (battle_costs battle ++ [own]) reason; Ret (w, if negb (r =? 0) then RET_NOT_ENOUGH else 0).
Proof.
  unfold pve_fight_consume. cbv zeta. destruct battle as [c|], consume; cbn [battle_costs app check_costs consume_costs negb mbind outcome_bind Z.eqb];
    repeat (rewrite ?no_check, ?no_consume;
      match goal with |- mbind _ ?o = _ => let w' := fresh in let r := fresh in let E := fresh in destruct o as [[w' r]| | |]; cbn [mbind outcome_bind negb Z.eqb]; [|reflexivity..]; destruct (r =? 0) eqn:E; cbn [mbind outcome_bind negb Z.eqb]; rewrite ?E end; try reflexivity).
Qed.

Lemma fight_paid w S D t b now battle check own consume reason : wallet_rep w S D t b -> 0 <= b -> b + 75 < 2 ^ 30 -> 0 <= t <= now -> now < 2 ^ 31 ->
  Forall cost_fine (battle_costs battle ++ [check; own]) -> NoDup (omap (cost_key 0) (battle_costs battle ++ [own])) ->
  let paid := forallb (covered pid create sp has_hero S D now 0) (battle_costs battle ++ [check; own]) in
  exists w' S' D', pve_fight_consume malloc pid create favor package has_hero w now battle check own consume reason = Ret (w', if paid then 0 else RET_NOT_ENOUGH) /\ wallet_rep w' S' D' now (b + 75) /\
    forall k, settled k -> balance pid create sp S' D' now k = balance pid create sp S D now k - (if paid && consume then taken_by_all 0 (battle_costs battle ++ [own]) k else 0).
Proof.
  intros Hw Hb HbK Ht Hn Hf Hnd paid. rewrite fight_costs. assert (Hlen : zlen (battle_costs battle ++ [check; own]) <= 3 /\ zlen (battle_costs battle ++ [own]) <= 2) by (destruct battle; split; unfold zlen; cbn; lia).
  destruct (costs_paid w S D t b now 0 (battle_costs battle ++ [check; own]) (battle_costs battle ++ [own]) reason Hw Hb ltac:(lia) Ht Hn Hf) as (w1 & r & -> & Hr & (S1 & Hw1 & Hs1) & Hpay); [|exact Hnd|].
  { intros c Hc. apply in_app_iff in Hc as [Hc|[<-|[]]]; apply in_app_iff; [now left|right; right; now left]. }
  cbn [mbind outcome_bind]. fold paid in Hr, Hpay. rewrite Hr. assert (Hw1' : wallet_rep w1 S1 D now (b + 75)) by (eapply wallet_mono; [exact Hw1|lia|lia]).
  assert (Hs1' : forall k, settled k -> balance pid create sp S1 D now k = balance pid create sp S D now k - 0) by (intros k Hk; rewrite Hs1 by exact Hk; lia).
  destruct paid; cbn [negb andb]; [destruct consume; cbn [negb]|]; [|eauto 8..]. destruct (Hpay eq_refl) as (w2 & S2 & D2 & -> & Hw2 & Hb2). cbn [mbind outcome_bind Z.eqb negb]. exists w2, S2, D2. split; [reflexivity|].
  split; [eapply wallet_mono; [exact Hw2|lia|lia]|exact Hb2].
Qed.

(** Everything there is of an item is taken. *)
Lemma all_consumed w S D t b now id uuid reason : wallet_rep w S D t b -> 0 <= b -> b + 13 < 2 ^ 30 -> 0 <= t <= now -> now < 2 ^ 31 -> 0 <= id < 2 ^ 32 ->
  exists w' S', TryConsumeAll malloc pid create favor w now REWARD_TYPE_ITEM id uuid reason = Ret (w', 0) /\ wallet_rep w' S' D now (b + 13) /\
    forall k, settled k -> balance pid create sp S' D now k = if bool_decide (KItem id = k) then 0 else balance pid create sp S D now k.
Proof.
  intros Hw Hb HbK Ht Hn Hid. pose proof (wallet_keyed _ _ _ _ _ Hw) as Hk. pose proof (balance_get pid create sp S D now id Hk ltac:(lia)) as Hs. unfold TryConsumeAll. cbn [REWARD_TYPE_ITEM Z.eqb Pos.eqb].
  destruct (ask_spec w S D t b now id Hw Hb ltac:(lia) Ht Hn Hid) as (w1 & a & -> & Hw1 & Ha). cbn [mbind outcome_bind]. assert (Hbal : balance pid create sp S D now (KItem id) = match sp_items (spec_get pid create sp S now id) !! id with Some r => it_limit r | None => 0 end) by reflexivity.
  destruct (sp_items (spec_get pid create sp S now id) !! id) as [r|] eqn:Hi.
  - destruct Ha as (Hz & Had & Hlim & v & Hv & Hrow). apply Z.eqb_neq in Hz as ->. rewrite Hv. cbn [deref mbind outcome_bind]. rewrite Hrow. destruct (is_rep_record _ _ _ _ _ _ _ _ _ (wr_items _ _ _ _ _ Hw1) Hi) as [[_ _ Hlr _] _].
    destruct (remove_spec_ok void pid sp types_ok _ _ _ _ now id a (it_limit r) reason (wr_items _ _ _ _ _ Hw1) ltac:(lia) ltac:(eauto) Had ltac:(lia)) as (s2 & -> & Hr2). cbn [mbind outcome_bind].
    eexists _, _. split; [reflexivity|]. split; [eapply wallet_items; [exact Hw1|eapply is_rep_mono; [exact Hr2|lia|lia]|lia]|]. intros k Hks. destruct (Z.eqb_spec (it_limit r) 0) as [E0|E0].
    + rewrite E0. unfold spec_remove. rewrite Hi. cbn [Z.eqb fst]. rewrite Hs by exact Hks. destruct (decide (KItem id = k)) as [<-|Hne]; [rewrite bool_decide_true by reflexivity; lia|now rewrite bool_decide_false].
    + destruct (balance_remove pid create sp S D now id (it_limit r) reason Hk ltac:(lia)) as (_ & _ & Hb2); [congruence|lia|lia|]. rewrite Hb2 by exact Hks. destruct (decide (KItem id = k)) as [<-|Hne]; [rewrite bool_decide_true by reflexivity; lia|rewrite bool_decide_false by exact Hne; lia].
  - subst a. cbn [Z.eqb]. exists w1, (spec_get pid create sp S now id). split; [reflexivity|]. split; [eapply wallet_mono; [exact Hw1|lia|lia]|]. intros k Hks. rewrite Hs by exact Hks.
    destruct (decide (KItem id = k)) as [<-|Hne]; [rewrite bool_decide_true by reflexivity; lia|now rewrite bool_decide_false].
Qed.

(** What the player gets. *)
Lemma wallet_add w S D t b now id limit reason : wallet_rep w S D t b -> 0 <= b -> b + 16 < 2 ^ 30 -> 0 <= t <= now -> now < 2 ^ 31 -> 0 <= id < 2 ^ 32 -> 0 <= limit < 2 ^ 32 ->
  exists s a, item_add malloc pid create favor (wl_items w) now id limit reason = Ret (s, a) /\ wallet_rep (with_items w s) (spec_add pid create sp S now id limit reason) D now (b + 16).
Proof.
  intros Hw Hb HbK Ht Hn Hid Hl. destruct (add_spec_ok void malloc malloc_ok pid create sp types_ok inserts favor no_favor _ _ _ _ now id limit reason (wr_items _ _ _ _ _ Hw) Hb HbK Ht Hn Hid Hl) as (s & a & He & Hr & _).
  exists s, a. split; [exact He|]. eapply wallet_items; [exact Hw|exact Hr|lia].
Qed.
Lemma wallet_hero_add w S D t b now uuid id v st : (forall h, h !! malloc_hero h = None /\ malloc_hero h <> 0 /\ malloc_hero h <> void) -> inserts_ok hero_item_key fst (W := W2) ->
  wallet_rep w S D t b -> 0 <= b < 2 ^ 60 -> 0 < id < 2 ^ 31 -> 0 < v < 2 ^ 31 -> D !! number uuid id = None ->
  exists h, hero_item_add map_new malloc_map malloc_hero (hero_items w) now pid uuid id v st = Ret (h, 0) /\
    wallet_rep (with_hero_items w h) (mk_sp (sp_items S) (sp_totals S) (enter (sp_posts S) (item_post (item_row pid (number uuid id) (v, u32 st)))) (sp_events S)) (<[number uuid id := (v, u32 st)]> D) t (b + 1).
Proof.
  intros Hmal Hins Hw Hb Hid Hv Hn. pose proof Hw as [_ (l & ul & Hh) Hm].
  pose proof (add_called map_new map_new_ok map_new_empty malloc_map malloc_map_ok void malloc_hero Hmal _ _ _ _ _ _ _ now uuid id v st Hh Hm Hb Hins ltac:(lia) ltac:(lia)) as Hc.
  unfold item_called in Hc. cbn [items_apply item_step] in Hc. rewrite (proj2 (Z.ltb_ge _ _)), (proj2 (Z.eqb_neq _ _)), (proj2 (Z.leb_gt _ _)), Hn in Hc by lia. destruct Hc as (h & l' & ul' & He & Hh' & Hm').
  destruct (hero_item_add map_new malloc_map malloc_hero (hero_items w) now pid uuid id v st) as [[h' r']| | |]; try discriminate He. injection He as -> ->. exists h. split; [reflexivity|].
  eapply wallet_heroes; [exact Hw|exact Hh'|exact Hm'|lia].
Qed.

(** *** Packages *)

(** The first item of a package of which there is enough, and how much is needed. *)
Fixpoint package_choice (S : item_spec) (D : gmap Z (Z * Z)) (now : Z) (l : list CITEM) (value : Z) : option (Z * Z) :=
  match l with
  | [] => None
  | item :: l' =>
    let id := u32 (i32 (ci_id item)) in
    let need := u32 (i32 (i32 (ci_value item) * value)) in
    let has := balance pid create sp S D now (KItem id) in
    if (i32 (ci_type item) =? REWARD_TYPE_ITEM) && (need <=? has) && (0 <? has) then Some (id, need) else package_choice S D now l' value
  end.
Definition package_fine (l : list CITEM) : Prop := Forall (fun item => u32 (i32 (ci_id item)) <> GROW_ITEM) l.
Definition taken_of (choice : option (Z * Z)) (k : holding) : Z := match choice with Some (id, need) => if bool_decide (KItem id = k) then need else 0 | None => 0 end.

Lemma package_choice_same S S' D now l value : same_balances pid create sp S S' D D now -> package_fine l -> package_choice S' D now l value = package_choice S D now l value.
Proof. intros Hs Hf. induction Hf as [|x l Hx Hf IH]; [reflexivity|]. cbn [package_choice]. now rewrite IH, (Hs (KItem _) Hx). Qed.

(** What is done with the item that is found takes [amount] of what is needed. *)
Definition takes (take : state -> Z -> Z -> outcome state) (now : Z) (amount : Z -> Z) : Prop :=
  forall w S D b id a need r, keyed (sp_items S) -> wallet_rep w (spec_get pid create sp S now id) D now b -> 0 <= b < 2 ^ 30 -> sp_items (spec_get pid create sp S now id) !! id = Some r ->
    addr (is_set (wl_items w)) id = Some a -> it_limit r < 2 ^ 32 -> 0 <= need <= it_limit r -> 0 < it_limit r ->
  exists w' S', take w a need = Ret w' /\ wallet_rep w' S' D now (b + 1) /\ forall k, settled k -> balance pid create sp S' D now k = balance pid create sp S D now k - (if bool_decide (KItem id = k) then amount need else 0).

Lemma looking_takes now : 0 <= now < 2 ^ 31 -> takes (fun w _ _ => Ret w) now (fun _ => 0).
Proof.
  intros Hn w S D b id a need r Hk Hw Hb Hi Ha Hlim Hnd Hp. exists w, (spec_get pid create sp S now id). split; [reflexivity|]. split; [eapply wallet_mono; [exact Hw|lia|lia]|]. intros k Hks.
  rewrite (balance_get pid create sp S D now id Hk Hn k Hks). destruct (bool_decide _); lia.
Qed.
Lemma removing_takes now reason : 0 <= now < 2 ^ 31 -> takes (fun w item need => '(s, _) ← item_remove (wl_items w) now item need reason; Ret (with_items w s)) now (fun need => need).
Proof.
  intros Hn w S D b id a need r Hk Hw Hb Hi Ha Hlim Hnd Hp. assert (Hbal : balance pid create sp S D now (KItem id) = it_limit r) by (cbn [balance call_spec snd]; now rewrite Hi).
  destruct (balance_remove pid create sp S D now id need reason Hk Hn) as (_ & _ & Hb2); [congruence|lia|lia|].
  destruct (remove_spec_ok void pid sp types_ok _ _ _ _ now id a need reason (wr_items _ _ _ _ _ Hw) ltac:(lia) ltac:(eauto) Ha ltac:(lia)) as (s2 & -> & Hr2). cbn [mbind outcome_bind].
  eexists _, _. split; [reflexivity|]. split; [eapply wallet_items; [exact Hw|exact Hr2|lia]|exact Hb2].
Qed.

Lemma package_loop_spec take now amount value l : takes take now amount -> 0 <= now < 2 ^ 31 -> forall w S D t b, wallet_rep w S D t b -> 0 <= b -> b + 13 * zlen l < 2 ^ 30 -> 0 <= t <= now -> package_fine l ->
  let choice := package_choice S D now l value in
  exists w' S', package_loop malloc pid create favor take w now l value = Ret (w', match choice with Some _ => 1 | None => -1 end) /\ wallet_rep w' S' D now (b + 13 * zlen l) /\
    forall k, settled k -> balance pid create sp S' D now k = balance pid create sp S D now k - taken_of ((fun c => (fst c, amount (snd c))) <$> choice) k.
Proof.
  intros Htake Hn. induction l as [|item l IH]; intros w S D t b Hw Hb HbK Ht Hf; cbn [package_loop package_choice].
  - exists w, S. split; [reflexivity|]. split; [eapply wallet_mono; [exact Hw|lia|unfold zlen; cbn; lia]|]. intros k _. cbn. lia.
  - apply list.Forall_cons in Hf as [Hid Hf]. rewrite zlen_cons in *. pose proof (zlen_nonneg l). pose proof (wallet_keyed _ _ _ _ _ Hw) as Hk. destruct (i32 (ci_type item) =? REWARD_TYPE_ITEM); cbn [andb].
    2: { destruct (IH w S D t b Hw Hb ltac:(lia) Ht Hf) as (w' & S' & He & Hw' & Hbal). exists w', S'. split; [exact He|]. split; [eapply wallet_mono; [exact Hw'|lia|lia]|exact Hbal]. }
    set (id := u32 (i32 (ci_id item))) in *. set (need := u32 (i32 (i32 (ci_value item) * value))). pose proof (u32_range (i32 (i32 (ci_value item) * value))) as Hneed. fold need in Hneed.
    destruct (ask_spec w S D t b now id Hw Hb ltac:(lia) Ht ltac:(lia) (u32_range _)) as (w1 & a & -> & Hw1 & Ha). cbn [mbind outcome_bind]. pose proof (balance_get pid create sp S D now id Hk ltac:(lia)) as Hs.
    assert (Hrest : exists w' S', package_loop malloc pid create favor take w1 now l value = Ret (w', match package_choice S D now l value with Some _ => 1 | None => -1 end) /\ wallet_rep w' S' D now (b + 13 * (1 + zlen l)) /\
      forall k, settled k -> balance pid create sp S' D now k = balance pid create sp S D now k - taken_of ((fun c => (fst c, amount (snd c))) <$> package_choice S D now l value) k).
    { pose proof (package_choice_same S _ D now l value Hs Hf) as Hch.
      destruct (IH w1 _ D now (b + 12) Hw1 ltac:(lia) ltac:(lia) ltac:(lia) Hf) as (w' & S' & He & Hw' & Hbal). rewrite Hch in He, Hbal. exists w', S'. split; [exact He|]. split; [eapply wallet_mono; [exact Hw'|lia|lia]|].
      intros k Hks. rewrite Hbal, Hs by exact Hks. reflexivity. }
    destruct (sp_items (spec_get pid create sp S now id) !! id) as [r|] eqn:Hi.
    + destruct Ha as (Hz & Had & Hlim & v & Hv & Hrow). apply Z.eqb_neq in Hz as ->. rewrite Hv. cbn [deref mbind outcome_bind]. rewrite Hrow.
      assert (Hbal : balance pid create sp S D now (KItem id) = it_limit r) by (cbn [balance call_spec snd]; now rewrite Hi). rewrite Hbal.
      destruct (Z.ltb_spec (it_limit r) need), (Z.leb_spec need (it_limit r)), (Z.eqb_spec (it_limit r) 0), (Z.ltb_spec 0 (it_limit r)); cbn [orb andb]; try lia; try exact Hrest.
      destruct (Htake w1 S D (b + 12) id a need r Hk Hw1 ltac:(lia) Hi Had Hlim ltac:(lia) ltac:(lia)) as (w2 & S2 & -> & Hw2 & Hb2). cbn [mbind outcome_bind]. exists w2, S2. split; [reflexivity|].
      split; [eapply wallet_mono; [exact Hw2|lia|lia]|exact Hb2].
    + subst a. cbn [Z.eqb]. assert (Hbal : balance pid create sp S D now (KItem id) = 0) by (cbn [balance call_spec snd]; now rewrite Hi). rewrite Hbal. rewrite andb_false_r. exact Hrest.
Qed.

(** Paying with a package takes its first item of which there is enough, and fails when there is none. *)
Lemma package_paid w S D t b now id uuid value reason l : wallet_rep w S D t b -> 0 <= b -> b + 26 * zlen l < 2 ^ 30 -> 0 <= t <= now -> now < 2 ^ 31 -> 0 < id -> 0 < value -> package (i32 id) = Ret (Some l) -> package_fine l ->
  let choice := package_choice S D now l (i32 value) in
  exists w' S', CheckAndConsume malloc pid create favor package w now CONSUME_ITEM_PACKAGE id uuid value reason = Ret (w', match choice with Some _ => 0 | None => RET_ERROR end) /\ wallet_rep w' S' D now (b + 26 * zlen l) /\
    forall k, settled k -> balance pid create sp S' D now k = balance pid create sp S D now k - taken_of choice k.
Proof.
  intros Hw Hb HbK Ht Hn Hid Hv Hl Hf choice. pose proof (zlen_nonneg l). unfold CheckAndConsume. rewrite (proj2 (Z.eqb_neq id 0)), (proj2 (Z.leb_gt _ _)) by (exact player || lia). cbn [CONSUME_ITEM_PACKAGE REWARD_TYPE_ITEM REWARD_TYPE_HEROITEM Z.eqb Pos.eqb orb andb].
  rewrite (proj2 (Z.ltb_lt _ _)) by exact Hv. unfold check_for_consume_item_package, consume_for_consume_item_package. rewrite Hl. cbn [mbind outcome_bind].
  destruct (package_loop_spec _ now _ (i32 value) l (looking_takes now ltac:(lia)) ltac:(lia) w S D t b Hw Hb ltac:(lia) Ht Hf) as (w1 & S1 & -> & Hw1 & Hb1). cbn [mbind outcome_bind]. fold choice in Hb1 |- *.
  assert (Hs : same_balances pid create sp S S1 D D now).
  { intros k Hks. rewrite Hb1 by exact Hks. destruct choice as [[i need]|]; cbn; [destruct (bool_decide _)|]; lia. }
  destruct choice as [[i need]|] eqn:Ech; cbn [Z.ltb Z.compare].
  - destruct (package_loop_spec _ now _ (i32 value) l (removing_takes now reason ltac:(lia)) ltac:(lia) w1 S1 D now (b + 13 * zlen l) Hw1 ltac:(lia) ltac:(lia) ltac:(lia) Hf) as (w2 & S2 & -> & Hw2 & Hb2). cbn [mbind outcome_bind].
    rewrite (package_choice_same S S1 D now l _ Hs Hf) in Hb2 |- *. fold choice in Hb2 |- *. rewrite Ech in Hb2 |- *. cbn [Z.eqb]. exists w2, S2. split; [reflexivity|]. split; [eapply wallet_mono; [exact Hw2|lia|lia]|].
    intros k Hks. rewrite Hb2, Hs by exact Hks. reflexivity.
  - exists w1, S1. split; [reflexivity|]. split; [eapply wallet_mono; [exact Hw1|lia|lia]|]. intros k Hks. rewrite Hs by exact Hks. cbn. lia.
Qed.
End Theorems.

(** *** Costs that are added up *)

Definition cost_pair (c : cost) : Z * Z := (ct_type c, ct_id c).
(** An array of costs with [n] slots left. *)
Definition slots (l : list cost) (n : nat) : list cost := l ++ replicate n (mk_cost 0 0 0).
Definition amount_for (p : Z * Z) (l : list cost) : Z := sum_of (fun c => if bool_decide (cost_pair c = p) then ct_value c else 0) l.
Definition distinct_costs (l : list cost) : Prop := Forall (fun c => ct_type c <> 0) l /\ NoDup (cost_pair <$> l).

Lemma amount_absent p l : p ∉ cost_pair <$> l -> amount_for p l = 0.
Proof.
  induction l as [|c l IH]; [reflexivity|]. intros Hn. rewrite fmap_cons, not_elem_of_cons in Hn. destruct Hn as [Hc Hl]. unfold amount_for in *. cbn [sum_of fold_right]. rewrite bool_decide_false by congruence. exact (IH Hl).
Qed.
Lemma add_cost_slots l n c count : distinct_costs l -> ct_type c <> 0 -> (0 < n)%nat ->
  exists l' n', add_cost (slots l n) c count = slots l' n' /\ (length l' + n' = length l + n)%nat /\ distinct_costs l' /\ (forall p, p ∈ cost_pair <$> l' <-> p = cost_pair c \/ p ∈ cost_pair <$> l) /\
    forall p, amount_for p l' = if bool_decide (p = cost_pair c) then i32 (amount_for p l + i32 (ct_value c * count)) else amount_for p l.
Proof.
  intros [Ht Hnd] Hc Hn. induction l as [|d l IH]; cbn [add_cost slots app].
  - destruct n as [|n]; [lia|]. cbn [replicate add_cost]. rewrite orb_true_r. set (c' := mk_cost (ct_type c) (ct_id c) _). exists [c'], n. split; [reflexivity|]. split; [cbn; lia|]. split; [split; [repeat constructor; exact Hc|apply NoDup_singleton]|]. split.
    + intros p. rewrite fmap_cons, elem_of_cons, elem_of_nil. change (cost_pair c') with (cost_pair c). reflexivity.
    + intros p. unfold amount_for. cbn [sum_of fold_right]. change (cost_pair c') with (cost_pair c). destruct (decide (p = cost_pair c)) as [->|Hne]; [rewrite !bool_decide_true by reflexivity; cbn; lia|rewrite !bool_decide_false by congruence; reflexivity].
  - apply list.Forall_cons in Ht as [Hd Ht]. rewrite fmap_cons in Hnd. apply list.NoDup_cons in Hnd as [Hnin Hnd]. apply Z.eqb_neq in Hd as Hd'. rewrite Hd', orb_false_r. destruct ((ct_type d =? ct_type c) && (ct_id d =? ct_id c)) eqn:E.
    + apply andb_true_iff in E as [E1 E2]. apply Z.eqb_eq in E1, E2. assert (Ep : cost_pair d = cost_pair c) by (unfold cost_pair; congruence). set (c' := mk_cost (ct_type c) (ct_id c) _). assert (Ep' : cost_pair c' = cost_pair d) by (symmetry; exact Ep).
      exists (c' :: l), n. split; [reflexivity|]. split; [reflexivity|]. split; [split; [constructor; [exact Hc|exact Ht]|rewrite fmap_cons, Ep'; now constructor]|]. split.
      * intros p. rewrite !fmap_cons, !elem_of_cons, Ep', Ep. tauto.
      * intros p. unfold amount_for. cbn [sum_of fold_right]. rewrite Ep', Ep. fold (sum_of (fun c => if bool_decide (cost_pair c = p) then ct_value c else 0) l). fold (amount_for p l). destruct (decide (p = cost_pair c)) as [->|Hne].
        -- rewrite !bool_decide_true by reflexivity. rewrite Ep in Hnin. rewrite (amount_absent _ _ Hnin). cbn [ct_value c']. now rewrite !Z.add_0_r.
        -- now rewrite !bool_decide_false by congruence.
    + destruct (IH Ht Hnd) as (l' & n' & He & Hlen & [Ht' Hnd'] & Hin & Ham). fold (slots l n). assert (Hne : cost_pair d <> cost_pair c) by (intros [= E1 E2]; rewrite E1, E2, !Z.eqb_refl in E; discriminate).
      exists (d :: l'), n'. rewrite He. split; [reflexivity|]. split; [cbn; lia|]. split; [split; [now constructor|]; rewrite fmap_cons; constructor; [rewrite Hin; intros [?|?]; [congruence|contradiction]|exact Hnd']|]. split.
      * intros p. rewrite !fmap_cons, !elem_of_cons, Hin. tauto.
      * intros p. specialize (Ham p). unfold amount_for in *. cbn [sum_of fold_right]. fold (sum_of (fun c => if bool_decide (cost_pair c = p) then ct_value c else 0) l'). fold (sum_of (fun c => if bool_decide (cost_pair c = p) then ct_value c else 0) l).
        rewrite Ham. destruct (decide (p = cost_pair c)) as [->|Hp]; [rewrite (bool_decide_false (cost_pair d = _)) by exact Hne; rewrite !Z.add_0_l; reflexivity|now rewrite (bool_decide_false (p = _)) by exact Hp].
Qed.

(** Such costs can be paid together. *)
Lemma distinct_keys uuid l n : distinct_costs l -> NoDup (omap (cost_key uuid) (slots l n)).
Proof.
  intros [Ht Hnd]. unfold slots. rewrite omap_app. replace (omap (cost_key uuid) (replicate n (mk_cost 0 0 0))) with (@nil holding) by (induction n as [|n IH]; [reflexivity|exact IH]). rewrite app_nil_r. clear Ht n.
  induction l as [|c l IH]; [constructor|]. rewrite fmap_cons in Hnd. apply list.NoDup_cons in Hnd as [Hn Hnd]. cbn [omap list_omap]. destruct (cost_key uuid c) as [k|] eqn:E; [|exact (IH Hnd)]. constructor; [|exact (IH Hnd)].
  intros Hk. apply list_elem_of_omap in Hk as (c' & Hc' & E'). apply Hn. apply list_elem_of_fmap. exists c'. split; [|exact Hc']. unfold cost_key, cost_pair in *.
  destruct ((ct_type c =? 0) || _), ((ct_type c' =? 0) || _); try discriminate. destruct (Z.eqb_spec (ct_type c) REWARD_TYPE_ITEM), (Z.eqb_spec (ct_type c') REWARD_TYPE_ITEM), (Z.eqb_spec (ct_type c) REWARD_TYPE_HEROITEM), (Z.eqb_spec (ct_type c') REWARD_TYPE_HEROITEM); congruence.
Qed.

(** C16: Several costs are looked for first, and then taken.  The functions that first look for every cost and then
    take every cost return RET_NOT_ENOUGH when one of the costs, by itself, cannot be paid, and then nothing is taken.
    Otherwise the costs are taken one after the other as far as there is still enough: the result is 0 when all
    were taken and the function's code for a failure otherwise, and the player, if asked at that time, has less of
    everything by exactly what was taken.  All are taken, so that it is all or nothing, when no two costs are for the same thing or when there is enough of
    everything for all of them together; otherwise a part can be taken and the call still fail ([same_item_twice]).
    (None of the costs is the item that counts growth; the numbers are those of a configuration; the player is none
    that only the program plays; no item has a favor.) *)
Theorem payments_all_or_nothing {W M G C N W2 : Type} `{Database Item W} `{!DatabaseLaws Item (Z * Z) W player_item_key fst} `{PtrMapLaws M} `{GL : GrowthLaws G} `{CM : !Compensator C G} `{CL : !CompensatorLaws C G} `{NotifierLaws N}
    `{Database HeroItem W2} `{!DatabaseLaws HeroItem (Z * Z) W2 hero_item_key fst}
    (map_new : M) (map_new_ok : pm_ok map_new) (map_new_empty : pm_abs map_new = ∅) (malloc_map : gmap Z M -> Z) (malloc_map_ok : forall h, h !! malloc_map h = None /\ malloc_map h <> 0)
    (void : Z) (malloc : gmap Z (datum Item) -> Z) pid create sp (favor : Z -> option (Z * list Z)) (package : Z -> outcome (option (list CITEM))) (has_hero : Z -> bool)
    (w : wallet W M G C N W2) S D t b now uuid costs reason failed :
  (forall h, h !! malloc h = None /\ malloc h <> 0 /\ malloc h <> void) -> inserts_ok player_item_key fst (W := W) -> (forall id, 0 <= sp_type sp id < 2 ^ 31) -> (forall id, favor id = None) -> AI_MAX_ID < pid ->
  wallet_rep map_new map_new_ok map_new_empty malloc_map malloc_map_ok void pid sp w S D t b -> 0 <= b -> b + 25 * zlen costs < 2 ^ 30 -> 0 <= t <= now -> now < 2 ^ 31 ->
  Forall cost_fine costs ->
  let B := balance pid create sp S D now in
  let checked := forallb (covers has_hero B uuid) costs in
  let p := if checked then paid_prefix has_hero B uuid costs else [] in
  exists w' S' D', pay_costs malloc pid create favor package has_hero w now uuid costs reason failed =
      Ret (w', if checked then if (length p =? length costs)%nat then 0 else failed else RET_NOT_ENOUGH) /\
    wallet_rep map_new map_new_ok map_new_empty malloc_map malloc_map_ok void pid sp w' S' D' now (b + 25 * zlen costs) /\
    (forall k, settled k -> balance pid create sp S' D' now k = B k - taken_by_all uuid p k) /\
    (checked = true -> NoDup (omap (cost_key uuid) costs) \/ enough B uuid costs -> p = costs).
Proof.
  intros Hmal Hins Hty Hfav Hpl Hw Hb HbK Ht Hn Hf B checked p. unfold pay_costs. pose proof (zlen_nonneg costs).
  destruct (check_costs_spec map_new map_new_ok map_new_empty malloc_map malloc_map_ok void malloc Hmal fresh_address pid create sp Hty Hins favor Hfav has_hero costs w S D t b now uuid Hw Hb ltac:(lia) Ht Hn Hf)
    as (w1 & r & S1 & -> & Hr & Hw1 & Hs1). cbn [mbind outcome_bind]. change (forallb (covered pid create sp has_hero S D now uuid) costs) with checked in Hr. rewrite Hr.
  assert (Hall : checked = true -> forall c, c ∈ costs -> covers has_hero B uuid c = true) by (intros Hch c Hc; unfold checked in Hch; rewrite forallb_forall in Hch; now apply Hch, list_elem_of_In).
  assert (Hlast : checked = true -> NoDup (omap (cost_key uuid) costs) \/ enough B uuid costs -> p = costs).
  { intros Hch [Hnd|He]; unfold p; rewrite Hch; [now apply prefix_distinct|]. apply prefix_enough; [exact Hf| |exact He]. eauto. }
  unfold p in *. destruct checked; cbn [negb].
  - destruct (consume_prefix_spec map_new map_new_ok map_new_empty malloc_map malloc_map_ok void malloc Hmal fresh_address pid create sp Hty Hins favor Hfav package has_hero Hpl
      costs w1 S1 D now (b + 12 * zlen costs) now uuid reason B Hw1 ltac:(lia) ltac:(lia) ltac:(lia) Hn Hf) as (w2 & r2 & S2 & D2 & -> & Hr2 & Hw2 & Hb2); [eauto|exact Hs1|].
    cbn [mbind outcome_bind]. rewrite Hr2. exists w2, S2, D2. split; [now destruct (_ =? _)%nat|]. split; [eapply wallet_mono; [exact Hw2|lia|lia]|]. split; [exact Hb2|exact Hlast].
  - exists w1, S1, D. split; [reflexivity|]. split; [eapply wallet_mono; [exact Hw1|lia|lia]|]. split; [|exact Hlast]. intros k Hk. rewrite Hs1 by exact Hk. unfold B. cbn. lia.
Qed.

(** ** Payments with the structures of the program and the tables in memory *)

#[local] Existing Instances ItemTheorems.sample_growth ItemTheorems.sample_growth_laws ItemTheorems.sample_item_table ItemTheorems.sample_item_table_laws.
#[local] Existing Instances ItemTheorems.sample_compensator ItemTheorems.sample_compensator_laws ItemTheorems.sample_notifier ItemTheorems.sample_notifier_laws.
#[local] Existing Instances HeroItem.sample_item_table HeroItem.sample_item_laws.

#[local] Abbreviation sample_wallets := (wallet (gmap (Z * Z) Item) (agmap Z) (item_configs (agmap Z)) (comp_state (gmap (Z * Z) Compensate) (agmap Z)) (notify_state (agmap Z)) (gmap (Z * Z) HeroItem)).
Definition no_package : Z -> outcome (option (list CITEM)) := fun _ => Ret None.
Definition get_items (w : sample_wallets) (now id n : Z) : sample_wallets :=
  match item_add next_address sample_pid 1100 (fun _ => None) (wl_items w) now id n 0 with Ret (s, _) => with_items w s | _ => w end.
Definition get_hero_items (w : sample_wallets) (now uuid id n : Z) : sample_wallets :=
  match hero_item_add _agMap_new fresh_address next_address (hero_items w) now sample_pid uuid id n 0 with Ret (h, _) => with_hero_items w h | _ => w end.

(** The player has two items, and hero 11 has another. *)
Definition sample_start : sample_wallets := mk_wallet sample_state (empty_store VOID ∅) (hero_item_new _agMap_new).
Definition sample_wallet : sample_wallets := get_hero_items (get_items (get_items sample_start 1110 70001 30) 1120 70002 9) 1130 11 5 8.
Definition sample_had : item_spec := spec_add sample_pid 1100 sample_spec (spec_add sample_pid 1100 sample_spec no_items 1110 70001 30 0) 1120 70002 9 0.
Definition sample_has : item_spec := mk_sp (sp_items sample_had) (sp_totals sample_had) (enter (sp_posts sample_had) (item_post (item_row sample_pid (number 11 5) (8, 0)))) (sp_events sample_had).
Definition sample_hero_has : gmap Z (Z * Z) := <[number 11 5 := (8, 0)]> ∅.
#[local] Abbreviation sample_wallet_rep := (wallet_rep _agMap_new (proj1 agMap_empty) (proj2 agMap_empty) fresh_address fresh_address_spec VOID sample_pid sample_spec).

Lemma sample_notes : nf_rep sample_idle 0 [].
Proof. apply notify_start. constructor; try reflexivity. exact (proj1 agMap_empty). Qed.
Lemma sample_inserts : inserts_ok player_item_key fst (W := gmap (Z * Z) Item).
Proof. apply memory_inserts_ok. Qed.
Lemma sample_hero_inserts : inserts_ok hero_item_key fst (W := gmap (Z * Z) HeroItem).
Proof. apply memory_inserts_ok. Qed.
Lemma sample_start_rep : sample_wallet_rep sample_start no_items ∅ 500 0.
Proof.
  destruct (start_heroes _agMap_new (proj1 agMap_empty) (proj2 agMap_empty) fresh_address fresh_address_spec VOID (∅ : gmap (Z * Z) HeroItem) sample_idle sample_pid ltac:(discriminate) (fun _ => eq_refl) sample_notes) as [Hh Hm].
  constructor; [|exists [], []; exact Hh|exact Hm].
  exact (start_rep _agMap_new VOID ∅ sample_configs sample_compensation sample_idle sample_pid sample_spec 500 (proj1 agMap_empty) (proj2 agMap_empty) ltac:(discriminate) (fun _ => eq_refl) sample_rep sample_comp_rep sample_notes).
Qed.
Lemma get_items_rep w S D t b now id n : sample_wallet_rep w S D t b -> 0 <= b -> b + 16 < 2 ^ 30 -> 0 <= t <= now -> now < 2 ^ 31 -> 0 <= id < 2 ^ 32 -> 0 <= n < 2 ^ 32 ->
  sample_wallet_rep (get_items w now id n) (spec_add sample_pid 1100 sample_spec S now id n 0) D now (b + 16).
Proof.
  intros Hw Hb HbK Ht Hn Hid Hl. unfold get_items.
  destruct (wallet_add _agMap_new (proj1 agMap_empty) (proj2 agMap_empty) fresh_address fresh_address_spec VOID next_address next_address_ok sample_pid 1100 sample_spec sample_type sample_inserts (fun _ => None) (fun _ => eq_refl)
    w S D t b now id n 0 Hw Hb HbK Ht Hn Hid Hl) as (s & a & -> & Hr). exact Hr.
Qed.
Lemma sample_wallet_rep_ok : sample_wallet_rep sample_wallet sample_has sample_hero_has 1120 33.
Proof.
  pose proof (get_items_rep _ _ _ _ _ 1110 70001 30 sample_start_rep ltac:(lia) ltac:(lia) ltac:(lia) ltac:(lia) ltac:(lia) ltac:(lia)) as Hw1.
  pose proof (get_items_rep _ _ _ _ _ 1120 70002 9 Hw1 ltac:(lia) ltac:(lia) ltac:(lia) ltac:(lia) ltac:(lia) ltac:(lia)) as Hw2. unfold sample_wallet, get_hero_items.
  destruct (wallet_hero_add _agMap_new (proj1 agMap_empty) (proj2 agMap_empty) fresh_address fresh_address_spec VOID next_address sample_pid sample_spec _ _ _ _ _ 1130 11 5 8 0 next_address_ok sample_hero_inserts Hw2) as (h & -> & Hr);
    [lia|lia|lia|reflexivity|]. exact Hr.
Qed.

(** 12 and 4 of the player's items and 3 of the hero's; then with more than there is of the second. *)
Definition sample_costs : list cost := [mk_cost 41 70001 12; mk_cost 0 0 0; mk_cost 90 5 3; mk_cost 41 70002 4].
Definition pays (now : Z) (w : sample_wallets) (costs : list cost) : outcome (sample_wallets * Z) := pay_costs next_address sample_pid 1100 (fun _ => None) no_package (fun _ => false) w now 11 costs 1 RET_ERROR.
Definition look {A : Type} (m : agmap Z) (h : gmap Z (datum A)) (f : A -> Z) (k : Z) : option Z :=
  match pm_abs m !! k with Some a => (fun v => f (dt_row v)) <$> h !! a | None => None end.
(** What is there of the two items and of the hero's. *)
Definition amounts (o : outcome (sample_wallets * Z)) : outcome (list (option Z) * Z) :=
  '(w, r) ← o;
    let items := look (ds_m (is_set (wl_items w))) (st_heap (is_store (wl_items w))) it_limit in
  let heroes := match hm_maps (ds_m (wl_hset w)) !! default 0 (pm_abs (hm_uuid (ds_m (wl_hset w))) !! 11) with Some m => look m (st_heap (wl_heroes w)) hi_value 5 | None => None end in
  Ret ([items 70001; items 70002; heroes], r).

Lemma payments_all_or_nothing_witness :
  amounts (pays 2000 sample_wallet sample_costs) = Ret ([Some 18; Some 5; Some 5], 0) /\
  amounts (pays 2000 sample_wallet [mk_cost 41 70001 12; mk_cost 41 70002 10]) = Ret ([Some 30; Some 9; Some 8], RET_NOT_ENOUGH) /\
  exists w' S' D', pays 2000 sample_wallet sample_costs = Ret (w', 0) /\ sample_wallet_rep w' S' D' 2000 (33 + 25 * zlen sample_costs) /\
    forall k, settled k -> balance sample_pid 1100 sample_spec S' D' 2000 k = balance sample_pid 1100 sample_spec sample_has sample_hero_has 2000 k - taken_by_all 11 sample_costs k.
Proof.
  split; [vm_compute; reflexivity|]. split; [vm_compute; reflexivity|].
  pose proof (payments_all_or_nothing _agMap_new (proj1 agMap_empty) (proj2 agMap_empty) fresh_address fresh_address_spec VOID next_address sample_pid 1100 sample_spec (fun _ => None) no_package (fun _ => false)
    sample_wallet sample_has sample_hero_has 1120 33 2000 11 sample_costs 1 RET_ERROR next_address_ok sample_inserts sample_type (fun _ => eq_refl) ltac:(reflexivity) sample_wallet_rep_ok ltac:(lia) ltac:(reflexivity) ltac:(lia) ltac:(lia)) as Hp.
  assert (Hpaid : forallb (covers (fun _ => false) (balance sample_pid 1100 sample_spec sample_has sample_hero_has 2000) 11) sample_costs = true) by (vm_compute; reflexivity).
  cbv zeta in Hp. rewrite Hpaid in Hp. destruct Hp as (w' & S' & D' & He & Hr & Hb & Hall); [repeat constructor; cbn; (lia || discriminate)|].
  assert (Hnd : NoDup (omap (cost_key 11) sample_costs)) by (apply (bool_decide_unpack _); vm_compute; exact I).
  specialize (Hall eq_refl (or_introl Hnd)). rewrite Hall in He, Hb. exists w', S', D'. split; [exact He|]. split; [exact Hr|exact Hb].
Defined.

(** ** Where the code does not do what it means to *)

(** Two costs of the same item are each looked for by themselves: the first is taken, and the second fails. *)
Lemma same_item_twice : amounts (pays 2000 sample_wallet [mk_cost 41 70001 20; mk_cost 41 70001 20]) = Ret ([Some 10; Some 9; Some 8], RET_ERROR).
Proof. vm_compute. reflexivity. Qed.

Definition changes (cost1 cost2 : cost) : outcome (sample_wallets * Z) :=
  EquipChangeCost2 next_address sample_pid 1100 (fun _ => None) no_package (fun id => id =? 3) sample_wallet 2000 (Some cost1) (Some cost2).
(** Two equipments that cost different items of the type of items: everything is taken from the first. *)
Lemma change_takes_other : amounts (changes (mk_cost 41 70001 5) (mk_cost 41 70002 4)) = Ret ([Some 21; Some 9; Some 8], 0).
Proof. vm_compute. reflexivity. Qed.
(** Otherwise the second cost is taken twice, and the first never. *)
Lemma change_takes_twice : amounts (changes (mk_cost 41 70001 5) (mk_cost 42 3 1)) = Ret ([Some 30; Some 9; Some 8], 0) /\ amounts (changes (mk_cost 42 3 1) (mk_cost 41 70002 3)) = Ret ([Some 30; Some 3; Some 8], 0).
Proof. split; vm_compute; reflexivity. Qed.
(** Even when there is enough for once only. *)
Lemma change_unpaid : amounts (changes (mk_cost 42 3 1) (mk_cost 41 70002 5)) = Ret ([Some 30; Some 4; Some 8], 0).
Proof. vm_compute. reflexivity. Qed.
