(* ===== verification/HeroProperty.v ===== *)
(** * The properties of a hero: [world/calc/calc.c]

    What a hero can do in a fight is a list of properties with their values.  [calc_hero_property] collects it
    from the configuration of the hero and of its weapon, their levels, stages, stars and talents, the equipment
    with its affixes and the sets it makes, the buffs of the player and the fashion the hero wears.  The
    configuration tables and the data of the player are an interface; values of equipment are scaled in single
    precision, which is modelled by the specification of IEEE arithmetic of the Standard Library. *)
From Stdlib Require Import Floats.SpecFloat.
From S2P Require Import Prelude.

Definition HERO_PROPERTY_COUNT_BASE : nat := 8.
Definition HERO_WEAPON_PROPERTY_COUNT_BASE : nat := 7.
Definition HERO_PROPERTY_COUNT_LEVEL : nat := 7.
Definition HERO_PROPERTY_COUNT_EVO : nat := 3.
Definition EVO_SLOT_COUNT : nat := 6.
Definition HERO_PROPERTY_COUNT_STAR : nat := 7.
Definition TALENT_MAXIMUM_DATA_SIZE : nat := 45.
Definition TALENT_EFFECT_COUNT : nat := 4.
Definition EQUIP_INTO_BATTLE_MAX : nat := 12.
Definition EQUIP_PROPERTY_POOL_MAX : nat := 6.
Definition SUIT_SLOT_COUNT : nat := EQUIP_INTO_BATTLE_MAX + EQUIP_INTO_BATTLE_MAX * EQUIP_PROPERTY_POOL_MAX.
Definition TalentType_Hero : Z := 1.
Definition TalentType_Weapon : Z := 2.
Definition TalentType_Hero_fight : Z := 4.
Definition TalentType_Hero_work : Z := 5.

(** A property: type and value. *)
Abbreviation property := (Z * Z)%type.

(** [struct SuitOut]: a set and, for each quality, how many pieces of at least this quality there are. *)
Abbreviation suit_out := (Z * list Z)%type.

(** ** Configuration *)

Record HeroConfig := mk_hero_config { hc_id : Z; hc_weapon : Z; hc_propertys : list property; hc_talent_id : Z; hc_fight_talent_id : Z; hc_work_talent_id : Z; hc_ext_property : list property }.
Record WeaponConfig := mk_weapon_config { wc_propertys : list property; wc_talent_id : Z }.
Record EvoConfig := mk_evo_config { ev_propertys : list property; ev_slot : list property }.
(** [effect]: type, value and increase. *)
Record TalentSkillConfig := mk_talent_config { ts_point_limit : Z; ts_effect : list (Z * Z * Z) }.
Record HeroSkillGroupConfig := mk_skill_group { sg_talent_type : Z; sg_talent_id : Z; sg_group : Z }.
Record EquipConfig := mk_equip_config { ec_propertys : list property; ec_levelup_propertys : list property; ec_suit : Z; ec_quality : Z }.
Record EquipAffixConfig := mk_affix_config { ac_type : Z; ac_level_ratio : Z; ac_max : Z; ac_limit_per_level : Z; ac_suit_id : Z; ac_quality : Z }.
Record BuffConfig := mk_buff_config { bc_type : Z; bc_value : Z; bc_hero_id : Z }.

(** The lookups of [config/]. *)
Record configs := mk_configs {
  get_hero_config : Z -> option HeroConfig;
  get_weapon_config : Z -> option WeaponConfig;
  get_level_property_config : Z -> option (list property);
  get_evo_config : Z -> Z -> option EvoConfig;
  get_star_config : Z -> Z -> option (list property);
  get_talent_skill_config : Z -> Z -> option TalentSkillConfig;
  get_hero_skill_group_config : Z -> list HeroSkillGroupConfig;
  get_equip_config : Z -> option EquipConfig;
  get_equip_affix_config : Z -> option EquipAffixConfig;
  get_equip_suit_config : Z -> Z -> Z -> option (list property);
  get_common_config : Z -> option (Z * Z);
  get_buff_config : Z -> option BuffConfig;
  get_fashion_by_item : Z -> Z -> option property }.

(** ** Data of the player *)

Record Hero := mk_hero { h_uuid : Z; h_gid : Z; h_level : Z; h_stage : Z; h_stage_slot : Z; h_star : Z; h_weapon_level : Z; h_weapon_stage : Z; h_weapon_stage_slot : Z; h_weapon_star : Z }.
(** [e_affix]: id, value and growth; the level is an [unsigned int], so the product with a value is one as well. *)
Record Equip := mk_equip { e_gid : Z; e_level : Z; e_affix : list (Z * Z * Z) }.

(** [player_get] finds the player or not; the talents of [talent_get] as their bytes, the equipment of a hero at a
    place, the buffs of [buff_next] (id and value) and the records of [hero_item_next] (status, hero and item). *)
Record holder := mk_holder { is_player : bool; talent_get : Z -> Z -> option mem; equip_get_by_hero : Z -> Z -> option Equip; buffs : list (Z * Z); hero_items : list (Z * Z * Z) }.

(** ** Single precision *)

Definition float_of_int (z : Z) : spec_float := binary_normalize 24 128 z 0 false.
Definition double_of_int (z : Z) : spec_float := binary_normalize 53 1024 z 0 false.
Definition float_of_double (x : spec_float) : spec_float :=
  match x with S754_finite s m e => binary_normalize 24 128 (if s then Zneg m else Zpos m) e s | _ => x end.
Definition float_mul := SFmul 24 128.
Definition float_add := SFadd 24 128.
(** [float f = n / 10000.0] *)
Definition ratio_of (n : Z) : spec_float := float_of_double (SFdiv 53 1024 (double_of_int n) (double_of_int 10000)).
(** The conversion to [int] cuts the fraction; it is undefined when the value does not fit. *)
Definition int_of_float (x : spec_float) : outcome Z :=
  match x with
  | S754_zero _ => Ret 0
  | S754_finite s m e =>
    let a := if e <? 0 then Z.shiftr (Zpos m) (- e) else Z.shiftl (Zpos m) e in
    let z := if s then - a else a in
    if (- 2 ^ 31 <=? z) && (z <? 2 ^ 31) then Ret z else Undef
  | _ => Undef
  end.
(** [value * rate], passed as an [int]. *)
Definition scale (rate : spec_float) (value : Z) : outcome Z := int_of_float (float_mul (float_of_int value) rate).

(** ** Properties *)

Fixpoint raise_property (head : list property) (type value : Z) : option (list property) :=
  match head with
  | [] => None
  | (t, v) :: next => if t =? type then Some ((t, i32 (v + value)) :: next) else cons (t, v) <$> raise_property next type value
  end.
Definition hero_property_add (head : list property) (type value : Z) : list property :=
  let value := i32 value in
  if (type =? 0) || (value =? 0) then head else match raise_property head type value with Some head => head | None => (type, value) :: head end.
Definition add_propertys (head : list property) (l : list property) : list property := fold_left (fun h p => hero_property_add h (fst p) (snd p)) l head.

(** A pointer to the head of a list still leads to its nodes when others were put in front of it. *)
Definition since (head now : list property) : list property := drop (length now - length head) now.

Section Calc.
Context (cfg : configs) (pl : holder).

(** [consume] of the configuration of a level. *)
Definition calc_level_by_exp (get_upgrade_config : Z -> Z -> option Z) (fuel : nat) (exp type : Z) : outcome Z :=
  match get_upgrade_config 1 type with
  | None => Ret 0
  | Some _ =>
    (fix loop fuel i :=
       match fuel with
       | O => NoFuel
       | S fuel' => match get_upgrade_config i type with Some consume => if exp <? consume then Ret (i - 1) else loop fuel' (i + 1) | None => Ret (i - 1) end
       end) fuel 1
  end.

Definition hero_property_calc_base (hero : Hero) (head : list property) : list property :=
  match get_hero_config cfg (h_gid hero) with
  | None => head
  | Some c =>
    let head := add_propertys head (take HERO_PROPERTY_COUNT_BASE (hc_propertys c)) in
    let head := add_propertys head (hc_ext_property c) in
    match get_weapon_config cfg (hc_weapon c) with Some w => add_propertys head (take HERO_WEAPON_PROPERTY_COUNT_BASE (wc_propertys w)) | None => head end
  end.

Definition calc_level (gid level : Z) (head : list property) : list property :=
  match get_level_property_config cfg gid with
  | None => head
  | Some l => add_propertys head (map (fun p => (fst p, i32 (snd p * level))) (take HERO_PROPERTY_COUNT_LEVEL l))
  end.
Definition hero_property_calc_level (hero : Hero) (head : list property) : list property :=
  match get_hero_config cfg (h_gid hero) with
  | None => head
  | Some c => calc_level (hc_weapon c) (h_weapon_level hero) (calc_level (h_gid hero) (h_level hero) head)
  end.

(** The places of a stage that are filled: all of a stage that is passed. *)
Definition filled (i stage slot : Z) (l : list property) : list property :=
  map snd (filter (fun js => (i <? stage) || Z.testbit slot (Z.of_nat (fst js)) = true) (imap (fun j p => (j, p)) (take EVO_SLOT_COUNT l))).
Definition calc_stage (gid stage slot : Z) (head : list property) : list property :=
  fold_left (fun head i =>
    match get_evo_config cfg gid i with
    | None => head
    | Some c => add_propertys (add_propertys head (take HERO_PROPERTY_COUNT_EVO (ev_propertys c))) (filled i stage slot (ev_slot c))
    end) (seqZ 0 (stage + 1)) head.
Definition hero_property_calc_stage (hero : Hero) (head : list property) : list property :=
  match get_hero_config cfg (h_gid hero) with
  | None => head
  | Some c => calc_stage (hc_weapon c) (h_weapon_stage hero) (h_weapon_stage_slot hero) (calc_stage (h_gid hero) (h_stage hero) (h_stage_slot hero) head)
  end.

Definition calc_star (gid star : Z) (head : list property) : list property :=
  fold_left (fun head i => match get_star_config cfg gid i with None => head | Some l => add_propertys head (take HERO_PROPERTY_COUNT_STAR l) end) (seqZ 1 star) head.
Definition hero_property_calc_star (hero : Hero) (head : list property) : list property :=
  match get_hero_config cfg (h_gid hero) with
  | None => head
  | Some c => calc_star (hc_weapon c) (h_weapon_star hero) (calc_star (h_gid hero) (h_star hero) head)
  end.

(** The effects of a point of a talent. *)
Definition point_effects (c : TalentSkillConfig) (val : Z) : list property :=
  let val := if ts_point_limit c <? val then ts_point_limit c else val in
  map (fun e => (fst (fst e), i32 (snd (fst e) + i32 (snd e * (val - 1))))) (take TALENT_EFFECT_COUNT (ts_effect c)).
Definition calc_talent (talent : option mem) (talentid : Z) (head : list property) : outcome (list property) :=
  match talent with
  | None => Ret head
  | Some data =>
    fold_outcome (fun head i =>
      b ← load data i;
      let val := i8 b - 48 in
      Ret (if 0 <? val then match get_talent_skill_config cfg talentid (i + 1) with None => head | Some c => add_propertys head (point_effects c val) end else head))
      head (seqZ 0 (Z.of_nat TALENT_MAXIMUM_DATA_SIZE))
  end.

(** [hero_get_selected_skill] of [modules/hero.c] has been emptied. *)
Definition hero_get_selected_skill (uuid : Z) : option property := None.

Definition hero_property_calc_talent (hero : Hero) (head : list property) : outcome (list property) :=
  match get_hero_config cfg (h_gid hero) with
  | None => Ret head
  | Some c =>
    if negb (is_player pl) then Ret head
    else
      head ← calc_talent (talent_get pl TalentType_Hero (h_uuid hero)) (hc_talent_id c) head;
      head ← calc_talent (talent_get pl TalentType_Hero_fight (h_uuid hero)) (hc_fight_talent_id c) head;
      head ← calc_talent (talent_get pl TalentType_Hero_work (h_uuid hero)) (hc_work_talent_id c) head;
      head ← match get_weapon_config cfg (hc_weapon c) with Some w => calc_talent (talent_get pl TalentType_Weapon (h_uuid hero)) (wc_talent_id w) head | None => Ret head end;
      head ← fold_outcome (fun head g => if sg_talent_type g =? TalentType_Weapon then Ret head else calc_talent (talent_get pl (sg_talent_type g) (h_uuid hero)) (sg_talent_id g) head)
        head (get_hero_skill_group_config cfg (hc_id c));
      Ret (match hero_get_selected_skill (h_uuid hero) with Some skill => hero_property_add head (fst skill) (snd skill) | None => head end)
  end.

Definition calc_affix_value (value grow : Z) (c : EquipAffixConfig) (level : Z) : outcome Z :=
  let f := ratio_of (ac_level_ratio c) in
  let more := float_add (float_mul (float_of_int (i32 (value * i32 (level - 1)))) f) (float_of_int grow) in
  int_of_float (float_add (float_of_int value) more).
Definition calc_affix_grow_max_value (c : EquipAffixConfig) (level : Z) : Z := i32 (ac_max c + i32 (i32 (level - 1) * ac_limit_per_level c)).

Definition calc_equip_property (equip : Equip) (head : list property) (ratio : Z) : outcome (list property) :=
  match get_equip_config cfg (e_gid equip) with
  | None => Ret head
  | Some c =>
    let rate := ratio_of ratio in
    head ← fold_outcome (fun head p => v ← scale rate (snd p); Ret (hero_property_add head (fst p) v)) head (take 4 (ec_propertys c));
    head ← fold_outcome (fun head p => v ← scale rate (u32 (snd p * e_level equip)); Ret (hero_property_add head (fst p) v)) head (take 4 (ec_levelup_propertys c));
    fold_outcome (fun head (a : Z * Z * Z) =>
      let '(id, value, grow) := a in
      if 0 <? id then
        match get_equip_affix_config cfg id with
        | None => Ret head
        | Some ac => value ← calc_affix_value value grow ac (e_level equip); v ← scale rate value; Ret (hero_property_add head (ac_type ac) v)
        end
      else Ret head) head (take EQUIP_PROPERTY_POOL_MAX (e_affix equip))
  end.

(** ** Sets of equipment *)

Definition raise_quality (quality : Z) (l : list Z) : list Z := imap (fun k n => if Z.of_nat k <=? quality then n + 1 else n) l.
(** The inner loop: the piece is counted at the first entry of its set, or at the first free one. *)
Fixpoint suit_enter (out : list suit_out) (suit quality : Z) : list suit_out :=
  match out with
  | [] => []
  | (s, l) :: rest => if (s =? suit) || (s =? 0) then (suit, raise_quality quality l) :: rest else (s, l) :: suit_enter rest suit quality
  end.
Definition calc_suit (suit_in : list (Z * Z)) (out : list suit_out) : list suit_out :=
  fold_left (fun out p => if fst p =? 0 then out else suit_enter out (fst p) (snd p)) suit_in out.

(** The loop over the counts of one quality, from [k] down to 2; [marks] is [count_quality]. *)
Fixpoint suit_counts (suit : Z) (j : nat) (k : nat) (marks : list Z) (head : list property) : outcome (list Z * list property) :=
  match k with
  | S (S _ as k') =>
    m ← deref (marks !! k);
    '(marks, head) ←
      (if negb (m =? 0) then Ret (marks, head)
       else match get_equip_suit_config cfg suit (Z.of_nat j) (Z.of_nat k) with
            | Some l => Ret (<[k := Z.of_nat j]> marks, add_propertys head (take 2 l))
            | None => Ret (marks, head)
            end);
    suit_counts suit j k' marks head
  | _ => Ret (marks, head)
  end.
Fixpoint suit_qualities (out : suit_out) (j : nat) (marks : list Z) (head : list property) : outcome (list property) :=
  match j with
  | O => Ret head
  | S j' =>
    n ← deref (snd out !! j');
    '(marks, head) ← suit_counts (fst out) j' (Z.to_nat n) marks head;
    suit_qualities out j' marks head
  end.
Definition suit_properties (outs : list suit_out) (head : list property) : outcome (list property) :=
  fold_outcome (fun head out => if fst out =? 0 then Ret head else suit_qualities out 10 (repeat 0 10) head) head outs.

(** ** Everything *)

Definition calc_buff_property (hero : Hero) (head : list property) : list property :=
  if negb (is_player pl) then head
  else fold_left (fun head b =>
    match get_buff_config cfg (fst b) with
    | None => head
    | Some c => if (bc_hero_id c =? 0) || (bc_hero_id c =? i32 (h_gid hero)) then hero_property_add head (bc_type c) (i32 (bc_value c * snd b)) else head
    end) (buffs pl) head.

Definition calc_fashion_property (hero : Hero) (head : list property) : list property :=
  if negb (is_player pl) then head
  else fold_left (fun head (item : Z * Z * Z) =>
    let '(status, uid, id) := item in
    if (status =? 1) && (uid =? h_uuid hero) then
      match get_fashion_by_item cfg (h_gid hero) id with None => head | Some p => hero_property_add head (fst p) (snd p) end
    else head) (hero_items pl) head.

Definition IS_EQUIP_TYPE_1 (type : Z) : bool := negb (Z.land type 0xfc0 =? 0).
Definition IS_EQUIP_TYPE_2 (type : Z) : bool := negb (Z.land type 0x03f =? 0).

(** The groups of further equipment at a place, and the ratio they count with. *)
Definition addon_groups (i : Z) : Z * Z :=
  match get_common_config cfg 12 with
  | Some c => if IS_EQUIP_TYPE_1 i then (snd c, fst c)
              else match get_common_config cfg 13 with Some c => if IS_EQUIP_TYPE_2 i then (snd c, fst c) else (0, 0) | None => (0, 0) end
  | None => match get_common_config cfg 13 with Some c => if IS_EQUIP_TYPE_2 i then (snd c, fst c) else (0, 0) | None => (0, 0) end
  end.
(** The further equipment of a place: what [calc_equip_property] returns is not kept. *)
Definition calc_addon (hero : Hero) (i : Z) (head : list property) : outcome (list property) :=
  let '(addon_group_count, addon_property) := addon_groups i in
  if 0 <? addon_property then
    fold_outcome (fun head group =>
      match equip_get_by_hero pl (h_uuid hero) (Z.lor (Z.shiftl group 8) i) with
      | None => Ret head
      | Some equip => now ← calc_equip_property equip head addon_property; Ret (since head now)
      end) head (seqZ 1 addon_group_count)
  else Ret head.

(** The entries of a piece of equipment and of its affixes among the pieces of sets. *)
Definition put_suit (suit_in : list (Z * Z)) (at_ : nat) (p : Z * Z) : outcome (list (Z * Z)) :=
  if (at_ <? length suit_in)%nat then Ret (<[at_ := p]> suit_in) else Undef.
Definition equip_get_affix (equip : Equip) (index : nat) : option Z := match index with O => None | S j => fst <$> (fst <$> (take EQUIP_PROPERTY_POOL_MAX (e_affix equip) !! j)) end.
Definition suit_pieces (equip : Equip) (i : nat) (suit_in : list (Z * Z)) : outcome (list (Z * Z)) :=
  suit_in ← match get_equip_config cfg (e_gid equip) with Some c => put_suit suit_in (i - 1) (ec_suit c, ec_quality c) | None => Ret suit_in end;
  fold_outcome (fun suit_in j =>
    match equip_get_affix equip (j + 1) with
    | None => Ret suit_in
    | Some id =>
      if id =? 0 then Ret suit_in
      else match get_equip_affix_config cfg id with Some ac => put_suit suit_in (i * EQUIP_PROPERTY_POOL_MAX + j) (ac_suit_id ac, ac_quality ac) | None => Ret suit_in end
    end) suit_in (seq 0 EQUIP_PROPERTY_POOL_MAX).

Definition calc_place (hero : Hero) (s : list property * list (Z * Z)) (i : nat) : outcome (list property * list (Z * Z)) :=
  let '(head, suit_in) := s in
  match equip_get_by_hero pl (h_uuid hero) (Z.of_nat i) with
  | None => Ret (head, suit_in)
  | Some equip =>
    head ← calc_equip_property equip head 10000;
    head ← calc_addon hero (Z.of_nat i) head;
    suit_in ← suit_pieces equip i suit_in;
    Ret (head, suit_in)
  end.

Definition calc_hero_property (hero : Hero) (head : list property) : outcome (list property) :=
  if negb (is_player pl) then Ret head
  else
    let head := hero_property_calc_base hero head in
    let head := hero_property_calc_level hero head in
    let head := hero_property_calc_stage hero head in
    let head := hero_property_calc_star hero head in
    head ← hero_property_calc_talent hero head;
    '(head, suit_in) ← fold_outcome (calc_place hero) (head, repeat (0, 0) SUIT_SLOT_COUNT) (seq 1 EQUIP_INTO_BATTLE_MAX);
    head ← suit_properties (calc_suit suit_in (repeat (0, repeat 0 10) SUIT_SLOT_COUNT)) head;
    Ret (calc_fashion_property hero (calc_buff_property hero head)).
End Calc.

(** ** Sums *)

(** What is added up for a type, and what a list has for it. *)
Definition total (t : Z) (l : list property) : Z := fold_right (fun p n => (if fst p =? t then snd p else 0) + n) 0 l.
Fixpoint value_of (head : list property) (t : Z) : Z := match head with [] => 0 | (t', v) :: next => if t' =? t then v else value_of next t end.

Lemma amount_app t l k : total t (l ++ k) = total t l + total t k.
Proof. unfold total. induction l as [|p l IH]; cbn; [reflexivity|]. rewrite IH. lia. Qed.
Lemma total_perm t l k : l ≡ₚ k -> total t l = total t k.
Proof. unfold total. induction 1; cbn; lia. Qed.

(** A list of properties has each type once, and for each type what was added up, as an [int]. *)
Record agrees (head : list property) (l : list property) : Prop := {
  ag_nodup : NoDup (map fst head);
  ag_types : forall t, t ∈ map fst head <-> t <> 0 /\ exists p, p ∈ l /\ fst p = t /\ i32 (snd p) <> 0;
  ag_value : forall t, t <> 0 -> value_of head t = i32 (total t l) }.

Lemma agrees_nil : agrees [] [].
Proof. constructor; [constructor| |reflexivity]. intros t. rewrite elem_of_nil. split; [tauto|]. intros (_ & p & Hp & _). inversion Hp. Qed.

Lemma agrees_perm head l k : agrees head l -> l ≡ₚ k -> agrees head k.
Proof.
  intros [Hn Ht Hv] Hp. constructor; [exact Hn| |].
  - intros t. rewrite Ht. split; intros (Hz & p & Hin & Hx); (split; [exact Hz|]); exists p; [rewrite <- Hp|rewrite Hp]; auto.
  - intros t Hz. rewrite <- (total_perm t l k Hp). auto.
Qed.

Lemma raise_spec head type value : NoDup (map fst head) ->
  match raise_property head type value with
  | Some head' => type ∈ map fst head /\ map fst head' = map fst head /\ forall t, value_of head' t = if t =? type then i32 (value_of head t + value) else value_of head t
  | None => (type ∉ map fst head) /\ value_of head type = 0
  end.
Proof.
  induction head as [|[t0 v0] head IH]; cbn [raise_property map fst]; intros Hn; [split; [apply not_elem_of_nil|reflexivity]|]. apply list.NoDup_cons in Hn as [Hh Hn].
  destruct (Z.eqb_spec t0 type) as [->|Hne].
  - split; [left|]. split; [reflexivity|]. intros t. cbn [value_of]. destruct (Z.eqb_spec t type) as [->|]; [now rewrite Z.eqb_refl|]. destruct (Z.eqb_spec type t); [congruence|reflexivity].
  - specialize (IH Hn). destruct (raise_property head type value) as [head'|]; cbn [fmap option_fmap option_map map fst value_of].
    + destruct IH as (Hin & Hm & Hv). split; [now right|]. split; [now rewrite Hm|]. intros t. rewrite Hv. destruct (Z.eqb_spec t0 t), (Z.eqb_spec t type); congruence.
    + destruct IH as [Hin Hv]. split; [rewrite not_elem_of_cons; split; [congruence|exact Hin]|]. destruct (Z.eqb_spec t0 type); [contradiction|exact Hv].
Qed.

Lemma agrees_add head l type value : agrees head l -> agrees (hero_property_add head type value) (l ++ [(type, value)]).
Proof.
  intros [Hn Ht Hv]. unfold hero_property_add. cbv zeta.
  assert (Htot : forall t, total t (l ++ [(type, value)]) = total t l + (if type =? t then value else 0)) by (intros t; rewrite amount_app; unfold total; cbn; lia).
  assert (Hsame : type = 0 \/ i32 value = 0 -> agrees head (l ++ [(type, value)])).
  { intros Hz. constructor; [exact Hn| |].
    - intros t. rewrite Ht. split; intros (Hz' & p & Hp & Hf & Hi); (split; [exact Hz'|]); exists p; (split; [|auto]); [apply elem_of_app; now left|].
      apply elem_of_app in Hp as [Hp|Hp]; [exact Hp|]. apply list_elem_of_singleton in Hp as ->. cbn in *. destruct Hz; congruence.
    - intros t Hz'. rewrite Hv, Htot by exact Hz'. destruct (Z.eqb_spec type t) as [->|]; [|now rewrite Z.add_0_r]. destruct Hz as [Hz|Hz]; [congruence|]. rewrite (Z.add_comm _ value), <- i32_add_l, Hz. reflexivity. }
  destruct (Z.eqb_spec type 0) as [E|Htz]; [apply Hsame; auto|]. destruct (Z.eqb_spec (i32 value) 0) as [E|Hvz]; [apply Hsame; auto|]. cbn [orb].
  pose proof (raise_spec head type (i32 value) Hn) as Hr. destruct (raise_property head type (i32 value)) as [head'|].
  - destruct Hr as (Hin & Hm & Hval). constructor; [now rewrite Hm| |].
    + intros t. rewrite Hm, Ht. split; intros (Hz' & p & Hp & Hf & Hi); (split; [exact Hz'|]); [exists p; split; [apply elem_of_app; now left|auto]|].
      apply elem_of_app in Hp as [Hp|Hp]; [eauto|]. apply list_elem_of_singleton in Hp as ->. cbn in Hf. subst t. apply Ht in Hin as (_ & Hex). exact Hex.
    + intros t Hz. rewrite Hval, Htot, Hv by exact Hz. destruct (Z.eqb_spec t type) as [->|Hne]; [|destruct (Z.eqb_spec type t); [congruence|now rewrite Z.add_0_r]].
      rewrite Z.eqb_refl, i32_add_l, Z.add_comm, i32_add_l. f_equal. lia.
  - destruct Hr as [Hin Hz0]. constructor; cbn [map fst].
    + now constructor.
    + intros t. rewrite elem_of_cons, Ht. split.
      * intros [->|(Hz' & p & Hp & Hf & Hi)]; [split; [exact Htz|]; exists (type, value); split; [apply elem_of_app; right; left|auto]|]. split; [exact Hz'|]. exists p. split; [apply elem_of_app; now left|auto].
      * intros (Hz' & p & Hp & Hf & Hi). apply elem_of_app in Hp as [Hp|Hp]; [right; eauto|]. apply list_elem_of_singleton in Hp as ->. left. exact (eq_sym Hf).
    + intros t Hz. cbn [value_of]. rewrite Htot. destruct (Z.eqb_spec type t) as [->|Hne]; [|now rewrite Z.add_0_r, Hv]. rewrite Hv in Hz0 by exact Hz. rewrite <- i32_add_l, Hz0. reflexivity.
Qed.

Lemma agrees_adds k : forall head l, agrees head l -> agrees (add_propertys head k) (l ++ k).
Proof.
  induction k as [|[t v] k IH]; intros head l Ha; [now rewrite app_nil_r|]. change ((t, v) :: k) with ([(t, v)] ++ k). rewrite app_assoc. apply IH. now apply agrees_add.
Qed.

(** What counts of further equipment: only types that are there. *)
Definition present (head : list property) (l : list property) : list property := filter (fun p => fst p ∈ map fst head) l.


Lemma raise_app F h t v : raise_property (F ++ h) t v =
  match raise_property F t v with Some F' => Some (F' ++ h) | None => app F <$> raise_property h t v end.
Proof.
  induction F as [|[t0 v0] F IH]; cbn [raise_property app]; [destruct (raise_property h t v); reflexivity|]. destruct (t0 =? t); [reflexivity|]. rewrite IH.
  destruct (raise_property F t v); [reflexivity|]. destruct (raise_property h t v); reflexivity.
Qed.
Lemma raise_types h t v h' : raise_property h t v = Some h' -> map fst h' = map fst h.
Proof.
  revert h'. induction h as [|[t0 v0] h IH]; intros h'; cbn [raise_property]; [discriminate|]. destruct (t0 =? t); [intros [= <-]; reflexivity|].
  destruct (raise_property h t v) as [x|]; [|discriminate]. intros [= <-]. cbn. now rewrite (IH x).
Qed.
Lemma raise_iff h t v : is_Some (raise_property h t v) <-> t ∈ map fst h.
Proof.
  induction h as [|[t0 v0] h IH]; cbn [raise_property map fst]; [rewrite elem_of_nil; split; [intros [x [=]]|tauto]|]. rewrite elem_of_cons. destruct (Z.eqb_spec t0 t) as [->|Hne].
  - split; [auto|]. intros _. eauto.
  - rewrite <- IH. destruct (raise_property h t v); cbn; split; intros Hs; try (right; eauto); try (destruct Hs as [x [=]]; fail); try (destruct Hs; [congruence|]; eauto); try eauto.
Qed.

Lemma adds_cons head t v l : add_propertys head ((t, v) :: l) = add_propertys (hero_property_add head t v) l.
Proof. reflexivity. Qed.

Lemma adds_since L : forall F h, (forall t, t ∈ map fst F -> t ∉ map fst h) ->
  exists F', add_propertys (F ++ h) L = F' ++ add_propertys h (present h L) /\ length (add_propertys h (present h L)) = length h.
Proof.
  induction L as [|[t v] L IH]; intros F h Hd; [exists F; split; reflexivity|]. rewrite adds_cons. unfold present. rewrite list.filter_cons. cbn [fst].
  unfold hero_property_add at 1. cbv zeta. destruct ((t =? 0) || (i32 v =? 0)) eqn:Ez.
  - destruct (IH F h Hd) as (F' & He & Hl). exists F'. case_decide; [|now split]. rewrite adds_cons. unfold hero_property_add at 1 2. cbv zeta. rewrite Ez. now split.
  - rewrite raise_app. pose proof (raise_iff F t (i32 v)) as HF. pose proof (raise_iff h t (i32 v)) as Hh. destruct (raise_property F t (i32 v)) as [F1|] eqn:EF.
    + rewrite decide_False by (apply Hd, HF; eauto). apply (IH F1 h). intros t' Ht'. apply Hd. now rewrite <- (raise_types _ _ _ _ EF).
    + destruct (raise_property h t (i32 v)) as [h1|] eqn:Eh; cbn [fmap option_fmap option_map].
      * rewrite decide_True by (apply Hh; eauto). pose proof (raise_types _ _ _ _ Eh) as Et. destruct (IH F h1) as (F' & He & Hl); [intros t' Ht'; rewrite Et; auto|].
        assert (Ep : present h1 L = present h L) by (unfold present; now rewrite Et). exists F'. rewrite adds_cons. unfold hero_property_add at 1 2. cbv zeta. rewrite Ez, Eh.
        unfold present in *. rewrite <- Ep. split; [exact He|]. etransitivity; [exact Hl|]. rewrite <- (length_map fst h1), Et. apply length_map.
      * rewrite decide_False by (intros Ht; apply Hh in Ht as [x [=]]). destruct (IH ((t, i32 v) :: F) h) as (F' & He & Hl).
        { intros t' Ht'. apply elem_of_cons in Ht' as [->|Ht']; [|auto]. cbn. intros Ht. apply Hh in Ht as [x [=]]. }
        exists F'. split; [exact He|exact Hl].
Qed.

Lemma since_adds head l : since head (add_propertys head l) = add_propertys head (present head l).
Proof.
  destruct (adds_since l [] head) as (F & He & Hl); [intros t Ht; inversion Ht|]. cbn [app] in He. unfold since. rewrite He, length_app, Hl. replace (length F + length head - length head)%nat with (length F) by lia. apply drop_app_length.
Qed.

(** ** The contributions *)

(** The contributions in the order the tables give them, without a list of properties.  They fail where the data
    makes the code undefined: a value that does not fit, a talent whose bytes end early. *)
Section Reference.
Context (cfg : configs) (pl : holder).

(** A step of the code adds what the contributions say. *)
Definition adds (f : list property -> outcome (list property)) (c : outcome (list property)) : Prop :=
  forall head, f head = (l ← c; Ret (add_propertys head l)).

Lemma adds_app head l k : add_propertys (add_propertys head l) k = add_propertys head (l ++ k).
Proof. unfold add_propertys. now rewrite fold_left_app. Qed.

Lemma adds_pure {A} (f : list property -> A -> list property) (c : A -> list property) xs head :
  (forall h a, f h a = add_propertys h (c a)) -> fold_left f xs head = add_propertys head (flat_map c xs).
Proof.
  intros Hf. revert head. induction xs as [|x xs IH]; intros head; [reflexivity|]. cbn [fold_left flat_map]. now rewrite Hf, IH, adds_app.
Qed.

(** Contributions that are collected one after the other. *)
Fixpoint collect {A} (c : A -> outcome (list property)) (xs : list A) : outcome (list property) :=
  match xs with [] => Ret [] | x :: xs' => l ← c x; k ← collect c xs'; Ret (l ++ k) end.

Lemma adds_collect {A} (f : list property -> A -> outcome (list property)) c xs :
  (forall a, adds (fun h => f h a) (c a)) -> adds (fun h => fold_outcome f h xs) (collect c xs).
Proof.
  intros Hf. induction xs as [|x xs IH]; intros head; [reflexivity|]. cbn [fold_outcome collect]. rewrite (Hf x head). destruct (c x) as [l| | |]; cbn [mbind outcome_bind]; try reflexivity.
  rewrite IH. destruct (collect c xs) as [k| | |]; cbn [mbind outcome_bind]; try reflexivity. now rewrite adds_app.
Qed.

Lemma adds_bind f g c d : adds f c -> adds g d -> adds (fun h => h ← f h; g h) (l ← c; k ← d; Ret (l ++ k)).
Proof.
  intros Hf Hg head. rewrite Hf. destruct c as [l| | |]; cbn [mbind outcome_bind]; try reflexivity. rewrite Hg. destruct d as [k| | |]; cbn [mbind outcome_bind]; try reflexivity. now rewrite adds_app.
Qed.
Lemma adds_bind_ret f g c k : adds f c -> (forall h, g h = Ret (add_propertys h k)) -> adds (fun h => h ← f h; g h) (l ← c; Ret (l ++ k)).
Proof.
  intros Hf Hg head. rewrite Hf. destruct c as [l| | |]; cbn [mbind outcome_bind]; try reflexivity. now rewrite Hg, adds_app.
Qed.

(** Base, levels, stages and stars. *)
Definition level_part (gid level : Z) : list property := match get_level_property_config cfg gid with None => [] | Some l => map (fun p => (fst p, i32 (snd p * level))) (take HERO_PROPERTY_COUNT_LEVEL l) end.
(** The slots from [j] on: all of them, or those whose bit is set. *)
Fixpoint slots_from (all : bool) (slot j : Z) (l : list property) : list property :=
  match l with [] => [] | p :: l' => (if all || Z.testbit slot j then [p] else []) ++ slots_from all slot (j + 1) l' end.
Definition stage_part (gid stage slot : Z) : list property :=
  flat_map (fun i => match get_evo_config cfg gid i with None => [] | Some c => take HERO_PROPERTY_COUNT_EVO (ev_propertys c) ++ slots_from (i <? stage) slot 0 (take EVO_SLOT_COUNT (ev_slot c)) end) (seqZ 0 (stage + 1)).
Definition star_part (gid star : Z) : list property :=
  flat_map (fun i => match get_star_config cfg gid i with None => [] | Some l => take HERO_PROPERTY_COUNT_STAR l end) (seqZ 1 star).
Definition own_part (hero : Hero) : list property :=
  match get_hero_config cfg (h_gid hero) with
  | None => []
  | Some c =>
    (take HERO_PROPERTY_COUNT_BASE (hc_propertys c) ++ hc_ext_property c ++
      match get_weapon_config cfg (hc_weapon c) with Some w => take HERO_WEAPON_PROPERTY_COUNT_BASE (wc_propertys w) | None => [] end) ++
    (level_part (h_gid hero) (h_level hero) ++ level_part (hc_weapon c) (h_weapon_level hero)) ++
    (stage_part (h_gid hero) (h_stage hero) (h_stage_slot hero) ++ stage_part (hc_weapon c) (h_weapon_stage hero) (h_weapon_stage_slot hero)) ++
    (star_part (h_gid hero) (h_star hero) ++ star_part (hc_weapon c) (h_weapon_star hero))
  end.

(** Talents: a point counts up to its limit. *)
Definition talent_effects (c : TalentSkillConfig) (points : Z) : list property :=
  map (fun e => (fst (fst e), i32 (snd (fst e) + snd e * (Z.min points (ts_point_limit c) - 1)))) (take TALENT_EFFECT_COUNT (ts_effect c)).
Definition talent_part (talent : option mem) (talentid : Z) : outcome (list property) :=
  match talent with
  | None => Ret []
  | Some data =>
    collect (fun i => b ← load data i; let val := i8 b - 48 in
      Ret (if 0 <? val then match get_talent_skill_config cfg talentid (i + 1) with None => [] | Some c => talent_effects c val end else []))
      (seqZ 0 (Z.of_nat TALENT_MAXIMUM_DATA_SIZE))
  end.
Definition talents_part (hero : Hero) : outcome (list property) :=
  match get_hero_config cfg (h_gid hero) with
  | None => Ret []
  | Some c =>
    if negb (is_player pl) then Ret []
    else
      collect (fun x => x)
       ([talent_part (talent_get pl TalentType_Hero (h_uuid hero)) (hc_talent_id c);
         talent_part (talent_get pl TalentType_Hero_fight (h_uuid hero)) (hc_fight_talent_id c);
         talent_part (talent_get pl TalentType_Hero_work (h_uuid hero)) (hc_work_talent_id c);
         match get_weapon_config cfg (hc_weapon c) with Some w => talent_part (talent_get pl TalentType_Weapon (h_uuid hero)) (wc_talent_id w) | None => Ret [] end] ++
        map (fun g => talent_part (talent_get pl (sg_talent_type g) (h_uuid hero)) (sg_talent_id g))
          (filter (fun g => sg_talent_type g <> TalentType_Weapon) (get_hero_skill_group_config cfg (hc_id c))))
  end.

(** Equipment: the values scaled. *)
Definition scaled_part (rate : spec_float) : list property -> outcome (list property) := collect (fun p : property => v ← scale rate (snd p); Ret [(fst p, v)]).
Definition affix_part (rate : spec_float) (level : Z) (a : Z * Z * Z) : outcome (list property) :=
  if 0 <? fst (fst a) then
    match get_equip_affix_config cfg (fst (fst a)) with
    | Some ac => value ← calc_affix_value (snd (fst a)) (snd a) ac level; scaled_part rate [(ac_type ac, value)]
    | None => Ret []
    end
  else Ret [].
Definition equip_part (equip : Equip) (ratio : Z) : outcome (list property) :=
  match get_equip_config cfg (e_gid equip) with
  | None => Ret []
  | Some c =>
    l ← scaled_part (ratio_of ratio) (take 4 (ec_propertys c));
    k ← scaled_part (ratio_of ratio) (map (fun p => (fst p, u32 (snd p * e_level equip))) (take 4 (ec_levelup_propertys c)));
    j ← collect (affix_part (ratio_of ratio) (e_level equip)) (take EQUIP_PROPERTY_POOL_MAX (e_affix equip));
    Ret (l ++ k ++ j)
  end.

Lemma filled_slots i stage slot l : filled i stage slot l = slots_from (i <? stage) slot 0 (take EVO_SLOT_COUNT l).
Proof.
  unfold filled. generalize (take EVO_SLOT_COUNT l) as k. clear l.
  assert (Hk : forall k n, map snd (filter (fun js : nat * property => (i <? stage) || Z.testbit slot (Z.of_nat (fst js)) = true) (imap (fun j p => ((n + j)%nat, p)) k)) = slots_from (i <? stage) slot (Z.of_nat n) k).
  { induction k as [|p k IH]; intros n; [reflexivity|]. cbn [imap slots_from]. rewrite list.filter_cons. cbn [fst]. rewrite Nat.add_0_r.
    assert (E : imap ((fun j p => ((n + j)%nat, p)) ∘ S) k = imap (fun j (p : property) => ((S n + j)%nat, p)) k) by (apply imap_ext; intros; cbn; f_equal; lia).
    rewrite E. replace (Z.of_nat n + 1) with (Z.of_nat (S n)) by lia. rewrite <- IH. destruct ((i <? stage) || Z.testbit slot (Z.of_nat n)); reflexivity. }
  intros k. exact (Hk k 0%nat).
Qed.
Lemma point_talent c val : point_effects c val = talent_effects c val.
Proof.
  unfold point_effects, talent_effects. apply map_ext. intros e. f_equal. rewrite Z.add_comm, i32_add_l. f_equal.
  destruct (Z.ltb_spec (ts_point_limit c) val); [rewrite Z.min_r by lia|rewrite Z.min_l by lia]; lia.
Qed.

Lemma own_adds hero head : hero_property_calc_star cfg hero (hero_property_calc_stage cfg hero (hero_property_calc_level cfg hero (hero_property_calc_base cfg hero head))) = add_propertys head (own_part hero).
Proof.
  unfold hero_property_calc_star, hero_property_calc_stage, hero_property_calc_level, hero_property_calc_base, own_part. destruct (get_hero_config cfg (h_gid hero)) as [c|]; [|reflexivity].
  assert (Hl : forall gid level h, calc_level cfg gid level h = add_propertys h (level_part gid level)) by (intros; unfold calc_level, level_part; destruct (get_level_property_config cfg gid); reflexivity).
  assert (Hg : forall gid stage slot h, calc_stage cfg gid stage slot h = add_propertys h (stage_part gid stage slot)).
  { intros. apply adds_pure. intros h0 i. destruct (get_evo_config cfg gid i); [rewrite filled_slots; apply adds_app|reflexivity]. }
  assert (Hs : forall gid star h, calc_star cfg gid star h = add_propertys h (star_part gid star)) by (intros; apply adds_pure; intros h0 i; destruct (get_star_config cfg gid i); reflexivity).
  rewrite !Hl, !Hg, !Hs. destruct (get_weapon_config cfg (hc_weapon c)); rewrite !adds_app, ?app_nil_r, <- !app_assoc; reflexivity.
Qed.

Lemma talent_adds talent talentid : adds (calc_talent cfg talent talentid) (talent_part talent talentid).
Proof.
  unfold calc_talent, talent_part. destruct talent as [data|]; [|intros head; reflexivity]. apply adds_collect. intros i head. destruct (load data i) as [b| | |]; cbn [mbind outcome_bind]; try reflexivity.
  destruct (0 <? i8 b - 48); [|reflexivity]. destruct (get_talent_skill_config cfg talentid (i + 1)); [now rewrite point_talent|reflexivity].
Qed.

Lemma talents_adds hero : adds (hero_property_calc_talent cfg pl hero) (talents_part hero).
Proof.
  unfold hero_property_calc_talent, talents_part. destruct (get_hero_config cfg (h_gid hero)) as [c|]; [|intros head; reflexivity]. destruct (is_player pl); [|intros head; reflexivity]. cbn [negb].
  assert (Hgr : adds (fun head => fold_outcome (fun head g => if sg_talent_type g =? TalentType_Weapon then Ret head else calc_talent cfg (talent_get pl (sg_talent_type g) (h_uuid hero)) (sg_talent_id g) head)
        head (get_hero_skill_group_config cfg (hc_id c)))
      (collect (fun x => x) (map (fun g => talent_part (talent_get pl (sg_talent_type g) (h_uuid hero)) (sg_talent_id g)) (filter (fun g => sg_talent_type g <> TalentType_Weapon) (get_hero_skill_group_config cfg (hc_id c)))))).
  { induction (get_hero_skill_group_config cfg (hc_id c)) as [|g gs IH]; intros head; [reflexivity|]. cbn [fold_outcome]. rewrite list.filter_cons. destruct (Z.eqb_spec (sg_talent_type g) TalentType_Weapon) as [E|E].
    - rewrite decide_False by (intros Hn; contradiction). apply IH.
    - rewrite decide_True by exact E. cbn [map collect]. exact (adds_bind _ _ _ _ (talent_adds _ _) IH head). }
  intros head. cbn [app collect].
  transitivity (h ← calc_talent cfg (talent_get pl TalentType_Hero (h_uuid hero)) (hc_talent_id c) head;
    h ← calc_talent cfg (talent_get pl TalentType_Hero_fight (h_uuid hero)) (hc_fight_talent_id c) h;
    h ← calc_talent cfg (talent_get pl TalentType_Hero_work (h_uuid hero)) (hc_work_talent_id c) h;
    h ← match get_weapon_config cfg (hc_weapon c) with Some w => calc_talent cfg (talent_get pl TalentType_Weapon (h_uuid hero)) (wc_talent_id w) h | None => Ret h end;
    fold_outcome (fun head g => if sg_talent_type g =? TalentType_Weapon then Ret head else calc_talent cfg (talent_get pl (sg_talent_type g) (h_uuid hero)) (sg_talent_id g) head) h (get_hero_skill_group_config cfg (hc_id c))).
  { repeat (match goal with |- mbind _ ?x = mbind _ ?y => change x with y; destruct y; cbn [mbind outcome_bind]; try reflexivity end).
    destruct (fold_outcome _ _ _); reflexivity. }
  assert (Hw : adds (fun h => match get_weapon_config cfg (hc_weapon c) with Some w => calc_talent cfg (talent_get pl TalentType_Weapon (h_uuid hero)) (wc_talent_id w) h | None => Ret h end)
    (match get_weapon_config cfg (hc_weapon c) with Some w => talent_part (talent_get pl TalentType_Weapon (h_uuid hero)) (wc_talent_id w) | None => Ret [] end))
    by (destruct (get_weapon_config cfg (hc_weapon c)); [apply talent_adds|intros h; reflexivity]).
  exact (adds_bind _ _ _ _ (talent_adds _ _) (adds_bind _ _ _ _ (talent_adds _ _) (adds_bind _ _ _ _ (talent_adds _ _) (adds_bind _ _ _ _ Hw Hgr))) head).
Qed.

Lemma scaled_adds {A} rate (type value : A -> Z) (l : list A) :
  adds (fun head => fold_outcome (fun head a => v ← scale rate (value a); Ret (hero_property_add head (type a) v)) head l) (scaled_part rate (map (fun a => (type a, value a)) l)).
Proof.
  induction l as [|a l IH]; intros head; [reflexivity|]. unfold scaled_part in *. cbn [map collect fold_outcome snd fst]. destruct (scale rate (value a)) as [v| | |]; cbn [mbind outcome_bind]; try reflexivity.
  rewrite IH. destruct (collect _ _); reflexivity.
Qed.

Lemma equip_adds equip ratio : adds (fun head => calc_equip_property cfg equip head ratio) (equip_part equip ratio).
Proof.
  unfold calc_equip_property, equip_part. destruct (get_equip_config cfg (e_gid equip)) as [c|]; [|intros head; reflexivity]. cbv zeta.
  assert (E : map (fun p : property => (fst p, snd p)) (take 4 (ec_propertys c)) = take 4 (ec_propertys c)) by (rewrite <- map_id; apply map_ext; intros [? ?]; reflexivity).
  assert (Ha : adds (fun head => fold_outcome (fun head (a : Z * Z * Z) =>
      let '(id, value, grow) := a in
      if 0 <? id then
        match get_equip_affix_config cfg id with
        | None => Ret head
        | Some ac => value ← calc_affix_value value grow ac (e_level equip); v ← scale (ratio_of ratio) value; Ret (hero_property_add head (ac_type ac) v)
        end
      else Ret head) head (take EQUIP_PROPERTY_POOL_MAX (e_affix equip))) (collect (affix_part (ratio_of ratio) (e_level equip)) (take EQUIP_PROPERTY_POOL_MAX (e_affix equip)))).
  { apply adds_collect. intros [[id value] grow] head. unfold affix_part. cbn [fst snd]. destruct (0 <? id); [|reflexivity]. destruct (get_equip_affix_config cfg id) as [ac|]; [|reflexivity].
    destruct (calc_affix_value value grow ac (e_level equip)) as [x| | |]; cbn [mbind outcome_bind]; try reflexivity. unfold scaled_part. cbn [collect fst snd].
    destruct (scale (ratio_of ratio) x); reflexivity. }
  intros head. etransitivity; [exact (adds_bind _ _ _ _ (scaled_adds (ratio_of ratio) fst snd _) (adds_bind _ _ _ _ (scaled_adds (ratio_of ratio) fst (fun p => u32 (snd p * e_level equip)) _) Ha) head)|].
  assert (Hassoc : forall c d e : outcome (list property), (l ← c; m ← (k ← d; j ← e; Ret (k ++ j)); Ret (l ++ m)) = (l ← c; k ← d; j ← e; Ret (l ++ k ++ j))) by (intros [] [] []; reflexivity).
  now rewrite Hassoc, E.
Qed.

(** Further equipment counts for the types that something counts for already. *)
Definition counted (l : list property) (k : list property) : list property :=
  filter (fun p => fst p <> 0 /\ Exists (fun q => fst q = fst p /\ i32 (snd q) <> 0) l) k.
Fixpoint addon_part (hero : Hero) (i ratio : Z) (groups : list Z) (l : list property) : outcome (list property) :=
  match groups with
  | [] => Ret l
  | group :: groups' =>
    match equip_get_by_hero pl (h_uuid hero) (Z.lor (Z.shiftl group 8) i) with
    | None => addon_part hero i ratio groups' l
    | Some equip => k ← equip_part equip ratio; addon_part hero i ratio groups' (l ++ counted l k)
    end
  end.
(** The places, with the pieces of sets. *)
Fixpoint places_part (hero : Hero) (places : list nat) (l : list property) (suit_in : list (Z * Z)) : outcome (list property * list (Z * Z)) :=
  match places with
  | [] => Ret (l, suit_in)
  | i :: places' =>
    match equip_get_by_hero pl (h_uuid hero) (Z.of_nat i) with
    | None => places_part hero places' l suit_in
    | Some equip =>
      k ← equip_part equip 10000;
      l ← (if 0 <? snd (addon_groups cfg (Z.of_nat i)) then addon_part hero (Z.of_nat i) (snd (addon_groups cfg (Z.of_nat i))) (seqZ 1 (fst (addon_groups cfg (Z.of_nat i)))) (l ++ k) else Ret (l ++ k));
      suit_in ← suit_pieces cfg equip i suit_in;
      places_part hero places' l suit_in
    end
  end.

Lemma present_counted l k : present (add_propertys [] l) k = counted l k.
Proof.
  unfold present, counted. pose proof (agrees_adds l [] [] agrees_nil) as Ha. cbn [app] in Ha. induction k as [|p k IH]; [reflexivity|]. rewrite !list.filter_cons, IH.
  assert (E : fst p ∈ map fst (add_propertys [] l) <-> fst p <> 0 /\ Exists (fun q => fst q = fst p /\ i32 (snd q) <> 0) l) by (rewrite (ag_types _ _ Ha), list.Exists_exists; reflexivity).
  destruct (decide (fst p ∈ map fst (add_propertys [] l))) as [Hd|Hd]; [rewrite decide_True by tauto|rewrite decide_False by tauto]; reflexivity.
Qed.

Lemma addon_adds hero i ratio groups : forall l,
  fold_outcome (fun head group =>
    match equip_get_by_hero pl (h_uuid hero) (Z.lor (Z.shiftl group 8) i) with
    | None => Ret head
    | Some equip => now ← calc_equip_property cfg equip head ratio; Ret (since head now)
    end) (add_propertys [] l) groups = (l ← addon_part hero i ratio groups l; Ret (add_propertys [] l)).
Proof.
  induction groups as [|group groups IH]; intros l; cbn [fold_outcome addon_part]; [reflexivity|]. destruct (equip_get_by_hero pl (h_uuid hero) _) as [equip|]; cbn [mbind outcome_bind]; [|apply IH].
  pose proof (equip_adds equip ratio (add_propertys [] l)) as E. cbn beta in E. rewrite E. destruct (equip_part equip ratio) as [k| | |]; cbn [mbind outcome_bind]; try reflexivity.
  rewrite since_adds, present_counted, adds_app. apply IH.
Qed.

Lemma places_adds hero places : forall l suit_in,
  fold_outcome (calc_place cfg pl hero) (add_propertys [] l, suit_in) places = ('(l, suit_in) ← places_part hero places l suit_in; Ret (add_propertys [] l, suit_in)).
Proof.
  induction places as [|i places IH]; intros l suit_in; cbn [fold_outcome places_part]; [reflexivity|]. set (rest := fold_outcome (calc_place cfg pl hero)) in *. unfold calc_place. destruct (equip_get_by_hero pl (h_uuid hero) (Z.of_nat i)) as [equip|]; cbn [mbind outcome_bind]; [|apply IH].
  pose proof (equip_adds equip 10000 (add_propertys [] l)) as E. cbn beta in E. rewrite E. destruct (equip_part equip 10000) as [k| | |]; cbn [mbind outcome_bind]; try reflexivity. rewrite adds_app.
  unfold calc_addon. destruct (addon_groups cfg (Z.of_nat i)) as [n ratio]. cbn [fst snd]. destruct (0 <? ratio); [rewrite addon_adds; destruct (addon_part _ _ _ _ _) as [l'| | |]|]; cbn [mbind outcome_bind]; try reflexivity;
    (destruct (suit_pieces cfg equip i suit_in) as [si| | |]; cbn [mbind outcome_bind]; try reflexivity; apply IH).
Qed.

(** ** Sets *)

(** How many pieces of a set have at least a quality. *)
Definition count_pieces (pieces : list (Z * Z)) (suit quality : Z) : Z := zlen (filter (fun p => fst p = suit /\ quality <= snd p) pieces).
(** What [k] pieces of a set give: the configuration of the best quality among [js] that [k] pieces have. *)
Fixpoint best (pieces : list (Z * Z)) (suit : Z) (k : nat) (js : list nat) : list property :=
  match js with
  | [] => []
  | j :: js' =>
    if Z.of_nat k <=? count_pieces pieces suit (Z.of_nat j) then
      match get_equip_suit_config cfg suit (Z.of_nat j) (Z.of_nat k) with Some l => take 2 l | None => best pieces suit k js' end
    else best pieces suit k js'
  end.
Definition qualities : list nat := [9; 8; 7; 6; 5; 4; 3; 2; 1; 0]%nat.
Definition suit_bonus (pieces : list (Z * Z)) (suit : Z) : list property := flat_map (fun k => best pieces suit k qualities) (seq 2 8).
(** The sets there are pieces of. *)
Definition suits_of (pieces : list (Z * Z)) : list Z := remove_dups (map fst (filter (fun p => fst p <> 0) pieces)).
Definition suits_part (pieces : list (Z * Z)) : list property := flat_map (suit_bonus pieces) (suits_of pieces).

(** *** Counting the pieces *)

Definition counts (pieces : list (Z * Z)) (suit : Z) : list Z := map (fun j => count_pieces pieces suit (Z.of_nat j)) (seq 0 10).

Lemma raise_counts pieces suit quality : raise_quality quality (counts pieces suit) = counts (pieces ++ [(suit, quality)]) suit.
Proof.
  unfold raise_quality, counts. apply list_eq. intros i. rewrite list_lookup_imap, !list_lookup_fmap. destruct (seq 0 10 !! i) as [j|] eqn:E; [|reflexivity]. apply lookup_seq in E as [-> Hi]. cbn.
  unfold count_pieces. rewrite list.filter_app, zlen_app, list.filter_cons. cbn [fst snd]. f_equal. destruct (Z.leb_spec (Z.of_nat i) quality).
  - rewrite decide_True by lia. reflexivity.
  - rewrite decide_False by lia. unfold zlen. cbn. lia.
Qed.
Lemma counts_other pieces suit suit' quality : suit <> suit' -> counts (pieces ++ [(suit', quality)]) suit = counts pieces suit.
Proof.
  intros Hne. unfold counts, count_pieces. apply map_ext. intros j. rewrite list.filter_app, zlen_app, list.filter_cons. cbn [fst]. rewrite decide_False by (intros [? _]; congruence). unfold zlen. cbn. lia.
Qed.
Lemma counts_none pieces suit : suit ∉ map fst pieces -> counts pieces suit = repeat 0 10.
Proof.
  intros Hn. assert (E : forall q, count_pieces pieces suit q = 0).
  { intros q. unfold count_pieces. induction pieces as [|p pieces IH]; [reflexivity|]. cbn [map] in Hn. apply not_elem_of_cons in Hn as [H1 H2]. rewrite list.filter_cons, decide_False by (intros [? _]; congruence). auto. }
  unfold counts. cbn [seq map repeat]. now rewrite !E.
Qed.

Lemma count_bound pieces suit quality : suit <> 0 -> count_pieces pieces suit quality <= zlen (filter (fun p => fst p <> 0) pieces).
Proof.
  intros Hs. unfold count_pieces, zlen. apply inj_le. induction pieces as [|p pieces IH]; [apply Nat.le_refl|]. rewrite !list.filter_cons. destruct (decide (fst p = suit /\ quality <= snd p)) as [[Hf _]|].
  - rewrite decide_True by congruence. cbn [length]. lia.
  - destruct (decide (fst p <> 0)); cbn [length]; lia.
Qed.

(** The entries for the sets of the pieces, and the free ones. *)
Definition entries (pieces : list (Z * Z)) (suits : list Z) (n : nat) : list suit_out := map (fun s => (s, counts pieces s)) suits ++ repeat (0, repeat 0 10) (n - length suits).

Lemma enter_known pieces suit quality rest suits : NoDup suits -> 0 ∉ suits -> suit ∈ suits ->
  suit_enter (map (fun s => (s, counts pieces s)) suits ++ rest) suit quality = map (fun s => (s, counts (pieces ++ [(suit, quality)]) s)) suits ++ rest.
Proof.
  induction suits as [|x suits IH]; intros Hn Hz Hin; [inversion Hin|]. apply list.NoDup_cons in Hn as [Hx Hn]. apply not_elem_of_cons in Hz as [Hz0 Hz]. cbn [map app suit_enter].
  destruct (Z.eqb_spec x suit) as [->|Hne]; cbn [orb].
  - rewrite raise_counts. do 2 f_equal. apply map_ext_in. intros s Hs. apply list_elem_of_In in Hs. rewrite counts_other by (intros ->; contradiction). reflexivity.
  - destruct (Z.eqb_spec x 0); [congruence|]. apply elem_of_cons in Hin as [->|Hin]; [congruence|]. rewrite IH by assumption. now rewrite counts_other by exact Hne.
Qed.
Lemma enter_new pieces suit quality rest suits : 0 ∉ suits -> suit ∉ suits -> suit ∉ map fst pieces ->
  suit_enter (map (fun s => (s, counts pieces s)) suits ++ (0, repeat 0 10) :: rest) suit quality =
  map (fun s => (s, counts (pieces ++ [(suit, quality)]) s)) (suits ++ [suit]) ++ rest.
Proof.
  intros Hz Hs Hp. induction suits as [|x suits IH]; cbn [map app suit_enter].
  - rewrite orb_true_r. cbn [map app]. rewrite <- (counts_none pieces suit Hp), raise_counts. reflexivity.
  - apply not_elem_of_cons in Hz as [Hz0 Hz], Hs as [Hs0 Hs]. destruct (Z.eqb_spec x suit); [congruence|]. destruct (Z.eqb_spec x 0); [congruence|]. cbn [orb]. rewrite IH by assumption. now rewrite counts_other by exact n.
Qed.

Lemma calc_suit_spec n ins : forall pieces suits, NoDup suits -> 0 ∉ suits -> (forall s, s ∈ suits <-> s <> 0 /\ s ∈ map fst pieces) -> (length suits + length ins <= n)%nat ->
  exists suits', calc_suit ins (entries pieces suits n) = entries (pieces ++ ins) suits' n /\ NoDup suits' /\ forall s, s ∈ suits' <-> s <> 0 /\ s ∈ map fst (pieces ++ ins).
Proof.
  induction ins as [|[suit quality] ins IH]; intros pieces suits Hn Hz Hs Hl; cbn [calc_suit fold_left]; [rewrite app_nil_r; eauto|]. cbn [length] in Hl. cbn [fst snd].
  change (pieces ++ (suit, quality) :: ins) with (pieces ++ [(suit, quality)] ++ ins). rewrite app_assoc.
  assert (Hmap : forall s, s ∈ map fst (pieces ++ [(suit, quality)]) <-> s ∈ map fst pieces \/ s = suit) by (intros s; rewrite map_app, elem_of_app; cbn; rewrite list_elem_of_singleton; tauto).
  destruct (Z.eqb_spec suit 0) as [->|Hne].
  - assert (E : entries pieces suits n = entries (pieces ++ [(0, quality)]) suits n).
    { unfold entries. f_equal. apply map_ext_in. intros s Hin. apply list_elem_of_In in Hin. rewrite counts_other by (intros ->; contradiction). reflexivity. }
    rewrite E. apply IH; [exact Hn|exact Hz| |lia]. intros s. rewrite Hs, Hmap. split; [tauto|]. intros [Hs0 [Hin| ->]]; [tauto|congruence].
  - destruct (decide (suit ∈ suits)) as [Hin|Hin].
    + unfold entries at 1. rewrite enter_known by assumption. apply IH; [exact Hn|exact Hz| |lia]. intros s. rewrite Hs, Hmap. split; [tauto|]. intros [Hs0 [Hs1| ->]]; [tauto|]. now apply Hs.
    + assert (Hp : suit ∉ map fst pieces) by (intros Hp; apply Hin, Hs; auto). unfold entries at 1. destruct (n - length suits)%nat as [|m] eqn:Em; [lia|]. cbn [repeat]. rewrite enter_new by assumption.
      assert (E : m = (n - length (suits ++ [suit]))%nat) by (rewrite length_app; cbn; lia). rewrite E. apply (IH (pieces ++ [(suit, quality)]) (suits ++ [suit])).
      * apply list.NoDup_app. split; [exact Hn|]. split; [|apply list.NoDup_singleton]. intros x Hx Hx'. apply list_elem_of_singleton in Hx' as ->. contradiction.
      * intros Hx. apply elem_of_app in Hx as [Hx|Hx]; [contradiction|]. apply list_elem_of_singleton in Hx. congruence.
      * intros s. rewrite elem_of_app, list_elem_of_singleton, Hs, Hmap. split; [intros [?| ->]; [tauto|auto]|tauto].
      * rewrite length_app. cbn. lia.
Qed.

(** *** What the sets give *)

(** The counts a quality is looked at for, as the loop runs. *)
Fixpoint down (k : nat) : list nat := match k with S (S _ as k') => k :: down k' | _ => [] end.
Definition given (suit : Z) (j k : nat) : list property := match get_equip_suit_config cfg suit (Z.of_nat j) (Z.of_nat k) with Some l => take 2 l | None => [] end.
Definition step_part (suit : Z) (j : nat) (marks : list Z) (k : nat) : list property := if decide (marks !! k = Some 0) then given suit j k else [].
Definition configured (suit : Z) (j k : nat) : bool := match get_equip_suit_config cfg suit (Z.of_nat j) (Z.of_nat k) with Some _ => true | None => false end.

Lemma down_in k i : i ∈ down k <-> (2 <= i <= k)%nat.
Proof.
  induction k as [|k IH]; [cbn; rewrite elem_of_nil; lia|]. destruct k as [|k]; [cbn; rewrite elem_of_nil; lia|]. cbn [down] in *. rewrite elem_of_cons, IH. lia.
Qed.
Lemma flat_map_ext_in {A} (f g : A -> list property) l : (forall a, a ∈ l -> f a = g a) -> flat_map f l = flat_map g l.
Proof. induction l as [|a l IH]; intros Hf; [reflexivity|]. cbn. rewrite Hf by left. rewrite IH; [reflexivity|]. intros b Hb. apply Hf. now right. Qed.
Lemma perm_eq (l k : list property) : l = k -> l ≡ₚ k.
Proof. intros ->. reflexivity. Qed.
Lemma flat_map_both {A} (f g : A -> list property) l : flat_map (fun a => f a ++ g a) l ≡ₚ flat_map f l ++ flat_map g l.
Proof. induction l as [|a l IH]; [reflexivity|]. cbn. rewrite IH. solve_perm. Qed.
Lemma flat_map_perm {A} (f : A -> list property) l k : l ≡ₚ k -> flat_map f l ≡ₚ flat_map f k.
Proof. induction 1; cbn; [reflexivity|now f_equiv|solve_perm|etransitivity; eassumption]. Qed.

Lemma suit_counts_spec suit j n : forall marks head, (n < 10)%nat -> length marks = 10%nat ->
  exists marks', suit_counts cfg suit j n marks head = Ret (marks', add_propertys head (flat_map (step_part suit j marks) (down n))) /\ length marks' = 10%nat /\
    forall k, marks' !! k = if decide ((2 <= k <= n)%nat /\ marks !! k = Some 0 /\ configured suit j k = true) then Some (Z.of_nat j) else marks !! k.
Proof.
  induction n as [|n IH]; intros marks head Hn Hl; [exists marks; split; [reflexivity|]; split; [exact Hl|]; intros k; now rewrite decide_False by lia|].
  destruct n as [|n]; [exists marks; split; [reflexivity|]; split; [exact Hl|]; intros k; now rewrite decide_False by lia|].
  assert (Hk : is_Some (marks !! S (S n))) by (apply lookup_lt_is_Some; lia). destruct Hk as [m Hm].
  change (suit_counts cfg suit j (S (S n)) marks head) with (m ← deref (marks !! S (S n)); '(marks, head) ← (if negb (m =? 0) then Ret (marks, head)
       else match get_equip_suit_config cfg suit (Z.of_nat j) (Z.of_nat (S (S n))) with
            | Some l => Ret (<[S (S n) := Z.of_nat j]> marks, add_propertys head (take 2 l))
            | None => Ret (marks, head)
            end); suit_counts cfg suit j (S n) marks head). rewrite Hm. cbn [deref mbind outcome_bind].
  change (flat_map (step_part suit j marks) (down (S (S n)))) with (step_part suit j marks (S (S n)) ++ flat_map (step_part suit j marks) (down (S n))).
  unfold step_part at 1. rewrite Hm. destruct (Z.eqb_spec m 0) as [->|Hm0]; cbn [negb].
  - rewrite decide_True by reflexivity. unfold given. unfold configured in *. destruct (get_equip_suit_config cfg suit (Z.of_nat j) (Z.of_nat (S (S n)))) as [l|] eqn:Ec; cbn [mbind outcome_bind].
    + destruct (IH (<[S (S n) := Z.of_nat j]> marks) (add_propertys head (take 2 l)) ltac:(lia)) as (marks' & -> & Hl' & Hmk); [now rewrite length_insert|].
      exists marks'. split; [|split; [exact Hl'|]].
      * rewrite adds_app. do 3 f_equal. f_equal. apply flat_map_ext_in. intros k Hk. apply down_in in Hk. unfold step_part. now rewrite list_lookup_insert_ne by lia.
      * intros k. rewrite Hmk. destruct (decide (k = S (S n))) as [->|Hne].
        -- rewrite decide_False by lia. rewrite list_lookup_insert_eq by lia. rewrite decide_True; [reflexivity|]. split; [lia|]. split; [exact Hm|]. now rewrite Ec.
        -- rewrite list_lookup_insert_ne by congruence. destruct (decide ((2 <= k <= S n)%nat /\ _)) as [Hd|Hd]; [rewrite decide_True by (split; [lia|tauto]); reflexivity|rewrite decide_False; [reflexivity|]].
           intros (Hr & Hr2). apply Hd. split; [lia|exact Hr2].
    + destruct (IH marks head ltac:(lia) Hl) as (marks' & -> & Hl' & Hmk). exists marks'. split; [reflexivity|]. split; [exact Hl'|]. intros k. rewrite Hmk. destruct (decide (k = S (S n))) as [->|Hne].
      * rewrite decide_False by lia. rewrite decide_False; [reflexivity|]. intros (_ & _ & Hc). rewrite Ec in Hc. discriminate.
      * destruct (decide ((2 <= k <= S n)%nat /\ _)) as [Hd|Hd]; [rewrite decide_True by (split; [lia|tauto]); reflexivity|rewrite decide_False; [reflexivity|]]. intros (Hr & Hr2). apply Hd. split; [lia|exact Hr2].
  - rewrite decide_False by congruence. cbn [mbind outcome_bind app]. destruct (IH marks head ltac:(lia) Hl) as (marks' & -> & Hl' & Hmk). exists marks'. split; [reflexivity|]. split; [exact Hl'|]. intros k. rewrite Hmk.
    destruct (decide (k = S (S n))) as [->|Hne].
    + rewrite decide_False by lia. rewrite decide_False; [reflexivity|]. intros (_ & Hc & _). congruence.
    + destruct (decide ((2 <= k <= S n)%nat /\ _)) as [Hd|Hd]; [rewrite decide_True by (split; [lia|tauto]); reflexivity|rewrite decide_False; [reflexivity|]]. intros (Hr & Hr2). apply Hd. split; [lia|exact Hr2].
Qed.

(** A count is served by one of the qualities that were looked at. *)
Definition served (pieces : list (Z * Z)) (suit : Z) (js : list nat) (k : nat) : bool :=
  existsb (fun j => (Z.of_nat k <=? count_pieces pieces suit (Z.of_nat j)) && configured suit j k) js.
(** The qualities below [j], the best first. *)
Fixpoint below (j : nat) : list nat := match j with O => [] | S j' => j' :: below j' end.

(** Tests of numerals. *)
Ltac compute_tests := repeat match goal with |- context [Z.of_nat ?a <=? Z.of_nat ?b] => let c := eval vm_compute in (Z.of_nat a <=? Z.of_nat b) in change (Z.of_nat a <=? Z.of_nat b) with c; cbv iota end.

Lemma suit_qualities_spec pieces suit j : (j <= 10)%nat -> (forall q, 0 <= q -> count_pieces pieces suit q < 10) -> forall done marks head, length marks = 10%nat ->
  (j = 0%nat \/ forall k, (2 <= k < 10)%nat -> marks !! k = Some 0 <-> served pieces suit done k = false) ->
  exists l, suit_qualities cfg (suit, counts pieces suit) j marks head = Ret (add_propertys head l) /\
    l ≡ₚ flat_map (fun k => if served pieces suit done k then [] else best pieces suit k (below j)) (seq 2 8).
Proof.
  intros Hj Hc. induction j as [|j IH]; intros done marks head Hl Hm; cbn [suit_qualities].
  - exists []. split; [reflexivity|]. cbn [below best seq flat_map]. repeat destruct (served _ _ _ _); reflexivity.
  - destruct Hm as [|Hm]; [discriminate|].
    assert (Hn : counts pieces suit !! j = Some (count_pieces pieces suit (Z.of_nat j))) by (unfold counts; rewrite list_lookup_fmap, lookup_seq_lt by lia; reflexivity).
    cbn [fst snd]. rewrite Hn. cbn [deref mbind outcome_bind]. set (n := count_pieces pieces suit (Z.of_nat j)) in *. assert (Hn0 : 0 <= n) by apply zlen_nonneg. specialize (Hc (Z.of_nat j) ltac:(lia)) as Hn10. fold n in Hn10.
    destruct (suit_counts_spec suit j (Z.to_nat n) marks head ltac:(lia) Hl) as (marks' & -> & Hl' & Hmk). cbn [mbind outcome_bind].
    destruct (IH ltac:(lia) (j :: done) marks' (add_propertys head (flat_map (step_part suit j marks) (down (Z.to_nat n)))) Hl') as (l & -> & Hp).
    { destruct j as [|j0]; [now left|right]. intros k Hk. specialize (Hm k Hk). rewrite Hmk. unfold served in *. cbn [existsb]. rewrite orb_false_iff, <- Hm. fold n.
      destruct (decide ((2 <= k <= Z.to_nat n)%nat /\ marks !! k = Some 0 /\ configured suit (S j0) k = true)) as [(Hd & Hz & Hcf)|Hd].
      - rewrite Hcf. destruct (Z.leb_spec (Z.of_nat k) n); [|lia]. cbn. split; [intros [=]; lia|intros [[=] _]].
      - split; [|tauto]. intros Hz. split; [|exact Hz]. destruct (Z.leb_spec (Z.of_nat k) n); [|reflexivity]. cbn. destruct (configured suit (S j0) k) eqn:Ecf; [|reflexivity]. exfalso. apply Hd. split; [lia|auto]. }
    eexists. split; [rewrite adds_app; reflexivity|]. rewrite Hp.
    assert (Hstep : flat_map (step_part suit j marks) (down (Z.to_nat n)) ≡ₚ flat_map (fun k => if served pieces suit done k then [] else if Z.of_nat k <=? n then given suit j k else []) (seq 2 8)).
    { transitivity (flat_map (fun k => if Z.of_nat k <=? n then step_part suit j marks k else []) (seq 2 8)).
      - clear -Hn0 Hn10. assert (E : exists m, n = Z.of_nat m) by (exists (Z.to_nat n); lia). destruct E as [m ->]. rewrite Nat2Z.id. assert (Hm : (m < 10)%nat) by lia.
        do 10 (destruct m as [|m]; [cbn -[step_part]; compute_tests; rewrite ?app_nil_r; solve_perm|]). lia.
      - apply perm_eq, flat_map_ext_in. intros k Hk. apply elem_of_seq in Hk. specialize (Hm k ltac:(lia)). unfold step_part. destruct (served pieces suit done k).
        + rewrite decide_False by (rewrite Hm; discriminate). destruct (_ <=? _); reflexivity.
        + rewrite decide_True by now apply Hm. reflexivity. }
    rewrite Hstep, <- flat_map_both. apply perm_eq, flat_map_ext_in. intros k _. cbn [below best]. unfold served at 2. cbn [existsb]. fold (served pieces suit done k). fold n. unfold configured, given.
    destruct (served pieces suit done k); [rewrite orb_true_r; reflexivity|]. rewrite orb_false_r. destruct (Z.of_nat k <=? n); [|reflexivity]. cbn [andb]. destruct (get_equip_suit_config cfg suit (Z.of_nat j) (Z.of_nat k)); [now rewrite app_nil_r|reflexivity].
Qed.

Lemma suits_adds pieces n : (length pieces <= n)%nat -> (forall s q, s <> 0 -> 0 <= q -> count_pieces pieces s q < 10) -> forall head,
  exists l, suit_properties cfg (calc_suit pieces (repeat (0, repeat 0 10) n)) head = Ret (add_propertys head l) /\ l ≡ₚ suits_part pieces.
Proof.
  intros Hl Hc head. destruct (calc_suit_spec n pieces [] [] base.NoDup_nil_2 (not_elem_of_nil 0)) as (suits & He & Hn & Hs); [intros s; cbn; rewrite !elem_of_nil; tauto|cbn; lia|].
  change (entries [] [] n) with (repeat (0, repeat 0 10) (n - 0)) in He. rewrite Nat.sub_0_r in He. rewrite He. cbn [app] in Hs. clear He. unfold entries.
  assert (Hperm : suits ≡ₚ suits_of pieces).
  { apply list.NoDup_Permutation; [exact Hn|apply NoDup_remove_dups|]. intros s. unfold suits_of. rewrite elem_of_remove_dups, Hs. rewrite !list_elem_of_fmap. split.
    - intros [Hz (p & -> & Hp)]. exists p. split; [reflexivity|]. now apply list_elem_of_filter.
    - intros (p & -> & Hp). apply list_elem_of_filter in Hp as [Hz Hp]. eauto. }
  cut (forall m head, exists l, suit_properties cfg (map (fun s => (s, counts pieces s)) suits ++ repeat (0, repeat 0 10) m) head = Ret (add_propertys head l) /\ l ≡ₚ flat_map (suit_bonus pieces) suits).
  { intros Hcut. destruct (Hcut (n - length suits)%nat head) as (l & He & Hp). exists l. split; [exact He|]. rewrite Hp. now apply flat_map_perm. }
  clear Hperm Hn. assert (Hz : forall s, s ∈ suits -> s <> 0) by (intros s Hin; now apply Hs in Hin). clear Hs. intros m.
  induction suits as [|s suits IH]; intros h.
  - exists []. split; [|reflexivity]. cbn [map app add_propertys fold_left]. clear. induction m as [|m IH]; [reflexivity|]. cbn [repeat suit_properties fold_outcome fst]. exact IH.
  - cbn [map app suit_properties fold_outcome]. cbn [fst]. destruct (Z.eqb_spec s 0) as [->|Hs0]; [exfalso; apply (Hz 0); [left|reflexivity]|].
    destruct (suit_qualities_spec pieces s 10 ltac:(lia) (fun q => Hc s q Hs0) [] (repeat 0 10) h eq_refl) as (l & -> & Hp).
    { right. intros k Hk. unfold served. cbn [existsb]. split; [reflexivity|]. intros _. do 10 (destruct k as [|k]; [reflexivity|]). lia. }
    cbn [mbind outcome_bind]. destruct (IH (fun x Hx => Hz x (list_elem_of_further _ _ _ Hx)) (add_propertys h l)) as (l' & He & Hp'). exists (l ++ l').
    split; [|cbn [flat_map]; rewrite Hp, Hp'; reflexivity]. rewrite <- adds_app. exact He.
Qed.

(** *** Everything *)

Definition buff_part (hero : Hero) : list property :=
  flat_map (fun b => match get_buff_config cfg (fst b) with
    | None => []
    | Some c => if (bc_hero_id c =? 0) || (bc_hero_id c =? i32 (h_gid hero)) then [(bc_type c, i32 (bc_value c * snd b))] else []
    end) (buffs pl).
Definition fashion_part (hero : Hero) : list property :=
  flat_map (fun item => if (fst (fst item) =? 1) && (snd (fst item) =? h_uuid hero) then match get_fashion_by_item cfg (h_gid hero) (snd item) with None => [] | Some p => [p] end else [])
    (hero_items pl).
(** What counts for a hero, and the pieces of sets. *)
Definition contributions (hero : Hero) : outcome (list property * list (Z * Z)) :=
  talents ← talents_part hero;
  '(l, pieces) ← places_part hero (seq 1 EQUIP_INTO_BATTLE_MAX) (own_part hero ++ talents) (repeat (0, 0) SUIT_SLOT_COUNT);
  Ret (l ++ suits_part pieces ++ buff_part hero ++ fashion_part hero, pieces).

Lemma suit_pieces_length equip i suit_in suit_in' : suit_pieces cfg equip i suit_in = Ret suit_in' -> length suit_in' = length suit_in.
Proof.
  assert (Hput : forall si k p si', put_suit si k p = Ret si' -> length si' = length si).
  { intros si k p si'. unfold put_suit. destruct (_ <? _)%nat; [|discriminate]. intros [= <-]. apply length_insert. }
  assert (Hfold : forall (f : list (Z * Z) -> nat -> outcome (list (Z * Z))) js si si', (forall si j si', f si j = Ret si' -> length si' = length si) -> fold_outcome f si js = Ret si' -> length si' = length si).
  { intros f js. induction js as [|j js IH]; intros si si' Hf E; cbn [fold_outcome] in E; [now injection E as <-|]. destruct (f si (j : nat)) as [x| | |] eqn:Ex; try discriminate. cbn in E. rewrite (IH _ _ Hf E). eauto. }
  unfold suit_pieces. intros E. destruct (match get_equip_config cfg (e_gid equip) with Some c => _ | None => _ end) as [si| | |] eqn:E1; try discriminate. cbn [mbind outcome_bind] in E.
  assert (El : length si = length suit_in) by (destruct (get_equip_config cfg (e_gid equip)); [eauto|now injection E1 as <-]). rewrite <- El. eapply Hfold; [|exact E]. cbn beta. intros x j x'.
  destruct (equip_get_affix equip (j + 1)) as [id|]; [|now intros [= <-]]. destruct (id =? 0); [now intros [= <-]|]. destruct (get_equip_affix_config cfg id); [apply Hput|now intros [= <-]].
Qed.

Lemma places_length hero places : forall l pieces l' pieces', places_part hero places l pieces = Ret (l', pieces') -> length pieces' = length pieces.
Proof.
  induction places as [|i places IH]; intros l pieces l' pieces' E; cbn [places_part] in E; [now injection E as _ <-|]. destruct (equip_get_by_hero pl (h_uuid hero) (Z.of_nat i)) as [equip|]; [|eauto].
  destruct (equip_part equip 10000) as [k| | |]; try discriminate. cbn [mbind outcome_bind] in E. destruct (if 0 <? _ then _ else _) as [l1| | |]; try discriminate. cbn [mbind outcome_bind] in E.
  destruct (suit_pieces cfg equip i pieces) as [p1| | |] eqn:Ep; try discriminate. cbn [mbind outcome_bind] in E. rewrite (IH _ _ _ _ E). eapply suit_pieces_length. exact Ep.
Qed.

Lemma buff_adds hero head : is_player pl = true -> calc_fashion_property cfg pl hero (calc_buff_property cfg pl hero head) = add_propertys head (buff_part hero ++ fashion_part hero).
Proof.
  intros Hp. unfold calc_fashion_property, calc_buff_property. rewrite Hp. cbn [negb].
  rewrite (adds_pure (fun head b => match get_buff_config cfg (fst b) with None => head | Some c => if (bc_hero_id c =? 0) || (bc_hero_id c =? i32 (h_gid hero)) then hero_property_add head (bc_type c) (i32 (bc_value c * snd b)) else head end)
    (fun b => match get_buff_config cfg (fst b) with None => [] | Some c => if (bc_hero_id c =? 0) || (bc_hero_id c =? i32 (h_gid hero)) then [(bc_type c, i32 (bc_value c * snd b))] else [] end))
    by (intros h b; destruct (get_buff_config cfg (fst b)); [destruct (_ || _)|]; reflexivity).
  rewrite <- adds_app. apply adds_pure. intros h [[status uid] id]. cbn [fst snd]. destruct (_ && _); [|reflexivity]. destruct (get_fashion_by_item cfg (h_gid hero) id); reflexivity.
Qed.
End Reference.

(** What the code adds: the contributions, whatever is lost. *)
Lemma contributions_added (cfg : configs) (pl : holder) (hero : Hero) l pieces :
  is_player pl = true -> contributions cfg pl hero = Ret (l, pieces) -> (forall suit, suit <> 0 -> count_pieces pieces suit 0 < 10) ->
  exists head, calc_hero_property cfg pl hero [] = Ret head /\ agrees head l.
Proof.
  intros Hp Hc Hs. unfold contributions in Hc. unfold calc_hero_property. rewrite Hp. cbn [negb]. rewrite own_adds.
  pose proof (talents_adds cfg pl hero (add_propertys [] (own_part cfg hero))) as E. destruct (talents_part cfg pl hero) as [talents| | |]; try discriminate. cbn [mbind outcome_bind] in *. rewrite E. cbn [mbind outcome_bind].
  rewrite adds_app, places_adds. destruct (places_part cfg pl hero _ _ _) as [[l1 pieces1]| | |] eqn:Epl; try discriminate. cbn [mbind outcome_bind] in *. injection Hc as <- <-.
  assert (Hcount : forall s q, s <> 0 -> 0 <= q -> count_pieces pieces1 s q < 10).
  { intros s q Hs0 Hq. specialize (Hs s Hs0). unfold count_pieces in *. eapply Z.le_lt_trans; [|exact Hs]. unfold zlen. apply inj_le. clear -Hq.
    induction pieces1 as [|p l IH]; [apply Nat.le_refl|]. rewrite !list.filter_cons. destruct (decide (fst p = s /\ q <= snd p)) as [Hd|Hd].
    - rewrite decide_True by (split; [tauto|lia]). cbn [length]. lia.
    - destruct (decide (fst p = s /\ 0 <= snd p)); cbn [length]; lia. }
  destruct (suits_adds cfg pieces1 SUIT_SLOT_COUNT) with (head := add_propertys [] l1) as (ls & -> & Hperm); [rewrite (places_length _ _ _ _ _ _ _ _ Epl), repeat_length; lia|exact Hcount|]. cbn [mbind outcome_bind].
  rewrite buff_adds by exact Hp. rewrite !adds_app. eexists. split; [reflexivity|].
  assert (Ha : agrees (add_propertys [] (l1 ++ ls ++ buff_part cfg pl hero ++ fashion_part cfg pl hero)) (l1 ++ suits_part cfg pieces1 ++ buff_part cfg pl hero ++ fashion_part cfg pl hero)).
  { eapply agrees_perm; [exact (agrees_adds _ [] [] agrees_nil)|]. cbn [app]. now rewrite Hperm. }
  exact Ha.
Qed.

(** ** What is meant to count *)

(** A property that changes something. *)
Definition effective (p : property) : Prop := fst p <> 0 /\ i32 (snd p) <> 0.
#[global] Instance effective_dec p : Decision (effective p).
Proof. unfold effective. apply _. Defined.

Lemma total_effective t l : t <> 0 -> i32 (total t (filter effective l)) = i32 (total t l).
Proof.
  intros Ht. induction l as [|p l IH]; [reflexivity|]. rewrite list.filter_cons. change (total t (p :: l)) with ((if fst p =? t then snd p else 0) + total t l). destruct (decide (effective p)) as [He|He].
  - change (total t (p :: filter effective l)) with ((if fst p =? t then snd p else 0) + total t (filter effective l)). rewrite (Z.add_comm _ (total t l)), (Z.add_comm _ (total t (filter _ _))), <- i32_add_l, IH. apply i32_add_l.
  - rewrite IH. destruct (Z.eqb_spec (fst p) t) as [E|]; [|reflexivity]. assert (Ez : i32 (snd p) = 0) by (destruct (Z.eq_dec (i32 (snd p)) 0); [assumption|exfalso; apply He; split; congruence]).
    rewrite <- i32_add_l, Ez. reflexivity.
Qed.

Lemma agrees_effective head l k : filter effective l ≡ₚ filter effective k -> agrees head l -> agrees head k.
Proof.
  intros Hp [Hn Ht Hv]. constructor; [exact Hn| |].
  - intros t. rewrite Ht. split; intros (Hz & p & Hin & <- & Hi); (split; [exact Hz|]); exists p; (split; [|auto]);
      [assert (Hf : p ∈ filter effective k) by (rewrite <- Hp; apply list_elem_of_filter; repeat split; assumption)|assert (Hf : p ∈ filter effective l) by (rewrite Hp; apply list_elem_of_filter; repeat split; assumption)];
      now apply list_elem_of_filter in Hf.
  - intros t Hz. rewrite (Hv t Hz), <- (total_effective t l Hz), <- (total_effective t k Hz). f_equal. now apply total_perm.
Qed.

Section Intended.
Context (cfg : configs) (pl : holder) (hero : Hero).

(** The equipment at a place, and the further equipment there: an equipment fits place [i] when bit [i - 1] of its
    type is set ([check_equip_placeholder] of [logic/aL.c]), so the places 1 to 6 are those of the second kind, for
    which common configuration 13 says with what ratio how many groups count, and 7 to 12 those of the first (12). *)
Definition worn (i : Z) : option Equip := equip_get_by_hero pl (h_uuid hero) i.
Definition main_part (i : nat) : outcome (list property) := match worn (Z.of_nat i) with None => Ret [] | Some equip => equip_part cfg equip 10000 end.
Definition further_config (i : nat) : option (Z * Z) := get_common_config cfg (if (i <=? 6)%nat then 13 else 12).
Definition further_part (i : nat) : outcome (list property) :=
  match further_config i with
  | None => Ret []
  | Some (ratio, groups) =>
    if 0 <? ratio then collect (fun group => match worn (Z.lor (Z.shiftl group 8) (Z.of_nat i)) with None => Ret [] | Some equip => equip_part cfg equip ratio end) (seqZ 1 groups)
    else Ret []
  end.
Definition place_part (i : nat) : outcome (list property) :=
  match worn (Z.of_nat i) with None => Ret [] | Some _ => k ← main_part i; f ← further_part i; Ret (k ++ f) end.

(** The pieces of sets the hero wears: its equipment and the affixes on it, wherever they are. *)
Definition affix_piece (a : Z * Z * Z) : list (Z * Z) :=
  if fst (fst a) =? 0 then [] else match get_equip_affix_config cfg (fst (fst a)) with Some ac => [(ac_suit_id ac, ac_quality ac)] | None => [] end.
Definition equip_pieces (equip : Equip) : list (Z * Z) :=
  match get_equip_config cfg (e_gid equip) with Some c => [(ec_suit c, ec_quality c)] | None => [] end ++ flat_map affix_piece (take EQUIP_PROPERTY_POOL_MAX (e_affix equip)).
Definition place_pieces (i : nat) : list (Z * Z) := match worn (Z.of_nat i) with None => [] | Some equip => equip_pieces equip end.
Definition pieces_worn : list (Z * Z) := flat_map place_pieces (seq 1 EQUIP_INTO_BATTLE_MAX).

(** Everything that is meant to count. *)
Definition what_counts : outcome (list property) :=
  talents ← talents_part cfg pl hero;
  places ← collect place_part (seq 1 EQUIP_INTO_BATTLE_MAX);
  Ret (own_part cfg hero ++ talents ++ places ++ suits_part cfg pieces_worn ++ buff_part cfg pl hero ++ fashion_part cfg pl hero).

(** What must not be, for the code to count it all. *)

(** No set has ten pieces: the code reads behind its counts then. *)
Definition few_pieces : Prop := forall suit, suit <> 0 -> count_pieces pieces_worn suit 0 < 10.
(** No affix of a set is at place 1 with other equipment at the place whose entry it takes ([affix_suit_overwritten]). *)
Definition affixes_kept : Prop := forall j equip a ac other c, worn 1 = Some equip -> take EQUIP_PROPERTY_POOL_MAX (e_affix equip) !! j = Some a -> fst (fst a) <> 0 ->
  get_equip_affix_config cfg (fst (fst a)) = Some ac -> worn (7 + Z.of_nat j) = Some other -> get_equip_config cfg (e_gid other) = Some c -> ac_suit_id ac = 0.
(** Something of a list has the type of a property. *)
Definition among (l : list property) (p : property) : Prop := Exists (fun q => fst q = fst p /\ i32 (snd q) <> 0) l.
#[local] Instance among_dec l p : Decision (among l p).
Proof. unfold among. apply _. Defined.
(** Further equipment has no type nothing else has before it ([addon_type_lost]). *)
Definition types_kept : Prop := forall i talents m f, (1 <= i <= EQUIP_INTO_BATTLE_MAX)%nat -> is_Some (worn (Z.of_nat i)) ->
  talents_part cfg pl hero = Ret talents -> collect main_part (seq 1 i) = Ret m -> further_part i = Ret f ->
  Forall (fun p => effective p -> among (own_part cfg hero ++ talents ++ m) p) f.
(** The two kinds of places are configured alike, or only those of the second are used ([common_12_unused]). *)
Definition kinds_alike : Prop := forall i, (7 <= i <= EQUIP_INTO_BATTLE_MAX)%nat -> is_Some (worn (Z.of_nat i)) -> get_common_config cfg 12 = get_common_config cfg 13.
Lemma groups_of_kind i : kinds_alike -> (1 <= i <= EQUIP_INTO_BATTLE_MAX)%nat -> is_Some (worn (Z.of_nat i)) ->
  addon_groups cfg (Z.of_nat i) = match further_config i with Some c => (snd c, fst c) | None => (0, 0) end.
Proof.
  intros Hk Hi Hw. assert (E : get_common_config cfg (if (i <=? 6)%nat then 13 else 12) = get_common_config cfg 13).
  { destruct (Nat.leb_spec i 6); [reflexivity|]. apply (Hk i); [lia|exact Hw]. }
  unfold further_config. rewrite E. clear -Hi. unfold EQUIP_INTO_BATTLE_MAX in Hi. unfold addon_groups.
  assert (IS_EQUIP_TYPE_1 (Z.of_nat i) = false /\ IS_EQUIP_TYPE_2 (Z.of_nat i) = true) as [-> ->] by (do 13 (destruct i as [|i]; [first [lia|split; reflexivity]|]); lia).
  destruct (get_common_config cfg 12); reflexivity.
Qed.

(** *** Further equipment *)

Lemma among_app p (l k : list property) : among (l ++ k) p <-> among l p \/ among k p.
Proof. apply list.Exists_app. Qed.

Lemma counted_all l k : Forall (fun p => effective p -> among l p) k -> filter effective (counted l k) = filter effective k.
Proof.
  induction 1 as [|p k Hp Hk IH]; [reflexivity|]. unfold counted in *. rewrite (list.filter_cons _ p k). case_decide as Hd; rewrite !list.filter_cons, ?IH; [reflexivity|].
  rewrite decide_False; [reflexivity|]. intros He. apply Hd. split; [apply He|now apply Hp].
Qed.

Lemma addon_known i ratio groups : forall l f,
  collect (fun group => match worn (Z.lor (Z.shiftl group 8) i) with None => Ret [] | Some equip => equip_part cfg equip ratio end) groups = Ret f ->
  Forall (fun p => effective p -> among l p) f ->
  exists l', addon_part cfg pl hero i ratio groups l = Ret (l ++ l') /\ filter effective l' = filter effective f.
Proof.
  unfold worn. induction groups as [|group groups IH]; intros l f Hc Hf; cbn [collect addon_part] in *; [injection Hc as <-; exists []; now rewrite app_nil_r|].
  destruct (equip_get_by_hero pl (h_uuid hero) _) as [equip|]; cbn [mbind outcome_bind] in *.
  - destruct (equip_part cfg equip ratio) as [k| | |]; try discriminate. cbn [mbind outcome_bind] in *. destruct (collect _ groups) as [f'| | |]; try discriminate. cbn [mbind outcome_bind] in Hc. injection Hc as <-.
    apply list.Forall_app in Hf as [Hk Hf']. destruct (IH (l ++ counted l k) f' eq_refl) as (l' & -> & E); [eapply list.Forall_impl; [exact Hf'|]; intros p Hp He; apply among_app; left; apply Hp, He|].
    exists (counted l k ++ l'). rewrite !list.filter_app, app_assoc, E, counted_all by exact Hk. auto.
  - destruct (collect _ groups) as [f'| | |]; try discriminate. cbn [mbind outcome_bind app] in Hc. injection Hc as <-. now apply IH.
Qed.

Lemma places_known pieces : kinds_alike -> forall places l r si, (forall i, i ∈ places -> (1 <= i <= EQUIP_INTO_BATTLE_MAX)%nat) ->
  fold_outcome (fun si i => match worn (Z.of_nat i) with None => Ret si | Some equip => suit_pieces cfg equip i si end) si places = Ret pieces -> collect place_part places = Ret r ->
  (forall pre i post m f, places = pre ++ i :: post -> is_Some (worn (Z.of_nat i)) -> collect main_part (pre ++ [i]) = Ret m -> further_part i = Ret f -> Forall (fun p => effective p -> among (l ++ m) p) f) ->
  exists l', places_part cfg pl hero places l si = Ret (l ++ l', pieces) /\ filter effective l' = filter effective r.
Proof.
  intros Hk. induction places as [|i places IH]; intros l r si Hin Hs Hc Hf; cbn [fold_outcome collect places_part] in *; [injection Hs as <-; injection Hc as <-; exists []; now rewrite app_nil_r|].
  destruct (place_part i) as [r1| | |] eqn:E1; try discriminate. destruct (collect place_part places) as [r2| | |] eqn:E2; try discriminate. cbn [mbind outcome_bind] in Hc. injection Hc as <-.
  assert (Hm1 : forall pre i' post m f, places = pre ++ i' :: post -> is_Some (worn (Z.of_nat i')) -> collect main_part (pre ++ [i']) = Ret m -> further_part i' = Ret f -> forall k, main_part i = Ret k -> Forall (fun p => effective p -> among (l ++ k ++ m) p) f).
  { intros pre i' post m f -> Hw Hm Hfu k Hk1. apply (Hf (i :: pre) i' post (k ++ m) f eq_refl Hw); [|exact Hfu]. cbn [app collect]. rewrite Hk1, Hm. reflexivity. }
  assert (Hhere : is_Some (worn (Z.of_nat i)) -> forall k f, main_part i = Ret k -> further_part i = Ret f -> Forall (fun p => effective p -> among (l ++ k) p) f).
  { intros Hw k f Hk1 Hfu. apply (Hf [] i places k f eq_refl Hw); [|exact Hfu]. cbn [app collect]. rewrite Hk1. cbn. now rewrite app_nil_r. }
  pose proof (groups_of_kind i Hk (Hin i ltac:(left))) as Hg. unfold place_part, main_part in *. fold (worn (Z.of_nat i)). destruct (worn (Z.of_nat i)) as [equip|] eqn:Ew; cbn [mbind outcome_bind] in *.
  - destruct (equip_part cfg equip 10000) as [k| | |]; try discriminate. cbn [mbind outcome_bind] in *. destruct (further_part i) as [f| | |] eqn:Ef; try discriminate. cbn [mbind outcome_bind] in E1. injection E1 as <-.
    rewrite (Hg ltac:(eauto)). specialize (Hhere ltac:(eauto) k f eq_refl eq_refl).
    assert (Hadd : exists l', (if 0 <? snd (match further_config i with Some c => (snd c, fst c) | None => (0, 0) end)
        then addon_part cfg pl hero (Z.of_nat i) (snd (match further_config i with Some c => (snd c, fst c) | None => (0, 0) end)) (seqZ 1 (fst (match further_config i with Some c => (snd c, fst c) | None => (0, 0) end))) (l ++ k)
        else Ret (l ++ k)) = Ret ((l ++ k) ++ l') /\ filter effective l' = filter effective f).
    { unfold further_part in Ef. destruct (further_config i) as [[ratio groups]|]; cbn [fst snd]; [destruct (0 <? ratio); [exact (addon_known _ _ _ _ _ Ef Hhere)|]|]; injection Ef as <-; exists []; now rewrite app_nil_r. }
    destruct Hadd as (l1 & -> & E1). cbn [mbind outcome_bind]. destruct (suit_pieces cfg equip i si) as [si1| | |]; try discriminate. cbn [mbind outcome_bind] in *.
    destruct (IH ((l ++ k) ++ l1) r2 si1) as (l2 & -> & E2'); [intros j Hj; apply Hin; now right|exact Hs|reflexivity| |].
    { intros pre i' post m f' Hpl Hw Hm Hfu. eapply list.Forall_impl; [exact (Hm1 pre i' post m f' Hpl Hw Hm Hfu k eq_refl)|]. intros p Hp He. specialize (Hp He).
      rewrite !among_app in *. tauto. }
    exists (k ++ l1 ++ l2). rewrite !list.filter_app, E1, E2', <- !app_assoc. auto.
  - injection E1 as <-. apply (IH l r2 si); [intros j Hj; apply Hin; now right|exact Hs|reflexivity|].
    intros pre i' post m f' Hpl Hw Hm Hfu. exact (Hm1 pre i' post m f' Hpl Hw Hm Hfu [] eq_refl).
Qed.

(** *** The pieces of sets *)

Abbreviation of_set := (filter (fun p : Z * Z => fst p <> 0)).

Lemma put_free si k p q : si !! k = Some q -> fst q = 0 -> put_suit si k p = Ret (<[k := p]> si) /\ of_set (<[k := p]> si) ≡ₚ of_set si ++ of_set [p].
Proof.
  intros Hk Hq. pose proof (lookup_lt_Some _ _ _ Hk) as Hl. split; [unfold put_suit; now apply Nat.ltb_lt in Hl as ->|].
  rewrite insert_take_drop by exact Hl. rewrite <- (take_drop_middle si k q Hk) at 3. rewrite !list.filter_app. change (p :: drop (S k) si) with ([p] ++ drop (S k) si). change (q :: drop (S k) si) with ([q] ++ drop (S k) si). rewrite !list.filter_app.
  assert (of_set [q] = []) as -> by (rewrite list.filter_cons, decide_False by (intros Hn; contradiction); reflexivity). cbn [app]. solve_perm.
Qed.

Definition affix_entry (si : list (Z * Z)) (equip : Equip) (i j : nat) : Prop :=
  si !! (i * 6 + j)%nat = Some (0, 0) \/ exists a p, take EQUIP_PROPERTY_POOL_MAX (e_affix equip) !! j = Some a /\ affix_piece a = [p] /\ si !! (i * 6 + j)%nat = Some p.

Lemma affixes_enter equip i m : forall j si, (j + m = 6)%nat -> (forall k, (i * 6 + j <= k < i * 6 + 6)%nat -> si !! k = Some (0, 0)) ->
  exists si', fold_outcome (fun suit_in j =>
      match equip_get_affix equip (j + 1) with
      | None => Ret suit_in
      | Some id =>
        if id =? 0 then Ret suit_in
        else match get_equip_affix_config cfg id with Some ac => put_suit suit_in (i * EQUIP_PROPERTY_POOL_MAX + j) (ac_suit_id ac, ac_quality ac) | None => Ret suit_in end
      end) si (seq j m) = Ret si' /\ length si' = length si /\ (forall k, ~ (i * 6 + j <= k < i * 6 + 6)%nat -> si' !! k = si !! k) /\
    (forall j', (j <= j' < 6)%nat -> affix_entry si' equip i j') /\
    of_set si' ≡ₚ of_set si ++ of_set (flat_map affix_piece (drop j (take EQUIP_PROPERTY_POOL_MAX (e_affix equip)))).
Proof.
  induction m as [|m IH]; intros j si Hj Hz; cbn [seq fold_outcome].
  { exists si. split; [reflexivity|]. split; [reflexivity|]. split; [reflexivity|]. split; [lia|]. rewrite drop_ge by (rewrite length_take; unfold EQUIP_PROPERTY_POOL_MAX; lia). cbn. now rewrite app_nil_r. }
  assert (Hstep : exists si1, match equip_get_affix equip (j + 1) with
      | None => Ret si
      | Some id =>
        if id =? 0 then Ret si
        else match get_equip_affix_config cfg id with Some ac => put_suit si (i * EQUIP_PROPERTY_POOL_MAX + j) (ac_suit_id ac, ac_quality ac) | None => Ret si end
      end = Ret si1 /\ length si1 = length si /\ (forall k, k <> (i * 6 + j)%nat -> si1 !! k = si !! k) /\ affix_entry si1 equip i j /\
      of_set si1 ≡ₚ of_set si ++ of_set (match take EQUIP_PROPERTY_POOL_MAX (e_affix equip) !! j with Some a => affix_piece a | None => [] end)).
  { assert (Hnone : forall a, a = [] -> length si = length si /\ (forall k, k <> (i * 6 + j)%nat -> si !! k = si !! k) /\ affix_entry si equip i j /\ of_set si ≡ₚ of_set si ++ of_set a)
      by (intros a ->; repeat split; [left; apply Hz; lia|cbn; now rewrite app_nil_r]).
    rewrite Nat.add_1_r. unfold equip_get_affix. destruct (take EQUIP_PROPERTY_POOL_MAX (e_affix equip) !! j) as [a|] eqn:Ea; cbn [fmap option_fmap option_map]; [|eauto]. unfold affix_piece.
    destruct (fst (fst a) =? 0) eqn:E0; [eauto|]. destruct (get_equip_affix_config cfg (fst (fst a))) as [ac|] eqn:Ec; [|eauto].
    assert (Hzj := Hz (i * 6 + j)%nat ltac:(lia)). destruct (put_free si (i * 6 + j) (ac_suit_id ac, ac_quality ac) (0, 0) Hzj eq_refl) as [Hput Hp]. eexists. split; [exact Hput|].
    split; [apply length_insert|]. split; [intros k Hk; now rewrite list_lookup_insert_ne by congruence|]. split; [|exact Hp].
    right. exists a, (ac_suit_id ac, ac_quality ac). split; [exact Ea|]. unfold affix_piece. rewrite E0, Ec. split; [reflexivity|]. apply list_lookup_insert_eq. now apply lookup_lt_Some in Hzj. }
  destruct Hstep as (si1 & -> & Hl1 & Hs1 & Ha1 & Hp1). cbn [mbind outcome_bind]. destruct (IH (S j) si1) as (si' & -> & Hl & Hs & Ha & Hp); [lia|intros k Hk; rewrite Hs1 by lia; apply Hz; lia|].
  exists si'. split; [reflexivity|]. split; [lia|]. split; [intros k Hk; rewrite Hs by lia; apply Hs1; lia|]. split.
  - intros j' Hj'. destruct (decide (j' = j)) as [->|]; [|apply Ha; lia]. unfold affix_entry in *. rewrite Hs by lia. exact Ha1.
  - rewrite Hp, Hp1. destruct (take EQUIP_PROPERTY_POOL_MAX (e_affix equip) !! j) as [a|] eqn:Ea.
    + rewrite (drop_S _ _ _ Ea). cbn [flat_map]. rewrite list.filter_app. solve_perm.
    + rewrite !drop_ge by (apply lookup_ge_None in Ea; lia). cbn. now rewrite !app_nil_r.
Qed.

(** The entries after the first [n] places: what comes later is free, and so is what the equipment of a later place takes. *)
Record entered (n : nat) (si : list (Z * Z)) : Prop := {
  en_length : length si = SUIT_SLOT_COUNT;
  en_later : forall k, (n * 6 + 6 <= k < SUIT_SLOT_COUNT)%nat -> si !! k = Some (0, 0);
  en_own : forall k equip c, (n <= k < 12)%nat -> worn (Z.of_nat (k + 1)) = Some equip -> get_equip_config cfg (e_gid equip) = Some c -> exists p, si !! k = Some p /\ fst p = 0;
  en_pieces : of_set si ≡ₚ of_set (flat_map place_pieces (seq 1 n)) }.

Lemma entered_start : entered 0 (repeat (0, 0) SUIT_SLOT_COUNT).
Proof.
  assert (Hk : forall k, (k < SUIT_SLOT_COUNT)%nat -> repeat (0, 0) SUIT_SLOT_COUNT !! k = Some (0, 0)) by (generalize SUIT_SLOT_COUNT; intros m; induction m as [|m IH]; intros [|k] Hk; [lia|lia|reflexivity|apply IH; lia]).
  constructor; [reflexivity|intros k Hk1; apply Hk; lia| |reflexivity].
  intros k equip c Hk1 _ _. exists (0, 0). split; [apply Hk; unfold SUIT_SLOT_COUNT, EQUIP_INTO_BATTLE_MAX; lia|reflexivity].
Qed.

Lemma place_enters n si : affixes_kept -> entered n si -> (n < EQUIP_INTO_BATTLE_MAX)%nat ->
  exists si', match worn (Z.of_nat (S n)) with None => Ret si | Some equip => suit_pieces cfg equip (S n) si end = Ret si' /\ entered (S n) si'.
Proof.
  intros Hkept [Hl Hlater Hown Hp] Hn. unfold EQUIP_INTO_BATTLE_MAX in Hn. assert (H84 : SUIT_SLOT_COUNT = 84%nat) by reflexivity. rewrite H84 in *.
  assert (Hseq : of_set (flat_map place_pieces (seq 1 (S n))) = of_set (flat_map place_pieces (seq 1 n)) ++ of_set (place_pieces (S n))) by (rewrite seq_S, flat_map_app, list.filter_app; cbn [flat_map plus]; now rewrite app_nil_r).
  unfold place_pieces at 3 in Hseq. destruct (worn (Z.of_nat (S n))) as [equip|] eqn:Ew.
  2:{ exists si. split; [reflexivity|]. constructor; [rewrite H84; exact Hl|intros k Hk; apply Hlater; lia|intros k e c Hk; apply Hown; lia|]. rewrite Hp, Hseq. cbn. now rewrite app_nil_r. }
  unfold suit_pieces. replace (S n - 1)%nat with n by lia.
  assert (Hfirst : exists si1, match get_equip_config cfg (e_gid equip) with Some c => put_suit si n (ec_suit c, ec_quality c) | None => Ret si end = Ret si1 /\ length si1 = length si /\
      (forall k, k <> n -> si1 !! k = si !! k) /\ of_set si1 ≡ₚ of_set si ++ of_set (match get_equip_config cfg (e_gid equip) with Some c => [(ec_suit c, ec_quality c)] | None => [] end)).
  { destruct (get_equip_config cfg (e_gid equip)) as [c|] eqn:Ec; [|exists si; repeat split; cbn; now rewrite app_nil_r].
    destruct (Hown n equip c ltac:(lia)) as (p & Hnp & Hz); [now rewrite Nat.add_1_r|exact Ec|]. destruct (put_free si n (ec_suit c, ec_quality c) p Hnp Hz) as [-> Hput].
    eexists. split; [reflexivity|]. split; [apply length_insert|]. split; [intros k Hk; now rewrite list_lookup_insert_ne by congruence|exact Hput]. }
  destruct Hfirst as (si1 & -> & Hl1 & Hs1 & Hp1). cbn [mbind outcome_bind].
  change (seq 0 EQUIP_PROPERTY_POOL_MAX) with (seq 0 6). destruct (affixes_enter equip (S n) 6 0 si1 eq_refl) as (si2 & -> & Hl2 & Hs2 & Ha2 & Hp2); [intros k Hk; rewrite Hs1 by lia; apply Hlater; lia|].
  exists si2. split; [reflexivity|]. constructor.
  - rewrite H84. lia.
  - intros k Hk. rewrite Hs2, Hs1 by lia. apply Hlater. lia.
  - intros k other c Hk Hw Hc. destruct (decide (S n * 6 + 0 <= k < S n * 6 + 6)%nat) as [Hr|Hr]; [|rewrite Hs2, Hs1 by lia; apply (Hown k other c); [lia|assumption..]].
    assert (n = 0%nat) as -> by lia. destruct (Ha2 (k - 6)%nat ltac:(lia)) as [He|(a & p & Ha & Hpa & He)]; replace (1 * 6 + (k - 6))%nat with k in He by lia; [exists (0, 0); now split|].
    exists p. split; [exact He|]. unfold affix_piece in Hpa. destruct (Z.eqb_spec (fst (fst a)) 0); [discriminate|]. destruct (get_equip_affix_config cfg (fst (fst a))) as [ac|] eqn:Ec; [|discriminate]. injection Hpa as <-.
    apply (Hkept (k - 6)%nat equip a ac other c Ew Ha); [assumption|exact Ec| |exact Hc]. replace (7 + Z.of_nat (k - 6)) with (Z.of_nat (k + 1)) by lia. exact Hw.
  - rewrite Hp2, Hp1, Hp, Hseq. unfold equip_pieces. rewrite drop_0, list.filter_app. solve_perm.
Qed.

Lemma fold_outcome_app {A B} (f : B -> A -> outcome B) l k : forall b, fold_outcome f b (l ++ k) = (b ← fold_outcome f b l; fold_outcome f b k).
Proof. induction l as [|a l IH]; intros b; [reflexivity|]. cbn [app fold_outcome]. destruct (f b a); cbn [mbind outcome_bind]; auto. Qed.

Lemma places_enter n : affixes_kept -> (n <= EQUIP_INTO_BATTLE_MAX)%nat ->
  exists si, fold_outcome (fun si i => match worn (Z.of_nat i) with None => Ret si | Some equip => suit_pieces cfg equip i si end) (repeat (0, 0) SUIT_SLOT_COUNT) (seq 1 n) = Ret si /\ entered n si.
Proof.
  intros Hk. induction n as [|n IH]; intros Hn; [exists (repeat (0, 0) SUIT_SLOT_COUNT); split; [reflexivity|apply entered_start]|].
  destruct (IH ltac:(lia)) as (si & He & Hen). destruct (place_enters n si Hk Hen ltac:(lia)) as (si' & Hs & Hen'). exists si'. split; [|exact Hen'].
  rewrite seq_S, fold_outcome_app, He. cbn [mbind outcome_bind plus fold_outcome]. now rewrite Hs.
Qed.

Lemma count_of_set p suit quality : suit <> 0 -> count_pieces p suit quality = count_pieces (of_set p) suit quality.
Proof.
  intros Hs. unfold count_pieces. induction p as [|x p IH]; [reflexivity|]. unfold zlen in *. rewrite (list.filter_cons _ x p), (list.filter_cons _ x p).
  destruct (decide (fst x = suit /\ quality <= snd x)) as [Hd|Hd].
  - rewrite decide_True by (destruct Hd; congruence). rewrite list.filter_cons, decide_True by exact Hd. cbn [length]. lia.
  - destruct (decide (fst x <> 0)); [rewrite list.filter_cons, decide_False by exact Hd|]; exact IH.
Qed.

Lemma suits_part_of_set p q : of_set p ≡ₚ of_set q -> suits_part cfg p ≡ₚ suits_part cfg q.
Proof.
  intros Hpq. unfold suits_part.
  assert (Hc : forall s j, s <> 0 -> count_pieces p s j = count_pieces q s j).
  { intros s j Hs. rewrite (count_of_set p s j Hs), (count_of_set q s j Hs). unfold count_pieces, zlen. f_equal. apply Permutation_length. now rewrite Hpq. }
  assert (Hs : suits_of p ≡ₚ suits_of q).
  { apply list.NoDup_Permutation; [apply NoDup_remove_dups..|]. intros s. unfold suits_of. rewrite !elem_of_remove_dups. now rewrite Hpq. }
  assert (Hz : forall s, s ∈ suits_of p -> s <> 0).
  { intros s Hin. unfold suits_of in Hin. apply elem_of_remove_dups, list_elem_of_fmap in Hin as (x & -> & Hx). now apply list_elem_of_filter in Hx. }
  transitivity (flat_map (suit_bonus cfg q) (suits_of p)); [|now apply flat_map_perm]. apply perm_eq, flat_map_ext_in. intros s Hin. unfold suit_bonus. apply flat_map_ext_in. intros k _.
  induction qualities as [|j js IH]; [reflexivity|]. cbn [best]. now rewrite (Hc s (Z.of_nat j) (Hz s Hin)), IH.
Qed.

Lemma prefix_seq pre i post n : seq 1 n = pre ++ i :: post -> (1 <= i <= n)%nat /\ pre ++ [i] = seq 1 i.
Proof.
  intros E. pose proof (f_equal length E) as Hl. rewrite length_seq, length_app in Hl. cbn in Hl.
  assert (Hi : i = (1 + length pre)%nat).
  { pose proof (f_equal (fun l => l !! length pre) E) as Hx. cbn beta in Hx. rewrite list_lookup_middle in Hx by reflexivity. rewrite lookup_seq_lt in Hx by lia. now injection Hx. }
  split; [lia|]. assert (Hc : pre ++ i :: post = (pre ++ [i]) ++ post) by now rewrite <- app_assoc. rewrite Hc in E. replace n with (i + (n - i))%nat in E by lia. rewrite seq_app in E.
  apply app_inj_1 in E as [E _]; [now rewrite E|]. rewrite length_seq, length_app. cbn. lia.
Qed.

Lemma contributions_meant l : few_pieces -> affixes_kept -> types_kept -> kinds_alike -> what_counts = Ret l ->
  exists l' pieces, contributions cfg pl hero = Ret (l', pieces) /\ filter effective l' ≡ₚ filter effective l /\ forall suit, suit <> 0 -> count_pieces pieces suit 0 < 10.
Proof.
  intros Hfew Hkept Htypes Hkinds Hw. unfold what_counts in Hw. unfold contributions. destruct (talents_part cfg pl hero) as [talents| | |] eqn:Et; try discriminate. cbn [mbind outcome_bind] in *.
  destruct (collect place_part _) as [r| | |] eqn:Er; try discriminate. cbn [mbind outcome_bind] in Hw. injection Hw as <-.
  destruct (places_enter EQUIP_INTO_BATTLE_MAX Hkept ltac:(lia)) as (pieces & Hs & Hen). fold pieces_worn in Hen.
  destruct (places_known pieces Hkinds (seq 1 EQUIP_INTO_BATTLE_MAX) (own_part cfg hero ++ talents) r (repeat (0, 0) SUIT_SLOT_COUNT)) with (2 := Hs) as (l' & -> & El); [intros i Hi; apply elem_of_seq in Hi; lia|exact Er| |].
  { intros pre i post m f Hseq Hwi Hm Hf. apply prefix_seq in Hseq as [Hi Hpre]. rewrite Hpre in Hm. eapply list.Forall_impl; [exact (Htypes i talents m f Hi Hwi Et Hm Hf)|]. intros p Hp He. rewrite <- app_assoc. auto. }
  cbn [mbind outcome_bind]. destruct Hen as [_ _ _ Hp]. fold pieces_worn in Hp. eexists _, pieces. split; [reflexivity|]. split.
  - rewrite !list.filter_app, El, (suits_part_of_set _ _ Hp), <- !app_assoc. reflexivity.
  - intros suit Hz. rewrite (count_of_set pieces suit 0 Hz). specialize (Hfew suit Hz). rewrite (count_of_set pieces_worn suit 0 Hz) in Hfew. eapply Z.le_lt_trans; [|exact Hfew].
    unfold count_pieces, zlen. apply Z.eq_le_incl. f_equal. apply Permutation_length. now rewrite Hp.
Qed.
End Intended.

(** C19: A hero has exactly what counts for it.  What is meant to count is [what_counts], which lists it without the
    list of properties and the arrays of the code: the base, levels, stages, stars and talents of the hero and its
    weapon; the equipment and the affixes on it at the twelve places, with the ratio of its kind the further
    equipment there; for every set and each number of pieces from two on what the best quality that many pieces have
    gives, counting all the equipment and all the affixes worn; the buffs and the fashion.  When all of this can be
    computed ([what_counts] fails where a value does not fit an [int] or a talent has too few bytes),
    [calc_hero_property] returns a list in which each type occurs once, with the sum (as an [int]) of all that counts
    for it, in whatever order it is added.  This is so where four things the code gets wrong do not occur: a set with
    ten pieces ([few_pieces]); an affix of a set at place 1 together with the equipment at the place from 7 on whose
    entry it takes ([affixes_kept]); further equipment with a type that neither the hero nor its equipment up to the
    place has ([types_kept]); and a ratio or number of groups of the first kind of places that differs from that of
    the second ([kinds_alike]).  Without the last three something is lost or counted otherwise
    ([affix_suit_overwritten], [addon_type_lost], [common_12_unused]). *)
Theorem hero_has_what_counts (cfg : configs) (pl : holder) (hero : Hero) l :
  is_player pl = true -> few_pieces cfg pl hero -> affixes_kept cfg pl hero -> types_kept cfg pl hero -> kinds_alike cfg pl hero -> what_counts cfg pl hero = Ret l ->
  exists head, calc_hero_property cfg pl hero [] = Ret head /\ agrees head l /\ forall k t, k ≡ₚ l -> t <> 0 -> value_of head t = i32 (total t k).
Proof.
  intros Hp Hfew Hkept Htypes Hkinds Hw. destruct (contributions_meant cfg pl hero l Hfew Hkept Htypes Hkinds Hw) as (l' & pieces & Hc & He & Hs).
  destruct (contributions_added cfg pl hero l' pieces Hp Hc Hs) as (head & Hh & Ha). exists head. split; [exact Hh|]. apply (agrees_effective head l' l He) in Ha. split; [exact Ha|].
  intros k t Hk Ht. rewrite (ag_value _ _ Ha t Ht). f_equal. symmetry. now apply total_perm.
Qed.

(** ** Examples *)

(** A hero with a weapon, a ring at place 1 and a further one of group 1 there, two pieces of a set. *)
Definition sample_configs : configs := mk_configs
  (fun gid => if gid =? 11000 then Some (mk_hero_config 11000 700 [(1001, 50); (1002, 7)] 1 2 3 [(1003, 4)]) else None)
  (fun id => if id =? 700 then Some (mk_weapon_config [(1001, 20)] 9) else None)
  (fun id => if id =? 11000 then Some [(1001, 3); (1002, 1)] else None)
  (fun gid i => if gid =? 11000 then Some (mk_evo_config [(1002, i)] [(1004, 5); (1001, 6)]) else None)
  (fun gid i => if gid =? 700 then Some [(1001, i)] else None)
  (fun id index => if (id =? 1) && (index =? 2) then Some (mk_talent_config 3 [(1001, 10, 2)]) else None)
  (fun _ => [])
  (fun gid => if gid =? 50 then Some (mk_equip_config [(1001, 100)] [(1002, 3)] 8 2) else if gid =? 51 then Some (mk_equip_config [(1009, 200)] [(1001, 10)] 0 0) else None)
  (fun id => if id =? 60 then Some (mk_affix_config 1001 5000 30 2 8 3) else None)
  (fun suit j k => if (suit =? 8) && (k =? 2) then Some [(1001, 1000 + j); (1005, 1)] else None)
  (fun id => if id =? 13 then Some (5000, 1) else None)
  (fun id => if id =? 4 then Some (mk_buff_config 1002 2 0) else None)
  (fun gid item => if item =? 77 then Some (1001, 9) else None).
Definition sample_holder : holder := mk_holder true
  (fun type uuid => if type =? TalentType_Hero then Some ([48; 53] ++ repeat 48 43) else None)
  (fun uuid i => if i =? 2 then Some (mk_equip 50 4 [(60, 10, 3)]) else if i =? 3 then Some (mk_equip 50 1 []) else if i =? 258 then Some (mk_equip 51 2 []) else None)
  [(4, 6)] [(1, 5, 77); (0, 5, 77)].
Definition sample_hero : Hero := mk_hero 5 11000 10 1 2 0 1 0 0 2.

(** A hero whose further equipment has nothing that others have not, with an affix of the set at place 1. *)
Definition kept_holder : holder := mk_holder true (talent_get sample_holder)
  (fun uuid i => if i =? 1 then Some (mk_equip 50 1 [(60, 10, 3)]) else if i =? 2 then Some (mk_equip 50 4 [(60, 10, 3)]) else if i =? 258 then Some (mk_equip 50 2 []) else None)
  (buffs sample_holder) (hero_items sample_holder).

Lemma hero_has_what_counts_witness :
  exists l, what_counts sample_configs kept_holder sample_hero = Ret l /\
  exists head, calc_hero_property sample_configs kept_holder sample_hero [] = Ret head /\ agrees head l /\ (forall k t, k ≡ₚ l -> t <> 0 -> value_of head t = i32 (total t k)) /\ value_of head 1001 = 1432.
Proof.
  destruct (what_counts sample_configs kept_holder sample_hero) as [l| | |] eqn:E; [|vm_compute in E; discriminate..]. exists l. split; [reflexivity|].
  destruct (hero_has_what_counts sample_configs kept_holder sample_hero l) as (head & Hh & Ha & Hv).
  - reflexivity.
  - intros suit Hs. eapply Z.le_lt_trans; [exact (count_bound _ suit 0 Hs)|]. vm_compute. reflexivity.
  - intros j equip a ac other c [= <-] Ha _ _ Hw _. destruct j as [|j]; [discriminate Hw|discriminate Ha].
  - intros i talents m f Hi [equip Hw] Ht Hm Hf. do 13 (destruct i as [|i]; [first [lia|discriminate Hw|vm_compute in Ht, Hm, Hf; injection Ht as <-; injection Hm as <-; injection Hf as <-; apply (bool_decide_unpack _); vm_compute; exact I]|]).
    unfold EQUIP_INTO_BATTLE_MAX in Hi. lia.
  - intros i Hi [equip Hw]. do 13 (destruct i as [|i]; [first [lia|discriminate Hw]|]). unfold EQUIP_INTO_BATTLE_MAX in Hi. lia.
  - exact E.
  - exists head. repeat (split; [assumption|]). vm_compute in Hh. injection Hh as <-. vm_compute. reflexivity.
Defined.

(** The property 1009 of the further equipment is lost: no other piece has it. *)
Lemma addon_type_lost : exists head k, calc_hero_property sample_configs sample_holder sample_hero [] = Ret head /\ equip_part sample_configs (mk_equip 51 2 []) 5000 = Ret k /\
  (1009, 100) ∈ k /\ value_of head 1009 = 0.
Proof.
  eexists _, _. split; [vm_compute; reflexivity|]. split; [vm_compute; reflexivity|]. split; [left|reflexivity].
Qed.

(** A property that gets less with every level has no value: the level is unsigned, so the product is above 2^31. *)
Lemma levelup_negative_undefined cfg t : get_equip_config cfg 50 = Some (mk_equip_config [] [(t, -3)] 0 0) -> calc_equip_property cfg (mk_equip 50 2 []) [] 10000 = Undef.
Proof. intros Hc. unfold calc_equip_property. cbn [e_gid]. rewrite Hc. vm_compute. reflexivity. Qed.

(** A set of an affix at place 1 is overwritten by the equipment at place 7: both write the seventh entry. *)
Lemma affix_suit_overwritten : let cfg := sample_configs in
  exists s s', suit_pieces cfg (mk_equip 51 1 [(60, 1, 1)]) 1 (repeat (0, 0) SUIT_SLOT_COUNT) = Ret s /\ s !! 6%nat = Some (8, 3) /\
    suit_pieces cfg (mk_equip 51 1 []) 7 s = Ret s' /\ s' !! 6%nat = Some (0, 0).
Proof. eexists _, _. split; [vm_compute; reflexivity|]. split; [reflexivity|]. split; [vm_compute; reflexivity|reflexivity]. Qed.

(** Every place counts as the second type: the first common configuration is never used. *)
Lemma common_12_unused cfg i : (1 <= i <= 12)%nat -> IS_EQUIP_TYPE_1 (Z.of_nat i) = false /\ (forall c, get_common_config cfg 13 = Some c -> addon_groups cfg (Z.of_nat i) = (snd c, fst c)).
Proof.
  intros Hi. do 13 (destruct i as [|i]; [first [lia|split; [reflexivity|]; intros c Hc; unfold addon_groups; rewrite Hc; destruct (get_common_config cfg 12); reflexivity]|]). lia.
Qed.

(** ** Levels *)

(** C40: The level of some experience.  With a table whose levels from 1 on are there up to some level and need more and
    more, [calc_level_by_exp] returns the highest level the experience reaches, and 0 without a table, within one
    round for each level. *)
Theorem level_by_exp_highest (get_upgrade_config : Z -> Z -> option Z) (type : Z) (top : Z) exp (fuel : nat) :
  0 <= top -> (forall i, 1 <= i -> is_Some (get_upgrade_config i type) <-> i <= top) ->
  (forall i j a b, 1 <= i < j -> get_upgrade_config i type = Some a -> get_upgrade_config j type = Some b -> a <= b) -> top < Z.of_nat fuel ->
  exists level, calc_level_by_exp get_upgrade_config fuel exp type = Ret level /\ 0 <= level <= top /\
    forall i consume, 1 <= i -> get_upgrade_config i type = Some consume -> i <= level <-> consume <= exp.
Proof.
  intros Ht Htab Hmono Hf. unfold calc_level_by_exp. destruct (get_upgrade_config 1 type) as [c1|] eqn:E1.
  2:{ exists 0. split; [reflexivity|]. split; [lia|]. intros i c Hi Hc. exfalso. assert (Hn : ~ is_Some (get_upgrade_config 1 type)) by (rewrite E1; intros [x [=]]). apply Hn, Htab; [lia|].
      assert (i <= top) by (apply Htab; [exact Hi|]; eauto). lia. }
  cut (forall fuel i, 1 <= i -> top < i - 1 + Z.of_nat fuel -> i - 1 <= top -> (forall k c, 1 <= k < i -> get_upgrade_config k type = Some c -> c <= exp) ->
    exists level, (fix loop (fuel : nat) (i : Z) {struct fuel} : outcome Z := match fuel with O => NoFuel | S fuel' => match get_upgrade_config i type with Some consume => if exp <? consume then Ret (i - 1) else loop fuel' (i + 1) | None => Ret (i - 1) end end) fuel i = Ret level /\
      0 <= level <= top /\ forall k consume, 1 <= k -> get_upgrade_config k type = Some consume -> k <= level <-> consume <= exp).
  { intros Hcut. apply (Hcut fuel 1); lia. }
  clear c1 E1 Hf fuel. induction fuel as [|fuel IH]; intros i Hi Hfu Htop Hdone; [lia|]. cbn [Z.of_nat] in *.
  destruct (get_upgrade_config i type) as [c|] eqn:Ei.
  - assert (Hit : i <= top) by (apply Htab; [exact Hi|]; rewrite Ei; eauto). destruct (Z.ltb_spec exp c) as [Hlt|Hge].
    + exists (i - 1). split; [reflexivity|]. split; [lia|]. intros k ck Hk Hck. split; [intros Hle; apply (Hdone k ck); [lia|exact Hck]|].
      intros Hle. destruct (Z.le_gt_cases k (i - 1)) as [|Hgt]; [assumption|exfalso]. destruct (decide (k = i)) as [->|Hne]; [rewrite Ei in Hck; injection Hck as <-; lia|].
      specialize (Hmono i k c ck ltac:(lia) Ei Hck). lia.
    + apply (IH (i + 1)); try lia. intros k ck Hk Hck. destruct (decide (k = i)) as [->|Hne]; [rewrite Ei in Hck; injection Hck as <-; lia|]. apply (Hdone k ck); [lia|exact Hck].
  - assert (Hn : ~ i <= top) by (intros Hle; apply Htab in Hle as [x Hx]; [congruence|exact Hi]). exists (i - 1). split; [reflexivity|]. split; [lia|]. intros k ck Hk Hck.
    assert (k <= top) by (apply Htab; [exact Hk|]; rewrite Hck; eauto). split; [intros _; apply (Hdone k ck); [lia|exact Hck]|lia].
Qed.

Definition sample_levels (i type : Z) : option Z := if (type =? 1) && (1 <=? i) && (i <=? 100) then Some (i * i * 10) else None.
Lemma level_by_exp_highest_witness : exists level, calc_level_by_exp sample_levels 101 250 1 = Ret level /\ 0 <= level <= 100 /\ forall i consume, 1 <= i -> sample_levels i 1 = Some consume -> i <= level <-> consume <= 250.
Proof.
  apply (level_by_exp_highest sample_levels 1 100 250 101).
  - lia.
  - intros i Hi. unfold sample_levels. cbn [Z.eqb Pos.eqb andb]. destruct (Z.leb_spec 1 i), (Z.leb_spec i 100); cbn [andb]; split; try lia; try (intros [x [=]]; fail); eauto.
  - intros i j a b Hij. unfold sample_levels. cbn [Z.eqb Pos.eqb andb]. destruct (_ && _); [|discriminate]. intros [= <-]. destruct (_ && _); [|discriminate]. intros [= <-]. nia.
  - reflexivity.
Defined.
